(* ===== verification/_CoqProject ===== *)
-Q . S2P
Prelude.v
GoStr.v
GoFloat.v
GoJson.v
JsonFacts.v
StrFacts.v
GoInt.v
GoTime.v
World.v
Items.v
ItemFacts.v
ItemProps.v
Normalize.v
NormProps.v
Context.v
Store.v
StoreFacts.v
StoreProps.v
PageProps.v
ResponseProps.v
ConvService.v
ConvProps.v
StoreInstance.v
Base64.v
Compaction.v
CompactionProps.v
Compactor.v
CompactorProps.v
Memory.v
MemoryProps.v
ToolMarkup.v
TextFormat.v
TextProps.v
Response.v
LocalGen.v
RespService.v
RespManage.v
LocalProps.v
SurfaceProps.v
Chat.v
ChatProps.v
ChatStream.v
ChatStreamProps.v
ApiErrors.v
ApiErrorProps.v
Sse.v
SseProps.v
Streaming.v
Replay.v
ReplayProps.v
Providers.v
ProviderProps.v
Handlers.v
Catalog.v
CatalogProps.v
FloatOps.v
Sha256.v
Guard.v
GuardProps.v
RateProps.v
ServiceFacts.v
ServiceProps.v
HistoryProps.v
RequestProps.v
StreamingProps.v
ReadBack.v
Routing.v
HandlerProps.v
RoutingProps.v
Terms.v
TermProps.v
Retrieval.v
Ranking.v
RankingProps.v
VectorStore.v
IndexProps.v
SearchProps.v
Compat.v
CompatProps.v
RetrievalHandlers.v
