(* ===== verification/Prelude.v ===== *)
(** * llama_shim: a verification development of its state-keeping core

    llama_shim is a Go server that puts the OpenAI Responses and Conversations
    API in front of a llama.cpp server, which keeps no state.  The shim keeps
    it: it normalizes the items of a request, finds the history the request
    continues (a chain of responses, or a conversation), compacts it when it is
    too long, asks the model for a text, checks and repairs that text, and
    stores the response and the new items in one transaction.  It also keeps
    the chat completions that pass through it, streamed ones included, and
    files in vector stores that are searched by their terms.  This library
    models that core, from the text of a request to the rows of the database and
    the events of a stream and back, and proves what makes it correct.

    ** The parts of the program and the files that model them

    The layers of the program are those of src/internal: [domain] (data and
    pure functions), [storage/sqlite] (tables), [service] (what a request
    does) with small packages it calls ([compactor], [memory],
    [toolmarkup], [retrieval]), and [httpapi] (what is read from and written to the
    connections).  A layer calls only the ones before it.

    - The language and its library.  [Prelude] has errors, results and
      automation; [GoStr] the packages strings, bytes, utf8 and strconv;
      [GoFloat], [GoJson] encoding/json and its numbers; [GoInt] the
      64-bit int and the objects written from a Go map; [GoTime] domain/time.go and package time; [Base64]
      encoding/base64; [World] the state monad and domain/ids.go.  Their facts
      are in [JsonFacts] and [StrFacts].
    - domain.  [Items] is items.go; [Normalize] is normalize.go and
      conversation_metadata.go; [Context] is models.go, context_builder.go,
      local_generation.go and conversation_items.go; [Compaction] is
      compaction.go; [TextFormat] is response_text.go; [Response] is
      response.go, response_json.go, response_parse.go and
      response_surface.go; [Chat] has chat_completions.go and [Retrieval] is
      retrieval.go.
    - storage/sqlite.  [Store] is conversations.go, responses.go, tx.go and
      response_replay_artifacts.go with the tables of storage/migrations;
      [Memory] has memory.go, [Chat] has chat_completions.go.  [VectorStore]
      is retrieval.go over its own tables, with the lexical and the full-text
      backend of retrieval_backend.go; [Terms] has the terms, chunks and scores
      of both files and [Ranking] the collecting, fusing and reranking of
      results.
    - retrieval.  [Terms] has query_planner.go, [Retrieval] has config.go and
      index.go.
    - service.  [ConvService] is conversations.go and conversation_items.go,
      over the interface of storage/contracts.go as a class; [Memory] has
      memory.go; [TextFormat] and [LocalGen] have response_text.go;
      [LocalGen], [RespService] and [RespManage] are responses.go.
    - [Compactor] is compactor/compactor.go, [ToolMarkup] toolmarkup/raw.go,
      [Memory] holds memory/config.go, and [Compat] is
      upstreamcompat/chat_completions.go, how a chat completion request is
      rewritten for models that lack a part of the API.
    - httpapi.  [ChatStream] is chat_completion_stream_store.go, the capture
      of a streamed chat completion that is to be stored; [Sse] is the event
      emitter of sse.go and, from ssetrace/parser.go, the parser that reads
      captured streams; [ApiErrors] is errors.go and backend_failure_policy.go,
      what a client is told of an error; [Streaming] is response_streaming.go
      and the handler createStream, which runs the service with callbacks that
      write to the client; [Replay] is the replay of a stored response, from
      response_retrieve.go, response_stream_replay.go,
      response_replay_local_coding_tools.go and the shapes of tool events in
      response_stream_proxy.go; [Handlers] is handlers_conversations.go, the
      queries and pages of response_retrieve.go, and get, delete and
      getInputItems of handlers_responses.go; [Routing] is
      handlers_responses_modes.go, mcp_tool_validation.go and, from
      handlers_responses.go, the decoding of a request, the handlers of token
      counts and compaction, and the policy of falling back; [Providers] and
      [Catalog] are upstream_provider_routing.go with the provider
      configuration of config/config.go and the model list of llama/client.go;
      [Guard] is ops.go, middleware.go and llama/context.go, who gets in and
      with which headers, over the float64 arithmetic of [FloatOps] and the
      hash of [Sha256]; [RetrievalHandlers] is handlers_retrieval.go, the
      handlers of files and vector stores.

    Definitions have the names of the source.  A struct is a record whose
    fields carry a prefix, a pure function a function, a function with an
    error a function into [res] (a value, an error or a panic), a function
    with effects one into [ST S] (World), which returns the state reached
    also when it fails.  The state of a store is [world] (the tables and the
    counters of identifiers and statements), the state of the response
    service is [sworld] (a [world], the number of calls of the model, of the
    clock and of the request context, and the events sent to the client).

    ** What the theorems show

    - Items ([ItemFacts], [ItemProps], [NormProps]): what normalization
      accepts, the form of what it returns, when it fails and the one input on
      which it panics; an item and its metadata read back as they were stored.
    - The store ([StoreFacts], [StoreProps], [PageProps], [ResponseProps],
      [MemoryProps]): an invariant of every reachable database, all-or-nothing
      writes whichever statement fails, no lost update, what a read returns
      after a write, paging as a walk over the ordered conversation that ends
      and visits every item once, the lineage of a response as the chain of its
      predecessors, the limits on replay artifacts, which notes a session sees.
    - Chat completions ([ChatProps], [ChatStreamProps]): a stored completion
      is returned as it was, its messages are listed as they were sent, pages
      of completions and messages follow the order and the cursor of the
      query, a stream is put together again from its chunks, and what is held
      of a stream is bounded.
    - Events ([SseProps]): what the emitter writes, the parser reads back,
      with consecutive sequence numbers.
    - Errors ([ApiErrorProps]): every error has an error status and a text
      that is fixed or meant for the client; an error object printed inside a
      message is found again; rewritten bodies have the form of the API.
    - Streams ([StreamingProps], [ReplayProps]): what a streaming client has
      received is always a prefix of one protocol, whatever fails; a replay is
      one numbered trace that can be resumed at any event, and the events of
      an item stand between its start and its end and name it.
    - Handlers ([HandlerProps]): a page of input items is the stretch after its
      cursor; the answer to an append says exactly what was appended, over any
      store that keeps the contract.
    - Routes ([RoutingProps]): the route of a request respects the mode of the
      shim; counting tokens and compacting change nothing and are passed on
      only when they may be.
    - Providers ([ProviderProps], [CatalogProps]): exactly the advertised
      models can be used, and the model list agrees with the readiness check,
      in whichever order the providers answer.
    - The gateway ([GuardProps], [RateProps]): only configured tokens get in
      and they go no further, a concurrency gate is never held by more than its
      limit, and the rate limiter lets in what its rate pays for, with an
      explicit bound on the rounding of its arithmetic.
    - Retrieval ([TermProps], [RankingProps], [IndexProps], [SearchProps]): the
      chunks of a file are overlapping windows that hold its whole text; the
      full-text index agrees with the chunks after any sequence of operations,
      whichever statements fail; a search returns the best matching files in
      order, and the full-text backend ranks them as the scan of all chunks does.
    - The handlers of retrieval ([RetrievalHandlers]): a search is answered
      within the limits of the service, with the best matches, and gives its
      place at the gate back; a file is downloaded as it was uploaded.
    - Compatibility ([CompatProps]): a rewritten chat completion request meets
      its rule and keeps its other fields, patterns of models are globs, and
      the schemas of tool parameters are completed at every depth.
    - The conversation service ([ConvProps]) is proved against
      [ConversationStore] and [ConversationStoreSpec]; [StoreInstance] proves
      that the sqlite store keeps that contract.
    - Compaction ([CompactionProps], [CompactorProps]): payloads read back,
      compactions expand to what they hold, and compacting always answers.
    - Generated text ([TextProps], [LocalProps], [ToolMarkup]): the schema
      checks decide an inductively defined relation, the scan for tool calls
      decides a declarative one, the repair loop calls the model at most three
      times and never returns tool markup.
    - Requests ([ServiceFacts], [ServiceProps], [HistoryProps],
      [RequestProps], [ReadBack], [SurfaceProps]): a failing request changes
      nothing, one that is not to be stored leaves nothing, a successful one
      extends its conversation by exactly its turn, the stream announces what
      is then stored, a stored response is returned as it was, shadow responses
      stay hidden, tools are shown without their secrets, and both ways of
      reaching a history give the same context.

    Where the code does not do what it means to, a theorem or a [Fact] says
    what it does instead: an automatic compaction drops the input of its own
    turn (HistoryProps), a null item panics and a text with control characters
    is lost (NormProps), a tool output cut inside a rune is lost (LocalProps),
    and the others at the end of ItemProps, ResponseProps, SurfaceProps,
    TextProps, MemoryProps, ChatProps, StreamingProps, ReplayProps,
    RoutingProps, GuardProps, IndexProps, SearchProps, CompatProps and
    RetrievalHandlers.

    ** Fuel

    Recursion that is not structural has fuel, and a lemma says how much is
    enough.  The JSON parser has [parse_fuel], linear in the length of its
    input (JsonFacts: a printed tree parses, and more fuel gives the same
    result).  The lineage loop has two rounds more than the response table has
    rows, enough because its guard against cycles lets it visit a row once
    (ResponseProps).  The schema checks have the depth of the schema plus one
    (TextProps), the scans of tool markup the length of the text plus one
    (ToolMarkup), chunking as many rounds as there are terms (TermProps), and a
    search filter the depth of its JSON (Retrieval).  The repair loop of a generated text is bounded by the code
    itself.

    ** Parameters

    What the program gets from outside is an argument, through a class:
    [Sqlite] says which statements fail and which connections enforce foreign
    keys, [IdSource] is the UUID generator, [MapOrder] the order in which Go
    ranges over a map, [UnicodeTable] what of strconv.IsPrint is not ASCII,
    [LetterTable] what package unicode says of letters, numbers and case beyond
    ASCII, [Fts5] the matching and ranking of the full-text extension,
    [UnixClock] the seconds of the clock,
    [RequestContext] when a request is cancelled, [TextModel] and [Generator]
    the upstream model, [Clock] the time, [Writer] when the connection of a
    client breaks and whether it can be flushed, [LibraryText] the texts of
    the errors of libraries, [FloatConversion] the int64 the language leaves
    open when a float is out of range, [Arrivals] the order in which the answers
    of providers asked at the same time arrive.  The HTTP exchange with a
    provider is an argument of the functions of Catalog.  Theorems hold for all their values;
    where one needs a promise of them, such as fresh identifiers, it is a
    hypothesis, and the witness gives an instance that keeps it.

    ** What is abstracted

    White space inside a json.RawMessage and the decoder's nesting limit of
    10000 are not represented.  Changing case is exact where ASCII letters are
    involved, which is all the code compares.  Errors of json.Marshal that
    cannot occur for the values passed are left out, as are log lines and
    metrics.  Requests are sequences of steps on one database; a transaction
    of sqlite is serial, and interleavings of requests are sequences of store
    operations (StoreProps).

    ** What is not modelled

    The rest of src/internal/httpapi (the proxies and the tool loops over
    net/http, the parsers of local tool configurations and the handlers of
    containers), the HTTP client of src/internal/llama
    and the providers for search, images, sandboxes and embeddings (clients of
    other servers), the semantic backend of retrieval (vectors of an embedding
    service in tables of the vec0 extension), the postgres store (a second
    implementation of the contracts proved here for sqlite, in another dialect),
    containers and governance in the sqlite store, the loading of
    src/internal/config (a third-party library), telemetry, the commands, and
    the evaluation and test tools. *)

From stdpp Require Export base list gmap strings sorting.
From Stdlib Require Export Ascii ZArith Lia.

#[global] Set Default Goal Selector "!".

Declare Scope shim_scope.
Delimit Scope shim_scope with shim.
#[global] Open Scope shim_scope.

(** ** Go errors and results *)

(** The error values the modelled packages create.  [EWrap] is
    [fmt.Errorf("ctx: %w", err)]; [EDecode] stands for an error returned by
    a decoder of the standard library, whose text the code never inspects. *)
Inductive goerr : Type :=
| EValidation (param message : string)
| EUnsupportedShape
| ENotFound            (** storage.ErrNotFound *)
| EConflict            (** storage.ErrConflict *)
| ESvcNotFound         (** service.ErrNotFound *)
| ESvcConflict         (** service.ErrConflict *)
| EInvalidResponse (message : string)  (** llama.InvalidResponseError *)
| EUpstreamTimeout (message : string)  (** llama.TimeoutError *)
| EUpstream (status : Z) (message : string)  (** llama.UpstreamError *)
| ESvcUpstreamTimeout  (** service.ErrUpstreamTimeout *)
| ESvcUpstreamFailure  (** service.ErrUpstreamFailure *)
| ECanceled            (** context.Canceled *)
| EDeadlineExceeded    (** context.DeadlineExceeded *)
| ERawMarkup (content : string)        (** httpapi.rawToolCallMarkupError *)
| EBodyTooLarge (surface : string) (maxBytes : Z)  (** httpapi.upstreamResponseBodyTooLargeError *)
| EToolChoice (message : string)       (** httpapi.toolChoiceIncompatibleBackendError *)
| ERateLimit (message code : string)   (** httpapi.rateLimitExceededError *)
| ENet (timeout : bool)  (** a net.Error *)
| EDecode (what : string)      (** of encoding/json, and the other libraries *)
| EConstraint (what : string)
| ELibrary (what : string)
| EMsg (message : string)
| EWrap (ctx : string) (e : goerr).

(** A Go call returns a value, returns an error, or panics. *)
Inductive res (A : Type) : Type :=
| Ok (a : A)
| Err (e : goerr)
| Panic.
Arguments Ok {A} a.
Arguments Err {A} e.
Arguments Panic {A}.

#[global] Instance res_ret : MRet res := fun A a => Ok a.
#[global] Instance res_bind : MBind res := fun A B f m =>
  match m with Ok a => f a | Err e => Err e | Panic => Panic end.
#[global] Instance res_fmap : FMap res := fun A B f m =>
  match m with Ok a => Ok (f a) | Err e => Err e | Panic => Panic end.

#[global] Instance goerr_eq_dec : EqDecision goerr.
Proof. solve_decision. Defined.

#[global] Instance res_eq_dec {A} `{EqDecision A} : EqDecision (res A).
Proof. solve_decision. Defined.

(** [errors.Is(err, target)] for the sentinel errors: the chain of wrapped
    errors is searched. *)
Fixpoint errors_is (target e : goerr) : bool :=
  bool_decide (e = target) ||
  match e with EWrap _ e' => errors_is target e' | _ => false end.

(** [errors.As(err, &target)]: the first error of the chain that has the type,
    which [p] recognises. *)
Fixpoint errors_as {A} (p : goerr -> option A) (e : goerr) : option A :=
  match p e, e with
  | Some a, _ => Some a
  | None, EWrap _ e' => errors_as p e'
  | None, _ => None
  end.

(** [fmt.Errorf(ctx + ": %w", err)] on the error path of a call. *)
Definition wrap_err {A} (ctx : string) (m : res A) : res A :=
  match m with Ok a => Ok a | Err e => Err (EWrap ctx e) | Panic => Panic end.

(** A decoder of the standard library: [None] is its error. *)
Definition of_option {A} (e : goerr) (o : option A) : res A :=
  match o with Some a => Ok a | None => Err e end.

Definition is_ok {A} (m : res A) : bool :=
  match m with Ok _ => true | _ => false end.

(** The loop [for _, x := range xs { y, err := f(x); if err != nil { return
    nil, err }; out = append(out, y) }]. *)
Fixpoint res_map {A B} (f : A -> res B) (xs : list A) : res (list B) :=
  match xs with
  | [] => Ok []
  | x :: xs => f x ≫= fun y => res_map f xs ≫= fun ys => Ok (y :: ys)
  end.

(** ** Automation *)

Create HintDb shim.

(** Case analysis on the head [match] of a hypothesis or the goal, keeping
    the equation, followed by stdpp's simplification. *)
Ltac go_step :=
  match goal with
  | H : _ ∧ _ |- _ => destruct H
  | H : ∃ _, _ |- _ => destruct H
  | H : Ok _ = Ok _ |- _ => injection H as H; subst
  | H : (match ?x with _ => _ end) = _ |- _ =>
      let E := fresh "E" in destruct x eqn:E; try discriminate H
  end.

Ltac go := repeat (go_step; simplify_eq/=).

Ltac goal_case :=
  match goal with
  | |- context [match ?x with _ => _ end] =>
      let E := fresh "E" in destruct x eqn:E
  end.

(** ** Results *)

Lemma res_bind_ok {A B} (m : res A) (f : A -> res B) b :
  m ≫= f = Ok b <-> exists a, m = Ok a /\ f a = Ok b.
Proof.
  destruct m as [a|e|]; simpl; split; try (by intros (?&?&?)); try done.
  - by exists a.
  - by intros (? & [= ->] & ?).
Qed.

Lemma wrap_err_ok {A} ctx (m : res A) a : wrap_err ctx m = Ok a <-> m = Ok a.
Proof. destruct m; naive_solver. Qed.

Lemma of_option_ok {A} e (o : option A) a : of_option e o = Ok a <-> o = Some a.
Proof. destruct o; naive_solver. Qed.

Create Rewrite HintDb shim.
#[export] Hint Rewrite @wrap_err_ok @of_option_ok @res_bind_ok : shim.

Ltac inv_ok H :=
  repeat (first [ apply res_bind_ok in H as (? & ? & H)
                | apply wrap_err_ok in H
                | apply of_option_ok in H ]; simpl in H).

Lemma res_map_ok_iff {A B} (f : A -> res B) xs ys :
  res_map f xs = Ok ys <-> Forall2 (fun x y => f x = Ok y) xs ys.
Proof.
  revert ys; induction xs as [|x xs IH]; intros ys; simpl.
  - split; [intros [= <-]; constructor | by inversion 1].
  - split.
    + intros (y & Hy & (ys' & H' & [= <-])%res_bind_ok)%res_bind_ok.
      constructor; [done|by apply IH].
    + inversion 1 as [|?? y ys' Hy Hys']; subst.
      rewrite Hy; simpl. apply IH in Hys' as ->. done.
Qed.

Lemma res_map_ext {A B} (f g : A -> res B) xs :
  (forall x, x ∈ xs -> f x = g x) -> res_map f xs = res_map g xs.
Proof.
  induction xs as [|x xs IH]; intros H; simpl; [done|].
  rewrite H by set_solver. rewrite IH; [done|]. intros; apply H; set_solver.
Qed.

Lemma res_map_length {A B} (f : A -> res B) xs ys :
  res_map f xs = Ok ys -> length ys = length xs.
Proof. intros H%res_map_ok_iff. symmetry. by eapply Forall2_length. Qed.

Lemma res_map_app {A B} (f : A -> res B) xs1 xs2 :
  res_map f (xs1 ++ xs2) =
  res_map f xs1 ≫= fun ys1 => res_map f xs2 ≫= fun ys2 => Ok (ys1 ++ ys2).
Proof.
  induction xs1 as [|x xs1 IH]; simpl.
  - by destruct (res_map f xs2).
  - destruct (f x); simpl; [|done..]. rewrite IH.
    destruct (res_map f xs1); simpl; [|done..]. by destruct (res_map f xs2).
Qed.

Lemma res_map_pure {A B} (g : A -> B) xs :
  res_map (fun x => Ok (g x)) xs = Ok (map g xs).
Proof. induction xs as [|x xs IH]; simpl; [done|]. by rewrite IH. Qed.

(** ** Strings *)

Lemma sapp_nil_r s : s +:+ "" = s.
Proof. induction s as [|a s IH]; [done|]. change (String a (s +:+ "") = String a s). by rewrite IH. Qed.

Lemma sapp_cons a s t : String a s +:+ t = String a (s +:+ t).
Proof. done. Qed.

Lemma sapp_nil_l s : "" +:+ s = s.
Proof. done. Qed.

Lemma sapp_assoc s t u : (s +:+ t) +:+ u = s +:+ (t +:+ u).
Proof. induction s as [|a s IH]; [done|]. by rewrite !sapp_cons, IH. Qed.

Lemma slength_app s t : String.length (s +:+ t) = String.length s + String.length t.
Proof. induction s as [|a s IH]; [done|]. rewrite sapp_cons. simpl. lia. Qed.

Create Rewrite HintDb sapp.
Create Rewrite HintDb slen.
#[export] Hint Rewrite sapp_nil_r sapp_nil_l sapp_cons sapp_assoc : sapp.
#[export] Hint Rewrite slength_app : slen.

Lemma string_len_ind (P : string -> Prop) :
  (forall s, (forall t, String.length t < String.length s -> P t) -> P s) -> forall s, P s.
Proof.
  intros H s. apply (well_founded_induction (Wf_nat.well_founded_ltof _ String.length)).
  intros x Hx. by apply H, Hx.
Qed.

(** [strings.Join]. *)
Fixpoint sjoin (sep : string) (xs : list string) : string :=
  match xs with
  | [] => ""
  | [x] => x
  | x :: xs => x +:+ sep +:+ sjoin sep xs
  end.

Fixpoint sconcat (xs : list string) : string :=
  match xs with [] => "" | x :: xs => x +:+ sconcat xs end.

Lemma sconcat_app xs ys : sconcat (xs ++ ys) = sconcat xs +:+ sconcat ys.
Proof. induction xs as [|x xs IH]; simpl; [done|]. by rewrite IH, sapp_assoc. Qed.

(** ** Go maps with string keys

    A Go map that the code marshals (encoding/json writes keys in sorted
    order) is an association list kept in strictly increasing key order, so
    that equal maps are equal lists. *)

Section amap.
Context {V : Type}.
Implicit Types m : list (string * V).

Fixpoint am_lookup (k : string) m : option V :=
  match m with
  | [] => None
  | (k', v) :: m => if decide (k = k') then Some v else am_lookup k m
  end.

Fixpoint am_insert (k : string) (v : V) m : list (string * V) :=
  match m with
  | [] => [(k, v)]
  | (k', v') :: m' =>
      match String.compare k k' with
      | Eq => (k, v) :: m'
      | Lt => (k, v) :: m
      | Gt => (k', v') :: am_insert k v m'
      end
  end.

Fixpoint am_delete (k : string) m : list (string * V) :=
  match m with
  | [] => []
  | (k', v') :: m => if decide (k = k') then am_delete k m else (k', v') :: am_delete k m
  end.

(** The map after the assignments [m[k1] = v1; m[k2] = v2; ...]. *)
Definition am_of_list (kvs : list (string * V)) : list (string * V) :=
  foldl (fun m kv => am_insert kv.1 kv.2 m) [] kvs.

(** The last binding of [k] in a list of assignments. *)
Definition last_binding (k : string) (kvs : list (string * V)) : option V :=
  foldl (fun o kv => if decide (k = kv.1) then Some kv.2 else o) None kvs.

Definition am_keys m : list string := map fst m.
End amap.

Fixpoint am_sorted_from (lo : option string) (ks : list string) : bool :=
  match ks with
  | [] => true
  | k :: ks =>
      match lo with
      | None => true
      | Some l => match String.compare l k with Lt => true | _ => false end
      end && am_sorted_from (Some k) ks
  end.

Definition am_sorted {V} (m : list (string * V)) : bool := am_sorted_from None (am_keys m).

Lemma scompare_refl k : String.compare k k = Eq.
Proof.
  induction k as [|a k IH]; simpl; [done|].
  unfold Ascii.compare. by rewrite N.compare_refl.
Qed.

Lemma scompare_lt_gt k k' : String.compare k k' = Lt <-> String.compare k' k = Gt.
Proof. rewrite (String.compare_antisym k k'). by destruct (String.compare k' k). Qed.

Lemma scompare_lt_trans k1 k2 k3 :
  String.compare k1 k2 = Lt -> String.compare k2 k3 = Lt -> String.compare k1 k3 = Lt.
Proof.
  intros H1 H2.
  assert (H13 : String.le k1 k3).
  { etrans; [|by unfold String.le, String.leb; rewrite H2].
    by unfold String.le, String.leb; rewrite H1. }
  unfold String.le, String.leb in H13.
  destruct (String.compare k1 k3) eqn:E; [|done|done].
  apply String.compare_eq_iff in E as ->.
  apply scompare_lt_gt in H2. congruence.
Qed.

Lemma am_lookup_insert {V} k (v : V) m : am_lookup k (am_insert k v m) = Some v.
Proof.
  induction m as [|[k' v'] m IH]; simpl; [by rewrite decide_True|].
  destruct (String.compare k k') eqn:E; simpl; [by rewrite decide_True..|].
  rewrite decide_False; [done|]. intros ->. rewrite scompare_refl in E. done.
Qed.

Lemma am_lookup_insert_ne {V} k k' (v : V) m :
  k <> k' -> am_lookup k' (am_insert k v m) = am_lookup k' m.
Proof.
  intros Hne. induction m as [|[k2 v2] m IH]; simpl; [by rewrite decide_False|].
  destruct (String.compare k k2) eqn:E; simpl.
  - apply String.compare_eq_iff in E as ->. by rewrite !decide_False.
  - by rewrite decide_False.
  - by rewrite IH.
Qed.

Lemma am_lookup_delete {V} k (m : list (string * V)) : am_lookup k (am_delete k m) = None.
Proof.
  induction m as [|[k' v'] m IH]; simpl; [done|].
  case_decide; [done|]. simpl. by rewrite decide_False.
Qed.

Lemma am_lookup_delete_ne {V} k k' (m : list (string * V)) :
  k <> k' -> am_lookup k' (am_delete k m) = am_lookup k' m.
Proof.
  intros Hne. induction m as [|[k2 v2] m IH]; simpl; [done|].
  case_decide; simpl; [|by rewrite IH]. by rewrite decide_False by congruence.
Qed.

Lemma foldl_am_insert_lookup {V} k kvs (m : list (string * V)) :
  am_lookup k (foldl (fun m kv => am_insert kv.1 kv.2 m) m kvs) =
  foldl (fun o kv => if decide (k = kv.1) then Some kv.2 else o) (am_lookup k m) kvs.
Proof.
  revert m; induction kvs as [|[k' v'] kvs IH]; intros m; simpl; [done|].
  rewrite IH. f_equal. case_decide; subst; [by rewrite am_lookup_insert|].
  by rewrite am_lookup_insert_ne.
Qed.

Lemma am_lookup_of_list {V} k (kvs : list (string * V)) :
  am_lookup k (am_of_list kvs) = last_binding k kvs.
Proof. unfold am_of_list, last_binding. by rewrite foldl_am_insert_lookup. Qed.

#[export] Hint Rewrite @am_lookup_insert @am_lookup_delete : shim.

Lemma am_sorted_from_weaken l k ks :
  String.compare l k = Lt -> am_sorted_from (Some k) ks = true -> am_sorted_from (Some l) ks = true.
Proof.
  intros Hl. destruct ks as [|k' ks]; simpl; [done|]. rewrite !andb_true_iff.
  intros [Hk ?]; split; [|done].
  destruct (String.compare k k') eqn:E; try done. by rewrite (scompare_lt_trans l k k').
Qed.

Lemma am_insert_sorted_from {V} lo k (v : V) m :
  match lo with None => True | Some l => String.compare l k = Lt end ->
  am_sorted_from lo (am_keys m) = true -> am_sorted_from lo (am_keys (am_insert k v m)) = true.
Proof.
  revert lo; induction m as [|[k' v'] m IH]; intros lo Hlo; simpl.
  { intros _. destruct lo as [l|]; [|done]. by rewrite Hlo. }
  rewrite andb_true_iff. intros [Hk Hs].
  destruct (String.compare k k') eqn:E; simpl; rewrite ?andb_true_iff.
  - apply String.compare_eq_iff in E as ->. split; [|done]. by destruct lo; rewrite ?Hlo.
  - rewrite E. repeat split; [by destruct lo; rewrite ?Hlo|done].
  - split; [done|]. apply IH; [|done]. by apply scompare_lt_gt.
Qed.

Lemma am_insert_sorted {V} k (v : V) m : am_sorted m = true -> am_sorted (am_insert k v m) = true.
Proof. by apply (am_insert_sorted_from None). Qed.

Lemma am_of_list_sorted {V} (kvs : list (string * V)) : am_sorted (am_of_list kvs) = true.
Proof.
  unfold am_of_list. assert (H : @am_sorted V [] = true) by done. revert H.
  generalize (@nil (string * V)). induction kvs as [|[k v] kvs IH]; intros m H; simpl; [done|].
  by apply IH, am_insert_sorted.
Qed.

Lemma am_insert_elem {V} k (v : V) m k' v' :
  (k', v') ∈ am_insert k v m -> (k', v') = (k, v) \/ (k', v') ∈ m.
Proof.
  induction m as [|[k2 v2] m IH]; simpl; [set_solver|].
  destruct (String.compare k k2); set_solver.
Qed.

(** A sorted map is determined by its lookups. *)
Lemma am_sorted_from_lookup {V} l (m : list (string * V)) k :
  am_sorted_from (Some l) (am_keys m) = true -> String.compare l k <> Lt -> am_lookup k m = None.
Proof.
  revert l. induction m as [|[k' v] m IH]; intros l; simpl; [done|].
  intros [Hk Hs]%andb_true_iff Hl. destruct (String.compare l k') eqn:E; try done.
  rewrite decide_False by (intros ->; by apply Hl). apply (IH k'); [done|].
  intros Hk'. apply Hl. by eapply scompare_lt_trans.
Qed.

Lemma am_sorted_tail {V} lo k (v : V) m :
  am_sorted_from lo (am_keys ((k, v) :: m)) = true -> am_lookup k m = None.
Proof.
  simpl. intros [_ H]%andb_true_iff. eapply am_sorted_from_lookup; [done|]. by rewrite scompare_refl.
Qed.

Lemma am_ext_from {V} lo1 lo2 (m1 m2 : list (string * V)) :
  am_sorted_from lo1 (am_keys m1) = true -> am_sorted_from lo2 (am_keys m2) = true ->
  (forall k, am_lookup k m1 = am_lookup k m2) -> m1 = m2.
Proof.
  revert lo1 lo2 m2. induction m1 as [|[k1 v1] m1 IH]; intros lo1 lo2 [|[k2 v2] m2] H1 H2 Hl; [done|..].
  - specialize (Hl k2). simpl in Hl. by rewrite decide_True in Hl.
  - specialize (Hl k1). simpl in Hl. by rewrite decide_True in Hl.
  - pose proof (am_sorted_tail _ _ _ _ H1) as T1. pose proof (am_sorted_tail _ _ _ _ H2) as T2.
    simpl in H1, H2. apply andb_true_iff in H1 as [_ S1], H2 as [_ S2].
    assert (k1 = k2) as ->.
    { destruct (String.compare k1 k2) eqn:E; [by apply String.compare_eq_iff| |].
      - specialize (Hl k1). simpl in Hl. rewrite decide_True in Hl by done.
        rewrite decide_False in Hl by (intros ->; by rewrite scompare_refl in E).
        rewrite (am_sorted_from_lookup k2) in Hl; [done|done|].
        intros E'. apply scompare_lt_gt in E'. congruence.
      - specialize (Hl k2). simpl in Hl. rewrite (decide_True (P := k2 = k2)) in Hl by done.
        rewrite decide_False in Hl by (intros ->; by rewrite scompare_refl in E).
        rewrite (am_sorted_from_lookup k1) in Hl; [done|done|]. rewrite E. done. }
    pose proof (Hl k2) as Hv. simpl in Hv. rewrite !decide_True in Hv by done. injection Hv as ->.
    f_equal. eapply IH; [done..|]. intros k. specialize (Hl k). simpl in Hl.
    case_decide; subst; [by rewrite T1, T2|done].
Qed.

Lemma am_ext {V} (m1 m2 : list (string * V)) : am_sorted m1 = true -> am_sorted m2 = true ->
  (forall k, am_lookup k m1 = am_lookup k m2) -> m1 = m2.
Proof. apply am_ext_from. Qed.

Lemma am_lookup_elem {V} k (v : V) m : am_lookup k m = Some v -> (k, v) ∈ m.
Proof.
  induction m as [|[k' v'] m IH]; simpl; [done|]. case_decide; intros; simplify_eq; set_solver.
Qed.

Lemma am_sorted_nodup {V} lo (m : list (string * V)) :
  am_sorted_from lo (am_keys m) = true -> NoDup (am_keys m).
Proof.
  revert lo. induction m as [|[k v] m IH]; intros lo H; simpl; [constructor|].
  pose proof (am_sorted_tail _ _ _ _ H) as Hn. simpl in H. apply andb_true_iff in H as [_ H].
  constructor; [|by eapply IH]. intros Hin. apply list_elem_of_fmap in Hin as ([k' v'] & -> & Hin).
  clear -Hin Hn. induction m as [|[k2 v2] m IH]; simpl in Hn; [set_solver|].
  case_decide; simplify_eq. set_solver.
Qed.

Lemma am_elem_lookup {V} k (v : V) m : am_sorted m = true -> (k, v) ∈ m -> am_lookup k m = Some v.
Proof.
  intros H%am_sorted_nodup. induction m as [|[k' v'] m IH]; intros Hin; simpl; [set_solver|].
  inversion H as [|?? Hn Hd]; subst. apply elem_of_cons in Hin as [[= -> ->]|Hin]; [by rewrite decide_True|].
  rewrite decide_False; [by apply IH|]. intros ->. apply Hn. by apply (list_elem_of_fmap_2 fst _ (k', v)).
Qed.

Lemma last_binding_elem {V} k (v : V) kvs : last_binding k kvs = Some v -> (k, v) ∈ kvs.
Proof.
  unfold last_binding. induction kvs as [|[k' v'] kvs IH] using rev_ind; [done|].
  rewrite foldl_app. simpl. case_decide; intros; simplify_eq; set_solver.
Qed.

Lemma last_binding_none {V} k (v : V) kvs : last_binding k kvs = None -> (k, v) ∉ kvs.
Proof.
  unfold last_binding. induction kvs as [|[k' v'] kvs IH] using rev_ind; [set_solver|].
  rewrite foldl_app. simpl. case_decide; intros; simplify_eq. set_solver.
Qed.

(** Assigning the entries of a map in any order builds that map. *)
Lemma am_of_list_perm {V} (l m : list (string * V)) :
  am_sorted m = true -> l ≡ₚ m -> am_of_list l = m.
Proof.
  intros Hs Hp. apply am_ext; [apply am_of_list_sorted|done|]. intros k. rewrite am_lookup_of_list.
  destruct (last_binding k l) as [v|] eqn:E.
  - symmetry. apply am_elem_lookup; [done|]. rewrite <-Hp. by apply last_binding_elem.
  - destruct (am_lookup k m) as [v|] eqn:E'; [|done]. apply am_lookup_elem in E'.
    rewrite <-Hp in E'. by apply last_binding_none in E'.
Qed.

(** ** Stable sorting

    [sort_by le] is sort.SliceStable with [less(i, j) = not (le j i)], and
    ORDER BY where the order is total on the rows selected. *)

Section sort_by.
Context {A : Type} (le : A -> A -> bool).

Fixpoint insert_by (x : A) (l : list A) : list A :=
  match l with
  | [] => [x]
  | y :: l => if le x y then x :: y :: l else y :: insert_by x l
  end.

Definition sort_by (l : list A) : list A := foldr insert_by [] l.

Definition le_of (x y : A) : Prop := le x y = true.

Lemma insert_by_perm x l : insert_by x l ≡ₚ x :: l.
Proof.
  induction l as [|y l IH]; simpl; [done|]. destruct (le x y); [done|]. rewrite IH. apply Permutation_swap.
Qed.

Lemma sort_by_perm l : sort_by l ≡ₚ l.
Proof. induction l as [|x l IH]; simpl; [done|]. by rewrite insert_by_perm, IH. Qed.

Lemma insert_by_first x l : Forall (le_of x) l -> insert_by x l = x :: l.
Proof. destruct l as [|y l]; simpl; [done|]. by intros [-> _]%Forall_cons. Qed.

Lemma sort_by_sorted_id l : StronglySorted le_of l -> sort_by l = l.
Proof.
  induction 1 as [|x l Hl IH Hx]; simpl; [done|]. rewrite IH. by apply insert_by_first.
Qed.

Lemma sort_by_length l : length (sort_by l) = length l.
Proof. apply Permutation_length, sort_by_perm. Qed.

Context (le_total : forall x y, le x y = true \/ le y x = true)
        (le_trans : forall x y z, le x y = true -> le y z = true -> le x z = true).

Lemma insert_by_sorted x l : StronglySorted le_of l -> StronglySorted le_of (insert_by x l).
Proof.
  induction 1 as [|y l Hl IH Hy]; simpl; [by repeat constructor|]. destruct (le x y) eqn:E.
  - constructor; [by constructor|]. constructor; [done|].
    eapply Forall_impl; [exact Hy|]. intros z Hz. by eapply le_trans.
  - constructor; [done|]. rewrite insert_by_perm. constructor; [|done].
    destruct (le_total x y); [congruence|done].
Qed.

Lemma sort_by_sorted l : StronglySorted le_of (sort_by l).
Proof. induction l as [|x l IH]; simpl; [constructor|]. by apply insert_by_sorted. Qed.
End sort_by.

(** ** Filtered lists *)

Lemma filter_all {A} (P : A -> Prop) `{forall x, Decision (P x)} l : Forall P l -> filter P l = l.
Proof. induction 1 as [|x l Hx Hl IH]; [done|]. rewrite filter_cons_True by done. by rewrite IH. Qed.

Lemma filter_none {A} (P : A -> Prop) `{forall x, Decision (P x)} l : Forall (fun x => ~ P x) l -> filter P l = [].
Proof. induction 1 as [|x l Hx Hl IH]; [done|]. by rewrite filter_cons_False. Qed.

Lemma filter_comm {A} (P Q : A -> Prop) `{forall x, Decision (P x)} `{forall x, Decision (Q x)} (l : list A) :
  filter P (filter Q l) = filter Q (filter P l).
Proof.
  induction l as [|x l IH]; [done|]. destruct (decide (P x)) as [Hp|Hp], (decide (Q x)) as [Hq|Hq];
  repeat first [rewrite filter_cons_True by done | rewrite filter_cons_False by done]; by rewrite ?IH.
Qed.

Lemma Forall_filtered {A} (P Q : A -> Prop) `{forall x, Decision (P x)} (l : list A) :
  Forall Q l -> Forall Q (filter P l).
Proof. rewrite !Forall_forall. intros HQ x [_ Hx]%list_elem_of_filter. auto. Qed.

Lemma NoDup_map_filter {A B} (f : A -> B) (P : A -> Prop) `{forall x, Decision (P x)} l :
  NoDup (map f l) -> NoDup (map f (filter P l)).
Proof.
  induction l as [|x l IH]; simpl; [done|]. intros [Hx Hl]%NoDup_cons.
  destruct (decide (P x)); [rewrite filter_cons_True by done|rewrite filter_cons_False by done; auto].
  simpl. apply NoDup_cons. split; [|auto]. intros Hin. apply Hx.
  apply list_elem_of_fmap in Hin as (y & -> & [_ Hy]%list_elem_of_filter).
  by apply list_elem_of_fmap_2.
Qed.

Lemma filter_reverse {A} (P : A -> Prop) `{forall x, Decision (P x)} l :
  filter P (reverse l) = reverse (filter P l).
Proof.
  induction l as [|x l IH]; [done|]. rewrite reverse_cons, filter_app, IH.
  destruct (decide (P x)).
  - by rewrite !filter_cons_True, reverse_cons by done.
  - rewrite !filter_cons_False by done. by rewrite app_nil_r.
Qed.

Lemma filter_mapped {A B} (f : A -> B) (P : B -> Prop) (Q : A -> Prop)
    `{forall x, Decision (P x)} `{forall x, Decision (Q x)} l :
  (forall x, P (f x) <-> Q x) -> filter P (map f l) = map f (filter Q l).
Proof.
  intros HPQ. induction l as [|x l IH]; [done|]. simpl. destruct (decide (Q x)).
  - rewrite !filter_cons_True by (done || by apply HPQ). simpl. by rewrite IH.
  - by rewrite !filter_cons_False by (done || by rewrite HPQ).
Qed.

(** ** Lists in a strict order *)

Section strict_sorted.
Context {A : Type} (R : A -> A -> Prop).

Lemma StronglySorted_filtered (P : A -> Prop) `{forall x, Decision (P x)} l :
  StronglySorted R l -> StronglySorted R (filter P l).
Proof.
  induction 1 as [|x l Hl IH Hx]; [constructor|]. destruct (decide (P x)).
  - rewrite filter_cons_True by done. constructor; [done|by apply Forall_filtered].
  - by rewrite filter_cons_False.
Qed.

Lemma StronglySorted_reversed l : StronglySorted R l -> StronglySorted (flip R) (reverse l).
Proof.
  induction 1 as [|x l Hl IH Hx]; [constructor|]. rewrite reverse_cons.
  apply StronglySorted_app_2; [|done|by repeat constructor].
  intros y z Hy ->%list_elem_of_singleton. rewrite elem_of_reverse in Hy.
  rewrite Forall_forall in Hx. exact (Hx y Hy).
Qed.

Lemma sort_by_increasing (le : A -> A -> bool) l : (forall x y, R x y -> le x y = true) ->
  StronglySorted R l -> sort_by le l = l.
Proof.
  intros HR Hl. apply sort_by_sorted_id. induction Hl as [|x l Hl IH Hx]; constructor; [done|].
  eapply Forall_impl; [exact Hx|]. intros y. apply HR.
Qed.

Lemma insert_by_last (le : A -> A -> bool) x l :
  Forall (fun y => le x y = false) l -> insert_by le x l = l ++ [x].
Proof. induction 1 as [|y l Hy Hl IH]; simpl; [done|]. by rewrite Hy, IH. Qed.

Lemma sort_by_decreasing (le : A -> A -> bool) l : (forall x y, R x y -> le x y = false) ->
  StronglySorted R l -> sort_by le l = reverse l.
Proof.
  intros HR. induction 1 as [|x l Hl IH Hx]; simpl; [done|]. rewrite IH, reverse_cons.
  apply insert_by_last. rewrite Forall_reverse. eapply Forall_impl; [exact Hx|]. intros y. apply HR.
Qed.

Context (asym : forall x y, R x y -> ~ R y x).

(** The elements that follow a cursor. *)
Lemma filter_after `{forall x y, Decision (R x y)} l k r : StronglySorted R l -> l !! k = Some r ->
  filter (R r) l = drop (S k) l.
Proof.
  intros Hs. revert k. induction Hs as [|x l Hl IH Hx]; intros k Hk; [done|].
  assert (Hirr : forall y, ~ R y y) by (intros y Hy; by apply (asym y y)).
  destruct k as [|k]; simpl in Hk |- *.
  - injection Hk as ->. rewrite filter_cons_False by auto. rewrite drop_0. by apply filter_all.
  - rewrite filter_cons_False; [by apply IH|]. apply asym.
    rewrite Forall_forall in Hx. apply Hx. by eapply list_elem_of_lookup_2.
Qed.
End strict_sorted.
