(* ===== verification/GoStr.v ===== *)
(** * Go strings and bytes

    The functions of Go's [strings], [bytes], [unicode/utf8] and [strconv]
    packages that the modelled code calls.  A Go string or byte slice is a
    [string] of 8-bit characters; [len] is [String.length].  Runes are decoded
    with Go's UTF-8 acceptance rules ([chunks]); an invalid byte is the rune
    U+FFFD of width one.

    Case mapping ([ToLower], [EqualFold]) is exact on ASCII and on the
    non-ASCII runes whose mapping is an ASCII letter (U+0130, U+017F, U+212A);
    other runes keep their bytes, which is enough because the code compares
    the results with ASCII constants only. *)

From S2P Require Import Prelude.
From stdpp Require Export pretty.

Definition code (a : ascii) : N := N_of_ascii a.
Definition chr (n : N) : ascii := ascii_of_N n.
Definition char_string (a : ascii) : string := String a "".

Definition dquote : ascii := chr 34.
Definition backslash : ascii := chr 92.

(** Text constants that contain double quotes are written with single quotes. *)
Fixpoint sq (s : string) : string :=
  match s with
  | "" => ""
  | String a s => String (if Ascii.eqb a (chr 39) then dquote else a) (sq s)
  end.

(** ** UTF-8 *)

Definition rune_error : N := 65533.

(** A decoded rune together with the bytes it came from. *)
Record chunk := Chunk { ck_rune : N; ck_bytes : string }.

#[global] Instance chunk_eq_dec : EqDecision chunk.
Proof. solve_decision. Defined.

Definition in_rng (lo hi x : N) : bool := (lo <=? x)%N && (x <=? hi)%N.
Definition is_cont (a : ascii) : bool := in_rng 128 191 (code a).

Definition bad_chunk (a : ascii) : chunk := Chunk rune_error (char_string a).

(** A chunk that stands for one invalid byte. *)
Definition is_bad (c : chunk) : bool :=
  (ck_rune c =? rune_error)%N && (String.length (ck_bytes c) =? 1).

(** The range of the second byte after a given first byte (utf8.acceptRanges). *)
Definition accept2 (x : N) : N * N :=
  if (x =? 224)%N then (160, 191)%N
  else if (x =? 237)%N then (128, 159)%N
  else if (x =? 240)%N then (144, 191)%N
  else if (x =? 244)%N then (128, 143)%N
  else (128, 191)%N.

Definition second_ok (a b : ascii) : bool :=
  in_rng (accept2 (code a)).1 (accept2 (code a)).2 (code b).

Definition rune2 (a b : ascii) : N := ((code a - 192) * 64 + (code b - 128))%N.
Definition rune3 (a b c : ascii) : N :=
  ((code a - 224) * 4096 + (code b - 128) * 64 + (code c - 128))%N.
Definition rune4 (a b c d : ascii) : N :=
  ((code a - 240) * 262144 + (code b - 128) * 4096 + (code c - 128) * 64 + (code d - 128))%N.

Fixpoint chunks (s : string) : list chunk :=
  match s with
  | "" => []
  | String a s1 =>
      if (code a <? 128)%N then Chunk (code a) (char_string a) :: chunks s1
      else if in_rng 194 223 (code a) then
        match s1 with
        | String b s2 =>
            if second_ok a b
            then Chunk (rune2 a b) (String a (char_string b)) :: chunks s2
            else bad_chunk a :: chunks s1
        | _ => bad_chunk a :: chunks s1
        end
      else if in_rng 224 239 (code a) then
        match s1 with
        | String b (String c s3) =>
            if second_ok a b && is_cont c
            then Chunk (rune3 a b c) (String a (String b (char_string c))) :: chunks s3
            else bad_chunk a :: chunks s1
        | _ => bad_chunk a :: chunks s1
        end
      else if in_rng 240 244 (code a) then
        match s1 with
        | String b (String c (String d s4)) =>
            if second_ok a b && is_cont c && is_cont d
            then Chunk (rune4 a b c d) (String a (String b (String c (char_string d)))) :: chunks s4
            else bad_chunk a :: chunks s1
        | _ => bad_chunk a :: chunks s1
        end
      else bad_chunk a :: chunks s1
  end.

Definition unchunks (cs : list chunk) : string := sconcat (map ck_bytes cs).

(** utf8.RuneCountInString *)
Definition rune_count (s : string) : nat := length (chunks s).
(** utf8.ValidString *)
Definition valid_utf8 (s : string) : bool := forallb (fun c => negb (is_bad c)) (chunks s).

(** utf8.AppendRune / string(rune) for a rune up to U+10FFFF; surrogates and
    larger values give the encoding of U+FFFD. *)
Definition encode_rune (r : N) : string :=
  if (r <? 128)%N then char_string (chr r)
  else if (r <? 2048)%N then
    String (chr (192 + r / 64)) (char_string (chr (128 + r mod 64)))
  else if in_rng 55296 57343 r || (1114111 <? r)%N then
    String (chr 239) (String (chr 191) (char_string (chr 189)))
  else if (r <? 65536)%N then
    String (chr (224 + r / 4096))
      (String (chr (128 + (r / 64) mod 64)) (char_string (chr (128 + r mod 64))))
  else
    String (chr (240 + r / 262144))
      (String (chr (128 + (r / 4096) mod 64))
        (String (chr (128 + (r / 64) mod 64)) (char_string (chr (128 + r mod 64))))).

(** The bytes a [range] loop writes back for a chunk: an invalid byte becomes
    the encoding of U+FFFD. *)
Definition chunk_utf8 (c : chunk) : string :=
  if is_bad c then encode_rune rune_error else ck_bytes c.

(** ** TrimSpace *)

Definition space1 (a : ascii) : bool :=
  in_rng 9 13 (code a) || (code a =? 32)%N.
Definition space2 (a b : ascii) : bool :=
  (code a =? 194)%N && ((code b =? 133)%N || (code b =? 160)%N).
Definition space3 (a b c : ascii) : bool :=
  ((code a =? 225)%N && (code b =? 154)%N && (code c =? 128)%N)
  || ((code a =? 226)%N && (code b =? 128)%N &&
      (in_rng 128 138 (code c) || (code c =? 168)%N || (code c =? 169)%N || (code c =? 175)%N))
  || ((code a =? 226)%N && (code b =? 129)%N && (code c =? 159)%N)
  || ((code a =? 227)%N && (code b =? 128)%N && (code c =? 128)%N).

Fixpoint trim_with (p2 : ascii -> ascii -> bool) (p3 : ascii -> ascii -> ascii -> bool)
    (s : string) : string :=
  match s with
  | "" => ""
  | String a s1 =>
      if space1 a then trim_with p2 p3 s1 else
      match s1 with
      | "" => s
      | String b s2 =>
          if p2 a b then trim_with p2 p3 s2 else
          match s2 with
          | "" => s
          | String c s3 => if p3 a b c then trim_with p2 p3 s3 else s
          end
      end
  end.

Definition srev (s : string) : string := String.rev s.

Definition trim_left (s : string) : string := trim_with space2 space3 s.
Definition trim_right (s : string) : string :=
  srev (trim_with (fun a b => space2 b a) (fun a b c => space3 c b a) (srev s)).

(** strings.TrimSpace, bytes.TrimSpace *)
Definition TrimSpace (s : string) : string := trim_right (trim_left s).

(** ** Searching and slicing *)

Fixpoint stake (n : nat) (s : string) : string :=
  match n, s with
  | S n, String a s => String a (stake n s)
  | _, _ => ""
  end.

Fixpoint sdrop (n : nat) (s : string) : string :=
  match n, s with
  | 0, _ => s
  | S n, String _ s => sdrop n s
  | S _, "" => ""
  end.

(** The text after a prefix, if the prefix is there. *)
Fixpoint strip (p s : string) : option string :=
  match p with
  | "" => Some s
  | String a p =>
      match s with
      | String b s => if Ascii.eqb a b then strip p s else None
      | "" => None
      end
  end.

Definition HasPrefix (s prefix : string) : bool :=
  match strip prefix s with Some _ => true | None => false end.
Definition HasSuffix (s suffix : string) : bool := HasPrefix (srev s) (srev suffix).
Definition TrimPrefix (s prefix : string) : string :=
  if HasPrefix s prefix then sdrop (String.length prefix) s else s.
Definition TrimSuffix (s suffix : string) : string :=
  if HasSuffix s suffix then stake (String.length s - String.length suffix) s else s.

(** strings.Index: [None] is -1. *)
Fixpoint Index (s sub : string) : option nat :=
  if HasPrefix s sub then Some 0
  else match s with "" => None | String _ s => S <$> Index s sub end.

Definition Contains (s sub : string) : bool :=
  match Index s sub with Some _ => true | None => false end.

(** strings.ReplaceAll for a non-empty [old]; the fuel is the length of [s]. *)
Fixpoint replace_go (fuel : nat) (s old new : string) : string :=
  match fuel with
  | 0 => s
  | S fuel =>
      match s with
      | "" => ""
      | String a s' =>
          if HasPrefix s old
          then new +:+ replace_go fuel (sdrop (String.length old) s) old new
          else String a (replace_go fuel s' old new)
      end
  end.
Definition ReplaceAll (s old new : string) : string :=
  replace_go (S (String.length s)) s old new.

(** strings.Trim(s, c) for a one-byte cutset. *)
Fixpoint trim_char_left (c : ascii) (s : string) : string :=
  match s with
  | "" => ""
  | String a s' => if Ascii.eqb a c then trim_char_left c s' else s
  end.
Definition TrimChar (s : string) (c : ascii) : string :=
  srev (trim_char_left c (srev (trim_char_left c s))).

(** ** Case *)

Definition lower_ascii (a : ascii) : ascii :=
  if in_rng 65 90 (code a) then chr (code a + 32) else a.
Definition upper_ascii (a : ascii) : ascii :=
  if in_rng 97 122 (code a) then chr (code a - 32) else a.

Definition lower_chunk (c : chunk) : string :=
  if (ck_rune c =? 8490)%N then "k"
  else if (ck_rune c =? 304)%N then "i"
  else match ck_bytes c with
       | String a "" => if (code a <? 128)%N then char_string (lower_ascii a) else chunk_utf8 c
       | _ => ck_bytes c
       end.
Definition ToLower (s : string) : string := sconcat (map lower_chunk (chunks s)).

Fixpoint smap (f : ascii -> ascii) (s : string) : string :=
  match s with "" => "" | String a s => String (f a) (smap f s) end.
(** strings.ToUpper on ASCII text. *)
Definition ToUpper (s : string) : string := smap upper_ascii s.

Definition fold_rune (r : N) : N :=
  if in_rng 65 90 r then (r + 32)%N
  else if (r =? 383)%N then 115%N
  else if (r =? 8490)%N then 107%N
  else r.
(** strings.EqualFold, exact when one argument is ASCII. *)
Definition EqualFold (s t : string) : bool :=
  bool_decide (map (fun c => fold_rune (ck_rune c)) (chunks s) =
               map (fun c => fold_rune (ck_rune c)) (chunks t)).

(** ** Fields *)

Definition is_space_rune (r : N) : bool :=
  in_rng 9 13 r || (r =? 32)%N || (r =? 133)%N || (r =? 160)%N || (r =? 5760)%N
  || in_rng 8192 8202 r || (r =? 8232)%N || (r =? 8233)%N || (r =? 8239)%N
  || (r =? 8287)%N || (r =? 12288)%N.

Fixpoint fields_go (cur : string) (cs : list chunk) : list string :=
  match cs with
  | [] => if decide (cur = "") then [] else [cur]
  | c :: cs =>
      if is_space_rune (ck_rune c)
      then (if decide (cur = "") then [] else [cur]) ++ fields_go "" cs
      else fields_go (cur +:+ ck_bytes c) cs
  end.
(** strings.Fields *)
Definition Fields (s : string) : list string := fields_go "" (chunks s).

(** ** Quoting *)

Definition hex_digit (n : N) : ascii :=
  if (n <? 10)%N then chr (48 + n) else chr (87 + n).
Definition hex2 (n : N) : string :=
  String (hex_digit (n / 16 mod 16)) (char_string (hex_digit (n mod 16))).
Definition hex4 (n : N) : string := hex2 (n / 256) +:+ hex2 (n mod 256).
Definition hex8 (n : N) : string := hex4 (n / 65536) +:+ hex4 (n mod 65536).

(** The Unicode data that strconv.IsPrint consults for non-ASCII runes. *)
Class UnicodeTable := { uni_print : N -> bool }.

Section Quote.
Context `{UnicodeTable}.

Definition IsPrint (r : N) : bool :=
  if (r <? 128)%N then in_rng 32 126 r else uni_print r.

Definition esc (c : ascii) : string := String backslash (char_string c).

(** strconv.appendEscapedRune for the double quote character. *)
Definition quote_chunk (c : chunk) : string :=
  let r := ck_rune c in
  if is_bad c then String backslash (String (chr 120)
    match ck_bytes c with String a _ => hex2 (code a) | "" => "" end)
  else if (r =? 34)%N || (r =? 92)%N then String backslash (ck_bytes c)
  else if IsPrint r then ck_bytes c
  else if (r =? 7)%N then esc (chr 97)
  else if (r =? 8)%N then esc (chr 98)
  else if (r =? 12)%N then esc (chr 102)
  else if (r =? 10)%N then esc (chr 110)
  else if (r =? 13)%N then esc (chr 114)
  else if (r =? 9)%N then esc (chr 116)
  else if (r =? 11)%N then esc (chr 118)
  else if (r <? 32)%N || (r =? 127)%N then String backslash (String (chr 120) (hex2 r))
  else if (r <? 65536)%N then String backslash (String (chr 117) (hex4 r))
  else String backslash (String (chr 85) (hex8 r)).

Definition quote_body (s : string) : string := sconcat (map quote_chunk (chunks s)).

(** fmt.Sprintf("%q", s), strconv.Quote *)
Definition Quote (s : string) : string :=
  char_string dquote +:+ quote_body s +:+ char_string dquote.
End Quote.

(** ** Lemmas *)

Lemma code_chr n : (n < 256)%N -> code (chr n) = n.
Proof. intros. by apply N_ascii_embedding. Qed.

Lemma chr_code a : chr (code a) = a.
Proof. apply ascii_N_embedding. Qed.

Lemma code_bound a : (code a < 256)%N.
Proof. apply N_ascii_bounded. Qed.

Lemma code_inj a b : code a = code b -> a = b.
Proof. intros H. by rewrite <-(chr_code a), H, chr_code. Qed.

Lemma srev_app_spec s t : String.rev_app s t = srev s +:+ t.
Proof.
  unfold srev, String.rev. revert t.
  induction s as [|a s IH]; intros t; simpl; [done|].
  rewrite (IH (String a t)), (IH (String a "")), sapp_assoc. done.
Qed.

Lemma srev_cons a s : srev (String a s) = srev s +:+ char_string a.
Proof. unfold srev at 1, String.rev. simpl. by rewrite srev_app_spec. Qed.

Lemma srev_app s t : srev (s +:+ t) = srev t +:+ srev s.
Proof.
  induction s as [|a s IH]; [by rewrite sapp_nil_r|].
  rewrite sapp_cons, !srev_cons, IH. by rewrite sapp_assoc.
Qed.

Lemma srev_involutive s : srev (srev s) = s.
Proof. induction s as [|a s IH]; [done|]. by rewrite srev_cons, srev_app, IH. Qed.

Lemma srev_length s : String.length (srev s) = String.length s.
Proof.
  induction s as [|a s IH]; [done|]. rewrite srev_cons, slength_app, IH. simpl. lia.
Qed.

(** *** Decoding loses no byte *)

(** The first chunk of a non-empty string and what is left after it. *)
Definition next_chunk (a : ascii) (s1 : string) : chunk * string :=
  if (code a <? 128)%N then (Chunk (code a) (char_string a), s1)
  else if in_rng 194 223 (code a) then
    match s1 with
    | String b s2 =>
        if second_ok a b then (Chunk (rune2 a b) (String a (char_string b)), s2)
        else (bad_chunk a, s1)
    | _ => (bad_chunk a, s1)
    end
  else if in_rng 224 239 (code a) then
    match s1 with
    | String b (String c s3) =>
        if second_ok a b && is_cont c
        then (Chunk (rune3 a b c) (String a (String b (char_string c))), s3)
        else (bad_chunk a, s1)
    | _ => (bad_chunk a, s1)
    end
  else if in_rng 240 244 (code a) then
    match s1 with
    | String b (String c (String d s4)) =>
        if second_ok a b && is_cont c && is_cont d
        then (Chunk (rune4 a b c d) (String a (String b (String c (char_string d)))), s4)
        else (bad_chunk a, s1)
    | _ => (bad_chunk a, s1)
    end
  else (bad_chunk a, s1).

#[global] Arguments chunks : simpl never.

Lemma chunks_cons a s1 :
  chunks (String a s1) = (next_chunk a s1).1 :: chunks (next_chunk a s1).2.
Proof.
  unfold chunks at 1; fold chunks. unfold next_chunk.
  repeat case_match; by subst.
Qed.

Lemma next_chunk_spec a s1 :
  let '(c, rest) := next_chunk a s1 in
  String a s1 = ck_bytes c +:+ rest /\ String.length rest <= String.length s1.
Proof. unfold next_chunk. repeat case_match; simplify_eq/=; split; try done; simpl; lia. Qed.

Lemma unchunks_chunks s : unchunks (chunks s) = s.
Proof.
  induction s as [s IH] using string_len_ind.
  destruct s as [|a s1]; [done|]. rewrite chunks_cons.
  pose proof (next_chunk_spec a s1) as H. destruct (next_chunk a s1) as [c rest].
  destruct H as [-> Hl]. unfold unchunks in *; simpl. rewrite IH; [done|]. simpl. lia.
Qed.

(** The chunks the decoder accepts as one complete rune. *)
Inductive good_bytes : string -> N -> Prop :=
| good1 a : (code a < 128)%N -> good_bytes (char_string a) (code a)
| good2 a b : in_rng 194 223 (code a) = true -> second_ok a b = true ->
    good_bytes (String a (char_string b)) (rune2 a b)
| good3 a b c : in_rng 224 239 (code a) = true -> second_ok a b = true -> is_cont c = true ->
    good_bytes (String a (String b (char_string c))) (rune3 a b c)
| good4 a b c d : in_rng 240 244 (code a) = true -> second_ok a b = true ->
    is_cont c = true -> is_cont d = true ->
    good_bytes (String a (String b (String c (char_string d)))) (rune4 a b c d).

Definition good_chunk (c : chunk) : Prop := good_bytes (ck_bytes c) (ck_rune c).

Lemma in_rng_spec lo hi x : in_rng lo hi x = true <-> (lo <= x <= hi)%N.
Proof. unfold in_rng. rewrite andb_true_iff, !N.leb_le. done. Qed.

Ltac rng :=
  repeat match goal with
  | H : in_rng _ _ _ = true |- _ => apply in_rng_spec in H
  | H : (_ <? _)%N = true |- _ => apply N.ltb_lt in H
  | H : (_ <? _)%N = false |- _ => apply N.ltb_ge in H
  | H : (_ =? _)%N = true |- _ => apply N.eqb_eq in H
  | H : (_ =? _)%N = false |- _ => apply N.eqb_neq in H
  end.

Lemma in_rng_false lo hi x : (x < lo \/ hi < x)%N -> in_rng lo hi x = false.
Proof.
  intros H. destruct (in_rng lo hi x) eqn:E; [|done]. apply in_rng_spec in E. lia.
Qed.

(** A complete rune in front of any text is decoded as that rune. *)
Lemma chunks_good bs r s : good_bytes bs r -> chunks (bs +:+ s) = Chunk r bs :: chunks s.
Proof.
  destruct 1 as [a Ha|a b Ha Hb|a b c Ha Hb Hc|a b c d Ha Hb Hc Hd];
    unfold char_string; rewrite ?sapp_cons, sapp_nil_l, chunks_cons; unfold next_chunk.
  - by rewrite (proj2 (N.ltb_lt _ _) Ha).
  - rewrite Ha, Hb. rng. by rewrite (proj2 (N.ltb_ge _ _)) by lia.
  - rewrite Ha, Hb, Hc. rng. rewrite (proj2 (N.ltb_ge _ _)) by lia.
    by rewrite in_rng_false by lia.
  - rewrite Ha, Hb, Hc, Hd. rng. rewrite (proj2 (N.ltb_ge _ _)) by lia.
    by rewrite !in_rng_false by lia.
Qed.

Lemma chunks_ascii a s : (code a < 128)%N ->
  chunks (String a s) = Chunk (code a) (char_string a) :: chunks s.
Proof. intros H. by apply (chunks_good (char_string a)), good1. Qed.

Lemma good_not_bad c : good_chunk c -> is_bad c = false.
Proof.
  destruct c as [r bs]. unfold good_chunk, is_bad; simpl. destruct 1; simpl; try by rewrite andb_false_r.
  destruct (N.eqb_spec (code a) rune_error) as [E|]; [|done].
  pose proof (code_bound a) as B. rewrite E in B. done.
Qed.

(** Every chunk of a decoded string is a complete rune or one invalid byte. *)
Definition good_or_bad (c : chunk) : Prop :=
  good_chunk c \/ exists a, c = bad_chunk a /\ (128 <= code a)%N.

Lemma next_chunk_good_or_bad a s1 : good_or_bad (next_chunk a s1).1.
Proof.
  unfold next_chunk. destruct (code a <? 128)%N eqn:Ea; rng.
  { left. by constructor. }
  assert (Hb : good_or_bad (bad_chunk a)) by (right; eauto).
  repeat case_match; simpl; try done; left;
    repeat match goal with H : _ && _ = true |- _ => apply andb_true_iff in H as [??] end;
    by constructor.
Qed.

Lemma chunks_good_or_bad s : Forall good_or_bad (chunks s).
Proof.
  induction s as [s IH] using string_len_ind.
  destruct s as [|a s1]; [constructor|]. rewrite chunks_cons.
  constructor; [apply next_chunk_good_or_bad|]. apply IH.
  pose proof (next_chunk_spec a s1) as H. destruct (next_chunk a s1). simpl. lia.
Qed.

Lemma chunks_valid_good s : valid_utf8 s = true -> Forall good_chunk (chunks s).
Proof.
  intros Hv. pose proof (chunks_good_or_bad s) as H. unfold valid_utf8 in Hv.
  rewrite forallb_forall in Hv. rewrite Forall_forall in H |- *.
  intros c Hc. destruct (H c Hc) as [?|(a & -> & _)]; [done|].
  assert (Hn : In (bad_chunk a) (chunks s)) by by apply list_elem_of_In.
  apply Hv in Hn. done.
Qed.

Lemma chunks_unchunks_app cs s :
  Forall good_chunk cs -> chunks (unchunks cs +:+ s) = cs ++ chunks s.
Proof.
  induction 1 as [|[r bs] cs Hc Hcs IH]; [done|].
  unfold unchunks in *; simpl. rewrite sapp_assoc.
  rewrite (chunks_good bs r) by done. simpl. by rewrite IH.
Qed.

Lemma chunks_app_valid s t : valid_utf8 s = true -> chunks (s +:+ t) = chunks s ++ chunks t.
Proof.
  intros Hv. rewrite <-(unchunks_chunks s) at 1.
  by apply chunks_unchunks_app, chunks_valid_good.
Qed.

Lemma valid_utf8_app s t :
  valid_utf8 s = true -> valid_utf8 t = true -> valid_utf8 (s +:+ t) = true.
Proof.
  intros Hs Ht. unfold valid_utf8. rewrite chunks_app_valid by done.
  by rewrite forallb_app, andb_true_iff.
Qed.

(** *** TrimSpace *)

(** No white space pattern at the front. *)
Definition no_lead (p2 : ascii -> ascii -> bool) (p3 : ascii -> ascii -> ascii -> bool)
    (s : string) : bool :=
  match s with
  | "" => true
  | String a s1 => negb (space1 a) &&
      match s1 with
      | "" => true
      | String b s2 => negb (p2 a b) &&
          match s2 with "" => true | String c _ => negb (p3 a b c) end
      end
  end.

Lemma trim_with_id p2 p3 s : no_lead p2 p3 s = true -> trim_with p2 p3 s = s.
Proof.
  destruct s as [|a [|b [|c s]]]; simpl; [done|..];
    destruct (space1 a); simpl; try done; destruct (p2 a b); simpl; try done;
    by destruct (p3 a b c).
Qed.

Lemma trim_with_no_lead p2 p3 s : no_lead p2 p3 (trim_with p2 p3 s) = true.
Proof.
  induction s as [s IH] using string_len_ind.
  destruct s as [|a s1]; [done|]. simpl.
  destruct (space1 a) eqn:Ea; [apply IH; simpl; lia|].
  destruct s1 as [|b s2]; [by simpl; rewrite Ea|].
  destruct (p2 a b) eqn:Eb; [apply IH; simpl; lia|].
  destruct s2 as [|c s3]; [by simpl; rewrite Ea, Eb|].
  destruct (p3 a b c) eqn:Ec; [apply IH; simpl; lia|]. by simpl; rewrite Ea, Eb, Ec.
Qed.

Lemma trim_with_suffix p2 p3 s : exists p, s = p +:+ trim_with p2 p3 s.
Proof.
  induction s as [s IH] using string_len_ind.
  destruct s as [|a s1]; [by exists ""|]. simpl.
  destruct (space1 a).
  { destruct (IH s1) as [p Hp]; [simpl; lia|]. exists (String a p). by rewrite sapp_cons, <-Hp. }
  destruct s1 as [|b s2]; [by exists ""|].
  destruct (p2 a b).
  { destruct (IH s2) as [p Hp]; [simpl; lia|]. exists (String a (String b p)).
    by rewrite !sapp_cons, <-Hp. }
  destruct s2 as [|c s3]; [by exists ""|].
  destruct (p3 a b c); [|by exists ""].
  destruct (IH s3) as [p Hp]; [simpl; lia|]. exists (String a (String b (String c p))).
  by rewrite !sapp_cons, <-Hp.
Qed.

Lemma no_lead_prefix p2 p3 s t : no_lead p2 p3 (s +:+ t) = true -> no_lead p2 p3 s = true.
Proof.
  destruct s as [|a [|b [|c s]]]; [done|..]; rewrite ?sapp_cons; simpl;
    destruct (space1 a); simpl; try done; destruct (p2 a b); simpl; try done.
Qed.

Lemma TrimSpace_idemp s : TrimSpace (TrimSpace s) = TrimSpace s.
Proof.
  unfold TrimSpace, trim_right.
  set (q2 := fun a b => space2 b a). set (q3 := fun a b c => space3 c b a).
  set (l := trim_left s). set (r := trim_with q2 q3 (srev l)).
  assert (Hl : trim_left (srev r) = srev r).
  { apply trim_with_id. destruct (trim_with_suffix q2 q3 (srev l)) as [p Hp].
    apply (f_equal srev) in Hp. rewrite srev_involutive, srev_app in Hp.
    apply no_lead_prefix with (t := srev p). fold r in Hp. rewrite <-Hp.
    apply trim_with_no_lead. }
  rewrite Hl, srev_involutive. f_equal. apply trim_with_id, trim_with_no_lead.
Qed.

Lemma TrimSpace_empty : TrimSpace "" = "".
Proof. done. Qed.

(** Text that starts and ends with a printable ASCII character is not trimmed. *)
Definition solid (a : ascii) : bool := in_rng 33 126 (code a).

Lemma solid_no_lead p2 p3 a s :
  (forall b, solid a = true -> p2 a b = false) ->
  (forall b c, solid a = true -> p3 a b c = false) ->
  solid a = true -> no_lead p2 p3 (String a s) = true.
Proof.
  intros H2 H3 Ha. assert (space1 a = false) as E1.
  { unfold solid in Ha. rng. unfold space1. rewrite in_rng_false by lia.
    by rewrite (proj2 (N.eqb_neq _ _)) by lia. }
  simpl. rewrite E1. destruct s as [|b [|c s]]; simpl; rewrite ?H2, ?H3; done.
Qed.

Lemma solid_space2 a b : solid a = true -> space2 a b = false /\ space2 b a = false.
Proof.
  intros Ha. unfold solid in Ha. rng. unfold space2.
  rewrite !(proj2 (N.eqb_neq (code a) _)) by lia. by rewrite andb_false_r.
Qed.

Lemma solid_space3 a b c : solid a = true -> space3 a b c = false /\ space3 c b a = false.
Proof.
  intros Ha. unfold solid in Ha. rng. unfold space3.
  rewrite !(proj2 (N.eqb_neq (code a) _)), (in_rng_false 128 138 (code a)) by lia.
  by rewrite ?andb_false_r.
Qed.

Lemma solid_lead_l a s : solid a = true -> no_lead space2 space3 (String a s) = true.
Proof.
  intros Ha. apply solid_no_lead; [intros b _|intros b c _|done].
  - apply (solid_space2 a b Ha).
  - apply (solid_space3 a b c Ha).
Qed.

Lemma solid_lead_r a s : solid a = true ->
  no_lead (fun a b => space2 b a) (fun a b c => space3 c b a) (String a s) = true.
Proof.
  intros Ha. apply solid_no_lead; [intros b _|intros b c _|done]; simpl.
  - apply (solid_space2 a b Ha).
  - apply (solid_space3 a b c Ha).
Qed.

Lemma TrimSpace_solid a s b :
  solid a = true -> solid b = true ->
  TrimSpace (String a (s +:+ char_string b)) = String a (s +:+ char_string b).
Proof.
  intros Ha Hb. unfold TrimSpace, trim_left, trim_right.
  rewrite (trim_with_id space2 space3) by by apply solid_lead_l.
  rewrite srev_cons, srev_app. change (srev (char_string b)) with (char_string b).
  unfold char_string at 1 2. rewrite !sapp_cons, sapp_nil_l.
  rewrite trim_with_id by by apply solid_lead_r.
  by rewrite srev_cons, srev_app, srev_involutive.
Qed.

Lemma TrimSpace_solid1 a : solid a = true -> TrimSpace (char_string a) = char_string a.
Proof.
  intros Ha. unfold TrimSpace, trim_left, trim_right.
  rewrite (trim_with_id space2 space3) by by apply solid_lead_l.
  change (srev (char_string a)) with (char_string a).
  by rewrite trim_with_id by by apply solid_lead_r.
Qed.
