(* ===== verification/GoFloat.v ===== *)
(** * float64 numbers of encoding/json

    Decoding a JSON number into [any] goes through strconv.ParseFloat (the
    nearest binary64 value, ties to even); encoding it back is
    encoding/json's [floatEncoder] (shortest decimal that parses to the same
    value, exponent form below 1e-6 and from 1e21 on).  A finite float64 is a
    sign, a mantissa and a binary exponent. *)

From S2P Require Import Prelude GoStr.
#[local] Open Scope Z_scope.

Record float64 := Float64 { f_neg : bool; f_mant : Z; f_exp : Z }.

#[global] Instance float64_eq_dec : EqDecision float64.
Proof. solve_decision. Defined.

(** ** Decimal digit strings *)

Definition digit_char (d : Z) : ascii := chr (48 + Z.to_N (d mod 10)).
Definition is_digit (a : ascii) : bool := in_rng 48 57 (code a).
Definition digit_val (a : ascii) : Z := Z.of_N (code a) - 48.

Fixpoint digits_val (acc : Z) (s : string) : Z :=
  match s with "" => acc | String a s => digits_val (10 * acc + digit_val a) s end.

(** Exactly [n] decimal digits of [z], most significant first. *)
Fixpoint fixed_digits (n : nat) (z : Z) (acc : string) : string :=
  match n with
  | O => acc
  | S n => fixed_digits n (z / 10) (String (digit_char z) acc)
  end.

Fixpoint strip_zeros (s : string) : string :=
  match s with
  | "" => "0"
  | String a s' => if (code a =? 48)%N then strip_zeros s' else s
  end.

Definition num_digits (z : Z) : nat := Z.to_nat (Z.log2 z / 3 + 1).

(** The decimal digits of a natural number. *)
Definition digits (z : Z) : string := strip_zeros (fixed_digits (num_digits z) z "").

Fixpoint strip_trailing (n : nat) (z : Z) : Z :=
  match n with
  | O => z
  | S n => if z mod 10 =? 0 then strip_trailing n (z / 10) else z
  end.

(** ** ParseFloat *)

(** num/den rounded to the nearest float64; [None] on overflow. *)
Definition round_ratio (neg : bool) (num den : Z) : option float64 :=
  let scale e := if 0 <=? e then (num, den * 2 ^ e) else (num * 2 ^ (- e), den) in
  let e0 := Z.max (Z.log2 num - Z.log2 den - 52) (-1074) in
  let e1 := let '(n, d) := scale e0 in
            if (n / d <? 2 ^ 52) && (-1074 <? e0) then e0 - 1 else e0 in
  let '(n, d) := scale e1 in
  let q := n / d in
  let r := n mod d in
  let m := if (d <? 2 * r) || ((d =? 2 * r) && Z.odd q) then q + 1 else q in
  let '(m, e) := if m =? 2 ^ 53 then (2 ^ 52, e1 + 1) else (m, e1) in
  if 971 <? e then None else Some (Float64 neg m e).

(** [d * 10^e] for [0 <= d]. *)
Definition decimal_to_float (neg : bool) (d e : Z) : option float64 :=
  if d =? 0 then Some (Float64 neg 0 (-1074))
  else
    let nd := Z.of_nat (String.length (digits d)) in
    if 310 <? nd + e then None
    else if nd + e <? -330 then Some (Float64 neg 0 (-1074))
    else if 0 <=? e then round_ratio neg (d * 10 ^ e) 1
    else round_ratio neg d (10 ^ (- e)).

Fixpoint span_digits (s : string) : string * string :=
  match s with
  | "" => ("", "")
  | String a s' =>
      if is_digit a then let '(d, r) := span_digits s' in (String a d, r) else ("", s)
  end.

(** The value of a number literal that follows the JSON grammar. *)
Definition literal_float (lit : string) : option float64 :=
  let '(neg, s) := match lit with
                   | String a s => if (code a =? 45)%N then (true, s) else (false, lit)
                   | "" => (false, lit)
                   end in
  let '(ip, s) := span_digits s in
  let '(fp, s) := match s with
                  | String a s' => if (code a =? 46)%N then span_digits s' else ("", s)
                  | "" => ("", s)
                  end in
  let ex := match s with
            | String _ (String b s'') =>
                if (code b =? 45)%N then - digits_val 0 s''
                else if (code b =? 43)%N then digits_val 0 s''
                else digits_val 0 (String b s'')
            | _ => 0
            end in
  decimal_to_float neg (digits_val 0 (ip +:+ fp)) (ex - Z.of_nat (String.length fp)).

(** ** Formatting *)

(** The position [k] of the leading decimal digit of num/den:
    10^k <= num/den < 10^(k+1). *)
Definition lead_pow (num den : Z) : Z :=
  let k := Z.of_nat (String.length (digits num)) - Z.of_nat (String.length (digits den)) in
  let ge k := if 0 <=? k then den * 10 ^ k <=? num else den <=? num * 10 ^ (- k) in
  if ge k then k else k - 1.

(** Decimal digits and exponent of the shortest decimal that parses to [f]:
    the first [n] for which rounding to [n] digits is read back as [f]. *)
Fixpoint shortest_from (fuel n : nat) (f : float64) (num den k : Z) : Z * Z :=
  let e := k - Z.of_nat n + 1 in
  let '(a, b) := if 0 <=? e then (num, den * 10 ^ e) else (num * 10 ^ (- e), den) in
  let lo := a / b in
  let hi := lo + 1 in
  let ok d := bool_decide (decimal_to_float (f_neg f) d e = Some f) in
  let nearest := if 2 * (a mod b) <=? b then lo else hi in
  match fuel with
  | O => (nearest, e)
  | S fuel =>
      if ok lo && ok hi then (nearest, e)
      else if ok lo then (lo, e)
      else if ok hi then (hi, e)
      else shortest_from fuel (S n) f num den k
  end.

Definition shortest (f : float64) : Z * Z :=
  let '(num, den) := if 0 <=? f_exp f then (f_mant f * 2 ^ f_exp f, 1)
                     else (f_mant f, 2 ^ (- f_exp f)) in
  shortest_from 16 1 f num den (lead_pow num den).

Definition zeros (n : nat) : string := Nat.iter n (fun s => String (chr 48) s) "".

Definition frac_part (ds : string) : string :=
  match ds with "" => "" | _ => String (chr 46) ds end.

Fixpoint strip_zeros_end (s : string) : string :=
  match s with
  | "" => ""
  | String a s' =>
      match strip_zeros_end s' with
      | "" => if (code a =? 48)%N then "" else char_string a
      | r => String a r
      end
  end.

(** 'f' format of [d * 10^e]. *)
Definition format_f (d e : Z) : string :=
  if 0 <=? e then digits (d * 10 ^ e)
  else let p := 10 ^ (- e) in
       digits (d / p) +:+ frac_part (strip_zeros_end (fixed_digits (Z.to_nat (- e)) (d mod p) "")).

(** 'e' format of [d * 10^e], with the exponent as encoding/json cleans it. *)
Definition format_e (d e : Z) : string :=
  let ds := digits d in
  let x := e + Z.of_nat (String.length ds) - 1 in
  digits (d / 10 ^ (Z.of_nat (String.length ds) - 1)) +:+
  frac_part (strip_zeros_end (sdrop 1 ds)) +:+
  String (chr 101) (String (if x <? 0 then chr 45 else chr 43) (digits (Z.abs x))).

(** |g| <= |f| *)
Definition float_abs_ge (f g : float64) : bool :=
  let e := Z.min (f_exp f) (f_exp g) in
  f_mant g * 2 ^ (f_exp g - e) <=? f_mant f * 2 ^ (f_exp f - e).

Definition pow10_float (k : Z) : float64 :=
  default (Float64 false 0 (-1074)) (decimal_to_float false 1 k).

Definition float_text (f : float64) : string :=
  let sign := if f_neg f then "-" else "" in
  if f_mant f =? 0 then sign +:+ "0"
  else let '(d, e) := shortest f in
       if float_abs_ge f (pow10_float (-6)) && negb (float_abs_ge f (pow10_float 21))
       then sign +:+ format_f d e
       else sign +:+ format_e d e.
