(* ===== verification/GoJson.v ===== *)
(** * encoding/json

    A JSON document is kept as its token tree: the literal text of every
    string (escapes included) and of every number, without the white space
    between tokens.  [jprint] is therefore json.Compact's output and
    [jparse] what json.Unmarshal's scanner accepts.  A json.RawMessage is a
    [json], or [None] when it is empty; the white space json.Unmarshal keeps
    inside a RawMessage is not represented.  The decoder's nesting limit of
    10000 is not modelled.

    [gval] is what decoding into [any] gives; a Go map is kept in key order,
    the order in which json.Marshal writes it. *)

From S2P Require Import Prelude GoStr GoFloat.

Inductive json : Type :=
| JNull
| JBool (b : bool)
| JNum (lit : string)
| JStr (lit : string)
| JArr (l : list json)
| JObj (l : list (string * json)).

(** ** Printing *)

Definition quoted (s : string) : string := String dquote (s +:+ char_string dquote).

Fixpoint jprint (t : json) : string :=
  match t with
  | JNull => "null"
  | JBool true => "true"
  | JBool false => "false"
  | JNum l => l
  | JStr l => quoted l
  | JArr l => "[" +:+ sjoin "," (map jprint l) +:+ "]"
  | JObj l => "{" +:+ sjoin "," (map (fun kv => quoted kv.1 +:+ ":" +:+ jprint kv.2) l) +:+ "}"
  end.

(** ** Scanning *)

Definition is_ws (a : ascii) : bool :=
  (code a =? 32)%N || (code a =? 9)%N || (code a =? 10)%N || (code a =? 13)%N.

Fixpoint skip_ws (s : string) : string :=
  match s with
  | "" => ""
  | String a s' => if is_ws a then skip_ws s' else s
  end.

Definition is_hex (a : ascii) : bool :=
  is_digit a || in_rng 97 102 (code a) || in_rng 65 70 (code a).

(** The characters that may follow a backslash, other than u. *)
Definition is_simple_escape (a : ascii) : bool :=
  let x := code a in
  (x =? 34)%N || (x =? 92)%N || (x =? 47)%N || (x =? 98)%N || (x =? 102)%N ||
  (x =? 110)%N || (x =? 114)%N || (x =? 116)%N.

(** The body of a string literal up to its closing quote, and the text after. *)
Fixpoint scan_str (s : string) : option (string * string) :=
  match s with
  | "" => None
  | String a s1 =>
      if (code a =? 34)%N then Some ("", s1)
      else if (code a =? 92)%N then
        match s1 with
        | "" => None
        | String b s2 =>
            if is_simple_escape b then
              '(l, r) ← scan_str s2; Some (String a (String b l), r)
            else if (code b =? 117)%N then
              match s2 with
              | String h1 (String h2 (String h3 (String h4 s6))) =>
                  if is_hex h1 && is_hex h2 && is_hex h3 && is_hex h4 then
                    '(l, r) ← scan_str s6;
                    Some (String a (String b (String h1 (String h2 (String h3 (String h4 l))))), r)
                  else None
              | _ => None
              end
            else None
        end
      else if (code a <? 32)%N then None
      else '(l, r) ← scan_str s1; Some (String a l, r)
  end.

(** Valid bodies of string literals. *)
Fixpoint valid_lit (s : string) : bool :=
  match s with
  | "" => true
  | String a s1 =>
      if (code a =? 34)%N then false
      else if (code a =? 92)%N then
        match s1 with
        | "" => false
        | String b s2 =>
            if is_simple_escape b then valid_lit s2
            else if (code b =? 117)%N then
              match s2 with
              | String h1 (String h2 (String h3 (String h4 s6))) =>
                  is_hex h1 && is_hex h2 && is_hex h3 && is_hex h4 && valid_lit s6
              | _ => false
              end
            else false
        end
      else negb (code a <? 32)%N && valid_lit s1
  end.

Definition scan_sign (s : string) : string * string :=
  match s with
  | String a s' => if (code a =? 45)%N then (char_string a, s') else ("", s)
  | "" => ("", s)
  end.

Definition scan_int (s : string) : option (string * string) :=
  match s with
  | String a s' =>
      if (code a =? 48)%N then Some (char_string a, s')
      else if is_digit a then Some (span_digits s) else None
  | "" => None
  end.

Definition scan_frac (s : string) : option (string * string) :=
  match s with
  | String a s' =>
      if (code a =? 46)%N then
        match span_digits s' with
        | ("", _) => None
        | (d, r) => Some (String a d, r)
        end
      else Some ("", s)
  | "" => Some ("", s)
  end.

Definition scan_exp (s : string) : option (string * string) :=
  match s with
  | String a s' =>
      if (code a =? 101)%N || (code a =? 69)%N then
        let '(sg, s'') := match s' with
                          | String b s'' => if (code b =? 43)%N || (code b =? 45)%N
                                            then (char_string b, s'') else ("", s')
                          | "" => ("", s')
                          end in
        match span_digits s'' with
        | ("", _) => None
        | (d, r) => Some (String a (sg +:+ d), r)
        end
      else Some ("", s)
  | "" => Some ("", s)
  end.

(** A number literal and the text after it. *)
Definition scan_num (s : string) : option (string * string) :=
  let '(sg, s) := scan_sign s in
  '(i, s) ← scan_int s;
  '(f, s) ← scan_frac s;
  '(e, s) ← scan_exp s;
  Some (sg +:+ i +:+ f +:+ e, s).

Definition valid_num (l : string) : bool := bool_decide (scan_num l = Some (l, "")).

(** ** Parsing *)

Definition is_char (n : N) (a : ascii) : bool := (code a =? n)%N.

(** [parse_elems] reads the elements of an array up to its closing bracket,
    [parse_members] the members of an object up to its closing brace; both
    expect at least one. *)
Fixpoint parse_value (n : nat) (s : string) {struct n} : option (json * string) :=
  match n with
  | 0 => None
  | S n =>
      match skip_ws s with
      | "" => None
      | String a s1 =>
          if is_char 34 a then '(l, r) ← scan_str s1; Some (JStr l, r)
          else if is_char 91 a then
            match skip_ws s1 with
            | String b r =>
                if is_char 93 b then Some (JArr [], r)
                else '(l, r) ← parse_elems n s1; Some (JArr l, r)
            | "" => None
            end
          else if is_char 123 a then
            match skip_ws s1 with
            | String b r =>
                if is_char 125 b then Some (JObj [], r)
                else '(l, r) ← parse_members n s1; Some (JObj l, r)
            | "" => None
            end
          else if is_char 110 a then r ← strip "ull" s1; Some (JNull, r)
          else if is_char 116 a then r ← strip "rue" s1; Some (JBool true, r)
          else if is_char 102 a then r ← strip "alse" s1; Some (JBool false, r)
          else '(l, r) ← scan_num (String a s1); Some (JNum l, r)
      end
  end
with parse_elems (n : nat) (s : string) {struct n} : option (list json * string) :=
  match n with
  | 0 => None
  | S n =>
      '(v, r) ← parse_value n s;
      match skip_ws r with
      | String b r =>
          if is_char 44 b then '(l, r) ← parse_elems n r; Some (v :: l, r)
          else if is_char 93 b then Some ([v], r) else None
      | "" => None
      end
  end
with parse_members (n : nat) (s : string) {struct n} : option (list (string * json) * string) :=
  match n with
  | 0 => None
  | S n =>
      match skip_ws s with
      | String a s1 =>
          if is_char 34 a then
            '(k, r) ← scan_str s1;
            match skip_ws r with
            | String b r =>
                if is_char 58 b then
                  '(v, r) ← parse_value n r;
                  match skip_ws r with
                  | String c r =>
                      if is_char 44 c then '(l, r) ← parse_members n r; Some ((k, v) :: l, r)
                      else if is_char 125 c then Some ([(k, v)], r) else None
                  | "" => None
                  end
                else None
            | "" => None
            end
          else None
      | "" => None
      end
  end.

Definition parse_fuel (s : string) : nat := S (2 * String.length s).

(** json.Unmarshal's view of a text: [None] is a syntax error. *)
Definition jparse (s : string) : option json :=
  '(t, r) ← parse_value (parse_fuel s) s;
  match skip_ws r with "" => Some t | _ => None end.

(** json.Valid *)
Definition Valid (s : string) : bool := match jparse s with Some _ => true | None => false end.

(** json.Compact *)
Definition Compact (s : string) : option string := jprint <$> jparse s.

(** Well-formed trees: every literal is one the scanner accepts. *)
Fixpoint jwf (t : json) : bool :=
  match t with
  | JNull | JBool _ => true
  | JNum l => valid_num l
  | JStr l => valid_lit l
  | JArr l => forallb jwf l
  | JObj l => forallb (fun kv => valid_lit kv.1 && jwf kv.2) l
  end.

(** ** Strings *)

Definition u_escape (r : N) : string := String backslash (String (chr 117) (hex4 r)).

(** The characters json.Marshal escapes for HTML: <, >, &, U+2028, U+2029. *)
Definition html_rune (r : N) : bool :=
  (r =? 60)%N || (r =? 62)%N || (r =? 38)%N || (r =? 8232)%N || (r =? 8233)%N.

Definition enc_chunk (c : chunk) : string :=
  let r := ck_rune c in
  if is_bad c then u_escape rune_error
  else if (r =? 34)%N || (r =? 92)%N then String backslash (ck_bytes c)
  else if (r =? 8)%N then esc (chr 98)
  else if (r =? 12)%N then esc (chr 102)
  else if (r =? 10)%N then esc (chr 110)
  else if (r =? 13)%N then esc (chr 114)
  else if (r =? 9)%N then esc (chr 116)
  else if (r <? 32)%N || html_rune r then u_escape r
  else ck_bytes c.

(** encoding/json's appendString (HTML escaping on), without the quotes. *)
Definition encode_body (s : string) : string := sconcat (map enc_chunk (chunks s)).

(** json.Marshal of a Go string. *)
Definition json_str (s : string) : json := JStr (encode_body s).

Definition hex_val (r : N) : N :=
  if in_rng 48 57 r then (r - 48)%N
  else if in_rng 97 102 r then (r - 87)%N
  else (r - 55)%N.

Definition hex_val4 (h1 h2 h3 h4 : chunk) : N :=
  (hex_val (ck_rune h1) * 4096 + hex_val (ck_rune h2) * 256
   + hex_val (ck_rune h3) * 16 + hex_val (ck_rune h4))%N.

Definition is_surrogate (r : N) : bool := in_rng 55296 57343 r.

Definition simple_unescape (r : N) : N :=
  if (r =? 98)%N then 8 else if (r =? 102)%N then 12 else if (r =? 110)%N then 10
  else if (r =? 114)%N then 13 else if (r =? 116)%N then 9 else r.

(** The low half of a surrogate pair at the front of the text. *)
Definition low_surrogate (cs : list chunk) : option N :=
  match cs with
  | b :: u :: g1 :: g2 :: g3 :: g4 :: _ =>
      if (ck_rune b =? 92)%N && (ck_rune u =? 117)%N && in_rng 56320 57343 (hex_val4 g1 g2 g3 g4)
      then Some (hex_val4 g1 g2 g3 g4) else None
  | _ => None
  end.

(** encoding/json's unquote on the body of a valid literal. *)
Fixpoint unq (cs : list chunk) : string :=
  match cs with
  | [] => ""
  | c :: cs1 =>
      if (ck_rune c =? 92)%N then
        match cs1 with
        | [] => ""
        | e :: cs2 =>
            if (ck_rune e =? 117)%N then
              match cs2 with
              | h1 :: h2 :: h3 :: h4 :: cs6 =>
                  let u := hex_val4 h1 h2 h3 h4 in
                  if is_surrogate u then
                    match cs6 with
                    | _ :: _ :: _ :: _ :: _ :: _ :: cs12 =>
                        match low_surrogate cs6 with
                        | Some v =>
                            if in_rng 55296 56319 u
                            then encode_rune (65536 + (u - 55296) * 1024 + (v - 56320)) +:+ unq cs12
                            else encode_rune rune_error +:+ unq cs6
                        | None => encode_rune rune_error +:+ unq cs6
                        end
                    | _ => encode_rune rune_error +:+ unq cs6
                    end
                  else encode_rune u +:+ unq cs6
              | _ => ""
              end
            else encode_rune (simple_unescape (ck_rune e)) +:+ unq cs2
        end
      else chunk_utf8 c +:+ unq cs1
  end.

Definition unquote (lit : string) : string := unq (chunks lit).

(** What a string becomes when it passes through JSON: invalid bytes are
    replaced by U+FFFD. *)
Definition sanitize (s : string) : string := sconcat (map chunk_utf8 (chunks s)).

(** json.Marshal of a RawMessage compacts it with HTML escaping. *)
Definition esc_lit (l : string) : string :=
  sconcat (map (fun c => if html_rune (ck_rune c) then u_escape (ck_rune c) else ck_bytes c)
               (chunks l)).

Fixpoint jesc (t : json) : json :=
  match t with
  | JNull => JNull
  | JBool b => JBool b
  | JNum l => JNum l
  | JStr l => JStr (esc_lit l)
  | JArr l => JArr (map jesc l)
  | JObj l => JObj (map (fun kv => (esc_lit kv.1, jesc kv.2)) l)
  end.

(** ** Decoding into [any] *)

Inductive gval : Type :=
| GNull
| GBool (b : bool)
| GNum (f : float64)
| GStr (s : string)
| GArr (l : list gval)
| GMap (m : list (string * gval)).

Section opt_map.
Context {A B : Type} (f : A -> option B).
Fixpoint opt_map (l : list A) : option (list B) :=
  match l with
  | [] => Some []
  | x :: l => y ← f x; ys ← opt_map l; Some (y :: ys)
  end.
End opt_map.

(** [None] is the range error of a number that overflows float64. *)
Fixpoint any_of (t : json) : option gval :=
  match t with
  | JNull => Some GNull
  | JBool b => Some (GBool b)
  | JNum l => GNum <$> literal_float l
  | JStr l => Some (GStr (unquote l))
  | JArr l => GArr <$> opt_map any_of l
  | JObj l => (fun kvs => GMap (am_of_list kvs)) <$>
              opt_map (fun kv => v ← any_of kv.2; Some (unquote kv.1, v)) l
  end.

(** json.Marshal of a value of type [any]. *)
Fixpoint of_any (v : gval) : json :=
  match v with
  | GNull => JNull
  | GBool b => JBool b
  | GNum f => JNum (float_text f)
  | GStr s => json_str s
  | GArr l => JArr (map of_any l)
  | GMap m => JObj (map (fun kv => (encode_body kv.1, of_any kv.2)) m)
  end.

(** ** Decoding into typed variables

    Each function is json.Unmarshal into a fresh variable of the given type;
    [None] is an error.  The JSON value null leaves the variable unchanged. *)

(** map[string]json.RawMessage: the members by decoded key, the last one wins
    (null gives the nil map, which reads like the empty one). *)
Definition raw_map (t : json) : option (list (string * json)) :=
  match t with
  | JObj l => Some (am_of_list (map (fun kv => (unquote kv.1, kv.2)) l))
  | JNull => Some []
  | _ => None
  end.

(** []json.RawMessage *)
Definition raw_array (t : json) : option (list json) :=
  match t with
  | JArr l => Some l
  | JNull => Some []
  | _ => None
  end.

(** string *)
Definition string_of (t : json) : option string :=
  match t with
  | JStr l => Some (unquote l)
  | JNull => Some ""
  | _ => None
  end.

(** map[string]any; [Some None] is the nil map. *)
Definition any_map (t : json) : option (option (list (string * gval))) :=
  match t with
  | JNull => Some None
  | JObj _ => match any_of t with Some (GMap m) => Some (Some m) | _ => None end
  | _ => None
  end.

(** []map[string]any *)
Definition any_map_array (t : json) : option (list (list (string * gval))) :=
  match t with
  | JArr l => opt_map (fun x => default [] <$> any_map x) l
  | JNull => Some []
  | _ => None
  end.

(** []map[string]json.RawMessage *)
Definition raw_map_array (t : json) : option (list (list (string * json))) :=
  match t with
  | JArr l => opt_map raw_map l
  | JNull => Some []
  | _ => None
  end.

(** map[string]string: null values give the empty string. *)
Definition string_map (t : json) : option (list (string * string)) :=
  match t with
  | JObj l => am_of_list <$> opt_map (fun kv => v ← string_of kv.2; Some (unquote kv.1, v)) l
  | JNull => Some []
  | _ => None
  end.

(** The values a struct decoder assigns to the field tagged [name], in order:
    keys match a tag up to letter case. *)
Definition field_values (name : string) (l : list (string * json)) : list json :=
  map snd (filter (fun kv => EqualFold (unquote kv.1) name = true) l).

(** A struct field of type string. *)
Definition field_string (name : string) (l : list (string * json)) : option string :=
  foldl (fun o t => s ← o; match t with
                           | JNull => Some s
                           | JStr lit => Some (unquote lit)
                           | _ => None
                           end) (Some "") (field_values name l).

(** A struct field of type json.RawMessage: [None] when absent. *)
Definition field_raw (name : string) (l : list (string * json)) : option json :=
  last (field_values name l).

(** The members a struct decoder sees: null leaves the struct unchanged. *)
Definition struct_members (t : json) : option (list (string * json)) :=
  match t with JObj l => Some l | JNull => Some [] | _ => None end.
