(* ===== verification/JsonFacts.v ===== *)
(** * Facts about the JSON model

    Printing and parsing are inverse on well-formed trees, the parser returns
    only well-formed trees, its fuel is enough, and Go strings survive
    encoding and decoding up to the replacement of invalid UTF-8. *)

From S2P Require Import Prelude GoStr GoFloat GoJson.
From Stdlib Require Import ZifyN.

Lemma json_nested_ind (P : json -> Prop) :
  P JNull -> (forall b, P (JBool b)) -> (forall l, P (JNum l)) -> (forall l, P (JStr l)) ->
  (forall l, Forall P l -> P (JArr l)) ->
  (forall l, Forall (fun kv => P kv.2) l -> P (JObj l)) ->
  forall t, P t.
Proof.
  intros Hn Hb Hnum Hs Ha Ho. fix IH 1. intros [| | | |l|l]; [auto..| |].
  - apply Ha. induction l as [|x l IHl]; constructor; [apply IH|apply IHl].
  - apply Ho. induction l as [|[k x] l IHl]; constructor; [apply IH|apply IHl].
Qed.

Lemma gval_nested_ind (P : gval -> Prop) :
  P GNull -> (forall b, P (GBool b)) -> (forall f, P (GNum f)) -> (forall s, P (GStr s)) ->
  (forall l, Forall P l -> P (GArr l)) ->
  (forall l, Forall (fun kv => P kv.2) l -> P (GMap l)) ->
  forall v, P v.
Proof.
  intros Hn Hb Hnum Hs Ha Ho. fix IH 1. intros [| | | |l|l]; [auto..| |].
  - apply Ha. induction l as [|x l IHl]; constructor; [apply IH|apply IHl].
  - apply Ho. induction l as [|[k x] l IHl]; constructor; [apply IH|apply IHl].
Qed.

(** ** String literals *)

Lemma char_eq a n : (n < 256)%N -> (code a =? n)%N = true -> a = chr n.
Proof. intros Hn H. rng. apply code_inj. by rewrite code_chr. Qed.

Lemma scan_str_valid l r :
  valid_lit l = true -> scan_str (l +:+ String dquote r) = Some (l, r).
Proof.
  induction l as [l IH] using string_len_ind. intros Hv.
  destruct l as [|a s1]; [done|]. rewrite ?sapp_cons. simpl in Hv |- *.
  destruct (code a =? 34)%N; [done|].
  destruct (code a =? 92)%N.
  - destruct s1 as [|b s2]; [done|]. rewrite ?sapp_cons.
    destruct (is_simple_escape b) eqn:Eb.
    { rewrite IH; [done|simpl; lia|done]. }
    destruct (code b =? 117)%N; [|done].
    destruct s2 as [|h1 [|h2 [|h3 [|h4 s6]]]]; try done. rewrite ?sapp_cons.
    apply andb_true_iff in Hv as [Hh Hv]. rewrite Hh.
    rewrite IH; [done|simpl; lia|done].
  - apply andb_true_iff in Hv as [Hlt Hv].
    destruct (code a <? 32)%N; [done|]. rewrite IH; [done|simpl; lia|done].
Qed.

Lemma scan_str_sound s l r :
  scan_str s = Some (l, r) -> valid_lit l = true /\ s = l +:+ String dquote r.
Proof.
  revert l r. induction s as [s IH] using string_len_ind. intros l r H.
  destruct s as [|a s1]; [done|]. simpl in H.
  destruct (code a =? 34)%N eqn:E34.
  { simplify_eq. split; [done|]. apply char_eq in E34 as ->; done. }
  destruct (code a =? 92)%N eqn:E92.
  - destruct s1 as [|b s2]; [done|].
    destruct (is_simple_escape b) eqn:Eb.
    { destruct (scan_str s2) as [[l' r']|] eqn:Es; [|done]. simplify_eq/=.
      apply IH in Es as [Hv ->]; [|simpl; lia]. by rewrite E34, E92, Eb. }
    destruct (code b =? 117)%N eqn:Eu; [|done].
    destruct s2 as [|h1 [|h2 [|h3 [|h4 s6]]]]; try done.
    destruct (is_hex h1 && is_hex h2 && is_hex h3 && is_hex h4) eqn:Eh; [|done].
    destruct (scan_str s6) as [[l' r']|] eqn:Es; [|done]. simplify_eq/=.
    apply IH in Es as [Hv ->]; [|simpl; lia].
    by rewrite E34, E92, Eb, Eu, Eh, Hv.
  - destruct (code a <? 32)%N eqn:E32; [done|].
    destruct (scan_str s1) as [[l' r']|] eqn:Es; [|done]. simplify_eq/=.
    apply IH in Es as [Hv ->]; [|simpl; lia]. by rewrite E34, E92, E32, Hv, ?sapp_cons.
Qed.

(** ** Number literals *)

Fixpoint all_digits (s : string) : bool :=
  match s with "" => true | String a s => is_digit a && all_digits s end.

Definition hd_is (p : ascii -> bool) (s : string) : bool :=
  match s with "" => false | String a _ => p a end.

Lemma span_digits_app d r :
  all_digits d = true -> hd_is is_digit r = false -> span_digits (d +:+ r) = (d, r).
Proof.
  induction d as [|a d IH]; simpl.
  - intros _ Hr. rewrite ?sapp_nil_l. destruct r as [|b r]; [done|]. simpl in *. by rewrite Hr.
  - intros [Ha Hd]%andb_true_iff Hr. rewrite ?sapp_cons. simpl. by rewrite Ha, IH.
Qed.

Lemma span_digits_sound s d r :
  span_digits s = (d, r) -> all_digits d = true /\ hd_is is_digit r = false /\ s = d +:+ r.
Proof.
  revert d r. induction s as [|a s IH]; intros d r; simpl.
  - intros [= <- <-]. done.
  - destruct (is_digit a) eqn:Ea.
    + destruct (span_digits s) as [d' r']. intros [= <- <-].
      destruct (IH d' r') as (Hd & Hr & ->); [done|]. simpl. rewrite Ea, Hd. by rewrite ?sapp_cons.
    + intros [= <- <-]. by simpl.
Qed.

(** The four parts of a number literal. *)
Definition sign_ok (s : string) : Prop := s = "" \/ s = "-".
Definition int_ok (s : string) : Prop :=
  s = "0" \/ exists a d, s = String a d /\ is_digit a = true /\ (code a =? 48)%N = false /\ all_digits d = true.
Definition frac_ok (s : string) : Prop :=
  s = "" \/ exists d, s = String (chr 46) d /\ d <> "" /\ all_digits d = true.
Definition exp_ok (s : string) : Prop :=
  s = "" \/ exists a sg d, s = String a (sg +:+ d) /\ (code a = 101%N \/ code a = 69%N) /\
    (sg = "" \/ sg = "-" \/ sg = "+") /\ d <> "" /\ all_digits d = true.

(** What may not follow a number. *)
Definition num_char (a : ascii) : bool :=
  is_digit a || (code a =? 46)%N || (code a =? 101)%N || (code a =? 69)%N.
Definition num_stop (r : string) : bool := negb (hd_is num_char r).

Lemma digit_codes a : is_digit a = true -> (48 <= code a <= 57)%N.
Proof. apply in_rng_spec. Qed.

Lemma num_stop_digit r : num_stop r = true -> hd_is is_digit r = false.
Proof.
  destruct r as [|a r]; [done|]. unfold num_stop, num_char; simpl. by destruct (is_digit a).
Qed.

Lemma scan_exp_ok e r : exp_ok e -> num_stop r = true -> scan_exp (e +:+ r) = Some (e, r).
Proof.
  intros [->|(a & sg & d & -> & Ha & Hsg & Hd & Hds)] Hr.
  - rewrite ?sapp_nil_l. destruct r as [|b r]; [done|]. unfold num_stop, num_char in Hr; simpl in *.
    destruct (code b =? 101)%N, (code b =? 69)%N; rewrite ?orb_true_r in Hr; try done.
  - assert (Hd' : span_digits (d +:+ r) = (d, r)) by (by apply span_digits_app, num_stop_digit).
    rewrite ?sapp_cons, sapp_assoc. simpl.
    assert ((code a =? 101)%N || (code a =? 69)%N = true) as ->.
    { destruct Ha as [->| ->]; done. }
    destruct d as [|b d]; [done|]. rewrite ?sapp_cons in Hd' |- *.
    destruct Hsg as [->|[->| ->]].
    + rewrite ?sapp_nil_l. simpl in Hds. apply andb_true_iff in Hds as [Hb _].
      apply digit_codes in Hb.
      rewrite (proj2 (N.eqb_neq (code b) 43)), (proj2 (N.eqb_neq (code b) 45)) by lia. simpl.
      simpl in Hd'. by rewrite Hd'.
    + change ("-" +:+ String b (d +:+ r)) with (String "-" (String b (d +:+ r))).
      simpl in Hd' |- *. by rewrite Hd'.
    + change ("+" +:+ String b (d +:+ r)) with (String "+" (String b (d +:+ r))).
      simpl in Hd' |- *. by rewrite Hd'.
Qed.

Lemma exp_no_digit e r : exp_ok e -> num_stop r = true ->
  hd_is is_digit (e +:+ r) = false /\ hd_is (fun a => (code a =? 46)%N) (e +:+ r) = false.
Proof.
  intros [->|(a & sg & d & -> & Ha & _)] Hr.
  - rewrite ?sapp_nil_l. split; [by apply num_stop_digit|].
    destruct r as [|b r]; [done|]. unfold num_stop, num_char in Hr. simpl in *.
    destruct (code b =? 46)%N; [|done]. by rewrite orb_true_r in Hr.
  - rewrite ?sapp_cons. simpl. unfold is_digit, in_rng. by destruct Ha as [->| ->].
Qed.

Lemma scan_frac_ok f e r : frac_ok f -> exp_ok e -> num_stop r = true ->
  scan_frac (f +:+ e +:+ r) = Some (f, e +:+ r).
Proof.
  intros Hf He Hr. destruct (exp_no_digit e r He Hr) as [H1 H2].
  destruct Hf as [->|(d & -> & Hd & Hds)].
  - rewrite ?sapp_nil_l. destruct (e +:+ r) as [|a s]; [done|]. simpl in *. by rewrite H2.
  - rewrite ?sapp_cons. simpl.
    rewrite span_digits_app by done. by destruct d.
Qed.

Lemma frac_no_digit f e r : frac_ok f -> exp_ok e -> num_stop r = true ->
  hd_is is_digit (f +:+ e +:+ r) = false.
Proof.
  intros [->|(d & -> & _)] He Hr; [|done].
  rewrite ?sapp_nil_l. by apply exp_no_digit.
Qed.

Lemma scan_num_pieces sg i f e r :
  sign_ok sg -> int_ok i -> frac_ok f -> exp_ok e -> num_stop r = true ->
  scan_num (sg +:+ i +:+ f +:+ e +:+ r) = Some (sg +:+ i +:+ f +:+ e, r).
Proof.
  intros Hsg Hi Hf He Hr. unfold scan_num.
  assert (Hs : scan_sign (sg +:+ i +:+ f +:+ e +:+ r) = (sg, i +:+ f +:+ e +:+ r)).
  { destruct Hsg as [->| ->].
    - rewrite ?sapp_nil_l. destruct Hi as [->|(a & d & -> & Ha & _)]; [done|].
      rewrite ?sapp_cons. simpl. apply digit_codes in Ha.
      by rewrite (proj2 (N.eqb_neq (code a) 45)) by lia.
    - done. }
  rewrite Hs. simpl.
  assert (Hi' : scan_int (i +:+ f +:+ e +:+ r) = Some (i, f +:+ e +:+ r)).
  { destruct Hi as [->|(a & d & -> & Ha & H0 & Hd)]; [done|].
    rewrite ?sapp_cons. unfold scan_int. rewrite H0, Ha. f_equal.
    change (String a (d +:+ f +:+ e +:+ r)) with (String a d +:+ (f +:+ e +:+ r)).
    apply span_digits_app; [simpl; by rewrite Ha|by apply frac_no_digit]. }
  rewrite Hi'. simpl. rewrite scan_frac_ok by done. simpl. by rewrite scan_exp_ok.
Qed.

Lemma scan_num_inv s l r :
  scan_num s = Some (l, r) -> s = l +:+ r /\
  exists sg i f e, l = sg +:+ i +:+ f +:+ e /\ sign_ok sg /\ int_ok i /\ frac_ok f /\ exp_ok e.
Proof.
  unfold scan_num. destruct (scan_sign s) as [sg s1] eqn:E1.
  intros ([i s2] & E2 & ([f s3] & E3 & ([e s4] & E4 & [= <- <-])%bind_Some)%bind_Some)%bind_Some.
  assert (Hsg : sign_ok sg /\ s = sg +:+ s1).
  { unfold scan_sign in E1. destruct s as [|a s']; [simplify_eq; by split; [left|]|].
    destruct (code a =? 45)%N eqn:Ea; simplify_eq; [|by split; [left|]].
    apply char_eq in Ea as ->; [|done]. by split; [right|]. }
  assert (Hi : int_ok i /\ s1 = i +:+ s2).
  { unfold scan_int in E2. destruct s1 as [|a s']; [done|].
    destruct (code a =? 48)%N eqn:Ea.
    { simplify_eq. apply char_eq in Ea as ->; [|done]. by split; [left|]. }
    destruct (is_digit a) eqn:Ed; [|done]. injection E2 as E2.
    simpl in E2. rewrite Ed in E2. destruct (span_digits s') as [d r'] eqn:Es.
    simplify_eq. apply span_digits_sound in Es as (Hd & _ & ->).
    split; [right; eauto 8|]. done. }
  assert (Hf : frac_ok f /\ s2 = f +:+ s3).
  { unfold scan_frac in E3. destruct s2 as [|a s']; [simplify_eq; by split; [left|]|].
    destruct (code a =? 46)%N eqn:Ea; [|simplify_eq; by split; [left|]].
    apply char_eq in Ea as ->; [|done].
    destruct (span_digits s') as [d r'] eqn:Es. apply span_digits_sound in Es as (Hd & _ & ->).
    destruct d as [|b d]; [done|]. simplify_eq. split; [right; eauto 8|done]. }
  assert (He : exp_ok e /\ s3 = e +:+ s4).
  { unfold scan_exp in E4. destruct s3 as [|a s']; [simplify_eq; by split; [left|]|].
    destruct ((code a =? 101)%N || (code a =? 69)%N) eqn:Ea; [|simplify_eq; by split; [left|]].
    assert (Ha : code a = 101%N \/ code a = 69%N).
    { apply orb_true_iff in Ea as [?|?]; rng; auto. }
    set (sgs := match s' with
      | String b s'' => if (code b =? 43)%N || (code b =? 45)%N then (char_string b, s'') else ("", s')
      | "" => ("", s') end) in E4.
    assert (Hg : (sgs.1 = "" \/ sgs.1 = "-" \/ sgs.1 = "+") /\ s' = sgs.1 +:+ sgs.2).
    { subst sgs. destruct s' as [|b s'']; [auto|].
      destruct (code b =? 43)%N eqn:Eb; simpl.
      { apply char_eq in Eb as ->; [|done]. auto. }
      destruct (code b =? 45)%N eqn:Eb'; simpl; [|auto].
      apply char_eq in Eb' as ->; [|done]. auto. }
    destruct sgs as [g s'']; simpl in *. destruct Hg as [Hg ->].
    destruct (span_digits s'') as [d r'] eqn:Es. apply span_digits_sound in Es as (Hd & _ & ->).
    destruct d as [|b d]; [done|]. simplify_eq.
    split; [right; exists a, g, (String b d); naive_solver|].
    by rewrite ?sapp_cons, sapp_assoc. }
  destruct Hsg as [? ->], Hi as [? ->], Hf as [? ->], He as [? ->].
  split; [by rewrite !sapp_assoc|]. by exists sg, i, f, e.
Qed.

Lemma valid_num_pieces sg i f e :
  sign_ok sg -> int_ok i -> frac_ok f -> exp_ok e -> valid_num (sg +:+ i +:+ f +:+ e) = true.
Proof.
  intros. unfold valid_num. apply bool_decide_eq_true.
  pose proof (scan_num_pieces sg i f e "") as H'. rewrite sapp_nil_r in H'. by apply H'.
Qed.

Lemma scan_num_valid l r :
  valid_num l = true -> num_stop r = true -> scan_num (l +:+ r) = Some (l, r).
Proof.
  intros (_ & sg & i & f & e & -> & ? & ? & ? & ?)%bool_decide_eq_true%scan_num_inv Hr.
  rewrite !sapp_assoc. by apply scan_num_pieces.
Qed.

Lemma scan_num_sound s l r : scan_num s = Some (l, r) -> valid_num l = true /\ s = l +:+ r.
Proof.
  intros (-> & sg & i & f & e & -> & ? & ? & ? & ?)%scan_num_inv.
  split; [by apply valid_num_pieces|done].
Qed.

Lemma valid_num_head l : valid_num l = true ->
  exists a s, l = String a s /\ (is_digit a = true \/ code a = 45%N).
Proof.
  intros (_ & sg & i & f & e & -> & Hs & Hi & _)%bool_decide_eq_true%scan_num_inv.
  destruct Hs as [->| ->]; [|eexists _, _; by rewrite ?sapp_cons; eauto].
  destruct Hi as [->|(a & d & -> & Ha & _)]; rewrite ?sapp_nil_l, ?sapp_cons; eexists _, _; eauto.
Qed.

(** ** Printing then parsing *)

Definition sum_list (l : list nat) : nat := foldr Nat.add 0 l.

(** The fuel the parser needs for a printed tree. *)
Fixpoint jfuel (t : json) : nat :=
  match t with
  | JArr l => S (sum_list (map (fun x => S (jfuel x)) l))
  | JObj l => S (sum_list (map (fun kv => S (jfuel kv.2)) l))
  | _ => 1
  end.

Lemma sjoin_cons sep x y l : sjoin sep (x :: y :: l) = x +:+ sep +:+ sjoin sep (y :: l).
Proof. done. Qed.

Lemma skip_ws_solid a s : is_ws a = false -> skip_ws (String a s) = String a s.
Proof. intros H. simpl. by rewrite H. Qed.

(** The first character of a printed tree. *)
Lemma jprint_head t r : jwf t = true ->
  exists a s, jprint t +:+ r = String a s /\ is_ws a = false /\ is_char 93 a = false.
Proof.
  destruct t as [|[]|l|l|l|l]; simpl; intros Hv; try (eexists _, _; split; [reflexivity|done]).
  apply valid_num_head in Hv as (a & s & -> & Ha). exists a, (s +:+ r). split; [done|].
  unfold is_ws, is_char. destruct Ha as [Ha%digit_codes| ->]; [|done].
  by rewrite !(proj2 (N.eqb_neq (code a) _)) by lia.
Qed.

Lemma parse_num_head n l s1 a : is_digit a = true \/ code a = 45%N ->
  scan_num (String a s1) = Some l -> parse_value (S n) (String a s1) = Some (JNum l.1, l.2).
Proof.
  intros Ha Hl. cbn [parse_value].
  assert (Hc : forall m, m = 34%N \/ m = 91%N \/ m = 123%N \/ m = 110%N \/ m = 116%N \/ m = 102%N ->
    is_char m a = false).
  { intros m Hm. unfold is_char. apply N.eqb_neq. destruct Ha as [Ha%digit_codes|Ha]; lia. }
  rewrite skip_ws_solid.
  2:{ unfold is_ws. rewrite !(proj2 (N.eqb_neq (code a) _)); [done|..];
      destruct Ha as [Ha%digit_codes|Ha]; lia. }
  rewrite !Hc by tauto. rewrite Hl. by destruct l.
Qed.

Definition parse_ok (t : json) : Prop :=
  jwf t = true -> forall n r, jfuel t <= n -> num_stop r = true ->
  parse_value n (jprint t +:+ r) = Some (t, r).

Lemma parse_elems_print l :
  Forall parse_ok l -> forallb jwf l = true -> l <> [] ->
  forall n r, sum_list (map (fun x => S (jfuel x)) l) <= n ->
  parse_elems n (sjoin "," (map jprint l) +:+ "]" +:+ r) = Some (l, r).
Proof.
  induction l as [|x l IH]; [done|]. intros Hl Hw _ n r Hn.
  apply Forall_cons in Hl as [Hx Hl]. simpl in Hw. apply andb_true_iff in Hw as [Hwx Hwl].
  destruct n as [|n]; [simpl in Hn; lia|].
  change (sum_list (map (fun x => S (jfuel x)) (x :: l)))
    with (S (jfuel x) + sum_list (map (fun x => S (jfuel x)) l)) in Hn.
  cbn [parse_elems]. destruct l as [|y l].
  - simpl sjoin. rewrite (Hx Hwx n ("]" +:+ r)) by (done || lia). done.
  - change (map jprint (x :: y :: l)) with (jprint x :: map jprint (y :: l)).
    change (sjoin "," (jprint x :: map jprint (y :: l)))
      with (jprint x +:+ "," +:+ sjoin "," (map jprint (y :: l))).
    rewrite !sapp_assoc. rewrite (Hx Hwx n) by (done || lia).
    cbn [mbind option_bind]. change (skip_ws ("," +:+ ?s)) with (String "," s).
    cbv iota beta. change (is_char 44 ",") with true. cbv iota.
    rewrite IH by (done || lia). done.
Qed.

Lemma parse_members_print l :
  Forall (fun kv => parse_ok kv.2) l ->
  forallb (fun kv => valid_lit kv.1 && jwf kv.2) l = true -> l <> [] ->
  forall n r, sum_list (map (fun kv => S (jfuel kv.2)) l) <= n ->
  parse_members n (sjoin "," (map (fun kv => quoted kv.1 +:+ ":" +:+ jprint kv.2) l) +:+ "}" +:+ r)
  = Some (l, r).
Proof.
  induction l as [|[k x] l IH]; [done|]. intros Hl Hw _ n r Hn.
  apply Forall_cons in Hl as [Hx Hl]. simpl in Hw, Hx.
  apply andb_true_iff in Hw as [[Hk Hwx]%andb_true_iff Hwl].
  destruct n as [|n]; [simpl in Hn; lia|].
  change (sum_list (map (fun kv => S (jfuel kv.2)) ((k, x) :: l)))
    with (S (jfuel x) + sum_list (map (fun kv : string * json => S (jfuel kv.2)) l)) in Hn.
  assert (Hone : forall rest, num_stop rest = true ->
    parse_members (S n) ((quoted k +:+ ":" +:+ jprint x) +:+ rest) =
    match skip_ws rest with
    | String c r =>
        if is_char 44 c then '(l, r) ← parse_members n r; Some ((k, x) :: l, r)
        else if is_char 125 c then Some ([(k, x)], r) else None
    | "" => None
    end).
  { intros rest Hrest. unfold quoted. rewrite !sapp_assoc, sapp_cons, !sapp_assoc.
    cbn [parse_members]. rewrite skip_ws_solid by done. change (is_char 34 dquote) with true.
    cbv iota. change (char_string dquote +:+ ?s) with (String dquote s).
    rewrite scan_str_valid by done. cbn [mbind option_bind].
    change (skip_ws (":" +:+ ?s)) with (String ":" s). cbv iota beta.
    change (is_char 58 ":") with true. cbv iota.
    rewrite (Hx Hwx n rest) by (done || lia). done. }
  destruct l as [|y l].
  - change (map (fun kv => quoted kv.1 +:+ ":" +:+ jprint kv.2) [(k, x)])
      with [quoted k +:+ ":" +:+ jprint x].
    cbn [sjoin]. rewrite Hone by done. done.
  - change (sjoin "," (map (fun kv => quoted kv.1 +:+ ":" +:+ jprint kv.2) ((k, x) :: y :: l)))
      with ((quoted k +:+ ":" +:+ jprint x) +:+ "," +:+
            sjoin "," (map (fun kv => quoted kv.1 +:+ ":" +:+ jprint kv.2) (y :: l))).
    rewrite (sapp_assoc (quoted k +:+ ":" +:+ jprint x)). rewrite Hone by done.
    rewrite sapp_assoc. change (skip_ws ("," +:+ ?s)) with (String "," s). cbv iota beta.
    change (is_char 44 ",") with true. cbv iota. rewrite IH by (done || lia). done.
Qed.

Lemma parse_print_value t : parse_ok t.
Proof.
  induction t as [|[]|l|l|l IH|l IH] using json_nested_ind; intros Hw n r Hn Hr;
    (destruct n as [|n]; [simpl in Hn; lia|]); try done.
  - simpl in Hw |- *. pose proof (valid_num_head l Hw) as (a & s & -> & Ha).
    pose proof (scan_num_valid _ r Hw Hr) as Hs. rewrite sapp_cons in Hs |- *.
    by apply (parse_num_head n (String a s, r)).
  - simpl in Hw. unfold jprint, quoted. rewrite ?sapp_cons, sapp_assoc. cbn [parse_value].
    rewrite skip_ws_solid by done. change (is_char 34 dquote) with true. cbv iota.
    change (char_string dquote +:+ r) with (String dquote r). by rewrite scan_str_valid.
  - simpl in Hw. destruct l as [|x l]; [done|].
    change (jprint (JArr (x :: l))) with ("[" +:+ sjoin "," (map jprint (x :: l)) +:+ "]").
    rewrite !sapp_assoc. change ("[" +:+ ?s) with (String "[" s). cbn [parse_value].
    rewrite skip_ws_solid by done. change (is_char 34 "[") with false.
    change (is_char 91 "[") with true. cbv iota.
    assert (exists a s, sjoin "," (map jprint (x :: l)) +:+ "]" +:+ r = String a s /\
      is_ws a = false /\ is_char 93 a = false) as (a & s & Has & Ha1 & Ha2).
    { apply andb_true_iff in Hw as [Hx _]. simpl. destruct l as [|y l]; simpl; [by apply jprint_head|].
      rewrite !sapp_assoc. by apply jprint_head. }
    rewrite Has. rewrite skip_ws_solid, Ha2 by done. rewrite <-Has.
    rewrite parse_elems_print; [done|done|done|done|]. simpl in Hn |- *. lia.
  - simpl in Hw. destruct l as [|[k x] l]; [done|].
    change (jprint (JObj ((k, x) :: l))) with
      ("{" +:+ sjoin "," (map (fun kv => quoted kv.1 +:+ ":" +:+ jprint kv.2) ((k, x) :: l)) +:+ "}").
    rewrite !sapp_assoc. change ("{" +:+ ?s) with (String "{" s). cbn [parse_value].
    rewrite skip_ws_solid by done. change (is_char 34 "{") with false.
    change (is_char 91 "{") with false. change (is_char 123 "{") with true. cbv iota.
    assert (exists s, sjoin "," (map (fun kv => quoted kv.1 +:+ ":" +:+ jprint kv.2) ((k, x) :: l))
      +:+ "}" +:+ r = String dquote s) as [s Has].
    { simpl. destruct (map _ l); by eexists. }
    rewrite Has. rewrite skip_ws_solid by done. change (is_char 125 dquote) with false.
    cbv iota. rewrite <-Has.
    rewrite parse_members_print; [done|done|done|done|]. simpl in Hn |- *. lia.
Qed.

Lemma sjoin_length xs :
  sum_list (map (fun s => S (2 * String.length s)) xs) <= S (2 * String.length (sjoin "," xs)).
Proof.
  induction xs as [|x [|y xs] IH]; [simpl; lia|simpl; lia|].
  rewrite sjoin_cons, !slength_app. simpl in *. lia.
Qed.

Lemma sum_list_le (l1 l2 : list nat) : Forall2 le l1 l2 -> sum_list l1 <= sum_list l2.
Proof. induction 1; simpl; lia. Qed.

Lemma jfuel_length t : jwf t = true -> jfuel t <= 2 * String.length (jprint t).
Proof.
  induction t as [|[]|l|l|l IH|l IH] using json_nested_ind; intros Hw; try (simpl; lia).
  - simpl. apply valid_num_head in Hw as (a & s & -> & _). simpl. lia.
  - simpl jprint. rewrite !slength_app. cbn [jfuel].
    assert (sum_list (map (fun x => S (jfuel x)) l) <=
            sum_list (map (fun s => S (2 * String.length s)) (map jprint l))) as H1.
    { apply sum_list_le. simpl in Hw. rewrite map_map.
      induction IH as [|x l Hx Hl IHl]; simpl in *; constructor.
      - apply andb_true_iff in Hw as [Hwx _]. specialize (Hx Hwx). lia.
      - apply IHl. by apply andb_true_iff in Hw as [_ ?]. }
    pose proof (sjoin_length (map jprint l)). simpl. lia.
  - simpl jprint. rewrite !slength_app. cbn [jfuel].
    set (f := fun kv : string * json => quoted kv.1 +:+ ":" +:+ jprint kv.2).
    assert (sum_list (map (fun kv => S (jfuel kv.2)) l) <=
            sum_list (map (fun s => S (2 * String.length s)) (map f l))) as H1.
    { apply sum_list_le. simpl in Hw. rewrite map_map.
      induction IH as [|[k x] l Hx Hl IHl]; simpl in *; constructor.
      - apply andb_true_iff in Hw as [[_ Hwx]%andb_true_iff _]. specialize (Hx Hwx).
        unfold f; simpl. rewrite ?slength_app. simpl. rewrite ?slength_app. simpl. lia.
      - apply IHl. by apply andb_true_iff in Hw as [_ ?]. }
    pose proof (sjoin_length (map f l)). simpl. lia.
Qed.

Lemma jparse_jprint t : jwf t = true -> jparse (jprint t) = Some t.
Proof.
  intros Hw. unfold jparse, parse_fuel.
  rewrite <-(sapp_nil_r (jprint t)) at 2.
  rewrite (parse_print_value t Hw) by (done || (pose proof (jfuel_length t Hw); lia)).
  done.
Qed.

(** ** The parser is sound, and its fuel is enough *)

Lemma skip_ws_length s : String.length (skip_ws s) <= String.length s.
Proof. induction s as [|a s IH]; simpl; [lia|]. destruct (is_ws a); simpl; lia. Qed.

Lemma strip_sound p s r : strip p s = Some r -> s = p +:+ r.
Proof.
  revert s r. induction p as [|a p IH]; intros [|b s] r; simpl; try done; [by intros [= <-]..|].
  destruct (Ascii.eqb_spec a b) as [->|]; [|done]. intros ->%IH. done.
Qed.

(** A successful parse yields a well-formed value and consumes input; with
    any fuel of at least twice the consumed length the result is the same. *)
Definition parsed {A} (wf : A -> bool) (p : nat -> string -> option (A * string))
    (s : string) (v : A) (r : string) : Prop :=
  wf v = true /\ String.length r < String.length s /\
  forall m, 2 * (String.length s - String.length r) <= m -> p m s = Some (v, r).

Definition wf_member (kv : string * json) : bool := valid_lit kv.1 && jwf kv.2.

Lemma parsed_value_step n s t r :
  (forall s l r, parse_elems n s = Some (l, r) -> parsed (forallb jwf) parse_elems s l r) ->
  (forall s l r, parse_members n s = Some (l, r) -> parsed (forallb wf_member) parse_members s l r) ->
  parse_value (S n) s = Some (t, r) -> parsed jwf parse_value s t r.
Proof.
  intros IHe IHm. pose proof (skip_ws_length s) as Hs.
  assert (Hm : forall s' : string, String.length s' < String.length s ->
    forall m, 2 * (String.length s - String.length s') <= m ->
    exists m', m = S m' /\ 2 * (String.length s - S (String.length s')) <= m').
  { intros s' Hs' [|m] Hm; [lia|]. exists m. split; [done|lia]. }
  cbn [parse_value]. unfold parsed.
  destruct (skip_ws s) as [|a s1] eqn:Es; [done|]. simpl in Hs.
  destruct (is_char 34 a) eqn:E34.
  { intros ([l r'] & Hl & [= <- <-])%bind_Some. pose proof (scan_str_sound _ _ _ Hl) as [Hv Heq].
    split; [done|]. assert (Hlt : String.length r' < String.length s).
    { rewrite Heq in Hs. rewrite slength_app in Hs. simpl in Hs. lia. }
    split; [done|]. intros m (m' & -> & _)%Hm; [|done]. cbn [parse_value].
    by rewrite Es, E34, Hl. }
  destruct (is_char 91 a) eqn:E91.
  { pose proof (skip_ws_length s1). destruct (skip_ws s1) as [|b r'] eqn:Es1; [done|].
    destruct (is_char 93 b) eqn:E93.
    { intros [= <- <-]. simpl in *. split; [done|]. split; [lia|].
      intros m (m' & -> & _)%Hm; [|simpl; lia]. cbn [parse_value]. by rewrite Es, E34, E91, Es1, E93. }
    intros ([l r''] & Hl & [= <- <-])%bind_Some. apply IHe in Hl as (Hv & Hlt & Hp).
    split; [done|]. split; [lia|]. intros m (m' & -> & Hm')%Hm; [|lia]. cbn [parse_value].
    rewrite Es, E34, E91, Es1, E93. rewrite Hp by lia. done. }
  destruct (is_char 123 a) eqn:E123.
  { pose proof (skip_ws_length s1). destruct (skip_ws s1) as [|b r'] eqn:Es1; [done|].
    destruct (is_char 125 b) eqn:E125.
    { intros [= <- <-]. simpl in *. split; [done|]. split; [lia|].
      intros m (m' & -> & _)%Hm; [|simpl; lia]. cbn [parse_value].
      by rewrite Es, E34, E91, E123, Es1, E125. }
    intros ([l r''] & Hl & [= <- <-])%bind_Some. apply IHm in Hl as (Hv & Hlt & Hp).
    split; [done|]. split; [lia|]. intros m (m' & -> & Hm')%Hm; [|lia]. cbn [parse_value].
    rewrite Es, E34, E91, E123, Es1, E125. rewrite Hp by lia. done. }
  assert (Hkw : forall p v r', strip p s1 = Some r' -> jwf v = true ->
    (forall m', parse_value (S m') s = r0 ← strip p s1; Some (v, r0)) ->
    jwf v = true /\ String.length r' < String.length s /\
    forall m, 2 * (String.length s - String.length r') <= m -> parse_value m s = Some (v, r')).
  { intros p v r' Hst Hv Hpv. pose proof (strip_sound _ _ _ Hst) as Heq.
    assert (String.length r' < String.length s).
    { rewrite Heq, slength_app in Hs. lia. }
    split; [done|]. split; [done|]. intros m (m' & -> & _)%Hm; [|done]. by rewrite Hpv, Hst. }
  destruct (is_char 110 a) eqn:E110.
  { intros (r' & Hst & [= <- <-])%bind_Some. apply (Hkw "ull"); [done..|].
    intros m'. cbn [parse_value]. by rewrite Es, E34, E91, E123, E110. }
  destruct (is_char 116 a) eqn:E116.
  { intros (r' & Hst & [= <- <-])%bind_Some. apply (Hkw "rue"); [done..|].
    intros m'. cbn [parse_value]. by rewrite Es, E34, E91, E123, E110, E116. }
  destruct (is_char 102 a) eqn:E102.
  { intros (r' & Hst & [= <- <-])%bind_Some. apply (Hkw "alse"); [done..|].
    intros m'. cbn [parse_value]. by rewrite Es, E34, E91, E123, E110, E116, E102. }
  intros ([l r'] & Hl & [= <- <-])%bind_Some. pose proof (scan_num_sound _ _ _ Hl) as [Hv Heq].
  pose proof (valid_num_head _ Hv) as (c & s' & -> & _).
  split; [done|]. assert (Hlt : String.length r' < String.length s).
  { apply (f_equal String.length) in Heq. rewrite slength_app in Heq. simpl in Heq. lia. }
  split; [done|]. intros m (m' & -> & _)%Hm; [|done]. cbn [parse_value].
  by rewrite Es, E34, E91, E123, E110, E116, E102, Hl.
Qed.

Lemma parsed_elems_step n s l r :
  (forall s t r, parse_value n s = Some (t, r) -> parsed jwf parse_value s t r) ->
  (forall s l r, parse_elems n s = Some (l, r) -> parsed (forallb jwf) parse_elems s l r) ->
  parse_elems (S n) s = Some (l, r) -> parsed (forallb jwf) parse_elems s l r.
Proof.
  intros IHv IHe. cbn [parse_elems]. intros ([v r1] & Hv & H)%bind_Some.
  apply IHv in Hv as (Hwf & Hlt & Hp). pose proof (skip_ws_length r1) as Hs.
  destruct (skip_ws r1) as [|b r2] eqn:Es; [done|]. simpl in Hs. unfold parsed.
  destruct (is_char 44 b) eqn:E44.
  - apply bind_Some in H as ([l' r3] & Hl & [= <- <-]).
    apply IHe in Hl as (Hwf' & Hlt' & Hp'). split; [simpl; by rewrite Hwf, Hwf'|].
    split; [lia|]. intros [|m] Hm; [lia|]. cbn [parse_elems].
    rewrite Hp by lia. cbn [mbind option_bind]. rewrite Es, E44. by rewrite Hp' by lia.
  - destruct (is_char 93 b) eqn:E93; [|done]. simplify_eq.
    split; [simpl; by rewrite Hwf|]. split; [lia|]. intros [|m] Hm; [lia|]. cbn [parse_elems].
    rewrite Hp by lia. cbn [mbind option_bind]. by rewrite Es, E44, E93.
Qed.

Lemma parsed_members_step n s l r :
  (forall s t r, parse_value n s = Some (t, r) -> parsed jwf parse_value s t r) ->
  (forall s l r, parse_members n s = Some (l, r) -> parsed (forallb wf_member) parse_members s l r) ->
  parse_members (S n) s = Some (l, r) -> parsed (forallb wf_member) parse_members s l r.
Proof.
  intros IHv IHm. cbn [parse_members]. pose proof (skip_ws_length s) as Hs0.
  destruct (skip_ws s) as [|a s1] eqn:Es0; [done|]. simpl in Hs0.
  destruct (is_char 34 a) eqn:E34; [|done].
  intros ([k r0] & Hk & H)%bind_Some. pose proof (scan_str_sound _ _ _ Hk) as [Hwk Hk'].
  apply (f_equal String.length) in Hk'. rewrite slength_app in Hk'. simpl in Hk'.
  pose proof (skip_ws_length r0) as Hs1. destruct (skip_ws r0) as [|b r0'] eqn:Es1; [done|].
  simpl in Hs1. destruct (is_char 58 b) eqn:E58; [|done].
  apply bind_Some in H as ([v r1] & Hv & H).
  apply IHv in Hv as (Hwf & Hlt & Hp). pose proof (skip_ws_length r1) as Hs.
  destruct (skip_ws r1) as [|c r2] eqn:Es; [done|]. simpl in Hs. unfold parsed.
  destruct (is_char 44 c) eqn:E44.
  - apply bind_Some in H as ([l' r3] & Hl & [= <- <-]).
    apply IHm in Hl as (Hwf' & Hlt' & Hp').
    split; [simpl; unfold wf_member at 1; simpl; by rewrite Hwk, Hwf, Hwf'|].
    split; [lia|]. intros [|m] Hm; [lia|]. cbn [parse_members].
    rewrite Es0, E34, Hk. cbn [mbind option_bind]. rewrite Es1, E58.
    rewrite Hp by lia. cbn [mbind option_bind]. rewrite Es, E44. by rewrite Hp' by lia.
  - destruct (is_char 125 c) eqn:E125; [|done]. simplify_eq.
    split; [simpl; unfold wf_member; simpl; by rewrite Hwk, Hwf|].
    split; [lia|]. intros [|m] Hm; [lia|]. cbn [parse_members].
    rewrite Es0, E34, Hk. cbn [mbind option_bind]. rewrite Es1, E58.
    rewrite Hp by lia. cbn [mbind option_bind]. by rewrite Es, E44, E125.
Qed.

Lemma parse_parsed n :
  (forall s t r, parse_value n s = Some (t, r) -> parsed jwf parse_value s t r) /\
  (forall s l r, parse_elems n s = Some (l, r) -> parsed (forallb jwf) parse_elems s l r) /\
  (forall s l r, parse_members n s = Some (l, r) -> parsed (forallb wf_member) parse_members s l r).
Proof.
  induction n as [|n (IHv & IHe & IHm)]; [done|].
  split; [|split]; intros s x r H.
  - by eapply parsed_value_step.
  - by eapply parsed_elems_step.
  - by eapply parsed_members_step.
Qed.

(** The parser's fuel never makes it reject a text it would accept with more. *)
Lemma jparse_fuel_enough n s t r :
  parse_value n s = Some (t, r) -> skip_ws r = "" -> jparse s = Some t.
Proof.
  intros H Hr. apply (proj1 (parse_parsed n)) in H as (_ & _ & Hp). unfold jparse, parse_fuel.
  rewrite Hp by lia. cbn [mbind option_bind]. by rewrite Hr.
Qed.

Lemma jparse_wf s t : jparse s = Some t -> jwf t = true.
Proof.
  unfold jparse. intros ([t' r] & H & H')%bind_Some.
  apply (proj1 (parse_parsed _)) in H as (Hw & _). destruct (skip_ws r); by simplify_eq.
Qed.

#[export] Hint Resolve jparse_wf : shim.

(** ** Encoding and decoding Go strings *)

Lemma good_bytes_ascii bs r : good_bytes bs r -> (r < 128)%N -> bs = char_string (chr r).
Proof.
  unfold char_string. destruct 1 as [a Ha|a b Ha Hb|a b c Ha Hb Hc|a b c d Ha Hb Hc Hd]; intros Hr.
  - by rewrite chr_code.
  - unfold rune2 in Hr. rng. lia.
  - exfalso. unfold rune3 in Hr. unfold second_ok in Hb. rng.
    unfold accept2 in Hb. repeat case_match; simpl in *; rng; lia.
  - exfalso. unfold rune4 in Hr. unfold second_ok in Hb. rng.
    unfold accept2 in Hb. repeat case_match; simpl in *; rng; lia.
Qed.

Lemma second_cont a b : second_ok a b = true -> (128 <= code b <= 191)%N.
Proof.
  unfold second_ok, accept2. intros H. repeat case_match; simpl in *; rng; lia.
Qed.

(** Linear arithmetic with division by constants. *)
Ltac div_lia := zify; Z.to_euclidean_division_equations; lia.

Lemma chr_of_N_code n a : n = code a -> chr n = a.
Proof. intros ->. apply chr_code. Qed.

(** Encoding a decoded rune gives back its bytes. *)
Lemma encode_good bs r : good_bytes bs r -> encode_rune r = bs.
Proof.
  intros H. pose proof H as H0. unfold encode_rune.
  destruct H as [a Ha|a b Ha Hb|a b c Ha Hb Hc|a b c d Ha Hb Hc Hd].
  - rewrite (proj2 (N.ltb_lt _ _)) by done. by rewrite chr_code.
  - apply second_cont in Hb. rng. unfold rune2.
    rewrite (proj2 (N.ltb_ge _ _)), (proj2 (N.ltb_lt _ _)) by lia.
    unfold char_string. repeat f_equal; apply chr_of_N_code; div_lia.
  - pose proof (second_cont _ _ Hb) as Hb'. unfold is_cont in Hc. rng.
    assert (Hr : (2048 <= rune3 a b c < 65536)%N /\ ~ (55296 <= rune3 a b c <= 57343)%N).
    { unfold rune3. unfold second_ok, accept2 in Hb. repeat case_match; simpl in *; rng; lia. }
    rewrite (proj2 (N.ltb_ge _ 128)), (proj2 (N.ltb_ge _ 2048)) by lia.
    rewrite in_rng_false, (proj2 (N.ltb_ge _ _)), (proj2 (N.ltb_lt _ 65536)) by lia. simpl.
    unfold rune3, char_string in *. repeat f_equal; apply chr_of_N_code; div_lia.
  - pose proof (second_cont _ _ Hb) as Hb'. unfold is_cont in Hc, Hd. rng.
    assert (Hr : (65536 <= rune4 a b c d <= 1114111)%N).
    { unfold rune4. unfold second_ok, accept2 in Hb. repeat case_match; simpl in *; rng; lia. }
    rewrite (proj2 (N.ltb_ge _ 128)), (proj2 (N.ltb_ge _ 2048)) by lia.
    rewrite in_rng_false, (proj2 (N.ltb_ge 1114111 _)), (proj2 (N.ltb_ge _ 65536)) by lia. simpl.
    unfold rune4, char_string in *. repeat f_equal; apply chr_of_N_code; div_lia.
Qed.

Lemma hex_digit_spec d : (d < 16)%N ->
  is_hex (hex_digit d) = true /\ (code (hex_digit d) < 128)%N /\ hex_val (code (hex_digit d)) = d.
Proof.
  intros Hd. assert (H : forallb (fun d => is_hex (hex_digit d) && (code (hex_digit d) <? 128)%N &&
     (hex_val (code (hex_digit d)) =? d)%N) (map N.of_nat (seq 0 16)) = true) by reflexivity.
  rewrite forallb_forall in H. specialize (H d).
  rewrite !andb_true_iff, N.ltb_lt, N.eqb_eq in H.
  destruct H as [[? ?] ?]; [|done].
  apply in_map_iff. exists (N.to_nat d). split; [lia|]. apply in_seq. lia.
Qed.

Definition ascii_chunk (a : ascii) : chunk := Chunk (code a) (char_string a).

(** The four hexadecimal digits of a \u escape. *)
Definition hex4_digits (r : N) : list ascii :=
  [hex_digit (r / 256 / 16 mod 16); hex_digit (r / 256 mod 16);
   hex_digit (r mod 256 / 16 mod 16); hex_digit (r mod 256 mod 16)].

Lemma chunks_u_escape r s :
  chunks (u_escape r +:+ s) =
  map ascii_chunk (backslash :: chr 117 :: hex4_digits r) ++ chunks s.
Proof.
  unfold u_escape, hex4, hex2, char_string. autorewrite with sapp.
  rewrite !chunks_ascii; try (by apply hex_digit_spec, N.mod_lt); done.
Qed.

Lemma hex_val4_digits r : (r < 65536)%N ->
  match map ascii_chunk (hex4_digits r) with
  | [h1; h2; h3; h4] => hex_val4 h1 h2 h3 h4 = r
  | _ => False
  end.
Proof.
  intros Hr. simpl. unfold hex_val4. simpl.
  rewrite !(proj2 (proj2 (hex_digit_spec _ (N.mod_lt _ 16 ltac:(done))))). div_lia.
Qed.

Lemma valid_lit_ascii a s : (32 <= code a)%N -> code a <> 34%N -> code a <> 92%N ->
  valid_lit (String a s) = valid_lit s.
Proof.
  intros H1 H2 H3. simpl. rewrite (proj2 (N.eqb_neq _ 34)), (proj2 (N.eqb_neq _ 92)) by done.
  by rewrite (proj2 (N.ltb_ge _ _)).
Qed.

Lemma valid_lit_u_escape r s : valid_lit (u_escape r +:+ s) = valid_lit s.
Proof.
  unfold u_escape, hex4, hex2, char_string. autorewrite with sapp. simpl.
  by rewrite !(proj1 (hex_digit_spec _ (N.mod_lt _ 16 ltac:(done)))).
Qed.

Lemma valid_lit_good bs r s : good_bytes bs r -> (32 <= r)%N -> r <> 34%N -> r <> 92%N ->
  valid_lit (bs +:+ s) = valid_lit s.
Proof.
  destruct 1 as [a Ha|a b Ha Hb|a b c Ha Hb Hc|a b c d Ha Hb Hc Hd]; intros H1 H2 H3;
    unfold char_string; rewrite !sapp_cons, sapp_nil_l.
  - by apply valid_lit_ascii.
  - apply second_cont in Hb. rng. rewrite !valid_lit_ascii by lia. done.
  - apply second_cont in Hb. unfold is_cont in Hc. rng. rewrite !valid_lit_ascii by lia. done.
  - apply second_cont in Hb. unfold is_cont in Hc, Hd. rng. rewrite !valid_lit_ascii by lia. done.
Qed.

Lemma unq_ascii_cons c cs : (ck_rune c =? 92)%N = false -> unq (c :: cs) = chunk_utf8 c +:+ unq cs.
Proof. intros H. simpl. by rewrite H. Qed.

Lemma is_surrogate_false r : (r < 55296)%N \/ (57343 < r)%N -> is_surrogate r = false.
Proof. apply in_rng_false. Qed.

Lemma unq_u_escape r s : (r < 65536)%N -> is_surrogate r = false ->
  unq (chunks (u_escape r +:+ s)) = encode_rune r +:+ unq (chunks s).
Proof.
  intros Hr Hs. rewrite chunks_u_escape. pose proof (hex_val4_digits r Hr) as Hh.
  simpl in Hh |- *. by rewrite Hh, Hs.
Qed.

Lemma unq_esc c s : (code c < 128)%N -> code c <> 117%N ->
  unq (chunks (esc c +:+ s)) = encode_rune (simple_unescape (code c)) +:+ unq (chunks s).
Proof.
  intros Hc Hu. unfold esc, char_string. rewrite !sapp_cons, sapp_nil_l, !chunks_ascii by done.
  simpl. by rewrite (proj2 (N.eqb_neq _ 117)).
Qed.

(** One encoded rune: valid in a literal, and decoded to the rune it encodes. *)
Lemma enc_chunk_spec c s : good_or_bad c ->
  valid_lit (enc_chunk c +:+ s) = valid_lit s /\
  unq (chunks (enc_chunk c +:+ s)) = chunk_utf8 c +:+ unq (chunks s).
Proof.
  intros [Hg|(a & -> & Ha)]; unfold enc_chunk, chunk_utf8.
  2:{ assert (is_bad (bad_chunk a) = true) as -> by done.
      split; [apply valid_lit_u_escape|by apply unq_u_escape]. }
  rewrite good_not_bad by done. destruct c as [r bs]. unfold good_chunk in Hg. simpl in *.
  assert (Hsm : forall n : N, (r =? n)%N = true -> (n < 128)%N -> bs = char_string (chr n)).
  { intros n Hn Hlt. rng. subst. by apply good_bytes_ascii. }
  destruct ((r =? 34)%N || (r =? 92)%N) eqn:E.
  { apply orb_true_iff in E as [E|E]; rewrite (Hsm _ E) by done;
      (split; [done|]); unfold char_string; rewrite !sapp_cons, sapp_nil_l, !chunks_ascii by done;
      done. }
  apply orb_false_iff in E as [E34 E92].
  repeat match goal with
  | |- context [if (r =? ?n)%N then _ else _] =>
      destruct (r =? n)%N eqn:?;
      [rewrite (Hsm n) by done; split; [done|by rewrite unq_esc by done]|]
  end.
  destruct ((r <? 32)%N || html_rune r) eqn:Eu.
  { assert (Hr : (r < 65536)%N /\ is_surrogate r = false).
    { apply orb_true_iff in Eu as [Eu|Eu].
      - rng. split; [lia|]. apply is_surrogate_false. lia.
      - unfold html_rune in Eu. rewrite !orb_true_iff in Eu.
        destruct Eu as [[[[Eu|Eu]|Eu]|Eu]|Eu]; rng; subst; done. }
    split; [apply valid_lit_u_escape|]. rewrite unq_u_escape by apply Hr.
    by rewrite (encode_good bs). }
  apply orb_false_iff in Eu as [E32 _]. rng.
  split; [by apply (valid_lit_good bs r)|].
  rewrite (chunks_good bs r) by done. rewrite unq_ascii_cons; [|by apply N.eqb_neq].
  unfold chunk_utf8. by rewrite good_not_bad.
Qed.

Lemma encode_chunks_spec cs : Forall good_or_bad cs ->
  valid_lit (sconcat (map enc_chunk cs)) = true /\
  unq (chunks (sconcat (map enc_chunk cs))) = sconcat (map chunk_utf8 cs).
Proof.
  induction 1 as [|c cs Hc Hcs [IH1 IH2]]; simpl; [done|].
  destruct (enc_chunk_spec c (sconcat (map enc_chunk cs)) Hc) as [H1 H2].
  by rewrite H1, H2, IH1, IH2.
Qed.

Lemma encode_body_valid s : valid_lit (encode_body s) = true.
Proof. apply encode_chunks_spec, chunks_good_or_bad. Qed.

(** A Go string that json.Marshal wrote is read back with its invalid bytes
    replaced by U+FFFD. *)
Lemma unquote_encode s : unquote (encode_body s) = sanitize s.
Proof. apply encode_chunks_spec, chunks_good_or_bad. Qed.

Lemma sanitize_valid s : valid_utf8 s = true -> sanitize s = s.
Proof.
  intros Hv. unfold sanitize. rewrite <-(unchunks_chunks s) at 2. unfold unchunks. f_equal.
  apply map_ext_in. intros c Hc. unfold valid_utf8 in Hv. rewrite forallb_forall in Hv.
  unfold chunk_utf8. specialize (Hv c Hc). by destruct (is_bad c).
Qed.

Lemma unquote_encode_valid s : valid_utf8 s = true -> unquote (encode_body s) = s.
Proof. intros. by rewrite unquote_encode, sanitize_valid. Qed.

#[export] Hint Resolve encode_body_valid : shim.

(** ** Number texts *)

Lemma digit_char_digit z : is_digit (digit_char z) = true.
Proof.
  unfold is_digit, digit_char. apply in_rng_spec.
  pose proof (Z.mod_pos_bound z 10 ltac:(lia)). rewrite code_chr by lia. lia.
Qed.

Lemma fixed_digits_all n z acc : all_digits acc = true -> all_digits (fixed_digits n z acc) = true.
Proof.
  revert z acc. induction n as [|n IH]; intros z acc H; simpl; [done|].
  apply IH. simpl. by rewrite digit_char_digit.
Qed.

Lemma strip_zeros_int s : all_digits s = true -> int_ok (strip_zeros s).
Proof.
  induction s as [|a s IH]; simpl; [by left|]. intros [Ha Hs]%andb_true_iff.
  destruct (code a =? 48)%N eqn:E; [by apply IH|]. right. eauto 8.
Qed.

Lemma digits_int_ok z : int_ok (digits z).
Proof. apply strip_zeros_int. by apply fixed_digits_all. Qed.

Lemma int_ok_digits s : int_ok s -> s <> "" /\ all_digits s = true.
Proof. intros [->|(a & d & -> & Ha & _ & Hd)]; simpl; [done|]. by rewrite Ha, Hd. Qed.

Lemma strip_zeros_end_all s : all_digits s = true -> all_digits (strip_zeros_end s) = true.
Proof.
  induction s as [|a s IH]; simpl; [done|]. intros [Ha Hs]%andb_true_iff.
  specialize (IH Hs). destruct (strip_zeros_end s) as [|b r].
  - destruct (code a =? 48)%N; [done|]. simpl. by rewrite Ha.
  - cbn [all_digits] in IH |- *. by rewrite Ha, IH.
Qed.

Lemma sdrop_all_digits n s : all_digits s = true -> all_digits (sdrop n s) = true.
Proof.
  revert s. induction n as [|n IH]; intros [|a s]; simpl; try done.
  intros [_ H]%andb_true_iff. by apply IH.
Qed.

Lemma frac_part_ok s : all_digits s = true -> frac_ok (frac_part s).
Proof. intros H. destruct s; [by left|]. right. by eexists. Qed.

Lemma format_f_valid sg d e : sign_ok sg -> valid_num (sg +:+ format_f d e) = true.
Proof.
  intros Hs. unfold format_f. case_match.
  - rewrite <-(sapp_nil_r (digits _)), <-(sapp_nil_r (digits _ +:+ "")), sapp_assoc.
    apply valid_num_pieces; [done|apply digits_int_ok|by left|by left].
  - rewrite <-(sapp_nil_r (frac_part _)). apply valid_num_pieces; [done|apply digits_int_ok| |by left].
    by apply frac_part_ok, strip_zeros_end_all, fixed_digits_all.
Qed.

Lemma format_e_valid sg d e : sign_ok sg -> valid_num (sg +:+ format_e d e) = true.
Proof.
  intros Hs. unfold format_e. apply valid_num_pieces; [done|apply digits_int_ok|..].
  - apply frac_part_ok, strip_zeros_end_all, sdrop_all_digits.
    apply int_ok_digits, digits_int_ok.
  - right. set (x := (e + Z.of_nat (String.length (digits d)) - 1)%Z).
    exists (chr 101), (if (x <? 0)%Z then "-" else "+"), (digits (Z.abs x)).
    pose proof (int_ok_digits _ (digits_int_ok (Z.abs x))).
    split; [by destruct (x <? 0)%Z|]. split; [by left|].
    split; [by destruct (x <? 0)%Z; auto|done].
Qed.

Lemma float_text_valid f : valid_num (float_text f) = true.
Proof.
  unfold float_text. set (sg := if f_neg f then "-" else "").
  assert (Hs : sign_ok sg) by (subst sg; destruct (f_neg f); [by right|by left]).
  case_match.
  - change "0" with ("0" +:+ "" +:+ ""). apply valid_num_pieces; [done|by left|by left|by left].
  - destruct (shortest f). case_match; [by apply format_f_valid|by apply format_e_valid].
Qed.

Lemma of_any_wf v : jwf (of_any v) = true.
Proof.
  induction v as [| | | |l IH|m IH] using gval_nested_ind; simpl; auto using float_text_valid with shim.
  - rewrite forallb_forall. intros t (v & <- & Hv)%in_map_iff.
    rewrite Forall_forall in IH. apply IH. by apply list_elem_of_In.
  - rewrite forallb_forall. intros t (v & <- & Hv)%in_map_iff. simpl.
    rewrite encode_body_valid. rewrite Forall_forall in IH. apply IH. by apply list_elem_of_In.
Qed.

#[export] Hint Resolve float_text_valid of_any_wf : shim.

(** The text of a marshalled value parses to the tree that was printed. *)
Lemma parse_marshal v : jparse (jprint (of_any v)) = Some (of_any v).
Proof. apply jparse_jprint, of_any_wf. Qed.

(** ** Decoded values *)

Lemma encode_rune_valid r : valid_utf8 (encode_rune r) = true.
Proof.
  assert (H : forall bs r', good_bytes bs r' -> valid_utf8 bs = true).
  { intros bs r' Hg. unfold valid_utf8. rewrite <-(sapp_nil_r bs), (chunks_good bs r') by done.
    simpl. by rewrite good_not_bad. }
  unfold encode_rune, char_string. destruct (r <? 128)%N eqn:E1; rng.
  { apply (H _ (code (chr r))). constructor. rewrite code_chr; lia. }
  destruct (r <? 2048)%N eqn:E2; rng.
  { apply (H _ (rune2 (chr (192 + r / 64)) (chr (128 + r mod 64)))). constructor.
    - rewrite in_rng_spec, code_chr; div_lia.
    - unfold second_ok, accept2. rewrite !code_chr by div_lia.
      rewrite !(proj2 (N.eqb_neq (192 + r / 64) _)) by div_lia. apply in_rng_spec. simpl. div_lia. }
  destruct (in_rng 55296 57343 r || (1114111 <? r)%N) eqn:E3; [done|].
  apply orb_false_iff in E3 as [E3 E4].
  assert (Hs : ~ (55296 <= r <= 57343)%N) by (rewrite <-in_rng_spec, E3; done). rng.
  destruct (r <? 65536)%N eqn:E5; rng.
  - set (a := chr (224 + r / 4096)). set (b := chr (128 + (r / 64) mod 64)).
    set (c := chr (128 + r mod 64)). apply (H _ (rune3 a b c)).
    assert (Ha : code a = (224 + r / 4096)%N) by (apply code_chr; div_lia).
    assert (Hb : code b = (128 + (r / 64) mod 64)%N) by (apply code_chr; div_lia).
    constructor.
    + apply in_rng_spec. rewrite Ha. div_lia.
    + unfold second_ok, accept2. apply in_rng_spec. rewrite Ha, Hb.
      repeat case_match; simpl; rng; div_lia.
    + apply in_rng_spec. unfold c. rewrite code_chr; div_lia.
  - set (a := chr (240 + r / 262144)). set (b := chr (128 + (r / 4096) mod 64)).
    set (c := chr (128 + (r / 64) mod 64)). set (d := chr (128 + r mod 64)).
    apply (H _ (rune4 a b c d)).
    assert (Ha : code a = (240 + r / 262144)%N) by (apply code_chr; div_lia).
    assert (Hb : code b = (128 + (r / 4096) mod 64)%N) by (apply code_chr; div_lia).
    constructor.
    + apply in_rng_spec. rewrite Ha. div_lia.
    + unfold second_ok, accept2. apply in_rng_spec. rewrite Ha, Hb.
      repeat case_match; simpl; rng; div_lia.
    + apply in_rng_spec. unfold c. rewrite code_chr; div_lia.
    + apply in_rng_spec. unfold d. rewrite code_chr; div_lia.
Qed.

Lemma chunk_utf8_valid c : good_or_bad c -> valid_utf8 (chunk_utf8 c) = true.
Proof.
  intros [Hg|(a & -> & _)]; unfold chunk_utf8; [|done].
  rewrite good_not_bad by done. rewrite <-(encode_good _ _ Hg). apply encode_rune_valid.
Qed.

Lemma unq_valid cs : Forall good_or_bad cs -> valid_utf8 (unq cs) = true.
Proof.
  induction cs as [cs IH] using (well_founded_induction (Wf_nat.well_founded_ltof _ length)).
  unfold Wf_nat.ltof in IH. intros H. destruct cs as [|c cs1]; [done|].
  assert (Hrec : forall p cs', valid_utf8 p = true -> length cs' <= length cs1 ->
    Forall good_or_bad cs' -> valid_utf8 (p +:+ unq cs') = true).
  { intros p cs' Hp Hl Hf. apply valid_utf8_app; [done|]. apply IH; [simpl; lia|done]. }
  apply Forall_cons in H as [Hc H1]. cbn [unq].
  destruct (ck_rune c =? 92)%N; [|apply Hrec; [by apply chunk_utf8_valid|done|done]].
  destruct cs1 as [|e cs2]; [done|]. apply Forall_cons in H1 as [He H2].
  destruct (ck_rune e =? 117)%N; [|apply Hrec; [apply encode_rune_valid|simpl; lia|done]].
  destruct cs2 as [|h1 [|h2 [|h3 [|h4 cs6]]]]; try done.
  do 4 apply Forall_cons in H2 as [? H2].
  destruct (is_surrogate _); [|apply Hrec; [apply encode_rune_valid|simpl; lia|done]].
  assert (Hd : valid_utf8 (encode_rune rune_error +:+ unq cs6) = true).
  { apply Hrec; [done|simpl; lia|done]. }
  destruct cs6 as [|? [|? [|? [|? [|? [|? cs12]]]]]]; try done.
  destruct (low_surrogate _) as [v|]; [|done]. destruct (in_rng _ _ _); [|done].
  apply Hrec; [apply encode_rune_valid|simpl; lia|].
  by do 6 apply Forall_cons in H2 as [? H2].
Qed.

(** Every string encoding/json decodes is valid UTF-8. *)
Lemma unquote_valid l : valid_utf8 (unquote l) = true.
Proof. apply unq_valid, chunks_good_or_bad. Qed.

(** Values decoding into [any] produces: valid UTF-8 strings, maps in key order. *)
Fixpoint gwf (v : gval) : bool :=
  match v with
  | GStr s => valid_utf8 s
  | GArr l => forallb gwf l
  | GMap m => am_sorted m && forallb (fun kv => valid_utf8 kv.1 && gwf kv.2) m
  | _ => true
  end.

Definition gwf_map (m : list (string * gval)) : bool :=
  am_sorted m && forallb (fun kv => valid_utf8 kv.1 && gwf kv.2) m.

Lemma opt_map_Some {A B} (f : A -> option B) l k :
  opt_map f l = Some k <-> Forall2 (fun x y => f x = Some y) l k.
Proof.
  revert k. induction l as [|x l IH]; intros k; simpl.
  - split; [intros [= <-]; constructor|by inversion 1].
  - split.
    + intros (y & Hy & (ys & Hys & [= <-])%bind_Some)%bind_Some. constructor; [done|by apply IH].
    + inversion 1 as [|?? y ys Hy Hys]; subst. rewrite Hy. simpl.
      apply IH in Hys as ->. done.
Qed.

Lemma am_insert_forallb {V} (p : string * V -> bool) k v m :
  p (k, v) = true -> forallb p m = true -> forallb p (am_insert k v m) = true.
Proof.
  intros Hp Hm. rewrite forallb_forall in Hm |- *. intros [k' v'] Hin.
  apply list_elem_of_In, am_insert_elem in Hin as [[= -> ->]|Hin]; [done|].
  by apply Hm, list_elem_of_In.
Qed.

Lemma am_of_list_forallb {V} (p : string * V -> bool) kvs :
  forallb p kvs = true -> forallb p (am_of_list kvs) = true.
Proof.
  unfold am_of_list. assert (H : @forallb (string * V) p [] = true) by done. revert H.
  generalize (@nil (string * V)). induction kvs as [|[k v] kvs IH]; intros m H; simpl; [done|].
  intros [Hp Hk]%andb_true_iff. by apply IH; [apply am_insert_forallb|].
Qed.

Lemma any_of_gwf t v : any_of t = Some v -> gwf v = true.
Proof.
  revert v. induction t as [|b|l|l|l IH|l IH] using json_nested_ind; intros v; cbn [any_of].
  - by intros [= <-].
  - by intros [= <-].
  - destruct (literal_float l); simpl; [|done]. by intros [= <-].
  - intros [= <-]. apply unquote_valid.
  - destruct (opt_map any_of l) as [vs|] eqn:E; simpl; [|done]. intros [= <-]. simpl.
    apply opt_map_Some in E. rewrite forallb_forall. intros x Hx%list_elem_of_In.
    apply list_elem_of_lookup in Hx as [i Hi].
    destruct (Forall2_lookup_r _ _ _ _ _ E Hi) as (t & Ht & Htx).
    rewrite Forall_lookup in IH. by eapply IH.
  - destruct (opt_map _ l) as [vs|] eqn:E; simpl; [|done]. intros [= <-]. simpl.
    rewrite am_of_list_sorted. apply opt_map_Some in E. apply am_of_list_forallb.
    rewrite forallb_forall. intros [k x] Hx%list_elem_of_In.
    apply list_elem_of_lookup in Hx as [i Hi].
    destruct (Forall2_lookup_r _ _ _ _ _ E Hi) as ([k' t] & Ht & Htx).
    apply bind_Some in Htx as (v & Hv & [= <- <-]). simpl in *.
    rewrite unquote_valid. rewrite Forall_lookup in IH. by eapply (IH _ _ Ht).
Qed.

Lemma am_insert_last {V} lo k (v : V) m :
  am_sorted_from lo (am_keys m ++ [k]) = true -> am_insert k v m = m ++ [(k, v)].
Proof.
  revert lo. induction m as [|[k' v'] m IH]; intros lo; simpl; [done|].
  intros [_ H]%andb_true_iff.
  assert (Hlt : String.compare k' k = Lt).
  { clear IH. revert k' H. induction m as [|[k2 v2] m IH]; intros k' H; simpl in H.
    - rewrite andb_true_r in H. by destruct (String.compare k' k).
    - apply andb_true_iff in H as [H1 H2]. apply scompare_lt_trans with k2.
      + by destruct (String.compare k' k2).
      + by apply IH. }
  apply scompare_lt_gt in Hlt. rewrite Hlt. f_equal. by eapply IH.
Qed.

Lemma am_sorted_from_app_l lo ks1 ks2 :
  am_sorted_from lo (ks1 ++ ks2) = true -> am_sorted_from lo ks1 = true.
Proof.
  revert lo. induction ks1 as [|k ks1 IH]; intros lo; simpl; [done|].
  rewrite !andb_true_iff. intros [? ?]. eauto.
Qed.

Lemma am_of_list_sorted_id {V} (m : list (string * V)) : am_sorted m = true -> am_of_list m = m.
Proof.
  unfold am_of_list, am_sorted. intros H.
  assert (Hg : forall m1 m2 : list (string * V), am_sorted_from None (am_keys (m1 ++ m2)) = true ->
    foldl (fun m kv => am_insert kv.1 kv.2 m) m1 m2 = m1 ++ m2).
  { clear. intros m1 m2. revert m1. induction m2 as [|[k v] m2 IH]; intros m1 H; simpl.
    - by rewrite app_nil_r.
    - unfold am_keys in H. rewrite map_app in H. simpl in H.
      rewrite (am_insert_last None), IH.
      + by rewrite <-app_assoc.
      + unfold am_keys. rewrite !map_app. simpl. by rewrite <-app_assoc.
      + eapply am_sorted_from_app_l. rewrite <-app_assoc. exact H. }
  by apply (Hg []).
Qed.

(** The members of a marshalled map, read back as raw messages. *)
Lemma raw_map_of_any m : gwf_map m = true ->
  raw_map (of_any (GMap m)) = Some (map (fun kv => (kv.1, of_any kv.2)) m).
Proof.
  unfold gwf_map. intros [Hs Hv]%andb_true_iff. simpl. f_equal. rewrite map_map. simpl.
  rewrite forallb_forall in Hv.
  rewrite (map_ext_in _ (fun kv => (kv.1, of_any kv.2))).
  2:{ intros [k v] Hin. simpl. apply Hv, andb_true_iff in Hin as [Hk _].
      by rewrite unquote_encode_valid. }
  apply am_of_list_sorted_id. unfold am_sorted, am_keys in *. by rewrite map_map.
Qed.

Lemma am_lookup_map {V W} (f : V -> W) k m :
  am_lookup k (map (fun kv => (kv.1, f kv.2)) m) = f <$> am_lookup k m.
Proof.
  induction m as [|[k' v] m IH]; simpl; [done|]. case_decide; [done|apply IH].
Qed.

Lemma gwf_map_insert k v m :
  valid_utf8 k = true -> gwf v = true -> gwf_map m = true -> gwf_map (am_insert k v m) = true.
Proof.
  unfold gwf_map. intros Hk Hv [Hs Hm]%andb_true_iff. rewrite am_insert_sorted by done.
  apply am_insert_forallb; [|done]. simpl. by rewrite Hk, Hv.
Qed.

Lemma any_map_gwf t m : any_map t = Some (Some m) -> gwf_map m = true.
Proof.
  unfold any_map. destruct t; try done. intros H.
  destruct (any_of _) as [[]|] eqn:E; simplify_eq. by apply any_of_gwf in E.
Qed.

#[export] Hint Resolve unquote_valid any_of_gwf any_map_gwf gwf_map_insert : shim.

(** ** HTML escaping of raw messages *)

Definition u_chunks (r : N) : list chunk :=
  map ascii_chunk (backslash :: chr 117 :: hex4_digits r).

Definition esc_chunk (c : chunk) : list chunk :=
  if html_rune (ck_rune c) then u_chunks (ck_rune c) else [c].

Definition esc_chunks (cs : list chunk) : list chunk := flat_map esc_chunk cs.

Definition esc_text (c : chunk) : string :=
  if html_rune (ck_rune c) then u_escape (ck_rune c) else ck_bytes c.

Lemma html_rune_cases r : html_rune r = true ->
  r = 60%N \/ r = 62%N \/ r = 38%N \/ r = 8232%N \/ r = 8233%N.
Proof. unfold html_rune. rewrite !orb_true_iff, !N.eqb_eq. tauto. Qed.

Lemma chunks_esc cs s : Forall good_chunk cs ->
  chunks (sconcat (map esc_text cs) +:+ s) = esc_chunks cs ++ chunks s.
Proof.
  induction 1 as [|[r bs] cs Hc Hcs IH]; [done|]. unfold esc_chunks; simpl.
  rewrite sapp_assoc. unfold esc_text at 1, esc_chunk at 1; simpl. destruct (html_rune r).
  - rewrite chunks_u_escape, IH. by rewrite <-app_assoc.
  - rewrite (chunks_good bs r) by done. by rewrite IH.
Qed.

Lemma unq_u h1 h2 h3 h4 c e cs6 : ck_rune c = 92%N -> ck_rune e = 117%N ->
  let u := hex_val4 h1 h2 h3 h4 in
  unq (c :: e :: h1 :: h2 :: h3 :: h4 :: cs6) =
  if is_surrogate u then
    match low_surrogate cs6 with
    | Some v => if in_rng 55296 56319 u
                then encode_rune (65536 + (u - 55296) * 1024 + (v - 56320)) +:+ unq (drop 6 cs6)
                else encode_rune rune_error +:+ unq cs6
    | None => encode_rune rune_error +:+ unq cs6
    end
  else encode_rune u +:+ unq cs6.
Proof.
  intros Hc He u. cbn [unq]. rewrite Hc, He. cbn [N.eqb Pos.eqb]. fold u.
  destruct (is_surrogate u); [|done].
  by destruct cs6 as [|? [|? [|? [|? [|? [|? cs12]]]]]].
Qed.

(** A complete rune whose first byte is ASCII is that byte. *)
Lemma good_head_ascii b t r : good_bytes (String b t) r -> (code b < 128)%N ->
  t = "" /\ r = code b.
Proof.
  unfold char_string. inversion 1; subst; intros Hb; rng; try lia. done.
Qed.

Lemma hex_facts a : is_hex a = true -> (code a < 128)%N /\ html_rune (code a) = false.
Proof.
  unfold is_hex, is_digit. rewrite !orb_true_iff. intros H.
  assert (Hr : (48 <= code a <= 57 \/ 97 <= code a <= 102 \/ 65 <= code a <= 70)%N).
  { destruct H as [[H|H]|H]; rng; lia. }
  split; [lia|]. unfold html_rune. by rewrite !(proj2 (N.eqb_neq (code a) _)) by lia.
Qed.

Lemma simple_escape_facts a : is_simple_escape a = true ->
  (code a < 128)%N /\ html_rune (code a) = false /\ code a <> 117%N.
Proof.
  unfold is_simple_escape. rewrite !orb_true_iff, !N.eqb_eq. intros H.
  repeat destruct H as [H|H]; rewrite H; done.
Qed.

(** What follows a backslash in a valid literal. *)
Lemma valid_lit_backslash cs1 : Forall good_chunk cs1 ->
  valid_lit (String backslash (unchunks cs1)) = true ->
  (exists b cs2, cs1 = ascii_chunk b :: cs2 /\ is_simple_escape b = true /\
     valid_lit (unchunks cs2) = true) \/
  (exists h1 h2 h3 h4 cs6, cs1 = map ascii_chunk [chr 117; h1; h2; h3; h4] ++ cs6 /\
     is_hex h1 = true /\ is_hex h2 = true /\ is_hex h3 = true /\ is_hex h4 = true /\
     valid_lit (unchunks cs6) = true).
Proof.
  intros Hg Hv.
  assert (Hasc : forall (a : ascii) s cs, Forall good_chunk cs -> unchunks cs = String a s ->
    (code a < 128)%N -> exists cs', cs = ascii_chunk a :: cs' /\ unchunks cs' = s /\ Forall good_chunk cs').
  { intros a s cs Hcs Hu Ha. pose proof (chunks_unchunks_app cs "" Hcs) as Hc.
    rewrite sapp_nil_r, app_nil_r, Hu, chunks_ascii in Hc by done. rewrite <-Hc in Hcs |- *.
    exists (chunks s). split; [done|]. split; [apply unchunks_chunks|].
    by apply Forall_cons in Hcs as [_ ?]. }
  simpl in Hv. destruct (unchunks cs1) as [|b s2] eqn:E1; [done|].
  destruct (is_simple_escape b) eqn:Eb.
  { left. pose proof (simple_escape_facts _ Eb) as (Hb & _).
    destruct (Hasc b s2 cs1 Hg E1 Hb) as (cs2 & -> & <- & _). eauto 8. }
  destruct (code b =? 117)%N eqn:Eu; [|done]. right. apply char_eq in Eu as ->; [|done].
  destruct (Hasc _ s2 cs1 Hg E1) as (cs2 & -> & E2 & Hg2); [done|].
  destruct s2 as [|h1 [|h2 [|h3 [|h4 s6]]]]; try done. rewrite !andb_true_iff in Hv.
  destruct Hv as [[[[H1 H2] H3] H4] Hv].
  apply Hasc in E2 as (cs3 & -> & E3 & Hg3); [|done|by apply hex_facts].
  apply Hasc in E3 as (cs4 & -> & E4 & Hg4); [|done|by apply hex_facts].
  apply Hasc in E4 as (cs5 & -> & E5 & Hg5); [|done|by apply hex_facts].
  apply Hasc in E5 as (cs6 & -> & <- & Hg6); [|done|by apply hex_facts].
  by exists h1, h2, h3, h4, cs6.
Qed.

Lemma esc_chunks_plain l cs : Forall (fun a => html_rune (code a) = false) l ->
  esc_chunks (map ascii_chunk l ++ cs) = map ascii_chunk l ++ esc_chunks cs.
Proof.
  unfold esc_chunks. rewrite flat_map_app. intros H. f_equal.
  induction H as [|a l Ha Hl IH]; simpl; [done|]. unfold esc_chunk at 1. simpl.
  rewrite Ha. simpl. by rewrite IH.
Qed.

Lemma esc_text_plain l cs : Forall (fun a => html_rune (code a) = false) l ->
  sconcat (map esc_text (map ascii_chunk l ++ cs)) =
  foldr String (sconcat (map esc_text cs)) l.
Proof.
  induction 1 as [|a l Ha Hl IH]; simpl; [done|]. unfold esc_text at 1. simpl. rewrite Ha.
  by rewrite IH.
Qed.

Lemma hex_plain h1 h2 h3 h4 : is_hex h1 = true -> is_hex h2 = true -> is_hex h3 = true ->
  is_hex h4 = true -> Forall (fun a => html_rune (code a) = false) [chr 117; h1; h2; h3; h4].
Proof. intros. repeat constructor; try (by apply hex_facts). Qed.

Lemma low_surrogate_esc cs : Forall good_chunk cs -> valid_lit (unchunks cs) = true ->
  low_surrogate (esc_chunks cs) = low_surrogate cs /\
  (is_Some (low_surrogate cs) ->
   drop 6 (esc_chunks cs) = esc_chunks (drop 6 cs) /\ valid_lit (unchunks (drop 6 cs)) = true).
Proof.
  intros Hg Hv. destruct cs as [|[r bs] cs1]; [by split; [|intros [? ?]]|].
  assert (Hnone : forall c cs, ck_rune c <> 92%N -> low_surrogate (c :: cs) = None).
  { clear. intros c cs Hc. destruct cs as [|? [|? [|? [|? [|? cs]]]]]; try done. simpl.
    by rewrite (proj2 (N.eqb_neq _ _)). }
  apply Forall_cons in Hg as [Hc Hg1]. unfold good_chunk in Hc; simpl in Hc.
  destruct (html_rune r) eqn:Eh.
  { assert (Hr : r <> 92%N) by (intros ->; done).
    rewrite (Hnone (Chunk r bs)) by done. split; [|by intros [? ?]].
    unfold esc_chunks; simpl. unfold esc_chunk at 1; simpl. rewrite Eh. unfold u_chunks. simpl.
    apply html_rune_cases in Eh as [->|[->|[->|[->| ->]]]]; done. }
  assert (Hesc : esc_chunks (Chunk r bs :: cs1) = Chunk r bs :: esc_chunks cs1).
  { unfold esc_chunks; simpl. unfold esc_chunk at 1; simpl. by rewrite Eh. }
  rewrite Hesc. destruct (decide (r = 92%N)) as [->|Hr].
  2:{ rewrite !Hnone by done. by split; [|intros [? ?]]. }
  apply good_bytes_ascii in Hc; [|done]. subst bs.
  change (unchunks (Chunk 92 (char_string (chr 92)) :: cs1))
    with (String backslash (unchunks cs1)) in Hv.
  apply valid_lit_backslash in Hv as [(b & cs2 & -> & Hb & Hv)|
    (h1 & h2 & h3 & h4 & cs6 & -> & H1 & H2 & H3 & H4 & Hv)]; [| |done].
  - apply simple_escape_facts in Hb as (_ & Hh & Hu).
    assert (Hn : forall cs, low_surrogate (Chunk 92 (char_string (chr 92)) :: ascii_chunk b :: cs) = None).
    { intros cs. destruct cs as [|? [|? [|? [|? cs]]]]; try done. simpl.
      by rewrite (proj2 (N.eqb_neq _ _)). }
    change (ascii_chunk b :: cs2) with (map ascii_chunk [b] ++ cs2).
    rewrite (esc_chunks_plain [b]) by by repeat constructor.
    cbn [map app]. rewrite !Hn. by split; [|intros [? ?]].
  - rewrite esc_chunks_plain by by apply hex_plain. split; [done|]. intros _. by simpl.
Qed.

Lemma esc_spec cs : Forall good_chunk cs -> valid_lit (unchunks cs) = true ->
  valid_lit (sconcat (map esc_text cs)) = true /\ unq (esc_chunks cs) = unq cs.
Proof.
  induction cs as [cs IH] using (well_founded_induction (Wf_nat.well_founded_ltof _ length)).
  unfold Wf_nat.ltof in IH. intros Hg Hv. destruct cs as [|[r bs] cs1]; [done|].
  apply Forall_cons in Hg as [Hc Hg1]. unfold good_chunk in Hc; simpl in Hc.
  change (unchunks (Chunk r bs :: cs1)) with (bs +:+ unchunks cs1) in Hv.
  destruct (decide (r = 92%N)) as [->|Hr].
  - apply good_bytes_ascii in Hc; [|done]. subst bs.
    change (char_string (chr 92) +:+ unchunks cs1) with (String backslash (unchunks cs1)) in Hv.
    change (Chunk 92 (char_string (chr 92))) with (ascii_chunk backslash).
    apply valid_lit_backslash in Hv as [(b & cs2 & -> & Hb & Hv2)|
      (h1 & h2 & h3 & h4 & cs6 & -> & H1 & H2 & H3 & H4 & Hv6)]; [| |done].
    + apply Forall_cons in Hg1 as [He Hg2].
      destruct (IH cs2) as [IH1 IH2]; [simpl; lia|done|done|].
      pose proof (simple_escape_facts _ Hb) as (_ & Hh & Hu).
      change (ascii_chunk backslash :: ascii_chunk b :: cs2)
        with (map ascii_chunk [backslash; b] ++ cs2).
      rewrite esc_text_plain, esc_chunks_plain by by repeat constructor.
      simpl. rewrite Hb. split; [done|].
      rewrite (proj2 (N.eqb_neq _ 117)) by done. by rewrite IH2.
    + apply Forall_app in Hg1 as [_ Hg6].
      destruct (IH cs6) as [IH1 IH2]; [rewrite length_cons, length_app; lia|done|done|].
      pose proof (hex_plain h1 h2 h3 h4 H1 H2 H3 H4) as Hp.
      change (ascii_chunk backslash :: map ascii_chunk [chr 117; h1; h2; h3; h4] ++ cs6)
        with (map ascii_chunk [backslash; chr 117; h1; h2; h3; h4] ++ cs6).
      rewrite esc_text_plain, esc_chunks_plain by by constructor.
      split; [simpl; by rewrite H1, H2, H3, H4|].
      pose proof (low_surrogate_esc cs6 Hg6 Hv6) as [Hl1 Hl2].
      cbn [map app]. rewrite !unq_u by done. rewrite Hl1, IH2.
      destruct (low_surrogate cs6) as [v|]; [|done].
      destruct Hl2 as [Hl2 Hl3]; [done|].
      destruct (IH (drop 6 cs6)) as [_ IH3]; [|by apply Forall_drop|done|by rewrite Hl2, IH3].
      rewrite length_drop, length_cons, length_app. lia.
  - assert (Hgood : (32 <= r)%N -> r <> 34%N -> valid_lit (unchunks cs1) = true).
    { intros. by rewrite <-(valid_lit_good bs r). }
    assert (Hr' : (32 <= r)%N /\ r <> 34%N).
    { destruct (decide (r < 128)%N) as [Hlt|]; [|lia].
      pose proof (good_bytes_ascii _ _ Hc Hlt) as ->. simpl in Hv. rewrite code_chr in Hv by lia.
      destruct (r =? 34)%N eqn:E34; [done|]. rewrite (proj2 (N.eqb_neq r 92)) in Hv by done.
      destruct (r <? 32)%N eqn:E32; [done|]. rng. lia. }
    destruct (IH cs1) as [IH1 IH2]; [simpl; lia|done|naive_solver|].
    unfold esc_chunks; simpl. unfold esc_text at 1, esc_chunk at 1; simpl.
    rewrite (proj2 (N.eqb_neq r 92)) by done.
    assert (chunk_utf8 (Chunk r bs) = bs) as ->.
    { unfold chunk_utf8. by rewrite good_not_bad. }
    destruct (html_rune r) eqn:Eh.
    + split; [by rewrite valid_lit_u_escape|].
      assert (Hlt : (r < 65536)%N /\ is_surrogate r = false).
      { apply html_rune_cases in Eh as [->|[->|[->|[->| ->]]]]; done. }
      pose proof (hex_val4_digits r (proj1 Hlt)) as Hh. simpl in Hh |- *.
      rewrite Hh, (proj2 Hlt), (encode_good bs) by done. by rewrite <-IH2.
    + split; [by rewrite (valid_lit_good bs r) by naive_solver|]. simpl.
      rewrite (proj2 (N.eqb_neq r 92)) by done.
      unfold chunk_utf8. rewrite good_not_bad by done. by rewrite <-IH2.
Qed.

Lemma esc_lit_text l : esc_lit l = sconcat (map esc_text (chunks l)).
Proof. done. Qed.

Lemma esc_lit_valid l : valid_utf8 l = true -> valid_lit l = true -> valid_lit (esc_lit l) = true.
Proof.
  intros Hu Hv. rewrite esc_lit_text. apply esc_spec; [by apply chunks_valid_good|].
  by rewrite unchunks_chunks.
Qed.

(** HTML escaping does not change what a literal means. *)
Lemma unquote_esc_lit l : valid_utf8 l = true -> valid_lit l = true -> unquote (esc_lit l) = unquote l.
Proof.
  intros Hu Hv. unfold unquote. rewrite esc_lit_text.
  rewrite <-(sapp_nil_r (sconcat _)), chunks_esc by by apply chunks_valid_good.
  rewrite app_nil_r. apply esc_spec; [by apply chunks_valid_good|]. by rewrite unchunks_chunks.
Qed.

(** Every literal of the tree is valid UTF-8. *)
Fixpoint jutf8 (t : json) : bool :=
  match t with
  | JNull | JBool _ | JNum _ => true
  | JStr l => valid_utf8 l
  | JArr l => forallb jutf8 l
  | JObj l => forallb (fun kv => valid_utf8 kv.1 && jutf8 kv.2) l
  end.

(** Well-formed trees over valid UTF-8 text. *)
Definition jok (t : json) : bool := jwf t && jutf8 t.

Definition jok_member (kv : string * json) : bool :=
  valid_lit kv.1 && valid_utf8 kv.1 && jok kv.2.

Lemma jok_arr l : jok (JArr l) = true -> Forall (fun t => jok t = true) l.
Proof.
  unfold jok; simpl. rewrite andb_true_iff, !forallb_forall. intros [H1 H2].
  apply Forall_forall. intros t Ht%list_elem_of_In. by rewrite H1, H2.
Qed.

Lemma jok_obj l : jok (JObj l) = true -> Forall (fun kv => jok_member kv = true) l.
Proof.
  unfold jok; simpl. rewrite andb_true_iff, !forallb_forall. intros [H1 H2].
  apply Forall_forall. intros kv Ht%list_elem_of_In. specialize (H1 kv Ht). specialize (H2 kv Ht).
  apply andb_true_iff in H1 as [H1a H1b], H2 as [H2a H2b].
  unfold jok_member, jok. by rewrite H1a, H1b, H2a, H2b.
Qed.

Lemma jok_member_inv k t : jok_member (k, t) = true ->
  valid_lit k = true /\ valid_utf8 k = true /\ jok t = true.
Proof. unfold jok_member; simpl. rewrite !andb_true_iff. tauto. Qed.

Lemma jesc_jwf t : jok t = true -> jwf (jesc t) = true.
Proof.
  induction t as [|b|l|l|l IH|l IH] using json_nested_ind; intros Hok.
  - done.
  - done.
  - by apply andb_true_iff in Hok as [? _].
  - apply andb_true_iff in Hok as [? ?]. by apply esc_lit_valid.
  - apply jok_arr in Hok. simpl. rewrite forallb_forall. intros x (t & <- & Ht)%in_map_iff.
    apply list_elem_of_In in Ht. rewrite Forall_forall in IH, Hok. auto.
  - apply jok_obj in Hok. simpl. rewrite forallb_forall. intros x ([k t] & <- & Ht)%in_map_iff.
    apply list_elem_of_In in Ht. rewrite Forall_forall in IH, Hok. simpl.
    destruct (jok_member_inv k t) as (? & ? & ?); [by apply Hok|].
    rewrite esc_lit_valid by done. by apply (IH (k, t)).
Qed.

Lemma opt_map_ext {A B C} (f : A -> option C) (g : B -> option C) (h : A -> B) l :
  Forall (fun x => g (h x) = f x) l -> opt_map g (map h l) = opt_map f l.
Proof. induction 1 as [|x l Hx Hl IH]; simpl; [done|]. by rewrite Hx, IH. Qed.

Lemma Forall_impl2 {A} (P Q R : A -> Prop) l :
  (forall x, P x -> Q x -> R x) -> Forall P l -> Forall Q l -> Forall R l.
Proof. intros H. induction 1; inversion 1; constructor; auto. Qed.

(** HTML escaping does not change what decoding into [any] gives. *)
Lemma any_of_jesc t : jok t = true -> any_of (jesc t) = any_of t.
Proof.
  induction t as [|b|l|l|l IH|l IH] using json_nested_ind; intros Hok; cbn [jesc any_of]; [done..| | |].
  - apply andb_true_iff in Hok as [? ?]. by rewrite unquote_esc_lit.
  - f_equal. apply opt_map_ext. apply jok_arr in Hok. eapply Forall_impl2; [|exact IH|exact Hok].
    simpl. auto.
  - f_equal. apply opt_map_ext. apply jok_obj in Hok. eapply Forall_impl2; [|exact IH|exact Hok].
    intros [k t] Ht (? & ? & ?)%jok_member_inv. simpl in *. by rewrite Ht, unquote_esc_lit.
Qed.

Lemma am_insert_map {V W} (f : V -> W) k v m :
  am_insert k (f v) (map (fun kv => (kv.1, f kv.2)) m) =
  map (fun kv => (kv.1, f kv.2)) (am_insert k v m).
Proof.
  induction m as [|[k' v'] m IH]; simpl; [done|].
  destruct (String.compare k k'); simpl; [done|done|]. by rewrite IH.
Qed.

Lemma am_of_list_map {V W} (f : V -> W) l :
  am_of_list (map (fun kv => (kv.1, f kv.2)) l) = map (fun kv => (kv.1, f kv.2)) (am_of_list l).
Proof.
  unfold am_of_list.
  assert (H : forall m, foldl (fun m kv => am_insert kv.1 kv.2 m) (map (fun kv => (kv.1, f kv.2)) m)
      (map (fun kv => (kv.1, f kv.2)) l) =
    map (fun kv => (kv.1, f kv.2)) (foldl (fun m kv => am_insert kv.1 kv.2 m) m l)).
  { induction l as [|[k v] l IH]; intros m; simpl; [done|]. by rewrite am_insert_map, IH. }
  apply (H []).
Qed.

Lemma raw_map_jesc t : jok t = true ->
  raw_map (jesc t) = map (fun kv => (kv.1, jesc kv.2)) <$> raw_map t.
Proof.
  destruct t as [| | | | |l]; try done. intros Hok%jok_obj. cbn [jesc raw_map].
  change (map (fun kv => (kv.1, jesc kv.2)) <$> Some ?m)
    with (Some (map (fun kv : string * json => (kv.1, jesc kv.2)) m)).
  f_equal. rewrite <-am_of_list_map, !map_map. f_equal. apply map_ext_in.
  intros [k t] Hin%list_elem_of_In. rewrite Forall_forall in Hok.
  apply Hok, jok_member_inv in Hin as (? & ? & ?). simpl. by rewrite unquote_esc_lit.
Qed.

Lemma string_of_jesc t : jok t = true -> string_of (jesc t) = string_of t.
Proof.
  destruct t; try done. intros [? ?]%andb_true_iff. simpl. by rewrite unquote_esc_lit.
Qed.

(** The members of a raw map are subtrees. *)
Lemma raw_map_jok t m k x : jok t = true -> raw_map t = Some m -> am_lookup k m = Some x -> jok x = true.
Proof.
  intros Hok Hm Hx. destruct t as [| | | | |l]; try done; simpl in Hm; simplify_eq.
  rewrite am_lookup_of_list in Hx. apply jok_obj in Hok. unfold last_binding in Hx.
  assert (Hg : forall o, (forall y, o = Some y -> jok y = true) ->
    foldl (fun o kv => if decide (k = kv.1) then Some kv.2 else o) o
      (map (fun kv : string * json => (unquote kv.1, kv.2)) l) = Some x -> jok x = true).
  { clear Hx. induction Hok as [|[k' t] l Hkt Hl IH]; intros o Ho; simpl; [auto|].
    apply IH. apply jok_member_inv in Hkt as (_ & _ & Ht). case_decide; naive_solver. }
  by eapply Hg; [|exact Hx].
Qed.

Lemma encode_chunk_html c s : good_or_bad c ->
  esc_lit (enc_chunk c +:+ s) = enc_chunk c +:+ esc_lit s.
Proof.
  intros Hc. unfold esc_lit.
  assert (Hp : forall l, Forall (fun a => (code a < 128)%N /\ html_rune (code a) = false) l ->
    sconcat (map (fun c => if html_rune (ck_rune c) then u_escape (ck_rune c) else ck_bytes c)
      (chunks (foldr String "" l +:+ s))) =
    foldr String "" l +:+
    sconcat (map (fun c => if html_rune (ck_rune c) then u_escape (ck_rune c) else ck_bytes c) (chunks s))).
  { induction 1 as [|a l [Ha Hh] Hl IH]; simpl; [done|].
    rewrite sapp_cons, chunks_ascii by done. simpl. rewrite Hh, IH. done. }
  assert (Hu : forall r, exists l, u_escape r = foldr String "" l /\
    Forall (fun a => (code a < 128)%N /\ html_rune (code a) = false) l).
  { intros r. exists (backslash :: chr 117 :: hex4_digits r). split; [done|].
    do 2 (constructor; [done|]). unfold hex4_digits.
    repeat constructor; apply hex_facts, hex_digit_spec, N.mod_lt; done. }
  unfold enc_chunk. destruct (is_bad c) eqn:Eb.
  { destruct (Hu rune_error) as (l & -> & Hl). by apply Hp. }
  destruct Hc as [Hg|(a & -> & _)]; [|done]. destruct c as [r bs]. unfold good_chunk in Hg. simpl in *.
  destruct ((r =? 34)%N || (r =? 92)%N) eqn:E.
  { apply orb_true_iff in E as [E|E]; rng; subst; apply good_bytes_ascii in Hg as ->; try done;
      apply (Hp [backslash; _]); by repeat constructor. }
  repeat match goal with
  | |- context [if (r =? ?n)%N then _ else _] =>
      destruct (r =? n)%N; [apply (Hp [backslash; _]); by repeat constructor|]
  end.
  destruct ((r <? 32)%N || html_rune r) eqn:Eu.
  { destruct (Hu r) as (l & -> & Hl). by apply Hp. }
  apply orb_false_iff in Eu as [_ Eh]. rewrite (chunks_good bs r) by done. simpl. by rewrite Eh.
Qed.

Lemma esc_lit_encode s : esc_lit (encode_body s) = encode_body s.
Proof.
  unfold encode_body. pose proof (chunks_good_or_bad s) as H.
  induction H as [|c cs Hc Hcs IH]; simpl; [done|]. by rewrite encode_chunk_html, IH.
Qed.

(** What json.Marshal wrote is already HTML-escaped. *)
Lemma jesc_of_any v : jesc (of_any v) = of_any v.
Proof.
  induction v as [| | |s|l IH|m IH] using gval_nested_ind; simpl; [done..| | |].
  - unfold json_str. by rewrite esc_lit_encode.
  - f_equal. rewrite map_map. apply map_ext_in. intros v Hv%list_elem_of_In.
    rewrite Forall_forall in IH. auto.
  - f_equal. rewrite map_map. apply map_ext_in. intros [k v] Hv%list_elem_of_In. simpl.
    rewrite esc_lit_encode. rewrite Forall_forall in IH. specialize (IH _ Hv). simpl in IH. by rewrite IH.
Qed.
