(* ===== verification/StrFacts.v ===== *)
(** * More facts about Go strings

    Counting runes, splitting text where a rune starts, and what TrimSpace
    keeps. *)

From S2P Require Import Prelude GoStr GoFloat GoJson JsonFacts.

(** ** Counting runes *)

Lemma rune_count_chunk c : good_or_bad c -> rune_count (chunk_utf8 c) = 1.
Proof.
  intros [Hg|(a & -> & Ha)]; unfold chunk_utf8, rune_count.
  - rewrite good_not_bad by done. rewrite <-(sapp_nil_r (ck_bytes c)), (chunks_good _ (ck_rune c)) by done. done.
  - by rewrite (eq_refl : is_bad (bad_chunk a) = true).
Qed.

Lemma rune_count_app_valid s t : valid_utf8 s = true -> rune_count (s +:+ t) = rune_count s + rune_count t.
Proof. intros Hs. unfold rune_count. by rewrite chunks_app_valid, length_app. Qed.

(** ** Text split where a rune starts *)

Definition starts_rune (s : string) : bool :=
  match s with "" => true | String a _ => negb (is_cont a) end.

Lemma second_ok_cont a b : second_ok a b = true -> is_cont b = true.
Proof. intros H%second_cont. by apply in_rng_spec. Qed.

Lemma chunks_app_boundary s t : starts_rune t = true -> chunks (s +:+ t) = chunks s ++ chunks t.
Proof.
  intros Ht. destruct (decide (t = "")) as [->|Hne]; [by rewrite sapp_nil_r; change (chunks "") with (@nil chunk); rewrite app_nil_r|].
  assert (Hb : forall a b t', t = String b t' -> second_ok a b = false).
  { intros a b t' ->. destruct (second_ok a b) eqn:E; [|done]. apply second_ok_cont in E. simpl in Ht.
    by rewrite E in Ht. }
  assert (Hc : forall b t', t = String b t' -> is_cont b = false).
  { intros b t' ->. simpl in Ht. by destruct (is_cont b). }
  induction s as [s IH] using string_len_ind. destruct s as [|a s1]; [done|]. rewrite sapp_cons.
  assert (IH1 : chunks (s1 +:+ t) = chunks s1 ++ chunks t) by (apply IH; simpl; lia).
  unfold chunks; fold chunks. destruct (code a <? 128)%N; [by rewrite IH1|].
  destruct (in_rng 194 223 (code a)).
  { destruct s1 as [|b s2]; rewrite ?sapp_nil_l, ?sapp_cons in *.
    - destruct t as [|b t']; [done|]. by rewrite (Hb a b t').
    - destruct (second_ok a b); [|by rewrite IH1]. rewrite (IH s2) by (simpl; lia). done. }
  destruct (in_rng 224 239 (code a)).
  { destruct s1 as [|b [|c s3]]; rewrite ?sapp_nil_l, ?sapp_cons, ?sapp_nil_l in *.
    - destruct t as [|b [|c t']]; [done..|]. by rewrite (Hb a b (String c t')).
    - destruct t as [|c t']; [done|]. rewrite (Hc c t'), andb_false_r by done. by rewrite IH1.
    - destruct (second_ok a b && is_cont c); [|by rewrite IH1]. rewrite (IH s3) by (simpl; lia). done. }
  destruct (in_rng 240 244 (code a)); [|by rewrite IH1].
  destruct s1 as [|b [|c [|d s4]]]; rewrite ?sapp_nil_l, ?sapp_cons, ?sapp_nil_l in *.
  - destruct t as [|b [|c [|d t']]]; [done..|]. by rewrite (Hb a b (String c (String d t'))).
  - destruct t as [|c [|d t']]; [done|by rewrite IH1|]. rewrite (Hc c (String d t')), andb_false_r by done. by rewrite IH1.
  - destruct t as [|d t']; [done|]. rewrite (Hc d t'), andb_false_r by done. by rewrite IH1.
  - destruct (second_ok a b && is_cont c && is_cont d); [|by rewrite IH1].
    rewrite (IH s4) by (simpl; lia). done.
Qed.

Lemma valid_utf8_boundary s t : starts_rune t = true ->
  valid_utf8 (s +:+ t) = valid_utf8 s && valid_utf8 t.
Proof. intros Ht. unfold valid_utf8. by rewrite chunks_app_boundary, forallb_app. Qed.

(** The white space removed at the end of a text. *)
Lemma trim_right_removed s : exists q, srev s = q +:+ trim_with (fun a b => space2 b a) (fun a b c => space3 c b a) (srev s) /\
  starts_rune (srev q) = true.
Proof.
  generalize (srev s). clear s. intros s.
  assert (Hq : forall x q, starts_rune (srev q) = true -> starts_rune (srev x) = true ->
            starts_rune (srev (x +:+ q)) = true).
  { intros x q H1 H2. rewrite srev_app. by destruct (srev q). }
  induction s as [s IH] using string_len_ind. destruct s as [|a s1]; [by exists ""|]. cbn [trim_with].
  destruct (space1 a) eqn:Ea.
  { destruct (IH s1) as (q & Hs & Hr); [simpl; lia|]. exists (char_string a +:+ q). split.
    - unfold char_string. repeat rewrite ?sapp_cons, ?sapp_nil_l. by rewrite <-Hs.
    - apply Hq; [done|]. unfold space1 in Ea. simpl. unfold is_cont.
      rewrite in_rng_false; [done|]. apply orb_true_iff in Ea as [Ea|Ea]; rng; lia. }
  destruct s1 as [|b s2]; [by exists ""|]. destruct (space2 b a) eqn:Eb.
  { destruct (IH s2) as (q & Hs & Hr); [simpl; lia|]. exists (String a (char_string b) +:+ q). split.
    - unfold char_string. repeat rewrite ?sapp_cons, ?sapp_nil_l. by rewrite <-Hs.
    - apply Hq; [done|]. unfold space2 in Eb. apply andb_true_iff in Eb as [Eb _]. rng.
      change (srev (String a (char_string b))) with (String b (char_string a)).
      simpl. unfold is_cont. by rewrite Eb. }
  destruct s2 as [|c s3]; [by exists ""|]. destruct (space3 c b a) eqn:Ec; [|by exists ""].
  destruct (IH s3) as (q & Hs & Hr); [simpl; lia|]. exists (String a (String b (char_string c)) +:+ q). split.
  - unfold char_string. repeat rewrite ?sapp_cons, ?sapp_nil_l. by rewrite <-Hs.
  - apply Hq; [done|]. change (srev (String a (String b (char_string c)))) with (String c (String b (char_string a))).
    simpl. unfold is_cont. rewrite in_rng_false; [done|].
    unfold space3 in Ec. rewrite !orb_true_iff, !andb_true_iff, !N.eqb_eq in Ec. lia.
Qed.

Lemma trim_left_valid s : valid_utf8 s = true -> valid_utf8 (trim_left s) = true.
Proof.
  unfold trim_left. induction s as [s IH] using string_len_ind. destruct s as [|a s1]; [done|].
  cbn [trim_with]. intros Hv. destruct (space1 a) eqn:Ea.
  { apply IH; [simpl; lia|]. unfold valid_utf8 in Hv. rewrite chunks_ascii in Hv.
    - by apply andb_true_iff in Hv as [_ Hv].
    - unfold space1 in Ea. apply orb_true_iff in Ea as [Ea|Ea]; rng; lia. }
  destruct s1 as [|b s2]; [done|]. destruct (space2 a b) eqn:Eb.
  { apply IH; [simpl; lia|]. unfold space2 in Eb. apply andb_true_iff in Eb as [Ha Hb]. rng.
    assert (Hg : good_bytes (String a (char_string b)) (rune2 a b)).
    { apply good2; [by rewrite Ha|]. unfold second_ok. rewrite Ha. apply in_rng_spec.
      apply orb_true_iff in Hb as [Hb|Hb]; rng; rewrite Hb; by split. }
    unfold valid_utf8 in Hv.
    change (String a (String b s2)) with (String a (char_string b) +:+ s2) in Hv.
    rewrite (chunks_good _ _ s2 Hg) in Hv. by apply andb_true_iff in Hv as [_ Hv]. }
  destruct s2 as [|c s3]; [done|]. destruct (space3 a b c) eqn:Ec; [|done].
  apply IH; [simpl; lia|].
  assert (Hg : good_bytes (String a (String b (char_string c))) (rune3 a b c)).
  { unfold space3 in Ec. rewrite !orb_true_iff, !andb_true_iff, !orb_true_iff, !N.eqb_eq, in_rng_spec in Ec.
    apply good3; [apply in_rng_spec; lia| |apply in_rng_spec; lia].
    unfold second_ok. apply in_rng_spec. unfold accept2.
    destruct (N.eqb_spec (code a) 224); [lia|]. destruct (N.eqb_spec (code a) 237); [lia|].
    destruct (N.eqb_spec (code a) 240); [lia|]. destruct (N.eqb_spec (code a) 244); [lia|]. simpl. lia. }
  unfold valid_utf8 in Hv.
  change (String a (String b (String c s3))) with (String a (String b (char_string c)) +:+ s3) in Hv.
  rewrite (chunks_good _ _ s3 Hg) in Hv. by apply andb_true_iff in Hv as [_ Hv].
Qed.

Lemma TrimSpace_valid s : valid_utf8 s = true -> valid_utf8 (TrimSpace s) = true.
Proof.
  intros Hv%trim_left_valid. unfold TrimSpace. set (t := trim_left s) in *. unfold trim_right.
  destruct (trim_right_removed t) as (q & Hq & Hs). apply (f_equal srev) in Hq.
  rewrite srev_involutive, srev_app in Hq. rewrite Hq in Hv.
  rewrite valid_utf8_boundary in Hv by done. by apply andb_true_iff in Hv as [? _].
Qed.

(** ** Trimmed text *)

Definition lead_r := no_lead (fun a b => space2 b a) (fun a b c => space3 c b a).

Lemma TrimSpace_id s : no_lead space2 space3 s = true -> lead_r (srev s) = true -> TrimSpace s = s.
Proof.
  intros Hl Hr. unfold TrimSpace, trim_left, trim_right. rewrite (trim_with_id _ _ s Hl).
  rewrite trim_with_id by exact Hr. apply srev_involutive.
Qed.

Lemma TrimSpace_no_lead s : no_lead space2 space3 (TrimSpace s) = true.
Proof.
  rewrite <-TrimSpace_idemp. unfold TrimSpace at 1. rewrite <-(TrimSpace_idemp s) at 1.
  set (t := TrimSpace s). pose proof (trim_with_no_lead space2 space3 t) as Hl.
  unfold trim_right. destruct (trim_with_suffix (fun a b => space2 b a) (fun a b c => space3 c b a)
    (srev (trim_left (TrimSpace t)))) as [p Hp].
  apply (f_equal srev) in Hp. rewrite srev_involutive, srev_app in Hp.
  eapply no_lead_prefix. rewrite <-Hp. apply trim_with_no_lead.
Qed.

Lemma space2_lead a b : code a <> 194%N -> space2 a b = false.
Proof. intros Ha. unfold space2. by rewrite (proj2 (N.eqb_neq _ _) Ha). Qed.

Lemma space3_lead a b c : (code a < 225 \/ 227 < code a)%N -> space3 a b c = false.
Proof. intros Ha. unfold space3. rewrite !(proj2 (N.eqb_neq (code a) _)) by lia. done. Qed.

(** Whether a text starts with white space is decided by its first rune. *)
Lemma no_lead_good bs r x y : good_bytes bs r ->
  no_lead space2 space3 (bs +:+ x) = true -> no_lead space2 space3 (bs +:+ y) = true.
Proof.
  destruct 1 as [a Ha|a b Ha Hb|a b c Ha Hb Hc|a b c d Ha Hb Hc Hd]; rng;
    unfold char_string; rewrite ?sapp_cons, ?sapp_nil_l; simpl; rewrite !andb_true_iff; intros [H1 H2].
  - split; [done|]. destruct y as [|b y]; [done|]. rewrite space2_lead by lia.
    destruct y as [|c y]; [done|]. by rewrite space3_lead by lia.
  - split; [done|]. destruct H2 as [H2 _]. split; [done|].
    destruct y as [|c y]; [done|]. by rewrite space3_lead by lia.
  - by split.
  - by split.
Qed.

Lemma TrimSpace_lead_r s : lead_r (srev (TrimSpace s)) = true.
Proof. unfold TrimSpace, trim_right. rewrite srev_involutive. apply trim_with_no_lead. Qed.

Lemma lead_r_extend s a t : s <> "" -> lead_r s = true -> solid a = true -> lead_r (s +:+ String a t) = true.
Proof.
  intros Hne Hl Ha. unfold lead_r in *. destruct s as [|b [|c [|d s]]]; [done|..];
    rewrite ?sapp_cons, ?sapp_nil_l; simpl in *; apply andb_true_iff in Hl as [H1 H2]; rewrite H1; simpl.
  - destruct (solid_space2 a b Ha) as [-> _]. simpl. destruct t as [|x t]; [done|].
    assert (space3 x a b = false) as ->; [|done].
    unfold solid in Ha. rng. unfold space3. rewrite !(proj2 (N.eqb_neq (code a) _)) by lia.
    by rewrite ?andb_false_r.
  - apply andb_true_iff in H2 as [-> _]. simpl. by destruct (solid_space3 a c b Ha) as [-> _].
  - done.
Qed.

(** Text in front of a trimmed text, separated by a printable character. *)
Lemma TrimSpace_prefixed a p b v : solid a = true -> solid b = true -> v <> "" -> TrimSpace v = v ->
  TrimSpace (String a (p +:+ String b v)) = String a (p +:+ String b v).
Proof.
  intros Ha Hb Hne Hv. apply TrimSpace_id; [by apply solid_lead_l|].
  rewrite srev_cons, srev_app, srev_cons, !sapp_assoc. unfold char_string at 1. rewrite sapp_cons, sapp_nil_l.
  apply lead_r_extend; [|rewrite <-Hv; apply TrimSpace_lead_r|done].
  intros He. apply Hne. rewrite <-(srev_involutive v), He. done.
Qed.

(** ** Searching and slicing *)

Lemma strip_app p s : strip p (p +:+ s) = Some s.
Proof. induction p as [|a p IH]; [done|]. rewrite sapp_cons. simpl. by rewrite Ascii.eqb_refl. Qed.

Lemma HasPrefix_spec s p : HasPrefix s p = true <-> exists r, s = p +:+ r.
Proof.
  unfold HasPrefix. split.
  - destruct (strip p s) as [r|] eqn:E; [|done]. intros _. exists r. by apply strip_sound.
  - intros [r ->]. by rewrite strip_app.
Qed.

Lemma sdrop_app n s t : n = String.length s -> sdrop n (s +:+ t) = t.
Proof. intros ->. induction s as [|a s IH]; [by destruct t|]. rewrite sapp_cons. exact IH. Qed.

Lemma stake_app n s t : n = String.length s -> stake n (s +:+ t) = s.
Proof. intros ->. induction s as [|a s IH]; [by destruct t|]. rewrite sapp_cons. simpl. by rewrite IH. Qed.

Lemma stake_sdrop n s : stake n s +:+ sdrop n s = s.
Proof.
  revert s. induction n as [|n IH]; intros [|a s]; try done.
  simpl. rewrite sapp_cons. by rewrite IH.
Qed.

Lemma sdrop_length n s : String.length (sdrop n s) = String.length s - n.
Proof. revert s. induction n as [|n IH]; intros [|a s]; simpl; auto. Qed.

Lemma stake_length n s : String.length (stake n s) = n `min` String.length s.
Proof. revert s. induction n as [|n IH]; intros [|a s]; simpl; auto. Qed.

Lemma sdrop_sdrop n m s : sdrop n (sdrop m s) = sdrop (m + n) s.
Proof.
  revert s. induction m as [|m IH]; intros [|a s]; simpl; [done|done|by destruct n|apply IH].
Qed.

(** [sub] occurs in [s] after [pre], and nowhere earlier. *)
Definition first_at (s sub pre rest : string) : Prop :=
  s = pre +:+ sub +:+ rest /\
  forall pre' rest', s = pre' +:+ sub +:+ rest' -> String.length pre <= String.length pre'.

Lemma Index_some s sub i : Index s sub = Some i ->
  exists pre rest, first_at s sub pre rest /\ i = String.length pre.
Proof.
  revert i. induction s as [|a s IH]; intros i Hi; simpl in Hi.
  - destruct (HasPrefix "" sub) eqn:E; [|done]. injection Hi as <-.
    apply HasPrefix_spec in E as [r Hr]. exists "", r. split; [|done]. split; [done|]. intros. simpl. lia.
  - destruct (HasPrefix (String a s) sub) eqn:E.
    + injection Hi as <-. apply HasPrefix_spec in E as [r Hr]. exists "", r. split; [|done].
      split; [done|]. intros. simpl. lia.
    + destruct (Index s sub) as [j|] eqn:Ej; [|done]. injection Hi as <-.
      destruct (IH j eq_refl) as (pre & rest & [Hs Hmin] & ->).
      exists (String a pre), rest. split; [|done]. split; [by rewrite sapp_cons, <-Hs|].
      intros [|b pre'] rest' H'.
      * exfalso. assert (HasPrefix (String a s) sub = true); [|congruence].
        apply HasPrefix_spec. by exists rest'.
      * rewrite sapp_cons in H'. injection H' as <- H'. apply Hmin in H'. simpl. lia.
Qed.

Lemma Index_none s sub : Index s sub = None <-> forall pre rest, s <> pre +:+ sub +:+ rest.
Proof.
  split.
  - induction s as [|a s IH]; intros Hi pre rest Hs; simpl in Hi.
    + destruct (HasPrefix "" sub) eqn:E; [done|]. destruct pre; [|done].
      assert (HasPrefix "" sub = true); [|congruence]. apply HasPrefix_spec. by exists rest.
    + destruct (HasPrefix (String a s) sub) eqn:E; [done|].
      destruct (Index s sub) eqn:Ej; [done|]. destruct pre as [|b pre].
      * assert (HasPrefix (String a s) sub = true); [|congruence]. apply HasPrefix_spec. by exists rest.
      * rewrite sapp_cons in Hs. injection Hs as <- Hs. by eapply IH.
  - destruct (Index s sub) as [i|] eqn:E; [|done]. intros H.
    destruct (Index_some _ _ _ E) as (pre & rest & [Hs _] & _). by destruct (H pre rest).
Qed.

Lemma Contains_spec s sub : Contains s sub = true <-> exists pre rest, s = pre +:+ sub +:+ rest.
Proof.
  unfold Contains. split.
  - destruct (Index s sub) as [i|] eqn:E; [|done]. intros _.
    destruct (Index_some _ _ _ E) as (pre & rest & [Hs _] & _). by exists pre, rest.
  - intros (pre & rest & Hs). destruct (Index s sub) eqn:E; [done|].
    by destruct (proj1 (Index_none s sub) E pre rest).
Qed.

Lemma Index_first s sub pre rest : first_at s sub pre rest -> Index s sub = Some (String.length pre).
Proof.
  intros [Hs Hmin]. destruct (Index s sub) as [i|] eqn:E.
  - destruct (Index_some _ _ _ E) as (pre' & rest' & [Hs' Hmin'] & ->). f_equal.
    pose proof (Hmin _ _ Hs'). pose proof (Hmin' _ _ Hs). lia.
  - by destruct (proj1 (Index_none s sub) E pre rest).
Qed.

(** Where one split of a text lies inside another. *)
Lemma sapp_split s t u v : s +:+ t = u +:+ v -> String.length s <= String.length u ->
  exists m, u = s +:+ m /\ t = m +:+ v.
Proof.
  revert u. induction s as [|a s IH]; intros u H Hl; [by exists u|].
  destruct u as [|b u]; simpl in Hl; [lia|]. rewrite !sapp_cons in H. injection H as <- H.
  destruct (IH u H) as (m & -> & ->); [lia|]. by exists m.
Qed.

Lemma sdrop_app_le n s t : n <= String.length s -> sdrop n (s +:+ t) = sdrop n s +:+ t.
Proof.
  revert s. induction n as [|n IH]; intros [|a s] Hl; simpl in Hl; try done; [lia|].
  rewrite sapp_cons. simpl. apply IH. lia.
Qed.

Lemma sget_app_r s t : String.get (String.length s) (s +:+ t) = String.get 0 t.
Proof. induction s as [|a s IH]; [done|]. rewrite sapp_cons. exact IH. Qed.

Lemma first_at_app s sub pre rest : first_at s sub pre rest -> s = pre +:+ sub +:+ rest.
Proof. by intros [? _]. Qed.

(** The first occurrence is unique, and there is one when there is any. *)
Lemma first_at_unique s sub p r p' r' :
  first_at s sub p r -> first_at s sub p' r' -> p = p' /\ r = r'.
Proof.
  intros H H'. pose proof (Index_first _ _ _ _ H) as E. pose proof (Index_first _ _ _ _ H') as E'.
  assert (Hl : String.length p = String.length p') by congruence.
  apply first_at_app in H, H'. subst s.
  destruct (sapp_split _ _ _ _ H') as (m & -> & Hm); [lia|]. rewrite slength_app in Hl.
  destruct m as [|a m]; [|simpl in Hl; lia]. rewrite sapp_nil_l in Hm. rewrite sapp_nil_r. split; [done|].
  apply (f_equal (sdrop (String.length sub))) in Hm. by rewrite !sdrop_app in Hm by done.
Qed.
