(* ===== verification/GoInt.v ===== *)
(** * Integers, and objects written from a map

    Go's [int] is 64 bits wide: a [Z] in its range, with sums wrapped around.
    The decimal text of an integer, as strconv.Itoa and encoding/json write it,
    and reading a JSON number into an [int]; and what json.Marshal writes for a
    map. *)

From S2P Require Import Prelude GoStr GoFloat GoJson JsonFacts.

Definition min_int : Z := -(2 ^ 63).
Definition max_int : Z := 2 ^ 63 - 1.

Definition is_int (z : Z) : bool := (min_int <=? z)%Z && (z <=? max_int)%Z.

Definition wrap_int (z : Z) : Z := ((z + 2 ^ 63) mod 2 ^ 64 - 2 ^ 63)%Z.

Definition int_text (z : Z) : string := if (z <? 0)%Z then "-" +:+ digits (- z) else digits z.

(** strconv.Atoi *)
Definition Atoi (s : string) : option Z :=
  let '(negative, d) := match s with
                        | String a s' => if (code a =? 45)%N then (true, s')
                                         else if (code a =? 43)%N then (false, s') else (false, s)
                        | "" => (false, s)
                        end in
  match span_digits d with
  | (String a d', "") =>
      let z := digits_val 0 (String a d') in
      let z := if negative then (- z)%Z else z in
      if is_int z then Some z else None
  | _ => None
  end.

(** strconv.ParseInt(lit, 10, 64) on a JSON number literal. *)
Definition int_of_lit (lit : string) : option Z :=
  let '(sg, d) := scan_sign lit in
  match span_digits d with
  | (String a d', "") =>
      let z := digits_val 0 (String a d') in
      let z := if decide (sg = "") then z else (- z)%Z in
      if is_int z then Some z else None
  | _ => None
  end.

(** A struct field of type int. *)
Definition field_int (name : string) (l : list (string * json)) : option Z :=
  foldl (fun o t => z ← o; match t with
                           | JNull => Some z
                           | JNum lit => int_of_lit lit
                           | _ => None
                           end) (Some 0%Z) (field_values name l).

(** [fmt.Sprintf("%03d", z)] for a number that is not negative. *)
Definition pad3 (z : Z) : string :=
  let s := int_text z in zeros (3 - String.length s) +:+ s.

(** ** Lemmas *)

Lemma wrap_int_id z : is_int z = true -> wrap_int z = z.
Proof.
  unfold is_int, wrap_int, min_int, max_int. rewrite andb_true_iff, !Z.leb_le. intros [H1 H2].
  rewrite Z.mod_small; lia.
Qed.

Lemma digit_char_val z : digit_val (digit_char z) = (z mod 10)%Z.
Proof.
  unfold digit_val, digit_char. pose proof (Z.mod_pos_bound z 10 ltac:(lia)).
  rewrite code_chr by lia. lia.
Qed.

Lemma digits_val_app acc s t : digits_val acc (s +:+ t) = digits_val (digits_val acc s) t.
Proof. revert acc. induction s as [|a s IH]; intros acc; [done|]. apply IH. Qed.

Lemma digits_val_acc acc s :
  digits_val acc s = (acc * 10 ^ Z.of_nat (String.length s) + digits_val 0 s)%Z.
Proof.
  revert acc. induction s as [|a s IH]; intros acc; cbn [digits_val String.length].
  - rewrite Z.pow_0_r. lia.
  - rewrite IH, (IH (10 * 0 + digit_val a)%Z), Nat2Z.inj_succ, Z.pow_succ_r by lia. ring.
Qed.

Lemma fixed_digits_val n z s : (0 <= z < 10 ^ Z.of_nat n)%Z ->
  digits_val 0 (fixed_digits n z s) = (z * 10 ^ Z.of_nat (String.length s) + digits_val 0 s)%Z.
Proof.
  revert z s. induction n as [|n IH]; intros z s; cbn [fixed_digits].
  - rewrite Z.pow_0_r. intros Hz. assert (z = 0)%Z by lia. subst. lia.
  - rewrite Nat2Z.inj_succ, Z.pow_succ_r by lia. intros Hz.
    pose proof (Z.div_mod z 10 ltac:(lia)) as Hdm. pose proof (Z.mod_pos_bound z 10 ltac:(lia)).
    rewrite IH by (split; [apply Z.div_pos; lia|apply Z.div_lt_upper_bound; lia]).
    cbn [digits_val String.length]. rewrite (digits_val_acc (10 * 0 + _)%Z), digit_char_val.
    rewrite Nat2Z.inj_succ, Z.pow_succ_r by lia. rewrite Hdm at 3. ring.
Qed.

Lemma strip_zeros_val s : digits_val 0 (strip_zeros s) = digits_val 0 s.
Proof.
  induction s as [|a s IH]; [done|]. cbn [strip_zeros]. destruct (code a =? 48)%N eqn:E; [|done].
  rewrite IH. cbn [digits_val]. apply N.eqb_eq in E. unfold digit_val. by rewrite E.
Qed.

Lemma num_digits_enough z : (0 <= z)%Z -> (z < 10 ^ Z.of_nat (num_digits z))%Z.
Proof.
  intros Hz. unfold num_digits. destruct (decide (z = 0)%Z) as [->|Hne]; [done|].
  pose proof (Z.log2_spec z ltac:(lia)) as [_ Hl]. pose proof (Z.log2_nonneg z) as Hn.
  set (k := (Z.log2 z / 3)%Z). assert (0 <= k)%Z by (apply Z.div_pos; lia).
  rewrite Z2Nat.id by lia.
  pose proof (Z.div_mod (Z.log2 z) 3 ltac:(lia)). pose proof (Z.mod_pos_bound (Z.log2 z) 3 ltac:(lia)).
  assert (2 ^ Z.succ (Z.log2 z) <= 2 ^ (3 * (k + 1)))%Z by (apply Z.pow_le_mono_r; lia).
  assert (2 ^ (3 * (k + 1)) <= 10 ^ (k + 1))%Z.
  { rewrite Z.pow_mul_r by lia. apply Z.pow_le_mono_l. lia. }
  lia.
Qed.

Lemma digits_val_digits z : (0 <= z)%Z -> digits_val 0 (digits z) = z.
Proof.
  intros Hz. unfold digits. rewrite strip_zeros_val, fixed_digits_val.
  - simpl. lia.
  - split; [done|]. by apply num_digits_enough.
Qed.

Lemma int_text_valid z : valid_num (int_text z) = true.
Proof.
  unfold int_text. destruct (z <? 0)%Z.
  - rewrite <-(sapp_nil_r (digits _)), <-(sapp_nil_r (digits _ +:+ "")), sapp_assoc.
    apply valid_num_pieces; [by right|apply digits_int_ok|by left|by left].
  - rewrite <-(sapp_nil_r (digits _)), <-(sapp_nil_r (digits _ +:+ "")), sapp_assoc.
    apply (valid_num_pieces ""); [by left|apply digits_int_ok|by left|by left].
Qed.

Lemma scan_sign_digits d : all_digits d = true -> scan_sign d = ("", d).
Proof.
  destruct d as [|a d]; [done|]. simpl. intros [Ha _]%andb_true_iff. apply digit_codes in Ha.
  destruct (N.eqb_spec (code a) 45); [lia|done].
Qed.

Lemma span_digits_all d : all_digits d = true -> span_digits d = (d, "").
Proof. intros Hd. rewrite <-(sapp_nil_r d) at 1. by apply span_digits_app. Qed.

(** An integer that was written is read back. *)
Lemma int_of_int_text z : is_int z = true -> int_of_lit (int_text z) = Some z.
Proof.
  intros Hz. unfold int_of_lit, int_text. destruct (Z.ltb_spec z 0) as [Hn|Hn].
  - destruct (int_ok_digits _ (digits_int_ok (- z))) as [Hne Hd].
    change (scan_sign ("-" +:+ digits (- z))) with ("-", digits (- z)).
    cbv iota beta. rewrite span_digits_all by done. destruct (digits (- z)) as [|a d] eqn:E; [done|].
    rewrite <-E, digits_val_digits by lia. rewrite decide_False by done. rewrite Z.opp_involutive. by rewrite Hz.
  - destruct (int_ok_digits _ (digits_int_ok z)) as [Hne Hd]. rewrite scan_sign_digits by done.
    cbv iota beta. rewrite span_digits_all by done. destruct (digits z) as [|a d] eqn:E; [done|].
    rewrite <-E, digits_val_digits by lia. simpl. by rewrite Hz.
Qed.

(** ** Objects that json.Marshal writes from a map

    A map[string]any literal of the source, with values of several types, is
    written as a list of entries; json.Marshal sorts them by key. *)

Definition json_map (entries : list (string * json)) : json :=
  JObj (map (fun kv => (encode_body kv.1, kv.2)) (am_of_list entries)).

Definition json_int (z : Z) : json := JNum (int_text z).

(** The member [k] of an object. *)
Definition member (k : string) (t : json) : option json := raw_map t ≫= am_lookup k.

Lemma json_map_wf entries : Forall (fun kv => jwf kv.2 = true) entries -> jwf (json_map entries) = true.
Proof.
  intros He. unfold json_map. simpl. apply forallb_forall. intros kv (kv' & <- & Hin)%in_map_iff. simpl.
  rewrite encode_body_valid. simpl. destruct kv' as [k v]. apply list_elem_of_In in Hin.
  apply am_elem_lookup in Hin; [|apply am_of_list_sorted]. rewrite am_lookup_of_list in Hin.
  apply last_binding_elem in Hin. rewrite Forall_forall in He. by apply (He (k, v)).
Qed.

Lemma member_json_map k entries : forallb (fun kv => valid_utf8 kv.1) entries = true ->
  member k (json_map entries) = last_binding k entries.
Proof.
  intros Hv. unfold member, json_map. simpl. rewrite map_map. simpl.
  rewrite (map_ext_in _ id), map_id.
  - rewrite am_of_list_sorted_id by apply am_of_list_sorted. apply am_lookup_of_list.
  - intros [k' v] Hin. simpl. apply (am_of_list_forallb (fun kv => valid_utf8 kv.1)) in Hv.
    rewrite forallb_forall in Hv. by rewrite (unquote_encode_valid k' (Hv _ Hin)).
Qed.
