(* ===== verification/GoTime.v ===== *)
(** * internal/domain/time.go and what it uses of package time

    A moment is its civil date and time in UTC; the proleptic Gregorian
    calendar maps it to the seconds since 1970 and back.  Writing is the layout
    time.RFC3339Nano; reading is time.Parse with that layout: a one-digit hour
    and a comma before the fraction are accepted, as is a zone offset.

    The seconds of a Unix time are in the range where package time does not
    wrap around (the years up to 2^31 or so). *)

From S2P Require Import Prelude GoStr GoFloat GoJson JsonFacts StrFacts GoInt.
#[local] Open Scope Z_scope.

(** A moment in UTC. *)
Record utc := { t_year : Z; t_month : Z; t_day : Z; t_hour : Z; t_minute : Z; t_second : Z; t_nanos : Z }.

(** ** The calendar *)

(** Days since 1970-01-01; years are counted from March, in eras of 400 years. *)
Definition days_from_civil (y m d : Z) : Z :=
  let y := if m <=? 2 then y - 1 else y in
  let era := y / 400 in
  let yoe := y mod 400 in
  let doy := (153 * (if 2 <? m then m - 3 else m + 9) + 2) / 5 + d - 1 in
  let doe := yoe * 365 + yoe / 4 - yoe / 100 + doy in
  era * 146097 + doe - 719468.

Definition civil_from_days (z : Z) : Z * Z * Z :=
  let z := z + 719468 in
  let era := z / 146097 in
  let doe := z mod 146097 in
  let yoe := (doe - doe / 1460 + doe / 36524 - doe / 146096) / 365 in
  let doy := doe - (365 * yoe + yoe / 4 - yoe / 100) in
  let mp := (5 * doy + 2) / 153 in
  let d := doy - (153 * mp + 2) / 5 + 1 in
  let m := if mp <? 10 then mp + 3 else mp - 9 in
  let y := yoe + era * 400 in
  (if m <=? 2 then y + 1 else y, m, d).

(** time.Unix(seconds, 0).UTC() *)
Definition unix_utc (seconds : Z) : utc :=
  let '(y, m, d) := civil_from_days (seconds / 86400) in
  let s := seconds mod 86400 in
  {| t_year := y; t_month := m; t_day := d; t_hour := s / 3600; t_minute := s / 60 mod 60; t_second := s mod 60;
     t_nanos := 0 |}.

(** t.Unix() *)
Definition utc_unix (t : utc) : Z :=
  days_from_civil (t_year t) (t_month t) (t_day t) * 86400 + t_hour t * 3600 + t_minute t * 60 + t_second t.

Definition is_leap (y : Z) : bool := (y mod 4 =? 0) && (negb (y mod 100 =? 0) || (y mod 400 =? 0)).

Definition days_in (m y : Z) : Z :=
  if (m =? 2) then (if is_leap y then 29 else 28)
  else if (m =? 4) || (m =? 6) || (m =? 9) || (m =? 11) then 30 else 31.

(** ** Writing *)

Definition year_text (y : Z) : string :=
  let pad z := if z <? 10000 then fixed_digits 4 z "" else digits z in
  if y <? 0 then "-" +:+ pad (- y) else pad y.

(** The layout time.RFC3339Nano: the fraction of the second without its
    trailing zeros, and no fraction when it is zero. *)
Definition FormatTime (t : utc) : string :=
  year_text (t_year t) +:+ "-" +:+ fixed_digits 2 (t_month t) "" +:+ "-" +:+ fixed_digits 2 (t_day t) ""
  +:+ "T" +:+ fixed_digits 2 (t_hour t) "" +:+ ":" +:+ fixed_digits 2 (t_minute t) "" +:+ ":" +:+
  fixed_digits 2 (t_second t) "" +:+ frac_part (strip_zeros_end (fixed_digits 9 (t_nanos t) "")) +:+ "Z".

(** ** Reading *)

(** Exactly [n] digits, and the text after them. *)
Fixpoint take_digits (n : nat) (acc : Z) (s : string) : option (Z * string) :=
  match n with
  | O => Some (acc, s)
  | S n =>
      match s with
      | String a s => if is_digit a then take_digits n (10 * acc + digit_val a) s else None
      | "" => None
      end
  end.

(** An hour: one or two digits. *)
Definition take_hour (s : string) : option (Z * string) :=
  match take_digits 2 0 s with Some r => Some r | None => take_digits 1 0 s end.

(** A fraction is a period or comma followed by digits; anything else is none. *)
Definition skip_fraction (s : string) : string :=
  match s with
  | String a s' =>
      if (code a =? 46)%N || (code a =? 44)%N then
        match span_digits s' with ("", _) => s | (_, r) => r end
      else s
  | "" => s
  end.

(** Z, or an offset from UTC in seconds. *)
Definition take_zone (s : string) : option Z :=
  match s with
  | String a s' =>
      if (code a =? 90)%N then match s' with "" => Some 0 | _ => None end
      else if (code a =? 43)%N || (code a =? 45)%N then
        '(h, r) ← take_digits 2 0 s';
        r ← strip ":" r;
        '(m, r) ← take_digits 2 0 r;
        match r with
        | "" => if (h <=? 24) && (m <=? 60)
                then Some ((if (code a =? 45)%N then -1 else 1) * (h * 3600 + m * 60)) else None
        | _ => None
        end
      else None
  | "" => None
  end.

(** time.Parse(time.RFC3339Nano, raw), as the seconds since 1970. *)
Definition parse_rfc3339 (raw : string) : option Z :=
  '(y, r) ← take_digits 4 0 raw;
  r ← strip "-" r;
  '(mo, r) ← take_digits 2 0 r;
  r ← strip "-" r;
  '(d, r) ← take_digits 2 0 r;
  r ← strip "T" r;
  '(h, r) ← take_hour r;
  r ← strip ":" r;
  '(mi, r) ← take_digits 2 0 r;
  r ← strip ":" r;
  '(s, r) ← take_digits 2 0 r;
  zone ← take_zone (skip_fraction r);
  if (1 <=? mo) && (mo <=? 12) && (1 <=? d) && (d <=? days_in mo y) && (h <? 24) && (mi <? 60) && (s <? 60)
  then Some (days_from_civil y mo d * 86400 + h * 3600 + mi * 60 + s - zone)
  else None.

Definition ParseTimeUnix (raw : string) : option Z := parse_rfc3339 (TrimSpace raw).

(** service.formatUnixTime *)
Definition formatUnixTime (unixSeconds : Z) : string := FormatTime (unix_utc unixSeconds).

(** ** Lemmas *)

(** The day and year of an era. *)
Lemma day_of_year doe yoe : 0 <= doe < 146097 ->
  yoe = (doe - doe / 1460 + doe / 36524 - doe / 146096) / 365 ->
  0 <= yoe <= 399 /\ 0 <= doe - (365 * yoe + yoe / 4 - yoe / 100) <= 365 /\
  (doe - (365 * yoe + yoe / 4 - yoe / 100) = 365 ->
   (yoe + 1) mod 4 = 0 /\ ((yoe + 1) mod 100 <> 0 \/ (yoe + 1) mod 400 = 0)).
Proof. intros Hd ->. Z.to_euclidean_division_equations. lia. Qed.

Lemma civil_from_days_spec z y m d : civil_from_days z = (y, m, d) ->
  days_from_civil y m d = z /\ 1 <= m <= 12 /\ 1 <= d <= days_in m y.
Proof.
  unfold civil_from_days. set (t := z + 719468). set (era := t / 146097). set (doe := t mod 146097).
  assert (Hdoe : 0 <= doe < 146097) by (apply Z.mod_pos_bound; lia).
  assert (Hz : t = era * 146097 + doe) by (subst era doe; rewrite Z.mul_comm; apply Z.div_mod; lia).
  set (yoe := (doe - doe / 1460 + doe / 36524 - doe / 146096) / 365).
  destruct (day_of_year doe yoe Hdoe eq_refl) as (Hy & Hdy & Hleap).
  set (doy := doe - (365 * yoe + yoe / 4 - yoe / 100)) in *. set (mp := (5 * doy + 2) / 153).
  assert (Hmp : 0 <= mp <= 11 /\ 153 * mp <= 5 * doy + 2 < 153 * mp + 153).
  { subst mp. clearbody doy. clear -Hdy. Z.to_euclidean_division_equations. lia. }
  intros [= <- <- <-]. clearbody doe era mp. unfold days_from_civil, days_in, is_leap.
  destruct (Z.ltb_spec mp 10) as [Hm|Hm].
  - rewrite (proj2 (Z.leb_gt (mp + 3) 2)) by lia. rewrite (proj2 (Z.ltb_lt 2 (mp + 3))) by lia.
    replace ((yoe + era * 400) / 400) with era by (Z.to_euclidean_division_equations; lia).
    replace ((yoe + era * 400) mod 400) with yoe by (Z.to_euclidean_division_equations; lia).
    replace (mp + 3 - 3) with mp by lia. split; [subst doy t; lia|]. split; [lia|].
    clear -Hmp Hdy Hm. destruct (Z.eqb_spec (mp + 3) 2), (Z.eqb_spec (mp + 3) 4), (Z.eqb_spec (mp + 3) 6),
      (Z.eqb_spec (mp + 3) 9), (Z.eqb_spec (mp + 3) 11); cbn [orb]; Z.to_euclidean_division_equations; lia.
  - rewrite (proj2 (Z.leb_le (mp - 9) 2)) by lia. rewrite (proj2 (Z.ltb_ge 2 (mp - 9))) by lia.
    replace ((yoe + era * 400 + 1 - 1) / 400) with era by (Z.to_euclidean_division_equations; lia).
    replace ((yoe + era * 400 + 1 - 1) mod 400) with yoe by (Z.to_euclidean_division_equations; lia).
    replace (mp - 9 + 9) with mp by lia. split; [subst doy t; lia|]. split; [lia|].
    destruct (Z.eqb_spec (mp - 9) 2) as [E2|E2].
    + destruct ((yoe + era * 400 + 1) mod 4 =? 0) eqn:E4, ((yoe + era * 400 + 1) mod 100 =? 0) eqn:E100,
        ((yoe + era * 400 + 1) mod 400 =? 0) eqn:E400; cbn [negb andb orb];
        rewrite ?Z.eqb_eq, ?Z.eqb_neq in *; clearbody doy; clear -Hmp Hdy Hm E2 E4 E100 E400 Hleap Hy;
        Z.to_euclidean_division_equations; lia.
    + clear -Hmp Hdy Hm E2. destruct (Z.eqb_spec (mp - 9) 4), (Z.eqb_spec (mp - 9) 6),
        (Z.eqb_spec (mp - 9) 9), (Z.eqb_spec (mp - 9) 11); cbn [orb]; Z.to_euclidean_division_equations; lia.
Qed.

Lemma take_digits_add n m acc s :
  take_digits (n + m) acc s = ('(a, r) ← take_digits n acc s; take_digits m a r).
Proof.
  revert acc s. induction n as [|n IH]; intros acc s; simpl; [done|].
  destruct s as [|a s]; [done|]. destruct (is_digit a); [apply IH|done].
Qed.

Lemma digit_char_is_digit z : is_digit (digit_char z) = true.
Proof.
  unfold is_digit, digit_char. pose proof (Z.mod_pos_bound z 10 ltac:(lia)).
  rewrite code_chr by lia. apply in_rng_spec. lia.
Qed.

(** Padded digits are read back. *)
Lemma take_fixed_digits n z acc r : 0 <= z ->
  take_digits n acc (fixed_digits n z r) = Some (acc * 10 ^ Z.of_nat n + z mod 10 ^ Z.of_nat n, r).
Proof.
  revert z acc r. induction n as [|n IH]; intros z acc r Hz.
  { simpl. rewrite Z.mod_1_r. f_equal. f_equal. lia. }
  replace (S n) with (n + 1)%nat at 1 by lia. rewrite take_digits_add. cbn [fixed_digits].
  rewrite IH by (apply Z.div_pos; lia). cbn [mbind option_bind take_digits]. rewrite digit_char_is_digit, digit_char_val.
  f_equal. f_equal. rewrite Nat2Z.inj_succ, Z.pow_succ_r by lia.
  rewrite Z.rem_mul_r by lia. lia.
Qed.

Lemma fixed_digits_app n z acc : fixed_digits n z acc = fixed_digits n z "" +:+ acc.
Proof.
  revert z acc. induction n as [|n IH]; intros z acc; simpl; [done|].
  rewrite IH, (IH _ (String _ "")), sapp_assoc. done.
Qed.

Lemma take_padded n z r : 0 <= z < 10 ^ Z.of_nat n ->
  take_digits n 0 (fixed_digits n z "" +:+ r) = Some (z, r).
Proof. intros Hz. rewrite <-fixed_digits_app, take_fixed_digits by lia. rewrite Z.mod_small by lia. done. Qed.

(** A moment with a calendar date and no fraction of a second. *)
Definition utc_ok (t : utc) : Prop :=
  0 <= t_year t <= 9999 /\ 1 <= t_month t <= 12 /\ 1 <= t_day t <= days_in (t_month t) (t_year t) /\
  0 <= t_hour t < 24 /\ 0 <= t_minute t < 60 /\ 0 <= t_second t < 60 /\ t_nanos t = 0.

Lemma days_in_le m y : days_in m y <= 31.
Proof. unfold days_in. destruct (m =? 2); [destruct (is_leap y); lia|]. destruct (_ || (m =? 11)); lia. Qed.

Lemma parse_format t : utc_ok t -> parse_rfc3339 (FormatTime t) = Some (utc_unix t).
Proof.
  intros (Hy & Hm & Hd & Hh & Hmi & Hs & Hn). pose proof (days_in_le (t_month t) (t_year t)).
  unfold FormatTime, year_text. rewrite Hn. rewrite (proj2 (Z.ltb_ge (t_year t) 0)) by lia.
  rewrite (proj2 (Z.ltb_lt (t_year t) 10000)) by lia.
  change (frac_part (strip_zeros_end (fixed_digits 9 0 ""))) with "". rewrite sapp_nil_l.
  unfold parse_rfc3339, take_hour.
  rewrite take_padded by (simpl; lia). cbn [mbind option_bind]. rewrite strip_app. cbn [mbind option_bind].
  rewrite take_padded by (simpl; lia). cbn [mbind option_bind]. rewrite strip_app. cbn [mbind option_bind].
  rewrite take_padded by (simpl; lia). cbn [mbind option_bind]. rewrite strip_app. cbn [mbind option_bind].
  rewrite take_padded by (simpl; lia). cbn [mbind option_bind]. rewrite strip_app. cbn [mbind option_bind].
  rewrite take_padded by (simpl; lia). cbn [mbind option_bind]. rewrite strip_app. cbn [mbind option_bind].
  rewrite take_padded by (simpl; lia). cbn [mbind option_bind].
  change (take_zone (skip_fraction "Z")) with (Some 0). cbn [mbind option_bind].
  rewrite !(proj2 (Z.leb_le _ _)), !(proj2 (Z.ltb_lt _ _)) by lia. cbn [andb].
  unfold utc_unix. f_equal. lia.
Qed.

(** The days of the years 0 to 9999. *)
Lemma year_of_days y m d : 1 <= m <= 12 -> 1 <= d <= 31 ->
  -719528 <= days_from_civil y m d < 2932897 -> 0 <= y <= 9999.
Proof.
  unfold days_from_civil. intros Hm Hd H. destruct (Z.leb_spec m 2), (Z.ltb_spec 2 m); lia.
Qed.

Lemma unix_utc_ok seconds : -62167219200 <= seconds < 253402300800 ->
  utc_ok (unix_utc seconds) /\ utc_unix (unix_utc seconds) = seconds.
Proof.
  intros Hs. unfold unix_utc. destruct (civil_from_days (seconds / 86400)) as [[y m] d] eqn:E.
  apply civil_from_days_spec in E as (Hc & Hm & Hd). pose proof (days_in_le m y).
  unfold utc_ok, utc_unix. cbn [t_year t_month t_day t_hour t_minute t_second t_nanos]. rewrite Hc.
  assert (Hday : -719528 <= seconds / 86400 < 2932897) by (Z.to_euclidean_division_equations; lia).
  assert (Hy : 0 <= y <= 9999) by (rewrite <-Hc in Hday; apply (year_of_days y m d); [done|lia|done]).
  split; [repeat split; try done|]; try lia.
Qed.

(** Fact (round trip): the text in which a Unix time of the years 0 to 9999 is
    stored is read back as that time; in particular the calendar computation is
    right on every day of those years. *)
Theorem time_round_trip seconds : -62167219200 <= seconds < 253402300800 ->
  ParseTimeUnix (formatUnixTime seconds) = Some seconds.
Proof.
  intros Hs. destruct (unix_utc_ok seconds Hs) as [Hok Hu]. unfold ParseTimeUnix, formatUnixTime.
  assert (Ht : TrimSpace (FormatTime (unix_utc seconds)) = FormatTime (unix_utc seconds)).
  { unfold FormatTime, year_text. destruct Hok as (Hy & _). rewrite (proj2 (Z.ltb_ge _ 0)) by lia.
    rewrite (proj2 (Z.ltb_lt _ 10000)) by lia. cbn [fixed_digits]. rewrite !sapp_cons, sapp_nil_l.
    rewrite <-!sapp_assoc, <-!sapp_cons. rewrite <-!sapp_assoc. rewrite sapp_cons. apply TrimSpace_solid; [|done].
    pose proof (digit_char_is_digit (t_year (unix_utc seconds) / 10 / 10 / 10)) as Hd. unfold is_digit, solid in *.
    rewrite in_rng_spec in *. lia. }
  rewrite Ht, parse_format by done. by rewrite Hu.
Qed.

Lemma time_round_trip_witness : ParseTimeUnix "2026-01-02T03:04:05Z" = Some 1767323045.
Proof. apply (time_round_trip 1767323045). lia. Defined.
