(* ===== verification/World.v ===== *)
(** * State-passing results

    [ST S A] is a Go function that reads and writes a state [S] and returns a
    value, an error, or panics.  The state reached before an error is kept:
    only what the code itself rolls back is rolled back.

    [IdSource] stands for github.com/google/uuid: the [n]-th call of
    [uuid.NewV7] gives [uuid_v7 n], or fails. *)

From S2P Require Import Prelude GoStr.

Definition ST (S A : Type) : Type := S -> res A * S.

#[global] Instance st_ret {S} : MRet (ST S) := fun A a s => (Ok a, s).
#[global] Instance st_bind {S} : MBind (ST S) := fun A B f m s =>
  match m s with
  | (Ok a, s') => f a s'
  | (Err e, s') => (Err e, s')
  | (Panic, s') => (Panic, s')
  end.

(** A call that does not touch the state. *)
Definition st_lift {S A} (m : res A) : ST S A := fun s => (m, s).
Definition st_err {S A} (e : goerr) : ST S A := fun s => (Err e, s).
Definition st_get {S} : ST S S := fun s => (Ok s, s).
Definition st_put {S} (s : S) : ST S unit := fun _ => (Ok tt, s).
Definition st_wrap {S A} (ctx : string) (m : ST S A) : ST S A := fun s =>
  let '(r, s') := m s in (wrap_err ctx r, s').

Fixpoint st_map {S A B} (f : A -> ST S B) (xs : list A) : ST S (list B) :=
  match xs with
  | [] => mret []
  | x :: xs => y ← f x; ys ← st_map f xs; mret (y :: ys)
  end.

(** ** Identifiers *)

Class IdSource := { uuid_v7 : nat -> option string }.

Fixpoint all_chars (p : ascii -> bool) (s : string) : bool :=
  match s with "" => true | String a s => p a && all_chars p s end.

Definition uuid_char (a : ascii) : bool :=
  in_rng 48 57 (code a) || in_rng 97 102 (code a) || (code a =? 45)%N.

(** What the package documents of its identifiers: hexadecimal digits and
    dashes, and no two alike. *)
Class IdLaws `{IdSource} := {
  uuid_text n u : uuid_v7 n = Some u -> all_chars uuid_char u = true;
  uuid_inj n m u : uuid_v7 n = Some u -> uuid_v7 m = Some u -> n = m
}.

(** domain.NewPrefixedID; the state counts the identifiers drawn so far. *)
Definition NewPrefixedID `{IdSource} (prefix : string) : ST nat string := fun n =>
  (match uuid_v7 n with
   | Some u => Ok (prefix +:+ "_" +:+ u)
   | None => Err (EWrap "generate uuidv7" (ELibrary "uuid"))
   end, S n).

(** ** The order in which a Go map is ranged over

    The language leaves it open; each [range] over a map sees all its entries,
    in some order. *)

Class MapOrder := {
  map_order {V} : list (string * V) -> list (string * V);
  map_order_perm {V} (m : list (string * V)) : map_order m ≡ₚ m
}.

Definition sorted_order : MapOrder :=
  {| map_order V m := m; map_order_perm V m := Permutation_refl m |}.
Definition reverse_order : MapOrder :=
  {| map_order V m := reverse m; map_order_perm V m := reverse_Permutation m |}.

(** ** Lemmas *)

Lemma st_bind_ok {S A B} (m : ST S A) (f : A -> ST S B) s b s' :
  (m ≫= f) s = (Ok b, s') <-> exists a s1, m s = (Ok a, s1) /\ f a s1 = (Ok b, s').
Proof.
  unfold mbind, st_bind. destruct (m s) as [[a|e|] s1]; split.
  - eauto.
  - by intros (? & ? & [= -> ->] & ?).
  - done.
  - by intros (? & ? & ? & ?).
  - done.
  - by intros (? & ? & ? & ?).
Qed.

Lemma st_bind_eq {S A B} (m : ST S A) (f : A -> ST S B) s :
  (m ≫= f) s = match m s with (Ok a, s') => f a s' | (Err e, s') => (Err e, s') | (Panic, s') => (Panic, s') end.
Proof. done. Qed.

Lemma st_bind_run {S A B} (m : ST S A) (f : A -> ST S B) s a s' :
  m s = (Ok a, s') -> (m ≫= f) s = f a s'.
Proof. intros Hm. unfold mbind, st_bind. by rewrite Hm. Qed.

Lemma st_map_ok {S A B} (f : A -> ST S B) xs s ys s' :
  st_map f xs s = (Ok ys, s') ->
  Forall2 (fun x y => exists s1 s2, f x s1 = (Ok y, s2)) xs ys.
Proof.
  revert s ys. induction xs as [|x xs IH]; intros s ys; simpl.
  - intros [= <- <-]. constructor.
  - intros (y & s1 & Hy & (ys' & s2 & Hys & [= <- <-])%st_bind_ok)%st_bind_ok.
    constructor; [eauto|]. by eapply IH.
Qed.

Ltac inv_st H :=
  repeat (apply st_bind_ok in H as (? & ? & ? & H)).

(** ** Identifiers are plain text *)

Lemma uuid_char_code a : uuid_char a = true -> (code a < 128)%N /\ solid a = true.
Proof.
  unfold uuid_char, solid. rewrite !orb_true_iff, N.eqb_eq, !in_rng_spec. lia.
Qed.

Lemma all_chars_valid p s : (forall a, p a = true -> (code a < 128)%N) ->
  all_chars p s = true -> valid_utf8 s = true.
Proof.
  intros Hp. induction s as [|a s IH]; [done|]. simpl. intros [Ha Hs]%andb_true_iff.
  unfold valid_utf8. rewrite chunks_ascii by auto. simpl. rewrite andb_true_iff. split; [|by apply IH].
  specialize (Hp a Ha). unfold is_bad, rune_error; simpl.
  destruct (N.eqb_spec (code a) 65533); [lia|done].
Qed.

Lemma string_last_inv s : s = "" \/ exists t b, s = t +:+ char_string b.
Proof.
  induction s as [|a s [->|(t & b & ->)]]; [by left|..]; right.
  - by exists "", a.
  - by exists (String a t), b.
Qed.

Lemma all_chars_app p s t : all_chars p (s +:+ t) = all_chars p s && all_chars p t.
Proof. induction s as [|a s IH]; [done|]. rewrite sapp_cons. simpl. by rewrite IH, andb_assoc. Qed.

(** A text of solid characters is its own trimming. *)
Lemma TrimSpace_chars p s : (forall a, p a = true -> solid a = true) ->
  all_chars p s = true -> TrimSpace s = s.
Proof.
  intros Hp. destruct s as [|a s]; [done|]. simpl. intros [Ha Hs]%andb_true_iff.
  destruct (string_last_inv s) as [->|(t & b & ->)]; [by apply TrimSpace_solid1; auto|].
  apply TrimSpace_solid; [auto|]. rewrite all_chars_app in Hs.
  apply andb_true_iff in Hs as [_ Hb]. simpl in Hb. rewrite andb_true_r in Hb. auto.
Qed.

(** The characters of a prefixed identifier. *)
Definition id_char (a : ascii) : bool :=
  uuid_char a || in_rng 97 122 (code a) || (code a =? 95)%N.

Lemma id_char_code a : id_char a = true -> (code a < 128)%N /\ solid a = true.
Proof.
  unfold id_char, uuid_char, solid. rewrite !orb_true_iff, !N.eqb_eq, !in_rng_spec. lia.
Qed.

Lemma all_chars_impl (p q : ascii -> bool) s : (forall a, p a = true -> q a = true) ->
  all_chars p s = true -> all_chars q s = true.
Proof.
  intros H. induction s as [|a s IH]; [done|]. simpl. rewrite !andb_true_iff. intros [? ?]. auto.
Qed.

Section id_facts.
Context `{IdLaws}.

Lemma prefixed_id_chars prefix n u : all_chars id_char prefix = true ->
  uuid_v7 n = Some u -> all_chars id_char (prefix +:+ "_" +:+ u) = true.
Proof.
  intros Hp Hu. rewrite !all_chars_app, Hp. simpl.
  apply (all_chars_impl uuid_char); [|by eapply uuid_text].
  intros a Ha. unfold id_char. by rewrite Ha.
Qed.

Lemma prefixed_id_ok prefix n u : all_chars id_char prefix = true -> uuid_v7 n = Some u ->
  let id := prefix +:+ "_" +:+ u in
  valid_utf8 id = true /\ TrimSpace id = id /\ id <> "".
Proof.
  intros Hp Hu id. pose proof (prefixed_id_chars prefix n u Hp Hu) as Hc.
  split; [|split].
  - apply (all_chars_valid id_char); [|done]. by intros a [? _]%id_char_code.
  - apply (TrimSpace_chars id_char); [|done]. by intros a [_ ?]%id_char_code.
  - subst id. by destruct prefix.
Qed.

Lemma sapp_inj_l s t u : s +:+ t = s +:+ u -> t = u.
Proof. induction s as [|a s IH]; [done|]. rewrite !sapp_cons. intros [= ?]. auto. Qed.

Lemma prefixed_id_inj prefix n m u v : uuid_v7 n = Some u -> uuid_v7 m = Some v ->
  prefix +:+ "_" +:+ u = prefix +:+ "_" +:+ v -> n = m.
Proof. intros Hu Hv Heq%sapp_inj_l%(sapp_inj_l "_"). subst. by eapply uuid_inj. Qed.
End id_facts.

(** A source whose [n]-th identifier is [n] zeros. *)
Definition zeros_ids : IdSource := {| uuid_v7 n := Some (Nat.iter n (String "0") "") |}.

Lemma zeros_ids_laws : @IdLaws zeros_ids.
Proof.
  split; simpl.
  - intros n u [= <-]. induction n as [|n IH]; [done|exact IH].
  - intros n m u [= <-]. revert m. induction n as [|n IH]; intros [|m] [=]; [done|]. f_equal. by apply IH; f_equal.
Qed.
