(* ===== verification/Items.v ===== *)
(** * internal/domain/items.go

    Items of a response or conversation: a raw JSON object with the fields the
    shim reads from it, the metadata the shim attaches, and the envelope in
    which both are stored.  [Raw = None] is the empty RawMessage.  Metadata is
    copied by value, so cloneItemMeta's copies need no store of their own. *)

From S2P Require Import Prelude GoStr GoFloat GoJson JsonFacts World.

Definition storedItemEnvelopeKey : string := "__llama_shim_item".

Record TextPart := { tp_Type : string; tp_Text : string }.

Record ItemMeta := {
  Transport : string;
  SyntheticName : string;
  CanonicalType : string;
  ToolName : string;
  ToolNamespace : string;
  MCPServerURL : string;
  MCPConnectorID : string;
  MCPAuthorization : string;
  MCPApproval : string;
  MCPTransport : string;
  MCPToolNames : list string;
  MCPHeaders : list (string * string)
}.

Definition zeroMeta : ItemMeta :=
  {| Transport := ""; SyntheticName := ""; CanonicalType := ""; ToolName := "";
     ToolNamespace := ""; MCPServerURL := ""; MCPConnectorID := ""; MCPAuthorization := "";
     MCPApproval := ""; MCPTransport := ""; MCPToolNames := []; MCPHeaders := [] |}.

Record Item := {
  Raw : option json;
  Meta : option ItemMeta;
  Type_ : string;
  Role : string;
  Content : list TextPart
}.

Definition zeroItem : Item :=
  {| Raw := None; Meta := None; Type_ := ""; Role := ""; Content := [] |}.

Definition set_meta (i : Item) (m : option ItemMeta) : Item :=
  {| Raw := Raw i; Meta := m; Type_ := Type_ i; Role := Role i; Content := Content i |}.

#[global] Instance text_part_eq_dec : EqDecision TextPart.
Proof. solve_decision. Defined.
#[global] Instance item_meta_eq_dec : EqDecision ItemMeta.
Proof. solve_decision. Defined.

Record ToolCallReference := {
  ref_Type : string;
  ref_Name : string;
  ref_Namespace : string;
  ref_Meta : option ItemMeta
}.

#[global] Instance tool_call_reference_eq_dec : EqDecision ToolCallReference.
Proof. solve_decision. Defined.

(** A type assertion [value.(string)] that gives the zero string on failure. *)
Definition asString (v : option gval) : string :=
  match v with Some (GStr s) => s | _ => "" end.

(** ** Reading *)

Definition cloneItemMeta (meta : option ItemMeta) : option ItemMeta :=
  match meta with None => None | Some m => Some m end.

Definition looksLikeMessageItem (content : option json) (role : string) : bool :=
  if decide (TrimSpace role <> "") then true
  else match content with None | Some JNull => false | Some _ => true end.

(** One element of the content array; [None] is [continue]. *)
Definition extractTextPart (part : list (string * json)) : option TextPart :=
  let partType :=
    match am_lookup "type" part with
    | Some rawType =>
        match string_of rawType with
        | Some value => if decide (TrimSpace value <> "") then TrimSpace value else "text"
        | None => "text"
        end
    | None => "text"
    end in
  match am_lookup "text" part with
  | Some rawText =>
      match string_of rawText with
      | None => None
      | Some text => if decide (text = "") then None
                     else Some {| tp_Type := partType; tp_Text := text |}
      end
  | None => None
  end.

Definition extractTextParts (raw : option json) : list TextPart :=
  match raw with
  | None | Some JNull => []
  | Some (JStr l) => [{| tp_Type := "text"; tp_Text := unquote l |}]
  | Some t =>
      match raw_map_array t with
      | None => []
      | Some parts => omap extractTextPart parts
      end
  end.

(** Item.UnmarshalJSON on a parsed document. *)
Definition UnmarshalJSON (t : json) : res Item :=
  match t with
  | JNull => Err (EMsg "item payload must be a JSON object")
  | _ =>
      match struct_members t with
      | None => Err (EWrap "decode item payload" (EDecode "item"))
      | Some l =>
          match field_string "type" l, field_string "role" l with
          | Some ty, Some role =>
              let content := field_raw "content" l in
              let ty' := TrimSpace ty in
              Ok {| Raw := Some t;
                    Meta := None;
                    Type_ := if decide (ty' = "") then
                               if looksLikeMessageItem content role then "message" else ty'
                             else ty';
                    Role := TrimSpace role;
                    Content := extractTextParts content |}
          | _, _ => Err (EWrap "decode item payload" (EDecode "item"))
          end
      end
  end.

(** compactRawJSON followed by decoding; no text at all compacts to nothing,
    which the decoder then rejects. *)
Definition NewItem (raw : string) : res Item :=
  if decide (TrimSpace raw = "") then Err (EWrap "decode item payload" (EDecode "item"))
  else match jparse (TrimSpace raw) with
  | None => Err (EDecode "item")
  | Some t => UnmarshalJSON t
  end.

Definition text_part_json (p : TextPart) : json :=
  JObj [("type", json_str (tp_Type p)); ("text", json_str (tp_Text p))].

(** Item.MarshalJSON; the value it returns is a JSON document. *)
Definition MarshalJSON (i : Item) : json :=
  match Raw i with
  | Some t => t
  | None =>
      let payload :=
        (if decide (Content i = []) then [] else [("content", JArr (map text_part_json (Content i)))]) ++
        (if decide (TrimSpace (Role i) = "") then [] else [("role", json_str (Role i))]) ++
        (if decide (TrimSpace (Type_ i) = "") then [] else [("type", json_str (Type_ i))]) in
      match payload with [] => JNull | _ => JObj payload end
  end.

Definition RawField (i : Item) (name : string) : option json :=
  match Raw i with
  | None => None
  | Some t => match raw_map t with None => None | Some m => am_lookup name m end
  end.

Definition StringField (i : Item) (name : string) : string :=
  match RawField i name with
  | None => ""
  | Some raw => match string_of raw with None => "" | Some value => TrimSpace value end
  end.

Definition ID (i : Item) : string := StringField i "id".
Definition CallID (i : Item) : string := StringField i "call_id".
Definition Name (i : Item) : string := StringField i "name".
Definition Namespace (i : Item) : string := StringField i "namespace".
Definition Status (i : Item) : string := StringField i "status".
Definition Phase (i : Item) : string := StringField i "phase".
Definition Arguments_ (i : Item) : string := StringField i "arguments".
Definition Input (i : Item) : string := StringField i "input".
Definition OutputRaw (i : Item) : option json := RawField i "output".

Definition is_text_part_type (ty : string) : bool :=
  bool_decide (ty = "") || bool_decide (ty = "text") ||
  bool_decide (ty = "input_text") || bool_decide (ty = "output_text").

Definition HasNonTextMessageContent (i : Item) : bool :=
  if decide (Type_ i <> "message") then false
  else match RawField i "content" with
       | None | Some (JStr _) => false
       | Some raw =>
           match any_map_array raw with
           | None => true
           | Some parts =>
               existsb (fun part => negb (is_text_part_type (TrimSpace (asString (am_lookup "type" part))))) parts
           end
       end.

(** Item.Map; [None] is the nil map, which the JSON value null decodes to. *)
Definition Map (i : Item) : option (list (string * gval)) :=
  match Raw i with
  | None => Some []
  | Some t => match any_map t with None => Some [] | Some m => m end
  end.

(** ** Building *)

Definition map_json (payload : option (list (string * gval))) : json :=
  match payload with None => JNull | Some m => of_any (GMap m) end.

Definition WithMap (i : Item) (payload : option (list (string * gval))) : res Item :=
  item ← NewItem (jprint (map_json payload));
  Ok (set_meta item (cloneItemMeta (Meta i))).

(** Assigning to an entry of the nil map panics. *)
Definition WithField (i : Item) (name : string) (value : gval) : res Item :=
  match Map i with
  | None => Panic
  | Some payload => WithMap i (Some (am_insert name value payload))
  end.

Definition WithID (i : Item) (id : string) : res Item :=
  if decide (TrimSpace (ID i) <> "") then Ok i else WithField i "id" (GStr id).

Definition WithMeta (i : Item) (meta : ItemMeta) : Item :=
  set_meta i (cloneItemMeta (Some meta)).

(** ** The stored envelope *)

Definition omit_string (name value : string) : list (string * json) :=
  if decide (value = "") then [] else [(name, json_str value)].

(** json.Marshal of an ItemMeta: every field is omitempty. *)
Definition meta_json (m : ItemMeta) : json :=
  JObj (omit_string "transport" (Transport m)
     ++ omit_string "synthetic_name" (SyntheticName m)
     ++ omit_string "canonical_type" (CanonicalType m)
     ++ omit_string "tool_name" (ToolName m)
     ++ omit_string "tool_namespace" (ToolNamespace m)
     ++ omit_string "mcp_server_url" (MCPServerURL m)
     ++ omit_string "mcp_connector_id" (MCPConnectorID m)
     ++ omit_string "mcp_authorization" (MCPAuthorization m)
     ++ omit_string "mcp_approval" (MCPApproval m)
     ++ omit_string "mcp_transport" (MCPTransport m)
     ++ (if decide (MCPToolNames m = []) then []
         else [("mcp_tool_names", JArr (map json_str (MCPToolNames m)))])
     ++ (if decide (MCPHeaders m = []) then []
         else [("mcp_headers", JObj (map (fun kv => (encode_body kv.1, json_str kv.2)) (MCPHeaders m)))])).

(** A []string field: the last value decides, null gives nil. *)
Definition field_strings (name : string) (l : list (string * json)) : option (list string) :=
  foldl (fun o t => _ ← o; match t with
                           | JNull => Some []
                           | JArr ts => opt_map string_of ts
                           | _ => None
                           end) (Some []) (field_values name l).

(** A map[string]string field: objects are merged into the map, null clears it. *)
Definition field_string_map (name : string) (l : list (string * json)) : option (list (string * string)) :=
  foldl (fun o t => m ← o; match t with
                           | JNull => Some []
                           | JObj _ => kvs ← string_map t;
                               Some (foldl (fun m kv => am_insert kv.1 kv.2 m) m kvs)
                           | _ => None
                           end) (Some []) (field_values name l).

(** json.Unmarshal into an ItemMeta. *)
Definition meta_of_members (l : list (string * json)) : option ItemMeta :=
  transport ← field_string "transport" l;
  synthetic_name ← field_string "synthetic_name" l;
  canonical_type ← field_string "canonical_type" l;
  tool_name ← field_string "tool_name" l;
  tool_namespace ← field_string "tool_namespace" l;
  mcp_server_url ← field_string "mcp_server_url" l;
  mcp_connector_id ← field_string "mcp_connector_id" l;
  mcp_authorization ← field_string "mcp_authorization" l;
  mcp_approval ← field_string "mcp_approval" l;
  mcp_transport ← field_string "mcp_transport" l;
  mcp_tool_names ← field_strings "mcp_tool_names" l;
  mcp_headers ← field_string_map "mcp_headers" l;
  Some {| Transport := transport; SyntheticName := synthetic_name;
          CanonicalType := canonical_type; ToolName := tool_name;
          ToolNamespace := tool_namespace; MCPServerURL := mcp_server_url;
          MCPConnectorID := mcp_connector_id; MCPAuthorization := mcp_authorization;
          MCPApproval := mcp_approval; MCPTransport := mcp_transport;
          MCPToolNames := mcp_tool_names; MCPHeaders := mcp_headers |}.

(** The *ItemMeta field of the envelope.  A repeated "meta" key would be
    decoded into the struct of the previous one; the last one is taken here,
    which is what json.Marshal's output, written by MarshalStoredItem, has. *)
Definition field_meta (name : string) (l : list (string * json)) : option (option ItemMeta) :=
  match last (field_values name l) with
  | None | Some JNull => Some None
  | Some (JObj l') => Some <$> meta_of_members l'
  | Some _ => None
  end.

Definition MarshalStoredItem (i : Item) : json :=
  let raw := MarshalJSON i in
  match Meta i with
  | None => raw
  | Some _ =>
      JObj [(storedItemEnvelopeKey,
             JObj (("item", jesc raw) ::
                   match cloneItemMeta (Meta i) with
                   | Some m => [("meta", meta_json m)]
                   | None => []
                   end))]
  end.

Definition unmarshal_envelope (rawEnvelope : json) : res Item :=
  match struct_members rawEnvelope with
  | None => Err (EWrap "decode item envelope" (EDecode "envelope"))
  | Some l =>
      match field_meta "meta" l with
      | None => Err (EWrap "decode item envelope" (EDecode "envelope"))
      | Some meta =>
          match field_raw "item" l with
          | None => NewItem ""
          | Some t => item ← UnmarshalJSON t; Ok (set_meta item (cloneItemMeta meta))
          end
      end
  end.

(** UnmarshalStoredItem on a parsed document. *)
Definition unmarshal_stored (t : json) : res Item :=
  match t with
  | JNull => Ok zeroItem
  | _ =>
      match raw_map t ≫= am_lookup storedItemEnvelopeKey with
      | Some rawEnvelope => unmarshal_envelope rawEnvelope
      | None => UnmarshalJSON t
      end
  end.

Definition UnmarshalStoredItem (data : string) : res Item :=
  let raw := TrimSpace data in
  if decide (raw = "") then Ok zeroItem
  else match jparse raw with
       | Some t => unmarshal_stored t
       | None => NewItem raw
       end.

Definition MarshalStoredItems (items : list Item) : string :=
  jprint (JArr (map (fun i => jesc (MarshalStoredItem i)) items)).

Definition UnmarshalStoredItems (data : string) : res (list Item) :=
  match jparse data ≫= raw_array with
  | None => Err (EDecode "stored items")
  | Some rawItems => res_map unmarshal_stored rawItems
  end.

(** ** Tool calls and their outputs *)

Definition is_local_role (role : string) : bool :=
  bool_decide (role = "system") || bool_decide (role = "developer") ||
  bool_decide (role = "user") || bool_decide (role = "assistant").

Fixpoint ValidateLocalShimItems (items : list Item) : res unit :=
  match items with
  | [] => Ok tt
  | item :: items =>
      if decide (Type_ item <> "message") then Err EUnsupportedShape
      else if HasNonTextMessageContent item then Err EUnsupportedShape
      else if is_local_role (Role item) then ValidateLocalShimItems items
      else Err EUnsupportedShape
  end.

Definition is_collected_call (ty : string) : bool :=
  bool_decide (ty = "function_call") || bool_decide (ty = "custom_tool_call").

Definition collect_ref (refs : gmap string ToolCallReference) (item : Item)
    : gmap string ToolCallReference :=
  let callID := TrimSpace (CallID item) in
  if decide (callID = "") then refs
  else if is_collected_call (Type_ item) then
    <[callID := {| ref_Type := Type_ item; ref_Name := Name item;
                   ref_Namespace := Namespace item; ref_Meta := cloneItemMeta (Meta item) |}]> refs
  else refs.

Definition CollectToolCallReferences (items : list Item) : gmap string ToolCallReference :=
  foldl collect_ref ∅ items.

Definition set_canonical_type (m : ItemMeta) (ty : string) : ItemMeta :=
  {| Transport := Transport m; SyntheticName := SyntheticName m; CanonicalType := ty;
     ToolName := ToolName m; ToolNamespace := ToolNamespace m; MCPServerURL := MCPServerURL m;
     MCPConnectorID := MCPConnectorID m; MCPAuthorization := MCPAuthorization m;
     MCPApproval := MCPApproval m; MCPTransport := MCPTransport m;
     MCPToolNames := MCPToolNames m; MCPHeaders := MCPHeaders m |}.

(** The body of the loop of CanonicalizeToolOutputs. *)
Definition canonicalize_output (refs : gmap string ToolCallReference) (item : Item) : res Item :=
  if decide (Type_ item <> "function_call_output" /\ Type_ item <> "custom_tool_call_output")
  then Ok item
  else match refs !! CallID item with
  | None => Ok item
  | Some ref =>
      if decide (ref_Type ref <> "custom_tool_call") then Ok item
      else if decide (Type_ item = "custom_tool_call_output") then
        match Meta item, ref_Meta ref with
        | None, Some _ => Ok (set_meta item (cloneItemMeta (ref_Meta ref)))
        | _, _ => Ok item
        end
      else match Map item with
      | None => Panic
      | Some payload =>
          normalized ← WithMap item (Some (am_insert "type" (GStr "custom_tool_call_output") payload));
          match ref_Meta ref with
          | None => Ok normalized
          | Some m =>
              Ok (set_meta normalized
                   (Some (if decide (CanonicalType m = "")
                          then set_canonical_type m "custom_tool_call_output" else m)))
          end
      end
  end.

Definition CanonicalizeToolOutputs (items : list Item) (refs : gmap string ToolCallReference)
    : res (list Item) :=
  if decide (items = [] \/ refs = ∅) then Ok items
  else res_map (canonicalize_output refs) items.

(** ** Identifiers *)

Section ids.
Context `{IdSource}.

Definition ensure_item_id (item : Item) : ST nat Item :=
  if decide (TrimSpace (ID item) <> "") then mret item
  else itemID ← NewPrefixedID "item"; st_lift (WithID item itemID).

Definition EnsureItemIDs (items : list Item) : ST nat (list Item) :=
  st_map ensure_item_id items.
End ids.
