(* ===== verification/ItemFacts.v ===== *)
(** * Facts about items

    The invariant of decoded items, that re-marshalling an item keeps its
    fields, and that the stored form of an item reads back as that item. *)

From S2P Require Import Prelude GoStr GoFloat GoJson JsonFacts World Items.

(** ** The invariant of decoded items *)

(** An item whose text fields are what decoding its raw object gives. *)
Definition item_inv (i : Item) : Prop :=
  exists l, Raw i = Some (JObj l) /\ jwf (JObj l) = true /\
            UnmarshalJSON (JObj l) = Ok (set_meta i None).

Definition str_or_null (t : json) : bool :=
  match t with JNull | JStr _ => true | _ => false end.

Lemma foldl_string_none vs :
  foldl (fun o t => s ← o; match t with JNull => Some s | JStr lit => Some (unquote lit) | _ => None end)
    None vs = @None string.
Proof. by induction vs. Qed.

Lemma field_string_Some name l :
  is_Some (field_string name l) <-> forallb str_or_null (field_values name l) = true.
Proof.
  unfold field_string. generalize "". induction (field_values name l) as [|t vs IH]; intros s0; simpl.
  - split; [done|]. by eexists.
  - destruct t; simpl; rewrite ?IH, ?foldl_string_none; try done; split; try done; by intros [? ?].
Qed.

Lemma UnmarshalJSON_obj t i : UnmarshalJSON t = Ok i ->
  exists l, t = JObj l /\ Raw i = Some t /\ Meta i = None /\
    forallb str_or_null (field_values "type" l) = true /\
    forallb str_or_null (field_values "role" l) = true.
Proof.
  unfold UnmarshalJSON. destruct t as [| | | | |l]; try done. simpl.
  destruct (field_string "type" l) eqn:E1, (field_string "role" l) eqn:E2; try done.
  intros [= <-]. exists l. repeat split; try done; apply field_string_Some; by eexists.
Qed.

Lemma UnmarshalJSON_ok_iff l :
  forallb str_or_null (field_values "type" l) = true ->
  forallb str_or_null (field_values "role" l) = true ->
  exists i, UnmarshalJSON (JObj l) = Ok i /\ Raw i = Some (JObj l) /\ Meta i = None.
Proof.
  rewrite <-!field_string_Some. intros [ty Hty] [role Hr]. simpl. rewrite Hty, Hr. by eexists.
Qed.

Lemma set_meta_none i : Meta i = None -> set_meta i None = i.
Proof. destruct i; simpl. by intros ->. Qed.

Lemma set_meta_raw i m : Raw (set_meta i m) = Raw i.
Proof. done. Qed.

Lemma UnmarshalJSON_inv t i m : jwf t = true -> UnmarshalJSON t = Ok i -> item_inv (set_meta i m).
Proof.
  intros Hw H. pose proof H as (l & -> & HR & HM & _)%UnmarshalJSON_obj.
  exists l. split; [done|]. split; [done|]. rewrite H. by destruct i; simpl in *; subst.
Qed.

Lemma item_inv_set_meta i m : item_inv i -> item_inv (set_meta i m).
Proof. intros (l & ? & ? & ?). by exists l. Qed.

#[export] Hint Resolve item_inv_set_meta : shim.

Lemma NewItem_item_inv s i m : NewItem s = Ok i -> item_inv (set_meta i m).
Proof.
  unfold NewItem. case_decide; [done|].
  destruct (jparse (TrimSpace s)) as [t|] eqn:E; [|done].
  apply UnmarshalJSON_inv. by apply jparse_wf in E.
Qed.

Lemma TrimSpace_obj l : TrimSpace (jprint (JObj l)) = jprint (JObj l).
Proof.
  cbn [jprint]. change ("{" +:+ ?s) with (String "{" s).
  change ("}") with (char_string "}"). by apply TrimSpace_solid.
Qed.

(** Decoding the printed form of an object decodes the object. *)
Lemma NewItem_print l : jwf (JObj l) = true -> NewItem (jprint (JObj l)) = UnmarshalJSON (JObj l).
Proof. intros Hw. unfold NewItem. rewrite TrimSpace_obj, jparse_jprint by done. by rewrite decide_False. Qed.

(** ** Re-marshalled items *)

(** Values under a field name that are neither strings nor null. *)
Definition str_or_null_val (v : gval) : bool :=
  match v with GNull | GStr _ => true | _ => false end.

Lemma str_or_null_of_any v : str_or_null (of_any v) = str_or_null_val v.
Proof. by destruct v. Qed.

Lemma str_or_null_any_of t v : any_of t = Some v -> str_or_null_val v = str_or_null t.
Proof.
  destruct t as [| |lit| |l|l]; cbn [any_of]; try (by intros [= <-]).
  - destruct (literal_float lit); simpl; [|done]. by intros [= <-].
  - destruct (opt_map any_of l); simpl; [|done]. by intros [= <-].
  - destruct (opt_map _ l); simpl; [|done]. by intros [= <-].
Qed.

(** [name] is only ever given a string or null. *)
Definition field_strings_only (name : string) (kvs : list (string * gval)) : bool :=
  forallb (fun kv => negb (EqualFold kv.1 name) || str_or_null_val kv.2) kvs.

Lemma field_values_elem name l t :
  t ∈ field_values name l <-> exists k, (k, t) ∈ l /\ EqualFold (unquote k) name = true.
Proof.
  unfold field_values. rewrite list_elem_of_fmap. split.
  - intros ([k t'] & -> & [Hk Hin]%list_elem_of_filter). eauto.
  - intros (k & Hin & Hk). exists (k, t). split; [done|]. by apply list_elem_of_filter.
Qed.

Lemma field_values_of_any name m : gwf_map m = true ->
  field_strings_only name m = true ->
  forallb str_or_null
    (field_values name (map (fun kv => (encode_body kv.1, of_any kv.2)) m)) = true.
Proof.
  intros Hw H. rewrite forallb_forall. intros t Ht%list_elem_of_In.
  apply field_values_elem in Ht as (k & Hin & Hk).
  apply list_elem_of_fmap in Hin as ([k' v] & [= -> ->] & Hin). simpl in *.
  unfold gwf_map in Hw. apply andb_true_iff in Hw as [_ Hw].
  unfold field_strings_only in H. rewrite forallb_forall in Hw, H.
  apply list_elem_of_In in Hin. specialize (Hw _ Hin). specialize (H _ Hin). simpl in *.
  apply andb_true_iff in Hw as [Hv _]. rewrite unquote_encode_valid in Hk by done.
  rewrite Hk in H. by rewrite str_or_null_of_any.
Qed.

Lemma field_strings_only_any name l m :
  any_of (JObj l) = Some (GMap m) ->
  forallb str_or_null (field_values name l) = true -> field_strings_only name m = true.
Proof.
  cbn [any_of]. destruct (opt_map _ l) as [kvs|] eqn:E; simpl; [|done]. intros [= <-] H.
  unfold field_strings_only. apply am_of_list_forallb. rewrite forallb_forall.
  intros [k v] Hin%list_elem_of_In. apply list_elem_of_lookup in Hin as [j Hj].
  apply opt_map_Some in E. destruct (Forall2_lookup_r _ _ _ _ _ E Hj) as ([k' t] & Ht & Htv).
  apply bind_Some in Htv as (v' & Hv & [= <- <-]). simpl in *.
  destruct (EqualFold (unquote k') name) eqn:Ek; [|done]. simpl.
  rewrite (str_or_null_any_of t) by done. rewrite forallb_forall in H. apply H.
  apply list_elem_of_In, field_values_elem. exists k'. split; [|done].
  by eapply list_elem_of_lookup_2.
Qed.

(** WithMap succeeds on a map whose type and role are strings, and the new
    item's raw object is the marshalled map. *)
Lemma WithMap_ok i m : gwf_map m = true ->
  field_strings_only "type" m = true -> field_strings_only "role" m = true ->
  exists i', WithMap i (Some m) = Ok i' /\ Raw i' = Some (of_any (GMap m)) /\
             Meta i' = Meta i /\ item_inv i'.
Proof.
  intros Hw Ht Hr. unfold WithMap, map_json.
  assert (Hwf : jwf (of_any (GMap m)) = true) by apply of_any_wf.
  change (of_any (GMap m)) with (JObj (map (fun kv => (encode_body kv.1, of_any kv.2)) m)) in *.
  rewrite NewItem_print by done.
  destruct (UnmarshalJSON_ok_iff (map (fun kv => (encode_body kv.1, of_any kv.2)) m))
    as (i' & Hi' & HR & HM); [by apply field_values_of_any..|].
  rewrite Hi'. cbn [mbind res_bind]. eexists; split; [done|].
  split; [done|]. split; [by destruct (Meta i)|]. by eapply UnmarshalJSON_inv.
Qed.

(** A named field of a marshalled map. *)
Lemma RawField_marshalled i m name : gwf_map m = true -> Raw i = Some (of_any (GMap m)) ->
  RawField i name = of_any <$> am_lookup name m.
Proof.
  intros Hw HR. unfold RawField. rewrite HR, raw_map_of_any by done.
  apply (am_lookup_map of_any).
Qed.

Lemma StringField_marshalled i m name : gwf_map m = true -> Raw i = Some (of_any (GMap m)) ->
  StringField i name = TrimSpace (asString (am_lookup name m)).
Proof.
  intros Hw HR. unfold StringField. rewrite (RawField_marshalled i m) by done.
  destruct (am_lookup name m) as [v|] eqn:E; simpl; [|done].
  destruct v; simpl; try done. rewrite unquote_encode, sanitize_valid; [done|].
  unfold gwf_map in Hw. apply andb_true_iff in Hw as [_ Hw]. rewrite forallb_forall in Hw.
  assert (Hin : (name, GStr s) ∈ m).
  { clear -E. induction m as [|[k v] m IH]; simpl in E; [done|].
    case_decide; simplify_eq; set_solver. }
  apply list_elem_of_In, Hw in Hin. simpl in Hin. by apply andb_true_iff in Hin as [_ ?].
Qed.

(** ** Decoding after HTML escaping *)

(** The item with its raw object as json.Marshal writes a RawMessage. *)
Definition escaped (i : Item) : Item :=
  {| Raw := jesc <$> Raw i; Meta := Meta i; Type_ := Type_ i; Role := Role i;
     Content := Content i |}.

Lemma field_values_jesc name l : Forall (fun kv => jok_member kv = true) l ->
  field_values name (map (fun kv => (esc_lit kv.1, jesc kv.2)) l) = map jesc (field_values name l).
Proof.
  unfold field_values. induction 1 as [|[k t] l Hk Hl IH]; simpl; [done|].
  apply jok_member_inv in Hk as (Hv & Hu & Ht).
  destruct (EqualFold (unquote k) name) eqn:E.
  - rewrite !filter_cons_True by (simpl; by rewrite ?unquote_esc_lit). simpl. by rewrite IH.
  - rewrite !filter_cons_False by (simpl; rewrite ?unquote_esc_lit by done; by rewrite E). done.
Qed.

Lemma field_values_jok name l : Forall (fun kv => jok_member kv = true) l ->
  Forall (fun t => jok t = true) (field_values name l).
Proof.
  intros H. apply Forall_forall. intros t (k & Hin & _)%field_values_elem.
  rewrite Forall_forall in H. by apply H, jok_member_inv in Hin as (_ & _ & ?).
Qed.

Lemma field_string_jesc name l : Forall (fun kv => jok_member kv = true) l ->
  field_string name (map (fun kv => (esc_lit kv.1, jesc kv.2)) l) = field_string name l.
Proof.
  intros H. unfold field_string. rewrite field_values_jesc by done.
  pose proof (field_values_jok name l H) as Hv. generalize (Some "").
  induction Hv as [|t ts Ht Hts IH]; intros o; simpl; [done|]. rewrite IH. f_equal.
  destruct o; [|done]. simpl. destruct t; try done. simpl.
  apply andb_true_iff in Ht as [? ?]. by rewrite unquote_esc_lit.
Qed.

Lemma extractTextPart_jesc part :
  Forall (fun kv => jok kv.2 = true) part ->
  extractTextPart (map (fun kv => (kv.1, jesc kv.2)) part) = extractTextPart part.
Proof.
  intros H. unfold extractTextPart. rewrite !(am_lookup_map jesc).
  assert (Hs : forall k, string_of <$> (jesc <$> am_lookup k part) = string_of <$> am_lookup k part).
  { intros k. destruct (am_lookup k part) as [t|] eqn:E; [|done]. simpl. f_equal.
    apply string_of_jesc. rewrite Forall_forall in H. apply (H (k, t)).
    clear -E. induction part as [|[k' v] part IH]; simpl in E; [done|].
    case_decide; simplify_eq; set_solver. }
  pose proof (Hs "type") as H1. pose proof (Hs "text") as H2.
  destruct (am_lookup "type" part), (am_lookup "text" part); simpl in *; try done;
    repeat match goal with H : Some _ = Some _ |- _ => injection H as -> end; done.
Qed.

Lemma jok_members l : Forall (fun kv => jok_member kv = true) l -> Forall (fun kv => jok kv.2 = true) l.
Proof. intros H. eapply Forall_impl; [exact H|]. intros [k t] (_ & _ & ?)%jok_member_inv. done. Qed.

Lemma raw_map_jok_all t m : jok t = true -> raw_map t = Some m -> Forall (fun kv => jok kv.2 = true) m.
Proof.
  destruct t as [| | | | |l]; try done; simpl; intros Hok [= <-]; [constructor|].
  apply jok_obj, jok_members in Hok. unfold am_of_list.
  assert (H : Forall (fun kv : string * json => jok kv.2 = true) []) by constructor. revert H.
  generalize (@nil (string * json)). induction Hok as [|[k t] l Ht Hl IH]; intros m Hm; simpl; [done|].
  apply IH, Forall_forall. intros [k' v] [[= -> ->]|Hin]%am_insert_elem; [done|].
  rewrite Forall_forall in Hm. by apply (Hm (k', v)).
Qed.

Lemma raw_map_array_jesc l : Forall (fun t => jok t = true) l ->
  opt_map raw_map (map jesc l) = map (map (fun kv => (kv.1, jesc kv.2))) <$> opt_map raw_map l.
Proof.
  induction 1 as [|t l Ht Hl IH]; simpl; [done|]. rewrite raw_map_jesc, IH by done.
  destruct (raw_map t), (opt_map raw_map l); done.
Qed.

Lemma extractTextParts_jesc o : (forall t, o = Some t -> jok t = true) ->
  extractTextParts (jesc <$> o) = extractTextParts o.
Proof.
  intros H. destruct o as [t|]; [|done]. specialize (H t eq_refl). simpl.
  destruct t as [|b|l|l|l|l]; try done; simpl.
  - apply andb_true_iff in H as [? ?]. by rewrite unquote_esc_lit.
  - apply jok_arr in H. rewrite raw_map_array_jesc by done.
    destruct (opt_map raw_map l) as [ms|] eqn:E; simpl; [|done].
    apply opt_map_Some in E. induction E as [|t m l ms Hm E IH]; [done|].
    inversion H as [|?? Ht Hl]; subst. csimpl.
    rewrite extractTextPart_jesc by (by eapply raw_map_jok_all). by rewrite IH.
Qed.

Lemma last_map {A B} (f : A -> B) l : last (map f l) = f <$> last l.
Proof. induction l as [|x [|y l] IH]; simpl in *; done. Qed.

Lemma last_elem {A} (l : list A) x : last l = Some x -> x ∈ l.
Proof. intros (l' & ->)%last_Some. set_solver. Qed.

(** Decoding sees through the escaping. *)
Lemma UnmarshalJSON_jesc t : jok t = true -> UnmarshalJSON (jesc t) = escaped <$> UnmarshalJSON t.
Proof.
  intros Hok. destruct t as [| | | | |l]; try done. simpl.
  pose proof (jok_obj l Hok) as Hl. rewrite !field_string_jesc by done.
  destruct (field_string "type" l); [|done]. destruct (field_string "role" l); [|done].
  unfold field_raw. rewrite field_values_jesc, last_map, extractTextParts_jesc by
    (done || intros t Ht%last_elem; pose proof (field_values_jok "content" l Hl) as Hf;
             rewrite Forall_forall in Hf; by apply Hf).
  unfold escaped; simpl.
  assert (looksLikeMessageItem (jesc <$> last (field_values "content" l)) s0 =
          looksLikeMessageItem (last (field_values "content" l)) s0) as ->; [|done].
  unfold looksLikeMessageItem. case_decide; [done|].
  by destruct (last (field_values "content" l)) as [[]|].
Qed.

(** ** The metadata round trip *)

Definition meta_ok (m : ItemMeta) : bool :=
  forallb valid_utf8 [Transport m; SyntheticName m; CanonicalType m; ToolName m; ToolNamespace m;
                      MCPServerURL m; MCPConnectorID m; MCPAuthorization m; MCPApproval m;
                      MCPTransport m] &&
  forallb valid_utf8 (MCPToolNames m) &&
  am_sorted (MCPHeaders m) && forallb (fun kv => valid_utf8 kv.1 && valid_utf8 kv.2) (MCPHeaders m).

Lemma field_values_app name l1 l2 :
  field_values name (l1 ++ l2) = field_values name l1 ++ field_values name l2.
Proof. unfold field_values. by rewrite filter_app, map_app. Qed.

Lemma field_values_single name k t :
  field_values name [(k, t)] = if EqualFold (unquote k) name then [t] else [].
Proof.
  unfold field_values. destruct (EqualFold (unquote k) name) eqn:E.
  - by rewrite filter_cons_True.
  - rewrite filter_cons_False; [done|]. simpl. by rewrite E.
Qed.

Lemma field_values_omit name k v : field_values name (omit_string k v) =
  if EqualFold (unquote k) name then (if decide (v = "") then [] else [json_str v]) else [].
Proof.
  unfold omit_string. case_decide; [by destruct (EqualFold _ _)|]. apply field_values_single.
Qed.

Lemma field_values_cond name k t (b : Prop) `{Decision b} :
  field_values name (if decide b then [] else [(k, t)]) =
  if EqualFold (unquote k) name then (if decide b then [] else [t]) else [].
Proof. case_decide; [by destruct (EqualFold _ _)|]. apply field_values_single. Qed.

Lemma field_string_single name l v : valid_utf8 v = true ->
  field_values name l = (if decide (v = "") then [] else [json_str v]) -> field_string name l = Some v.
Proof.
  intros Hv H. unfold field_string. rewrite H. case_decide; subst; [done|]. simpl.
  by rewrite unquote_encode_valid.
Qed.

Lemma field_strings_single name l vs : forallb valid_utf8 vs = true ->
  field_values name l = (if decide (vs = []) then [] else [JArr (map json_str vs)]) ->
  field_strings name l = Some vs.
Proof.
  intros Hv H. unfold field_strings. rewrite H. case_decide; subst; [done|]. simpl.
  apply opt_map_Some. rewrite Forall2_fmap_l. apply Forall_Forall2_diag, Forall_forall.
  intros v Hin. simpl. rewrite unquote_encode_valid; [done|].
  rewrite forallb_forall in Hv. by apply Hv, list_elem_of_In.
Qed.

Lemma foldl_am_insert_nil {V} (m : list (string * V)) : am_sorted m = true ->
  foldl (fun m kv => am_insert kv.1 kv.2 m) [] m = m.
Proof. apply am_of_list_sorted_id. Qed.

Lemma string_map_marshalled m : am_sorted m = true ->
  forallb (fun kv => valid_utf8 kv.1 && valid_utf8 kv.2) m = true ->
  string_map (JObj (map (fun kv => (encode_body kv.1, json_str kv.2)) m)) = Some m.
Proof.
  intros Hs Hv. unfold string_map.
  assert (opt_map (fun kv => v ← string_of kv.2; Some (unquote kv.1, v))
            (map (fun kv => (encode_body kv.1, json_str kv.2)) m) = Some m) as ->.
  { apply opt_map_Some. rewrite Forall2_fmap_l. apply Forall_Forall2_diag, Forall_forall.
    intros [k v] Hin%list_elem_of_In. rewrite forallb_forall in Hv. apply Hv in Hin.
    apply andb_true_iff in Hin as [? ?]. simpl in *. by rewrite !unquote_encode_valid. }
  simpl. by rewrite am_of_list_sorted_id.
Qed.

Lemma field_string_map_single name l m : am_sorted m = true ->
  forallb (fun kv => valid_utf8 kv.1 && valid_utf8 kv.2) m = true ->
  field_values name l =
    (if decide (m = []) then [] else [JObj (map (fun kv => (encode_body kv.1, json_str kv.2)) m)]) ->
  field_string_map name l = Some m.
Proof.
  intros Hs Hv H. unfold field_string_map. rewrite H. case_decide; subst; [done|]. simpl.
  pose proof (string_map_marshalled m Hs Hv) as Hm. simpl in Hm. rewrite Hm. simpl.
  by rewrite foldl_am_insert_nil.
Qed.

(** The members meta_json writes. *)
Definition meta_members (m : ItemMeta) : list (string * json) :=
  match meta_json m with JObj l => l | _ => [] end.

Ltac meta_field :=
  unfold meta_members, meta_json; rewrite !field_values_app, !field_values_omit, !field_values_cond;
  repeat match goal with
         | |- context [EqualFold ?a ?b] =>
             let r := eval vm_compute in (EqualFold a b) in change (EqualFold a b) with r
         end; cbv iota; by rewrite ?app_nil_l, ?app_nil_r.

Lemma meta_round_trip m : meta_ok m = true -> meta_of_members (meta_members m) = Some m.
Proof.
  unfold meta_ok. simpl forallb. rewrite !andb_true_iff. intros Hok. destruct_and! Hok.
  unfold meta_of_members.
  rewrite (field_string_single "transport" _ (Transport m)) by (done || meta_field). simpl.
  rewrite (field_string_single "synthetic_name" _ (SyntheticName m)) by (done || meta_field). simpl.
  rewrite (field_string_single "canonical_type" _ (CanonicalType m)) by (done || meta_field). simpl.
  rewrite (field_string_single "tool_name" _ (ToolName m)) by (done || meta_field). simpl.
  rewrite (field_string_single "tool_namespace" _ (ToolNamespace m)) by (done || meta_field). simpl.
  rewrite (field_string_single "mcp_server_url" _ (MCPServerURL m)) by (done || meta_field). simpl.
  rewrite (field_string_single "mcp_connector_id" _ (MCPConnectorID m)) by (done || meta_field). simpl.
  rewrite (field_string_single "mcp_authorization" _ (MCPAuthorization m)) by (done || meta_field). simpl.
  rewrite (field_string_single "mcp_approval" _ (MCPApproval m)) by (done || meta_field). simpl.
  rewrite (field_string_single "mcp_transport" _ (MCPTransport m)) by (done || meta_field). simpl.
  rewrite (field_strings_single "mcp_tool_names" _ (MCPToolNames m)) by (done || meta_field). simpl.
  rewrite (field_string_map_single "mcp_headers" _ (MCPHeaders m)) by (done || meta_field). simpl.
  by destruct m.
Qed.

(** ** The stored form *)

Definition member_esc (kv : string * json) : string * json := (esc_lit kv.1, jesc kv.2).

Lemma meta_json_members m : meta_json m = JObj (meta_members m).
Proof. done. Qed.

(** Members that json.Marshal wrote: well formed, and unchanged by escaping. *)
Definition marshalled (kv : string * json) : Prop :=
  valid_lit kv.1 && jwf kv.2 = true /\ member_esc kv = kv.

Lemma marshalled_omit k v : valid_lit k = true -> esc_lit k = k ->
  Forall marshalled (omit_string k v).
Proof.
  intros Hk He. unfold omit_string. case_decide; [apply Forall_nil_2|].
  apply Forall_cons_2; [split; simpl|apply Forall_nil_2].
  - by rewrite Hk, encode_body_valid.
  - unfold member_esc; simpl. unfold json_str. by rewrite He, esc_lit_encode.
Qed.

Lemma marshalled_cond k t (b : Prop) `{Decision b} : marshalled (k, t) ->
  Forall marshalled (if decide b then [] else [(k, t)]).
Proof. intros. case_decide; [apply Forall_nil_2|]. by apply Forall_cons_2; [|apply Forall_nil_2]. Qed.

Lemma marshalled_strings k vs : valid_lit k = true -> esc_lit k = k ->
  marshalled (k, JArr (map json_str vs)).
Proof.
  intros Hk He. split; simpl.
  - rewrite Hk. apply forallb_forall. intros t (v & <- & _)%in_map_iff. apply encode_body_valid.
  - unfold member_esc; simpl. rewrite He, map_map. do 2 f_equal. apply map_ext.
    intros v. unfold json_str; simpl. by rewrite esc_lit_encode.
Qed.

Lemma marshalled_map k m : valid_lit k = true -> esc_lit k = k ->
  marshalled (k, JObj (map (fun kv => (encode_body kv.1, json_str kv.2)) m)).
Proof.
  intros Hk He. split; simpl.
  - rewrite Hk. apply forallb_forall. intros t ([a b] & <- & _)%in_map_iff. simpl.
    by rewrite !encode_body_valid.
  - unfold member_esc; simpl. rewrite He, map_map. do 2 f_equal. apply map_ext.
    intros [a b]. unfold json_str; simpl. by rewrite !esc_lit_encode.
Qed.

Lemma meta_members_marshalled m : Forall marshalled (meta_members m).
Proof.
  unfold meta_members, meta_json. rewrite !Forall_app.
  repeat split; try (by apply marshalled_omit); apply marshalled_cond;
    [by apply marshalled_strings | by apply marshalled_map].
Qed.

Lemma marshalled_jwf l : Forall marshalled l -> jwf (JObj l) = true.
Proof.
  intros H. simpl. rewrite forallb_forall. intros kv Hin%list_elem_of_In.
  rewrite Forall_forall in H. by apply H.
Qed.

Lemma marshalled_jesc l : Forall marshalled l -> jesc (JObj l) = JObj l.
Proof.
  intros H. simpl. f_equal. induction H as [|kv l [_ He] Hl IH]; simpl; [done|].
  rewrite IH. f_equal. exact He.
Qed.

Lemma esc_lit_idemp l : valid_utf8 l = true -> esc_lit (esc_lit l) = esc_lit l.
Proof.
  intros Hu. rewrite (esc_lit_text (esc_lit l)), (esc_lit_text l).
  rewrite <-(sapp_nil_r (sconcat (map esc_text (chunks l)))) at 1.
  rewrite chunks_esc by by apply chunks_valid_good.
  change (chunks "") with (@nil chunk). rewrite app_nil_r. unfold esc_chunks.
  induction (chunks l) as [|c cs IH]; [done|]. simpl. rewrite map_app, sconcat_app, IH. f_equal.
  unfold esc_chunk, esc_text at 2. destruct (html_rune (ck_rune c)) eqn:E.
  - by apply html_rune_cases in E as [->|[->|[->|[->| ->]]]].
  - simpl. unfold esc_text. by rewrite E, sapp_nil_r.
Qed.

Lemma jesc_idemp t : jok t = true -> jesc (jesc t) = jesc t.
Proof.
  induction t as [|b|l|l|l IH|l IH] using json_nested_ind; intros Hok; simpl; try done.
  - apply andb_true_iff in Hok as [_ Hu]. by rewrite esc_lit_idemp.
  - apply jok_arr in Hok. f_equal. rewrite map_map. apply map_ext_in. intros t Ht%list_elem_of_In.
    rewrite Forall_forall in IH, Hok. auto.
  - apply jok_obj in Hok. f_equal. rewrite map_map. apply map_ext_in. intros [k t] Ht%list_elem_of_In.
    rewrite Forall_forall in IH, Hok. pose proof (Hok _ Ht) as (_ & Hu & Htok)%jok_member_inv. simpl.
    rewrite esc_lit_idemp by done. f_equal. by apply (IH (k, t)).
Qed.

(** An item that can be stored and read back: decoded from an object of valid
    UTF-8 text, with valid metadata; without metadata the object must not use
    the envelope key itself. *)
Definition storable (i : Item) : Prop :=
  item_inv i /\ (forall t, Raw i = Some t -> jok t = true) /\
  match Meta i with
  | Some m => meta_ok m = true
  | None => RawField i storedItemEnvelopeKey = None
  end.

Lemma escaped_set_meta i m : escaped (set_meta i m) = set_meta (escaped i) m.
Proof. done. Qed.

Lemma set_meta_set_meta i m m' : set_meta (set_meta i m) m' = set_meta i m'.
Proof. done. Qed.

Lemma set_meta_self i : set_meta i (Meta i) = i.
Proof. by destruct i. Qed.

(** Reading an item back from its envelope, or from the bare object. *)
Lemma unmarshal_stored_bare i : storable i -> Meta i = None ->
  unmarshal_stored (MarshalStoredItem i) = Ok i /\
  unmarshal_stored (jesc (MarshalStoredItem i)) = Ok (escaped i).
Proof.
  intros ((l & HR & Hw & HU) & Hok & Hm) HM. rewrite HM in Hm.
  specialize (Hok _ HR). unfold MarshalStoredItem, MarshalJSON. rewrite HR, HM.
  unfold RawField in Hm. rewrite HR in Hm.
  assert (Hn : raw_map (JObj l) ≫= am_lookup storedItemEnvelopeKey = None) by exact Hm.
  split; unfold unmarshal_stored.
  - rewrite Hn. by rewrite HU, set_meta_none.
  - change (jesc (JObj l)) with (JObj (map (fun kv => (esc_lit kv.1, jesc kv.2)) l)) at 1.
    rewrite raw_map_jesc by done. destruct (raw_map (JObj l)) as [m|]; simpl in Hn |- *.
    + rewrite (am_lookup_map jesc), Hn. simpl fmap. change (UnmarshalJSON (jesc (JObj l)) = Ok (escaped i)).
      rewrite UnmarshalJSON_jesc, HU by done. simpl. by rewrite set_meta_none.
    + change (UnmarshalJSON (jesc (JObj l)) = Ok (escaped i)).
      rewrite UnmarshalJSON_jesc, HU by done. simpl. by rewrite set_meta_none.
Qed.

Definition envelope (t : json) (m : ItemMeta) : json :=
  JObj [(storedItemEnvelopeKey, JObj [("item", t); ("meta", meta_json m)])].

Lemma unmarshal_envelope_json t m : meta_ok m = true ->
  unmarshal_stored (envelope t m) = item ← UnmarshalJSON t; Ok (set_meta item (Some m)).
Proof.
  intros Hm. unfold unmarshal_stored, envelope.
  assert (forall t', raw_map (JObj [(storedItemEnvelopeKey, t')])
            ≫= am_lookup storedItemEnvelopeKey = Some t') as -> by done.
  unfold unmarshal_envelope, struct_members.
  assert (forall n a b, field_values n [("item", a); ("meta", b)] =
            field_values n [("item", a)] ++ field_values n [("meta", b)]) as Hfv
    by (intros; apply (field_values_app _ [_] [_])).
  unfold field_meta, field_raw. rewrite !Hfv, !field_values_single.
  change (EqualFold (unquote "item") "meta") with false.
  change (EqualFold (unquote "meta") "meta") with true.
  change (EqualFold (unquote "item") "item") with true.
  change (EqualFold (unquote "meta") "item") with false.
  cbv iota. rewrite app_nil_l, app_nil_r, meta_json_members. simpl last.
  cbv beta iota. by rewrite meta_round_trip.
Qed.

Lemma MarshalStoredItem_envelope i t m : Raw i = Some t -> Meta i = Some m ->
  MarshalStoredItem i = envelope (jesc t) m.
Proof. intros HR HM. unfold MarshalStoredItem, MarshalJSON. by rewrite HR, HM. Qed.

Lemma jesc_envelope t m : jok t = true -> jesc (envelope (jesc t) m) = envelope (jesc t) m.
Proof.
  intros Hok. unfold envelope. cbn [jesc map fst snd].
  rewrite jesc_idemp by done. rewrite (meta_json_members m).
  rewrite marshalled_jesc by apply meta_members_marshalled. done.
Qed.

Lemma envelope_jwf t m : jwf t = true -> jwf (envelope t m) = true.
Proof.
  intros Ht. assert (Hm : jwf (meta_json m) = true)
    by (rewrite meta_json_members; apply marshalled_jwf, meta_members_marshalled).
  unfold envelope. revert Ht Hm. generalize (meta_json m) as u. intros u Ht Hm. simpl.
  by rewrite Ht, Hm.
Qed.

(** Reading the stored form of an item, as written and as escaped once more. *)
Lemma unmarshal_stored_item i : storable i ->
  unmarshal_stored (MarshalStoredItem i) = Ok (match Meta i with Some _ => escaped i | None => i end) /\
  unmarshal_stored (jesc (MarshalStoredItem i)) = Ok (escaped i).
Proof.
  intros Hs. destruct (Meta i) as [m|] eqn:HM; [|by apply unmarshal_stored_bare].
  destruct Hs as ((l & HR & Hw & HU) & Hok & Hm). rewrite HM in Hm. specialize (Hok _ HR).
  rewrite (MarshalStoredItem_envelope i _ m) by done. rewrite jesc_envelope by done.
  rewrite unmarshal_envelope_json, UnmarshalJSON_jesc, HU by done. simpl.
  by rewrite escaped_set_meta, set_meta_set_meta, <-HM.
Qed.

Lemma MarshalStoredItem_obj i : storable i ->
  exists l, MarshalStoredItem i = JObj l /\ jwf (JObj l) = true /\
            jwf (jesc (JObj l)) = true.
Proof.
  intros ((l & HR & Hw & HU) & Hok & Hm). specialize (Hok _ HR).
  destruct (Meta i) as [m|] eqn:HM.
  - rewrite (MarshalStoredItem_envelope i _ m) by done. eexists. split; [done|].
    change (JObj [_]) with (envelope (jesc (JObj l)) m). rewrite jesc_envelope by done.
    by rewrite envelope_jwf by by apply jesc_jwf.
  - unfold MarshalStoredItem, MarshalJSON. rewrite HR, HM. exists l. by rewrite jesc_jwf.
Qed.

(** ** Setting a field *)

Lemma item_inv_map i : item_inv i -> exists m, Map i = Some m /\ gwf_map m = true /\
  field_strings_only "type" m = true /\ field_strings_only "role" m = true.
Proof.
  intros (l & HR & Hw & HU). unfold Map. rewrite HR.
  destruct (any_map (JObj l)) as [o|] eqn:E; [|by exists []].
  unfold any_map in E. destruct (any_of (JObj l)) as [[]|] eqn:Ea; simplify_eq.
  apply UnmarshalJSON_obj in HU as (l' & [= <-] & _ & _ & Ht & Hr).
  eexists. split; [done|]. split; [by apply any_of_gwf in Ea|].
  split; by eapply field_strings_only_any.
Qed.

Lemma field_strings_only_insert name k v m :
  negb (EqualFold k name) || str_or_null_val v = true ->
  field_strings_only name m = true -> field_strings_only name (am_insert k v m) = true.
Proof. intros Hk Hm. by apply am_insert_forallb. Qed.

(** Setting a text field of a decoded item keeps every other field, as the
    value it has in Item.Map. *)
Lemma WithField_spec i m name s :
  item_inv i -> Map i = Some m -> valid_utf8 name = true -> valid_utf8 s = true ->
  exists i', WithField i name (GStr s) = Ok i' /\ item_inv i' /\ Meta i' = Meta i /\
    Raw i' = Some (of_any (GMap (am_insert name (GStr s) m))) /\
    (forall f, RawField i' f = of_any <$> am_lookup f (am_insert name (GStr s) m)) /\
    StringField i' name = TrimSpace s.
Proof.
  intros (m' & Hm' & Hw & Ht & Hr)%item_inv_map Hm Hn Hs. rewrite Hm in Hm'. injection Hm' as <-.
  unfold WithField. rewrite Hm.
  assert (Hw' : gwf_map (am_insert name (GStr s) m) = true) by by apply gwf_map_insert.
  destruct (WithMap_ok i (am_insert name (GStr s) m)) as (i' & HW & HR & HM & Hi);
    [done|by apply field_strings_only_insert; [apply orb_true_r|]..|].
  exists i'. split; [done|]. split; [done|]. split; [done|]. split; [done|]. split.
  - intros f. by apply RawField_marshalled.
  - rewrite (StringField_marshalled i' _ name Hw' HR). by rewrite am_lookup_insert.
Qed.

Lemma StringField_trimmed i name : TrimSpace (StringField i name) = StringField i name.
Proof.
  unfold StringField. destruct (RawField i name); [|done]. destruct (string_of j); [|done].
  apply TrimSpace_idemp.
Qed.

Lemma ID_trimmed i : TrimSpace (ID i) = ID i.
Proof. apply StringField_trimmed. Qed.

Lemma CallID_trimmed i : TrimSpace (CallID i) = CallID i.
Proof. apply StringField_trimmed. Qed.

Section ensure.
Context `{IdLaws}.

(** What giving an item the [n]-th identifier does to it. *)
Definition id_given (n : nat) (i o : Item) : Prop :=
  exists u m, uuid_v7 n = Some u /\ Map i = Some m /\ ID o = "item_" +:+ u /\
    (forall f, f <> "id" -> RawField o f = of_any <$> am_lookup f m).

Lemma ensure_item_id_spec i n : item_inv i -> is_Some (uuid_v7 n) ->
  exists o, ensure_item_id i n = (Ok o, if decide (ID i = "") then S n else n) /\
    item_inv o /\ Meta o = Meta i /\ ID o <> "" /\
    if decide (ID i = "") then id_given n i o else o = i.
Proof.
  intros Hi [u Hu]. unfold ensure_item_id. rewrite !ID_trimmed. destruct (decide (ID i = "")) as [He|Hne].
  - rewrite decide_False by naive_solver. unfold mbind, st_bind, NewPrefixedID. rewrite Hu.
    unfold st_lift, WithID. rewrite !ID_trimmed, He, decide_False by naive_solver.
    destruct (item_inv_map i Hi) as (m & Hm & _).
    destruct (prefixed_id_ok "item" n u eq_refl Hu) as (Hv & Ht & Hnz).
    destruct (WithField_spec i m "id" ("item_" +:+ u) Hi Hm eq_refl Hv)
      as (o & HW & Ho & HM & HR & Hf & Hid).
    exists o. change ("item" +:+ "_" +:+ u) with ("item_" +:+ u) in *. rewrite HW.
    rewrite Ht in Hid. repeat (split; [first [done | unfold ID; by rewrite Hid]|]).
    exists u, m. repeat split; [done..|]. intros f Hne.
    rewrite Hf. by rewrite am_lookup_insert_ne.
  - rewrite decide_True by done. exists i. by repeat split.
Qed.
End ensure.

(** ** Text of a fixed spelling *)

(** A rune whose case folding is the lower case letter [r]. *)
Lemma fold_letter c r : good_or_bad c -> in_rng 97 122 r = true -> r <> 107%N -> r <> 115%N ->
  fold_rune (ck_rune c) = r -> ck_bytes c = char_string (chr r) \/ ck_bytes c = char_string (chr (r - 32)).
Proof.
  intros Hc Hr Hk Hs Hf. rng. unfold fold_rune in Hf.
  destruct Hc as [Hg|(a & -> & _)]; [|change (65533%N = r) in Hf; lia].
  destruct (in_rng 65 90 (ck_rune c)) eqn:E.
  - rng. right. rewrite <-Hf. replace (ck_rune c + 32 - 32)%N with (ck_rune c) by lia.
    eapply good_bytes_ascii; [exact Hg|lia].
  - destruct (ck_rune c =? 383)%N; [lia|]. destruct (ck_rune c =? 8490)%N; [lia|].
    left. rewrite <-Hf. eapply good_bytes_ascii; [exact Hg|lia].
Qed.

(** A tag that sorts after every other key a struct decoder matches with it. *)
Definition folds_last (name : string) : Prop :=
  forall k, EqualFold k name = true -> k = name \/ String.compare k name = Lt.

Definition plain_letter (r : N) : bool :=
  in_rng 97 122 r && negb (r =? 107)%N && negb (r =? 115)%N.

Definition either_case (r : N) (a : ascii) : Prop := a = chr r \/ a = chr (r - 32).

(** The keys that fold to four given letters. *)
Lemma fold_four k a b c d : forallb plain_letter [a; b; c; d] = true ->
  map (fun c => fold_rune (ck_rune c)) (chunks k) = [a; b; c; d] ->
  exists a' b' c' d', k = String a' (String b' (String c' (char_string d'))) /\
    either_case a a' /\ either_case b b' /\ either_case c c' /\ either_case d d'.
Proof.
  intros Hp H. pose proof (chunks_good_or_bad k) as Hg. rewrite <-(unchunks_chunks k).
  destruct (chunks k) as [|c1 [|c2 [|c3 [|c4 [|]]]]]; try done.
  injection H as H1 H2 H3 H4. rewrite !Forall_cons in Hg. destruct Hg as (G1 & G2 & G3 & G4 & _).
  assert (Hc : forall c r, good_or_bad c -> plain_letter r = true -> fold_rune (ck_rune c) = r ->
            exists a, ck_bytes c = char_string a /\ either_case r a).
  { clear. intros c r Hc Hr Hf. unfold plain_letter in Hr.
    rewrite !andb_true_iff, !negb_true_iff, !N.eqb_neq in Hr. destruct Hr as [[? ?] ?].
    destruct (fold_letter c r) as [->| ->]; try done; unfold either_case; eauto. }
  simpl in Hp. rewrite !andb_true_iff in Hp. destruct Hp as (P1 & P2 & P3 & P4 & _).
  destruct (Hc _ _ G1 P1 H1) as (a' & E1 & ?), (Hc _ _ G2 P2 H2) as (b' & E2 & ?),
    (Hc _ _ G3 P3 H3) as (c' & E3 & ?), (Hc _ _ G4 P4 H4) as (d' & E4 & ?).
  exists a', b', c', d'. unfold unchunks; simpl. by rewrite E1, E2, E3, E4.
Qed.

Lemma folds_last_type : folds_last "type".
Proof.
  intros k. unfold EqualFold.
  intros (a & b & c & d & -> & [->| ->] & [->| ->] & [->| ->] & [->| ->])%bool_decide_eq_true%fold_four;
    (done || (left; reflexivity) || (right; reflexivity)).
Qed.

Lemma folds_last_role : folds_last "role".
Proof.
  intros k. unfold EqualFold.
  intros (a & b & c & d & -> & [->| ->] & [->| ->] & [->| ->] & [->| ->])%bool_decide_eq_true%fold_four;
    (done || (left; reflexivity) || (right; reflexivity)).
Qed.

Lemma am_lookup_split {V} k (v : V) m : am_lookup k m = Some v -> exists m1 m2, m = m1 ++ (k, v) :: m2.
Proof.
  induction m as [|[k' v'] m IH]; simpl; [done|]. case_decide; subst.
  - intros [= <-]. by exists [], m.
  - intros (m1 & m2 & ->)%IH. by exists ((k', v') :: m1), m2.
Qed.

Lemma am_sorted_from_tail {V} lo m1 k (v : V) m2 k' v' :
  am_sorted_from lo (am_keys (m1 ++ (k, v) :: m2)) = true -> (k', v') ∈ m2 ->
  String.compare k k' = Lt.
Proof.
  revert lo. induction m1 as [|[k1 v1] m1 IH]; intros lo; simpl.
  - intros [_ Hs]%andb_true_iff. revert k Hs. clear.
    induction m2 as [|[k2 v2] m2 IH]; intros k; simpl; [set_solver|].
    intros [Hk Hs]%andb_true_iff [[= <- <-]|Hin]%elem_of_cons.
    + by destruct (String.compare k k').
    + eapply scompare_lt_trans; [|by apply IH]. by destruct (String.compare k k2).
  - intros [_ Hs]%andb_true_iff. eauto.
Qed.

(** A text field of an item marshalled from a map is the map's entry, even
    when other keys differ from it by case only. *)
Lemma field_string_marshalled name m s : folds_last name -> valid_utf8 name = true ->
  EqualFold name name = true -> gwf_map m = true ->
  forallb str_or_null (field_values name (map (fun kv => (encode_body kv.1, of_any kv.2)) m)) = true ->
  am_lookup name m = Some (GStr s) ->
  field_string name (map (fun kv => (encode_body kv.1, of_any kv.2)) m) = Some s.
Proof.
  intros Hlast Hn Hself Hw Hf Hl.
  apply andb_true_iff in Hw as [Hso Hv]. rewrite forallb_forall in Hv.
  apply am_lookup_split in Hl as (m1 & m2 & ->).
  rewrite map_app in *. simpl map in *. rewrite field_values_app in Hf.
  assert (H2 : field_values name (map (fun kv => (encode_body kv.1, of_any kv.2)) m2) = []).
  { apply elem_of_nil_inv. intros t (k & Hin & Hk)%field_values_elem.
    apply list_elem_of_fmap in Hin as ([k' v'] & [= -> ->] & Hin).
    pose proof (am_sorted_from_tail _ _ _ _ _ _ _ Hso Hin) as Hc.
    assert (Hu : valid_utf8 k' = true).
    { specialize (Hv (k', v')). simpl in Hv. apply andb_true_iff in Hv as [? _]; [done|].
      apply list_elem_of_In. set_solver. }
    rewrite unquote_encode_valid in Hk by done. apply Hlast in Hk as [->|Hk].
    - by rewrite scompare_refl in Hc.
    - apply scompare_lt_gt in Hk. congruence. }
  unfold field_string. rewrite field_values_app.
  rewrite (field_values_app _ [(encode_body name, of_any (GStr s))]
             (map (fun kv => (encode_body kv.1, of_any kv.2)) m2) : field_values _ (_ :: _) = _).
  rewrite H2, field_values_single, unquote_encode_valid, Hself, app_nil_r by done.
  rewrite forallb_app in Hf. apply andb_true_iff in Hf as [Hf _].
  rewrite foldl_app. apply field_string_Some in Hf as [s0 Hf]. unfold field_string in Hf. rewrite Hf.
  simpl. rewrite unquote_encode_valid; [done|]. specialize (Hv (name, GStr s)). simpl in Hv.
  apply andb_true_iff in Hv as [_ ?]; [done|]. apply list_elem_of_In. set_solver.
Qed.

Lemma field_string_type m ty : gwf_map m = true -> field_strings_only "type" m = true ->
  am_lookup "type" m = Some (GStr ty) ->
  field_string "type" (map (fun kv => (encode_body kv.1, of_any kv.2)) m) = Some ty.
Proof.
  intros Hw Hs. apply field_string_marshalled; [apply folds_last_type|done..|].
  by apply field_values_of_any.
Qed.

Lemma UnmarshalJSON_type l i ty : field_string "type" l = Some ty -> TrimSpace ty <> "" ->
  UnmarshalJSON (JObj l) = Ok i -> Type_ i = TrimSpace ty.
Proof.
  intros Ht Hne. simpl. rewrite Ht. destruct (field_string "role" l); [|done].
  intros [= <-]. simpl. by rewrite decide_False.
Qed.
