(* ===== verification/ItemProps.v ===== *)
(** * Properties of items

    The theorems about internal/domain/items.go: what decoding, giving
    identifiers, storing and canonicalizing do to an item. *)

From S2P Require Import Prelude GoStr GoFloat GoJson JsonFacts World Items ItemFacts.

(** ** Canonicalizing one output *)

(** An output that answers a custom tool call. *)
Definition answers_custom (refs : gmap string ToolCallReference) (i : Item) (ref : ToolCallReference) : Prop :=
  refs !! CallID i = Some ref /\ ref_Type ref = "custom_tool_call".

Definition output_meta (i : Item) (ref : ToolCallReference) : option ItemMeta :=
  match ref_Meta ref with
  | None => Meta i
  | Some m => Some (if decide (CanonicalType m = "")
                    then set_canonical_type m "custom_tool_call_output" else m)
  end.

Lemma canonicalize_rewrites refs i ref : item_inv i -> Type_ i = "function_call_output" ->
  answers_custom refs i ref ->
  exists o m, canonicalize_output refs i = Ok o /\ item_inv o /\
    Type_ o = "custom_tool_call_output" /\ Meta o = output_meta i ref /\
    Map i = Some m /\ (forall f, f <> "type" -> RawField o f = of_any <$> am_lookup f m).
Proof.
  intros Hi Hty [Href Hrt]. destruct (item_inv_map i Hi) as (m & Hm & Hw & Ht & Hr).
  unfold canonicalize_output. rewrite decide_False by (rewrite Hty; naive_solver).
  rewrite Href, decide_False by naive_solver. rewrite decide_False by (by rewrite Hty). rewrite Hm.
  set (m' := am_insert "type" (GStr "custom_tool_call_output") m).
  assert (Hw' : gwf_map m' = true) by by apply gwf_map_insert.
  assert (Ht' : field_strings_only "type" m' = true) by by apply field_strings_only_insert.
  destruct (WithMap_ok i m') as (o & HW & HR & HM & Ho);
    [done|done|by apply field_strings_only_insert|].
  assert (HT : Type_ o = "custom_tool_call_output").
  { destruct Ho as (l & HR' & _ & HU). rewrite HR in HR'. injection HR' as <-.
    change (Type_ o) with (Type_ (set_meta o None)).
    apply (UnmarshalJSON_type _ _ "custom_tool_call_output") in HU; [done| |done].
    apply field_string_type; [done|done|]. apply am_lookup_insert. }
  assert (HF : forall f, f <> "type" -> RawField o f = of_any <$> am_lookup f m).
  { intros f Hf. rewrite (RawField_marshalled o m') by done. unfold m'. by rewrite am_lookup_insert_ne. }
  rewrite HW. simpl. unfold output_meta. destruct (ref_Meta ref) as [rm|].
  - eexists _, m. split; [done|]. split; [by apply item_inv_set_meta|]. by repeat split.
  - exists o, m. by repeat split.
Qed.

(** What CanonicalizeToolOutputs owes for one item. *)
Definition canonical_of (refs : gmap string ToolCallReference) (i o : Item) : Prop :=
  match refs !! CallID i with
  | Some ref =>
      if decide (ref_Type ref = "custom_tool_call") then
        if decide (Type_ i = "function_call_output") then
          Type_ o = "custom_tool_call_output" /\ Meta o = output_meta i ref /\
          exists m, Map i = Some m /\
                    forall f, f <> "type" -> RawField o f = of_any <$> am_lookup f m
        else if decide (Type_ i = "custom_tool_call_output") then
          o = set_meta i (match Meta i with Some m => Some m | None => ref_Meta ref end)
        else o = i
      else o = i
  | None => o = i
  end.

Lemma canonicalize_output_spec refs i : item_inv i ->
  exists o, canonicalize_output refs i = Ok o /\ item_inv o /\ canonical_of refs i o.
Proof.
  intros Hi. unfold canonical_of. destruct (refs !! CallID i) as [ref|] eqn:Href.
  2: { exists i. split; [|done]. unfold canonicalize_output. rewrite Href. by case_decide. }
  destruct (decide (ref_Type ref = "custom_tool_call")) as [Hrt|Hrt].
  2: { exists i. split; [|done]. unfold canonicalize_output. rewrite Href. case_decide; [done|]. by rewrite decide_True. }
  destruct (decide (Type_ i = "function_call_output")) as [Hty|Hty].
  { destruct (canonicalize_rewrites refs i ref Hi Hty) as (o & m & ? & ? & ? & ? & ? & ?); [done|].
    exists o. repeat split; eauto. }
  unfold canonicalize_output. rewrite Href.
  destruct (decide (Type_ i = "custom_tool_call_output")) as [Hty'|Hty'].
  - rewrite decide_False by naive_solver. rewrite decide_False by naive_solver.
    destruct (Meta i) as [mi|] eqn:HM.
    + exists i. repeat split; [done|]. rewrite <-HM. by rewrite set_meta_self.
    + destruct (ref_Meta ref) as [mr|]; eexists; repeat split; eauto with shim.
      by rewrite <-HM, set_meta_self.
  - rewrite decide_True by done. by exists i.
Qed.

(** ** Claims *)

(** The item decoded from the object [l]; used by the witnesses. *)
Definition demo_item (raw : string) (meta : option ItemMeta) : Item :=
  match NewItem raw with Ok i => set_meta i meta | _ => zeroItem end.

Definition demo_meta : ItemMeta :=
  {| Transport := "mcp"; SyntheticName := ""; CanonicalType := ""; ToolName := "t<1>";
     ToolNamespace := ""; MCPServerURL := "https://h"; MCPConnectorID := ""; MCPAuthorization := "";
     MCPApproval := ""; MCPTransport := ""; MCPToolNames := ["a"; "b"];
     MCPHeaders := [("X-A", "1"); ("X-B", "2")] |}.

Definition demo_call : Item :=
  demo_item (sq "{'type':'custom_tool_call','call_id':'c1','name':'n','input':'<x>'}") (Some demo_meta).
Definition demo_output : Item :=
  demo_item (sq "{'type':'function_call_output','call_id':'c1','output':'<ok>'}") None.

Ltac demo_inv :=
  eexists; split; [vm_compute; reflexivity | split; vm_compute; reflexivity].

Lemma demo_call_inv : item_inv demo_call.
Proof. demo_inv. Qed.
Lemma demo_output_inv : item_inv demo_output.
Proof. demo_inv. Qed.

(** Fact (round trip): an item decoded from a valid UTF-8 object, with or
    without metadata, reads back from its stored form with the same type,
    role, content and metadata, and the same raw object up to the HTML
    escaping that json.Marshal applies inside the envelope. *)
Theorem stored_item_round_trip i : storable i ->
  UnmarshalStoredItem (jprint (MarshalStoredItem i)) =
    Ok (match Meta i with Some _ => escaped i | None => i end).
Proof.
  intros Hs. destruct (MarshalStoredItem_obj i Hs) as (l & Hl & Hw & _).
  unfold UnmarshalStoredItem. rewrite Hl, TrimSpace_obj, jparse_jprint by done.
  rewrite decide_False by done. rewrite <-Hl. by apply unmarshal_stored_item.
Qed.

Lemma demo_storable_call : storable demo_call.
Proof.
  split; [apply demo_call_inv|]. split; [|by vm_compute].
  intros t Ht. vm_compute in Ht. injection Ht as <-. by vm_compute.
Qed.

Lemma demo_storable_output : storable demo_output.
Proof.
  split; [apply demo_output_inv|]. split; [|by vm_compute].
  intros t Ht. vm_compute in Ht. injection Ht as <-. by vm_compute.
Qed.

Lemma stored_item_round_trip_witness :
  UnmarshalStoredItem (jprint (MarshalStoredItem demo_call)) = Ok (escaped demo_call).
Proof. apply (stored_item_round_trip demo_call). apply demo_storable_call. Defined.

(** C13 (round trip): a list of storable items, written by MarshalStoredItems,
    reads back item by item and in order, up to the HTML escaping of their text.
    An item is storable when it was decoded from an object in valid UTF-8 and its
    metadata is valid; an item without metadata must not use the key of the stored
    envelope itself (see [stored_item_envelope_spoofed] for one that does). *)
Theorem stored_items_round_trip items : Forall storable items ->
  UnmarshalStoredItems (MarshalStoredItems items) = Ok (map escaped items).
Proof.
  intros Hs. unfold UnmarshalStoredItems, MarshalStoredItems.
  rewrite jparse_jprint; simpl.
  - apply res_map_ok_iff. rewrite Forall2_fmap_l, Forall2_fmap_r.
    apply Forall_Forall2_diag. eapply Forall_impl; [exact Hs|].
    intros i Hi. by apply unmarshal_stored_item.
  - rewrite forallb_forall. intros t (i & <- & Hi%list_elem_of_In)%in_map_iff.
    rewrite Forall_forall in Hs. destruct (MarshalStoredItem_obj i) as (l & -> & _ & Hw); [auto|done].
Qed.

Lemma stored_items_round_trip_witness :
  UnmarshalStoredItems (MarshalStoredItems [demo_call; demo_output]) =
    Ok (map escaped [demo_call; demo_output]).
Proof.
  apply (stored_items_round_trip [demo_call; demo_output]).
  repeat apply Forall_cons_2; [apply demo_storable_call|apply demo_storable_output|apply Forall_nil_2].
Defined.

(** Fact (error): an item without metadata whose object uses the envelope key
    is stored as it is and read back as a different item: its content is
    replaced by the object under the key, and it gains metadata. *)
Theorem stored_item_envelope_spoofed :
  let i := demo_item
    (sq "{'role':'user','content':'hi','__llama_shim_item':{'item':{'type':'custom_tool_call','call_id':'x'},'meta':{'transport':'mcp'}}}") None in
  Type_ i = "message" /\ Role i = "user" /\ Meta i = None /\
  exists i', UnmarshalStoredItem (jprint (MarshalStoredItem i)) = Ok i' /\
    Type_ i' = "custom_tool_call" /\ Role i' = "" /\ Transport <$> Meta i' = Some "mcp".
Proof. vm_compute. eauto 10. Qed.

Section ensure_claims.
Context `{IdLaws}.

(** The identifiers given to the items that had none. *)
Definition given_ids (items out : list Item) : list string :=
  omap (fun io => if decide (ID io.1 = "") then Some (ID io.2) else None) (zip items out).

Definition ensured (i o : Item) : Prop :=
  item_inv o /\ Meta o = Meta i /\ ID o <> "" /\
  if decide (ID i = "") then exists k, id_given k i o else o = i.

Lemma EnsureItemIDs_loop items n : Forall item_inv items -> (forall k, is_Some (uuid_v7 k)) ->
  exists out n', EnsureItemIDs items n = (Ok out, n') /\ Forall2 ensured items out /\
    NoDup (given_ids items out) /\
    Forall (fun id => exists k u, n <= k /\ uuid_v7 k = Some u /\ id = "item_" +:+ u) (given_ids items out).
Proof.
  intros Hi Ht. revert n. induction Hi as [|i items Hi Hitems IH]; intros n.
  { exists [], n. repeat constructor. }
  destruct (ensure_item_id_spec i n Hi (Ht n)) as (o & Ho & Hinv & HM & Hid & Hcase).
  destruct (IH (if decide (ID i = "") then S n else n)) as (out & n' & HE & Hall & Hnd & Hf).
  exists (o :: out), n'. unfold EnsureItemIDs in *. simpl.
  unfold mbind at 1, st_bind at 1. rewrite Ho. unfold mbind, st_bind. rewrite HE.
  split; [done|]. unfold given_ids in *. csimpl. revert Hcase Hf. case_decide as He.
  - intros (u & m & Hu & Hm & Hido & Hfld) Hf. split; [|split].
    + constructor; [|done]. repeat split; try done. rewrite decide_True by done.
      exists n, u, m. done.
    + constructor; [|done]. intros Hin. rewrite Forall_forall in Hf.
      apply Hf in Hin as (k & v & Hk & Hv & Heq). rewrite Hido in Heq.
      pose proof (prefixed_id_inj "item" n k u v Hu Hv Heq). lia.
    + constructor; [exists n, u; repeat split; try done; lia|].
      eapply Forall_impl; [exact Hf|]. intros id (k & v & ? & ? & ?). exists k, v. repeat split; try done; lia.
  - intros -> Hf. split; [|done]. constructor; [|done]. repeat split; try done. by rewrite decide_False.
Qed.
End ensure_claims.

(** Fact (functional): as long as identifiers can be drawn, EnsureItemIDs
    succeeds on every list of decoded items; every result has an identifier
    and decodes again, an item that had one is returned as it is, any other
    item keeps its metadata and its fields (as Item.Map reads them), and the
    identifiers it draws are all different. *)
Theorem EnsureItemIDs_complete `{IdLaws} items n :
  Forall item_inv items -> (forall k, is_Some (uuid_v7 k)) ->
  exists out n', EnsureItemIDs items n = (Ok out, n') /\ Forall2 ensured items out /\
    NoDup (given_ids items out).
Proof.
  intros Hi Ht. destruct (EnsureItemIDs_loop items n Hi Ht) as (out & n' & ? & ? & ? & _). eauto 6.
Qed.

Lemma EnsureItemIDs_complete_witness :
  exists out n', @EnsureItemIDs zeros_ids [demo_call; demo_output] 0 = (Ok out, n') /\
    Forall2 (@ensured zeros_ids) [demo_call; demo_output] out /\ NoDup (given_ids [demo_call; demo_output] out).
Proof.
  apply (@EnsureItemIDs_complete zeros_ids zeros_ids_laws).
  - repeat apply Forall_cons_2; [apply demo_call_inv|apply demo_output_inv|apply Forall_nil_2].
  - intros k. by eexists.
Defined.

(** Fact (functional): canonicalizing tool outputs never fails on decoded
    items and changes exactly the outputs that answer a custom tool call: a
    function_call_output becomes a custom_tool_call_output with the call's
    metadata (its canonical type filled in) and its other fields, a
    custom_tool_call_output only gains missing metadata, everything else is
    returned as it is. *)
Theorem CanonicalizeToolOutputs_spec items refs : Forall item_inv items ->
  exists out, CanonicalizeToolOutputs items refs = Ok out /\
    Forall item_inv out /\ Forall2 (canonical_of refs) items out.
Proof.
  intros Hi. unfold CanonicalizeToolOutputs. case_decide as Hd.
  - exists items. split; [done|]. split; [done|]. destruct Hd as [-> | ->]; [constructor|].
    apply Forall_Forall2_diag, Forall_forall. intros i _. unfold canonical_of. by rewrite lookup_empty.
  - clear Hd. induction Hi as [|i items Hi Hitems (out & HE & Ho & Hc)]; [by exists []|].
    destruct (canonicalize_output_spec refs i Hi) as (o & HO & Hinv & Hcan).
    exists (o :: out). simpl. rewrite HO. simpl. rewrite HE. repeat split; by constructor.
Qed.

Lemma CanonicalizeToolOutputs_spec_witness :
  exists out, CanonicalizeToolOutputs [demo_output] (CollectToolCallReferences [demo_call]) = Ok out /\
    Forall item_inv out /\ Forall2 (canonical_of (CollectToolCallReferences [demo_call])) [demo_output] out.
Proof.
  apply (CanonicalizeToolOutputs_spec [demo_output] (CollectToolCallReferences [demo_call])).
  repeat apply Forall_cons_2; [apply demo_output_inv|apply Forall_nil_2].
Defined.

(** The call that [refs[id]] should describe: the last one with that id. *)
Definition last_call (id : string) (items : list Item) : option Item :=
  last (filter (fun i => CallID i = id /\ is_collected_call (Type_ i) = true) items).

(** Fact (functional): the collected references map each non-empty call id to
    the type, name, namespace and metadata of the last function or custom tool
    call with that id, and the empty id to nothing. *)
Theorem CollectToolCallReferences_spec items id :
  CollectToolCallReferences items !! id =
    if decide (id = "") then None
    else (fun i => {| ref_Type := Type_ i; ref_Name := Name i; ref_Namespace := Namespace i;
                      ref_Meta := Meta i |}) <$> last_call id items.
Proof.
  unfold CollectToolCallReferences, last_call.
  induction items as [|i items IH] using rev_ind; [simpl; by case_decide|].
  rewrite foldl_app, filter_app. simpl. unfold collect_ref at 1. rewrite !CallID_trimmed.
  destruct (decide (CallID i = "")) as [He|He].
  { rewrite IH. case_decide; [done|]. rewrite filter_cons_False by (rewrite He; naive_solver).
    by rewrite filter_nil, app_nil_r. }
  destruct (is_collected_call (Type_ i)) eqn:Ec.
  - destruct (decide (CallID i = id)) as [<-|Hne].
    + rewrite lookup_insert_eq, decide_False by done. rewrite filter_cons_True by done.
      rewrite filter_nil, last_snoc. simpl. by destruct (Meta i).
    + rewrite lookup_insert_ne by done. rewrite filter_cons_False by naive_solver.
      by rewrite filter_nil, app_nil_r.
  - rewrite IH. rewrite filter_cons_False by (intros [_ ?]; congruence). by rewrite filter_nil, app_nil_r.
Qed.

(** Fact (error): Item.Map gives the empty map for an object that holds a number
    beyond float64, so giving such an item an identifier drops all the other
    fields it had. *)
Theorem WithID_loses_fields :
  let i := demo_item (sq "{'type':'function_call','call_id':'c9','name':'f','limit':1e999}") None in
  Type_ i = "function_call" /\ CallID i = "c9" /\
  exists o, WithID i "item_1" = Ok o /\ Raw o = Some (JObj [("id", JStr "item_1")]) /\
            Type_ o = "" /\ CallID o = "".
Proof.
  intros i. split; [by vm_compute|]. split; [by vm_compute|].
  eexists. split; [vm_compute; reflexivity|]. by vm_compute.
Qed.
