(* ===== verification/Normalize.v ===== *)
(** * internal/domain/normalize.go and conversation_metadata.go

    How a request's input, a conversation's items and a metadata object become
    the values the shim stores: every shape check, its error, and the item that
    is built when all checks pass. *)

From S2P Require Import Prelude GoStr GoFloat GoJson JsonFacts World Items.

Definition NewValidationError (param message : string) : goerr := EValidation param message.

(** ** Text messages *)

(** [item, _ := NewItem(...)]: an error leaves the zero item. *)
Definition item_or_zero (r : res Item) : Item :=
  match r with Ok i => i | _ => zeroItem end.

Section messages.
Context `{UnicodeTable}.

Definition NewInputTextMessage (role text : string) : Item :=
  item_or_zero (NewItem (sq "{'type':'message','role':" +:+ Quote role +:+
    sq ",'content':[{'type':'input_text','text':" +:+ Quote text +:+ "}]}")).

Definition NewOutputTextMessage (text : string) : Item :=
  item_or_zero (NewItem
    (sq "{'type':'message','status':'completed','role':'assistant','content':[{'type':'output_text','text':"
     +:+ Quote text +:+ sq ",'annotations':[],'logprobs':[]}]}")).
End messages.

Definition CompactJSON (raw : string) : res string :=
  of_option (EDecode "compact") (Compact raw).

Definition MessageText (item : Item) : string :=
  if decide (Type_ item <> "message") then "" else sjoin "" (map tp_Text (Content item)).

(** ** Items *)

(** One part of a content array; [None] when it has no text. *)
Definition content_part (rawPart : list (string * gval)) : option TextPart :=
  let partType := TrimSpace (asString (am_lookup "type" rawPart)) in
  let text := TrimSpace (asString (am_lookup "text" rawPart)) in
  if decide (text <> "") then
    Some {| tp_Type := if decide (partType = "") then "text" else partType; tp_Text := text |}
  else None.

(** The value is marshalled and decoded again by its first character. *)
Definition normalizeMessageContent (value : gval) : res (list TextPart) :=
  match of_any value with
  | JNull => Err (NewValidationError "content" "content is required")
  | JStr l => Ok [{| tp_Type := "input_text"; tp_Text := unquote l |}]
  | JArr l =>
      match any_map_array (JArr l) with
      | None => Err (EWrap "decode content array" (EDecode "content"))
      | Some [] => Err (NewValidationError "content" "content array must not be empty")
      | Some rawParts => Ok (omap content_part rawParts)
      end
  | _ => Err (NewValidationError "content" "unsupported content shape")
  end.

Definition text_of (name : string) (payload : list (string * gval)) : string :=
  TrimSpace (asString (am_lookup name payload)).

Definition has_key (name : string) (payload : list (string * gval)) : bool :=
  match am_lookup name payload with Some _ => true | None => false end.

(** The checks of a message; the payload may gain a role. *)
Definition check_message (source : string) (payload : list (string * gval))
    : res (list (string * gval)) :=
  let role := text_of "role" payload in
  '(role, payload) ←
    (if decide (role = "") then
       if decide (source = "input") then Ok ("user", am_insert "role" (GStr "user") payload)
       else Err (NewValidationError "role" "role is required")
     else Ok (role, payload));
  if is_local_role role then
    match am_lookup "content" payload with
    | None | Some GNull => Err (NewValidationError "content" "content is required")
    | Some content => _ ← normalizeMessageContent content; Ok payload
    end
  else Err (NewValidationError "role" "unsupported role").

(** [named] must be a non-blank text, [present] must be a key. *)
Definition check_call (param itemType named present verb : string)
    (payload : list (string * gval)) : res (list (string * gval)) :=
  if decide (text_of named payload = "") then
    Err (NewValidationError param (itemType +:+ " " +:+ named +:+ " is required"))
  else if has_key present payload then Ok payload
  else Err (NewValidationError param (itemType +:+ " " +:+ present +:+ " " +:+ verb +:+ " required")).

(** The switch over the item's type. *)
Definition check_payload (itemType source param : string) (payload : list (string * gval))
    : res (list (string * gval)) :=
  if decide (itemType = "message") then check_message source payload
  else if decide (itemType = "function_call") then
    check_call param itemType "name" "arguments" "are" payload
  else if decide (itemType = "custom_tool_call") then
    check_call param itemType "name" "input" "is" payload
  else if decide (itemType = "shell_call") then
    check_call param itemType "call_id" "action" "is" payload
  else if decide (itemType = "apply_patch_call") then
    check_call param itemType "call_id" "operation" "is" payload
  else if decide (itemType = "function_call_output" \/ itemType = "custom_tool_call_output") then
    check_call param itemType "call_id" "output" "is" payload
  else if decide (itemType = "shell_call_output") then
    check_call param itemType "call_id" "output" "is" payload
  else if decide (itemType = "apply_patch_call_output") then
    if decide (text_of "call_id" payload = "") then
      Err (NewValidationError param "apply_patch_call_output call_id is required")
    else if decide (text_of "status" payload = "") then
      Err (NewValidationError param "apply_patch_call_output status is required")
    else Ok payload
  else Ok payload.

Definition tool_meta (transport canonical tool namespace : string) : ItemMeta :=
  {| Transport := transport; SyntheticName := ""; CanonicalType := canonical; ToolName := tool;
     ToolNamespace := namespace; MCPServerURL := ""; MCPConnectorID := ""; MCPAuthorization := "";
     MCPApproval := ""; MCPTransport := ""; MCPToolNames := []; MCPHeaders := [] |}.

(** The switch over the built item's type. *)
Definition attach_meta (item : Item) : Item :=
  let ty := Type_ item in
  if decide (ty = "custom_tool_call") then
    set_meta item (Some (tool_meta "passthrough" ty (Name item) (Namespace item)))
  else if decide (ty = "custom_tool_call_output") then
    set_meta item (Some (tool_meta "passthrough" ty "" ""))
  else if decide (ty = "shell_call" \/ ty = "shell_call_output") then
    set_meta item (Some (tool_meta "local_builtin" ty "shell" ""))
  else if decide (ty = "apply_patch_call" \/ ty = "apply_patch_call_output") then
    set_meta item (Some (tool_meta "local_builtin" ty "apply_patch" ""))
  else item.

(** The payload with its type, and that type.  Assigning to the nil map, which
    the JSON value null decodes to, panics. *)
Definition typed_payload (payload : option (list (string * gval)))
    : res (string * list (string * gval)) :=
  match payload with
  | None => Panic
  | Some payload =>
      let itemType := text_of "type" payload in
      if decide (itemType = "") then Ok ("message", am_insert "type" (GStr "message") payload)
      else Ok (itemType, payload)
  end.

Definition normalizeItemObject (raw : json) (source param : string) : res Item :=
  match any_map raw with
  | None => Err (EWrap "decode item" (EDecode "item"))
  | Some payload =>
      '(itemType, payload) ← typed_payload payload;
      payload ← check_payload itemType source param payload;
      item ← NewItem (jprint (of_any (GMap payload)));
      Ok (attach_meta item)
  end.

Definition first_char (s : string) : N := match s with "" => 0%N | String a _ => code a end.

Section input.
Context `{UnicodeTable}.

Definition NormalizeInput (raw : string) : res (list Item) :=
  let trimmed := TrimSpace raw in
  if decide (trimmed = "" \/ trimmed = "null") then
    Err (NewValidationError "input" "input is required")
  else if (first_char trimmed =? 34)%N then
    match jparse trimmed ≫= string_of with
    | None => Err (EWrap "decode string input" (EDecode "input"))
    | Some text => Ok [NewInputTextMessage "user" text]
    end
  else if (first_char trimmed =? 123)%N then
    match jparse trimmed with
    | None => Err (EWrap "decode item" (EDecode "item"))
    | Some t => item ← normalizeItemObject t "input" "input"; Ok [item]
    end
  else if (first_char trimmed =? 91)%N then
    match jparse trimmed ≫= raw_array with
    | None => Err (EWrap "decode array input" (EDecode "input"))
    | Some [] => Err (NewValidationError "input" "input array must not be empty")
    | Some rawItems => res_map (fun t => normalizeItemObject t "input" "input") rawItems
    end
  else Err (NewValidationError "input" "unsupported input shape").
End input.

Definition NormalizeConversationItems (rawItems : list json) : res (list Item) :=
  match rawItems with
  | [] => Err (NewValidationError "items" "items must not be empty")
  | _ => res_map (fun t => normalizeItemObject t "conversation" "items") rawItems
  end.

(** ** Metadata *)

Definition maxMetadataEntries : nat := 16.
Definition maxMetadataKeyLen : nat := 64.
Definition maxMetadataValLen : nat := 512.

(** The loop over the payload, in the order the map is ranged over. *)
Fixpoint metadata_loop (param : string) (kvs : list (string * gval))
    (metadata : list (string * string)) : res (list (string * string)) :=
  match kvs with
  | [] => Ok metadata
  | (key, value) :: kvs =>
      if decide (maxMetadataKeyLen < rune_count key) then
        Err (NewValidationError param "metadata keys must be at most 64 characters")
      else match value with
      | GStr text =>
          if decide (maxMetadataValLen < rune_count text) then
            Err (NewValidationError param "metadata values must be at most 512 characters")
          else metadata_loop param kvs (am_insert key text metadata)
      | _ => Err (NewValidationError param "metadata must be an object with string values")
      end
  end.

Section metadata.
Context `{MapOrder}.

Definition normalizeMetadata (raw param : string) : res (list (string * string)) :=
  let trimmed := TrimSpace raw in
  if decide (trimmed = "" \/ trimmed = "null") then Ok []
  else match jparse trimmed ≫= any_map with
  | None => Err (NewValidationError param "metadata must be an object with string values")
  | Some payload =>
      let payload := default [] payload in
      if decide (maxMetadataEntries < length payload) then
        Err (NewValidationError param "metadata may include at most 16 entries")
      else metadata_loop param (map_order payload) []
  end.

Definition NormalizeConversationMetadata (raw : string) : res (list (string * string)) :=
  normalizeMetadata raw "metadata".
Definition NormalizeResponseMetadata (raw : string) : res (list (string * string)) :=
  normalizeMetadata raw "metadata".

Definition InferResponseMetadataFromRequestJSON (requestJSON : string) : list (string * string) :=
  let trimmed := TrimSpace requestJSON in
  if decide (trimmed = "") then []
  else match jparse trimmed ≫= raw_map with
  | None => []
  | Some payload =>
      match NormalizeResponseMetadata
              (match am_lookup "metadata" payload with Some t => jprint t | None => "" end) with
      | Ok metadata => metadata
      | _ => []
      end
  end.
End metadata.

Definition MarshalConversationMetadata (metadata : list (string * string)) : res string :=
  match metadata with
  | [] => Ok "{}"
  | _ => Ok (jprint (JObj (map (fun kv => (encode_body kv.1, json_str kv.2)) metadata)))
  end.

Definition UnmarshalConversationMetadata (raw : string) : res (list (string * string)) :=
  let trimmed := TrimSpace raw in
  if decide (trimmed = "") then Ok []
  else match jparse trimmed ≫= string_map with
  | None => Err (EWrap "decode conversation metadata" (EDecode "metadata"))
  | Some metadata => Ok metadata
  end.
