(* ===== verification/NormProps.v ===== *)
(** * Properties of normalization

    What a normalized item is guaranteed to have, when normalization fails or
    panics, and the bounds and round trip of metadata. *)

From S2P Require Import Prelude GoStr GoFloat GoJson JsonFacts World Items ItemFacts Normalize.

(** ** Items built from a payload *)

Lemma UnmarshalJSON_no_panic t : UnmarshalJSON t <> Panic.
Proof. unfold UnmarshalJSON. by repeat case_match. Qed.

Lemma NewItem_no_panic s : NewItem s <> Panic.
Proof. unfold NewItem. repeat case_match; try done. apply UnmarshalJSON_no_panic. Qed.

Lemma UnmarshalJSON_role l i r : field_string "role" l = Some r ->
  UnmarshalJSON (JObj l) = Ok i -> Role i = TrimSpace r.
Proof.
  intros Hr. simpl. rewrite Hr. destruct (field_string "type" l); [|done]. by intros [= <-].
Qed.

(** An item decoded from a marshalled payload has the payload's type, role and
    fields. *)
Lemma NewItem_payload m i : gwf_map m = true -> NewItem (jprint (of_any (GMap m))) = Ok i ->
  Raw i = Some (of_any (GMap m)) /\ Meta i = None /\ item_inv i /\
  (text_of "type" m <> "" -> Type_ i = text_of "type" m) /\
  (text_of "role" m <> "" -> Role i = text_of "role" m).
Proof.
  intros Hw H. pose proof (NewItem_item_inv _ _ None H) as Hinv.
  change (of_any (GMap m)) with (JObj (map (fun kv => (encode_body kv.1, of_any kv.2)) m)) in *.
  rewrite NewItem_print in H by (apply (of_any_wf (GMap m))).
  pose proof H as (l & [= <-] & HR & HM & Ht & Hr)%UnmarshalJSON_obj.
  rewrite set_meta_none in Hinv by done.
  assert (Hf : forall name, text_of name m <> "" ->
            exists s, am_lookup name m = Some (GStr s) /\ text_of name m = TrimSpace s).
  { intros name. unfold text_of. destruct (am_lookup name m) as [[]|]; simpl; try done. eauto. }
  repeat (split; [done|]). split.
  - intros Hne. pose proof (Hf _ Hne) as (s & Hs & E). rewrite E in *.
    eapply UnmarshalJSON_type; [|done|done].
    apply field_string_marshalled; [apply folds_last_type|done..].
  - intros (s & Hs & ->)%Hf. eapply UnmarshalJSON_role; [|done].
    apply field_string_marshalled; [apply folds_last_role|done..].
Qed.

Definition has_text (i : Item) (name : string) : bool := negb (bool_decide (StringField i name = "")).
Definition has_field (i : Item) (name : string) : bool :=
  match RawField i name with Some _ => true | None => false end.
Definition has_value (i : Item) (name : string) : bool :=
  match RawField i name with None | Some JNull => false | Some _ => true end.

(** The fields the normalizer requires of an item, by its type. *)
Definition complete (i : Item) : bool :=
  let ty := Type_ i in
  if decide (ty = "message") then is_local_role (Role i) && has_value i "content"
  else if decide (ty = "function_call") then has_text i "name" && has_field i "arguments"
  else if decide (ty = "custom_tool_call") then has_text i "name" && has_field i "input"
  else if decide (ty = "shell_call") then has_text i "call_id" && has_field i "action"
  else if decide (ty = "apply_patch_call") then has_text i "call_id" && has_field i "operation"
  else if decide (ty = "function_call_output" \/ ty = "custom_tool_call_output"
                  \/ ty = "shell_call_output") then has_text i "call_id" && has_field i "output"
  else if decide (ty = "apply_patch_call_output") then has_text i "call_id" && has_text i "status"
  else true.

Lemma has_field_payload i m name : gwf_map m = true -> Raw i = Some (of_any (GMap m)) ->
  has_field i name = has_key name m.
Proof.
  intros Hw HR. unfold has_field, has_key. rewrite (RawField_marshalled i m) by done.
  by destruct (am_lookup name m).
Qed.

Lemma has_text_payload i m name : gwf_map m = true -> Raw i = Some (of_any (GMap m)) ->
  has_text i name = negb (bool_decide (text_of name m = "")).
Proof. intros Hw HR. unfold has_text. by rewrite (StringField_marshalled i m). Qed.

Lemma check_call_ok param ty named present verb p p' :
  check_call param ty named present verb p = Ok p' ->
  p' = p /\ text_of named p <> "" /\ has_key present p = true.
Proof. unfold check_call. case_decide; [done|]. destruct (has_key present p); naive_solver. Qed.

Lemma check_message_ok source p p' : check_message source p = Ok p' -> gwf_map p = true ->
  gwf_map p' = true /\ is_local_role (text_of "role" p') = true /\
  (exists v, am_lookup "content" p' = Some v /\ v <> GNull /\ is_ok (normalizeMessageContent v) = true) /\
  (forall k, k <> "role" -> am_lookup k p' = am_lookup k p) /\
  (text_of "role" p <> "" -> p' = p).
Proof.
  unfold check_message. intros H Hw.
  apply res_bind_ok in H as ([role q] & H1 & H).
  assert (Hq : gwf_map q = true /\ role = text_of "role" q /\
    (forall k, k <> "role" -> am_lookup k q = am_lookup k p) /\ (text_of "role" p <> "" -> q = p)).
  { destruct (decide (text_of "role" p = "")).
    - case_decide; simplify_eq/=. split; [by apply gwf_map_insert|].
      split; [unfold text_of; by rewrite am_lookup_insert|]. split; [|done].
      intros k Hk. by apply am_lookup_insert_ne.
    - by simplify_eq. }
  destruct Hq as (Hwq & -> & Hk & Hp). destruct (is_local_role _) eqn:Hr; [|done].
  destruct (am_lookup "content" q) as [v|] eqn:Hc; [|done].
  assert (Hv : v <> GNull) by (by intros ->).
  assert (H' : (_ ← normalizeMessageContent v; Ok q) = Ok p') by (by destruct v).
  apply res_bind_ok in H' as (parts & Hn & [= <-]). repeat split; try done. exists v. by rewrite Hn.
Qed.

Lemma is_local_role_nonempty r : is_local_role r = true -> r <> "".
Proof. by intros H ->. Qed.

(** The checks keep the type and leave a payload that is complete for it. *)
Lemma check_payload_ok ty source param p p' : check_payload ty source param p = Ok p' ->
  gwf_map p = true ->
  gwf_map p' = true /\ am_lookup "type" p' = am_lookup "type" p /\
  forall i, Raw i = Some (of_any (GMap p')) -> Type_ i = ty ->
    (text_of "role" p' <> "" -> Role i = text_of "role" p') -> complete i = true.
Proof.
  intros H Hw. unfold check_payload in H.
  destruct (decide (ty = "message")) as [->|Hm].
  { pose proof (check_message_ok _ _ _ H Hw) as (Hw' & Hr & (v & Hv & Hnn & _) & Hk & _).
    split; [done|]. split; [by apply Hk|]. intros i HR Hty Hrole. unfold complete. rewrite Hty. simpl.
    rewrite Hrole, Hr by (by apply is_local_role_nonempty). unfold has_value.
    rewrite (RawField_marshalled i p'), Hv by done. by destruct v. }
  assert (Hcall : forall named present verb, check_call param ty named present verb p = Ok p' ->
    p' = p /\ forall i, Raw i = Some (of_any (GMap p')) ->
      has_text i named && has_field i present = true).
  { intros named present verb (-> & Ht & Hk)%check_call_ok. split; [done|]. intros i HR.
    rewrite (has_text_payload i p), (has_field_payload i p), Hk by done.
    by rewrite bool_decide_eq_false_2. }
  unfold complete.
  repeat match type of H with
  | check_call _ _ _ _ _ _ = _ =>
      apply Hcall in H as [-> Hi]; split; [done|]; split; [done|]; intros i HR -> _;
      repeat first [rewrite decide_True by tauto | rewrite decide_False by tauto]; by apply Hi
  | (if decide (ty = ?s) then _ else _) = _ => destruct (decide (ty = s)) as [|]
  | (if decide (ty = ?s \/ ty = ?t) then _ else _) = _ => destruct (decide (ty = s \/ ty = t)) as [|]
  end.
  - destruct (decide (text_of "call_id" p = "")); [done|].
    destruct (decide (text_of "status" p = "")); [done|]. injection H as <-.
    split; [done|]. split; [done|]. intros i HR -> _.
    repeat first [rewrite decide_True by tauto | rewrite decide_False by tauto].
    rewrite !(has_text_payload i p) by done. by rewrite !bool_decide_eq_false_2.
  - injection H as <-. split; [done|]. split; [done|]. intros i HR -> _.
    by repeat rewrite decide_False by tauto.
Qed.

Lemma typed_payload_ok o ty p : typed_payload o = Ok (ty, p) ->
  (forall m, o = Some m -> gwf_map m = true) ->
  gwf_map p = true /\ ty <> "" /\ text_of "type" p = ty.
Proof.
  unfold typed_payload. destruct o as [m|]; [|done]. intros H Hw. specialize (Hw m eq_refl).
  case_decide; simplify_eq; [|done]. split; [by apply gwf_map_insert|]. split; [done|].
  unfold text_of. by rewrite am_lookup_insert.
Qed.

Lemma attach_meta_fields i : Raw (attach_meta i) = Raw i /\ Type_ (attach_meta i) = Type_ i /\
  Role (attach_meta i) = Role i /\ exists m, attach_meta i = set_meta i m.
Proof.
  unfold attach_meta. repeat case_decide; repeat split; eauto. exists (Meta i). by destruct i.
Qed.

Lemma complete_set_meta i m : complete (set_meta i m) = complete i.
Proof. done. Qed.

(** The transport a normalized item of each type is bound to. *)
Definition transport_of (ty : string) : option string :=
  if decide (ty = "custom_tool_call" \/ ty = "custom_tool_call_output") then Some "passthrough"
  else if decide ((ty = "shell_call" \/ ty = "shell_call_output") \/
                  (ty = "apply_patch_call" \/ ty = "apply_patch_call_output")) then Some "local_builtin" else None.

Lemma attach_meta_transport i : Meta i = None ->
  Transport <$> Meta (attach_meta i) = transport_of (Type_ i) /\
  (forall m, Meta (attach_meta i) = Some m -> CanonicalType m = Type_ i).
Proof.
  intros HM. unfold attach_meta, transport_of.
  destruct (decide (Type_ i = "custom_tool_call")).
  { rewrite decide_True by tauto. simpl. split; [done|]. by intros m [= <-]. }
  destruct (decide (Type_ i = "custom_tool_call_output")).
  { rewrite decide_True by tauto. simpl. split; [done|]. by intros m [= <-]. }
  rewrite (decide_False (P := Type_ i = "custom_tool_call" \/ _)) by tauto.
  destruct (decide (Type_ i = "shell_call" \/ Type_ i = "shell_call_output")).
  { rewrite decide_True by tauto. simpl. split; [done|]. by intros m [= <-]. }
  destruct (decide (Type_ i = "apply_patch_call" \/ Type_ i = "apply_patch_call_output")).
  { rewrite decide_True by tauto. simpl. split; [done|]. by intros m [= <-]. }
  rewrite decide_False by tauto. rewrite HM. done.
Qed.

Lemma normalizeItemObject_item_inv raw source param i :
  normalizeItemObject raw source param = Ok i -> item_inv i.
Proof.
  unfold normalizeItemObject. destruct (any_map raw); [|done].
  intros ([ty p] & _ & (p' & _ & (i0 & Hi & [= <-])%res_bind_ok)%res_bind_ok)%res_bind_ok.
  destruct (attach_meta_fields i0) as (_ & _ & _ & m & ->). by eapply NewItem_item_inv.
Qed.

Lemma NormalizeConversationItems_inv raws items :
  NormalizeConversationItems raws = Ok items -> Forall item_inv items /\ length items = length raws.
Proof.
  unfold NormalizeConversationItems. destruct raws as [|t raws]; [done|]. intros H.
  split; [|by eapply res_map_length]. apply res_map_ok_iff in H. apply Forall_forall. intros i Hi.
  apply list_elem_of_lookup in Hi as [k Hk]. destruct (Forall2_lookup_r _ _ _ _ _ H Hk) as (t' & _ & Ht').
  by eapply normalizeItemObject_item_inv.
Qed.

(** C40 (type): whatever normalizeItemObject accepts, for either source, is a
    decoded item with a non-empty type that has every field its type needs
    (role and content of a message, name and arguments of a call, call id and
    output of a result); only tool items that need it carry metadata, bound to
    their own type. *)
Theorem normalizeItemObject_sound raw source param i :
  normalizeItemObject raw source param = Ok i ->
  item_inv i /\ Type_ i <> "" /\ complete i = true /\
  Transport <$> Meta i = transport_of (Type_ i) /\
  (forall m, Meta i = Some m -> CanonicalType m = Type_ i).
Proof.
  unfold normalizeItemObject. destruct (any_map raw) as [o|] eqn:Ho; [|done].
  intros ([ty p] & Hty & H)%res_bind_ok.
  apply typed_payload_ok in Hty as (Hw & Hne & Htp); [|intros m ->; by eapply any_map_gwf].
  apply res_bind_ok in H as (p' & Hc & (i0 & Hi & [= <-])%res_bind_ok).
  apply check_payload_ok in Hc as (Hw' & Ht & Hcomp); [|done].
  apply NewItem_payload in Hi as (HR & HM & Hinv & Hty & Hrole); [|done].
  assert (Htp' : text_of "type" p' = ty) by (unfold text_of in *; by rewrite Ht).
  rewrite Htp' in Hty. specialize (Hty Hne).
  destruct (attach_meta_fields i0) as (_ & HT & _ & m & Em).
  split; [rewrite Em; by apply item_inv_set_meta|]. rewrite HT, Hty. split; [done|].
  split; [rewrite Em, complete_set_meta; by apply Hcomp|].
  rewrite <-Hty. by apply attach_meta_transport.
Qed.

Definition demo_raw : json :=
  JObj [("type", JStr "custom_tool_call"); ("name", JStr "grep"); ("input", JStr "x")].
Definition demo_normalized : Item := item_or_zero (normalizeItemObject demo_raw "input" "input").

Lemma normalizeItemObject_sound_witness :
  item_inv demo_normalized /\ Type_ demo_normalized <> "" /\ complete demo_normalized = true /\
  Transport <$> Meta demo_normalized = transport_of (Type_ demo_normalized) /\
  (forall m, Meta demo_normalized = Some m -> CanonicalType m = Type_ demo_normalized).
Proof. apply (normalizeItemObject_sound demo_raw "input" "input"). vm_compute. reflexivity. Defined.

(** ** When normalization panics *)

Lemma normalizeMessageContent_no_panic v : normalizeMessageContent v <> Panic.
Proof. unfold normalizeMessageContent. by repeat case_match. Qed.

Lemma check_payload_no_panic ty source param p : check_payload ty source param p <> Panic.
Proof.
  unfold check_payload, check_message, check_call.
  repeat case_decide; try done; try (by destruct (has_key _ _)); simpl;
  repeat case_match; try done; simplify_eq/=;
  match goal with
  | |- normalizeMessageContent ?v ≫= _ <> _ =>
      pose proof (normalizeMessageContent_no_panic v); by destruct (normalizeMessageContent v)
  end.
Qed.

(** Fact (error): normalizing one item panics (an assignment to a nil map)
    exactly when the item is the JSON value null. *)
Theorem normalizeItemObject_panics_iff raw source param :
  normalizeItemObject raw source param = Panic <-> raw = JNull.
Proof.
  split; [|by intros ->]. unfold normalizeItemObject. intros H.
  destruct (any_map raw) as [[m|]|] eqn:Ho; [| |done].
  2: { unfold any_map in Ho. destruct raw; try done. by repeat case_match. }
  destruct (typed_payload (Some m)) as [[ty p]| |] eqn:Et; [|done|].
  2: { simpl in Et. by case_decide. }
  simpl in H. pose proof (check_payload_no_panic ty source param p) as Hc.
  destruct (check_payload ty source param p) as [p'| |]; [|done..]. simpl in H.
  pose proof (NewItem_no_panic (jprint (of_any (GMap p')))) as Hn.
  by destruct (NewItem _).
Qed.

(** Fact (error): a request whose input is the array of one null, and
    conversation items holding a null after a valid message, panic instead of
    being rejected with a validation error. *)
Theorem null_items_panic `{UnicodeTable} :
  NormalizeInput "[null]" = Panic /\
  NormalizeConversationItems
    [JObj [("role", JStr "user"); ("content", JStr "hi")]; JNull] = Panic.
Proof. split; by vm_compute. Qed.

(** ** Metadata *)

Definition entry_ok (kv : string * gval) : bool :=
  bool_decide (rune_count kv.1 <= maxMetadataKeyLen) &&
  match kv.2 with GStr text => bool_decide (rune_count text <= maxMetadataValLen) | _ => false end.

Definition entry_text (kv : string * gval) : string * string := (kv.1, asString (Some kv.2)).

Lemma metadata_loop_ok param kvs acc :
  metadata_loop param kvs acc =
    if forallb entry_ok kvs then Ok (foldl (fun m kv => am_insert kv.1 kv.2 m) acc (map entry_text kvs))
    else metadata_loop param kvs acc.
Proof.
  revert acc. induction kvs as [|[k v] kvs IH]; intros acc; simpl; [done|].
  unfold entry_ok at 1. simpl.
  destruct (decide (maxMetadataKeyLen < rune_count k)).
  { by rewrite bool_decide_eq_false_2 by lia. }
  rewrite bool_decide_eq_true_2 by lia. destruct v; try done. simpl.
  destruct (decide (maxMetadataValLen < rune_count s)).
  { by rewrite bool_decide_eq_false_2 by lia. }
  rewrite bool_decide_eq_true_2 by lia. simpl. apply IH.
Qed.

Lemma metadata_loop_err param kvs acc : forallb entry_ok kvs = false ->
  exists msg, metadata_loop param kvs acc = Err (EValidation param msg).
Proof.
  revert acc. induction kvs as [|[k v] kvs IH]; intros acc; simpl; [done|].
  unfold entry_ok at 1. simpl. intros H.
  unfold NewValidationError. destruct (decide (maxMetadataKeyLen < rune_count k)); [eauto|].
  rewrite (bool_decide_eq_true_2 (rune_count k <= maxMetadataKeyLen)) in H by lia.
  destruct v; eauto. destruct (decide (maxMetadataValLen < rune_count s)); [eauto|].
  rewrite (bool_decide_eq_true_2 (rune_count s <= maxMetadataValLen)) in H by lia. by apply IH.
Qed.


(** A metadata object the shim accepts. *)
Definition metadata_fits (payload : list (string * gval)) : bool :=
  bool_decide (length payload <= maxMetadataEntries) && forallb entry_ok payload.

Lemma forallb_perm {A} (p : A -> bool) l1 l2 : l1 ≡ₚ l2 -> forallb p l1 = forallb p l2.
Proof.
  intros Hp. apply eq_true_iff_eq. rewrite !forallb_forall.
  split; intros H x Hx%list_elem_of_In; apply H, list_elem_of_In; by rewrite Hp in *.
Qed.

Lemma map_entry_text_keys m : am_keys (map entry_text m) = am_keys m.
Proof. unfold am_keys. rewrite map_map. by apply map_ext. Qed.

Lemma normalizeMetadata_cases `{MapOrder} raw param :
  (TrimSpace raw = "" \/ TrimSpace raw = "null" -> normalizeMetadata raw param = Ok []) /\
  (TrimSpace raw <> "" -> TrimSpace raw <> "null" ->
   match jparse (TrimSpace raw) ≫= any_map with
   | Some (Some payload) =>
       if metadata_fits payload then normalizeMetadata raw param = Ok (map entry_text payload)
       else exists msg, normalizeMetadata raw param = Err (EValidation param msg)
   | Some None => normalizeMetadata raw param = Ok []
   | None => exists msg, normalizeMetadata raw param = Err (EValidation param msg)
   end).
Proof.
  unfold normalizeMetadata. split; [intros; by rewrite decide_True|]. intros H1 H2.
  rewrite decide_False by tauto.
  destruct (jparse (TrimSpace raw) ≫= any_map) as [[payload|]|] eqn:E; simpl.
  - assert (Hs : am_sorted payload = true).
    { apply bind_Some in E as (t & _ & Ht). apply any_map_gwf in Ht. by apply andb_true_iff in Ht as [? _]. }
    unfold metadata_fits. case_decide as Hlen.
    { rewrite bool_decide_eq_false_2 by lia. simpl. unfold NewValidationError. eauto. }
    rewrite bool_decide_eq_true_2 by lia. simpl.
    rewrite <-(forallb_perm entry_ok _ _ (map_order_perm payload)).
    destruct (forallb entry_ok (map_order payload)) eqn:Hf; [|by apply metadata_loop_err].
    rewrite metadata_loop_ok, Hf. f_equal. change (foldl _ [] ?l) with (am_of_list l).
    apply am_of_list_perm; [unfold am_sorted; by rewrite map_entry_text_keys|].
    apply Permutation_map, map_order_perm.
  - assert (map_order (@nil (string * gval)) = []) as ->; [|done].
    apply Permutation_nil_r, map_order_perm.
  - unfold NewValidationError. eauto.
Qed.

(** Fact (bounds): metadata is accepted exactly when it is absent, or an object
    of at most 16 entries whose keys have at most 64 and whose values are texts
    of at most 512 characters; what is stored is that object, whatever order
    the map is ranged over, and every other value is a validation error. *)
Theorem normalizeMetadata_spec `{MapOrder} raw param :
  (TrimSpace raw = "" \/ TrimSpace raw = "null" -> normalizeMetadata raw param = Ok []) /\
  (TrimSpace raw <> "" -> TrimSpace raw <> "null" ->
   match jparse (TrimSpace raw) ≫= any_map with
   | Some (Some payload) =>
       if metadata_fits payload then normalizeMetadata raw param = Ok (map entry_text payload)
       else exists msg, normalizeMetadata raw param = Err (EValidation param msg)
   | Some None => normalizeMetadata raw param = Ok []
   | None => exists msg, normalizeMetadata raw param = Err (EValidation param msg)
   end).
Proof. apply normalizeMetadata_cases. Qed.

Definition metadata_ok (m : list (string * string)) : bool :=
  am_sorted m && forallb (fun kv => valid_utf8 kv.1 && valid_utf8 kv.2) m.

Lemma MarshalConversationMetadata_print m : MarshalConversationMetadata m =
  Ok (jprint (JObj (map (fun kv => (encode_body kv.1, json_str kv.2)) m))).
Proof. by destruct m. Qed.

Lemma string_members_jwf m :
  jwf (JObj (map (fun kv => (encode_body kv.1, json_str kv.2)) m)) = true.
Proof.
  apply forallb_forall. intros t ([a b] & <- & _)%in_map_iff. simpl. by rewrite !encode_body_valid.
Qed.

(** Fact (round trip): the metadata column is read back as it was written. *)
Theorem metadata_round_trip m : metadata_ok m = true ->
  MarshalConversationMetadata m ≫= UnmarshalConversationMetadata = Ok m.
Proof.
  intros [Hs Hv]%andb_true_iff. rewrite MarshalConversationMetadata_print.
  unfold mbind, res_bind, UnmarshalConversationMetadata.
  rewrite TrimSpace_obj, decide_False by done.
  rewrite jparse_jprint by apply string_members_jwf. unfold mbind, option_bind.
  by rewrite string_map_marshalled.
Qed.

Lemma metadata_round_trip_witness :
  MarshalConversationMetadata [("project", "a<b>"); ("topic", "x")] ≫= UnmarshalConversationMetadata
    = Ok [("project", "a<b>"); ("topic", "x")].
Proof. apply metadata_round_trip. vm_compute. reflexivity. Defined.

Lemma normalizeMetadata_spec_witness :
  @normalizeMetadata reverse_order (sq " {'b':'2','a':'1'}") "metadata" = Ok [("a", "1"); ("b", "2")].
Proof.
  exact (proj2 (@normalizeMetadata_spec reverse_order (sq " {'b':'2','a':'1'}") "metadata")
           ltac:(vm_compute; discriminate) ltac:(vm_compute; discriminate)).
Defined.

(** ** Text messages *)

Section text_messages.
Context `{UnicodeTable}.

(** The runes that strconv.Quote writes the way JSON reads them. *)
Definition quote_safe (c : chunk) : bool :=
  let r := ck_rune c in
  negb (is_bad c) &&
  (IsPrint r || (r =? 8)%N || (r =? 12)%N || (r =? 10)%N || (r =? 13)%N || (r =? 9)%N
   || in_rng 128 65535 r).

Definition json_quotable (s : string) : bool := forallb quote_safe (chunks s).

Lemma good_no_surrogate bs r : good_bytes bs r -> is_surrogate r = false.
Proof.
  intros Hg. apply is_surrogate_false.
  destruct Hg as [a Ha|a b Ha Hb|a b c Ha Hb Hc|a b c d Ha Hb Hc Hd]; rng.
  - lia.
  - apply second_cont in Hb. unfold rune2. lia.
  - unfold second_ok, accept2 in Hb. unfold is_cont in Hc. unfold rune3.
    repeat case_match; simpl in *; rng; lia.
  - unfold second_ok, accept2 in Hb. unfold is_cont in *. unfold rune4.
    repeat case_match; simpl in *; rng; lia.
Qed.

(** A safe rune: valid in a JSON literal, and read back as itself. *)
Lemma quote_chunk_spec c s : good_or_bad c -> quote_safe c = true ->
  valid_lit (quote_chunk c +:+ s) = valid_lit s /\
  unq (chunks (quote_chunk c +:+ s)) = ck_bytes c +:+ unq (chunks s).
Proof.
  intros [Hg|(a & -> & Ha)]; [|done]. unfold quote_safe, quote_chunk.
  rewrite good_not_bad by done. destruct c as [r bs]. unfold good_chunk in Hg. simpl in *. intros Hsafe.
  assert (Hsm : forall n : N, (r =? n)%N = true -> (n < 128)%N -> bs = char_string (chr n)).
  { intros n Hn Hlt. rng. subst. by apply good_bytes_ascii. }
  destruct ((r =? 34)%N || (r =? 92)%N) eqn:E.
  { apply orb_true_iff in E as [E|E]; rewrite (Hsm _ E) by done;
      (split; [done|]); unfold char_string; rewrite !sapp_cons, sapp_nil_l, !chunks_ascii by done;
      done. }
  apply orb_false_iff in E as [E34 E92].
  destruct (IsPrint r) eqn:Ep.
  { assert (32 <= r)%N by (unfold IsPrint in Ep; destruct (r <? 128)%N eqn:E; rng; lia). rng.
    split; [by apply (valid_lit_good bs r)|].
    rewrite (chunks_good bs r) by done. rewrite unq_ascii_cons; [|by apply N.eqb_neq].
    unfold chunk_utf8. by rewrite good_not_bad. }
  simpl in Hsafe. destruct (r =? 7)%N eqn:E7; [rng; by subst|].
  repeat match goal with
  | |- context [if (r =? 11)%N then _ else _] => destruct (r =? 11)%N eqn:?; [rng; by subst|]
  | |- context [if (r =? ?n)%N then _ else _] =>
      destruct (r =? n)%N eqn:?;
      [rewrite (Hsm n) by done; split; [done|by rewrite unq_esc by done]|]
  end.
  simpl in Hsafe. rng. replace (r <? 32)%N with false by (symmetry; apply N.ltb_ge; lia).
  replace (r =? 127)%N with false by (symmetry; apply N.eqb_neq; lia).
  replace (r <? 65536)%N with true by (symmetry; apply N.ltb_lt; lia). cbn [orb].
  change (valid_lit (u_escape r +:+ s) = valid_lit s /\
          unq (chunks (u_escape r +:+ s)) = bs +:+ unq (chunks s)).
  rewrite valid_lit_u_escape, unq_u_escape by (lia || by eapply good_no_surrogate).
  by rewrite (encode_good bs).
Qed.

Lemma quote_body_spec s : json_quotable s = true ->
  valid_lit (quote_body s) = true /\ unquote (quote_body s) = s.
Proof.
  unfold json_quotable, quote_body, unquote. intros Hs.
  rewrite <-(unchunks_chunks s) at 3. unfold unchunks.
  pose proof (chunks_good_or_bad s) as Hg. induction Hg as [|c cs Hc Hcs IH]; simpl in *; [done|].
  apply andb_true_iff in Hs as [Hs1 Hs]. specialize (IH Hs) as [IH1 IH2].
  destruct (quote_chunk_spec c (sconcat (map quote_chunk cs)) Hc Hs1) as [H1 H2].
  by rewrite H1, H2, IH1, IH2.
Qed.

Lemma scan_str_prefix p s : valid_lit p = true ->
  scan_str (p +:+ s) = (fun lr => (p +:+ lr.1, lr.2)) <$> scan_str s.
Proof.
  induction p as [p IH] using string_len_ind. intros Hv.
  destruct p as [|a p]; [rewrite sapp_nil_l; by destruct (scan_str s) as [[]|]|].
  rewrite sapp_cons. simpl in Hv |- *.
  destruct (code a =? 34)%N; [done|]. destruct (code a =? 92)%N.
  - destruct p as [|b p]; [done|]. rewrite sapp_cons. destruct (is_simple_escape b).
    + rewrite IH by (simpl; done || lia). by destruct (scan_str s) as [[]|].
    + destruct (code b =? 117)%N; [|done].
      destruct p as [|h1 [|h2 [|h3 [|h4 p]]]]; try done. rewrite !sapp_cons.
      rewrite !andb_true_iff in Hv. destruct Hv as ((((-> & ->) & ->) & ->) & Hv). simpl.
      rewrite IH by (simpl; done || lia). by destruct (scan_str s) as [[]|].
  - apply andb_true_iff in Hv as [Hn Hv]. rewrite negb_true_iff in Hn. rewrite Hn.
    rewrite IH by (simpl; done || lia). by destruct (scan_str s) as [[]|].
Qed.

(** strconv.Quote writes an escape that JSON does not have. *)
Lemma scan_unsafe_chunk c s : good_or_bad c -> quote_safe c = false ->
  scan_str (quote_chunk c +:+ s) = None.
Proof.
  unfold quote_safe, quote_chunk. intros Hc.
  destruct (is_bad c) eqn:Hb; [by destruct (ck_bytes c)|]. simpl.
  destruct Hc as [Hg|(a & -> & _)]; [|done].
  set (r := ck_rune c) in *. rewrite !orb_false_iff. intros ((((((Hp & E8) & E12) & E10) & E13) & E9) & Er).
  destruct ((r =? 34)%N || (r =? 92)%N) eqn:E.
  { exfalso. unfold IsPrint in Hp. apply orb_true_iff in E as [E|E]; rng; by rewrite E in Hp. }
  rewrite Hp, E8, E12, E10, E13, E9.
  destruct (r =? 7)%N; [done|]. destruct (r =? 11)%N; [done|].
  destruct ((r <? 32)%N || (r =? 127)%N) eqn:Ex; [done|].
  destruct (r <? 65536)%N eqn:Eu; [|done]. exfalso.
  apply orb_false_iff in Ex as [E32 E127]. rng. unfold IsPrint in Hp.
  destruct (r <? 128)%N eqn:E128; rng.
  - rewrite (proj2 (in_rng_spec 32 126 r)) in Hp by lia. done.
  - rewrite (proj2 (in_rng_spec 128 65535 r)) in Er by lia. done.
Qed.

Lemma scan_quote_body s t : json_quotable s = false ->
  scan_str (quote_body s +:+ t) = None.
Proof.
  unfold json_quotable, quote_body. pose proof (chunks_good_or_bad s) as Hg.
  induction Hg as [|c cs Hc Hcs IH]; simpl; [done|].
  rewrite sapp_assoc. destruct (quote_safe c) eqn:Hs; simpl; [|intros _; by apply scan_unsafe_chunk].
  intros Hf. destruct (quote_chunk_spec c "" Hc Hs) as [Hv _]. rewrite sapp_nil_r in Hv.
  rewrite scan_str_prefix by done. by rewrite IH.
Qed.

(** The object both constructors write, with the quoted texts as literals. *)
Definition input_tree (role text : string) : json :=
  JObj [("type", JStr "message"); ("role", JStr (quote_body role));
        ("content", JArr [JObj [("type", JStr "input_text"); ("text", JStr (quote_body text))]])].
Definition output_tree (text : string) : json :=
  JObj [("type", JStr "message"); ("status", JStr "completed"); ("role", JStr "assistant");
        ("content", JArr [JObj [("type", JStr "output_text"); ("text", JStr (quote_body text));
                                ("annotations", JArr []); ("logprobs", JArr [])]])].

Lemma input_text_print role text :
  sq "{'type':'message','role':" +:+ Quote role +:+
    sq ",'content':[{'type':'input_text','text':" +:+ Quote text +:+ "}]}"
  = jprint (input_tree role text).
Proof. unfold Quote, input_tree. simpl. unfold quoted, char_string. by autorewrite with sapp. Qed.

Lemma output_text_print text :
  sq "{'type':'message','status':'completed','role':'assistant','content':[{'type':'output_text','text':"
     +:+ Quote text +:+ sq ",'annotations':[],'logprobs':[]}]}"
  = jprint (output_tree text).
Proof. unfold Quote, output_tree. simpl. unfold quoted, char_string. by autorewrite with sapp. Qed.

(** A message of one text part. *)
Definition text_message (raw : json) (role partType text : string) : Item :=
  {| Raw := Some raw; Meta := None; Type_ := "message"; Role := TrimSpace role;
     Content := if decide (text = "") then [] else [{| tp_Type := partType; tp_Text := text |}] |}.

Lemma UnmarshalJSON_input_tree role text : json_quotable role = true -> json_quotable text = true ->
  UnmarshalJSON (input_tree role text) = Ok (text_message (input_tree role text) role "input_text" text).
Proof.
  intros [_ Hr]%quote_body_spec [_ Ht]%quote_body_spec. unfold UnmarshalJSON, input_tree, struct_members.
  unfold field_string, field_raw. generalize dependent (quote_body role); intros qr Hr.
  generalize dependent (quote_body text); intros qt Ht.
  change (field_values "type" _) with [JStr "message"].
  change (field_values "role" _) with [JStr qr].
  change (field_values "content" _)
    with [JArr [JObj [("type", JStr "input_text"); ("text", JStr qt)]]].
  cbn [foldl mbind option_bind]. rewrite Hr. unfold text_message. do 2 f_equal.
  cbn [last extractTextParts raw_map_array opt_map mbind option_bind raw_map].
  change (am_of_list _) with [("text", JStr qt); ("type", JStr "input_text")].
  cbn [omap list_omap]. unfold extractTextPart.
  change (am_lookup "text" _) with (Some (JStr qt)).
  change (am_lookup "type" _) with (Some (JStr "input_text")).
  cbn [string_of]. rewrite Ht. by case_decide.
Qed.

Lemma UnmarshalJSON_output_tree text : json_quotable text = true ->
  UnmarshalJSON (output_tree text) = Ok (text_message (output_tree text) "assistant" "output_text" text).
Proof.
  intros [_ Ht]%quote_body_spec. unfold UnmarshalJSON, output_tree, struct_members.
  unfold field_string, field_raw. generalize dependent (quote_body text); intros qt Ht.
  change (field_values "type" _) with [JStr "message"].
  change (field_values "role" _) with [JStr "assistant"].
  change (field_values "content" _)
    with [JArr [JObj [("type", JStr "output_text"); ("text", JStr qt);
                      ("annotations", JArr []); ("logprobs", JArr [])]]].
  cbn [foldl mbind option_bind]. unfold text_message. do 2 f_equal.
  cbn [last extractTextParts raw_map_array opt_map mbind option_bind raw_map].
  change (am_of_list _) with [("annotations", JArr []); ("logprobs", JArr []);
                              ("text", JStr qt); ("type", JStr "output_text")].
  cbn [omap list_omap]. unfold extractTextPart.
  change (am_lookup "text" _) with (Some (JStr qt)).
  change (am_lookup "type" _) with (Some (JStr "output_text")).
  cbn [string_of]. rewrite Ht. by case_decide.
Qed.

(** *** Documents that cannot be parsed *)

Lemma parse_str_none n s : scan_str s = None -> parse_value (S n) (String dquote s) = None.
Proof. intros Hs. cbn [parse_value]. simpl skip_ws. cbn. by rewrite Hs. Qed.

Lemma parse_members_key n k s : valid_lit k = true ->
  parse_members (S n) (quoted k +:+ ":" +:+ s) =
    '(v, r) ← parse_value n s;
    match skip_ws r with
    | String c r =>
        if is_char 44 c then '(l, r) ← parse_members n r; Some ((k, v) :: l, r)
        else if is_char 125 c then Some ([(k, v)], r) else None
    | "" => None
    end.
Proof.
  intros Hk. unfold quoted, char_string. rewrite sapp_cons. cbn [parse_members].
  rewrite skip_ws_solid by done. change (is_char 34 dquote) with true. cbv iota.
  rewrite !sapp_assoc, !sapp_cons, sapp_nil_l. rewrite scan_str_valid by done.
  cbn [mbind option_bind]. by rewrite skip_ws_solid.
Qed.

Lemma parse_members_skip n k v s : valid_lit k = true -> jwf v = true -> jfuel v <= n ->
  parse_members n s = None ->
  parse_members (S n) (quoted k +:+ ":" +:+ jprint v +:+ "," +:+ s) = None.
Proof.
  intros Hk Hv Hn Hs. rewrite parse_members_key by done.
  rewrite (parse_print_value v Hv n) by done. cbn [mbind option_bind].
  change ("," +:+ s) with (String "," s). rewrite skip_ws_solid by done.
  change (is_char 44 ",") with true. cbv iota. by rewrite Hs.
Qed.

Lemma parse_members_bad n k s : valid_lit k = true -> parse_value n s = None ->
  parse_members (S n) (quoted k +:+ ":" +:+ s) = None.
Proof. intros Hk Hs. rewrite parse_members_key by done. by rewrite Hs. Qed.

Lemma parse_obj_none n k s : parse_members n (quoted k +:+ s) = None ->
  parse_value (S n) ("{" +:+ quoted k +:+ s) = None.
Proof.
  intros Hs. change ("{" +:+ ?x) with (String "{" x). cbn [parse_value].
  rewrite skip_ws_solid by done. change (is_char 34 "{") with false. cbv iota.
  change (is_char 91 "{") with false. change (is_char 123 "{") with true. cbv iota.
  unfold quoted in *. rewrite sapp_cons in *. rewrite skip_ws_solid by done.
  change (is_char 125 dquote) with false. cbv iota. by rewrite Hs.
Qed.

Lemma parse_arr_none n s : parse_value n ("{" +:+ s) = None ->
  parse_value (S (S n)) ("[" +:+ "{" +:+ s) = None.
Proof.
  intros Hs. change ("[" +:+ ?x) with (String "[" x). cbn [parse_value].
  rewrite skip_ws_solid by done. change (is_char 34 "[") with false. cbv iota.
  change (is_char 91 "[") with true. cbv iota. change ("{" +:+ s) with (String "{" s) in *.
  rewrite skip_ws_solid by done. change (is_char 93 "{") with false. cbv iota.
  cbn [parse_elems]. by rewrite Hs.
Qed.

Lemma is_local_role_cases r : is_local_role r = true ->
  r = "system" \/ r = "developer" \/ r = "user" \/ r = "assistant".
Proof. unfold is_local_role. rewrite !orb_true_iff, !bool_decide_eq_true. tauto. Qed.

(** A text that is not quotable leaves the document unparsable, whatever follows. *)
Lemma parse_content_none n ty text t : valid_lit ty = true -> json_quotable text = false ->
  parse_value (6 + n) ("[" +:+ "{" +:+ quoted "type" +:+ ":" +:+ jprint (JStr ty) +:+ "," +:+
    quoted "text" +:+ ":" +:+ String dquote (quote_body text +:+ t)) = None.
Proof.
  intros Hty Hq. apply parse_arr_none, parse_obj_none, parse_members_skip; [done..|simpl; lia|].
  apply parse_members_bad; [done|]. apply parse_str_none. by apply scan_quote_body.
Qed.

Lemma parse_output_none n text t : json_quotable text = false ->
  parse_value (11 + n) ("{" +:+ quoted "type" +:+ ":" +:+ jprint (JStr "message") +:+ "," +:+
    quoted "status" +:+ ":" +:+ jprint (JStr "completed") +:+ "," +:+
    quoted "role" +:+ ":" +:+ jprint (JStr "assistant") +:+ "," +:+
    quoted "content" +:+ ":" +:+ "[" +:+ "{" +:+ quoted "type" +:+ ":" +:+ jprint (JStr "output_text")
    +:+ "," +:+ quoted "text" +:+ ":" +:+ String dquote (quote_body text +:+ t)) = None.
Proof.
  intros Hq. apply parse_obj_none.
  do 3 (apply parse_members_skip; [done|done|simpl; lia|]).
  apply parse_members_bad; [done|]. by apply (parse_content_none n).
Qed.

Lemma parse_input_none n role text t : json_quotable role = true -> json_quotable text = false ->
  parse_value (10 + n) ("{" +:+ quoted "type" +:+ ":" +:+ jprint (JStr "message") +:+ "," +:+
    quoted "role" +:+ ":" +:+ jprint (JStr (quote_body role)) +:+ "," +:+
    quoted "content" +:+ ":" +:+ "[" +:+ "{" +:+ quoted "type" +:+ ":" +:+ jprint (JStr "input_text")
    +:+ "," +:+ quoted "text" +:+ ":" +:+ String dquote (quote_body text +:+ t)) = None.
Proof.
  intros [Hr _]%quote_body_spec Hq. apply parse_obj_none.
  apply parse_members_skip; [done|done|simpl; lia|].
  apply parse_members_skip; [done|done|simpl; lia|].
  apply parse_members_bad; [done|]. by apply (parse_content_none n).
Qed.

Lemma jparse_none_item k s : TrimSpace s = s -> k <= String.length s ->
  (forall n, parse_value (k + n) s = None) -> item_or_zero (NewItem s) = zeroItem.
Proof.
  intros Ht Hk Hp. unfold NewItem. rewrite Ht. case_decide; [done|]. unfold jparse, parse_fuel.
  replace (S (2 * String.length s)) with (k + (S (2 * String.length s) - k)) by lia. by rewrite Hp.
Qed.

Lemma is_local_role_quotable r : is_local_role r = true -> json_quotable r = true.
Proof. by intros [->|[->|[->| ->]]]%is_local_role_cases. Qed.

Lemma input_tree_spec role text : json_quotable role = true ->
  NewInputTextMessage role text =
    if json_quotable text then text_message (input_tree role text) role "input_text" text else zeroItem.
Proof.
  intros Hr. unfold NewInputTextMessage. rewrite input_text_print.
  destruct (json_quotable text) eqn:Hq.
  - pose proof (UnmarshalJSON_input_tree role text Hr Hq) as HU.
    apply quote_body_spec in Hr as [Hv1 _], Hq as [Hv2 _]. unfold input_tree at 1.
    rewrite NewItem_print.
    + fold (input_tree role text). by rewrite HU.
    + simpl. by rewrite Hv1, Hv2.
  - apply (jparse_none_item 10); [apply TrimSpace_obj|simpl; lia|]. intros n.
    rewrite <-(parse_input_none n role text (char_string dquote +:+ "}]}") Hr Hq). f_equal.
    unfold input_tree. simpl. unfold quoted, char_string. by autorewrite with sapp.
Qed.
End text_messages.

(** Fact (functional): a text message (for a role that is plain text) is the
    message the caller asked for exactly when every rune of its text is
    printable, one of the five control characters JSON can abbreviate, or
    below U+10000; any other text (an escape character, an invalid byte, a
    non-printable astral rune) silently gives the zero item, because the text
    is quoted with Go syntax and the decoding error is dropped. *)
Theorem NewInputTextMessage_spec `{UnicodeTable} role text : json_quotable role = true ->
  NewInputTextMessage role text =
    if json_quotable text then text_message (input_tree role text) role "input_text" text else zeroItem.
Proof. apply input_tree_spec. Qed.

Definition ascii_only : UnicodeTable := {| uni_print r := false |}.

Lemma NewInputTextMessage_spec_witness :
  @NewInputTextMessage ascii_only "user" (sq "say 'hi'") =
    @text_message (@input_tree ascii_only "user" (sq "say 'hi'")) "user" "input_text" (sq "say 'hi'").
Proof. exact (@NewInputTextMessage_spec ascii_only "user" (sq "say 'hi'") eq_refl). Defined.

(** Fact (functional): the same for the assistant messages the shim builds from
    generated text: output with a terminal escape sequence or an invalid byte
    is replaced by an item with no type, role or content. *)
Theorem NewOutputTextMessage_spec `{UnicodeTable} text :
  NewOutputTextMessage text =
    if json_quotable text then text_message (output_tree text) "assistant" "output_text" text
    else zeroItem.
Proof.
  unfold NewOutputTextMessage. rewrite output_text_print. destruct (json_quotable text) eqn:Hq.
  - pose proof (UnmarshalJSON_output_tree text Hq) as HU.
    apply quote_body_spec in Hq as [Hv _]. unfold output_tree at 1. rewrite NewItem_print.
    + fold (output_tree text). by rewrite HU.
    + simpl. by rewrite Hv.
  - apply (jparse_none_item 11); [apply TrimSpace_obj|simpl; lia|]. intros n.
    rewrite <-(parse_output_none n text (char_string dquote +:+ sq ",'annotations':[],'logprobs':[]}]}") Hq).
    f_equal. unfold output_tree. simpl. unfold quoted, char_string. by autorewrite with sapp.
Qed.

(** Fact (error): items of an unknown type are said to be preserved losslessly,
    but their numbers pass through float64: 2^53 + 1 is stored as 2^53. *)
Theorem unknown_items_not_lossless :
  let raw := JObj [("type", JStr "mystery"); ("n", JNum "9007199254740993")] in
  exists i, normalizeItemObject raw "input" "input" = Ok i /\ Type_ i = "mystery" /\
            RawField i "n" = Some (JNum "9007199254740992").
Proof. intros raw. eexists. split; [vm_compute; reflexivity|]. by vm_compute. Qed.
