(* ===== verification/Context.v ===== *)
(** * internal/domain: models.go, context_builder.go, local_generation.go,
      conversation_items.go

    The records that responses and conversations are made of, and how the
    items of earlier turns are put in front of the current request. *)

From S2P Require Import Prelude GoStr GoFloat GoJson JsonFacts World Items Normalize.

(** ** Records *)

Record StoredResponse := {
  sr_ID : string;
  sr_Model : string;
  sr_RequestJSON : string;
  sr_ResponseJSON : string;
  sr_NormalizedInputItems : list Item;
  sr_EffectiveInputItems : list Item;
  sr_Output : list Item;
  sr_OutputText : string;
  sr_PreviousResponseID : string;
  sr_ConversationID : string;
  sr_Store : bool;
  sr_CreatedAt : string;
  sr_CompletedAt : string
}.

Record ResponseReplayArtifact := {
  ra_ResponseID : string;
  ra_Sequence : Z;
  ra_EventType : string;
  ra_PayloadJSON : string
}.

Record Conversation := {
  cv_ID : string;
  cv_Object : string;
  cv_Metadata : list (string * string);
  cv_Items : list Item;
  cv_Version : Z;
  cv_CreatedAt : string;
  cv_UpdatedAt : string
}.

Record ConversationItem := {
  ci_ID : string;
  ci_ConversationID : string;
  ci_Seq : Z;
  ci_Source : string;
  ci_Role : string;
  ci_ItemType : string;
  ci_Item : Item;
  ci_CreatedAt : string
}.

Definition ConversationItemOrderAsc : string := "asc".
Definition ConversationItemOrderDesc : string := "desc".

Record ListConversationItemsQuery := {
  lq_ConversationID : string;
  lq_After : string;
  lq_Limit : Z;
  lq_Order : string
}.

Record ConversationItemPage := {
  pg_Items : list ConversationItem;
  pg_HasMore : bool
}.

(** ** Building the context of a request *)

Section context.
Context `{UnicodeTable}.

Definition AppendCurrentRequestContext (base : list Item) (instructions : string)
    (currentInput : list Item) : list Item :=
  base ++ (if decide (instructions = "") then [] else [NewInputTextMessage "system" instructions])
       ++ currentInput.

Definition empty_output_error (id : string) : goerr :=
  EMsg ("response " +:+ id +:+ " has empty output").

(** The loop over the lineage. *)
Fixpoint lineage_items (lineage : list StoredResponse) : res (list Item) :=
  match lineage with
  | [] => Ok []
  | response :: lineage =>
      if decide (sr_Output response = []) then Err (empty_output_error (sr_ID response))
      else rest ← lineage_items lineage;
           Ok (sr_NormalizedInputItems response ++ sr_Output response ++ rest)
  end.

Definition BuildLineageContext (lineage : list StoredResponse) (instructions : string)
    (currentInput : list Item) : res (list Item) :=
  contextItems ← lineage_items lineage;
  Ok (AppendCurrentRequestContext contextItems instructions currentInput).

Definition BuildConversationContext (items : list ConversationItem) (instructions : string)
    (currentInput : list Item) : list Item :=
  AppendCurrentRequestContext (map ci_Item items) instructions currentInput.
End context.

Definition AssistantOutputItem (response : StoredResponse) : res Item :=
  match sr_Output response with
  | [] => Err (empty_output_error (sr_ID response))
  | item :: _ => Ok item
  end.

(** The rows of one source, numbered from [seq]. *)
Fixpoint number_items (source : string) (seq : Z) (items : list Item) : list ConversationItem :=
  match items with
  | [] => []
  | item :: items =>
      {| ci_ID := ""; ci_ConversationID := ""; ci_Seq := seq; ci_Source := source;
         ci_Role := Role item; ci_ItemType := Type_ item; ci_Item := item; ci_CreatedAt := "" |}
      :: number_items source (seq + 1) items
  end.

Definition BuildConversationAppendItems (startSeq : Z) (input output : list Item)
    : list ConversationItem :=
  number_items "response_input" startSeq input ++
  number_items "response_output" (startSeq + Z.of_nat (length input)) output.

Fixpoint ProjectLocalTextGenerationContext (items : list Item) : res (list Item) :=
  match items with
  | [] => Ok []
  | item :: items =>
      if decide (Type_ item <> "message") then ProjectLocalTextGenerationContext items
      else if HasNonTextMessageContent item then Err EUnsupportedShape
      else if is_local_role (Role item) then
        out ← ProjectLocalTextGenerationContext items; Ok (item :: out)
      else Err EUnsupportedShape
  end.

(** ** Properties *)

Lemma number_items_lookup source seq items i :
  number_items source seq items !! i =
    (fun item => {| ci_ID := ""; ci_ConversationID := ""; ci_Seq := seq + Z.of_nat i;
                    ci_Source := source; ci_Role := Role item; ci_ItemType := Type_ item;
                    ci_Item := item; ci_CreatedAt := "" |}) <$> items !! i.
Proof.
  revert seq i. induction items as [|item items IH]; intros seq [|i]; simpl; try done.
  - by rewrite Z.add_0_r.
  - rewrite IH. by replace (seq + 1 + Z.of_nat i)%Z with (seq + Z.of_nat (S i))%Z by lia.
Qed.

Lemma number_items_length source seq items : length (number_items source seq items) = length items.
Proof. revert seq. induction items as [|item items IH]; intros seq; simpl; auto. Qed.

Lemma number_items_seqs source seq items :
  map ci_Seq (number_items source seq items) = map (fun i => seq + Z.of_nat i)%Z (List.seq 0 (length items)).
Proof.
  revert seq. induction items as [|item items IH]; intros seq; simpl; [done|].
  rewrite Z.add_0_r, IH, <-seq_shift, map_map. f_equal. apply map_ext. intros i. lia.
Qed.

(** Fact (functional): the rows a response appends to its conversation are its
    input items and then its output items, in order, numbered without gaps from
    the next free sequence number and marked with where they come from. *)
Theorem BuildConversationAppendItems_spec startSeq input output :
  let rows := BuildConversationAppendItems startSeq input output in
  map ci_Item rows = input ++ output /\
  map ci_Seq rows = map (fun i => startSeq + Z.of_nat i)%Z (List.seq 0 (length (input ++ output))) /\
  map ci_Source rows = repeat "response_input" (length input) ++ repeat "response_output" (length output).
Proof.
  assert (Hi : forall source seq items, map ci_Item (number_items source seq items) = items).
  { intros source seq items. revert seq. induction items as [|i items IH]; intros seq; simpl; [done|].
    by rewrite IH. }
  assert (Hs : forall source seq items,
    map ci_Source (number_items source seq items) = repeat source (length items)).
  { intros source seq items. revert seq. induction items as [|i items IH]; intros seq; simpl; [done|].
    by rewrite IH. }
  simpl. unfold BuildConversationAppendItems. rewrite !map_app, !Hi, !Hs, !number_items_seqs.
  split; [done|]. split; [|done]. rewrite length_app, seq_app, map_app. f_equal.
  pose proof (fmap_add_seq (length input) 0 (length output)) as E. rewrite Nat.add_0_r in E.
  simpl. rewrite <-E. change (fmap ?f ?l) with (map f l). rewrite map_map.
  apply map_ext. intros i. lia.
Qed.

Lemma lineage_items_ok lineage : Forall (fun r => sr_Output r <> []) lineage ->
  lineage_items lineage = Ok (flat_map (fun r => sr_NormalizedInputItems r ++ sr_Output r) lineage).
Proof.
  induction 1 as [|r lineage Hr Hl IH]; simpl; [done|].
  rewrite decide_False by done. rewrite IH. simpl. by rewrite app_assoc.
Qed.

Lemma lineage_items_err lineage r : Forall (fun r => sr_Output r <> []) lineage ->
  sr_Output r = [] -> forall rest,
  lineage_items (lineage ++ r :: rest) = Err (empty_output_error (sr_ID r)).
Proof.
  intros H Hr rest. induction H as [|r' lineage Hr' Hl IH]; simpl.
  - by rewrite decide_True.
  - rewrite decide_False by done. by rewrite IH.
Qed.

(** The first response without output. *)
Lemma first_without_output lineage :
  Forall (fun r => sr_Output r <> []) lineage \/
  exists before r after, lineage = before ++ r :: after /\ sr_Output r = [] /\
    Forall (fun r => sr_Output r <> []) before.
Proof.
  induction lineage as [|r lineage [IH|(b & r' & a & -> & Hr & Hb)]]; [by left| |].
  - destruct (sr_Output r) eqn:E; [right; by exists [], r, lineage|left]. constructor; [congruence|done].
  - right. destruct (sr_Output r) eqn:E; [by exists [], r, (b ++ r' :: a)|].
    exists (r :: b), r', a. split; [done|]. split; [done|]. constructor; [congruence|done].
Qed.

(** Fact (functional): the context of a request with previous responses is, for
    each of them from the oldest on, its input and then its output items; then
    the current instructions (as one system message, only when there are any);
    then the current input.  A previous response without output is an error
    naming the first such response. *)
Theorem BuildLineageContext_spec `{UnicodeTable} lineage instructions currentInput :
  (Forall (fun r => sr_Output r <> []) lineage /\
   BuildLineageContext lineage instructions currentInput =
     Ok (flat_map (fun r => sr_NormalizedInputItems r ++ sr_Output r) lineage ++
         (if decide (instructions = "") then [] else [NewInputTextMessage "system" instructions]) ++
         currentInput)) \/
  (exists before r after, lineage = before ++ r :: after /\ sr_Output r = [] /\
     Forall (fun r => sr_Output r <> []) before /\
     BuildLineageContext lineage instructions currentInput =
       Err (EMsg ("response " +:+ sr_ID r +:+ " has empty output"))).
Proof.
  unfold BuildLineageContext.
  destruct (first_without_output lineage) as [Hall|(b & r & a & -> & Hr & Hb)].
  - left. by rewrite lineage_items_ok.
  - right. exists b, r, a. repeat split; try done. by rewrite lineage_items_err.
Qed.

(** Fact (functional): the local generation context keeps exactly the messages,
    in order, and fails as soon as one of them has a role or content the local
    backend cannot render. *)
Theorem ProjectLocalTextGenerationContext_spec items :
  let messages := filter (fun i => Type_ i = "message") items in
  ProjectLocalTextGenerationContext items =
    if forallb (fun i => negb (HasNonTextMessageContent i) && is_local_role (Role i)) messages
    then Ok messages else Err EUnsupportedShape.
Proof.
  simpl. induction items as [|i items IH]; simpl; [done|].
  destruct (decide (Type_ i = "message")) as [Hm|Hm].
  - rewrite filter_cons_True by done. rewrite decide_False by (intros H; by apply H). simpl.
    destruct (HasNonTextMessageContent i); [done|]. simpl.
    destruct (is_local_role (Role i)); [|done]. simpl. rewrite IH. by destruct (forallb _ _).
  - rewrite filter_cons_False by done. by rewrite decide_True.
Qed.
