(* ===== verification/Store.v ===== *)
(** * internal/storage/sqlite: conversations.go, responses.go, tx.go,
      response_replay_artifacts.go

    The tables are the state; each SQL statement of the source is a function
    on them that checks the table's constraints, and each method runs its
    statements in the order of the source, inside a transaction where the
    source opens one.

    Any statement may fail ([stmt_fails]): the [n]-th statement executed, BEGIN
    and COMMIT included, returns an error and does nothing.  Foreign keys are
    enforced per connection, and PRAGMA foreign_keys is only executed on the
    first connection of the pool, so whether a statement runs on an enforcing
    connection is a parameter too ([conn_fk]).

    INTEGER columns are [Z]; sequence numbers and versions grow by one per row
    and do not reach 2^63. *)

From S2P Require Import Prelude GoStr GoFloat GoJson JsonFacts World Items Normalize Context.

Class Sqlite := {
  stmt_fails : nat -> bool;
  conn_fk : nat -> bool
}.

(** ** Tables *)

Record conversation_row := {
  cr_version : Z;
  cr_metadata_json : string;
  cr_created_at : string;
  cr_updated_at : string
}.

Record item_row := {
  ir_id : string;
  ir_conversation_id : string;
  ir_seq : Z;
  ir_source : string;
  ir_role : option string;
  ir_item_type : string;
  ir_item_json : string;
  ir_created_at : string
}.

Record response_row := {
  rr_model : string;
  rr_request_json : string;
  rr_normalized_input_items_json : string;
  rr_effective_input_items_json : string;
  rr_output_json : string;
  rr_output_text : string;
  rr_previous_response_id : option string;
  rr_conversation_id : option string;
  rr_store : Z;
  rr_created_at : string;
  rr_completed_at : string;
  rr_response_json : option string
}.

Record artifact_row := {
  ar_response_id : string;
  ar_sequence_number : Z;
  ar_event_type : string;
  ar_payload_json : string
}.

Record memory_row := {
  mr_scope : string;
  mr_session_id : string;
  mr_text : string;
  mr_source : string;
  mr_source_response_id : string;
  mr_metadata_json : string;
  mr_created_at : string;
  mr_updated_at : string;
  mr_last_used_at : string
}.

Record chat_row := {
  ch_model : string;
  ch_metadata_json : string;
  ch_request_json : string;
  ch_response_json : string;
  ch_created_at : Z
}.

Record message_row := {
  mg_completion_id : string;
  mg_sequence_number : Z;
  mg_message_id : string;
  mg_message_json : string
}.

(** Primary keys are map keys; tables with two keys are lists, in insertion
    order. *)
Record DB := {
  conversations : gmap string conversation_row;
  conversation_items : list item_row;
  responses : gmap string response_row;
  response_replay_artifacts : list artifact_row;
  memory_notes : gmap string memory_row;
  chat_completions : gmap string chat_row;
  chat_completion_messages : list message_row
}.

Definition empty_db : DB :=
  {| conversations := ∅; conversation_items := []; responses := ∅;
     response_replay_artifacts := []; memory_notes := ∅;
     chat_completions := ∅; chat_completion_messages := [] |}.

Definition set_conversations (db : DB) x := {| conversations := x; conversation_items := conversation_items db;
  responses := responses db; response_replay_artifacts := response_replay_artifacts db;
  memory_notes := memory_notes db; chat_completions := chat_completions db;
  chat_completion_messages := chat_completion_messages db |}.
Definition set_items (db : DB) x := {| conversations := conversations db; conversation_items := x;
  responses := responses db; response_replay_artifacts := response_replay_artifacts db;
  memory_notes := memory_notes db; chat_completions := chat_completions db;
  chat_completion_messages := chat_completion_messages db |}.
Definition set_responses (db : DB) x := {| conversations := conversations db; conversation_items := conversation_items db;
  responses := x; response_replay_artifacts := response_replay_artifacts db;
  memory_notes := memory_notes db; chat_completions := chat_completions db;
  chat_completion_messages := chat_completion_messages db |}.
Definition set_artifacts (db : DB) x := {| conversations := conversations db; conversation_items := conversation_items db;
  responses := responses db; response_replay_artifacts := x;
  memory_notes := memory_notes db; chat_completions := chat_completions db;
  chat_completion_messages := chat_completion_messages db |}.
Definition set_memory (db : DB) x := {| conversations := conversations db; conversation_items := conversation_items db;
  responses := responses db; response_replay_artifacts := response_replay_artifacts db;
  memory_notes := x; chat_completions := chat_completions db;
  chat_completion_messages := chat_completion_messages db |}.
Definition set_chats (db : DB) x := {| conversations := conversations db; conversation_items := conversation_items db;
  responses := responses db; response_replay_artifacts := response_replay_artifacts db;
  memory_notes := memory_notes db; chat_completions := x;
  chat_completion_messages := chat_completion_messages db |}.
Definition set_messages (db : DB) x := {| conversations := conversations db; conversation_items := conversation_items db;
  responses := responses db; response_replay_artifacts := response_replay_artifacts db;
  memory_notes := memory_notes db; chat_completions := chat_completions db;
  chat_completion_messages := x |}.

Definition nullableString (value : string) : option string :=
  if decide (value = "") then None else Some value.
Definition boolToInt (value : bool) : Z := if value then 1 else 0.

(** ** Running statements *)

(** The database, the identifiers drawn and the statements executed so far. *)
Record world := { w_db : DB; w_ids : nat; w_stmts : nat }.

Definition set_db (w : world) (db : DB) : world :=
  {| w_db := db; w_ids := w_ids w; w_stmts := w_stmts w |}.

Definition draw {A} (m : ST nat A) : ST world A := fun w =>
  let '(r, n) := m (w_ids w) in (r, {| w_db := w_db w; w_ids := n; w_stmts := w_stmts w |}).

Definition db_error : goerr := ELibrary "database".

Section statements.
Context `{Sqlite}.

(** One statement; its error is wrapped with the text the source gives it. *)
Definition exec {A} (ctx : string) (f : bool -> DB -> res (A * DB)) : ST world A := fun w =>
  let w' := {| w_db := w_db w; w_ids := w_ids w; w_stmts := S (w_stmts w) |} in
  if stmt_fails (w_stmts w) then (Err (EWrap ctx db_error), w')
  else match f (conn_fk (w_stmts w)) (w_db w) with
       | Ok (a, db) => (Ok a, set_db w' db)
       | Err e => (Err (EWrap ctx e), w')
       | Panic => (Panic, w')
       end.

(** A SELECT. *)
Definition query {A} (ctx : string) (f : DB -> A) : ST world A :=
  exec ctx (fun _ db => Ok (f db, db)).

(** BeginTx, the body, Commit; an error or a panic on the way runs the
    deferred Rollback. *)
Definition transaction {A} (beginCtx commitCtx : string) (body : ST world A) : ST world A := fun w =>
  match query beginCtx (fun _ => tt) w with
  | (Ok _, w1) =>
      match body w1 with
      | (Ok a, w2) =>
          match query commitCtx (fun _ => tt) w2 with
          | (Ok _, w3) => (Ok a, w3)
          | (Err e, w3) => (Err e, set_db w3 (w_db w))
          | (Panic, w3) => (Panic, set_db w3 (w_db w))
          end
      | (Err e, w2) => (Err e, set_db w2 (w_db w))
      | (Panic, w2) => (Panic, set_db w2 (w_db w))
      end
  | (Err e, w1) => (Err e, w1)
  | (Panic, w1) => (Panic, w1)
  end.
End statements.

(** ** The statements on conversations *)

Definition insert_conversation (c : Conversation) (metadataJSON : string) (db : DB)
    : res (unit * DB) :=
  match conversations db !! cv_ID c with
  | Some _ => Err (EConstraint "conversations.id")
  | None =>
      Ok (tt, set_conversations db
        (<[cv_ID c := {| cr_version := cv_Version c; cr_metadata_json := metadataJSON;
                         cr_created_at := cv_CreatedAt c; cr_updated_at := cv_UpdatedAt c |}]>
           (conversations db)))
  end.

(** [UPDATE conversations SET version = version + 1, updated_at = ? WHERE id =
    ? AND version = ?] and the number of rows it changed. *)
Definition bump_version (updatedAt id : string) (version : Z) (db : DB) : res (nat * DB) :=
  match conversations db !! id with
  | Some row =>
      if decide (cr_version row = version) then
        Ok (1, set_conversations db
          (<[id := {| cr_version := cr_version row + 1; cr_metadata_json := cr_metadata_json row;
                      cr_created_at := cr_created_at row; cr_updated_at := updatedAt |}]>
             (conversations db)))
      else Ok (0, db)
  | None => Ok (0, db)
  end.

Definition insert_item_row (fk : bool) (r : item_row) (db : DB) : res (unit * DB) :=
  if existsb (fun r' => bool_decide (ir_id r' = ir_id r)) (conversation_items db) then
    Err (EConstraint "conversation_items.id")
  else if existsb (fun r' => bool_decide (ir_conversation_id r' = ir_conversation_id r) &&
                             bool_decide (ir_seq r' = ir_seq r)) (conversation_items db) then
    Err (EConstraint "uq_conversation_items_seq")
  else match fk, conversations db !! ir_conversation_id r with
       | true, None => Err (EConstraint "fk_conversation_items_conversation")
       | _, _ => Ok (tt, set_items db (conversation_items db ++ [r]))
       end.

(** The items of one conversation, as they were inserted. *)
Definition conv_items (c : string) (db : DB) : list item_row :=
  filter (fun r => ir_conversation_id r = c) (conversation_items db).

Definition max_seq (rows : list item_row) : Z := foldr (fun r m => Z.max (ir_seq r) m) (-1)%Z rows.

Definition seq_asc (a b : item_row) : bool := (ir_seq a <=? ir_seq b)%Z.
Definition seq_desc (a b : item_row) : bool := (ir_seq b <=? ir_seq a)%Z.

Definition delete_item_rows (c id : string) (db : DB) : res (nat * DB) :=
  let hit r := bool_decide (ir_conversation_id r = c) && bool_decide (ir_id r = id) in
  Ok (length (filter (fun r => hit r = true) (conversation_items db)),
      set_items db (filter (fun r => hit r = false) (conversation_items db))).

(** ** conversations.go *)

(** scanConversationItems: one row. *)
Definition scan_conversation_item (r : item_row) : res ConversationItem :=
  storedItem ← wrap_err "unmarshal conversation item" (UnmarshalStoredItem (ir_item_json r));
  Ok {| ci_ID := ir_id r; ci_ConversationID := ir_conversation_id r; ci_Seq := ir_seq r;
        ci_Source := ir_source r; ci_Role := default "" (ir_role r); ci_ItemType := ir_item_type r;
        ci_Item := storedItem; ci_CreatedAt := ir_created_at r |}.

Definition scanConversationItems (rows : list item_row) : res (list ConversationItem) :=
  res_map scan_conversation_item rows.

(** LIMIT: a negative value is no limit. *)
Definition sql_limit {A} (n : Z) (l : list A) : list A :=
  if (n <? 0)%Z then l else take (Z.to_nat n) l.

Definition item_row_of (item : ConversationItem) : item_row :=
  {| ir_id := ci_ID item; ir_conversation_id := ci_ConversationID item; ir_seq := ci_Seq item;
     ir_source := ci_Source item; ir_role := nullableString (ci_Role item);
     ir_item_type := ci_ItemType item; ir_item_json := jprint (MarshalStoredItem (ci_Item item));
     ir_created_at := ci_CreatedAt item |}.

Section store.
Context `{Sqlite} `{IdSource}.

Definition insertConversationItem (item : ConversationItem) : ST world unit :=
  exec "insert conversation item" (fun fk => insert_item_row fk (item_row_of item)).

Definition nextConversationItemSeq (conversationID : string) : ST world Z :=
  query "select next conversation item seq" (fun db => max_seq (conv_items conversationID db) + 1)%Z.

Definition ensureConversationExists (conversationID : string) : ST world unit :=
  found ← query "select conversation existence" (fun db => conversations db !! conversationID);
  match found with None => st_err ENotFound | Some _ => mret tt end.

Definition lookupConversationItemSeq (conversationID itemID : string) : ST world Z :=
  found ← query "select conversation item cursor" (fun db =>
    head (filter (fun r => ir_id r = itemID) (conv_items conversationID db)));
  match found with
  | None => st_err (EValidation "after" "after must reference an existing item in the conversation")
  | Some r => mret (ir_seq r)
  end.

(** The identifier of an item, drawn and written into it when it has none. *)
Definition identified (genCtx assignCtx : string) (item : Item) : ST world (string * Item) :=
  let itemID := ID item in
  if decide (itemID = "") then
    itemID ← st_wrap genCtx (draw (NewPrefixedID "item"));
    item ← st_lift (wrap_err assignCtx (WithID item itemID));
    mret (itemID, item)
  else mret (itemID, item).

(** The loop of CreateConversation. *)
Fixpoint seed_items (c : Conversation) (seq : Z) (items : list Item) : ST world unit :=
  match items with
  | [] => mret tt
  | item :: items =>
      '(itemID, item) ← identified "generate conversation item id" "assign conversation item id" item;
      _ ← insertConversationItem
        {| ci_ID := itemID; ci_ConversationID := cv_ID c; ci_Seq := seq; ci_Source := "seed";
           ci_Role := Role item; ci_ItemType := Type_ item; ci_Item := item;
           ci_CreatedAt := cv_CreatedAt c |};
      seed_items c (seq + 1) items
  end.

Definition CreateConversation (conversation : Conversation) : ST world unit :=
  metadataJSON ← st_lift (MarshalConversationMetadata (cv_Metadata conversation));
  transaction "begin create conversation tx" "commit create conversation"
    (_ ← exec "insert conversation" (fun _ => insert_conversation conversation metadataJSON);
     seed_items conversation 0 (cv_Items conversation)).

Definition GetConversation (id : string) : ST world (Conversation * list ConversationItem) :=
  found ← query "select conversation" (fun db => conversations db !! id);
  match found with
  | None => st_err ENotFound
  | Some row =>
      metadata ← st_lift (UnmarshalConversationMetadata (cr_metadata_json row));
      rows ← query "select conversation items" (fun db => sort_by seq_asc (conv_items id db));
      items ← st_lift (scanConversationItems rows);
      mret ({| cv_ID := id; cv_Object := "conversation"; cv_Metadata := metadata;
               cv_Items := map ci_Item items; cv_Version := cr_version row;
               cv_CreatedAt := cr_created_at row; cv_UpdatedAt := cr_updated_at row |}, items)
  end.

Definition GetConversationItem (conversationID itemID : string) : ST world ConversationItem :=
  _ ← ensureConversationExists conversationID;
  rows ← query "select conversation item" (fun db =>
    filter (fun r => ir_id r = itemID) (conv_items conversationID db));
  items ← st_lift (scanConversationItems rows);
  match items with [] => st_err ENotFound | item :: _ => mret item end.

(** ORDER BY seq with the order text the caller passed, upper-cased; only these
    three are SQL. *)
Definition ordered (order : string) (rows : list item_row) : res (list item_row) :=
  let order := ToUpper order in
  if decide (order = "" \/ order = "ASC") then Ok (sort_by seq_asc rows)
  else if decide (order = "DESC") then Ok (sort_by seq_desc rows)
  else Err (ELibrary "syntax error").

Definition after_cursor (order : string) (cursor : option Z) (r : item_row) : bool :=
  match cursor with
  | None => true
  | Some seq => if decide (order = ConversationItemOrderDesc)
                then (ir_seq r <? seq)%Z else (seq <? ir_seq r)%Z
  end.

Definition ListConversationItems (q : ListConversationItemsQuery) : ST world ConversationItemPage :=
  _ ← ensureConversationExists (lq_ConversationID q);
  cursor ← (if decide (lq_After q = "") then mret None
            else seq ← lookupConversationItemSeq (lq_ConversationID q) (lq_After q); mret (Some seq));
  rows ← exec "select paged conversation items" (fun _ db =>
    rows ← ordered (lq_Order q)
      (filter (fun r => after_cursor (lq_Order q) cursor r = true) (conv_items (lq_ConversationID q) db));
    Ok (sql_limit (lq_Limit q + 1) rows, db));
  items ← st_lift (scanConversationItems rows);
  if (lq_Limit q <? 0)%Z then st_lift Panic  (* make with a negative capacity *)
  else mret {| pg_Items := take (Z.to_nat (lq_Limit q)) items;
               pg_HasMore := (lq_Limit q <? Z.of_nat (length items))%Z |}.

(** The optimistic lock all three writers start with. *)
Definition lock_version (updatedAt : string) (c : Conversation) : ST world unit :=
  affected ← exec "update conversation version" (fun _ => bump_version updatedAt (cv_ID c) (cv_Version c));
  if decide (affected = 0) then st_err EConflict else mret tt.

(** The loop of SaveResponseAndAppendConversation. *)
Fixpoint append_rows (c : Conversation) (createdAt : string) (rows : list ConversationItem)
    : ST world unit :=
  match rows with
  | [] => mret tt
  | row :: rows =>
      '(itemID, item) ← identified "generate appended conversation item id"
                          "assign appended conversation item id" (ci_Item row);
      _ ← insertConversationItem
        {| ci_ID := itemID; ci_ConversationID := cv_ID c; ci_Seq := ci_Seq row;
           ci_Source := ci_Source row; ci_Role := ci_Role row; ci_ItemType := ci_ItemType row;
           ci_Item := item; ci_CreatedAt := createdAt |};
      append_rows c createdAt rows
  end.

(** The loop of AppendConversationItems. *)
Fixpoint append_items (c : Conversation) (createdAt : string) (nextSeq : Z) (items : list Item)
    : ST world (list ConversationItem) :=
  match items with
  | [] => mret []
  | item :: items =>
      '(itemID, item) ← identified "generate appended conversation item id"
                          "assign appended conversation item id" item;
      let storedItem :=
        {| ci_ID := itemID; ci_ConversationID := cv_ID c; ci_Seq := nextSeq;
           ci_Source := "append"; ci_Role := Role item; ci_ItemType := Type_ item;
           ci_Item := item; ci_CreatedAt := createdAt |} in
      _ ← insertConversationItem storedItem;
      storedItems ← append_items c createdAt (nextSeq + 1) items;
      mret (storedItem :: storedItems)
  end.

Definition AppendConversationItems (conversation : Conversation) (items : list Item)
    (createdAt : string) : ST world (list ConversationItem) :=
  transaction "begin conversation item append tx" "commit conversation item append"
    (_ ← lock_version createdAt conversation;
     nextSeq ← nextConversationItemSeq (cv_ID conversation);
     append_items conversation createdAt nextSeq items).

Definition DeleteConversationItem (conversation : Conversation) (itemID updatedAt : string)
    : ST world unit :=
  transaction "begin conversation item delete tx" "commit conversation item delete"
    (_ ← lock_version updatedAt conversation;
     affected ← exec "delete conversation item" (fun _ => delete_item_rows (cv_ID conversation) itemID);
     if decide (affected = 0) then st_err ENotFound else mret tt).

(** ** responses.go and tx.go *)

Definition response_row_of (response : StoredResponse) : response_row :=
  {| rr_model := sr_Model response; rr_request_json := sr_RequestJSON response;
     rr_normalized_input_items_json := MarshalStoredItems (sr_NormalizedInputItems response);
     rr_effective_input_items_json := MarshalStoredItems (sr_EffectiveInputItems response);
     rr_output_json := MarshalStoredItems (sr_Output response);
     rr_output_text := sr_OutputText response;
     rr_previous_response_id := nullableString (sr_PreviousResponseID response);
     rr_conversation_id := nullableString (sr_ConversationID response);
     rr_store := boolToInt (sr_Store response);
     rr_created_at := sr_CreatedAt response; rr_completed_at := sr_CompletedAt response;
     rr_response_json := nullableString (sr_ResponseJSON response) |}.

(** INSERT ... ON CONFLICT(id) DO UPDATE of every column. *)
Definition SaveResponse (response : StoredResponse) : ST world unit :=
  exec "insert response" (fun _ db =>
    Ok (tt, set_responses db (<[sr_ID response := response_row_of response]> (responses db)))).

(** tx.go: a plain INSERT. *)
Definition insertResponse (response : StoredResponse) : ST world unit :=
  exec "insert response" (fun _ db =>
    match responses db !! sr_ID response with
    | Some _ => Err (EConstraint "responses.id")
    | None => Ok (tt, set_responses db (<[sr_ID response := response_row_of response]> (responses db)))
    end).

Definition SaveResponseAndAppendConversation (conversation : Conversation)
    (response : StoredResponse) (input output : list Item) : ST world unit :=
  transaction "begin conversation append tx" "commit conversation append"
    (_ ← lock_version (sr_CompletedAt response) conversation;
     _ ← insertResponse response;
     nextSeq ← nextConversationItemSeq (cv_ID conversation);
     append_rows conversation (sr_CompletedAt response)
       (BuildConversationAppendItems nextSeq input output)).

Definition scan_items_columns (r : response_row) : res (list Item * list Item * list Item) :=
  items ← wrap_err "unmarshal normalized input items"
    (UnmarshalStoredItems (rr_normalized_input_items_json r));
  effectiveItems ← wrap_err "unmarshal effective input items"
    (UnmarshalStoredItems (rr_effective_input_items_json r));
  outputItems ← wrap_err "unmarshal output" (UnmarshalStoredItems (rr_output_json r));
  Ok (items, effectiveItems, outputItems).

Definition scanStoredResponse (id : string) (r : response_row) : res StoredResponse :=
  '(items, effectiveItems, outputItems) ← scan_items_columns r;
  Ok {| sr_ID := id; sr_Model := rr_model r; sr_RequestJSON := rr_request_json r;
        sr_ResponseJSON := default "" (rr_response_json r);
        sr_NormalizedInputItems := items; sr_EffectiveInputItems := effectiveItems;
        sr_Output := outputItems; sr_OutputText := rr_output_text r;
        sr_PreviousResponseID := default "" (rr_previous_response_id r);
        sr_ConversationID := default "" (rr_conversation_id r);
        sr_Store := negb (rr_store r =? 0)%Z;
        sr_CreatedAt := rr_created_at r; sr_CompletedAt := rr_completed_at r |}.

(** Without the request and response documents. *)
Definition scanStoredResponseLineageNode (id : string) (r : response_row) : res StoredResponse :=
  '(items, effectiveItems, outputItems) ← scan_items_columns r;
  Ok {| sr_ID := id; sr_Model := rr_model r; sr_RequestJSON := ""; sr_ResponseJSON := "";
        sr_NormalizedInputItems := items; sr_EffectiveInputItems := effectiveItems;
        sr_Output := outputItems; sr_OutputText := rr_output_text r;
        sr_PreviousResponseID := default "" (rr_previous_response_id r);
        sr_ConversationID := default "" (rr_conversation_id r);
        sr_Store := negb (rr_store r =? 0)%Z;
        sr_CreatedAt := rr_created_at r; sr_CompletedAt := rr_completed_at r |}.

Definition select_response (id : string) : ST world (option response_row) := fun w =>
  match query "" (fun db => responses db !! id) w with
  | (Err _, w') => (Err db_error, w')     (* row.Scan returns the error unwrapped *)
  | r => r
  end.

Definition GetResponse (id : string) : ST world StoredResponse :=
  found ← select_response id;
  match found with
  | None => st_err ENotFound
  | Some row => st_lift (scanStoredResponse id row)
  end.

Definition getResponseLineageNode (id : string) : ST world StoredResponse :=
  found ← select_response id;
  match found with
  | None => st_err ENotFound
  | Some row => st_lift (scanStoredResponseLineageNode id row)
  end.

(** The loop of GetResponseLineage, newest response first. *)
Fixpoint lineage_loop (fuel : nat) (maxItems : Z) (seen : gset string) (currentID : string)
    (lineage : list StoredResponse) : ST world (list StoredResponse) :=
  match fuel with
  | 0 => st_err (EMsg "out of fuel")
  | S fuel =>
      if decide (currentID = "") then mret lineage
      else if decide (currentID ∈ seen) then
        st_err (EMsg ("response lineage cycle detected for " +:+ currentID))
      else
        response ← getResponseLineageNode currentID;
        let lineage := lineage ++ [response] in
        if (0 <? maxItems)%Z && (maxItems <=? Z.of_nat (length lineage))%Z then mret lineage
        else lineage_loop fuel maxItems ({[currentID]} ∪ seen) (sr_PreviousResponseID response) lineage
  end.

(** Every round sees a new stored response, so one more round than there are
    responses, and one to stop, are enough. *)
Definition GetResponseLineage (id : string) (maxItems : Z) : ST world (list StoredResponse) :=
  w ← st_get;
  lineage ← lineage_loop (2 + size (responses (w_db w))) maxItems ∅ id [];
  mret (reverse lineage).

(** ON DELETE CASCADE takes the artifacts along, on an enforcing connection. *)
Definition delete_response_row (fk : bool) (id : string) (db : DB) : res (nat * DB) :=
  match responses db !! id with
  | None => Ok (0, db)
  | Some _ =>
      let db := set_responses db (delete id (responses db)) in
      Ok (1, if fk then set_artifacts db
                          (filter (fun a => ar_response_id a <> id) (response_replay_artifacts db))
             else db)
  end.

Definition DeleteResponse (id : string) : ST world unit :=
  affected ← exec "delete response" (fun fk => delete_response_row fk id);
  if decide (affected = 0) then st_err ENotFound else mret tt.

(** ** response_replay_artifacts.go *)

Definition responseReplayArtifactsMaxCount : nat := 64.
Definition responseReplayArtifactsMaxPayloadBytes : Z := 1048576.
Definition responseReplayArtifactsMaxTotalPayloadBytes : Z := 8388608.

Definition byte_len (s : string) : Z := Z.of_nat (String.length s).

Definition delete_artifact_rows (responseID : string) (db : DB) : res (unit * DB) :=
  Ok (tt, set_artifacts db
            (filter (fun a => ar_response_id a <> responseID) (response_replay_artifacts db))).

Definition insert_artifact_row (fk : bool) (a : artifact_row) (db : DB) : res (unit * DB) :=
  if existsb (fun a' => bool_decide (ar_response_id a' = ar_response_id a) &&
                        bool_decide (ar_sequence_number a' = ar_sequence_number a))
       (response_replay_artifacts db) then
    Err (EConstraint "response_replay_artifacts.response_id, sequence_number")
  else match fk, responses db !! ar_response_id a with
       | true, None => Err (EConstraint "fk_response_replay_artifacts_response")
       | _, _ => Ok (tt, set_artifacts db (response_replay_artifacts db ++ [a]))
       end.

Definition artifact_le (a b : ResponseReplayArtifact) : bool := (ra_Sequence a <=? ra_Sequence b)%Z.

Fixpoint artifact_loop (responseID : string) (nextSequence totalPayloadBytes : Z)
    (writtenCount : nat) (normalized : list ResponseReplayArtifact) : ST world unit :=
  match normalized with
  | [] => mret tt
  | artifact :: normalized =>
      let payload := ra_PayloadJSON artifact in
      if decide (payload = "" \/ responseReplayArtifactsMaxPayloadBytes < byte_len payload)%Z then
        artifact_loop responseID nextSequence totalPayloadBytes writtenCount normalized
      else if decide (responseReplayArtifactsMaxCount <= writtenCount) then mret tt
      else if decide (responseReplayArtifactsMaxTotalPayloadBytes
                      < totalPayloadBytes + byte_len payload)%Z then mret tt
      else
        let sequence := if (ra_Sequence artifact <=? 0)%Z then nextSequence else ra_Sequence artifact in
        _ ← exec "insert response replay artifact" (fun fk => insert_artifact_row fk
              {| ar_response_id := responseID; ar_sequence_number := sequence;
                 ar_event_type := TrimSpace (ra_EventType artifact); ar_payload_json := payload |});
        artifact_loop responseID (sequence + 1) (totalPayloadBytes + byte_len payload)
          (S writtenCount) normalized
  end.

Definition SaveResponseReplayArtifacts (responseID : string) (artifacts : list ResponseReplayArtifact)
    : ST world unit :=
  let responseID := TrimSpace responseID in
  if decide (responseID = "") then mret tt
  else match artifacts with
  | [] =>
      transaction "begin response replay artifacts tx" "commit empty response replay artifacts tx"
        (exec "delete prior response replay artifacts" (fun _ => delete_artifact_rows responseID))
  | _ =>
      transaction "begin response replay artifacts tx" "commit response replay artifacts tx"
        (_ ← exec "delete prior response replay artifacts" (fun _ => delete_artifact_rows responseID);
         _ ← query "prepare response replay artifacts insert" (fun _ => tt);
         artifact_loop responseID 1 0 0 (sort_by artifact_le artifacts))
  end.

Definition artifact_row_le (a b : artifact_row) : bool :=
  (ar_sequence_number a <=? ar_sequence_number b)%Z.

Definition artifacts_of (responseID : string) (db : DB) : list artifact_row :=
  filter (fun a => ar_response_id a = responseID) (response_replay_artifacts db).

Definition GetResponseReplayArtifacts (responseID : string) : ST world (list ResponseReplayArtifact) :=
  rows ← query "query response replay artifacts" (fun db =>
    sort_by artifact_row_le (artifacts_of (TrimSpace responseID) db));
  mret (map (fun a => {| ra_ResponseID := ar_response_id a; ra_Sequence := ar_sequence_number a;
                         ra_EventType := ar_event_type a; ra_PayloadJSON := ar_payload_json a |}) rows).

Definition deleteResponseReplayArtifacts (responseID : string) : ST world unit :=
  exec "delete response replay artifacts" (fun _ => delete_artifact_rows (TrimSpace responseID)).
End store.
