(* ===== verification/StoreFacts.v ===== *)
(** * Facts about the store

    Atomicity of the methods, the rows each loop inserts, and the invariant of
    the tables. *)

From S2P Require Import Prelude GoStr GoFloat GoJson JsonFacts World Items ItemFacts Normalize Context Store.

(** ** Running statements *)

Section running.
Context `{Sqlite}.

Lemma exec_ok {A} ctx (f : bool -> DB -> res (A * DB)) w a w' :
  exec ctx f w = (Ok a, w') ->
  stmt_fails (w_stmts w) = false /\ f (conn_fk (w_stmts w)) (w_db w) = Ok (a, w_db w') /\
  w_ids w' = w_ids w /\ w_stmts w' = S (w_stmts w).
Proof.
  unfold exec. destruct (stmt_fails _); [done|].
  destruct (f _ _) as [[a' db]| |]; try done. by intros [= <- <-].
Qed.

Lemma exec_not_ok {A} ctx (f : bool -> DB -> res (A * DB)) w r w' :
  exec ctx f w = (r, w') -> is_ok r = false -> w_db w' = w_db w.
Proof.
  unfold exec. destruct (stmt_fails _); [by intros [= <- <-]|].
  destruct (f _ _) as [[a' db]| |]; by intros [= <- <-].
Qed.

Lemma exec_run {A} ctx (f : bool -> DB -> res (A * DB)) w a db :
  stmt_fails (w_stmts w) = false -> f (conn_fk (w_stmts w)) (w_db w) = Ok (a, db) ->
  exec ctx f w = (Ok a, {| w_db := db; w_ids := w_ids w; w_stmts := S (w_stmts w) |}).
Proof. intros Hs Hf. unfold exec. by rewrite Hs, Hf. Qed.

Lemma query_ok {A} ctx (f : DB -> A) w a w' :
  query ctx f w = (Ok a, w') -> a = f (w_db w) /\ w_db w' = w_db w /\
  w_ids w' = w_ids w /\ w_stmts w' = S (w_stmts w).
Proof. intros (_ & Hf & Hi & Hs)%exec_ok. injection Hf as <- <-. done. Qed.

Lemma query_db {A} ctx (f : DB -> A) w r w' : query ctx f w = (r, w') -> w_db w' = w_db w.
Proof. unfold query, exec. destruct (stmt_fails _); by intros [= <- <-]. Qed.

Lemma query_run {A} ctx (f : DB -> A) w : stmt_fails (w_stmts w) = false ->
  query ctx f w = (Ok (f (w_db w)), {| w_db := w_db w; w_ids := w_ids w; w_stmts := S (w_stmts w) |}).
Proof. intros Hs. by apply exec_run. Qed.

(** A transaction that does not return a value has changed nothing. *)
Lemma transaction_atomic {A} b c (body : ST world A) w r w' :
  transaction b c body w = (r, w') -> is_ok r = false -> w_db w' = w_db w.
Proof.
  unfold transaction. destruct (query b _ w) as [[u|e|] w1] eqn:Eb.
  - destruct (body w1) as [[a|e|] w2].
    + destruct (query c _ w2) as [[u'|e|] w3]; by intros [= <- <-].
    + by intros [= <- <-].
    + by intros [= <- <-].
  - apply query_db in Eb. by intros [= <- <-].
  - apply query_db in Eb. by intros [= <- <-].
Qed.

(** A transaction that returns a value has done what its body did. *)
Lemma transaction_ok {A} b c (body : ST world A) w a w' :
  transaction b c body w = (Ok a, w') ->
  exists w1 w2, w_db w1 = w_db w /\ w_ids w1 = w_ids w /\ body w1 = (Ok a, w2) /\ w_db w' = w_db w2.
Proof.
  unfold transaction. destruct (query b _ w) as [[u|e|] w1] eqn:Eb; [|done..].
  apply query_ok in Eb as (_ & Hd & Hi & _).
  destruct (body w1) as [[a'|e|] w2] eqn:E2; [|done..].
  destruct (query c _ w2) as [[u'|e|] w3] eqn:Ec; [|done..].
  apply query_ok in Ec as (_ & Hd' & _). intros [= <- <-]. exists w1, w2. done.
Qed.

(** ** What a computation cannot change *)

(** [m] never changes the database. *)
Definition read_only {A} (m : ST world A) : Prop := forall w r w', m w = (r, w') -> w_db w' = w_db w.

Lemma read_only_ret {A} (a : A) : read_only (mret a).
Proof. by intros w r w' [= <- <-]. Qed.
Lemma read_only_lift {A} (m : res A) : read_only (st_lift m).
Proof. by intros w r w' [= <- <-]. Qed.
Lemma read_only_err {A} e : read_only (st_err (A := A) e).
Proof. by intros w r w' [= <- <-]. Qed.
Lemma read_only_get : read_only st_get.
Proof. by intros w r w' [= <- <-]. Qed.
Lemma read_only_query {A} ctx (f : DB -> A) : read_only (query ctx f).
Proof. intros w r w'. apply query_db. Qed.
Lemma read_only_draw {A} (m : ST nat A) : read_only (draw m).
Proof. intros w r w'. unfold draw. destruct (m (w_ids w)). by intros [= <- <-]. Qed.
Lemma read_only_wrap {A} ctx (m : ST world A) : read_only m -> read_only (st_wrap ctx m).
Proof. intros Hm w r w'. unfold st_wrap. destruct (m w) as [r1 w1] eqn:E. intros [= <- <-]. eauto. Qed.
Lemma read_only_bind {A B} (m : ST world A) (f : A -> ST world B) :
  read_only m -> (forall a, read_only (f a)) -> read_only (m ≫= f).
Proof.
  intros Hm Hf w r w'. unfold mbind, st_bind. destruct (m w) as [[a|e|] w1] eqn:E.
  - intros H1%Hf. rewrite H1. eauto.
  - intros [= <- <-]. eauto.
  - intros [= <- <-]. eauto.
Qed.

End running.

#[export] Hint Resolve read_only_ret read_only_lift read_only_err read_only_get read_only_query
  read_only_draw read_only_wrap read_only_bind : shim.

(** Splits a read-only computation at its binds, decisions and matches. *)
Ltac read_only :=
  repeat first
    [ apply read_only_bind; [|intros] | apply read_only_ret | apply read_only_lift
    | apply read_only_err | apply read_only_get | apply read_only_query
    | apply read_only_draw | apply read_only_wrap
    | match goal with |- read_only (match ?x with _ => _ end) => destruct x end ].

Section reads.
Context `{Sqlite} `{IdSource}.

Lemma ensureConversationExists_read_only c : read_only (ensureConversationExists c).
Proof. unfold ensureConversationExists. read_only. Qed.

Lemma lookupConversationItemSeq_read_only c i : read_only (lookupConversationItemSeq c i).
Proof. unfold lookupConversationItemSeq. read_only. Qed.

Lemma identified_read_only g a i : read_only (identified g a i).
Proof. unfold identified. read_only. Qed.

Lemma select_response_read_only id : read_only (select_response id).
Proof.
  intros w r w'. unfold select_response. destruct (query _ _ w) as [[a|e|] w1] eqn:E;
    apply query_db in E; by intros [= <- <-].
Qed.

Lemma getResponseLineageNode_read_only id : read_only (getResponseLineageNode id).
Proof.
  unfold getResponseLineageNode. apply read_only_bind; [apply select_response_read_only|]. intros. read_only.
Qed.

Lemma lineage_loop_read_only fuel m seen id l : read_only (lineage_loop fuel m seen id l).
Proof.
  revert seen id l. induction fuel as [|fuel IH]; intros seen id l; simpl; [read_only|].
  case_decide; [read_only|]. case_decide; [read_only|].
  apply read_only_bind; [apply getResponseLineageNode_read_only|]. intros resp.
  destruct (_ && _); [read_only|apply IH].
Qed.

Lemma GetConversation_read_only id : read_only (GetConversation id).
Proof. unfold GetConversation. read_only. Qed.

Lemma GetConversationItem_read_only c id : read_only (GetConversationItem c id).
Proof.
  unfold GetConversationItem. apply read_only_bind; [apply ensureConversationExists_read_only|].
  intros. read_only.
Qed.

Lemma read_only_exec_read {A} ctx (f : bool -> DB -> res (A * DB)) :
  (forall fk db a db', f fk db = Ok (a, db') -> db' = db) -> read_only (exec ctx f).
Proof.
  intros Hf w r w'. unfold exec. destruct (stmt_fails _); [by intros [= <- <-]|].
  destruct (f _ _) as [[a db]| |] eqn:E; intros [= <- <-]; simpl; [by eapply Hf|done..].
Qed.

Lemma ListConversationItems_read_only q : read_only (ListConversationItems q).
Proof.
  unfold ListConversationItems. apply read_only_bind; [apply ensureConversationExists_read_only|]. intros _.
  apply read_only_bind.
  { case_decide; [read_only|]. apply read_only_bind; [apply lookupConversationItemSeq_read_only|]. intros. read_only. }
  intros cursor. apply read_only_bind.
  { apply read_only_exec_read. intros fk db a db' Hf. apply res_bind_ok in Hf as (rows & _ & [= _ <-]). done. }
  intros rows. read_only.
Qed.
End reads.

(** ** Inserted rows *)

(** [db'] is [db] with the item rows [rs] added, all with new identifiers. *)
Record appended (db db' : DB) (rs : list item_row) : Prop := {
  app_db : db' = set_items db (conversation_items db ++ rs);
  app_nodup : NoDup (map ir_id rs);
  app_fresh : Forall (fun r => ir_id r ∉ map ir_id (conversation_items db)) rs
}.

Lemma appended_nil db : appended db db [].
Proof. split; [by destruct db; unfold set_items; simpl; rewrite app_nil_r|constructor..]. Qed.

Lemma appended_cons db db1 db2 r rs :
  ir_id r ∉ map ir_id (conversation_items db) -> db1 = set_items db (conversation_items db ++ [r]) ->
  appended db1 db2 rs -> appended db db2 (r :: rs).
Proof.
  intros Hr -> [Hdb Hn Hf]. simpl in *. split.
  - rewrite Hdb. unfold set_items; simpl. by rewrite <-app_assoc.
  - simpl. constructor; [|done]. intros Hin. apply list_elem_of_fmap in Hin as (r' & Heq & Hin).
    rewrite Forall_forall in Hf. specialize (Hf _ Hin). rewrite map_app in Hf. set_solver.
  - constructor; [done|]. eapply Forall_impl; [exact Hf|]. intros r' Hr'. simpl in Hr'.
    rewrite map_app in Hr'. set_solver.
Qed.

Lemma insert_item_row_ok fk r db u db' : insert_item_row fk r db = Ok (u, db') ->
  ir_id r ∉ map ir_id (conversation_items db) /\ db' = set_items db (conversation_items db ++ [r]).
Proof.
  unfold insert_item_row. destruct (existsb _ _) eqn:E; [done|].
  destruct (existsb _ (conversation_items db)) eqn:E'; [done|]. intros H0.
  assert (Hdb : db' = set_items db (conversation_items db ++ [r])) by (by repeat case_match; simplify_eq).
  split; [|done]. intros Hin. apply list_elem_of_fmap in Hin as (r' & Heq & Hin).
  assert (Ht : existsb (fun r' => bool_decide (ir_id r' = ir_id r)) (conversation_items db) = true).
  { apply existsb_exists. exists r'. split; [by apply list_elem_of_In|]. by apply bool_decide_eq_true. }
  congruence.
Qed.

Section loops.
Context `{Sqlite} `{IdSource}.

Lemma insertConversationItem_ok item w u w' : insertConversationItem item w = (Ok u, w') ->
  ir_id (item_row_of item) ∉ map ir_id (conversation_items (w_db w)) /\
  w_db w' = set_items (w_db w) (conversation_items (w_db w) ++ [item_row_of item]).
Proof. intros (_ & Hf & _)%exec_ok. by apply insert_item_row_ok in Hf. Qed.

(** What [identified] returns: the item itself, or the item with a new id. *)
Lemma identified_ok g a item w itemID item' w' : identified g a item w = (Ok (itemID, item'), w') ->
  (ID item <> "" /\ itemID = ID item /\ item' = item) \/
  (ID item = "" /\ WithID item itemID = Ok item').
Proof.
  unfold identified. destruct (decide (ID item = "")) as [He|He].
  - intros Hb. apply st_bind_ok in Hb as (id & w1 & _ & Hb).
    apply st_bind_ok in Hb as (i2 & w2 & Hl & [= <- <- <-]).
    unfold st_lift in Hl. injection Hl as Hl _. apply wrap_err_ok in Hl. by right.
  - intros [= <- <- <-]. by left.
Qed.

Definition seqs_from (seq : Z) (rs : list item_row) : Prop :=
  map ir_seq rs = map (fun i => seq + Z.of_nat i)%Z (List.seq 0 (length rs)).

Lemma seqs_from_cons seq r rs : ir_seq r = seq -> seqs_from (seq + 1) rs -> seqs_from seq (r :: rs).
Proof.
  unfold seqs_from. intros Hr Hs. simpl. rewrite Hr, Hs, Z.add_0_r, <-seq_shift, map_map. f_equal.
  apply map_ext. intros i. lia.
Qed.

(** The row written for an item. *)
Definition row_for (c : Conversation) (source createdAt : string) (item : Item) (r : item_row) : Prop :=
  ir_conversation_id r = cv_ID c /\ ir_source r = source /\ ir_created_at r = createdAt /\
  exists item', ir_item_json r = jprint (MarshalStoredItem item') /\
    ir_item_type r = Type_ item' /\ ir_role r = nullableString (Role item') /\
    (ID item <> "" /\ ir_id r = ID item /\ item' = item \/
     ID item = "" /\ WithID item (ir_id r) = Ok item').

Lemma append_items_ok c t seq items w rows w' : append_items c t seq items w = (Ok rows, w') ->
  appended (w_db w) (w_db w') (map item_row_of rows) /\
  Forall2 (row_for c "append" t) items (map item_row_of rows) /\ seqs_from seq (map item_row_of rows).
Proof.
  revert seq w rows. induction items as [|item items IH]; intros seq w rows; simpl.
  - intros [= <- <-]. split; [apply appended_nil|]. split; [constructor|done].
  - intros Hb. apply st_bind_ok in Hb as ([id item'] & w1 & Hid & Hb).
    apply st_bind_ok in Hb as (u & w2 & Hins & Hb).
    apply st_bind_ok in Hb as (rows' & w3 & Hrec & [= <- <-]).
    pose proof (identified_read_only _ _ _ _ _ _ Hid) as Hd. apply identified_ok in Hid.
    apply insertConversationItem_ok in Hins as [Hf Hw2]. apply IH in Hrec as (Happ & Hall & Hseq).
    rewrite Hd in Hf, Hw2. simpl. split; [|split].
    + by eapply appended_cons.
    + constructor; [|done]. repeat split. exists item'. repeat split. simpl. exact Hid.
    + by apply seqs_from_cons.
Qed.

Lemma seed_items_ok c seq items w u w' : seed_items c seq items w = (Ok u, w') ->
  exists rs, appended (w_db w) (w_db w') rs /\
    Forall2 (row_for c "seed" (cv_CreatedAt c)) items rs /\ seqs_from seq rs.
Proof.
  revert seq w. induction items as [|item items IH]; intros seq w; simpl.
  - intros [= <- <-]. exists []. split; [apply appended_nil|]. split; [constructor|done].
  - intros Hb. apply st_bind_ok in Hb as ([id item'] & w1 & Hid & Hb).
    apply st_bind_ok in Hb as (u' & w2 & Hins & Hrec).
    pose proof (identified_read_only _ _ _ _ _ _ Hid) as Hd. apply identified_ok in Hid.
    apply insertConversationItem_ok in Hins as [Hf Hw2].
    apply IH in Hrec as (rs & Happ & Hall & Hseq). rewrite Hd in Hf, Hw2.
    eexists (_ :: rs). split; [by eapply appended_cons|]. split.
    + constructor; [|done]. repeat split. exists item'. repeat split. simpl. exact Hid.
    + by apply seqs_from_cons.
Qed.

(** The rows of a response, as the loop writes them. *)
Definition row_from (c : Conversation) (createdAt : string) (row : ConversationItem) (r : item_row) : Prop :=
  ir_conversation_id r = cv_ID c /\ ir_source r = ci_Source row /\ ir_created_at r = createdAt /\
  ir_seq r = ci_Seq row /\ ir_item_type r = ci_ItemType row /\ ir_role r = nullableString (ci_Role row) /\
  exists item', ir_item_json r = jprint (MarshalStoredItem item') /\
    (ID (ci_Item row) <> "" /\ ir_id r = ID (ci_Item row) /\ item' = ci_Item row \/
     ID (ci_Item row) = "" /\ WithID (ci_Item row) (ir_id r) = Ok item').

Lemma append_rows_ok c t rows w u w' : append_rows c t rows w = (Ok u, w') ->
  exists rs, appended (w_db w) (w_db w') rs /\ Forall2 (row_from c t) rows rs.
Proof.
  revert w. induction rows as [|row rows IH]; intros w; simpl.
  - intros [= <- <-]. exists []. split; [apply appended_nil|constructor].
  - intros Hb. apply st_bind_ok in Hb as ([id item'] & w1 & Hid & Hb).
    apply st_bind_ok in Hb as (u' & w2 & Hins & Hrec).
    pose proof (identified_read_only _ _ _ _ _ _ Hid) as Hd. apply identified_ok in Hid.
    apply insertConversationItem_ok in Hins as [Hf Hw2].
    apply IH in Hrec as (rs & Happ & Hall). rewrite Hd in Hf, Hw2.
    eexists (_ :: rs). split; [by eapply appended_cons|].
    constructor; [|done]. repeat split. exists item'. repeat split. simpl. exact Hid.
Qed.

Definition bumped (db : DB) (id t : string) (row : conversation_row) : DB :=
  set_conversations db
    (<[id := {| cr_version := cr_version row + 1; cr_metadata_json := cr_metadata_json row;
                cr_created_at := cr_created_at row; cr_updated_at := t |}]> (conversations db)).

Lemma lock_version_ok t c w u w' : lock_version t c w = (Ok u, w') ->
  exists row, conversations (w_db w) !! cv_ID c = Some row /\ cr_version row = cv_Version c /\
    w_db w' = bumped (w_db w) (cv_ID c) t row.
Proof.
  unfold lock_version. intros Hb. apply st_bind_ok in Hb as (n & w1 & Hx & Hb).
  apply exec_ok in Hx as (_ & Hx & _). unfold bump_version in Hx.
  destruct (conversations (w_db w) !! cv_ID c) as [row|] eqn:Er; [|injection Hx as <- Hx; done].
  destruct (decide (cr_version row = cv_Version c)) as [Hv|Hv]; [|injection Hx as <- Hx; done].
  injection Hx as <- Hx. simpl in Hb. injection Hb as _ <-. exists row. by rewrite <-Hx.
Qed.
End loops.

(** ** The invariant of the tables *)

Definition seq_lt (a b : item_row) : Prop := (ir_seq a < ir_seq b)%Z.

(** Item identifiers are unique, the rows of a conversation are in the order of
    their sequence numbers, which are not negative, and belong to a stored
    conversation. *)
Record db_inv (db : DB) : Prop := {
  inv_ids : NoDup (map ir_id (conversation_items db));
  inv_sorted : forall c, StronglySorted seq_lt (conv_items c db);
  inv_seq : Forall (fun r => 0 <= ir_seq r)%Z (conversation_items db);
  inv_conv : Forall (fun r => is_Some (conversations db !! ir_conversation_id r)) (conversation_items db)
}.

Lemma db_inv_empty : db_inv empty_db.
Proof. split; constructor. Qed.

(** Only the items and the set of conversations matter. *)
Lemma db_inv_ext db db' :
  conversation_items db' = conversation_items db ->
  (forall c, is_Some (conversations db !! c) -> is_Some (conversations db' !! c)) ->
  db_inv db -> db_inv db'.
Proof.
  intros Hi Hc [H1 H2 H3 H4]. split.
  - by rewrite Hi.
  - intros c. unfold conv_items. rewrite Hi. apply H2.
  - by rewrite Hi.
  - rewrite Hi. eapply Forall_impl; [exact H4|]. auto.
Qed.

Lemma conv_items_app c db rs : conv_items c (set_items db (conversation_items db ++ rs)) =
  conv_items c db ++ filter (fun r => ir_conversation_id r = c) rs.
Proof. unfold conv_items; simpl. by rewrite filter_app. Qed.

Lemma max_seq_ge rows r : r ∈ rows -> (ir_seq r <= max_seq rows)%Z.
Proof.
  induction rows as [|r' rows IH]; [set_solver|]. simpl. intros [->|Hin]%elem_of_cons; [lia|].
  specialize (IH Hin). lia.
Qed.

Lemma max_seq_low rows : (-1 <= max_seq rows)%Z.
Proof. induction rows as [|r rows IH]; simpl; lia. Qed.

Lemma seqs_from_lookup seq rs i r : seqs_from seq rs -> rs !! i = Some r -> ir_seq r = (seq + Z.of_nat i)%Z.
Proof.
  intros Hs Hi. assert (Hm : map ir_seq rs !! i = Some (ir_seq r)) by (by rewrite list_lookup_fmap, Hi).
  rewrite Hs in Hm. rewrite list_lookup_fmap in Hm.
  rewrite (lookup_seq_lt 0) in Hm by (by eapply lookup_lt_Some). simpl in Hm. congruence.
Qed.

Lemma seqs_from_ge seq rs : seqs_from seq rs -> Forall (fun r => seq <= ir_seq r)%Z rs.
Proof.
  intros Hs. apply Forall_forall. intros r Hr. apply list_elem_of_lookup in Hr as [i Hi].
  rewrite (seqs_from_lookup seq rs i r) by done. lia.
Qed.

Lemma seqs_from_tail seq r rs : seqs_from seq (r :: rs) -> ir_seq r = seq /\ seqs_from (seq + 1) rs.
Proof.
  unfold seqs_from. simpl. rewrite Z.add_0_r, <-seq_shift, map_map. intros [= Hr Hs]. split; [done|].
  rewrite Hs. apply map_ext. intros i. lia.
Qed.

Lemma seqs_from_sorted seq rs : seqs_from seq rs -> StronglySorted seq_lt rs.
Proof.
  revert seq. induction rs as [|r rs IH]; intros seq Hs; [constructor|].
  apply seqs_from_tail in Hs as [Hr Hs]. constructor; [by eapply IH|].
  eapply Forall_impl; [by apply seqs_from_ge|]. intros r' Hr'. unfold seq_lt. simpl in *. lia.
Qed.

(** Appending rows of one existing conversation after its last one. *)
Lemma db_inv_appended db db' rs c seq : db_inv db -> appended db db' rs ->
  Forall (fun r => ir_conversation_id r = c) rs -> seqs_from seq rs ->
  (max_seq (conv_items c db) < seq)%Z -> is_Some (conversations db !! c) -> db_inv db'.
Proof.
  intros [H1 H2 H3 H4] [-> Hn Hf] Hc Hs Hmax Hex. split; simpl.
  - rewrite map_app. apply NoDup_app. split; [done|]. split; [|done].
    intros id Hid Hin. apply list_elem_of_fmap in Hin as (r & -> & Hin).
    rewrite Forall_forall in Hf. by apply (Hf r).
  - intros c'. rewrite conv_items_app. destruct (decide (c' = c)) as [->|Hne].
    + rewrite filter_all by done. apply StronglySorted_app_2; [|apply H2|by eapply seqs_from_sorted].
      intros a b Ha%max_seq_ge Hb. pose proof (seqs_from_ge _ _ Hs) as Hge. rewrite Forall_forall in Hge.
      specialize (Hge _ Hb). unfold seq_lt. simpl in *. lia.
    + rewrite filter_none; [by rewrite app_nil_r|]. eapply Forall_impl; [exact Hc|]. naive_solver.
  - apply Forall_app. split; [done|]. eapply Forall_impl; [by eapply seqs_from_ge|].
    intros r Hr. simpl in *. pose proof (max_seq_low (conv_items c db)). lia.
  - apply Forall_app. split; [done|]. eapply Forall_impl; [exact Hc|]. by intros r ->.
Qed.

(** ** What each writer does when it succeeds *)

Section writers.
Context `{Sqlite} `{IdSource}.

Lemma CreateConversation_ok c w u w' : CreateConversation c w = (Ok u, w') ->
  exists meta rs, MarshalConversationMetadata (cv_Metadata c) = Ok meta /\
    conversations (w_db w) !! cv_ID c = None /\
    appended (set_conversations (w_db w)
      (<[cv_ID c := {| cr_version := cv_Version c; cr_metadata_json := meta;
                       cr_created_at := cv_CreatedAt c; cr_updated_at := cv_UpdatedAt c |}]>
         (conversations (w_db w)))) (w_db w') rs /\
    Forall2 (row_for c "seed" (cv_CreatedAt c)) (cv_Items c) rs /\ seqs_from 0 rs.
Proof.
  unfold CreateConversation. intros Hb. apply st_bind_ok in Hb as (meta & w1 & Hl & Hb).
  unfold st_lift in Hl. injection Hl as Hm <-.
  apply transaction_ok in Hb as (w1 & w2 & Hd & _ & Hb & Hd').
  apply st_bind_ok in Hb as (u1 & w3 & Hx & Hs). apply exec_ok in Hx as (_ & Hx & _).
  unfold insert_conversation in Hx. rewrite Hd in Hx.
  destruct (conversations (w_db w) !! cv_ID c) eqn:Ec; [done|]. injection Hx as _ Hx.
  apply seed_items_ok in Hs as (rs & Happ & Hall & Hseq). exists meta, rs.
  rewrite Hd'. rewrite <-Hx in Happ. done.
Qed.

Lemma CreateConversation_atomic c w r w' : CreateConversation c w = (r, w') ->
  is_ok r = false -> w_db w' = w_db w.
Proof.
  unfold CreateConversation, mbind, st_bind, st_lift.
  destruct (MarshalConversationMetadata _); [apply transaction_atomic|by intros [= <- <-]..].
Qed.

Lemma AppendConversationItems_ok c items t w rows w' :
  AppendConversationItems c items t w = (Ok rows, w') ->
  exists row, conversations (w_db w) !! cv_ID c = Some row /\ cr_version row = cv_Version c /\
    appended (bumped (w_db w) (cv_ID c) t row) (w_db w') (map item_row_of rows) /\
    Forall2 (row_for c "append" t) items (map item_row_of rows) /\
    seqs_from (max_seq (conv_items (cv_ID c) (w_db w)) + 1) (map item_row_of rows).
Proof.
  unfold AppendConversationItems. intros Hb.
  apply transaction_ok in Hb as (w1 & w2 & Hd & _ & Hb & Hd').
  apply st_bind_ok in Hb as (u1 & w3 & Hl & Hb). apply lock_version_ok in Hl as (row & Hr & Hv & Hdb).
  apply st_bind_ok in Hb as (seq & w4 & Hq & Hb). apply query_ok in Hq as (-> & Hd4 & _).
  apply append_items_ok in Hb as (Happ & Hall & Hseq). rewrite Hd4, Hdb, Hd in *.
  exists row. rewrite Hd'. done.
Qed.

Lemma SaveResponseAndAppendConversation_ok c r input output w u w' :
  SaveResponseAndAppendConversation c r input output w = (Ok u, w') ->
  exists row rs, conversations (w_db w) !! cv_ID c = Some row /\ cr_version row = cv_Version c /\
    responses (w_db w) !! sr_ID r = None /\
    appended (set_responses (bumped (w_db w) (cv_ID c) (sr_CompletedAt r) row)
                (<[sr_ID r := response_row_of r]> (responses (w_db w)))) (w_db w') rs /\
    Forall2 (row_from c (sr_CompletedAt r))
      (BuildConversationAppendItems (max_seq (conv_items (cv_ID c) (w_db w)) + 1) input output) rs.
Proof.
  unfold SaveResponseAndAppendConversation. intros Hb.
  apply transaction_ok in Hb as (w1 & w2 & Hd & _ & Hb & Hd').
  apply st_bind_ok in Hb as (u1 & w3 & Hl & Hb). apply lock_version_ok in Hl as (row & Hr & Hv & Hdb).
  apply st_bind_ok in Hb as (u2 & w4 & Hx & Hb). apply exec_ok in Hx as (_ & Hx & _).
  rewrite Hdb, Hd in Hx. simpl in Hx.
  destruct (responses (w_db w) !! sr_ID r) eqn:Er; [done|]. injection Hx as _ Hx.
  apply st_bind_ok in Hb as (seq & w5 & Hq & Hb). apply query_ok in Hq as (-> & Hd5 & _).
  apply append_rows_ok in Hb as (rs & Happ & Hall). rewrite Hd5, <-Hx in *. rewrite Hd in Hr.
  exists row, rs. rewrite Hd'. done.
Qed.

Lemma DeleteConversationItem_ok c itemID t w u w' :
  DeleteConversationItem c itemID t w = (Ok u, w') ->
  exists row, conversations (w_db w) !! cv_ID c = Some row /\ cr_version row = cv_Version c /\
    (exists r, r ∈ conv_items (cv_ID c) (w_db w) /\ ir_id r = itemID) /\
    w_db w' = set_items (bumped (w_db w) (cv_ID c) t row)
      (filter (fun r => bool_decide (ir_conversation_id r = cv_ID c) && bool_decide (ir_id r = itemID) = false)
              (conversation_items (w_db w))).
Proof.
  unfold DeleteConversationItem. intros Hb.
  apply transaction_ok in Hb as (w1 & w2 & Hd & _ & Hb & Hd').
  apply st_bind_ok in Hb as (u1 & w3 & Hl & Hb). apply lock_version_ok in Hl as (row & Hr & Hv & Hdb).
  apply st_bind_ok in Hb as (n & w4 & Hx & Hb). apply exec_ok in Hx as (_ & Hx & _).
  unfold delete_item_rows in Hx. injection Hx as Hn Hx. rewrite Hdb, Hd in *. simpl in *.
  exists row. split; [done|]. split; [done|].
  case_decide as Hz; [done|]. injection Hb as _ <-. split; [|by rewrite Hd'].
  destruct (filter _ (conversation_items (w_db w))) as [|r l] eqn:Ef; [simpl in Hn; lia|].
  assert (Hin : r ∈ r :: l) by set_solver. rewrite <-Ef in Hin.
  apply list_elem_of_filter in Hin as [Hh Hin]. apply andb_true_iff in Hh as [Hc Hi].
  apply bool_decide_eq_true in Hc, Hi. exists r. split; [|done].
  apply list_elem_of_filter. done.
Qed.

Lemma conv_items_bumped c id t row db : conv_items c (bumped db id t row) = conv_items c db.
Proof. done. Qed.

Lemma row_for_conv c source t items rs : Forall2 (row_for c source t) items rs ->
  Forall (fun r => ir_conversation_id r = cv_ID c) rs.
Proof. induction 1 as [|i r items rs (Hc & _) Hall IH]; by constructor. Qed.

Lemma row_from_conv c t rows rs : Forall2 (row_from c t) rows rs ->
  Forall (fun r => ir_conversation_id r = cv_ID c) rs /\ map ir_seq rs = map ci_Seq rows.
Proof.
  induction 1 as [|row r rows rs (Hc & _ & _ & Hs & _) Hall [IH1 IH2]]; [done|].
  split; [by constructor|]. simpl. by rewrite Hs, IH2.
Qed.

Lemma db_inv_bumped db id t row : db_inv db -> db_inv (bumped db id t row).
Proof.
  apply db_inv_ext; [done|]. intros c Hc. simpl. apply lookup_insert_is_Some. destruct (decide (id = c)); auto.
Qed.

(** The rows a response appends are numbered like the appended items. *)
Lemma number_rows_seqs source seq items : map ci_Seq (number_items source seq items) =
  map (fun i => seq + Z.of_nat i)%Z (List.seq 0 (length items)).
Proof. apply number_items_seqs. Qed.

Lemma append_items_seqs seq input output :
  map ci_Seq (BuildConversationAppendItems seq input output) =
  map (fun i => seq + Z.of_nat i)%Z (List.seq 0 (length input + length output)).
Proof.
  unfold BuildConversationAppendItems. rewrite map_app, !number_items_seqs, seq_app, map_app. f_equal.
  pose proof (fmap_add_seq (length input) 0 (length output)) as E. rewrite Nat.add_0_r in E.
  simpl. rewrite <-E. change (fmap ?f ?l) with (map f l). rewrite map_map.
  apply map_ext. intros i. lia.
Qed.

Lemma append_items_length seq input output :
  length (BuildConversationAppendItems seq input output) = length input + length output.
Proof. unfold BuildConversationAppendItems. by rewrite length_app, !number_items_length. Qed.

Lemma row_from_seqs c t seq input output rs :
  Forall2 (row_from c t) (BuildConversationAppendItems seq input output) rs -> seqs_from seq rs.
Proof.
  intros Hall. pose proof (Forall2_length _ _ _ Hall) as Hlen. apply row_from_conv in Hall as [_ Hs].
  unfold seqs_from. by rewrite Hs, append_items_seqs, <-Hlen, append_items_length.
Qed.

(** *** The invariant is kept *)

Lemma CreateConversation_inv c w r w' : CreateConversation c w = (r, w') ->
  db_inv (w_db w) -> db_inv (w_db w').
Proof.
  intros Hb Hinv. destruct (is_ok r) eqn:Hr.
  - destruct r as [u| |]; try done.
    apply CreateConversation_ok in Hb as (meta & rs & _ & Hnone & Happ & Hall & Hseq).
    eapply (db_inv_appended _ _ _ (cv_ID c) 0); [|exact Happ|by eapply row_for_conv|done| |].
    + eapply db_inv_ext; [..|exact Hinv]; [done|]. intros c' Hc'. simpl.
      destruct (decide (cv_ID c = c')) as [<-|Hne]; [by rewrite lookup_insert_eq|].
      by rewrite lookup_insert_ne.
    + unfold conv_items. simpl. rewrite filter_none; [done|].
      eapply Forall_impl; [apply (inv_conv _ Hinv)|]. intros r' [x Hx] Heq. congruence.
    + simpl. by rewrite lookup_insert_eq.
  - unfold CreateConversation, mbind, st_bind, st_lift in Hb.
    destruct (MarshalConversationMetadata _); [|by injection Hb as <- <-..].
    by rewrite (transaction_atomic _ _ _ _ _ _ Hb Hr).
Qed.

Lemma AppendConversationItems_inv c items t w r w' : AppendConversationItems c items t w = (r, w') ->
  db_inv (w_db w) -> db_inv (w_db w').
Proof.
  intros Hb Hinv. destruct (is_ok r) eqn:Hr; [|by rewrite (transaction_atomic _ _ _ _ _ _ Hb Hr)].
  destruct r as [rows| |]; try done.
  apply AppendConversationItems_ok in Hb as (row & Hrow & _ & Happ & Hall & Hseq).
  eapply (db_inv_appended _ _ _ (cv_ID c)); [by apply db_inv_bumped|exact Happ|by eapply row_for_conv|
    exact Hseq|rewrite conv_items_bumped; lia|]. simpl. by rewrite lookup_insert_eq.
Qed.

Lemma SaveResponseAndAppendConversation_inv c resp input output w r w' :
  SaveResponseAndAppendConversation c resp input output w = (r, w') ->
  db_inv (w_db w) -> db_inv (w_db w').
Proof.
  intros Hb Hinv. destruct (is_ok r) eqn:Hr; [|by rewrite (transaction_atomic _ _ _ _ _ _ Hb Hr)].
  destruct r as [u| |]; try done.
  apply SaveResponseAndAppendConversation_ok in Hb as (row & rs & Hrow & _ & _ & Happ & Hall).
  eapply (db_inv_appended _ _ _ (cv_ID c)); [|exact Happ|by eapply row_from_conv|by eapply row_from_seqs| |].
  - eapply db_inv_ext; [..|by apply (db_inv_bumped _ (cv_ID c) (sr_CompletedAt resp) row Hinv)]; done.
  - unfold conv_items; simpl. unfold conv_items. lia.
  - simpl. by rewrite lookup_insert_eq.
Qed.

Lemma DeleteConversationItem_inv c id t w r w' : DeleteConversationItem c id t w = (r, w') ->
  db_inv (w_db w) -> db_inv (w_db w').
Proof.
  intros Hb Hinv. destruct (is_ok r) eqn:Hr; [|by rewrite (transaction_atomic _ _ _ _ _ _ Hb Hr)].
  destruct r as [u| |]; try done.
  apply DeleteConversationItem_ok in Hb as (row & Hrow & _ & _ & ->).
  apply (db_inv_bumped _ (cv_ID c) t row) in Hinv as [H1 H2 H3 H4]. split; simpl.
  - by apply NoDup_map_filter.
  - intros c'. unfold conv_items; simpl. rewrite filter_comm. apply StronglySorted_filtered, H2.
  - by apply Forall_filtered.
  - by apply Forall_filtered.
Qed.
End writers.
