(* ===== verification/StoreProps.v ===== *)
(** * Properties of the store

    What every sequence of store operations guarantees: the invariant of the
    tables, atomicity, freedom from lost updates, what is read back, paging and
    response lineages. *)

From S2P Require Import Prelude GoStr GoFloat GoJson JsonFacts World Items ItemFacts Normalize Context Store StoreFacts.

(** ** Reachable databases *)

Section steps.
Context `{Sqlite} `{IdSource}.

(** One call of a method that writes, with any arguments, whether it succeeds
    or not. *)
Inductive store_step : DB -> DB -> Prop :=
| step_create c w r w' : CreateConversation c w = (r, w') -> store_step (w_db w) (w_db w')
| step_append c items t w r w' :
    AppendConversationItems c items t w = (r, w') -> store_step (w_db w) (w_db w')
| step_save_append c resp input output w r w' :
    SaveResponseAndAppendConversation c resp input output w = (r, w') -> store_step (w_db w) (w_db w')
| step_delete_item c id t w r w' :
    DeleteConversationItem c id t w = (r, w') -> store_step (w_db w) (w_db w')
| step_save_response resp w r w' : SaveResponse resp w = (r, w') -> store_step (w_db w) (w_db w')
| step_delete_response id w r w' : DeleteResponse id w = (r, w') -> store_step (w_db w) (w_db w')
| step_save_artifacts id arts w r w' :
    SaveResponseReplayArtifacts id arts w = (r, w') -> store_step (w_db w) (w_db w').

(** Neither conversations nor their items are touched. *)
Definition same_conversations (db db' : DB) : Prop :=
  conversations db' = conversations db /\ conversation_items db' = conversation_items db.

Lemma same_conversations_refl db : same_conversations db db.
Proof. done. Qed.

Lemma SaveResponse_same resp w r w' : SaveResponse resp w = (r, w') ->
  same_conversations (w_db w) (w_db w').
Proof. unfold SaveResponse, exec. destruct (stmt_fails _); by intros [= <- <-]. Qed.

Lemma DeleteResponse_db id w r w' : DeleteResponse id w = (r, w') ->
  w_db w' = w_db w \/ exists fk n, delete_response_row fk id (w_db w) = Ok (n, w_db w').
Proof.
  unfold DeleteResponse, mbind, st_bind, exec. destruct (stmt_fails _); [by intros [= <- <-]; left|].
  destruct (delete_response_row _ _ _) as [[n db]| |] eqn:E; [|by intros [= <- <-]; left..].
  intros Hb. right. exists (conn_fk (w_stmts w)), n. rewrite E. simpl in Hb.
  case_decide; by injection Hb as <- <-.
Qed.

Lemma delete_response_row_same fk id db n db' : delete_response_row fk id db = Ok (n, db') ->
  same_conversations db db'.
Proof.
  unfold delete_response_row. destruct (responses db !! id); [|by intros [= <- <-]].
  destruct fk; by intros [= <- <-].
Qed.

Lemma DeleteResponse_same id w r w' : DeleteResponse id w = (r, w') ->
  same_conversations (w_db w) (w_db w').
Proof.
  intros [->|(fk & n & E)]%DeleteResponse_db; [done|]. by eapply delete_response_row_same.
Qed.

Lemma insert_artifact_row_ok fk a db u db' : insert_artifact_row fk a db = Ok (u, db') ->
  db' = set_artifacts db (response_replay_artifacts db ++ [a]) /\
  Forall (fun a' => ~ (ar_response_id a' = ar_response_id a /\
                       ar_sequence_number a' = ar_sequence_number a)) (response_replay_artifacts db).
Proof.
  unfold insert_artifact_row. destruct (existsb _ _) eqn:E; [done|]. intros H1.
  split; [by repeat case_match; simplify_eq|]. apply Forall_forall. intros a' Hin [He1 He2].
  apply not_true_iff_false in E. apply E, existsb_exists. exists a'.
  split; [by apply list_elem_of_In|]. by rewrite !bool_decide_eq_true_2.
Qed.

Lemma artifact_loop_same id next total n arts w r w' :
  artifact_loop id next total n arts w = (r, w') -> same_conversations (w_db w) (w_db w').
Proof.
  revert next total n w. induction arts as [|a arts IH]; intros next total n w; simpl.
  - by intros [= <- <-].
  - case_decide; [apply IH|]. case_decide; [by intros [= <- <-]|]. case_decide; [by intros [= <- <-]|].
    unfold mbind at 1, st_bind at 1. destruct (exec _ _ w) as [[u|e|] w1] eqn:E.
    + apply exec_ok in E as (_ & Hf & _). apply insert_artifact_row_ok in Hf as [Hw1 _].
      intros [Hs1 Hs2]%IH. rewrite Hw1 in *. done.
    + intros [= <- <-]. by rewrite (exec_not_ok _ _ _ _ _ E).
    + intros [= <- <-]. by rewrite (exec_not_ok _ _ _ _ _ E).
Qed.

Lemma SaveResponseReplayArtifacts_same id arts w r w' :
  SaveResponseReplayArtifacts id arts w = (r, w') -> same_conversations (w_db w) (w_db w').
Proof.
  unfold SaveResponseReplayArtifacts. case_decide; [by intros [= <- <-]|].
  intros Hb. destruct (is_ok r) eqn:Hr.
  2: { destruct arts; by rewrite (transaction_atomic _ _ _ _ _ _ Hb Hr). }
  destruct r as [u| |]; try done. destruct arts as [|a arts].
  - apply transaction_ok in Hb as (w1 & w2 & Hd & _ & Hx & Hd').
    apply exec_ok in Hx as (_ & Hx & _). injection Hx as _ Hx. by rewrite Hd', <-Hx, Hd.
  - apply transaction_ok in Hb as (w1 & w2 & Hd & _ & Hx & Hd').
    apply st_bind_ok in Hx as (u1 & w3 & Hx & Hb). apply exec_ok in Hx as (_ & Hx & _).
    injection Hx as _ Hx. apply st_bind_ok in Hb as (u2 & w4 & Hq & Hb).
    apply query_ok in Hq as (_ & Hd4 & _). apply artifact_loop_same in Hb.
    by rewrite Hd', <-Hd, Hd4, <-Hx in *.
Qed.

Lemma db_inv_same db db' : same_conversations db db' -> db_inv db -> db_inv db'.
Proof. intros [Hc Hi]. apply db_inv_ext; [done|]. by rewrite Hc. Qed.

Lemma store_step_inv db db' : store_step db db' -> db_inv db -> db_inv db'.
Proof.
  destruct 1 as [c w r w' Hb|c items t w r w' Hb|c resp i o w r w' Hb|c id t w r w' Hb
                |resp w r w' Hb|id w r w' Hb|id arts w r w' Hb].
  - by eapply CreateConversation_inv.
  - by eapply AppendConversationItems_inv.
  - by eapply SaveResponseAndAppendConversation_inv.
  - by eapply DeleteConversationItem_inv.
  - eapply db_inv_same, SaveResponse_same, Hb.
  - eapply db_inv_same, DeleteResponse_same, Hb.
  - eapply db_inv_same, SaveResponseReplayArtifacts_same, Hb.
Qed.

(** ** Versions *)

(** Between [db] and [db'], conversation [c] only moved forward, and did not
    change at all unless its version did. *)
Definition advanced (c : string) (db db' : DB) : Prop :=
  forall row, conversations db !! c = Some row ->
  exists row', conversations db' !! c = Some row' /\ (cr_version row <= cr_version row')%Z /\
    (cr_version row' = cr_version row -> row' = row /\ conv_items c db' = conv_items c db).

Lemma advanced_refl c db : advanced c db db.
Proof. intros row Hr. exists row. split; [done|]. split; [lia|done]. Qed.

Lemma advanced_trans c db1 db2 db3 : advanced c db1 db2 -> advanced c db2 db3 -> advanced c db1 db3.
Proof.
  intros H1 H2 row Hr. destruct (H1 row Hr) as (row2 & Hr2 & Hle & Heq).
  destruct (H2 row2 Hr2) as (row3 & Hr3 & Hle' & Heq'). exists row3. split; [done|]. split; [lia|].
  intros Hv. destruct Heq' as [-> Hi']; [lia|]. destruct Heq as [-> Hi]; [lia|]. split; [done|congruence].
Qed.

Lemma advanced_same c db db' : same_conversations db db' -> advanced c db db'.
Proof.
  intros [Hc Hi] row Hr. exists row. rewrite Hc. split; [done|]. split; [lia|]. intros _.
  split; [done|]. unfold conv_items. by rewrite Hi.
Qed.

(** Rows of another conversation. *)
Lemma appended_other c c' db db' rs : appended db db' rs ->
  Forall (fun r => ir_conversation_id r = c') rs -> c <> c' -> conv_items c db' = conv_items c db.
Proof.
  intros [-> _ _] Hall Hne. rewrite conv_items_app, filter_none; [by rewrite app_nil_r|].
  eapply Forall_impl; [exact Hall|]. intros r Hr Hr'. congruence.
Qed.

(** A writer that bumps the version of [c'] and touches only its rows. *)
Lemma advanced_bumped c c' t row db db' :
  conversations db !! c' = Some row -> conversations db' = conversations (bumped db c' t row) ->
  (c <> c' -> conv_items c db' = conv_items c db) -> advanced c db db'.
Proof.
  intros Hrow Hc Hi row0 Hr0. rewrite Hc. simpl. destruct (decide (c = c')) as [->|Hne].
  - rewrite lookup_insert_eq. rewrite Hrow in Hr0. injection Hr0 as <-.
    eexists. split; [done|]. simpl. split; [lia|]. intros ?. lia.
  - rewrite lookup_insert_ne by done. exists row0. split; [done|]. split; [lia|]. auto.
Qed.

Lemma store_step_advanced c db db' : store_step db db' -> advanced c db db'.
Proof.
  destruct 1 as [c' w r w' Hb|c' items t w r w' Hb|c' resp i o w r w' Hb|c' id t w r w' Hb
                |resp w r w' Hb|id w r w' Hb|id arts w r w' Hb].
  5: { by eapply advanced_same, SaveResponse_same. }
  5: { by eapply advanced_same, DeleteResponse_same. }
  5: { by eapply advanced_same, SaveResponseReplayArtifacts_same. }
  all: destruct (is_ok r) eqn:Hr;
    [destruct r as [u| |]; try done
    |try (rewrite (transaction_atomic _ _ _ _ _ _ Hb Hr); apply advanced_refl)].
  - apply CreateConversation_ok in Hb as (meta & rs & _ & Hnone & Happ & Hall & _).
    intros row Hrow. assert (c <> cv_ID c') by congruence.
    exists row. destruct Happ as [-> ? ?]. simpl. rewrite lookup_insert_ne by done.
    split; [done|]. split; [lia|]. intros _. split; [done|].
    unfold conv_items; simpl. rewrite filter_app, (filter_none _ rs); [by rewrite app_nil_r|].
    apply row_for_conv in Hall. eapply Forall_impl; [exact Hall|]. intros r Hr' Hr''. congruence.
  - rewrite (CreateConversation_atomic _ _ _ _ Hb Hr). apply advanced_refl.
  - apply AppendConversationItems_ok in Hb as (row & Hrow & _ & Happ & Hall & _).
    eapply advanced_bumped; [exact Hrow|by destruct Happ as [-> _ _]|].
    intros Hne. by rewrite (appended_other _ _ _ _ _ Happ (row_for_conv _ _ _ _ _ Hall) Hne).
  - apply SaveResponseAndAppendConversation_ok in Hb as (row & rs & Hrow & _ & _ & Happ & Hall).
    eapply advanced_bumped; [exact Hrow|by destruct Happ as [-> _ _]|].
    intros Hne. by rewrite (appended_other _ _ _ _ _ Happ (proj1 (row_from_conv _ _ _ _ Hall)) Hne).
  - apply DeleteConversationItem_ok in Hb as (row & Hrow & _ & _ & ->).
    eapply advanced_bumped; [exact Hrow|done|]. intros Hne. unfold conv_items; simpl.
    rewrite filter_comm. apply filter_all, Forall_forall. intros r [Hr' _]%list_elem_of_filter.
    rewrite bool_decide_eq_false_2; [done|]. congruence.
Qed.

Lemma store_steps_advanced c db db' : rtc store_step db db' -> advanced c db db'.
Proof.
  induction 1 as [db|db1 db2 db3 Hs Hrec IH]; [apply advanced_refl|].
  eapply advanced_trans; [by apply store_step_advanced|done].
Qed.

Lemma store_steps_inv db db' : rtc store_step db db' -> db_inv db -> db_inv db'.
Proof. induction 1 as [db|db1 db2 db3 Hs Hrec IH]; [done|]. intros Hi. by eapply IH, store_step_inv. Qed.
End steps.

(** A database that never fails and enforces foreign keys, and one whose other
    connections do not enforce them. *)
Definition reliable : Sqlite := {| stmt_fails _ := false; conn_fk _ := true |}.
Definition unenforced : Sqlite := {| stmt_fails _ := false; conn_fk _ := false |}.

Definition demo_item_row (id text : string) : Item :=
  match NewItem (sq "{'id':'" +:+ id +:+ sq "','role':'user','content':'" +:+ text +:+ sq "'}") with
  | Ok i => i | _ => zeroItem end.

Definition demo_conversation : Conversation :=
  {| cv_ID := "conv_1"; cv_Object := "conversation"; cv_Metadata := [("k", "v")];
     cv_Items := [demo_item_row "a" "one"; demo_item_row "b" "two"]; cv_Version := 1;
     cv_CreatedAt := "t0"; cv_UpdatedAt := "t0" |}.

Definition start : world := {| w_db := empty_db; w_ids := 0; w_stmts := 0 |}.

(** The world after [m] ran in [w]. *)
Definition after {A} (m : ST world A) (w : world) : world := (m w).2.

Definition demo_world : world := after (@CreateConversation reliable zeros_ids demo_conversation) start.

(** C1 (invariant): in every database the store can reach, whatever fails on
    the way, item identifiers are unique across conversations, and the rows of
    each conversation carry non-negative, strictly increasing sequence numbers
    in insertion order and belong to a stored conversation. *)
Theorem store_invariant `{Sqlite} `{IdSource} db : rtc store_step empty_db db -> db_inv db.
Proof. intros Hs. eapply store_steps_inv; [exact Hs|apply db_inv_empty]. Qed.

Lemma store_invariant_witness : db_inv (w_db demo_world).
Proof.
  apply (@store_invariant reliable zeros_ids). apply rtc_once.
  apply (step_create demo_conversation start (Ok tt) demo_world). vm_compute. reflexivity.
Defined.

(** C3 (safety): the methods that write to several rows are atomic: when one
    of them does not return normally, because of a validation, a constraint, a
    version conflict, a failing statement, a failing commit or a panic, the
    database is what it was before. *)
Theorem store_writes_atomic `{Sqlite} `{IdSource} w :
  (forall c r w', CreateConversation c w = (r, w') -> is_ok r = false -> w_db w' = w_db w) /\
  (forall c items t r w', AppendConversationItems c items t w = (r, w') -> is_ok r = false ->
     w_db w' = w_db w) /\
  (forall c resp input output r w', SaveResponseAndAppendConversation c resp input output w = (r, w') ->
     is_ok r = false -> w_db w' = w_db w) /\
  (forall c id t r w', DeleteConversationItem c id t w = (r, w') -> is_ok r = false -> w_db w' = w_db w) /\
  (forall id arts r w', SaveResponseReplayArtifacts id arts w = (r, w') -> is_ok r = false ->
     w_db w' = w_db w).
Proof.
  split; [|split; [|split; [|split]]].
  - intros c r w'. apply CreateConversation_atomic.
  - intros c items t r w' Hb Hr. by eapply transaction_atomic.
  - intros c resp input output r w' Hb Hr. by eapply transaction_atomic.
  - intros c id t r w' Hb Hr. by eapply transaction_atomic.
  - intros id arts r w' Hb Hr. unfold SaveResponseReplayArtifacts in Hb.
    case_decide; [by injection Hb as <- <-|]. destruct arts; by eapply transaction_atomic.
Qed.

(** C2 (safety): no update is lost.  If a conversation was read, any
    operations ran in between, and an append made with what was read succeeds,
    then nothing was added to or removed from the conversation in between: it
    now holds exactly the items that were read, followed by the new ones. *)
Theorem append_after_read `{Sqlite} `{IdSource} w1 c conv items w1' w2 new t rows w2' :
  GetConversation c w1 = (Ok (conv, items), w1') ->
  rtc store_step (w_db w1') (w_db w2) ->
  AppendConversationItems conv new t w2 = (Ok rows, w2') ->
  conv_items c (w_db w2) = conv_items c (w_db w1) /\
  conv_items c (w_db w2') = conv_items c (w_db w1) ++ map item_row_of rows.
Proof.
  intros Hget Hsteps Happ. pose proof (GetConversation_read_only _ _ _ _ Hget) as Hd. rewrite Hd in Hsteps.
  unfold GetConversation in Hget. apply st_bind_ok in Hget as (found & wa & Hq & Hget).
  apply query_ok in Hq as (-> & _). destruct (conversations (w_db w1) !! c) as [row|] eqn:Erow; [|done].
  apply st_bind_ok in Hget as (meta & wb & _ & Hget). apply st_bind_ok in Hget as (rs & wc & _ & Hget).
  apply st_bind_ok in Hget as (its & wd & _ & Hget). injection Hget as <- _ _.
  apply AppendConversationItems_ok in Happ as (row2 & Hrow2 & Hv2 & Happ & Hall & _). simpl in *.
  destruct (store_steps_advanced c _ _ Hsteps row Erow) as (row2' & Hrow2' & _ & Heq).
  rewrite Hrow2 in Hrow2'. injection Hrow2' as <-. destruct (Heq Hv2) as [_ Hitems]. split; [done|].
  destruct Happ as [-> _ _]. rewrite conv_items_app, conv_items_bumped, Hitems. f_equal.
  apply filter_all. exact (row_for_conv _ _ _ _ _ Hall).
Qed.

Definition demo_read : Conversation * list ConversationItem :=
  match (@GetConversation reliable "conv_1" demo_world).1 with Ok x => x | _ => (demo_conversation, []) end.
Definition demo_append : ST world (list ConversationItem) :=
  @AppendConversationItems reliable zeros_ids demo_read.1 [demo_item_row "c" "three"] "t1".
Definition demo_rows : list ConversationItem :=
  match (demo_append demo_world).1 with Ok x => x | _ => [] end.

Lemma append_after_read_witness :
  conv_items "conv_1" (w_db demo_world) = conv_items "conv_1" (w_db demo_world) /\
  conv_items "conv_1" (w_db (after demo_append demo_world)) =
    conv_items "conv_1" (w_db demo_world) ++ map item_row_of demo_rows.
Proof.
  apply (@append_after_read reliable zeros_ids demo_world "conv_1" demo_read.1 demo_read.2
           (after (@GetConversation reliable "conv_1") demo_world) demo_world
           [demo_item_row "c" "three"] "t1" demo_rows (after demo_append demo_world)).
  - vm_compute. reflexivity.
  - apply rtc_refl.
  - vm_compute. reflexivity.
Defined.

(** Fact (safety): the same for a response stored with its conversation: it is
    stored only if the conversation still is what was read, and then the
    response's input and output items follow the items that were read. *)
Theorem response_append_after_read `{Sqlite} `{IdSource} w1 c conv items w1' w2 resp input output w2' :
  GetConversation c w1 = (Ok (conv, items), w1') ->
  rtc store_step (w_db w1') (w_db w2) ->
  SaveResponseAndAppendConversation conv resp input output w2 = (Ok tt, w2') ->
  responses (w_db w2') !! sr_ID resp = Some (response_row_of resp) /\
  exists rs, conv_items c (w_db w2') = conv_items c (w_db w1) ++ rs /\
    Forall2 (row_from conv (sr_CompletedAt resp))
      (BuildConversationAppendItems (max_seq (conv_items c (w_db w1)) + 1) input output) rs.
Proof.
  intros Hget Hsteps Happ. pose proof (GetConversation_read_only _ _ _ _ Hget) as Hd. rewrite Hd in Hsteps.
  unfold GetConversation in Hget. apply st_bind_ok in Hget as (found & wa & Hq & Hget).
  apply query_ok in Hq as (-> & _). destruct (conversations (w_db w1) !! c) as [row|] eqn:Erow; [|done].
  apply st_bind_ok in Hget as (meta & wb & _ & Hget). apply st_bind_ok in Hget as (rs & wc & _ & Hget).
  apply st_bind_ok in Hget as (its & wd & _ & Hget). injection Hget as <- _ _.
  apply SaveResponseAndAppendConversation_ok in Happ as (row2 & rs2 & Hrow2 & Hv2 & _ & Happ & Hall).
  simpl in Hrow2, Hv2, Hall. simpl cv_ID in *.
  destruct (store_steps_advanced c _ _ Hsteps row Erow) as (row2' & Hrow2' & _ & Heq).
  rewrite Hrow2 in Hrow2'. injection Hrow2' as <-. destruct (Heq Hv2) as [_ Hitems].
  rewrite Hitems in Hall. destruct Happ as [-> _ _]. split; [simpl; by rewrite lookup_insert_eq|].
  exists rs2. split; [|done]. unfold conv_items at 1; simpl. rewrite filter_app.
  change (filter _ (conversation_items (w_db w2))) with (conv_items c (w_db w2)). rewrite Hitems.
  f_equal. apply filter_all. exact (proj1 (row_from_conv _ _ _ _ Hall)).
Qed.

(** ** Reading in order *)

Lemma sort_asc l : StronglySorted seq_lt l -> sort_by seq_asc l = l.
Proof. apply sort_by_increasing. unfold seq_lt, seq_asc. intros x y Hy. apply Z.leb_le. lia. Qed.

Lemma sort_desc l : StronglySorted seq_lt l -> sort_by seq_desc l = reverse l.
Proof. apply sort_by_decreasing. unfold seq_lt, seq_desc. intros x y Hy. apply Z.leb_gt. lia. Qed.

(** What reading an item back gives. *)
Definition stored_view (i : Item) : Item := match Meta i with Some _ => escaped i | None => i end.

Lemma unmarshal_stored_view i : storable i ->
  UnmarshalStoredItem (jprint (MarshalStoredItem i)) = Ok (stored_view i).
Proof.
  intros Hs. destruct (MarshalStoredItem_obj i Hs) as (l & Hl & Hw & _).
  unfold UnmarshalStoredItem. rewrite Hl, TrimSpace_obj, jparse_jprint by done.
  rewrite decide_False by done. rewrite <-Hl. by apply unmarshal_stored_item.
Qed.

(** A row scanned back from what insertConversationItem wrote. *)
Definition scanned (row : ConversationItem) : ConversationItem :=
  {| ci_ID := ci_ID row; ci_ConversationID := ci_ConversationID row; ci_Seq := ci_Seq row;
     ci_Source := ci_Source row; ci_Role := ci_Role row; ci_ItemType := ci_ItemType row;
     ci_Item := stored_view (ci_Item row); ci_CreatedAt := ci_CreatedAt row |}.

Lemma nullable_default s : default "" (nullableString s) = s.
Proof. unfold nullableString. by case_decide. Qed.

Lemma scan_item_row_of row : storable (ci_Item row) ->
  scan_conversation_item (item_row_of row) = Ok (scanned row).
Proof.
  intros Hs. unfold scan_conversation_item. simpl. rewrite unmarshal_stored_view by done. simpl.
  by rewrite nullable_default.
Qed.

Section reading.
Context `{Sqlite} `{IdSource}.
Hypothesis no_fault : forall n, stmt_fails n = false.

(** GetConversation on a database without faults. *)
Lemma GetConversation_run c w row meta items :
  db_inv (w_db w) -> conversations (w_db w) !! c = Some row ->
  UnmarshalConversationMetadata (cr_metadata_json row) = Ok meta ->
  scanConversationItems (conv_items c (w_db w)) = Ok items ->
  exists w', GetConversation c w =
    (Ok ({| cv_ID := c; cv_Object := "conversation"; cv_Metadata := meta;
            cv_Items := map ci_Item items; cv_Version := cr_version row;
            cv_CreatedAt := cr_created_at row; cv_UpdatedAt := cr_updated_at row |}, items), w').
Proof.
  intros Hinv Hrow Hmeta Hscan. unfold GetConversation, mbind, st_bind.
  rewrite query_run by auto. cbn [w_db]. rewrite Hrow. unfold st_lift. rewrite Hmeta.
  rewrite query_run by auto. cbn [w_db]. rewrite sort_asc by apply (inv_sorted _ Hinv).
  rewrite Hscan. by eexists.
Qed.

Lemma GetConversation_inv c w conv items w' : GetConversation c w = (Ok (conv, items), w') ->
  db_inv (w_db w) ->
  exists row meta, conversations (w_db w) !! c = Some row /\
    UnmarshalConversationMetadata (cr_metadata_json row) = Ok meta /\
    scanConversationItems (conv_items c (w_db w)) = Ok items /\ w_db w' = w_db w /\
    conv = {| cv_ID := c; cv_Object := "conversation"; cv_Metadata := meta;
              cv_Items := map ci_Item items; cv_Version := cr_version row;
              cv_CreatedAt := cr_created_at row; cv_UpdatedAt := cr_updated_at row |}.
Proof.
  intros Hget Hinv. pose proof (GetConversation_read_only _ _ _ _ Hget) as Hd.
  unfold GetConversation in Hget. apply st_bind_ok in Hget as (found & wa & Hq & Hget).
  apply query_ok in Hq as (-> & Hda & _). destruct (conversations (w_db w) !! c) as [row|] eqn:Erow; [|done].
  apply st_bind_ok in Hget as (meta & wb & Hm & Hget). injection Hm as Hm <-.
  apply st_bind_ok in Hget as (rs & wc & Hq & Hget). apply query_ok in Hq as (-> & _ & _).
  apply st_bind_ok in Hget as (its & wd & Hs & Hget). injection Hs as Hs _.
  injection Hget as <- <- _. rewrite Hda, sort_asc in Hs by apply (inv_sorted _ Hinv).
  exists row, meta. done.
Qed.

(** The rows AppendConversationItems returns, for items that have identifiers. *)
Lemma append_items_rows c t seq items w rows w' :
  append_items c t seq items w = (Ok rows, w') -> Forall (fun i => ID i <> "") items ->
  map ci_Item rows = items /\ map ci_ID rows = map ID items.
Proof.
  revert seq w rows. induction items as [|item items IH]; intros seq w rows; simpl.
  - intros [= <- <-] _. done.
  - intros Hb [Hid Hall]%Forall_cons. apply st_bind_ok in Hb as ([id item'] & w1 & Hi & Hb).
    apply st_bind_ok in Hb as (u & w2 & _ & Hb). apply st_bind_ok in Hb as (rows' & w3 & Hrec & [= <- <-]).
    apply identified_ok in Hi as [(_ & -> & ->)|[? _]]; [|done].
    destruct (IH _ _ _ Hrec Hall) as [IH1 IH2]. simpl. by rewrite IH1, IH2.
Qed.
End reading.

(** Scanning the rows written for items that have identifiers. *)
Lemma scan_rows_for c source t items rs : Forall2 (row_for c source t) items rs ->
  Forall storable items -> Forall (fun i => ID i <> "") items ->
  exists cis, scanConversationItems rs = Ok cis /\
    map ci_Item cis = map stored_view items /\ map ci_ID cis = map ID items /\
    map ci_Seq cis = map ir_seq rs.
Proof.
  induction 1 as [|i r items rs (Hc & Hsrc & Ht & item' & Hj & Hty & Hr & Hcase) Hall IH].
  { intros _ _. by exists []. }
  intros [Hs Hss]%Forall_cons [Hid Hids]%Forall_cons.
  destruct (IH Hss Hids) as (cis & Hscan & H1 & H2 & H3).
  destruct Hcase as [(_ & Hrid & ->)|[? _]]; [|done].
  assert (Hone : exists ci, scan_conversation_item r = Ok ci /\ ci_Item ci = stored_view i /\
            ci_ID ci = ID i /\ ci_Seq ci = ir_seq r).
  { unfold scan_conversation_item. rewrite Hj, unmarshal_stored_view by done. simpl. eauto. }
  destruct Hone as (ci & Hci & E1 & E2 & E3). unfold scanConversationItems in *. simpl.
  rewrite Hci. simpl. rewrite Hscan. simpl. eexists. split; [done|]. simpl. by rewrite H1, H2, H3, E1, E2, E3.
Qed.

Lemma metadata_read_back m meta : forallb (fun kv => valid_utf8 kv.1 && valid_utf8 kv.2) m = true ->
  am_sorted m = true -> MarshalConversationMetadata m = Ok meta ->
  UnmarshalConversationMetadata meta = Ok m.
Proof.
  intros Hv Hs Hm.
  assert (Hp : MarshalConversationMetadata m =
     Ok (jprint (JObj (map (fun kv => (encode_body kv.1, json_str kv.2)) m)))) by (by destruct m).
  assert (meta = jprint (JObj (map (fun kv => (encode_body kv.1, json_str kv.2)) m))) as -> by congruence.
  unfold UnmarshalConversationMetadata.
  rewrite TrimSpace_obj, decide_False by done. rewrite jparse_jprint.
  - unfold mbind, option_bind. by rewrite string_map_marshalled.
  - apply forallb_forall. intros t ([a b] & <- & _)%in_map_iff. simpl. by rewrite !encode_body_valid.
Qed.

(** Fact (round trip): a conversation that was created with items that have
    identifiers reads back, on a database that does not fail, with the same id,
    version, metadata and times, and with its items in the order given, numbered
    from 0 (each as its stored form reads back). *)
Theorem create_then_get `{Sqlite} `{IdSource} c w w' : (forall n, stmt_fails n = false) ->
  db_inv (w_db w) -> Forall storable (cv_Items c) -> Forall (fun i => ID i <> "") (cv_Items c) ->
  am_sorted (cv_Metadata c) = true ->
  forallb (fun kv => valid_utf8 kv.1 && valid_utf8 kv.2) (cv_Metadata c) = true ->
  CreateConversation c w = (Ok tt, w') ->
  exists items w'', GetConversation (cv_ID c) w' =
    (Ok ({| cv_ID := cv_ID c; cv_Object := "conversation"; cv_Metadata := cv_Metadata c;
            cv_Items := map stored_view (cv_Items c); cv_Version := cv_Version c;
            cv_CreatedAt := cv_CreatedAt c; cv_UpdatedAt := cv_UpdatedAt c |}, items), w'') /\
    map ci_Item items = map stored_view (cv_Items c) /\ map ci_ID items = map ID (cv_Items c) /\
    map ci_Seq items = map Z.of_nat (List.seq 0 (length (cv_Items c))).
Proof.
  intros Hnf Hinv Hst Hids Hs Hv Hc. pose proof (CreateConversation_inv _ _ _ _ Hc Hinv) as Hinv'.
  apply CreateConversation_ok in Hc as (meta & rs & Hm & Hnone & Happ & Hall & Hseq).
  destruct (scan_rows_for _ _ _ _ _ Hall Hst Hids) as (cis & Hscan & H1 & H2 & H3).
  assert (Hitems : conv_items (cv_ID c) (w_db w') = rs).
  { destruct Happ as [-> _ _]. unfold conv_items; simpl. rewrite filter_app.
    rewrite (filter_none _ (conversation_items _)), (filter_all _ rs); [done|by eapply row_for_conv|].
    eapply Forall_impl; [apply (inv_conv _ Hinv)|]. intros r [x Hx] Heq; congruence. }
  destruct (GetConversation_run Hnf (cv_ID c) w'
    {| cr_version := cv_Version c; cr_metadata_json := meta; cr_created_at := cv_CreatedAt c;
       cr_updated_at := cv_UpdatedAt c |} (cv_Metadata c) cis) as (w'' & Hg).
  - done.
  - destruct Happ as [-> _ _]. simpl. by rewrite lookup_insert_eq.
  - by apply (metadata_read_back (cv_Metadata c)).
  - by rewrite Hitems.
  - exists cis, w''. rewrite Hg. rewrite H1, H3, Hseq. simpl. repeat split; try done.
    rewrite (Forall2_length _ _ _ Hall). apply map_ext. intros i. lia.
Qed.

Lemma demo_item_storable id text l :
  Raw (demo_item_row id text) = Some (JObj l) -> jok (JObj l) = true ->
  UnmarshalJSON (JObj l) = Ok (set_meta (demo_item_row id text) None) ->
  Meta (demo_item_row id text) = None ->
  RawField (demo_item_row id text) storedItemEnvelopeKey = None -> storable (demo_item_row id text).
Proof.
  intros HR Hok HU HM HF. split; [exists l; split; [done|]; split; [by apply andb_true_iff in Hok as [? _]|done]|].
  split; [intros t Ht; congruence|]. by rewrite HM.
Qed.

Ltac demo_storable := eapply demo_item_storable;
  [vm_compute; reflexivity | vm_compute; reflexivity | vm_compute; reflexivity
  | vm_compute; reflexivity | vm_compute; reflexivity].

Lemma demo_storable_a : storable (demo_item_row "a" "one").
Proof. demo_storable. Qed.
Lemma demo_storable_b : storable (demo_item_row "b" "two").
Proof. demo_storable. Qed.
Lemma demo_storable_c : storable (demo_item_row "c" "three").
Proof. demo_storable. Qed.

Lemma create_then_get_witness :
  exists items w'', @GetConversation reliable "conv_1" demo_world =
    (Ok ({| cv_ID := "conv_1"; cv_Object := "conversation"; cv_Metadata := [("k", "v")];
            cv_Items := map stored_view (cv_Items demo_conversation); cv_Version := 1;
            cv_CreatedAt := "t0"; cv_UpdatedAt := "t0" |}, items), w'') /\
    map ci_Item items = map stored_view (cv_Items demo_conversation) /\
    map ci_ID items = map ID (cv_Items demo_conversation) /\
    map ci_Seq items = map Z.of_nat (List.seq 0 (length (cv_Items demo_conversation))).
Proof.
  apply (@create_then_get reliable zeros_ids demo_conversation start demo_world).
  - done.
  - apply db_inv_empty.
  - exact (Forall_cons_2 _ _ _ (demo_storable_a) (Forall_cons_2 _ _ _ demo_storable_b (Forall_nil_2 _))).
  - apply Forall_cons_2; [vm_compute; discriminate|].
    apply Forall_cons_2; [vm_compute; discriminate|apply Forall_nil_2].
  - vm_compute. reflexivity.
  - vm_compute. reflexivity.
  - vm_compute. reflexivity.
Defined.

(** Fact (round trip): after a successful append of items that have identifiers,
    reading the conversation again gives what was read before, followed by the
    rows the append returned (each item as its stored form reads back), with
    the version one higher and the append's time as its update time. *)
Theorem append_then_get `{Sqlite} `{IdSource} w c conv old w1 items t rows w2 :
  (forall n, stmt_fails n = false) -> db_inv (w_db w) ->
  Forall storable items -> Forall (fun i => ID i <> "") items ->
  GetConversation c w = (Ok (conv, old), w1) ->
  AppendConversationItems conv items t w1 = (Ok rows, w2) ->
  exists w3, GetConversation c w2 =
    (Ok ({| cv_ID := c; cv_Object := "conversation"; cv_Metadata := cv_Metadata conv;
            cv_Items := map ci_Item old ++ map stored_view items; cv_Version := cv_Version conv + 1;
            cv_CreatedAt := cv_CreatedAt conv; cv_UpdatedAt := t |}, old ++ map scanned rows), w3) /\
    map ci_Item rows = items.
Proof.
  intros Hnf Hinv Hst Hids Hget Happ.
  apply GetConversation_inv in Hget as (row & meta & Hrow & Hmeta & Hscan & Hd & ->); [|done].
  rewrite <-Hd in Hinv. pose proof (AppendConversationItems_inv _ _ _ _ _ _ Happ Hinv) as Hinv2.
  assert (Hci : map ci_Item rows = items).
  { unfold AppendConversationItems in Happ. apply transaction_ok in Happ as (wa & wb & _ & _ & Hb & _).
    apply st_bind_ok in Hb as (u & wc & _ & Hb). apply st_bind_ok in Hb as (sq & wd & _ & Hb).
    by eapply append_items_rows in Hb as [? _]. }
  apply AppendConversationItems_ok in Happ as (row2 & Hrow2 & Hv2 & Happ & Hall & _). simpl in *.
  rewrite Hd in *. rewrite Hrow in Hrow2. injection Hrow2 as <-.
  assert (Hnew : scanConversationItems (map item_row_of rows) = Ok (map scanned rows)).
  { apply res_map_ok_iff. rewrite Forall2_fmap_l, Forall2_fmap_r. apply Forall_Forall2_diag.
    rewrite <-Hci in Hst. rewrite Forall_fmap in Hst. eapply Forall_impl; [exact Hst|].
    intros x Hx. by apply scan_item_row_of. }
  destruct (GetConversation_run Hnf c w2
    {| cr_version := cr_version row + 1; cr_metadata_json := cr_metadata_json row;
       cr_created_at := cr_created_at row; cr_updated_at := t |} meta (old ++ map scanned rows))
    as (w3 & Hg).
  - done.
  - destruct Happ as [-> _ _]. simpl. by rewrite lookup_insert_eq.
  - done.
  - destruct Happ as [-> _ _]. rewrite conv_items_app, conv_items_bumped.
    rewrite filter_all by exact (row_for_conv _ _ _ _ _ Hall).
    unfold scanConversationItems in *. rewrite res_map_app, Hscan. simpl. by rewrite Hnew.
  - exists w3. split; [|done]. rewrite Hg. simpl. do 3 f_equal. rewrite map_app. f_equal.
    rewrite <-Hci, !map_map. done.
Qed.

Lemma demo_inv : db_inv (w_db demo_world).
Proof.
  eapply (@CreateConversation_inv reliable zeros_ids demo_conversation start); [|apply db_inv_empty].
  vm_compute. reflexivity.
Qed.

Lemma append_then_get_witness :
  exists w3, @GetConversation reliable "conv_1" (after demo_append (after (@GetConversation reliable "conv_1") demo_world)) =
    (Ok ({| cv_ID := "conv_1"; cv_Object := "conversation"; cv_Metadata := cv_Metadata demo_read.1;
            cv_Items := map ci_Item demo_read.2 ++ map stored_view [demo_item_row "c" "three"];
            cv_Version := cv_Version demo_read.1 + 1; cv_CreatedAt := cv_CreatedAt demo_read.1;
            cv_UpdatedAt := "t1" |}, demo_read.2 ++ map scanned demo_rows), w3) /\
    map ci_Item demo_rows = [demo_item_row "c" "three"].
Proof.
  apply (@append_then_get reliable zeros_ids demo_world "conv_1" demo_read.1 demo_read.2
           (after (@GetConversation reliable "conv_1") demo_world) [demo_item_row "c" "three"] "t1" demo_rows).
  - done.
  - apply demo_inv.
  - exact (Forall_cons_2 _ _ _ demo_storable_c (Forall_nil_2 _)).
  - apply Forall_cons_2; [vm_compute; discriminate|apply Forall_nil_2].
  - vm_compute. reflexivity.
  - vm_compute. reflexivity.
Defined.

Definition demo_response : StoredResponse :=
  {| sr_ID := "resp_1"; sr_Model := "m"; sr_RequestJSON := "{}"; sr_ResponseJSON := "";
     sr_NormalizedInputItems := [demo_item_row "q" "hi"]; sr_EffectiveInputItems := [];
     sr_Output := [demo_item_row "r" "yo"]; sr_OutputText := "yo"; sr_PreviousResponseID := "";
     sr_ConversationID := "conv_1"; sr_Store := true; sr_CreatedAt := "t1"; sr_CompletedAt := "t2" |}.

Definition demo_save : ST world unit :=
  @SaveResponseAndAppendConversation reliable zeros_ids demo_read.1 demo_response
    (sr_NormalizedInputItems demo_response) (sr_Output demo_response).

Lemma response_append_after_read_witness :
  responses (w_db (after demo_save demo_world)) !! "resp_1" = Some (response_row_of demo_response) /\
  exists rs, conv_items "conv_1" (w_db (after demo_save demo_world)) = conv_items "conv_1" (w_db demo_world) ++ rs /\
    Forall2 (row_from demo_read.1 "t2")
      (BuildConversationAppendItems (max_seq (conv_items "conv_1" (w_db demo_world)) + 1)
         (sr_NormalizedInputItems demo_response) (sr_Output demo_response)) rs.
Proof.
  apply (@response_append_after_read reliable zeros_ids demo_world "conv_1" demo_read.1 demo_read.2
           (after (@GetConversation reliable "conv_1") demo_world) demo_world demo_response).
  - vm_compute. reflexivity.
  - apply rtc_refl.
  - vm_compute. reflexivity.
Defined.
