(* ===== verification/PageProps.v ===== *)
(** * Paging through a conversation

    ListConversationItems against its contract: the page after a cursor is the
    stretch of the ordered conversation that follows the cursor's item, and
    following the pages visits every item once. *)

From S2P Require Import Prelude GoStr GoFloat GoJson JsonFacts World Items ItemFacts Normalize Context Store StoreFacts StoreProps.

(** The rows of a conversation in the order asked for. *)
Definition in_order (order : string) (rows : list item_row) : list item_row :=
  if decide (order = ConversationItemOrderDesc) then reverse rows else rows.

Definition valid_order (order : string) : Prop :=
  order = ConversationItemOrderAsc \/ order = ConversationItemOrderDesc.

Lemma ordered_spec order l : valid_order order -> StronglySorted seq_lt l ->
  ordered order l = Ok (in_order order l).
Proof.
  intros [->| ->] Hs; unfold ordered, in_order; simpl.
  - by rewrite sort_asc.
  - by rewrite sort_desc.
Qed.

(** *** Cursors cut the sorted list *)

#[local] Instance seq_lt_dec x y : Decision (seq_lt x y) := Z_lt_dec (ir_seq x) (ir_seq y).

Lemma seq_lt_asym x y : seq_lt x y -> ~ seq_lt y x.
Proof. unfold seq_lt. lia. Qed.

(** The rows after the cursor [r], in order. *)
Lemma after_cursor_cut order l k r : valid_order order -> StronglySorted seq_lt l ->
  in_order order l !! k = Some r ->
  in_order order (filter (fun x => after_cursor order (Some (ir_seq r)) x = true) l) =
    drop (S k) (in_order order l).
Proof.
  intros [->| ->] Hs Hk; unfold in_order, after_cursor in *; simpl in *.
  - rewrite <-(filter_after seq_lt seq_lt_asym l k r) by done.
    apply list_filter_iff. intros x. apply Z.ltb_lt.
  - rewrite <-(filter_after (flip seq_lt) (fun x y => seq_lt_asym y x) (reverse l) k r)
      by (done || by apply StronglySorted_reversed).
    rewrite filter_reverse. f_equal. apply list_filter_iff. intros x. apply Z.ltb_lt.
Qed.

Lemma filter_sorted_asc order cursor l : StronglySorted seq_lt l ->
  StronglySorted seq_lt (filter (fun x => after_cursor order cursor x = true) l).
Proof. apply StronglySorted_filtered. Qed.

Lemma in_order_elem order l r : r ∈ in_order order l <-> r ∈ l.
Proof. unfold in_order. case_decide; [by rewrite elem_of_reverse|done]. Qed.

(** The row that has a given identifier. *)
Lemma head_filter_id l r : NoDup (map ir_id l) -> r ∈ l ->
  head (filter (fun x => ir_id x = ir_id r) l) = Some r.
Proof.
  induction l as [|x l IH]; [set_solver|]. simpl. intros [Hx Hn]%NoDup_cons [->|Hin]%elem_of_cons.
  - by rewrite filter_cons_True.
  - rewrite filter_cons_False; [auto|]. intros Heq. apply Hx. rewrite Heq.
    by apply list_elem_of_fmap_2.
Qed.

(** The page the contract asks for: the first [limit] of what is left. *)
Definition page_of (limit : Z) (rest : list ConversationItem) : ConversationItemPage :=
  {| pg_Items := take (Z.to_nat limit) rest;
     pg_HasMore := (limit <? Z.of_nat (length rest))%Z |}.

Lemma scan_ids rows all : scanConversationItems rows = Ok all -> map ci_ID all = map ir_id rows.
Proof.
  intros H%res_map_ok_iff. induction H as [|r ci rows all Hr Hall IH]; [done|]. simpl. rewrite IH. f_equal.
  unfold scan_conversation_item in Hr. apply res_bind_ok in Hr as (i & _ & [= <-]). done.
Qed.

Section paging.
Context `{Sqlite} `{IdSource}.
Hypothesis no_fault : forall n, stmt_fails n = false.

Lemma ensureConversationExists_run c w row : conversations (w_db w) !! c = Some row ->
  ensureConversationExists c w =
    (Ok tt, {| w_db := w_db w; w_ids := w_ids w; w_stmts := S (w_stmts w) |}).
Proof.
  intros Hrow. unfold ensureConversationExists.
  erewrite st_bind_run by (apply query_run; auto). by rewrite Hrow.
Qed.

(** The page from the cut list. *)
Lemma list_tail q w row rest cursor w1 :
  (0 <= lq_Limit q)%Z -> conversations (w_db w) !! lq_ConversationID q = Some row ->
  (if decide (lq_After q = "") then mret None
   else seq ← lookupConversationItemSeq (lq_ConversationID q) (lq_After q); mret (Some seq))
    {| w_db := w_db w; w_ids := w_ids w; w_stmts := S (w_stmts w) |} = (Ok cursor, w1) ->
  w_db w1 = w_db w ->
  ordered (lq_Order q) (filter (fun r => after_cursor (lq_Order q) cursor r = true)
             (conv_items (lq_ConversationID q) (w_db w))) ≫= scanConversationItems = Ok rest ->
  exists w', ListConversationItems q w = (Ok (page_of (lq_Limit q) rest), w').
Proof.
  intros Hlim Hrow Hcur Hd Hscan. unfold ListConversationItems.
  rewrite (st_bind_run _ _ _ _ _ (ensureConversationExists_run _ _ _ Hrow)).
  rewrite (st_bind_run _ _ _ _ _ Hcur).
  apply res_bind_ok in Hscan as (rows & Hord & Hscan).
  assert (Hlen : length rest = length rows) by (by eapply res_map_length).
  erewrite st_bind_run.
  2: { apply (exec_run _ _ _ (sql_limit (lq_Limit q + 1) rows) (w_db w)); [auto|].
       rewrite Hd, Hord. done. }
  assert (Htake : scanConversationItems (sql_limit (lq_Limit q + 1) rows) =
          Ok (take (Z.to_nat (lq_Limit q + 1)) rest)).
  { unfold sql_limit. rewrite (proj2 (Z.ltb_ge (lq_Limit q + 1) 0)) by lia.
    apply res_map_ok_iff. apply res_map_ok_iff in Hscan. by apply Forall2_take. }
  erewrite st_bind_run by (unfold st_lift; rewrite Htake; reflexivity).
  rewrite (proj2 (Z.ltb_ge (lq_Limit q) 0)) by lia. unfold page_of, mret, st_ret.
  eexists. do 3 f_equal.
  - rewrite take_take. f_equal. lia.
  - rewrite length_take. destruct (Z.ltb_spec (lq_Limit q) (Z.of_nat (length rest)));
      [apply Z.ltb_lt|apply Z.ltb_ge]; lia.
Qed.

Lemma list_first q w row all : db_inv (w_db w) -> (0 <= lq_Limit q)%Z -> valid_order (lq_Order q) ->
  conversations (w_db w) !! lq_ConversationID q = Some row ->
  scanConversationItems (in_order (lq_Order q) (conv_items (lq_ConversationID q) (w_db w))) = Ok all ->
  lq_After q = "" -> exists w', ListConversationItems q w = (Ok (page_of (lq_Limit q) all), w').
Proof.
  intros Hinv Hlim Hord Hrow Hscan Ha. eapply list_tail; [done|exact Hrow| | |].
  - rewrite decide_True by done. reflexivity.
  - done.
  - rewrite filter_all by (by apply Forall_forall). rewrite ordered_spec by (done || apply (inv_sorted _ Hinv)).
    done.
Qed.

Lemma list_next q w row all k item : db_inv (w_db w) -> (0 <= lq_Limit q)%Z -> valid_order (lq_Order q) ->
  conversations (w_db w) !! lq_ConversationID q = Some row ->
  scanConversationItems (in_order (lq_Order q) (conv_items (lq_ConversationID q) (w_db w))) = Ok all ->
  all !! k = Some item -> lq_After q = ci_ID item -> ci_ID item <> "" ->
  exists w', ListConversationItems q w = (Ok (page_of (lq_Limit q) (drop (S k) all)), w').
Proof.
  intros Hinv Hlim Hord Hrow Hscan Hk Ha Hne. pose proof (inv_sorted _ Hinv (lq_ConversationID q)) as Hs.
  assert (Hr : exists r, in_order (lq_Order q) (conv_items (lq_ConversationID q) (w_db w)) !! k = Some r /\
                         ir_id r = ci_ID item).
  { pose proof (scan_ids _ _ Hscan) as Hids. assert (Hm : map ci_ID all !! k = Some (ci_ID item))
      by (by rewrite list_lookup_fmap, Hk). rewrite Hids, list_lookup_fmap in Hm.
    apply fmap_Some in Hm as (r & Hr & ->). eauto. }
  destruct Hr as (r & Hr & Hid).
  assert (Hin : r ∈ conv_items (lq_ConversationID q) (w_db w)).
  { apply (in_order_elem (lq_Order q)). by eapply list_elem_of_lookup_2. }
  eapply list_tail; [done|exact Hrow| | |].
  - rewrite decide_False by congruence. unfold lookupConversationItemSeq, mbind, st_bind.
    rewrite query_run by auto. cbn [w_db]. rewrite Ha, <-Hid.
    rewrite head_filter_id by (done || apply NoDup_map_filter, (inv_ids _ Hinv)). reflexivity.
  - done.
  - rewrite ordered_spec by (done || by apply filter_sorted_asc).
    cbn [mbind res_bind].
    rewrite (after_cursor_cut _ _ k r) by done.
    apply res_map_ok_iff. apply res_map_ok_iff in Hscan. by apply Forall2_drop.
Qed.

(** A client that follows the pages to the end. *)
Definition next_query (q : ListConversationItemsQuery) (after : string) : ListConversationItemsQuery :=
  {| lq_ConversationID := lq_ConversationID q; lq_After := after; lq_Limit := lq_Limit q;
     lq_Order := lq_Order q |}.

Fixpoint read_pages (fuel : nat) (q : ListConversationItemsQuery) : ST world (list ConversationItem) :=
  match fuel with
  | 0 => st_err (EMsg "out of fuel")
  | S fuel =>
      page ← ListConversationItems q;
      if pg_HasMore page then
        match last (pg_Items page) with
        | None => st_err (EMsg "empty page")
        | Some item =>
            rest ← read_pages fuel (next_query q (ci_ID item));
            mret (pg_Items page ++ rest)
        end
      else mret (pg_Items page)
  end.
End paging.

(** Fact (functional): with a positive limit and a valid order, the first page of
    a conversation is the first [limit] items of the ordered conversation, the
    page after an item is the first [limit] items that follow it, and has_more
    tells exactly whether items are left after the page. *)
Theorem ListConversationItems_spec `{Sqlite} `{IdSource} q w row all :
  (forall n, stmt_fails n = false) -> db_inv (w_db w) -> (0 < lq_Limit q)%Z -> valid_order (lq_Order q) ->
  conversations (w_db w) !! lq_ConversationID q = Some row ->
  scanConversationItems (in_order (lq_Order q) (conv_items (lq_ConversationID q) (w_db w))) = Ok all ->
  (lq_After q = "" -> exists w', ListConversationItems q w = (Ok (page_of (lq_Limit q) all), w')) /\
  (forall k item, all !! k = Some item -> lq_After q = ci_ID item -> ci_ID item <> "" ->
     exists w', ListConversationItems q w = (Ok (page_of (lq_Limit q) (drop (S k) all)), w')).
Proof.
  intros Hnf Hinv Hlim Hord Hrow Hscan. split.
  - intros Ha. eapply (list_first Hnf); [done|lia|done|exact Hrow|done|done].
  - intros k item Hk Ha Hne. eapply (list_next Hnf); [done|lia|done|exact Hrow|done|exact Hk|done|done].
Qed.

Definition demo_query : ListConversationItemsQuery :=
  {| lq_ConversationID := "conv_1"; lq_After := "b"; lq_Limit := 1; lq_Order := "desc" |}.
Definition demo_all : list ConversationItem :=
  match scanConversationItems (in_order "desc" (conv_items "conv_1" (w_db demo_world))) with
  | Ok x => x | _ => [] end.
Definition demo_row : conversation_row :=
  default {| cr_version := 0; cr_metadata_json := ""; cr_created_at := ""; cr_updated_at := "" |}
    (conversations (w_db demo_world) !! "conv_1").

Lemma ListConversationItems_spec_witness :
  exists w', @ListConversationItems reliable demo_query demo_world = (Ok (page_of 1 (drop 1 demo_all)), w').
Proof.
  destruct (@ListConversationItems_spec reliable zeros_ids demo_query demo_world demo_row demo_all)
    as [_ Hnext].
  - done.
  - apply demo_inv.
  - done.
  - by right.
  - vm_compute. reflexivity.
  - vm_compute. reflexivity.
  - eapply (Hnext 0); [vm_compute; reflexivity|vm_compute; reflexivity|vm_compute; discriminate].
Defined.

Lemma read_pages_drop `{Sqlite} `{IdSource} (Hnf : forall n, stmt_fails n = false) q row all fuel :
  forall w k, db_inv (w_db w) -> (0 < lq_Limit q)%Z -> valid_order (lq_Order q) ->
  conversations (w_db w) !! lq_ConversationID q = Some row ->
  scanConversationItems (in_order (lq_Order q) (conv_items (lq_ConversationID q) (w_db w))) = Ok all ->
  Forall (fun i => ci_ID i <> "") all -> length all - k < fuel -> k <= length all ->
  (k = 0 /\ lq_After q = "" \/ exists j item, k = S j /\ all !! j = Some item /\ lq_After q = ci_ID item) ->
  exists w', read_pages fuel q w = (Ok (drop k all), w').
Proof.
  revert q. induction fuel as [|fuel IH]; intros q w k Hinv Hlim Hord Hrow Hscan Hids Hfuel Hk Hcur; [lia|].
  assert (Hpage : exists w', ListConversationItems q w = (Ok (page_of (lq_Limit q) (drop k all)), w')).
  { destruct Hcur as [[-> Ha]|(j & item & -> & Hj & Ha)].
    - rewrite drop_0. eapply (list_first Hnf); [done|lia|done|exact Hrow|done|done].
    - rewrite Forall_forall in Hids.
      eapply (list_next Hnf); [done|lia|done|exact Hrow|done|exact Hj|done|].
      apply Hids. by eapply list_elem_of_lookup_2. }
  destruct Hpage as (w1 & Hpage). simpl. rewrite (st_bind_run _ _ _ _ _ Hpage). unfold page_of; simpl.
  assert (Hd1 : w_db w1 = w_db w) by (by eapply ListConversationItems_read_only).
  destruct (Z.ltb_spec (lq_Limit q) (Z.of_nat (length (drop k all)))) as [Hmore|Hless].
  - rewrite length_drop in Hmore. set (n := Z.to_nat (lq_Limit q)).
    assert (Hn : 0 < n /\ k + n < length all) by lia.
    destruct (lookup_lt_is_Some_2 all (k + n - 1)) as [item Hitem]; [lia|].
    assert (Hlast : last (take n (drop k all)) = Some item).
    { rewrite last_lookup, length_take, length_drop. rewrite lookup_take_lt, lookup_drop by lia.
      rewrite <-Hitem. f_equal. lia. }
    rewrite Hlast.
    destruct (IH (next_query q (ci_ID item)) w1 (k + n)) as (w2 & Hrec); simpl; rewrite ?Hd1; try done.
    + lia.
    + lia.
    + right. exists (k + n - 1), item. split; [lia|]. done.
    + rewrite (st_bind_run _ _ _ _ _ Hrec). eexists. unfold mret, st_ret. do 2 f_equal.
      rewrite <-drop_drop. apply take_drop.
  - eexists. unfold mret, st_ret. do 2 f_equal. rewrite length_drop in Hless.
    apply take_ge. rewrite length_drop. lia.
Qed.

(** C5 (termination): a client that starts without a cursor and asks for the
    page after the last item it got while has_more holds, reads every item of
    the conversation exactly once, in order, in at most as many requests as
    there are items, plus one. *)
Theorem pages_cover_conversation `{Sqlite} `{IdSource} q w row all :
  (forall n, stmt_fails n = false) -> db_inv (w_db w) -> (0 < lq_Limit q)%Z -> valid_order (lq_Order q) ->
  conversations (w_db w) !! lq_ConversationID q = Some row ->
  scanConversationItems (in_order (lq_Order q) (conv_items (lq_ConversationID q) (w_db w))) = Ok all ->
  Forall (fun i => ci_ID i <> "") all -> lq_After q = "" ->
  exists w', read_pages (S (length all)) q w = (Ok all, w').
Proof.
  intros Hnf Hinv Hlim Hord Hrow Hscan Hids Ha.
  destruct (read_pages_drop Hnf q row all (S (length all)) w 0) as (w' & Hr); try done; [lia|lia|by left|].
  exists w'. by rewrite drop_0 in Hr.
Qed.

Definition demo_query_all : ListConversationItemsQuery := next_query demo_query "".

Lemma pages_cover_conversation_witness :
  exists w', @read_pages reliable 3 demo_query_all demo_world = (Ok demo_all, w').
Proof.
  apply (@pages_cover_conversation reliable zeros_ids demo_query_all demo_world demo_row demo_all).
  - done.
  - apply demo_inv.
  - done.
  - by right.
  - vm_compute. reflexivity.
  - vm_compute. reflexivity.
  - vm_compute. apply Forall_cons_2; [discriminate|]. apply Forall_cons_2; [discriminate|apply Forall_nil_2].
  - reflexivity.
Defined.
