(* ===== verification/ResponseProps.v ===== *)
(** * Stored responses

    Reading a response back, the chain GetResponseLineage returns, and the
    bounds on replay artifacts. *)

From S2P Require Import Prelude GoStr GoFloat GoJson JsonFacts World Items ItemFacts Normalize Context Store StoreFacts StoreProps.

(** ** Reading back *)

Lemma items_column_round_trip items : Forall storable items ->
  UnmarshalStoredItems (MarshalStoredItems items) = Ok (map escaped items).
Proof.
  intros Hs. unfold UnmarshalStoredItems, MarshalStoredItems. rewrite jparse_jprint; simpl.
  - apply res_map_ok_iff. rewrite Forall2_fmap_l, Forall2_fmap_r. apply Forall_Forall2_diag.
    eapply Forall_impl; [exact Hs|]. intros i Hi. by apply unmarshal_stored_item.
  - apply forallb_forall. intros t (i & <- & Hi%list_elem_of_In)%in_map_iff.
    rewrite Forall_forall in Hs. destruct (MarshalStoredItem_obj i) as (l & -> & _ & Hw); [auto|done].
Qed.

Definition response_storable (r : StoredResponse) : Prop :=
  Forall storable (sr_NormalizedInputItems r) /\ Forall storable (sr_EffectiveInputItems r) /\
  Forall storable (sr_Output r).

(** The response with its items as they read back. *)
Definition response_view (r : StoredResponse) : StoredResponse :=
  {| sr_ID := sr_ID r; sr_Model := sr_Model r; sr_RequestJSON := sr_RequestJSON r;
     sr_ResponseJSON := sr_ResponseJSON r;
     sr_NormalizedInputItems := map escaped (sr_NormalizedInputItems r);
     sr_EffectiveInputItems := map escaped (sr_EffectiveInputItems r);
     sr_Output := map escaped (sr_Output r); sr_OutputText := sr_OutputText r;
     sr_PreviousResponseID := sr_PreviousResponseID r; sr_ConversationID := sr_ConversationID r;
     sr_Store := sr_Store r; sr_CreatedAt := sr_CreatedAt r; sr_CompletedAt := sr_CompletedAt r |}.

Lemma scan_response_row r : response_storable r ->
  scanStoredResponse (sr_ID r) (response_row_of r) = Ok (response_view r).
Proof.
  intros (H1 & H2 & H3). unfold scanStoredResponse, scan_items_columns. simpl.
  rewrite !items_column_round_trip by done. simpl. unfold response_view. do 2 f_equal;
    rewrite ?nullable_default; try done. by destruct (sr_Store r).
Qed.

Lemma select_response_run `{Sqlite} id w : stmt_fails (w_stmts w) = false ->
  select_response id w = (Ok (responses (w_db w) !! id),
    {| w_db := w_db w; w_ids := w_ids w; w_stmts := S (w_stmts w) |}).
Proof. intros Hs. unfold select_response. by rewrite query_run. Qed.

Lemma select_response_ok `{Sqlite} id w o w' : select_response id w = (Ok o, w') ->
  o = responses (w_db w) !! id /\ w_db w' = w_db w.
Proof.
  unfold select_response. destruct (query _ _ w) as [[a|e|] w1] eqn:E; intros [= <- <-].
  by apply query_ok in E as (-> & Hd & _).
Qed.

(** Fact (round trip): a response that was saved (whether new or saved before
    under the same id) reads back as it was saved: every field, the three item
    lists, and the empty text where a column is NULL. *)
Theorem save_then_get_response `{Sqlite} r w w' : (forall n, stmt_fails n = false) ->
  response_storable r -> SaveResponse r w = (Ok tt, w') ->
  exists w'', GetResponse (sr_ID r) w' = (Ok (response_view r), w'') /\
    forall id, id <> sr_ID r -> responses (w_db w') !! id = responses (w_db w) !! id.
Proof.
  intros Hnf Hst (_ & Hx & _)%exec_ok. injection Hx as Hx. unfold GetResponse.
  rewrite (st_bind_run _ _ _ _ _ (select_response_run _ _ (Hnf _))). rewrite <-Hx. simpl.
  rewrite lookup_insert_eq. unfold st_lift. rewrite scan_response_row by done. eexists. split; [done|].
  intros id Hne. by rewrite lookup_insert_ne.
Qed.

Lemma demo_storable_q : storable (demo_item_row "q" "hi").
Proof. demo_storable. Qed.
Lemma demo_storable_r : storable (demo_item_row "r" "yo").
Proof. demo_storable. Qed.

Lemma save_then_get_response_witness :
  exists w'', @GetResponse reliable "resp_1" (after (@SaveResponse reliable demo_response) start) =
    (Ok (response_view demo_response), w'') /\
    forall id, id <> "resp_1" ->
      responses (w_db (after (@SaveResponse reliable demo_response) start)) !! id =
      responses (w_db start) !! id.
Proof.
  apply (@save_then_get_response reliable demo_response start).
  - done.
  - split; [|split].
    + exact (Forall_cons_2 _ _ _ demo_storable_q (Forall_nil_2 _)).
    + exact (Forall_nil_2 _).
    + exact (Forall_cons_2 _ _ _ demo_storable_r (Forall_nil_2 _)).
  - vm_compute. reflexivity.
Defined.

(** ** Lineages *)

(** Following previous_response_id from [id] through [l] ends at [last]. *)
Inductive chain (db : DB) : string -> list StoredResponse -> string -> Prop :=
| chain_nil id : chain db id [] id
| chain_cons id row r l last :
    id <> "" -> responses db !! id = Some row -> scanStoredResponseLineageNode id row = Ok r ->
    chain db (sr_PreviousResponseID r) l last -> chain db id (r :: l) last.

Lemma scan_node_id id row r : scanStoredResponseLineageNode id row = Ok r -> sr_ID r = id.
Proof.
  unfold scanStoredResponseLineageNode. intros ([[a b] c] & _ & [= <-])%res_bind_ok. done.
Qed.

Lemma chain_app db id l1 mid l2 last : chain db id l1 mid -> chain db mid l2 last ->
  chain db id (l1 ++ l2) last.
Proof. induction 1 as [|id row r l mid Hne Hrow Hr Hl IH]; intros H2; [done|]. simpl. econstructor; eauto. Qed.

Lemma chain_det db id l l' : chain db id l "" -> chain db id l' "" -> l = l'.
Proof.
  revert id l'. induction l as [|r l IH]; intros id l' H1 H2.
  - inversion H1; subst. inversion H2; subst; [done|congruence].
  - inversion H1; subst. inversion H2; subst; [congruence|].
    assert (row0 = row) as -> by congruence. assert (r0 = r) as -> by congruence.
    f_equal. eauto.
Qed.

Lemma chain_split db id l1 r l2 last : chain db id (l1 ++ r :: l2) last -> chain db (sr_ID r) (r :: l2) last.
Proof.
  revert id. induction l1 as [|x l1 IH]; intros id H1; simpl in *.
  - inversion H1; subst. match goal with H : scanStoredResponseLineageNode _ _ = _ |- _ =>
      pose proof (scan_node_id _ _ _ H) as -> end. done.
  - inversion H1; subst. eauto.
Qed.

(** A lineage that ends visits no response twice. *)
Lemma chain_nodup db id l : chain db id l "" -> NoDup (map sr_ID l).
Proof.
  revert id. induction l as [|r l IH]; intros id Hc; [constructor|].
  pose proof (chain_split db id [] r l "" Hc) as Hr. simpl. apply NoDup_cons. split.
  - intros Hin. apply list_elem_of_fmap in Hin as (r' & Heq & Hin).
    apply list_elem_of_split in Hin as (l1 & l2 & ->).
    pose proof (chain_split db _ (r :: l1) r' l2 "" Hr) as Hr'. rewrite <-Heq in Hr'.
    pose proof (chain_det _ _ _ _ Hr Hr') as Hlen%(f_equal length). simpl in Hlen.
    rewrite length_app in Hlen. simpl in Hlen. lia.
  - inversion Hc; subst. eauto.
Qed.

Definition reached_limit (maxItems : Z) (n : nat) : bool :=
  (0 <? maxItems)%Z && (maxItems <=? Z.of_nat n)%Z.

Section lineage.
Context `{Sqlite}.

Lemma getResponseLineageNode_ok id w r w' : getResponseLineageNode id w = (Ok r, w') ->
  w_db w' = w_db w /\ exists row, responses (w_db w) !! id = Some row /\
    scanStoredResponseLineageNode id row = Ok r.
Proof.
  unfold getResponseLineageNode. intros Hb. apply st_bind_ok in Hb as (o & w1 & Hs & Hb).
  apply select_response_ok in Hs as (-> & Hd). destruct (responses (w_db w) !! id) as [row|] eqn:E; [|done].
  unfold st_lift in Hb. injection Hb as Hb <-. eauto.
Qed.

(** The loop, started with [acc] already collected. *)
Lemma lineage_loop_ok fuel maxItems seen id acc w l w' :
  lineage_loop fuel maxItems seen id acc w = (Ok l, w') ->
  (forall r, r ∈ acc -> sr_ID r ∈ seen) -> NoDup (map sr_ID acc) ->
  reached_limit maxItems (length acc) = false ->
  exists rest last, l = acc ++ rest /\ chain (w_db w) id rest last /\ NoDup (map sr_ID l) /\
    (last = "" \/ reached_limit maxItems (length l) = true) /\
    ((0 < maxItems)%Z -> (Z.of_nat (length l) <= maxItems)%Z).
Proof.
  revert seen id acc w. induction fuel as [|fuel IH]; intros seen id acc w; simpl; [done|].
  case_decide as Hid.
  { intros [= <- <-] Hseen Hnd Hlim. exists [], "". rewrite app_nil_r. subst.
    repeat split; [constructor|done|by left|]. intros Hpos. unfold reached_limit in Hlim.
    rewrite (proj2 (Z.ltb_lt _ _) Hpos) in Hlim. simpl in Hlim. lia. }
  case_decide as Hin; [done|].
  intros Hb Hseen Hnd Hlim. apply st_bind_ok in Hb as (r & w1 & Hnode & Hb).
  apply getResponseLineageNode_ok in Hnode as (Hd & row & Hrow & Hr).
  pose proof (scan_node_id _ _ _ Hr) as Hrid.
  assert (Hnd' : NoDup (map sr_ID (acc ++ [r]))).
  { rewrite map_app. apply NoDup_app. split; [done|]. split; [|simpl; apply NoDup_singleton].
    intros x Hx Hx'. simpl in Hx'. apply list_elem_of_singleton in Hx'. subst x.
    apply list_elem_of_fmap in Hx as (r' & Heq & Hr'). apply Hin. rewrite <-Hrid, Heq. auto. }
  change ((0 <? maxItems)%Z && (maxItems <=? Z.of_nat (length (acc ++ [r])))%Z)
    with (reached_limit maxItems (length (acc ++ [r]))) in Hb.
  destruct (reached_limit maxItems (length (acc ++ [r]))) eqn:El.
  - injection Hb as <- <-. exists [r], (sr_PreviousResponseID r). repeat split; try done.
    + econstructor; try done. constructor.
    + by right.
    + intros Hpos. unfold reached_limit in Hlim. rewrite (proj2 (Z.ltb_lt _ _) Hpos) in Hlim. simpl in Hlim.
      rewrite length_app. simpl. lia.
  - apply IH in Hb as (rest & last & -> & Hc & Hn & Hl & Hle); [| |done|done].
    + exists (r :: rest), last. rewrite <-app_assoc in *. simpl in *. repeat split; try done.
      econstructor; [done|exact Hrow|done|]. by rewrite <-Hd.
    + intros r' [Hr'|Hr'%list_elem_of_singleton]%elem_of_app; [set_solver|]. subst. set_solver.
Qed.

Lemma lineage_loop_fuel fuel maxItems seen id acc w :
  seen ⊆ dom (responses (w_db w)) -> 2 + size (responses (w_db w)) <= fuel + size seen ->
  (lineage_loop fuel maxItems seen id acc w).1 <> Err (EMsg "out of fuel").
Proof.
  revert seen id acc w. induction fuel as [|fuel IH]; intros seen id acc w Hsub Hf; simpl.
  { exfalso. apply subseteq_size in Hsub. rewrite size_dom in Hsub. lia. }
  case_decide; [done|]. case_decide as Hin; [done|].
  destruct (getResponseLineageNode id w) as [[r|e|] w1] eqn:E.
  - rewrite (st_bind_run _ _ _ _ _ E). apply getResponseLineageNode_ok in E as (Hd & row & Hrow & Hr).
    destruct (_ && _); [done|]. apply IH; rewrite Hd.
    + apply union_subseteq. split; [|done]. apply singleton_subseteq_l, elem_of_dom. eauto.
    + rewrite size_union by set_solver. rewrite size_singleton. lia.
  - unfold mbind, st_bind. rewrite E. simpl. intros [= ->].
    unfold getResponseLineageNode, mbind, st_bind in E.
    destruct (select_response id w) as [[o|e'|] w2] eqn:E2; [|injection E as -> <-|done].
    + destruct o as [row|]; [|done]. unfold st_lift in E. injection E as E _.
      unfold scanStoredResponseLineageNode, scan_items_columns in E.
      destruct (UnmarshalStoredItems (rr_normalized_input_items_json row)); simpl in E; try done.
      destruct (UnmarshalStoredItems (rr_effective_input_items_json row)); simpl in E; try done.
      by destruct (UnmarshalStoredItems (rr_output_json row)).
    + unfold select_response in E2. destruct (query _ _ w) as [[]]; simplify_eq.
  - unfold mbind, st_bind. by rewrite E.
Qed.
End lineage.

Definition limited (maxItems : Z) (taken : nat) (l : list StoredResponse) : list StoredResponse :=
  if (0 <? maxItems)%Z then take (Z.to_nat maxItems - taken) l else l.

Lemma lineage_loop_run `{Sqlite} (Hnf : forall n, stmt_fails n = false) maxItems last l : forall fuel seen id acc w,
  chain (w_db w) id l last -> last = "" \/ reached_limit maxItems (length acc + length l) = true ->
  Forall (fun r => sr_ID r ∉ seen) l -> NoDup (map sr_ID l) ->
  length l < fuel -> reached_limit maxItems (length acc) = false ->
  exists w', lineage_loop fuel maxItems seen id acc w = (Ok (acc ++ limited maxItems (length acc) l), w').
Proof.
  induction l as [|r l IH]; intros fuel seen id acc w Hc Hend Hseen Hnd Hf Hlim;
    (destruct fuel as [|fuel]; [lia|]); simpl.
  - inversion Hc; subst. rewrite Nat.add_0_r in Hend. rewrite decide_True by (by destruct Hend; [|congruence]). eexists. unfold mret, st_ret. do 2 f_equal.
    unfold limited. rewrite take_nil. destruct (0 <? maxItems)%Z; by rewrite app_nil_r.
  - inversion Hc as [|? row ? ? ? Hne Hrow Hr Hc']; subst. pose proof (scan_node_id _ _ _ Hr) as Hrid.
    rewrite decide_False by done. rewrite decide_False by (apply Forall_cons in Hseen as [Hs _]; congruence).
    assert (Hnode : getResponseLineageNode id w =
      (Ok r, {| w_db := w_db w; w_ids := w_ids w; w_stmts := S (w_stmts w) |})).
    { unfold getResponseLineageNode.
      rewrite (st_bind_run _ _ _ _ _ (select_response_run _ _ (Hnf _))). rewrite Hrow. unfold st_lift. by rewrite Hr. }
    rewrite (st_bind_run _ _ _ _ _ Hnode).
    change ((0 <? maxItems)%Z && (maxItems <=? Z.of_nat (length (acc ++ [r])))%Z)
      with (reached_limit maxItems (length (acc ++ [r]))).
    simpl in Hnd. apply NoDup_cons in Hnd as [Hr' Hnd].
    destruct (reached_limit maxItems (length (acc ++ [r]))) eqn:El.
    + eexists. unfold mret, st_ret. do 3 f_equal. unfold limited, reached_limit in *.
      apply andb_true_iff in El as [Hp El]. rewrite Hp in *. simpl in *. rewrite length_app in El. simpl in El.
      apply Z.leb_le in El. apply Z.leb_gt in Hlim. apply Z.ltb_lt in Hp.
      replace (Z.to_nat maxItems - length acc) with 1 by lia. simpl. by rewrite take_0.
    + edestruct (IH fuel ({[id]} ∪ seen) (sr_PreviousResponseID r) (acc ++ [r])
        {| w_db := w_db w; w_ids := w_ids w; w_stmts := S (w_stmts w) |}) as (w' & Hrun);
        [exact Hc'| | |done|simpl in Hf; lia|done|].
      * by rewrite length_app, <-Nat.add_assoc.
      * apply Forall_forall. intros x Hx. apply Forall_cons in Hseen as [_ Hseen].
        rewrite Forall_forall in Hseen. specialize (Hseen x Hx).
        assert (sr_ID x <> id); [|set_solver]. rewrite <-Hrid. intros Heq. apply Hr'.
        rewrite <-Heq. by apply list_elem_of_fmap_2.
      * exists w'. rewrite Hrun. do 2 f_equal. rewrite <-app_assoc. f_equal. simpl.
        unfold limited, reached_limit in *. rewrite length_app in *. simpl in *.
        destruct (0 <? maxItems)%Z eqn:Hp; rewrite ?Hp in *; [|done]. simpl in *.
        replace (Z.to_nat maxItems - length acc) with (S (Z.to_nat maxItems - (length acc + 1))) by lia.
        done.
Qed.

Lemma chain_length db id l last : chain db id l last -> NoDup (map sr_ID l) -> length l <= size (responses db).
Proof.
  intros Hc Hnd.
  assert (Hdom : forall x, x ∈ map sr_ID l -> x ∈ dom (responses db)).
  { clear Hnd. induction Hc as [|id row r l last Hne Hrow Hr Hl IH]; simpl; intros x Hx; [set_solver|].
    apply elem_of_cons in Hx as [->|Hx]; [|auto]. rewrite (scan_node_id _ _ _ Hr). apply elem_of_dom. eauto. }
  rewrite <-size_dom, <-(length_map sr_ID l), <-(size_list_to_set (C := gset string) (map sr_ID l)) by done.
  apply subseteq_size. intros x Hx%elem_of_list_to_set. auto.
Qed.

Lemma GetResponseLineage_ends `{Sqlite} id maxItems w : (GetResponseLineage id maxItems w).1 <> Err (EMsg "out of fuel").
Proof.
  unfold GetResponseLineage. rewrite (st_bind_run st_get _ w w w eq_refl).
  assert (Hf : (lineage_loop (2 + size (responses (w_db w))) maxItems ∅ id [] w).1 <> Err (EMsg "out of fuel")).
  { apply lineage_loop_fuel; [set_solver|]. rewrite size_empty. lia. }
  unfold mbind, st_bind. by destruct (lineage_loop _ _ _ _ _ w) as [[l|e|] w1].
Qed.

(** C6 (refinement): a lineage that GetResponseLineage returns is the chain of
    previous_response_id links that starts at the response asked for, oldest
    response first and none twice; it is complete when no limit is given, and
    otherwise never longer than the limit and only cut short by it.  The search
    always ends: it never runs out of rounds, whatever the links. *)
Theorem GetResponseLineage_sound `{Sqlite} id maxItems w :
  (GetResponseLineage id maxItems w).1 <> Err (EMsg "out of fuel") /\
  forall l w', GetResponseLineage id maxItems w = (Ok l, w') ->
  exists last, chain (w_db w) id (reverse l) last /\ NoDup (map sr_ID l) /\
    ((maxItems <= 0)%Z -> last = "") /\
    ((0 < maxItems)%Z -> (Z.of_nat (length l) <= maxItems)%Z /\
                         (last = "" \/ Z.of_nat (length l) = maxItems)).
Proof.
  split; [apply GetResponseLineage_ends|].
  unfold GetResponseLineage. rewrite (st_bind_run st_get _ w w w eq_refl).
  - intros l w' Hb. apply st_bind_ok in Hb as (l0 & w1 & Hl & [= <- <-]).
    apply lineage_loop_ok in Hl as (rest & last & -> & Hc & Hnd & Hlast & Hle).
    + simpl in *. exists last. rewrite reverse_involutive. split; [done|]. split.
      { change (NoDup (sr_ID <$> reverse rest)). by rewrite reverse_Permutation. }
      rewrite length_reverse. unfold reached_limit in Hlast. split; [|intros Hpos; split; [auto|]].
      * intros Hneg. destruct Hlast as [|Hlast]; [done|]. apply andb_true_iff in Hlast as [Hp _].
        apply Z.ltb_lt in Hp. lia.
      * destruct Hlast as [|[_ Hm]%andb_true_iff]; [by left|right]. apply Z.leb_le in Hm.
        specialize (Hle Hpos). lia.
    + set_solver.
    + constructor.
    + unfold reached_limit. simpl. destruct (Z.ltb_spec 0 maxItems); [by apply Z.leb_gt|done].
Qed.

(** C7 (termination): the search of a lineage ends whatever the links of the
    database are and whatever fails.  And on a database that does not fail it
    succeeds: when the links from a response, none taken twice, lead to a
    response without a predecessor, or go on for as many responses as are asked
    for, the lineage is returned, all of it or its newest [maxItems] responses,
    oldest first. *)
Theorem GetResponseLineage_complete `{Sqlite} id maxItems w :
  (GetResponseLineage id maxItems w).1 <> Err (EMsg "out of fuel") /\
  forall l last, (forall n, stmt_fails n = false) -> chain (w_db w) id l last ->
  last = "" \/ (0 < maxItems <= Z.of_nat (length l))%Z /\ NoDup (map sr_ID l) ->
  exists w', GetResponseLineage id maxItems w =
    (Ok (reverse (if (0 <? maxItems)%Z then take (Z.to_nat maxItems) l else l)), w').
Proof.
  split; [apply GetResponseLineage_ends|]. intros l last Hnf Hc Hend.
  assert (Hnd : NoDup (map sr_ID l)) by (destruct Hend as [->|[_ ?]]; [by eapply chain_nodup|done]).
  unfold GetResponseLineage. rewrite (st_bind_run st_get _ w w w eq_refl).
  destruct (lineage_loop_run Hnf maxItems last l (2 + size (responses (w_db w))) ∅ id [] w) as (w' & Hr).
  - done.
  - destruct Hend as [|[Hm _]]; [by left|right]. unfold reached_limit. simpl. apply andb_true_iff. split; [apply Z.ltb_lt|apply Z.leb_le]; lia.
  - apply Forall_forall. set_solver.
  - done.
  - apply chain_length in Hc; [lia|done].
  - unfold reached_limit. simpl. destruct (Z.ltb_spec 0 maxItems); [by apply Z.leb_gt|done].
  - rewrite (st_bind_run _ _ _ _ _ Hr). eexists. simpl. unfold limited. simpl. by rewrite Nat.sub_0_r.
Qed.

Definition linked (id prev : string) : StoredResponse :=
  {| sr_ID := id; sr_Model := "m"; sr_RequestJSON := ""; sr_ResponseJSON := "";
     sr_NormalizedInputItems := []; sr_EffectiveInputItems := []; sr_Output := [];
     sr_OutputText := ""; sr_PreviousResponseID := prev; sr_ConversationID := "";
     sr_Store := true; sr_CreatedAt := "t"; sr_CompletedAt := "t" |}.

Definition demo_linked : world :=
  after (@SaveResponse reliable (linked "b" "a")) (after (@SaveResponse reliable (linked "a" "")) start).

Lemma GetResponseLineage_complete_witness :
  exists w', @GetResponseLineage reliable "b" 0 demo_linked = (Ok (reverse [linked "b" "a"; linked "a" ""]), w').
Proof.
  apply (proj2 (@GetResponseLineage_complete reliable "b" 0 demo_linked) [linked "b" "a"; linked "a" ""] ""); [done| |by left].
  eapply chain_cons; [discriminate|vm_compute; reflexivity|vm_compute; reflexivity|].
  eapply chain_cons; [discriminate|vm_compute; reflexivity|vm_compute; reflexivity|].
  apply chain_nil.
Defined.

Lemma GetResponseLineage_sound_witness :
  exists last, chain (w_db demo_linked) "b" (reverse [linked "a" ""; linked "b" "a"]) last /\
    NoDup (map sr_ID [linked "a" ""; linked "b" "a"]) /\ ((0 <= 0)%Z -> last = "") /\
    ((0 < 0)%Z -> (Z.of_nat 2 <= 0)%Z /\ (last = "" \/ Z.of_nat 2 = 0%Z)).
Proof.
  apply (proj2 (@GetResponseLineage_sound reliable "b" 0 demo_linked)
           [linked "a" ""; linked "b" "a"] (after (@GetResponseLineage reliable "b" 0) demo_linked)).
  vm_compute. reflexivity.
Defined.

(** ** Replay artifacts *)

Definition payload_fits (p : string) : bool :=
  negb (bool_decide (p = "")) && (byte_len p <=? responseReplayArtifactsMaxPayloadBytes)%Z.

Definition total_bytes (rs : list artifact_row) : Z :=
  foldr (fun a n => byte_len (ar_payload_json a) + n)%Z 0%Z rs.

Definition eligible (arts : list ResponseReplayArtifact) : list ResponseReplayArtifact :=
  filter (fun a => payload_fits (ra_PayloadJSON a) = true) arts.

(** The rows one save writes. *)
Record written_rows (responseID : string) (arts : list ResponseReplayArtifact)
    (count : nat) (bytes : Z) (old rs : list artifact_row) : Prop := {
  wr_owner : Forall (fun a => ar_response_id a = responseID) rs;
  wr_count : count + length rs <= responseReplayArtifactsMaxCount;
  wr_bytes : (bytes + total_bytes rs <= responseReplayArtifactsMaxTotalPayloadBytes)%Z;
  wr_fits : Forall (fun a => payload_fits (ar_payload_json a) = true) rs;
  wr_prefix : exists k, map ar_payload_json rs = take k (map ra_PayloadJSON (eligible arts));
  wr_unique : NoDup (map ar_sequence_number rs);
  wr_fresh : Forall (fun a => forall a', a' ∈ old -> ar_response_id a' = responseID ->
                              ar_sequence_number a' <> ar_sequence_number a) rs
}.

Lemma written_nil id arts count bytes old : count <= responseReplayArtifactsMaxCount ->
  (bytes <= responseReplayArtifactsMaxTotalPayloadBytes)%Z -> written_rows id arts count bytes old [].
Proof.
  intros Hc Hb. split; simpl; [apply Forall_nil_2|lia|lia|apply Forall_nil_2| |apply NoDup_nil_2|apply Forall_nil_2].
  exists 0. by rewrite take_0.
Qed.

Lemma eligible_cons a arts : eligible (a :: arts) =
  if payload_fits (ra_PayloadJSON a) then a :: eligible arts else eligible arts.
Proof.
  unfold eligible. destruct (payload_fits (ra_PayloadJSON a)) eqn:E.
  - by rewrite filter_cons_True.
  - rewrite filter_cons_False; [done|]. by rewrite E.
Qed.

Lemma artifact_loop_ok `{Sqlite} id arts : forall next bytes count w u w',
  artifact_loop id next bytes count arts w = (Ok u, w') ->
  count <= responseReplayArtifactsMaxCount ->
  (bytes <= responseReplayArtifactsMaxTotalPayloadBytes)%Z ->
  exists rs, w_db w' = set_artifacts (w_db w) (response_replay_artifacts (w_db w) ++ rs) /\
    written_rows id arts count bytes (response_replay_artifacts (w_db w)) rs.
Proof.
  assert (Hnil : forall db, db = set_artifacts db (response_replay_artifacts db ++ [])).
  { intros []. unfold set_artifacts; simpl. by rewrite app_nil_r. }
  induction arts as [|a arts IH]; intros next bytes count w u w'; simpl.
  { intros [= _ <-] Hc Hb. exists []. split; [apply Hnil|by apply written_nil]. }
  case_decide as Hp.
  { intros Hb Hc Hby. destruct (IH _ _ _ _ _ _ Hb Hc Hby) as (rs & Hdb & Hw). exists rs. split; [done|].
    destruct Hw as [W1 W2 W3 W4 W5 W6 W7]. split; try done. rewrite eligible_cons.
    assert (payload_fits (ra_PayloadJSON a) = false) as ->; [|done]. unfold payload_fits.
    apply andb_false_iff. destruct Hp as [->|Hp]; [by left|right]. by apply Z.leb_gt. }
  apply Decidable.not_or in Hp as [Hne Hfit].
  assert (Hpf : payload_fits (ra_PayloadJSON a) = true).
  { unfold payload_fits. rewrite bool_decide_eq_false_2 by done. apply Z.leb_le. lia. }
  case_decide as Hcnt.
  { intros [= _ <-] Hc Hby. exists []. split; [apply Hnil|by apply written_nil]. }
  case_decide as Htot.
  { intros [= _ <-] Hc Hby. exists []. split; [apply Hnil|by apply written_nil]. }
  intros Hb Hc Hby. apply st_bind_ok in Hb as (u1 & w1 & Hx & Hb).
  apply exec_ok in Hx as (_ & Hx & _). apply insert_artifact_row_ok in Hx as [Hw1 Hfresh].
  set (row := {| ar_response_id := id |}) in *.
  apply IH in Hb as (rs & Hdb & [W1 W2 W3 W4 [k W5] W6 W7]); [|lia|lia].
  exists (row :: rs). rewrite Hdb, Hw1. simpl. rewrite <-app_assoc. split; [done|].
  rewrite Hw1 in W7. simpl in W7. rewrite Forall_forall in Hfresh, W7. split; simpl.
  - by constructor.
  - lia.
  - change (ar_payload_json row) with (ra_PayloadJSON a). lia.
  - by constructor.
  - exists (S k). rewrite eligible_cons, Hpf. simpl. by rewrite W5.
  - apply NoDup_cons. split; [|done]. intros Hin. apply list_elem_of_fmap in Hin as (r' & Heq & Hr').
    apply (W7 r' Hr' row); [set_solver|done|done].
  - constructor; [intros a' Ha' Hid Hs; by apply (Hfresh a' Ha')|].
    apply Forall_forall. intros r' Hr' a' Ha'. apply W7; [done|set_solver].
Qed.

(** Fact (bounds): after a successful save the replay artifacts of a response are
    at most 64 non-empty payloads of at most 1 MiB each and 8 MiB in all, with
    distinct sequence numbers; they are the first of the given payloads of
    acceptable size, by sequence number; what was stored before for the response
    is gone, and no other response's artifacts change. *)
Theorem SaveResponseReplayArtifacts_spec `{Sqlite} responseID artifacts w w' :
  TrimSpace responseID <> "" ->
  SaveResponseReplayArtifacts responseID artifacts w = (Ok tt, w') ->
  written_rows (TrimSpace responseID) (sort_by artifact_le artifacts) 0 0 []
    (artifacts_of (TrimSpace responseID) (w_db w')) /\
  forall other, other <> TrimSpace responseID -> artifacts_of other (w_db w') = artifacts_of other (w_db w).
Proof.
  set (id := TrimSpace responseID). intros Hid Hb.
  assert (Hw : exists rs, w_db w' = set_artifacts (w_db w)
      (filter (fun a => ar_response_id a <> id) (response_replay_artifacts (w_db w)) ++ rs) /\
      written_rows id (sort_by artifact_le artifacts) 0 0
        (filter (fun a => ar_response_id a <> id) (response_replay_artifacts (w_db w))) rs).
  { unfold SaveResponseReplayArtifacts in Hb. fold id in Hb. rewrite decide_False in Hb by done.
    destruct artifacts as [|a arts].
    - apply transaction_ok in Hb as (w1 & w2 & Hd & _ & Hx & Hd').
      apply exec_ok in Hx as (_ & Hx & _). injection Hx as Hx. exists [].
      rewrite app_nil_r, Hd', <-Hx, Hd. split; [done|].
      apply written_nil; unfold responseReplayArtifactsMaxCount, responseReplayArtifactsMaxTotalPayloadBytes; lia.
    - apply transaction_ok in Hb as (w1 & w2 & Hd & _ & Hx & Hd').
      apply st_bind_ok in Hx as (u1 & w3 & Hx & Hb). apply exec_ok in Hx as (_ & Hx & _).
      injection Hx as _ Hx. apply st_bind_ok in Hb as (u2 & w4 & Hq & Hb).
      apply query_ok in Hq as (_ & Hd4 & _). apply artifact_loop_ok in Hb as (rs & Hdb & Hrows);
        [|unfold responseReplayArtifactsMaxCount; lia|unfold responseReplayArtifactsMaxTotalPayloadBytes; lia].
      assert (E : w_db w4 = set_artifacts (w_db w)
        (filter (fun a => ar_response_id a <> id) (response_replay_artifacts (w_db w))))
        by (by rewrite Hd4, <-Hx, Hd).
      rewrite E in Hdb, Hrows. exists rs. by rewrite Hd', Hdb. }
  destruct Hw as (rs & Hdb & [W1 W2 W3 W4 W5 W6 W7]). unfold artifacts_of at 1 2. rewrite Hdb. simpl.
  rewrite filter_app. rewrite (filter_none _ (filter _ _)), (filter_all _ rs) by
    (done || by apply Forall_forall; intros a [Ha _]%list_elem_of_filter). split.
  - split; try done. apply Forall_forall. set_solver.
  - intros other Hne. rewrite filter_app, (filter_none _ rs), app_nil_r.
    + rewrite filter_comm. apply filter_all, Forall_forall. intros a [Ha _]%list_elem_of_filter. congruence.
    + eapply Forall_impl; [exact W1|]. intros a Ha Ha'. congruence.
Qed.

Definition demo_artifacts : list ResponseReplayArtifact :=
  [{| ra_ResponseID := ""; ra_Sequence := 2; ra_EventType := " x "; ra_PayloadJSON := "{}" |};
   {| ra_ResponseID := ""; ra_Sequence := 1; ra_EventType := "y"; ra_PayloadJSON := "[]" |};
   {| ra_ResponseID := ""; ra_Sequence := 3; ra_EventType := "z"; ra_PayloadJSON := "" |}].

Definition demo_replay (S : Sqlite) : world :=
  after (@SaveResponseReplayArtifacts S "resp_1" demo_artifacts)
    (after (@SaveResponse S demo_response) start).

Lemma SaveResponseReplayArtifacts_spec_witness :
  written_rows "resp_1" (sort_by artifact_le demo_artifacts) 0 0 []
    (artifacts_of "resp_1" (w_db (demo_replay reliable))) /\
  forall other, other <> "resp_1" ->
    artifacts_of other (w_db (demo_replay reliable)) =
    artifacts_of other (w_db (after (@SaveResponse reliable demo_response) start)).
Proof.
  apply (@SaveResponseReplayArtifacts_spec reliable "resp_1" demo_artifacts
           (after (@SaveResponse reliable demo_response) start) (demo_replay reliable)).
  - vm_compute. discriminate.
  - vm_compute. reflexivity.
Defined.

(** Fact (safety): deleting a response removes it and nothing else of the
    responses table; its replay artifacts go with it when the statement runs on
    a connection that enforces foreign keys, and stay behind otherwise. *)
Theorem DeleteResponse_spec `{Sqlite} id w w' : DeleteResponse id w = (Ok tt, w') ->
  is_Some (responses (w_db w) !! id) /\ responses (w_db w') = delete id (responses (w_db w)) /\
  artifacts_of id (w_db w') = (if conn_fk (w_stmts w) then [] else artifacts_of id (w_db w)) /\
  (forall other, other <> id -> artifacts_of other (w_db w') = artifacts_of other (w_db w)) /\
  same_conversations (w_db w) (w_db w').
Proof.
  intros Hb. pose proof (DeleteResponse_same _ _ _ _ Hb) as Hsame. unfold DeleteResponse in Hb.
  apply st_bind_ok in Hb as (n & w1 & Hx & Hb). apply exec_ok in Hx as (_ & Hx & _).
  unfold delete_response_row in Hx. case_decide as Hn; [done|]. injection Hb as <-.
  destruct (responses (w_db w) !! id) as [row|] eqn:Er; [|injection Hx as <- _; done].
  injection Hx as _ Hx. split; [done|]. rewrite <-Hx. destruct (conn_fk (w_stmts w)); simpl.
  - unfold artifacts_of; simpl. split; [done|]. split.
    + apply filter_none, Forall_forall. intros a [Ha _]%list_elem_of_filter. done.
    + split; [|by rewrite <-Hx in Hsame]. intros other Hne. rewrite filter_comm.
      apply filter_all, Forall_forall. intros a [Ha _]%list_elem_of_filter. congruence.
  - split; [done|]. split; [done|]. split; [done|]. by rewrite <-Hx in Hsame.
Qed.

Lemma DeleteResponse_spec_witness :
  is_Some (responses (w_db (demo_replay unenforced)) !! "resp_1") /\
  responses (w_db (after (@DeleteResponse unenforced "resp_1") (demo_replay unenforced))) =
    delete "resp_1" (responses (w_db (demo_replay unenforced))) /\
  artifacts_of "resp_1" (w_db (after (@DeleteResponse unenforced "resp_1") (demo_replay unenforced))) =
    artifacts_of "resp_1" (w_db (demo_replay unenforced)) /\
  (forall other, other <> "resp_1" ->
    artifacts_of other (w_db (after (@DeleteResponse unenforced "resp_1") (demo_replay unenforced))) =
    artifacts_of other (w_db (demo_replay unenforced))) /\
  same_conversations (w_db (demo_replay unenforced))
    (w_db (after (@DeleteResponse unenforced "resp_1") (demo_replay unenforced))).
Proof. apply (@DeleteResponse_spec unenforced "resp_1"). vm_compute. reflexivity. Defined.

(** Fact (error): with the foreign keys left off, as they are on every pooled
    connection but the first, the replay artifacts of a deleted response can
    still be fetched. *)
Theorem deleted_response_still_replayed :
  let w := after (@DeleteResponse unenforced "resp_1") (demo_replay unenforced) in
  responses (w_db w) !! "resp_1" = None /\
  (@GetResponseReplayArtifacts unenforced "resp_1" w).1 =
    Ok [{| ra_ResponseID := "resp_1"; ra_Sequence := 1; ra_EventType := "y"; ra_PayloadJSON := "[]" |};
        {| ra_ResponseID := "resp_1"; ra_Sequence := 2; ra_EventType := "x"; ra_PayloadJSON := "{}" |}].
Proof. vm_compute. done. Qed.
