(* ===== verification/ConvService.v ===== *)
(** * internal/service: conversations.go, conversation_items.go

    The conversation service over the interface storage.ConversationStore.
    [ConversationStore] is that interface; [ConversationStoreSpec] is what the
    service may rely on, and what StoreInstance proves of the sqlite store.
    The time the service reads ([FormatTime(NowUTC())]) is an argument. *)

From S2P Require Import Prelude GoStr GoFloat GoJson JsonFacts World Items ItemFacts Normalize NormProps Context.

(** ** The interface *)

Class ConversationStore (W : Type) := {
  cs_CreateConversation : Conversation -> ST W unit;
  cs_GetConversation : string -> ST W (Conversation * list ConversationItem);
  cs_GetConversationItem : string -> string -> ST W ConversationItem;
  cs_ListConversationItems : ListConversationItemsQuery -> ST W ConversationItemPage;
  cs_AppendConversationItems : Conversation -> list Item -> string -> ST W (list ConversationItem);
  cs_DeleteConversationItem : Conversation -> string -> string -> ST W unit;
  (** the process's identifier generator *)
  cs_ids : forall A, ST nat A -> ST W A
}.

Arguments cs_ids {W _ A} m.

(** What a store owes its clients, about the version of each conversation and
    the identifiers of its items, in order. *)
Class ConversationStoreSpec (W : Type) `{ConversationStore W} := {
  store_ok : W -> Prop;
  contents : W -> string -> option (Z * list string);
  ids_law A (m : ST nat A) w r w' : cs_ids m w = (r, w') -> store_ok w ->
    store_ok w' /\ (forall c, contents w' c = contents w c) /\ exists n n', m n = (r, n');
  get_law id w r w' : cs_GetConversation id w = (r, w') -> store_ok w ->
    store_ok w' /\ (forall c, contents w' c = contents w c) /\
    forall c items, r = Ok (c, items) ->
      cv_ID c = id /\ contents w id = Some (cv_Version c, map ci_ID items) /\
      cv_Items c = map ci_Item items;
  create_law c w r w' : cs_CreateConversation c w = (r, w') -> store_ok w ->
    store_ok w' /\ (forall c', c' <> cv_ID c -> contents w' c' = contents w c') /\
    (is_ok r = false -> contents w' (cv_ID c) = contents w (cv_ID c)) /\
    (r = Ok tt -> Forall (fun i => ID i <> "") (cv_Items c) -> contents w (cv_ID c) = None /\
       contents w' (cv_ID c) = Some (cv_Version c, map ID (cv_Items c)));
  append_law c items t w r w' : cs_AppendConversationItems c items t w = (r, w') -> store_ok w ->
    store_ok w' /\ (forall c', c' <> cv_ID c -> contents w' c' = contents w c') /\
    (is_ok r = false -> contents w' (cv_ID c) = contents w (cv_ID c)) /\
    (forall rows, r = Ok rows -> Forall (fun i => ID i <> "") items ->
       map ci_Item rows = items /\ map ci_ID rows = map ID items /\
       exists old, contents w (cv_ID c) = Some (cv_Version c, old) /\
         contents w' (cv_ID c) = Some (cv_Version c + 1, old ++ map ci_ID rows)%Z);
  delete_law c id t w r w' : cs_DeleteConversationItem c id t w = (r, w') -> store_ok w ->
    store_ok w' /\ (forall c', c' <> cv_ID c -> contents w' c' = contents w c') /\
    (is_ok r = false -> contents w' (cv_ID c) = contents w (cv_ID c)) /\
    (r = Ok tt -> exists old, contents w (cv_ID c) = Some (cv_Version c, old) /\ id ∈ old /\
       contents w' (cv_ID c) = Some (cv_Version c + 1, filter (fun x => x <> id) old)%Z);
  read_law w : store_ok w ->
    (forall q r w', cs_ListConversationItems q w = (r, w') ->
       store_ok w' /\ forall c, contents w' c = contents w c) /\
    (forall c id r w', cs_GetConversationItem c id w = (r, w') ->
       store_ok w' /\ forall c', contents w' c' = contents w c')
}.

(** ** Errors *)

Definition MapStorageError (e : goerr) : goerr :=
  if errors_is ENotFound e then ESvcNotFound
  else if errors_is EConflict e then ESvcConflict
  else e.

Definition map_storage {W A} (m : ST W A) : ST W A := fun w =>
  match m w with
  | (Err e, w') => (Err (MapStorageError e), w')
  | r => r
  end.

(** ** The service *)

Definition maxConversationItemsPerRequest : nat := 20.

(** The loop of canonicalizeConversationAppendItems; a call appended earlier in
    the same request is known to the outputs after it. *)
Fixpoint canonicalize_loop (items : list Item) (knownRefs : gmap string ToolCallReference)
    : res (list Item) :=
  match items with
  | [] => Ok []
  | item :: items =>
      canonicalized ← CanonicalizeToolOutputs [item] knownRefs;
      match canonicalized with
      | [] => Panic
      | first :: _ =>
          out ← canonicalize_loop items (CollectToolCallReferences canonicalized ∪ knownRefs);
          Ok (first :: out)
      end
  end.

Definition canonicalizeConversationAppendItems (items : list Item)
    (refs : gmap string ToolCallReference) : res (list Item) :=
  canonicalize_loop items refs.

Section service.
Context {W : Type} `{ConversationStore W} `{IdSource} `{MapOrder}.

Definition Get (id : string) : ST W Conversation :=
  if decide (id = "") then st_err (EValidation "conversation_id" "conversation id is required")
  else '(conversation, _) ← map_storage (cs_GetConversation id); mret conversation.

(** The items a conversation is created with. *)
Definition initial_items (rawItems : list json) : ST W (list Item) :=
  match rawItems with
  | [] => mret []
  | _ =>
      if decide (maxConversationItemsPerRequest < length rawItems) then
        st_err (EValidation "items" "items may include at most 20 items")
      else
        items ← st_lift (NormalizeConversationItems rawItems);
        cs_ids (EnsureItemIDs items)
  end.

Definition Create (now : string) (rawItems : list json) (rawMetadata : string) : ST W Conversation :=
  items ← initial_items rawItems;
  metadata ← st_lift (NormalizeConversationMetadata rawMetadata);
  conversationID ← st_wrap "generate conversation id" (cs_ids (NewPrefixedID "conv"));
  let conversation :=
    {| cv_ID := conversationID; cv_Object := "conversation"; cv_Metadata := metadata;
       cv_Items := items; cv_Version := 1; cv_CreatedAt := now; cv_UpdatedAt := now |} in
  _ ← cs_CreateConversation conversation;
  mret conversation.

Definition ListItems (query : ListConversationItemsQuery) : ST W ConversationItemPage :=
  if decide (lq_ConversationID query = "") then
    st_err (EValidation "conversation_id" "conversation id is required")
  else if (lq_Limit query <=? 0)%Z then
    st_err (EValidation "limit" "limit must be between 1 and 100")
  else if decide (lq_Order query = "" \/ lq_Order query = ConversationItemOrderDesc) then
    cs_ListConversationItems
      {| lq_ConversationID := lq_ConversationID query; lq_After := lq_After query;
         lq_Limit := lq_Limit query; lq_Order := ConversationItemOrderDesc |}
  else if decide (lq_Order query = ConversationItemOrderAsc) then cs_ListConversationItems query
  else st_err (EValidation "order" "order must be one of asc or desc").

Definition GetItem (conversationID itemID : string) : ST W ConversationItem :=
  if decide (conversationID = "") then
    st_err (EValidation "conversation_id" "conversation id is required")
  else if decide (itemID = "") then st_err (EValidation "item_id" "item id is required")
  else map_storage (cs_GetConversationItem conversationID itemID).

Definition DeleteItem (updatedAt conversationID itemID : string) : ST W Conversation :=
  if decide (conversationID = "") then
    st_err (EValidation "conversation_id" "conversation id is required")
  else if decide (itemID = "") then st_err (EValidation "item_id" "item id is required")
  else
    '(conversation, _) ← map_storage (cs_GetConversation conversationID);
    _ ← map_storage (cs_DeleteConversationItem conversation itemID updatedAt);
    mret {| cv_ID := cv_ID conversation; cv_Object := cv_Object conversation;
            cv_Metadata := cv_Metadata conversation; cv_Items := cv_Items conversation;
            cv_Version := cv_Version conversation + 1; cv_CreatedAt := cv_CreatedAt conversation;
            cv_UpdatedAt := updatedAt |}.

Definition AppendItems (now conversationID : string) (rawItems : list json)
    : ST W (list ConversationItem) :=
  if decide (conversationID = "") then
    st_err (EValidation "conversation_id" "conversation id is required")
  else if decide (rawItems = []) then st_err (EValidation "items" "items must not be empty")
  else if decide (maxConversationItemsPerRequest < length rawItems) then
    st_err (EValidation "items" "items may include at most 20 items")
  else
    '(conversation, _) ← map_storage (cs_GetConversation conversationID);
    items ← st_lift (NormalizeConversationItems rawItems);
    items ← st_lift (canonicalizeConversationAppendItems items
                       (CollectToolCallReferences (cv_Items conversation)));
    items ← cs_ids (EnsureItemIDs items);
    map_storage (cs_AppendConversationItems conversation items now).
End service.
