(* ===== verification/ConvProps.v ===== *)
(** * What the conversation service does

    Proved against the interface [ConversationStore] and what
    [ConversationStoreSpec] promises of it, for any store. *)

From S2P Require Import Prelude GoStr GoFloat GoJson JsonFacts World Items ItemFacts ItemProps Normalize NormProps Context ConvService.

(** ** Tool outputs of a request *)

Lemma collect_from l m :
  foldl collect_ref m l = foldl collect_ref ∅ l ∪ m.
Proof.
  induction l as [|i l IH] using rev_ind; [simpl; by rewrite (left_id_L ∅ (∪))|].
  rewrite !foldl_app. simpl. rewrite IH. unfold collect_ref.
  case_decide; [done|]. destruct (is_collected_call _); [|done]. by rewrite insert_union_l.
Qed.

Lemma Collect_cons i l :
  CollectToolCallReferences (i :: l) = CollectToolCallReferences l ∪ CollectToolCallReferences [i].
Proof. unfold CollectToolCallReferences. simpl. apply collect_from. Qed.

(** Each output is read with the calls of the conversation and those before it
    in the request; a later call with the same id wins. *)
Definition canonical_request (refs : gmap string ToolCallReference) (items out : list Item) : Prop :=
  length out = length items /\
  forall k i o, items !! k = Some i -> out !! k = Some o ->
    canonical_of (CollectToolCallReferences (take k out) ∪ refs) i o.

Lemma canonicalize_one refs i : item_inv i ->
  exists o, CanonicalizeToolOutputs [i] refs = Ok [o] /\ item_inv o /\ canonical_of refs i o.
Proof.
  intros Hi. unfold CanonicalizeToolOutputs. case_decide as Hd.
  - exists i. split; [done|]. split; [done|]. destruct Hd as [?| ->]; [done|].
    unfold canonical_of. by rewrite lookup_empty.
  - destruct (canonicalize_output_spec refs i Hi) as (o & HO & Hinv & Hcan).
    exists o. simpl. by rewrite HO.
Qed.

Lemma canonicalize_loop_spec items refs : Forall item_inv items ->
  exists out, canonicalize_loop items refs = Ok out /\ Forall item_inv out /\
    canonical_request refs items out.
Proof.
  intros Hi. revert refs. induction Hi as [|i items Hi Hitems IH]; intros refs.
  { exists []. split; [done|]. split; [constructor|]. by split. }
  destruct (canonicalize_one refs i Hi) as (o & Ho & Hinv & Hcan).
  destruct (IH (CollectToolCallReferences [o] ∪ refs)) as (out & Hout & Hall & Hlen & Hk).
  exists (o :: out). split; [|split; [by constructor|]].
  - simpl. rewrite Ho. simpl. by rewrite Hout.
  - split; [simpl; by rewrite Hlen|]. intros [|k] i' o'; simpl.
    + intros [= <-] [= <-]. unfold CollectToolCallReferences. simpl. by rewrite (left_id_L ∅ (∪)).
    + intros Hi' Ho'. rewrite Collect_cons, <-(assoc_L (∪)). by eapply Hk.
Qed.

(** ** Identifiers *)

Section ids.
Context `{IdLaws}.

Lemma ensure_item_id_ok i n o n' : item_inv i -> ensure_item_id i n = (Ok o, n') -> ensured i o.
Proof.
  intros Hi He. destruct (uuid_v7 n) as [u|] eqn:Hu.
  - destruct (ensure_item_id_spec i n Hi ltac:(by rewrite Hu)) as (o' & He' & Hinv & HM & Hid & Hc).
    rewrite He in He'. injection He' as <- _. repeat split; [done..|]. revert Hc. case_decide; eauto.
  - revert He. unfold ensure_item_id. case_decide as Hd.
    + intros [= <- <-]. rewrite ID_trimmed in Hd. repeat split; [done..|]. by rewrite decide_False.
    + unfold mbind, st_bind, NewPrefixedID. rewrite Hu. done.
Qed.

Lemma EnsureItemIDs_ok items n out n' : Forall item_inv items ->
  EnsureItemIDs items n = (Ok out, n') -> Forall2 ensured items out.
Proof.
  intros Hi Hm%st_map_ok. revert Hi. induction Hm as [|i o items out (s1 & s2 & He) Hm IH]; [constructor|].
  intros [Hi Hitems]%Forall_cons. constructor; [by eapply ensure_item_id_ok|auto].
Qed.

Lemma ensured_ids items out : Forall2 ensured items out -> Forall (fun i => ID i <> "") out.
Proof. induction 1 as [|i o items out (_ & _ & Hid & _) Hf IH]; by constructor. Qed.
End ids.

(** ** Running the store *)

Lemma map_storage_ok {W A} (m : ST W A) w a w' : map_storage m w = (Ok a, w') -> m w = (Ok a, w').
Proof. unfold map_storage. by destruct (m w) as [[?|?|] ?]. Qed.

Lemma map_storage_state {W A} (m : ST W A) w r w' : map_storage m w = (r, w') ->
  exists r0, m w = (r0, w') /\ is_ok r0 = is_ok r.
Proof. unfold map_storage. destruct (m w) as [[?|?|] ?]; intros [= <- <-]; eauto. Qed.

Section service.
Context {W : Type} `{Cs : ConversationStore W} `{Spec : !ConversationStoreSpec W} `{Hids : IdLaws} `{Ho : MapOrder}.

(** [w'] is a good state in which every conversation is as in [w]. *)
Definition untouched (w w' : W) : Prop := store_ok w' /\ forall c, contents w' c = contents w c.

(** [m] leaves every conversation as it is. *)
Definition quiet {A} (m : ST W A) : Prop := forall w r w', m w = (r, w') -> store_ok w -> untouched w w'.

Lemma untouched_refl w : store_ok w -> untouched w w.
Proof. by split. Qed.
Lemma untouched_trans w1 w2 w3 : untouched w1 w2 -> untouched w2 w3 -> untouched w1 w3.
Proof. intros [_ H1] [Hok H2]. split; [done|]. intros c. by rewrite H2. Qed.

Lemma quiet_ret {A} (a : A) : quiet (mret a).
Proof. intros w r w' [= <- <-]. apply untouched_refl. Qed.
Lemma quiet_lift {A} (m : res A) : quiet (st_lift m).
Proof. intros w r w' [= <- <-]. apply untouched_refl. Qed.
Lemma quiet_err {A} e : quiet (st_err (A := A) e).
Proof. intros w r w' [= <- <-]. apply untouched_refl. Qed.
Lemma quiet_ids {A} (m : ST nat A) : quiet (cs_ids m).
Proof. intros w r w' Hm Hw. destruct (ids_law _ _ _ _ _ Hm Hw) as (? & ? & _). by split. Qed.
Lemma quiet_get id : quiet (cs_GetConversation id).
Proof. intros w r w' Hm Hw. destruct (get_law _ _ _ _ Hm Hw) as (? & ? & _). by split. Qed.
Lemma quiet_item c id : quiet (cs_GetConversationItem c id).
Proof. intros w r w' Hm Hw. by apply (read_law w Hw) in Hm. Qed.
Lemma quiet_list q : quiet (cs_ListConversationItems q).
Proof. intros w r w' Hm Hw. by apply (read_law w Hw) in Hm. Qed.
Lemma quiet_wrap {A} ctx (m : ST W A) : quiet m -> quiet (st_wrap ctx m).
Proof. intros Hm w r w'. unfold st_wrap. destruct (m w) eqn:E. intros [= <- <-]. eauto. Qed.
Lemma quiet_map {A} (m : ST W A) : quiet m -> quiet (map_storage m).
Proof. intros Hm w r w' (r0 & Hr & _)%map_storage_state. eauto. Qed.
Lemma quiet_bind {A B} (m : ST W A) (f : A -> ST W B) : quiet m -> (forall a, quiet (f a)) -> quiet (m ≫= f).
Proof.
  intros Hm Hf w r w'. unfold mbind, st_bind. destruct (m w) as [[a|e|] w1] eqn:E.
  - intros H1 Hw. pose proof (Hm _ _ _ E Hw) as H2. eapply untouched_trans; [exact H2|].
    eapply Hf; [exact H1|]. apply H2.
  - intros [= <- <-]. eauto.
  - intros [= <- <-]. eauto.
Qed.

(** [m] changes no conversation but the one called [c], and none at all unless
    it returns normally. *)
Definition writes_only (c : string) (w w' : W) {A} (r : res A) : Prop :=
  store_ok w' /\ (forall c', c' <> c -> contents w' c' = contents w c') /\
  (is_ok r = false -> contents w' c = contents w c).

Lemma untouched_writes c w w' {A} (r : res A) : untouched w w' -> writes_only c w w' r.
Proof. intros [? Hc]. repeat split; [done|..]; intros; apply Hc. Qed.

Lemma writes_after c w w1 w' {A} (r : res A) : untouched w w1 -> writes_only c w1 w' r -> writes_only c w w' r.
Proof.
  intros [_ H1] (Hok & H2 & H3). split; [done|]. split.
  - intros c' Hc'. by rewrite H2.
  - intros Hr. by rewrite H3.
Qed.
End service.

Ltac quiet :=
  repeat first
    [ apply quiet_bind; [|intros] | apply quiet_ret | apply quiet_lift | apply quiet_err
    | apply quiet_ids | apply quiet_get | apply quiet_item | apply quiet_list
    | apply quiet_wrap | apply quiet_map
    | match goal with |- quiet (match ?x with _ => _ end) => destruct x end ].

(** ** The operations *)

Section claims.
Context {W : Type} `{Cs : ConversationStore W} `{Spec : !ConversationStoreSpec W} `{Hids : IdLaws} `{Ho : MapOrder}.

Lemma writes_bind c {A B} (m : ST W A) (f : A -> ST W B) w r w' : store_ok w -> quiet m ->
  (forall a w1, m w = (Ok a, w1) -> untouched w w1 -> f a w1 = (r, w') -> writes_only c w1 w' r) ->
  (m ≫= f) w = (r, w') -> writes_only c w w' r.
Proof.
  intros Hw Hm Hf. unfold mbind, st_bind. destruct (m w) as [[a|e|] w1] eqn:E; intros Hr;
    pose proof (Hm _ _ _ E Hw) as Hu.
  - eapply writes_after; [exact Hu|]. by apply (Hf a).
  - injection Hr as <- <-. by apply untouched_writes.
  - injection Hr as <- <-. by apply untouched_writes.
Qed.

Lemma writes_mapped c {A} (m : ST W A) w r w' : map_storage m w = (r, w') ->
  (forall r0, m w = (r0, w') -> writes_only c w w' r0) -> writes_only c w w' r.
Proof.
  intros (r0 & Hm & Hr)%map_storage_state Hall. destruct (Hall r0 Hm) as (? & ? & Hn).
  split; [done|]. split; [done|]. rewrite <-Hr. exact Hn.
Qed.

(** A read followed by a write to the conversation that was read. *)
Lemma read_then_write c {A} (f : Conversation * list ConversationItem -> ST W A) w r w' : store_ok w ->
  (forall conv items w1, cs_GetConversation c w = (Ok (conv, items), w1) -> cv_ID conv = c ->
     store_ok w1 -> f (conv, items) w1 = (r, w') -> writes_only c w1 w' r) ->
  (map_storage (cs_GetConversation c) ≫= f) w = (r, w') -> writes_only c w w' r.
Proof.
  intros Hw Hf. apply writes_bind; [done|quiet|]. intros [conv items] w1 Hget%map_storage_ok Hu Hb.
  apply (Hf conv items w1); [done| |apply Hu|done].
  destruct (get_law _ _ _ _ Hget Hw) as (_ & _ & Hr). by destruct (Hr _ _ eq_refl).
Qed.

Lemma rejected_writes c {A} e w r w' : store_ok w -> st_err (A := A) e w = (r, w') -> writes_only c w w' r.
Proof. intros Hw [= <- <-]. by apply untouched_writes, untouched_refl. Qed.

Lemma AppendItems_writes now c raws w r w' : store_ok w ->
  AppendItems now c raws w = (r, w') -> writes_only c w w' r.
Proof.
  intros Hw. unfold AppendItems. repeat (case_decide; [by apply rejected_writes|]).
  apply read_then_write; [done|]. intros conv its w1 _ Hid Hw1.
  apply writes_bind; [done|quiet|]. intros norm w2 _ [Hw2 _].
  apply writes_bind; [done|quiet|]. intros canon w3 _ [Hw3 _].
  apply writes_bind; [done|quiet|]. intros items w4 _ [Hw4 _] Hb.
  apply (writes_mapped _ _ _ _ _ Hb). intros r0 Ha.
  destruct (append_law _ _ _ _ _ _ Ha Hw4) as (? & ? & ? & _). by rewrite <-Hid.
Qed.

Lemma DeleteItem_writes now c id w r w' : store_ok w ->
  DeleteItem now c id w = (r, w') -> writes_only c w w' r.
Proof.
  intros Hw. unfold DeleteItem. repeat (case_decide; [by apply rejected_writes|]).
  apply read_then_write; [done|]. intros conv its w1 _ Hid Hw1.
  unfold mbind at 1, st_bind at 1. destruct (map_storage _ w1) as [r0 w2] eqn:Hd. intros Hb.
  assert (Hk : is_ok r = is_ok r0 /\ w' = w2) by (destruct r0; by injection Hb as <- <-).
  destruct Hk as [Hk ->]. enough (writes_only c w1 w2 r0) as (? & ? & ?).
  { split; [done|]. split; [done|]. by rewrite Hk. }
  apply (writes_mapped _ _ _ _ _ Hd). intros r1 Ha.
  destruct (delete_law _ _ _ _ _ _ Ha Hw1) as (? & ? & ? & _). by rewrite <-Hid.
Qed.

Lemma AppendItems_run now c raws w r w' : store_ok w -> AppendItems now c raws w = (r, w') ->
  store_ok w' /\ (forall c', c' <> c -> contents w' c' = contents w c') /\
  match r with
  | Ok rows =>
      1 <= length raws <= 20 /\
      exists conv old w1 norm canon, cs_GetConversation c w = (Ok (conv, old), w1) /\
        NormalizeConversationItems raws = Ok norm /\
        canonical_request (CollectToolCallReferences (cv_Items conv)) norm canon /\
        Forall2 ensured canon (map ci_Item rows) /\ map ci_ID rows = map ID (map ci_Item rows) /\
        contents w c = Some (cv_Version conv, map ci_ID old) /\
        contents w' c = Some (cv_Version conv + 1, map ci_ID old ++ map ci_ID rows)%Z
  | _ => contents w' c = contents w c
  end.
Proof.
  intros Hw Hb. destruct (AppendItems_writes _ _ _ _ _ _ Hw Hb) as (Hw' & Hoth & Hfail).
  split; [done|]. split; [done|]. destruct r as [rows| |]; [|by apply Hfail..]. clear Hfail.
  revert Hb. unfold AppendItems. case_decide; [done|]. case_decide as Hne; [done|]. case_decide as Hmax; [done|].
  intros Hb. apply st_bind_ok in Hb as ([conv old] & w1 & Hg%map_storage_ok & Hb).
  apply st_bind_ok in Hb as (norm & w2 & [= Hnorm <-] & Hb).
  apply st_bind_ok in Hb as (canon' & w3 & [= Hcanon <-] & Hb).
  apply st_bind_ok in Hb as (items & w4 & Hi & Hb%map_storage_ok).
  destruct (get_law _ _ _ _ Hg Hw) as (Hw1 & Hu1 & Hget). destruct (Hget _ _ eq_refl) as (Hid & Hcon & _).
  destruct (ids_law _ _ _ _ _ Hi Hw1) as (Hw2 & Hu2 & n & n' & Hens).
  destruct (NormalizeConversationItems_inv _ _ Hnorm) as [Hinv _].
  destruct (canonicalize_loop_spec _ (CollectToolCallReferences (cv_Items conv)) Hinv) as (canon & Hc & Hcinv & Hcr).
  unfold canonicalizeConversationAppendItems in Hcanon. rewrite Hc in Hcanon. injection Hcanon as <-.
  pose proof (EnsureItemIDs_ok _ _ _ _ Hcinv Hens) as Hall.
  destruct (append_law _ _ _ _ _ _ Hb Hw2) as (_ & _ & _ & Happ).
  destruct (Happ _ eq_refl (ensured_ids _ _ Hall)) as (Hits & Hids' & old' & Ho1 & Ho2).
  rewrite Hid, Hu2, Hu1, Hcon in Ho1. injection Ho1 as <-. rewrite Hid in Ho2.
  split; [destruct raws; simpl in *; unfold maxConversationItemsPerRequest in *; [done|lia]|].
  exists conv, old, w1, norm, canon. rewrite Hits. repeat split; try done; by destruct Hcr.
Qed.

(** C12 (functional): AppendItems, over any store that keeps its promises,
    changes no other conversation, and changes this one only when it returns
    normally: then the request had 1 to 20 items, the conversation's version
    grew by one, and its items are followed by the request's items in order,
    normalized, with tool outputs read against the calls before them, and each
    with an identifier. *)
Theorem AppendItems_spec now c raws w r w' : store_ok w -> AppendItems now c raws w = (r, w') ->
  store_ok w' /\ (forall c', c' <> c -> contents w' c' = contents w c') /\
  match r with
  | Ok rows =>
      1 <= length raws <= 20 /\
      exists conv old w1 norm canon, cs_GetConversation c w = (Ok (conv, old), w1) /\
        NormalizeConversationItems raws = Ok norm /\
        canonical_request (CollectToolCallReferences (cv_Items conv)) norm canon /\
        Forall2 ensured canon (map ci_Item rows) /\ map ci_ID rows = map ID (map ci_Item rows) /\
        contents w c = Some (cv_Version conv, map ci_ID old) /\
        contents w' c = Some (cv_Version conv + 1, map ci_ID old ++ map ci_ID rows)%Z
  | _ => contents w' c = contents w c
  end.
Proof. apply AppendItems_run. Qed.

(** Fact (functional): DeleteItem changes no other conversation, and changes
    this one only when it returns normally: then the item was in it, every
    other item is still there in the same order, and the version, which the
    returned conversation carries, grew by one. *)
Theorem DeleteItem_spec now c id w r w' : store_ok w -> DeleteItem now c id w = (r, w') ->
  store_ok w' /\ (forall c', c' <> c -> contents w' c' = contents w c') /\
  match r with
  | Ok conv => exists old, cv_ID conv = c /\ cv_UpdatedAt conv = now /\
      contents w c = Some (cv_Version conv - 1, old)%Z /\ id ∈ old /\
      contents w' c = Some (cv_Version conv, filter (fun x => x <> id) old)
  | _ => contents w' c = contents w c
  end.
Proof.
  intros Hw Hb. destruct (DeleteItem_writes _ _ _ _ _ _ Hw Hb) as (Hw' & Hoth & Hfail).
  split; [done|]. split; [done|]. destruct r as [conv'| |]; [|by apply Hfail..]. clear Hfail.
  revert Hb. unfold DeleteItem. case_decide; [done|]. case_decide; [done|].
  intros Hb. apply st_bind_ok in Hb as ([conv old] & w1 & Hg%map_storage_ok & Hb).
  apply st_bind_ok in Hb as ([] & w2 & Hd%map_storage_ok & [= <- <-]).
  destruct (get_law _ _ _ _ Hg Hw) as (Hw1 & Hu1 & Hget). destruct (Hget _ _ eq_refl) as (Hid & Hcon & _).
  destruct (delete_law _ _ _ _ _ _ Hd Hw1) as (_ & _ & _ & Hdel).
  destruct (Hdel eq_refl) as (old' & Ho1 & Hin & Ho2). rewrite Hid in *.
  exists old'. simpl. rewrite <-Hu1, Ho1. repeat split; try done. do 2 f_equal. lia.
Qed.

Lemma initial_items_quiet raws : quiet (initial_items raws).
Proof. unfold initial_items. destruct raws; quiet. Qed.

Lemma initial_items_ok raws w items w1 : store_ok w -> initial_items raws w = (Ok items, w1) ->
  length raws <= 20 /\
  (raws = [] /\ items = [] \/
   exists norm, NormalizeConversationItems raws = Ok norm /\ Forall2 ensured norm items).
Proof.
  intros Hw. unfold initial_items. destruct raws as [|t raws]; [intros [= <- <-]; simpl; split; [lia|by left]|].
  case_decide as Hmax; [done|]. intros Hb. apply st_bind_ok in Hb as (norm & w2 & Hl & Hb).
  unfold st_lift in Hl. injection Hl as Hnorm <-. change (NormalizeConversationItems (t :: raws) = Ok norm) in Hnorm.
  destruct (ids_law _ _ _ _ _ Hb Hw) as (_ & _ & n & n' & He).
  destruct (NormalizeConversationItems_inv _ _ Hnorm) as [Hinv _].
  unfold maxConversationItemsPerRequest in Hmax. split; [cbn in *; lia|]. right. exists norm. split; [done|].
  by eapply EnsureItemIDs_ok.
Qed.

Lemma initial_ids raws items :
  (raws = [] /\ items = [] \/
   exists norm, NormalizeConversationItems raws = Ok norm /\ Forall2 ensured norm items) ->
  Forall (fun i => ID i <> "") items.
Proof. intros [[_ ->]|(norm & _ & Hall)]; [constructor|by eapply ensured_ids]. Qed.

(** Fact (functional): Create changes nothing unless it returns normally, and
    then adds one conversation under an identifier no conversation had, at
    version 1, with the request's items (at most 20) in order, normalized and
    each with an identifier. *)
Theorem Create_spec now raws meta w r w' : store_ok w -> Create now raws meta w = (r, w') ->
  store_ok w' /\
  match r with
  | Ok conv =>
      length raws <= 20 /\ cv_Version conv = 1%Z /\ cv_CreatedAt conv = now /\
      (exists n u, uuid_v7 n = Some u /\ cv_ID conv = "conv_" +:+ u) /\
      (raws = [] /\ cv_Items conv = [] \/
       exists norm, NormalizeConversationItems raws = Ok norm /\ Forall2 ensured norm (cv_Items conv)) /\
      NormalizeConversationMetadata meta = Ok (cv_Metadata conv) /\
      contents w (cv_ID conv) = None /\ contents w' (cv_ID conv) = Some (1%Z, map ID (cv_Items conv)) /\
      forall c, c <> cv_ID conv -> contents w' c = contents w c
  | _ => forall c, contents w' c = contents w c
  end.
Proof.
  intros Hw. unfold Create, mbind at 1, st_bind at 1.
  destruct (initial_items raws w) as [[items|e|] w1] eqn:Hi;
    pose proof (initial_items_quiet _ _ _ _ Hi Hw) as [Hw1 Hu1]; [|by intros [= <- <-]..].
  unfold mbind at 1, st_bind at 1, st_lift.
  destruct (NormalizeConversationMetadata meta) as [m|e|] eqn:Hm; [|by intros [= <- <-]..].
  unfold mbind at 1, st_bind at 1, st_wrap at 1.
  destruct (cs_ids (NewPrefixedID "conv") w1) as [rid w2] eqn:Hid.
  destruct (ids_law _ _ _ _ _ Hid Hw1) as (Hw2 & Hu2 & n & n' & Hn).
  destruct rid as [id|e|]; simpl;
    [|intros [= <- <-]; split; [done|intros c; by rewrite Hu2, Hu1]..].
  unfold mbind at 1, st_bind at 1.
  destruct (cs_CreateConversation _ w2) as [rc w3] eqn:Hc.
  destruct (create_law _ _ _ _ Hc Hw2) as (Hw3 & Hoth & Hfail & Hok). simpl in Hoth, Hfail, Hok.
  assert (Hrest : forall c, c <> id -> contents w3 c = contents w c).
  { intros c Hc'. by rewrite Hoth, Hu2, Hu1. }
  destruct rc as [[]|e|]; intros [= <- <-]; (split; [done|]).
  2,3: intros c; destruct (decide (c = id)) as [->|Hc']; [by rewrite Hfail, Hu2, Hu1|by apply Hrest].
  destruct (initial_items_ok _ _ _ _ Hw Hi) as [Hlen Hits].
  destruct (Hok eq_refl (initial_ids _ _ Hits)) as [Hnone Hsome]. simpl.
  repeat split; try done.
  - exists n. unfold NewPrefixedID in Hn. destruct (uuid_v7 n) as [u|]; [|done].
    exists u. by injection Hn as <- _.
  - by rewrite <-Hu1, <-Hu2.
Qed.
End claims.
