(* ===== verification/StoreInstance.v ===== *)
(** * The sqlite store behind the conversation service

    The store of Store is an instance of the interface of ConvService, and
    keeps the promises the service relies on. *)

From S2P Require Import Prelude GoStr GoFloat GoJson JsonFacts World Items ItemFacts ItemProps Normalize NormProps Context Store StoreFacts StoreProps ConvService ConvProps.

#[export] Instance sqlite_store `{Sqlite} `{IdSource} : ConversationStore world := {|
  cs_CreateConversation := CreateConversation;
  cs_GetConversation := GetConversation;
  cs_GetConversationItem := GetConversationItem;
  cs_ListConversationItems := ListConversationItems;
  cs_AppendConversationItems := AppendConversationItems;
  cs_DeleteConversationItem := DeleteConversationItem;
  cs_ids := @draw
|}.

(** The version and the item identifiers of a conversation. *)
Definition db_contents (db : DB) (c : string) : option (Z * list string) :=
  (fun row => (cr_version row, map ir_id (conv_items c db))) <$> conversations db !! c.

Section laws.
Context `{Sqlite} `{IdSource}.

Lemma same_contents w w' : w_db w' = w_db w -> db_inv (w_db w) ->
  db_inv (w_db w') /\ forall c, db_contents (w_db w') c = db_contents (w_db w) c.
Proof. by intros ->. Qed.

Lemma scanned_ids rows items : scanConversationItems rows = Ok items -> map ci_ID items = map ir_id rows.
Proof.
  intros Hs%res_map_ok_iff. induction Hs as [|r i rows items Hr Hs IH]; [done|]. simpl. f_equal; [|done].
  unfold scan_conversation_item in Hr. apply res_bind_ok in Hr as (it & _ & [= <-]). done.
Qed.

Lemma row_for_ids c source t items rs : Forall2 (row_for c source t) items rs ->
  Forall (fun i => ID i <> "") items -> map ir_id rs = map ID items.
Proof.
  induction 1 as [|i r items rs (_ & _ & _ & it & _ & _ & _ & Hcase) Hall IH]; [done|].
  intros [Hi Hitems]%Forall_cons. simpl. rewrite IH by done. by destruct Hcase as [(_ & -> & _)|[? _]].
Qed.

Lemma get_contents id w r w' : GetConversation id w = (r, w') -> db_inv (w_db w) ->
  forall c items, r = Ok (c, items) ->
    cv_ID c = id /\ db_contents (w_db w) id = Some (cv_Version c, map ci_ID items) /\
    cv_Items c = map ci_Item items.
Proof.
  intros Hg Hw c items ->. destruct (GetConversation_inv _ _ _ _ _ Hg Hw) as (row & meta & Hrow & _ & Hs & _ & ->).
  simpl. unfold db_contents. rewrite Hrow. simpl. by rewrite (scanned_ids _ _ Hs).
Qed.

(** Rows added to one conversation. *)
Lemma appended_contents c c' row db db' rs :
  conversations db' !! c' = Some row -> appended db db' rs ->
  Forall (fun r => ir_conversation_id r = c) rs ->
  db_contents db' c' = Some (cr_version row,
    map ir_id (conv_items c' db) ++ if decide (c' = c) then map ir_id rs else []).
Proof.
  intros Hrow Happ Hall. unfold db_contents. rewrite Hrow. simpl. do 2 f_equal. case_decide as Hc.
  - subst. destruct Happ as [-> _ _]. by rewrite conv_items_app, filter_all, map_app.
  - by rewrite (appended_other _ _ _ _ _ Happ Hall Hc), app_nil_r.
Qed.

Lemma appended_conversations db db' rs : appended db db' rs -> conversations db' = conversations db.
Proof. by intros [-> _ _]. Qed.

(** A conversation other than the one rows were added to. *)
Lemma appended_elsewhere c c' db0 db db' rs : appended db db' rs ->
  Forall (fun r => ir_conversation_id r = c) rs -> c' <> c ->
  conversations db !! c' = conversations db0 !! c' -> conv_items c' db = conv_items c' db0 ->
  db_contents db' c' = db_contents db0 c'.
Proof.
  intros Happ Hall Hne Hc Hi. unfold db_contents.
  by rewrite (appended_conversations _ _ _ Happ), (appended_other _ _ _ _ _ Happ Hall Hne), Hc, Hi.
Qed.

Lemma create_contents c w r w' : CreateConversation c w = (r, w') -> db_inv (w_db w) ->
  (forall c', c' <> cv_ID c -> db_contents (w_db w') c' = db_contents (w_db w) c') /\
  (r = Ok tt -> Forall (fun i => ID i <> "") (cv_Items c) -> db_contents (w_db w) (cv_ID c) = None /\
     db_contents (w_db w') (cv_ID c) = Some (cv_Version c, map ID (cv_Items c))).
Proof.
  intros Hb Hw. destruct (is_ok r) eqn:Hr.
  2: { rewrite (CreateConversation_atomic _ _ _ _ Hb Hr). split; [done|]. by intros ->. }
  destruct r as [u| |]; try done.
  apply CreateConversation_ok in Hb as (meta & rs & _ & Hnone & Happ & Hall & _).
  pose proof (row_for_conv _ _ _ _ _ Hall) as Hrs. split.
  - intros c' Hne. eapply appended_elsewhere; [exact Happ|exact Hrs|done| |done].
    simpl. by rewrite lookup_insert_ne.
  - intros _ Hids. split; [unfold db_contents; by rewrite Hnone|].
    erewrite appended_contents; [|by rewrite (appended_conversations _ _ _ Happ); simpl; rewrite lookup_insert_eq
                                 |exact Happ|exact Hrs].
    rewrite decide_True by done. simpl. rewrite (row_for_ids _ _ _ _ _ Hall Hids).
    assert (conv_items (cv_ID c) (w_db w) = []) as Hnil.
    { apply elem_of_nil_inv. intros x [Hx Hin]%list_elem_of_filter. pose proof (inv_conv _ Hw) as Hc.
      rewrite Forall_forall in Hc. destruct (Hc _ Hin) as [row Hrow]. congruence. }
    change (conv_items _ (set_conversations _ _)) with (conv_items (cv_ID c) (w_db w)). by rewrite Hnil.
Qed.

Lemma append_contents c items t w r w' : AppendConversationItems c items t w = (r, w') ->
  (forall c', c' <> cv_ID c -> db_contents (w_db w') c' = db_contents (w_db w) c') /\
  (forall rows, r = Ok rows -> Forall (fun i => ID i <> "") items ->
     map ci_Item rows = items /\ map ci_ID rows = map ID items /\
     exists old, db_contents (w_db w) (cv_ID c) = Some (cv_Version c, old) /\
       db_contents (w_db w') (cv_ID c) = Some (cv_Version c + 1, old ++ map ci_ID rows)%Z).
Proof.
  intros Hb. destruct (is_ok r) eqn:Hr.
  2: { rewrite (transaction_atomic _ _ _ _ _ _ Hb Hr). split; [done|]. by intros rows ->. }
  destruct r as [rows| |]; try done. pose proof Hb as Hrows.
  apply AppendConversationItems_ok in Hb as (row & Hrow & Hv & Happ & Hall & _).
  pose proof (row_for_conv _ _ _ _ _ Hall) as Hrs. split.
  - intros c' Hne. eapply appended_elsewhere; [exact Happ|exact Hrs|done| |done].
    simpl. by rewrite lookup_insert_ne.
  - intros rows' [= <-] Hids. apply transaction_ok in Hrows as (wa & wb & _ & _ & Hx & _).
    apply st_bind_ok in Hx as (u & wc & _ & Hx). apply st_bind_ok in Hx as (sq & wd & _ & Hx).
    destruct (append_items_rows _ _ _ _ _ _ _ Hx Hids) as [H1 H2]. split; [done|]. split; [done|].
    exists (map ir_id (conv_items (cv_ID c) (w_db w))). unfold db_contents at 1. rewrite Hrow, <-Hv. split; [done|].
    erewrite appended_contents; [|by rewrite (appended_conversations _ _ _ Happ); simpl; rewrite lookup_insert_eq
                                 |exact Happ|exact Hrs].
    rewrite decide_True, map_map by done. done.
Qed.

Lemma delete_contents c id t w r w' : DeleteConversationItem c id t w = (r, w') ->
  (forall c', c' <> cv_ID c -> db_contents (w_db w') c' = db_contents (w_db w) c') /\
  (r = Ok tt -> exists old, db_contents (w_db w) (cv_ID c) = Some (cv_Version c, old) /\ id ∈ old /\
     db_contents (w_db w') (cv_ID c) = Some (cv_Version c + 1, filter (fun x => x <> id) old)%Z).
Proof.
  intros Hb. destruct (is_ok r) eqn:Hr.
  2: { rewrite (transaction_atomic _ _ _ _ _ _ Hb Hr). split; [done|]. by intros ->. }
  destruct r as [u| |]; try done.
  apply DeleteConversationItem_ok in Hb as (row & Hrow & Hv & (x & Hx & Hid) & Hdb). split.
  - intros c' Hne. rewrite Hdb. unfold db_contents; simpl. rewrite lookup_insert_ne by done.
    destruct (conversations (w_db w) !! c'); [|done]. simpl. do 3 f_equal. unfold conv_items; simpl.
    rewrite filter_comm. apply filter_all, Forall_forall. intros y [Hy _]%list_elem_of_filter.
    rewrite bool_decide_eq_false_2; [done|]. congruence.
  - intros _. exists (map ir_id (conv_items (cv_ID c) (w_db w))).
    unfold db_contents at 1. rewrite Hrow, <-Hv. split; [done|]. split; [by apply list_elem_of_fmap; eauto|].
    rewrite Hdb. unfold db_contents; simpl. rewrite lookup_insert_eq. simpl. do 2 f_equal.
    unfold conv_items; simpl. clear. induction (conversation_items (w_db w)) as [|y l IH]; [done|].
    rewrite !filter_cons. destruct (decide (ir_conversation_id y = cv_ID c)) as [Hc|Hc].
    + rewrite (bool_decide_eq_true_2 _ Hc). simpl. rewrite filter_cons.
      destruct (decide (ir_id y = id)) as [Hi|Hi].
      * rewrite (bool_decide_eq_true_2 _ Hi). simpl. by rewrite decide_False by naive_solver.
      * rewrite (bool_decide_eq_false_2 _ Hi). simpl. rewrite decide_True by done.
        rewrite filter_cons, decide_True by done. simpl. by rewrite IH.
    + rewrite (bool_decide_eq_false_2 _ Hc). simpl. by rewrite filter_cons, decide_False.
Qed.

(** A write that fails, seen through the contents. *)
Lemma failed_contents {A} c w w' (r : res A) : (is_ok r = false -> w_db w' = w_db w) ->
  is_ok r = false -> db_contents (w_db w') c = db_contents (w_db w) c.
Proof. intros Hr Hf. by rewrite Hr. Qed.

Lemma draw_law {A} (m : ST nat A) w r w' : draw m w = (r, w') -> db_inv (w_db w) ->
  db_inv (w_db w') /\ (forall c, db_contents (w_db w') c = db_contents (w_db w) c) /\
  exists n n', m n = (r, n').
Proof.
  intros Hd Hw. pose proof (read_only_draw _ _ _ _ Hd) as He. rewrite He. split; [done|]. split; [done|].
  unfold draw in Hd. destruct (m (w_ids w)) as [r0 n] eqn:Hm. injection Hd as <- <-. eauto.
Qed.

#[export] Instance sqlite_store_spec : ConversationStoreSpec world.
Proof.
  refine {| store_ok w := db_inv (w_db w); contents w c := db_contents (w_db w) c |}.
  - intros A m w r w'. apply draw_law.
  - intros id w r w' Hb Hw. pose proof (GetConversation_read_only _ _ _ _ Hb) as Hd.
    split; [by rewrite Hd|]. split; [by rewrite Hd|]. by eapply get_contents.
  - intros c w r w' Hb Hw. destruct (create_contents _ _ _ _ Hb Hw) as [Hoth Hok].
    split; [exact (CreateConversation_inv _ _ _ _ Hb Hw)|]. split; [done|]. split; [|done].
    apply failed_contents. exact (CreateConversation_atomic _ _ _ _ Hb).
  - intros c items t w r w' Hb Hw. destruct (append_contents _ _ _ _ _ _ Hb) as [Hoth Hok].
    split; [exact (AppendConversationItems_inv _ _ _ _ _ _ Hb Hw)|]. split; [done|]. split; [|done].
    apply failed_contents. exact (transaction_atomic _ _ _ _ _ _ Hb).
  - intros c id t w r w' Hb Hw. destruct (delete_contents _ _ _ _ _ _ Hb) as [Hoth Hok].
    split; [exact (DeleteConversationItem_inv _ _ _ _ _ _ Hb Hw)|]. split; [done|]. split; [|done].
    apply failed_contents. exact (transaction_atomic _ _ _ _ _ _ Hb).
  - intros w Hw. split.
    + intros q r w' Hd%ListConversationItems_read_only. by apply same_contents.
    + intros c id r w' Hd%GetConversationItem_read_only. by apply same_contents.
Defined.
End laws.

(** ** The service over the sqlite store, on a concrete conversation *)

#[local] Existing Instances reliable zeros_ids zeros_ids_laws sorted_order.

Definition demo_raw (s : string) : json := match jparse s with Some t => t | None => JNull end.

Definition demo_request : list json :=
  [demo_raw (sq "{'type':'custom_tool_call','call_id':'c1','name':'grep','input':'x'}");
   demo_raw (sq "{'type':'function_call_output','call_id':'c1','output':'done'}")].

Definition demo_AppendItems : ST world (list ConversationItem) := AppendItems "t2" "conv_1" demo_request.
Definition demo_DeleteItem : ST world Conversation := DeleteItem "t2" "conv_1" "a".
Definition demo_Create : ST world Conversation := Create "t2" demo_request (sq "{'k':'v'}").

Definition value_of {A} (m : ST world A) (d : A) : A := match (m demo_world).1 with Ok x => x | _ => d end.

Lemma AppendItems_spec_witness :
  let w := demo_world in let w' := after demo_AppendItems w in let rows := value_of demo_AppendItems [] in
  store_ok w' /\ (forall c', c' <> "conv_1" -> contents w' c' = contents w c') /\
  1 <= length demo_request <= 20 /\
  exists conv old w1 norm canon, cs_GetConversation "conv_1" w = (Ok (conv, old), w1) /\
    NormalizeConversationItems demo_request = Ok norm /\
    canonical_request (CollectToolCallReferences (cv_Items conv)) norm canon /\
    Forall2 ensured canon (map ci_Item rows) /\ map ci_ID rows = map ID (map ci_Item rows) /\
    contents w "conv_1" = Some (cv_Version conv, map ci_ID old) /\
    contents w' "conv_1" = Some (cv_Version conv + 1, map ci_ID old ++ map ci_ID rows)%Z.
Proof.
  apply (AppendItems_spec "t2" "conv_1" demo_request demo_world (Ok (value_of demo_AppendItems []))
           (after demo_AppendItems demo_world)).
  - apply demo_inv.
  - vm_compute. reflexivity.
Defined.

Lemma DeleteItem_spec_witness :
  let w := demo_world in let w' := after demo_DeleteItem w in let conv := value_of demo_DeleteItem demo_conversation in
  store_ok w' /\ (forall c', c' <> "conv_1" -> contents w' c' = contents w c') /\
  exists old, cv_ID conv = "conv_1" /\ cv_UpdatedAt conv = "t2" /\
    contents w "conv_1" = Some (cv_Version conv - 1, old)%Z /\ "a" ∈ old /\
    contents w' "conv_1" = Some (cv_Version conv, filter (fun x => x <> "a") old).
Proof.
  apply (DeleteItem_spec "t2" "conv_1" "a" demo_world (Ok (value_of demo_DeleteItem demo_conversation))
           (after demo_DeleteItem demo_world)).
  - apply demo_inv.
  - vm_compute. reflexivity.
Defined.

Lemma Create_spec_witness :
  let w := demo_world in let w' := after demo_Create w in let conv := value_of demo_Create demo_conversation in
  store_ok w' /\ length demo_request <= 20 /\ cv_Version conv = 1%Z /\ cv_CreatedAt conv = "t2" /\
  (exists n u, uuid_v7 n = Some u /\ cv_ID conv = "conv_" +:+ u) /\
  (demo_request = [] /\ cv_Items conv = [] \/
   exists norm, NormalizeConversationItems demo_request = Ok norm /\ Forall2 ensured norm (cv_Items conv)) /\
  NormalizeConversationMetadata (sq "{'k':'v'}") = Ok (cv_Metadata conv) /\
  contents w (cv_ID conv) = None /\ contents w' (cv_ID conv) = Some (1%Z, map ID (cv_Items conv)) /\
  forall c, c <> cv_ID conv -> contents w' c = contents w c.
Proof.
  apply (Create_spec "t2" demo_request (sq "{'k':'v'}") demo_world (Ok (value_of demo_Create demo_conversation))
           (after demo_Create demo_world)).
  - apply demo_inv.
  - vm_compute. reflexivity.
Defined.
