(* ===== verification/Base64.v ===== *)
(** * encoding/base64: RawURLEncoding

    The unpadded URL alphabet.  Decoding skips carriage returns and line feeds
    and does not check the unused bits of the last character, as the package
    does outside its strict mode. *)

From S2P Require Import Prelude GoStr World.

Definition b64_char (n : N) : ascii :=
  if (n <? 26)%N then chr (65 + n)
  else if (n <? 52)%N then chr (97 + (n - 26))
  else if (n <? 62)%N then chr (48 + (n - 52))
  else if (n =? 62)%N then chr 45 else chr 95.

Definition b64_value (a : ascii) : option N :=
  let x := code a in
  if in_rng 65 90 x then Some (x - 65)%N
  else if in_rng 97 122 x then Some (x - 97 + 26)%N
  else if in_rng 48 57 x then Some (x - 48 + 52)%N
  else if (x =? 45)%N then Some 62%N
  else if (x =? 95)%N then Some 63%N
  else None.

(** RawURLEncoding.EncodeToString *)
Fixpoint b64_encode (s : string) : string :=
  match s with
  | "" => ""
  | String a "" =>
      let n := (code a * 65536)%N in
      String (b64_char (n / 262144)) (char_string (b64_char ((n / 4096) mod 64)))
  | String a (String b "") =>
      let n := (code a * 65536 + code b * 256)%N in
      String (b64_char (n / 262144)) (String (b64_char ((n / 4096) mod 64))
        (char_string (b64_char ((n / 64) mod 64))))
  | String a (String b (String c s)) =>
      let n := (code a * 65536 + code b * 256 + code c)%N in
      String (b64_char (n / 262144)) (String (b64_char ((n / 4096) mod 64))
        (String (b64_char ((n / 64) mod 64)) (String (b64_char (n mod 64)) (b64_encode s))))
  end.

Fixpoint without_newlines (s : string) : string :=
  match s with
  | "" => ""
  | String a s => if (code a =? 10)%N || (code a =? 13)%N then without_newlines s
                  else String a (without_newlines s)
  end.

Fixpoint b64_groups (s : string) : option string :=
  match s with
  | "" => Some ""
  | String _ "" => None
  | String w (String x "") =>
      w ← b64_value w; x ← b64_value x;
      Some (char_string (chr (w * 4 + x / 16)))
  | String w (String x (String y "")) =>
      w ← b64_value w; x ← b64_value x; y ← b64_value y;
      Some (String (chr (w * 4 + x / 16)) (char_string (chr ((x mod 16) * 16 + y / 4))))
  | String w (String x (String y (String z s))) =>
      w ← b64_value w; x ← b64_value x; y ← b64_value y; z ← b64_value z;
      r ← b64_groups s;
      Some (String (chr (w * 4 + x / 16)) (String (chr ((x mod 16) * 16 + y / 4))
              (String (chr ((y mod 4) * 64 + z)) r)))
  end.

(** RawURLEncoding.DecodeString: [None] is an error. *)
Definition b64_decode (s : string) : option string := b64_groups (without_newlines s).

(** ** The round trip *)

Lemma b64_table : forallb (fun n => match b64_value (b64_char n) with
                                    | Some m => (m =? n)%N | None => false end &&
                                    solid (b64_char n))
                    (map N.of_nat (seq 0 64)) = true.
Proof. by vm_compute. Qed.

Lemma b64_char_spec n : (n < 64)%N -> b64_value (b64_char n) = Some n /\ solid (b64_char n) = true.
Proof.
  intros Hn. pose proof b64_table as Ht. rewrite forallb_forall in Ht. specialize (Ht n).
  apply andb_true_iff in Ht as [Hv Hs].
  - destruct (b64_value (b64_char n)); [|done]. by apply N.eqb_eq in Hv as ->.
  - apply in_map_iff. exists (N.to_nat n). split; [lia|]. apply in_seq. lia.
Qed.

Lemma b64_value_char n : (n < 64)%N -> b64_value (b64_char n) = Some n.
Proof. apply b64_char_spec. Qed.

Lemma b64_char_solid n : (n < 64)%N -> solid (b64_char n) = true.
Proof. apply b64_char_spec. Qed.

(** Three bytes at a time. *)
Lemma string_three_ind (P : string -> Prop) :
  P "" -> (forall a, P (String a "")) -> (forall a b, P (String a (String b ""))) ->
  (forall a b c s, P s -> P (String a (String b (String c s)))) -> forall s, P s.
Proof.
  intros H0 H1 H2 H3. fix IH 1. intros [|a [|b [|c s]]]; [done|apply H1|apply H2|apply H3, IH].
Qed.

(** The four sextets of three bytes. *)
Lemma sextets a b c : (a < 256 -> b < 256 -> c < 256 ->
  let n := a * 65536 + b * 256 + c in
  n / 262144 < 64 /\ (n / 4096) mod 64 < 64 /\ (n / 64) mod 64 < 64 /\ n mod 64 < 64 /\
  n / 262144 * 4 + (n / 4096) mod 64 / 16 = a /\
  ((n / 4096) mod 64) mod 16 * 16 + (n / 64) mod 64 / 4 = b /\
  ((n / 64) mod 64) mod 4 * 64 + n mod 64 = c)%N.
Proof.
  intros Ha Hb Hc n.
  pose proof (N.div_mod a 4 ltac:(lia)) as Ea. pose proof (N.mod_lt a 4 ltac:(lia)) as La.
  pose proof (N.div_mod b 16 ltac:(lia)) as Eb. pose proof (N.mod_lt b 16 ltac:(lia)) as Lb.
  pose proof (N.div_mod c 64 ltac:(lia)) as Ec. pose proof (N.mod_lt c 64 ltac:(lia)) as Lc.
  set (a1 := (a / 4)%N) in *. set (a0 := (a mod 4)%N) in *. set (b1 := (b / 16)%N) in *.
  set (b0 := (b mod 16)%N) in *. set (c1 := (c / 64)%N) in *. set (c0 := (c mod 64)%N) in *.
  assert (E1 : (n / 262144 = a1)%N) by (symmetry; apply N.div_unique with (a0 * 65536 + b * 256 + c)%N; lia).
  assert (E2 : (n / 4096 = a1 * 64 + (a0 * 16 + b1))%N)
    by (symmetry; apply N.div_unique with (b0 * 256 + c)%N; lia).
  assert (E3 : (n / 64 = (a * 16 + b1) * 64 + (b0 * 4 + c1))%N)
    by (symmetry; apply N.div_unique with c0; lia).
  assert (E4 : (n = (a * 1024 + b * 4 + c1) * 64 + c0)%N) by lia.
  assert (M2 : ((n / 4096) mod 64 = a0 * 16 + b1)%N)
    by (rewrite E2; symmetry; apply N.mod_unique with a1; lia).
  assert (M3 : ((n / 64) mod 64 = b0 * 4 + c1)%N)
    by (rewrite E3; symmetry; apply N.mod_unique with (a * 16 + b1)%N; lia).
  assert (M4 : (n mod 64 = c0)%N) by (rewrite E4; symmetry; apply N.mod_unique with (a * 1024 + b * 4 + c1)%N; lia).
  rewrite E1, M2, M3, M4.
  assert (D2 : ((a0 * 16 + b1) / 16 = a0)%N) by (symmetry; apply N.div_unique with b1; lia).
  assert (R2 : ((a0 * 16 + b1) mod 16 = b1)%N) by (symmetry; apply N.mod_unique with a0; lia).
  assert (D3 : ((b0 * 4 + c1) / 4 = b0)%N) by (symmetry; apply N.div_unique with c1; lia).
  assert (R3 : ((b0 * 4 + c1) mod 4 = c1)%N) by (symmetry; apply N.mod_unique with b0; lia).
  rewrite D2, R2, D3, R3. lia.
Qed.

Ltac sextets a b c :=
  let H := fresh in
  pose proof (sextets a b c) as H; simpl in H;
  rewrite ?N.add_0_r in H;
  destruct H as (? & ? & ? & ? & ? & ? & ?); [first [apply code_bound|done]..|].

Lemma b64_encode_solid s : all_chars solid (b64_encode s) = true.
Proof.
  induction s as [|a|a b|a b c s IH] using string_three_ind; [done|..]; simpl.
  - sextets (code a) 0%N 0%N. by rewrite !b64_char_solid by done.
  - sextets (code a) (code b) 0%N. by rewrite !b64_char_solid by done.
  - sextets (code a) (code b) (code c). by rewrite !b64_char_solid, IH by done.
Qed.

Lemma b64_groups_encode s : b64_groups (b64_encode s) = Some s.
Proof.
  induction s as [|a|a b|a b c s IH] using string_three_ind; [done|..]; cbn [b64_encode b64_groups].
  - sextets (code a) 0%N 0%N. unfold char_string. cbn [b64_groups].
    rewrite !b64_value_char by done. simpl. unfold char_string. by rewrite H3, chr_code.
  - sextets (code a) (code b) 0%N. unfold char_string. cbn [b64_groups].
    rewrite !b64_value_char by done. simpl. unfold char_string. by rewrite H3, H4, !chr_code.
  - sextets (code a) (code b) (code c).
    rewrite !b64_value_char by done. simpl. rewrite IH. simpl. by rewrite H3, H4, H5, !chr_code.
Qed.

Lemma without_newlines_solid s : all_chars solid s = true -> without_newlines s = s.
Proof.
  induction s as [|a s IH]; simpl; [done|]. intros [Ha Hs]%andb_true_iff. rewrite IH by done.
  unfold solid in Ha. apply in_rng_spec in Ha.
  destruct (N.eqb_spec (code a) 10); [lia|]. destruct (N.eqb_spec (code a) 13); [lia|]. done.
Qed.

(** What was encoded is decoded. *)
Lemma b64_decode_encode s : b64_decode (b64_encode s) = Some s.
Proof. unfold b64_decode. rewrite without_newlines_solid by apply b64_encode_solid. apply b64_groups_encode. Qed.
