(* ===== verification/Compaction.v ===== *)
(** * internal/domain/compaction.go

    Compaction items: a summary of earlier items, with optional structured
    state and retained items, carried as base64 text inside an item, and the
    texts the shim derives from items to build and to show it.

    Decoding the payload follows encoding/json: keys match up to letter case,
    a repeated "state" object is decoded into the previous one, any field of
    the wrong type is an error.  One corner is not kept: null elements of a
    repeated []string key, which would keep the elements of the earlier array. *)

From S2P Require Import Prelude GoStr GoFloat GoJson JsonFacts GoInt World Items Normalize Base64.

Definition syntheticCompactionPrefix : string := "llama_shim.compaction.v1:".

Record SyntheticCompactionState := {
  st_Summary : string;
  st_KeyFacts : list string;
  st_Constraints : list string;
  st_OpenLoops : list string;
  st_RecentToolState : list string
}.

Record syntheticCompactionPayload := {
  cp_Version : Z;
  cp_Summary : string;
  cp_ItemCount : Z;
  cp_Mode : string;
  cp_State : option SyntheticCompactionState;
  cp_RetainedItems : list json
}.

Record SyntheticCompactionOptions := {
  op_Mode : string;
  op_State : SyntheticCompactionState;
  op_RetainedItems : list Item
}.

Definition zeroState : SyntheticCompactionState :=
  {| st_Summary := ""; st_KeyFacts := []; st_Constraints := []; st_OpenLoops := [];
     st_RecentToolState := [] |}.

Definition zeroOptions : SyntheticCompactionOptions :=
  {| op_Mode := ""; op_State := zeroState; op_RetainedItems := [] |}.

(** ** Bounded text *)

(** A rune slice written back as text. *)
Definition runes_text (cs : list chunk) : string := sconcat (map chunk_utf8 cs).

Definition ellipsis : string := String (chr 226) (String (chr 128) (char_string (chr 166))).

Definition truncateRunes (value : string) (limit : Z) : string :=
  if (limit <=? 0)%Z then ""
  else if (Z.of_nat (rune_count value) <=? limit)%Z then value
  else if decide (limit = 1)%Z then runes_text (take 1 (chunks value))
  else runes_text (take (Z.to_nat (limit - 1)) (chunks value)) +:+ ellipsis.

(** The loops that keep the first [room] texts that are not empty (at least
    one: the length is checked after the append). *)
Fixpoint keep_lines (room : nat) (lines : list string) : list string :=
  match lines with
  | [] => []
  | line :: lines =>
      if decide (line = "") then keep_lines room lines
      else line :: if room <=? 1 then [] else keep_lines (room - 1) lines
  end.

Definition normalizeSyntheticCompactionList (values : list string) (maxItems : nat) (maxRunes : Z)
    : list string :=
  keep_lines maxItems (map (fun value => truncateRunes (TrimSpace value) maxRunes) values).

Definition normalizeSyntheticCompactionState (state : SyntheticCompactionState)
    : SyntheticCompactionState :=
  {| st_Summary := truncateRunes (TrimSpace (st_Summary state)) 4096;
     st_KeyFacts := normalizeSyntheticCompactionList (st_KeyFacts state) 16 512;
     st_Constraints := normalizeSyntheticCompactionList (st_Constraints state) 16 512;
     st_OpenLoops := normalizeSyntheticCompactionList (st_OpenLoops state) 16 512;
     st_RecentToolState := normalizeSyntheticCompactionList (st_RecentToolState state) 16 512 |}.

Definition isEmptySyntheticCompactionState (state : SyntheticCompactionState) : bool :=
  bool_decide (TrimSpace (st_Summary state) = "") &&
  bool_decide (st_KeyFacts state = []) && bool_decide (st_Constraints state = []) &&
  bool_decide (st_OpenLoops state = []) && bool_decide (st_RecentToolState state = []).

(** ** Encoding *)

Definition omit_strings (name : string) (values : list string) : list (string * json) :=
  if decide (values = []) then [] else [(name, JArr (map json_str values))].

(** json.Marshal of the state: every field is omitempty. *)
Definition state_json (s : SyntheticCompactionState) : json :=
  JObj (omit_string "summary" (st_Summary s) ++ omit_strings "key_facts" (st_KeyFacts s)
     ++ omit_strings "constraints" (st_Constraints s) ++ omit_strings "open_loops" (st_OpenLoops s)
     ++ omit_strings "recent_tool_state" (st_RecentToolState s)).

(** json.Marshal of the payload; raw messages are compacted and HTML-escaped. *)
Definition payload_json (p : syntheticCompactionPayload) : json :=
  JObj ([("version", JNum (int_text (cp_Version p))); ("summary", json_str (cp_Summary p));
         ("item_count", JNum (int_text (cp_ItemCount p)))]
     ++ omit_string "mode" (cp_Mode p)
     ++ (match cp_State p with None => [] | Some s => [("state", state_json s)] end)
     ++ (if decide (cp_RetainedItems p = []) then []
         else [("retained_items", JArr (map jesc (cp_RetainedItems p)))])).

Definition marshalSyntheticCompactionRetainedItems (items : list Item) : list json :=
  map (fun item => jesc (MarshalJSON item)) items.

Definition EncodeSyntheticCompactionPayloadWithOptions (summary : string) (itemCount : Z)
    (options : SyntheticCompactionOptions) : string :=
  let state := normalizeSyntheticCompactionState (op_State options) in
  let payload :=
    {| cp_Version := 1; cp_Summary := TrimSpace summary; cp_ItemCount := itemCount;
       cp_Mode := TrimSpace (op_Mode options);
       cp_State := if isEmptySyntheticCompactionState state then None else Some state;
       cp_RetainedItems := marshalSyntheticCompactionRetainedItems (op_RetainedItems options) |} in
  syntheticCompactionPrefix +:+ b64_encode (jprint (payload_json payload)).

Definition EncodeSyntheticCompactionPayload (summary : string) (itemCount : Z) : string :=
  EncodeSyntheticCompactionPayloadWithOptions summary itemCount zeroOptions.

Section items.
Context `{IdSource}.

Definition NewSyntheticCompactionItemWithOptions (summary : string) (itemCount : Z)
    (options : SyntheticCompactionOptions) : ST nat Item :=
  id ← st_wrap "generate compaction id" (NewPrefixedID "cmp");
  let encryptedContent := EncodeSyntheticCompactionPayloadWithOptions summary itemCount options in
  st_lift (NewItem (jprint (of_any (GMap
    [("encrypted_content", GStr encryptedContent); ("id", GStr id); ("type", GStr "compaction")])))).

Definition NewSyntheticCompactionItem (summary : string) (itemCount : Z) : ST nat Item :=
  NewSyntheticCompactionItemWithOptions summary itemCount zeroOptions.
End items.

(** ** Decoding *)

Definition state_of_members (l : list (string * json)) : option SyntheticCompactionState :=
  summary ← field_string "summary" l;
  key_facts ← field_strings "key_facts" l;
  constraints ← field_strings "constraints" l;
  open_loops ← field_strings "open_loops" l;
  recent_tool_state ← field_strings "recent_tool_state" l;
  Some {| st_Summary := summary; st_KeyFacts := key_facts; st_Constraints := constraints;
          st_OpenLoops := open_loops; st_RecentToolState := recent_tool_state |}.

(** The *SyntheticCompactionState field: null clears the pointer, an object is
    decoded into the state there is; [cur] is the members decoded so far. *)
Fixpoint field_state_loop (cur : option (list (string * json))) (vs : list json)
    : option (option SyntheticCompactionState) :=
  match vs with
  | [] => match cur with None => Some None | Some l => Some <$> state_of_members l end
  | JNull :: vs => field_state_loop None vs
  | JObj l :: vs =>
      let l := default [] cur ++ l in
      _ ← state_of_members l; field_state_loop (Some l) vs
  | _ :: _ => None
  end.

Definition field_state (name : string) (l : list (string * json))
    : option (option SyntheticCompactionState) := field_state_loop None (field_values name l).

(** A []json.RawMessage field. *)
Definition field_raws (name : string) (l : list (string * json)) : option (list json) :=
  foldl (fun o t => _ ← o; raw_array t) (Some []) (field_values name l).

(** json.Unmarshal into the payload. *)
Definition payload_of (t : json) : option syntheticCompactionPayload :=
  l ← struct_members t;
  version ← field_int "version" l;
  summary ← field_string "summary" l;
  item_count ← field_int "item_count" l;
  mode ← field_string "mode" l;
  state ← field_state "state" l;
  retained_items ← field_raws "retained_items" l;
  Some {| cp_Version := version; cp_Summary := summary; cp_ItemCount := item_count;
          cp_Mode := mode; cp_State := state; cp_RetainedItems := retained_items |}.

Definition decodeSyntheticCompactionPayload (encryptedContent : string)
    : option syntheticCompactionPayload :=
  let trimmed := TrimSpace encryptedContent in
  if negb (HasPrefix trimmed syntheticCompactionPrefix) then None
  else
    let encoded := TrimPrefix trimmed syntheticCompactionPrefix in
    raw ← b64_decode encoded;
    t ← jparse raw;
    payload ← payload_of t;
    if negb (cp_Version payload =? 1)%Z then None
    else Some {| cp_Version := cp_Version payload; cp_Summary := TrimSpace (cp_Summary payload);
                 cp_ItemCount := cp_ItemCount payload; cp_Mode := cp_Mode payload;
                 cp_State := normalizeSyntheticCompactionState <$> cp_State payload;
                 cp_RetainedItems := cp_RetainedItems payload |}.

Definition DecodeSyntheticCompactionPayload (encryptedContent : string) : option string :=
  payload ← decodeSyntheticCompactionPayload encryptedContent;
  Some (TrimSpace (cp_Summary payload)).

(** ** Showing a payload *)

Definition newline : string := char_string (chr 10).

Definition no_context : string := "No prior context was provided.".

Definition or_no_context (text : string) : string := if decide (text = "") then no_context else text.

Definition syntheticCompactionSummaryMessage (summary : string) : string :=
  "Compacted prior context summary:" +:+ newline +:+ or_no_context (TrimSpace summary).

(** What is appended to the builder. *)
Definition writeSyntheticCompactionList (title : string) (values : list string) : string :=
  if decide (values = []) then ""
  else newline +:+ newline +:+ title +:+ ":" +:+ newline +:+
       sconcat (map (fun value => let trimmed := TrimSpace value in
                                  if decide (trimmed = "") then "" else "- " +:+ trimmed +:+ newline)
                    values).

Definition renderSyntheticCompactionPayload (payload : syntheticCompactionPayload) : string :=
  match cp_State payload with
  | None => syntheticCompactionSummaryMessage (cp_Summary payload)
  | Some st =>
      if isEmptySyntheticCompactionState st then syntheticCompactionSummaryMessage (cp_Summary payload)
      else
        let state := normalizeSyntheticCompactionState st in
        let summary := TrimSpace (st_Summary state) in
        let summary := if decide (summary = "") then TrimSpace (cp_Summary payload) else summary in
        "Compacted prior context summary:" +:+ newline +:+ or_no_context summary +:+
        writeSyntheticCompactionList "Key facts" (st_KeyFacts state) +:+
        writeSyntheticCompactionList "Constraints" (st_Constraints state) +:+
        writeSyntheticCompactionList "Open loops" (st_OpenLoops state) +:+
        writeSyntheticCompactionList "Recent tool state" (st_RecentToolState state)
  end.

Section expand.
Context `{UnicodeTable}.

(** [NewItem] on each raw message; the first item is the rendered summary. *)
Definition expandSyntheticCompactionPayload (payload : syntheticCompactionPayload) : res (list Item) :=
  retained ← res_map UnmarshalJSON (cp_RetainedItems payload);
  Ok (NewInputTextMessage "system" (renderSyntheticCompactionPayload payload) :: retained).

(** One step of the loop of ExpandSyntheticCompactionItems. *)
Definition expand_item (item : Item) : res (list Item) :=
  if decide (Type_ item <> "compaction") then Ok [item]
  else match decodeSyntheticCompactionPayload (StringField item "encrypted_content") with
  | None => Err EUnsupportedShape
  | Some payload =>
      expanded ← expandSyntheticCompactionPayload payload;
      let id := TrimSpace (ID item) in
      if decide (id = "") then Ok expanded
      else match expanded with
           | first :: rest => withID ← WithID first id; Ok (withID :: rest)
           | [] => Panic
           end
  end.

Fixpoint ExpandSyntheticCompactionItems (items : list Item) : res (list Item) :=
  match items with
  | [] => Ok []
  | item :: items =>
      expanded ← expand_item item;
      out ← ExpandSyntheticCompactionItems items;
      Ok (expanded ++ out)
  end.
End expand.

(** ** Trimming *)

(** The index the loop leaves in lastCompaction. *)
Fixpoint last_compaction (idx : nat) (found : option nat) (items : list Item) : option nat :=
  match items with
  | [] => found
  | item :: items =>
      last_compaction (S idx) (if decide (Type_ item = "compaction") then Some idx else found) items
  end.

Definition TrimItemsBeforeLatestCompaction (items : list Item) : list Item :=
  match last_compaction 0 None items with
  | None | Some 0 => items
  | Some n => drop n items
  end.

(** ** Texts about items *)

Definition compactJSONString (raw : json) : string :=
  match string_of raw with None => "" | Some value => TrimSpace value end.

Definition compactRawText (raw : option json) : string :=
  match raw with
  | None | Some JNull => ""
  | Some t => let stringValue := compactJSONString t in
              if decide (stringValue <> "") then stringValue else jprint t
  end.

Definition entry_text (rawEntry : gval) : option string :=
  match rawEntry with
  | GMap entry => let text := TrimSpace (asString (am_lookup "text" entry)) in
                  if decide (text = "") then None else Some text
  | _ => None
  end.

Definition reasoningItemTexts (item : Item) : list string :=
  let payload := default [] (Map item) in
  let texts field := match am_lookup field payload with
                     | Some (GArr entries) => omap entry_text entries
                     | _ => []
                     end in
  let text := TrimSpace (asString (am_lookup "encrypted_content" payload)) in
  texts "summary" ++ texts "content" ++ if decide (text = "") then [] else [text].

Definition syntheticCompactionLine (item : Item) : string :=
  if decide (Type_ item = "message") then
    let text := TrimSpace (MessageText item) in
    TrimSpace (Role item) +:+ if decide (text = "") then ": [empty message]" else ": " +:+ text
  else if decide (Type_ item = "function_call") then
    TrimSpace (Name item) +:+ " call: " +:+ compactRawText (RawField item "arguments")
  else if decide (Type_ item = "custom_tool_call") then
    TrimSpace (Name item) +:+ " custom call: " +:+ compactRawText (RawField item "input")
  else if decide (Type_ item = "function_call_output" \/ Type_ item = "custom_tool_call_output") then
    Type_ item +:+ " " +:+ TrimSpace (CallID item) +:+ ": " +:+ compactRawText (OutputRaw item)
  else if decide (Type_ item = "reasoning") then
    let text := TrimSpace (sjoin newline (reasoningItemTexts item)) in
    "reasoning: " +:+ if decide (text = "") then compactRawText (Raw item) else text
  else if decide (Type_ item = "compaction") then
    match DecodeSyntheticCompactionPayload (StringField item "encrypted_content") with
    | Some summary => "prior compaction: " +:+ summary
    | None => "opaque compaction item"
    end
  else Type_ item +:+ ": " +:+ compactRawText (Raw item).

Definition BuildSyntheticCompactionSummary (items : list Item) : string :=
  let lines := keep_lines 16
    (map (fun item => truncateRunes (TrimSpace (syntheticCompactionLine item)) 240) items) in
  if decide (lines = []) then no_context else truncateRunes (sjoin newline lines) 4096.

(** The loop of BuildSyntheticCompactionTranscript. *)
Fixpoint transcript_loop (maxItems maxRunes idx runes : Z) (items : list Item) : list string :=
  match items with
  | [] => []
  | item :: items =>
      if (maxItems <=? idx)%Z then []
      else
        let line := TrimSpace (syntheticCompactionLine item) in
        if decide (line = "") then transcript_loop maxItems maxRunes (idx + 1) runes items
        else
          let prefix := pad3 (idx + 1) +:+ " " +:+ line in
          let lineRunes := Z.of_nat (rune_count prefix) in
          if (maxRunes <? runes + lineRunes + 1)%Z then
            let remaining := (maxRunes - runes - 1)%Z in
            if (remaining <=? 0)%Z then [] else [truncateRunes prefix remaining]
          else prefix :: transcript_loop maxItems maxRunes (idx + 1) (runes + lineRunes + 1) items
  end.

Definition BuildSyntheticCompactionTranscript (items : list Item) (maxItems maxRunes : Z) : string :=
  let maxItems := if (maxItems <=? 0)%Z then Z.of_nat (length items) else maxItems in
  if (maxRunes <=? 0)%Z then "" else sjoin newline (transcript_loop maxItems maxRunes 0 0 items).

(** ** Token counts *)

Definition BuildSyntheticUsage (inputTokens outputTokens : Z) : json :=
  let num z := JNum (int_text z) in
  JObj [("input_tokens", num inputTokens);
        ("input_tokens_details", JObj [("cached_tokens", num 0%Z)]);
        ("output_tokens", num outputTokens);
        ("output_tokens_details", JObj [("reasoning_tokens", num 0%Z)]);
        ("total_tokens", num (wrap_int (inputTokens + outputTokens)))].

Definition EstimateSyntheticTokenCountJSON (raw : string) : Z :=
  let trimmed := TrimSpace raw in
  if decide (trimmed = "" \/ trimmed = "null") then 0%Z
  else
    let runes := Z.of_nat (rune_count trimmed) in
    if (runes =? 0)%Z then 0%Z else Z.max 1 ((runes + 3) / 4).

Definition EstimateSyntheticTokenCount (items : list Item) : Z :=
  if decide (items = []) then 0%Z
  else EstimateSyntheticTokenCountJSON (jprint (JArr (map (fun i => jesc (MarshalJSON i)) items))).
