(* ===== verification/CompactionProps.v ===== *)
(** * What compaction guarantees

    Bounds on the texts built from items, and that a compaction payload reads
    back as what was put in. *)

From S2P Require Import Prelude GoStr GoFloat GoJson JsonFacts StrFacts GoInt World Items ItemFacts Normalize NormProps Base64 Compaction.

(** ** Counting runes *)

Lemma runes_text_valid cs : Forall good_or_bad cs -> valid_utf8 (runes_text cs) = true.
Proof.
  induction 1 as [|c cs Hc Hcs IH]; [done|]. unfold runes_text in *. simpl.
  apply valid_utf8_app; [by apply chunk_utf8_valid|done].
Qed.

Lemma rune_count_runes cs : Forall good_or_bad cs -> rune_count (runes_text cs) = length cs.
Proof.
  induction 1 as [|c cs Hc Hcs IH]; [done|]. unfold runes_text in *. simpl.
  rewrite rune_count_app_valid by by apply chunk_utf8_valid. by rewrite rune_count_chunk, IH.
Qed.

Lemma take_good n s : Forall good_or_bad (take n (chunks s)).
Proof. apply Forall_take, chunks_good_or_bad. Qed.

(** A truncated text is at most as long as asked. *)
Lemma truncateRunes_count s n : (0 <= n)%Z -> (Z.of_nat (rune_count (truncateRunes s n)) <= n)%Z.
Proof.
  intros Hn. unfold truncateRunes. destruct (Z.leb_spec n 0); [change (Z.of_nat (rune_count "")) with 0%Z; lia|].
  destruct (Z.leb_spec (Z.of_nat (rune_count s)) n); [lia|]. case_decide as H1.
  - rewrite rune_count_runes, length_take by apply take_good. lia.
  - rewrite rune_count_app_valid by apply runes_text_valid, take_good.
    rewrite rune_count_runes, length_take by apply take_good.
    change (rune_count ellipsis) with 1. lia.
Qed.

Lemma truncateRunes_short s n : (0 < n)%Z -> (Z.of_nat (rune_count s) <= n)%Z -> truncateRunes s n = s.
Proof.
  intros Hn Hs. unfold truncateRunes. destruct (Z.leb_spec n 0); [lia|].
  by destruct (Z.leb_spec (Z.of_nat (rune_count s)) n); [|lia].
Qed.

Lemma truncateRunes_idem s n : (0 < n)%Z -> truncateRunes (truncateRunes s n) n = truncateRunes s n.
Proof. intros Hn. apply truncateRunes_short; [done|]. apply truncateRunes_count. lia. Qed.

Lemma truncateRunes_valid s n : valid_utf8 s = true -> valid_utf8 (truncateRunes s n) = true.
Proof.
  intros Hs. unfold truncateRunes. destruct (n <=? 0)%Z; [done|].
  destruct (Z.of_nat (rune_count s) <=? n)%Z; [done|].
  case_decide; [|apply valid_utf8_app; [|done]]; apply runes_text_valid, take_good.
Qed.

(** ** Trimmed text *)

(** A truncated text does not start or end with white space if the text did not. *)
Lemma truncateRunes_trimmed s n : (2 <= n)%Z ->
  TrimSpace (truncateRunes (TrimSpace s) n) = truncateRunes (TrimSpace s) n.
Proof.
  intros Hn. pose proof (TrimSpace_no_lead s) as Hl. pose proof (TrimSpace_idemp s) as Hi.
  set (t := TrimSpace s) in *. unfold truncateRunes. destruct (Z.leb_spec n 0); [lia|].
  destruct (Z.leb_spec (Z.of_nat (rune_count t)) n) as [|Hlong]; [done|]. rewrite decide_False by lia.
  apply TrimSpace_id.
  - pose proof (chunks_good_or_bad t) as Hg. rewrite <-(unchunks_chunks t) in Hl. unfold rune_count in Hlong.
    destruct (Z.to_nat (n - 1)) as [|k] eqn:Ek; [lia|]. clear Ek.
    destruct (chunks t) as [|c cs]; [simpl in Hlong; lia|]. inversion_clear Hg as [|? ? Hc _].
    unfold runes_text, unchunks in *. simpl in *. rewrite ?sapp_assoc.
    destruct Hc as [Hc|(a & -> & _)].
    + unfold chunk_utf8. rewrite good_not_bad by done. by apply (no_lead_good _ (ck_rune c) _ _ Hc Hl).
    + unfold chunk_utf8. by rewrite (eq_refl : is_bad (bad_chunk a) = true).
  - rewrite srev_app. done.
Qed.

(** ** Lists of lines *)

Definition nonempty (s : string) : Prop := s <> "".
#[global] Instance nonempty_dec s : Decision (nonempty s).
Proof. unfold nonempty. apply _. Defined.

Lemma keep_lines_spec room lines : keep_lines (S room) lines = take (S room) (filter nonempty lines).
Proof.
  revert room. induction lines as [|l lines IH]; intros room; [done|]. cbn [keep_lines].
  rewrite filter_cons. unfold nonempty at 1. case_decide as Hl.
  - rewrite decide_False by naive_solver. apply IH.
  - rewrite decide_True by done. simpl. f_equal. destruct room as [|room]; [by rewrite take_0|].
    simpl. apply IH.
Qed.

Lemma keep_lines_forall (P : string -> Prop) room lines : Forall P lines -> Forall P (keep_lines (S room) lines).
Proof. intros H. rewrite keep_lines_spec. apply Forall_take. by apply Forall_filtered. Qed.

Lemma keep_lines_nonempty room lines : Forall nonempty (keep_lines (S room) lines).
Proof.
  rewrite keep_lines_spec. apply Forall_take, Forall_forall. intros x [Hx _]%list_elem_of_filter. done.
Qed.

Lemma keep_lines_length room lines : length (keep_lines (S room) lines) <= S room.
Proof. rewrite keep_lines_spec, length_take. lia. Qed.

(** Keeping lines that are already kept keeps all of them. *)
Lemma keep_lines_idem room lines (f : string -> string) :
  Forall (fun l => f l = l) (keep_lines (S room) lines) ->
  keep_lines (S room) (map f (keep_lines (S room) lines)) = keep_lines (S room) lines.
Proof.
  intros Hf. assert (Hm : map f (keep_lines (S room) lines) = keep_lines (S room) lines).
  { clear -Hf. induction Hf as [|l ls Hl Hls IH]; [done|]. simpl. by rewrite Hl, IH. }
  rewrite Hm, (keep_lines_spec _ (keep_lines _ _)), filter_all by apply keep_lines_nonempty.
  apply take_ge, keep_lines_length.
Qed.

(** ** Normalized state *)

Lemma truncate_trim_idem n s : (2 <= n)%Z ->
  truncateRunes (TrimSpace (truncateRunes (TrimSpace s) n)) n = truncateRunes (TrimSpace s) n.
Proof. intros Hn. rewrite truncateRunes_trimmed by done. apply truncateRunes_idem. lia. Qed.

Lemma normalize_list_idem room n vs : (2 <= n)%Z ->
  normalizeSyntheticCompactionList (normalizeSyntheticCompactionList vs (S room) n) (S room) n =
  normalizeSyntheticCompactionList vs (S room) n.
Proof.
  intros Hn. unfold normalizeSyntheticCompactionList at 1 3.
  apply (keep_lines_idem _ _ (fun value => truncateRunes (TrimSpace value) n)).
  apply keep_lines_forall, Forall_fmap, Forall_forall. intros v _. by apply truncate_trim_idem.
Qed.

Lemma normalize_state_idem st :
  normalizeSyntheticCompactionState (normalizeSyntheticCompactionState st) = normalizeSyntheticCompactionState st.
Proof.
  unfold normalizeSyntheticCompactionState at 1 3. f_equal; simpl.
  - by apply truncate_trim_idem.
  - by apply normalize_list_idem.
  - by apply normalize_list_idem.
  - by apply normalize_list_idem.
  - by apply normalize_list_idem.
Qed.

Lemma normalize_list_valid room n vs : forallb valid_utf8 vs = true ->
  forallb valid_utf8 (normalizeSyntheticCompactionList vs (S room) n) = true.
Proof.
  intros Hv. rewrite forallb_forall in Hv. apply forallb_forall. intros x Hx%list_elem_of_In.
  revert x Hx. apply Forall_forall, keep_lines_forall, Forall_fmap, Forall_forall.
  intros v Hin%list_elem_of_In. simpl. by apply truncateRunes_valid, TrimSpace_valid, Hv.
Qed.

(** All the texts of a state are valid UTF-8. *)
Definition state_ok (st : SyntheticCompactionState) : bool :=
  valid_utf8 (st_Summary st) && forallb valid_utf8 (st_KeyFacts st) && forallb valid_utf8 (st_Constraints st) &&
  forallb valid_utf8 (st_OpenLoops st) && forallb valid_utf8 (st_RecentToolState st).

Lemma normalize_state_ok st : state_ok st = true -> state_ok (normalizeSyntheticCompactionState st) = true.
Proof.
  unfold state_ok, normalizeSyntheticCompactionState. rewrite !andb_true_iff.
  intros ((((H1 & H2) & H3) & H4) & H5). simpl st_Summary. simpl st_KeyFacts. simpl st_Constraints.
  simpl st_OpenLoops. simpl st_RecentToolState.
  repeat split; try (by apply normalize_list_valid). by apply truncateRunes_valid, TrimSpace_valid.
Qed.

(** ** The payload round trip *)

Lemma field_values_omits name k vs : field_values name (omit_strings k vs) =
  if EqualFold (unquote k) name then (if decide (vs = []) then [] else [JArr (map json_str vs)]) else [].
Proof. apply field_values_cond. Qed.

Definition state_members (st : SyntheticCompactionState) : list (string * json) :=
  match state_json st with JObj l => l | _ => [] end.

Ltac fold_names :=
  repeat match goal with
         | |- context [EqualFold ?a ?b] =>
             let r := eval vm_compute in (EqualFold a b) in change (EqualFold a b) with r
         end; cbv iota; rewrite ?app_nil_l, ?app_nil_r.

Ltac state_field :=
  unfold state_members, state_json;
  rewrite !field_values_app, !field_values_omit, !field_values_omits; fold_names; done.

Lemma state_round_trip st : state_ok st = true -> state_of_members (state_members st) = Some st.
Proof.
  unfold state_ok. rewrite !andb_true_iff. intros ((((H1 & H2) & H3) & H4) & H5). unfold state_of_members.
  rewrite (field_string_single "summary" _ (st_Summary st)) by (done || state_field). simpl.
  rewrite (field_strings_single "key_facts" _ (st_KeyFacts st)) by (done || state_field). simpl.
  rewrite (field_strings_single "constraints" _ (st_Constraints st)) by (done || state_field). simpl.
  rewrite (field_strings_single "open_loops" _ (st_OpenLoops st)) by (done || state_field). simpl.
  rewrite (field_strings_single "recent_tool_state" _ (st_RecentToolState st)) by (done || state_field). simpl.
  by destruct st.
Qed.

Definition payload_members (p : syntheticCompactionPayload) : list (string * json) :=
  match payload_json p with JObj l => l | _ => [] end.

Lemma field_values_cons name k t l :
  field_values name ((k, t) :: l) = (if EqualFold (unquote k) name then [t] else []) ++ field_values name l.
Proof. change ((k, t) :: l) with ([(k, t)] ++ l). by rewrite field_values_app, field_values_single. Qed.

Lemma field_values_opt {A} name k (f : A -> json) (o : option A) :
  field_values name (match o with None => [] | Some s => [(k, f s)] end) =
  if EqualFold (unquote k) name then (match o with None => [] | Some s => [f s] end) else [].
Proof. destruct o; [apply field_values_single|by destruct (EqualFold _ _)]. Qed.

Ltac payload_field :=
  unfold payload_members, payload_json;
  rewrite ?field_values_app, ?field_values_cons, ?field_values_omit, ?field_values_opt, ?field_values_cond;
  change (field_values ?n []) with (@nil json); fold_names; try done.

(** What is decoded: raw messages were escaped on the way. *)
Definition escaped_payload (p : syntheticCompactionPayload) : syntheticCompactionPayload :=
  {| cp_Version := cp_Version p; cp_Summary := cp_Summary p; cp_ItemCount := cp_ItemCount p;
     cp_Mode := cp_Mode p; cp_State := cp_State p; cp_RetainedItems := map jesc (cp_RetainedItems p) |}.

Lemma field_int_single name l z : is_int z = true -> field_values name l = [JNum (int_text z)] ->
  field_int name l = Some z.
Proof. intros Hz Hv. unfold field_int. rewrite Hv. simpl. by apply int_of_int_text. Qed.

Lemma field_string_given name l s : valid_utf8 s = true -> field_values name l = [json_str s] ->
  field_string name l = Some s.
Proof. intros Hs Hv. unfold field_string. rewrite Hv. simpl. by rewrite unquote_encode_valid. Qed.

Lemma field_state_obj l st : state_of_members l = Some st -> field_state_loop None [JObj l] = Some (Some st).
Proof.
  intros Hl. change (field_state_loop None [JObj l])
    with (state_of_members l ≫= fun _ => Some <$> state_of_members l). by rewrite Hl.
Qed.

Lemma field_state_given name l (o : option SyntheticCompactionState) :
  (forall st, o = Some st -> state_ok st = true) ->
  field_values name l = (match o with None => [] | Some s => [state_json s] end) ->
  field_state name l = Some o.
Proof.
  intros Ho Hv. unfold field_state. rewrite Hv. destruct o as [st|]; [|done].
  by apply (field_state_obj (state_members st)), state_round_trip, Ho.
Qed.

Lemma payload_round_trip p : is_int (cp_Version p) = true -> is_int (cp_ItemCount p) = true ->
  valid_utf8 (cp_Summary p) = true -> valid_utf8 (cp_Mode p) = true ->
  (forall st, cp_State p = Some st -> state_ok st = true) ->
  payload_of (payload_json p) = Some (escaped_payload p).
Proof.
  intros Hv Hn Hs Hm Hst. change (payload_json p) with (JObj (payload_members p)). unfold payload_of.
  cbn [struct_members]. unfold mbind at 1, option_bind at 1.
  rewrite (field_int_single "version" _ (cp_Version p)) by (done || payload_field). simpl.
  rewrite (field_string_given "summary" _ (cp_Summary p)) by (done || payload_field). simpl.
  rewrite (field_int_single "item_count" _ (cp_ItemCount p)) by (done || payload_field). simpl.
  rewrite (field_string_single "mode" _ (cp_Mode p)) by (done || payload_field). simpl.
  rewrite (field_state_given "state" _ (cp_State p)) by (done || payload_field). simpl.
  assert (Hr : field_raws "retained_items" (payload_members p) = Some (map jesc (cp_RetainedItems p))).
  { unfold field_raws.
    assert (field_values "retained_items" (payload_members p) =
      if decide (cp_RetainedItems p = []) then [] else [JArr (map jesc (cp_RetainedItems p))]) as -> by payload_field.
    case_decide as Hnil; [by rewrite Hnil|done]. }
  by rewrite Hr.
Qed.

Lemma marshalled_omits k vs : valid_lit k = true -> esc_lit k = k -> Forall marshalled (omit_strings k vs).
Proof. intros Hk He. apply marshalled_cond. by apply marshalled_strings. Qed.

Lemma state_json_wf st : jwf (state_json st) = true.
Proof.
  apply marshalled_jwf. unfold state_members, state_json. rewrite !Forall_app.
  repeat split; first [by apply marshalled_omit|by apply marshalled_omits].
Qed.

Lemma payload_json_wf p : Forall (fun t => jwf (jesc t) = true) (cp_RetainedItems p) ->
  jwf (payload_json p) = true.
Proof.
  intros Hr. unfold payload_json, json_str. cbn [jwf]. rewrite !forallb_app. cbn [forallb fst snd jwf].
  rewrite !int_text_valid, encode_body_valid. repeat (apply andb_true_iff; split); try done.
  - unfold omit_string. case_decide; [done|]. simpl. by rewrite encode_body_valid.
  - destruct (cp_State p); [|done]. cbn [forallb fst snd]. by rewrite state_json_wf.
  - case_decide; [done|]. cbn [forallb fst snd jwf]. rewrite !andb_true_r. apply andb_true_iff. split; [done|].
    apply forallb_forall. intros t Ht%list_elem_of_In. apply list_elem_of_fmap in Ht as (t' & -> & Hin).
    rewrite Forall_forall in Hr. by apply Hr.
Qed.

(** Items whose JSON form is well-formed text. *)
Definition printable_item (i : Item) : Prop := jok (MarshalJSON i) = true.

Lemma retained_wf items : Forall printable_item items ->
  Forall (fun t => jwf (jesc t) = true) (marshalSyntheticCompactionRetainedItems items).
Proof.
  intros Hi. apply Forall_fmap. eapply Forall_impl; [exact Hi|]. intros i Hok. simpl.
  rewrite jesc_idemp by done. by apply jesc_jwf.
Qed.

Lemma retained_escaped items : Forall printable_item items ->
  map jesc (marshalSyntheticCompactionRetainedItems items) = marshalSyntheticCompactionRetainedItems items.
Proof.
  intros Hi. unfold marshalSyntheticCompactionRetainedItems. rewrite map_map. apply map_ext_in.
  intros i Hin%list_elem_of_In. rewrite Forall_forall in Hi. by apply jesc_idemp, Hi.
Qed.

Lemma obind_Some {A B} (o : option A) x (f : A -> option B) : o = Some x -> o ≫= f = f x.
Proof. by intros ->. Qed.

Lemma encoded_trimmed s : TrimSpace (syntheticCompactionPrefix +:+ b64_encode s) =
  syntheticCompactionPrefix +:+ b64_encode s.
Proof.
  apply (TrimSpace_chars solid); [done|]. rewrite all_chars_app, b64_encode_solid. done.
Qed.

Lemma encoded_content s : let t := syntheticCompactionPrefix +:+ b64_encode s in
  HasPrefix t syntheticCompactionPrefix = true /\ b64_decode (TrimPrefix t syntheticCompactionPrefix) = Some s.
Proof.
  intros t. assert (Hp : HasPrefix t syntheticCompactionPrefix = true) by done. split; [done|].
  unfold TrimPrefix. rewrite Hp. exact (b64_decode_encode s).
Qed.

(** What a compaction carries. *)
Definition compaction_payload (summary : string) (itemCount : Z) (options : SyntheticCompactionOptions)
    : syntheticCompactionPayload :=
  let state := normalizeSyntheticCompactionState (op_State options) in
  {| cp_Version := 1; cp_Summary := TrimSpace summary; cp_ItemCount := itemCount;
     cp_Mode := TrimSpace (op_Mode options);
     cp_State := if isEmptySyntheticCompactionState state then None else Some state;
     cp_RetainedItems := map (fun i => jesc (MarshalJSON i)) (op_RetainedItems options) |}.

(** Options whose texts are valid UTF-8. *)
Definition options_ok (options : SyntheticCompactionOptions) : Prop :=
  valid_utf8 (op_Mode options) = true /\ state_ok (op_State options) = true /\
  Forall printable_item (op_RetainedItems options).

Lemma decode_encoded summary itemCount options :
  is_int itemCount = true -> valid_utf8 summary = true -> options_ok options ->
  decodeSyntheticCompactionPayload (EncodeSyntheticCompactionPayloadWithOptions summary itemCount options) =
  Some (compaction_payload summary itemCount options).
Proof.
  intros Hn Hs (Hm & Hst & Hr). unfold EncodeSyntheticCompactionPayloadWithOptions.
  fold (compaction_payload summary itemCount options).
  change (marshalSyntheticCompactionRetainedItems ?l) with (map (fun i => jesc (MarshalJSON i)) l).
  fold (compaction_payload summary itemCount options). set (p := compaction_payload summary itemCount options).
  assert (Hrt : payload_of (payload_json p) = Some p).
  { rewrite payload_round_trip; simpl; try done.
    - unfold escaped_payload. f_equal. unfold p, compaction_payload at 7. f_equal. by apply retained_escaped.
    - by apply TrimSpace_valid.
    - by apply TrimSpace_valid.
    - intros st. destruct (isEmptySyntheticCompactionState _); [done|]. intros [= <-].
      by apply normalize_state_ok. }
  destruct (encoded_content (jprint (payload_json p))) as [Hp Hd].
  assert (Hj : jparse (jprint (payload_json p)) = Some (payload_json p)).
  { apply jparse_jprint, payload_json_wf. by apply retained_wf. }
  unfold decodeSyntheticCompactionPayload. rewrite encoded_trimmed, Hp. simpl negb. cbv iota.
  rewrite (obind_Some _ _ _ Hd), (obind_Some _ _ _ Hj), (obind_Some _ _ _ Hrt).
  change (cp_Version p =? 1)%Z with true. simpl negb. cbv iota. f_equal.
  unfold p, compaction_payload. simpl. rewrite TrimSpace_idemp. f_equal.
  destruct (isEmptySyntheticCompactionState _); [done|]. simpl. by rewrite normalize_state_idem.
Qed.

(** ** Expanding *)

Section expand.
Context `{UnicodeTable}.

Lemma quotable_valid text : json_quotable text = true -> valid_utf8 text = true.
Proof. intros [_ <-]%quote_body_spec. apply unquote_valid. Qed.

(** The raw object of a text message that was given an identifier. *)
Definition identified_message (role text id : string) : list (string * gval) :=
  [("content", GArr [GMap [("text", GStr text); ("type", GStr "input_text")]]);
   ("id", GStr id); ("role", GStr role); ("type", GStr "message")].

Lemma Map_text_message role text : json_quotable role = true -> json_quotable text = true ->
  Map (text_message (input_tree role text) role "input_text" text) =
  Some [("content", GArr [GMap [("text", GStr text); ("type", GStr "input_text")]]);
        ("role", GStr role); ("type", GStr "message")].
Proof.
  intros [_ Hr]%quote_body_spec [_ Ht]%quote_body_spec. unfold Map, text_message. cbn [Raw].
  rewrite <-Hr at 2. rewrite <-Ht at 2. unfold input_tree.
  generalize (quote_body role) as qr. generalize (quote_body text) as qt. intros qt qr. reflexivity.
Qed.

Lemma UnmarshalJSON_identified role text id : valid_utf8 role = true -> valid_utf8 text = true -> text <> "" ->
  UnmarshalJSON (of_any (GMap (identified_message role text id))) =
  Ok {| Raw := Some (of_any (GMap (identified_message role text id))); Meta := None; Type_ := "message";
        Role := TrimSpace role; Content := [{| tp_Type := "input_text"; tp_Text := text |}] |}.
Proof.
  intros Hr%unquote_encode_valid Ht%unquote_encode_valid Hne.
  change (of_any (GMap (identified_message role text id))) with
    (JObj [("content", JArr [JObj [("text", JStr (encode_body text)); ("type", JStr "input_text")]]);
           ("id", JStr (encode_body id)); ("role", JStr (encode_body role)); ("type", JStr "message")]).
  generalize dependent (encode_body role); intros qr Hr. generalize dependent (encode_body text); intros qt Ht.
  generalize (encode_body id) as qi. intros qi.
  unfold UnmarshalJSON, struct_members, field_string, field_raw.
  change (field_values "type" _) with [JStr "message"]. change (field_values "role" _) with [JStr qr].
  change (field_values "content" _) with [JArr [JObj [("text", JStr qt); ("type", JStr "input_text")]]].
  cbn [foldl mbind option_bind]. rewrite Hr. do 2 f_equal.
  cbn [last extractTextParts raw_map_array opt_map mbind option_bind raw_map].
  change (am_of_list _) with [("text", JStr qt); ("type", JStr "input_text")].
  cbn [omap list_omap]. unfold extractTextPart. change (am_lookup "text" _) with (Some (JStr qt)).
  cbn [string_of]. rewrite Ht, decide_False by done. done.
Qed.

(** Giving a text message an identifier keeps the message. *)
Lemma message_with_id role text id : json_quotable role = true -> json_quotable text = true ->
  text <> "" -> valid_utf8 id = true ->
  exists first, WithID (NewInputTextMessage role text) id = Ok first /\ Type_ first = "message" /\
    Role first = TrimSpace role /\ Content first = [{| tp_Type := "input_text"; tp_Text := text |}] /\
    ID first = TrimSpace id.
Proof.
  intros Hr Ht Hne Hid. rewrite input_tree_spec, Ht by done. unfold WithID.
  assert (HID : ID (text_message (input_tree role text) role "input_text" text) = "").
  { unfold ID, StringField, RawField, text_message, input_tree. cbn [Raw].
    generalize (quote_body role) as qr. generalize (quote_body text) as qt. intros qt qr. reflexivity. }
  rewrite HID. rewrite decide_False by (intros Hc; by apply Hc). unfold WithField.
  rewrite Map_text_message by done.
  change (am_insert "id" (GStr id) _) with (identified_message role text id). unfold WithMap, map_json.
  pose proof (of_any_wf (GMap (identified_message role text id))) as Hwf.
  pose proof (UnmarshalJSON_identified role text id (quotable_valid _ Hr) (quotable_valid _ Ht) Hne) as HU.
  change (of_any (GMap (identified_message role text id))) with
    (JObj (map (fun kv => (encode_body kv.1, of_any kv.2)) (identified_message role text id))) in *.
  rewrite NewItem_print, HU by done. simpl mbind. eexists. split; [reflexivity|].
  split; [done|]. split; [done|]. split; [done|].
  unfold ID. erewrite (StringField_marshalled _ (identified_message role text id)); [done| |done].
  pose proof (quotable_valid _ Hr) as Hr'. pose proof (quotable_valid _ Ht) as Ht'.
  unfold gwf_map, identified_message. cbn [forallb fst snd gwf]. rewrite Hr', Ht', Hid. done.
Qed.
End expand.

Section new_item.
Context `{IdLaws} `{UnicodeTable}.

Lemma encoded_valid summary n options :
  valid_utf8 (EncodeSyntheticCompactionPayloadWithOptions summary n options) = true.
Proof.
  apply (all_chars_valid solid).
  - intros a Ha. unfold solid in Ha. rng. lia.
  - unfold EncodeSyntheticCompactionPayloadWithOptions. by rewrite all_chars_app, b64_encode_solid.
Qed.

Definition compaction_fields (content id : string) : list (string * gval) :=
  [("encrypted_content", GStr content); ("id", GStr id); ("type", GStr "compaction")].

Lemma compaction_item content id : valid_utf8 content = true -> valid_utf8 id = true ->
  exists i, NewItem (jprint (of_any (GMap (compaction_fields content id)))) = Ok i /\
    Type_ i = "compaction" /\ ID i = TrimSpace id /\ StringField i "encrypted_content" = TrimSpace content.
Proof.
  intros Hc Hi. assert (Hw : gwf_map (compaction_fields content id) = true).
  { unfold gwf_map, compaction_fields. cbn [forallb fst snd gwf]. by rewrite Hc, Hi. }
  destruct (WithMap_ok zeroItem (compaction_fields content id) Hw eq_refl eq_refl) as (i & HW & HR & HM & _).
  unfold WithMap, map_json in HW. destruct (NewItem _) as [j| |] eqn:HN; simpl in HW; try done.
  injection HW as <-. exists j. split; [done|].
  destruct (NewItem_payload _ _ Hw HN) as (HRj & _ & _ & Hty & _). split; [by rewrite Hty|].
  unfold ID. by rewrite !(StringField_marshalled j (compaction_fields content id)).
Qed.

Lemma retained_decode items : Forall printable_item items -> Forall item_inv items ->
  res_map UnmarshalJSON (map (fun i => jesc (MarshalJSON i)) items) =
  Ok (map (fun i => escaped (set_meta i None)) items).
Proof.
  intros Hp Hi. apply res_map_ok_iff. rewrite Forall2_fmap_l, Forall2_fmap_r. apply Forall_Forall2_diag.
  rewrite Forall_forall in Hp, Hi |- *. intros i Hin. specialize (Hp i Hin).
  destruct (Hi i Hin) as (l & HR & Hw & HU).
  change (UnmarshalJSON (jesc (MarshalJSON i)) = Ok (escaped (set_meta i None))).
  unfold printable_item, MarshalJSON in *. rewrite HR in *.
  by rewrite UnmarshalJSON_jesc, HU.
Qed.

Lemma render_nonempty p : renderSyntheticCompactionPayload p <> "".
Proof.
  unfold renderSyntheticCompactionPayload, syntheticCompactionSummaryMessage.
  destruct (cp_State p); [destruct (isEmptySyntheticCompactionState _)|]; done.
Qed.

(** The item a compaction expands to first. *)
Definition summary_message (text id : string) (first : Item) : Prop :=
  ID first = id /\
  if json_quotable text then
    Type_ first = "message" /\ Role first = "system" /\
    Content first = [{| tp_Type := "input_text"; tp_Text := text |}]
  else Type_ first = "" /\ Content first = [].

Lemma expanded_first text id : text <> "" -> valid_utf8 id = true -> TrimSpace id = id ->
  exists first, WithID (NewInputTextMessage "system" text) id = Ok first /\ summary_message text id first.
Proof.
  intros Hne Hid Htr. unfold summary_message. destruct (json_quotable text) eqn:Hq.
  - destruct (message_with_id "system" text id eq_refl Hq Hne Hid) as (f & HW & ? & Hr & ? & HI).
    exists f. split; [done|]. split; [by rewrite HI|]. done.
  - rewrite input_tree_spec, Hq by done.
    assert (Hw : gwf_map [("id", GStr id)] = true).
    { unfold gwf_map. cbn [forallb fst snd gwf]. by rewrite Hid. }
    destruct (WithMap_ok zeroItem [("id", GStr id)] Hw eq_refl eq_refl) as (i & HW & HR & HM & Hinv).
    exists i. split; [done|]. split.
    { unfold ID. by rewrite (StringField_marshalled i [("id", GStr id)]). }
    destruct Hinv as (l & HR' & _ & HU). rewrite HR in HR'. injection HR' as <-.
    change (of_any (GMap [("id", GStr id)])) with (JObj [("id", JStr (encode_body id))]) in HU.
    revert HU. generalize (encode_body id) as e. intros e HU.
    change (UnmarshalJSON (JObj [("id", JStr e)])) with
      (Ok {| Raw := Some (JObj [("id", JStr e)]); Meta := None; Type_ := ""; Role := ""; Content := [] |}) in HU.
    injection HU as _ Hty _ Hco. by rewrite <-Hty, <-Hco.
Qed.

Lemma compaction_expands_to summary n options k u :
  is_int n = true -> valid_utf8 summary = true -> options_ok options ->
  Forall item_inv (op_RetainedItems options) -> uuid_v7 k = Some u ->
  exists item first, NewSyntheticCompactionItemWithOptions summary n options k = (Ok item, S k) /\
    Type_ item = "compaction" /\ ID item = "cmp_" +:+ u /\
    summary_message (renderSyntheticCompactionPayload (compaction_payload summary n options)) ("cmp_" +:+ u) first /\
    ExpandSyntheticCompactionItems [item] =
      Ok (first :: map (fun i => escaped (set_meta i None)) (op_RetainedItems options)).
Proof.
  intros Hn Hs Ho Hi Hu. destruct (prefixed_id_ok "cmp" k u eq_refl Hu) as (Hv & Ht & Hnz).
  change ("cmp" +:+ "_" +:+ u) with ("cmp_" +:+ u) in *.
  destruct (compaction_item (EncodeSyntheticCompactionPayloadWithOptions summary n options) ("cmp_" +:+ u))
    as (item & HN & Hty & HID & Hc); [apply encoded_valid|done|].
  destruct (expanded_first (renderSyntheticCompactionPayload (compaction_payload summary n options)) ("cmp_" +:+ u))
    as (first & HW & Hfirst); [apply render_nonempty|done..|].
  exists item, first. split.
  { unfold NewSyntheticCompactionItemWithOptions, mbind, st_bind, st_wrap, NewPrefixedID. rewrite Hu.
    cbn [wrap_err]. unfold st_lift. by rewrite <-HN. }
  split; [done|]. split; [by rewrite HID|]. split; [done|].
  cbn [ExpandSyntheticCompactionItems]. unfold expand_item. rewrite Hty, decide_False by naive_solver.
  rewrite Hc, HID, Ht. unfold EncodeSyntheticCompactionPayloadWithOptions at 1. rewrite encoded_trimmed.
  fold (EncodeSyntheticCompactionPayloadWithOptions summary n options).
  rewrite decode_encoded by done. unfold expandSyntheticCompactionPayload.
  destruct Ho as (_ & _ & Hr). rewrite (retained_decode _ Hr Hi : res_map _ (cp_RetainedItems (compaction_payload _ _ _)) = _).
  cbn [mbind res_bind]. rewrite Ht, decide_False by done. rewrite HW. cbn [mbind res_bind].
  by rewrite app_nil_r.
Qed.
End new_item.

(** ** Bounds *)

Lemma newline_boundary s : starts_rune (newline +:+ s) = true.
Proof. done. Qed.

Lemma rune_count_boundary s t : starts_rune t = true -> rune_count (s +:+ t) = rune_count s + rune_count t.
Proof. intros Ht. unfold rune_count. by rewrite chunks_app_boundary, length_app. Qed.

Lemma sum_list_cons x l : sum_list (x :: l) = x + sum_list l.
Proof. done. Qed.

(** The runes of joined lines, with one more newline at the end. *)
Lemma rune_count_join lines : lines <> [] ->
  S (rune_count (sjoin newline lines)) = sum_list (map (fun l => S (rune_count l)) lines).
Proof.
  induction lines as [|l [|l' lines] IH]; intros Hne; [done|change (sjoin newline [l]) with l; cbn; lia|].
  rewrite sjoin_cons, rune_count_boundary by apply newline_boundary.
  rewrite rune_count_app_valid by done. change (rune_count newline) with 1.
  specialize (IH ltac:(done)). rewrite !map_cons, !sum_list_cons in *. lia.
Qed.

Lemma transcript_loop_bound maxItems maxRunes idx runes items : (runes <= maxRunes)%Z ->
  (Z.of_nat (sum_list (map (fun l => S (rune_count l)) (transcript_loop maxItems maxRunes idx runes items)))
   <= maxRunes - runes)%Z.
Proof.
  revert idx runes. induction items as [|item items IH]; intros idx runes Hle; cbn [transcript_loop]; [simpl; lia|].
  destruct (maxItems <=? idx)%Z; [simpl; lia|]. case_decide; [by apply IH|].
  set (prefix := pad3 (idx + 1) +:+ _).
  destruct (Z.ltb_spec maxRunes (runes + Z.of_nat (rune_count prefix) + 1)) as [Hlt|Hge].
  - destruct (Z.leb_spec (maxRunes - runes - 1) 0) as [Hr|Hr]; [simpl; lia|]. rewrite map_cons, sum_list_cons. cbn [map sum_list foldr].
    change (sum_list []) with 0.
    pose proof (truncateRunes_count prefix (maxRunes - runes - 1) ltac:(lia)). lia.
  - rewrite map_cons, sum_list_cons. specialize (IH (idx + 1)%Z (runes + Z.of_nat (rune_count prefix) + 1)%Z ltac:(lia)). lia.
Qed.

(** ** The claims *)

(** C14 (round trip): decoding the text of a compaction gives back its item
    count, its trimmed summary and mode, its state with every text trimmed and
    bounded (none when that leaves nothing), and its retained items, as
    json.Marshal writes them. *)
Theorem compaction_round_trip summary itemCount options :
  is_int itemCount = true -> valid_utf8 summary = true -> options_ok options ->
  decodeSyntheticCompactionPayload (EncodeSyntheticCompactionPayloadWithOptions summary itemCount options) =
  Some (compaction_payload summary itemCount options).
Proof. apply decode_encoded. Qed.

Definition demo_kept : Item :=
  match NewItem (sq "{'role':'user','content':'hi'}") with Ok i => i | _ => zeroItem end.

Lemma demo_kept_inv : item_inv demo_kept.
Proof.
  assert (Hm : Meta demo_kept = None) by (vm_compute; reflexivity).
  rewrite <-(set_meta_none _ Hm). apply (NewItem_item_inv (sq "{'role':'user','content':'hi'}")).
  vm_compute. reflexivity.
Qed.

Definition demo_options : SyntheticCompactionOptions :=
  {| op_Mode := "m"; op_State := {| st_Summary := " s "; st_KeyFacts := ["a"; " "; "b"]; st_Constraints := [];
       st_OpenLoops := ["c"]; st_RecentToolState := [] |};
     op_RetainedItems := [demo_kept] |}.

Lemma demo_options_ok : options_ok demo_options.
Proof.
  split; [by vm_compute|]. split; [by vm_compute|].
  apply Forall_cons_2; [by vm_compute|apply Forall_nil_2].
Qed.

Lemma compaction_round_trip_witness :
  decodeSyntheticCompactionPayload (EncodeSyntheticCompactionPayloadWithOptions " sum " 3 demo_options) =
  Some (compaction_payload " sum " 3 demo_options).
Proof. exact (compaction_round_trip " sum " 3 demo_options eq_refl eq_refl demo_options_ok). Defined.

(** Fact (functional): a new compaction item expands to a system message with
    the rendered summary, under the compaction's own identifier, followed by
    the retained items.  When the rendered text holds a rune that Go's quoting
    writes outside JSON, the message is lost: the first item then has the
    identifier and nothing else. *)
Theorem compaction_expands `{IdLaws} `{UnicodeTable} summary n options k u :
  is_int n = true -> valid_utf8 summary = true -> options_ok options ->
  Forall item_inv (op_RetainedItems options) -> uuid_v7 k = Some u ->
  exists item first, NewSyntheticCompactionItemWithOptions summary n options k = (Ok item, S k) /\
    Type_ item = "compaction" /\ ID item = "cmp_" +:+ u /\
    summary_message (renderSyntheticCompactionPayload (compaction_payload summary n options)) ("cmp_" +:+ u) first /\
    ExpandSyntheticCompactionItems [item] =
      Ok (first :: map (fun i => escaped (set_meta i None)) (op_RetainedItems options)).
Proof. apply compaction_expands_to. Qed.

Lemma compaction_expands_witness :
  exists item first,
    @NewSyntheticCompactionItemWithOptions zeros_ids " sum " 3 demo_options 2 = (Ok item, 3) /\
    Type_ item = "compaction" /\ ID item = "cmp_00" /\
    @summary_message ascii_only
      (renderSyntheticCompactionPayload (compaction_payload " sum " 3 demo_options)) "cmp_00" first /\
    @ExpandSyntheticCompactionItems ascii_only [item] =
      Ok (first :: map (fun i => escaped (set_meta i None)) (op_RetainedItems demo_options)).
Proof.
  apply (@compaction_expands zeros_ids zeros_ids_laws ascii_only " sum " 3 demo_options 2 "00");
    [done|done|apply demo_options_ok| |done].
  exact (Forall_cons_2 _ _ _ demo_kept_inv (Forall_nil_2 _)).
Defined.

(** Fact (bounds): the summary is never empty and has at most 4096 runes, and a
    transcript with a positive budget stays strictly within it; without a
    budget it is empty. *)
Theorem compaction_texts_bounded items maxItems maxRunes :
  BuildSyntheticCompactionSummary items <> "" /\
  rune_count (BuildSyntheticCompactionSummary items) <= 4096 /\
  if decide (0 < maxRunes)%Z then
    (Z.of_nat (rune_count (BuildSyntheticCompactionTranscript items maxItems maxRunes)) < maxRunes)%Z
  else BuildSyntheticCompactionTranscript items maxItems maxRunes = "".
Proof.
  split; [|split; [|case_decide as Hm]].
  - unfold BuildSyntheticCompactionSummary. case_decide as Hl; [done|].
    pose proof (keep_lines_nonempty 15 (map (fun item => truncateRunes (TrimSpace (syntheticCompactionLine item)) 240) items)) as Hne.
    destruct (keep_lines 16 _) as [|l lines]; [done|]. inversion_clear Hne as [|? ? Hl1 _].
    assert (Hj : sjoin newline (l :: lines) <> "").
    { destruct l as [|a l]; [done|]. by destruct lines. }
    unfold truncateRunes. cbn [Z.leb Z.compare]. case_match; [done|]. rewrite decide_False by done.
    intros He. apply (f_equal String.length) in He. rewrite slength_app in He. simpl in He. lia.
  - unfold BuildSyntheticCompactionSummary. case_decide; [by apply Nat.leb_le; vm_compute|].
    pose proof (truncateRunes_count (sjoin newline (keep_lines 16 (map (fun item =>
      truncateRunes (TrimSpace (syntheticCompactionLine item)) 240) items))) 4096 ltac:(done)). lia.
  - unfold BuildSyntheticCompactionTranscript. destruct (Z.leb_spec maxRunes 0); [lia|].
    set (mi := if (maxItems <=? 0)%Z then _ else _).
    pose proof (transcript_loop_bound mi maxRunes 0 0 items ltac:(lia)) as Hb.
    destruct (transcript_loop mi maxRunes 0 0 items) as [|l ls] eqn:E; [by change (rune_count _) with 0|].
    pose proof (rune_count_join (l :: ls) ltac:(done)). lia.
  - unfold BuildSyntheticCompactionTranscript. by destruct (Z.leb_spec maxRunes 0); [|lia].
Qed.

Definition is_compaction (i : Item) : Prop := Type_ i = "compaction".

Lemma last_compaction_app idx found pre c post :
  is_compaction c -> Forall (fun i => ~ is_compaction i) post ->
  last_compaction idx found (pre ++ c :: post) = Some (idx + length pre).
Proof.
  intros Hc Hpost. revert idx found. induction pre as [|p pre IH]; intros idx found; cbn [app last_compaction length].
  - rewrite decide_True by done. rewrite Nat.add_0_r. generalize (S idx).
    induction Hpost as [|i post Hi Hpost IH]; intros k; [done|]. cbn [last_compaction].
    by rewrite decide_False by done.
  - rewrite IH. f_equal. lia.
Qed.

Lemma last_compaction_none idx found items : Forall (fun i => ~ is_compaction i) items ->
  last_compaction idx found items = found.
Proof.
  intros Hi. revert idx. induction Hi as [|i items Hi Hitems IH]; intros idx; [done|].
  cbn [last_compaction]. by rewrite decide_False by done.
Qed.

(** Fact (functional): trimming keeps every item when there is no compaction,
    and otherwise exactly the latest compaction and the items after it. *)
Theorem TrimItemsBeforeLatestCompaction_spec items :
  (Forall (fun i => ~ is_compaction i) items /\ TrimItemsBeforeLatestCompaction items = items) \/
  (exists pre c post, items = pre ++ c :: post /\ is_compaction c /\
     Forall (fun i => ~ is_compaction i) post /\ TrimItemsBeforeLatestCompaction items = c :: post).
Proof.
  assert (Hsplit : Forall (fun i => ~ is_compaction i) items \/
    exists pre c post, items = pre ++ c :: post /\ is_compaction c /\ Forall (fun i => ~ is_compaction i) post).
  { induction items as [|i items [IH|(pre & c & post & -> & Hc & Hp)]]; [left; constructor| |].
    - destruct (decide (Type_ i = "compaction")); [right; by exists [], i, items|left; by constructor].
    - right. by exists (i :: pre), c, post. }
  unfold TrimItemsBeforeLatestCompaction. destruct Hsplit as [Hn|(pre & c & post & -> & Hc & Hp)].
  - left. by rewrite last_compaction_none.
  - right. exists pre, c, post. rewrite last_compaction_app by done. repeat split; try done.
    destruct pre as [|p pre]; [done|]. simpl. by rewrite drop_app_length.
Qed.

(** Fact (bounds): the token estimate of a JSON text is a quarter of its runes,
    rounded up; no items cost nothing and any items at least one token. *)
Theorem EstimateSyntheticTokenCount_bounds items :
  let n := EstimateSyntheticTokenCount items in
  let runes := Z.of_nat (rune_count (jprint (JArr (map (fun i => jesc (MarshalJSON i)) items)))) in
  if decide (items = []) then n = 0%Z else (1 <= n /\ 4 * (n - 1) < runes <= 4 * n)%Z.
Proof.
  intros n runes. unfold n, EstimateSyntheticTokenCount. case_decide; [done|]. fold n.
  unfold EstimateSyntheticTokenCountJSON.
  assert (Ht : TrimSpace (jprint (JArr (map (fun i => jesc (MarshalJSON i)) items))) =
               jprint (JArr (map (fun i => jesc (MarshalJSON i)) items))).
  { cbn [jprint]. change ("[" +:+ ?s) with (String "[" s). change ("]") with (char_string "]").
    by apply TrimSpace_solid. }
  rewrite Ht. fold runes. rewrite decide_False by (intros [?|?]; done).
  assert (0 < runes)%Z.
  { unfold runes, rune_count. cbn [jprint]. change ("[" +:+ ?s) with (String "[" s).
    rewrite chunks_ascii by done. simpl. lia. }
  destruct (Z.eqb_spec runes 0); [lia|].
  pose proof (Z.div_mod (runes + 3) 4 ltac:(lia)). pose proof (Z.mod_pos_bound (runes + 3) 4 ltac:(lia)). lia.
Qed.
