(* ===== verification/Compactor.v ===== *)
(** * internal/compactor/compactor.go

    How earlier items become one compaction item: the heuristic compactor, and
    the model-assisted one that asks a text model for a structured state and
    falls back to the heuristic.

    The model behind llama.Client.Generate is a parameter ([generate]), and so
    is the request context: [ctx_Err n] is what the [n]-th call of ctx.Err
    returns.  The state counts the identifiers drawn and those calls. *)

From S2P Require Import Prelude GoStr GoFloat GoJson JsonFacts GoInt World Items Normalize Compaction.

Definition BackendHeuristic : string := "heuristic".
Definition BackendModelAssistedText : string := "model_assisted_text".

(** Nanoseconds, as time.Duration has them. *)
Definition defaultTimeout : Z := 10000000000.
Definition defaultMaxOutputTokens : Z := 1200.
Definition defaultRetainedItems : Z := 8.
Definition defaultMaxInputRunes : Z := 60000.

Record Config := {
  Backend : string;
  BaseURL : string;
  Model : string;
  Timeout : Z;
  MaxOutputTokens : Z;
  RetainedItems : Z;
  MaxInputRunes : Z
}.

Record Result := {
  rs_Item : Item;
  rs_Output : list Item;
  rs_Expanded : list Item
}.

Definition zeroResult : Result := {| rs_Item := zeroItem; rs_Output := []; rs_Expanded := [] |}.

(** strings.TrimRight(s, "/") *)
Definition trim_right_slash (s : string) : string := srev (trim_char_left (chr 47) (srev s)).

Section config.
Context `{UnicodeTable}.

Definition NormalizeConfig (cfg : Config) : res Config :=
  let backend := ToLower (TrimSpace (Backend cfg)) in
  let backend := if decide (backend = "") then BackendHeuristic else backend in
  if decide (backend = BackendHeuristic) then
    Ok {| Backend := backend; BaseURL := ""; Model := ""; Timeout := 0; MaxOutputTokens := 0;
          RetainedItems := 0; MaxInputRunes := 0 |}
  else if decide (backend = BackendModelAssistedText) then
    let baseURL := trim_right_slash (TrimSpace (BaseURL cfg)) in
    let model := TrimSpace (Model cfg) in
    if decide (baseURL = "") then
      Err (EMsg "responses.compaction.base_url must not be empty when responses.compaction.backend is model_assisted_text")
    else if decide (model = "") then
      Err (EMsg "responses.compaction.model must not be empty when responses.compaction.backend is model_assisted_text")
    else
      let retained := if (RetainedItems cfg <? 0)%Z then 0%Z else RetainedItems cfg in
      Ok {| Backend := backend; BaseURL := baseURL; Model := model;
            Timeout := if (Timeout cfg <=? 0)%Z then defaultTimeout else Timeout cfg;
            MaxOutputTokens := if (MaxOutputTokens cfg <=? 0)%Z then defaultMaxOutputTokens else MaxOutputTokens cfg;
            RetainedItems := if (retained =? 0)%Z then defaultRetainedItems else retained;
            MaxInputRunes := if (MaxInputRunes cfg <=? 0)%Z then defaultMaxInputRunes else MaxInputRunes cfg |}
  else Err (EMsg ("unsupported compaction backend " +:+ Quote backend)).
End config.

(** ** Reading the model's answer *)

(** strings.LastIndex for one character. *)
Definition LastIndexChar (s : string) (c : ascii) : option nat :=
  (fun i => String.length s - S i) <$> Index (srev s) (char_string c).

Definition extractJSONObject (text : string) : option string :=
  let trimmed := TrimSpace text in
  if decide (trimmed = "") then None
  else
    let trimmed :=
      if HasPrefix trimmed "```" then
        TrimSpace (TrimSuffix (TrimPrefix (TrimPrefix trimmed "```json") "```") "```")
      else trimmed in
    if Valid trimmed then Some trimmed
    else match Index trimmed "{", LastIndexChar trimmed (chr 125) with
         | Some start, Some end_ =>
             if end_ <=? start then None
             else let candidate := stake (S end_ - start) (sdrop start trimmed) in
                  if Valid candidate then Some candidate else None
         | _, _ => None
         end.

(** fmt.Sprint of a float64 (the 'g' format): the shortest digits, in exponent
    form, with at least two exponent digits, from 1e6 on and below 1e-4. *)
Definition float_sprint (f : float64) : string :=
  if (f_mant f =? 0)%Z then (if f_neg f then "-0" else "0")
  else
    let '(d, e) := shortest f in
    let ds := digits (strip_trailing (num_digits d) d) in
    let exp := (Z.of_nat (String.length (digits d)) - 1 + e)%Z in
    (if f_neg f then "-" else "") +:+
    if (exp <? -4)%Z || (6 <=? exp)%Z then
      stake 1 ds +:+ frac_part (sdrop 1 ds) +:+ "e" +:+ (if (exp <? 0)%Z then "-" else "+") +:+
      (if (Z.abs exp <? 10)%Z then "0" else "") +:+ digits (Z.abs exp)
    else format_f d e.

Definition modelObjectStringField (obj : list (string * gval)) (key : string) : string :=
  match am_lookup key obj with
  | Some (GStr s) => s
  | Some (GNum f) => float_sprint f
  | Some (GBool b) => if b then "true" else "false"
  | _ => ""
  end.

(** The first of the usual keys that has text. *)
Fixpoint first_text (obj : list (string * gval)) (keys : list string) : option string :=
  match keys with
  | [] => None
  | key :: keys =>
      let value := TrimSpace (modelObjectStringField obj key) in
      if decide (value = "") then first_text obj keys else Some value
  end.

Definition modelStringFromObject (obj : list (string * gval)) : string :=
  let id := TrimSpace (modelObjectStringField obj "id") in
  match first_text obj ["fact"; "constraint"; "task"; "text"; "value"; "description"; "summary"; "state"; "note"] with
  | Some value => if decide (id <> "") then id +:+ ": " +:+ value else value
  | None =>
      let keys := filter (fun key => key <> "id") (am_keys obj) in
      let parts := filter (fun value => value <> "")
                     (map (fun key => TrimSpace (modelObjectStringField obj key)) keys) in
      let text := sjoin "; " parts in
      if decide (text <> "" /\ id <> "") then id +:+ ": " +:+ text else text
  end.

Definition modelStringListEntry (raw : json) : res string :=
  match string_of raw with
  | Some text => Ok (TrimSpace text)
  | None =>
      match any_map raw with
      | Some (Some obj) => Ok (modelStringFromObject obj)
      | _ => Err (EWrap "expected string or object list entry" (EDecode "entry"))
      end
  end.

(** modelStringList.UnmarshalJSON *)
Definition modelStringList (raw : json) : res (list string) :=
  match raw with
  | JNull => Ok []
  | _ =>
      match raw_array raw with
      | None => Err (EWrap "expected array" (EDecode "list"))
      | Some entries =>
          values ← res_map modelStringListEntry entries;
          Ok (filter (fun value => value <> "") values)
      end
  end.

(** A field of that type: each occurrence overwrites the one before. *)
Definition field_model_list (name : string) (l : list (string * json)) : res (list string) :=
  foldl (fun o t => _ ← o; modelStringList t) (Ok []) (field_values name l).

Definition parseModelState (text : string) : res SyntheticCompactionState :=
  match extractJSONObject text with
  | None => Err (EMsg "compactor model did not return JSON")
  | Some raw =>
      let bad := EWrap "decode compactor model JSON" (EDecode "state") in
      match jparse raw ≫= struct_members with
      | None => Err bad
      | Some l =>
          match field_string "summary" l, field_model_list "key_facts" l,
                field_model_list "constraints" l, field_model_list "open_loops" l,
                field_model_list "recent_tool_state" l with
          | Some summary, Ok key_facts, Ok constraints, Ok open_loops, Ok recent_tool_state =>
              if decide (TrimSpace summary = "") then Err (EMsg "compactor model JSON omitted summary")
              else Ok {| st_Summary := summary; st_KeyFacts := key_facts; st_Constraints := constraints;
                         st_OpenLoops := open_loops; st_RecentToolState := recent_tool_state |}
          | _, _, _, _, _ => Err bad
          end
      end
  end.

Definition retainRecentItems (items : list Item) (limit : Z) : list Item :=
  if decide ((limit <= 0)%Z \/ items = []) then []
  else
    let start := (Z.of_nat (length items) - limit)%Z in
    let start := if (start <? 0)%Z then 0%Z else start in
    drop (Z.to_nat start) items.

(** ** The compactors *)

Record cworld := { cw_ids : nat; cw_checks : nat }.

Class RequestContext := { ctx_Err : nat -> option goerr }.

(** The prompt and its options are what the code sends; the answer is text, or
    the error the call ends with. *)
Class TextModel := {
  generate : string -> list Item -> list (string * json) -> res string
}.

Definition cw_draw {A} (m : ST nat A) : ST cworld A := fun w =>
  let '(r, n) := m (cw_ids w) in (r, {| cw_ids := n; cw_checks := cw_checks w |}).

Section compact.
Context `{IdSource} `{UnicodeTable} `{RequestContext} `{TextModel}.

(** One call of ctx.Err. *)
Definition check_ctx : ST cworld (option goerr) := fun w =>
  (Ok (ctx_Err (cw_checks w)), {| cw_ids := cw_ids w; cw_checks := S (cw_checks w) |}).

Definition stop_on {A} (e : option goerr) (m : ST cworld A) : ST cworld A :=
  match e with Some e => st_err e | None => m end.

Definition Heuristic_Compact (items : list Item) : ST cworld Result :=
  cancelled ← check_ctx;
  stop_on cancelled
    (let summary := BuildSyntheticCompactionSummary items in
     item ← cw_draw (NewSyntheticCompactionItem summary (Z.of_nat (length items)));
     expanded ← st_lift (ExpandSyntheticCompactionItems [item]);
     mret {| rs_Item := item; rs_Output := [item]; rs_Expanded := expanded |}).

Definition buildStructuredResult (state : SyntheticCompactionState) (itemCount : Z)
    (retained : list Item) : ST cworld Result :=
  let summary := TrimSpace (st_Summary state) in
  let summary := if decide (summary = "") then "Prior context was compacted." else summary in
  item ← cw_draw (NewSyntheticCompactionItemWithOptions summary itemCount
           {| op_Mode := BackendModelAssistedText; op_State := state; op_RetainedItems := retained |});
  expanded ← st_lift (ExpandSyntheticCompactionItems [item]);
  output ← (if decide (retained = []) then mret [item]
            else outputItem ← cw_draw (NewSyntheticCompactionItemWithOptions summary itemCount
                   {| op_Mode := BackendModelAssistedText; op_State := state; op_RetainedItems := [] |});
                 mret (retained ++ [outputItem]));
  mret {| rs_Item := item; rs_Output := output; rs_Expanded := expanded |}.

Definition modelAssistedSystemPrompt : string :=
  sjoin newline
    ["You compact prior conversation state for an OpenAI-compatible Responses API shim.";
     "Return only a JSON object with these fields:";
     "- summary: concise continuation summary.";
     "- key_facts: array of strings with durable facts, IDs, decisions, names, paths, values, and user preferences.";
     "- constraints: array of strings with active instructions, requirements, safety boundaries, and compatibility constraints.";
     "- open_loops: array of strings with unresolved tasks, pending questions, and next actions.";
     "- recent_tool_state: array of strings with recent tool calls, results, artifacts, errors, or external state needed to continue.";
     "";
     "Rules:";
     "- Preserve task-relevant state, not transcript trivia.";
     "- Keep strings short and specific.";
     "- Do not invent facts.";
     "- Do not include markdown or prose outside the JSON object."].

Definition modelAssistedUserPrompt (transcript : string) : string :=
  "Compact these prior context items for continuation:" +:+ newline +:+ newline +:+ transcript.

Definition compactWithModel (cfg : Config) (items : list Item) : ST cworld Result :=
  let transcript := BuildSyntheticCompactionTranscript items (Z.of_nat (length items)) (MaxInputRunes cfg) in
  let transcript := if decide (TrimSpace transcript = "") then no_context else transcript in
  let messages := [NewInputTextMessage "system" modelAssistedSystemPrompt;
                   NewInputTextMessage "user" (modelAssistedUserPrompt transcript)] in
  let options := [("temperature", JNum "0");
                  ("max_output_tokens", JNum (int_text (MaxOutputTokens cfg)))] in
  text ← st_lift (generate (Model cfg) messages options);
  state ← st_lift (parseModelState text);
  buildStructuredResult state (Z.of_nat (length items)) (retainRecentItems items (RetainedItems cfg)).

Definition ModelAssistedText_Compact (cfg : Config) (items : list Item) : ST cworld Result :=
  cancelled ← check_ctx;
  stop_on cancelled
    (fun w =>
       match compactWithModel cfg items w with
       | (Err _, w1) =>
           (cancelled ← check_ctx;
            match cancelled with
            | Some _ => e ← check_ctx; stop_on e (mret zeroResult)
            | None => Heuristic_Compact items
            end) w1
       | r => r
       end).

(** New: the compactor a configuration selects. *)
Definition New (cfg : Config) : res (list Item -> ST cworld Result) :=
  normalized ← NormalizeConfig cfg;
  if decide (Backend normalized = BackendHeuristic) then Ok Heuristic_Compact
  else if decide (Backend normalized = BackendModelAssistedText) then
    Ok (ModelAssistedText_Compact normalized)
  else Err (EMsg ("unsupported compaction backend " +:+ Quote (Backend normalized))).
End compact.
