(* ===== verification/CompactorProps.v ===== *)
(** * What the compactors guarantee

    The model-assisted compactor always has an answer, whatever the model
    returns, and what the configuration and the retained items come to. *)

From S2P Require Import Prelude GoStr GoFloat GoJson JsonFacts StrFacts GoInt World Items ItemFacts Normalize NormProps Base64 Compaction CompactionProps Compactor.

(** ** A summary that may hold invalid bytes *)

Definition plain_payload (summary : string) (n : Z) : syntheticCompactionPayload :=
  {| cp_Version := 1; cp_Summary := TrimSpace (sanitize (TrimSpace summary)); cp_ItemCount := n;
     cp_Mode := ""; cp_State := None; cp_RetainedItems := [] |}.

Lemma decode_plain summary n : is_int n = true ->
  decodeSyntheticCompactionPayload (EncodeSyntheticCompactionPayload summary n) = Some (plain_payload summary n).
Proof.
  intros Hn. unfold EncodeSyntheticCompactionPayload, EncodeSyntheticCompactionPayloadWithOptions.
  change (isEmptySyntheticCompactionState (normalizeSyntheticCompactionState (op_State zeroOptions))) with true.
  set (p := {| cp_Version := 1 |}).
  assert (Hrt : payload_of (payload_json p) =
    Some {| cp_Version := 1; cp_Summary := sanitize (TrimSpace summary); cp_ItemCount := n; cp_Mode := "";
            cp_State := None; cp_RetainedItems := [] |}).
  { change (payload_json p) with (JObj [("version", JNum (int_text 1)); ("summary", JStr (encode_body (TrimSpace summary)));
      ("item_count", JNum (int_text n))]).
    unfold payload_of. cbn [struct_members]. unfold mbind at 1, option_bind at 1.
    pose proof (int_of_int_text n Hn) as Hi. pose proof (unquote_encode (TrimSpace summary)) as Hs.
    revert Hi Hs. generalize (int_text n) as ln. generalize (encode_body (TrimSpace summary)) as ls. intros ls ln Hi Hs.
    unfold field_int, field_string, field_state, field_raws.
    change (field_values "version" _) with [JNum (int_text 1)]. change (field_values "summary" _) with [JStr ls].
    change (field_values "item_count" _) with [JNum ln]. change (field_values "mode" _) with (@nil json).
    change (field_values "state" _) with (@nil json). change (field_values "retained_items" _) with (@nil json).
    cbn [foldl]. cbn [mbind option_bind]. rewrite Hi, Hs. done. }
  destruct (encoded_content (jprint (payload_json p))) as [Hp Hd].
  assert (Hj : jparse (jprint (payload_json p)) = Some (payload_json p)).
  { apply jparse_jprint, payload_json_wf. apply Forall_nil_2. }
  unfold decodeSyntheticCompactionPayload. rewrite encoded_trimmed, Hp. simpl negb. cbv iota.
  rewrite (obind_Some _ _ _ Hd), (obind_Some _ _ _ Hj), (obind_Some _ _ _ Hrt). done.
Qed.

Section total.
Context `{IdLaws} `{UnicodeTable}.

Lemma new_compaction_ok summary n options k u : uuid_v7 k = Some u ->
  exists item, NewSyntheticCompactionItemWithOptions summary n options k = (Ok item, S k) /\
    Type_ item = "compaction" /\ ID item = "cmp_" +:+ u /\
    StringField item "encrypted_content" = EncodeSyntheticCompactionPayloadWithOptions summary n options.
Proof.
  intros Hu. destruct (prefixed_id_ok "cmp" k u eq_refl Hu) as (Hv & Ht & Hnz).
  change ("cmp" +:+ "_" +:+ u) with ("cmp_" +:+ u) in *.
  destruct (compaction_item (EncodeSyntheticCompactionPayloadWithOptions summary n options) ("cmp_" +:+ u))
    as (item & HN & Hty & HID & Hc); [apply encoded_valid|done|].
  exists item. split.
  { unfold NewSyntheticCompactionItemWithOptions, mbind, st_bind, st_wrap, NewPrefixedID. rewrite Hu.
    cbn [wrap_err]. unfold st_lift. by rewrite <-HN. }
  split; [done|]. split; [by rewrite HID|]. rewrite Hc. apply encoded_trimmed.
Qed.

Lemma plain_expands summary n k u : is_int n = true -> uuid_v7 k = Some u ->
  exists item first, NewSyntheticCompactionItem summary n k = (Ok item, S k) /\ ID item = "cmp_" +:+ u /\
    (Type_ item = "compaction" /\ TrimSpace (ID item) <> "") /\ ExpandSyntheticCompactionItems [item] = Ok [first] /\
    summary_message (renderSyntheticCompactionPayload (plain_payload summary n)) ("cmp_" +:+ u) first.
Proof.
  intros Hn Hu. destruct (new_compaction_ok summary n zeroOptions k u Hu) as (item & HN & Hty & HID & Hc).
  destruct (prefixed_id_ok "cmp" k u eq_refl Hu) as (Hv & Ht & Hnz).
  destruct (expanded_first (renderSyntheticCompactionPayload (plain_payload summary n)) ("cmp_" +:+ u))
    as (first & HW & Hfirst); [apply render_nonempty|done..|].
  exists item, first. split; [done|]. split; [done|].
  split; [split; [done|]; rewrite HID; change ("cmp_" +:+ u) with ("cmp" +:+ "_" +:+ u); by rewrite Ht|]. split; [|done].
  cbn [ExpandSyntheticCompactionItems]. unfold expand_item. rewrite Hty, decide_False by naive_solver.
  rewrite Hc, HID. fold (EncodeSyntheticCompactionPayload summary n). rewrite decode_plain by done.
  cbn [expandSyntheticCompactionPayload plain_payload cp_RetainedItems res_map mbind res_bind].
  change ("cmp" +:+ "_" +:+ u) with ("cmp_" +:+ u) in *.
  rewrite Ht, decide_False by done. unfold expandSyntheticCompactionPayload. cbn [plain_payload cp_RetainedItems res_map].
  cbn [mbind res_bind]. fold (plain_payload summary n). rewrite HW. done.
Qed.

Lemma with_id_no_panic text id : WithID (NewInputTextMessage "system" text) id <> Panic.
Proof.
  unfold WithID. case_decide; [done|]. rewrite input_tree_spec by done.
  unfold WithField. destruct (json_quotable text) eqn:Hq.
  - rewrite Map_text_message by done. unfold WithMap.
    destruct (NewItem _) eqn:E; [done..|]. by apply NewItem_no_panic in E.
  - cbn [Map Raw zeroItem]. unfold WithMap. destruct (NewItem _) eqn:E; [done..|]. by apply NewItem_no_panic in E.
Qed.

Lemma expand_no_panic items : ExpandSyntheticCompactionItems items <> Panic.
Proof.
  induction items as [|i items IH]; [done|]. cbn [ExpandSyntheticCompactionItems].
  assert (Hi : expand_item i <> Panic).
  { unfold expand_item. case_decide; [done|]. destruct (decodeSyntheticCompactionPayload _) as [p|]; [|done].
    unfold expandSyntheticCompactionPayload.
    assert (Hr : res_map UnmarshalJSON (cp_RetainedItems p) <> Panic).
    { induction (cp_RetainedItems p) as [|t ts IHt]; [done|]. simpl.
      destruct (UnmarshalJSON t) eqn:E; simpl; [|done|by apply UnmarshalJSON_no_panic in E].
      by destruct (res_map UnmarshalJSON ts). }
    destruct (res_map UnmarshalJSON _); [|done..]. cbn [mbind res_bind]. case_decide; [done|].
    pose proof (with_id_no_panic (renderSyntheticCompactionPayload p) (TrimSpace (ID i))) as Hw.
    by destruct (WithID _ _). }
  destruct (expand_item i); [|done..]. cbn [mbind res_bind]. by destruct (ExpandSyntheticCompactionItems items).
Qed.
End total.

(** ** What the model says is valid UTF-8 *)

Fixpoint plain (s : string) : bool := match s with "" => true | String a s => (code a <? 128)%N && plain s end.

Lemma plain_valid s : plain s = true -> valid_utf8 s = true.
Proof.
  induction s as [|a s IH]; [done|]. cbn [plain]. intros [Ha%N.ltb_lt Hs]%andb_true_iff.
  change (String a s) with (char_string a +:+ s). apply valid_utf8_app; [|by apply IH].
  unfold valid_utf8, char_string. rewrite chunks_ascii by done. cbn. by rewrite good_not_bad by by apply good1.
Qed.

Lemma plain_app s t : plain (s +:+ t) = plain s && plain t.
Proof. induction s as [|a s IH]; [done|]. rewrite sapp_cons. cbn [plain]. by rewrite IH, andb_assoc. Qed.

Lemma plain_stake n s : plain s = true -> plain (stake n s) = true /\ plain (sdrop n s) = true.
Proof. intros Hs. rewrite <-(stake_sdrop n s), plain_app in Hs. by apply andb_true_iff in Hs. Qed.

Lemma digits_plain s : all_digits s = true -> plain s = true.
Proof.
  induction s as [|a s IH]; [done|]. cbn [all_digits plain]. intros [Ha Hs]%andb_true_iff. rewrite IH by done.
  unfold is_digit in Ha. rng. apply andb_true_iff. split; [apply N.ltb_lt; lia|done].
Qed.

Lemma float_sprint_plain f : plain (float_sprint f) = true.
Proof.
  assert (Hd : forall z, plain (digits z) = true) by (intros z; apply digits_plain; by destruct (int_ok_digits _ (digits_int_ok z))).
  assert (Hf : forall s, plain s = true -> plain (frac_part s) = true) by (intros s Hs; by destruct s).
  unfold float_sprint. destruct (_ =? 0)%Z; [by destruct (f_neg f)|]. destruct (shortest f) as [d e].
  rewrite plain_app. apply andb_true_iff. split; [by destruct (f_neg f)|].
  destruct (_ || _).
  - rewrite !plain_app. rewrite (proj1 (plain_stake _ _ (Hd _))), Hf, Hd by apply (plain_stake _ _ (Hd _)).
    by repeat case_match.
  - unfold format_f. destruct (0 <=? e)%Z; [apply Hd|]. rewrite plain_app, Hd, Hf; [done|].
    by apply digits_plain, strip_zeros_end_all, fixed_digits_all.
Qed.

Lemma sjoin_valid sep l : valid_utf8 sep = true -> Forall (fun s => valid_utf8 s = true) l -> valid_utf8 (sjoin sep l) = true.
Proof.
  intros Hsep. induction 1 as [|s [|s' l] Hs Hl IH]; [done..|]. rewrite sjoin_cons. by repeat apply valid_utf8_app.
Qed.

Lemma model_object_valid obj : gwf_map obj = true -> valid_utf8 (modelStringFromObject obj) = true.
Proof.
  intros [_ Hg]%andb_true_iff. rewrite forallb_forall in Hg.
  assert (Hf : forall key, valid_utf8 (TrimSpace (modelObjectStringField obj key)) = true).
  { intros key. apply TrimSpace_valid. unfold modelObjectStringField. destruct (am_lookup key obj) as [v|] eqn:E; [|done].
    apply am_lookup_elem, list_elem_of_In, Hg, andb_true_iff in E as [_ Hv]. simpl in Hv.
    destruct v as [|b|f|t| |]; try done; [by destruct b|]. by apply plain_valid, float_sprint_plain. }
  assert (Hfirst : forall keys value, first_text obj keys = Some value -> valid_utf8 value = true).
  { induction keys as [|key keys IH]; intros value; [done|]. cbn [first_text]. cbv zeta. case_decide; [apply IH|by intros [= <-]]. }
  unfold modelStringFromObject. cbv zeta. destruct (first_text obj _) as [value|] eqn:E.
  - apply Hfirst in E. case_decide; [|done]. by repeat apply valid_utf8_app.
  - assert (Hj : valid_utf8 (sjoin "; " (filter (fun value => value <> "")
      (map (fun key => TrimSpace (modelObjectStringField obj key)) (filter (fun key => key <> "id") (am_keys obj))))) = true).
    { apply sjoin_valid; [done|]. apply Forall_forall. intros x [_ Hx]%list_elem_of_filter.
      apply list_elem_of_fmap in Hx as (key & -> & _). apply Hf. }
    case_decide; [|done]. by repeat apply valid_utf8_app.
Qed.

Lemma string_of_valid t s : string_of t = Some s -> valid_utf8 s = true.
Proof. destruct t; simpl; try done; [by intros [= <-]|]. intros [= <-]. apply unquote_valid. Qed.

Lemma field_string_valid name l s : field_string name l = Some s -> valid_utf8 s = true.
Proof.
  unfold field_string. generalize (field_values name l) as ts.
  assert (Hg : forall ts o, (forall v, o = Some v -> valid_utf8 v = true) ->
    foldl (fun o t => s ← o; match t with JNull => Some s | JStr lit => Some (unquote lit) | _ => None end) o ts = Some s ->
    valid_utf8 s = true).
  { induction ts as [|t ts IH]; intros o Ho; cbn [foldl]; [apply Ho|]. apply IH. intros v (u & Hu & Hv)%bind_Some.
    destruct t; try done; injection Hv as <-; [by apply Ho|apply unquote_valid]. }
  intros ts. apply Hg. by intros v [= <-].
Qed.

Lemma modelStringList_valid t l : modelStringList t = Ok l -> forallb valid_utf8 l = true.
Proof.
  assert (He : forall raw s, modelStringListEntry raw = Ok s -> valid_utf8 s = true).
  { intros raw s. unfold modelStringListEntry. destruct (string_of raw) as [x|] eqn:E.
    - intros [= <-]. by eapply TrimSpace_valid, string_of_valid.
    - destruct (any_map raw) as [[obj|]|] eqn:Ea; try done. intros [= <-]. by eapply model_object_valid, any_map_gwf. }
  unfold modelStringList. destruct t; try done; [by intros [= <-]|]. simpl.
  intros (values & Hv & [= <-])%res_bind_ok. apply res_map_ok_iff in Hv. rewrite forallb_forall.
  intros x Hx%list_elem_of_In. apply list_elem_of_filter in Hx as [_ Hx].
  apply list_elem_of_lookup in Hx as [i Hi]. destruct (Forall2_lookup_r _ _ _ _ _ Hv Hi) as (raw & _ & Hr). by eapply He.
Qed.

Lemma field_model_list_valid name l values : field_model_list name l = Ok values -> forallb valid_utf8 values = true.
Proof.
  unfold field_model_list. generalize (field_values name l) as ts.
  assert (Hg : forall ts o, (forall v, o = Ok v -> forallb valid_utf8 v = true) -> forall values,
    foldl (fun o t => _ ← o; modelStringList t) o ts = Ok values -> forallb valid_utf8 values = true).
  { induction ts as [|t ts IH]; intros o Ho v; cbn [foldl]; [apply Ho|]. apply IH. intros v' (u & _ & Hv)%res_bind_ok.
    by eapply modelStringList_valid. }
  intros ts. apply Hg. by intros v [= <-].
Qed.

Lemma parseModelState_ok text state : parseModelState text = Ok state -> state_ok state = true.
Proof.
  unfold parseModelState. destruct (extractJSONObject text); [|done]. cbv zeta. destruct (_ ≫= _) as [l|]; [|done].
  destruct (field_string "summary" l) as [summary|] eqn:Es; [|done].
  destruct (field_model_list "key_facts" l) as [a| |] eqn:E1; [|done..]. destruct (field_model_list "constraints" l) as [b| |] eqn:E2; [|done..].
  destruct (field_model_list "open_loops" l) as [c| |] eqn:E3; [|done..]. destruct (field_model_list "recent_tool_state" l) as [d| |] eqn:E4; [|done..].
  case_decide; [done|]. intros [= <-]. unfold state_ok. cbn [st_Summary st_KeyFacts st_Constraints st_OpenLoops st_RecentToolState].
  by rewrite (field_string_valid _ _ _ Es), (field_model_list_valid _ _ _ E1), (field_model_list_valid _ _ _ E2),
    (field_model_list_valid _ _ _ E3), (field_model_list_valid _ _ _ E4).
Qed.

Section claims.
Context `{IdLaws} `{UnicodeTable} `{RequestContext} `{TextModel}.

Lemma Heuristic_Compact_ok items w u : is_int (Z.of_nat (length items)) = true ->
  ctx_Err (cw_checks w) = None -> uuid_v7 (cw_ids w) = Some u ->
  exists result first, Heuristic_Compact items w =
    (Ok result, {| cw_ids := S (cw_ids w); cw_checks := S (cw_checks w) |}) /\
    ID (rs_Item result) = "cmp_" +:+ u /\ (Type_ (rs_Item result) = "compaction" /\ TrimSpace (ID (rs_Item result)) <> "") /\
    rs_Output result = [rs_Item result] /\ rs_Expanded result = [first] /\
    summary_message (renderSyntheticCompactionPayload
      (plain_payload (BuildSyntheticCompactionSummary items) (Z.of_nat (length items)))) ("cmp_" +:+ u) first /\
    ExpandSyntheticCompactionItems [rs_Item result] = Ok [first].
Proof.
  intros Hn Hc Hu. destruct (plain_expands (BuildSyntheticCompactionSummary items) _ _ _ Hn Hu)
    as (item & first & HN & HID & Hty & HE & Hf).
  exists {| rs_Item := item; rs_Output := [item]; rs_Expanded := [first] |}, first.
  split; [|done]. unfold Heuristic_Compact, mbind, st_bind, check_ctx, cw_draw, st_lift, stop_on.
  rewrite Hc. cbn [cw_ids cw_checks]. by rewrite HN, HE.
Qed.

Lemma compactWithModel_no_panic cfg items w : (forall m ms o, generate m ms o <> Panic) ->
  forall w', compactWithModel cfg items w <> (Panic, w').
Proof.
  intros Hg w'. unfold compactWithModel, mbind, st_bind, st_lift.
  destruct (generate _ _ _) as [text|e|] eqn:Eg; [|done|by apply Hg in Eg].
  destruct (parseModelState text) as [state|e|] eqn:Ep; [|done|].
  2: { revert Ep. unfold parseModelState. by repeat case_match. }
  unfold buildStructuredResult, mbind, st_bind, cw_draw, st_lift.
  assert (Hnew : forall s n o k k', NewSyntheticCompactionItemWithOptions s n o k <> (Panic, k')).
  { intros s n o k k'. unfold NewSyntheticCompactionItemWithOptions, mbind, st_bind, st_wrap, NewPrefixedID, st_lift.
    destruct (uuid_v7 k); simpl; [|done]. intros [= Hp _]. by apply NewItem_no_panic in Hp. }
  destruct (NewSyntheticCompactionItemWithOptions _ _ _ _) as [[item|e|] k1] eqn:E1;
    [|done|by apply Hnew in E1].
  destruct (ExpandSyntheticCompactionItems [item]) eqn:E2; [|done|by apply expand_no_panic in E2].
  destruct (decide (retainRecentItems _ _ = [])); [done|].
  match goal with |- context [NewSyntheticCompactionItemWithOptions ?a ?b ?c ?d] =>
    destruct (NewSyntheticCompactionItemWithOptions a b c d) as [[item2|e|] k2] eqn:E3;
    [done|done|by apply Hnew in E3] end.
Qed.
End claims.

(** What the model answers to the transcript of the items. *)
Definition model_answer `{UnicodeTable} `{TextModel} (cfg : Config) (items : list Item) : res SyntheticCompactionState :=
  let transcript := BuildSyntheticCompactionTranscript items (Z.of_nat (length items)) (MaxInputRunes cfg) in
  let transcript := if decide (TrimSpace transcript = "") then no_context else transcript in
  text ← generate (Model cfg) [NewInputTextMessage "system" modelAssistedSystemPrompt;
                               NewInputTextMessage "user" (modelAssistedUserPrompt transcript)]
           [("temperature", JNum "0"); ("max_output_tokens", JNum (int_text (MaxOutputTokens cfg)))];
  parseModelState text.

(** [l] is the last [n] of the items, or all of them. *)
Definition most_recent (n : Z) (items l : list Item) : Prop :=
  (exists older, items = older ++ l) /\ Z.of_nat (length l) = Z.max 0 (Z.min n (Z.of_nat (length items))).

(** The compaction [item] expands to a message with the summary and the state, and
    then the items it retains. *)
Definition expands_to `{UnicodeTable} (item : Item) (payload : syntheticCompactionPayload) (retained expanded : list Item) : Prop :=
  (Type_ item = "compaction" /\ TrimSpace (ID item) <> "") /\
  exists first, ExpandSyntheticCompactionItems [item] = Ok expanded /\
    expanded = first :: map (fun i => escaped (set_meta i None)) retained /\
    summary_message (renderSyntheticCompactionPayload payload) (ID item) first.

Definition state_options (state : SyntheticCompactionState) (retained : list Item) : SyntheticCompactionOptions :=
  {| op_Mode := BackendModelAssistedText; op_State := state; op_RetainedItems := retained |}.

(** The result for an answer of the model: the state in one item that retains the
    most recent items, and for the client those items and the state. *)
Definition model_result `{UnicodeTable} (cfg : Config) (items : list Item) (state : SyntheticCompactionState) (result : Result) : Prop :=
  exists retained, most_recent (RetainedItems cfg) items retained /\
    let payload kept := compaction_payload (TrimSpace (st_Summary state)) (Z.of_nat (length items)) (state_options state kept) in
    expands_to (rs_Item result) (payload retained) retained (rs_Expanded result) /\
    exists output expanded, rs_Output result = retained ++ [output] /\ expands_to output (payload []) [] expanded.

Definition heuristic_result `{UnicodeTable} (items : list Item) (result : Result) : Prop :=
  rs_Output result = [rs_Item result] /\
  expands_to (rs_Item result) (plain_payload (BuildSyntheticCompactionSummary items) (Z.of_nat (length items))) [] (rs_Expanded result).

Lemma retained_recent items n : most_recent n items (retainRecentItems items n).
Proof.
  unfold most_recent, retainRecentItems. case_decide as Hd.
  - split; [exists items; by rewrite app_nil_r|]. destruct Hd as [?| ->]; simpl; lia.
  - cbv zeta. set (st := if (_ <? 0)%Z then 0%Z else _). split; [exists (take (Z.to_nat st) items); by rewrite take_drop|].
    rewrite length_drop. assert (items <> [] /\ (0 < n)%Z) as [Hne Hn] by (split; [tauto|lia]). destruct items; [done|].
    subst st. destruct (Z.ltb_spec (Z.of_nat (length (i :: items)) - n) 0); simpl length in *; lia.
Qed.

Section model_branch.
Context `{IdLaws} `{UnicodeTable} `{RequestContext} `{TextModel}.
Hypothesis ids_drawn : forall k, is_Some (uuid_v7 k).

Lemma drawn_compaction summary n state retained w : is_int n = true -> valid_utf8 summary = true -> state_ok state = true ->
  Forall printable_item retained -> Forall item_inv retained ->
  exists item w' expanded, cw_draw (NewSyntheticCompactionItemWithOptions summary n (state_options state retained)) w = (Ok item, w') /\
    expands_to item (compaction_payload summary n (state_options state retained)) retained expanded.
Proof.
  intros Hn Hs Hst Hp Hi. destruct (ids_drawn (cw_ids w)) as [u Hu].
  destruct (compaction_expands_to summary n (state_options state retained) (cw_ids w) u Hn Hs) as (item & first & HN & Hty & HID & Hf & HE);
    [by split_and!|done|done|]. destruct (prefixed_id_ok "cmp" (cw_ids w) u eq_refl Hu) as (_ & Ht & Hnz).
  change ("cmp" +:+ "_" +:+ u) with ("cmp_" +:+ u) in *.
  eexists item, _, _. split; [unfold cw_draw; by rewrite HN|]. split; [split; [done|]; by rewrite HID, Ht|]. exists first. split; [exact HE|]. split; [done|]. by rewrite HID.
Qed.

Lemma buildStructuredResult_ok cfg items state w : is_int (Z.of_nat (length items)) = true -> state_ok state = true ->
  TrimSpace (st_Summary state) <> "" -> Forall printable_item items -> Forall item_inv items ->
  exists result w', buildStructuredResult state (Z.of_nat (length items)) (retainRecentItems items (RetainedItems cfg)) w = (Ok result, w') /\
    model_result cfg items state result.
Proof.
  intros Hn Hst Hne Hp Hi. pose proof (retained_recent items (RetainedItems cfg)) as Hrec.
  set (retained := retainRecentItems items (RetainedItems cfg)) in *. destruct Hrec as [[older Hold] Hlen].
  rewrite Hold in Hp, Hi. apply Forall_app in Hp as [_ Hp], Hi as [_ Hi].
  assert (Hs : valid_utf8 (TrimSpace (st_Summary state)) = true).
  { apply TrimSpace_valid. unfold state_ok in Hst. rewrite !andb_true_iff in Hst. tauto. }
  unfold buildStructuredResult. cbv zeta. rewrite decide_False by done. fold (state_options state retained).
  destruct (drawn_compaction _ _ state retained w Hn Hs Hst Hp Hi) as (item & w1 & expanded & Hd & Hx).
  rewrite (st_bind_run _ _ _ _ _ Hd). pose proof Hx as (_ & first & HE & _). unfold st_lift at 1. rewrite HE.
  unfold mbind at 1, st_bind at 1. destruct (decide (retained = [])) as [Hr|Hr].
  - eexists _, _. split; [reflexivity|]. exists retained. split; [by split; [exists older|]|]. cbv zeta. split; [exact Hx|].
    exists item, expanded. rewrite Hr in *. by split.
  - fold (state_options state []). destruct (drawn_compaction _ _ state [] w1 Hn Hs Hst (Forall_nil_2 _) (Forall_nil_2 _))
      as (output & w2 & expanded' & Hd' & Hx').
    rewrite !st_bind_eq, Hd'. eexists _, _. split; [reflexivity|]. exists retained. split; [by split; [exists older|]|]. cbv zeta.
    split; [exact Hx|]. by exists output, expanded'.
Qed.

Lemma compactWithModel_ok cfg items w state : model_answer cfg items = Ok state -> is_int (Z.of_nat (length items)) = true ->
  Forall printable_item items -> Forall item_inv items ->
  exists result w', compactWithModel cfg items w = (Ok result, w') /\ model_result cfg items state result.
Proof.
  intros (text & Hg & Hs)%res_bind_ok Hn Hp Hi. unfold compactWithModel. cbv zeta. rewrite st_bind_eq. unfold st_lift at 1.
  rewrite Hg, st_bind_eq. unfold st_lift at 1. rewrite Hs. apply buildStructuredResult_ok; [done|by eapply parseModelState_ok| |done..].
  unfold parseModelState in Hs. cbv zeta in Hs. repeat case_match; try done; by simplify_eq.
Qed.

Lemma compactWithModel_fails cfg items w : (forall state, model_answer cfg items <> Ok state) ->
  exists r, compactWithModel cfg items w = (r, w) /\ is_ok r = false.
Proof.
  unfold model_answer, compactWithModel. cbv zeta. intros Ha. rewrite st_bind_eq. unfold st_lift at 1.
  destruct (generate _ _ _) as [text|e|]; [|by eexists..]. rewrite st_bind_eq. unfold st_lift at 1. simpl in Ha.
  destruct (parseModelState text) as [state|e|]; [by destruct (Ha state)|by eexists..].
Qed.
End model_branch.

(** What the compactors of the service return for items. *)
Definition compaction_of `{UnicodeTable} (items : list Item) (result : Result) : Prop :=
  heuristic_result items result \/ exists cfg state, model_result cfg items state result.

Section compactors.
Context `{IdLaws} `{UnicodeTable} `{RequestContext} `{TextModel}.

Lemma Heuristic_Compact_returns items w result w' : Heuristic_Compact items w = (Ok result, w') ->
  is_int (Z.of_nat (length items)) = true -> heuristic_result items result.
Proof.
  intros Hh Hn. assert (ctx_Err (cw_checks w) = None) as Hc.
  { unfold Heuristic_Compact, mbind, st_bind, check_ctx, stop_on in Hh. by destruct (ctx_Err (cw_checks w)). }
  destruct (uuid_v7 (cw_ids w)) as [u|] eqn:Hu.
  - destruct (Heuristic_Compact_ok items w u Hn Hc Hu) as (result' & first & HH & HID & Hty & HO & HE & Hf & HX).
    rewrite Hh in HH. injection HH as -> _. split; [done|]. split; [done|]. exists first. rewrite HID, HE. by split_and!.
  - unfold Heuristic_Compact, mbind, st_bind, check_ctx, stop_on in Hh. rewrite Hc in Hh. unfold cw_draw, NewSyntheticCompactionItem,
      NewSyntheticCompactionItemWithOptions, st_wrap, NewPrefixedID, mbind, st_bind in Hh. cbn [cw_ids] in Hh. by rewrite Hu in Hh.
Qed.

Lemma ModelAssistedText_Compact_returns cfg items w result w' : (forall k, is_Some (uuid_v7 k)) ->
  (forall n, ctx_Err n <> None -> ctx_Err (S n) <> None) ->
  ModelAssistedText_Compact cfg items w = (Ok result, w') -> is_int (Z.of_nat (length items)) = true ->
  Forall printable_item items -> Forall item_inv items -> compaction_of items result.
Proof.
  intros Hid Hcancel Hm Hn Hp Hi. unfold ModelAssistedText_Compact in Hm. rewrite st_bind_eq in Hm. unfold check_ctx at 1 in Hm.
  unfold stop_on at 1 in Hm. destruct (ctx_Err (cw_checks w)); [done|]. set (w1 := {| cw_ids := cw_ids w |}) in Hm.
  destruct (model_answer cfg items) as [state|e|] eqn:Ea.
  { destruct (compactWithModel_ok Hid cfg items w1 state Ea Hn Hp Hi) as (result' & w2 & E & Hr).
    rewrite E in Hm. injection Hm as <- _. right. eauto. }
  all: destruct (compactWithModel_fails cfg items w1) as (r & E & Hr); [by rewrite Ea|]; rewrite E in Hm; destruct r; [done| |done];
    rewrite st_bind_eq in Hm; unfold check_ctx at 1 in Hm; unfold stop_on in Hm; destruct (ctx_Err (cw_checks w1)) eqn:Ec;
    [specialize (Hcancel (cw_checks w1)); rewrite Ec in Hcancel; rewrite st_bind_eq in Hm; unfold check_ctx in Hm; cbn [cw_checks] in Hm;
     cbn [w1 cw_checks] in Hcancel; destruct (ctx_Err _) in Hm, Hcancel; [done|by destruct Hcancel]|];
    left; by eapply Heuristic_Compact_returns.
Qed.
End compactors.

(** C36 (liveness): as long as the request is not cancelled and identifiers can
    be drawn, model-assisted compaction of well-formed items returns a result
    whatever the model does.  When the model answers with a state, the result is
    an item that expands to a message with that state and the most recent items,
    and for the client those items and an item that expands to the message; when
    it does not, it is the heuristic summary, in one item that expands to one
    message. *)
Theorem ModelAssistedText_Compact_answers `{IdLaws} `{UnicodeTable} `{RequestContext} `{TextModel} cfg items w :
  (forall m ms o, generate m ms o <> Panic) -> (forall n, ctx_Err n = None) -> (forall k, is_Some (uuid_v7 k)) ->
  is_int (Z.of_nat (length items)) = true -> Forall printable_item items -> Forall item_inv items ->
  exists result w', ModelAssistedText_Compact cfg items w = (Ok result, w') /\
    match model_answer cfg items with
    | Ok state => model_result cfg items state result
    | _ => heuristic_result items result
    end.
Proof.
  intros Hg Hc Hid Hn Hp Hi. unfold ModelAssistedText_Compact, mbind at 1, st_bind at 1, check_ctx at 1.
  rewrite Hc. cbn [stop_on]. set (w1 := {| cw_ids := cw_ids w |}).
  destruct (model_answer cfg items) as [state|e|] eqn:Ea.
  { destruct (compactWithModel_ok Hid cfg items w1 state Ea Hn Hp Hi) as (result & w' & E & Hr). exists result, w'. by rewrite E. }
  all: destruct (compactWithModel_fails cfg items w1) as (r & E & Hr); [by rewrite Ea|]; rewrite E;
    destruct r as [|e'|]; [done| |by apply compactWithModel_no_panic in E];
    destruct (Hid (cw_ids w1)) as [u Hu];
    destruct (Heuristic_Compact_ok items {| cw_ids := cw_ids w1; cw_checks := S (cw_checks w1) |} u Hn (Hc _) Hu)
      as (result & first & HH & HID & Hty & HO & HE & Hf & HX);
    exists result; eexists; (split; [unfold mbind, st_bind, check_ctx at 1; rewrite Hc; exact HH|]);
    (split; [exact HO|]); (split; [exact Hty|]); exists first; rewrite HID, HE; by split_and!.
Qed.

Definition never_cancelled : RequestContext := {| ctx_Err _ := None |}.
(** A model that answers in prose. *)
Definition chatty : TextModel := {| generate _ _ _ := Ok "Sure! Here is a summary." |}.

Definition demo_config : Config :=
  {| Backend := BackendModelAssistedText; BaseURL := "http://model"; Model := "m"; Timeout := 1;
     MaxOutputTokens := 10; RetainedItems := 1; MaxInputRunes := 100 |}.

Definition heuristic_config : Config :=
  {| Backend := BackendHeuristic; BaseURL := ""; Model := ""; Timeout := 0; MaxOutputTokens := 0; RetainedItems := 0;
     MaxInputRunes := 0 |}.

(** A model that answers with a state. *)
Definition orderly : TextModel := {| generate _ _ _ := Ok (sq "{'summary':'talk','key_facts':['a']}") |}.

Lemma demo_kept_printable : Forall printable_item [demo_kept].
Proof. constructor; [vm_compute; reflexivity|constructor]. Qed.

Lemma ModelAssistedText_Compact_answers_witness :
  let w := {| cw_ids := 0; cw_checks := 0 |} in
  (exists result w',
    @ModelAssistedText_Compact zeros_ids ascii_only never_cancelled chatty demo_config [demo_kept] w = (Ok result, w') /\
    @heuristic_result ascii_only [demo_kept] result) /\
  exists result w',
    @ModelAssistedText_Compact zeros_ids ascii_only never_cancelled orderly demo_config [demo_kept] w = (Ok result, w') /\
    @model_result ascii_only demo_config [demo_kept] {| st_Summary := "talk"; st_KeyFacts := ["a"]; st_Constraints := [];
      st_OpenLoops := []; st_RecentToolState := [] |} result.
Proof.
  split; [apply (@ModelAssistedText_Compact_answers zeros_ids zeros_ids_laws ascii_only never_cancelled chatty
           demo_config [demo_kept] {| cw_ids := 0; cw_checks := 0 |})
         |apply (@ModelAssistedText_Compact_answers zeros_ids zeros_ids_laws ascii_only never_cancelled orderly
           demo_config [demo_kept] {| cw_ids := 0; cw_checks := 0 |})];
    first [done|by eexists|apply demo_kept_printable|exact (Forall_cons_2 _ _ _ demo_kept_inv (Forall_nil_2 _))].
Defined.

(** Fact (bounds): a configuration that is accepted selects one of the two
    backends; the model-assisted one then has an address, a model and positive
    limits, so that the retained items are at most as many as configured and
    are the most recent ones. *)
Theorem NormalizeConfig_bounds `{UnicodeTable} cfg items :
  match NormalizeConfig cfg with
  | Ok c =>
      Backend c = BackendHeuristic \/
      (Backend c = BackendModelAssistedText /\ BaseURL c <> "" /\ Model c <> "" /\
       (0 < Timeout c /\ 0 < MaxOutputTokens c /\ 0 < RetainedItems c /\ 0 < MaxInputRunes c)%Z /\
       exists older, items = older ++ retainRecentItems items (RetainedItems c) /\
         (Z.of_nat (length (retainRecentItems items (RetainedItems c))) =
          Z.min (Z.of_nat (length items)) (RetainedItems c))%Z)
  | Err _ => ToLower (TrimSpace (Backend cfg)) <> BackendHeuristic /\ ToLower (TrimSpace (Backend cfg)) <> ""
  | Panic => False
  end.
Proof.
  unfold NormalizeConfig. set (b := ToLower (TrimSpace (Backend cfg))).
  set (b' := if decide (b = "") then BackendHeuristic else b).
  assert (Hb : b' <> BackendHeuristic -> b <> BackendHeuristic /\ b <> "").
  { subst b'. case_decide as Hd; [done|]. intros ?. done. }
  destruct (decide (b' = BackendHeuristic)) as [He|He]; [by left|].
  destruct (decide (b' = BackendModelAssistedText)) as [Hm|Hm]; [|by apply Hb].
  destruct (decide (trim_right_slash _ = "")); [by apply Hb|].
  destruct (decide (TrimSpace (Model cfg) = "")); [by apply Hb|].
  right. cbn [Backend BaseURL Model Timeout MaxOutputTokens RetainedItems MaxInputRunes].
  set (k := if (_ =? 0)%Z then defaultRetainedItems else _).
  assert (Hk : (0 < k)%Z).
  { subst k. destruct (Z.ltb_spec (RetainedItems cfg) 0); [done|].
    destruct (Z.eqb_spec (RetainedItems cfg) 0); [done|]. lia. }
  split; [done|]. split; [done|]. split; [done|]. split.
  - repeat split; [destruct (Z.leb_spec (Timeout cfg) 0)|destruct (Z.leb_spec (MaxOutputTokens cfg) 0)| |
      destruct (Z.leb_spec (MaxInputRunes cfg) 0)]; done.
  - destruct (retained_recent items k) as [[older Ho] Hl]. exists older. split; [done|]. rewrite Hl. lia.
Qed.
