(* ===== verification/Memory.v ===== *)
(** * Memory notes

    internal/memory/config.go, internal/domain/memory.go,
    internal/storage/sqlite/memory.go and internal/service/memory.go: the notes
    a request's metadata asks to remember, how they are stored, and the bounded
    text later requests get to see.

    The notes live in the table [memory_notes] of Store.  [input] stands for
    the fields of CreateResponseInput this code reads; the time is an argument. *)

From S2P Require Import Prelude GoStr GoFloat GoJson JsonFacts GoInt GoTime World Items Normalize Context Store.

(** ** memory/config.go *)

Definition BackendDisabled : string := "disabled".
Definition BackendLocal : string := "local".
Definition DefaultMetadataNamespace : string := "llama_shim.memory".

Record Config := {
  Backend : string;
  Inject : bool;
  MaxNotes : Z;
  MaxNoteBytes : Z;
  MaxContextBytes : Z;
  MetadataNamespace : string
}.

Definition defaultMaxNotes : Z := 8.
Definition defaultMaxNoteBytes : Z := 2048.
Definition defaultMaxContextBytes : Z := 8192.

Definition namespace_or_default (s : string) : string :=
  let namespace := TrimChar (TrimSpace s) (chr 46) in
  if decide (namespace = "") then DefaultMetadataNamespace else namespace.

Definition NormalizeConfig `{UnicodeTable} (cfg : Config) : res Config :=
  let backend := ToLower (TrimSpace (Backend cfg)) in
  let backend := if decide (backend = "") then BackendDisabled else backend in
  if decide (backend = BackendDisabled \/ backend = BackendLocal) then
    Ok {| Backend := backend;
          Inject := if decide (backend = BackendDisabled) then false else Inject cfg;
          MaxNotes := if (MaxNotes cfg <=? 0)%Z then defaultMaxNotes else MaxNotes cfg;
          MaxNoteBytes := if (MaxNoteBytes cfg <=? 0)%Z then defaultMaxNoteBytes else MaxNoteBytes cfg;
          MaxContextBytes := if (MaxContextBytes cfg <=? 0)%Z then defaultMaxContextBytes else MaxContextBytes cfg;
          MetadataNamespace := namespace_or_default (MetadataNamespace cfg) |}
  else Err (EMsg ("unsupported memory backend " +:+ Quote (Backend cfg))).

Definition Enabled (c : Config) : bool := EqualFold (TrimSpace (Backend c)) BackendLocal.

(** ** domain/memory.go *)

Record MemoryNote := {
  mn_ID : string;
  mn_Scope : string;
  mn_SessionID : string;
  mn_Text : string;
  mn_Source : string;
  mn_SourceResponseID : string;
  mn_Metadata : list (string * string);
  mn_CreatedAt : string;
  mn_UpdatedAt : string;
  mn_LastUsedAt : string
}.

Record ListMemoryNotesQuery := {
  mq_SessionID : string;
  mq_IncludeGlobal : bool;
  mq_Limit : Z
}.

(** ** storage/sqlite/memory.go *)

Definition marshalMemoryMetadata (metadata : list (string * string)) : string :=
  match metadata with
  | [] => "{}"
  | _ => jprint (JObj (map (fun kv => (encode_body kv.1, json_str kv.2)) metadata))
  end.

Definition unmarshalMemoryMetadata (raw : string) : res (list (string * string)) :=
  if decide (TrimSpace raw = "") then Ok []
  else match jparse raw ≫= string_map with
       | None => Err (EWrap "unmarshal memory metadata" (EDecode "metadata"))
       | Some metadata => Ok metadata
       end.

(** [created_at] is not among the columns the conflict clause updates. *)
Definition upsert_note (id : string) (row : memory_row) (db : DB) : res (unit * DB) :=
  let row := match memory_notes db !! id with
             | None => row
             | Some old =>
                 {| mr_scope := mr_scope row; mr_session_id := mr_session_id row; mr_text := mr_text row;
                    mr_source := mr_source row; mr_source_response_id := mr_source_response_id row;
                    mr_metadata_json := mr_metadata_json row; mr_created_at := mr_created_at old;
                    mr_updated_at := mr_updated_at row; mr_last_used_at := mr_last_used_at row |}
             end in
  Ok (tt, set_memory db (<[id := row]> (memory_notes db))).

(** [UPDATE memory_notes SET last_used_at = ? WHERE id = ?] *)
Definition touch_note (lastUsedAt id : string) (db : DB) : res (unit * DB) :=
  Ok (tt, set_memory db (alter (fun row =>
    {| mr_scope := mr_scope row; mr_session_id := mr_session_id row; mr_text := mr_text row;
       mr_source := mr_source row; mr_source_response_id := mr_source_response_id row;
       mr_metadata_json := mr_metadata_json row; mr_created_at := mr_created_at row;
       mr_updated_at := mr_updated_at row; mr_last_used_at := lastUsedAt |}) id (memory_notes db))).

(** ORDER BY updated_at DESC, id DESC, on text. *)
Definition str_le (a b : string) : bool :=
  match String.compare a b with Gt => false | _ => true end.
Definition newer_first (a b : string * memory_row) : bool :=
  match String.compare (mr_updated_at b.2) (mr_updated_at a.2) with
  | Lt => true
  | Eq => str_le b.1 a.1
  | Gt => false
  end.

Definition note_in_scope (includeGlobal : bool) (sessionID : string) (row : memory_row) : bool :=
  includeGlobal && bool_decide (mr_scope row = "global") ||
  bool_decide (sessionID <> "") && bool_decide (mr_scope row = "session") &&
  bool_decide (mr_session_id row = sessionID).

Definition scanMemoryNote (r : string * memory_row) : res MemoryNote :=
  metadata ← unmarshalMemoryMetadata (mr_metadata_json r.2);
  Ok {| mn_ID := r.1; mn_Scope := mr_scope r.2; mn_SessionID := mr_session_id r.2; mn_Text := mr_text r.2;
        mn_Source := mr_source r.2; mn_SourceResponseID := mr_source_response_id r.2; mn_Metadata := metadata;
        mn_CreatedAt := mr_created_at r.2; mn_UpdatedAt := mr_updated_at r.2; mn_LastUsedAt := mr_last_used_at r.2 |}.

Section store.
Context `{Sqlite}.

Definition SaveMemoryNote (note : MemoryNote) : ST world unit :=
  let metadataJSON := marshalMemoryMetadata (mn_Metadata note) in
  exec "upsert memory note" (fun _ => upsert_note (TrimSpace (mn_ID note))
    {| mr_scope := TrimSpace (mn_Scope note); mr_session_id := TrimSpace (mn_SessionID note);
       mr_text := mn_Text note; mr_source := TrimSpace (mn_Source note);
       mr_source_response_id := TrimSpace (mn_SourceResponseID note); mr_metadata_json := metadataJSON;
       mr_created_at := mn_CreatedAt note; mr_updated_at := mn_UpdatedAt note;
       mr_last_used_at := mn_LastUsedAt note |}).

(** Every one of the three queries selects with [note_in_scope]. *)
Definition ListMemoryNotes (q : ListMemoryNotesQuery) : ST world (list MemoryNote) :=
  let limit := if (mq_Limit q <=? 0)%Z then 8%Z else mq_Limit q in
  let sessionID := TrimSpace (mq_SessionID q) in
  if mq_IncludeGlobal q || bool_decide (sessionID <> "") then
    rows ← query "query memory notes" (fun db =>
      sql_limit limit (sort_by newer_first
        (filter (fun r => note_in_scope (mq_IncludeGlobal q) sessionID r.2 = true)
                (map_to_list (memory_notes db)))));
    st_lift (res_map scanMemoryNote rows)
  else mret [].

(** The loop of TouchMemoryNotes. *)
Fixpoint touch_loop (ids : list string) (lastUsedAt : string) : ST world unit :=
  match ids with
  | [] => mret tt
  | id :: ids =>
      let id := TrimSpace id in
      if decide (id = "") then touch_loop ids lastUsedAt
      else _ ← exec ("touch memory note " +:+ id) (fun _ => touch_note lastUsedAt id);
           touch_loop ids lastUsedAt
  end.

Definition TouchMemoryNotes (ids : list string) (lastUsedAt : string) : ST world unit :=
  match ids with
  | [] => mret tt
  | _ => transaction "begin memory touch tx" "commit memory touch tx"
           (_ ← query "prepare memory touch" (fun _ => tt); touch_loop ids lastUsedAt)
  end.
End store.

(** ** service/memory.go *)

Definition memoryMetadataSessionID : string := "session_id".
Definition memoryMetadataRemember : string := "remember".
Definition memoryMetadataNote : string := "note".
Definition memoryMetadataScope : string := "scope".
Definition memoryMetadataInject : string := "inject".

Record input := {
  in_Metadata : string;
  in_ConversationID : string;
  in_ForceShadowStore : bool
}.

(** The loop of trimStringBytes. *)
Fixpoint trim_runes (used : nat) (maxBytes : Z) (cs : list chunk) : string :=
  match cs with
  | [] => ""
  | c :: cs =>
      let next := chunk_utf8 c in
      if (maxBytes <? Z.of_nat (used + String.length next))%Z then ""
      else next +:+ trim_runes (used + String.length next) maxBytes cs
  end.

Definition trimStringBytes (text : string) (maxBytes : Z) : string :=
  if decide ((maxBytes <= 0)%Z \/ text = "") then ""
  else if (byte_len text <=? maxBytes)%Z then text
  else trim_runes 0 maxBytes (chunks text).

(** The builder after the call, and what the call returns. *)
Definition appendBoundedString (builder text : string) (maxBytes : Z) : string * bool :=
  let remaining := (maxBytes - byte_len builder)%Z in
  if (remaining <=? 0)%Z then (builder, false)
  else if (byte_len text <=? remaining)%Z then (builder +:+ text, true)
  else (builder +:+ trimStringBytes text remaining, false).

Definition memoryLineText (text : string) : string :=
  let text := TrimSpace text in
  if decide (text = "") then "" else sjoin " " (Fields text).

Definition memory_label (note : MemoryNote) : string :=
  if EqualFold (TrimSpace (mn_Scope note)) "session" then
    let sessionID := TrimSpace (mn_SessionID note) in
    if decide (sessionID = "") then "session" else "session:" +:+ sessionID
  else "global".

Fixpoint render_notes (builder : string) (notes : list MemoryNote) (maxBytes : Z) : string :=
  match notes with
  | [] => builder
  | note :: notes =>
      let text := memoryLineText (mn_Text note) in
      if decide (text = "") then render_notes builder notes maxBytes
      else
        let '(builder, ok) := appendBoundedString builder
          ("- [" +:+ memory_label note +:+ "] " +:+ text +:+ char_string (chr 10)) maxBytes in
        if ok then render_notes builder notes maxBytes else builder
  end.

Definition memory_preamble : string :=
  "Shim memory for this request. Treat these as application-provided durable context. Use only when relevant; do not expose this block unless asked about available context."
  +:+ char_string (chr 10) +:+ char_string (chr 10).

Definition renderMemoryContext (notes : list MemoryNote) (maxBytes : Z) : string :=
  if (maxBytes <=? 0)%Z then ""
  else
    let '(builder, ok) := appendBoundedString "" memory_preamble maxBytes in
    if ok then render_notes builder notes maxBytes else builder.

Definition memoryBoolMetadata (value : string) : bool * bool :=
  let v := ToLower (TrimSpace value) in
  if decide (v ∈ ["1"; "true"; "yes"; "on"]) then (true, true)
  else if decide (v ∈ ["0"; "false"; "no"; "off"]) then (false, true)
  else (false, false).

Definition metadata_value (m : list (string * string)) (key : string) : string :=
  default "" (am_lookup key m).

Section service.
Context `{Sqlite} `{IdSource} `{MapOrder} `{UnicodeTable}.
(** The service's configuration; [hasStore] is memoryStore != nil. *)
Context (memoryConfig : Config) (hasStore : bool).

Definition memoryMetadataKey (suffix : string) : string :=
  namespace_or_default (MetadataNamespace memoryConfig) +:+ "." +:+ suffix.

Definition memoryRequestEnabled (i : input) : bool :=
  negb (in_ForceShadowStore i) && Enabled memoryConfig && hasStore.

Definition memorySessionID (metadata : list (string * string)) (i : input) : string :=
  let value := TrimSpace (metadata_value metadata (memoryMetadataKey memoryMetadataSessionID)) in
  if decide (value <> "") then value
  else
    let value := TrimSpace (in_ConversationID i) in
    if decide (value <> "") then "conversation:" +:+ value else "".

(** The session and scope a note is kept under; [None] is to keep no note. *)
Definition note_scope (metadata : list (string * string)) (i : input) : option (string * string) :=
  let sessionID := memorySessionID metadata i in
  let scope := ToLower (TrimSpace (metadata_value metadata (memoryMetadataKey memoryMetadataScope))) in
  if decide (scope = "") then
    if decide (sessionID = "") then None else Some ("session", sessionID)
  else if decide (scope = "session") then
    if decide (sessionID = "") then None else Some (scope, sessionID)
  else if decide (scope = "global") then Some (scope, "")
  else None.

(** The text a request asks to remember. *)
Definition note_text (metadata : list (string * string)) : string :=
  let text := TrimSpace (metadata_value metadata (memoryMetadataKey memoryMetadataRemember)) in
  if decide (text = "") then TrimSpace (metadata_value metadata (memoryMetadataKey memoryMetadataNote)) else text.

Definition memoryContextItems (i : input) (now : string) : ST world (list Item) :=
  if negb (memoryRequestEnabled i) then mret []
  else
    metadata ← st_lift (NormalizeResponseMetadata (in_Metadata i));
    let '(inject, ok) := memoryBoolMetadata (metadata_value metadata (memoryMetadataKey memoryMetadataInject)) in
    if ok && negb inject then mret []
    else if negb ok && negb (Inject memoryConfig) then mret []
    else
      let sessionID := memorySessionID metadata i in
      notes ← st_wrap "list response memory notes" (ListMemoryNotes
        {| mq_SessionID := sessionID; mq_IncludeGlobal := true; mq_Limit := MaxNotes memoryConfig |});
      match notes with
      | [] => mret []
      | _ =>
          let text := renderMemoryContext notes (MaxContextBytes memoryConfig) in
          if decide (TrimSpace text = "") then mret []
          else
            let ids := filter (fun id => id <> "") (map (fun note => TrimSpace (mn_ID note)) notes) in
            _ ← (if decide (ids = []) then mret tt
                 else st_wrap "touch response memory notes" (TouchMemoryNotes ids now));
            mret [NewInputTextMessage "developer" text]
      end.

Definition captureMemoryNote (i : input) (responseID now : string) : ST world unit :=
  if negb (memoryRequestEnabled i) then mret tt
  else
    metadata ← st_lift (NormalizeResponseMetadata (in_Metadata i));
    let text := note_text metadata in
    if decide (text = "") then mret tt
    else
      let text := trimStringBytes text (MaxNoteBytes memoryConfig) in
      if decide (TrimSpace text = "") then mret tt
      else match note_scope metadata i with
      | None => mret tt
      | Some (scope, sessionID) =>
          id ← st_wrap "generate memory note id" (draw (NewPrefixedID "mem"));
          st_wrap "save response memory note" (SaveMemoryNote
            {| mn_ID := id; mn_Scope := scope; mn_SessionID := sessionID; mn_Text := text;
               mn_Source := "responses.metadata"; mn_SourceResponseID := TrimSpace responseID;
               mn_Metadata := [("metadata_namespace", MetadataNamespace memoryConfig)];
               mn_CreatedAt := now; mn_UpdatedAt := now; mn_LastUsedAt := now |})
      end.
End service.
