(* ===== verification/MemoryProps.v ===== *)
(** * What memory notes guarantee

    The notes a request sees, the bounds on their text, and what remembering a
    note does to the table. *)

From S2P Require Import Prelude GoStr GoFloat GoJson JsonFacts StrFacts GoInt GoTime World Items ItemFacts Normalize NormProps Context Store StoreFacts StoreProps Memory.

(** ** Bounded text *)

Lemma byte_len_app s t : byte_len (s +:+ t) = (byte_len s + byte_len t)%Z.
Proof. unfold byte_len. rewrite slength_app. lia. Qed.

Lemma byte_len_nonneg s : (0 <= byte_len s)%Z.
Proof. unfold byte_len. lia. Qed.

Lemma trim_runes_len used maxBytes cs : (Z.of_nat used <= maxBytes)%Z ->
  (Z.of_nat used + byte_len (trim_runes used maxBytes cs) <= maxBytes)%Z.
Proof.
  revert used. induction cs as [|c cs IH]; intros used Hu; cbn [trim_runes]; [change (byte_len "") with 0%Z; lia|].
  destruct (Z.ltb_spec maxBytes (Z.of_nat (used + String.length (chunk_utf8 c)))).
  - change (byte_len "") with 0%Z. lia.
  - rewrite byte_len_app. specialize (IH (used + String.length (chunk_utf8 c))). unfold byte_len in *. lia.
Qed.

Lemma trimStringBytes_len text n : (byte_len (trimStringBytes text n) <= Z.max 0 n)%Z.
Proof.
  unfold trimStringBytes. case_decide as Hd; [change (byte_len "") with 0%Z; lia|].
  destruct (Z.leb_spec (byte_len text) n); [lia|].
  pose proof (trim_runes_len 0 n (chunks text)) as Ht. simpl in Ht. lia.
Qed.

(** What is kept is a whole number of runes from the front. *)
Lemma trim_runes_prefix used n cs : exists k, trim_runes used n cs = sconcat (map chunk_utf8 (take k cs)).
Proof.
  revert used. induction cs as [|c cs IH]; intros used; cbn [trim_runes]; [by exists 0|].
  destruct (_ <? _)%Z; [by exists 0|]. destruct (IH (used + String.length (chunk_utf8 c))) as [k ->]. by exists (S k).
Qed.

Lemma appendBoundedString_len b text n : (byte_len b <= n)%Z ->
  (byte_len (appendBoundedString b text n).1 <= n)%Z.
Proof.
  intros Hb. unfold appendBoundedString. destruct (Z.leb_spec (n - byte_len b) 0); [done|].
  destruct (Z.leb_spec (byte_len text) (n - byte_len b)); cbn [fst]; rewrite byte_len_app; [lia|].
  pose proof (trimStringBytes_len text (n - byte_len b)). lia.
Qed.

Lemma render_notes_len b notes n : (byte_len b <= n)%Z -> (byte_len (render_notes b notes n) <= n)%Z.
Proof.
  revert b. induction notes as [|note notes IH]; intros b Hb; cbn [render_notes]; [done|].
  case_decide; [by apply IH|].
  pose proof (appendBoundedString_len b ("- [" +:+ memory_label note +:+ "] " +:+ memoryLineText (mn_Text note) +:+
    char_string (chr 10)) n Hb) as Ha.
  destruct (appendBoundedString _ _ _) as [b' ok]. cbn [fst] in Ha. destruct ok; [by apply IH|done].
Qed.

(** ** The order of notes *)

Lemma scompare_cases a b : String.compare a b = Eq /\ a = b \/ String.compare a b = Lt \/ String.compare a b = Gt.
Proof. destruct (String.compare a b) eqn:E; auto. left. split; [done|]. by apply String.compare_eq_iff. Qed.

Lemma str_le_total a b : str_le a b = true \/ str_le b a = true.
Proof.
  unfold str_le. destruct (scompare_cases a b) as [[-> _]|[->|E]]; [auto..|].
  right. apply scompare_lt_gt in E. by rewrite E.
Qed.

Lemma str_le_trans a b c : str_le a b = true -> str_le b c = true -> str_le a c = true.
Proof.
  unfold str_le. destruct (scompare_cases a b) as [[_ ->]|[E|E]]; [done| |by rewrite E].
  intros _. destruct (scompare_cases b c) as [[_ <-]|[E'|E']]; [by rewrite E| |by rewrite E'].
  by rewrite (scompare_lt_trans _ _ _ E E').
Qed.

Lemma newer_first_total a b : newer_first a b = true \/ newer_first b a = true.
Proof.
  unfold newer_first. destruct (scompare_cases (mr_updated_at b.2) (mr_updated_at a.2)) as [[E He]|[E|E]]; rewrite E.
  - rewrite He, scompare_refl. apply str_le_total.
  - by left.
  - apply scompare_lt_gt in E. rewrite E. by right.
Qed.

Lemma newer_first_trans a b c : newer_first a b = true -> newer_first b c = true -> newer_first a c = true.
Proof.
  unfold newer_first. destruct (scompare_cases (mr_updated_at b.2) (mr_updated_at a.2)) as [[E He]|[E|E]]; rewrite E.
  - rewrite He. destruct (String.compare (mr_updated_at c.2) _); [|done..]. intros Hab Hbc. by eapply str_le_trans.
  - intros _. destruct (scompare_cases (mr_updated_at c.2) (mr_updated_at b.2)) as [[E' He']|[E'|E']]; rewrite E'.
    + by rewrite He', E.
    + by rewrite (scompare_lt_trans _ _ _ E' E).
    + done.
  - done.
Qed.

(** ** Listing *)

(** The notes a query is about, newest first. *)
Definition notes_in_scope (q : ListMemoryNotesQuery) (db : DB) : list (string * memory_row) :=
  sort_by newer_first
    (filter (fun r => note_in_scope (mq_IncludeGlobal q) (TrimSpace (mq_SessionID q)) r.2 = true)
            (map_to_list (memory_notes db))).

Definition note_limit (q : ListMemoryNotesQuery) : Z := if (mq_Limit q <=? 0)%Z then 8%Z else mq_Limit q.

Lemma note_limit_pos q : (0 < note_limit q)%Z.
Proof. unfold note_limit. destruct (Z.leb_spec (mq_Limit q) 0); lia. Qed.

Lemma notes_in_scope_elem q db id row : (id, row) ∈ notes_in_scope q db <->
  memory_notes db !! id = Some row /\
  note_in_scope (mq_IncludeGlobal q) (TrimSpace (mq_SessionID q)) row = true.
Proof. unfold notes_in_scope. rewrite sort_by_perm, list_elem_of_filter, elem_of_map_to_list. simpl. tauto. Qed.

Section listing.
Context `{Sqlite}.

Lemma ListMemoryNotes_ok q w notes w' : ListMemoryNotes q w = (Ok notes, w') ->
  w_db w' = w_db w /\
  Forall2 (fun r note => scanMemoryNote r = Ok note)
    (take (Z.to_nat (note_limit q)) (notes_in_scope q (w_db w))) notes.
Proof.
  unfold ListMemoryNotes. fold (note_limit q). destruct (mq_IncludeGlobal q || _) eqn:E.
  - intros Hb. apply st_bind_ok in Hb as (rows & w1 & Hq & Hb). apply query_ok in Hq as (-> & Hd & _).
    unfold st_lift in Hb. injection Hb as Hr <-. split; [done|]. apply res_map_ok_iff in Hr.
    unfold sql_limit in Hr. pose proof (note_limit_pos q). destruct (Z.ltb_spec (note_limit q) 0); [lia|].
    exact Hr.
  - intros [= <- <-]. split; [done|]. apply orb_false_iff in E as [Eg Es].
    assert (notes_in_scope q (w_db w) = []) as ->; [|by rewrite take_nil].
    apply elem_of_nil_inv. intros [id row] [_ Hs]%notes_in_scope_elem. unfold note_in_scope in Hs.
    by rewrite Eg, Es in Hs.
Qed.
End listing.

Lemma scan_note_fields r note : scanMemoryNote r = Ok note ->
  mn_ID note = r.1 /\ mn_Text note = mr_text r.2 /\ mn_Scope note = mr_scope r.2 /\ mn_SessionID note = mr_session_id r.2.
Proof. unfold scanMemoryNote. intros (m & _ & [= <-])%res_bind_ok. done. Qed.

(** Fact (safety): a listing changes nothing and shows only global notes (when
    they are asked for) and notes of the session asked for, at most as many as
    the limit, each as it is stored; the notes it leaves out sort after the
    ones it shows, and it leaves none out unless the limit is reached. *)
Theorem ListMemoryNotes_spec `{Sqlite} q w notes w' : ListMemoryNotes q w = (Ok notes, w') ->
  w_db w' = w_db w /\ (Z.of_nat (length notes) <= note_limit q)%Z /\
  (forall note, note ∈ notes ->
     mq_IncludeGlobal q = true /\ mn_Scope note = "global" \/
     TrimSpace (mq_SessionID q) <> "" /\ mn_Scope note = "session" /\
       mn_SessionID note = TrimSpace (mq_SessionID q)) /\
  exists shown rest, Forall2 (fun r note => scanMemoryNote r = Ok note) shown notes /\
    StronglySorted (le_of newer_first) (shown ++ rest) /\
    (forall id row, (id, row) ∈ shown ++ rest <-> memory_notes (w_db w) !! id = Some row /\
       note_in_scope (mq_IncludeGlobal q) (TrimSpace (mq_SessionID q)) row = true) /\
    (rest = [] \/ Z.of_nat (length notes) = note_limit q).
Proof.
  intros (Hd & Hscan)%ListMemoryNotes_ok. split; [done|]. pose proof (note_limit_pos q) as Hpos.
  set (all := notes_in_scope q (w_db w)) in *. set (k := Z.to_nat (note_limit q)) in *.
  pose proof (Forall2_length _ _ _ Hscan) as Hlen. rewrite length_take in Hlen. split; [lia|]. split.
  - intros note Hin. apply list_elem_of_lookup in Hin as [i Hi].
    destruct (Forall2_lookup_r _ _ _ _ _ Hscan Hi) as ([id row] & Hr & Hs).
    apply scan_note_fields in Hs as (_ & _ & -> & ->). simpl.
    apply list_elem_of_lookup_2, elem_of_take in Hr as (j & Hj & _).
    apply list_elem_of_lookup_2, notes_in_scope_elem in Hj as [_ Hs]. unfold note_in_scope in Hs.
    rewrite orb_true_iff, !andb_true_iff, !bool_decide_eq_true in Hs. tauto.
  - exists (take k all), (drop k all). rewrite take_drop. split; [done|].
    split; [apply sort_by_sorted; [apply newer_first_total|apply newer_first_trans]|].
    split; [intros id row; apply notes_in_scope_elem|].
    destruct (decide (length all <= k)); [left; by apply drop_ge|right; lia].
Qed.

Definition demo_query : ListMemoryNotesQuery := {| mq_SessionID := "s1"; mq_IncludeGlobal := true; mq_Limit := 1 |}.

Definition demo_row (scope session text updated : string) : memory_row :=
  {| mr_scope := scope; mr_session_id := session; mr_text := text; mr_source := ""; mr_source_response_id := "";
     mr_metadata_json := "{}"; mr_created_at := updated; mr_updated_at := updated; mr_last_used_at := updated |}.

Definition notes_world (notes : gmap string memory_row) : world :=
  {| w_db := set_memory empty_db notes; w_ids := 0; w_stmts := 0 |}.

Definition demo_notes : world :=
  notes_world {[ "m1" := demo_row "session" "s1" "mine" "2026-01-02"; "m2" := demo_row "session" "s2" "other" "2026-01-03" ]}.

Definition demo_listed : list MemoryNote :=
  match (@ListMemoryNotes reliable demo_query demo_notes).1 with Ok l => l | _ => [] end.

Lemma ListMemoryNotes_spec_witness :
  let w' := after (@ListMemoryNotes reliable demo_query) demo_notes in
  w_db w' = w_db demo_notes /\ (Z.of_nat (length demo_listed) <= note_limit demo_query)%Z /\
  (forall note, note ∈ demo_listed ->
     mq_IncludeGlobal demo_query = true /\ mn_Scope note = "global" \/
     TrimSpace (mq_SessionID demo_query) <> "" /\ mn_Scope note = "session" /\
       mn_SessionID note = TrimSpace (mq_SessionID demo_query)) /\
  exists shown rest, Forall2 (fun r note => scanMemoryNote r = Ok note) shown demo_listed /\
    StronglySorted (le_of newer_first) (shown ++ rest) /\
    (forall id row, (id, row) ∈ shown ++ rest <-> memory_notes (w_db demo_notes) !! id = Some row /\
       note_in_scope (mq_IncludeGlobal demo_query) (TrimSpace (mq_SessionID demo_query)) row = true) /\
    (rest = [] \/ Z.of_nat (length demo_listed) = note_limit demo_query).
Proof.
  apply (@ListMemoryNotes_spec reliable demo_query demo_notes demo_listed
           (after (@ListMemoryNotes reliable demo_query) demo_notes)).
  vm_compute. reflexivity.
Defined.

(** Fact (bounds): the text of a note and the memory block of a request never
    have more bytes than configured, and cutting never splits a rune: what is
    kept of a valid text is a valid text. *)
Theorem memory_texts_bounded notes text n :
  (byte_len (renderMemoryContext notes n) <= Z.max 0 n)%Z /\
  (byte_len (trimStringBytes text n) <= Z.max 0 n)%Z /\
  (valid_utf8 (trimStringBytes text n) = true \/ valid_utf8 text = false) /\
  exists k, trimStringBytes text n = text \/ trimStringBytes text n = sconcat (map chunk_utf8 (take k (chunks text))).
Proof.
  split; [|split; [apply trimStringBytes_len|]].
  - unfold renderMemoryContext. destruct (Z.leb_spec n 0); [change (byte_len "") with 0%Z; lia|].
    pose proof (appendBoundedString_len "" memory_preamble n) as Ha. change (byte_len "") with 0%Z in Ha.
    destruct (appendBoundedString _ _ _) as [b ok]. cbn [fst] in Ha. destruct ok; [|lia].
    pose proof (render_notes_len b notes n ltac:(lia)). lia.
  - assert (Hk : exists k, trimStringBytes text n = text \/
      trimStringBytes text n = sconcat (map chunk_utf8 (take k (chunks text)))).
    { unfold trimStringBytes. case_decide; [exists 0; by right|]. destruct (_ <=? _)%Z; [exists 0; by left|].
      destruct (trim_runes_prefix 0 n (chunks text)) as [k ->]. exists k. by right. }
    split; [|done]. destruct Hk as (k & [-> | ->]); [by destruct (valid_utf8 text); auto|].
    left. pose proof (chunks_good_or_bad text) as Hg. apply (Forall_take _ k) in Hg.
    induction Hg as [|c cs Hc Hcs IH]; [done|]. simpl. apply valid_utf8_app; [by apply chunk_utf8_valid|done].
Qed.

(** ** Remembering *)

Section capture.
Context `{Sqlite} `{IdSource} `{MapOrder}.
Context (cfg : Config) (hasStore : bool).

(** The note a request asks to keep: its scope, session and text. *)
Definition note_to_keep (m : list (string * string)) (i : input) : option (string * string * string) :=
  let text := trimStringBytes (note_text cfg m) (MaxNoteBytes cfg) in
  if decide (note_text cfg m = "" \/ TrimSpace text = "") then None
  else '(scope, session) ← note_scope cfg m i; Some (scope, session, text).

(** The row it is kept in. *)
Definition kept_row (scope session text rid now : string) (row : memory_row) : Prop :=
  mr_scope row = scope /\ mr_session_id row = session /\ mr_text row = text /\
  mr_source_response_id row = TrimSpace rid /\ mr_updated_at row = now /\ mr_last_used_at row = now.

Lemma st_wrap_ok {A} ctx (m : ST world A) w a w' : st_wrap ctx m w = (Ok a, w') -> m w = (Ok a, w').
Proof. unfold st_wrap. destruct (m w) as [r1 w1]. intros [= Hr <-]. apply wrap_err_ok in Hr. by subst. Qed.

Lemma SaveMemoryNote_ok note w u w' : SaveMemoryNote note w = (Ok u, w') ->
  mn_UpdatedAt note = mn_LastUsedAt note ->
  exists row, w_db w' = set_memory (w_db w) (<[TrimSpace (mn_ID note) := row]> (memory_notes (w_db w))) /\
    kept_row (TrimSpace (mn_Scope note)) (TrimSpace (mn_SessionID note)) (mn_Text note)
      (mn_SourceResponseID note) (mn_UpdatedAt note) row.
Proof.
  intros (_ & Hx & _)%exec_ok Hu. unfold upsert_note in Hx. injection Hx as _ Hx. eexists.
  split; [symmetry; exact Hx|]. unfold kept_row. rewrite Hu. by destruct (memory_notes (w_db w) !! _).
Qed.

Lemma note_scope_trimmed m i scope session : note_scope cfg m i = Some (scope, session) ->
  TrimSpace scope = scope /\ TrimSpace session = session /\
  (scope = "global" /\ session = "" \/ scope = "session" /\ session <> "" /\ session = memorySessionID cfg m i).
Proof.
  assert (Hs : TrimSpace (memorySessionID cfg m i) = memorySessionID cfg m i).
  { unfold memorySessionID. case_decide; [apply TrimSpace_idemp|]. case_decide as Hc; [|done].
    apply (TrimSpace_prefixed _ "onversation" ":"); [done|done|done|apply TrimSpace_idemp]. }
  unfold note_scope. case_decide as Hsc.
  { case_decide; [done|]. intros [= <- <-]. auto 6. }
  case_decide as Hss.
  { case_decide; [done|]. intros [= <- <-]. rewrite Hss. auto 6. }
  case_decide as Hg; [|done]. intros [= <- <-]. rewrite Hg. auto.
Qed.

(** Capturing a note fails without a trace, or keeps the note and nothing else. *)
Lemma captureMemoryNote_cases i rid now w r w' :
  captureMemoryNote cfg hasStore i rid now w = (r, w') ->
  match r with
  | Ok _ =>
      if memoryRequestEnabled cfg hasStore i then
        exists m, NormalizeResponseMetadata (in_Metadata i) = Ok m /\
        match note_to_keep m i with
        | None => w_db w' = w_db w
        | Some (scope, session, text) => exists n u row, uuid_v7 n = Some u /\
            w_db w' = set_memory (w_db w) (<[TrimSpace ("mem_" +:+ u) := row]> (memory_notes (w_db w))) /\
            kept_row scope session text rid now row
        end
      else w_db w' = w_db w
  | _ => w_db w' = w_db w
  end.
Proof.
  unfold captureMemoryNote, note_to_keep. destruct (memoryRequestEnabled cfg hasStore i); [|by intros [= <- <-]].
  cbn [negb]. unfold mbind at 1, st_bind at 1, st_lift.
  destruct (NormalizeResponseMetadata (in_Metadata i)) as [m|e|]; [|by intros [= <- <-]..].
  case_decide as Ht1; [intros [= <- <-]; exists m; by rewrite decide_True by auto|].
  case_decide as Ht2; [intros [= <- <-]; exists m; by rewrite decide_True by auto|].
  destruct (note_scope cfg m i) as [[scope session]|] eqn:Hs; 
    [|intros [= <- <-]; exists m; split; [done|]; rewrite decide_False by tauto; rewrite Hs; done].
  unfold mbind at 1, st_bind at 1.
  destruct (st_wrap "generate memory note id" _ w) as [[id|e|] w1] eqn:Hd;
    pose proof (read_only_wrap _ _ (read_only_draw _) _ _ _ Hd) as He; [|by intros [= <- <-]..].
  apply st_wrap_ok in Hd. unfold draw, NewPrefixedID in Hd.
  destruct (uuid_v7 (w_ids w)) as [u|] eqn:Hu; [|done]. injection Hd as <- _.
  intros Hb. destruct r as [x|e|].
  - apply st_wrap_ok in Hb. apply SaveMemoryNote_ok in Hb as (row & Hdb & Hk); [|done].
    exists m. split; [done|]. rewrite decide_False by tauto. rewrite Hs. simpl. exists (w_ids w), u, row.
    split; [done|]. rewrite He in Hdb. split; [exact Hdb|].
    destruct (note_scope_trimmed _ _ _ _ Hs) as (Hsc & Hse & _). unfold kept_row in *. simpl in Hk.
    by rewrite Hsc, Hse, TrimSpace_idemp in Hk.
  - unfold st_wrap in Hb. destruct (SaveMemoryNote _ w1) as [r2 w2] eqn:E. injection Hb as Hr <-.
    rewrite <-He. eapply exec_not_ok; [exact E|]. by destruct r2.
  - unfold st_wrap in Hb. destruct (SaveMemoryNote _ w1) as [r2 w2] eqn:E. injection Hb as Hr <-.
    rewrite <-He. eapply exec_not_ok; [exact E|]. by destruct r2.
Qed.
End capture.

(** Fact (functional): capturing a note changes nothing but the notes table, and
    nothing at all when it fails; on success it stores exactly the note the
    metadata asks for, if any, with its trimmed text cut to the configured
    number of bytes, under a new identifier. *)
Theorem captureMemoryNote_spec `{Sqlite} `{IdSource} `{MapOrder} cfg hasStore i rid now w r w' :
  captureMemoryNote cfg hasStore i rid now w = (r, w') ->
  match r with
  | Ok _ =>
      if memoryRequestEnabled cfg hasStore i then
        exists m, NormalizeResponseMetadata (in_Metadata i) = Ok m /\
        match note_to_keep cfg m i with
        | None => w_db w' = w_db w
        | Some (scope, session, text) => exists n u row, uuid_v7 n = Some u /\
            w_db w' = set_memory (w_db w) (<[TrimSpace ("mem_" +:+ u) := row]> (memory_notes (w_db w))) /\
            kept_row scope session text rid now row
        end
      else w_db w' = w_db w
  | _ => w_db w' = w_db w
  end.
Proof. apply captureMemoryNote_cases. Qed.

Definition demo_memory : Config :=
  {| Backend := "local"; Inject := true; MaxNotes := 8; MaxNoteBytes := 64; MaxContextBytes := 512;
     MetadataNamespace := "mem" |}.

Definition demo_input : input :=
  {| in_Metadata := sq "{'mem.remember':' likes tea '}"; in_ConversationID := "conv_1"; in_ForceShadowStore := false |}.

Definition demo_capture : ST world unit :=
  @captureMemoryNote reliable zeros_ids sorted_order demo_memory true demo_input "resp_1" "t1".

Lemma captureMemoryNote_spec_witness :
  exists m, @NormalizeResponseMetadata sorted_order (in_Metadata demo_input) = Ok m /\
    match note_to_keep demo_memory m demo_input with
    | None => w_db (after demo_capture start) = w_db start
    | Some (scope, session, text) => exists n u row, @uuid_v7 zeros_ids n = Some u /\
        w_db (after demo_capture start) =
          set_memory (w_db start) (<[TrimSpace ("mem_" +:+ u) := row]> (memory_notes (w_db start))) /\
        kept_row scope session text "resp_1" "t1" row
    end.
Proof.
  apply (@captureMemoryNote_spec reliable zeros_ids sorted_order demo_memory true demo_input "resp_1" "t1" start
           (Ok tt) (after demo_capture start)).
  vm_compute. reflexivity.
Defined.

(** Fact (round trip): a note that was captured is recalled: any later listing
    for a request of the same session (or for any request, when the note is
    global) shows its text, unless more notes are in scope than the listing may
    show. *)
Theorem captured_note_recalled `{Sqlite} `{IdSource} `{MapOrder} cfg hasStore i rid now w w' m scope session text
    q notes w2 :
  captureMemoryNote cfg hasStore i rid now w = (Ok tt, w') ->
  memoryRequestEnabled cfg hasStore i = true -> NormalizeResponseMetadata (in_Metadata i) = Ok m ->
  note_to_keep cfg m i = Some (scope, session, text) ->
  mq_IncludeGlobal q = true -> TrimSpace (mq_SessionID q) = memorySessionID cfg m i ->
  (Z.of_nat (length (notes_in_scope q (w_db w'))) <= note_limit q)%Z ->
  ListMemoryNotes q w' = (Ok notes, w2) ->
  exists note, note ∈ notes /\ mn_Text note = text /\ mn_Scope note = scope /\ mn_SessionID note = session.
Proof.
  intros Hc He Hm Hk Hg Hs Hlen Hl. apply captureMemoryNote_cases in Hc. rewrite He in Hc.
  destruct Hc as (m' & Hm' & Hc). rewrite Hm in Hm'. injection Hm' as <-. rewrite Hk in Hc.
  destruct Hc as (n & u & row & _ & Hdb & (Hsc & Hse & Htx & _)).
  assert (Hscope : scope = "global" /\ session = "" \/ scope = "session" /\ session <> "" /\ session = memorySessionID cfg m i).
  { unfold note_to_keep in Hk. case_decide; [done|]. destruct (note_scope cfg m i) as [[sc se]|] eqn:Hn; [|done].
    injection Hk as <- <- _. apply note_scope_trimmed in Hn as (_ & _ & Hn). exact Hn. }
  assert (Hin : (TrimSpace ("mem_" +:+ u), row) ∈ notes_in_scope q (w_db w')).
  { apply notes_in_scope_elem. rewrite Hdb. simpl. rewrite lookup_insert_eq. split; [done|].
    unfold note_in_scope. rewrite Hg, Hs, Hsc, Hse. destruct Hscope as [[-> _]|(-> & Hne & Heq)]; [done|].
    rewrite <-Heq, (bool_decide_eq_true_2 (session <> "")), (bool_decide_eq_true_2 (session = session)) by done. done. }
  apply ListMemoryNotes_ok in Hl as [_ Hscan]. rewrite take_ge in Hscan by lia.
  apply list_elem_of_lookup in Hin as [j Hj].
  destruct (Forall2_lookup_l _ _ _ _ _ Hscan Hj) as (note & Hnote & Hr).
  apply scan_note_fields in Hr as (_ & H1' & H2' & H3'). exists note. split; [by eapply list_elem_of_lookup_2|].
  by rewrite H1', H2', H3'.
Qed.

Definition demo_recall : ListMemoryNotesQuery :=
  {| mq_SessionID := "conversation:conv_1"; mq_IncludeGlobal := true; mq_Limit := 8 |}.

Definition demo_recalled : list MemoryNote :=
  match (@ListMemoryNotes reliable demo_recall (after demo_capture start)).1 with Ok l => l | _ => [] end.

Lemma captured_note_recalled_witness :
  exists note, note ∈ demo_recalled /\ mn_Text note = "likes tea" /\ mn_Scope note = "session" /\
    mn_SessionID note = "conversation:conv_1".
Proof.
  apply (@captured_note_recalled reliable zeros_ids sorted_order demo_memory true demo_input "resp_1" "t1" start
           (after demo_capture start) [("mem.remember", " likes tea ")] "session" "conversation:conv_1" "likes tea"
           demo_recall demo_recalled
           (after (@ListMemoryNotes reliable demo_recall) (after demo_capture start))).
  - vm_compute. reflexivity.
  - vm_compute. reflexivity.
  - vm_compute. reflexivity.
  - vm_compute. reflexivity.
  - done.
  - vm_compute. reflexivity.
  - vm_compute. discriminate.
  - vm_compute. reflexivity.
Defined.

Definition at_second : utc := {| t_year := 2026; t_month := 1; t_day := 2; t_hour := 3; t_minute := 4; t_second := 5; t_nanos := 0 |}.
Definition half_later : utc :=
  {| t_year := 2026; t_month := 1; t_day := 2; t_hour := 3; t_minute := 4; t_second := 5; t_nanos := 500000000 |}.

(** Fact (error): times are stored without the trailing zeros of their fraction
    and compared as text, so the order is not the order of time: a note written
    half a second after one written on the full second sorts as the older one,
    and a listing of one note shows the outdated one. *)
Theorem older_note_listed_first :
  FormatTime at_second = "2026-01-02T03:04:05Z" /\ FormatTime half_later = "2026-01-02T03:04:05.5Z" /\
  String.compare (FormatTime half_later) (FormatTime at_second) = Lt /\
  let w := notes_world {[ "m1" := demo_row "global" "" "old" (FormatTime at_second);
                          "m2" := demo_row "global" "" "new" (FormatTime half_later) ]} in
  match (@ListMemoryNotes reliable demo_query w).1 with
  | Ok notes => map mn_Text notes = ["old"]
  | _ => False
  end.
Proof. by vm_compute. Qed.
