(* ===== verification/ToolMarkup.v ===== *)
(** * internal/toolmarkup/raw.go

    Does a text the model produced contain the syntax of a tool call (markers
    of providers, pseudo tags, fenced command blocks)?  The two search loops
    advance an offset into the text; their fuel is the length of the text plus
    one, which is enough because every round moves the offset forward. *)

From S2P Require Import Prelude GoStr GoFloat GoJson JsonFacts StrFacts.

(** U+FF5C, the full-width vertical line. *)
Definition fullwidth_bar : string := String (chr 239) (String (chr 189) (char_string (chr 156))).

Definition normalizeProviderToolText (text : string) : string := ReplaceAll text fullwidth_bar "|".

Definition pseudoToolTextMarkers : list string :=
  ["<|tool_call"; "<|tool_calls_section"; "<|mask_start|"; "<|mask_end|"; "<prelude>"; "</prelude>";
   "[shell_command]"; "[/shell_command]"; "<tool call:"; "[tool call:"; "<chatcmpl-tool>";
   "</chatcmpl-tool>"; "<function.chatcmpl.tool>"; "</function.chatcmpl.tool>"; "<function_call>";
   "</function_call>"; "<function_call_output"; "<function name="; "</function>"; "<tools>"; "</tools>";
   "<antthinking>"; "</antthinking>"; "<toolcall::"; "</toolcall::"; "<apply_patch>"; "</apply_patch>";
   "<command>"; "</command>"; "<tool_call"; "</tool_call>"; "<tool_code_call>"; "</tool_code_call>";
   "<tool_code_exec>"; "</tool_code_exec>"; "<tool_code_interpreter>"; "</tool_code_interpreter>";
   "<tool_code>"; "<invoke name="; "<read_file>"; "</read_file>"; "<patch>"; "</patch>"; "<bash>";
   "</bash>"; "<||dsml||tool_calls"; "</||dsml||tool_calls"; "<||dsml||invoke"; "</||dsml||invoke";
   "<||dsml||parameter"; "</||dsml||parameter"].

Definition pseudoToolTagNames : list string :=
  ["read_file"; "bash"; "command-message"; "command-name"; "command-output"; "command-arg"].

(** Space, newline, carriage return, tab, '>', '/' and '='. *)
Definition isPseudoToolTagBoundary (ch : ascii) : bool :=
  let x := code ch in
  (x =? 32)%N || (x =? 10)%N || (x =? 13)%N || (x =? 9)%N || (x =? 62)%N || (x =? 47)%N || (x =? 61)%N.

(** [end >= len(text) || isPseudoToolTagBoundary(text[end])] *)
Definition boundary_at (text : string) (e : nat) : bool :=
  match String.get e text with None => true | Some ch => isPseudoToolTagBoundary ch end.

(** The inner loop of hasPseudoToolTag, for one prefix. *)
Fixpoint tag_loop (fuel : nat) (text prefix : string) (offset : nat) : bool :=
  match fuel with
  | 0 => false
  | S fuel =>
      match Index (sdrop offset text) prefix with
      | None => false
      | Some idx =>
          let e := offset + idx + String.length prefix in
          if boundary_at text e then true else tag_loop fuel text prefix e
      end
  end.

Definition hasPseudoToolTag (text name : string) : bool :=
  existsb (fun prefix => tag_loop (S (String.length text)) text prefix 0) ["<" +:+ name; "</" +:+ name].

Definition firstPseudoToolTagMarker (text : string) : string :=
  match find (hasPseudoToolTag text) pseudoToolTagNames with
  | Some name => "<" +:+ name
  | None => ""
  end.

Definition fence_mark : string := "```".

(** The loop of containsFencedPseudoCommand. *)
Fixpoint fence_loop (fuel : nat) (text fence : string) (matches : string -> bool) (offset : nat) : bool :=
  match fuel with
  | 0 => false
  | S fuel =>
      match Index (sdrop offset text) fence with
      | None => false
      | Some startRelative =>
          let blockStart := offset + startRelative + String.length fence in
          match Index (sdrop blockStart text) fence_mark with
          | Some blockEndRelative =>
              if matches (stake blockEndRelative (sdrop blockStart text)) then true
              else fence_loop fuel text fence matches (blockStart + blockEndRelative + String.length fence_mark)
          | None => matches (sdrop blockStart text)
          end
      end
  end.

Definition containsFencedPseudoCommand (text fence : string) (matches : string -> bool) : bool :=
  fence_loop (S (String.length text)) text fence matches 0.

Definition isPseudoCommandJSONBlock (block : string) : bool :=
  if negb (Contains block (sq "'command'")) then false
  else if Contains block (sq "'agent'") && Contains block (sq "'cli'") then true
  else if Contains block (sq "'apply_patch'") then true
  else Contains block (sq "'cwd'") && (Contains block (sq "'bash'") || Contains block (sq "'zsh'")).

Definition isPseudoCommandYAMLBlock (block : string) : bool :=
  let trimmed := TrimSpace block in
  if negb (Contains trimmed "command:") then false
  else Contains trimmed "apply_patch" || Contains trimmed "exec_command" || Contains trimmed "shell".

Definition line_feed : string := char_string (chr 10).

Definition isPlainApplyPatchBlock (block : string) : bool :=
  let trimmed := TrimSpace block in
  HasPrefix trimmed ("applypatch" +:+ line_feed) || HasPrefix trimmed ("apply_patch" +:+ line_feed) ||
  Contains trimmed (line_feed +:+ "*** update file:") || Contains trimmed (line_feed +:+ "*** begin patch").

Definition containsFencedJSONPseudoCommand (text : string) : bool :=
  containsFencedPseudoCommand text "```json" isPseudoCommandJSONBlock.
Definition containsFencedYAMLPseudoCommand (text : string) : bool :=
  containsFencedPseudoCommand text "```yaml" isPseudoCommandYAMLBlock.
Definition containsFencedPlainApplyPatch (text : string) : bool :=
  containsFencedPseudoCommand text "```" isPlainApplyPatchBlock.

Definition FirstPseudoToolMarker (text : string) : string :=
  let lower := ToLower (normalizeProviderToolText text) in
  match find (Contains lower) pseudoToolTextMarkers with
  | Some marker => marker
  | None =>
      let marker := firstPseudoToolTagMarker lower in
      if decide (marker <> "") then marker
      else if containsFencedJSONPseudoCommand lower then "```json command/apply_patch block"
      else if containsFencedYAMLPseudoCommand lower then "```yaml command/apply_patch block"
      else if containsFencedPlainApplyPatch lower then "``` applypatch block"
      else ""
  end.

Definition ContainsPseudoToolText (text : string) : bool :=
  bool_decide (FirstPseudoToolMarker text <> "").

(** ** Tags *)

(** The text ends, or a boundary character follows. *)
Definition at_boundary (rest : string) : Prop :=
  match rest with "" => True | String ch _ => isPseudoToolTagBoundary ch = true end.

(** A prefix of a tag occurs in the text and ends at a boundary. *)
Definition tag_occurs (text prefix : string) : Prop :=
  exists pre rest, text = pre +:+ prefix +:+ rest /\ at_boundary rest.

Fixpoint has_char (c : ascii) (s : string) : bool :=
  match s with "" => false | String a s => Ascii.eqb c a || has_char c s end.

Lemma has_char_app c s t : has_char c (s +:+ t) = has_char c s || has_char c t.
Proof. induction s as [|a s IH]; [done|]. rewrite sapp_cons. simpl. by rewrite IH, orb_assoc. Qed.

Lemma boundary_at_spec pre rest :
  boundary_at (pre +:+ rest) (String.length pre) = true <-> at_boundary rest.
Proof. unfold boundary_at. rewrite sget_app_r. by destruct rest. Qed.

(** Occurrences of a text that starts with a character it does not repeat do
    not overlap. *)
Lemma occurrences_disjoint c body pre rest pre' rest' :
  has_char c body = false ->
  pre +:+ String c body +:+ rest = pre' +:+ String c body +:+ rest' ->
  String.length pre < String.length pre' ->
  String.length pre + String.length (String c body) <= String.length pre'.
Proof.
  intros Hc H Hl. destruct (sapp_split _ _ _ _ H) as (m & -> & Hm); [lia|].
  rewrite slength_app in *. destruct m as [|d m]; [simpl in Hl; lia|].
  rewrite !sapp_cons in Hm. injection Hm as <- Hm.
  destruct (Nat.le_gt_cases (String.length body) (String.length m)) as [|Hlt]; [simpl; lia|].
  symmetry in Hm. destruct (sapp_split _ _ _ _ Hm) as (m' & Hb & Hr); [lia|].
  rewrite Hb, has_char_app in Hc. apply orb_false_iff in Hc as [_ Hc].
  assert (Hm' : m' <> "") by (intros ->; rewrite sapp_nil_r in Hb; subst; lia).
  destruct m' as [|e m']; [done|]. rewrite !sapp_cons in Hr. injection Hr as <- _.
  simpl in Hc. by rewrite Ascii.eqb_refl in Hc.
Qed.

Lemma tag_loop_spec c body text fuel offset :
  has_char c body = false -> String.length text - offset < fuel ->
  tag_loop fuel text (String c body) offset = true <->
  exists pre rest, text = pre +:+ String c body +:+ rest /\ offset <= String.length pre /\ at_boundary rest.
Proof.
  intros Hc. revert offset. induction fuel as [|fuel IH]; intros offset Hf; [lia|]. cbn [tag_loop].
  destruct (Index (sdrop offset text) (String c body)) as [idx|] eqn:E.
  - apply Index_some in E as (p & r & [Hs Hmin] & ->).
    assert (Ht : text = (stake offset text +:+ p) +:+ String c body +:+ r)
      by (rewrite sapp_assoc, <-Hs; by rewrite stake_sdrop).
    assert (Ho : offset < String.length text).
    { apply (f_equal String.length) in Hs. rewrite sdrop_length, !slength_app in Hs. simpl in Hs. lia. }
    assert (Hl : String.length (stake offset text +:+ p) = offset + String.length p)
      by (rewrite slength_app, stake_length; lia).
    set (q := stake offset text +:+ p) in *.
    assert (Hb : boundary_at text (offset + String.length p + String.length (String c body)) = true <-> at_boundary r).
    { rewrite <-boundary_at_spec with (pre := q +:+ String c body). rewrite sapp_assoc, <-Ht.
      by rewrite slength_app, Hl. }
    destruct (boundary_at _ _) eqn:Eb.
    + split; [|done]. intros _. exists q, r. split; [done|]. split; [lia|]. by apply Hb.
    + rewrite IH by (simpl in *; lia). split.
      * intros (pre & rest & H1 & H2 & H3). exists pre, rest. split; [done|]. split; [lia|done].
      * intros (pre & rest & H1 & H2 & H3). exists pre, rest. split; [done|]. split; [|done].
        assert (Hle : String.length p <= String.length (sdrop offset pre)).
        { apply (Hmin _ rest). rewrite H1 at 1. by rewrite sdrop_app_le. }
        rewrite sdrop_length in Hle. rewrite <-Hl.
        destruct (decide (String.length q = String.length pre)) as [Heq|].
        { exfalso. destruct (sapp_split q (String c body +:+ r) pre (String c body +:+ rest)) as (m & -> & Hm);
            [congruence|lia|].
          rewrite slength_app in Heq. destruct m; [|simpl in Heq; lia]. rewrite sapp_nil_l in Hm.
          apply (f_equal (sdrop (String.length (String c body)))) in Hm. rewrite !sdrop_app in Hm by done.
          rewrite <-Hm in H3. by apply Hb in H3. }
        apply (occurrences_disjoint c body q r pre rest); [done|congruence|lia].
  - split; [done|]. intros (pre & rest & -> & H2 & _). rewrite sdrop_app_le in E by done.
    by destruct (proj1 (Index_none _ _) E (sdrop offset pre) rest).
Qed.

Lemma hasPseudoToolTag_spec text name : has_char "<" name = false ->
  hasPseudoToolTag text name = true <-> tag_occurs text ("<" +:+ name) \/ tag_occurs text ("</" +:+ name).
Proof.
  intros Hn. unfold hasPseudoToolTag. cbn [existsb]. rewrite orb_false_r, orb_true_iff.
  change ("<" +:+ name) with (String "<" name). change ("</" +:+ name) with (String "<" (String "/" name)).
  rewrite !tag_loop_spec by (done || lia). unfold tag_occurs.
  split; intros [(pre & rest & H)|(pre & rest & H)]; [left|right|left|right]; exists pre, rest; intuition lia.
Qed.

(** ** Fenced blocks *)

(** The blocks of a text: what follows an opening fence, up to the next three
    back quotes (or to the end); the search goes on behind them. *)
Inductive has_block (fence : string) (matches : string -> bool) : string -> Prop :=
| block_unclosed s pre body : first_at s fence pre body -> Contains body fence_mark = false ->
    matches body = true -> has_block fence matches s
| block_first s pre tail body rest : first_at s fence pre tail -> first_at tail fence_mark body rest ->
    matches body = true -> has_block fence matches s
| block_later s pre tail body rest : first_at s fence pre tail -> first_at tail fence_mark body rest ->
    has_block fence matches rest -> has_block fence matches s.

Lemma Index_Contains s sub : Index s sub = None <-> Contains s sub = false.
Proof. unfold Contains. by destruct (Index s sub). Qed.

(** One round of the search. *)
Lemma has_block_inv fence matches s :
  has_block fence matches s <->
  exists pre tail, first_at s fence pre tail /\
    match Index tail fence_mark with
    | None => matches tail = true
    | Some i => exists body rest, first_at tail fence_mark body rest /\ i = String.length body /\
                  (matches body = true \/ has_block fence matches rest)
    end.
Proof.
  split.
  - intros [? pre body Hf Hn Hm|? pre tail body rest Hf Hb Hm|? pre tail body rest Hf Hb Hm].
    + exists pre, body. split; [done|]. apply Index_Contains in Hn. by rewrite Hn.
    + exists pre, tail. split; [done|]. rewrite (Index_first _ _ _ _ Hb). exists body, rest. auto.
    + exists pre, tail. split; [done|]. rewrite (Index_first _ _ _ _ Hb). exists body, rest. auto.
  - intros (pre & tail & Hf & H). destruct (Index tail fence_mark) as [i|] eqn:E.
    + destruct H as (body & rest & Hb & _ & [Hm|Hm]); [by eapply block_first|by eapply block_later].
    + eapply block_unclosed; [done| |done]. by apply Index_Contains.
Qed.

Lemma fence_loop_spec fuel text fence matches offset : fence <> "" -> String.length text - offset < fuel ->
  fence_loop fuel text fence matches offset = true <-> has_block fence matches (sdrop offset text).
Proof.
  intros Hne. revert offset. induction fuel as [|fuel IH]; intros offset Hf; [lia|]. cbn [fence_loop].
  rewrite has_block_inv. destruct (Index (sdrop offset text) fence) as [st|] eqn:E.
  - apply Index_some in E as (p & r & Hfirst & ->).
    assert (Hd : sdrop (offset + String.length p + String.length fence) text = r).
    { rewrite <-Nat.add_assoc, <-sdrop_sdrop, (first_at_app _ _ _ _ Hfirst), <-sapp_assoc.
      apply sdrop_app. by rewrite slength_app. }
    assert (Hlen : String.length fence <> 0) by (by destruct fence).
    assert (Hr : String.length r + String.length p + String.length fence + offset <= String.length text).
    { destruct Hfirst as [Hs _]. apply (f_equal String.length) in Hs.
      rewrite sdrop_length, !slength_app in Hs. lia. }
    rewrite Hd. destruct (Index r fence_mark) as [e|] eqn:Ee.
    + apply Index_some in Ee as (body & rest & Hb & ->). pose proof (first_at_app _ _ _ _ Hb) as Hrb.
      assert (Hstake : stake (String.length body) r = body) by (rewrite Hrb; by apply stake_app).
      rewrite Hstake.
      assert (Hrest : sdrop (offset + String.length p + String.length fence + String.length body + String.length fence_mark) text = rest).
      { rewrite <-Nat.add_assoc, <-sdrop_sdrop, Hd, Hrb, <-sapp_assoc. apply sdrop_app. by rewrite slength_app. }
      assert (Hin : (exists pre tail, first_at (sdrop offset text) fence pre tail /\
          match Index tail fence_mark with
          | None => matches tail = true
          | Some i => exists body rest, first_at tail fence_mark body rest /\ i = String.length body /\
                        (matches body = true \/ has_block fence matches rest)
          end) <-> matches body = true \/ has_block fence matches rest).
      { split.
        - intros (pre & tail & H1 & H2). destruct (first_at_unique _ _ _ _ _ _ Hfirst H1) as [<- <-].
          rewrite (Index_first _ _ _ _ Hb) in H2. destruct H2 as (b' & r' & H3 & _ & H4).
          by destruct (first_at_unique _ _ _ _ _ _ Hb H3) as [<- <-].
        - intros H. exists p, r. split; [done|]. rewrite (Index_first _ _ _ _ Hb). by exists body, rest. }
      rewrite Hin. destruct (matches body) eqn:Em; [split; [by left|done]|].
      rewrite IH by lia. rewrite Hrest. split; [by right|by intros [?|?]].
    + split.
      * intros Hm. exists p, r. split; [done|]. by rewrite Ee.
      * intros (pre & tail & H1 & H2). destruct (first_at_unique _ _ _ _ _ _ Hfirst H1) as [<- <-].
        by rewrite Ee in H2.
  - split; [done|]. intros (pre & tail & [H1 _] & _).
    by destruct (proj1 (Index_none _ _) E pre tail).
Qed.

Lemma containsFencedPseudoCommand_spec text fence matches : fence <> "" ->
  containsFencedPseudoCommand text fence matches = true <-> has_block fence matches text.
Proof. intros Hf. unfold containsFencedPseudoCommand. by rewrite fence_loop_spec by (done || lia). Qed.

(** ** The whole check *)

Lemma find_none_iff {A} (f : A -> bool) l : find f l = None <-> ~ exists x, x ∈ l /\ f x = true.
Proof.
  split.
  - intros Hf (x & Hx & Hfx). apply list_elem_of_In in Hx. pose proof (find_none f l Hf x Hx). congruence.
  - intros Hn. destruct (find f l) as [x|] eqn:E; [|done]. apply find_some in E as [Hx Hfx]. exfalso.
    apply Hn. exists x. by rewrite list_elem_of_In.
Qed.

Lemma firstPseudoToolTagMarker_spec text :
  firstPseudoToolTagMarker text <> "" <->
  exists name, name ∈ pseudoToolTagNames /\ (tag_occurs text ("<" +:+ name) \/ tag_occurs text ("</" +:+ name)).
Proof.
  assert (Hn : forall name, name ∈ pseudoToolTagNames -> has_char "<" name = false).
  { apply Forall_forall. by repeat constructor. }
  unfold firstPseudoToolTagMarker. destruct (find _ _) as [name|] eqn:E.
  - split; [|done]. intros _. apply find_some in E as [Hin Ht]. apply list_elem_of_In in Hin.
    exists name. split; [done|]. by apply hasPseudoToolTag_spec; auto.
  - split; [done|]. intros (name & Hin & Ht). apply find_none_iff in E. destruct E.
    exists name. split; [done|]. by apply hasPseudoToolTag_spec; auto.
Qed.

(** Fact (equivalence): a text counts as leaked tool syntax exactly when, in
    lower case and with the full-width bar replaced, one of the provider
    markers occurs anywhere in it, or the start of a pseudo tag occurs and ends
    at a boundary, or one of its fenced blocks is a command.  The loops that
    search with a moving offset thus miss no occurrence, and always end. *)
Theorem ContainsPseudoToolText_spec text :
  let lower := ToLower (normalizeProviderToolText text) in
  ContainsPseudoToolText text = true <->
  (exists marker pre rest, marker ∈ pseudoToolTextMarkers /\ lower = pre +:+ marker +:+ rest) \/
  (exists name, name ∈ pseudoToolTagNames /\ (tag_occurs lower ("<" +:+ name) \/ tag_occurs lower ("</" +:+ name))) \/
  has_block "```json" isPseudoCommandJSONBlock lower \/
  has_block "```yaml" isPseudoCommandYAMLBlock lower \/
  has_block "```" isPlainApplyPatchBlock lower.
Proof.
  intros lower. unfold ContainsPseudoToolText. rewrite bool_decide_eq_true. unfold FirstPseudoToolMarker. fold lower.
  assert (Hm : forall marker, marker ∈ pseudoToolTextMarkers -> marker <> "").
  { apply Forall_forall. by repeat constructor. }
  rewrite <-!containsFencedPseudoCommand_spec by done. rewrite <-firstPseudoToolTagMarker_spec.
  destruct (find (Contains lower) pseudoToolTextMarkers) as [marker|] eqn:E.
  - apply find_some in E as [Hin Hc]. apply list_elem_of_In in Hin. split; [|by intros _; apply Hm].
    intros _. left. apply Contains_spec in Hc as (pre & rest & H). by exists marker, pre, rest.
  - assert (Hno : ~ exists marker pre rest, marker ∈ pseudoToolTextMarkers /\ lower = pre +:+ marker +:+ rest).
    { intros (marker & pre & rest & Hin & H). apply find_none_iff in E. apply E. exists marker.
      split; [done|]. apply Contains_spec. by exists pre, rest. }
    unfold containsFencedJSONPseudoCommand, containsFencedYAMLPseudoCommand, containsFencedPlainApplyPatch.
    case_decide; [tauto|]. repeat (destruct (containsFencedPseudoCommand _ _ _)); simpl; intuition done.
Qed.
