(* ===== verification/TextFormat.v ===== *)
(** * Structured output: internal/domain/response_text.go and
      internal/service/response_text.go (the functions on texts and schemas)

    The text configuration of a request, the subset of JSON schema the shim
    supports, and the check that a generated text conforms to a schema.

    A schema is decoded into [map[string]any] ([gval]); the generated text is
    decoded with UseNumber, so its numbers keep their literal ([nval]).  The
    two functions that recurse over a schema have fuel; one more than the depth
    of the schema is enough. *)

From S2P Require Import Prelude GoStr GoFloat GoJson JsonFacts StrFacts World Items Normalize.

(** ** Text configuration *)

Record ResponseTextFormat := {
  tf_Type : string;
  tf_Name : string;
  tf_Strict : option bool;
  tf_Schema : option json
}.

Record ResponseTextConfig := { tc_Format : ResponseTextFormat }.

Definition DefaultResponseTextConfig : ResponseTextConfig :=
  {| tc_Format := {| tf_Type := "text"; tf_Name := ""; tf_Strict := None; tf_Schema := None |} |}.

(** json.Marshal of a configuration; a RawMessage is written compact and
    escaped. *)
Definition text_config_json (config : ResponseTextConfig) : json :=
  let f := tc_Format config in
  JObj [("format",
    JObj (("type", json_str (tf_Type f)) :: omit_string "name" (tf_Name f)
          ++ match tf_Strict f with Some b => [("strict", JBool b)] | None => [] end
          ++ match tf_Schema f with Some t => [("schema", jesc t)] | None => [] end))].

Definition MarshalResponseTextConfig (config : ResponseTextConfig) : json := text_config_json config.
Definition mustMarshalDefaultResponseTextConfig : json := text_config_json DefaultResponseTextConfig.

Fixpoint gdepth (v : gval) : nat :=
  match v with
  | GArr l => S (foldr (fun x n => gdepth x `max` n) 0 l)
  | GMap m => S (foldr (fun kv n => gdepth kv.2 `max` n) 0 m)
  | _ => 0
  end.

Section schema.
Context `{MapOrder} `{UnicodeTable}.

Definition schema_error (message : string) : goerr := NewValidationError "text.format.schema" message.

(** The first entry, in the order the map is ranged over, that [f] rejects. *)
Fixpoint first_err {A} (f : A -> res unit) (l : list A) : res unit :=
  match l with [] => Ok tt | x :: l => _ ← f x; first_err f l end.

Definition allowed_keys (typeName : string) : list string :=
  ["type"; "title"; "description"; "enum"] ++
  (if decide (typeName = "object") then ["properties"; "required"; "additionalProperties"]
   else if decide (typeName = "array") then ["items"] else []).

Definition is_schema_type (typeName : string) : bool :=
  bool_decide (typeName ∈ ["object"; "array"; "string"; "number"; "integer"; "boolean"; "null"]).

Definition check_key (typeName path : string) (kv : string * gval) : res unit :=
  if decide (kv.1 ∈ allowed_keys typeName) then Ok tt
  else Err (schema_error ("schema feature " +:+ Quote kv.1 +:+ " at " +:+ path +:+
                          " is not supported by shim-local responses")).

Definition check_enum (payload : list (string * gval)) (path : string) : res unit :=
  match am_lookup "enum" payload with
  | None | Some (GArr (_ :: _)) => Ok tt
  | Some _ => Err (schema_error (path +:+ ".enum must be a non-empty array"))
  end.

Definition check_required (payload properties : list (string * gval)) (path : string) : res unit :=
  match am_lookup "required" payload with
  | None => Ok tt
  | Some (GArr required) =>
      first_err (fun entry =>
        let name := TrimSpace (asString (Some entry)) in
        if decide (name = "") then Err (schema_error (path +:+ ".required must be an array of strings"))
        else match properties, am_lookup name properties with
             | _ :: _, None =>
                 Err (schema_error (path +:+ ".required references unknown property " +:+ Quote name))
             | _, _ => Ok tt
             end) required
  | Some _ => Err (schema_error (path +:+ ".required must be an array of strings"))
  end.

Fixpoint validate_node (fuel : nat) (payload : list (string * gval)) (path : string) : res unit :=
  match fuel with
  | 0 => Err (EMsg "out of fuel")
  | S fuel =>
      let typeName := TrimSpace (asString (am_lookup "type" payload)) in
      if decide (typeName = "") then Err (schema_error (path +:+ ".type is required"))
      else if negb (is_schema_type typeName) then
        Err (schema_error ("unsupported schema type " +:+ Quote typeName +:+ " at " +:+ path))
      else
        _ ← first_err (check_key typeName path) (map_order payload);
        _ ← check_enum payload path;
        if decide (typeName = "object") then
          _ ← (match am_lookup "additionalProperties" payload with
               | None | Some (GBool _) => Ok tt
               | Some _ => Err (schema_error (path +:+ ".additionalProperties must be a boolean"))
               end);
          properties ← (match am_lookup "properties" payload with
               | None => Ok []
               | Some (GMap props) =>
                   _ ← first_err (fun kv =>
                     match kv.2 with
                     | GMap child => validate_node fuel child (path +:+ ".properties." +:+ kv.1)
                     | _ => Err (schema_error (path +:+ ".properties." +:+ kv.1 +:+ " must be an object"))
                     end) (map_order props);
                   Ok props
               | Some _ => Err (schema_error (path +:+ ".properties must be an object"))
               end);
          check_required payload properties path
        else if decide (typeName = "array") then
          match am_lookup "items" payload with
          | None => Err (schema_error (path +:+ ".items is required for array schemas"))
          | Some (GMap items) => validate_node fuel items (path +:+ ".items")
          | Some _ => Err (schema_error (path +:+ ".items must be an object"))
          end
        else Ok tt
  end.

Definition validateSupportedResponseJSONSchemaNode (payload : list (string * gval)) (path : string) : res unit :=
  validate_node (S (gdepth (GMap payload))) payload path.

Definition validateSupportedResponseJSONSchema (raw : json) (path : string) : res unit :=
  match any_map raw with
  | None => Err (schema_error "text.format.schema must be valid JSON")
  | Some payload => validateSupportedResponseJSONSchemaNode (default [] payload) path
  end.

(** The keys, in order, that are not allowed. *)
Definition rejectUnsupportedResponseTextFormatKeys (payload : list (string * json)) (allowed : list string) : res unit :=
  match filter (fun k => k ∉ allowed) (am_keys payload) with
  | [] => Ok tt
  | unsupported =>
      Err (NewValidationError "text.format" ("unsupported text.format field(s): " +:+ sjoin ", " unsupported))
  end.

(** The branch of parseResponseTextFormat for json_schema. *)
Definition parse_schema_format (payload : list (string * json)) : res ResponseTextFormat :=
  _ ← rejectUnsupportedResponseTextFormatKeys payload ["type"; "name"; "strict"; "schema"];
  name ← (match am_lookup "name" payload with
          | None | Some JNull => Ok ""
          | Some (JStr l) => Ok (TrimSpace (unquote l))
          | Some _ => Err (NewValidationError "text.format.name" "text.format.name must be a string")
          end);
  strict ← (match am_lookup "strict" payload with
            | None | Some JNull => Ok None
            | Some (JBool b) => Ok (Some b)
            | Some _ => Err (NewValidationError "text.format.strict" "text.format.strict must be a boolean")
            end);
  match am_lookup "schema" payload with
  | None | Some JNull =>
      Err (schema_error "text.format.schema is required when text.format.type=json_schema")
  | Some (JObj l) =>
      _ ← validateSupportedResponseJSONSchema (JObj l) "$";
      Ok {| tf_Type := "json_schema"; tf_Name := name; tf_Strict := strict; tf_Schema := Some (JObj l) |}
  | Some _ => Err (schema_error "text.format.schema must be an object")
  end.

Definition parseResponseTextFormat (raw : json) : res ResponseTextFormat :=
  match raw_map raw with
  | None => Err (NewValidationError "text.format" "text.format must be an object")
  | Some payload =>
      typeName ← (match am_lookup "type" payload with
                  | None | Some JNull => Ok "text"
                  | Some (JStr l) => Ok (TrimSpace (unquote l))
                  | Some _ => Err (NewValidationError "text.format.type" "text.format.type must be a string")
                  end);
      if decide (typeName = "text" \/ typeName = "json_object") then
        _ ← rejectUnsupportedResponseTextFormatKeys payload ["type"];
        Ok {| tf_Type := typeName; tf_Name := ""; tf_Strict := None; tf_Schema := None |}
      else if decide (typeName = "json_schema") then parse_schema_format payload
      else Err (NewValidationError "text.format.type" "unsupported text.format.type")
  end.

(** ParseResponseTextConfig on a RawMessage that is absent or one JSON value. *)
Definition parse_text_config (raw : option json) : res ResponseTextConfig :=
  match raw with
  | None | Some JNull => Ok DefaultResponseTextConfig
  | Some t =>
      match raw_map t with
      | None => Err (NewValidationError "text" "text must be an object")
      | Some payload =>
          _ ← first_err (fun kv => if decide (kv.1 = "format") then Ok tt
                else Err (NewValidationError "text" ("unsupported text field " +:+ quoted kv.1)))
                (map_order payload);
          match am_lookup "format" payload with
          | None | Some JNull => Ok DefaultResponseTextConfig
          | Some formatRaw => format ← parseResponseTextFormat formatRaw; Ok {| tc_Format := format |}
          end
      end
  end.

Definition ParseResponseTextConfig (raw : string) : res ResponseTextConfig :=
  let trimmed := TrimSpace raw in
  if decide (trimmed = "") then Ok DefaultResponseTextConfig
  else match jparse trimmed with
       | None => Err (NewValidationError "text" "text must be an object")
       | Some t => parse_text_config (Some t)
       end.

Definition InferResponseTextConfigFromRequestJSON (requestJSON : string) : json :=
  if decide (TrimSpace requestJSON = "") then mustMarshalDefaultResponseTextConfig
  else match jparse requestJSON ≫= raw_map with
       | None => mustMarshalDefaultResponseTextConfig
       | Some payload =>
           match parse_text_config (am_lookup "text" payload) with
           | Ok config => MarshalResponseTextConfig config
           | _ => mustMarshalDefaultResponseTextConfig
           end
       end.
End schema.

(** ** Generated JSON *)

Definition unwrapStructuredOutputJSONFence (raw : string) : option string :=
  if negb (HasPrefix raw "```") || negb (HasSuffix raw "```") then None
  else
    let body := TrimPrefix raw "```" in
    match Index body (char_string (chr 10)) with
    | None => None
    | Some newlineIdx =>
        let info := TrimSpace (srev (trim_char_left (chr 13) (srev (stake newlineIdx body)))) in
        if bool_decide (info <> "") && negb (EqualFold info "json") then None
        else
          let content := TrimSpace (TrimSuffix (sdrop (newlineIdx + 1) body) "```") in
          if decide (content = "") then None else Some content
    end.

Definition NormalizeStructuredOutputJSONText (raw : string) : string :=
  let trimmed := TrimSpace raw in
  if decide (trimmed = "") then ""
  else if Valid trimmed then trimmed
  else match unwrapStructuredOutputJSONFence trimmed with
       | Some unwrapped => if Valid unwrapped then unwrapped else trimmed
       | None => trimmed
       end.

(** A value decoded with UseNumber. *)
Inductive nval : Type :=
| NNull
| NBool (b : bool)
| NNum (lit : string)
| NStr (s : string)
| NArr (l : list nval)
| NMap (m : list (string * nval)).

Fixpoint nval_of (t : json) : nval :=
  match t with
  | JNull => NNull
  | JBool b => NBool b
  | JNum l => NNum l
  | JStr l => NStr (unquote l)
  | JArr l => NArr (map nval_of l)
  | JObj l => NMap (am_of_list (map (fun kv => (unquote kv.1, nval_of kv.2)) l))
  end.

(** json.Marshal of such a value: a json.Number is its literal. *)
Fixpoint nval_json (v : nval) : json :=
  match v with
  | NNull => JNull
  | NBool b => JBool b
  | NNum l => JNum l
  | NStr s => json_str s
  | NArr l => JArr (map nval_json l)
  | NMap m => JObj (map (fun kv => (encode_body kv.1, nval_json kv.2)) m)
  end.

Definition invalidStructuredOutputError (message : string) : goerr := EInvalidResponse message.

Definition decodeStructuredOutput (outputText : string) : res nval :=
  let trimmed := NormalizeStructuredOutputJSONText outputText in
  if decide (trimmed = "") then Err (invalidStructuredOutputError "structured output response was empty")
  else match jparse trimmed with
       | None => Err (invalidStructuredOutputError "structured output response was not valid JSON")
       | Some t => Ok (nval_of t)
       end.

Definition validateJSONObjectOutput (outputText : string) : res unit :=
  value ← decodeStructuredOutput outputText;
  match value with
  | NMap _ => Ok tt
  | _ => Err (invalidStructuredOutputError "json_object responses must decode to a JSON object")
  end.

(** A schema value against a generated one: their JSON texts are compared. *)
Definition valuesEqual (left : gval) (right : nval) : bool :=
  bool_decide (jprint (of_any left) = jprint (nval_json right)).

Definition isJSONNumber (value : nval) : bool := match value with NNum _ => true | _ => false end.

(** math.Trunc(f) == f *)
Definition float_integral (f : float64) : bool :=
  if (0 <=? f_exp f)%Z then true else (f_mant f mod 2 ^ (- f_exp f) =? 0)%Z.

Definition isJSONInteger (value : nval) : bool :=
  match value with
  | NNum l => match literal_float l with Some f => float_integral f | None => false end
  | _ => false
  end.

Definition schemaString (value : option gval) : string := asString value.

Section conformance.
Context `{MapOrder} `{UnicodeTable}.

Definition must (b : bool) (message : string) : res unit :=
  if b then Ok tt else Err (invalidStructuredOutputError message).

Definition validate_enum (value : nval) (schema : list (string * gval)) (path : string) : res unit :=
  match am_lookup "enum" schema with
  | None => Ok tt
  | Some (GArr enumItems) =>
      must (existsb (fun candidate => valuesEqual candidate value) enumItems)
        (path +:+ " must match one of the configured enum values")
  | Some _ => Err (invalidStructuredOutputError (path +:+ ".enum must be an array"))
  end.

Definition validate_required (objectValue : list (string * nval)) (schema : list (string * gval)) (path : string) : res unit :=
  match am_lookup "required" schema with
  | None => Ok tt
  | Some (GArr required) =>
      first_err (fun entry =>
        let name := TrimSpace (schemaString (Some entry)) in
        if decide (name = "") then Err (invalidStructuredOutputError (path +:+ ".required must contain strings"))
        else must (match am_lookup name objectValue with Some _ => true | None => false end)
               (path +:+ "." +:+ name +:+ " is required")) required
  | Some _ => Err (invalidStructuredOutputError (path +:+ ".required must be an array"))
  end.

Definition validate_additional (objectValue : list (string * nval)) (schema properties : list (string * gval)) (path : string) : res unit :=
  match am_lookup "additionalProperties" schema with
  | None | Some (GBool true) => Ok tt
  | Some (GBool false) =>
      first_err (fun kv : string * nval =>
        must (match am_lookup kv.1 properties with Some _ => true | None => false end)
          (path +:+ "." +:+ kv.1 +:+ " is not allowed")) (map_order objectValue)
  | Some _ => Err (invalidStructuredOutputError (path +:+ ".additionalProperties must be a boolean"))
  end.

(** The elements of an array, with their index. *)
Fixpoint validate_elems (f : nat -> nval -> res unit) (idx : nat) (items : list nval) : res unit :=
  match items with [] => Ok tt | item :: items => _ ← f idx item; validate_elems f (S idx) items end.

Fixpoint validate_value (fuel : nat) (value : nval) (schema : list (string * gval)) (path : string) : res unit :=
  match fuel with
  | 0 => Err (EMsg "out of fuel")
  | S fuel =>
      let typeName := TrimSpace (schemaString (am_lookup "type" schema)) in
      if decide (typeName = "") then Err (invalidStructuredOutputError (path +:+ ".type is required"))
      else
        _ ← validate_enum value schema path;
        if decide (typeName = "object") then
          match value with
          | NMap objectValue =>
              properties ← (match am_lookup "properties" schema with
                            | None => Ok []
                            | Some (GMap props) => Ok props
                            | Some _ => Err (invalidStructuredOutputError (path +:+ ".properties must be an object"))
                            end);
              _ ← validate_required objectValue schema path;
              _ ← validate_additional objectValue schema properties path;
              first_err (fun kv =>
                match am_lookup kv.1 objectValue with
                | None => Ok tt
                | Some childValue =>
                    match kv.2 with
                    | GMap childSchema => validate_value fuel childValue childSchema (path +:+ "." +:+ kv.1)
                    | _ => Err (invalidStructuredOutputError (path +:+ ".properties." +:+ kv.1 +:+ " must be an object"))
                    end
                end) (map_order properties)
          | _ => Err (invalidStructuredOutputError (path +:+ " must be an object"))
          end
        else if decide (typeName = "array") then
          match value with
          | NArr items =>
              match am_lookup "items" schema with
              | None => Err (invalidStructuredOutputError (path +:+ ".items is required"))
              | Some (GMap itemSchema) =>
                  validate_elems (fun idx item =>
                    validate_value fuel item itemSchema (path +:+ "[" +:+ digits (Z.of_nat idx) +:+ "]")) 0 items
              | Some _ => Err (invalidStructuredOutputError (path +:+ ".items must be an object"))
              end
          | _ => Err (invalidStructuredOutputError (path +:+ " must be an array"))
          end
        else if decide (typeName = "string") then
          must (match value with NStr _ => true | _ => false end) (path +:+ " must be a string")
        else if decide (typeName = "number") then must (isJSONNumber value) (path +:+ " must be a number")
        else if decide (typeName = "integer") then must (isJSONInteger value) (path +:+ " must be an integer")
        else if decide (typeName = "boolean") then
          must (match value with NBool _ => true | _ => false end) (path +:+ " must be a boolean")
        else if decide (typeName = "null") then
          must (match value with NNull => true | _ => false end) (path +:+ " must be null")
        else Err (invalidStructuredOutputError ("unsupported schema type " +:+ Quote typeName))
  end.

Definition validateJSONValueAgainstSchema (value : nval) (schema : list (string * gval)) (path : string) : res unit :=
  validate_value (S (gdepth (GMap schema))) value schema path.

Definition validateJSONSchemaOutput (schemaRaw : json) (outputText : string) : res unit :=
  value ← decodeStructuredOutput outputText;
  match any_map schemaRaw with
  | None => Err (NewValidationError "text.format.schema" "text.format.schema must be valid JSON")
  | Some schema => validateJSONValueAgainstSchema value (default [] schema) "$"
  end.
End conformance.

(** ** JSON mode *)

Definition validateJSONModeContext (items : list Item) : res unit :=
  let text := sconcat (map (fun item =>
    if decide (Type_ item = "message") then MessageText item +:+ char_string (chr 10) else "") items) in
  if Contains text "JSON" then Ok tt
  else Err (NewValidationError "text.format"
         (sq "text.format.type=json_object requires 'JSON' to appear somewhere in the conversation context")).

Definition validateLocalResponseTextRequest (config : ResponseTextConfig) (contextItems : list Item) : res unit :=
  if decide (tf_Type (tc_Format config) <> "json_object") then Ok tt else validateJSONModeContext contextItems.
