(* ===== verification/TextProps.v ===== *)
(** * Structured output: properties

    The supported schemas and the values that conform to them, as rules, and
    the proof that the two recursive checks decide them; the round trip of a
    text configuration; what the fence removal gives. *)

From S2P Require Import Prelude GoStr GoFloat GoJson JsonFacts StrFacts World Items ItemFacts Normalize NormProps TextFormat.

(** ** Schemas as rules *)

Definition schema_type (schema : list (string * gval)) : string :=
  TrimSpace (asString (am_lookup "type" schema)).

Definition properties_of (schema : list (string * gval)) : list (string * gval) :=
  match am_lookup "properties" schema with Some (GMap props) => props | _ => [] end.

Definition required_of (schema : list (string * gval)) : list string :=
  match am_lookup "required" schema with
  | Some (GArr l) => map (fun e => TrimSpace (asString (Some e))) l
  | _ => []
  end.

Definition enum_of (schema : list (string * gval)) : option (list gval) :=
  match am_lookup "enum" schema with Some (GArr l) => Some l | _ => None end.

(** What every supported schema has: a known type, only known keywords, and a
    non-empty array as enum. *)
Definition well_keyed (schema : list (string * gval)) : Prop :=
  is_schema_type (schema_type schema) = true /\
  Forall (fun kv => kv.1 ∈ allowed_keys (schema_type schema)) schema /\
  match am_lookup "enum" schema with None | Some (GArr (_ :: _)) => True | _ => False end.

Inductive supported : list (string * gval) -> Prop :=
| supported_object schema : well_keyed schema -> schema_type schema = "object" ->
    match am_lookup "additionalProperties" schema with None | Some (GBool _) => True | _ => False end ->
    match am_lookup "properties" schema with None | Some (GMap _) => True | _ => False end ->
    match am_lookup "required" schema with None | Some (GArr _) => True | _ => False end ->
    Forall (fun kv => match kv.2 with GMap _ => True | _ => False end) (properties_of schema) ->
    (forall k child, (k, GMap child) ∈ properties_of schema -> supported child) ->
    Forall (fun name => name <> "" /\
             (properties_of schema = [] \/ is_Some (am_lookup name (properties_of schema)))) (required_of schema) ->
    supported schema
| supported_array schema items : well_keyed schema -> schema_type schema = "array" ->
    am_lookup "items" schema = Some (GMap items) -> supported items -> supported schema
| supported_scalar schema : well_keyed schema -> schema_type schema <> "object" ->
    schema_type schema <> "array" -> supported schema.

(** The values of the scalar types. *)
Definition scalar_value (typeName : string) (v : nval) : bool :=
  match v with
  | NStr _ => bool_decide (typeName = "string")
  | NNum _ => bool_decide (typeName = "number") || (bool_decide (typeName = "integer") && isJSONInteger v)
  | NBool _ => bool_decide (typeName = "boolean")
  | NNull => bool_decide (typeName = "null")
  | _ => false
  end.

(** A value of the schema and a value of the text are the same: numbers when the
    text spells the number as json.Marshal does, everything else as values. *)
Inductive same_value : gval -> nval -> Prop :=
| same_null : same_value GNull NNull
| same_bool b : same_value (GBool b) (NBool b)
| same_num f : same_value (GNum f) (NNum (float_text f))
| same_str s : same_value (GStr s) (NStr s)
| same_arr l l' : Forall2 same_value l l' -> same_value (GArr l) (NArr l')
| same_map m m' : Forall2 (fun kv kv' => kv.1 = kv'.1 /\ same_value kv.2 kv'.2) m m' -> same_value (GMap m) (NMap m').

Definition enum_allows (schema : list (string * gval)) (v : nval) : Prop :=
  match enum_of schema with
  | Some l => Exists (fun candidate => same_value candidate v) l
  | None => True
  end.

Inductive conforms : list (string * gval) -> nval -> Prop :=
| conforms_object schema m : schema_type schema = "object" -> enum_allows schema (NMap m) ->
    (forall name, name ∈ required_of schema -> is_Some (am_lookup name m)) ->
    (am_lookup "additionalProperties" schema = Some (GBool false) ->
     forall k v, (k, v) ∈ m -> is_Some (am_lookup k (properties_of schema))) ->
    (forall k child v, (k, GMap child) ∈ properties_of schema -> am_lookup k m = Some v -> conforms child v) ->
    conforms schema (NMap m)
| conforms_array schema items l : schema_type schema = "array" -> enum_allows schema (NArr l) ->
    am_lookup "items" schema = Some (GMap items) -> (forall v, v ∈ l -> conforms items v) ->
    conforms schema (NArr l)
| conforms_scalar schema v : enum_allows schema v -> scalar_value (schema_type schema) v = true ->
    conforms schema v.

(** ** Values of the schema and of the text *)

(** What decoding with UseNumber gives: valid strings and number literals. *)
Fixpoint nwf (v : nval) : bool :=
  match v with
  | NNum lit => valid_num lit
  | NStr s => valid_utf8 s
  | NArr l => forallb nwf l
  | NMap m => forallb (fun kv => valid_utf8 kv.1 && nwf kv.2) m
  | _ => true
  end.

Lemma nval_nested_ind (P : nval -> Prop) :
  P NNull -> (forall b, P (NBool b)) -> (forall lit, P (NNum lit)) -> (forall s, P (NStr s)) ->
  (forall l, Forall P l -> P (NArr l)) -> (forall m, Forall (fun kv => P kv.2) m -> P (NMap m)) ->
  forall v, P v.
Proof.
  intros H1 H2 H3 H4 H5 H6. fix IH 1. intros [| | | |l|m]; [clear IH; auto..| |].
  - apply H5. induction l as [|x l IHl]; constructor; [apply IH|apply IHl].
  - apply H6. induction m as [|[k x] m IHm]; constructor; [apply IH|apply IHm].
Qed.

Lemma am_of_list_elem {V} (k : string) (v : V) l : (k, v) ∈ am_of_list l -> (k, v) ∈ l.
Proof.
  intros Hin. apply am_elem_lookup in Hin; [|apply am_of_list_sorted]. rewrite am_lookup_of_list in Hin. by apply last_binding_elem in Hin.
Qed.

Lemma nval_of_wf t : jwf t = true -> nwf (nval_of t) = true.
Proof.
  induction t as [| | | |l IH|l IH] using json_nested_ind; simpl; try done.
  - intros _. apply unquote_valid.
  - rewrite !forallb_forall. intros Hw v (t & <- & Hin)%in_map_iff. rewrite Forall_forall in IH.
    apply IH; [by apply list_elem_of_In|auto].
  - rewrite !forallb_forall. intros Hw [k v] Hin%list_elem_of_In. apply am_of_list_elem in Hin.
    apply list_elem_of_fmap in Hin as ([k' t] & [= -> ->] & Hin). simpl. rewrite unquote_valid. rewrite Forall_forall in IH.
    apply (IH _ Hin). apply list_elem_of_In, Hw, andb_true_iff in Hin as [_ ?]. done.
Qed.

Lemma nval_json_wf v : nwf v = true -> jwf (nval_json v) = true.
Proof.
  induction v as [| | | |l IH|m IH] using nval_nested_ind; simpl; auto with shim.
  - rewrite !forallb_forall. intros Hw t (v & <- & Hin)%in_map_iff. rewrite Forall_forall in IH.
    apply IH; [by apply list_elem_of_In|auto].
  - rewrite !forallb_forall. intros Hw t (kv & <- & Hin)%in_map_iff. simpl. rewrite encode_body_valid. rewrite Forall_forall in IH.
    apply IH; [by apply list_elem_of_In|]. by apply Hw, andb_true_iff in Hin as [_ ?].
Qed.

Lemma json_str_inj s s' : valid_utf8 s = true -> valid_utf8 s' = true -> json_str s = json_str s' -> s = s'.
Proof. intros Hs Hs' [= He]. by rewrite <-(unquote_encode_valid s), <-(unquote_encode_valid s'), He. Qed.

(** The same tree is written for the same values. *)
Lemma same_value_json c : forall v, gwf c = true -> nwf v = true -> of_any c = nval_json v <-> same_value c v.
Proof.
  induction c as [|b|f|s|l IH|m IH] using gval_nested_ind; intros v Hc Hv.
  1-4: split; [destruct v; simpl; try done|by inversion 1].
  - constructor.
  - intros [= ->]. constructor.
  - intros [= <-]. constructor.
  - intros He. apply json_str_inj in He as ->; [constructor|done..].
  - split; [destruct v as [| | | |l'|]; try done; intros [= He]; constructor|intros Hs; inversion Hs as [| | | |? l' Hl|]; subst; clear Hs; simpl; f_equal];
      cbn [gwf nwf] in Hc, Hv.
    + revert l' Hc Hv He. induction IH as [|c l Hx Hl IHl]; intros [|v l'] Hc Hv He; try done.
      cbn [map forallb] in *. apply andb_true_iff in Hc as [? ?], Hv as [? ?]. injection He as He1 He2. constructor; [by apply Hx|by apply IHl].
    + revert IH Hc Hv. induction Hl as [|c v l l' Hx Hl IHl]; intros IH Hc Hv; [done|]. cbn [map forallb] in *.
      apply andb_true_iff in Hc as [? ?], Hv as [? ?]. inversion IH as [|? ? Hc1 Hc2]; subst. f_equal; [by apply Hc1|by apply IHl].
  - apply andb_true_iff in Hc as [_ Hc].
    split; [destruct v as [| | | | |m']; try done; intros [= He]; constructor|intros Hs; inversion Hs as [| | | | |? m' Hl]; subst; clear Hs; simpl; f_equal];
      cbn [nwf] in Hv.
    + revert m' Hc Hv He. induction IH as [|[k c] m Hx Hm IHm]; intros [|[k' v] m'] Hc Hv He; try done.
      cbn [map forallb fst snd] in *. apply andb_true_iff in Hc as [[? ?]%andb_true_iff ?], Hv as [[? ?]%andb_true_iff ?].
      injection He as He0 He1 He2. constructor; [|by apply IHm]. split; [|by apply Hx].
      by rewrite <-(unquote_encode_valid k), <-(unquote_encode_valid k'), He0.
    + revert IH Hc Hv. induction Hl as [|[k c] [k' v] m m' [Hk Hx] Hm IHm]; intros IH Hc Hv; [done|]. cbn [map forallb fst snd] in *.
      apply andb_true_iff in Hc as [[? ?]%andb_true_iff ?], Hv as [[? ?]%andb_true_iff ?]. subst k'. inversion IH as [|? ? Hc1 Hc2]; subst.
      f_equal; [f_equal; by apply Hc1|by apply IHm].
Qed.

Lemma valuesEqual_spec c v : gwf c = true -> nwf v = true -> valuesEqual c v = true <-> same_value c v.
Proof.
  intros Hc Hv. unfold valuesEqual. rewrite bool_decide_eq_true, <-same_value_json by done. split; [|congruence].
  intros He%(f_equal jparse). rewrite !jparse_jprint in He by (apply of_any_wf || by apply nval_json_wf). congruence.
Qed.

Lemma gwf_field k v m : gwf (GMap m) = true -> am_lookup k m = Some v -> gwf v = true.
Proof.
  intros [_ Hm]%andb_true_iff Hl%am_lookup_elem. rewrite forallb_forall in Hm.
  by apply list_elem_of_In, Hm, andb_true_iff in Hl as [_ ?].
Qed.

Lemma gwf_property schema k child : gwf (GMap schema) = true -> (k, GMap child) ∈ properties_of schema -> gwf (GMap child) = true.
Proof.
  unfold properties_of. intros Hg. destruct (am_lookup "properties" schema) as [[]|] eqn:E; try by intros ?%not_elem_of_nil.
  apply gwf_field in E as [_ Hm]%andb_true_iff; [|done]. rewrite forallb_forall in Hm.
  intros Hin. by apply list_elem_of_In, Hm, andb_true_iff in Hin as [_ ?].
Qed.

Lemma nwf_lookup k v m : nwf (NMap m) = true -> am_lookup k m = Some v -> nwf v = true.
Proof.
  cbn [nwf]. rewrite forallb_forall. intros Hm Hl%am_lookup_elem. by apply list_elem_of_In, Hm, andb_true_iff in Hl as [_ ?].
Qed.

(** ** Lemmas on the checks *)

Lemma first_err_ok {A} (f : A -> res unit) l : first_err f l = Ok tt <-> Forall (fun x => f x = Ok tt) l.
Proof.
  induction l as [|x l IH]; simpl; [split; [constructor|done]|]. rewrite Forall_cons, <-IH.
  destruct (f x) as [[]| |]; simpl; intuition congruence.
Qed.

Lemma must_ok b msg : must b msg = Ok tt <-> b = true.
Proof. by destruct b. Qed.

Lemma unit_bind_ok (m : res unit) (k : res unit) :
  (_ ← m; k) = Ok tt <-> m = Ok tt /\ k = Ok tt.
Proof. destruct m as [[]| |]; simpl; intuition congruence. Qed.

Lemma gdepth_elem k v m : (k, v) ∈ m -> gdepth v < gdepth (GMap m).
Proof.
  simpl. induction m as [|[k' v'] m IH]; [by intros ?%not_elem_of_nil|]. simpl.
  intros [[= -> ->]|Hin]%elem_of_cons; [lia|]. specialize (IH Hin). lia.
Qed.

Lemma gdepth_lookup k v m : am_lookup k m = Some v -> gdepth v < gdepth (GMap m).
Proof. intros H. apply am_lookup_elem in H. by eapply gdepth_elem. Qed.

Lemma gdepth_properties schema k child : (k, GMap child) ∈ properties_of schema ->
  gdepth (GMap child) < gdepth (GMap schema).
Proof.
  unfold properties_of. destruct (am_lookup "properties" schema) as [[]|] eqn:E; try by intros ?%not_elem_of_nil.
  intros Hin. apply gdepth_elem in Hin. apply gdepth_lookup in E. lia.
Qed.

Section checks.
Context `{MapOrder} `{UnicodeTable}.

Lemma range_ok {V} (f : string * V -> res unit) m :
  first_err f (map_order m) = Ok tt <-> Forall (fun kv => f kv = Ok tt) m.
Proof. rewrite first_err_ok. by rewrite map_order_perm. Qed.

Lemma check_keys_ok schema path :
  first_err (check_key (schema_type schema) path) (map_order schema) = Ok tt <->
  Forall (fun kv => kv.1 ∈ allowed_keys (schema_type schema)) schema.
Proof.
  rewrite range_ok. apply Forall_iff. intros kv. unfold check_key. by case_decide.
Qed.

Lemma check_enum_ok schema path :
  check_enum schema path = Ok tt <->
  match am_lookup "enum" schema with None | Some (GArr (_ :: _)) => True | _ => False end.
Proof. unfold check_enum. by destruct (am_lookup "enum" schema) as [[| | | |[]|]|]. Qed.

Lemma check_required_ok schema props path :
  check_required schema props path = Ok tt <->
  match am_lookup "required" schema with None | Some (GArr _) => True | _ => False end /\
  Forall (fun name => name <> "" /\ (props = [] \/ is_Some (am_lookup name props))) (required_of schema).
Proof.
  unfold check_required, required_of. destruct (am_lookup "required" schema) as [[| | | |l|]|];
    try (split; [by repeat constructor|by intros []]).
  rewrite first_err_ok, Forall_map. assert (Ht : forall P Q : Prop, (P <-> Q) -> (P <-> True /\ Q)) by tauto.
  apply Ht, Forall_iff. intros e. cbv beta zeta.
  case_decide as Hn; [split; [done|by intros [? _]]|]. destruct props as [|p props]; [intuition done|].
  destruct (am_lookup _ (p :: props)) eqn:E; rewrite ?E; [split; [intros _; split; [done|by right]|done]|].
  split; [done|]. intros [_ [?|[? ?]]]; congruence.
Qed.

Lemma validate_node_spec fuel schema path : gdepth (GMap schema) < fuel ->
  validate_node fuel schema path = Ok tt <-> supported schema.
Proof.
  revert schema path. induction fuel as [|fuel IH]; intros schema path Hd; [lia|].
  cbn [validate_node]. fold (schema_type schema).
  assert (Hk : forall K : Prop, (well_keyed schema -> (K <-> supported schema)) ->
    (is_schema_type (schema_type schema) = true /\
     Forall (fun kv => kv.1 ∈ allowed_keys (schema_type schema)) schema /\
     match am_lookup "enum" schema with None | Some (GArr (_ :: _)) => True | _ => False end /\ K) <-> supported schema).
  { intros K HK. split; [intros (H1 & H2 & H3 & H4); by apply HK|].
    intros Hs. assert (Hw : well_keyed schema) by by inversion Hs. destruct (Hw) as (? & ? & ?).
    repeat split; try done. by apply HK. }
  destruct (decide (schema_type schema = "")) as [He|He].
  { rewrite <-(Hk (False)); [rewrite He; split; [done|by intros (? & _)]|]. by intros [Hf _]; rewrite He in Hf. }
  destruct (is_schema_type (schema_type schema)) eqn:Et; cbn [negb].
  2:{ rewrite <-(Hk False); [split; [done|by intros (? & _)]|]. intros [Hf _]. congruence. }
  rewrite !unit_bind_ok, check_keys_ok, check_enum_ok.
  match goal with |- (?a /\ ?b /\ ?K) <-> _ => rewrite <-(Hk K) end; [tauto|]. clear Hk. intros Hw.
  destruct (decide (schema_type schema = "object")) as [Ho|Ho].
  - assert (Hp : forall path', (properties ← (match am_lookup "properties" schema with
               | None => Ok []
               | Some (GMap props) =>
                   _ ← first_err (fun kv =>
                     match kv.2 with
                     | GMap child => validate_node fuel child (path' +:+ ".properties." +:+ kv.1)
                     | _ => Err (schema_error (path' +:+ ".properties." +:+ kv.1 +:+ " must be an object"))
                     end) (map_order props);
                   Ok props
               | Some _ => Err (schema_error (path' +:+ ".properties must be an object"))
               end);
          check_required schema properties path') = Ok tt <->
        match am_lookup "properties" schema with None | Some (GMap _) => True | _ => False end /\
        (forall kv, kv ∈ properties_of schema -> exists child, kv.2 = GMap child /\ supported child) /\
        match am_lookup "required" schema with None | Some (GArr _) => True | _ => False end /\
        Forall (fun name => name <> "" /\
             (properties_of schema = [] \/ is_Some (am_lookup name (properties_of schema)))) (required_of schema)).
    { intros path'. pose proof (gdepth_lookup "properties" (GMap (properties_of schema)) schema) as Hdp.
      unfold properties_of in *. destruct (am_lookup "properties" schema) as [[]|];
        try (split; [done|by intros ([] & _)]).
      - specialize (Hdp eq_refl). unfold mbind at 1, res_bind at 1.
        assert (Hc : first_err (fun kv => match kv.2 with
                     | GMap child => validate_node fuel child (path' +:+ ".properties." +:+ kv.1)
                     | _ => Err (schema_error (path' +:+ ".properties." +:+ kv.1 +:+ " must be an object"))
                     end) (map_order m) = Ok tt <->
                     (forall kv, kv ∈ m -> exists child, kv.2 = GMap child /\ supported child)).
        { rewrite range_ok, Forall_forall. split; intros Hall [k v] Hin; specialize (Hall _ Hin); simpl in *.
          - destruct v; try done. eexists. split; [done|]. eapply IH; [|exact Hall].
            apply gdepth_elem in Hin. simpl in *. lia.
          - destruct Hall as (child & -> & Hs). apply IH; [|done]. apply gdepth_elem in Hin. simpl in *. lia. }
        destruct (first_err _ _) as [[]| |]; simpl; rewrite ?check_required_ok;
          [|split; [done|intros (_ & Hf & _); by apply Hc in Hf]..].
        split; [intros ?; split; [done|]; split; [by apply Hc|done]|by intros (_ & _ & ?)].
      - cbn. rewrite check_required_ok. split; [intros ?; split; [done|]; split; [by intros ? ?%not_elem_of_nil|done]|by intros (_ & _ & ?)]. }
    rewrite unit_bind_ok. rewrite Hp. clear Hp. split.
    + intros (Ha & H1 & H2 & H3 & H4). eapply supported_object; try done.
      * by destruct (am_lookup "additionalProperties" schema) as [[]|].
      * apply Forall_forall. intros kv (child & -> & _)%H2. done.
      * intros k child (child' & [= <-] & Hc)%H2. done.
    + intros Hs. inversion Hs as [? ? ? ? ? ? Hf Hc| |]; simplify_eq; try congruence.
      repeat split; try done; [by destruct (am_lookup "additionalProperties" schema) as [[]|]|].
      intros [k v] Hin. rewrite Forall_forall in Hf. specialize (Hf _ Hin). simpl in *.
      destruct v; try done. eauto.
  - destruct (decide (schema_type schema = "array")) as [Ha|Ha].
    + split.
      * destruct (am_lookup "items" schema) as [[]|] eqn:E; try done. intros Hv.
        eapply supported_array; [done|done|done|]. eapply IH; [|exact Hv]. apply gdepth_lookup in E. lia.
      * intros Hs. inversion Hs as [|? items ?? E Hi|]; simplify_eq; try congruence.
        rewrite E. apply IH; [|done]. apply gdepth_lookup in E. lia.
    + split; [|done]. intros _. by apply supported_scalar.
Qed.

Lemma validate_enum_ok value schema path :
  gwf (GMap schema) = true -> nwf value = true ->
  match am_lookup "enum" schema with None | Some (GArr (_ :: _)) => True | _ => False end ->
  validate_enum value schema path = Ok tt <-> enum_allows schema value.
Proof.
  intros Hg Hv He. unfold validate_enum, enum_allows, enum_of. destruct (am_lookup "enum" schema) as [[| | | |l|]|] eqn:E; try done.
  apply gwf_field in E; [|done]. cbn [gwf] in E. rewrite forallb_forall in E.
  rewrite must_ok, existsb_exists, Exists_exists. split; intros (c & Hin & Hc).
  - exists c. split; [by apply list_elem_of_In|]. apply valuesEqual_spec; [by apply E|done|done].
  - apply list_elem_of_In in Hin. exists c. split; [done|]. apply valuesEqual_spec; [by apply E|done|done].
Qed.

Lemma validate_required_ok m schema path :
  match am_lookup "required" schema with None | Some (GArr _) => True | _ => False end ->
  Forall (fun name => name <> "") (required_of schema) ->
  validate_required m schema path = Ok tt <-> forall name, name ∈ required_of schema -> is_Some (am_lookup name m).
Proof.
  intros Hs Hn. unfold validate_required, required_of in *. destruct (am_lookup "required" schema) as [[| | | |l|]|];
    try done; [|split; [by intros _ ? ?%not_elem_of_nil|done]].
  rewrite first_err_ok, <-Forall_forall, Forall_map. rewrite Forall_map in Hn.
  rewrite !Forall_forall in *. split; intros Hall e Hin; specialize (Hall e Hin); specialize (Hn e Hin);
    unfold schemaString in *; cbv beta zeta in *; rewrite decide_False in * by done.
  - apply must_ok in Hall. by destruct (am_lookup _ m).
  - apply must_ok. destruct Hall as [x Hx]. by rewrite Hx.
Qed.

Lemma validate_additional_ok m schema path :
  match am_lookup "additionalProperties" schema with None | Some (GBool _) => True | _ => False end ->
  validate_additional m schema (properties_of schema) path = Ok tt <->
  (am_lookup "additionalProperties" schema = Some (GBool false) ->
   forall k v, (k, v) ∈ m -> is_Some (am_lookup k (properties_of schema))).
Proof.
  intros Hs. unfold validate_additional. destruct (am_lookup "additionalProperties" schema) as [[|[]| | | |]|]; try done.
  rewrite range_ok, Forall_forall. split.
  - intros Hall _ k v Hin. specialize (Hall _ Hin). apply must_ok in Hall. simpl in Hall. by destruct (am_lookup k _).
  - intros Hall [k v] Hin. apply must_ok. destruct (Hall eq_refl k v Hin) as [x Hx]. simpl. by rewrite Hx.
Qed.

Lemma validate_elems_ok f l i : validate_elems f i l = Ok tt <-> forall j v, l !! j = Some v -> f (i + j) v = Ok tt.
Proof.
  revert i. induction l as [|x l IH]; intros i; simpl; [split; [intros _ j v Hj; by rewrite lookup_nil in Hj|done]|].
  rewrite unit_bind_ok, IH. split.
  - intros [Hx Hl] [|j] v Hj; simpl in Hj; [injection Hj as <-; by rewrite Nat.add_0_r|].
    replace (i + S j) with (S i + j) by lia. auto.
  - intros Hall. split; [specialize (Hall 0 x eq_refl); by rewrite Nat.add_0_r in Hall|].
    intros j v Hj. specialize (Hall (S j) v Hj). by replace (S i + j) with (i + S j) by lia.
Qed.

(** One scalar type of the switch. *)
Lemma conforms_scalar_iff schema v : schema_type schema <> "object" -> schema_type schema <> "array" ->
  conforms schema v <-> enum_allows schema v /\ scalar_value (schema_type schema) v = true.
Proof.
  intros Ho Ha. split; [intros Hc; inversion Hc; by simplify_eq|]. intros [? ?]. by apply conforms_scalar.
Qed.

Lemma validate_value_spec fuel value schema path : gdepth (GMap schema) < fuel -> gwf (GMap schema) = true -> nwf value = true ->
  supported schema ->
  validate_value fuel value schema path = Ok tt <-> conforms schema value.
Proof.
  revert value schema path. induction fuel as [|fuel IH]; intros value schema path Hd Hg Hv Hs; [lia|].
  cbn [validate_value]. change (TrimSpace (schemaString (am_lookup "type" schema))) with (schema_type schema).
  assert (Hw : well_keyed schema) by by inversion Hs. destruct Hw as (Ht & _ & He).
  rewrite decide_False by (intros E; by rewrite E in Ht).
  rewrite unit_bind_ok, validate_enum_ok by done. apply bool_decide_eq_true in Ht.
  destruct (decide (schema_type schema = "object")) as [Ho|Ho].
  { inversion Hs as [? ? ? Had Hpr Hrq Hfc Hch Hnm| |]; simplify_eq; try congruence.
    destruct value as [| | | | |m]; try (split; [by intros []|intros Hc; inversion Hc; simplify_eq; by rewrite Ho in *]).
    assert (Hprops : match am_lookup "properties" schema with
             | None => Ok []
             | Some (GMap props) => Ok props
             | Some _ => Err (invalidStructuredOutputError (path +:+ ".properties must be an object"))
             end = Ok (properties_of schema)).
    { unfold properties_of. by destruct (am_lookup "properties" schema) as [[]|]. }
    rewrite Hprops. unfold mbind at 1, res_bind at 1.
    rewrite !unit_bind_ok, validate_required_ok, validate_additional_ok, range_ok, Forall_forall;
      [|done|done|eapply Forall_impl; [exact Hnm|]; by intros ? [? _]].
    split.
    - intros (Q1 & Q2 & Q3 & Q4). apply conforms_object; try done. intros k child v Hin Hl.
      specialize (Q4 _ Hin). simpl in Q4. rewrite Hl in Q4. eapply IH; [|by eapply gwf_property|by eapply nwf_lookup|by eapply Hch|exact Q4].
      apply gdepth_properties in Hin. lia.
    - intros Hc. inversion Hc as [? ? _ Q1 Q2 Q3 Q4| |? ? _ Hsc]; simplify_eq; try done.
      split; [done|]. split; [done|]. split; [done|]. intros [k v] Hin. simpl.
      destruct (am_lookup k m) as [cv|] eqn:Ek; [|done].
      rewrite Forall_forall in Hfc. specialize (Hfc _ Hin). simpl in Hfc. destruct v; try done.
      apply IH; [apply gdepth_properties in Hin; lia|by eapply gwf_property|by eapply nwf_lookup|by eapply Hch|by eapply Q4]. }
  destruct (decide (schema_type schema = "array")) as [Ha|Ha].
  { inversion Hs as [|? items ? ? Hit Hsi|]; simplify_eq; try congruence.
    destruct value as [| | | |l|]; try (split; [by intros []|intros Hc; inversion Hc; simplify_eq; by rewrite Ha in *]).
    rewrite Hit, validate_elems_ok. apply gdepth_lookup in Hit as Hdi. apply gwf_field in Hit as Hgi; [|done].
    assert (Hl : forall v, v ∈ l -> nwf v = true).
    { intros v Hin. cbn [nwf] in Hv. rewrite forallb_forall in Hv. by apply Hv, list_elem_of_In. }
    split.
    - intros [Q1 Q2]. eapply conforms_array; try done. intros v [j Hj]%list_elem_of_lookup.
      eapply IH; [lia|done| |done|by eapply Q2]. apply Hl. by eapply list_elem_of_lookup_2.
    - intros Hc. inversion Hc as [|? items' ? _ Q1 Hit' Q2|? ? _ Hsc]; simplify_eq; try done.
      split; [done|]. intros j v Hj. apply list_elem_of_lookup_2 in Hj. apply IH; [lia|done|by apply Hl|done|]. by apply Q2. }
  rewrite conforms_scalar_iff by done. apply and_iff_compat_l.
  rewrite !elem_of_cons, elem_of_nil in Ht. destruct Ht as [?|[?|[E|[E|[E|[E|[E|[]]]]]]]]; try done; rewrite E;
    cbv [decide decide_rel]; simpl; rewrite must_ok; destruct value; simpl; rewrite ?orb_false_r; done.
Qed.
End checks.

(** ** Errors of the checks *)

(** A check accepts, or rejects the generated text. *)
Definition accepts_or_rejects (r : res unit) : Prop :=
  r = Ok tt \/ exists message, r = Err (EInvalidResponse message).

Lemma rejects message : accepts_or_rejects (Err (invalidStructuredOutputError message)).
Proof. right. by exists message. Qed.

Lemma accepts : accepts_or_rejects (Ok tt).
Proof. by left. Qed.

Lemma aor_must b message : accepts_or_rejects (must b message).
Proof. destruct b; [apply accepts|apply rejects]. Qed.

Lemma aor_bind (m k : res unit) : accepts_or_rejects m -> accepts_or_rejects k -> accepts_or_rejects (_ ← m; k).
Proof. intros [->|[msg ->]] Hk; simpl; [done|]. right. by exists msg. Qed.

Lemma aor_first {A} (f : A -> res unit) l : (forall x, x ∈ l -> accepts_or_rejects (f x)) -> accepts_or_rejects (first_err f l).
Proof.
  induction l as [|x l IH]; intros Hf; simpl; [apply accepts|]. apply aor_bind; [apply Hf; set_solver|].
  apply IH. set_solver.
Qed.

Lemma aor_elems f i l : (forall j x, accepts_or_rejects (f j x)) -> accepts_or_rejects (validate_elems f i l).
Proof.
  intros Hf. revert i. induction l as [|x l IH]; intros i; simpl; [apply accepts|]. by apply aor_bind.
Qed.

#[local] Hint Resolve rejects accepts aor_must aor_bind aor_first aor_elems : core.

Section errors.
Context `{MapOrder} `{UnicodeTable}.

Lemma validate_required_aor m schema path : accepts_or_rejects (validate_required m schema path).
Proof.
  unfold validate_required. destruct (am_lookup "required" schema) as [[]|]; auto.
  apply aor_first. intros e _. cbv zeta. case_decide; auto.
Qed.

Lemma validate_additional_aor m schema props path : accepts_or_rejects (validate_additional m schema props path).
Proof. unfold validate_additional. destruct (am_lookup "additionalProperties" schema) as [[|[]| | | |]|]; auto. Qed.

Lemma validate_value_aor fuel value schema path : gdepth (GMap schema) < fuel ->
  accepts_or_rejects (validate_value fuel value schema path).
Proof.
  revert value schema path. induction fuel as [|fuel IH]; intros value schema path Hd; [lia|]. cbn [validate_value].
  case_decide; [auto|]. apply aor_bind.
  { unfold validate_enum. destruct (am_lookup "enum" schema) as [[]|]; auto. }
  case_decide.
  { destruct value; auto. destruct (am_lookup "properties" schema) as [[| | | | |props]|] eqn:Ep; try (apply rejects);
      unfold mbind at 1, res_bind at 1.
    - apply aor_bind; [apply validate_required_aor|]. apply aor_bind; [apply validate_additional_aor|]. apply aor_first.
      intros [k v] Hin. rewrite map_order_perm in Hin. simpl. destruct (am_lookup k m); auto.
        destruct v; auto. apply IH. apply gdepth_elem in Hin. apply gdepth_lookup in Ep. lia.
    - apply aor_bind; [apply validate_required_aor|]. apply aor_bind; [apply validate_additional_aor|]. apply aor_first. intros [k v] Hin. rewrite map_order_perm in Hin. by apply not_elem_of_nil in Hin. }
  case_decide.
  { destruct value; auto. destruct (am_lookup "items" schema) as [[]|] eqn:Ei; auto.
    apply aor_elems. intros j x. apply IH. apply gdepth_lookup in Ei. lia. }
  repeat (case_decide; [auto|]). auto.
Qed.
End errors.

(** ** The text configuration round trip *)

Definition escaped_config (c : ResponseTextConfig) : ResponseTextConfig :=
  let f := tc_Format c in
  {| tc_Format := {| tf_Type := tf_Type f; tf_Name := tf_Name f; tf_Strict := tf_Strict f;
                     tf_Schema := jesc <$> tf_Schema f |} |}.

(** The configurations parsing gives. *)
Definition format_ok `{MapOrder} `{UnicodeTable} (f : ResponseTextFormat) : Prop :=
  (f = {| tf_Type := "text"; tf_Name := ""; tf_Strict := None; tf_Schema := None |} \/
   f = {| tf_Type := "json_object"; tf_Name := ""; tf_Strict := None; tf_Schema := None |}) \/
  exists name strict l, f = {| tf_Type := "json_schema"; tf_Name := name; tf_Strict := strict; tf_Schema := Some (JObj l) |} /\
    jok (JObj l) = true /\ valid_utf8 name = true /\ TrimSpace name = name /\
    validateSupportedResponseJSONSchema (JObj l) "$" = Ok tt.

Section round_trip.
Context `{MapOrder} `{UnicodeTable}.

Lemma parse_format_ok t f : jok t = true -> parseResponseTextFormat t = Ok f -> format_ok f.
Proof.
  intros Hok. unfold parseResponseTextFormat. destruct (raw_map t) as [payload|] eqn:Em; [|done].
  intros (ty & _ & Hty)%res_bind_ok. case_decide as Hd.
  { apply res_bind_ok in Hty as ([] & _ & [= <-]). left. destruct Hd as [->| ->]; auto. }
  case_decide; [|done]. right. unfold parse_schema_format in Hty.
  apply res_bind_ok in Hty as ([] & _ & Hty). apply res_bind_ok in Hty as (name & Hname & Hty).
  apply res_bind_ok in Hty as (strict & _ & Hty).
  destruct (am_lookup "schema" payload) as [[| | | | |l]|] eqn:Es; try done.
  apply res_bind_ok in Hty as ([] & Hv & [= <-]). exists name, strict, l. split; [done|].
  split; [by eapply raw_map_jok|]. split; [|split; [|done]].
  - destruct (am_lookup "name" payload) as [[]|]; try done; injection Hname as <-; try done.
    apply TrimSpace_valid, unquote_valid.
  - destruct (am_lookup "name" payload) as [[]|]; try done; injection Hname as <-; try done.
    apply TrimSpace_idemp.
Qed.

Lemma parse_config_ok t c : jok t = true -> parse_text_config (Some t) = Ok c -> format_ok (tc_Format c).
Proof.
  intros Hok Hp. assert (Hdef : format_ok (tc_Format DefaultResponseTextConfig)) by (by left; left).
  destruct t as [| | | | |l]; try done; [by injection Hp as <-|]. unfold parse_text_config in Hp.
  destruct (raw_map (JObj l)) as [payload|] eqn:Em; [|done]. apply res_bind_ok in Hp as ([] & _ & Hp).
  destruct (am_lookup "format" payload) as [t|] eqn:Ef; [|by injection Hp as <-].
  assert (Hjok : jok t = true) by (by eapply raw_map_jok).
  destruct t; try by injection Hp as <-.
  all: apply res_bind_ok in Hp as (f & Hf & [= <-]); by apply parse_format_ok in Hf.
Qed.

Lemma schema_check_jesc l : jok (JObj l) = true ->
  validateSupportedResponseJSONSchema (jesc (JObj l)) "$" = validateSupportedResponseJSONSchema (JObj l) "$".
Proof.
  intros Hok. unfold validateSupportedResponseJSONSchema.
  assert (Ha : any_map (jesc (JObj l)) = any_map (JObj l)).
  { pose proof (any_of_jesc _ Hok) as E. unfold any_map. cbn [jesc] in *. by rewrite E. }
  by rewrite Ha.
Qed.

(** Reading back the members json.Marshal wrote for a schema format. *)
Lemma parse_schema_members name strict t :
  raw_map (JObj (("type", json_str "json_schema") :: omit_string "name" name
          ++ match strict with Some b => [("strict", JBool b)] | None => [] end ++ [("schema", t)])) =
  Some ((if decide (name = "") then [] else [("name", json_str name)]) ++ [("schema", t)]
        ++ match strict with Some b => [("strict", JBool b)] | None => [] end
        ++ [("type", json_str "json_schema")]).
Proof. unfold omit_string. case_decide; destruct strict; reflexivity. Qed.

Lemma parse_marshalled_format f : format_ok f ->
  parse_text_config (Some (text_config_json {| tc_Format := f |})) = Ok (escaped_config {| tc_Format := f |}).
Proof.
  intros Hf.
  assert (Hone : forall t, map_order [("format", t : json)] = [("format", t)]).
  { intros t. apply Permutation_singleton_r. apply map_order_perm. }
  assert (Hp : forall t, parse_text_config (Some (JObj [("format", t)])) =
     match t with JNull => Ok DefaultResponseTextConfig
                | _ => format ← parseResponseTextFormat t; Ok {| tc_Format := format |} end).
  { intros t. unfold parse_text_config. change (raw_map (JObj [("format", t)])) with (Some [("format", t)]).
    cbv iota beta. rewrite Hone. cbn [first_err]. rewrite decide_True by done. by destruct t. }
  unfold text_config_json. rewrite Hp. cbn [tc_Format].
  destruct Hf as [[->| ->]|(name & strict & l & -> & Hok & Hu & Ht & Hv)]; [reflexivity..|].
  cbn [tf_Type tf_Name tf_Strict tf_Schema]. unfold parseResponseTextFormat. rewrite parse_schema_members.
  set (m := (if decide (name = "") then _ else _) ++ _).
  assert (Hty : am_lookup "type" m = Some (json_str "json_schema"))
    by (subst m; case_decide; destruct strict; reflexivity).
  assert (Hsc : am_lookup "schema" m = Some (jesc (JObj l)))
    by (subst m; case_decide; destruct strict; reflexivity).
  assert (Hst : am_lookup "strict" m = JBool <$> strict)
    by (subst m; case_decide; destruct strict; reflexivity).
  assert (Hna : am_lookup "name" m = if decide (name = "") then None else Some (json_str name))
    by (subst m; case_decide; destruct strict; reflexivity).
  assert (Hky : rejectUnsupportedResponseTextFormatKeys m ["type"; "name"; "strict"; "schema"] = Ok tt)
    by (subst m; case_decide; destruct strict; reflexivity).
  rewrite Hty. change (TrimSpace (unquote (encode_body "json_schema"))) with "json_schema". cbn [json_str].
  change (unquote (encode_body "json_schema")) with "json_schema".
  change (TrimSpace "json_schema") with "json_schema". unfold mbind, res_bind. cbn [decide].
  rewrite decide_False by (by intros [?|?]). rewrite decide_True by done. unfold parse_schema_format.
  rewrite <-schema_check_jesc in Hv by done. rewrite Hky, Hna, Hst, Hsc.
  assert (Hl : exists l', jesc (JObj l) = JObj l') by (by eexists). destruct Hl as [l' Hl].
  unfold escaped_config. cbn [tc_Format tf_Type tf_Name tf_Strict tf_Schema]. change (jesc <$> Some ?x) with (Some (jesc x)).
  rewrite Hl in *. unfold mbind, res_bind. rewrite Hv.
  assert (Hnm : match (if decide (name = "") then None else Some (json_str name)) with
          | None | Some JNull => Ok ""
          | Some (JStr l) => Ok (TrimSpace (unquote l))
          | Some _ => Err (NewValidationError "text.format.name" "text.format.name must be a string")
          end = Ok name).
  { case_decide as Hd; [by rewrite Hd|]. cbn [json_str]. by rewrite unquote_encode_valid, Ht. }
  rewrite Hnm. by destruct strict.
Qed.
End round_trip.

(** ** Fenced output *)

Definition line_end : string := char_string (chr 10).

(** A document in a fence, as models print it. *)
Definition fenced (info doc : string) : string := "```" +:+ info +:+ line_end +:+ doc +:+ line_end +:+ "```".

Lemma TrimSpace_line_end a s b : solid a = true -> solid b = true ->
  TrimSpace (String a (s +:+ char_string b) +:+ line_end) = String a (s +:+ char_string b).
Proof.
  intros Ha Hb. unfold TrimSpace, trim_left, trim_right. rewrite sapp_cons.
  rewrite (trim_with_id space2 space3) by by apply solid_lead_l.
  rewrite srev_cons, !srev_app. change (srev line_end) with line_end.
  change (srev (char_string b)) with (char_string b). unfold line_end, char_string.
  rewrite !sapp_cons, !sapp_nil_l. cbn [trim_with]. change (space1 (chr 10)) with true. cbv iota.
  rewrite trim_with_id by (rewrite ?sapp_cons; by apply solid_lead_r).
  by rewrite srev_app, (srev_cons b), srev_involutive.
Qed.

Lemma fenced_invalid info doc : Valid (fenced info doc) = false.
Proof. reflexivity. Qed.

Lemma HasSuffix_app s t : HasSuffix (s +:+ t) t = true.
Proof. unfold HasSuffix. rewrite srev_app. apply HasPrefix_spec. by eexists. Qed.

Lemma unwrap_fenced info l : info = "" \/ info = "json" ->
  unwrapStructuredOutputJSONFence (fenced info (jprint (JObj l))) = Some (jprint (JObj l)).
Proof.
  intros Hi. set (doc := jprint (JObj l)). unfold unwrapStructuredOutputJSONFence.
  assert (Hs : HasSuffix (fenced info doc) "```" = true).
  { unfold fenced. rewrite <-!sapp_assoc. apply HasSuffix_app. }
  rewrite Hs. change (HasPrefix (fenced info doc) "```") with true. cbn [negb orb].
  assert (Hb : TrimPrefix (fenced info doc) "```" = info +:+ line_end +:+ doc +:+ line_end +:+ "```") by reflexivity.
  rewrite Hb.
  assert (Hx : Index (info +:+ line_end +:+ doc +:+ line_end +:+ "```") (char_string (chr 10)) = Some (String.length info))
    by (destruct Hi as [->| ->]; reflexivity).
  rewrite Hx. rewrite (stake_app _ info) by done.
  assert (Hinfo : bool_decide (TrimSpace (srev (trim_char_left (chr 13) (srev info))) <> "") &&
                  negb (EqualFold (TrimSpace (srev (trim_char_left (chr 13) (srev info)))) "json") = false)
    by (destruct Hi as [->| ->]; reflexivity).
  rewrite Hinfo.
  assert (Hd : sdrop (String.length info + 1) (info +:+ line_end +:+ doc +:+ line_end +:+ "```") = (doc +:+ line_end) +:+ "```").
  { rewrite <-sdrop_sdrop, sdrop_app by done. change (sdrop 1 (line_end +:+ ?x)) with x. by rewrite sapp_assoc. }
  rewrite Hd. unfold TrimSuffix. rewrite HasSuffix_app, stake_app by (rewrite !slength_app; lia).
  assert (Ht : TrimSpace (doc +:+ line_end) = doc).
  { subst doc. cbn [jprint]. change ("{" +:+ ?s) with (String "{" s). change ("}") with (char_string "}").
    by apply TrimSpace_line_end. }
  rewrite Ht. rewrite decide_False; [done|]. by subst doc.
Qed.

Lemma fenced_trimmed info doc : TrimSpace (fenced info doc) = fenced info doc.
Proof.
  unfold fenced. change ("```" +:+ ?s) with (String "`" (String "`" (String "`" s))).
  assert (Hb : exists x, String "`" (String "`" (info +:+ line_end +:+ doc +:+ line_end +:+ "```")) = x +:+ char_string "`").
  { exists (String "`" (String "`" (info +:+ line_end +:+ doc +:+ line_end +:+ "``"))).
    change "```" with ("``" +:+ char_string "`"). by rewrite !sapp_cons, !sapp_assoc. }
  destruct Hb as [x ->]. by apply TrimSpace_solid.
Qed.

Lemma jprint_obj_not_empty l : jprint (JObj l) <> "".
Proof. done. Qed.

(** Fact (round trip): a JSON object the model produced is read as that object,
    whether it stands alone or in a fence with or without the word json; the
    fence itself is not JSON, so nothing is lost by removing it. *)
Theorem fenced_object_decodes l : jwf (JObj l) = true ->
  decodeStructuredOutput (jprint (JObj l)) = Ok (nval_of (JObj l)) /\
  decodeStructuredOutput (fenced "" (jprint (JObj l))) = Ok (nval_of (JObj l)) /\
  decodeStructuredOutput (fenced "json" (jprint (JObj l))) = Ok (nval_of (JObj l)).
Proof.
  intros Hw. pose proof (jparse_jprint _ Hw) as Hp.
  assert (Hv : Valid (jprint (JObj l)) = true) by (unfold Valid; by rewrite Hp).
  assert (Hf : forall info, info = "" \/ info = "json" ->
    decodeStructuredOutput (fenced info (jprint (JObj l))) = Ok (nval_of (JObj l))).
  { intros info Hi. unfold decodeStructuredOutput, NormalizeStructuredOutputJSONText.
    rewrite fenced_trimmed, fenced_invalid, unwrap_fenced, Hv by done.
    rewrite (decide_False (P := fenced _ _ = "")) by done. rewrite decide_False by apply jprint_obj_not_empty.
    by rewrite Hp. }
  split; [|split; apply Hf; auto].
  unfold decodeStructuredOutput, NormalizeStructuredOutputJSONText. rewrite TrimSpace_obj, Hv.
  rewrite (decide_False (P := jprint (JObj l) = "")) by apply jprint_obj_not_empty.
  rewrite decide_False by apply jprint_obj_not_empty. by rewrite Hp.
Qed.

Lemma fenced_object_decodes_witness :
  decodeStructuredOutput (fenced "json" (sq "{'answer':1}")) = Ok (NMap [("answer", NNum "1")]).
Proof. apply (fenced_object_decodes [("answer", JNum "1")]). reflexivity. Defined.

(** Fact (equivalence): the recursive schema check accepts exactly the supported
    schemas, in whatever order the maps of the schema are ranged over. *)
Theorem validateSupportedResponseJSONSchemaNode_spec `{MapOrder} `{UnicodeTable} payload path :
  validateSupportedResponseJSONSchemaNode payload path = Ok tt <-> supported payload.
Proof. apply validate_node_spec. lia. Qed.

(** C37 (equivalence): against a supported schema, a generated text is accepted
    exactly when, with white space and a fence removed, it is a JSON value that
    conforms to the schema; every other text is rejected as an invalid
    response.  A value conforms to an enum when it is one of its values, a
    number being spelled as json.Marshal spells the number of the schema (see
    [enum_rejects_its_own_literal]); a number is an integer when its float64
    is.  The check always ends. *)
Theorem validateJSONSchemaOutput_spec `{MapOrder} `{UnicodeTable} raw schema outputText :
  any_map raw = Some (Some schema) -> validateSupportedResponseJSONSchema raw "$" = Ok tt ->
  (validateJSONSchemaOutput raw outputText = Ok tt <->
   exists t, jparse (NormalizeStructuredOutputJSONText outputText) = Some t /\ conforms schema (nval_of t)) /\
  (validateJSONSchemaOutput raw outputText <> Ok tt ->
   exists message, validateJSONSchemaOutput raw outputText = Err (EInvalidResponse message)).
Proof.
  intros Hraw Hs. unfold validateSupportedResponseJSONSchema in Hs. rewrite Hraw in Hs.
  apply validate_node_spec in Hs; [|simpl; lia]. unfold validateJSONSchemaOutput, decodeStructuredOutput.
  rewrite Hraw. destruct (decide (NormalizeStructuredOutputJSONText outputText = "")) as [He|He].
  { rewrite He. split; [split; [done|by intros (t & ? & _)]|]. simpl. eauto. }
  destruct (jparse (NormalizeStructuredOutputJSONText outputText)) as [t|] eqn:Ej; simpl; [|split; [split; [done|by intros (t & ? & _)]|eauto]].
  split.
  - unfold validateJSONValueAgainstSchema.
    rewrite validate_value_spec by first [done|lia|by eapply any_map_gwf|by eapply nval_of_wf, jparse_wf].
    split; [intros Hc; by exists t|by intros (t' & [= <-] & Hc)].
  - intros Hne. destruct (validate_value_aor (S (gdepth (GMap schema))) (nval_of t) schema "$") as [?|?]; [lia|done|done].
Qed.

Definition demo_schema : json :=
  JObj [("type", JStr "object");
        ("properties", JObj [("n", JObj [("type", JStr "integer")]);
                             ("tags", JObj [("type", JStr "array"); ("items", JObj [("type", JStr "string")])])]);
        ("required", JArr [JStr "n"]); ("additionalProperties", JBool false)].

Definition demo_schema_map : list (string * gval) :=
  match any_map demo_schema with Some (Some m) => m | _ => [] end.

#[local] Instance ascii_table : UnicodeTable := {| uni_print r := false |}.

Lemma validateJSONSchemaOutput_spec_witness :
  exists t, jparse (sq "{'n':3,'tags':['a','b']}") = Some t /\ conforms demo_schema_map (nval_of t).
Proof.
  apply (proj1 (@validateJSONSchemaOutput_spec sorted_order ascii_table demo_schema demo_schema_map
           (fenced "json" (sq "{'n':3,'tags':['a','b']}")) eq_refl eq_refl)).
  vm_compute. reflexivity.
Defined.

(** Fact (round trip): a text configuration the shim accepted is read back from
    the form in which it is stored and returned, up to the escaping of the
    schema's text. *)
Theorem text_config_round_trip `{MapOrder} `{UnicodeTable} t c : jok t = true ->
  parse_text_config (Some t) = Ok c ->
  ParseResponseTextConfig (jprint (MarshalResponseTextConfig c)) = Ok (escaped_config c).
Proof.
  intros Hok Hp. apply parse_config_ok in Hp; [|done]. destruct c as [f]. cbn [tc_Format] in Hp.
  unfold ParseResponseTextConfig, MarshalResponseTextConfig.
  assert (Hw : jwf (text_config_json {| tc_Format := f |}) = true).
  { destruct Hp as [[->| ->]|(name & strict & l & -> & Hjok & _)]; [reflexivity..|].
    pose proof (jesc_jwf _ Hjok) as Hj. unfold text_config_json, omit_string. cbn [tc_Format tf_Type tf_Name tf_Strict tf_Schema].
    generalize dependent (jesc (JObj l)). intros t' Hj.
    case_decide; destruct strict; cbn [jwf app forallb fst snd json_str]; rewrite ?encode_body_valid, Hj; reflexivity. }
  assert (Ht : TrimSpace (jprint (text_config_json {| tc_Format := f |})) = jprint (text_config_json {| tc_Format := f |}))
    by apply TrimSpace_obj.
  rewrite Ht. rewrite decide_False by apply jprint_obj_not_empty.
  rewrite jparse_jprint by done. by apply parse_marshalled_format.
Qed.

Lemma text_config_round_trip_witness :
  exists c, @ParseResponseTextConfig sorted_order ascii_table
    (jprint (JObj [("format", JObj [("type", JStr "json_schema"); ("name", JStr "out"); ("schema", demo_schema)])])) = Ok c /\
    @ParseResponseTextConfig sorted_order ascii_table (jprint (MarshalResponseTextConfig c)) = Ok (escaped_config c).
Proof.
  eexists. split; [vm_compute; reflexivity|].
  apply (@text_config_round_trip sorted_order ascii_table
    (JObj [("format", JObj [("type", JStr "json_schema"); ("name", JStr "out"); ("schema", demo_schema)])])); [reflexivity|].
  vm_compute. reflexivity.
Defined.

(** Fact (error): an enum value is compared by its JSON text, the schema's side
    as a float64 and the generated side as its literal: a schema that allows
    only 1.0 rejects the very text 1.0. *)
Theorem enum_rejects_its_own_literal :
  let schema := JObj [("type", JStr "number"); ("enum", JArr [JNum "1.0"])] in
  @validateSupportedResponseJSONSchema sorted_order ascii_table schema "$" = Ok tt /\
  @validateJSONSchemaOutput sorted_order ascii_table schema "1.0" =
    Err (EInvalidResponse "$ must match one of the configured enum values") /\
  @validateJSONSchemaOutput sorted_order ascii_table schema "1" = Ok tt.
Proof. by vm_compute. Qed.
