(* ===== verification/Response.v ===== *)
(** * internal/domain: response.go, response_json.go, response_parse.go,
      response_surface.go

    The response object of the API: how it is built, written as JSON, read from
    an upstream or stored document, and completed with the fields the request
    set.  A RawMessage is [option json]; a nil map or slice is [None] where the
    code can tell it from an empty one.  An int64 is a [Z] in its range. *)

From S2P Require Import Prelude GoStr GoFloat GoJson JsonFacts StrFacts GoInt GoTime World Items Normalize Context TextFormat.

Record ConversationReference := { cref_ID : string }.

Record Response := {
  r_ID : string;
  r_Object : string;
  r_CreatedAt : Z;
  r_Status : string;
  r_CompletedAt : option Z;
  r_Error : option json;
  r_FrequencyPenalty : option json;
  r_IncompleteDetails : option json;
  r_Instructions : option json;
  r_MaxOutputTokens : option json;
  r_MaxToolCalls : option json;
  r_Model : string;
  r_Output : option (list Item);
  r_ParallelToolCalls : option json;
  r_PresencePenalty : option json;
  r_PreviousResponseID : string;
  r_Prompt : option json;
  r_PromptCacheKey : option json;
  r_PromptCacheRetention : option json;
  r_Reasoning : option json;
  r_SafetyIdentifier : option json;
  r_ServiceTier : option json;
  r_Conversation : option ConversationReference;
  r_Background : option bool;
  r_Store : option bool;
  r_Temperature : option json;
  r_Text : option json;
  r_ToolChoice : option json;
  r_Tools : option json;
  r_TopLogprobs : option json;
  r_TopP : option json;
  r_Truncation : option json;
  r_Usage : option json;
  r_User : option json;
  r_Metadata : option (list (string * string));
  r_OutputText : string
}.

Definition zeroResponse : Response :=
  {| r_ID := ""; r_Object := ""; r_CreatedAt := 0; r_Status := ""; r_CompletedAt := None; r_Error := None;
     r_FrequencyPenalty := None; r_IncompleteDetails := None; r_Instructions := None; r_MaxOutputTokens := None;
     r_MaxToolCalls := None; r_Model := ""; r_Output := None; r_ParallelToolCalls := None;
     r_PresencePenalty := None; r_PreviousResponseID := ""; r_Prompt := None; r_PromptCacheKey := None;
     r_PromptCacheRetention := None; r_Reasoning := None; r_SafetyIdentifier := None; r_ServiceTier := None;
     r_Conversation := None; r_Background := None; r_Store := None; r_Temperature := None; r_Text := None;
     r_ToolChoice := None; r_Tools := None; r_TopLogprobs := None; r_TopP := None; r_Truncation := None;
     r_Usage := None; r_User := None; r_Metadata := None; r_OutputText := "" |}.

(** The items of the output; a nil slice has none. *)
Definition outputs (r : Response) : list Item := default [] (r_Output r).

(** ** Assignments to one field *)

Definition set_ID (x : string) (r : Response) : Response :=
  {| r_ID := x; r_Object := r_Object r; r_CreatedAt := r_CreatedAt r; r_Status := r_Status r;
     r_CompletedAt := r_CompletedAt r; r_Error := r_Error r; r_FrequencyPenalty := r_FrequencyPenalty r;
     r_IncompleteDetails := r_IncompleteDetails r; r_Instructions := r_Instructions r;
     r_MaxOutputTokens := r_MaxOutputTokens r; r_MaxToolCalls := r_MaxToolCalls r; r_Model := r_Model r;
     r_Output := r_Output r; r_ParallelToolCalls := r_ParallelToolCalls r;
     r_PresencePenalty := r_PresencePenalty r; r_PreviousResponseID := r_PreviousResponseID r;
     r_Prompt := r_Prompt r; r_PromptCacheKey := r_PromptCacheKey r;
     r_PromptCacheRetention := r_PromptCacheRetention r; r_Reasoning := r_Reasoning r;
     r_SafetyIdentifier := r_SafetyIdentifier r; r_ServiceTier := r_ServiceTier r;
     r_Conversation := r_Conversation r; r_Background := r_Background r; r_Store := r_Store r;
     r_Temperature := r_Temperature r; r_Text := r_Text r; r_ToolChoice := r_ToolChoice r; r_Tools := r_Tools r;
     r_TopLogprobs := r_TopLogprobs r; r_TopP := r_TopP r; r_Truncation := r_Truncation r; r_Usage := r_Usage r;
     r_User := r_User r; r_Metadata := r_Metadata r; r_OutputText := r_OutputText r |}.

Definition set_Object (x : string) (r : Response) : Response :=
  {| r_ID := r_ID r; r_Object := x; r_CreatedAt := r_CreatedAt r; r_Status := r_Status r;
     r_CompletedAt := r_CompletedAt r; r_Error := r_Error r; r_FrequencyPenalty := r_FrequencyPenalty r;
     r_IncompleteDetails := r_IncompleteDetails r; r_Instructions := r_Instructions r;
     r_MaxOutputTokens := r_MaxOutputTokens r; r_MaxToolCalls := r_MaxToolCalls r; r_Model := r_Model r;
     r_Output := r_Output r; r_ParallelToolCalls := r_ParallelToolCalls r;
     r_PresencePenalty := r_PresencePenalty r; r_PreviousResponseID := r_PreviousResponseID r;
     r_Prompt := r_Prompt r; r_PromptCacheKey := r_PromptCacheKey r;
     r_PromptCacheRetention := r_PromptCacheRetention r; r_Reasoning := r_Reasoning r;
     r_SafetyIdentifier := r_SafetyIdentifier r; r_ServiceTier := r_ServiceTier r;
     r_Conversation := r_Conversation r; r_Background := r_Background r; r_Store := r_Store r;
     r_Temperature := r_Temperature r; r_Text := r_Text r; r_ToolChoice := r_ToolChoice r; r_Tools := r_Tools r;
     r_TopLogprobs := r_TopLogprobs r; r_TopP := r_TopP r; r_Truncation := r_Truncation r; r_Usage := r_Usage r;
     r_User := r_User r; r_Metadata := r_Metadata r; r_OutputText := r_OutputText r |}.

Definition set_CreatedAt (x : Z) (r : Response) : Response :=
  {| r_ID := r_ID r; r_Object := r_Object r; r_CreatedAt := x; r_Status := r_Status r;
     r_CompletedAt := r_CompletedAt r; r_Error := r_Error r; r_FrequencyPenalty := r_FrequencyPenalty r;
     r_IncompleteDetails := r_IncompleteDetails r; r_Instructions := r_Instructions r;
     r_MaxOutputTokens := r_MaxOutputTokens r; r_MaxToolCalls := r_MaxToolCalls r; r_Model := r_Model r;
     r_Output := r_Output r; r_ParallelToolCalls := r_ParallelToolCalls r;
     r_PresencePenalty := r_PresencePenalty r; r_PreviousResponseID := r_PreviousResponseID r;
     r_Prompt := r_Prompt r; r_PromptCacheKey := r_PromptCacheKey r;
     r_PromptCacheRetention := r_PromptCacheRetention r; r_Reasoning := r_Reasoning r;
     r_SafetyIdentifier := r_SafetyIdentifier r; r_ServiceTier := r_ServiceTier r;
     r_Conversation := r_Conversation r; r_Background := r_Background r; r_Store := r_Store r;
     r_Temperature := r_Temperature r; r_Text := r_Text r; r_ToolChoice := r_ToolChoice r; r_Tools := r_Tools r;
     r_TopLogprobs := r_TopLogprobs r; r_TopP := r_TopP r; r_Truncation := r_Truncation r; r_Usage := r_Usage r;
     r_User := r_User r; r_Metadata := r_Metadata r; r_OutputText := r_OutputText r |}.

Definition set_Status (x : string) (r : Response) : Response :=
  {| r_ID := r_ID r; r_Object := r_Object r; r_CreatedAt := r_CreatedAt r; r_Status := x;
     r_CompletedAt := r_CompletedAt r; r_Error := r_Error r; r_FrequencyPenalty := r_FrequencyPenalty r;
     r_IncompleteDetails := r_IncompleteDetails r; r_Instructions := r_Instructions r;
     r_MaxOutputTokens := r_MaxOutputTokens r; r_MaxToolCalls := r_MaxToolCalls r; r_Model := r_Model r;
     r_Output := r_Output r; r_ParallelToolCalls := r_ParallelToolCalls r;
     r_PresencePenalty := r_PresencePenalty r; r_PreviousResponseID := r_PreviousResponseID r;
     r_Prompt := r_Prompt r; r_PromptCacheKey := r_PromptCacheKey r;
     r_PromptCacheRetention := r_PromptCacheRetention r; r_Reasoning := r_Reasoning r;
     r_SafetyIdentifier := r_SafetyIdentifier r; r_ServiceTier := r_ServiceTier r;
     r_Conversation := r_Conversation r; r_Background := r_Background r; r_Store := r_Store r;
     r_Temperature := r_Temperature r; r_Text := r_Text r; r_ToolChoice := r_ToolChoice r; r_Tools := r_Tools r;
     r_TopLogprobs := r_TopLogprobs r; r_TopP := r_TopP r; r_Truncation := r_Truncation r; r_Usage := r_Usage r;
     r_User := r_User r; r_Metadata := r_Metadata r; r_OutputText := r_OutputText r |}.

Definition set_CompletedAt (x : option Z) (r : Response) : Response :=
  {| r_ID := r_ID r; r_Object := r_Object r; r_CreatedAt := r_CreatedAt r; r_Status := r_Status r;
     r_CompletedAt := x; r_Error := r_Error r; r_FrequencyPenalty := r_FrequencyPenalty r;
     r_IncompleteDetails := r_IncompleteDetails r; r_Instructions := r_Instructions r;
     r_MaxOutputTokens := r_MaxOutputTokens r; r_MaxToolCalls := r_MaxToolCalls r; r_Model := r_Model r;
     r_Output := r_Output r; r_ParallelToolCalls := r_ParallelToolCalls r;
     r_PresencePenalty := r_PresencePenalty r; r_PreviousResponseID := r_PreviousResponseID r;
     r_Prompt := r_Prompt r; r_PromptCacheKey := r_PromptCacheKey r;
     r_PromptCacheRetention := r_PromptCacheRetention r; r_Reasoning := r_Reasoning r;
     r_SafetyIdentifier := r_SafetyIdentifier r; r_ServiceTier := r_ServiceTier r;
     r_Conversation := r_Conversation r; r_Background := r_Background r; r_Store := r_Store r;
     r_Temperature := r_Temperature r; r_Text := r_Text r; r_ToolChoice := r_ToolChoice r; r_Tools := r_Tools r;
     r_TopLogprobs := r_TopLogprobs r; r_TopP := r_TopP r; r_Truncation := r_Truncation r; r_Usage := r_Usage r;
     r_User := r_User r; r_Metadata := r_Metadata r; r_OutputText := r_OutputText r |}.

Definition set_Model (x : string) (r : Response) : Response :=
  {| r_ID := r_ID r; r_Object := r_Object r; r_CreatedAt := r_CreatedAt r; r_Status := r_Status r;
     r_CompletedAt := r_CompletedAt r; r_Error := r_Error r; r_FrequencyPenalty := r_FrequencyPenalty r;
     r_IncompleteDetails := r_IncompleteDetails r; r_Instructions := r_Instructions r;
     r_MaxOutputTokens := r_MaxOutputTokens r; r_MaxToolCalls := r_MaxToolCalls r; r_Model := x;
     r_Output := r_Output r; r_ParallelToolCalls := r_ParallelToolCalls r;
     r_PresencePenalty := r_PresencePenalty r; r_PreviousResponseID := r_PreviousResponseID r;
     r_Prompt := r_Prompt r; r_PromptCacheKey := r_PromptCacheKey r;
     r_PromptCacheRetention := r_PromptCacheRetention r; r_Reasoning := r_Reasoning r;
     r_SafetyIdentifier := r_SafetyIdentifier r; r_ServiceTier := r_ServiceTier r;
     r_Conversation := r_Conversation r; r_Background := r_Background r; r_Store := r_Store r;
     r_Temperature := r_Temperature r; r_Text := r_Text r; r_ToolChoice := r_ToolChoice r; r_Tools := r_Tools r;
     r_TopLogprobs := r_TopLogprobs r; r_TopP := r_TopP r; r_Truncation := r_Truncation r; r_Usage := r_Usage r;
     r_User := r_User r; r_Metadata := r_Metadata r; r_OutputText := r_OutputText r |}.

Definition set_Output (x : option (list Item)) (r : Response) : Response :=
  {| r_ID := r_ID r; r_Object := r_Object r; r_CreatedAt := r_CreatedAt r; r_Status := r_Status r;
     r_CompletedAt := r_CompletedAt r; r_Error := r_Error r; r_FrequencyPenalty := r_FrequencyPenalty r;
     r_IncompleteDetails := r_IncompleteDetails r; r_Instructions := r_Instructions r;
     r_MaxOutputTokens := r_MaxOutputTokens r; r_MaxToolCalls := r_MaxToolCalls r; r_Model := r_Model r;
     r_Output := x; r_ParallelToolCalls := r_ParallelToolCalls r; r_PresencePenalty := r_PresencePenalty r;
     r_PreviousResponseID := r_PreviousResponseID r; r_Prompt := r_Prompt r;
     r_PromptCacheKey := r_PromptCacheKey r; r_PromptCacheRetention := r_PromptCacheRetention r;
     r_Reasoning := r_Reasoning r; r_SafetyIdentifier := r_SafetyIdentifier r; r_ServiceTier := r_ServiceTier r;
     r_Conversation := r_Conversation r; r_Background := r_Background r; r_Store := r_Store r;
     r_Temperature := r_Temperature r; r_Text := r_Text r; r_ToolChoice := r_ToolChoice r; r_Tools := r_Tools r;
     r_TopLogprobs := r_TopLogprobs r; r_TopP := r_TopP r; r_Truncation := r_Truncation r; r_Usage := r_Usage r;
     r_User := r_User r; r_Metadata := r_Metadata r; r_OutputText := r_OutputText r |}.

Definition set_PreviousResponseID (x : string) (r : Response) : Response :=
  {| r_ID := r_ID r; r_Object := r_Object r; r_CreatedAt := r_CreatedAt r; r_Status := r_Status r;
     r_CompletedAt := r_CompletedAt r; r_Error := r_Error r; r_FrequencyPenalty := r_FrequencyPenalty r;
     r_IncompleteDetails := r_IncompleteDetails r; r_Instructions := r_Instructions r;
     r_MaxOutputTokens := r_MaxOutputTokens r; r_MaxToolCalls := r_MaxToolCalls r; r_Model := r_Model r;
     r_Output := r_Output r; r_ParallelToolCalls := r_ParallelToolCalls r;
     r_PresencePenalty := r_PresencePenalty r; r_PreviousResponseID := x; r_Prompt := r_Prompt r;
     r_PromptCacheKey := r_PromptCacheKey r; r_PromptCacheRetention := r_PromptCacheRetention r;
     r_Reasoning := r_Reasoning r; r_SafetyIdentifier := r_SafetyIdentifier r; r_ServiceTier := r_ServiceTier r;
     r_Conversation := r_Conversation r; r_Background := r_Background r; r_Store := r_Store r;
     r_Temperature := r_Temperature r; r_Text := r_Text r; r_ToolChoice := r_ToolChoice r; r_Tools := r_Tools r;
     r_TopLogprobs := r_TopLogprobs r; r_TopP := r_TopP r; r_Truncation := r_Truncation r; r_Usage := r_Usage r;
     r_User := r_User r; r_Metadata := r_Metadata r; r_OutputText := r_OutputText r |}.

Definition set_Conversation (x : option ConversationReference) (r : Response) : Response :=
  {| r_ID := r_ID r; r_Object := r_Object r; r_CreatedAt := r_CreatedAt r; r_Status := r_Status r;
     r_CompletedAt := r_CompletedAt r; r_Error := r_Error r; r_FrequencyPenalty := r_FrequencyPenalty r;
     r_IncompleteDetails := r_IncompleteDetails r; r_Instructions := r_Instructions r;
     r_MaxOutputTokens := r_MaxOutputTokens r; r_MaxToolCalls := r_MaxToolCalls r; r_Model := r_Model r;
     r_Output := r_Output r; r_ParallelToolCalls := r_ParallelToolCalls r;
     r_PresencePenalty := r_PresencePenalty r; r_PreviousResponseID := r_PreviousResponseID r;
     r_Prompt := r_Prompt r; r_PromptCacheKey := r_PromptCacheKey r;
     r_PromptCacheRetention := r_PromptCacheRetention r; r_Reasoning := r_Reasoning r;
     r_SafetyIdentifier := r_SafetyIdentifier r; r_ServiceTier := r_ServiceTier r; r_Conversation := x;
     r_Background := r_Background r; r_Store := r_Store r; r_Temperature := r_Temperature r; r_Text := r_Text r;
     r_ToolChoice := r_ToolChoice r; r_Tools := r_Tools r; r_TopLogprobs := r_TopLogprobs r; r_TopP := r_TopP r;
     r_Truncation := r_Truncation r; r_Usage := r_Usage r; r_User := r_User r; r_Metadata := r_Metadata r;
     r_OutputText := r_OutputText r |}.

Definition set_Background (x : option bool) (r : Response) : Response :=
  {| r_ID := r_ID r; r_Object := r_Object r; r_CreatedAt := r_CreatedAt r; r_Status := r_Status r;
     r_CompletedAt := r_CompletedAt r; r_Error := r_Error r; r_FrequencyPenalty := r_FrequencyPenalty r;
     r_IncompleteDetails := r_IncompleteDetails r; r_Instructions := r_Instructions r;
     r_MaxOutputTokens := r_MaxOutputTokens r; r_MaxToolCalls := r_MaxToolCalls r; r_Model := r_Model r;
     r_Output := r_Output r; r_ParallelToolCalls := r_ParallelToolCalls r;
     r_PresencePenalty := r_PresencePenalty r; r_PreviousResponseID := r_PreviousResponseID r;
     r_Prompt := r_Prompt r; r_PromptCacheKey := r_PromptCacheKey r;
     r_PromptCacheRetention := r_PromptCacheRetention r; r_Reasoning := r_Reasoning r;
     r_SafetyIdentifier := r_SafetyIdentifier r; r_ServiceTier := r_ServiceTier r;
     r_Conversation := r_Conversation r; r_Background := x; r_Store := r_Store r;
     r_Temperature := r_Temperature r; r_Text := r_Text r; r_ToolChoice := r_ToolChoice r; r_Tools := r_Tools r;
     r_TopLogprobs := r_TopLogprobs r; r_TopP := r_TopP r; r_Truncation := r_Truncation r; r_Usage := r_Usage r;
     r_User := r_User r; r_Metadata := r_Metadata r; r_OutputText := r_OutputText r |}.

Definition set_Store (x : option bool) (r : Response) : Response :=
  {| r_ID := r_ID r; r_Object := r_Object r; r_CreatedAt := r_CreatedAt r; r_Status := r_Status r;
     r_CompletedAt := r_CompletedAt r; r_Error := r_Error r; r_FrequencyPenalty := r_FrequencyPenalty r;
     r_IncompleteDetails := r_IncompleteDetails r; r_Instructions := r_Instructions r;
     r_MaxOutputTokens := r_MaxOutputTokens r; r_MaxToolCalls := r_MaxToolCalls r; r_Model := r_Model r;
     r_Output := r_Output r; r_ParallelToolCalls := r_ParallelToolCalls r;
     r_PresencePenalty := r_PresencePenalty r; r_PreviousResponseID := r_PreviousResponseID r;
     r_Prompt := r_Prompt r; r_PromptCacheKey := r_PromptCacheKey r;
     r_PromptCacheRetention := r_PromptCacheRetention r; r_Reasoning := r_Reasoning r;
     r_SafetyIdentifier := r_SafetyIdentifier r; r_ServiceTier := r_ServiceTier r;
     r_Conversation := r_Conversation r; r_Background := r_Background r; r_Store := x;
     r_Temperature := r_Temperature r; r_Text := r_Text r; r_ToolChoice := r_ToolChoice r; r_Tools := r_Tools r;
     r_TopLogprobs := r_TopLogprobs r; r_TopP := r_TopP r; r_Truncation := r_Truncation r; r_Usage := r_Usage r;
     r_User := r_User r; r_Metadata := r_Metadata r; r_OutputText := r_OutputText r |}.

Definition set_Text (x : option json) (r : Response) : Response :=
  {| r_ID := r_ID r; r_Object := r_Object r; r_CreatedAt := r_CreatedAt r; r_Status := r_Status r;
     r_CompletedAt := r_CompletedAt r; r_Error := r_Error r; r_FrequencyPenalty := r_FrequencyPenalty r;
     r_IncompleteDetails := r_IncompleteDetails r; r_Instructions := r_Instructions r;
     r_MaxOutputTokens := r_MaxOutputTokens r; r_MaxToolCalls := r_MaxToolCalls r; r_Model := r_Model r;
     r_Output := r_Output r; r_ParallelToolCalls := r_ParallelToolCalls r;
     r_PresencePenalty := r_PresencePenalty r; r_PreviousResponseID := r_PreviousResponseID r;
     r_Prompt := r_Prompt r; r_PromptCacheKey := r_PromptCacheKey r;
     r_PromptCacheRetention := r_PromptCacheRetention r; r_Reasoning := r_Reasoning r;
     r_SafetyIdentifier := r_SafetyIdentifier r; r_ServiceTier := r_ServiceTier r;
     r_Conversation := r_Conversation r; r_Background := r_Background r; r_Store := r_Store r;
     r_Temperature := r_Temperature r; r_Text := x; r_ToolChoice := r_ToolChoice r; r_Tools := r_Tools r;
     r_TopLogprobs := r_TopLogprobs r; r_TopP := r_TopP r; r_Truncation := r_Truncation r; r_Usage := r_Usage r;
     r_User := r_User r; r_Metadata := r_Metadata r; r_OutputText := r_OutputText r |}.

Definition set_Usage (x : option json) (r : Response) : Response :=
  {| r_ID := r_ID r; r_Object := r_Object r; r_CreatedAt := r_CreatedAt r; r_Status := r_Status r;
     r_CompletedAt := r_CompletedAt r; r_Error := r_Error r; r_FrequencyPenalty := r_FrequencyPenalty r;
     r_IncompleteDetails := r_IncompleteDetails r; r_Instructions := r_Instructions r;
     r_MaxOutputTokens := r_MaxOutputTokens r; r_MaxToolCalls := r_MaxToolCalls r; r_Model := r_Model r;
     r_Output := r_Output r; r_ParallelToolCalls := r_ParallelToolCalls r;
     r_PresencePenalty := r_PresencePenalty r; r_PreviousResponseID := r_PreviousResponseID r;
     r_Prompt := r_Prompt r; r_PromptCacheKey := r_PromptCacheKey r;
     r_PromptCacheRetention := r_PromptCacheRetention r; r_Reasoning := r_Reasoning r;
     r_SafetyIdentifier := r_SafetyIdentifier r; r_ServiceTier := r_ServiceTier r;
     r_Conversation := r_Conversation r; r_Background := r_Background r; r_Store := r_Store r;
     r_Temperature := r_Temperature r; r_Text := r_Text r; r_ToolChoice := r_ToolChoice r; r_Tools := r_Tools r;
     r_TopLogprobs := r_TopLogprobs r; r_TopP := r_TopP r; r_Truncation := r_Truncation r; r_Usage := x;
     r_User := r_User r; r_Metadata := r_Metadata r; r_OutputText := r_OutputText r |}.

Definition set_Metadata (x : option (list (string * string))) (r : Response) : Response :=
  {| r_ID := r_ID r; r_Object := r_Object r; r_CreatedAt := r_CreatedAt r; r_Status := r_Status r;
     r_CompletedAt := r_CompletedAt r; r_Error := r_Error r; r_FrequencyPenalty := r_FrequencyPenalty r;
     r_IncompleteDetails := r_IncompleteDetails r; r_Instructions := r_Instructions r;
     r_MaxOutputTokens := r_MaxOutputTokens r; r_MaxToolCalls := r_MaxToolCalls r; r_Model := r_Model r;
     r_Output := r_Output r; r_ParallelToolCalls := r_ParallelToolCalls r;
     r_PresencePenalty := r_PresencePenalty r; r_PreviousResponseID := r_PreviousResponseID r;
     r_Prompt := r_Prompt r; r_PromptCacheKey := r_PromptCacheKey r;
     r_PromptCacheRetention := r_PromptCacheRetention r; r_Reasoning := r_Reasoning r;
     r_SafetyIdentifier := r_SafetyIdentifier r; r_ServiceTier := r_ServiceTier r;
     r_Conversation := r_Conversation r; r_Background := r_Background r; r_Store := r_Store r;
     r_Temperature := r_Temperature r; r_Text := r_Text r; r_ToolChoice := r_ToolChoice r; r_Tools := r_Tools r;
     r_TopLogprobs := r_TopLogprobs r; r_TopP := r_TopP r; r_Truncation := r_Truncation r; r_Usage := r_Usage r;
     r_User := r_User r; r_Metadata := x; r_OutputText := r_OutputText r |}.

Definition set_OutputText (x : string) (r : Response) : Response :=
  {| r_ID := r_ID r; r_Object := r_Object r; r_CreatedAt := r_CreatedAt r; r_Status := r_Status r;
     r_CompletedAt := r_CompletedAt r; r_Error := r_Error r; r_FrequencyPenalty := r_FrequencyPenalty r;
     r_IncompleteDetails := r_IncompleteDetails r; r_Instructions := r_Instructions r;
     r_MaxOutputTokens := r_MaxOutputTokens r; r_MaxToolCalls := r_MaxToolCalls r; r_Model := r_Model r;
     r_Output := r_Output r; r_ParallelToolCalls := r_ParallelToolCalls r;
     r_PresencePenalty := r_PresencePenalty r; r_PreviousResponseID := r_PreviousResponseID r;
     r_Prompt := r_Prompt r; r_PromptCacheKey := r_PromptCacheKey r;
     r_PromptCacheRetention := r_PromptCacheRetention r; r_Reasoning := r_Reasoning r;
     r_SafetyIdentifier := r_SafetyIdentifier r; r_ServiceTier := r_ServiceTier r;
     r_Conversation := r_Conversation r; r_Background := r_Background r; r_Store := r_Store r;
     r_Temperature := r_Temperature r; r_Text := r_Text r; r_ToolChoice := r_ToolChoice r; r_Tools := r_Tools r;
     r_TopLogprobs := r_TopLogprobs r; r_TopP := r_TopP r; r_Truncation := r_Truncation r; r_Usage := r_Usage r;
     r_User := r_User r; r_Metadata := r_Metadata r; r_OutputText := x |}.

(** ** response.go *)

Definition BoolPtr (value : bool) : option bool := Some value.
Definition Int64Ptr (value : Z) : option Z := Some value.

Definition NewConversationReference (id : string) : option ConversationReference :=
  if decide (TrimSpace id = "") then None else Some {| cref_ID := TrimSpace id |}.

Definition ConversationReferenceID (reference : option ConversationReference) : string :=
  match reference with None => "" | Some c => TrimSpace (cref_ID c) end.

Definition NewResponse `{UnicodeTable} (id model outputText previousResponseID conversationID : string)
    (createdAt : Z) : Response :=
  let response := zeroResponse in
  let response := set_ID id (set_Object "response" (set_CreatedAt createdAt (set_Status "completed" response))) in
  let response := set_CompletedAt (Some createdAt) (set_Model model response) in
  let response := set_Output (Some [NewOutputTextMessage outputText]) response in
  let response := set_Background (Some false) (set_Store (Some true) response) in
  let response := set_Text (Some mustMarshalDefaultResponseTextConfig) (set_Metadata (Some []) response) in
  let response := set_OutputText outputText response in
  let response := if decide (previousResponseID <> "") then set_PreviousResponseID previousResponseID response
                  else response in
  set_Conversation (NewConversationReference conversationID) response.

(** ** response_surface.go *)

Definition rawJSONNull : json := JNull.
Definition rawJSONTrue : json := JBool true.
Definition rawJSONAuto : json := JStr "auto".
Definition rawJSONDefault : json := JStr "default".
Definition rawJSONDisabled : json := JStr "disabled".
Definition rawJSONDefaultReasoning : json := JObj [("effort", JNull); ("summary", JNull)].
Definition rawJSONEmptyArray : json := JArr [].
Definition rawJSONZero : json := JNum "0".
Definition rawJSONZeroPointZero : json := JNum "0.0".
Definition rawJSONOnePointZero : json := JNum "1.0".

Definition rawMessageMissing (raw : option json) : bool := match raw with None => true | Some _ => false end.

Definition cloneRawMessage (raw : option json) : option json := raw.

Definition coalesceRawMessage (primary secondary fallback : option json) : option json :=
  if negb (rawMessageMissing primary) then cloneRawMessage primary
  else if negb (rawMessageMissing secondary) then cloneRawMessage secondary
  else cloneRawMessage fallback.

(** json.Marshal of a map[string]json.RawMessage. *)
Definition raw_map_json (m : list (string * json)) : json :=
  JObj (map (fun kv => (encode_body kv.1, jesc kv.2)) m).

Definition normalizeReasoningRaw (raw : option json) : option json :=
  match raw with
  | None => None
  | Some t =>
      match raw_map t with
      | None => cloneRawMessage raw
      | Some [] => Some rawJSONDefaultReasoning
      | Some payload =>
          let payload := match am_lookup "effort" payload with
                         | Some _ => payload | None => am_insert "effort" rawJSONNull payload end in
          let payload := match am_lookup "summary" payload with
                         | Some _ => payload | None => am_insert "summary" rawJSONNull payload end in
          Some (raw_map_json payload)
      end
  end.

(** One tool of the request, and whether it was changed.  A null element is the
    nil map: it has no type, so it is never assigned to. *)
Definition sanitize_tool (tool : option (list (string * gval))) : option (list (string * gval)) * bool :=
  match tool with
  | None => (None, false)
  | Some m =>
      let type := TrimSpace (asString (am_lookup "type" m)) in
      if decide (type = "function") then
        match am_lookup "strict" m with
        | None => (Some (am_insert "strict" (GBool false) m), true)
        | Some _ => (Some m, false)
        end
      else if decide (type = "mcp") then
        let drop name '(m, changed) :=
          match am_lookup name m with Some _ => (am_delete name m, true) | None => (m, changed) end in
        let '(m, changed) := drop "server_url" (drop "headers" (drop "authorization" (m, false))) in
        (Some m, changed)
      else (Some m, false)
  end.

Definition sanitizeResponseRequestToolsRaw (raw : json) : json :=
  match raw with
  | JArr l =>
      match opt_map any_map l with
      | None => raw
      | Some tools =>
          let results := map sanitize_tool tools in
          if existsb snd results then JArr (map (fun r => map_json r.1) results) else raw
      end
  | _ => raw
  end.

(** json.Unmarshal of the fields of a request; null is the nil map. *)
Definition parseResponseRequestFields (requestJSON : string) : option (list (string * json)) :=
  let trimmed := TrimSpace requestJSON in
  if decide (trimmed = "") then None else jparse trimmed ≫= raw_map.

Definition SanitizeResponseRequestSurfaceJSON (requestJSON : string) : string :=
  let trimmed := TrimSpace requestJSON in
  if decide (trimmed = "") then ""
  else match jparse trimmed with
       | Some JNull => "null"
       | Some t =>
           match raw_map t with
           | None => requestJSON
           | Some fields =>
               let fields := match am_lookup "tools" fields with
                             | Some rawTools => am_insert "tools" (sanitizeResponseRequestToolsRaw rawTools) fields
                             | None => fields
                             end in
               jprint (raw_map_json fields)
           end
       | None => requestJSON
       end.

(** json.Unmarshal of an absent field is an error. *)
Definition requestPreviousResponseID (fields : list (string * json)) : string :=
  match am_lookup "previous_response_id" fields with
  | Some t => match string_of t with Some s => TrimSpace s | None => "" end
  | None => ""
  end.

Definition extractConversationReference (raw : option json) : option ConversationReference :=
  match raw with
  | None | Some JNull => None
  | Some (JStr l) => NewConversationReference (unquote l)
  | Some (JObj l) => match field_string "id" l with Some id => NewConversationReference id | None => None end
  | Some _ => None
  end.

Definition requestConversationReference (fields : list (string * json)) : option ConversationReference :=
  extractConversationReference (am_lookup "conversation" fields).

(** The fields of the request that a response repeats. *)
Definition hydrate_surface (fields : list (string * json)) (response : Response) : Response :=
  let co primary name fallback := coalesceRawMessage primary (am_lookup name fields) (Some fallback) in
  {| r_ID := r_ID response;
     r_Object := r_Object response;
     r_CreatedAt := r_CreatedAt response;
     r_Status := r_Status response;
     r_CompletedAt := r_CompletedAt response;
     r_Error := r_Error response;
     r_FrequencyPenalty := co (r_FrequencyPenalty response) "frequency_penalty" rawJSONZeroPointZero;
     r_IncompleteDetails := r_IncompleteDetails response;
     r_Instructions := co (r_Instructions response) "instructions" rawJSONNull;
     r_MaxOutputTokens := co (r_MaxOutputTokens response) "max_output_tokens" rawJSONNull;
     r_MaxToolCalls := co (r_MaxToolCalls response) "max_tool_calls" rawJSONNull;
     r_Model := r_Model response;
     r_Output := r_Output response;
     r_ParallelToolCalls := co (r_ParallelToolCalls response) "parallel_tool_calls" rawJSONTrue;
     r_PresencePenalty := co (r_PresencePenalty response) "presence_penalty" rawJSONZeroPointZero;
     r_PreviousResponseID := if decide (r_PreviousResponseID response = "") then requestPreviousResponseID fields else r_PreviousResponseID response;
     r_Prompt := co (r_Prompt response) "prompt" rawJSONNull;
     r_PromptCacheKey := co (r_PromptCacheKey response) "prompt_cache_key" rawJSONNull;
     r_PromptCacheRetention := co (r_PromptCacheRetention response) "prompt_cache_retention" rawJSONNull;
     r_Reasoning := coalesceRawMessage (r_Reasoning response) (normalizeReasoningRaw (am_lookup "reasoning" fields)) (Some rawJSONDefaultReasoning);
     r_SafetyIdentifier := co (r_SafetyIdentifier response) "safety_identifier" rawJSONNull;
     r_ServiceTier := co (r_ServiceTier response) "service_tier" rawJSONDefault;
     r_Conversation := match r_Conversation response with None => requestConversationReference fields | Some c => Some c end;
     r_Background := r_Background response;
     r_Store := r_Store response;
     r_Temperature := co (r_Temperature response) "temperature" rawJSONOnePointZero;
     r_Text := r_Text response;
     r_ToolChoice := co (r_ToolChoice response) "tool_choice" rawJSONAuto;
     r_Tools := co (r_Tools response) "tools" rawJSONEmptyArray;
     r_TopLogprobs := co (r_TopLogprobs response) "top_logprobs" rawJSONZero;
     r_TopP := co (r_TopP response) "top_p" rawJSONOnePointZero;
     r_Truncation := co (r_Truncation response) "truncation" rawJSONDisabled;
     r_Usage := r_Usage response;
     r_User := co (r_User response) "user" rawJSONNull;
     r_Metadata := r_Metadata response;
     r_OutputText := r_OutputText response |}.

Definition HydrateResponseRequestSurface (response : Response) (requestJSON : string) : Response :=
  hydrate_surface (default [] (parseResponseRequestFields (SanitizeResponseRequestSurfaceJSON requestJSON))) response.

Definition rawStringFieldUnset (raw : option json) : bool :=
  match raw with
  | None | Some JNull => true
  | Some (JStr l) => bool_decide (TrimSpace (unquote l) = "")
  | Some _ => false
  end.

Definition rawConversationFieldUnset (raw : option json) : bool :=
  match extractConversationReference raw with None => true | Some _ => false end.

Definition conversation_json (c : ConversationReference) : json := JObj [("id", json_str (cref_ID c))].

(** The fields of the response are put in key order; an assignment to the nil
    map, which the document null decodes to, panics. *)
Definition HydrateResponseContinuationJSON (responseJSON requestJSON : string) : res string :=
  let fields := default [] (parseResponseRequestFields (SanitizeResponseRequestSurfaceJSON requestJSON)) in
  if decide (fields = []) then Ok responseJSON
  else
    let previousResponseID := requestPreviousResponseID fields in
    let conversation := requestConversationReference fields in
    if bool_decide (previousResponseID = "") && match conversation with None => true | _ => false end then Ok responseJSON
    else match jparse responseJSON with
         | None => Err (EDecode "response")
         | Some t =>
             match raw_map t with
             | None => Err (EDecode "response")
             | Some responseFields =>
                 let set1 := bool_decide (previousResponseID <> "") &&
                             rawStringFieldUnset (am_lookup "previous_response_id" responseFields) in
                 let fields1 := if set1 then am_insert "previous_response_id" (json_str previousResponseID) responseFields
                                else responseFields in
                 let set2 := match conversation with
                             | Some c => rawConversationFieldUnset (am_lookup "conversation" fields1)
                             | None => false end in
                 let fields2 := match conversation with
                                | Some c => if set2 then am_insert "conversation" (conversation_json c) fields1 else fields1
                                | None => fields1 end in
                 if set1 || set2 then
                   match t with JNull => Panic | _ => Ok (jprint (raw_map_json fields2)) end
                 else Ok responseJSON
             end
         end.

(** ** response_json.go *)

(** A RawMessage field of a struct: nil is written as null. *)
Definition raw_field (raw : option json) : json := match raw with None => JNull | Some t => jesc t end.

Definition bool_field (b : option bool) : json := match b with None => JNull | Some b => JBool b end.

Definition int_field (z : option Z) : json := match z with None => JNull | Some z => JNum (int_text z) end.

Definition metadata_json (m : option (list (string * string))) : json :=
  match m with None => JNull | Some m => JObj (map (fun kv => (encode_body kv.1, json_str kv.2)) m) end.

Definition output_json (items : option (list Item)) : json :=
  match items with None => JNull | Some items => JArr (map (fun i => jesc (MarshalJSON i)) items) end.

Definition Response_MarshalJSON (response : Response) : json :=
  JObj ([("id", json_str (r_ID response)); ("object", json_str (r_Object response));
         ("created_at", JNum (int_text (r_CreatedAt response))); ("status", json_str (r_Status response));
         ("completed_at", int_field (r_CompletedAt response)); ("error", raw_field (r_Error response));
         ("incomplete_details", raw_field (r_IncompleteDetails response));
         ("instructions", raw_field (r_Instructions response));
         ("max_output_tokens", raw_field (r_MaxOutputTokens response));
         ("max_tool_calls", raw_field (r_MaxToolCalls response)); ("model", json_str (r_Model response));
         ("output", output_json (r_Output response));
         ("parallel_tool_calls", raw_field (r_ParallelToolCalls response));
         ("previous_response_id", if decide (r_PreviousResponseID response = "") then JNull
                                  else json_str (r_PreviousResponseID response));
         ("prompt", raw_field (r_Prompt response)); ("prompt_cache_key", raw_field (r_PromptCacheKey response));
         ("prompt_cache_retention", raw_field (r_PromptCacheRetention response));
         ("reasoning", raw_field (r_Reasoning response));
         ("safety_identifier", raw_field (r_SafetyIdentifier response));
         ("service_tier", raw_field (coalesceRawMessage (r_ServiceTier response) None (Some rawJSONDefault)))] ++
        match r_Conversation response with None => [] | Some c => [("conversation", conversation_json c)] end ++
        [("background", bool_field (r_Background response)); ("store", bool_field (r_Store response));
         ("temperature", raw_field (r_Temperature response)); ("text", raw_field (r_Text response));
         ("tool_choice", raw_field (r_ToolChoice response)); ("tools", raw_field (r_Tools response));
         ("top_logprobs", raw_field (coalesceRawMessage (r_TopLogprobs response) None (Some rawJSONZero)));
         ("top_p", raw_field (r_TopP response)); ("truncation", raw_field (r_Truncation response));
         ("usage", raw_field (r_Usage response)); ("user", raw_field (r_User response));
         ("metadata", metadata_json (r_Metadata response));
         ("frequency_penalty", raw_field (coalesceRawMessage (r_FrequencyPenalty response) None (Some rawJSONZeroPointZero)));
         ("presence_penalty", raw_field (coalesceRawMessage (r_PresencePenalty response) None (Some rawJSONZeroPointZero)));
         ("output_text", json_str (r_OutputText response))]).

(** service.marshalResponseJSON *)
Definition marshalResponseJSON (response : Response) : string := jprint (Response_MarshalJSON response).

(** ** response_parse.go *)

(** A struct field of type *int64 or *bool: every value must have the type, the
    last one decides. *)
Definition field_ptr {A} (f : json -> option A) (name : string) (l : list (string * json)) : option (option A) :=
  foldl (fun o t => _ ← o; match t with JNull => Some None | _ => Some <$> f t end) (Some None) (field_values name l).

Definition int_of (t : json) : option Z := match t with JNum lit => int_of_lit lit | _ => None end.
Definition bool_of (t : json) : option bool := match t with JBool b => Some b | _ => None end.

(** A []json.RawMessage field. *)
Definition field_raw_array (name : string) (l : list (string * json)) : option (list json) :=
  foldl (fun o t => _ ← o; raw_array t) (Some []) (field_values name l).

(** The texts of an assistant message. *)
Definition assistant_text (item : Item) : string :=
  if bool_decide (Type_ item = "message") && bool_decide (Role item = "assistant")
  then sconcat (map tp_Text (Content item)) else "".

(** NewItem on each output element. *)
Fixpoint parse_output (index : nat) (raws : list json) : res (list Item) :=
  match raws with
  | [] => Ok []
  | raw :: raws =>
      item ← wrap_err ("decode upstream response output[" +:+ digits (Z.of_nat index) +:+ "]") (UnmarshalJSON raw);
      items ← parse_output (S index) raws;
      Ok (item :: items)
  end.

(** The typed fields of the payload: id, object, created_at, status,
    completed_at, model, previous_response_id, background, store, output_text,
    output. *)
Record response_payload := {
  p_ID : string;
  p_Object : string;
  p_CreatedAt : Z;
  p_Status : string;
  p_CompletedAt : option Z;
  p_Model : string;
  p_PreviousResponseID : string;
  p_Background : option bool;
  p_Store : option bool;
  p_OutputText : string;
  p_Output : list json
}.

Definition payload_of_members (l : list (string * json)) : option response_payload :=
  id ← field_string "id" l;
  object ← field_string "object" l;
  createdAt ← field_int "created_at" l;
  status ← field_string "status" l;
  completedAt ← field_ptr int_of "completed_at" l;
  model ← field_string "model" l;
  previous ← field_string "previous_response_id" l;
  background ← field_ptr bool_of "background" l;
  store ← field_ptr bool_of "store" l;
  outputText ← field_string "output_text" l;
  output ← field_raw_array "output" l;
  Some {| p_ID := id; p_Object := object; p_CreatedAt := createdAt; p_Status := status; p_CompletedAt := completedAt;
          p_Model := model; p_PreviousResponseID := previous; p_Background := background; p_Store := store;
          p_OutputText := outputText; p_Output := output |}.

Definition text_or_default (raw : option json) : option json :=
  match raw with None | Some JNull => Some mustMarshalDefaultResponseTextConfig | Some t => Some t end.

Section parse.
Context `{MapOrder} `{UnicodeTable}.

Definition metadata_of (raw : option json) : list (string * string) :=
  match NormalizeResponseMetadata (match raw with Some t => jprint t | None => "" end) with
  | Ok metadata => metadata
  | _ => []
  end.

(** The response before its output is read. *)
Definition response_of_payload (p : response_payload) (l : list (string * json)) : Response :=
  {| r_ID := p_ID p; r_Object := if decide (p_Object p = "") then "response" else p_Object p;
     r_CreatedAt := p_CreatedAt p;
     r_Status := match p_CompletedAt p with
                 | Some _ => if decide (TrimSpace (p_Status p) = "") then "completed" else TrimSpace (p_Status p)
                 | None => TrimSpace (p_Status p)
                 end;
     r_CompletedAt := p_CompletedAt p; r_Error := field_raw "error" l;
     r_FrequencyPenalty := field_raw "frequency_penalty" l; r_IncompleteDetails := field_raw "incomplete_details" l;
     r_Instructions := field_raw "instructions" l; r_MaxOutputTokens := field_raw "max_output_tokens" l;
     r_MaxToolCalls := field_raw "max_tool_calls" l; r_Model := p_Model p; r_Output := None;
     r_ParallelToolCalls := field_raw "parallel_tool_calls" l; r_PresencePenalty := field_raw "presence_penalty" l;
     r_PreviousResponseID := p_PreviousResponseID p; r_Prompt := field_raw "prompt" l;
     r_PromptCacheKey := field_raw "prompt_cache_key" l; r_PromptCacheRetention := field_raw "prompt_cache_retention" l;
     r_Reasoning := field_raw "reasoning" l; r_SafetyIdentifier := field_raw "safety_identifier" l;
     r_ServiceTier := field_raw "service_tier" l;
     r_Conversation := extractConversationReference (field_raw "conversation" l);
     r_Background := p_Background p; r_Store := p_Store p; r_Temperature := field_raw "temperature" l;
     r_Text := text_or_default (field_raw "text" l); r_ToolChoice := field_raw "tool_choice" l;
     r_Tools := field_raw "tools" l; r_TopLogprobs := field_raw "top_logprobs" l; r_TopP := field_raw "top_p" l;
     r_Truncation := field_raw "truncation" l; r_Usage := field_raw "usage" l; r_User := field_raw "user" l;
     r_Metadata := Some (metadata_of (field_raw "metadata" l)); r_OutputText := p_OutputText p |}.

(** What follows the loop over the output. *)
Definition finish_parsed (response : Response) (items : list Item) : Response :=
  let outputText := if decide (r_OutputText response = "") then sconcat (map assistant_text items)
                    else r_OutputText response in
  let output := match items with
                | [] => if decide (outputText <> "") then Some [NewOutputTextMessage outputText] else None
                | _ => Some items
                end in
  let response := set_Output output (set_OutputText outputText response) in
  let response := if bool_decide (r_Status response = "") &&
                     (bool_decide (outputText <> "") || negb (bool_decide (output = None)))
                  then set_Status "completed" response else response in
  if EqualFold (r_Status response) "completed" then response else set_CompletedAt None response.

Definition ParseUpstreamResponse (raw : string) : res Response :=
  match jparse raw ≫= struct_members with
  | None => Err (EWrap "decode upstream response" (EDecode "response"))
  | Some l =>
      match payload_of_members l with
      | None => Err (EWrap "decode upstream response" (EDecode "response"))
      | Some payload =>
          if decide (p_ID payload = "") then Err (EMsg "upstream response id is empty")
          else items ← parse_output 0 (p_Output payload);
               Ok (finish_parsed (response_of_payload payload l) items)
      end
  end.

(** ** Stored responses *)

(** The statements of hydrateStoredResponse, in order, each as what it makes of
    the response. *)
Definition hydrate_steps (stored : StoredResponse) : list (Response -> Response) :=
  [fun r => if decide (r_ID r = "") then set_ID (sr_ID stored) r else r;
   fun r => if decide (r_Object r = "") then set_Object "response" r else r;
   fun r => if decide (r_Model r = "") then set_Model (sr_Model stored) r else r;
   fun r => if decide (r_PreviousResponseID r = "") then set_PreviousResponseID (sr_PreviousResponseID stored) r else r;
   fun r => match r_Conversation r with
            | None => set_Conversation (NewConversationReference (sr_ConversationID stored)) r
            | Some _ => r end;
   fun r => match r_Text r with
            | None | Some JNull => set_Text (Some (InferResponseTextConfigFromRequestJSON (sr_RequestJSON stored))) r
            | Some _ => r end;
   fun r => match r_Metadata r with
            | None => set_Metadata (Some (InferResponseMetadataFromRequestJSON (sr_RequestJSON stored))) r
            | Some _ => r end;
   fun r => match r_Store r with None => set_Store (BoolPtr (sr_Store stored)) r | Some _ => r end;
   fun r => match r_Background r with None => set_Background (BoolPtr false) r | Some _ => r end;
   fun r => if (r_CreatedAt r =? 0)%Z then
              match ParseTimeUnix (sr_CreatedAt stored) with
              | Some createdAt => set_CreatedAt createdAt r | None => r end
            else r;
   fun r => if decide (r_Status r = "") then
              if negb (bool_decide (r_CompletedAt r = None)) || bool_decide (outputs r <> []) ||
                 bool_decide (TrimSpace (r_OutputText r) <> "")
              then set_Status "completed" r else set_Status "in_progress" r
            else r;
   fun r => if EqualFold (r_Status r) "completed" then
              match r_CompletedAt r with
              | None => match ParseTimeUnix (sr_CompletedAt stored) with
                        | Some completedAt => set_CompletedAt (Int64Ptr completedAt) r
                        | None => r end
              | Some _ => r end
            else set_CompletedAt None r;
   fun r => if decide (r_OutputText r = "") then set_OutputText (sr_OutputText stored) r else r;
   fun r => if bool_decide (outputs r = []) && bool_decide (sr_Output stored <> [])
            then set_Output (Some (sr_Output stored)) r else r;
   fun r => if bool_decide (r_OutputText r <> "") && bool_decide (outputs r = []) &&
               bool_decide (r_Status r = "completed")
            then set_Output (Some [NewOutputTextMessage (r_OutputText r)]) r else r].

Definition hydrateStoredResponse (response : Response) (stored : StoredResponse) : Response :=
  HydrateResponseRequestSurface (foldl (fun r step => step r) response (hydrate_steps stored)) (sr_RequestJSON stored).

Definition ResponseFromStored (stored : StoredResponse) : Response :=
  let bare :=
    set_ID (sr_ID stored) (set_Object "response" (set_Model (sr_Model stored)
      (set_PreviousResponseID (sr_PreviousResponseID stored)
        (set_Conversation (NewConversationReference (sr_ConversationID stored))
          (set_Text (Some (InferResponseTextConfigFromRequestJSON (sr_RequestJSON stored)))
            (set_OutputText (sr_OutputText stored) (set_Output (Some (sr_Output stored)) zeroResponse))))))) in
  let parsed := if decide (TrimSpace (sr_ResponseJSON stored) <> "") then
                  match ParseUpstreamResponse (sr_ResponseJSON stored) with Ok response => Some response | _ => None end
                else None in
  match parsed with
  | Some response => hydrateStoredResponse response stored
  | None => hydrateStoredResponse bare stored
  end.
End parse.
