(* ===== verification/LocalGen.v ===== *)
(** * Local text generation: internal/service/responses.go (the part from
      generateLocalResponseText to containsRawToolCallMarkupText) and
      internal/service/response_text.go (the functions on responses)

    The prompt for a local answer (messages, and the outputs of tools as one
    bounded summary), the loop that asks again when the answer leaks tool
    syntax, and the checks on the final response.

    The model is a parameter: the [n]-th call of Generate gives
    [gen_Generate n ...]. *)

From S2P Require Import Prelude GoStr GoFloat GoJson JsonFacts StrFacts GoInt World Items Normalize Context Store Compaction Memory ToolMarkup TextFormat Response.

Definition localToolOutputSummaryTruncationNotice : string :=
  newline +:+ newline +:+ "[truncated by shim local tool output summary limit]".

Definition maxLocalTextRawToolMarkupRepairRetries : nat := 2.

(** ** The outputs of tools *)

Definition isLocalTextGenerationToolOutput (itemType : string) : bool :=
  bool_decide (TrimSpace itemType ∈ ["function_call_output"; "custom_tool_call_output"; "shell_call_output";
                                     "apply_patch_call_output"]).

Definition localGenerationStringValue (value : option gval) : string := asString value.

(** The texts of the parts, one per line. *)
Definition part_texts (parts : list (list (string * gval))) : string :=
  sjoin newline (filter (fun text => text <> "")
    (map (fun part => TrimSpace (localGenerationStringValue (am_lookup "text" part))) parts)).

Definition stringifyLocalGenerationOutput (raw : option json) : string :=
  match raw with
  | None | Some JNull => ""
  | Some (JStr l) => unquote l
  | Some t =>
      match any_map_array t with
      | Some parts => let text := part_texts parts in if decide (text <> "") then text else jprint t
      | None => jprint t
      end
  end.

Definition localTextGenerationToolOutput (item : Item) : string :=
  if decide (TrimSpace (Type_ item) = "apply_patch_call_output") then
    let status := TrimSpace (StringField item "status") in
    let output := TrimSpace (stringifyLocalGenerationOutput (OutputRaw item)) in
    if decide (status = "") then output
    else if decide (output = "") then "status: " +:+ status
    else "status: " +:+ status +:+ newline +:+ output
  else stringifyLocalGenerationOutput (OutputRaw item).

(** The builder after the call, and whether the text was cut (at a byte). *)
Definition writeBoundedLocalToolSummary (builder text : string) (maxBytes : Z) : string * bool :=
  let remaining := (maxBytes - byte_len builder)%Z in
  if (remaining <=? 0)%Z then (builder, true)
  else if (byte_len text <=? remaining)%Z then (builder +:+ text, false)
  else (builder +:+ stake (Z.to_nat remaining) text, true).

Definition summary_heading : string := "Tool output data:" +:+ newline +:+ newline.

(** One output with its heading. *)
Definition tool_output_part (item : Item) (output : string) : string :=
  let header := ToUpper (ReplaceAll (Type_ item) "_" " ") in
  let callID := TrimSpace (CallID item) in
  let header := if decide (callID <> "") then header +:+ " (" +:+ callID +:+ ")" else header in
  header +:+ ":" +:+ newline +:+ output.

(** The loop over the items: the builder, whether an output was written, and
    whether the loop stopped because one was cut. *)
Fixpoint summary_loop (summaryLimit : Z) (builder : string) (wroteOutput : bool) (items : list Item)
    : string * bool * bool :=
  match items with
  | [] => (builder, wroteOutput, false)
  | item :: items =>
      if negb (isLocalTextGenerationToolOutput (Type_ item)) then summary_loop summaryLimit builder wroteOutput items
      else
        let output := TrimSpace (localTextGenerationToolOutput item) in
        if decide (output = "") then summary_loop summaryLimit builder wroteOutput items
        else
          let part := tool_output_part item output in
          let part := if wroteOutput then newline +:+ newline +:+ part else part in
          let '(builder, truncated) := writeBoundedLocalToolSummary builder part summaryLimit in
          if truncated then (builder, true, true) else summary_loop summaryLimit builder true items
  end.

Definition localToolOutputSummary (items : list Item) (maxBytes : Z) : option string :=
  if (maxBytes <=? 0)%Z then None
  else
    let notice := localToolOutputSummaryTruncationNotice in
    let reserve := (byte_len notice + byte_len summary_heading <? maxBytes)%Z in
    let summaryLimit := if reserve then (maxBytes - byte_len notice)%Z else maxBytes in
    let '(builder, wroteOutput, truncated) := summary_loop summaryLimit summary_heading false items in
    let builder := if truncated && reserve then builder +:+ notice else builder in
    if wroteOutput then Some builder else None.

Section local.
Context `{UnicodeTable}.

Definition tool_data_instruction : string :=
  "Local tool outputs are provided below as data. Use them to answer the original request. Do not call tools, do not print tool-call templates, and do not expose internal tool-call markup.".

(** The context, and whether it holds the output of a tool. *)
Definition buildLocalTextGenerationContext (items : list Item) (maxToolOutputSummaryBytes : Z)
    : res (list Item * bool) :=
  projected ← ProjectLocalTextGenerationContext items;
  match localToolOutputSummary items maxToolOutputSummaryBytes with
  | None => Ok (projected, false)
  | Some summary =>
      Ok ([NewInputTextMessage "system" tool_data_instruction] ++ projected
          ++ [NewInputTextMessage "user" summary], true)
  end.

Definition repair_instruction : string :=
  "The previous draft attempted to print internal tool-call markup as plain text. Discard that draft. Produce only the final plain-text answer from the available tool output. Do not call tools and do not print tool markers, DSML tool blocks, or fenced JSON command/apply_patch blocks.".

Definition appendRawToolMarkupRepairInstruction (items : list Item) : list Item :=
  items ++ [NewInputTextMessage "system" repair_instruction].

Definition containsRawToolCallMarkupText (text : string) : bool := ContainsPseudoToolText text.
End local.

(** ** Generating *)

Class Generator := {
  gen_Generate : nat -> string -> list Item -> list (string * json) -> res string
}.

Section generate.
Context `{UnicodeTable} `{Generator}.

(** One call; the state counts the calls. *)
Definition call_generate (model : string) (items : list Item) (options : list (string * json)) : ST nat string :=
  fun n => (gen_Generate n model items options, S n).

(** The loop, with the number of repairs that are left. *)
Fixpoint generate_loop (retries : nat) (model : string) (options : list (string * json))
    (generationContext contextItems : list Item) : ST nat string :=
  outputText ← call_generate model contextItems options;
  if negb (containsRawToolCallMarkupText outputText) then mret outputText
  else match retries with
       | 0 => st_err (EInvalidResponse "model emitted raw tool-call markup")
       | S retries =>
           generate_loop retries model options generationContext
             (appendRawToolMarkupRepairInstruction generationContext)
       end.

Definition generateLocalResponseText (model : string) (options : list (string * json))
    (generationContext : list Item) : ST nat string :=
  generate_loop maxLocalTextRawToolMarkupRepairRetries model options generationContext generationContext.
End generate.

(** ** response_text.go: the final response *)

Definition ensureLocalResponseUsage (contextItems : list Item) (response : Response) : Response :=
  match r_Usage response with
  | None | Some JNull =>
      set_Usage (Some (BuildSyntheticUsage (EstimateSyntheticTokenCount contextItems)
                         (EstimateSyntheticTokenCount (outputs response)))) response
  | Some _ => response
  end.

Definition responseHasAssistantText (response : Response) : bool :=
  bool_decide (TrimSpace (r_OutputText response) <> "") ||
  existsb (fun item => bool_decide (Type_ item = "message") && bool_decide (Role item = "assistant") &&
             existsb (fun part => bool_decide (TrimSpace (tp_Text part) <> "")) (Content item)) (outputs response).

Section final.
Context `{MapOrder} `{UnicodeTable}.

Definition normalizeLocalStructuredOutput (response : Response) : Response :=
  let normalized := NormalizeStructuredOutputJSONText (r_OutputText response) in
  if decide (normalized = "" \/ normalized = r_OutputText response) then response
  else set_Output (Some [NewOutputTextMessage normalized]) (set_OutputText normalized response).

Definition PrepareLocalResponseText (textConfig : string) (contextItems : list Item) : res ResponseTextConfig :=
  config ← ParseResponseTextConfig textConfig;
  _ ← validateLocalResponseTextRequest config contextItems;
  Ok config.

Definition FinalizeLocalResponse (textConfig : string) (contextItems : list Item) (response : Response)
    : res Response :=
  config ← ParseResponseTextConfig textConfig;
  _ ← validateLocalResponseTextRequest config contextItems;
  let response := set_Text (Some (MarshalResponseTextConfig config)) response in
  let response := ensureLocalResponseUsage contextItems response in
  if negb (responseHasAssistantText response) then Ok response
  else
    let format := tc_Format config in
    if decide (tf_Type format = "json_object") then
      _ ← validateJSONModeContext contextItems;
      let response := normalizeLocalStructuredOutput response in
      _ ← validateJSONObjectOutput (r_OutputText response);
      Ok response
    else if decide (tf_Type format = "json_schema") then
      let response := normalizeLocalStructuredOutput response in
      _ ← validateJSONSchemaOutput (default JNull (tf_Schema format)) (r_OutputText response);
      Ok response
    else Ok response.
End final.
