(* ===== verification/RespService.v ===== *)
(** * internal/service/responses.go: the response service

    What a request is answered from (the lineage of a response, or a
    conversation, or neither), its automatic compaction, and how the finished
    response is stored.  The stores are the sqlite store of Store and Memory.

    The state [sworld] is the database with the counters of Store, the number
    of times the request's context was asked for its error (Compactor), the
    number of calls of the generator, the number of times the clock was read,
    and the calls of a stream's callbacks.  The clock and the generator are
    parameters. *)

From S2P Require Import Prelude GoStr GoFloat GoJson JsonFacts StrFacts GoInt GoTime World Items Normalize Context Store ConvService Compaction Compactor Memory ToolMarkup TextFormat Response LocalGen.

Class Clock := { NowUTC : nat -> utc }.

(** The calls of a stream's callbacks. *)
Inductive event :=
| Created (response : Response) (outputPrefix : list Item)
| Delta (text : string).

Record sworld := {
  s_world : world;
  s_checks : nat;
  s_calls : nat;
  s_clock : nat;
  s_events : list event
}.

(** ** Running the parts on the whole state *)

Definition on_store {A} (m : ST world A) : ST sworld A := fun s =>
  let '(r, w) := m (s_world s) in
  (r, {| s_world := w; s_checks := s_checks s; s_calls := s_calls s; s_clock := s_clock s; s_events := s_events s |}).

Definition on_ids {A} (m : ST nat A) : ST sworld A := on_store (draw m).

Definition on_compactor {A} (m : ST cworld A) : ST sworld A := fun s =>
  let '(r, c) := m {| cw_ids := w_ids (s_world s); cw_checks := s_checks s |} in
  (r, {| s_world := {| w_db := w_db (s_world s); w_ids := cw_ids c; w_stmts := w_stmts (s_world s) |};
         s_checks := cw_checks c; s_calls := s_calls s; s_clock := s_clock s; s_events := s_events s |}).

Definition on_generator {A} (m : ST nat A) : ST sworld A := fun s =>
  let '(r, n) := m (s_calls s) in
  (r, {| s_world := s_world s; s_checks := s_checks s; s_calls := n; s_clock := s_clock s; s_events := s_events s |}).

Definition read_clock `{Clock} : ST sworld utc := fun s =>
  (Ok (NowUTC (s_clock s)),
   {| s_world := s_world s; s_checks := s_checks s; s_calls := s_calls s; s_clock := S (s_clock s);
      s_events := s_events s |}).

(** A stream is sent to a client with a state of its own, [C]; the service
    leaves it alone. *)
Definition in_service {C A} (m : ST sworld A) : ST (sworld * C) A := fun '(s, c) =>
  let '(r, s') := m s in (r, (s', c)).

(** A callback works on the state of the client, and may draw identifiers. *)
Definition call_hook {C} (e : event) (hook : ST (nat * C) unit) : ST (sworld * C) unit := fun '(s, c) =>
  let '(r, (ids, c')) := hook (w_ids (s_world s), c) in
  (r, ({| s_world := {| w_db := w_db (s_world s); w_ids := ids; w_stmts := w_stmts (s_world s) |};
          s_checks := s_checks s; s_calls := s_calls s; s_clock := s_clock s;
          s_events := s_events s ++ [e] |}, c')).

(** ** Data *)

Record CreateResponseInput := {
  i_Model : string;
  i_Input : string;
  i_TextConfig : string;
  i_Metadata : string;
  i_ContextManagement : string;
  i_Store : option bool;
  i_Stream : option bool;
  i_Background : option bool;
  i_ForceShadowStore : bool;
  i_PreviousResponseID : string;
  i_ConversationID : string;
  i_Instructions : string;
  i_RequestJSON : string;
  i_GenerationOptions : list (string * json)
}.

Record PreparedResponseContext := {
  pc_NormalizedInput : list Item;
  pc_EffectiveInput : list Item;
  pc_ContextItems : list Item;
  pc_Conversation : Conversation;
  pc_ToolCallRefs : gmap string ToolCallReference
}.

Record preparedResponse := {
  pr_ResponseID : string;
  pr_NormalizedInput : list Item;
  pr_EffectiveInput : list Item;
  pr_ContextItems : list Item;
  pr_OutputPrefix : list Item;
  pr_Conversation : Conversation;
  pr_CreatedAt : utc
}.

(** The two callbacks of a stream; [None] is nil. *)
Record StreamHooks (C : Type) := {
  OnCreated : option (Response -> list Item -> ST (nat * C) unit);
  OnDelta : option (string -> ST (nat * C) unit)
}.
Arguments OnCreated {C} _.
Arguments OnDelta {C} _.

Record ResponseServiceLimits := { StoredLineageMaxItems : Z; LocalToolOutputSummaryMaxBytes : Z }.

Definition defaultStoredResponseLineageMaxItems : Z := 128.
Definition defaultLocalToolOutputSummaryMaxBytes : Z := 65536.

Definition normalizeResponseServiceLimits (limits : ResponseServiceLimits) : ResponseServiceLimits :=
  {| StoredLineageMaxItems := if (StoredLineageMaxItems limits <=? 0)%Z then defaultStoredResponseLineageMaxItems
                              else StoredLineageMaxItems limits;
     LocalToolOutputSummaryMaxBytes :=
       if (LocalToolOutputSummaryMaxBytes limits <=? 0)%Z then defaultLocalToolOutputSummaryMaxBytes
       else LocalToolOutputSummaryMaxBytes limits |}.

(** ResponseService: the compactor, whether a memory store is set, its
    configuration, and the limits. *)
Record ResponseService := {
  s_compactor : list Item -> ST cworld Result;
  s_hasMemoryStore : bool;
  s_memoryConfig : Memory.Config;
  s_limits : ResponseServiceLimits
}.

Definition zeroConversation : Conversation :=
  {| cv_ID := ""; cv_Object := ""; cv_Metadata := []; cv_Items := []; cv_Version := 0; cv_CreatedAt := "";
     cv_UpdatedAt := "" |}.

Definition memory_input (input : CreateResponseInput) : Memory.input :=
  {| in_Metadata := i_Metadata input; in_ConversationID := i_ConversationID input;
     in_ForceShadowStore := i_ForceShadowStore input |}.

(** [input.Store == nil || *input.Store] *)
Definition public_store (input : CreateResponseInput) : bool := default true (i_Store input).
Definition in_background (input : CreateResponseInput) : bool := default false (i_Background input).

(** ** Pure parts *)

Definition hasRequestInput (raw : string) : bool :=
  let trimmed := TrimSpace raw in bool_decide (trimmed <> "") && bool_decide (trimmed <> "null").

Definition isToolCallItemType (itemType : string) : bool :=
  bool_decide (itemType ∈ ["function_call"; "custom_tool_call"; "shell_call"; "apply_patch_call"; "computer_call";
                           "code_interpreter_call"]).

Definition isToolOutputItemType (itemType : string) : bool :=
  bool_decide (itemType ∈ ["function_call_output"; "custom_tool_call_output"; "shell_call_output";
                           "apply_patch_call_output"; "computer_call_output"; "code_interpreter_call_output"]).

Definition collectContinuationToolCallIDs (items : list Item) : gset string :=
  foldl (fun callIDs item =>
    if isToolCallItemType (Type_ item) then
      let callID := TrimSpace (CallID item) in
      if decide (callID <> "") then {[callID]} ∪ callIDs else callIDs
    else callIDs) ∅ items.

(** The loop over the items of the request. *)
Fixpoint check_tool_outputs (callIDs : gset string) (items : list Item) : res unit :=
  match items with
  | [] => Ok tt
  | item :: items =>
      if negb (isToolOutputItemType (Type_ item)) then check_tool_outputs callIDs items
      else
        let callID := TrimSpace (CallID item) in
        if decide (callID = "") then
          Err (NewValidationError "input" (Type_ item +:+ " item must include call_id"))
        else if decide (callID ∈ callIDs) then check_tool_outputs callIDs items
        else Err (NewValidationError "input" (Type_ item +:+ " item references unknown call_id '" +:+ callID +:+ "'"))
  end.

Definition validateContinuationToolOutputs (items baseItems : list Item) : res unit :=
  match items with
  | [] => Ok tt
  | _ => check_tool_outputs (collectContinuationToolCallIDs baseItems ∪ collectContinuationToolCallIDs items) items
  end.

Definition isTrustedConversationCompaction (item : ConversationItem) : bool :=
  bool_decide (Type_ (ci_Item item) = "compaction") && bool_decide (ci_Source item = "response_output").

(** The index of the last element that satisfies the test. *)
Fixpoint last_index {A} (p : A -> bool) (l : list A) : option nat :=
  match l with
  | [] => None
  | x :: l => match last_index p l with
              | Some i => Some (S i)
              | None => if p x then Some 0 else None
              end
  end.

Definition domainItemsFromConversation (items : list ConversationItem) : list Item :=
  let out := map ci_Item items in
  match last_index isTrustedConversationCompaction items with
  | Some lastTrustedCompaction => drop lastTrustedCompaction out
  | None => out
  end.

(** The loop over the lineage, with what was collected so far. *)
Fixpoint lineage_context (out : list Item) (lineage : list StoredResponse) : list Item :=
  match lineage with
  | [] => out
  | response :: lineage =>
      let out := out ++ sr_NormalizedInputItems response in
      let outputStart := length out in
      let out := out ++ sr_Output response in
      let out := match last_index (fun item => bool_decide (Type_ item = "compaction")) (sr_Output response) with
                 | Some lastTrustedCompaction => drop (outputStart + lastTrustedCompaction) out
                 | None => out
                 end in
      lineage_context out lineage
  end.

Definition buildLineageContextItems (lineage : list StoredResponse) : list Item := lineage_context [] lineage.

Definition priorEffectiveItems (effectiveInput normalizedInput : list Item) : list Item :=
  if decide (effectiveInput = []) then []
  else if decide (normalizedInput = []) then effectiveInput
  else if decide (length effectiveInput <= length normalizedInput) then []
  else take (length effectiveInput - length normalizedInput) effectiveInput.

(** One entry of context_management; a null entry is the zero struct. *)
Definition threshold_entry (t : json) : option (string * Z) :=
  l ← struct_members t;
  type ← field_string "type" l;
  threshold ← field_int "compact_threshold" l;
  Some (type, threshold).

Fixpoint find_threshold (entries : list (string * Z)) : res (option Z) :=
  match entries with
  | [] => Ok None
  | (type, threshold) :: entries =>
      if decide (TrimSpace type <> "compaction") then find_threshold entries
      else if (threshold <=? 0)%Z then
        Err (NewValidationError "context_management"
               "context_management compaction policy requires compact_threshold > 0")
      else Ok (Some threshold)
  end.

Definition parseCompactionThreshold (raw : string) : res (option Z) :=
  let trimmed := TrimSpace raw in
  if decide (trimmed = "" \/ trimmed = "null") then Ok None
  else match (t ← jparse trimmed; l ← raw_array t; opt_map threshold_entry l) with
       | None => Err (NewValidationError "context_management" "context_management must be an array")
       | Some entries => find_threshold entries
       end.

Definition compactionResponseOutput (result : Result) : list Item :=
  match rs_Output result with [] => [rs_Item result] | output => output end.

Definition responseRequiresOutput (response : Response) : bool :=
  bool_decide (r_Status response = "") || EqualFold (TrimSpace (r_Status response)) "completed".

Definition formatResponseCompletedAt (response : Response) : string :=
  match r_CompletedAt response with None => "" | Some t => formatUnixTime t end.

(** The types of package llama's errors, for errors.As. *)
Definition timeout_error (e : goerr) : option string :=
  match e with EUpstreamTimeout message => Some message | _ => None end.
Definition upstream_error (e : goerr) : option (Z * string) :=
  match e with EUpstream status message => Some (status, message) | _ => None end.
Definition invalid_response_error (e : goerr) : option string :=
  match e with EInvalidResponse message => Some message | _ => None end.

Definition MapGeneratorError (e : goerr) : goerr :=
  if errors_as timeout_error e is Some _ then ESvcUpstreamTimeout
  else if errors_as upstream_error e is Some _ then ESvcUpstreamFailure
  else if errors_as invalid_response_error e is Some _ then ESvcUpstreamFailure
  else e.

Definition rawMessageEmpty (raw : option json) : bool := match raw with None => true | Some _ => false end.

(** The fields [next] leaves open are taken from [current]; both penalties are
    not. *)
Definition mergeStoredResponseLifecycle (next current : Response) : Response :=
  let text (a b : string) := if decide (a = "") then b else a in
  let raw (a b : option json) := if rawMessageEmpty a then b else a in
  {| r_ID := text (r_ID next) (r_ID current);
     r_Object := text (r_Object next) "response";
     r_CreatedAt := if (r_CreatedAt next =? 0)%Z then r_CreatedAt current else r_CreatedAt next;
     r_Status := text (r_Status next) (r_Status current);
     r_CompletedAt := match r_CompletedAt next with None => r_CompletedAt current | v => v end;
     r_Error := raw (r_Error next) (r_Error current);
     r_FrequencyPenalty := r_FrequencyPenalty next;
     r_IncompleteDetails := raw (r_IncompleteDetails next) (r_IncompleteDetails current);
     r_Instructions := raw (r_Instructions next) (r_Instructions current);
     r_MaxOutputTokens := raw (r_MaxOutputTokens next) (r_MaxOutputTokens current);
     r_MaxToolCalls := raw (r_MaxToolCalls next) (r_MaxToolCalls current);
     r_Model := text (r_Model next) (r_Model current);
     r_Output := if decide (outputs next = []) then r_Output current else r_Output next;
     r_ParallelToolCalls := raw (r_ParallelToolCalls next) (r_ParallelToolCalls current);
     r_PresencePenalty := r_PresencePenalty next;
     r_PreviousResponseID := text (r_PreviousResponseID next) (r_PreviousResponseID current);
     r_Prompt := raw (r_Prompt next) (r_Prompt current);
     r_PromptCacheKey := raw (r_PromptCacheKey next) (r_PromptCacheKey current);
     r_PromptCacheRetention := raw (r_PromptCacheRetention next) (r_PromptCacheRetention current);
     r_Reasoning := raw (r_Reasoning next) (r_Reasoning current);
     r_SafetyIdentifier := raw (r_SafetyIdentifier next) (r_SafetyIdentifier current);
     r_ServiceTier := raw (r_ServiceTier next) (r_ServiceTier current);
     r_Conversation := match r_Conversation next with None => r_Conversation current | v => v end;
     r_Background := match r_Background next with None => r_Background current | v => v end;
     r_Store := match r_Store next with None => r_Store current | v => v end;
     r_Temperature := raw (r_Temperature next) (r_Temperature current);
     r_Text := match r_Text next with None | Some JNull => r_Text current | t => t end;
     r_ToolChoice := raw (r_ToolChoice next) (r_ToolChoice current);
     r_Tools := raw (r_Tools next) (r_Tools current);
     r_TopLogprobs := raw (r_TopLogprobs next) (r_TopLogprobs current);
     r_TopP := raw (r_TopP next) (r_TopP current);
     r_Truncation := raw (r_Truncation next) (r_Truncation current);
     r_Usage := raw (r_Usage next) (r_Usage current);
     r_User := raw (r_User next) (r_User current);
     r_Metadata := match r_Metadata next with None => match r_Metadata current with None => Some [] | m => m end | m => m end;
     r_OutputText := text (r_OutputText next) (r_OutputText current) |}.

(** ** The service *)

Section service.
Context `{Sqlite} `{IdSource} `{MapOrder} `{UnicodeTable} `{RequestContext} `{TextModel} `{Generator} `{Clock}.

(** NewResponseServiceWithLimits, with the compactor and memory it starts with. *)
Definition NewResponseServiceWithLimits (limits : ResponseServiceLimits) : ResponseService :=
  {| s_compactor := Heuristic_Compact; s_hasMemoryStore := false;
     s_memoryConfig := {| Memory.Backend := ""; Inject := false; MaxNotes := 0; MaxNoteBytes := 0;
                          MaxContextBytes := 0; MetadataNamespace := "" |};
     s_limits := normalizeResponseServiceLimits limits |}.

Definition SetCompactor (s : ResponseService) (next : option (list Item -> ST cworld Result)) : ResponseService :=
  {| s_compactor := default Heuristic_Compact next; s_hasMemoryStore := s_hasMemoryStore s;
     s_memoryConfig := s_memoryConfig s; s_limits := s_limits s |}.

Definition SetMemory (s : ResponseService) (hasStore : bool) (cfg : Memory.Config) : res ResponseService :=
  normalized ← Memory.NormalizeConfig cfg;
  if Enabled normalized && negb hasStore then
    Err (EMsg ("memory store is required when responses.memory.backend=" +:+ Memory.Backend normalized))
  else Ok {| s_compactor := s_compactor s; s_hasMemoryStore := Enabled normalized;
             s_memoryConfig := normalized; s_limits := s_limits s |}.

Context (s : ResponseService).

Definition now_text : ST sworld string := now ← read_clock; mret (FormatTime now).

(** The clock is read only when the notes are touched or saved. *)
Definition service_memoryContextItems (input : CreateResponseInput) : ST sworld (list Item) :=
  now ← now_text;
  on_store (memoryContextItems (s_memoryConfig s) (s_hasMemoryStore s) (memory_input input) now).

Definition service_captureMemoryNote (input : CreateResponseInput) (responseID : string) : ST sworld unit :=
  now ← now_text;
  on_store (captureMemoryNote (s_memoryConfig s) (s_hasMemoryStore s) (memory_input input) responseID now).

(** The items the request continues from, and its conversation. *)
Definition base_items (input : CreateResponseInput) : ST sworld (list Item * Conversation) :=
  if decide (i_PreviousResponseID input <> "") then
    lineage ← on_store (GetResponseLineage (i_PreviousResponseID input) (StoredLineageMaxItems (s_limits s)));
    mret (buildLineageContextItems lineage, zeroConversation)
  else if decide (i_ConversationID input <> "") then
    '(conversation, items) ← on_store (GetConversation (i_ConversationID input));
    mret (domainItemsFromConversation items, conversation)
  else mret ([], zeroConversation).

Definition prepareResponseContext (input : CreateResponseInput) (requireModel requireInput allowMemory : bool)
    : ST sworld PreparedResponseContext :=
  if requireModel && bool_decide (i_Model input = "") then
    st_err (NewValidationError "model" "model is required")
  else if bool_decide (i_PreviousResponseID input <> "") && bool_decide (i_ConversationID input <> "") then
    st_err (NewValidationError "previous_response_id" "previous_response_id and conversation are mutually exclusive")
  else
    _ ← st_lift (NormalizeResponseMetadata (i_Metadata input));
    normalizedInput ← (if requireInput || hasRequestInput (i_Input input) then
                         items ← st_lift (NormalizeInput (i_Input input));
                         st_lift (ExpandSyntheticCompactionItems items)
                       else mret []);
    '(baseItems, conversation) ← base_items input;
    baseItems ← st_lift (ExpandSyntheticCompactionItems baseItems);
    let toolCallRefs := CollectToolCallReferences baseItems in
    _ ← (if decide (i_PreviousResponseID input <> "")
         then st_lift (validateContinuationToolOutputs normalizedInput baseItems) else mret tt);
    normalizedInput ← st_lift (CanonicalizeToolOutputs normalizedInput toolCallRefs);
    memoryItems ← (if (allowMemory : bool) then service_memoryContextItems input else mret []);
    mret {| pc_NormalizedInput := normalizedInput; pc_EffectiveInput := baseItems ++ normalizedInput;
            pc_ContextItems := AppendCurrentRequestContext (baseItems ++ memoryItems) (i_Instructions input) normalizedInput;
            pc_Conversation := conversation; pc_ToolCallRefs := toolCallRefs |}.

Definition PrepareCreateContext (input : CreateResponseInput) : ST sworld PreparedResponseContext :=
  prepareResponseContext input true true true.

(** The number of input tokens. *)
Definition CountInputTokens (input : CreateResponseInput) : ST sworld Z :=
  prepared ← prepareResponseContext input false false false;
  mret (EstimateSyntheticTokenCount (pc_ContextItems prepared)).

Record ResponseCompaction := {
  co_ID : string;
  co_CreatedAt : Z;
  co_Output : list Item;
  co_Usage : json
}.

Definition Compact (input : CreateResponseInput) : ST sworld ResponseCompaction :=
  prepared ← prepareResponseContext input true false false;
  result ← on_compactor (s_compactor s (pc_ContextItems prepared));
  let output := compactionResponseOutput result in
  let inputTokens := EstimateSyntheticTokenCount (pc_ContextItems prepared) in
  let outputTokens := EstimateSyntheticTokenCount output in
  id ← st_wrap "generate compaction response id" (on_ids (NewPrefixedID "resp"));
  now ← read_clock;
  mret {| co_ID := id; co_CreatedAt := utc_unix now; co_Output := output;
          co_Usage := BuildSyntheticUsage inputTokens outputTokens |}.

Definition prepareCreate (input : CreateResponseInput) : ST sworld preparedResponse :=
  preparedContext ← PrepareCreateContext input;
  responseID ← st_wrap "generate response id" (on_ids (NewPrefixedID "resp"));
  now ← read_clock;
  mret {| pr_ResponseID := responseID; pr_NormalizedInput := pc_NormalizedInput preparedContext;
          pr_EffectiveInput := pc_EffectiveInput preparedContext; pr_ContextItems := pc_ContextItems preparedContext;
          pr_OutputPrefix := []; pr_Conversation := pc_Conversation preparedContext; pr_CreatedAt := now |}.

Definition applyAutomaticCompaction (input : CreateResponseInput) (prepared : preparedResponse)
    : ST sworld preparedResponse :=
  threshold ← st_lift (parseCompactionThreshold (i_ContextManagement input));
  match threshold with
  | None => mret prepared
  | Some threshold =>
      if (EstimateSyntheticTokenCount (pr_ContextItems prepared) <=? threshold)%Z then mret prepared
      else
        let baseItems := priorEffectiveItems (pr_EffectiveInput prepared) (pr_NormalizedInput prepared) in
        if decide (baseItems = []) then mret prepared
        else
          result ← on_compactor (s_compactor s baseItems);
          mret {| pr_ResponseID := pr_ResponseID prepared; pr_NormalizedInput := pr_NormalizedInput prepared;
                  pr_EffectiveInput := rs_Item result :: pr_NormalizedInput prepared;
                  pr_ContextItems := AppendCurrentRequestContext (rs_Expanded result) (i_Instructions input)
                                       (pr_NormalizedInput prepared);
                  pr_OutputPrefix := pr_OutputPrefix prepared ++ [rs_Item result];
                  pr_Conversation := pr_Conversation prepared; pr_CreatedAt := pr_CreatedAt prepared |}
  end.

(** copy(out[len(out)-len(normalizedInput):], normalizedInput) *)
Definition overwrite_tail (out normalizedInput : list Item) : list Item :=
  if bool_decide (normalizedInput <> []) && bool_decide (length normalizedInput <= length out)
  then take (length out - length normalizedInput) out ++ normalizedInput else out.

Definition buildStoredEffectiveInputItems (effectiveInput normalizedInput : list Item) : ST nat (list Item) :=
  if decide (effectiveInput = []) then EnsureItemIDs normalizedInput
  else EnsureItemIDs (overwrite_tail effectiveInput normalizedInput).

(** The row of a response. *)
Definition stored_response (input : CreateResponseInput) (response : Response)
    (normalizedInput effectiveInput : list Item) : StoredResponse :=
  {| sr_ID := r_ID response; sr_Model := r_Model response; sr_RequestJSON := i_RequestJSON input;
     sr_ResponseJSON := marshalResponseJSON response; sr_NormalizedInputItems := normalizedInput;
     sr_EffectiveInputItems := effectiveInput; sr_Output := outputs response; sr_OutputText := r_OutputText response;
     sr_PreviousResponseID := r_PreviousResponseID response;
     sr_ConversationID := ConversationReferenceID (r_Conversation response); sr_Store := public_store input;
     sr_CreatedAt := formatUnixTime (r_CreatedAt response); sr_CompletedAt := formatResponseCompletedAt response |}.

(** The switch that stores a response: with its conversation, alone, or not. *)
Definition persist (input : CreateResponseInput) (conversation : Conversation) (stored : StoredResponse)
    (normalizedInput output : list Item) : ST sworld unit :=
  if decide (i_ConversationID input <> "") then
    on_store (SaveResponseAndAppendConversation conversation stored normalizedInput output)
  else if i_ForceShadowStore input || bool_decide (i_PreviousResponseID input <> "") || public_store input then
    on_store (SaveResponse stored)
  else mret tt.

Definition completeCreate (prepared : preparedResponse) (generationContext : list Item) (input : CreateResponseInput)
    (outputText : string) : ST sworld Response :=
  let response := NewResponse (pr_ResponseID prepared) (i_Model input) outputText (i_PreviousResponseID input)
                    (i_ConversationID input) (utc_unix (pr_CreatedAt prepared)) in
  response ← st_lift (FinalizeLocalResponse (i_TextConfig input) generationContext response);
  metadata ← st_lift (NormalizeResponseMetadata (i_Metadata input));
  let response := set_Metadata (Some metadata) response in
  let response := set_Background (BoolPtr (in_background input)) (set_Store (BoolPtr (public_store input)) response) in
  let response := HydrateResponseRequestSurface response (i_RequestJSON input) in
  normalizedInput ← on_ids (EnsureItemIDs (pr_NormalizedInput prepared));
  effectiveInput ← on_ids (buildStoredEffectiveInputItems (pr_EffectiveInput prepared) normalizedInput);
  output ← on_ids (EnsureItemIDs (pr_OutputPrefix prepared ++ outputs response));
  let response := set_Output (Some output) response in
  _ ← persist input (pr_Conversation prepared) (stored_response input response normalizedInput effectiveInput)
        normalizedInput output;
  _ ← service_captureMemoryNote input (r_ID response);
  mret response.

Definition Create (input : CreateResponseInput) : ST sworld Response :=
  prepared ← prepareCreate input;
  prepared ← applyAutomaticCompaction input prepared;
  '(generationContext, _) ← st_lift (buildLocalTextGenerationContext (pr_ContextItems prepared)
                                       (LocalToolOutputSummaryMaxBytes (s_limits s)));
  _ ← st_lift (PrepareLocalResponseText (i_TextConfig input) generationContext);
  outputText ← on_generator (generateLocalResponseText (i_Model input) (i_GenerationOptions input) generationContext);
  completeCreate prepared generationContext input outputText.

(** [None] when the context holds no tool output. *)
Definition TryCreatePreparedLocalTextResponse (input : CreateResponseInput) (prepared : PreparedResponseContext)
    (responseID : string) : ST sworld (option Response) :=
  '(generationContext, hasToolOutput) ← st_lift (buildLocalTextGenerationContext (pc_ContextItems prepared)
                                                   (LocalToolOutputSummaryMaxBytes (s_limits s)));
  if negb hasToolOutput then mret None
  else
    _ ← st_lift (PrepareLocalResponseText (i_TextConfig input) generationContext);
    outputText ← on_generator (generateLocalResponseText (i_Model input) (i_GenerationOptions input) generationContext);
    if decide (TrimSpace outputText = "") then st_err (EInvalidResponse "llama content was empty")
    else
      responseID ← (if decide (TrimSpace responseID = "")
                    then st_wrap "generate response id" (on_ids (NewPrefixedID "resp")) else mret responseID);
      now ← read_clock;
      let response := NewResponse responseID (i_Model input) outputText (i_PreviousResponseID input)
                        (i_ConversationID input) (utc_unix now) in
      mret (Some (HydrateResponseRequestSurface response (i_RequestJSON input))).

(** The response announced before anything is generated. *)
Definition created_response (prepared : preparedResponse) (input : CreateResponseInput) (textConfig : ResponseTextConfig)
    (metadata : list (string * string)) : Response :=
  let response := set_ID (pr_ResponseID prepared) (set_Object "response" zeroResponse) in
  let response := set_CreatedAt (utc_unix (pr_CreatedAt prepared)) (set_Status "in_progress" response) in
  let response := set_Model (i_Model input) (set_PreviousResponseID (i_PreviousResponseID input) response) in
  let response := set_Conversation (NewConversationReference (i_ConversationID input)) response in
  let response := set_Background (BoolPtr (in_background input)) (set_Store (BoolPtr (public_store input)) response) in
  let response := set_Text (Some (MarshalResponseTextConfig textConfig)) (set_Metadata (Some metadata) response) in
  HydrateResponseRequestSurface (set_Output (Some []) response) (i_RequestJSON input).

Definition CreateStream {C} (input : CreateResponseInput) (hooks : StreamHooks C) : ST (sworld * C) Response :=
  prepared ← in_service (prepareCreate input);
  prepared ← in_service (applyAutomaticCompaction input prepared);
  '(generationContext, _) ← st_lift (buildLocalTextGenerationContext (pr_ContextItems prepared)
                                       (LocalToolOutputSummaryMaxBytes (s_limits s)));
  textConfig ← st_lift (PrepareLocalResponseText (i_TextConfig input) generationContext);
  metadata ← st_lift (NormalizeResponseMetadata (i_Metadata input));
  let created := created_response prepared input textConfig metadata in
  _ ← (match OnCreated hooks with
       | None => mret tt
       | Some hook => call_hook (Created created (pr_OutputPrefix prepared)) (hook created (pr_OutputPrefix prepared))
       end);
  outputText ← in_service (on_generator
    (generateLocalResponseText (i_Model input) (i_GenerationOptions input) generationContext));
  if decide (TrimSpace outputText = "") then st_err (EInvalidResponse "llama stream content was empty")
  else
    _ ← (match OnDelta hooks with None => mret tt | Some hook => call_hook (Delta outputText) (hook outputText) end);
    in_service (completeCreate prepared generationContext input outputText).

Definition CreateWarmup (input : CreateResponseInput) : ST sworld Response :=
  prepared ← prepareCreate input;
  prepared ← applyAutomaticCompaction input prepared;
  metadata ← st_lift (NormalizeResponseMetadata (i_Metadata input));
  now ← read_clock;
  let response := set_ID (pr_ResponseID prepared) (set_Object "response" zeroResponse) in
  let response := set_CreatedAt (utc_unix (pr_CreatedAt prepared)) (set_Status "completed" response) in
  let response := set_CompletedAt (Int64Ptr (utc_unix now)) (set_Model (i_Model input) response) in
  let response := set_Output (Some []) (set_PreviousResponseID (i_PreviousResponseID input) response) in
  let response := set_Conversation (NewConversationReference (i_ConversationID input)) response in
  let response := set_Background (BoolPtr false) (set_Store (BoolPtr (public_store input)) response) in
  let response := set_Text (Some (InferResponseTextConfigFromRequestJSON (i_RequestJSON input)))
                    (set_Metadata (Some metadata) response) in
  let response := HydrateResponseRequestSurface response (i_RequestJSON input) in
  normalizedInput ← on_ids (EnsureItemIDs (pr_NormalizedInput prepared));
  effectiveInput ← on_ids (buildStoredEffectiveInputItems (pr_EffectiveInput prepared) normalizedInput);
  _ ← persist input (pr_Conversation prepared) (stored_response input response normalizedInput effectiveInput)
        normalizedInput (outputs response);
  mret response.
End service.
