(* ===== verification/RespManage.v ===== *)
(** * internal/service/responses.go: stored responses

    Storing a response that was produced elsewhere, reading, refreshing and
    deleting stored responses, and the input items of one. *)

From S2P Require Import Prelude GoStr GoFloat GoJson JsonFacts StrFacts GoInt GoTime World Items Normalize Context Store ConvService Compaction Compactor Memory ToolMarkup TextFormat Response LocalGen RespService.

(** The identifiers of items, without the blank ones. *)
Definition item_ids (items : list Item) : gset string :=
  foldl (fun ids item => let id := TrimSpace (ID item) in if decide (id <> "") then {[id]} ∪ ids else ids) ∅ items.

(** The index of the first element that satisfies the test. *)
Fixpoint first_index {A} (p : A -> bool) (l : list A) : option nat :=
  match l with [] => None | x :: l => if p x then Some 0 else S <$> first_index p l end.

Definition conversationInputItemsPrefix (items : list ConversationItem) (stored : StoredResponse)
    : option (list Item) :=
  match items with
  | [] => None
  | _ =>
      let inputIDs := item_ids (sr_NormalizedInputItems stored) in
      match last_index (fun item => bool_decide (ci_ID item ∈ inputIDs)) items with
      | Some lastInputIndex => Some (domainItemsFromConversation (take (lastInputIndex + 1) items))
      | None =>
          let outputIDs := item_ids (sr_Output stored) in
          match first_index (fun item => bool_decide (ci_ID item ∈ outputIDs)) items with
          | Some idx => Some (domainItemsFromConversation (take idx items))
          | None => None
          end
      end
  end.

Section manage.
Context `{Sqlite} `{IdSource} `{MapOrder} `{UnicodeTable} `{RequestContext} `{TextModel} `{Generator} `{Clock}.
Context (s : ResponseService).

Definition id_required : goerr := NewValidationError "id" "response id is required".

(** ** SaveExternalResponse *)

(** The response with the fields the request or the time supplies. *)
Definition complete_external (input : CreateResponseInput) (response : Response) (metadata : list (string * string))
    (now : Z) : Response :=
  let response := set_Object "response" response in
  let response := if decide (r_Model response = "") then set_Model (i_Model input) response else response in
  let response := if bool_decide (r_PreviousResponseID response = "") && bool_decide (i_PreviousResponseID input <> "")
                  then set_PreviousResponseID (i_PreviousResponseID input) response else response in
  let response := match r_Conversation response with
                  | None => if decide (i_ConversationID input <> "")
                            then set_Conversation (NewConversationReference (i_ConversationID input)) response
                            else response
                  | Some _ => response end in
  let response := match r_Text response with
                  | None | Some JNull => set_Text (Some (InferResponseTextConfigFromRequestJSON (i_RequestJSON input))) response
                  | Some _ => response end in
  let response := match r_Store response with None => set_Store (BoolPtr (public_store input)) response | _ => response end in
  let response := match r_Background response with
                  | None => set_Background (BoolPtr (in_background input)) response | _ => response end in
  let response := match r_Metadata response with None => set_Metadata (Some metadata) response | _ => response end in
  let response := HydrateResponseRequestSurface response (i_RequestJSON input) in
  let response := if (r_CreatedAt response =? 0)%Z then set_CreatedAt now response else response in
  let response := if decide (r_Status response = "") then
                    if bool_decide (TrimSpace (r_OutputText response) <> "") || bool_decide (outputs response <> [])
                    then set_Status "completed" response else set_Status "in_progress" response
                  else response in
  let response := if negb (EqualFold (r_Status response) "completed") then set_CompletedAt None response else response in
  let response := match r_CompletedAt response with
                  | None => if EqualFold (r_Status response) "completed" then set_CompletedAt (Int64Ptr now) response
                            else response
                  | Some _ => response end in
  if bool_decide (TrimSpace (r_OutputText response) <> "") && bool_decide (outputs response = [])
  then set_Output (Some [NewOutputTextMessage (r_OutputText response)]) response else response.

Definition SaveExternalResponse (prepared : PreparedResponseContext) (input : CreateResponseInput)
    (response : Response) : ST sworld Response :=
  metadata ← (match r_Metadata response with
              | None => st_lift (NormalizeResponseMetadata (i_Metadata input))
              | Some metadata => mret metadata
              end);
  now ← read_clock;
  let response := complete_external input response metadata (utc_unix now) in
  if responseRequiresOutput response && bool_decide (outputs response = []) then
    st_err (NewValidationError "output" "assistant output is required")
  else
    normalizedInput ← on_ids (EnsureItemIDs (pc_NormalizedInput prepared));
    effectiveInput ← on_ids (buildStoredEffectiveInputItems (pc_EffectiveInput prepared) normalizedInput);
    response ← (if decide (outputs response = []) then mret response
                else output ← on_ids (EnsureItemIDs (outputs response)); mret (set_Output (Some output) response));
    _ ← persist input (pc_Conversation prepared) (stored_response input response normalizedInput effectiveInput)
          normalizedInput (outputs response);
    _ ← service_captureMemoryNote s input (r_ID response);
    mret response.

(** ** Replay artifacts *)

Definition SaveReplayArtifacts (responseID : string) (artifacts : list ResponseReplayArtifact) : ST sworld unit :=
  if decide (TrimSpace responseID = "" \/ artifacts = []) then mret tt
  else on_store (SaveResponseReplayArtifacts responseID artifacts).

Definition GetReplayArtifacts (responseID : string) : ST sworld (list ResponseReplayArtifact) :=
  if decide (TrimSpace responseID = "") then mret [] else on_store (GetResponseReplayArtifacts responseID).

(** ** Reading *)

Definition GetStored (id : string) : ST sworld Response :=
  if decide (id = "") then st_err id_required
  else
    stored ← on_store (GetResponse id);
    if negb (sr_Store stored) then st_err ESvcNotFound else mret (ResponseFromStored stored).

Definition HasPreviousResponse (id : string) : ST sworld bool :=
  if decide (id = "") then st_err id_required
  else _ ← on_store (GetResponse id); mret true.

(** A call whose error is not returned but decides what comes next. *)
Definition attempt {A} (m : ST sworld A) : ST sworld (option A) := fun w =>
  match m w with
  | (Ok a, w') => (Ok (Some a), w')
  | (Err _, w') => (Ok None, w')
  | (Panic, w') => (Panic, w')
  end.

Definition reconstructStoredInputItems (stored : StoredResponse) : ST sworld (list Item) :=
  lineage ← (if decide (sr_PreviousResponseID stored <> "")
             then attempt (on_store (GetResponseLineage (sr_PreviousResponseID stored)
                                       (StoredLineageMaxItems (s_limits s))))
             else mret None);
  match lineage with
  | Some lineage =>
      on_ids (EnsureItemIDs (flat_map (fun response => sr_NormalizedInputItems response ++ sr_Output response) lineage
                             ++ sr_NormalizedInputItems stored))
  | None =>
      conversation ← (if decide (sr_ConversationID stored <> "")
                      then attempt (on_store (GetConversation (sr_ConversationID stored))) else mret None);
      match conversation ≫= fun c => conversationInputItemsPrefix c.2 stored with
      | Some items => on_ids (EnsureItemIDs items)
      | None => on_ids (EnsureItemIDs (sr_NormalizedInputItems stored))
      end
  end.

Definition GetInputItems (id : string) : ST sworld (list Item) :=
  if decide (id = "") then st_err id_required
  else
    stored ← on_store (GetResponse id);
    if negb (sr_Store stored) then st_err ESvcNotFound
    else if decide (sr_EffectiveInputItems stored <> []) then mret (sr_EffectiveInputItems stored)
    else reconstructStoredInputItems stored.

(** ** Deleting *)

Definition Delete (id : string) : ST sworld unit :=
  if decide (id = "") then st_err id_required
  else
    stored ← on_store (GetResponse id);
    if negb (sr_Store stored) then st_err ESvcNotFound else on_store (DeleteResponse id).

(** A missing response is not an error. *)
Definition ignore_not_found {A} (default : A) (m : ST sworld A) : ST sworld A := fun w =>
  match m w with
  | (Err e, w') => if errors_is ESvcNotFound (MapStorageError e) then (Ok default, w') else (Err e, w')
  | r => r
  end.

Definition DeleteShadowResponse (id : string) : ST sworld unit :=
  let id := TrimSpace id in
  if decide (id = "") then mret tt
  else
    stored ← ignore_not_found None (stored ← on_store (GetResponse id); mret (Some stored));
    match stored with
    | None => mret tt
    | Some stored => if sr_Store stored then mret tt else ignore_not_found tt (on_store (DeleteResponse id))
    end.

(** ** Refreshing *)

Definition refreshed (stored : StoredResponse) (response : Response) : StoredResponse :=
  {| sr_ID := sr_ID stored; sr_Model := r_Model response; sr_RequestJSON := sr_RequestJSON stored;
     sr_ResponseJSON := marshalResponseJSON response; sr_NormalizedInputItems := sr_NormalizedInputItems stored;
     sr_EffectiveInputItems := sr_EffectiveInputItems stored; sr_Output := outputs response;
     sr_OutputText := r_OutputText response; sr_PreviousResponseID := r_PreviousResponseID response;
     sr_ConversationID := ConversationReferenceID (r_Conversation response); sr_Store := sr_Store stored;
     sr_CreatedAt := if (r_CreatedAt response =? 0)%Z then sr_CreatedAt stored else formatUnixTime (r_CreatedAt response);
     sr_CompletedAt := formatResponseCompletedAt response |}.

Definition Refresh (response : Response) : ST sworld Response :=
  if decide (r_ID response = "") then st_err id_required
  else
    stored ← on_store (GetResponse (r_ID response));
    let response := mergeStoredResponseLifecycle response (ResponseFromStored stored) in
    let response := if bool_decide (TrimSpace (r_OutputText response) <> "") && bool_decide (outputs response = [])
                    then set_Output (Some [NewOutputTextMessage (r_OutputText response)]) response else response in
    if responseRequiresOutput response && bool_decide (outputs response = []) then
      st_err (NewValidationError "output" "assistant output is required")
    else
      response ← (if decide (outputs response = []) then mret response
                  else output ← on_ids (EnsureItemIDs (outputs response)); mret (set_Output (Some output) response));
      _ ← on_store (SaveResponse (refreshed stored response));
      mret response.
End manage.
