(* ===== verification/LocalProps.v ===== *)
(** * What local text generation guarantees

    The repair loop around the generator, and the bounded summary of tool
    outputs that a generation context ends with. *)

From S2P Require Import Prelude GoStr GoFloat GoJson JsonFacts StrFacts GoInt World Items Normalize NormProps Context Store Compaction Memory MemoryProps ToolMarkup TextFormat TextProps Response LocalGen.

(** ** The repair loop *)

Section generate.
Context `{UnicodeTable} `{Generator}.
Implicit Types items ctx : list Item.

(** What the generator is given for the [k]-th time when it starts from
    [items] and is repaired from [ctx]. *)
Definition prompt items ctx (k : nat) : list Item :=
  match k with 0 => items | S _ => appendRawToolMarkupRepairInstruction ctx end.

Definition answer (model : string) (options : list (string * json)) items ctx (n k : nat) : res string :=
  gen_Generate (n + k) model (prompt items ctx k) options.

Definition leaked (r : res string) : Prop := exists text, r = Ok text /\ containsRawToolCallMarkupText text = true.

(** What the loop returns when the answer at which it stops is [r]. *)
Definition verdict (r : res string) : res string :=
  match r with
  | Ok text => if containsRawToolCallMarkupText text then Err (EInvalidResponse "model emitted raw tool-call markup")
               else Ok text
  | r => r
  end.

Lemma generate_loop_spec retries model options ctx items n :
  exists k, k <= retries /\ (forall j, j < k -> leaked (answer model options items ctx n j)) /\
    (k < retries -> ~ leaked (answer model options items ctx n k)) /\
    generate_loop retries model options ctx items n = (verdict (answer model options items ctx n k), n + k + 1).
Proof.
  revert items n. induction retries as [|retries IH]; intros items n; cbn [generate_loop];
    unfold mbind at 1, st_bind at 1, call_generate; replace (gen_Generate n model items options)
      with (answer model options items ctx n 0) by (unfold answer; simpl; by rewrite Nat.add_0_r).
  all: destruct (answer model options items ctx n 0) as [text|e|] eqn:E0.
  1: { exists 0. rewrite E0. simpl. destruct (containsRawToolCallMarkupText text); simpl;
         (split_and!; [lia|intros; lia|intros; lia|]); unfold st_err, mret, st_ret; do 2 f_equal; lia. }
  3: { destruct (containsRawToolCallMarkupText text) eqn:Hm; simpl.
       - destruct (IH (appendRawToolMarkupRepairInstruction ctx) (S n)) as (k & Hk & Hj & Hs & Hrun).
         assert (Hshift : forall j, answer model options (appendRawToolMarkupRepairInstruction ctx) ctx (S n) j =
                                    answer model options items ctx n (S j)).
         { intros j. unfold answer. replace (S n + j) with (n + S j) by lia. by destruct j. }
         exists (S k). split_and!; [lia| | |].
         + intros [|j] Hlt; [by exists text|]. rewrite <-Hshift. apply Hj. lia.
         + intros Hlt. rewrite <-Hshift. apply Hs. lia.
         + rewrite Hrun, Hshift. f_equal. lia.
       - exists 0. rewrite E0. simpl. rewrite Hm. split_and!; [lia|intros; lia| |unfold mret, st_ret; f_equal; lia].
         intros _ (text' & [= <-] & Hl). congruence. }
  all: exists 0; rewrite E0; simpl; split_and!; [lia|intros; lia|intros _ (? & ? & ?); discriminate|f_equal; lia].
Qed.
End generate.

(** Fact (safety): the generator is called at most three times for a response.
    It is called again, with the repair instruction after the same context,
    exactly when its answer showed tool markup; the text that is returned is
    its last answer and shows none; when the third answer still does, the
    request fails.  An error of the generator is returned as it is. *)
Theorem generateLocalResponseText_spec `{UnicodeTable} `{Generator} model options ctx n :
  exists k, k <= 2 /\ (forall j, j < k -> leaked (answer model options ctx ctx n j)) /\
    (k < 2 -> ~ leaked (answer model options ctx ctx n k)) /\
    generateLocalResponseText model options ctx n = (verdict (answer model options ctx ctx n k), n + k + 1).
Proof. apply generate_loop_spec. Qed.

(** ** The summary of tool outputs *)

(** The outputs that are shown, each with its heading. *)
Definition tool_parts (items : list Item) : list string :=
  omap (fun item =>
    let output := TrimSpace (localTextGenerationToolOutput item) in
    if isLocalTextGenerationToolOutput (Type_ item) && bool_decide (output <> "")
    then Some (tool_output_part item output) else None) items.

Definition blank_line : string := newline +:+ newline.

(** What is written when [parts] follow what was written before. *)
Definition parts_text (wrote : bool) (parts : list string) : string :=
  match parts with
  | [] => ""
  | _ => (if wrote then blank_line else "") +:+ sjoin blank_line parts
  end.

(** A text cut at a limit, but not inside the [n] bytes it starts with. *)
Definition cut_at (limit n : Z) (full : string) : string :=
  if (byte_len full <=? limit)%Z then full else stake (Z.to_nat (Z.max limit n)) full.

Lemma parts_text_cons wrote p parts :
  parts_text wrote (p :: parts) = ((if wrote then blank_line else "") +:+ p) +:+ parts_text true parts.
Proof. destruct parts; simpl; by rewrite ?sapp_nil_r, ?sapp_assoc. Qed.

Lemma tool_output_part_nonempty item output : (0 < byte_len (tool_output_part item output))%Z.
Proof.
  unfold tool_output_part. rewrite !byte_len_app. pose proof (byte_len_nonneg output).
  change (byte_len ":") with 1%Z. change (byte_len newline) with 1%Z.
  set (header := if decide _ then _ else _). pose proof (byte_len_nonneg header). lia.
Qed.

Lemma stake_app_le n s t : n <= String.length s -> stake n (s +:+ t) = stake n s.
Proof. revert n. induction s as [|a s IH]; intros [|n] Hn; simpl in *; try done; [lia|]. rewrite IH by lia. done. Qed.

Lemma stake_app_ge n s t : stake (String.length s + n) (s +:+ t) = s +:+ stake n t.
Proof. induction s as [|a s IH]; simpl; [done|]. by rewrite sapp_cons, <-IH. Qed.

Lemma summary_loop_spec limit b wrote items : (wrote = true -> byte_len b <= limit)%Z ->
  let full := b +:+ parts_text wrote (tool_parts items) in
  summary_loop limit b wrote items =
    (if decide (tool_parts items = []) then b else cut_at limit (byte_len b) full,
     wrote || bool_decide (tool_parts items <> []),
     bool_decide (tool_parts items <> []) && negb (byte_len full <=? limit)%Z).
Proof.
  revert b wrote. induction items as [|item items IH]; intros b wrote Hb; cbn [summary_loop].
  { simpl. by rewrite orb_false_r. }
  unfold tool_parts in *. cbn [omap list_omap].
  destruct (isLocalTextGenerationToolOutput (Type_ item)) eqn:Ht; simpl; [|by apply IH].
  destruct (decide (TrimSpace (localTextGenerationToolOutput item) = "")) as [Ho|Ho]; [rewrite (bool_decide_false (TrimSpace _ <> "")) by (intros Hc; by apply Hc); by apply IH|].
  rewrite (bool_decide_true (TrimSpace _ <> "")) by done. set (p := tool_output_part item _).
  set (parts := omap _ items) in *. rewrite (decide_False (P := p :: parts = [])), (bool_decide_true (p :: parts <> [])) by done.
  rewrite orb_true_r, parts_text_cons. simpl.
  set (sep := if wrote then blank_line else "").
  replace (if wrote then newline +:+ newline +:+ p else p) with (sep +:+ p)
    by (subst sep; destruct wrote; [unfold blank_line; by rewrite sapp_assoc|done]).
  assert (Hp : (0 < byte_len (sep +:+ p))%Z).
  { rewrite byte_len_app. pose proof (tool_output_part_nonempty item (TrimSpace (localTextGenerationToolOutput item))).
    pose proof (byte_len_nonneg sep). fold p in H. lia. }
  pose proof (byte_len_nonneg b). pose proof (byte_len_nonneg (parts_text true parts)).
  unfold writeBoundedLocalToolSummary.
  destruct (Z.leb_spec (limit - byte_len b) 0) as [Hr|Hr].
  { unfold cut_at. rewrite !byte_len_app in *. rewrite (proj2 (Z.leb_gt _ _)) by lia. simpl.
    f_equal. f_equal. rewrite Z.max_r by lia. unfold byte_len. rewrite Nat2Z.id. by rewrite stake_app. }
  destruct (Z.leb_spec (byte_len (sep +:+ p)) (limit - byte_len b)) as [Hf|Hf].
  - rewrite IH by (intros _; rewrite byte_len_app; lia). simpl. rewrite sapp_assoc. f_equal; [f_equal|].
    + case_decide as He; [rewrite He; simpl; rewrite !sapp_nil_r; unfold cut_at|].
      * rewrite (proj2 (Z.leb_le _ _)); [done|]. rewrite byte_len_app. lia.
      * unfold cut_at. destruct (_ <=? _)%Z; [done|]. rewrite byte_len_app. by rewrite !Z.max_l by lia.
    + destruct (decide (parts = [])) as [->|He]; [rewrite bool_decide_false by tauto; simpl|by rewrite bool_decide_true].
      rewrite !sapp_nil_r, byte_len_app. by rewrite (proj2 (Z.leb_le _ _)) by lia.
  - unfold cut_at. rewrite (proj2 (Z.leb_gt _ _)) by (rewrite !byte_len_app in *; lia). simpl. f_equal. f_equal.
    rewrite Z.max_l by lia.
    replace (Z.to_nat limit) with (String.length b + Z.to_nat (limit - byte_len b)) by (unfold byte_len in *; lia).
    rewrite stake_app_ge. f_equal. symmetry. apply stake_app_le. unfold byte_len in *. lia.
Qed.

(** The bytes that are left for outputs when a notice may follow them. *)
Definition summary_room (maxBytes : Z) : Z * string :=
  let notice := localToolOutputSummaryTruncationNotice in
  if (byte_len notice + byte_len summary_heading <? maxBytes)%Z then (maxBytes - byte_len notice, notice)%Z
  else (maxBytes, "").

(** Fact (bounds): there is a summary exactly when the limit is positive and some
    tool gave output.  It is the heading and the outputs in order; when they
    do not fit in the limit they are cut at the limit (the heading never is),
    with a notice when there is room for it.  So it takes at most the limit or
    the heading. *)
Theorem localToolOutputSummary_spec items maxBytes :
  let full := summary_heading +:+ sjoin blank_line (tool_parts items) in
  let '(room, notice) := summary_room maxBytes in
  let summary := cut_at room (byte_len summary_heading) full +:+ (if (byte_len full <=? room)%Z then "" else notice) in
  localToolOutputSummary items maxBytes =
    (if bool_decide (0 < maxBytes)%Z && bool_decide (tool_parts items <> []) then Some summary else None) /\
  (byte_len summary <= Z.max maxBytes (byte_len summary_heading))%Z.
Proof.
  intros full. destruct (summary_room maxBytes) as [room notice] eqn:Hroom. intros summary. split.
  - unfold localToolOutputSummary. destruct (Z.leb_spec maxBytes 0); [by rewrite bool_decide_false by lia|].
    rewrite bool_decide_true by lia. unfold summary_room in Hroom.
    assert (Hrun : summary_loop room summary_heading false items =
       (if decide (tool_parts items = []) then summary_heading else cut_at room (byte_len summary_heading) full,
        bool_decide (tool_parts items <> []),
        bool_decide (tool_parts items <> []) && negb (byte_len full <=? room)%Z)).
    { rewrite summary_loop_spec by done. simpl. subst full. by destruct (tool_parts items). }
    subst summary. destruct (_ <? maxBytes)%Z; injection Hroom as <- <-; rewrite Hrun;
      (destruct (decide (tool_parts items = [])) as [->|He]; [by rewrite bool_decide_false by tauto|]);
      rewrite (bool_decide_true (tool_parts items <> [])) by done; simpl;
      destruct (_ <=? _)%Z; simpl; by rewrite ?sapp_nil_r.
  - subst summary. rewrite byte_len_app. unfold cut_at. unfold summary_room in Hroom.
    assert (Hcut : forall n, (0 <= n)%Z -> (byte_len (stake (Z.to_nat n) full) <= n)%Z).
    { intros n Hn. unfold byte_len. rewrite stake_length. lia. }
    pose proof (byte_len_nonneg localToolOutputSummaryTruncationNotice) as Hn.
    pose proof (byte_len_nonneg summary_heading) as Hh.
    destruct (Z.ltb_spec (byte_len localToolOutputSummaryTruncationNotice + byte_len summary_heading) maxBytes);
      injection Hroom as <- <-; (case_match eqn:Hle; [apply Z.leb_le in Hle; change (byte_len "") with 0%Z; lia|]).
    + specialize (Hcut (Z.max (maxBytes - byte_len localToolOutputSummaryTruncationNotice) (byte_len summary_heading))).
      lia.
    + specialize (Hcut (Z.max maxBytes (byte_len summary_heading))). change (byte_len "") with 0%Z. lia.
Qed.

(** The tool output whose text is cut inside a rune. *)
Definition accented_output : Item :=
  {| Type_ := "function_call_output"; Role := ""; Content := []; Meta := None;
     Raw := Some (JObj [("type", JStr "function_call_output"); ("call_id", JStr "c");
                        ("output", JStr (String (chr 195) (char_string (chr 169))))]) |}.

(** Fact (error): the outputs are cut at a byte, and a message whose text is not
    valid UTF-8 becomes the zero item: one cut inside a rune and the context
    holds no tool output at all, although it is said to. *)
Theorem cut_rune_loses_tool_output :
  exists items, @buildLocalTextGenerationContext ascii_only [accented_output] 46%Z = Ok (items, true) /\
    last items = Some zeroItem.
Proof. eexists. split; vm_compute; reflexivity. Qed.

(** ** Structured output *)

Lemma Normalize_idemp raw :
  NormalizeStructuredOutputJSONText (NormalizeStructuredOutputJSONText raw) = NormalizeStructuredOutputJSONText raw.
Proof.
  unfold NormalizeStructuredOutputJSONText at 2 3. case_decide as He; [reflexivity|].
  assert (Hkeep : forall s, s <> "" -> TrimSpace s = s -> Valid s = true -> NormalizeStructuredOutputJSONText s = s).
  { intros s Hs Ht Hv. unfold NormalizeStructuredOutputJSONText. by rewrite Ht, decide_False, Hv. }
  destruct (Valid (TrimSpace raw)) eqn:Hv; [apply Hkeep; [done|apply TrimSpace_idemp|done]|].
  destruct (unwrapStructuredOutputJSONFence (TrimSpace raw)) as [u|] eqn:Hu.
  2: { unfold NormalizeStructuredOutputJSONText. by rewrite TrimSpace_idemp, decide_False, Hv, Hu. }
  destruct (Valid u) eqn:Hvu.
  2: { unfold NormalizeStructuredOutputJSONText. by rewrite TrimSpace_idemp, decide_False, Hv, Hu, Hvu. }
  unfold unwrapStructuredOutputJSONFence in Hu. destruct (_ || _); [done|].
  destruct (Index _ _) as [i|]; [|done]. destruct (_ && _); [done|].
  case_decide as Hc; [done|]. injection Hu as <-. apply Hkeep; [done|apply TrimSpace_idemp|done].
Qed.

Lemma decodeStructuredOutput_ok text v : decodeStructuredOutput text = Ok v ->
  NormalizeStructuredOutputJSONText text <> "" /\
  exists t, jparse (NormalizeStructuredOutputJSONText text) = Some t /\ v = nval_of t.
Proof.
  unfold decodeStructuredOutput. case_decide as He; [done|]. intros Hd. split; [done|].
  destruct (jparse _) as [t|]; [|done]. injection Hd as <-. by exists t.
Qed.

Section final.
Context `{MapOrder} `{UnicodeTable}.

Lemma normalizeLocal_text r : NormalizeStructuredOutputJSONText (r_OutputText r) <> "" ->
  r_OutputText (normalizeLocalStructuredOutput r) = NormalizeStructuredOutputJSONText (r_OutputText r).
Proof. intros Hn. unfold normalizeLocalStructuredOutput. case_decide as Hd; [destruct Hd; congruence|done]. Qed.

Lemma normalizeLocal_keeps r : r_Text (normalizeLocalStructuredOutput r) = r_Text r.
Proof. unfold normalizeLocalStructuredOutput. destruct (decide _); reflexivity. Qed.

(** A text that was normalized and then decoded is itself JSON. *)
Lemma normalized_decodes r v :
  decodeStructuredOutput (r_OutputText (normalizeLocalStructuredOutput r)) = Ok v ->
  exists t, jparse (r_OutputText (normalizeLocalStructuredOutput r)) = Some t /\ v = nval_of t.
Proof.
  intros (Hne & t & Hp & ->)%decodeStructuredOutput_ok. exists t. split; [|done].
  assert (Hn : NormalizeStructuredOutputJSONText (r_OutputText r) <> "").
  { intros He. apply Hne. unfold normalizeLocalStructuredOutput. rewrite decide_True by auto. done. }
  rewrite normalizeLocal_text in * by done. by rewrite Normalize_idemp in Hp.
Qed.

(** The formats parsing gives: a schema was checked. *)
Definition format_shape (f : ResponseTextFormat) : Prop :=
  tf_Type f = "text" \/ tf_Type f = "json_object" \/
  tf_Type f = "json_schema" /\
    exists schema, any_map (default JNull (tf_Schema f)) = Some (Some schema) /\ supported schema.

Lemma parse_format_shape t f : parseResponseTextFormat t = Ok f -> format_shape f.
Proof.
  unfold parseResponseTextFormat. destruct (raw_map t) as [payload|]; [|done].
  intros (ty & _ & Hty)%res_bind_ok. case_decide as Hd.
  { apply res_bind_ok in Hty as ([] & _ & [= <-]). unfold format_shape. destruct Hd as [->| ->]; auto. }
  case_decide; [|done]. right; right. unfold parse_schema_format in Hty.
  apply res_bind_ok in Hty as ([] & _ & Hty). apply res_bind_ok in Hty as (name & _ & Hty).
  apply res_bind_ok in Hty as (strict & _ & Hty).
  destruct (am_lookup "schema" payload) as [[| | | | |l]|]; try done.
  apply res_bind_ok in Hty as ([] & Hv & [= <-]). split; [done|]. unfold validateSupportedResponseJSONSchema in Hv. simpl.
  destruct (any_map (JObj l)) as [[schema|]|] eqn:Em; [|simpl in Em; by repeat case_match|done].
  exists schema. split; [done|].
  eapply validate_node_spec; [|exact Hv]. simpl. lia.
Qed.

Lemma ParseResponseTextConfig_shape raw c : ParseResponseTextConfig raw = Ok c -> format_shape (tc_Format c).
Proof.
  assert (Hdef : format_shape (tc_Format DefaultResponseTextConfig)) by (by left).
  unfold ParseResponseTextConfig. case_decide; [by intros [= <-]|].
  destruct (jparse _) as [t|]; [|done]. intros Hp.
  destruct t as [| | | | |l]; try done; [by injection Hp as <-|]. unfold parse_text_config in Hp.
  destruct (raw_map (JObj l)) as [payload|]; [|done]. apply res_bind_ok in Hp as ([] & _ & Hp).
  destruct (am_lookup "format" payload) as [t|]; [|by injection Hp as <-].
  destruct t; try by injection Hp as <-.
  all: apply res_bind_ok in Hp as (f & Hf & [= <-]); by apply parse_format_shape in Hf.
Qed.

Lemma ensureLocalResponseUsage_fields ctx r :
  r_OutputText (ensureLocalResponseUsage ctx r) = r_OutputText r /\
  outputs (ensureLocalResponseUsage ctx r) = outputs r /\ r_Text (ensureLocalResponseUsage ctx r) = r_Text r.
Proof. unfold ensureLocalResponseUsage. by destruct (r_Usage r) as [[]|]. Qed.
End final.

(** Fact (safety): a finished response with assistant text is returned in JSON
    mode only if its text is a JSON object, and with a schema only if it is
    JSON that conforms to the schema; the fence a model may have put around it
    is gone from what the client reads.  The configuration is repeated in the
    response. *)
Theorem FinalizeLocalResponse_sound `{MapOrder} `{UnicodeTable} textConfig config ctx r r' :
  ParseResponseTextConfig textConfig = Ok config -> responseHasAssistantText r = true ->
  FinalizeLocalResponse textConfig ctx r = Ok r' ->
  r_Text r' = Some (MarshalResponseTextConfig config) /\
  (tf_Type (tc_Format config) = "json_object" -> exists m, jparse (r_OutputText r') = Some (JObj m)) /\
  (tf_Type (tc_Format config) = "json_schema" ->
   exists schema t, any_map (default JNull (tf_Schema (tc_Format config))) = Some (Some schema) /\
     jparse (r_OutputText r') = Some t /\ conforms schema (nval_of t)).
Proof.
  intros Hc Ha Hf. pose proof (ParseResponseTextConfig_shape _ _ Hc) as Hok. unfold FinalizeLocalResponse in Hf.
  rewrite Hc in Hf. simpl in Hf. apply res_bind_ok in Hf as ([] & _ & Hf).
  set (r0 := ensureLocalResponseUsage ctx _) in Hf.
  assert (Ht0 : r_Text r0 = Some (MarshalResponseTextConfig config)) by (by apply ensureLocalResponseUsage_fields).
  assert (Ha0 : responseHasAssistantText r0 = true).
  { unfold responseHasAssistantText. destruct (ensureLocalResponseUsage_fields ctx
      (set_Text (Some (MarshalResponseTextConfig config)) r)) as (E1 & E2 & _). subst r0. by rewrite E1, E2. }
  rewrite Ha0 in Hf. cbn [negb] in Hf.
  assert (Hn : r_Text (normalizeLocalStructuredOutput r0) = r_Text r0)
    by apply normalizeLocal_keeps.
  destruct Hok as [E|[E|(E & schema & Em & Hs)]]; rewrite E in *.
  - injection Hf as <-. by split.
  - apply res_bind_ok in Hf as ([] & _ & Hf). apply res_bind_ok in Hf as ([] & Hv & [= <-]).
    split; [congruence|]. split; [intros _|done]. apply res_bind_ok in Hv as (v & Hd & Hv).
    apply normalized_decodes in Hd as (t & Hp & ->). destruct t; try done. by eexists.
  - apply res_bind_ok in Hf as ([] & Hv & [= <-]). split; [congruence|]. split; [done|intros _].
    apply res_bind_ok in Hv as (v & Hd & Hv). apply normalized_decodes in Hd as (t & Hp & ->).
    rewrite Em in Hv. exists schema, t. split; [done|]. split; [done|].
    eapply (validate_value_spec _ _ _ "$"); [|by eapply any_map_gwf|by eapply nval_of_wf, jparse_wf|done|exact Hv]. simpl. lia.
Qed.

Definition demo_format : string :=
  jprint (JObj [("format", JObj [("type", JStr "json_schema"); ("name", JStr "out"); ("schema", demo_schema)])]).

Definition demo_draft : Response := set_OutputText (fenced "json" (sq "{'n':3}")) zeroResponse.

Lemma FinalizeLocalResponse_sound_witness :
  match @ParseResponseTextConfig sorted_order ascii_only demo_format,
        @FinalizeLocalResponse sorted_order ascii_only demo_format [] demo_draft with
  | Ok config, Ok r =>
      r_Text r = Some (MarshalResponseTextConfig config) /\
      (tf_Type (tc_Format config) = "json_object" -> exists m, jparse (r_OutputText r) = Some (JObj m)) /\
      (tf_Type (tc_Format config) = "json_schema" ->
       exists schema t, any_map (default JNull (tf_Schema (tc_Format config))) = Some (Some schema) /\
         jparse (r_OutputText r) = Some t /\ conforms schema (nval_of t))
  | _, _ => False
  end.
Proof.
  destruct (@ParseResponseTextConfig sorted_order ascii_only demo_format) as [config| |] eqn:E;
    [|vm_compute in E; discriminate E..].
  destruct (@FinalizeLocalResponse sorted_order ascii_only demo_format [] demo_draft) as [r| |] eqn:F;
    [|vm_compute in F; discriminate F..].
  exact (@FinalizeLocalResponse_sound sorted_order ascii_only demo_format config [] demo_draft r E eq_refl F).
Defined.
