(* ===== verification/SurfaceProps.v ===== *)
(** * What the surface of a response shows of its request

    Tools are shown without their secrets; a response reads back from the text
    it is stored as. *)

From S2P Require Import Prelude GoStr GoFloat GoJson JsonFacts StrFacts GoInt GoTime World Items ItemFacts ItemProps Normalize NormProps Context Store StoreFacts Compaction TextFormat TextProps Response.

(** ** Maps *)

Lemma am_delete_sorted {V} lo k (m : list (string * V)) :
  am_sorted_from lo (am_keys m) = true -> am_sorted_from lo (am_keys (am_delete k m)) = true.
Proof.
  revert lo. induction m as [|[k' v] m IH]; intros lo; simpl; [done|]. intros [Hl Hm]%andb_true_iff.
  case_decide; [|simpl; rewrite Hl; by apply IH]. apply IH.
  destruct lo as [l|]; [eapply am_sorted_from_weaken; [|exact Hm]; by destruct (String.compare l k')|].
  destruct m as [|[k2 v2] m]; [done|]. simpl in *. by apply andb_true_iff in Hm as [_ ->].
Qed.

Lemma gwf_map_delete k m : gwf_map m = true -> gwf_map (am_delete k m) = true.
Proof.
  unfold gwf_map. rewrite !andb_true_iff. intros [Hs Hv]. split; [by apply am_delete_sorted|].
  clear Hs. induction m as [|[k' v] m IH]; simpl in *; [done|]. apply andb_true_iff in Hv as [H1 H2].
  case_decide; [auto|]. simpl. by rewrite H1, IH.
Qed.

(** Decoding an object as a map of values or of raw messages finds the same keys. *)
Lemma any_map_keys t m k : any_map t = Some (Some m) ->
  exists fields, raw_map t = Some fields /\ (is_Some (am_lookup k fields) <-> is_Some (am_lookup k m)).
Proof.
  destruct t as [| | | | |l]; simpl; try done. destruct (opt_map _ l) as [kvs|] eqn:E; simpl; [|done].
  intros [= <-]. eexists. split; [done|]. rewrite !am_lookup_of_list. apply opt_map_Some in E.
  unfold last_binding.
  assert (Hg : forall (o : option json) (o' : option gval), (is_Some o <-> is_Some o') ->
    is_Some (foldl (fun o kv => if decide (k = kv.1) then Some kv.2 else o) o
               (map (fun kv : string * json => (unquote kv.1, kv.2)) l)) <->
    is_Some (foldl (fun o kv => if decide (k = kv.1) then Some kv.2 else o) o' kvs)).
  { induction E as [|[k1 t1] [k2 v2] l kvs H1 H2 IH]; intros o o' Ho; simpl; [done|].
    simpl in H1. apply bind_Some in H1 as (v & _ & [= <- <-]). apply IH. case_decide; [|done].
    split; intros _; by eexists. }
  by apply Hg.
Qed.

(** ... and their values. *)
Lemma any_lookup x m fields k : any_map x = Some (Some m) -> raw_map x = Some fields -> am_lookup k m = am_lookup k fields ≫= any_of.
Proof.
  destruct x as [| | | | |l]; try done. simpl. intros Hm [= <-]. destruct (opt_map _ l) as [kvs|] eqn:E; [|done]. simpl in Hm. injection Hm as <-.
  apply opt_map_Some in E. rewrite !am_lookup_of_list. unfold last_binding.
  assert (Hg : forall (o : option json) (o' : option gval), o' = o ≫= any_of ->
    foldl (fun o kv => if decide (k = kv.1) then Some kv.2 else o) o' kvs =
    foldl (fun o kv => if decide (k = kv.1) then Some kv.2 else o) o (map (fun kv => (unquote kv.1, kv.2)) l) ≫= any_of); [|by apply Hg].
  induction E as [|[key t] [key' v] l kvs Hkv _ IH]; intros o o' Ho; [done|]. simpl in Hkv |- *.
  apply bind_Some in Hkv as (v' & Hv & [= <- <-]). apply IH. by case_decide.
Qed.

(** ** Tools *)

Definition secret_fields : list string := ["authorization"; "headers"; "server_url"].

Definition tool_type (m : list (string * gval)) : string := TrimSpace (asString (am_lookup "type" m)).

(** The field [k] of a tool as it is to be shown: an MCP tool has no secrets, a
    function says whether it is strict, and everything else is as it was sent. *)
Definition shown_field (m : list (string * gval)) (k : string) : option gval :=
  if decide (tool_type m = "mcp" /\ k ∈ secret_fields) then None
  else if decide (tool_type m = "function" /\ k = "strict") then Some (default (GBool false) (am_lookup k m))
  else am_lookup k m.

(** A document that is decoded to the value, or written for it. *)
Definition shows (t : json) (v : gval) : Prop := any_of t = Some v \/ t = of_any v.

Definition shown_tool (tool : option (list (string * gval))) (t : json) : Prop :=
  match tool with
  | None => t = JNull
  | Some m => exists fields, raw_map t = Some fields /\ forall k, option_Forall2 shows (am_lookup k fields) (shown_field m k)
  end.

(** One step of the three deletions. *)
Definition drop_field (name : string) (mc : list (string * gval) * bool) : list (string * gval) * bool :=
  match am_lookup name mc.1 with Some _ => (am_delete name mc.1, true) | None => mc end.

Lemma drop_field_lookup name mc k :
  am_lookup k (drop_field name mc).1 = if decide (k = name) then None else am_lookup k mc.1.
Proof.
  unfold drop_field. destruct (am_lookup name mc.1) eqn:E; simpl; case_decide as Hk; subst; try done.
  - apply am_lookup_delete.
  - by apply am_lookup_delete_ne.
Qed.

Lemma drop_field_gwf name mc : gwf_map mc.1 = true -> gwf_map (drop_field name mc).1 = true.
Proof. unfold drop_field. destruct (am_lookup name mc.1); [apply gwf_map_delete|done]. Qed.

(** A tool that is not reported as changed is the same. *)
Lemma drop_field_changed name mc m0 : (mc.2 = false -> mc.1 = m0) ->
  (drop_field name mc).2 = false -> (drop_field name mc).1 = m0.
Proof. unfold drop_field. destruct (am_lookup name mc.1); simpl; [done|auto]. Qed.

Definition drop_secrets (m : list (string * gval)) : list (string * gval) * bool :=
  drop_field "server_url" (drop_field "headers" (drop_field "authorization" (m, false))).

Lemma sanitize_tool_mcp m : tool_type m = "mcp" ->
  sanitize_tool (Some m) = (Some (drop_secrets m).1, (drop_secrets m).2).
Proof.
  intros Ht. unfold sanitize_tool. fold (tool_type m). rewrite Ht.
  rewrite decide_False, decide_True by done. unfold drop_secrets, drop_field. cbn [fst snd].
  destruct (am_lookup "authorization" m); cbn [fst snd];
    match goal with |- context [am_lookup "headers" ?x] => destruct (am_lookup "headers" x) end; cbn [fst snd];
    match goal with |- context [am_lookup "server_url" ?x] => destruct (am_lookup "server_url" x) end; done.
Qed.

Lemma sanitize_tool_unchanged tool : (sanitize_tool tool).2 = false -> (sanitize_tool tool).1 = tool.
Proof.
  destruct tool as [m|]; [|done]. destruct (decide (tool_type m = "mcp")) as [Ht|Ht].
  - rewrite sanitize_tool_mcp by done. cbn [fst snd]. intros Hc. f_equal. revert Hc.
    unfold drop_secrets. do 3 apply drop_field_changed. done.
  - unfold sanitize_tool. fold (tool_type m). case_decide; [by destruct (am_lookup "strict" m)|].
    by rewrite decide_False.
Qed.

(** The fields of a tool after the changes. *)
Lemma sanitize_tool_fields m : gwf_map m = true -> exists m', (sanitize_tool (Some m)).1 = Some m' /\ gwf_map m' = true /\
  forall k, am_lookup k m' = shown_field m k.
Proof.
  intros Hg. unfold shown_field. destruct (decide (tool_type m = "mcp")) as [Ht|Ht].
  - rewrite sanitize_tool_mcp by done. exists (drop_secrets m).1. split; [done|]. unfold drop_secrets.
    split; [by do 3 apply drop_field_gwf|]. intros k. rewrite !drop_field_lookup. cbn [fst]. rewrite Ht.
    rewrite (decide_False (P := "mcp" = "function" /\ k = "strict")) by naive_solver.
    unfold secret_fields. repeat case_decide; set_solver.
  - unfold sanitize_tool. fold (tool_type m). destruct (decide (tool_type m = "function")) as [Hf|Hf].
    + destruct (am_lookup "strict" m) as [v|] eqn:Es.
      * exists m. split_and!; [done..|]. intros k. rewrite decide_False by tauto. case_decide as Hk; [|done].
        destruct Hk as [_ ->]. by rewrite Es.
      * exists (am_insert "strict" (GBool false) m). split; [done|]. split; [by apply gwf_map_insert|]. intros k.
        rewrite decide_False by tauto. case_decide as Hk.
        -- destruct Hk as [_ ->]. by rewrite am_lookup_insert, Es.
        -- apply am_lookup_insert_ne. naive_solver.
    + rewrite decide_False by done. exists m. split_and!; [done..|]. intros k. by rewrite !decide_False by tauto.
Qed.

Lemma shown_sanitized tool : match tool with Some m => gwf_map m = true | None => True end ->
  shown_tool tool (map_json (sanitize_tool tool).1).
Proof.
  destruct tool as [m|]; [|done]. intros Hg. destruct (sanitize_tool_fields m Hg) as (m' & -> & Hg' & Hk).
  exists (map (fun kv => (kv.1, of_any kv.2)) m'). split; [by apply raw_map_of_any|]. intros k.
  rewrite am_lookup_map, Hk. destruct (shown_field m k); constructor. by right.
Qed.

Lemma any_maps_gwf l tools : opt_map any_map l = Some tools ->
  Forall (fun tool => match tool with Some m => gwf_map m = true | None => True end) tools.
Proof.
  rewrite opt_map_Some. induction 1 as [|t [m|] l tools H1 H2 IH]; constructor; try done. by eapply any_map_gwf.
Qed.

Lemma existsb_snd_false {A} (f : A -> A * bool) l : existsb snd (map f l) = false -> Forall (fun x => (f x).2 = false) l.
Proof. induction l as [|x l IH]; simpl; [constructor|]. intros [? ?]%orb_false_iff. constructor; auto. Qed.

(** A tool that is shown as it was sent. *)
Lemma shown_unchanged t tool : any_map t = Some tool -> (sanitize_tool tool).2 = false -> shown_tool tool t.
Proof.
  destruct tool as [m|]; [|destruct t as [| | | | |l]; try done; simpl; by destruct (opt_map _ l)].
  intros Ha Hc. destruct (any_map_keys t m "type" Ha) as (fields & Hf & _). exists fields. split; [done|]. intros k.
  destruct (any_map_keys t m k Ha) as (fields' & Hf' & Hk). assert (fields' = fields) as -> by congruence.
  pose proof (any_lookup t m fields k Ha Hf) as Hv.
  destruct (sanitize_tool_fields m (any_map_gwf _ _ Ha)) as (m' & Hm & _ & Hs).
  rewrite sanitize_tool_unchanged in Hm by done. injection Hm as <-. rewrite <-Hs.
  destruct (am_lookup k fields) as [x|] eqn:E1; simpl in Hv; destruct (am_lookup k m) as [v|] eqn:E2;
    [constructor; by left|exfalso..|constructor].
  - assert (is_Some (None : option gval)) as [] by (by apply Hk). done.
  - done.
Qed.

Lemma sanitized_tools l tools : opt_map any_map l = Some tools -> exists l',
  sanitizeResponseRequestToolsRaw (JArr l) = JArr l' /\ Forall2 shown_tool tools l'.
Proof.
  intros Ho. unfold sanitizeResponseRequestToolsRaw. rewrite Ho. destruct (existsb _ _) eqn:Ec.
  - eexists. split; [done|]. rewrite map_map. apply any_maps_gwf in Ho.
    induction Ho as [|tool tools Hg Ht IH]; simpl; constructor; [by apply shown_sanitized|].
    clear -Ht. induction Ht; simpl; constructor; [by apply shown_sanitized|done].
  - exists l. split; [done|]. apply existsb_snd_false in Ec. apply opt_map_Some in Ho.
    induction Ho as [|t tool l tools H1 H2 IH]; [constructor|]. inversion Ec; subst. constructor; [|auto].
    by apply shown_unchanged.
Qed.

(** ** The fields of a request, sanitized *)

(** Trees json.Marshal may be given as raw messages: escaping keeps them
    well-formed, and keeps what their fields are. *)
Definition escapable (t : json) : Prop := jok t = true \/ jesc t = t /\ jwf t = true.

Lemma escapable_jwf t : escapable t -> jwf (jesc t) = true.
Proof. intros [H|[-> H]]; [by apply jesc_jwf|done]. Qed.

Lemma escapable_raw_map t : escapable t ->
  raw_map (jesc t) = map (fun kv => (kv.1, jesc kv.2)) <$> raw_map t \/ raw_map (jesc t) = raw_map t.
Proof. intros [H|[-> H]]; [left; by apply raw_map_jesc|by right]. Qed.

Lemma shows_jesc t v : jok t = true -> shows t v -> shows (jesc t) v.
Proof. intros Ht [Hv| ->]; [left; by rewrite any_of_jesc|right; apply jesc_of_any]. Qed.

Lemma shown_tool_jesc tool t : escapable t -> shown_tool tool t -> shown_tool tool (jesc t).
Proof.
  intros [Hok|[-> _]]; [|done]. destruct tool as [m|]; [|by intros ->]. intros (fields & Hf & Hk).
  exists (map (fun kv => (kv.1, jesc kv.2)) fields). split; [by rewrite raw_map_jesc, Hf|]. intros k.
  rewrite am_lookup_map. specialize (Hk k). destruct (am_lookup k fields) as [x|] eqn:Ex; inversion Hk; subst; constructor.
  apply shows_jesc; [|done]. by eapply raw_map_jok.
Qed.

(** What json.Marshal writes for the fields reads back as the fields. *)
Lemma raw_map_json_read fields : am_sorted fields = true ->
  Forall (fun kv => valid_utf8 kv.1 = true /\ escapable kv.2) fields ->
  jwf (raw_map_json fields) = true /\
  raw_map (raw_map_json fields) = Some (map (fun kv => (kv.1, jesc kv.2)) fields).
Proof.
  intros Hs Hf. rewrite Forall_forall in Hf. split.
  - unfold raw_map_json. simpl. apply forallb_forall. intros kv (kv' & <- & Hin)%in_map_iff. simpl.
    apply list_elem_of_In, Hf in Hin as [_ He]. by rewrite encode_body_valid, escapable_jwf.
  - simpl. f_equal. rewrite map_map. simpl. rewrite (map_ext_in _ (fun kv => (kv.1, jesc kv.2))).
    2: { intros kv Hin%list_elem_of_In. apply Hf in Hin as [Hv _]. by rewrite unquote_encode_valid. }
    apply am_of_list_sorted_id. unfold am_sorted, am_keys in *. by rewrite map_map.
Qed.

Lemma raw_map_fields_ok t fields : jok t = true -> raw_map t = Some fields ->
  am_sorted fields = true /\ Forall (fun kv => valid_utf8 kv.1 = true /\ escapable kv.2) fields.
Proof.
  intros Hok Hf. assert (Hs : am_sorted fields = true).
  { destruct t; try done; simpl in Hf; injection Hf as <-; [done|]. apply am_of_list_sorted. }
  split; [done|]. apply Forall_forall. intros [k x] Hin. simpl. split.
  - destruct t as [| | | | |l]; try done; simpl in Hf; injection Hf as <-; [by apply not_elem_of_nil in Hin|].
    apply am_elem_lookup in Hin; [|done]. rewrite am_lookup_of_list in Hin. apply last_binding_elem in Hin.
    apply list_elem_of_fmap in Hin as (kv & [= -> ->] & _). apply unquote_valid.
  - left. eapply raw_map_jok; [done..|]. by apply am_elem_lookup.
Qed.

Lemma map_json_fixed m : jesc (map_json m) = map_json m /\ jwf (map_json m) = true.
Proof. destruct m as [m|]; [|done]. unfold map_json. split; [apply (jesc_of_any (GMap m))|apply (of_any_wf (GMap m))]. Qed.

Lemma sanitized_escapable t : jok t = true -> escapable (sanitizeResponseRequestToolsRaw t).
Proof.
  intros Hok. unfold sanitizeResponseRequestToolsRaw. destruct t as [| | | |l|]; try by left.
  destruct (opt_map any_map l) as [tools|]; [|by left]. destruct (existsb _ _); [|by left]. right. rewrite map_map.
  split; [simpl; f_equal; rewrite map_map; apply map_ext; intros m; apply map_json_fixed|].
  simpl. apply forallb_forall. intros t (m & <- & _)%in_map_iff. apply map_json_fixed.
Qed.

Lemma am_insert_Forall {V} (P : string * V -> Prop) k v m : P (k, v) -> Forall P m -> Forall P (am_insert k v m).
Proof.
  intros Hp Hm. rewrite Forall_forall in *. intros [k' v'] [[= -> ->]|Hin]%am_insert_elem; auto.
Qed.

Lemma escaped_members l : jesc (JObj l) = JObj l -> jwf (JObj l) = true -> Forall (fun kv => jesc kv.2 = kv.2 /\ jwf kv.2 = true) l.
Proof.
  intros He Hw. injection He as He. simpl in Hw. revert He Hw. induction l as [|[k v] l IH]; [constructor|]. simpl.
  intros [= _ Hv Hl] [Hw1 Hw2]%andb_true_iff. apply andb_true_iff in Hw1 as [_ Hw1]. constructor; [done|by apply IH].
Qed.

Lemma escapable_members t fields : escapable t -> raw_map t = Some fields ->
  am_sorted fields = true /\ Forall (fun kv => valid_utf8 kv.1 = true /\ escapable kv.2) fields.
Proof.
  intros [Hok|[He Hw]] Hf; [by apply (raw_map_fields_ok t)|]. destruct t as [| | | | |l]; try done; simpl in Hf; injection Hf as <-; [done|].
  split; [apply am_of_list_sorted|]. apply Forall_forall. intros [k v] Hin. apply am_elem_lookup in Hin; [|apply am_of_list_sorted].
  rewrite am_lookup_of_list in Hin. apply last_binding_elem, list_elem_of_fmap in Hin as ([k' v'] & [= -> ->] & Hin).
  split; [apply unquote_valid|]. pose proof (escaped_members l He Hw) as Hm. rewrite Forall_forall in Hm. right. by apply (Hm (k', v')).
Qed.

(** The fields after the surface is cleaned. *)
Definition clean_fields (fields : list (string * json)) : list (string * json) :=
  match am_lookup "tools" fields with
  | Some rawTools => am_insert "tools" (sanitizeResponseRequestToolsRaw rawTools) fields
  | None => fields
  end.

Lemma clean_fields_ok t fields : jok t = true -> raw_map t = Some fields ->
  am_sorted (clean_fields fields) = true /\ Forall (fun kv => valid_utf8 kv.1 = true /\ escapable kv.2) (clean_fields fields).
Proof.
  intros Hok Hf. destruct (raw_map_fields_ok _ _ Hok Hf) as [Hs Hall].
  unfold clean_fields. destruct (am_lookup "tools" fields) as [rawTools|] eqn:Et; [|done].
  split; [by apply am_insert_sorted|]. apply am_insert_Forall; [|done]. simpl. split; [done|].
  apply sanitized_escapable. by eapply raw_map_jok.
Qed.

Lemma sanitized_fields requestJSON l fields : jparse (TrimSpace requestJSON) = Some (JObj l) -> jok (JObj l) = true ->
  raw_map (JObj l) = Some fields ->
  parseResponseRequestFields (SanitizeResponseRequestSurfaceJSON requestJSON) =
    Some (map (fun kv => (kv.1, jesc kv.2)) (clean_fields fields)).
Proof.
  intros Hp Hok Hf. unfold SanitizeResponseRequestSurfaceJSON. case_decide as He; [by rewrite He in Hp|].
  rewrite Hp, Hf. fold (clean_fields fields). pose proof (clean_fields_ok _ _ Hok Hf) as Hc.
  destruct Hc as [Hs' Hall']. destruct (raw_map_json_read _ Hs' Hall') as [Hw Hr].
  unfold parseResponseRequestFields, raw_map_json in *. rewrite TrimSpace_obj.
  rewrite decide_False by apply jprint_obj_not_empty. rewrite jparse_jprint by done. simpl. exact Hr.
Qed.


Definition demo_tools : string :=
  sq "{'model':'m','tools':[{'type':'mcp','server_label':'s','server_url':'https://x','authorization':'k'},{'type':'function','name':'f'}]}".


(** Fact (error): the secrets of all tools are shown when one element of the
    list is not an object, or holds a number that float64 cannot: the list is
    then returned as it was sent. *)
Theorem undecodable_tool_shows_secrets :
  r_Tools (HydrateResponseRequestSurface zeroResponse
    (sq "{'tools':[{'type':'mcp','authorization':'k'},{'type':'function','parameters':{'maximum':1e999}}]}")) =
  Some (JArr [JObj [("type", JStr "mcp"); ("authorization", JStr "k")];
              JObj [("type", JStr "function"); ("parameters", JObj [("maximum", JNum "1e999")])]]).
Proof. vm_compute. reflexivity. Qed.
