(* ===== verification/Chat.v ===== *)
(** * Stored chat completions: internal/domain/chat_completions.go and
      internal/storage/sqlite/chat_completions.go

    A chat completion is stored with its request and response documents; the
    messages of the request are stored as rows of their own, so that they can
    be listed in pages.  A completion stored before those rows existed is
    listed from its request document instead.

    The metadata of a completion is [None] where the code has a nil map.  The
    column metadata_json is written by SaveChatCompletion only, so it is null
    or an object with string values, and json_each gives its keys and texts. *)

From S2P Require Import Prelude GoStr GoFloat GoJson JsonFacts StrFacts GoInt World Items Normalize Context Store Memory TextFormat Response.

(** ** domain/chat_completions.go *)

Definition ChatCompletionOrderAsc : string := "asc".
Definition ChatCompletionOrderDesc : string := "desc".

Record StoredChatCompletion := {
  sc_ID : string;
  sc_Model : string;
  sc_Metadata : option (list (string * string));
  sc_RequestJSON : string;
  sc_ResponseJSON : string;
  sc_CreatedAt : Z
}.

Record ListStoredChatCompletionsQuery := {
  cq_Model : string;
  cq_Metadata : list (string * string);
  cq_After : string;
  cq_Limit : Z;
  cq_Order : string
}.

Record StoredChatCompletionPage := {
  cp_Completions : list StoredChatCompletion;
  cp_HasMore : bool
}.

Record ListStoredChatCompletionMessagesQuery := {
  gq_After : string;
  gq_Limit : Z;
  gq_Order : string
}.

Record StoredChatCompletionMessage := {
  sm_Sequence : Z;
  sm_ID : string;
  sm_MessageJSON : string
}.

Record StoredChatCompletionMessagePage := {
  mp_Messages : list StoredChatCompletionMessage;
  mp_HasMore : bool
}.

Definition stringValue (value : option gval) : string :=
  match value with Some (GStr text) => text | _ => "" end.

(** The map after the assignments up to the identifier. *)
Definition message_shape (message : list (string * gval)) : list (string * gval) :=
  let message :=
    match am_lookup "content" message with
    | Some (GArr content) => am_insert "content" GNull (am_insert "content_parts" (GArr content) message)
    | _ => match am_lookup "content_parts" message with
           | None => am_insert "content_parts" GNull message
           | Some _ => message
           end
    end in
  match am_lookup "name" message with
  | None => am_insert "name" GNull message
  | Some _ => message
  end.

Definition message_id (completionID : string) (sequence : Z) (message : list (string * gval)) : string :=
  let id := TrimSpace (stringValue (am_lookup "id" message)) in
  if decide (id = "") then TrimSpace completionID +:+ "-" +:+ int_text sequence else id.

(** null decodes to a nil map, and the first assignment to it panics. *)
Definition normalizeStoredChatCompletionMessage (completionID : string) (sequence : Z)
    (rawMessage : json) : res StoredChatCompletionMessage :=
  match any_map rawMessage with
  | None => Err (EWrap "decode stored chat completion message" (EDecode "message"))
  | Some None => Panic
  | Some (Some message) =>
      let message := message_shape message in
      let id := message_id completionID sequence message in
      let raw := jprint (of_any (GMap (am_insert "id" (GStr id) message))) in
      compacted ← wrap_err "compact stored chat completion message" (CompactJSON raw);
      Ok {| sm_Sequence := sequence; sm_ID := id; sm_MessageJSON := compacted |}
  end.

(** The loop over the messages, with its index. *)
Fixpoint normalize_messages (completionID : string) (i : Z) (raws : list json)
    : res (list StoredChatCompletionMessage) :=
  match raws with
  | [] => Ok []
  | rawMessage :: raws =>
      normalized ← normalizeStoredChatCompletionMessage completionID i rawMessage;
      messages ← normalize_messages completionID (i + 1) raws;
      Ok (normalized :: messages)
  end.

(** The field [Messages []json.RawMessage]: a repeated key is decoded into the
    same slice, null empties it. *)
Definition request_messages (requestJSON : string) : option (list json) :=
  t ← jparse requestJSON;
  members ← struct_members t;
  lists ← opt_map raw_array (field_values "messages" members);
  Some (default [] (last lists)).

Definition StoredChatCompletionMessagesFromRequestJSON (completionID requestJSON : string)
    : res (list StoredChatCompletionMessage) :=
  match request_messages requestJSON with
  | None => Err (EWrap "decode stored chat completion request" (EDecode "request"))
  | Some raws => normalize_messages completionID 0 raws
  end.

Definition StoredChatCompletionMessagePayloads (messages : list StoredChatCompletionMessage)
    : res (list (list (string * gval))) :=
  res_map (fun message =>
    match jparse (sm_MessageJSON message) ≫= any_map with
    | None => Err (EWrap "decode stored chat completion message" (EDecode "message"))
    | Some payload => Ok (default [] payload)
    end) messages.

(** ** Metadata in the response document *)

Definition normalizeStoredChatCompletionMetadata (metadata : option (list (string * string)))
    : list (string * string) := default [] metadata.

(** [existing[key]] is the empty text when there is no such key. *)
Definition storedChatCompletionMetadataMatches (raw : json) (metadata : list (string * string)) : bool :=
  match raw with
  | JNull => false
  | _ =>
      match string_map raw with
      | None => false
      | Some existing =>
          bool_decide (length existing = length metadata) &&
          forallb (fun kv => bool_decide (default "" (am_lookup kv.1 existing) = kv.2)) metadata
      end
  end.

(** json.Marshal of a map[string]string. *)
Definition string_map_json (metadata : list (string * string)) : json :=
  JObj (map (fun kv => (encode_body kv.1, json_str kv.2)) metadata).

Definition ensureStoredChatCompletionResponseMetadata (responseJSON : string)
    (metadata : option (list (string * string))) : res string :=
  let normalized := normalizeStoredChatCompletionMetadata metadata in
  match jparse responseJSON with
  | Some JNull => Panic  (* assignment to a nil map *)
  | Some (JObj l) =>
      let payload := am_of_list (map (fun kv => (unquote kv.1, kv.2)) l) in
      if match am_lookup "metadata" payload with
         | Some rawMetadata => storedChatCompletionMetadataMatches rawMetadata normalized
         | None => false
         end then Ok responseJSON
      else
        let payload := am_insert "metadata" (string_map_json normalized) payload in
        Ok (jprint (raw_map_json payload))
  | _ => Err (EWrap "decode chat completion response metadata" (EDecode "response"))
  end.

Definition patchStoredChatCompletionResponseMetadata (responseJSON : string)
    (metadata : option (list (string * string))) : res string :=
  match jparse responseJSON ≫= any_map with
  | None => Err (EWrap "decode chat completion response metadata patch" (EDecode "response"))
  | Some None => Panic  (* assignment to a nil map *)
  | Some (Some payload) =>
      let metadata := default [] metadata in
      Ok (jprint (of_any (GMap (am_insert "metadata"
            (GMap (map (fun kv => (kv.1, GStr kv.2)) metadata)) payload))))
  end.

(** ** Statements *)

(** INSERT ... ON CONFLICT(id) DO UPDATE of every column. *)
Definition upsert_chat (id : string) (row : chat_row) (db : DB) : res (unit * DB) :=
  Ok (tt, set_chats db (<[id := row]> (chat_completions db))).

Definition delete_message_rows (completionID : string) (db : DB) : res (unit * DB) :=
  Ok (tt, set_messages db
            (filter (fun m => mg_completion_id m <> completionID) (chat_completion_messages db))).

Definition insert_message_row (fk : bool) (m : message_row) (db : DB) : res (unit * DB) :=
  if existsb (fun m' => bool_decide (mg_completion_id m' = mg_completion_id m) &&
                        bool_decide (mg_sequence_number m' = mg_sequence_number m))
       (chat_completion_messages db) then
    Err (EConstraint "chat_completion_messages.completion_id, sequence_number")
  else match fk, chat_completions db !! mg_completion_id m with
       | true, None => Err (EConstraint "fk_chat_completion_messages_completion")
       | _, _ => Ok (tt, set_messages db (chat_completion_messages db ++ [m]))
       end.

(** ON DELETE CASCADE takes the messages along, on an enforcing connection. *)
Definition delete_chat_row (fk : bool) (id : string) (db : DB) : res (nat * DB) :=
  match chat_completions db !! id with
  | None => Ok (0, db)
  | Some _ =>
      let db := set_chats db (delete id (chat_completions db)) in
      Ok (1, if fk then set_messages db
                          (filter (fun m => mg_completion_id m <> id) (chat_completion_messages db))
             else db)
  end.

(** ORDER BY created_at, id and its reverse. *)
Definition chat_asc (a b : string * chat_row) : bool :=
  (ch_created_at a.2 <? ch_created_at b.2)%Z ||
  (ch_created_at a.2 =? ch_created_at b.2)%Z && str_le a.1 b.1.
Definition chat_desc (a b : string * chat_row) : bool := chat_asc b a.

Definition message_asc (a b : message_row) : bool := (mg_sequence_number a <=? mg_sequence_number b)%Z.
Definition message_desc (a b : message_row) : bool := message_asc b a.

Definition messages_of (completionID : string) (db : DB) : list message_row :=
  filter (fun m => mg_completion_id m = completionID) (chat_completion_messages db).

(** EXISTS (SELECT 1 FROM json_each(metadata_json) WHERE key = ? AND value = ?) *)
Definition has_metadata (metadataJSON key value : string) : bool :=
  match jparse metadataJSON with
  | Some (JObj l) =>
      existsb (fun kv => bool_decide (unquote kv.1 = key) &&
                         match kv.2 with JStr lit => bool_decide (unquote lit = value) | _ => false end) l
  | _ => false
  end.

(** storedChatCompletionListConditions *)
Definition chat_matches (q : ListStoredChatCompletionsQuery) (r : string * chat_row) : bool :=
  let model := TrimSpace (cq_Model q) in
  (bool_decide (model = "") || bool_decide (ch_model r.2 = model)) &&
  forallb (fun kv => has_metadata (ch_metadata_json r.2) kv.1 kv.2) (cq_Metadata q).

(** The condition buildStoredChatCompletionListQuery adds for a cursor. *)
Definition chat_after (q : ListStoredChatCompletionsQuery) (afterCreated : Z) (r : string * chat_row) : bool :=
  let after := TrimSpace (cq_After q) in
  if decide (after = "") then true
  else if decide (cq_Order q = ChatCompletionOrderDesc) then
    (ch_created_at r.2 <? afterCreated)%Z ||
    (ch_created_at r.2 =? afterCreated)%Z && bool_decide (String.compare r.1 after = Lt)
  else
    (afterCreated <? ch_created_at r.2)%Z ||
    (ch_created_at r.2 =? afterCreated)%Z && bool_decide (String.compare after r.1 = Lt).

Definition storedChatCompletionFetchLimit (limit : Z) : Z :=
  if (limit <? 1)%Z then 2 else if (max_int <=? limit)%Z then max_int else limit + 1.

(** ** Scanning rows *)

Definition scan_metadata (metadataJSON : string) : res (list (string * string)) :=
  if decide (TrimSpace metadataJSON = "") then Ok []
  else match jparse metadataJSON ≫= string_map with
       | None => Err (EWrap "decode chat completion metadata" (EDecode "metadata"))
       | Some metadata => Ok metadata
       end.

Definition scanStoredChatCompletion (r : string * chat_row) : res StoredChatCompletion :=
  metadata ← scan_metadata (ch_metadata_json r.2);
  Ok {| sc_ID := r.1; sc_Model := ch_model r.2; sc_Metadata := Some metadata;
        sc_RequestJSON := ch_request_json r.2; sc_ResponseJSON := ch_response_json r.2;
        sc_CreatedAt := ch_created_at r.2 |}.

(** Without the request document. *)
Definition scanStoredChatCompletionListRow (r : string * chat_row) : res StoredChatCompletion :=
  metadata ← scan_metadata (ch_metadata_json r.2);
  Ok {| sc_ID := r.1; sc_Model := ch_model r.2; sc_Metadata := Some metadata;
        sc_RequestJSON := ""; sc_ResponseJSON := ch_response_json r.2;
        sc_CreatedAt := ch_created_at r.2 |}.

Definition scanStoredChatCompletionMessage (m : message_row) : StoredChatCompletionMessage :=
  {| sm_Sequence := mg_sequence_number m; sm_ID := mg_message_id m; sm_MessageJSON := mg_message_json m |}.

(** The loop of ListChatCompletions: a row beyond the limit is read, and stops it. *)
Fixpoint chat_page (limit : Z) (rows : list (string * chat_row)) (page : list StoredChatCompletion)
    : res (list StoredChatCompletion * bool) :=
  match rows with
  | [] => Ok (page, false)
  | row :: rows =>
      completion ← scanStoredChatCompletionListRow row;
      if (limit <=? Z.of_nat (length page))%Z then Ok (page, true)
      else chat_page limit rows (page ++ [completion])
  end.

(** The loop of ListChatCompletionMessages. *)
Fixpoint message_page (limit : Z) (rows : list message_row) (messages : list StoredChatCompletionMessage)
    : list StoredChatCompletionMessage * bool :=
  match rows with
  | [] => (messages, false)
  | row :: rows =>
      if (limit <=? Z.of_nat (length messages))%Z then (messages, true)
      else message_page limit rows (messages ++ [scanStoredChatCompletionMessage row])
  end.

(** ** Pages of a list of messages *)

(** The index after the first message with the identifier. *)
Fixpoint index_after (after : string) (messages : list StoredChatCompletionMessage) : option nat :=
  match messages with
  | [] => None
  | message :: messages => if decide (sm_ID message = after) then Some 1 else S <$> index_after after messages
  end.

Definition pageStoredChatCompletionMessages (messages : list StoredChatCompletionMessage)
    (q : ListStoredChatCompletionMessagesQuery) : res StoredChatCompletionMessagePage :=
  let limit := if (gq_Limit q <? 1)%Z then 20%Z else gq_Limit q in
  let messages := if decide (gq_Order q = ChatCompletionOrderDesc) then reverse messages else messages in
  let after := TrimSpace (gq_After q) in
  match (if decide (after = "") then Some 0 else index_after after messages) with
  | None => Err ENotFound
  | Some start =>
      let size := Z.of_nat (length messages) in
      let stop := wrap_int (Z.of_nat start + limit) in
      let hasMore := (stop <? size)%Z in
      let stop := if (size <? stop)%Z then size else stop in
      if (stop <? Z.of_nat start)%Z then Panic  (* messages[start:end] *)
      else Ok {| mp_Messages := take (Z.to_nat stop - start) (drop start messages); mp_HasMore := hasMore |}
  end.

(** ** sqlite/chat_completions.go *)

Section store.
Context `{Sqlite}.

(** The loop of SaveChatCompletion. *)
Fixpoint insert_messages (completionID : string) (messages : list StoredChatCompletionMessage) : ST world unit :=
  match messages with
  | [] => mret tt
  | message :: messages =>
      _ ← exec "insert chat completion message" (fun fk => insert_message_row fk
            {| mg_completion_id := completionID; mg_sequence_number := sm_Sequence message;
               mg_message_id := sm_ID message; mg_message_json := sm_MessageJSON message |});
      insert_messages completionID messages
  end.

Definition SaveChatCompletion (completion : StoredChatCompletion) : ST world unit :=
  let metadataJSON := match sc_Metadata completion with
                      | None => "null"
                      | Some metadata => jprint (string_map_json metadata)
                      end in
  messages ← st_lift (wrap_err "normalize chat completion messages"
    (StoredChatCompletionMessagesFromRequestJSON (sc_ID completion) (sc_RequestJSON completion)));
  responseJSON ← st_lift (ensureStoredChatCompletionResponseMetadata (sc_ResponseJSON completion)
                            (sc_Metadata completion));
  transaction "begin chat completion tx" "commit chat completion tx"
    (_ ← exec "insert chat completion" (fun _ => upsert_chat (sc_ID completion)
           {| ch_model := sc_Model completion; ch_metadata_json := metadataJSON;
              ch_request_json := sc_RequestJSON completion; ch_response_json := responseJSON;
              ch_created_at := sc_CreatedAt completion |});
     _ ← exec "delete prior chat completion messages" (fun _ => delete_message_rows (sc_ID completion));
     match messages with
     | [] => mret tt
     | _ => _ ← query "prepare chat completion message insert" (fun _ => tt);
            insert_messages (sc_ID completion) messages
     end).

Definition select_chat (id : string) : ST world (option chat_row) := fun w =>
  match query "" (fun db => chat_completions db !! id) w with
  | (Err _, w') => (Err db_error, w')     (* row.Scan returns the error unwrapped *)
  | r => r
  end.

Definition GetChatCompletion (id : string) : ST world StoredChatCompletion :=
  found ← select_chat id;
  match found with
  | None => st_err ENotFound
  | Some row => st_lift (scanStoredChatCompletion (id, row))
  end.

(** buildStoredChatCompletionCursorLookup: when the cursor was created. *)
Definition lookup_cursor (q : ListStoredChatCompletionsQuery) : ST world Z :=
  found ← query "lookup chat completion cursor" (fun db =>
    match chat_completions db !! TrimSpace (cq_After q) with
    | Some row => if chat_matches q (TrimSpace (cq_After q), row) then Some (ch_created_at row) else None
    | None => None
    end);
  match found with None => st_err ENotFound | Some created => mret created end.

Definition ListChatCompletions (q : ListStoredChatCompletionsQuery) : ST world StoredChatCompletionPage :=
  let limit := if (cq_Limit q <? 1)%Z then 20%Z else cq_Limit q in
  let order := if decide (cq_Order q = ChatCompletionOrderDesc) then chat_desc else chat_asc in
  afterCreated ← (if decide (TrimSpace (cq_After q) = "") then mret 0%Z else lookup_cursor q);
  rows ← query "list chat completions" (fun db =>
    sql_limit (storedChatCompletionFetchLimit limit)
      (sort_by order (filter (fun r => chat_matches q r && chat_after q afterCreated r = true)
                             (map_to_list (chat_completions db)))));
  '(page, hasMore) ← st_lift (chat_page limit rows []);
  mret {| cp_Completions := page; cp_HasMore := hasMore |}.

Definition UpdateChatCompletionMetadata (id : string) (metadata : option (list (string * string)))
    : ST world StoredChatCompletion :=
  completion ← GetChatCompletion id;
  responseJSON ← st_lift (patchStoredChatCompletionResponseMetadata (sc_ResponseJSON completion) metadata);
  let completion :=
    {| sc_ID := sc_ID completion; sc_Model := sc_Model completion; sc_Metadata := metadata;
       sc_RequestJSON := sc_RequestJSON completion; sc_ResponseJSON := responseJSON;
       sc_CreatedAt := sc_CreatedAt completion |} in
  _ ← SaveChatCompletion completion;
  mret completion.

Definition DeleteChatCompletion (id : string) : ST world unit :=
  rowsAffected ← exec "delete chat completion" (fun fk => delete_chat_row fk id);
  if decide (rowsAffected = 0) then st_err ENotFound else mret tt.

Definition listLegacyChatCompletionMessages (completionID : string)
    (q : ListStoredChatCompletionMessagesQuery) : ST world StoredChatCompletionMessagePage :=
  completion ← GetChatCompletion completionID;
  messages ← st_lift (StoredChatCompletionMessagesFromRequestJSON (sc_ID completion) (sc_RequestJSON completion));
  st_lift (pageStoredChatCompletionMessages messages q).

(** The row of the cursor: the first one with its identifier, in order. *)
Definition message_cursor (completionID after : string) (order : message_row -> message_row -> bool)
    : ST world Z :=
  found ← query "lookup chat completion message cursor" (fun db =>
    head (sort_by order (filter (fun m => mg_message_id m = after) (messages_of completionID db))));
  match found with None => st_err ENotFound | Some m => mret (mg_sequence_number m) end.

Definition message_after (q : ListStoredChatCompletionMessagesQuery) (cursor : option Z) (m : message_row) : bool :=
  match cursor with
  | None => true
  | Some afterSequence =>
      if decide (gq_Order q = ChatCompletionOrderDesc) then (mg_sequence_number m <? afterSequence)%Z
      else (afterSequence <? mg_sequence_number m)%Z
  end.

Definition ListChatCompletionMessages (completionID : string)
    (q : ListStoredChatCompletionMessagesQuery) : ST world StoredChatCompletionMessagePage :=
  let completionID := TrimSpace completionID in
  if decide (completionID = "") then st_err ENotFound else
  let limit := if (gq_Limit q <? 1)%Z then 20%Z else gq_Limit q in
  let limited := {| gq_After := gq_After q; gq_Limit := limit; gq_Order := gq_Order q |} in
  let order := if decide (gq_Order q = ChatCompletionOrderDesc) then message_desc else message_asc in
  exists_ ← query "lookup chat completion" (fun db => chat_completions db !! completionID);
  match exists_ with
  | None => st_err ENotFound
  | Some _ =>
      indexed ← query "lookup chat completion message index" (fun db => head (messages_of completionID db));
      match indexed with
      | None => listLegacyChatCompletionMessages completionID limited
      | Some _ =>
          let after := TrimSpace (gq_After q) in
          cursor ← (if decide (after = "") then mret None
                    else seq ← message_cursor completionID after order; mret (Some seq));
          rows ← query "list chat completion messages" (fun db =>
            sql_limit (storedChatCompletionFetchLimit limit)
              (sort_by order (filter (fun m => message_after q cursor m = true) (messages_of completionID db))));
          let '(messages, hasMore) := message_page limit rows [] in
          mret {| mp_Messages := messages; mp_HasMore := hasMore |}
      end
  end.
End store.
