(* ===== verification/ChatProps.v ===== *)
(** * What the store of chat completions guarantees

    A completion is read back as it was saved, its metadata shown in its
    response document; its messages are listed in pages as the request has
    them; the completions themselves are listed in pages in order of creation. *)

From S2P Require Import Prelude GoStr GoFloat GoJson JsonFacts StrFacts GoInt World Items ItemFacts Normalize NormProps Context Store StoreFacts StoreProps Memory MemoryProps TextFormat TextProps Response SurfaceProps Chat.

(** ** What saving writes *)

Definition message_row_of (completionID : string) (m : StoredChatCompletionMessage) : message_row :=
  {| mg_completion_id := completionID; mg_sequence_number := sm_Sequence m;
     mg_message_id := sm_ID m; mg_message_json := sm_MessageJSON m |}.

Definition message_lt (a b : message_row) : Prop := (mg_sequence_number a < mg_sequence_number b)%Z.

#[local] Instance message_lt_dec a b : Decision (message_lt a b) :=
  Z_lt_dec (mg_sequence_number a) (mg_sequence_number b).

Lemma message_lt_asym a b : message_lt a b -> ~ message_lt b a.
Proof. unfold message_lt. lia. Qed.

Lemma normalize_message_seq id i raw m : normalizeStoredChatCompletionMessage id i raw = Ok m -> sm_Sequence m = i.
Proof.
  unfold normalizeStoredChatCompletionMessage. destruct (any_map raw) as [[l|]|]; [|done..].
  intros (t & _ & [= <-])%res_bind_ok. done.
Qed.

(** Messages are numbered from zero on. *)
Lemma normalize_messages_sorted id i raws ms : normalize_messages id i raws = Ok ms ->
  Forall (fun m => i <= sm_Sequence m)%Z ms /\
  StronglySorted message_lt (map (message_row_of id) ms).
Proof.
  revert i ms. induction raws as [|raw raws IH]; intros i ms; simpl.
  { intros [= <-]. split; constructor. }
  intros (m & Hm%normalize_message_seq & (ms' & Hms & [= <-])%res_bind_ok)%res_bind_ok.
  destruct (IH _ _ Hms) as [Hge Hs]. simpl. split.
  - constructor; [lia|]. eapply Forall_impl; [exact Hge|]. simpl. lia.
  - constructor; [done|]. apply Forall_map. eapply Forall_impl; [exact Hge|].
    unfold message_lt. simpl. lia.
Qed.

Section saving.
Context `{Sqlite}.

Lemma insert_messages_ok id ms w u w' : insert_messages id ms w = (Ok u, w') ->
  chat_completions (w_db w') = chat_completions (w_db w) /\
  chat_completion_messages (w_db w') = chat_completion_messages (w_db w) ++ map (message_row_of id) ms.
Proof.
  revert w. induction ms as [|m ms IH]; intros w; simpl.
  { intros [= <- <-]. by rewrite app_nil_r. }
  intros (u1 & w1 & He & Hr)%st_bind_ok. apply exec_ok in He as (_ & Hi & _).
  destruct (IH _ Hr) as [Hc Hm]. rewrite Hc, Hm. clear -Hi.
  unfold insert_message_row in Hi. destruct (existsb _ _); [done|].
  assert (Hd : w_db w1 = set_messages (w_db w) (chat_completion_messages (w_db w) ++ [message_row_of id m])).
  { destruct (conn_fk _); simpl in Hi; [destruct (chat_completions _ !! _); [|done]|]; by injection Hi. }
  rewrite Hd. simpl. by rewrite <-app_assoc.
Qed.

(** The row of the completion, and its messages in place of earlier ones. *)
Lemma SaveChatCompletion_ok c w u w' : SaveChatCompletion c w = (Ok u, w') ->
  exists ms response row,
    StoredChatCompletionMessagesFromRequestJSON (sc_ID c) (sc_RequestJSON c) = Ok ms /\
    ensureStoredChatCompletionResponseMetadata (sc_ResponseJSON c) (sc_Metadata c) = Ok response /\
    chat_completions (w_db w') = <[sc_ID c := row]> (chat_completions (w_db w)) /\
    messages_of (sc_ID c) (w_db w') = map (message_row_of (sc_ID c)) ms /\
    row = {| ch_model := sc_Model c;
             ch_metadata_json := match sc_Metadata c with
                                 | None => "null" | Some m => jprint (string_map_json m) end;
             ch_request_json := sc_RequestJSON c; ch_response_json := response;
             ch_created_at := sc_CreatedAt c |}.
Proof.
  unfold SaveChatCompletion. intros (ms & w1 & [= Hms <-] & Hs)%st_bind_ok.
  apply st_bind_ok in Hs as (response & w2 & [= Hresp <-] & Ht).
  apply wrap_err_ok in Hms. exists ms, response. eexists.
  split; [done|]. split; [done|]. apply and_assoc. split; [|reflexivity].
  apply transaction_ok in Ht as (wa & wb & Hda & _ & Hb & Hdb). rewrite Hdb.
  apply st_bind_ok in Hb as (u1 & w3 & He1 & Hb). apply exec_ok in He1 as (_ & [= _ Hd1] & _).
  apply st_bind_ok in Hb as (u2 & w4 & He2 & Hb). apply exec_ok in He2 as (_ & [= _ Hd2] & _).
  symmetry in Hd1, Hd2. rewrite Hd1 in Hd2. simpl in Hd2. rewrite <-Hda.
  assert (Hw : chat_completions (w_db wb) = chat_completions (w_db w4) /\
     chat_completion_messages (w_db wb) = chat_completion_messages (w_db w4) ++ map (message_row_of (sc_ID c)) ms).
  { destruct ms as [|m ms]; [injection Hb as _ <-; by rewrite app_nil_r|].
    apply st_bind_ok in Hb as (u3 & w5 & Hq & Hb). apply query_db in Hq.
    apply insert_messages_ok in Hb. by rewrite Hq in Hb. }
  destruct Hw as [Hc Hm]. rewrite Hc, Hd2. split; [done|].
  unfold messages_of. rewrite Hm, Hd2, filter_app. simpl.
  rewrite filter_none, filter_all; [done|..].
  - apply Forall_map, Forall_forall. done.
  - apply Forall_forall. intros m [Hne _]%list_elem_of_filter. exact Hne.
Qed.

(** A save that fails, or panics, changes nothing. *)
Lemma SaveChatCompletion_atomic c w r w' : SaveChatCompletion c w = (r, w') -> is_ok r = false ->
  w_db w' = w_db w.
Proof.
  unfold SaveChatCompletion, mbind, st_bind, st_lift.
  destruct (wrap_err _ _); [|by intros [= <- <-]..].
  destruct (ensureStoredChatCompletionResponseMetadata _ _); [|by intros [= <- <-]..].
  apply transaction_atomic.
Qed.
End saving.

(** ** Pages of messages *)

Definition messages_in_order {A} (q : ListStoredChatCompletionMessagesQuery) (l : list A) : list A :=
  if decide (gq_Order q = ChatCompletionOrderDesc) then reverse l else l.

Definition message_limit (q : ListStoredChatCompletionMessagesQuery) : Z :=
  if (gq_Limit q <? 1)%Z then 20%Z else gq_Limit q.

Lemma message_limit_pos q : (1 <= message_limit q)%Z.
Proof. unfold message_limit. destruct (Z.ltb_spec (gq_Limit q) 1); lia. Qed.

(** The first [limit] of what is left. *)
Definition message_slice (limit : Z) (rest : list StoredChatCompletionMessage) : StoredChatCompletionMessagePage :=
  {| mp_Messages := take (Z.to_nat limit) rest; mp_HasMore := (limit <? Z.of_nat (length rest))%Z |}.

(** Where a page starts. *)
Definition message_start (q : ListStoredChatCompletionMessagesQuery)
    (ordered : list StoredChatCompletionMessage) : option nat :=
  if decide (TrimSpace (gq_After q) = "") then Some 0 else index_after (TrimSpace (gq_After q)) ordered.

Lemma index_after_spec a l : 
  match index_after a l with
  | None => filter (fun m => sm_ID m = a) l = []
  | Some n => exists k m, n = S k /\ l !! k = Some m /\ head (filter (fun m => sm_ID m = a) l) = Some m
  end.
Proof.
  induction l as [|x l IH]; simpl; [done|]. case_decide as Hx.
  - rewrite filter_cons_True by done. eauto.
  - rewrite filter_cons_False by done. destruct (index_after a l) as [n|]; simpl; [|done].
    destruct IH as (k & m & -> & Hk & Hh). exists (S k), m. done.
Qed.

Lemma message_start_le q l n : message_start q l = Some n -> n <= length l.
Proof.
  unfold message_start. case_decide; [intros [= <-]; lia|]. intros Hi.
  pose proof (index_after_spec (TrimSpace (gq_After q)) l) as Hs. rewrite Hi in Hs.
  destruct Hs as (k & m & -> & Hk%lookup_lt_Some & _). lia.
Qed.

Lemma pageStoredChatCompletionMessages_eq ms q :
  (Z.of_nat (length ms) + message_limit q <= max_int)%Z ->
  pageStoredChatCompletionMessages ms q =
    match message_start q (messages_in_order q ms) with
    | None => Err ENotFound
    | Some n => Ok (message_slice (message_limit q) (drop n (messages_in_order q ms)))
    end.
Proof.
  intros Hmax. pose proof (message_limit_pos q) as Hpos.
  unfold pageStoredChatCompletionMessages. fold (message_limit q) (messages_in_order q ms).
  assert (Hlen : length (messages_in_order q ms) = length ms).
  { unfold messages_in_order. case_decide; [apply length_reverse|done]. }
  set (l := messages_in_order q ms) in *. fold (message_start q l).
  destruct (message_start q l) as [n|] eqn:En; [|done]. apply message_start_le in En.
  rewrite wrap_int_id.
  2: { unfold is_int, min_int, max_int in *. rewrite andb_true_iff, !Z.leb_le. lia. }
  unfold message_slice. rewrite length_drop.
  destruct (Z.ltb_spec (Z.of_nat (length l)) (Z.of_nat n + message_limit q)) as [H1|H1].
  - destruct (Z.ltb_spec (Z.of_nat (length l)) (Z.of_nat n)); [lia|]. do 2 f_equal.
    + rewrite !take_ge; [done|rewrite length_drop; lia..].
    + destruct (Z.ltb_spec (Z.of_nat n + message_limit q) (Z.of_nat (length l))),
        (Z.ltb_spec (message_limit q) (Z.of_nat (length l - n))); lia || done.
  - destruct (Z.ltb_spec (Z.of_nat n + message_limit q) (Z.of_nat n)); [lia|]. do 2 f_equal.
    + f_equal. lia.
    + destruct (Z.ltb_spec (Z.of_nat n + message_limit q) (Z.of_nat (length l))),
        (Z.ltb_spec (message_limit q) (Z.of_nat (length l - n))); lia || done.
Qed.

Lemma message_page_eq limit rows acc : (Z.of_nat (length acc) <= limit)%Z ->
  message_page limit rows acc =
    (acc ++ take (Z.to_nat limit - length acc) (map scanStoredChatCompletionMessage rows),
     (limit <? Z.of_nat (length acc + length rows))%Z).
Proof.
  revert acc. induction rows as [|r rows IH]; intros acc Hacc; simpl.
  - rewrite take_nil, app_nil_r, Nat.add_0_r. destruct (Z.ltb_spec limit (Z.of_nat (length acc))); [lia|done].
  - destruct (Z.leb_spec limit (Z.of_nat (length acc))).
    + replace (Z.to_nat limit - length acc) with 0 by lia. rewrite take_0, app_nil_r.
      destruct (Z.ltb_spec limit (Z.of_nat (length acc + S (length rows)))); [done|lia].
    + rewrite IH by (rewrite length_app; simpl; lia). rewrite length_app. simpl.
      replace (Z.to_nat limit - length acc) with (S (Z.to_nat limit - (length acc + 1))) by lia.
      simpl. rewrite <-app_assoc. do 3 f_equal. lia.
Qed.

(** The loop over the rows of a query with LIMIT [limit + 1]. *)
Lemma message_page_limited limit rows : (0 <= limit < max_int)%Z ->
  (let '(messages, hasMore) :=
     message_page limit (sql_limit (storedChatCompletionFetchLimit limit) rows) [] in
   {| mp_Messages := messages; mp_HasMore := hasMore |}) =
  message_slice limit (map scanStoredChatCompletionMessage rows).
Proof.
  intros Hl. rewrite message_page_eq by (simpl; lia). simpl.
  unfold sql_limit, storedChatCompletionFetchLimit, message_slice. rewrite length_map, Nat.sub_0_r.
  assert (Hgo : forall n, (limit < n)%Z -> (0 <= n)%Z -> 
    take (Z.to_nat limit) (map scanStoredChatCompletionMessage (take (Z.to_nat n) rows)) =
      take (Z.to_nat limit) (map scanStoredChatCompletionMessage rows) /\
    (limit <? Z.of_nat (length (take (Z.to_nat n) rows)))%Z = (limit <? Z.of_nat (length rows))%Z).
  { intros n Hn Hn0. split.
    - rewrite !firstn_map, take_take. do 2 f_equal. lia.
    - rewrite length_take. destruct (Z.ltb_spec limit (Z.of_nat (length rows)));
        [apply Z.ltb_lt|apply Z.ltb_ge]; lia. }
  destruct (Z.ltb_spec limit 1); [|destruct (Z.leb_spec max_int limit); [lia|]].
  - rewrite (proj2 (Z.ltb_ge 2 0)) by lia. destruct (Hgo 2%Z) as [-> ->]; [lia..|done].
  - rewrite (proj2 (Z.ltb_ge (limit + 1) 0)) by lia. destruct (Hgo (limit + 1)%Z) as [-> ->]; [lia..|done].
Qed.

(** ** Rows in order *)

Lemma messages_in_order_map {A B} q (f : A -> B) l :
  messages_in_order q (map f l) = map f (messages_in_order q l).
Proof. unfold messages_in_order. case_decide; [|done]. symmetry. apply fmap_reverse. Qed.

Lemma messages_in_order_filter {A} q (P : A -> Prop) `{forall x, Decision (P x)} l :
  messages_in_order q (filter P l) = filter P (messages_in_order q l).
Proof. unfold messages_in_order. case_decide; [|done]. by rewrite filter_reverse. Qed.

Definition message_order (q : ListStoredChatCompletionMessagesQuery) : message_row -> message_row -> bool :=
  if decide (gq_Order q = ChatCompletionOrderDesc) then message_desc else message_asc.

Lemma sort_messages q rows : StronglySorted message_lt rows ->
  sort_by (message_order q) rows = messages_in_order q rows.
Proof.
  intros Hs. unfold message_order, messages_in_order. case_decide.
  - revert Hs. apply sort_by_decreasing. unfold message_lt, message_desc, message_asc. intros x y Hy.
    apply Z.leb_gt. lia.
  - revert Hs. apply sort_by_increasing. unfold message_lt, message_asc. intros x y Hy. apply Z.leb_le. lia.
Qed.

Lemma messages_after q rows k r : StronglySorted message_lt rows ->
  messages_in_order q rows !! k = Some r ->
  messages_in_order q (filter (fun m => message_after q (Some (mg_sequence_number r)) m = true) rows) =
    drop (S k) (messages_in_order q rows).
Proof.
  intros Hs. rewrite messages_in_order_filter. unfold messages_in_order, message_after. case_decide; intros Hk.
  - rewrite <-(filter_after (flip message_lt) (fun x y => message_lt_asym y x) (reverse rows) k r)
      by (done || by apply StronglySorted_reversed).
    apply list_filter_iff. intros x. apply Z.ltb_lt.
  - rewrite <-(filter_after message_lt message_lt_asym rows k r) by done.
    apply list_filter_iff. intros x. apply Z.ltb_lt.
Qed.

Lemma scan_message_row_of id ms : map scanStoredChatCompletionMessage (map (message_row_of id) ms) = ms.
Proof. rewrite map_map. rewrite <-map_id. apply map_ext. by intros []. Qed.

Section listing_messages.
Context `{Sqlite}.
Hypothesis no_fault : forall n, stmt_fails n = false.

(** The row of the cursor is the message the page starts after. *)
Lemma message_cursor_eq id q ms w : StronglySorted message_lt (map (message_row_of id) ms) ->
  messages_of id (w_db w) = map (message_row_of id) ms ->
  let ordered := messages_in_order q ms in
  let after := TrimSpace (gq_After q) in
  exists w', w_db w' = w_db w /\
    message_cursor id after (message_order q) w =
      (match index_after after ordered with
       | None => Err ENotFound
       | Some n => Ok (default 0%Z (sm_Sequence <$> ordered !! pred n))
       end, w').
Proof.
  intros Hs Hm ordered after. eexists. split; cycle 1.
  - unfold message_cursor. erewrite st_bind_run by (by apply query_run).
    rewrite Hm, sort_messages by (by apply StronglySorted_filtered).
    rewrite messages_in_order_filter, messages_in_order_map. fold ordered.
    pose proof (index_after_spec after ordered) as Hi.
    assert (Hf : filter (fun m => mg_message_id m = after) (map (message_row_of id) ordered) =
                 map (message_row_of id) (filter (fun m => sm_ID m = after) ordered)) by (by apply filter_mapped).
    rewrite Hf. destruct (index_after after ordered) as [n|].
    + destruct Hi as (k & m & -> & Hk & Hh). simpl. rewrite Hk.
      destruct (filter _ ordered) as [|m' l] in Hh |- *; [done|]. injection Hh as ->. reflexivity.
    + rewrite Hi. reflexivity.
  - by repeat case_match.
Qed.

Lemma indexed_listing id q ms w row :
  id <> "" -> TrimSpace id = id -> (message_limit q < max_int)%Z ->
  chat_completions (w_db w) !! id = Some row ->
  StronglySorted message_lt (map (message_row_of id) ms) -> ms <> [] ->
  messages_of id (w_db w) = map (message_row_of id) ms ->
  (ListChatCompletionMessages id q w).1 =
    match message_start q (messages_in_order q ms) with
    | None => Err ENotFound
    | Some n => Ok (message_slice (message_limit q) (drop n (messages_in_order q ms)))
    end.
Proof.
  intros Hid Htrim Hlim Hrow Hs Hne Hm. pose proof (message_limit_pos q) as Hpos.
  unfold ListChatCompletionMessages. rewrite Htrim, decide_False by done.
  fold (message_limit q) (message_order q).
  erewrite st_bind_run by (by apply query_run). rewrite Hrow.
  erewrite st_bind_run by (by apply query_run). cbn [w_db]. rewrite Hm.
  destruct ms as [|m0 ms0] eqn:Ems; [done|]. rewrite <-Ems in *. cbn [head map].
  replace (head (map (message_row_of id) ms)) with (Some (message_row_of id m0)) by (by rewrite Ems).
  set (w1 := Build_world _ _ _). assert (Hd1 : w_db w1 = w_db w) by done. clearbody w1.
  assert (Hlist : forall cursor n w2, w_db w2 = w_db w ->
    messages_in_order q (filter (fun m => message_after q cursor m = true) (map (message_row_of id) ms)) =
      map (message_row_of id) (drop n (messages_in_order q ms)) ->
    ((rows ← query "list chat completion messages" (fun db =>
        sql_limit (storedChatCompletionFetchLimit (message_limit q))
          (sort_by (message_order q) (filter (fun m => message_after q cursor m = true) (messages_of id db))));
      let '(messages, hasMore) := message_page (message_limit q) rows [] in
      mret {| mp_Messages := messages; mp_HasMore := hasMore |}) w2).1 =
    Ok (message_slice (message_limit q) (drop n (messages_in_order q ms)))).
  { intros cursor n w2 Hd2 Hcut. erewrite st_bind_run by (by apply query_run). rewrite Hd2, Hm.
    rewrite sort_messages by (by apply StronglySorted_filtered). rewrite Hcut.
    rewrite <-(scan_message_row_of id (drop n _)) at 2. rewrite <-message_page_limited by lia.
    by destruct (message_page _ _ _). }
  unfold message_start. case_decide as Ha.
  - unfold mret at 1, st_ret at 1. cbn [mbind st_bind]. apply Hlist; [done|]. rewrite drop_0.
    rewrite filter_all by (by apply Forall_forall). by rewrite messages_in_order_map.
  - destruct (message_cursor_eq id q ms w1) as (w2 & Hd2 & Hcur); [done|by rewrite Hd1|].
    rewrite st_bind_eq, st_bind_eq, Hcur.
    pose proof (index_after_spec (TrimSpace (gq_After q)) (messages_in_order q ms)) as Hi.
    destruct (index_after _ _) as [n|]; [|done]. destruct Hi as (k & m & -> & Hk & _). simpl pred.
    rewrite Hk. unfold mret at 1, st_ret at 1. apply Hlist; [congruence|].
    etrans; [apply (messages_after q _ k (message_row_of id m)); [done|]|].
    + by rewrite messages_in_order_map, list_lookup_fmap, Hk.
    + rewrite messages_in_order_map. symmetry. apply fmap_drop.
Qed.
End listing_messages.

(** ** Metadata columns *)

Definition metadata_column (metadata : option (list (string * string))) : string :=
  match metadata with None => "null" | Some m => jprint (string_map_json m) end.

Lemma string_map_json_decodes m : exists m', string_map (string_map_json m) = Some m'.
Proof.
  unfold string_map, string_map_json. 
  assert (Hm : exists l, opt_map (fun kv => v ← string_of kv.2; Some (unquote kv.1, v))
                 (map (fun kv => (encode_body kv.1, json_str kv.2)) m) = Some l).
  { induction m as [|[k v] m [l IH]]; simpl; [by exists []|]. rewrite IH. simpl. eauto. }
  destruct Hm as [l ->]. simpl. eauto.
Qed.

Lemma scan_metadata_column metadata : exists m, scan_metadata (metadata_column metadata) = Ok m.
Proof.
  unfold scan_metadata. case_decide; [eauto|]. destruct metadata as [m|]; [|by exists []].
  cbn [metadata_column]. rewrite (jparse_jprint (string_map_json m)) by apply string_members_jwf.
  destruct (string_map_json_decodes m) as [m' Hm]. cbn [mbind option_bind]. rewrite Hm. eauto.
Qed.

(** The column of a metadata map reads back as that map, nil as the empty one. *)
Lemma scan_metadata_column_id metadata : metadata_ok (default [] metadata) = true ->
  scan_metadata (metadata_column metadata) = Ok (default [] metadata).
Proof.
  intros [Hs Hv]%andb_true_iff. unfold scan_metadata. destruct metadata as [m|]; [|done]. cbn [default metadata_column] in *.
  unfold string_map_json. rewrite TrimSpace_obj, decide_False by done.
  rewrite jparse_jprint by apply string_members_jwf. unfold mbind, option_bind.
  by rewrite string_map_marshalled.
Qed.

Lemma SaveChatCompletion_row `{Sqlite} c w u w' : SaveChatCompletion c w = (Ok u, w') ->
  exists ms response row,
    StoredChatCompletionMessagesFromRequestJSON (sc_ID c) (sc_RequestJSON c) = Ok ms /\
    ensureStoredChatCompletionResponseMetadata (sc_ResponseJSON c) (sc_Metadata c) = Ok response /\
    chat_completions (w_db w') !! sc_ID c = Some row /\
    messages_of (sc_ID c) (w_db w') = map (message_row_of (sc_ID c)) ms /\
    StronglySorted message_lt (map (message_row_of (sc_ID c)) ms) /\
    row = {| ch_model := sc_Model c; ch_metadata_json := metadata_column (sc_Metadata c);
             ch_request_json := sc_RequestJSON c; ch_response_json := response;
             ch_created_at := sc_CreatedAt c |}.
Proof.
  intros (ms & response & row & Hms & Hresp & Hc & Hm & ->)%SaveChatCompletion_ok.
  exists ms, response. eexists. split; [done|]. split; [done|].
  rewrite Hc, lookup_insert_eq. split; [reflexivity|]. split; [done|]. split; [|done].
  unfold StoredChatCompletionMessagesFromRequestJSON in Hms. destruct (request_messages _); [|done].
  by apply normalize_messages_sorted in Hms as [_ ?].
Qed.

Lemma GetChatCompletion_run `{Sqlite} id row w : (forall n, stmt_fails n = false) ->
  chat_completions (w_db w) !! id = Some row ->
  exists w', w_db w' = w_db w /\ GetChatCompletion id w = (scanStoredChatCompletion (id, row), w').
Proof.
  intros Hnf Hrow. eexists. split; cycle 1.
  - unfold GetChatCompletion, select_chat. rewrite st_bind_eq, query_run, Hrow by done. reflexivity.
  - done.
Qed.

(** Fact (equivalence): the messages of a stored completion are listed from
    their rows exactly as they would be from the request document, whatever
    the order, the cursor and the limit: the page after a message is what
    follows it, an unknown cursor is an error, and a completion without
    messages has empty pages. *)
Theorem messages_listed_as_sent `{Sqlite} c q w w1 w2 :
  (forall n, stmt_fails n = false) -> SaveChatCompletion c w = (Ok tt, w1) ->
  sc_ID c <> "" -> TrimSpace (sc_ID c) = sc_ID c -> w_db w2 = w_db w1 ->
  exists messages,
    StoredChatCompletionMessagesFromRequestJSON (sc_ID c) (sc_RequestJSON c) = Ok messages /\
    ((Z.of_nat (length messages) + message_limit q <= max_int)%Z ->
     (ListChatCompletionMessages (sc_ID c) q w2).1 = pageStoredChatCompletionMessages messages q).
Proof.
  intros Hnf Hsave Hid Htrim Hd.
  destruct (SaveChatCompletion_row c w tt w1 Hsave) as (ms & response & row & Hms & _ & Hrow & Hm & Hs & Er).
  exists ms. split; [done|]. intros Hmax. rewrite <-Hd in *.
  destruct (decide (ms = [])) as [->|Hne].
  - unfold ListChatCompletionMessages. rewrite Htrim, decide_False by done.
    rewrite st_bind_eq, query_run, Hrow by done. rewrite st_bind_eq, query_run by done. cbn [w_db].
    rewrite Hm. cbn [map head]. unfold listLegacyChatCompletionMessages.
    set (w3 := Build_world _ _ _). destruct (GetChatCompletion_run (sc_ID c) row w3) as (w4 & _ & Hget);
      [done|done|]. rewrite st_bind_eq, Hget. subst row. unfold scanStoredChatCompletion. simpl.
    destruct (scan_metadata_column (sc_Metadata c)) as [m ->]. simpl.
    unfold mbind, st_bind, st_lift. simpl. rewrite Hms. simpl.
    unfold pageStoredChatCompletionMessages. simpl. unfold message_limit in *.
    destruct (gq_Limit q <? 1)%Z eqn:E; [done|]. by rewrite E.
  - assert (0 < length ms) by (destruct ms; [done|simpl; lia]).
    rewrite (indexed_listing Hnf (sc_ID c) q ms w2 row) by (done || lia).
    by rewrite pageStoredChatCompletionMessages_eq.
Qed.

Definition demo_chat : StoredChatCompletion :=
  {| sc_ID := "chat_1"; sc_Model := "m"; sc_Metadata := Some [("k", "v")];
     sc_RequestJSON := sq "{'messages':[{'role':'system','content':'a'},{'role':'user','content':[{'type':'text','text':'b'}]}]}";
     sc_ResponseJSON := sq "{'id':'chat_1','metadata':{'k':'old'},'n':1}"; sc_CreatedAt := 7 |}.

Definition chat_world : world := after (@SaveChatCompletion reliable demo_chat) start.

Definition demo_message_query : ListStoredChatCompletionMessagesQuery :=
  {| gq_After := "chat_1-1"; gq_Limit := 5; gq_Order := "desc" |}.

Definition demo_messages : list StoredChatCompletionMessage :=
  match StoredChatCompletionMessagesFromRequestJSON "chat_1" (sc_RequestJSON demo_chat) with
  | Ok messages => messages | _ => [] end.

Lemma messages_listed_as_sent_witness :
  (@ListChatCompletionMessages reliable "chat_1" demo_message_query chat_world).1 =
    pageStoredChatCompletionMessages demo_messages demo_message_query.
Proof.
  destruct (@messages_listed_as_sent reliable demo_chat demo_message_query start chat_world chat_world)
    as (messages & Hm & Hl); [done|vm_compute; reflexivity|done|vm_compute; reflexivity|done|].
  assert (Hd : Ok demo_messages = Ok messages).
  { rewrite <-Hm. vm_compute. reflexivity. }
  injection Hd as <-. apply Hl. vm_compute. discriminate.
Defined.

(** ** Metadata in the response document *)

(** Maps of the same size that agree on the keys of one are equal. *)
Lemma am_same_size {V} (m1 m2 : list (string * V)) : am_sorted m1 = true -> am_sorted m2 = true ->
  length m1 = length m2 -> (forall k v, (k, v) ∈ m2 -> am_lookup k m1 = Some v) -> m1 = m2.
Proof.
  intros H1 H2 Hlen Hsub. rewrite <-(am_of_list_sorted_id m1) by done.
  apply am_of_list_perm; [done|]. symmetry. apply submseteq_length_Permutation; [|lia].
  apply NoDup_submseteq.
  - apply (NoDup_fmap_1 fst). by eapply am_sorted_nodup.
  - intros [k v] Hin. by apply am_lookup_elem, Hsub.
Qed.

Lemma string_map_sorted t m : string_map t = Some m -> am_sorted m = true.
Proof.
  destruct t; try done; simpl; [by intros [= <-]|]. intros (kvs & _ & ->)%fmap_Some. apply am_of_list_sorted.
Qed.

(** Without empty values the comparison is equality. *)
Lemma metadata_matches_eq raw metadata : am_sorted metadata = true ->
  Forall (fun kv => kv.2 <> "") metadata ->
  storedChatCompletionMetadataMatches raw metadata = true -> string_map raw = Some metadata.
Proof.
  intros Hs Hne. unfold storedChatCompletionMetadataMatches.
  assert (Hgo : forall existing, string_map raw = Some existing ->
    bool_decide (length existing = length metadata) &&
    forallb (fun kv => bool_decide (default "" (am_lookup kv.1 existing) = kv.2)) metadata = true ->
    string_map raw = Some metadata).
  { intros existing He [Hl%bool_decide_eq_true Hf]%andb_true_iff. rewrite He. f_equal.
    apply am_same_size; [by eapply string_map_sorted|done|done|]. intros k v Hin.
    rewrite forallb_forall in Hf. pose proof (Hf (k, v) (proj1 (list_elem_of_In _ _) Hin)) as Hk%bool_decide_eq_true.
    rewrite Forall_forall in Hne. specialize (Hne _ Hin). simpl in *.
    destruct (am_lookup k existing) as [v'|]; simpl in Hk; congruence. }
  destruct raw; [done| | | | |]; (destruct (string_map _) as [existing|] eqn:E; [|done]);
    intros Hm; by apply (Hgo existing).
Qed.

Lemma string_map_json_escaped m : jesc (string_map_json m) = string_map_json m.
Proof.
  unfold string_map_json. simpl. f_equal. rewrite map_map. apply map_ext. intros kv. simpl.
  unfold json_str. simpl. by rewrite !esc_lit_encode.
Qed.

(** The metadata of the document is the metadata stored, and its other members
    stay what they were. *)
Lemma ensure_metadata_shown responseJSON t metadata response :
  jparse responseJSON = Some t -> jok t = true -> metadata_ok metadata = true ->
  Forall (fun kv => kv.2 <> "") metadata ->
  ensureStoredChatCompletionResponseMetadata responseJSON (Some metadata) = Ok response ->
  exists before now, raw_map t = Some before /\ jparse response ≫= raw_map = Some now /\
    am_lookup "metadata" now ≫= string_map = Some metadata /\
    forall k, k <> "metadata" -> am_lookup k now ≫= any_of = am_lookup k before ≫= any_of.
Proof.
  intros Ht Hok Hmd Hne. pose proof Hmd as [Hs Hv]%andb_true_iff.
  unfold ensureStoredChatCompletionResponseMetadata. rewrite Ht. destruct t as [| | | | |l]; [done..|].
  change (normalizeStoredChatCompletionMetadata (Some metadata)) with metadata.
  destruct (raw_map (JObj l)) as [before|] eqn:Eb; [|done]. pose proof Eb as Hb. injection Hb as Hb. rewrite Hb.
  destruct (raw_map_fields_ok _ _ Hok Eb) as [Hsb Hfb].
  case_match eqn:Em.
  - intros [= <-]. exists before, before. rewrite Ht. split; [done|]. split; [exact Eb|]. split; [|done].
    destruct (am_lookup "metadata" before) as [raw|]; [|done]. by apply metadata_matches_eq.
  - intros Hr0. assert (response = jprint (raw_map_json (am_insert "metadata" (string_map_json metadata) before)))
      as -> by congruence. clear Hr0.
    destruct (raw_map_json_read (am_insert "metadata" (string_map_json metadata) before))
      as [Hw Hr]; [by apply am_insert_sorted| |].
    { apply am_insert_Forall; [|done]. split; [done|]. right.
      split; [apply string_map_json_escaped|apply string_members_jwf]. }
    eexists before, _. split; [done|]. rewrite jparse_jprint by done. split; [exact Hr|].
    split.
    + rewrite am_lookup_map, am_lookup_insert. cbn [fmap option_fmap option_map mbind option_bind].
      rewrite string_map_json_escaped. by apply string_map_marshalled.
    + intros k Hk. rewrite am_lookup_map, am_lookup_insert_ne by done.
      destruct (am_lookup k before) as [x|] eqn:Ex; [|done]. simpl. apply any_of_jesc.
      by apply (raw_map_jok _ _ _ _ Hok Eb Ex).
Qed.

(** C33 (roundtrip): a completion that was saved with valid metadata, none of whose
    values is empty, and a response document in valid UTF-8 is read back with its
    model, request, time of creation and metadata; the response document that is
    read shows that metadata and is otherwise what it was.  For a metadata value
    that is empty see [stale_metadata_kept]. *)
Theorem chat_completion_round_trip `{Sqlite} c w w1 w2 metadata t :
  (forall n, stmt_fails n = false) -> SaveChatCompletion c w = (Ok tt, w1) -> w_db w2 = w_db w1 ->
  sc_Metadata c = Some metadata -> metadata_ok metadata = true -> Forall (fun kv => kv.2 <> "") metadata ->
  jparse (sc_ResponseJSON c) = Some t -> jok t = true ->
  exists response before now w3,
    GetChatCompletion (sc_ID c) w2 =
      (Ok {| sc_ID := sc_ID c; sc_Model := sc_Model c; sc_Metadata := Some metadata;
             sc_RequestJSON := sc_RequestJSON c; sc_ResponseJSON := response;
             sc_CreatedAt := sc_CreatedAt c |}, w3) /\
    raw_map t = Some before /\ jparse response ≫= raw_map = Some now /\
    am_lookup "metadata" now ≫= string_map = Some metadata /\
    forall k, k <> "metadata" -> am_lookup k now ≫= any_of = am_lookup k before ≫= any_of.
Proof.
  intros Hnf Hsave Hd Hm Hok Hne Ht Htok.
  destruct (SaveChatCompletion_row c w tt w1 Hsave) as (ms & response & row & _ & Hresp & Hrow & _ & _ & Er).
  rewrite <-Hd in Hrow. rewrite Hm in Hresp, Er.
  destruct (ensure_metadata_shown _ _ _ _ Ht Htok Hok Hne Hresp) as (before & now & Hb & Hn & Hmd & Hk).
  destruct (GetChatCompletion_run (sc_ID c) row w2 Hnf Hrow) as (w3 & _ & Hget).
  exists response, before, now, w3. split; [|done]. rewrite Hget. subst row.
  unfold scanStoredChatCompletion. cbn [snd ch_metadata_json].
  by rewrite (scan_metadata_column_id (Some metadata)).
Qed.

Lemma chat_completion_round_trip_witness : exists response before now w3,
    @GetChatCompletion reliable "chat_1" chat_world =
      (Ok {| sc_ID := "chat_1"; sc_Model := "m"; sc_Metadata := Some [("k", "v")];
             sc_RequestJSON := sc_RequestJSON demo_chat; sc_ResponseJSON := response;
             sc_CreatedAt := 7 |}, w3) /\
    jparse (sc_ResponseJSON demo_chat) ≫= raw_map = Some before /\ jparse response ≫= raw_map = Some now /\
    am_lookup "metadata" now ≫= string_map = Some [("k", "v")] /\
    forall k, k <> "metadata" -> am_lookup k now ≫= any_of = am_lookup k before ≫= any_of.
Proof.
  destruct (jparse (sc_ResponseJSON demo_chat)) as [t|] eqn:Et; [|vm_compute in Et; discriminate].
  destruct (@chat_completion_round_trip reliable demo_chat start chat_world chat_world [("k", "v")] t)
    as (response & before & now & w3 & H1 & H2 & H3 & H4 & H5).
  - done.
  - vm_compute. reflexivity.
  - done.
  - done.
  - vm_compute. reflexivity.
  - apply Forall_cons_2; [discriminate|apply Forall_nil_2].
  - done.
  - vm_compute in Et. injection Et as <-. vm_compute. reflexivity.
  - exists response, before, now, w3. split; [exact H1|]. split; [exact H2|]. by split.
Defined.

(** Fact: a missing key compares like one with the empty text, so a document
    with other metadata is left as it is. *)
Fact stale_metadata_kept :
  ensureStoredChatCompletionResponseMetadata (sq "{'metadata':{'a':''}}") (Some [("b", "")]) =
    Ok (sq "{'metadata':{'a':''}}").
Proof. vm_compute. reflexivity. Qed.

(** Fact: a null message, and a null response document, panic. *)
Fact null_message_panics :
  StoredChatCompletionMessagesFromRequestJSON "c" (sq "{'messages':[null]}") = Panic /\
  ensureStoredChatCompletionResponseMetadata "null" None = Panic.
Proof. vm_compute. done. Qed.

(** ** Pages of completions *)

(** Created before, or at the same time with the smaller identifier. *)
Definition chat_lt (a b : string * chat_row) : Prop :=
  (ch_created_at a.2 < ch_created_at b.2)%Z \/
  ch_created_at a.2 = ch_created_at b.2 /\ String.compare a.1 b.1 = Lt.

#[local] Instance chat_lt_dec a b : Decision (chat_lt a b).
Proof. unfold chat_lt. apply _. Defined.

Lemma chat_lt_asym a b : chat_lt a b -> ~ chat_lt b a.
Proof.
  unfold chat_lt. intros [H|[H Hc]] [H'|[H' Hc']]; try lia.
  apply scompare_lt_gt in Hc'. congruence.
Qed.

Definition chat_order (q : ListStoredChatCompletionsQuery) : string * chat_row -> string * chat_row -> Prop :=
  if decide (cq_Order q = ChatCompletionOrderDesc) then flip chat_lt else chat_lt.

#[local] Instance chat_order_dec q a b : Decision (chat_order q a b).
Proof. unfold chat_order. case_decide; unfold flip; apply _. Defined.

Lemma chat_order_asym q a b : chat_order q a b -> ~ chat_order q b a.
Proof. unfold chat_order, flip. case_decide; apply chat_lt_asym. Qed.

Definition chat_le (q : ListStoredChatCompletionsQuery) : string * chat_row -> string * chat_row -> bool :=
  if decide (cq_Order q = ChatCompletionOrderDesc) then chat_desc else chat_asc.

Lemma chat_asc_total a b : chat_asc a b = true \/ chat_asc b a = true.
Proof.
  unfold chat_asc. rewrite !orb_true_iff, !andb_true_iff, !Z.ltb_lt, !Z.eqb_eq.
  destruct (str_le_total a.1 b.1), (Z.lt_trichotomy (ch_created_at a.2) (ch_created_at b.2)) as [|[|]]; auto.
Qed.

Lemma chat_asc_trans a b c : chat_asc a b = true -> chat_asc b c = true -> chat_asc a c = true.
Proof.
  unfold chat_asc. rewrite !orb_true_iff, !andb_true_iff, !Z.ltb_lt, !Z.eqb_eq.
  intros [H1|[H1 S1]] [H2|[H2 S2]]; [left; lia..|]. right. split; [lia|]. by eapply str_le_trans.
Qed.

Lemma chat_asc_lt a b : chat_asc a b = true -> a.1 <> b.1 -> chat_lt a b.
Proof.
  unfold chat_asc, chat_lt, str_le. rewrite orb_true_iff, andb_true_iff, Z.ltb_lt, Z.eqb_eq.
  intros [H|[H Hs]] Hne; [by left|]. right. split; [done|].
  destruct (scompare_cases a.1 b.1) as [[_ He]|[E|E]]; [done|done|by rewrite E in Hs].
Qed.

Lemma chat_le_total q a b : chat_le q a b = true \/ chat_le q b a = true.
Proof. unfold chat_le, chat_desc. case_decide; [destruct (chat_asc_total a b); auto|apply chat_asc_total]. Qed.

Lemma chat_le_trans q a b c : chat_le q a b = true -> chat_le q b c = true -> chat_le q a c = true.
Proof. unfold chat_le, chat_desc. case_decide; [intros; by eapply chat_asc_trans|apply chat_asc_trans]. Qed.

Lemma chat_le_order q a b : chat_le q a b = true -> a.1 <> b.1 -> chat_order q a b.
Proof. unfold chat_le, chat_order, chat_desc, flip. case_decide; intros; apply chat_asc_lt; auto. Qed.

(** Sorting rows with distinct identifiers. *)
Lemma sort_chats q l : NoDup (map fst l) -> StronglySorted (chat_order q) (sort_by (chat_le q) l).
Proof.
  intros Hn. assert (Hd : NoDup (map fst (sort_by (chat_le q) l))) by (by rewrite sort_by_perm).
  pose proof (sort_by_sorted (chat_le q) (chat_le_total q) (chat_le_trans q) l) as Hs.
  revert Hd. induction Hs as [|x m Hm IH Hx]; simpl; [constructor|]. intros [Hxn Hd]%NoDup_cons.
  constructor; [by apply IH|]. rewrite Forall_forall in *. intros y Hy. apply chat_le_order; [by apply Hx|].
  intros He. apply Hxn. rewrite He. by apply list_elem_of_fmap_2.
Qed.

(** The completions a query is about, in its order. *)
Definition matching_chats (q : ListStoredChatCompletionsQuery) (db : DB) : list (string * chat_row) :=
  sort_by (chat_le q) (filter (fun r => chat_matches q r = true) (map_to_list (chat_completions db))).

Lemma chat_ids_nodup (P : string * chat_row -> Prop) `{forall x, Decision (P x)} db :
  NoDup (map fst (filter P (map_to_list (chat_completions db)))).
Proof. apply NoDup_map_filter. exact (NoDup_fst_map_to_list (chat_completions db)). Qed.

Lemma matching_chats_elem q db id row : (id, row) ∈ matching_chats q db <->
  chat_completions db !! id = Some row /\ chat_matches q (id, row) = true.
Proof. unfold matching_chats. rewrite sort_by_perm, list_elem_of_filter, elem_of_map_to_list. tauto. Qed.

Lemma matching_chats_sorted q db : StronglySorted (chat_order q) (matching_chats q db).
Proof. apply sort_chats, chat_ids_nodup. Qed.

(** What the query of a page selects: a filter of the matching rows. *)
Lemma page_rows_eq q created db :
  sort_by (chat_le q) (filter (fun r => chat_matches q r && chat_after q created r = true)
                              (map_to_list (chat_completions db))) =
  filter (fun r => chat_after q created r = true) (matching_chats q db).
Proof.
  apply (StronglySorted_unique_strong (chat_order q)).
  - intros x y _ _ Hxy Hyx. by destruct (chat_order_asym q x y).
  - apply sort_chats, chat_ids_nodup.
  - apply StronglySorted_filtered, matching_chats_sorted.
  - unfold matching_chats. rewrite !sort_by_perm. rewrite list_filter_filter.
    apply reflexive_eq, list_filter_iff. intros r. rewrite andb_true_iff. tauto.
Qed.

Lemma chat_after_order q r x : TrimSpace (cq_After q) = r.1 -> r.1 <> "" ->
  chat_after q (ch_created_at r.2) x = true <-> chat_order q r x.
Proof.
  intros Ha Hne. unfold chat_after, chat_order, flip, chat_lt. rewrite Ha, decide_False by done.
  case_decide; rewrite orb_true_iff, andb_true_iff, Z.ltb_lt, Z.eqb_eq, bool_decide_eq_true; [done|].
  split; (intros [?|[? ?]]; [by left|right; split; [lia|done]]).
Qed.

Definition chat_limit (q : ListStoredChatCompletionsQuery) : Z :=
  if (cq_Limit q <? 1)%Z then 20%Z else cq_Limit q.

Lemma chat_limit_pos q : (1 <= chat_limit q)%Z.
Proof. unfold chat_limit. destruct (Z.ltb_spec (cq_Limit q) 1); lia. Qed.

Definition chat_slice (limit : Z) (rest : list StoredChatCompletion) : StoredChatCompletionPage :=
  {| cp_Completions := take (Z.to_nat limit) rest; cp_HasMore := (limit <? Z.of_nat (length rest))%Z |}.

(** Where a page starts: after the completion the cursor names. *)
Definition chat_start (q : ListStoredChatCompletionsQuery) (all : list StoredChatCompletion) : option nat :=
  if decide (TrimSpace (cq_After q) = "") then Some 0
  else (fun found => S found.1) <$> list_find (fun c => sc_ID c = TrimSpace (cq_After q)) all.

Lemma chat_page_eq limit rows cs acc : (Z.of_nat (length acc) <= limit)%Z ->
  res_map scanStoredChatCompletionListRow rows = Ok cs ->
  chat_page limit rows acc =
    Ok (acc ++ take (Z.to_nat limit - length acc) cs, (limit <? Z.of_nat (length acc + length cs))%Z).
Proof.
  revert cs acc. induction rows as [|r rows IH]; intros cs acc Hacc; cbn [res_map chat_page].
  - intros [= <-]. rewrite take_nil, app_nil_r, Nat.add_0_r.
    destruct (Z.ltb_spec limit (Z.of_nat (length acc))); [lia|done].
  - intros (c & -> & (cs' & Hcs & [= <-])%res_bind_ok)%res_bind_ok. cbn [mbind res_bind length].
    destruct (Z.leb_spec limit (Z.of_nat (length acc))).
    + replace (Z.to_nat limit - length acc) with 0 by lia. rewrite take_0, app_nil_r.
      destruct (Z.ltb_spec limit (Z.of_nat (length acc + S (length cs')))); [done|lia].
    + rewrite (IH cs') by (done || rewrite length_app; simpl; lia). rewrite length_app. simpl.
      replace (Z.to_nat limit - length acc) with (S (Z.to_nat limit - (length acc + 1))) by lia.
      simpl. rewrite <-app_assoc. do 4 f_equal. lia.
Qed.

(** The loop over the rows of a query with LIMIT [limit + 1]. *)
Lemma chat_page_limited limit rows cs : (1 <= limit < max_int)%Z ->
  res_map scanStoredChatCompletionListRow rows = Ok cs ->
  chat_page limit (sql_limit (storedChatCompletionFetchLimit limit) rows) [] =
    Ok (take (Z.to_nat limit) cs, (limit <? Z.of_nat (length cs))%Z).
Proof.
  intros Hl Hcs. unfold sql_limit, storedChatCompletionFetchLimit.
  rewrite (proj2 (Z.ltb_ge limit 1)), (proj2 (Z.leb_gt max_int limit)) by lia.
  rewrite (proj2 (Z.ltb_ge (limit + 1) 0)) by lia.
  rewrite (chat_page_eq limit _ (take (Z.to_nat (limit + 1)) cs)); simpl; [|lia|].
  - rewrite Nat.sub_0_r, take_take, length_take. do 2 f_equal; [f_equal; lia|].
    destruct (Z.ltb_spec limit (Z.of_nat (length cs))); [apply Z.ltb_lt|apply Z.ltb_ge]; lia.
  - apply res_map_ok_iff. apply res_map_ok_iff in Hcs. by apply Forall2_take.
Qed.

Lemma scan_list_row_id r c : scanStoredChatCompletionListRow r = Ok c -> sc_ID c = r.1.
Proof. unfold scanStoredChatCompletionListRow. by intros (m & _ & [= <-])%res_bind_ok. Qed.

Section listing.
Context `{Sqlite}.
Hypothesis no_fault : forall n, stmt_fails n = false.

(** The page behind a cursor whose rows are [drop n] of the matching ones. *)
Lemma list_chats_from q created n all w w1 : 
  res_map scanStoredChatCompletionListRow (matching_chats q (w_db w)) = Ok all ->
  (chat_limit q < max_int)%Z ->
  (if decide (TrimSpace (cq_After q) = "") then mret 0%Z else lookup_cursor q) w = (Ok created, w1) ->
  w_db w1 = w_db w ->
  filter (fun r => chat_after q created r = true) (matching_chats q (w_db w)) = drop n (matching_chats q (w_db w)) ->
  (ListChatCompletions q w).1 = Ok (chat_slice (chat_limit q) (drop n all)).
Proof.
  intros Hall Hlim Hcur Hd Hcut. pose proof (chat_limit_pos q). unfold ListChatCompletions.
  fold (chat_limit q) (chat_le q). rewrite (st_bind_run _ _ _ _ _ Hcur).
  rewrite st_bind_eq, query_run, Hd, page_rows_eq, Hcut by done.
  rewrite st_bind_eq. unfold st_lift. rewrite (chat_page_limited _ _ (drop n all)); [done|lia|].
  apply res_map_ok_iff. apply res_map_ok_iff in Hall. by apply Forall2_drop.
Qed.

Lemma lookup_cursor_found q row w : chat_completions (w_db w) !! TrimSpace (cq_After q) = Some row ->
  chat_matches q (TrimSpace (cq_After q), row) = true ->
  exists w1, w_db w1 = w_db w /\ lookup_cursor q w = (Ok (ch_created_at row), w1).
Proof.
  intros Hrow Hm. unfold lookup_cursor. rewrite st_bind_eq, query_run, Hrow, Hm by done.
  eexists. split; cycle 1; [reflexivity|done].
Qed.

Lemma lookup_cursor_missing q w :
  (forall row, (TrimSpace (cq_After q), row) ∉ matching_chats q (w_db w)) ->
  (lookup_cursor q w).1 = Err ENotFound.
Proof.
  intros Hno. unfold lookup_cursor. rewrite st_bind_eq, query_run by done.
  destruct (chat_completions (w_db w) !! TrimSpace (cq_After q)) as [row|] eqn:Er; [|done].
  destruct (chat_matches q _) eqn:Em; [|done]. destruct (Hno row). by apply matching_chats_elem.
Qed.
End listing.

(** Fact (functional): the completions that match a query (its model and each
    entry of its metadata) are listed by time of creation and identifier, in
    the order asked for: the first page is the first [limit] of them, the page
    after a completion the first [limit] that follow it, has_more tells
    whether any are left, and a cursor that names none of them is an error. *)
Theorem ListChatCompletions_spec `{Sqlite} q w all :
  (forall n, stmt_fails n = false) -> (chat_limit q < max_int)%Z ->
  res_map scanStoredChatCompletionListRow (matching_chats q (w_db w)) = Ok all ->
  StronglySorted (chat_order q) (matching_chats q (w_db w)) /\
  (forall id row, (id, row) ∈ matching_chats q (w_db w) <->
     chat_completions (w_db w) !! id = Some row /\ chat_matches q (id, row) = true) /\
  (ListChatCompletions q w).1 =
    match chat_start q all with
    | None => Err ENotFound
    | Some n => Ok (chat_slice (chat_limit q) (drop n all))
    end.
Proof.
  intros Hnf Hlim Hall. pose proof (matching_chats_sorted q (w_db w)) as Hs.
  split; [done|]. split; [intros id row; apply matching_chats_elem|].
  pose proof Hall as Hrows. apply res_map_ok_iff in Hrows. unfold chat_start. case_decide as Ha.
  - apply (list_chats_from Hnf q 0 0 all w w); [done|done|by rewrite decide_True|done|].
    rewrite drop_0. apply filter_all, Forall_forall. intros x _. unfold chat_after. by rewrite decide_True.
  - destruct (list_find _ all) as [[k c]|] eqn:Ef; simpl.
    + apply list_find_Some in Ef as (Hk & Hid & _).
      destruct (Forall2_lookup_r _ _ _ _ _ Hrows Hk) as ([id row] & Hr & Hscan).
      apply scan_list_row_id in Hscan. simpl in Hscan. rewrite Hid in Hscan. subst id.
      pose proof (list_elem_of_lookup_2 _ _ _ Hr) as [Hrow Hm]%matching_chats_elem.
      destruct (lookup_cursor_found Hnf q row w Hrow Hm) as (w1 & Hd1 & Hc).
      apply (list_chats_from Hnf q (ch_created_at row) (S k) all w w1); try done.
      * by rewrite decide_False.
      * rewrite <-(filter_after (chat_order q) (chat_order_asym q) _ k _ Hs Hr).
        apply list_filter_iff. intros x. by apply (chat_after_order q (TrimSpace (cq_After q), row)).
    + apply list_find_None in Ef. unfold ListChatCompletions. rewrite st_bind_eq, decide_False by done.
      rewrite (surjective_pairing (lookup_cursor q w)), (lookup_cursor_missing Hnf); [done|].
      intros row Hin. apply list_elem_of_lookup in Hin as [k Hk].
      destruct (Forall2_lookup_l _ _ _ _ _ Hrows Hk) as (c & Hc & Hscan%scan_list_row_id).
      rewrite Forall_forall in Ef. by apply (Ef c); [by eapply list_elem_of_lookup_2|].
Qed.

Definition second_chat : StoredChatCompletion :=
  {| sc_ID := "chat_2"; sc_Model := "m"; sc_Metadata := Some [("k", "v"); ("l", "x")];
     sc_RequestJSON := sq "{'messages':[]}"; sc_ResponseJSON := "{}"; sc_CreatedAt := 7 |}.

Definition two_chats : world := after (@SaveChatCompletion reliable second_chat) chat_world.

Definition demo_chat_query : ListStoredChatCompletionsQuery :=
  {| cq_Model := "m"; cq_Metadata := [("k", "v")]; cq_After := " chat_2 "; cq_Limit := 0; cq_Order := "desc" |}.

Definition listed_chats : list StoredChatCompletion :=
  match res_map scanStoredChatCompletionListRow (matching_chats demo_chat_query (w_db two_chats)) with
  | Ok all => all | _ => [] end.

Lemma ListChatCompletions_spec_witness : map sc_ID listed_chats = ["chat_2"; "chat_1"] /\
  (@ListChatCompletions reliable demo_chat_query two_chats).1 = Ok (chat_slice 20 (drop 1 listed_chats)).
Proof.
  split; [vm_compute; reflexivity|].
  destruct (@ListChatCompletions_spec reliable demo_chat_query two_chats listed_chats) as (_ & _ & Hl);
    [done|vm_compute; reflexivity|vm_compute; reflexivity|]. exact Hl.
Defined.
