(* ===== verification/ChatStream.v ===== *)
(** * internal/httpapi/chat_completion_stream_store.go

    A streamed chat completion that is to be stored is captured line by line
    while it is passed on; at the end the document an unstreamed request would
    have got is put together from the chunks.

    The builders a choice holds by pointer are its fields, written back into
    the map of choices after each step.  Chunks are decoded into
    [map[string]any], so a number is a float64; converting one outside the
    range of int64 is left open by the language, and a parameter. *)

From S2P Require Import Prelude GoStr GoFloat GoJson JsonFacts StrFacts GoInt World Items Normalize Chat.

Class FloatConversion := { float_overflow : float64 -> Z }.

(** [int64(f)] *)
Definition float_int `{FloatConversion} (f : float64) : Z :=
  let magnitude := (if 0 <=? f_exp f then f_mant f * 2 ^ f_exp f else f_mant f / 2 ^ (- f_exp f))%Z in
  let z := (if f_neg f then - magnitude else magnitude)%Z in
  if is_int z then z else float_overflow f.

Record chatCompletionStreamFunctionCall := { fc_name : string; fc_arguments : string }.

Record chatCompletionStreamToolCall := {
  tc_index : Z;
  tc_id : string;
  tc_kind : string;
  tc_function : option chatCompletionStreamFunctionCall
}.

Record chatCompletionStreamChoice := {
  ch_index : Z;
  ch_role : string;
  ch_content : string;
  ch_refusal : string;
  ch_finishReason : gval;
  ch_logprobs : gval;
  ch_functionCall : option chatCompletionStreamFunctionCall;
  ch_toolCalls : gmap Z chatCompletionStreamToolCall
}.

Record chatCompletionStreamStoreCapture := {
  cc_err : option goerr;
  cc_done : bool;
  cc_capturedBytes : Z;
  cc_id : string;
  cc_model_ : string;
  cc_created : Z;
  cc_requestID : string;
  cc_systemFingerprint : string;
  cc_serviceTier : gval;
  cc_usage : gval;
  cc_choices : gmap Z chatCompletionStreamChoice
}.

Definition maxChatCompletionStreamStoreCaptureBytes : Z := 8 * 1024 * 1024.

Definition newChatCompletionStreamStoreCapture (requestID : string) : chatCompletionStreamStoreCapture :=
  {| cc_err := None; cc_done := false; cc_capturedBytes := 0; cc_id := ""; cc_model_ := ""; cc_created := 0;
     cc_requestID := TrimSpace requestID; cc_systemFingerprint := ""; cc_serviceTier := GNull;
     cc_usage := GNull; cc_choices := ∅ |}.

Definition set_err (e : goerr) (c : chatCompletionStreamStoreCapture) :=
  {| cc_err := Some e; cc_done := cc_done c; cc_capturedBytes := cc_capturedBytes c; cc_id := cc_id c;
     cc_model_ := cc_model_ c; cc_created := cc_created c; cc_requestID := cc_requestID c;
     cc_systemFingerprint := cc_systemFingerprint c; cc_serviceTier := cc_serviceTier c;
     cc_usage := cc_usage c; cc_choices := cc_choices c |}.
Definition set_done (c : chatCompletionStreamStoreCapture) :=
  {| cc_err := cc_err c; cc_done := true; cc_capturedBytes := cc_capturedBytes c; cc_id := cc_id c;
     cc_model_ := cc_model_ c; cc_created := cc_created c; cc_requestID := cc_requestID c;
     cc_systemFingerprint := cc_systemFingerprint c; cc_serviceTier := cc_serviceTier c;
     cc_usage := cc_usage c; cc_choices := cc_choices c |}.
Definition set_bytes (n : Z) (c : chatCompletionStreamStoreCapture) :=
  {| cc_err := cc_err c; cc_done := cc_done c; cc_capturedBytes := n; cc_id := cc_id c;
     cc_model_ := cc_model_ c; cc_created := cc_created c; cc_requestID := cc_requestID c;
     cc_systemFingerprint := cc_systemFingerprint c; cc_serviceTier := cc_serviceTier c;
     cc_usage := cc_usage c; cc_choices := cc_choices c |}.
Definition set_choice (i : Z) (choice : chatCompletionStreamChoice) (c : chatCompletionStreamStoreCapture) :=
  {| cc_err := cc_err c; cc_done := cc_done c; cc_capturedBytes := cc_capturedBytes c; cc_id := cc_id c;
     cc_model_ := cc_model_ c; cc_created := cc_created c; cc_requestID := cc_requestID c;
     cc_systemFingerprint := cc_systemFingerprint c; cc_serviceTier := cc_serviceTier c;
     cc_usage := cc_usage c; cc_choices := <[i := choice]> (cc_choices c) |}.

(** ** Values *)

Definition anyString (value : option gval) : string :=
  match value with Some (GStr text) => text | _ => "" end.

Definition firstNonEmpty (values : list string) : string :=
  default "" (head (filter (fun value => TrimSpace value <> "") values)).

Definition numberOrDefault (value : option gval) (fallback : float64) : float64 :=
  match value with Some (GNum f) => f | _ => fallback end.

Section capture.
Context `{FloatConversion}.

Definition anyInt (value : option gval) : option Z :=
  match value with Some (GNum f) => Some (float_int f) | _ => None end.
Definition anyInt64 (value : option gval) : option Z := anyInt value.

(** ** Writing into builders *)

Definition writeString (c : chatCompletionStreamStoreCapture) (builder value : string)
    : chatCompletionStreamStoreCapture * string :=
  if decide (cc_err c <> None \/ value = "") then (c, builder)
  else
    let next := (cc_capturedBytes c + Z.of_nat (String.length value))%Z in
    if (maxChatCompletionStreamStoreCaptureBytes <? next)%Z then
      (set_err (EMsg "chat completion stream capture exceeded 8388608 bytes") c, builder)
    else (set_bytes next c, builder +:+ value).

Definition emptyCall : chatCompletionStreamFunctionCall := {| fc_name := ""; fc_arguments := "" |}.

Definition mergeFunctionCall (c : chatCompletionStreamStoreCapture)
    (target : chatCompletionStreamFunctionCall) (payload : list (string * gval))
    : chatCompletionStreamStoreCapture * chatCompletionStreamFunctionCall :=
  let '(c, name) := writeString c (fc_name target) (anyString (am_lookup "name" payload)) in
  if decide (cc_err c <> None) then (c, {| fc_name := name; fc_arguments := fc_arguments target |})
  else
    let '(c, arguments) := writeString c (fc_arguments target) (anyString (am_lookup "arguments" payload)) in
    (c, {| fc_name := name; fc_arguments := arguments |}).

(** ** Choices *)

Definition newChoice (index : Z) : chatCompletionStreamChoice :=
  {| ch_index := index; ch_role := ""; ch_content := ""; ch_refusal := ""; ch_finishReason := GNull;
     ch_logprobs := GNull; ch_functionCall := None; ch_toolCalls := ∅ |}.

(** [c.choice(index)] *)
Definition choice_at (c : chatCompletionStreamStoreCapture) (index : Z) : chatCompletionStreamChoice :=
  default (newChoice index) (cc_choices c !! index).

Definition set_role (role : string) (x : chatCompletionStreamChoice) :=
  {| ch_index := ch_index x; ch_role := role; ch_content := ch_content x; ch_refusal := ch_refusal x;
     ch_finishReason := ch_finishReason x; ch_logprobs := ch_logprobs x;
     ch_functionCall := ch_functionCall x; ch_toolCalls := ch_toolCalls x |}.
Definition set_content (text : string) (x : chatCompletionStreamChoice) :=
  {| ch_index := ch_index x; ch_role := ch_role x; ch_content := text; ch_refusal := ch_refusal x;
     ch_finishReason := ch_finishReason x; ch_logprobs := ch_logprobs x;
     ch_functionCall := ch_functionCall x; ch_toolCalls := ch_toolCalls x |}.
Definition set_refusal (text : string) (x : chatCompletionStreamChoice) :=
  {| ch_index := ch_index x; ch_role := ch_role x; ch_content := ch_content x; ch_refusal := text;
     ch_finishReason := ch_finishReason x; ch_logprobs := ch_logprobs x;
     ch_functionCall := ch_functionCall x; ch_toolCalls := ch_toolCalls x |}.
Definition set_finish (finish logprobs : gval) (x : chatCompletionStreamChoice) :=
  {| ch_index := ch_index x; ch_role := ch_role x; ch_content := ch_content x; ch_refusal := ch_refusal x;
     ch_finishReason := finish; ch_logprobs := logprobs;
     ch_functionCall := ch_functionCall x; ch_toolCalls := ch_toolCalls x |}.
Definition set_call (call : option chatCompletionStreamFunctionCall) (x : chatCompletionStreamChoice) :=
  {| ch_index := ch_index x; ch_role := ch_role x; ch_content := ch_content x; ch_refusal := ch_refusal x;
     ch_finishReason := ch_finishReason x; ch_logprobs := ch_logprobs x;
     ch_functionCall := call; ch_toolCalls := ch_toolCalls x |}.
Definition set_tool (i : Z) (tool : chatCompletionStreamToolCall) (x : chatCompletionStreamChoice) :=
  {| ch_index := ch_index x; ch_role := ch_role x; ch_content := ch_content x; ch_refusal := ch_refusal x;
     ch_finishReason := ch_finishReason x; ch_logprobs := ch_logprobs x;
     ch_functionCall := ch_functionCall x; ch_toolCalls := <[i := tool]> (ch_toolCalls x) |}.

Definition capture_state : Type := chatCompletionStreamStoreCapture * chatCompletionStreamChoice.

(** The next step of captureChunk, unless the capture has failed. *)
Definition unless_err (s : capture_state) (step : capture_state -> capture_state) : capture_state :=
  if decide (cc_err s.1 <> None) then s else step s.

Definition step_content (delta : list (string * gval)) (s : capture_state) : capture_state :=
  let '(c, text) := writeString s.1 (ch_content s.2) (anyString (am_lookup "content" delta)) in
  (c, set_content text s.2).

Definition step_refusal (delta : list (string * gval)) (s : capture_state) : capture_state :=
  let '(c, text) := writeString s.1 (ch_refusal s.2) (anyString (am_lookup "refusal" delta)) in
  (c, set_refusal text s.2).

Definition step_function (delta : list (string * gval)) (s : capture_state) : capture_state :=
  match am_lookup "function_call" delta with
  | Some (GMap functionCall) =>
      let '(c, call) := mergeFunctionCall s.1 (default emptyCall (ch_functionCall s.2)) functionCall in
      (c, set_call (Some call) s.2)
  | _ => s
  end.

(** The body of the loop over the tool calls of a delta. *)
Definition capture_tool_call (s : capture_state) (rawToolCall : gval) : capture_state :=
  match rawToolCall with
  | GMap payload =>
      let index := default (Z.of_nat (size (ch_toolCalls s.2))) (anyInt (am_lookup "index" payload)) in
      let toolCall := default {| tc_index := index; tc_id := ""; tc_kind := ""; tc_function := None |}
                        (ch_toolCalls s.2 !! index) in
      let id := TrimSpace (anyString (am_lookup "id" payload)) in
      let kind := TrimSpace (anyString (am_lookup "type" payload)) in
      let id := if decide (id = "") then tc_id toolCall else id in
      let kind := if decide (kind = "") then tc_kind toolCall else kind in
      let '(c, function) :=
        match am_lookup "function" payload with
        | Some (GMap functionPayload) =>
            let '(c, call) := mergeFunctionCall s.1 (default emptyCall (tc_function toolCall)) functionPayload in
            (c, Some call)
        | _ => (s.1, tc_function toolCall)
        end in
      (c, set_tool index {| tc_index := tc_index toolCall; tc_id := id; tc_kind := kind; tc_function := function |} s.2)
  | _ => s
  end.

Definition step_tools (delta : list (string * gval)) (s : capture_state) : capture_state :=
  match am_lookup "tool_calls" delta with
  | Some (GArr rawToolCalls) => foldl (fun s raw => unless_err s (fun s => capture_tool_call s raw)) s rawToolCalls
  | _ => s
  end.

(** What a delta adds to its choice. *)
Definition capture_delta (delta : list (string * gval)) (s : capture_state) : capture_state :=
  let role := TrimSpace (anyString (am_lookup "role" delta)) in
  let s := (s.1, if decide (role = "") then s.2 else set_role role s.2) in
  let s := step_content delta s in
  let s := unless_err s (step_refusal delta) in
  let s := unless_err s (step_function delta) in
  unless_err s (step_tools delta).

(** The body of the loop over the choices of a chunk. *)
Definition capture_choice (c : chatCompletionStreamStoreCapture) (rawChoice : gval)
    : chatCompletionStreamStoreCapture :=
  match rawChoice with
  | GMap payload =>
      let index := default 0%Z (anyInt (am_lookup "index" payload)) in
      let choice := choice_at c index in
      let finish := match am_lookup "finish_reason" payload with
                    | None | Some GNull => ch_finishReason choice | Some reason => reason end in
      let logprobs := default (ch_logprobs choice) (am_lookup "logprobs" payload) in
      let choice := set_finish finish logprobs choice in
      let '(c, choice) := match am_lookup "delta" payload with
                          | Some (GMap delta) => capture_delta delta (c, choice)
                          | _ => (c, choice)
                          end in
      set_choice index choice c
  | _ => c
  end.

(** The fields of a chunk outside its choices. *)
Definition capture_header (c : chatCompletionStreamStoreCapture) (chunk : list (string * gval))
    : chatCompletionStreamStoreCapture :=
  let id := TrimSpace (anyString (am_lookup "id" chunk)) in
  let model := TrimSpace (anyString (am_lookup "model" chunk)) in
  let fingerprint := TrimSpace (anyString (am_lookup "system_fingerprint" chunk)) in
  {| cc_err := cc_err c; cc_done := cc_done c; cc_capturedBytes := cc_capturedBytes c;
     cc_id := if decide (id = "") then cc_id c else id;
     cc_model_ := if decide (model = "") then cc_model_ c else model;
     cc_created := default (cc_created c) (anyInt64 (am_lookup "created" chunk));
     cc_requestID := cc_requestID c;
     cc_systemFingerprint := if decide (fingerprint = "") then cc_systemFingerprint c else fingerprint;
     cc_serviceTier := default (cc_serviceTier c) (am_lookup "service_tier" chunk);
     cc_usage := match am_lookup "usage" chunk with None | Some GNull => cc_usage c | Some usage => usage end;
     cc_choices := cc_choices c |}.

Definition captureChunk (c : chatCompletionStreamStoreCapture) (chunk : list (string * gval))
    : chatCompletionStreamStoreCapture :=
  let c := capture_header c chunk in
  match am_lookup "choices" chunk with
  | Some (GArr rawChoices) =>
      foldl (fun c raw => if decide (cc_err c <> None) then c else capture_choice c raw) c rawChoices
  | _ => c
  end.

Definition CaptureLine (c : chatCompletionStreamStoreCapture) (line : string)
    : chatCompletionStreamStoreCapture :=
  if decide (cc_err c <> None) then c
  else match strip "data:" line with
  | None => c
  | Some rest =>
      let payload := TrimSpace rest in
      if decide (payload = "") then c
      else if decide (payload = "[DONE]") then set_done c
      else match jparse payload ≫= any_map with
           | None => set_err (EWrap "decode chat completion chunk" (EDecode "chunk")) c
           | Some chunk => captureChunk c (default [] chunk)
           end
  end.

(** ** The document *)

Definition json_any (value : option gval) : json := of_any (default GNull value).

Definition reconstructed_call (call : option chatCompletionStreamFunctionCall) : option json :=
  match call with
  | None => None
  | Some f =>
      if decide (TrimSpace (fc_name f) = "" /\ TrimSpace (fc_arguments f) = "") then None
      else Some (json_map [("name", json_str (fc_name f)); ("arguments", json_str (fc_arguments f))])
  end.

Definition z_le (a b : Z) : bool := (a <=? b)%Z.
Definition sorted_indexes {V} (m : gmap Z V) : list Z := sort_by z_le (map fst (map_to_list m)).

Definition tool_call_json (toolCall : chatCompletionStreamToolCall) : json :=
  json_map ([("id", json_str (tc_id toolCall)); ("type", json_str (firstNonEmpty [tc_kind toolCall; "function"]))]
            ++ match reconstructed_call (tc_function toolCall) with
               | Some function => [("function", function)] | None => [] end).

Definition reconstructedToolCalls (x : chatCompletionStreamChoice) : json :=
  if decide (ch_toolCalls x = ∅) then JNull
  else JArr (omap (fun i => tool_call_json <$> ch_toolCalls x !! i) (sorted_indexes (ch_toolCalls x))).

Definition contentOrNil (x : chatCompletionStreamChoice) : json :=
  if decide (ch_content x <> "") then json_str (ch_content x)
  else if decide (ch_toolCalls x <> ∅ \/ ch_functionCall x <> None) then JNull
  else json_str "".

Definition roleOrDefault (x : chatCompletionStreamChoice) : string :=
  if decide (TrimSpace (ch_role x) = "") then "assistant" else ch_role x.

Definition choice_json (x : chatCompletionStreamChoice) : json :=
  let refusal := TrimSpace (ch_refusal x) in
  let message := json_map
    ([("role", json_str (roleOrDefault x)); ("content", contentOrNil x);
      ("tool_calls", reconstructedToolCalls x);
      ("function_call", default JNull (reconstructed_call (ch_functionCall x)))]
     ++ if decide (refusal = "") then [] else [("refusal", json_str refusal)]) in
  json_map [("index", json_int (ch_index x)); ("message", message);
            ("finish_reason", of_any (ch_finishReason x)); ("logprobs", of_any (ch_logprobs x))].

Definition reconstructedChoices (c : chatCompletionStreamStoreCapture) : list json :=
  omap (fun i => choice_json <$> cc_choices c !! i) (sorted_indexes (cc_choices c)).

Definition float_zero : float64 := {| f_neg := false; f_mant := 0; f_exp := 0 |}.
Definition float_one : float64 := default float_zero (literal_float "1").

Context `{MapOrder}.

Definition request_metadata (request : list (string * gval)) : res (list (string * string)) :=
  NormalizeResponseMetadata
    (match am_lookup "metadata" request with Some metadata => jprint (of_any metadata) | None => "" end).

Definition response_json (c : chatCompletionStreamStoreCapture) (model : string)
    (request : list (string * gval)) (metadata : list (string * string)) : json :=
  let field name := json_any (am_lookup name request) in
  let number name fallback := JNum (float_text (numberOrDefault (am_lookup name request) fallback)) in
  json_map
    ([("id", json_str (cc_id c)); ("object", json_str "chat.completion"); ("created", json_int (cc_created c));
      ("model", json_str model); ("choices", JArr (reconstructedChoices c)); ("usage", of_any (cc_usage c));
      ("metadata", string_map_json metadata); ("tool_choice", field "tool_choice");
      ("temperature", number "temperature" float_one); ("top_p", number "top_p" float_one);
      ("presence_penalty", number "presence_penalty" float_zero);
      ("frequency_penalty", number "frequency_penalty" float_zero);
      ("tools", field "tools"); ("response_format", field "response_format"); ("input_user", field "user");
      ("system_fingerprint", if decide (TrimSpace (cc_systemFingerprint c) = "") then JNull
                             else json_str (cc_systemFingerprint c))]
     ++ (if decide (TrimSpace (cc_requestID c) = "") then [] else [("request_id", json_str (cc_requestID c))])
     ++ (match cc_serviceTier c with GNull => [] | tier => [("service_tier", of_any tier)] end)
     ++ (match am_lookup "seed" request with Some seed => [("seed", of_any seed)] | None => [] end)).

Definition ReconstructedResponse (c : chatCompletionStreamStoreCapture) (requestBody : string) : res string :=
  match cc_err c with
  | Some e => Err e
  | None =>
      if negb (cc_done c) then Err (EMsg "stream capture incomplete")
      else if decide (TrimSpace (cc_id c) = "") then Err (EMsg "chat completion stream id missing")
      else if decide (cc_created c = 0%Z) then Err (EMsg "chat completion stream created missing")
      else match jparse requestBody ≫= any_map with
      | None => Err (EWrap "decode chat completion request" (EDecode "request"))
      | Some request =>
          let request := default [] request in
          metadata ← wrap_err "normalize chat completion metadata" (request_metadata request);
          let model := TrimSpace (cc_model_ c) in
          let model := if decide (model = "") then TrimSpace (anyString (am_lookup "model" request)) else model in
          if decide (model = "") then Err (EMsg "chat completion stream model missing")
          else wrap_err "compact reconstructed chat completion"
                 (CompactJSON (jprint (response_json c model request metadata)))
      end
  end.
End capture.
