(* ===== verification/ChatStreamProps.v ===== *)
(** * What the captured stream comes to

    The texts of a captured stream are the concatenation of its deltas, choice
    by choice, and never exceed the limit of the capture. *)

From S2P Require Import Prelude GoStr GoFloat GoJson JsonFacts StrFacts GoInt World Items ItemFacts Normalize NormProps Chat ChatStream.

(** ** What the stream says *)

(** The chunk of a line, as CaptureLine decodes it. *)
Definition line_chunk (line : string) : list (string * gval) :=
  match strip "data:" line with
  | None => []
  | Some rest =>
      let payload := TrimSpace rest in
      if decide (payload = "" \/ payload = "[DONE]") then []
      else match jparse payload ≫= any_map with Some (Some chunk) => chunk | _ => [] end
  end.

Definition chunk_choices (chunk : list (string * gval)) : list gval :=
  match am_lookup "choices" chunk with Some (GArr choices) => choices | _ => [] end.

Section deltas.
Context `{FloatConversion}.

(** The text a choice of a chunk adds, with the index of the choice. *)
Definition choice_delta (rawChoice : gval) : option (Z * string) :=
  match rawChoice with
  | GMap payload =>
      Some (default 0%Z (anyInt (am_lookup "index" payload)),
            match am_lookup "delta" payload with
            | Some (GMap delta) => anyString (am_lookup "content" delta)
            | _ => ""
            end)
  | _ => None
  end.

(** The deltas of a stream, in order. *)
Definition stream_deltas (lines : list string) : list (Z * string) :=
  flat_map (fun line => flat_map (fun raw => option_list (choice_delta raw)) (chunk_choices (line_chunk line))) lines.

(** What the stream says in choice [i]. *)
Definition text_of (i : Z) (deltas : list (Z * string)) : string :=
  sconcat (map snd (filter (fun d => d.1 = i) deltas)).

(** ** Steps *)

Lemma writeString_ok c b v c' b' : writeString c b v = (c', b') ->
  cc_choices c' = cc_choices c /\ (cc_err c <> None -> cc_err c' <> None) /\
  (cc_err c' = None -> b' = b +:+ v).
Proof.
  unfold writeString. case_decide as Hd.
  - intros [= <- <-]. split; [done|]. split; [done|]. intros He.
    destruct Hd as [Hd| ->]; [done|]. by rewrite sapp_nil_r.
  - apply Decidable.not_or in Hd as [He _]. apply dec_stable in He.
    destruct (_ <? _)%Z; intros [= <- <-]; simpl; (split; [done|split; [done|done]]).
Qed.

(** Nothing happens to the texts of the choices, and an error stays. *)
Definition frame (s s' : capture_state) : Prop :=
  cc_choices s'.1 = cc_choices s.1 /\ ch_content s'.2 = ch_content s.2 /\ ch_index s'.2 = ch_index s.2 /\
  (cc_err s.1 <> None -> cc_err s'.1 <> None).

#[local] Instance frame_preorder : PreOrder frame.
Proof.
  split; [intros s; by unfold frame; split_and!|]. intros a b c (H1 & H2 & H3 & H4) (K1 & K2 & K3 & K4).
  unfold frame. split_and!; [congruence..|auto].
Qed.

Lemma mergeFunctionCall_frame c f payload c' f' x x' : mergeFunctionCall c f payload = (c', f') ->
  ch_content x' = ch_content x -> ch_index x' = ch_index x -> frame (c, x) (c', x').
Proof.
  unfold mergeFunctionCall. destruct (writeString c (fc_name f) _) as [c1 name] eqn:E1.
  apply writeString_ok in E1 as (H1 & H2 & _). intros Hm Hc Hi. case_decide.
  - injection Hm as <- <-. by unfold frame; split_and!.
  - destruct (writeString c1 _ _) as [c2 arguments] eqn:E2. injection Hm as <- <-.
    apply writeString_ok in E2 as (K1 & K2 & _). unfold frame. split_and!; simpl; [congruence|done|done|auto].
Qed.

Lemma unless_err_frame s step : (forall s, frame s (step s)) -> frame s (unless_err s step).
Proof. intros Hs. unfold unless_err. case_decide; [done|apply Hs]. Qed.

Lemma step_refusal_frame delta s : frame s (step_refusal delta s).
Proof.
  unfold step_refusal. destruct (writeString _ _ _) as [c text] eqn:E.
  apply writeString_ok in E as (H1 & H2 & _). by unfold frame; split_and!.
Qed.

Lemma step_function_frame delta s : frame s (step_function delta s).
Proof.
  unfold step_function. destruct (am_lookup _ _) as [[]|]; try done.
  destruct (mergeFunctionCall _ _ _) as [c call] eqn:E. destruct s as [c0 x].
  by apply (mergeFunctionCall_frame _ _ _ _ _ x _ E).
Qed.

Lemma capture_tool_call_frame s raw : frame s (capture_tool_call s raw).
Proof.
  destruct raw as [| | | | |payload]; try done. unfold capture_tool_call.
  set (i := default _ (anyInt _)). set (tool := default _ (ch_toolCalls s.2 !! i)). cbv zeta.
  destruct s as [c0 x]. destruct (am_lookup "function" payload) as [[| | | | |f]|]; try by unfold frame; split_and!.
  destruct (mergeFunctionCall _ _ _) as [c call] eqn:E.
  by apply (mergeFunctionCall_frame _ _ _ _ _ x _ E).
Qed.

Lemma step_tools_frame delta s : frame s (step_tools delta s).
Proof.
  unfold step_tools. destruct (am_lookup _ _) as [[| | | |l|]|]; try done.
  revert s. induction l as [|raw l IH]; intros s; simpl; [done|].
  etrans; [|apply IH]. apply unless_err_frame. intros s'. apply capture_tool_call_frame.
Qed.

(** A delta appends its content. *)
Lemma capture_delta_content delta s : cc_err (capture_delta delta s).1 = None ->
  cc_choices (capture_delta delta s).1 = cc_choices s.1 /\
  ch_index (capture_delta delta s).2 = ch_index s.2 /\
  ch_content (capture_delta delta s).2 = ch_content s.2 +:+ anyString (am_lookup "content" delta).
Proof.
  unfold capture_delta. cbv zeta. set (s0 := (s.1, _)). set (s1 := step_content delta s0).
  set (s' := unless_err _ (step_tools delta)). intros He.
  assert (Hf : frame s1 s').
  { subst s'. etrans; [apply unless_err_frame; apply step_refusal_frame|].
    etrans; [apply unless_err_frame; apply step_function_frame|]. apply unless_err_frame; apply step_tools_frame. }
  destruct Hf as (H1 & H2 & H3 & H4). rewrite H1, H2, H3.
  assert (He1 : cc_err s1.1 = None) by (apply dec_stable; intros Hn; by apply H4 in Hn).
  revert He1. subst s1 s0. unfold step_content.
  destruct (writeString _ _ _) as [c text] eqn:E. apply writeString_ok in E as (K1 & _ & K2). simpl in *.
  intros He1. split; [done|]. rewrite (K2 He1). by case_decide.
Qed.

(** An error stays. *)
Lemma capture_delta_err delta s : cc_err s.1 <> None -> cc_err (capture_delta delta s).1 <> None.
Proof.
  intros He. unfold capture_delta. cbv zeta. set (s0 := (s.1, _)).
  assert (Hs1 : cc_err (step_content delta s0).1 <> None).
  { unfold step_content. destruct (writeString _ _ _) as [c text] eqn:E.
    apply writeString_ok in E as (_ & H2 & _). by apply H2. }
  apply unless_err_frame; [apply step_tools_frame|].
  apply unless_err_frame; [apply step_function_frame|].
  by apply unless_err_frame; [apply step_refusal_frame|].
Qed.

(** ** What a capture holds *)

Definition content_at (c : chatCompletionStreamStoreCapture) (i : Z) : string :=
  default "" (ch_content <$> cc_choices c !! i).

(** Every choice is stored under its index. *)
Definition indexed (c : chatCompletionStreamStoreCapture) : Prop :=
  forall i x, cc_choices c !! i = Some x -> ch_index x = i.

(** [c'] is [c] after the deltas [ds], unless it failed. *)
Definition says (ds : list (Z * string)) (c c' : chatCompletionStreamStoreCapture) : Prop :=
  cc_err c' = None -> cc_err c = None /\
  (forall i, content_at c' i = content_at c i +:+ text_of i ds) /\
  (forall i, is_Some (cc_choices c' !! i) <-> is_Some (cc_choices c !! i) \/ i ∈ map fst ds) /\
  (indexed c -> indexed c').

Lemma text_of_app i ds ds' : text_of i (ds ++ ds') = text_of i ds +:+ text_of i ds'.
Proof. unfold text_of. by rewrite filter_app, map_app, sconcat_app. Qed.

Lemma says_nothing c c' : cc_err c' = cc_err c -> cc_choices c' = cc_choices c -> says [] c c'.
Proof.
  intros He Hc Hn. split; [congruence|]. unfold content_at, indexed. rewrite Hc.
  split; [intros i; by rewrite sapp_nil_r|]. split; [set_solver|done].
Qed.

Lemma says_failed ds c c' : cc_err c' <> None -> says ds c c'.
Proof. by intros Hn He. Qed.

Lemma says_app ds ds' c c1 c2 : says ds c c1 -> says ds' c1 c2 -> says (ds ++ ds') c c2.
Proof.
  intros H1 H2 He. destruct (H2 He) as (He1 & Ht2 & Hd2 & Hi2). destruct (H1 He1) as (He0 & Ht1 & Hd1 & Hi1).
  split; [done|]. split; [intros i; by rewrite Ht2, Ht1, text_of_app, sapp_assoc|]. split; [|auto].
  intros i. rewrite Hd2, Hd1, map_app, elem_of_app. tauto.
Qed.

Lemma says_fold {A} (f : chatCompletionStreamStoreCapture -> A -> chatCompletionStreamStoreCapture)
    (d : A -> list (Z * string)) l c :
  (forall c x, says (d x) c (f c x)) -> says (flat_map d l) c (foldl f c l).
Proof.
  intros Hf. revert c. induction l as [|x l IH]; intros c; simpl; [by apply says_nothing|].
  eapply says_app; [apply Hf|apply IH].
Qed.

Lemma choice_at_content c i : ch_content (choice_at c i) = content_at c i.
Proof. unfold choice_at, content_at. by destruct (cc_choices c !! i). Qed.

Lemma choice_at_index c i : indexed c -> ch_index (choice_at c i) = i.
Proof. intros Hi. unfold choice_at. destruct (cc_choices c !! i) as [x|] eqn:E; [by apply Hi|done]. Qed.

(** Storing the choice under its index. *)
Lemma set_choice_says c c' i x text : cc_err c' = cc_err c -> cc_choices c' = cc_choices c ->
  ch_content x = content_at c i +:+ text -> ch_index x = ch_index (choice_at c i) ->
  says [(i, text)] c (set_choice i x c').
Proof.
  intros He Hc Hx Hi Hn. simpl in Hn. split; [congruence|]. unfold content_at, indexed, text_of in *. simpl.
  rewrite Hc. split_and!.
  - intros j. destruct (decide (j = i)) as [->|Hne].
    + rewrite lookup_insert_eq, filter_cons_True by done. simpl. by rewrite Hx, sapp_nil_r.
    + rewrite lookup_insert_ne, filter_cons_False by done. simpl. by rewrite sapp_nil_r.
  - intros j. destruct (decide (j = i)) as [->|Hne].
    + rewrite lookup_insert_eq. split; [right; set_solver|by eexists].
    + rewrite lookup_insert_ne by done. set_solver.
  - intros Hind j y. destruct (decide (j = i)) as [->|Hne].
    + rewrite lookup_insert_eq. intros [= <-]. rewrite Hi. by apply choice_at_index.
    + rewrite lookup_insert_ne by done. apply Hind.
Qed.

Lemma capture_choice_says c raw : cc_err c = None -> says (option_list (choice_delta raw)) c (capture_choice c raw).
Proof.
  intros Hc0. destruct raw as [| | | | |payload]; try by apply says_nothing.
  unfold capture_choice, choice_delta. cbv zeta. set (i := default 0%Z _).
  set (x := set_finish _ _ _). assert (Hx : ch_content x = content_at c i) by apply choice_at_content.
  assert (Hix : ch_index x = ch_index (choice_at c i)) by done. clearbody x.
  assert (Hplain : says [(i, "")] c (set_choice i x c)).
  { apply set_choice_says; [done|done|by rewrite sapp_nil_r|done]. }
  destruct (am_lookup "delta" payload) as [[| | | | |delta]|]; try exact Hplain.
  pose proof (capture_delta_content delta (c, x)) as Hd.
  destruct (capture_delta delta (c, x)) as [c' x'] eqn:E. simpl in *.
  destruct (decide (cc_err c' = None)) as [He|He]; [|by apply says_failed].
  destruct (Hd He) as (K1 & K2 & K3).
  apply set_choice_says; [congruence|done|congruence|congruence].
Qed.

Lemma captureChunk_says c chunk : 
  says (flat_map (fun raw => option_list (choice_delta raw)) (chunk_choices chunk)) c (captureChunk c chunk).
Proof.
  unfold captureChunk, chunk_choices. cbv zeta.
  change (flat_map _ _) with ([] ++ flat_map (fun raw => option_list (choice_delta raw))
    (match am_lookup "choices" chunk with Some (GArr choices) => choices | _ => [] end)).
  apply (says_app _ _ c (capture_header c chunk)); [by apply says_nothing|].
  destruct (am_lookup "choices" chunk) as [[| | | |l|]|]; try by apply says_nothing.
  apply says_fold. intros c1 raw. case_decide as He; [by apply says_failed|].
  by apply capture_choice_says.
Qed.

Lemma CaptureLine_says c line :
  says (flat_map (fun raw => option_list (choice_delta raw)) (chunk_choices (line_chunk line))) c (CaptureLine c line).
Proof.
  unfold CaptureLine, line_chunk. case_decide as He; [by apply says_failed|].
  destruct (strip "data:" line) as [rest|]; [|by apply says_nothing]. cbv zeta.
  destruct (decide (TrimSpace rest = "")) as [E|E]; [rewrite decide_True by auto; by apply says_nothing|].
  destruct (decide (TrimSpace rest = "[DONE]")) as [E'|E']; [rewrite decide_True by auto; by apply says_nothing|].
  rewrite decide_False by tauto. destruct (jparse (TrimSpace rest) ≫= any_map) as [[chunk|]|]; simpl.
  - apply captureChunk_says.
  - apply (captureChunk_says c []).
  - by apply says_failed.
Qed.

(** The capture of a stream. *)
Definition capture_of (requestID : string) (lines : list string) : chatCompletionStreamStoreCapture :=
  foldl CaptureLine (newChatCompletionStreamStoreCapture requestID) lines.

Lemma capture_of_says requestID lines : cc_err (capture_of requestID lines) = None ->
  (forall i, content_at (capture_of requestID lines) i = text_of i (stream_deltas lines)) /\
  (forall i, is_Some (cc_choices (capture_of requestID lines) !! i) <-> i ∈ map fst (stream_deltas lines)) /\
  indexed (capture_of requestID lines).
Proof.
  intros He. destruct (says_fold CaptureLine _ lines (newChatCompletionStreamStoreCapture requestID)
    CaptureLine_says He) as (_ & Ht & Hd & Hi). split_and!.
  - intros i. by rewrite Ht.
  - intros i. rewrite Hd. simpl. rewrite lookup_empty, is_Some_alt. naive_solver.
  - apply Hi. intros i x. simpl. by rewrite lookup_empty.
Qed.
End deltas.

(** ** Decoded texts *)

Lemma gwf_lookup k m v : gwf_map m = true -> am_lookup k m = Some v -> gwf v = true.
Proof.
  intros [_ Hf]%andb_true_iff Hl%am_lookup_elem. rewrite forallb_forall in Hf.
  specialize (Hf (k, v) (proj1 (list_elem_of_In _ _) Hl)). by apply andb_true_iff in Hf as [_ ?].
Qed.

Lemma line_chunk_gwf line : gwf_map (line_chunk line) = true.
Proof.
  unfold line_chunk. destruct (strip "data:" line); [|done]. cbv zeta. case_decide; [done|].
  destruct (jparse _ ≫= any_map) as [[chunk|]|] eqn:E; [|done..].
  apply bind_Some in E as (t & _ & Ht). by apply any_map_gwf in Ht.
Qed.

Lemma anyString_valid k m : gwf_map m = true -> valid_utf8 (anyString (am_lookup k m)) = true.
Proof.
  intros Hm. destruct (am_lookup k m) as [v|] eqn:E; [|done]. apply gwf_lookup in E; [|done].
  by destruct v.
Qed.

Lemma sconcat_valid l : Forall (fun s => valid_utf8 s = true) l -> valid_utf8 (sconcat l) = true.
Proof. induction 1 as [|s l Hs Hl IH]; [done|]. simpl. by apply valid_utf8_app. Qed.

Lemma text_of_valid `{FloatConversion} i lines : valid_utf8 (text_of i (stream_deltas lines)) = true.
Proof.
  apply sconcat_valid, Forall_map, Forall_filtered, Forall_forall. intros [j text] Hin. simpl.
  apply list_elem_of_In, in_flat_map in Hin as (line & _ & Hin).
  apply in_flat_map in Hin as (raw & Hraw & Hin).
  unfold chunk_choices in Hraw. pose proof (line_chunk_gwf line) as Hw.
  destruct (am_lookup "choices" (line_chunk line)) as [[| | | |l|]|] eqn:E; try done.
  apply gwf_lookup in E; [|done]. simpl in E. rewrite forallb_forall in E. apply E in Hraw.
  destruct raw as [| | | | |payload]; try done. destruct Hin as [[= _ <-]|[]].
  destruct (am_lookup "delta" payload) as [[| | | | |delta]|] eqn:Ed; try done.
  apply gwf_lookup in Ed; [|done]. by apply anyString_valid.
Qed.

(** ** The document *)

Lemma reconstructed_call_wf call t : reconstructed_call call = Some t -> jwf t = true.
Proof.
  destruct call as [f|]; [|done]. simpl. case_decide; [done|]. intros Ht.
  assert (t = json_map [("name", json_str (fc_name f)); ("arguments", json_str (fc_arguments f))]) as -> by congruence.
  apply json_map_wf. repeat constructor; apply encode_body_valid.
Qed.

Lemma omap_wf {A} (f : A -> option json) l :
  (forall x t, f x = Some t -> jwf t = true) -> jwf (JArr (omap f l)) = true.
Proof.
  intros Hf. simpl. apply forallb_forall. intros t Hin%list_elem_of_In.
  apply list_elem_of_omap in Hin as (x & _ & Hx). eauto.
Qed.

Lemma tool_calls_wf x : jwf (reconstructedToolCalls x) = true.
Proof.
  unfold reconstructedToolCalls. case_decide; [done|]. apply omap_wf.
  intros i t (tool & _ & ->)%fmap_Some. apply json_map_wf, Forall_app. split.
  - repeat constructor; apply encode_body_valid.
  - destruct (reconstructed_call _) as [f|] eqn:E; [|constructor]. repeat constructor.
    by eapply reconstructed_call_wf.
Qed.

Lemma choice_json_wf x : jwf (choice_json x) = true.
Proof.
  apply json_map_wf. repeat constructor; [apply int_text_valid| |apply of_any_wf|apply of_any_wf].
  apply json_map_wf, Forall_app. split.
  - repeat constructor; [apply encode_body_valid| |apply tool_calls_wf|].
    + unfold contentOrNil. repeat case_decide; [apply encode_body_valid|done|done].
    + destruct (reconstructed_call _) eqn:E; [by eapply reconstructed_call_wf|done].
  - case_decide; [constructor|]. repeat constructor. apply encode_body_valid.
Qed.

Lemma response_json_wf `{MapOrder} c model request metadata : jwf (response_json c model request metadata) = true.
Proof.
  apply json_map_wf. repeat (apply Forall_app; split).
  - repeat constructor; try apply encode_body_valid; try apply of_any_wf; try apply int_text_valid;
      try apply float_text_valid.
    + apply omap_wf. intros i t (x & _ & ->)%fmap_Some. apply choice_json_wf.
    + apply string_members_jwf.
    + case_decide; [done|apply encode_body_valid].
  - case_decide; [constructor|]. repeat constructor. apply encode_body_valid.
  - destruct (cc_serviceTier c); repeat constructor; apply of_any_wf || apply (of_any_wf (GNum _)) || apply (of_any_wf (GStr _)).
  - destruct (am_lookup "seed" request); repeat constructor. apply of_any_wf.
Qed.

Lemma response_choices `{MapOrder} c model request metadata :
  member "choices" (response_json c model request metadata) = Some (JArr (reconstructedChoices c)).
Proof.
  unfold response_json. cbv zeta. rewrite member_json_map.
  - destruct (decide (TrimSpace (cc_requestID c) = "")), (cc_serviceTier c), (am_lookup "seed" request); reflexivity.
  - rewrite !forallb_app.
    destruct (decide (TrimSpace (cc_requestID c) = "")), (cc_serviceTier c), (am_lookup "seed" request); reflexivity.
Qed.

Lemma choice_members x :
  member "index" (choice_json x) = Some (json_int (ch_index x)) /\
  member "message" (choice_json x) ≫= member "content" = Some (contentOrNil x).
Proof.
  unfold choice_json. cbv zeta. rewrite !member_json_map by reflexivity. split; [reflexivity|].
  cbn [last_binding foldl fst snd]. simpl. rewrite member_json_map.
  - by case_decide.
  - by case_decide.
Qed.

(** ** Indexes in order *)

Lemma sorted_indexes_elem {V} (m : gmap Z V) i : i ∈ sorted_indexes m <-> is_Some (m !! i).
Proof.
  unfold sorted_indexes. rewrite sort_by_perm. split.
  - intros ([j v] & -> & Hin)%list_elem_of_fmap. apply elem_of_map_to_list in Hin. by exists v.
  - intros [v Hv]. apply list_elem_of_fmap. exists (i, v). split; [done|]. by apply elem_of_map_to_list.
Qed.

Lemma sorted_indexes_sorted {V} (m : gmap Z V) : StronglySorted Z.lt (sorted_indexes m).
Proof.
  assert (Hn : NoDup (sorted_indexes m)).
  { unfold sorted_indexes. rewrite sort_by_perm. exact (NoDup_fst_map_to_list m). }
  assert (Hs : StronglySorted (le_of z_le) (sorted_indexes m)).
  { apply sort_by_sorted; unfold z_le; intros; rewrite ?Z.leb_le in *; lia. }
  revert Hn. induction Hs as [|x l Hl IH Hx]; intros Hn; [constructor|]. apply NoDup_cons in Hn as [Hxn Hn].
  constructor; [auto|]. rewrite Forall_forall in *. intros y Hy. specialize (Hx y Hy).
  unfold le_of, z_le in Hx. apply Z.leb_le in Hx. assert (x <> y) by (intros ->; done). lia.
Qed.

Lemma omap_present {A B} (f : A -> option B) l : Forall (fun x => is_Some (f x)) l ->
  Forall2 (fun x y => f x = Some y) l (omap f l).
Proof.
  induction 1 as [|x l [y Hy] Hl IH]; simpl; [constructor|]. rewrite Hy. by constructor.
Qed.

Lemma contentOrNil_text x : valid_utf8 (ch_content x) = true ->
  (ch_content x <> "" -> any_of (contentOrNil x) = Some (GStr (ch_content x))) /\
  (ch_content x = "" -> contentOrNil x = JNull \/ contentOrNil x = json_str "").
Proof.
  intros Hv. unfold contentOrNil. split.
  - intros Hne. rewrite decide_True by done. simpl. by rewrite unquote_encode_valid.
  - intros He. rewrite decide_False by (by intros ?). case_decide; auto.
Qed.

(** C34 (refinement): the document put together from a stream has one choice for
    each index the stream mentions, in increasing order, whose text is the
    concatenation of the stream's content deltas for that index, in order;
    without any, the content is null or empty. *)
Theorem stream_content_reconstructed `{FloatConversion} `{MapOrder} requestID lines body out :
  ReconstructedResponse (capture_of requestID lines) body = Ok out ->
  exists indexes choices, StronglySorted Z.lt indexes /\
    (forall i, i ∈ indexes <-> i ∈ map fst (stream_deltas lines)) /\
    jparse out ≫= member "choices" = Some (JArr choices) /\
    Forall2 (fun i t => member "index" t = Some (json_int i) /\
      exists content, member "message" t ≫= member "content" = Some content /\
        (text_of i (stream_deltas lines) <> "" -> any_of content = Some (GStr (text_of i (stream_deltas lines)))) /\
        (text_of i (stream_deltas lines) = "" -> content = JNull \/ content = json_str "")) indexes choices.
Proof.
  intros Hr. set (c := capture_of requestID lines) in *. unfold ReconstructedResponse in Hr.
  destruct (cc_err c) as [e|] eqn:He; [done|]. destruct (negb (cc_done c)); [done|].
  do 2 (case_decide; [done|]). destruct (jparse body ≫= any_map) as [request|]; [|done].
  apply res_bind_ok in Hr as (metadata & _ & Hr). cbv zeta in Hr. case_decide; [done|].
  apply wrap_err_ok, of_option_ok in Hr. unfold Compact in Hr.
  rewrite jparse_jprint in Hr by apply response_json_wf. apply (inj Some) in Hr. subst out.
  destruct (capture_of_says requestID lines He) as (Ht & Hd & Hi). fold c in Ht, Hd, Hi.
  exists (sorted_indexes (cc_choices c)), (reconstructedChoices c).
  split; [apply sorted_indexes_sorted|]. split; [intros i; by rewrite sorted_indexes_elem|].
  rewrite jparse_jprint by apply response_json_wf. split; [apply response_choices|].
  eapply Forall2_impl; [apply omap_present, Forall_forall; intros i Hin%sorted_indexes_elem; by apply fmap_is_Some|].
  intros i t (x & Hx & ->)%fmap_Some. destruct (choice_members x) as [Hm1 Hm2].
  rewrite (Hi i x Hx) in Hm1. split; [exact Hm1|]. exists (contentOrNil x). split; [exact Hm2|].
  specialize (Ht i). unfold content_at in Ht. rewrite Hx in Ht. simpl in Ht. rewrite <-Ht.
  apply contentOrNil_text. rewrite Ht. apply text_of_valid.
Qed.

(** ** The limit *)

Definition text_len (s : string) : Z := Z.of_nat (String.length s).

Definition call_fits (n : Z) (f : chatCompletionStreamFunctionCall) : Prop :=
  (text_len (fc_name f) <= n /\ text_len (fc_arguments f) <= n)%Z.

(** No text of the choice is longer than [n]. *)
Definition choice_fits (n : Z) (x : chatCompletionStreamChoice) : Prop :=
  (text_len (ch_content x) <= n)%Z /\ (text_len (ch_refusal x) <= n)%Z /\
  (forall f, ch_functionCall x = Some f -> call_fits n f) /\
  (forall j tool f, ch_toolCalls x !! j = Some tool -> tc_function tool = Some f -> call_fits n f).

Definition capture_fits (c : chatCompletionStreamStoreCapture) : Prop :=
  (0 <= cc_capturedBytes c <= maxChatCompletionStreamStoreCaptureBytes)%Z /\
  forall i x, cc_choices c !! i = Some x -> choice_fits (cc_capturedBytes c) x.

Lemma call_fits_mono n m f : (n <= m)%Z -> call_fits n f -> call_fits m f.
Proof. unfold call_fits. lia. Qed.

Lemma choice_fits_mono n m x : (n <= m)%Z -> choice_fits n x -> choice_fits m x.
Proof.
  intros Hnm (H1 & H2 & H3 & H4). unfold choice_fits. split_and!; [lia|lia| |];
    intros; (eapply call_fits_mono; [exact Hnm|eauto]).
Qed.

(** The part of a capture the limit is about. *)
Definition bytes_step (c c' : chatCompletionStreamStoreCapture) : Prop :=
  cc_choices c' = cc_choices c /\ (cc_capturedBytes c <= cc_capturedBytes c')%Z /\
  ((cc_capturedBytes c <= maxChatCompletionStreamStoreCaptureBytes)%Z ->
   (cc_capturedBytes c' <= maxChatCompletionStreamStoreCaptureBytes)%Z).

Lemma writeString_fits c b v c' b' : writeString c b v = (c', b') ->
  (text_len b <= cc_capturedBytes c)%Z -> bytes_step c c' /\ (text_len b' <= cc_capturedBytes c')%Z.
Proof.
  unfold writeString, bytes_step. case_decide; [intros [= <- <-] Hb; split_and!; lia || done|].
  destruct (Z.ltb_spec maxChatCompletionStreamStoreCaptureBytes (cc_capturedBytes c + Z.of_nat (String.length v)));
    intros [= <- <-]; simpl; intros Hb; split_and!; try lia; try done.
  unfold text_len in *. rewrite slength_app. lia.
Qed.

Lemma mergeFunctionCall_fits c f payload c' f' : mergeFunctionCall c f payload = (c', f') ->
  call_fits (cc_capturedBytes c) f -> bytes_step c c' /\ call_fits (cc_capturedBytes c') f'.
Proof.
  unfold mergeFunctionCall, call_fits. intros Hm [Hn Ha].
  destruct (writeString c (fc_name f) _) as [c1 name] eqn:E1. apply writeString_fits in E1 as [(H1 & H2 & H3) H4]; [|done].
  case_decide.
  - injection Hm as <- <-. simpl. unfold bytes_step. split_and!; auto; lia.
  - destruct (writeString c1 _ _) as [c2 arguments] eqn:E2. injection Hm as <- <-.
    apply writeString_fits in E2 as [(K1 & K2 & K3) K4]; [|lia]. simpl. unfold bytes_step.
    split_and!; [congruence|lia|auto|lia|lia].
Qed.

(** A step keeps the choice at hand within the bytes captured. *)
Definition fits_step (s s' : capture_state) : Prop :=
  (0 <= cc_capturedBytes s.1)%Z -> choice_fits (cc_capturedBytes s.1) s.2 ->
  bytes_step s.1 s'.1 /\ choice_fits (cc_capturedBytes s'.1) s'.2.

#[local] Instance fits_step_preorder : PreOrder fits_step.
Proof.
  split; [intros s _ Hf; split; [unfold bytes_step; split_and!; lia || done|done]|].
  intros a b c Hab Hbc Hp Hf. destruct (Hab Hp Hf) as [(H1 & H2 & H3) H4].
  destruct (Hbc ltac:(lia) H4) as [(K1 & K2 & K3) K4]. split; [|done]. unfold bytes_step.
  split_and!; [congruence|lia|auto].
Qed.

Lemma unless_err_fits s step : (forall s, fits_step s (step s)) -> fits_step s (unless_err s step).
Proof. intros Hs. unfold unless_err. case_decide; [done|apply Hs]. Qed.

Lemma step_content_fits delta s : fits_step s (step_content delta s).
Proof.
  intros Hp (H1 & H2 & H3 & H4). unfold step_content. destruct (writeString _ _ _) as [c text] eqn:E.
  apply writeString_fits in E as [(K1 & K2 & K3) K4]; [|done]. split; [done|].
  destruct (choice_fits_mono (cc_capturedBytes s.1) (cc_capturedBytes c) s.2) as (_ & J2 & J3 & J4);
    [done|by split_and!|]. unfold choice_fits. by split_and!.
Qed.

Lemma step_refusal_fits delta s : fits_step s (step_refusal delta s).
Proof.
  intros Hp (H1 & H2 & H3 & H4). unfold step_refusal. destruct (writeString _ _ _) as [c text] eqn:E.
  apply writeString_fits in E as [(K1 & K2 & K3) K4]; [|done]. split; [done|].
  destruct (choice_fits_mono (cc_capturedBytes s.1) (cc_capturedBytes c) s.2) as (J1 & _ & J3 & J4);
    [done|by split_and!|]. unfold choice_fits. by split_and!.
Qed.

Lemma emptyCall_fits n : (0 <= n)%Z -> call_fits n emptyCall.
Proof. intros Hn. by split. Qed.

Lemma step_function_fits delta s : fits_step s (step_function delta s).
Proof.
  unfold step_function. destruct (am_lookup _ _) as [[| | | | |payload]|]; try done.
  intros Hp Hf. destruct (mergeFunctionCall _ _ _) as [c call] eqn:E.
  apply mergeFunctionCall_fits in E as [(K1 & K2 & K3) K4].
  - split; [done|]. destruct (choice_fits_mono _ (cc_capturedBytes c) _ K2 Hf) as (J1 & J2 & _ & J4).
    unfold choice_fits. split_and!; [done|done| |done]. by intros f [= <-].
  - destruct Hf as (_ & _ & H3 & _). destruct (ch_functionCall s.2) as [f|]; [by apply H3|by apply emptyCall_fits].
Qed.

(** A tool call whose function fits can be stored. *)
Lemma set_tool_fits n i tool x : choice_fits n x ->
  (forall f, tc_function tool = Some f -> call_fits n f) -> choice_fits n (set_tool i tool x).
Proof.
  intros (H1 & H2 & H3 & H4) Hf. unfold choice_fits. split_and!; [done|done|done|]. intros j t f. simpl.
  destruct (decide (j = i)) as [->|Hne]; [rewrite lookup_insert_eq; intros [= <-]; apply Hf|].
  rewrite lookup_insert_ne by done. apply H4.
Qed.

Section fits.
Context `{FloatConversion}.

Lemma capture_tool_call_fits s raw : fits_step s (capture_tool_call s raw).
Proof.
  destruct raw as [| | | | |payload]; try done. unfold capture_tool_call. cbv zeta.
  set (i := default _ (anyInt _)). set (tool := default _ (ch_toolCalls s.2 !! i)).
  intros Hp Hf. pose proof Hf as (_ & _ & _ & H4).
  assert (Htool : forall f, tc_function tool = Some f -> call_fits (cc_capturedBytes s.1) f).
  { subst tool. intros f. destruct (ch_toolCalls s.2 !! i) as [tool|] eqn:Et; [|done]. by apply (H4 i). }
  assert (Hsame : bytes_step s.1 s.1) by (unfold bytes_step; split_and!; lia || done).
  destruct (am_lookup "function" payload) as [[| | | | |f]|];
    try (split; [exact Hsame|by apply set_tool_fits]).
  destruct (mergeFunctionCall _ _ _) as [c call] eqn:E. apply mergeFunctionCall_fits in E as [(K1 & K2 & K3) K4].
  - split; [done|]. apply set_tool_fits; [by eapply choice_fits_mono|]. by intros g [= <-].
  - destruct (tc_function tool) as [g|]; [by apply Htool|by apply emptyCall_fits].
Qed.

Lemma step_tools_fits delta s : fits_step s (step_tools delta s).
Proof.
  unfold step_tools. destruct (am_lookup _ _) as [[| | | |l|]|]; try done.
  revert s. induction l as [|raw l IH]; intros s; simpl; [done|].
  etrans; [|apply IH]. apply unless_err_fits. intros s'. apply capture_tool_call_fits.
Qed.

Lemma capture_delta_fits delta s : fits_step s (capture_delta delta s).
Proof.
  unfold capture_delta. cbv zeta. set (s0 := (s.1, _)).
  assert (H0 : fits_step s s0).
  { intros Hp (H1 & H2 & H3 & H4). split; [unfold bytes_step; split_and!; lia || done|].
    subst s0. simpl. unfold choice_fits. case_decide; by split_and!. }
  etrans; [exact H0|]. etrans; [apply step_content_fits|].
  etrans; [apply unless_err_fits; apply step_refusal_fits|].
  etrans; [apply unless_err_fits; apply step_function_fits|]. apply unless_err_fits; apply step_tools_fits.
Qed.

Lemma set_choice_fits c c' i x : capture_fits c -> bytes_step c c' ->
  choice_fits (cc_capturedBytes c') x -> capture_fits (set_choice i x c').
Proof.
  intros [Hb Hc] (H1 & H2 & H3) Hx. split; [simpl; split; [lia|apply H3; lia]|]. intros j y. simpl.
  destruct (decide (j = i)) as [->|Hne]; [rewrite lookup_insert_eq; by intros [= <-]|].
  rewrite lookup_insert_ne, H1 by done. intros Hy. eapply choice_fits_mono; [exact H2|by eapply Hc].
Qed.

Lemma capture_choice_fits c raw : capture_fits c -> capture_fits (capture_choice c raw).
Proof.
  intros Hc. destruct raw as [| | | | |payload]; try done. unfold capture_choice. cbv zeta.
  set (i := default 0%Z _). set (x := set_finish _ _ _).
  assert (Hx : choice_fits (cc_capturedBytes c) x).
  { subst x. unfold choice_at. destruct Hc as [Hb Hc]. destruct (cc_choices c !! i) as [y|] eqn:E.
    - exact (Hc i y E).
    - unfold choice_fits, text_len. simpl. split_and!; [lia|lia|done|]. intros j tool f. by rewrite lookup_empty. }
  clearbody x. assert (Hsame : bytes_step c c) by (unfold bytes_step; split_and!; lia || done).
  destruct (am_lookup "delta" payload) as [[| | | | |delta]|]; try by apply (set_choice_fits c).
  destruct (capture_delta_fits delta (c, x)) as [Hs Hf]; [apply Hc|done|].
  destruct (capture_delta delta (c, x)) as [c' x']. by apply (set_choice_fits c).
Qed.

Lemma CaptureLine_fits c line : capture_fits c -> capture_fits (CaptureLine c line).
Proof.
  intros Hc. unfold CaptureLine. case_decide; [done|]. destruct (strip _ _); [|done]. cbv zeta.
  case_decide; [done|]. case_decide; [exact Hc|]. destruct (jparse _ ≫= any_map) as [chunk|]; [|exact Hc].
  unfold captureChunk. cbv zeta. destruct (am_lookup "choices" _) as [[| | | |l|]|]; try exact Hc.
  assert (Hh : capture_fits (capture_header c (default [] chunk))) by exact Hc.
  revert Hh. generalize (capture_header c (default [] chunk)). induction l as [|raw l IH]; intros c' Hc'; simpl; [done|].
  apply IH. case_decide; [done|by apply capture_choice_fits].
Qed.
End fits.

(** Fact (bounds): whatever the stream sends, each text the capture collects (the
    contents, refusals, and the names and arguments of calls) stays within the
    bytes it has counted, and those within the limit of 8 MiB. *)
Theorem capture_bounded `{FloatConversion} requestID lines :
  let c := capture_of requestID lines in
  (0 <= cc_capturedBytes c <= 8388608)%Z /\
  forall i x, cc_choices c !! i = Some x ->
    (text_len (ch_content x) <= cc_capturedBytes c)%Z /\ (text_len (ch_refusal x) <= cc_capturedBytes c)%Z /\
    (forall f, ch_functionCall x = Some f -> call_fits (cc_capturedBytes c) f) /\
    (forall j tool f, ch_toolCalls x !! j = Some tool -> tc_function tool = Some f ->
       call_fits (cc_capturedBytes c) f).
Proof.
  intros c. assert (Hc : capture_fits c); [|exact Hc]. subst c. unfold capture_of.
  assert (Hn : capture_fits (newChatCompletionStreamStoreCapture requestID)).
  { split; [vm_compute; split; discriminate|]. intros i x. simpl. by rewrite lookup_empty. }
  revert Hn. generalize (newChatCompletionStreamStoreCapture requestID).
  induction lines as [|line lines IH]; intros c Hc; simpl; [done|]. by apply IH, CaptureLine_fits.
Qed.

Definition amd64_conversion : FloatConversion := {| float_overflow _ := min_int |}.

Definition demo_stream : list string :=
  [sq "data: {'id':'chat_1','created':7,'model':'m','choices':[{'index':1,'delta':{'role':'assistant','content':'b'}},{'index':0,'delta':{'content':'He'}}]}";
   ""; sq "data: {'choices':[{'index':0,'delta':{'content':'llo'},'finish_reason':'stop'}]}"; "data: [DONE]"].

Lemma stream_content_reconstructed_witness :
  exists out, @ReconstructedResponse sorted_order (@capture_of amd64_conversion "" demo_stream) "{}" = Ok out /\
  exists indexes choices, StronglySorted Z.lt indexes /\
    (forall i, i ∈ indexes <-> i ∈ map fst (@stream_deltas amd64_conversion demo_stream)) /\
    jparse out ≫= member "choices" = Some (JArr choices) /\
    Forall2 (fun i t => member "index" t = Some (json_int i) /\
      exists content, member "message" t ≫= member "content" = Some content /\
        (text_of i (@stream_deltas amd64_conversion demo_stream) <> "" ->
         any_of content = Some (GStr (text_of i (@stream_deltas amd64_conversion demo_stream)))) /\
        (text_of i (@stream_deltas amd64_conversion demo_stream) = "" -> content = JNull \/ content = json_str ""))
      indexes choices.
Proof.
  destruct (@ReconstructedResponse sorted_order (@capture_of amd64_conversion "" demo_stream) "{}") as [out| |] eqn:E;
    [|vm_compute in E; discriminate..].
  exists out. split; [reflexivity|].
  exact (@stream_content_reconstructed amd64_conversion sorted_order "" demo_stream "{}" out E).
Defined.
