(* ===== verification/ApiErrors.v ===== *)
(** * internal/httpapi/errors.go and internal/httpapi/backend_failure_policy.go

    What a client is told of an error: the HTTP status, and the type, message,
    parameter and code of the error object.  Failures of the backend are
    classified first, by their type and then by the text of their message.

    The text of an error of a library is a parameter; contexts and messages of
    the program's own errors are those of the source. *)

From S2P Require Import Prelude GoStr GoFloat GoJson JsonFacts StrFacts GoInt GoTime World Items Normalize Context Store ConvService Compaction Compactor Memory ToolMarkup TextFormat Response LocalGen RespService.

Class LibraryText := { library_text : goerr -> string }.

(** [err.Error()] *)
Fixpoint error_text `{LibraryText} (e : goerr) : string :=
  match e with
  | EValidation _ message => message
  | EUnsupportedShape => "unsupported input shape"
  | ENotFound => "not found"
  | EConflict | ESvcConflict => "conflict"
  | ESvcNotFound => "resource not found"
  | EInvalidResponse message => message
  | EUpstreamTimeout message => if decide (message = "") then "llama upstream timeout" else message
  | EUpstream status message => "llama upstream returned " +:+ int_text status +:+ ": " +:+ message
  | ESvcUpstreamTimeout => "upstream timeout"
  | ESvcUpstreamFailure => "upstream failure"
  | ECanceled => "context canceled"
  | EDeadlineExceeded => "context deadline exceeded"
  | ERawMarkup _ => "model emitted raw tool-call markup"
  | EBodyTooLarge surface maxBytes =>
      (if decide (TrimSpace surface = "") then "upstream response" else TrimSpace surface)
      +:+ " body exceeded " +:+ int_text maxBytes +:+ " bytes"
  | EToolChoice message => TrimSpace message
  | ERateLimit message _ => if decide (TrimSpace message = "") then "rate limit exceeded" else message
  | ENet _ | EDecode _ | EConstraint _ | ELibrary _ => library_text e
  | EMsg message => message
  | EWrap ctx e => ctx +:+ ": " +:+ error_text e
  end.

(** ** backend_failure_policy.go *)

Inductive backendFailureClass :=
| backendFailureAuthFailure
| backendFailurePermissionFailure
| backendFailureQuotaExhausted
| backendFailureRateLimitRetryable
| backendFailureModelUnavailable
| backendFailureUnsupportedToolOrParam
| backendFailureTransportTimeout
| backendFailureStreamIdleTimeout
| backendFailureMalformedBackendResponse
| backendFailureBackendCapabilityMismatch
| backendFailureLocalRuntimeUnavailable
| backendFailureUpstreamServerError
| backendFailureTransportError
| backendFailureUnknown.

#[global] Instance backendFailureClass_eq_dec : EqDecision backendFailureClass.
Proof. solve_decision. Defined.

Record backendFailureDecision := {
  bf_Class : backendFailureClass;
  bf_Retryable : bool;
  bf_Cooldown : bool;
  bf_CooldownHintSeconds : Z;
  bf_FallbackAllowed : bool;
  bf_ClientStatus : Z;
  bf_ClientType : string;
  bf_ClientCode : string;
  bf_ClientMessage : string
}.

Definition looksLikeCapabilityMismatch (message : string) : bool :=
  Contains message "capability" || Contains message "not supported by backend" ||
  Contains message "incompatible backend" || Contains message "unsupported response format" ||
  Contains message "unsupported tool_choice".

Definition looksLikeUnsupportedToolOrParam (message : string) : bool :=
  Contains message "unsupported" || Contains message "unknown parameter" || Contains message "unknown field" ||
  Contains message "invalid tool" || Contains message "tool_choice is invalid" ||
  Contains message "invalid_request_error".

Definition classifyInvalidBackendResponse (message : string) : backendFailureClass :=
  let normalized := ToLower message in
  if looksLikeCapabilityMismatch normalized then backendFailureBackendCapabilityMismatch
  else if looksLikeUnsupportedToolOrParam normalized then backendFailureUnsupportedToolOrParam
  else backendFailureMalformedBackendResponse.

(** The cases of the switch that return; the others go on after it. *)
Definition status_failure (status : Z) (normalized : string) : option backendFailureClass :=
  if decide (status = 401%Z) then Some backendFailureAuthFailure
  else if decide (status = 403%Z) then Some backendFailurePermissionFailure
  else if decide (status = 429%Z) then
    Some (if Contains normalized "quota" || Contains normalized "billing" ||
             Contains normalized "insufficient_quota" || Contains normalized "credits"
          then backendFailureQuotaExhausted else backendFailureRateLimitRetryable)
  else if decide (status = 408%Z \/ status = 504%Z) then Some backendFailureTransportTimeout
  else if decide (status = 404%Z) then
    if Contains normalized "model" then Some backendFailureModelUnavailable else None
  else if decide (status = 400%Z \/ status = 422%Z \/ status = 501%Z) then
    if looksLikeCapabilityMismatch normalized then Some backendFailureBackendCapabilityMismatch
    else if looksLikeUnsupportedToolOrParam normalized then Some backendFailureUnsupportedToolOrParam
    else None
  else if decide (status = 503%Z) then
    if Contains normalized "overload" || Contains normalized "unavailable" ||
       Contains normalized "try again" || Contains normalized "slow down"
    then Some backendFailureModelUnavailable else None
  else None.

Definition classifyBackendHTTPFailure (status : Z) (message : string) : backendFailureClass :=
  match status_failure status (ToLower message) with
  | Some class => class
  | None => if (500 <=? status)%Z then backendFailureUpstreamServerError else backendFailureUnknown
  end.

Definition backendFailureDecisionFor (class : backendFailureClass) : backendFailureDecision :=
  let decision retryable cooldown seconds fallback status type code message :=
    {| bf_Class := class; bf_Retryable := retryable; bf_Cooldown := cooldown; bf_CooldownHintSeconds := seconds;
       bf_FallbackAllowed := fallback; bf_ClientStatus := status; bf_ClientType := type; bf_ClientCode := code;
       bf_ClientMessage := message |} in
  match class with
  | backendFailureAuthFailure =>
      decision false false 0%Z false 401%Z "authentication_error" "upstream_auth_failure" "upstream authentication failed"
  | backendFailurePermissionFailure =>
      decision false false 0%Z false 403%Z "permission_error" "upstream_permission_failure" "upstream permission denied"
  | backendFailureQuotaExhausted =>
      decision false true 900%Z false 429%Z "rate_limit_error" "insufficient_quota" "upstream quota exhausted"
  | backendFailureRateLimitRetryable =>
      decision true true 60%Z true 429%Z "rate_limit_error" "upstream_rate_limit" "upstream rate limit exceeded"
  | backendFailureModelUnavailable =>
      decision true true 30%Z true 502%Z "upstream_error" "model_unavailable" "upstream model is unavailable"
  | backendFailureUnsupportedToolOrParam =>
      decision false false 0%Z false 502%Z "upstream_error" "unsupported_tool_or_param" "upstream rejected a tool or parameter"
  | backendFailureTransportTimeout =>
      decision true true 15%Z true 504%Z "upstream_timeout_error" "upstream_timeout" "upstream request timed out"
  | backendFailureStreamIdleTimeout =>
      decision true true 15%Z true 504%Z "upstream_timeout_error" "upstream_stream_idle_timeout" "upstream stream timed out"
  | backendFailureMalformedBackendResponse =>
      decision true false 0%Z true 502%Z "upstream_error" "malformed_backend_response" "upstream returned a malformed response"
  | backendFailureBackendCapabilityMismatch =>
      decision false false 0%Z true 502%Z "upstream_error" "backend_capability_mismatch"
        "upstream backend does not support the requested capability"
  | backendFailureLocalRuntimeUnavailable =>
      decision false true 30%Z false 503%Z "service_unavailable" "local_runtime_unavailable" "local runtime is unavailable"
  | backendFailureTransportError =>
      decision true true 15%Z true 502%Z "upstream_error" "transport_error" "upstream transport failed"
  | backendFailureUnknown =>
      decision false false 0%Z false 502%Z "upstream_error" "unknown_backend_failure" "upstream request failed"
  | backendFailureUpstreamServerError =>
      decision true true 30%Z true 502%Z "upstream_error" "upstream_server_error" "upstream request failed"
  end.

Definition net_error (e : goerr) : option bool :=
  match e with ENet timeout => Some timeout | EDeadlineExceeded => Some true | _ => None end.
Definition body_too_large_error (e : goerr) : option unit :=
  match e with EBodyTooLarge _ _ => Some tt | _ => None end.
Definition raw_markup_error (e : goerr) : option unit :=
  match e with ERawMarkup _ => Some tt | _ => None end.

(** The first switch of classifyBackendFailure, on the type of the error. *)
Definition classify_by_type (e : goerr) : option backendFailureClass :=
  if errors_as timeout_error e is Some _ then Some backendFailureTransportTimeout
  else if errors_is ESvcUpstreamTimeout e || errors_is EDeadlineExceeded e ||
          default false (errors_as net_error e) then Some backendFailureTransportTimeout
  else match errors_as upstream_error e with
  | Some (status, message) => Some (classifyBackendHTTPFailure status message)
  | None =>
      if errors_as body_too_large_error e is Some _ then Some backendFailureMalformedBackendResponse
      else if errors_as raw_markup_error e is Some _ then Some backendFailureMalformedBackendResponse
      else match errors_as invalid_response_error e with
      | Some message => Some (classifyInvalidBackendResponse message)
      | None => if errors_is ESvcUpstreamFailure e then Some backendFailureUpstreamServerError else None
      end
  end.

(** The second one, on its text in lower case. *)
Definition classify_by_text (message : string) : option backendFailureClass :=
  if Contains message "stream idle timeout" then Some backendFailureStreamIdleTimeout
  else if Contains message "local runtime" && Contains message "not ready" then
    Some backendFailureLocalRuntimeUnavailable
  else if Contains message "raw tool-call markup" then Some backendFailureMalformedBackendResponse
  else if Contains message "unsupported" &&
          (Contains message "tool" || Contains message "parameter" || Contains message "param") then
    Some backendFailureUnsupportedToolOrParam
  else if Contains message "call llama:" then Some backendFailureTransportError
  else None.

Section errors.
Context `{LibraryText}.

Definition classifyBackendFailure (err : option goerr) : option backendFailureDecision :=
  match err with
  | None => None
  | Some e =>
      backendFailureDecisionFor <$>
        match classify_by_type e with
        | Some class => Some class
        | None => classify_by_text (ToLower (error_text e))
        end
  end.

(** ** errors.go *)

Record apiError := {
  ae_Message : string;
  ae_Type : string;
  ae_Param : option string;
  ae_Code : option string
}.

Definition optionalString (value : string) : option string := if decide (value = "") then None else Some value.

Definition newAPIError (errType message param code : string) : apiError :=
  {| ae_Message := message; ae_Type := errType; ae_Param := optionalString param; ae_Code := optionalString code |}.

(** The classes MapError answers from the decision. *)
Definition answered_by_policy (class : backendFailureClass) : bool :=
  match class with
  | backendFailureUnsupportedToolOrParam | backendFailureUpstreamServerError | backendFailureUnknown => false
  | _ => true
  end.

Definition validation_error (e : goerr) : option (string * string) :=
  match e with EValidation param message => Some (param, message) | _ => None end.
Definition tool_choice_error (e : goerr) : option goerr :=
  match e with EToolChoice _ => Some e | _ => None end.
Definition rate_limit_error (e : goerr) : option (goerr * string) :=
  match e with ERateLimit _ code => Some (e, code) | _ => None end.

(** The switch of MapError on the mapped error. *)
Definition map_error_switch (e : goerr) : Z * apiError :=
  match errors_as validation_error e with
  | Some (param, message) => (400%Z, newAPIError "invalid_request_error" message param "")
  | None =>
  match errors_as tool_choice_error e with
  | Some e => (501%Z, newAPIError "server_error" (error_text e) "tool_choice" "tool_choice_incompatible_backend")
  | None =>
  match errors_as rate_limit_error e with
  | Some (e, code) => (429%Z, newAPIError "rate_limit_error" (error_text e) "" code)
  | None =>
      if errors_is EUnsupportedShape e then
        (400%Z, newAPIError "invalid_request_error" (error_text EUnsupportedShape) "input" "")
      else if errors_is ENotFound e || errors_is ESvcNotFound e then
        (404%Z, newAPIError "not_found_error" (error_text e) "" "")
      else if errors_is EConflict e || errors_is ESvcConflict e then
        (409%Z, newAPIError "conflict_error" "conversation state changed during generation, retry the request" "" "")
      else if errors_is ESvcUpstreamTimeout e then
        (504%Z, newAPIError "upstream_timeout_error" "upstream request timed out" "" "")
      else if errors_is ESvcUpstreamFailure e then
        (502%Z, newAPIError "upstream_error" "upstream request failed" "" "")
      else (500%Z, newAPIError "internal_error" "internal server error" "" "")
  end end end.

Definition MapError (err : option goerr) : Z * apiError :=
  match err with
  | None => (200%Z, {| ae_Message := ""; ae_Type := ""; ae_Param := None; ae_Code := None |})
  | Some e =>
      match classifyBackendFailure (Some e) with
      | Some decision =>
          if answered_by_policy (bf_Class decision) then
            (bf_ClientStatus decision,
             newAPIError (bf_ClientType decision) (bf_ClientMessage decision) "" (bf_ClientCode decision))
          else map_error_switch (MapGeneratorError (MapStorageError e))
      | None => map_error_switch (MapGeneratorError (MapStorageError e))
      end
  end.
End errors.

Definition optional_json (s : option string) : json := match s with None => JNull | Some s => json_str s end.

Definition apiError_json (e : apiError) : json :=
  JObj [("message", json_str (ae_Message e)); ("type", json_str (ae_Type e));
        ("param", optional_json (ae_Param e)); ("code", optional_json (ae_Code e))].

(** ** Errors of an upstream server, in the form of the API *)

Definition any_text (value : gval) : string := match value with GStr text => text | _ => "" end.

(** [m[key]] of a map[string]any: nil when the key is missing. *)
Definition index_any (key : string) (m : list (string * gval)) : gval := default GNull (am_lookup key m).

(** The map with the four keys of an error. *)
Record api_fields := { af_message : gval; af_type : gval; af_param : gval; af_code : gval }.

Definition hasAPIErrorValue (value : gval) : bool :=
  match value with
  | GNull => false
  | GStr text => bool_decide (TrimSpace text <> "")
  | _ => true
  end.

Definition mergeAPIErrorFields (base : api_fields) (override : list (string * gval)) : api_fields :=
  let merged key value := match am_lookup key override with
                          | Some value' => if hasAPIErrorValue value' then value' else value
                          | None => value
                          end in
  {| af_message := merged "message" (af_message base); af_type := merged "type" (af_type base);
     af_param := merged "param" (af_param base); af_code := merged "code" (af_code base) |}.

(** The loop of extractEmbeddedJSONObject: how many bytes it reads until the
    brace that closes the object. *)
Fixpoint object_end (depth : Z) (inString escaped : bool) (s : string) : option nat :=
  match s with
  | "" => None
  | String ch s =>
      S <$> (if inString then
               if escaped then object_end depth true false s
               else if (code ch =? 92)%N then object_end depth true true s
               else if (code ch =? 34)%N then object_end depth false false s
               else object_end depth true false s
             else if (code ch =? 34)%N then object_end depth true escaped s
             else if (code ch =? 123)%N then object_end (depth + 1) false escaped s
             else if (code ch =? 125)%N then
               if (depth - 1 =? 0)%Z then Some 0 else object_end (depth - 1) false escaped s
             else object_end depth false escaped s)
  end.

Definition extractEmbeddedJSONObject (message : string) : option string :=
  let start := match Index message (sq "{'error'") with
               | Some start => Some start
               | None => Index message (sq "{'message'")
               end in
  match start with
  | None => None
  | Some start =>
      let rest := sdrop start message in
      (fun n => stake n rest) <$> object_end 0 false false rest
  end.

Definition extractEmbeddedAPIError (message : string) : option (list (string * gval)) :=
  embeddedJSON ← extractEmbeddedJSONObject message;
  payload ← jparse embeddedJSON ≫= any_map;
  match index_any "error" (default [] payload) with GMap errorPayload => Some errorPayload | _ => None end.

Definition normalizeAPIErrorType (status : Z) (raw : string) : string :=
  let normalized := ToLower (TrimSpace raw) in
  if decide (normalized ∈ ["invalid_request_error"; "server_error"; "not_found_error"; "conflict_error";
                           "rate_limit_error"; "authentication_error"; "permission_error"]) then normalized
  else if decide (normalized ∈ ["bad request"; "bad_request"]) then "invalid_request_error"
  else if decide (normalized ∈ ["not found"; "not_found"]) then "not_found_error"
  else if decide (normalized = "conflict") then "conflict_error"
  else if decide (normalized ∈ ["too many requests"; "rate limit"; "rate_limit"]) then "rate_limit_error"
  else if decide (normalized = "unauthorized") then "authentication_error"
  else if decide (normalized = "forbidden") then "permission_error"
  else if decide (normalized ∈ ["server error"; "internal server error"]) then "server_error"
  else if decide (status = 404%Z) then "not_found_error"
  else if decide (status = 409%Z) then "conflict_error"
  else if decide (status = 429%Z) then "rate_limit_error"
  else if (500 <=? status)%Z then "server_error"
  else "invalid_request_error".

Definition normalizeAPIErrorParam (raw : gval) : gval :=
  match raw with
  | GStr param => if decide (TrimSpace param = "") then GNull else GStr param
  | _ => GNull
  end.

(** A code that is a number, or the text of one, is dropped. *)
Definition normalizeAPIErrorCode (raw : gval) : gval :=
  match raw with
  | GStr value =>
      let trimmed := TrimSpace value in
      if decide (trimmed = "") then GNull
      else match Atoi trimmed with Some _ => GNull | None => GStr trimmed end
  | _ => GNull
  end.

(** The fields of an error, those of an error inside its message first. *)
Definition payload_fields (errorPayload : list (string * gval)) : api_fields :=
  let fields := {| af_message := index_any "message" errorPayload; af_type := index_any "type" errorPayload;
                   af_param := index_any "param" errorPayload; af_code := index_any "code" errorPayload |} in
  match extractEmbeddedAPIError (any_text (index_any "message" errorPayload)) with
  | Some embedded => mergeAPIErrorFields fields embedded
  | None => fields
  end.

Definition normalizeAPIErrorPayload (status : Z) (errorPayload : list (string * gval))
    : option (list (string * gval)) :=
  let fields := payload_fields errorPayload in
  let message := TrimSpace (any_text (af_message fields)) in
  if decide (message = "") then None
  else Some (am_of_list [("message", GStr message); ("type", GStr (normalizeAPIErrorType status (any_text (af_type fields))));
                         ("param", normalizeAPIErrorParam (af_param fields));
                         ("code", normalizeAPIErrorCode (af_code fields))]).

(** [Ok None] when the body is to be left as it is. *)
Definition canonicalizeAPIErrorBody (status : Z) (body : string) : res (option string) :=
  match jparse body ≫= any_map with
  | None => Err (EDecode "body")
  | Some payload =>
      let payload := default [] payload in
      match am_lookup "error" payload with
      | Some (GMap errorPayload) =>
          match normalizeAPIErrorPayload status errorPayload with
          | Some canonical => Ok (Some (jprint (of_any (GMap (am_insert "error" (GMap canonical) payload)))))
          | None => Ok None
          end
      | _ => Ok None
      end
  end.
