(* ===== verification/ApiErrorProps.v ===== *)
(** * What clients are told of errors

    An error object inside the text of an upstream message is found whole; the
    error a client gets has the documented form and no text of the upstream
    server; and which status it has. *)

From S2P Require Import Prelude GoStr GoFloat GoJson JsonFacts StrFacts GoInt GoTime World Items Normalize Context Store ConvService Compaction Compactor Memory ToolMarkup TextFormat Response LocalGen RespService ApiErrors.

(** ** The characters of a number *)

Definition num_char (a : ascii) : bool :=
  is_digit a || (code a =? 43)%N || (code a =? 45)%N || (code a =? 46)%N || (code a =? 69)%N || (code a =? 101)%N.

Lemma all_chars_mono (p q : ascii -> bool) s : (forall a, p a = true -> q a = true) ->
  all_chars p s = true -> all_chars q s = true.
Proof.
  intros Hpq. induction s as [|a s IH]; [done|]. simpl. intros [Ha Hs]%andb_true_iff. by rewrite Hpq, IH.
Qed.

Lemma digits_num_chars d : all_digits d = true -> all_chars num_char d = true.
Proof.
  induction d as [|a d IH]; [done|]. simpl. intros [Ha Hd]%andb_true_iff. rewrite IH by done.
  unfold num_char. by rewrite Ha.
Qed.

Lemma valid_num_chars l : valid_num l = true -> all_chars num_char l = true.
Proof.
  intros (_ & sg & i & f & e & -> & Hs & Hi & Hf & He)%bool_decide_eq_true%scan_num_inv.
  rewrite !all_chars_app, !andb_true_iff. split_and!.
  - by destruct Hs as [->| ->].
  - destruct Hi as [->|(a & d & -> & Ha & _ & Hd)]; [done|]. apply digits_num_chars. simpl. by rewrite Ha, Hd.
  - destruct Hf as [->|(d & -> & _ & Hd)]; [done|]. exact (digits_num_chars d Hd).
  - destruct He as [->|(a & sg' & d & -> & Ha & Hsg & _ & Hd)]; [done|]. simpl.
    rewrite all_chars_app, (digits_num_chars d), andb_true_r by done. apply andb_true_iff. split.
    + unfold num_char. destruct Ha as [-> | ->]; by rewrite ?orb_true_r.
    + by destruct Hsg as [->|[->| ->]].
Qed.

(** ** Finding the end of an object *)

(** Text between the braces of an object that the scan reads over. *)
Definition passes (s : string) : Prop := forall depth rest, (1 <= depth)%Z ->
  object_end depth false false (s +:+ rest) = (fun n => String.length s + n) <$> object_end depth false false rest.

Lemma fmap_add_0 (o : option nat) : (fun n => 0 + n) <$> o = o.
Proof. by destruct o. Qed.

Lemma passes_nil : passes "".
Proof. intros d rest _. symmetry. apply fmap_add_0. Qed.

Lemma passes_app s t : passes s -> passes t -> passes (s +:+ t).
Proof.
  intros Hs Ht d rest Hd. rewrite sapp_assoc, Hs, Ht, slength_app by done.
  destruct (object_end _ _ _ rest); simpl; [f_equal; lia|done].
Qed.

(** A character that is no quote and no brace. *)
Definition plain_char (a : ascii) : bool :=
  negb ((code a =? 34)%N || (code a =? 123)%N || (code a =? 125)%N).

Lemma passes_plain s : all_chars plain_char s = true -> passes s.
Proof.
  induction s as [|a s IH]; [intros; apply passes_nil|]. simpl. intros [Ha Hs]%andb_true_iff d rest Hd.
  unfold plain_char in Ha. rewrite negb_true_iff, !orb_false_iff in Ha. destruct Ha as [[H1 H2] H3].
  simpl. rewrite H1, H2, H3, IH by done. by destruct (object_end _ _ _ rest).
Qed.

Lemma object_end_lit l d rest : valid_lit l = true ->
  object_end d true false (l +:+ String dquote rest) =
  (fun n => S (String.length l + n)) <$> object_end d false false rest.
Proof.
  induction l as [l IH] using string_len_ind. destruct l as [|a s]; simpl.
  { intros _. by destruct (object_end _ _ _ rest). }
  assert (Hs : forall t, String.length t < S (String.length s) -> valid_lit t = true ->
    object_end d true false (t +:+ String dquote rest) =
      (fun n => S (String.length t + n)) <$> object_end d false false rest) by (intros; by apply IH).
  clear IH. destruct (N.eqb_spec (code a) 34) as [E|E]; [done|].
  assert (Hshift : forall k (o : option nat), S <$> ((fun n => S (k + n)) <$> o) = (fun n => S (S k + n)) <$> o)
    by (intros k [n|]; done).
  destruct (N.eqb_spec (code a) 92) as [E'|E'].
  - destruct s as [|b s2]; [done|]. simpl. destruct (is_simple_escape b).
    + intros Hv. rewrite (Hs s2) by (first [done|simpl; lia]). by rewrite !Hshift.
    + destruct (N.eqb_spec (code b) 117); [|done]. destruct s2 as [|h1 [|h2 [|h3 [|h4 s6]]]]; try done.
      rewrite !andb_true_iff. intros ((((H1 & H2) & H3) & H4) & Hv).
      assert (Hh : forall h, is_hex h = true -> (code h =? 92)%N = false /\ (code h =? 34)%N = false).
      { intros h. unfold is_hex, is_digit. rewrite !orb_true_iff, !in_rng_spec, !N.eqb_neq. lia. }
      apply Hh in H1 as [A1 B1]. apply Hh in H2 as [A2 B2]. apply Hh in H3 as [A3 B3]. apply Hh in H4 as [A4 B4].
      simpl. rewrite A1, B1, A2, B2, A3, B3, A4, B4. rewrite (Hs s6) by (first [done|simpl; lia]). by rewrite !Hshift.
  - rewrite andb_true_iff. intros [_ Hv]. rewrite (Hs s) by (first [done|lia]). by rewrite Hshift.
Qed.

Lemma passes_quoted l : valid_lit l = true -> passes (quoted l).
Proof.
  intros Hl d rest Hd. unfold quoted.
  trans (S <$> object_end d true false ((l +:+ char_string dquote) +:+ rest)); [reflexivity|].
  rewrite sapp_assoc. change (char_string dquote +:+ rest) with (String dquote rest).
  rewrite object_end_lit by done. simpl. rewrite slength_app. simpl.
  destruct (object_end _ _ _ rest); simpl; [f_equal; lia|done].
Qed.

Lemma passes_join l : Forall passes l -> passes (sjoin "," l).
Proof.
  induction 1 as [|x l Hx Hl IH]; [apply passes_nil|]. destruct l as [|y l]; [done|].
  rewrite sjoin_cons. apply passes_app; [done|]. apply passes_app; [by apply passes_plain|done].
Qed.

(** What a brace opens is read up to the brace that closes it. *)
Lemma object_end_braces s d rest : passes s -> (0 <= d)%Z ->
  object_end d false false ("{" +:+ s +:+ "}" +:+ rest) =
  (fun n => S (S (String.length s + n))) <$> if decide (d = 0%Z) then Some 0 else object_end d false false rest.
Proof.
  intros Hs Hd. trans (S <$> object_end (d + 1) false false (s +:+ "}" +:+ rest)); [reflexivity|]. rewrite Hs by lia.
  change (object_end (d + 1) false false ("}" +:+ rest))
    with (S <$> (if (d + 1 - 1 =? 0)%Z then Some 0 else object_end (d + 1 - 1) false false rest)).
  replace (d + 1 - 1)%Z with d by lia. destruct (Z.eqb_spec d 0) as [->|Hn].
  - rewrite decide_True by done. simpl. f_equal. lia.
  - rewrite decide_False by done. destruct (object_end _ _ _ rest); simpl; [f_equal; lia|done].
Qed.

Lemma passes_braces s : passes s -> passes ("{" +:+ s +:+ "}").
Proof.
  intros Hs d rest Hd. rewrite !sapp_assoc, object_end_braces by (done || lia).
  rewrite decide_False by lia. rewrite !slength_app. simpl.
  destruct (object_end _ _ _ rest); simpl; [f_equal; lia|done].
Qed.

Definition members_text (l : list (string * json)) : string :=
  sjoin "," (map (fun kv => quoted kv.1 +:+ ":" +:+ jprint kv.2) l).

Lemma passes_members l : forallb (fun kv => valid_lit kv.1 && jwf kv.2) l = true ->
  Forall (fun kv => jwf kv.2 = true -> passes (jprint kv.2)) l -> passes (members_text l).
Proof.
  intros Hw IH. apply passes_join, Forall_map, Forall_forall. intros [k v] Hin.
  rewrite Forall_forall in IH. rewrite forallb_forall in Hw.
  specialize (Hw (k, v) (proj1 (list_elem_of_In _ _) Hin)). cbn [fst snd] in *. apply andb_true_iff in Hw as [Hk Hv].
  apply passes_app; [by apply passes_quoted|]. apply passes_app; [by apply passes_plain|exact (IH (k, v) Hin Hv)].
Qed.

Lemma passes_jprint t : jwf t = true -> passes (jprint t).
Proof.
  induction t as [|b|l|l|l IH|l IH] using json_nested_ind; intros Hw.
  - by apply passes_plain.
  - destruct b; by apply passes_plain.
  - apply passes_plain. eapply all_chars_mono; [|by apply valid_num_chars]. intros a.
    unfold num_char, plain_char, is_digit. rewrite negb_true_iff, !orb_true_iff, !orb_false_iff, !in_rng_spec, !N.eqb_eq, !N.eqb_neq. lia.
  - by apply passes_quoted.
  - change (passes ("[" +:+ sjoin "," (map jprint l) +:+ "]")).
    apply passes_app; [by apply passes_plain|]. apply passes_app; [|by apply passes_plain].
    apply passes_join, Forall_map, Forall_forall. intros t Hin. rewrite Forall_forall in IH.
    simpl in Hw. rewrite forallb_forall in Hw. by apply IH, Hw, list_elem_of_In.
  - change (passes ("{" +:+ members_text l +:+ "}")). by apply passes_braces, passes_members.
Qed.

Lemma object_end_jprint l rest : jwf (JObj l) = true ->
  object_end 0 false false (jprint (JObj l) +:+ rest) = Some (String.length (jprint (JObj l))).
Proof.
  intros Hw. change (jprint (JObj l)) with ("{" +:+ members_text l +:+ "}").
  rewrite !sapp_assoc, object_end_braces; [|apply passes_members; [done|]|lia].
  - rewrite decide_True by done. rewrite !slength_app. simpl. f_equal. lia.
  - apply Forall_forall. intros kv _. apply passes_jprint.
Qed.

(** ** The embedded error *)

Definition no_brace (a : ascii) : bool := negb (code a =? 123)%N.

Lemma Index_here s sub : HasPrefix s sub = true -> Index s sub = Some 0.
Proof. intros Hp. destruct s; cbn [Index]; by rewrite Hp. Qed.

Lemma Index_braces before sub rest : all_chars no_brace before = true -> HasPrefix rest (String (chr 123) sub) = true ->
  Index (before +:+ rest) (String (chr 123) sub) = Some (String.length before).
Proof.
  induction before as [|a s IH]; intros Hb Hp.
  - change ("" +:+ rest) with rest. rewrite Index_here; done.
  - simpl in Hb. apply andb_true_iff in Hb as [Ha Hs]. rewrite sapp_cons. cbn [Index].
    replace (HasPrefix (String a (s +:+ rest)) (String (chr 123) sub)) with false.
    + rewrite IH by done. done.
    + symmetry. apply not_true_iff_false. intros [r Hr]%HasPrefix_spec. injection Hr as -> _. done.
Qed.

Lemma jprint_first_member v l : exists rest, jprint (JObj (("error", v) :: l)) = sq "{'error'" +:+ rest.
Proof.
  change (jprint (JObj (("error", v) :: l))) with ("{" +:+ members_text (("error", v) :: l) +:+ "}").
  unfold members_text. cbn [map]. destruct l as [|m l]; [eexists; reflexivity|].
  cbn [map]. rewrite sjoin_cons. eexists. reflexivity.
Qed.

Lemma extract_printed before v l after : all_chars no_brace before = true -> jwf (JObj (("error", v) :: l)) = true ->
  extractEmbeddedJSONObject (before +:+ jprint (JObj (("error", v) :: l)) +:+ after) =
  Some (jprint (JObj (("error", v) :: l))).
Proof.
  intros Hb Hw. unfold extractEmbeddedJSONObject. destruct (jprint_first_member v l) as [rest Hrest].
  change (sq "{'error'") with (String (chr 123) (sq "'error'")) at 1. rewrite Index_braces; [|done|].
  - rewrite (sdrop_app _ before) by done. rewrite object_end_jprint by done.
    cbn [fmap option_fmap option_map]. f_equal. by apply stake_app.
  - rewrite Hrest, sapp_assoc. apply HasPrefix_spec. eexists. reflexivity.
Qed.

Lemma extract_error before v l after m error : all_chars no_brace before = true ->
  jwf (JObj (("error", v) :: l)) = true -> any_map (JObj (("error", v) :: l)) = Some (Some m) ->
  am_lookup "error" m = Some (GMap error) ->
  extractEmbeddedAPIError (before +:+ jprint (JObj (("error", v) :: l)) +:+ after) = Some error.
Proof.
  intros Hb Hw Hm He. unfold extractEmbeddedAPIError. rewrite extract_printed by done.
  cbn [mbind option_bind]. rewrite jparse_jprint by done. cbn [mbind option_bind]. rewrite Hm.
  cbn [default]. unfold index_any. simpl. by rewrite He.
Qed.

(** Fact (roundtrip): when the message of an upstream error carries a printed
    error object, whatever text without braces precedes it and whatever
    follows, the object is found and its message is the one the client gets:
    braces and escaped quotes inside its strings do not end it early. *)
Theorem embedded_error_recovered status before v l after m error text outer :
  all_chars no_brace before = true -> jwf (JObj (("error", v) :: l)) = true ->
  any_map (JObj (("error", v) :: l)) = Some (Some m) -> am_lookup "error" m = Some (GMap error) ->
  am_lookup "message" error = Some (GStr text) -> TrimSpace text <> "" ->
  am_lookup "message" outer = Some (GStr (before +:+ jprint (JObj (("error", v) :: l)) +:+ after)) ->
  am_lookup "message" <$> normalizeAPIErrorPayload status outer = Some (Some (GStr (TrimSpace text))).
Proof.
  intros Hb Hw Hm He Ht Hn Ho. unfold normalizeAPIErrorPayload, payload_fields. cbv zeta.
  assert (Hi : index_any "message" outer = GStr (before +:+ jprint (JObj (("error", v) :: l)) +:+ after))
    by (unfold index_any; by rewrite Ho).
  rewrite Hi. cbn [any_text]. rewrite (extract_error before v l after m error) by done.
  unfold mergeAPIErrorFields. cbn [af_message]. rewrite Ht. cbn [hasAPIErrorValue].
  rewrite bool_decide_eq_true_2 by done. cbn [any_text]. rewrite decide_False by done. simpl. do 2 f_equal.
Qed.

Definition demo_inner : json :=
  JObj [("error", JObj [("message", JStr (encode_body (sq "a '}' in it "))); ("code", JNum "7")])].

Lemma embedded_error_recovered_witness :
  am_lookup "message" <$>
    normalizeAPIErrorPayload 400 [("message", GStr ("upstream said: " +:+ jprint demo_inner +:+ " (retry)"))]
  = Some (Some (GStr (sq "a '}' in it"))).
Proof.
  refine (embedded_error_recovered 400 "upstream said: "
    (JObj [("message", JStr (encode_body (sq "a '}' in it "))); ("code", JNum "7")]) [] " (retry)"
    [("error", GMap _)] [("code", _); ("message", _)] (sq "a '}' in it ") _ _ _ _ _ _ _ _);
    first [vm_compute; reflexivity|vm_compute; discriminate].
Defined.

(** ** The form of an error *)

Definition error_types : list string :=
  ["invalid_request_error"; "server_error"; "not_found_error"; "conflict_error"; "rate_limit_error";
   "authentication_error"; "permission_error"].

(** An error object of the API: its four members, and what each may be. *)
Definition canonical_error (t : json) : Prop := exists message type param code,
  raw_map t = Some [("code", code); ("message", json_str message); ("param", param); ("type", json_str type)] /\
  message <> "" /\ TrimSpace message = message /\ type ∈ error_types /\
  (param = JNull \/ exists p, param = json_str p /\ TrimSpace p <> "") /\
  (code = JNull \/ exists c, code = json_str c /\ c <> "" /\ TrimSpace c = c /\ Atoi c = None).

Lemma normalizeAPIErrorType_range status raw : normalizeAPIErrorType status raw ∈ error_types.
Proof. unfold normalizeAPIErrorType. cbv zeta. repeat case_decide; try done; repeat case_match; repeat first [by left|right]. Qed.

Lemma normalizeAPIErrorParam_form v : let t := of_any (normalizeAPIErrorParam v) in
  t = JNull \/ exists p, t = json_str p /\ TrimSpace p <> "".
Proof. destruct v; simpl; auto. case_decide; simpl; eauto. Qed.

Lemma normalizeAPIErrorCode_form v : let t := of_any (normalizeAPIErrorCode v) in
  t = JNull \/ exists c, t = json_str c /\ c <> "" /\ TrimSpace c = c /\ Atoi c = None.
Proof.
  destruct v; simpl; auto. case_decide; simpl; [auto|]. destruct (Atoi _) eqn:E; simpl; [auto|]. right.
  eexists. split; [done|]. split; [done|]. by rewrite TrimSpace_idemp.
Qed.

Lemma gwf_index k m : gwf_map m = true -> gwf (index_any k m) = true.
Proof.
  intros [_ Hf]%andb_true_iff. unfold index_any. destruct (am_lookup k m) as [v|] eqn:Hl; [|done].
  apply am_lookup_elem in Hl. rewrite forallb_forall in Hf.
  specialize (Hf (k, v) (proj1 (list_elem_of_In _ _) Hl)). by apply andb_true_iff in Hf as [_ ?].
Qed.

Lemma embedded_gwf message error : extractEmbeddedAPIError message = Some error -> gwf_map error = true.
Proof.
  unfold extractEmbeddedAPIError. intros (raw & _ & Hb)%bind_Some. apply bind_Some in Hb as (p & Hp & He).
  apply bind_Some in Hp as (t & _ & Ht). destruct p as [p|]; [|done]. apply any_map_gwf in Ht.
  apply (gwf_index "error") in Ht. simpl in He. destruct (index_any "error" p); try done. by injection He as ->.
Qed.

Definition fields_gwf (f : api_fields) : Prop :=
  gwf (af_message f) = true /\ gwf (af_type f) = true /\ gwf (af_param f) = true /\ gwf (af_code f) = true.

Lemma merge_gwf base override : fields_gwf base -> gwf_map override = true -> fields_gwf (mergeAPIErrorFields base override).
Proof.
  intros (H1 & H2 & H3 & H4) Ho.
  assert (Hm : forall k v, gwf v = true ->
    gwf (match am_lookup k override with Some v' => if hasAPIErrorValue v' then v' else v | None => v end) = true).
  { intros k v Hv. pose proof (gwf_index k override Ho) as Hi. unfold index_any in Hi.
    destruct (am_lookup k override); [|done]. by destruct (hasAPIErrorValue _). }
  unfold fields_gwf, mergeAPIErrorFields. cbn [af_message af_type af_param af_code]. auto.
Qed.

Lemma any_text_valid v : gwf v = true -> valid_utf8 (any_text v) = true.
Proof. by destruct v. Qed.

Lemma normalizeAPIErrorParam_gwf v : gwf v = true -> gwf (normalizeAPIErrorParam v) = true.
Proof. destruct v; simpl; auto. by case_decide. Qed.

Lemma normalizeAPIErrorCode_gwf v : gwf v = true -> gwf (normalizeAPIErrorCode v) = true.
Proof. destruct v; simpl; auto. case_decide; [done|]. destruct (Atoi _); [done|]. apply TrimSpace_valid. Qed.

Lemma error_types_valid type : type ∈ error_types -> valid_utf8 type = true.
Proof. intros Hi. unfold error_types in Hi. repeat (apply elem_of_cons in Hi as [->|Hi]; [reflexivity|]). by apply elem_of_nil in Hi. Qed.

Lemma payload_fields_gwf errorPayload : gwf_map errorPayload = true -> fields_gwf (payload_fields errorPayload).
Proof.
  intros Hg. unfold payload_fields. cbv zeta. destruct (extractEmbeddedAPIError _) as [e|] eqn:E; [apply merge_gwf|];
    try (unfold fields_gwf; simpl; auto using gwf_index). by apply embedded_gwf in E.
Qed.

Lemma canonical_payload status errorPayload canonical : gwf_map errorPayload = true ->
  normalizeAPIErrorPayload status errorPayload = Some canonical ->
  gwf_map canonical = true /\ canonical_error (of_any (GMap canonical)).
Proof.
  intros Hg. unfold normalizeAPIErrorPayload. cbv zeta. pose proof (payload_fields_gwf _ Hg) as Hf.
  set (fields := payload_fields errorPayload) in *.
  clearbody fields. destruct Hf as (H1 & H2 & H3 & H4). case_decide as Hm; [done|]. intros [= <-].
  pose proof (normalizeAPIErrorType_range status (any_text (af_type fields))) as Ht.
  set (type := normalizeAPIErrorType _ _) in *. clearbody type. cbn [am_of_list foldl am_insert].
  assert (Hw : gwf_map [("code", normalizeAPIErrorCode (af_code fields)); ("message", GStr (TrimSpace (any_text (af_message fields))));
                        ("param", normalizeAPIErrorParam (af_param fields)); ("type", GStr type)] = true).
  { unfold gwf_map. simpl. rewrite normalizeAPIErrorCode_gwf, normalizeAPIErrorParam_gwf, (error_types_valid type) by done.
    rewrite TrimSpace_valid by (by apply any_text_valid). done. }
  split; [exact Hw|]. exists (TrimSpace (any_text (af_message fields))), type, (of_any (normalizeAPIErrorParam (af_param fields))),
    (of_any (normalizeAPIErrorCode (af_code fields))). split; [exact (raw_map_of_any _ Hw)|]. split_and!; [done|apply TrimSpace_idemp|done|..].
  - apply normalizeAPIErrorParam_form.
  - apply normalizeAPIErrorCode_form.
Qed.

(** Fact (type): the body of an upstream error that is rewritten for the client
    is JSON whose error has exactly the members code, message, param and type:
    a trimmed message that is not empty, one of the seven types of the API, a
    parameter that is null or a text, and a code that is null or a text that is
    no number; the other members of the body are kept. *)
Theorem canonical_error_shape status body out : canonicalizeAPIErrorBody status body = Ok (Some out) ->
  exists payload t error, jparse body ≫= any_map = Some (Some payload) /\ jparse out = Some t /\
    member "error" t = Some error /\ canonical_error error /\
    forall k, k <> "error" -> member k t = of_any <$> am_lookup k payload.
Proof.
  unfold canonicalizeAPIErrorBody. destruct (jparse body ≫= any_map) as [[payload|]|] eqn:Hp; [|done..]. cbv zeta. cbn [from_option]. unfold id.
  destruct (am_lookup "error" payload) as [[| | | | |errorPayload]|] eqn:He; try done.
  destruct (normalizeAPIErrorPayload status errorPayload) as [canonical|] eqn:Hn; [|done]. intros Ho.
  assert (out = jprint (of_any (GMap (am_insert "error" (GMap canonical) payload)))) as -> by congruence. clear Ho.
  assert (Hg : gwf_map payload = true) by (apply bind_Some in Hp as (t & _ & Ht); by apply any_map_gwf in Ht).
  pose proof (gwf_index "error" payload Hg) as Hge. unfold index_any in Hge. rewrite He in Hge.
  apply (canonical_payload _ _ _ Hge) in Hn as [Hc Hshape].
  assert (Hg' : gwf_map (am_insert "error" (GMap canonical) payload) = true) by (by apply gwf_map_insert).
  eexists payload, _, (of_any (GMap canonical)). split; [done|]. split; [apply jparse_jprint, of_any_wf|].
  unfold member. rewrite (raw_map_of_any _ Hg'). cbn [mbind option_bind]. rewrite am_lookup_map, am_lookup_insert.
  split; [done|]. split; [exact Hshape|]. intros k Hk. by rewrite am_lookup_map, am_lookup_insert_ne by done.
Qed.

Lemma canonical_error_shape_witness :
  exists t error, jparse (jprint (JObj [("error", JObj [("code", JStr "oops"); ("message", JStr "no"); ("param", JNull);
      ("type", JStr "server_error")]); ("id", JNum "4")])) = Some t /\
    member "error" t = Some error /\ canonical_error error.
Proof.
  destruct (canonical_error_shape 502 (sq "{'id': 4, 'error': {'message': ' no', 'code': 'oops'}}")
    (jprint (JObj [("error", JObj [("code", JStr "oops"); ("message", JStr "no"); ("param", JNull);
      ("type", JStr "server_error")]); ("id", JNum "4")]))) as (payload & t & error & _ & Ht & He & Hc & _).
  - vm_compute. reflexivity.
  - by exists t, error.
Defined.

(** ** What MapError says *)

Definition fixed_messages : list string :=
  ["upstream authentication failed"; "upstream permission denied"; "upstream quota exhausted";
   "upstream rate limit exceeded"; "upstream model is unavailable"; "upstream request timed out";
   "upstream stream timed out"; "upstream returned a malformed response";
   "upstream backend does not support the requested capability"; "local runtime is unavailable";
   "upstream transport failed"; "unsupported input shape";
   "conversation state changed during generation, retry the request"; "upstream request failed";
   "internal server error"].

(** The statuses a client can get. *)
Definition error_statuses : list Z := [400; 401; 403; 404; 409; 429; 500; 501; 502; 503; 504]%Z.

Section map_error.
Context `{LibraryText}.

(** The message is fixed, or that of an error that is meant for the client. *)
Definition client_message (e : goerr) (message : string) : Prop :=
  message ∈ fixed_messages \/
  (exists param, errors_as validation_error e = Some (param, message)) \/
  (exists c, errors_as tool_choice_error e = Some c /\ message = error_text c) \/
  (exists c code, errors_as rate_limit_error e = Some (c, code) /\ message = error_text c) \/
  (errors_is ENotFound e || errors_is ESvcNotFound e = true /\ (message = error_text e \/ message = "resource not found")).

Lemma switch_client e : (map_error_switch e).1 ∈ error_statuses /\ client_message e (ae_Message (map_error_switch e).2).
Proof.
  unfold map_error_switch, client_message.
  destruct (errors_as validation_error e) as [[param message]|]; [split; [by left|right; left; by exists param]|].
  destruct (errors_as tool_choice_error e) as [c|]; [split; [by do 7 right; left|do 2 right; left; by exists c]|].
  destruct (errors_as rate_limit_error e) as [[c code]|]; [split; [by do 5 right; left|do 3 right; left; by exists c, code]|].
  destruct (errors_is EUnsupportedShape e); [split; [by left|left; by do 11 right; left]|].
  destruct (_ || _) eqn:E; [split; [by do 3 right; left|do 4 right; split; [done|by left]]|].
  repeat (destruct (errors_is _ _)); simpl; (split; [|left]); repeat first [by left|right].
Qed.

Lemma mapped_error e : let e' := MapGeneratorError (MapStorageError e) in
  e' = e \/ (e' = ESvcNotFound /\ errors_is ENotFound e = true) \/
  e' = ESvcConflict \/ e' = ESvcUpstreamTimeout \/ e' = ESvcUpstreamFailure.
Proof.
  unfold MapStorageError. destruct (errors_is ENotFound e); [auto|]. destruct (errors_is EConflict e); [auto|].
  unfold MapGeneratorError. repeat (destruct (errors_as _ _); [auto 6|]). auto.
Qed.

Lemma switch_mapped e : let answer := map_error_switch (MapGeneratorError (MapStorageError e)) in
  answer.1 ∈ error_statuses /\ client_message e (ae_Message answer.2).
Proof.
  destruct (mapped_error e) as [->|[[-> Hn]|[->|[->| ->]]]]; [apply switch_client|..]; cbv zeta.
  - split; [by do 3 right; left|]. do 4 right. rewrite Hn. split; [done|by right].
  - split; [by do 4 right; left|]. left. by do 12 right; left.
  - split; [by do 10 right; left|]. left. by do 5 right; left.
  - split; [by do 8 right; left|]. left. by do 13 right; left.
Qed.

Lemma decision_client class : bf_ClientStatus (backendFailureDecisionFor class) ∈ error_statuses /\
  (answered_by_policy class = true -> bf_ClientMessage (backendFailureDecisionFor class) ∈ fixed_messages).
Proof. destruct class; (split; [|intros Hc; try discriminate Hc]); simpl; repeat first [by left|right]. Qed.

Lemma decision_class class : bf_Class (backendFailureDecisionFor class) = class.
Proof. by destruct class. Qed.

(** An error no rule of the policy answers. *)
Definition left_to_switch (e : goerr) : Prop :=
  match classifyBackendFailure (Some e) with
  | Some decision => answered_by_policy (bf_Class decision) = false
  | None => True
  end.

(** The error at the end of the chain. *)
Fixpoint leaf (e : goerr) : goerr := match e with EWrap _ e => leaf e | _ => e end.

Lemma errors_as_leaf {A} (p : goerr -> option A) e : (forall ctx e, p (EWrap ctx e) = None) -> errors_as p e = p (leaf e).
Proof. intros Hp. induction e; simpl; try (by destruct (p _)). by rewrite Hp. Qed.

Lemma errors_is_leaf target e : (forall ctx e, EWrap ctx e <> target) ->
  errors_is target e = bool_decide (leaf e = target).
Proof.
  intros Ht. induction e; cbn [errors_is leaf]; rewrite ?orb_false_r; try done.
  rewrite bool_decide_eq_false_2 by apply Ht. done.
Qed.

Lemma validation_by_type e param message : leaf e = EValidation param message -> classify_by_type e = None.
Proof.
  intros He. unfold classify_by_type. rewrite !errors_as_leaf, !errors_is_leaf by done. by rewrite He.
Qed.

Lemma validation_switch e param message : leaf e = EValidation param message ->
  map_error_switch (MapGeneratorError (MapStorageError e)) =
  (400%Z, newAPIError "invalid_request_error" message param "").
Proof.
  intros He. unfold MapStorageError. rewrite !errors_is_leaf by done. rewrite He.
  rewrite !bool_decide_eq_false_2 by done. unfold MapGeneratorError. rewrite !errors_as_leaf by done. rewrite He.
  simpl. unfold map_error_switch. rewrite errors_as_leaf by done. by rewrite He.
Qed.

Lemma MapError_switch e : left_to_switch e ->
  MapError (Some e) = map_error_switch (MapGeneratorError (MapStorageError e)).
Proof. unfold left_to_switch, MapError. destruct (classifyBackendFailure _); [by intros ->|done]. Qed.

Lemma MapError_status e : (MapError (Some e)).1 ∈ error_statuses.
Proof.
  unfold MapError, classifyBackendFailure. destruct (match classify_by_type e with Some _ => _ | None => _ end) as [class|]; simpl;
    [destruct (answered_by_policy _); [apply decision_client|]|]; apply switch_mapped.
Qed.
End map_error.

(** C30 (safety): every error is answered with an error status, and what the
    client reads is one of the fixed texts or the text of an error that is meant
    for it (of its request, its rate limit or a missing resource), never what
    the upstream server or the database said; an invalid request is answered
    with status 400, its message and its parameter, unless the message contains
    a phrase the policy takes for a failure of the backend. *)
Theorem MapError_spec `{LibraryText} e :
  (MapError (Some e)).1 ∈ error_statuses /\ client_message e (ae_Message (MapError (Some e)).2) /\
  forall param message, leaf e = EValidation param message ->
    match classify_by_text (ToLower (error_text e)) with
    | Some class => answered_by_policy class = false
    | None => True
    end -> MapError (Some e) = (400%Z, newAPIError "invalid_request_error" message param "").
Proof.
  split_and!.
  - apply MapError_status.
  - unfold MapError, classifyBackendFailure. destruct (match classify_by_type e with Some _ => _ | None => _ end) as [class|]; simpl;
      [destruct (answered_by_policy _) eqn:Ha; [|]|]; try apply switch_mapped. simpl. left.
    apply decision_client. by rewrite decision_class in Ha.
  - intros param message He Ht. rewrite MapError_switch; [by apply validation_switch|].
    unfold left_to_switch, classifyBackendFailure. rewrite (validation_by_type e param message He).
    destruct (classify_by_text _) as [class|]; [|done]. simpl. by rewrite decision_class.
Qed.
