(* ===== verification/Sse.v ===== *)
(** * Server-sent events: internal/httpapi/sse.go and
      internal/ssetrace/parser.go

    The emitter writes the events of a streamed response; the parser reads
    captured streams back.  The client's connection may break: the [n]-th write
    fails after some bytes when [write_fails n] says so; and it may be one that
    cannot be flushed. *)

From S2P Require Import Prelude GoStr GoFloat GoJson JsonFacts StrFacts GoInt World Items Normalize Context TextFormat Response ApiErrors.

(** ** sse.go *)

Class Writer := { write_fails : nat -> option nat; is_flusher : bool }.

Record responseStreamEmitter := {
  em_seq : Z;
  em_includeObfuscation : bool;
  em_written : string;
  em_writes : nat
}.

(** A [domain.Response] inside a payload. *)
Definition response_value (response : Response) : json := jesc (Response_MarshalJSON response).

Definition line_feed : string := char_string (chr 10).

Fixpoint repeat_text (text : string) (n : nat) : string :=
  match n with 0 => "" | S n => text +:+ repeat_text text n end.

Section emitter.
Context `{Writer}.

Definition newResponseStreamEmitter (includeObfuscation : bool) : res responseStreamEmitter :=
  if is_flusher then
    Ok {| em_seq := 0; em_includeObfuscation := includeObfuscation; em_written := ""; em_writes := 0 |}
  else Err (EMsg "response writer does not support streaming").

Definition fprint (text : string) : ST responseStreamEmitter unit := fun e =>
  let e' written := {| em_seq := em_seq e; em_includeObfuscation := em_includeObfuscation e;
                       em_written := em_written e +:+ written; em_writes := S (em_writes e) |} in
  match write_fails (em_writes e) with
  | None => (Ok tt, e' text)
  | Some n => (Err (ELibrary "write"), e' (stake n text))
  end.

Definition nextSequence : ST responseStreamEmitter Z := fun e =>
  (Ok (em_seq e + 1)%Z,
   {| em_seq := (em_seq e + 1)%Z; em_includeObfuscation := em_includeObfuscation e;
      em_written := em_written e; em_writes := em_writes e |}).

Definition write (eventType : string) (payload : json) : ST responseStreamEmitter unit :=
  let body := jprint payload in
  _ ← fprint ("event: " +:+ eventType +:+ line_feed);
  fprint ("data: " +:+ body +:+ line_feed +:+ line_feed).

Definition responseCreated (response : Response) : ST responseStreamEmitter unit :=
  seq ← nextSequence;
  write "response.created" (json_map
    [("type", json_str "response.created"); ("sequence_number", json_int seq); ("response", response_value response)]).

Definition responseInProgress (response : Response) : ST responseStreamEmitter unit :=
  seq ← nextSequence;
  write "response.in_progress" (json_map
    [("type", json_str "response.in_progress"); ("sequence_number", json_int seq); ("response", response_value response)]).

Definition outputItemAddedAt (outputIndex : Z) (item : json) : ST responseStreamEmitter unit :=
  seq ← nextSequence;
  write "response.output_item.added" (json_map
    [("type", json_str "response.output_item.added"); ("sequence_number", json_int seq);
     ("output_index", json_int outputIndex); ("item", item)]).

Definition outputItemAddedMessage (itemID : string) (outputIndex : Z) : ST responseStreamEmitter unit :=
  outputItemAddedAt outputIndex (json_map
    [("id", json_str itemID); ("type", json_str "message"); ("status", json_str "in_progress");
     ("role", json_str "assistant"); ("content", JArr [])]).

Definition outputItemAdded (itemID : string) : ST responseStreamEmitter unit := outputItemAddedMessage itemID 0.

Definition text_part (text : string) : json :=
  json_map [("type", json_str "output_text"); ("text", json_str text); ("annotations", JArr [])].

Definition contentPartAddedAt (itemID : string) (outputIndex : Z) : ST responseStreamEmitter unit :=
  seq ← nextSequence;
  write "response.content_part.added" (json_map
    [("type", json_str "response.content_part.added"); ("sequence_number", json_int seq);
     ("item_id", json_str itemID); ("output_index", json_int outputIndex); ("content_index", json_int 0);
     ("part", text_part "")]).

Definition contentPartAdded (itemID : string) : ST responseStreamEmitter unit := contentPartAddedAt itemID 0.

Definition outputTextDeltaAt (responseID itemID : string) (outputIndex : Z) (delta : string)
    : ST responseStreamEmitter unit :=
  seq ← nextSequence;
  e ← st_get;
  write "response.output_text.delta" (json_map
    ([("type", json_str "response.output_text.delta"); ("sequence_number", json_int seq);
      ("response_id", json_str responseID); ("item_id", json_str itemID); ("output_index", json_int outputIndex);
      ("content_index", json_int 0); ("delta", json_str delta)] ++
     if em_includeObfuscation e then [("obfuscation", json_str (repeat_text "x" (rune_count delta)))] else [])).

Definition outputTextDelta (responseID itemID delta : string) : ST responseStreamEmitter unit :=
  outputTextDeltaAt responseID itemID 0 delta.

Definition outputTextDoneAt (responseID itemID : string) (outputIndex : Z) (text : string)
    : ST responseStreamEmitter unit :=
  seq ← nextSequence;
  write "response.output_text.done" (json_map
    [("type", json_str "response.output_text.done"); ("sequence_number", json_int seq);
     ("response_id", json_str responseID); ("item_id", json_str itemID); ("output_index", json_int outputIndex);
     ("content_index", json_int 0); ("text", json_str text)]).

Definition outputTextDone (responseID itemID text : string) : ST responseStreamEmitter unit :=
  outputTextDoneAt responseID itemID 0 text.

Definition contentPartDoneAt (itemID : string) (outputIndex : Z) (text : string) : ST responseStreamEmitter unit :=
  seq ← nextSequence;
  write "response.content_part.done" (json_map
    [("type", json_str "response.content_part.done"); ("sequence_number", json_int seq);
     ("item_id", json_str itemID); ("output_index", json_int outputIndex); ("content_index", json_int 0);
     ("part", text_part text)]).

Definition contentPartDone (itemID text : string) : ST responseStreamEmitter unit := contentPartDoneAt itemID 0 text.

(** An item that decodes to the nil map panics when its identifier is set. *)
Definition outputItemDoneAt (itemID : string) (item : Item) (outputIndex : Z) : ST responseStreamEmitter unit :=
  match Map item with
  | None => st_lift Panic
  | Some payload =>
      seq ← nextSequence;
      write "response.output_item.done" (json_map
        [("type", json_str "response.output_item.done"); ("sequence_number", json_int seq);
         ("output_index", json_int outputIndex); ("item", of_any (GMap (am_insert "id" (GStr itemID) payload)))])
  end.

Definition outputItemDone (itemID : string) (item : Item) : ST responseStreamEmitter unit :=
  outputItemDoneAt itemID item 0.

Definition responseCompleted (response : Response) : ST responseStreamEmitter unit :=
  seq ← nextSequence;
  write "response.completed" (json_map
    [("type", json_str "response.completed"); ("sequence_number", json_int seq); ("response", response_value response)]).

Definition emit_error (payload : apiError) : ST responseStreamEmitter unit :=
  seq ← nextSequence;
  write "error" (json_map
    [("type", json_str "error"); ("sequence_number", json_int seq); ("error", apiError_json payload)]).

Definition emit_done : ST responseStreamEmitter unit := fprint ("data: [DONE]" +:+ line_feed +:+ line_feed).

(** handlers_responses.go: an item that precedes the message. *)
Definition emitResponseStreamPrefixItem (outputIndex : Z) (item : Item) : ST responseStreamEmitter unit :=
  let itemID := TrimSpace (ID item) in
  payload ← (if decide (itemID = "") then mret (map_json (Map item))
             else match Map item with
                  | None => st_lift Panic
                  | Some payload => mret (of_any (GMap (am_insert "id" (GStr itemID) payload)))
                  end);
  _ ← outputItemAddedAt outputIndex payload;
  outputItemDoneAt itemID item outputIndex.
End emitter.

(** ** ssetrace/parser.go *)

Record Event := {
  ev_Event : string;
  ev_ID : string;
  ev_RetryMillis : option Z;
  ev_Data : string;
  ev_JSON : gval
}.

Record Stream := {
  st_EventCount : Z;
  st_Done : bool;
  st_Events : list Event
}.

(** The lines bufio.ScanLines finds: the text between line feeds, and what is
    left at the end unless it is empty. *)
Fixpoint raw_lines (s : string) : list string :=
  match s with
  | "" => []
  | String a s =>
      if (code a =? 10)%N then "" :: raw_lines s
      else match raw_lines s with
           | [] => [char_string a]
           | line :: lines => String a line :: lines
           end
  end.

Fixpoint drop_cr (line : string) : string :=
  match line with
  | "" => ""
  | String a "" => if (code a =? 13)%N then "" else line
  | String a s => String a (drop_cr s)
  end.

(** The scanner's buffer: a line that does not fit is an error. *)
Definition maxTokenSize : Z := 16 * 1024 * 1024.

Record parse_state := {
  ps_events : list Event;
  ps_done : bool;
  ps_eventName : string;
  ps_eventID : string;
  ps_retryValue : option Z;
  ps_dataLines : list string
}.

Definition start_state : parse_state :=
  {| ps_events := []; ps_done := false; ps_eventName := ""; ps_eventID := ""; ps_retryValue := None;
     ps_dataLines := [] |}.

Definition flush (p : parse_state) : res parse_state :=
  if decide (ps_dataLines p = [] /\ ps_eventName p = "" /\ ps_eventID p = "" /\ ps_retryValue p = None) then Ok p
  else
    let data := sjoin line_feed (ps_dataLines p) in
    let next done value :=
      {| ps_events := ps_events p ++ [{| ev_Event := ps_eventName p; ev_ID := ps_eventID p;
                                          ev_RetryMillis := ps_retryValue p; ev_Data := data; ev_JSON := value |}];
         ps_done := done; ps_eventName := ""; ps_eventID := ""; ps_retryValue := None; ps_dataLines := [] |} in
    if decide (data = "[DONE]") then Ok (next true GNull)
    else match jparse data with
         | None => Ok (next (ps_done p) GNull)
         | Some t => match any_of t with
                     | None => Err (EWrap "decode SSE event JSON" (EDecode "event"))
                     | Some value => Ok (next (ps_done p) value)
                     end
         end.

Definition set_name (name : string) (p : parse_state) : parse_state :=
  {| ps_events := ps_events p; ps_done := ps_done p; ps_eventName := name; ps_eventID := ps_eventID p;
     ps_retryValue := ps_retryValue p; ps_dataLines := ps_dataLines p |}.
Definition add_data (line : string) (p : parse_state) : parse_state :=
  {| ps_events := ps_events p; ps_done := ps_done p; ps_eventName := ps_eventName p; ps_eventID := ps_eventID p;
     ps_retryValue := ps_retryValue p; ps_dataLines := ps_dataLines p ++ [line] |}.
Definition set_event_id (id : string) (p : parse_state) : parse_state :=
  {| ps_events := ps_events p; ps_done := ps_done p; ps_eventName := ps_eventName p; ps_eventID := id;
     ps_retryValue := ps_retryValue p; ps_dataLines := ps_dataLines p |}.
Definition set_retry (millis : Z) (p : parse_state) : parse_state :=
  {| ps_events := ps_events p; ps_done := ps_done p; ps_eventName := ps_eventName p; ps_eventID := ps_eventID p;
     ps_retryValue := Some millis; ps_dataLines := ps_dataLines p |}.

(** The field and the value of a line. *)
Definition split_field (line : string) : string * string :=
  match Index line ":" with
  | None => (line, "")
  | Some i => let value := sdrop (S i) line in (stake i line, default value (strip " " value))
  end.

Definition parse_line (p : parse_state) (line : string) : res parse_state :=
  if decide (line = "") then flush p
  else if HasPrefix line ":" then Ok p
  else
    let '(field, value) := split_field line in
    if decide (field = "event") then Ok (set_name value p)
    else if decide (field = "data") then Ok (add_data value p)
    else if decide (field = "id") then Ok (set_event_id value p)
    else if decide (field = "retry") then
      match Atoi (TrimSpace value) with
      | None => Err (EWrap "parse SSE retry value" (EDecode "retry"))
      | Some millis => Ok (set_retry millis p)
      end
    else Ok p.

Fixpoint parse_lines (p : parse_state) (lines : list string) : res parse_state :=
  match lines with
  | [] => Ok p
  | line :: lines =>
      if (maxTokenSize <=? Z.of_nat (String.length line))%Z then Err (EMsg "bufio.Scanner: token too long")
      else p ← parse_line p (drop_cr line); parse_lines p lines
  end.

Definition Parse (body : string) : res Stream :=
  p ← parse_lines start_state (raw_lines body);
  p ← flush p;
  Ok {| st_EventCount := Z.of_nat (length (ps_events p)); st_Done := ps_done p; st_Events := ps_events p |}.
