(* ===== verification/SseProps.v ===== *)
(** * What is written as events is read back

    The events an emitter writes carry consecutive sequence numbers, and the
    parser of captured streams reads them back as they were meant. *)

From S2P Require Import Prelude GoStr GoFloat GoJson JsonFacts StrFacts GoInt World Items Normalize Context TextFormat Response ApiErrors ApiErrorProps Sse.

(** ** Printed JSON stays on one line *)

Definition above_space (a : ascii) : bool := (32 <=? code a)%N.

Lemma valid_lit_chars l : valid_lit l = true -> all_chars above_space l = true.
Proof.
  induction l as [l IH] using string_len_ind. destruct l as [|a s]; [done|]. simpl.
  unfold above_space at 1. destruct (N.eqb_spec (code a) 34) as [E|E]; [done|].
  destruct (N.eqb_spec (code a) 92) as [E'|E'].
  - rewrite E'. simpl. destruct s as [|b s2]; [done|]. simpl. destruct (is_simple_escape b) eqn:Eb.
    + intros Hv. rewrite (IH s2) by (first [done|simpl; lia]). rewrite andb_true_r.
      revert Eb. unfold is_simple_escape, above_space. rewrite !orb_true_iff, !N.eqb_eq, N.leb_le. lia.
    + destruct (N.eqb_spec (code b) 117) as [E2|E2]; [|done].
      destruct s2 as [|h1 [|h2 [|h3 [|h4 s6]]]]; try done. rewrite !andb_true_iff. intros ((((H1 & H2) & H3) & H4) & Hv).
      assert (Hh : forall h, is_hex h = true -> above_space h = true).
      { intros h. unfold is_hex, is_digit, above_space. rewrite !orb_true_iff, !in_rng_spec, N.leb_le. lia. }
      simpl. rewrite (Hh h1), (Hh h2), (Hh h3), (Hh h4), (IH s6) by (first [done|simpl; lia]). unfold above_space. rewrite E2. done.
  - rewrite andb_true_iff, negb_true_iff, N.ltb_ge. intros [Ha Hv].
    rewrite (IH s) by (first [done|simpl; lia]). rewrite andb_true_r. apply N.leb_le. lia.
Qed.

Lemma num_chars l : valid_num l = true -> all_chars above_space l = true.
Proof.
  intros Hl%valid_num_chars. revert Hl. apply all_chars_mono. intros a.
  unfold num_char, is_digit, above_space. rewrite !orb_true_iff, in_rng_spec, !N.eqb_eq, N.leb_le. lia.
Qed.

Lemma sjoin_chars l : Forall (fun s => all_chars above_space s = true) l -> all_chars above_space (sjoin "," l) = true.
Proof.
  induction 1 as [|x l Hx Hl IH]; [done|]. destruct l as [|y l]; [done|].
  rewrite sjoin_cons, !all_chars_app, Hx, IH. done.
Qed.

Lemma quoted_chars l : valid_lit l = true -> all_chars above_space (quoted l) = true.
Proof. intros Hl. unfold quoted. simpl. rewrite all_chars_app. simpl. by rewrite valid_lit_chars. Qed.

Lemma jprint_chars t : jwf t = true -> all_chars above_space (jprint t) = true.
Proof.
  induction t as [|b|l|l|l IH|l IH] using json_nested_ind; intros Hw.
  - done.
  - by destruct b.
  - by apply num_chars.
  - by apply quoted_chars.
  - simpl in Hw. change (all_chars above_space ("[" +:+ sjoin "," (map jprint l) +:+ "]") = true).
    rewrite !all_chars_app, sjoin_chars; [done|]. apply Forall_map, Forall_forall. intros t Hin.
    rewrite Forall_forall in IH. rewrite forallb_forall in Hw. by apply IH, Hw, list_elem_of_In.
  - simpl in Hw. change (all_chars above_space
      ("{" +:+ sjoin "," (map (fun kv => quoted kv.1 +:+ ":" +:+ jprint kv.2) l) +:+ "}") = true).
    rewrite !all_chars_app, sjoin_chars; [done|]. apply Forall_map, Forall_forall. intros [k v] Hin.
    rewrite Forall_forall in IH. rewrite forallb_forall in Hw.
    specialize (Hw (k, v) (proj1 (list_elem_of_In _ _) Hin)). cbn [fst snd] in *. apply andb_true_iff in Hw as [Hk Hv].
    rewrite !all_chars_app, quoted_chars by done. exact (IH (k, v) Hin Hv).
Qed.

(** ** Lines *)

Lemma raw_lines_line l rest : all_chars above_space l = true ->
  raw_lines (l +:+ line_feed +:+ rest) = l :: raw_lines rest.
Proof.
  induction l as [|a l IH]; [done|]. simpl. intros [Ha Hl]%andb_true_iff. apply N.leb_le in Ha.
  destruct (N.eqb_spec (code a) 10); [lia|]. by rewrite IH.
Qed.

Lemma drop_cr_line l : all_chars above_space l = true -> drop_cr l = l.
Proof.
  induction l as [|a l IH]; [done|]. intros [Ha Hl]%andb_true_iff. apply N.leb_le in Ha.
  change (drop_cr (String a l)) with (match l with "" => if (code a =? 13)%N then "" else String a l | _ => String a (drop_cr l) end).
  rewrite IH by done. destruct l; [|done]. destruct (N.eqb_spec (code a) 13); [lia|done].
Qed.

(** ** Events *)

(** The text of an event. *)
Definition event_text (eventType : string) (payload : json) : string :=
  "event: " +:+ eventType +:+ line_feed +:+ "data: " +:+ jprint payload +:+ line_feed +:+ line_feed.

Definition done_text : string := "data: [DONE]" +:+ line_feed +:+ line_feed.

Definition event_of (eventType : string) (payload : json) (value : gval) : Event :=
  {| ev_Event := eventType; ev_ID := ""; ev_RetryMillis := None; ev_Data := jprint payload; ev_JSON := value |}.

Definition done_event : Event :=
  {| ev_Event := ""; ev_ID := ""; ev_RetryMillis := None; ev_Data := "[DONE]"; ev_JSON := GNull |}.

(** The parser between two events. *)
Definition between (events : list Event) (done : bool) : parse_state :=
  {| ps_events := events; ps_done := done; ps_eventName := ""; ps_eventID := ""; ps_retryValue := None;
     ps_dataLines := [] |}.

(** A line that the scanner's buffer holds. *)
Definition fits_line (l : string) : Prop := (Z.of_nat (String.length l) + 7 < maxTokenSize)%Z.

Lemma parse_one p line lines : all_chars above_space line = true ->
  (Z.of_nat (String.length line) < maxTokenSize)%Z ->
  parse_lines p (line :: lines) = parse_line p line ≫= fun p => parse_lines p lines.
Proof.
  intros Hc Hl. simpl. rewrite drop_cr_line by done.
  destruct (Z.leb_spec maxTokenSize (Z.of_nat (String.length line))); [lia|done].
Qed.

Lemma parse_event_line p eventType : parse_line p ("event: " +:+ eventType) = Ok (set_name eventType p).
Proof. reflexivity. Qed.

Lemma parse_data_line p data : parse_line p ("data: " +:+ data) = Ok (add_data data p).
Proof. reflexivity. Qed.

Lemma parse_empty_line p : parse_line p "" = flush p.
Proof. reflexivity. Qed.

Lemma parse_event eventType t value events done rest :
  all_chars above_space eventType = true -> fits_line eventType -> fits_line (jprint t) ->
  jwf t = true -> any_of t = Some value ->
  parse_lines (between events done) (raw_lines (event_text eventType t +:+ rest)) =
  parse_lines (between (events ++ [event_of eventType t value]) done) (raw_lines rest).
Proof.
  intros Hc Hf1 Hf2 Hw Hv. unfold event_text, fits_line in *. pose proof (jprint_chars t Hw) as Hp.
  rewrite !sapp_assoc, <-(sapp_assoc "event: "), raw_lines_line by (by rewrite all_chars_app, Hc).
  rewrite parse_one by (first [by rewrite all_chars_app, Hc|rewrite slength_app; cbn [String.length]; lia]).
  rewrite parse_event_line. cbn [mbind res_bind].
  rewrite <-(sapp_assoc "data: "), raw_lines_line by (by rewrite all_chars_app, Hp).
  rewrite parse_one by (first [by rewrite all_chars_app, Hp|rewrite slength_app; cbn [String.length]; lia]).
  rewrite parse_data_line. cbn [mbind res_bind].
  rewrite <-(sapp_nil_l line_feed), sapp_assoc, raw_lines_line by done. rewrite parse_one by done.
  rewrite parse_empty_line. unfold flush. rewrite decide_False by naive_solver. cbv zeta.
  change (sjoin line_feed (ps_dataLines (add_data (jprint t) (set_name eventType (between events done))))) with (jprint t).
  rewrite jparse_jprint, Hv by done. rewrite decide_False; [done|].
  intros He. pose proof (jparse_jprint t Hw) as Hj. rewrite He in Hj. vm_compute in Hj. done.
Qed.

Lemma parse_done events done :
  parse_lines (between events done) (raw_lines done_text) = Ok (between (events ++ [done_event]) true).
Proof. reflexivity. Qed.

(** ** Calls of the emitter *)

(** The events an emitter can be asked to send. *)
Inductive emission :=
| EmCreated (response : Response)
| EmInProgress (response : Response)
| EmItemAdded (outputIndex : Z) (item : option (list (string * gval)))
| EmMessageAdded (itemID : string) (outputIndex : Z)
| EmPartAdded (itemID : string) (outputIndex : Z)
| EmDelta (responseID itemID : string) (outputIndex : Z) (delta : string)
| EmTextDone (responseID itemID : string) (outputIndex : Z) (text : string)
| EmPartDone (itemID : string) (outputIndex : Z) (text : string)
| EmItemDone (itemID : string) (item : Item) (outputIndex : Z)
| EmCompleted (response : Response)
| EmError (payload : apiError).

Definition emission_call `{Writer} (x : emission) : ST responseStreamEmitter unit :=
  match x with
  | EmCreated r => responseCreated r
  | EmInProgress r => responseInProgress r
  | EmItemAdded i item => outputItemAddedAt i (map_json item)
  | EmMessageAdded id i => outputItemAddedMessage id i
  | EmPartAdded id i => contentPartAddedAt id i
  | EmDelta r id i delta => outputTextDeltaAt r id i delta
  | EmTextDone r id i text => outputTextDoneAt r id i text
  | EmPartDone id i text => contentPartDoneAt id i text
  | EmItemDone id item i => outputItemDoneAt id item i
  | EmCompleted r => responseCompleted r
  | EmError e => emit_error e
  end.

Definition emission_type (x : emission) : string :=
  match x with
  | EmCreated _ => "response.created"
  | EmInProgress _ => "response.in_progress"
  | EmItemAdded _ _ | EmMessageAdded _ _ => "response.output_item.added"
  | EmPartAdded _ _ => "response.content_part.added"
  | EmDelta _ _ _ _ => "response.output_text.delta"
  | EmTextDone _ _ _ _ => "response.output_text.done"
  | EmPartDone _ _ _ => "response.content_part.done"
  | EmItemDone _ _ _ => "response.output_item.done"
  | EmCompleted _ => "response.completed"
  | EmError _ => "error"
  end.

(** What the event says beyond its type and number. *)
Definition emission_fields (obfuscate : bool) (x : emission) : list (string * json) :=
  match x with
  | EmCreated r | EmInProgress r | EmCompleted r => [("response", response_value r)]
  | EmItemAdded i item => [("output_index", json_int i); ("item", map_json item)]
  | EmMessageAdded id i =>
      [("output_index", json_int i);
       ("item", json_map [("id", json_str id); ("type", json_str "message"); ("status", json_str "in_progress");
                          ("role", json_str "assistant"); ("content", JArr [])])]
  | EmPartAdded id i =>
      [("item_id", json_str id); ("output_index", json_int i); ("content_index", json_int 0); ("part", text_part "")]
  | EmDelta r id i delta =>
      [("response_id", json_str r); ("item_id", json_str id); ("output_index", json_int i);
       ("content_index", json_int 0); ("delta", json_str delta)] ++
      if obfuscate then [("obfuscation", json_str (repeat_text "x" (rune_count delta)))] else []
  | EmTextDone r id i text =>
      [("response_id", json_str r); ("item_id", json_str id); ("output_index", json_int i);
       ("content_index", json_int 0); ("text", json_str text)]
  | EmPartDone id i text =>
      [("item_id", json_str id); ("output_index", json_int i); ("content_index", json_int 0); ("part", text_part text)]
  | EmItemDone id item i =>
      [("output_index", json_int i); ("item", of_any (GMap (am_insert "id" (GStr id) (default [] (Map item)))))]
  | EmError e => [("error", apiError_json e)]
  end.

Definition emission_payload (obfuscate : bool) (x : emission) (seq : Z) : json :=
  json_map ([("type", json_str (emission_type x)); ("sequence_number", json_int seq)] ++ emission_fields obfuscate x).

(** An item that decodes to the nil map cannot be shown as done. *)
Definition emission_runs (x : emission) : Prop :=
  match x with EmItemDone _ item _ => Map item <> None | _ => True end.

#[global] Instance emission_runs_dec x : Decision (emission_runs x).
Proof. destruct x; apply _. Defined.

(** The items and responses an event shows are well-formed. *)
Definition emission_wf (x : emission) : Prop :=
  match x with
  | EmCreated r | EmInProgress r | EmCompleted r => jwf (response_value r) = true
  | EmItemDone _ item _ => Map item <> None
  | _ => True
  end.

Lemma emission_wf_runs x : emission_wf x -> emission_runs x.
Proof. by destruct x. Qed.

Lemma map_json_wf m : jwf (map_json m) = true.
Proof. destruct m as [m|]; [apply (of_any_wf (GMap m))|done]. Qed.

Lemma json_str_wf s : jwf (json_str s) = true.
Proof. apply encode_body_valid. Qed.

Lemma text_part_wf text : jwf (text_part text) = true.
Proof. apply json_map_wf. repeat constructor; apply encode_body_valid. Qed.

Lemma apiError_json_wf e : jwf (apiError_json e) = true.
Proof.
  unfold apiError_json, optional_json. simpl. rewrite !encode_body_valid.
  destruct (ae_Param e), (ae_Code e); simpl; by rewrite ?encode_body_valid.
Qed.

Ltac wf_leaf := cbn [snd]; lazymatch goal with
  | |- Forall _ [] => apply Forall_nil_2
  | |- Forall _ (_ :: _) => apply Forall_cons_2
  | |- jwf (json_str _) = true => apply json_str_wf
  | |- jwf (json_int _) = true => apply int_text_valid
  | |- jwf (text_part _) = true => apply text_part_wf
  | |- jwf (map_json _) = true => apply map_json_wf
  | |- jwf (apiError_json _) = true => apply apiError_json_wf
  | |- jwf (of_any _) = true => apply of_any_wf
  | |- jwf (json_map _) = true => apply json_map_wf
  | |- jwf (JArr []) = true => reflexivity
  end.

Lemma emission_payload_wf obfuscate x seq : emission_wf x -> jwf (emission_payload obfuscate x seq) = true.
Proof.
  intros Hx. unfold emission_payload. apply json_map_wf, Forall_app. split; [repeat wf_leaf|].
  destruct x; cbn [emission_fields emission_wf] in *; try destruct obfuscate; cbn [app]; repeat wf_leaf; exact Hx.
Qed.

Section emitting.
Context `{Writer}.
Hypothesis reliable_writer : forall n, write_fails n = None.

(** The emitter after an event. *)
Definition emitted (x : emission) (e : responseStreamEmitter) : responseStreamEmitter :=
  {| em_seq := em_seq e + 1; em_includeObfuscation := em_includeObfuscation e;
     em_written := em_written e +:+ event_text (emission_type x)
                     (emission_payload (em_includeObfuscation e) x (em_seq e + 1));
     em_writes := S (S (em_writes e)) |}.

Lemma write_run eventType payload e : write eventType payload e =
  (Ok tt, {| em_seq := em_seq e; em_includeObfuscation := em_includeObfuscation e;
             em_written := em_written e +:+ event_text eventType payload; em_writes := S (S (em_writes e)) |}).
Proof.
  unfold write, fprint, mbind, st_bind, event_text. cbv zeta. rewrite !reliable_writer. cbn [em_written em_seq em_includeObfuscation em_writes].
  do 2 f_equal. by rewrite !sapp_assoc.
Qed.

Lemma emission_run x e : emission_runs x -> emission_call x e = (Ok tt, emitted x e).
Proof.
  intros Hx. destruct x; simpl in Hx; unfold emission_call, responseCreated, responseInProgress, outputItemAddedMessage,
    outputItemAddedAt, contentPartAddedAt, outputTextDeltaAt, outputTextDoneAt, contentPartDoneAt, outputItemDoneAt,
    responseCompleted, emit_error; try (destruct (Map item) as [payload|] eqn:Em; [|done]);
    unfold nextSequence, st_get, mbind, st_bind; rewrite write_run; unfold emitted; simpl; try reflexivity.
  unfold emission_payload, emission_fields. rewrite Em. reflexivity.
Qed.

(** The calls of a stream, and the end of it. *)
Fixpoint emit_all (xs : list emission) : ST responseStreamEmitter unit :=
  match xs with [] => emit_done | x :: xs => _ ← emission_call x; emit_all xs end.

(** The events of a stream, numbered from [seq] on. *)
Fixpoint numbered (obfuscate : bool) (seq : Z) (xs : list emission) : list (string * json) :=
  match xs with
  | [] => []
  | x :: xs => (emission_type x, emission_payload obfuscate x seq) :: numbered obfuscate (seq + 1) xs
  end.

Lemma emit_all_run xs e : Forall emission_wf xs ->
  exists e', emit_all xs e = (Ok tt, e') /\
    em_written e' = em_written e +:+
      sconcat (map (fun f => event_text f.1 f.2) (numbered (em_includeObfuscation e) (em_seq e + 1) xs)) +:+ done_text.
Proof.
  intros Hx. revert e. induction Hx as [|x xs Hx Hxs IH]; intros e; simpl.
  - unfold emit_done, fprint. rewrite reliable_writer. eexists. split; [reflexivity|done].
  - rewrite st_bind_eq, (emission_run x e (emission_wf_runs x Hx)). destruct (IH (emitted x e)) as (e' & -> & Hw).
    exists e'. split; [done|]. rewrite Hw. simpl. by rewrite !sapp_assoc.
Qed.
End emitting.

Lemma emission_type_chars x : all_chars above_space (emission_type x) = true /\ fits_line (emission_type x).
Proof. by destruct x. Qed.

Lemma parse_events obfuscate seq xs events values :
  Forall emission_wf xs -> Forall (fun f => fits_line (jprint f.2)) (numbered obfuscate seq xs) ->
  Forall2 (fun f value => any_of f.2 = Some value) (numbered obfuscate seq xs) values ->
  parse_lines (between events false)
    (raw_lines (sconcat (map (fun f => event_text f.1 f.2) (numbered obfuscate seq xs)) +:+ done_text)) =
  Ok (between (events ++ zip_with (fun f value => event_of f.1 f.2 value) (numbered obfuscate seq xs) values
               ++ [done_event]) true).
Proof.
  intros Hx. revert seq events values. induction Hx as [|x xs Hx Hxs IH]; intros seq events values; cbn [numbered map sconcat fst snd].
  - intros _ Hv. inversion Hv; subst. exact (parse_done events false).
  - intros [Hf Hfs]%Forall_cons Hv. inversion Hv as [|? value ? vs Hvalue Hvs]; subst. cbn [fst snd] in *.
    destruct (emission_type_chars x) as [Hc Ht].
    rewrite sapp_assoc, (parse_event _ _ value) by (done || by apply emission_payload_wf).
    rewrite (IH _ _ vs) by done. cbn [zip_with fst snd]. by rewrite <-app_assoc.
Qed.

Lemma payload_members obfuscate x seq :
  member "type" (emission_payload obfuscate x seq) = Some (json_str (emission_type x)) /\
  member "sequence_number" (emission_payload obfuscate x seq) = Some (json_int seq).
Proof.
  unfold emission_payload. set (fields := _ ++ _).
  assert (Hv : forallb (fun kv => valid_utf8 kv.1) fields = true).
  { subst fields. destruct x; try destruct obfuscate; reflexivity. }
  rewrite !member_json_map by exact Hv. subst fields. destruct x; try destruct obfuscate; done.
Qed.

Lemma numbered_members obfuscate seq xs i f : numbered obfuscate seq xs !! i = Some f ->
  member "type" f.2 = Some (json_str f.1) /\ member "sequence_number" f.2 = Some (json_int (seq + Z.of_nat i)).
Proof.
  revert seq i. induction xs as [|x xs IH]; intros seq i; [done|]. destruct i as [|i]; simpl.
  - intros [= <-]. simpl. rewrite Z.add_0_r. apply payload_members.
  - intros Hf. destruct (IH _ _ Hf) as [H1 H2]. split; [done|]. rewrite H2. do 2 f_equal. lia.
Qed.

(** C35 (roundtrip): whatever sequence of events a stream sends, over a
    connection that does not break, the parser of captured streams reads it
    back: one event for each, in order, with its type and its payload, then the
    end mark; the payloads repeat the type and are numbered 1, 2, 3 and so on. *)
Theorem emitted_events_read_back `{Writer} obfuscate e xs values :
  (forall n, write_fails n = None) -> newResponseStreamEmitter obfuscate = Ok e -> Forall emission_wf xs ->
  Forall (fun f => fits_line (jprint f.2)) (numbered obfuscate 1 xs) ->
  Forall2 (fun f value => any_of f.2 = Some value) (numbered obfuscate 1 xs) values ->
  (exists e', emit_all xs e = (Ok tt, e') /\
     Parse (em_written e') =
       Ok {| st_EventCount := Z.of_nat (S (length xs)); st_Done := true;
             st_Events := zip_with (fun f value => event_of f.1 f.2 value) (numbered obfuscate 1 xs) values
                          ++ [done_event] |}) /\
  forall i f, numbered obfuscate 1 xs !! i = Some f ->
    member "type" f.2 = Some (json_str f.1) /\ member "sequence_number" f.2 = Some (json_int (1 + Z.of_nat i)).
Proof.
  intros Hw Hn Hx Hf Hv. split; [|intros i f; apply numbered_members].
  destruct (emit_all_run Hw xs e Hx) as (e' & He & Hwritten).
  exists e'. split; [done|]. unfold Parse. rewrite Hwritten. unfold newResponseStreamEmitter in Hn.
  destruct is_flusher; [injection Hn as <-|done]. cbn [em_written em_seq em_includeObfuscation].
  rewrite sapp_nil_l. change (0 + 1)%Z with 1%Z. change start_state with (between [] false).
  rewrite (parse_events obfuscate 1 xs [] values) by done. cbn [mbind res_bind].
  unfold flush. rewrite decide_True by done. cbn [mbind res_bind between ps_events ps_done app]. do 2 f_equal.
  rewrite length_app, length_zip_with. pose proof (Forall2_length _ _ _ Hv) as Hlen.
  assert (Hn : forall seq, length (numbered obfuscate seq xs) = length xs).
  { clear. induction xs as [|x xs IH]; intros seq; simpl; [done|]. by rewrite IH. }
  rewrite Hn in *. simpl. lia.
Qed.

Definition steady : Writer := {| write_fails _ := None; is_flusher := true |}.

Definition demo_emitter : responseStreamEmitter :=
  {| em_seq := 0; em_includeObfuscation := true; em_written := ""; em_writes := 0 |}.

Definition demo_emissions : list emission :=
  [EmMessageAdded "msg_1" 0; EmPartAdded "msg_1" 0; EmDelta "resp_1" "msg_1" 0 "Hi"; EmTextDone "resp_1" "msg_1" 0 "Hi"].

Definition demo_values : list gval :=
  omap (fun f => any_of f.2) (numbered true 1 demo_emissions).

Lemma emitted_events_read_back_witness :
  exists e', @emit_all steady demo_emissions demo_emitter = (Ok tt, e') /\
    Parse (em_written e') =
      Ok {| st_EventCount := 5; st_Done := true;
            st_Events := zip_with (fun f value => event_of f.1 f.2 value) (numbered true 1 demo_emissions) demo_values
                         ++ [done_event] |}.
Proof.
  destruct (@emitted_events_read_back steady true demo_emitter demo_emissions demo_values) as [He _].
  - done.
  - done.
  - repeat constructor.
  - repeat (apply Forall_cons_2; [vm_compute; reflexivity|]). apply Forall_nil_2.
  - repeat (apply Forall2_cons_2; [vm_compute; reflexivity|]). apply Forall2_nil_2.
  - exact He.
Defined.
