(* ===== verification/Streaming.v ===== *)
(** * Streaming a response: internal/httpapi/response_streaming.go and
      createStream of internal/httpapi/handlers_responses.go

    The handler runs the service's CreateStream with callbacks that write to
    the client, then writes the events that end the stream.  The variables its
    callbacks share are the state [stream_client] of the client. *)

From S2P Require Import Prelude GoStr GoFloat GoJson JsonFacts StrFacts GoInt GoTime World Items Normalize Context Store ConvService Compaction Compactor Memory ToolMarkup TextFormat Response LocalGen RespService ApiErrors Sse.

(** ** response_streaming.go *)

Record responseStreamOptions := { so_IncludeObfuscation : bool }.

Definition bool_ptr (t : json) : option (option bool) :=
  match t with JBool b => Some (Some b) | JNull => Some None | _ => None end.

(** The struct responseStreamOptionsPayload, of an object. *)
Definition responseStreamOptionsPayload (t : json) : option (option bool) :=
  members ← struct_members t;
  values ← opt_map bool_ptr (field_values "include_obfuscation" members);
  Some (default None (last values)).

Definition parseCreateResponseStreamOptions `{MapOrder} (stream : option bool) (raw : string)
    : res responseStreamOptions :=
  let trimmed := TrimSpace raw in
  let not_object := Err (NewValidationError "stream_options" "stream_options must be an object") in
  if decide (trimmed = "" \/ trimmed = "null") then Ok {| so_IncludeObfuscation := true |}
  else if negb (default false stream) then
    Err (NewValidationError "stream_options" "stream_options is only supported when stream=true")
  else match jparse trimmed with
  | None => not_object
  | Some t =>
      match raw_map t with
      | None => not_object
      | Some fields =>
          match head (filter (fun kv => kv.1 <> "include_obfuscation") (map_order fields)) with
          | Some kv => Err (NewValidationError "stream_options" ("unsupported stream_options field: " +:+ kv.1))
          | None =>
              match responseStreamOptionsPayload t with
              | None => not_object
              | Some value => Ok {| so_IncludeObfuscation := default true value |}
              end
          end
      end
  end.

(** custom_tools.go *)
Definition fallbackString (values : list string) : string :=
  default "" (head (filter (fun value => value <> "") (map TrimSpace values))).

Definition empty_text_part (text : string) : gval :=
  GMap [("annotations", GArr []); ("text", GStr text); ("type", GStr "output_text")].

Definition streaming_part (entry : gval) : option gval :=
  match entry with
  | GMap part =>
      Some (GMap (if decide (TrimSpace (asString (am_lookup "type" part)) = "output_text" /\ am_lookup "annotations" part = None)
                  then am_insert "annotations" (GArr []) part else part))
  | _ => None
  end.

Definition normalizeStreamingMessageContent (raw : option gval) (fallbackText : string) : list gval :=
  match raw with
  | Some (GArr content) =>
      match omap streaming_part content with
      | [] => [empty_text_part fallbackText]
      | parts => parts
      end
  | _ => [empty_text_part fallbackText]
  end.

(** response_retrieve.go *)
Definition responseReplayOutputItems `{UnicodeTable} (response : Response) : list Item :=
  match outputs response with
  | [] => if decide (TrimSpace (r_OutputText response) = "") then []
          else [NewOutputTextMessage (r_OutputText response)]
  | items => items
  end.

(** Sets a field whose text is blank. *)
Definition fill (name : string) (value : string) (payload : list (string * gval)) : list (string * gval) :=
  if decide (TrimSpace (asString (am_lookup name payload)) = "") then am_insert name (GStr value) payload else payload.

(** The body of the loop over the output items: the map an item is rewritten to. *)
Definition streaming_payload (outputText preferredID : string) (item : Item) : list (string * gval) :=
  let payload := default [] (Map item) in
  let preferredID := TrimSpace preferredID in
  let payload := if decide (preferredID = "") then payload else am_insert "id" (GStr preferredID) payload in
  let payload := fill "type" (fallbackString [Type_ item; "message"]) payload in
  if decide (TrimSpace (asString (am_lookup "type" payload)) = "message") then
    let payload := fill "role" (fallbackString [Role item; "assistant"]) payload in
    let payload := fill "status" "completed" payload in
    am_insert "content" (GArr (normalizeStreamingMessageContent (am_lookup "content" payload) outputText)) payload
  else payload.

Fixpoint streaming_items (outputText : string) (preferredItemIDs : gmap nat string) (index : nat) (items : list Item)
    : res (list Item) :=
  match items with
  | [] => Ok []
  | item :: items =>
      rewritten ← WithMap item (Some (streaming_payload outputText (default "" (preferredItemIDs !! index)) item));
      rest ← streaming_items outputText preferredItemIDs (S index) items;
      Ok (rewritten :: rest)
  end.

Definition normalizeResponseForStreaming `{UnicodeTable} `{IdSource} (response : Response)
    (preferredItemIDs : gmap nat string) : ST nat Response :=
  match responseReplayOutputItems response with
  | [] => mret response
  | outputItems =>
      outputItems ← st_lift (streaming_items (r_OutputText response) preferredItemIDs 0 outputItems);
      outputItems ← EnsureItemIDs outputItems;
      let normalized := set_Output (Some outputItems) response in
      mret (match outputItems with
            | first :: _ => if decide (TrimSpace (r_OutputText normalized) = "")
                            then set_OutputText (MessageText first) normalized else normalized
            | [] => normalized
            end)
  end.

(** ** The handler *)

Record CreateResponseRequest := {
  q_Model : string;
  q_Input : string;
  q_Text : string;
  q_Metadata : string;
  q_ContextManagement : string;
  q_Store : option bool;
  q_Stream : option bool;
  q_StreamOptions : string;
  q_Background : option bool;
  q_PreviousResponseID : string;
  q_Conversation : string;
  q_Instructions : string
}.

Definition stream_input (request : CreateResponseRequest) (requestJSON : string) (generationOptions : list (string * json))
    : CreateResponseInput :=
  {| i_Model := q_Model request; i_Input := q_Input request; i_TextConfig := q_Text request;
     i_Metadata := q_Metadata request; i_ContextManagement := q_ContextManagement request;
     i_Store := q_Store request; i_Stream := q_Stream request; i_Background := q_Background request;
     i_ForceShadowStore := false; i_PreviousResponseID := q_PreviousResponseID request;
     i_ConversationID := q_Conversation request; i_Instructions := q_Instructions request;
     i_RequestJSON := requestJSON; i_GenerationOptions := generationOptions |}.

(** The variables of createStream that its callbacks set. *)
Record stream_client := {
  cl_emitter : option responseStreamEmitter;
  cl_responseID : string;
  cl_itemID : string;
  cl_messageOutputIndex : nat
}.

Definition new_client : stream_client :=
  {| cl_emitter := None; cl_responseID := ""; cl_itemID := ""; cl_messageOutputIndex := 0 |}.

Definition set_emitter (e : responseStreamEmitter) (c : stream_client) : stream_client :=
  {| cl_emitter := Some e; cl_responseID := cl_responseID c; cl_itemID := cl_itemID c;
     cl_messageOutputIndex := cl_messageOutputIndex c |}.
Definition set_responseID (id : string) (c : stream_client) : stream_client :=
  {| cl_emitter := cl_emitter c; cl_responseID := id; cl_itemID := cl_itemID c;
     cl_messageOutputIndex := cl_messageOutputIndex c |}.
Definition set_itemID (id : string) (c : stream_client) : stream_client :=
  {| cl_emitter := cl_emitter c; cl_responseID := cl_responseID c; cl_itemID := id;
     cl_messageOutputIndex := cl_messageOutputIndex c |}.
Definition set_index (i : nat) (c : stream_client) : stream_client :=
  {| cl_emitter := cl_emitter c; cl_responseID := cl_responseID c; cl_itemID := cl_itemID c;
     cl_messageOutputIndex := i |}.

Definition modify {C} (f : C -> C) : ST (nat * C) unit := fun '(ids, c) => (Ok tt, (ids, f c)).
Definition with_ids {C A} (m : ST nat A) : ST (nat * C) A := fun '(ids, c) => let '(r, ids') := m ids in (r, (ids', c)).

(** A call of the emitter; the nil emitter panics. *)
Definition on_emitter {A} (m : ST responseStreamEmitter A) : ST (nat * stream_client) A := fun '(ids, c) =>
  match cl_emitter c with
  | None => (Panic, (ids, c))
  | Some e => let '(r, e') := m e in (r, (ids, set_emitter e' c))
  end.

Section handler.
Context `{Writer}.

(** The items before the message, from an index on. *)
Fixpoint emit_prefix (index : nat) (items : list Item) : ST responseStreamEmitter unit :=
  match items with
  | [] => mret tt
  | item :: items => _ ← emitResponseStreamPrefixItem (Z.of_nat index) item; emit_prefix (S index) items
  end.

Definition on_created `{IdSource} (includeObfuscation : bool) (response : Response) (outputPrefix : list Item)
    : ST (nat * stream_client) unit :=
  emitter ← st_lift (newResponseStreamEmitter includeObfuscation);
  _ ← modify (set_emitter emitter);
  _ ← modify (set_responseID (r_ID response));
  outputPrefix ← with_ids (EnsureItemIDs outputPrefix);
  itemID ← with_ids (NewPrefixedID "msg");
  _ ← modify (set_itemID itemID);
  _ ← on_emitter (responseCreated response);
  _ ← on_emitter (responseInProgress response);
  _ ← on_emitter (emit_prefix 0 outputPrefix);
  _ ← modify (set_index (length outputPrefix));
  _ ← on_emitter (outputItemAddedMessage itemID (Z.of_nat (length outputPrefix)));
  on_emitter (contentPartAddedAt itemID (Z.of_nat (length outputPrefix))).

Definition on_delta (delta : string) : ST (nat * stream_client) unit := fun s =>
  on_emitter (outputTextDeltaAt (cl_responseID s.2) (cl_itemID s.2) (Z.of_nat (cl_messageOutputIndex s.2)) delta) s.

(** The events after the text; a client that is gone is no error. *)
Definition finish_stream (responseID itemID : string) (index : nat) (response : Response) (item : Item)
    (outputText : string) : ST responseStreamEmitter unit := fun e =>
  match (_ ← outputTextDoneAt responseID itemID (Z.of_nat index) outputText;
         _ ← contentPartDoneAt itemID (Z.of_nat index) outputText;
         _ ← outputItemDoneAt itemID item (Z.of_nat index);
         responseCompleted response) e with
  | (Ok _, e') => emit_done e'
  | (Err _, e') => (Ok tt, e')
  | (Panic, e') => (Panic, e')
  end.

(** Runs a step of the handler on the identifiers and the client. *)
Definition in_handler {A} (m : ST (nat * stream_client) A) : ST (sworld * stream_client) A := fun '(w, c) =>
  let '(r, (ids, c')) := m (w_ids (s_world w), c) in
  (r, ({| s_world := {| w_db := w_db (s_world w); w_ids := ids; w_stmts := w_stmts (s_world w) |};
          s_checks := s_checks w; s_calls := s_calls w; s_clock := s_clock w; s_events := s_events w |}, c')).

(** After the service has answered. *)
Definition stream_completed `{IdSource} `{UnicodeTable} (response : Response) : ST (nat * stream_client) unit := fun s =>
  let c := s.2 in
  (response ← with_ids (normalizeResponseForStreaming response {[cl_messageOutputIndex c := cl_itemID c]});
   match outputs response !! cl_messageOutputIndex c with
   | None => st_err (EMsg "local stream completed without message output item")
   | Some item =>
       let outputText := if decide (TrimSpace (r_OutputText response) = "") then MessageText item
                         else r_OutputText response in
       on_emitter (finish_stream (cl_responseID c) (cl_itemID c) (cl_messageOutputIndex c) response item outputText)
   end) s.

(** After the service has failed. *)
Definition stream_failed `{LibraryText} (e : goerr) : ST (nat * stream_client) unit := fun s =>
  if errors_is ECanceled e then (Ok tt, s)
  else match cl_emitter s.2 with
  | None => (Err e, s)
  | Some _ =>
      match on_emitter (emit_error (MapError (Some e)).2) s with
      | (Panic, s') => (Panic, s')
      | (_, s') => (Ok tt, s')
      end
  end.

Definition stream_hooks `{IdSource} (streamOptions : responseStreamOptions) : StreamHooks stream_client :=
  {| OnCreated := Some (on_created (so_IncludeObfuscation streamOptions)); OnDelta := Some on_delta |}.

Definition createStream `{Sqlite} `{IdSource} `{MapOrder} `{UnicodeTable} `{RequestContext} `{TextModel} `{Generator}
    `{Clock} `{LibraryText} (s : ResponseService) (request : CreateResponseRequest) (requestJSON : string)
    (generationOptions : list (string * json)) (streamOptions : responseStreamOptions)
    : ST (sworld * stream_client) unit := fun w =>
  match CreateStream s (stream_input request requestJSON generationOptions) (stream_hooks streamOptions) w with
  | (Ok response, w') => in_handler (stream_completed response) w'
  | (Err e, w') => in_handler (stream_failed e) w'
  | (Panic, w') => (Panic, w')
  end.
End handler.
