(* ===== verification/Replay.v ===== *)
(** * Replaying a stored response as events: internal/httpapi/response_retrieve.go,
      response_stream_replay.go, response_replay_local_coding_tools.go and the
      shapes of tool events in response_stream_proxy.go

    A client that retrieves a response with stream=true gets the events a
    stream would have sent, made up from the stored response.

    A [map[string]any] is a [gomap]: [None] is nil, and assigning to it panics.
    The code visits the events of an item one after the other and stops at the
    first error; here they are a list that [visit_all] goes through.  What can
    panic for an item panics before its first event. *)

From S2P Require Import Prelude GoStr GoFloat GoJson JsonFacts StrFacts GoInt World Items Normalize Context Store Memory TextFormat Response Chat ChatStream ApiErrors Sse Streaming.

Definition gomap : Type := option (list (string * gval)).

Definition entry (k : string) (m : gomap) : option gval := m ≫= am_lookup k.
Definition assign (k : string) (v : gval) (m : gomap) : res gomap :=
  match m with None => Panic | Some m => Ok (Some (am_insert k v m)) end.

Record responseReplayEvent := { re_eventType : string; re_payload : list (string * json) }.

(** An event whose payload repeats its type. *)
Definition typed_event (eventType : string) (fields : list (string * json)) : responseReplayEvent :=
  {| re_eventType := eventType; re_payload := ("type", json_str eventType) :: fields |}.

(** ** Types of items *)

Definition localBuiltinShellCallType : string := "shell_call".
Definition localBuiltinApplyPatchCallType : string := "apply_patch_call".

Definition isMCPToolStreamItemType (itemType : string) : bool :=
  bool_decide (TrimSpace itemType ∈ ["mcp_call"; "mcp_tool_call"]).

Definition isToolStreamItemType (itemType : string) : bool :=
  bool_decide (TrimSpace itemType ∈ ["function_call"; "custom_tool_call"; "mcp_call"; "mcp_tool_call"]).

Definition isLocalCodingToolStreamItemType (itemType : string) : bool :=
  bool_decide (TrimSpace itemType ∈ [localBuiltinShellCallType; localBuiltinApplyPatchCallType]).

Definition isSyntheticReplayOutputItemType (itemType : string) : bool :=
  bool_decide (TrimSpace itemType ∈
    ["function_call"; "custom_tool_call"; "mcp_call"; "mcp_tool_call"; localBuiltinShellCallType;
     localBuiltinApplyPatchCallType; "mcp_approval_request"; "mcp_list_tools"; "tool_search_call";
     "tool_search_output"; "web_search_call"; "file_search_call"; "code_interpreter_call"; "computer_call";
     "image_generation_call"]).

Definition syntheticReplayAddedItemNeedsInProgressStatus (itemType : string) (item : gomap) : bool :=
  if decide (TrimSpace itemType ∈ ["mcp_approval_request"; "mcp_list_tools"])
  then bool_decide (TrimSpace (asString (entry "status" item)) <> "") else true.

(** The events of a tool call, and the field its value is in. *)
Definition toolStreamEventShape (itemType : string) : string * string * string :=
  let itemType := TrimSpace itemType in
  if decide (itemType = "custom_tool_call") then
    ("response.custom_tool_call_input.delta", "response.custom_tool_call_input.done", "input")
  else if decide (itemType ∈ ["mcp_call"; "mcp_tool_call"]) then
    ("response.mcp_call_arguments.delta", "response.mcp_call_arguments.done", "arguments")
  else ("response.function_call_arguments.delta", "response.function_call_arguments.done", "arguments").

Definition toolStreamProgressEventType (itemType : string) : string :=
  if isMCPToolStreamItemType itemType then "response.mcp_call.in_progress" else "".

Definition toolStreamFailureEventType (itemType : string) : string :=
  if isMCPToolStreamItemType itemType then "response.mcp_call.failed" else "".

Definition isFailedToolStreamItem (item : gomap) : bool :=
  match item with
  | None => false
  | Some m =>
      EqualFold (TrimSpace (asString (am_lookup "status" m))) "failed" ||
      match am_lookup "error" m with
      | None | Some GNull | Some (GMap []) => false
      | Some _ => true
      end
  end.

Definition hostedToolReplayEventTypes (itemType : string) (item : gomap) : list string :=
  let itemType := TrimSpace itemType in
  if isFailedToolStreamItem item then []
  else if decide (itemType = "web_search_call") then
    ["response.web_search_call.in_progress"; "response.web_search_call.searching"; "response.web_search_call.completed"]
  else if decide (itemType = "file_search_call") then
    ["response.file_search_call.in_progress"; "response.file_search_call.searching"; "response.file_search_call.completed"]
  else if decide (itemType = "image_generation_call") then
    ["response.image_generation_call.in_progress"; "response.image_generation_call.generating"]
  else [].

(** ** Items *)

Definition replayItemPayload (item : Item) : res gomap :=
  let id := TrimSpace (ID item) in
  if decide (id = "") then Ok (Map item) else assign "id" (GStr id) (Map item).

(** The identifier of a tool item, and the item that has it. *)
Definition ensureCompletedToolItemID (item : gomap) (responseID : string) (outputIndex : nat) : string * gomap :=
  match item with
  | None => ("", None)
  | Some m =>
      let itemID := TrimSpace (asString (am_lookup "id" m)) in
      let callID := TrimSpace (asString (am_lookup "call_id" m)) in
      if decide (itemID <> "") then (itemID, item)
      else if decide (callID <> "") then (callID, Some (am_insert "id" (GStr callID) m))
      else
        let suffix := TrimPrefix (TrimSpace responseID) "resp_" in
        let suffix := if decide (suffix = "") then "stream_proxy" else suffix in
        let itemID := "item_" +:+ suffix +:+ "_" +:+ int_text (Z.of_nat outputIndex) in
        (itemID, Some (am_insert "id" (GStr itemID) m))
  end.

Definition emptyHostedSlicePlaceholder (value : gval) : gval :=
  match value with GArr _ => GArr [] | _ => value end.

(** The map in field [k], or an empty one. *)
Definition nested (k : string) (m : list (string * gval)) : list (string * gval) :=
  match am_lookup k m with Some (GMap inner) => inner | _ => [] end.

Definition replace_present (k : string) (f : gval -> gval) (m : list (string * gval)) : list (string * gval) :=
  match am_lookup k m with Some v => am_insert k (f v) m | None => m end.

Definition delete_all (ks : list string) (m : list (string * gval)) : list (string * gval) :=
  foldl (fun m k => am_delete k m) m ks.

(** What an item shows of its type before it is done. *)
Definition snapshot_of_type (itemType : string) (m : list (string * gval)) : list (string * gval) :=
  if decide (itemType ∈ ["function_call"; "mcp_call"; "mcp_tool_call"]) then am_insert "arguments" (GStr "") m
  else if decide (itemType = "custom_tool_call") then am_insert "input" (GStr "") m
  else if decide (itemType = localBuiltinShellCallType) then
    am_insert "action" (GMap (am_insert "timeout_ms" GNull (am_insert "max_output_length" GNull
                                (am_insert "commands" (GArr []) (nested "action" m))))) m
  else if decide (itemType = localBuiltinApplyPatchCallType) then
    am_insert "operation" (GMap (am_insert "diff" (GStr "") (nested "operation" m))) m
  else if decide (itemType = "web_search_call") then am_delete "action" m
  else if decide (itemType = "file_search_call") then
    delete_all ["results"; "search_results"] (replace_present "queries" (fun _ => GArr []) m)
  else if decide (itemType = "code_interpreter_call") then
    am_delete "output" (replace_present "outputs" emptyHostedSlicePlaceholder
                          (replace_present "code" (fun _ => GStr "") m))
  else if decide (itemType = "computer_call") then am_delete "actions" m
  else if decide (itemType = "image_generation_call") then
    delete_all ["background"; "output_format"; "quality"; "size"; "result"; "revised_prompt"; "action"] m
  else m.

Definition inProgressOutputItemSnapshot (item : gomap) : list (string * gval) :=
  let cloned := default [] item in
  let itemType := TrimSpace (asString (am_lookup "type" cloned)) in
  let cloned := snapshot_of_type itemType cloned in
  let cloned := if isMCPToolStreamItemType itemType then am_delete "output" cloned else cloned in
  let cloned := am_delete "error" cloned in
  if syntheticReplayAddedItemNeedsInProgressStatus itemType item
  then am_insert "status" (GStr "in_progress") cloned else cloned.

(** The item of the event response.output_item.added. *)
Definition added_item (responseID : string) (outputIndex : nat) (item : Item) : res gomap :=
  let itemType := TrimSpace (Type_ item) in
  let synthetic := isSyntheticReplayOutputItemType itemType in
  payload ← replayItemPayload item;
  payload ← (if decide (itemType = "message") then assign "content" (GArr []) payload
             else if synthetic then
               let payload := if isToolStreamItemType itemType
                              then (ensureCompletedToolItemID payload responseID outputIndex).2 else payload in
               Ok (Some (inProgressOutputItemSnapshot payload))
             else Ok payload);
  if bool_decide (itemType = "message") || negb synthetic && bool_decide (TrimSpace (Status item) <> "")
  then assign "status" (GStr "in_progress") payload else Ok payload.

(** ** The events of an item *)

Definition obfuscation (includeObfuscation : bool) (text : string) : list (string * json) :=
  if includeObfuscation then [("obfuscation", json_str (repeat_text "x" (rune_count text)))] else [].

Definition index_json (i : nat) : json := json_int (Z.of_nat i).

Definition responseReplayTextDeltaEvent (responseID itemID : string) (outputIndex contentIndex : nat) (text : string)
    (includeObfuscation : bool) : responseReplayEvent :=
  typed_event "response.output_text.delta"
    ([("response_id", json_str responseID); ("item_id", json_str itemID); ("output_index", index_json outputIndex);
      ("content_index", index_json contentIndex); ("delta", json_str text)] ++ obfuscation includeObfuscation text).

Definition responseReplayToolDeltaEvent (eventType responseID itemID : string) (outputIndex : nat) (value : string)
    (includeObfuscation : bool) : responseReplayEvent :=
  typed_event eventType
    ([("response_id", json_str responseID); ("item_id", json_str itemID); ("output_index", index_json outputIndex);
      ("delta", json_str value)] ++ obfuscation includeObfuscation value).

Definition responseReplayReasoningDeltaEvent (itemID : string) (outputIndex contentIndex : nat) (text : string)
    : responseReplayEvent :=
  typed_event "response.reasoning_text.delta"
    [("item_id", json_str itemID); ("output_index", index_json outputIndex); ("content_index", index_json contentIndex);
     ("delta", json_str text)].

Definition responseReplayItemParts (item : Item) : list (list (string * gval)) :=
  match entry "content" (Map item) with
  | Some (GArr rawParts) => omap (fun rawPart => match rawPart with GMap part => Some part | _ => None end) rawParts
  | _ => []
  end.

Definition is_nil (value : gval) : bool := match value with GNull => true | _ => false end.

Definition responseReplayPartAnnotations (part : list (string * gval)) : list gval :=
  match am_lookup "annotations" part with
  | Some (GArr rawAnnotations) => filter (fun annotation => is_nil annotation = false) rawAnnotations
  | _ => []
  end.

(** What the events of a content part say of where it is. *)
Definition part_place (itemID : string) (outputIndex contentIndex : nat) : list (string * json) :=
  [("item_id", json_str itemID); ("output_index", index_json outputIndex); ("content_index", index_json contentIndex)].

Definition forEachResponseReplayTextAnnotationEvent (itemID : string) (outputIndex contentIndex : nat)
    (annotations : list gval) : list responseReplayEvent :=
  imap (fun annotationIndex annotation =>
          typed_event "response.output_text.annotation.added"
            (part_place itemID outputIndex contentIndex ++
             [("annotation_index", index_json annotationIndex); ("annotation", of_any annotation)])) annotations.

(** The events of a part of a message. *)
Definition message_part_events (responseID itemID : string) (outputIndex : nat) (includeObfuscation : bool)
    (contentIndex : nat) (part : list (string * gval)) : list responseReplayEvent :=
  let place := part_place itemID outputIndex contentIndex in
  if decide (TrimSpace (asString (am_lookup "type" part)) = "output_text") then
    let text := asString (am_lookup "text" part) in
    let addedPart := am_insert "annotations" (GArr []) (am_insert "text" (GStr "") part) in
    [typed_event "response.content_part.added" (place ++ [("part", of_any (GMap addedPart))])] ++
    (if decide (text = "") then []
     else [responseReplayTextDeltaEvent responseID itemID outputIndex contentIndex text includeObfuscation]) ++
    forEachResponseReplayTextAnnotationEvent itemID outputIndex contentIndex (responseReplayPartAnnotations part) ++
    [typed_event "response.output_text.done"
       (("response_id", json_str responseID) :: place ++ [("text", json_str text)]);
     typed_event "response.content_part.done" (place ++ [("part", of_any (GMap part))])]
  else
    [typed_event "response.content_part.added" (place ++ [("part", of_any (GMap part))]);
     typed_event "response.content_part.done" (place ++ [("part", of_any (GMap part))])].

(** The events of a part of a reasoning item. *)
Definition reasoning_part_events (itemID : string) (outputIndex contentIndex : nat) (part : list (string * gval))
    : list responseReplayEvent :=
  let text := asString (am_lookup "text" part) in
  if decide (TrimSpace (asString (am_lookup "type" part)) <> "reasoning_text" \/ text = "") then []
  else
    [responseReplayReasoningDeltaEvent itemID outputIndex contentIndex text;
     typed_event "response.reasoning_text.done" (part_place itemID outputIndex contentIndex ++ [("text", json_str text)])].

(** The events of a function, custom tool or MCP call. *)
Definition tool_call_events (responseID itemID : string) (outputIndex : nat) (includeObfuscation : bool)
    (itemType : string) (payload : gomap) : list responseReplayEvent :=
  let '(deltaEvent, doneEvent, valueKey) := toolStreamEventShape itemType in
  let progressEvent := toolStreamProgressEventType itemType in
  let failedEvent := toolStreamFailureEventType itemType in
  let doneItem := (ensureCompletedToolItemID payload responseID outputIndex).2 in
  let value := TrimSpace (asString (entry valueKey doneItem)) in
  let place := [("response_id", json_str responseID); ("item_id", json_str itemID); ("output_index", index_json outputIndex)] in
  (if decide (value = "") then []
   else [responseReplayToolDeltaEvent deltaEvent responseID itemID outputIndex value includeObfuscation]) ++
  [typed_event doneEvent (place ++ [("item", map_json doneItem)] ++
                          if decide (value = "") then [] else [(valueKey, json_str value)])] ++
  (if decide (progressEvent = "") then [] else [typed_event progressEvent place]) ++
  (if bool_decide (failedEvent <> "") && isFailedToolStreamItem doneItem then
     [typed_event failedEvent (place ++ match entry "error" doneItem with
                                        | None | Some GNull => []
                                        | Some errPayload => [("error", of_any errPayload)]
                                        end)]
   else []).

(** ** Hosted and local tools *)

Record responseReplayProfile := {
  rp_replayClass : string;
  rp_capabilities : list string;
  rp_includeShellToolFamily : bool;
  rp_includeApplyPatchToolFamily : bool
}.

Definition completedResponseReplayProfile : responseReplayProfile :=
  {| rp_replayClass := "create_stream_completed_response";
     rp_capabilities := ["typed_text"; "typed_function_call"; "typed_tool_family"; "generic_replay"];
     rp_includeShellToolFamily := true; rp_includeApplyPatchToolFamily := true |}.

Definition retrieveResponseReplayProfile : responseReplayProfile :=
  {| rp_replayClass := "retrieve_stream_synthetic_replay";
     rp_capabilities := ["typed_text"; "typed_tool_family"; "generic_replay"];
     rp_includeShellToolFamily := false; rp_includeApplyPatchToolFamily := true |}.

(** The events of one command of a shell call. *)
Definition shell_command_events (outputIndex : nat) (includeObfuscation : bool) (commandIndex : nat) (rawCommand : gval)
    : list responseReplayEvent :=
  let command := TrimSpace (any_text rawCommand) in
  let place := [("command_index", index_json commandIndex); ("output_index", index_json outputIndex)] in
  [typed_event "response.shell_call_command.added" (("command", json_str "") :: place)] ++
  (if decide (command = "") then []
   else [typed_event "response.shell_call_command.delta"
           (place ++ [("delta", json_str command)] ++ obfuscation includeObfuscation command)]) ++
  [typed_event "response.shell_call_command.done" (("command", json_str command) :: place)].

Definition forEachLocalCodingToolReplayEvent (item : gomap) (itemID : string) (outputIndex : nat)
    (includeObfuscation : bool) (profile : responseReplayProfile) : list responseReplayEvent :=
  let itemType := TrimSpace (asString (entry "type" item)) in
  let place := [("item_id", json_str itemID); ("output_index", index_json outputIndex)] in
  if decide (itemType = localBuiltinShellCallType) then
    if negb (rp_includeShellToolFamily profile) then []
    else match am_lookup "commands" (nested "action" (default [] item)) with
         | Some (GArr rawCommands) => concat (imap (shell_command_events outputIndex includeObfuscation) rawCommands)
         | _ => []
         end
  else if decide (itemType = localBuiltinApplyPatchCallType) then
    if negb (rp_includeApplyPatchToolFamily profile) then []
    else
      let diff := asString (am_lookup "diff" (nested "operation" (default [] item))) in
      (if decide (diff = "") then []
       else [typed_event "response.apply_patch_call_operation_diff.delta"
               (place ++ [("delta", json_str diff)] ++ obfuscation includeObfuscation diff)]) ++
      [typed_event "response.apply_patch_call_operation_diff.done" (place ++ [("diff", json_str diff)])]
  else [].

Definition hostedToolReplayEventPayload (eventType itemID : string) (outputIndex : nat) : responseReplayEvent :=
  typed_event eventType [("item_id", json_str itemID); ("output_index", index_json outputIndex)].

Definition forEachCodeInterpreterReplayEvent (item : gomap) (itemID : string) (outputIndex : nat)
    (includeObfuscation : bool) : list responseReplayEvent :=
  let place := [("item_id", json_str itemID); ("output_index", index_json outputIndex)] in
  if bool_decide (TrimSpace (asString (entry "type" item)) <> "code_interpreter_call") || isFailedToolStreamItem item then []
  else
    [hostedToolReplayEventPayload "response.code_interpreter_call.in_progress" itemID outputIndex] ++
    match entry "code" item with
    | None => []
    | Some _ =>
        let code := asString (entry "code" item) in
        (if decide (code = "") then []
         else [typed_event "response.code_interpreter_call_code.delta"
                 (place ++ [("delta", json_str code)] ++ obfuscation includeObfuscation code)]) ++
        [typed_event "response.code_interpreter_call_code.done" (place ++ [("code", json_str code)])]
    end ++
    [hostedToolReplayEventPayload "response.code_interpreter_call.interpreting" itemID outputIndex;
     hostedToolReplayEventPayload "response.code_interpreter_call.completed" itemID outputIndex].

(** ** The events of a response *)

Section replay.
Context `{FloatConversion} `{UnicodeTable}.

Definition intAttr (value : option gval) : option Z := anyInt value.

(** The event an artifact gives for an item, if it is one of it. *)
Definition artifact_event (outputIndex : nat) (itemID : string) (artifact : ResponseReplayArtifact)
    : option responseReplayEvent :=
  let eventType := TrimSpace (ra_EventType artifact) in
  if decide (eventType = "" \/ TrimSpace (ra_PayloadJSON artifact) = "") then None
  else match jparse (ra_PayloadJSON artifact) ≫= any_map with
  | None => None
  | Some payload =>
      if decide (TrimSpace (asString (entry "item_id" payload)) = itemID /\
                 intAttr (entry "output_index" payload) = Some (Z.of_nat outputIndex)) then
        Some {| re_eventType := eventType;
                re_payload := map (fun kv => (kv.1, of_any kv.2)) (am_insert "type" (GStr eventType) (default [] payload)) |}
      else None
  end.

Definition forEachResponseReplayArtifactEventForItem (outputIndex : nat) (itemID : string)
    (artifacts : list ResponseReplayArtifact) : list responseReplayEvent :=
  if decide (TrimSpace itemID = "") then [] else omap (artifact_event outputIndex itemID) artifacts.

(** forEachResponseReplayOutputItemEvent *)
Definition replay_item_events (responseID : string) (outputIndex : nat) (item : Item)
    (artifacts : list ResponseReplayArtifact) (includeObfuscation : bool) (profile : responseReplayProfile)
    : res (list responseReplayEvent) :=
  let itemType := TrimSpace (Type_ item) in
  addedItem ← added_item responseID outputIndex item;
  payload ← replayItemPayload item;
  let itemID := if isLocalCodingToolStreamItemType itemType
                then (ensureCompletedToolItemID addedItem responseID outputIndex).1
                else TrimSpace (asString (entry "id" addedItem)) in
  let ownID := TrimSpace (ID item) in
  let parts := responseReplayItemParts item in
  let doneItem := if isToolStreamItemType itemType || isLocalCodingToolStreamItemType itemType
                  then (ensureCompletedToolItemID payload responseID outputIndex).2 else payload in
  let item_event eventType item := typed_event eventType [("output_index", index_json outputIndex); ("item", map_json item)] in
  Ok ([item_event "response.output_item.added" addedItem] ++
      (if decide (itemType = "message") then
         concat (imap (message_part_events responseID ownID outputIndex includeObfuscation) parts)
       else if decide (itemType = "reasoning") then concat (imap (reasoning_part_events ownID outputIndex) parts)
       else if decide (itemType ∈ ["function_call"; "custom_tool_call"; "mcp_call"; "mcp_tool_call"]) then
         tool_call_events responseID itemID outputIndex includeObfuscation itemType payload
       else []) ++
      forEachLocalCodingToolReplayEvent payload itemID outputIndex includeObfuscation profile ++
      forEachCodeInterpreterReplayEvent payload itemID outputIndex includeObfuscation ++
      map (fun eventType => hostedToolReplayEventPayload eventType itemID outputIndex)
        (hostedToolReplayEventTypes itemType payload) ++
      forEachResponseReplayArtifactEventForItem outputIndex itemID artifacts ++
      [item_event "response.output_item.done" doneItem]).

(** A response without what only its end decides. *)
Definition unfinished (r : Response) : Response :=
  {| r_ID := r_ID r; r_Object := r_Object r; r_CreatedAt := r_CreatedAt r; r_Status := r_Status r;
     r_CompletedAt := None; r_Error := None; r_FrequencyPenalty := r_FrequencyPenalty r;
     r_IncompleteDetails := None; r_Instructions := r_Instructions r;
     r_MaxOutputTokens := r_MaxOutputTokens r; r_MaxToolCalls := r_MaxToolCalls r; r_Model := r_Model r;
     r_Output := Some []; r_ParallelToolCalls := r_ParallelToolCalls r;
     r_PresencePenalty := r_PresencePenalty r; r_PreviousResponseID := r_PreviousResponseID r;
     r_Prompt := r_Prompt r; r_PromptCacheKey := r_PromptCacheKey r;
     r_PromptCacheRetention := r_PromptCacheRetention r; r_Reasoning := r_Reasoning r;
     r_SafetyIdentifier := r_SafetyIdentifier r; r_ServiceTier := r_ServiceTier r;
     r_Conversation := r_Conversation r; r_Background := r_Background r; r_Store := r_Store r;
     r_Temperature := r_Temperature r; r_Text := r_Text r; r_ToolChoice := r_ToolChoice r; r_Tools := r_Tools r;
     r_TopLogprobs := r_TopLogprobs r; r_TopP := r_TopP r; r_Truncation := r_Truncation r; r_Usage := r_Usage r;
     r_User := r_User r; r_Metadata := r_Metadata r; r_OutputText := "" |}.

Definition responseReplaySnapshot (response : Response) (status : string) (completed : bool) : Response :=
  let snapshot := set_Status status response in
  if completed then snapshot else unfinished snapshot.

Definition finalEventType (response : Response) : string :=
  let status := TrimSpace (r_Status response) in
  if decide (status = "" \/ status = "completed") then "response.completed" else "response." +:+ status.

Section visit.
Context {S : Type} (visit : responseReplayEvent -> ST S unit).

Fixpoint visit_all (events : list responseReplayEvent) : ST S unit :=
  match events with [] => mret tt | event :: events => _ ← visit event; visit_all events end.

(** The loop over the output items. *)
Fixpoint replay_items (responseID : string) (outputIndex : nat) (items : list Item)
    (artifacts : list ResponseReplayArtifact) (includeObfuscation : bool) (profile : responseReplayProfile) : ST S unit :=
  match items with
  | [] => mret tt
  | item :: items =>
      events ← st_lift (replay_item_events responseID outputIndex item artifacts includeObfuscation profile);
      _ ← visit_all events;
      replay_items responseID (outputIndex + 1) items artifacts includeObfuscation profile
  end.

Definition forEachResponseReplayEvent (response : Response) (artifacts : list ResponseReplayArtifact)
    (includeObfuscation : bool) (profile : responseReplayProfile) : ST S unit :=
  let created := response_value (responseReplaySnapshot response "in_progress" false) in
  _ ← visit (typed_event "response.created" [("response", created)]);
  _ ← visit (typed_event "response.in_progress" [("response", created)]);
  _ ← replay_items (r_ID response) 0 (responseReplayOutputItems response) artifacts includeObfuscation profile;
  visit (typed_event (finalEventType response) [("response", response_value response)]).
End visit.

(** ** response_stream_replay.go *)

Record responseReplayEmitOptions := {
  ro_IncludeObfuscation : bool;
  ro_StartingAfter : Z;
  ro_Profile : responseReplayProfile
}.

Record responseReplayEmitSummary := {
  rs_ReplayClass : string;
  rs_Capabilities : list string;
  rs_EventCount : Z;
  rs_LastEvent : string;
  rs_EmittedCount : Z
}.

(** Without repetitions and empty names. *)
Fixpoint capability_names (seen : list string) (capabilities : list string) : list string :=
  match capabilities with
  | [] => []
  | capability :: capabilities =>
      if decide (capability = "" \/ capability ∈ seen) then capability_names seen capabilities
      else capability :: capability_names (capability :: seen) capabilities
  end.
Definition responseReplayCapabilityNames : list string -> list string := capability_names [].

(** The payload with its number. *)
Definition numbered_event (event : responseReplayEvent) (n : Z) : responseReplayEvent :=
  {| re_eventType := re_eventType event; re_payload := re_payload event ++ [("sequence_number", json_int n)] |}.

Section emit.
Context {E : Type} (Emit : responseReplayEvent -> ST E unit).

(** The function emitResponseReplayEvents passes as visit. *)
Definition emit_visit (options : responseReplayEmitOptions) (event : responseReplayEvent)
    : ST (responseReplayEmitSummary * E) unit := fun '(summary, e) =>
  let n := (rs_EventCount summary + 1)%Z in
  let counted emitted :=
    {| rs_ReplayClass := rs_ReplayClass summary; rs_Capabilities := rs_Capabilities summary; rs_EventCount := n;
       rs_LastEvent := re_eventType event; rs_EmittedCount := emitted |} in
  if (0 <? ro_StartingAfter options)%Z && (n <=? ro_StartingAfter options)%Z
  then (Ok tt, (counted (rs_EmittedCount summary), e))
  else match Emit (numbered_event event n) e with
       | (Ok _, e') => (Ok tt, (counted (rs_EmittedCount summary + 1)%Z, e'))
       | (Err err, e') => (Err err, (counted (rs_EmittedCount summary), e'))
       | (Panic, e') => (Panic, (counted (rs_EmittedCount summary), e'))
       end.

Definition emitResponseReplayEvents (response : Response) (artifacts : list ResponseReplayArtifact)
    (options : responseReplayEmitOptions) : ST E responseReplayEmitSummary := fun e =>
  let summary := {| rs_ReplayClass := rp_replayClass (ro_Profile options);
                    rs_Capabilities := responseReplayCapabilityNames (rp_capabilities (ro_Profile options));
                    rs_EventCount := 0; rs_LastEvent := ""; rs_EmittedCount := 0 |} in
  match forEachResponseReplayEvent (emit_visit options) response artifacts (ro_IncludeObfuscation options)
          (ro_Profile options) (summary, e) with
  | (Ok _, (summary, e')) => (Ok summary, e')
  | (Err err, (_, e')) => (Err err, e')
  | (Panic, (_, e')) => (Panic, e')
  end.
End emit.

Definition sse_Emit `{Writer} (event : responseReplayEvent) : ST responseStreamEmitter unit :=
  write (re_eventType event) (json_map (re_payload event)).

(** The connection after the replay, if the response could be written to it. *)
Definition writeResponseReplayAsSSE `{Writer} (response : Response) (artifacts : list ResponseReplayArtifact)
    (startingAfter : Z) (includeObfuscation : bool) : res unit * option responseStreamEmitter :=
  match newResponseStreamEmitter false with
  | Ok emitter =>
      let '(r, e) := (_ ← emitResponseReplayEvents sse_Emit response artifacts
                            {| ro_IncludeObfuscation := includeObfuscation; ro_StartingAfter := startingAfter;
                               ro_Profile := retrieveResponseReplayProfile |};
                      emit_done) emitter in
      (r, Some e)
  | Err err => (Err err, None)
  | Panic => (Panic, None)
  end.
End replay.
