(* ===== verification/ReplayProps.v ===== *)
(** * What a replay shows of a response

    A replay is one trace of numbered events; a client that resumes after the
    [n]-th gets the rest of the same trace.  The events of an item stand between
    the one that adds it and the one that completes it, and name it. *)

From S2P Require Import Prelude GoStr GoFloat GoJson JsonFacts StrFacts GoInt World Items ItemFacts Normalize NormProps Context Store Memory TextFormat Response Chat ChatStream ChatStreamProps ApiErrors ApiErrorProps Sse SseProps Streaming Replay.

(** ** The trace of a replay *)

Definition frame (event : responseReplayEvent) : string :=
  event_text (re_eventType event) (json_map (re_payload event)).

(** The events with their numbers. *)
Definition numbered_trace (count : nat) (events : list responseReplayEvent) : list responseReplayEvent :=
  imap (fun i event => numbered_event event (Z.of_nat (count + i) + 1)) events.

Section trace.
Context `{FloatConversion} `{UnicodeTable}.
Context (artifacts : list ResponseReplayArtifact) (includeObfuscation : bool) (profile : responseReplayProfile).

Fixpoint items_trace (responseID : string) (outputIndex : nat) (items : list Item) : res (list responseReplayEvent) :=
  match items with
  | [] => Ok []
  | item :: items =>
      events ← replay_item_events responseID outputIndex item artifacts includeObfuscation profile;
      rest ← items_trace responseID (outputIndex + 1) items;
      Ok (events ++ rest)
  end.

Definition replay_trace (response : Response) : res (list responseReplayEvent) :=
  let created := response_value (responseReplaySnapshot response "in_progress" false) in
  middle ← items_trace (r_ID response) 0 (responseReplayOutputItems response);
  Ok ([typed_event "response.created" [("response", created)]; typed_event "response.in_progress" [("response", created)]] ++
      middle ++ [typed_event (finalEventType response) [("response", response_value response)]]).

Lemma visit_all_app {S} (visit : responseReplayEvent -> ST S unit) l1 l2 s :
  visit_all visit (l1 ++ l2) s = (_ ← visit_all visit l1; visit_all visit l2) s.
Proof.
  revert s. induction l1 as [|event l1 IH]; intros s; [done|]. cbn [app visit_all]. rewrite !st_bind_eq.
  destruct (visit event s) as [[[]|e|] s']; [|done|done]. by rewrite IH, st_bind_eq.
Qed.

Lemma replay_items_trace {S} (visit : responseReplayEvent -> ST S unit) responseID i items events s :
  items_trace responseID i items = Ok events ->
  replay_items visit responseID i items artifacts includeObfuscation profile s = visit_all visit events s.
Proof.
  revert i events s. induction items as [|item items IH]; intros i events s; simpl; [by intros [= <-]|].
  rewrite !st_bind_eq. unfold st_lift.
  destruct (replay_item_events responseID i item artifacts includeObfuscation profile) as [l|e|]; [|done|done].
  cbn [mbind res_bind]. destruct (items_trace responseID (i + 1) items) as [rest|e|] eqn:E; [|done|done].
  intros [= <-]. rewrite st_bind_eq, visit_all_app, st_bind_eq.
  destruct (visit_all visit l s) as [[[]|e|] s']; [|done|done]. by apply IH.
Qed.

(** The code visits the trace. *)
Lemma forEach_trace {S} (visit : responseReplayEvent -> ST S unit) response events s :
  replay_trace response = Ok events ->
  forEachResponseReplayEvent visit response artifacts includeObfuscation profile s = visit_all visit events s.
Proof.
  unfold replay_trace, forEachResponseReplayEvent. cbv zeta.
  destruct (items_trace (r_ID response) 0 (responseReplayOutputItems response)) as [middle|e|] eqn:E; [|done|done].
  cbn [mbind res_bind]. intros [= <-]. cbn [app visit_all]. rewrite !st_bind_eq.
  destruct (visit _ s) as [[[]|e|] s1]; [|done|done]. rewrite !st_bind_eq.
  destruct (visit _ s1) as [[[]|e|] s2]; [|done|done].
  rewrite st_bind_eq, (replay_items_trace visit _ _ _ middle s2 E), visit_all_app, st_bind_eq.
  destruct (visit_all visit middle s2) as [[[]|e|] s3]; [|done|done]. cbn [visit_all]. rewrite st_bind_eq.
  destruct (visit _ s3) as [[[]|e|] s4]; done.
Qed.
End trace.

(** ** Items have events *)

Lemma replayItemPayload_ok item : Map item <> None -> exists m, replayItemPayload item = Ok (Some m).
Proof.
  unfold replayItemPayload. destruct (Map item) as [m|]; [|done]. intros _. case_decide; by eexists.
Qed.

Lemma assign_ok k v m : assign k v (Some m) = Ok (Some (am_insert k v m)).
Proof. done. Qed.

Lemma ensure_some m responseID i : exists m', (ensureCompletedToolItemID (Some m) responseID i).2 = Some m'.
Proof. unfold ensureCompletedToolItemID. repeat case_decide; by eexists. Qed.

Lemma added_item_ok responseID i item : Map item <> None -> exists m, added_item responseID i item = Ok (Some m).
Proof.
  intros [m Hm]%replayItemPayload_ok. unfold added_item. rewrite Hm. cbn [mbind res_bind]. cbv zeta.
  case_decide; [|destruct (isSyntheticReplayOutputItemType _)]; cbn [assign mbind res_bind];
    destruct (_ || _); by eexists.
Qed.

Lemma output_text_map `{UnicodeTable} text : Map (NewOutputTextMessage text) <> None.
Proof.
  unfold NewOutputTextMessage. match goal with |- context [NewItem ?s] => destruct (NewItem s) as [i|e|] eqn:E end; [|done|done].
  apply (NewItem_item_inv _ _ (Meta i)) in E. rewrite set_meta_self in E. apply item_inv_map in E as (m & Hm & _).
  simpl. by rewrite Hm.
Qed.

Section items.
Context `{FloatConversion} `{UnicodeTable}.

Lemma item_events_ok responseID i item artifacts obfuscate profile : Map item <> None ->
  exists events, replay_item_events responseID i item artifacts obfuscate profile = Ok events.
Proof.
  intros Hm. unfold replay_item_events. cbv zeta.
  destruct (added_item_ok responseID i item Hm) as [a ->]. destruct (replayItemPayload_ok item Hm) as [p ->].
  by eexists.
Qed.

Lemma items_trace_ok artifacts obfuscate profile responseID i items :
  Forall (fun item => Map item <> None) items ->
  exists events, items_trace artifacts obfuscate profile responseID i items = Ok events.
Proof.
  intros Hi. revert i. induction Hi as [|item items Hm Hi IH]; intros i; simpl; [by eexists|].
  destruct (item_events_ok responseID i item artifacts obfuscate profile Hm) as [events ->].
  destruct (IH (i + 1)) as [rest ->]. by eexists.
Qed.

Lemma replay_output_items response : Forall (fun item => Map item <> None) (outputs response) ->
  Forall (fun item => Map item <> None) (responseReplayOutputItems response).
Proof.
  unfold responseReplayOutputItems. destruct (outputs response) as [|item items]; [|done]. intros _.
  case_decide; [done|]. apply Forall_singleton, output_text_map.
Qed.

Lemma replay_trace_ok artifacts obfuscate profile response :
  Forall (fun item => Map item <> None) (outputs response) ->
  exists events, replay_trace artifacts obfuscate profile response = Ok events.
Proof.
  intros Hi%replay_output_items. unfold replay_trace. cbv zeta.
  destruct (items_trace_ok artifacts obfuscate profile (r_ID response) 0 _ Hi) as [events ->]. by eexists.
Qed.
End items.

(** ** Writing the trace *)

Lemma drop_numbered_cons k count event events :
  drop k (numbered_trace count (event :: events)) =
  match k with
  | 0 => numbered_event event (Z.of_nat count + 1) :: numbered_trace (S count) events
  | S k => drop k (numbered_trace (S count) events)
  end.
Proof.
  unfold numbered_trace. cbn [imap]. rewrite Nat.add_0_r.
  rewrite (imap_ext _ (fun i event => numbered_event event (Z.of_nat (S count + i) + 1)) events).
  - by destruct k.
  - intros j ? _. cbn [compose]. do 2 f_equal. lia.
Qed.

Section writing.
Context `{Writer}.
Hypothesis reliable_writer : forall n, write_fails n = None.

(** From an event count on, what is numbered above starting_after is written. *)
Lemma emit_trace options events (summary : responseReplayEmitSummary) count e :
  rs_EventCount summary = Z.of_nat count ->
  exists summary' e', visit_all (emit_visit sse_Emit options) events (summary, e) = (Ok tt, (summary', e')) /\
    em_written e' = em_written e +:+
      sconcat (map frame (drop (Z.to_nat (ro_StartingAfter options) - count) (numbered_trace count events))).
Proof.
  revert summary count e. induction events as [|event events IH]; intros summary count e Hc.
  { exists summary, e. split; [done|]. unfold numbered_trace. simpl. by rewrite drop_nil, sapp_nil_r. }
  cbn [visit_all]. rewrite st_bind_eq, drop_numbered_cons. unfold emit_visit at 1. cbv zeta. rewrite Hc.
  destruct (decide (Z.of_nat count + 1 <= ro_StartingAfter options)%Z) as [Hs|Hs].
  - replace ((0 <? ro_StartingAfter options)%Z && _) with true by lia.
    match goal with |- context [visit_all _ _ (?s, ?e)] => destruct (IH s (S count) e) as (s' & e' & -> & Hw) end; [simpl; lia|].
    exists s', e'. split; [done|]. rewrite Hw.
    replace (Z.to_nat (ro_StartingAfter options) - count) with (S (Z.to_nat (ro_StartingAfter options) - S count)) by lia. done.
  - replace ((0 <? ro_StartingAfter options)%Z && _) with false by lia.
    replace (Z.to_nat (ro_StartingAfter options) - count) with 0 by lia. unfold sse_Emit at 1. rewrite write_run by done.
    match goal with |- context [visit_all _ _ (?s, ?e)] => destruct (IH s (S count) e) as (s' & e' & -> & Hw) end; [simpl; lia|].
    exists s', e'. split; [done|]. rewrite Hw.
    replace (Z.to_nat (ro_StartingAfter options) - S count) with 0 by lia.
    rewrite drop_0. cbn [em_written map sconcat]. by rewrite !sapp_assoc.
Qed.
End writing.

(** C19 (functional): a replay can be resumed.  A stored response has one trace
    of events, numbered from 1: created, in progress, those of its output items
    in order and the one that says how it ended.  A client that asks for the
    events after the [n]-th gets, over a connection that holds, exactly the
    events of that trace with a greater number, with the same numbers and
    payloads, and then the end mark; all of them when [n] is not positive. *)
Theorem replay_resumes `{FloatConversion} `{UnicodeTable} `{Writer} response artifacts obfuscate :
  is_flusher = true -> (forall n, write_fails n = None) ->
  Forall (fun item => Map item <> None) (outputs response) ->
  exists events, replay_trace artifacts obfuscate retrieveResponseReplayProfile response = Ok events /\
    forall startingAfter, exists e,
      writeResponseReplayAsSSE response artifacts startingAfter obfuscate = (Ok tt, Some e) /\
      em_written e = sconcat (map frame (drop (Z.to_nat startingAfter) (numbered_trace 0 events))) +:+ done_text.
Proof.
  intros Hf Hr Hi. destruct (replay_trace_ok artifacts obfuscate retrieveResponseReplayProfile response Hi) as [events He].
  exists events. split; [done|]. intros n. unfold writeResponseReplayAsSSE, newResponseStreamEmitter. rewrite Hf, st_bind_eq.
  unfold emitResponseReplayEvents. cbv zeta. cbn [ro_IncludeObfuscation ro_Profile]. rewrite (forEach_trace _ _ _ _ _ _ _ He).
  match goal with |- context [visit_all (emit_visit _ ?o) _ (?s, ?e)] =>
    destruct (emit_trace Hr o events s 0 e eq_refl) as (s' & e' & -> & Hw) end.
  unfold emit_done, fprint. rewrite Hr. eexists. split; [reflexivity|]. cbn [em_written]. rewrite Hw, Nat.sub_0_r. done.
Qed.

Definition demo_replayed `{UnicodeTable} : Response :=
  set_Status "completed" (set_Output (Some [item_or_zero (NewItem (sq "{'type':'function_call','call_id':'call_1','name':'f','arguments':'{}'}"));
    NewOutputTextMessage "hi"]) zeroResponse).

Lemma replay_resumes_witness :
  exists events, @replay_trace amd64_conversion ascii_only [] true retrieveResponseReplayProfile (@demo_replayed ascii_only) = Ok events /\
    length events = 13 /\
    exists e, @writeResponseReplayAsSSE amd64_conversion ascii_only steady (@demo_replayed ascii_only) [] 12 true = (Ok tt, Some e) /\
      em_written e = sconcat (map frame (drop 12 (numbered_trace 0 events))) +:+ done_text.
Proof.
  assert (Hi : Forall (fun item => Map item <> None) (outputs (@demo_replayed ascii_only)))
    by (refine (bool_decide_unpack _ _); vm_compute; exact I).
  destruct (@replay_resumes amd64_conversion ascii_only steady (@demo_replayed ascii_only) [] true eq_refl (fun _ => eq_refl) Hi)
    as (events & He & Hw).
  exists events. split; [exact He|]. split; [|exact (Hw 12%Z)].
  assert (Hl : (length <$> @replay_trace amd64_conversion ascii_only [] true retrieveResponseReplayProfile (@demo_replayed ascii_only)) = Ok 13)
    by (vm_compute; reflexivity).
  rewrite He in Hl. by injection Hl.
Defined.

(** ** The events of an item name it *)

Lemma am_of_list_rel {V W} (R : V -> W -> Prop) l1 l2 k :
  Forall2 (fun a b => a.1 = b.1 /\ R a.2 b.2) l1 l2 ->
  option_Forall2 R (am_lookup k (am_of_list l1)) (am_lookup k (am_of_list l2)).
Proof.
  intros Hl. unfold am_of_list.
  assert (Hm : forall k, option_Forall2 R (am_lookup k []) (am_lookup k [])) by by constructor.
  revert Hm. generalize (@nil (string * V)) (@nil (string * W)). revert k.
  induction Hl as [|[k1 v] [k2 w] l1 l2 [Hk HR] Hl IH]; intros k m1 m2 Hm; simpl in *; [done|]. subst k2.
  apply IH. intros k'. destruct (decide (k' = k1)) as [->|Hne].
  - rewrite !am_lookup_insert. by constructor.
  - by rewrite !am_lookup_insert_ne.
Qed.

(** A text that Map shows is the text of the field. *)
Lemma map_text item k : TrimSpace (asString (entry k (Map item))) <> "" ->
  TrimSpace (asString (entry k (Map item))) = StringField item k.
Proof.
  unfold Map, StringField, RawField. destruct (Raw item) as [t|]; [|done].
  destruct (any_map t) as [[m|]|] eqn:E; [|done|done].
  unfold any_map in E. destruct t as [| | | | |l]; try done.
  destruct (any_of (JObj l)) as [[]|] eqn:Ea; simplify_eq. simpl in Ea.
  destruct (opt_map _ l) as [kvs|] eqn:Eo; [|done]. injection Ea as <-. simpl.
  pose proof (am_of_list_rel (fun t v => any_of t = Some v) (map (fun kv => (unquote kv.1, kv.2)) l) kvs k) as Hr.
  assert (Hf : Forall2 (fun a b => a.1 = b.1 /\ any_of a.2 = Some b.2) (map (fun kv => (unquote kv.1, kv.2)) l) kvs).
  { apply Forall2_fmap_l. apply opt_map_Some in Eo. eapply Forall2_impl; [exact Eo|]. intros [k1 t] [k2 v]. simpl.
    destruct (any_of t); simpl; [|done]. by intros [= <- <-]. }
  specialize (Hr Hf). destruct Hr as [t v Htv|]; [|done]. simpl.
  destruct v; simpl; try done.
  destruct t; simpl in Htv; simplify_eq; try done; unfold fmap, option_fmap, option_map in Htv; by case_match.
Qed.

Lemma blank_id item : TrimSpace (ID item) = "" -> TrimSpace (asString (entry "id" (Map item))) = "".
Proof.
  intros Hi. destruct (decide (TrimSpace (asString (entry "id" (Map item))) = "")) as [|Hn]; [done|].
  rewrite (map_text item "id" Hn). change (ID item = ""). by rewrite <-ID_trimmed.
Qed.

Lemma payload_id item p : replayItemPayload item = Ok p ->
  TrimSpace (asString (entry "id" p)) = TrimSpace (ID item) /\
  (forall k, k <> "id" -> entry k p = entry k (Map item)).
Proof.
  unfold replayItemPayload. cbv zeta. case_decide as Hd.
  - intros [= <-]. rewrite Hd. split; [by apply blank_id|done].
  - unfold assign. destruct (Map item) as [m|]; [|done]. intros [= <-]. simpl. rewrite am_lookup_insert. simpl.
    rewrite TrimSpace_idemp. split; [done|]. intros k Hk. by apply am_lookup_insert_ne.
Qed.

(** The identifier depends on two fields of the item only. *)
Lemma ensure_id_eq m m' responseID i : am_lookup "id" m = am_lookup "id" m' -> am_lookup "call_id" m = am_lookup "call_id" m' ->
  (ensureCompletedToolItemID (Some m) responseID i).1 = (ensureCompletedToolItemID (Some m') responseID i).1.
Proof. unfold ensureCompletedToolItemID. intros -> ->. by repeat case_decide. Qed.

Lemma ensure_id_shown m responseID i :
  TrimSpace (asString (entry "id" (ensureCompletedToolItemID (Some m) responseID i).2)) =
  TrimSpace (ensureCompletedToolItemID (Some m) responseID i).1 /\
  (forall k, k <> "id" -> entry k (ensureCompletedToolItemID (Some m) responseID i).2 = am_lookup k m).
Proof.
  unfold ensureCompletedToolItemID. case_decide; [cbn [entry fst snd mbind option_bind]; by rewrite TrimSpace_idemp|].
  case_decide; simpl; rewrite am_lookup_insert; (split; [done|]); intros k Hk; by apply am_lookup_insert_ne.
Qed.

Lemma delete_all_other ks k m : k ∉ ks -> am_lookup k (delete_all ks m) = am_lookup k m.
Proof.
  unfold delete_all. revert m. induction ks as [|k' ks IH]; intros m; simpl; [done|].
  intros [Hk Hks]%not_elem_of_cons. rewrite IH by done. by apply am_lookup_delete_ne.
Qed.

Lemma replace_present_other k k' f m : k' <> k -> am_lookup k (replace_present k' f m) = am_lookup k m.
Proof. intros Hk. unfold replace_present. destruct (am_lookup k' m); [by apply am_lookup_insert_ne|done]. Qed.

(** The fields that a snapshot of an item in progress may differ in. *)
Definition progress_fields : list string :=
  ["arguments"; "input"; "action"; "operation"; "results"; "search_results"; "queries"; "output"; "outputs"; "code";
   "actions"; "background"; "output_format"; "quality"; "size"; "result"; "revised_prompt"; "error"; "status"].

Ltac by_computation := refine (bool_decide_unpack _ _); vm_compute; exact I.

Lemma snapshot_of_type_other ty k m : k ∉ progress_fields -> am_lookup k (snapshot_of_type ty m) = am_lookup k m.
Proof.
  intros Hk. assert (Hne : forall k', k' ∈ progress_fields -> k' <> k) by congruence.
  assert (Hn : forall ks, Forall (fun k' => k' ∈ progress_fields) ks -> k ∉ ks).
  { intros ks Hks Hin. rewrite Forall_forall in Hks. by apply Hk, Hks. }
  unfold snapshot_of_type. repeat case_decide; try done;
    repeat first [rewrite am_lookup_insert_ne by (apply Hne; by_computation)
                 |rewrite am_lookup_delete_ne by (apply Hne; by_computation)
                 |rewrite replace_present_other by (apply Hne; by_computation)
                 |rewrite delete_all_other by (apply Hn; by_computation)]; done.
Qed.

Lemma snapshot_other k m : k ∉ progress_fields ->
  am_lookup k (inProgressOutputItemSnapshot (Some m)) = am_lookup k m.
Proof.
  intros Hk. assert (Hne : forall k', k' ∈ progress_fields -> k' <> k) by congruence.
  unfold inProgressOutputItemSnapshot. cbv zeta. cbn [default].
  rewrite <-(snapshot_of_type_other (TrimSpace (asString (am_lookup "type" m))) k m Hk).
  repeat case_match; rewrite ?am_lookup_insert_ne by (apply Hne; by_computation);
    rewrite ?am_lookup_delete_ne by (apply Hne; by_computation);
    rewrite ?am_lookup_delete_ne by (apply Hne; by_computation); done.
Qed.

(** The item of the added event agrees with the stored one but for what only
    the end of the item decides. *)
Lemma added_item_fields responseID i item p a :
  replayItemPayload item = Ok (Some p) -> added_item responseID i item = Ok (Some a) ->
  (forall k, k ∉ "content" :: progress_fields ->
    am_lookup k a = if isToolStreamItemType (TrimSpace (Type_ item))
                    then entry k (ensureCompletedToolItemID (Some p) responseID i).2 else am_lookup k p).
Proof.
  intros Hp. unfold added_item. rewrite Hp. cbn [mbind res_bind]. cbv zeta. intros Ha k [Hc Hk]%not_elem_of_cons.
  assert (Hs : "status" <> k) by (intros <-; apply Hk; by_computation).
  destruct (decide (TrimSpace (Type_ item) = "message")) as [Em|Em].
  - rewrite Em in Ha. rewrite Em. cbn [assign mbind res_bind bool_decide orb] in Ha.
    rewrite bool_decide_true in Ha by done. cbn [orb] in Ha. injection Ha as <-.
    by rewrite !am_lookup_insert_ne.
  - destruct (isSyntheticReplayOutputItemType (TrimSpace (Type_ item))) eqn:Es; cbn [mbind res_bind] in Ha;
      rewrite bool_decide_false in Ha by done; cbn [orb negb andb] in Ha.
    + assert (a = _) as -> by (symmetry; exact (f_equal (fun r => match r with Ok (Some x) => x | _ => a end) Ha)). destruct (isToolStreamItemType (TrimSpace (Type_ item))); [|by rewrite snapshot_other].
      destruct (ensure_some p responseID i) as [p' Ep]. rewrite Ep. by rewrite snapshot_other.
    + assert (Ht : isToolStreamItemType (TrimSpace (Type_ item)) = false).
      { revert Es. unfold isToolStreamItemType, isSyntheticReplayOutputItemType. rewrite !bool_decide_eq_false.
        intros Hn Hin. apply Hn. rewrite !elem_of_cons in *. tauto. }
      rewrite Ht. destruct (bool_decide _); cbn [assign] in Ha; injection Ha as <-; [by rewrite am_lookup_insert_ne|done].
Qed.

(** The identifier its events name an item by. *)
Definition replay_item_id (responseID : string) (i : nat) (item : Item) (addedItem : gomap) : string :=
  if isLocalCodingToolStreamItemType (TrimSpace (Type_ item))
  then (ensureCompletedToolItemID addedItem responseID i).1 else TrimSpace (asString (entry "id" addedItem)).

Definition replay_done_item (responseID : string) (i : nat) (item : Item) (payload : gomap) : gomap :=
  if isToolStreamItemType (TrimSpace (Type_ item)) || isLocalCodingToolStreamItemType (TrimSpace (Type_ item))
  then (ensureCompletedToolItemID payload responseID i).2 else payload.

Lemma coding_not_tool itemType : isLocalCodingToolStreamItemType itemType = true -> isToolStreamItemType itemType = false.
Proof.
  unfold isLocalCodingToolStreamItemType, isToolStreamItemType. rewrite bool_decide_eq_true, bool_decide_eq_false.
  unfold localBuiltinShellCallType, localBuiltinApplyPatchCallType.
  intros Hin. repeat (apply elem_of_cons in Hin as [->|Hin]; [by_computation|]). by apply not_elem_of_nil in Hin.
Qed.

Lemma done_item_id responseID i item p a :
  replayItemPayload item = Ok (Some p) -> added_item responseID i item = Ok (Some a) ->
  exists d, replay_done_item responseID i item (Some p) = Some d /\
    TrimSpace (asString (am_lookup "id" d)) = TrimSpace (replay_item_id responseID i item (Some a)) /\
    (isLocalCodingToolStreamItemType (TrimSpace (Type_ item)) = false -> am_lookup "id" a = am_lookup "id" d) /\
    (forall k, k <> "id" -> am_lookup k d = entry k (Map item)).
Proof.
  intros Hp Ha. pose proof (added_item_fields _ _ _ _ _ Hp Ha) as Hk.
  assert (Hid := Hk "id" ltac:(by_computation)). assert (Hcall := Hk "call_id" ltac:(by_computation)).
  destruct (payload_id item (Some p) Hp) as [Hpid Hpk].
  destruct (ensure_some p responseID i) as [d Ed]. destruct (ensure_id_shown p responseID i) as [He1 He2].
  unfold replay_done_item, replay_item_id.
  destruct (isLocalCodingToolStreamItemType (TrimSpace (Type_ item))) eqn:El.
  - rewrite (coding_not_tool _ El) in Hid, Hcall |- *. cbn [orb]. rewrite Ed in *. exists d. split; [done|].
    split; [|split; [done|intros k Hne; rewrite <-Hpk by done; by apply He2]].
    simpl in He1. rewrite He1. f_equal. by apply ensure_id_eq.
  - destruct (isToolStreamItemType (TrimSpace (Type_ item))) eqn:Et; cbn [orb].
    + rewrite Ed in *. exists d. split; [done|]. simpl in Hid. rewrite TrimSpace_idemp. simpl. rewrite Hid.
      split; [done|]. split; [done|]. intros k Hne; rewrite <-Hpk by done; by apply He2.
    + exists p. split; [done|]. rewrite TrimSpace_idemp. simpl. rewrite Hid. split; [done|]. split; [done|].
      intros k Hne. by rewrite <-Hpk.
Qed.

Definition shown (k : string) (event : responseReplayEvent) : option json := am_lookup k (am_of_list (re_payload event)).

(** The event says which item it is of; those of shell commands by its place only. *)
Definition of_item (itemID : string) (i : nat) (event : responseReplayEvent) : Prop :=
  shown "output_index" event = Some (index_json i) /\
  (shown "item_id" event = Some (json_str itemID) \/
   shown "item_id" event = None /\
   re_eventType event ∈ ["response.shell_call_command.added"; "response.shell_call_command.delta"; "response.shell_call_command.done"]).

Lemma Forall_concat_imap {A B} (P : B -> Prop) (f : nat -> A -> list B) l :
  (forall j x, Forall P (f j x)) -> Forall P (concat (imap f l)).
Proof.
  intros Hf. apply Forall_concat, Forall_forall. intros bs (j & x & -> & _)%elem_of_lookup_imap_1. apply Hf.
Qed.

Ltac names_item := repeat first [apply Forall_nil_2 | apply Forall_cons_2 | apply Forall_app_2];
  try (split; [reflexivity|first [left; reflexivity | right; split; [reflexivity|by_computation]]]).

Lemma message_part_of_item responseID itemID i obfuscate j part :
  Forall (of_item itemID i) (message_part_events responseID itemID i obfuscate j part).
Proof.
  unfold message_part_events, responseReplayTextDeltaEvent, obfuscation. cbv zeta. repeat case_decide; destruct obfuscate; names_item;
    apply Forall_forall; intros event (k & annotation & -> & _)%elem_of_lookup_imap_1; names_item.
Qed.

Lemma reasoning_part_of_item itemID i j part : Forall (of_item itemID i) (reasoning_part_events itemID i j part).
Proof. unfold reasoning_part_events, responseReplayReasoningDeltaEvent. cbv zeta. case_decide; names_item. Qed.

Lemma tool_call_of_item responseID itemID i obfuscate itemType payload :
  Forall (of_item itemID i) (tool_call_events responseID itemID i obfuscate itemType payload).
Proof.
  unfold tool_call_events, toolStreamEventShape, responseReplayToolDeltaEvent, obfuscation. cbv zeta.
  repeat case_decide; destruct obfuscate; repeat case_match; names_item.
Qed.

Lemma coding_of_item item itemID i obfuscate profile :
  Forall (of_item itemID i) (forEachLocalCodingToolReplayEvent item itemID i obfuscate profile).
Proof.
  unfold forEachLocalCodingToolReplayEvent, obfuscation. cbv zeta. repeat case_decide; repeat case_match; names_item;
    apply Forall_concat_imap; intros j command; unfold shell_command_events, obfuscation; cbv zeta; case_decide;
    repeat case_match; names_item.
Qed.

Lemma interpreter_of_item item itemID i obfuscate :
  Forall (of_item itemID i) (forEachCodeInterpreterReplayEvent item itemID i obfuscate).
Proof. unfold forEachCodeInterpreterReplayEvent, obfuscation. cbv zeta. repeat case_match; names_item. Qed.

(** Messages and reasoning are named by their own identifier. *)
Lemma plain_item_id responseID i item p a :
  replayItemPayload item = Ok (Some p) -> added_item responseID i item = Ok (Some a) ->
  TrimSpace (Type_ item) = "message" \/ TrimSpace (Type_ item) = "reasoning" ->
  replay_item_id responseID i item (Some a) = TrimSpace (ID item).
Proof.
  intros Hp Ha Ht. pose proof (added_item_fields _ _ _ _ _ Hp Ha "id" ltac:(by_computation)) as Hid.
  destruct (payload_id item (Some p) Hp) as [<- _]. unfold replay_item_id.
  destruct Ht as [Ht|Ht]; rewrite Ht in *; simpl in Hid |- *; by rewrite Hid.
Qed.

Section bracket.
Context `{FloatConversion} `{UnicodeTable}.

Definition item_event (eventType : string) (i : nat) (item : list (string * gval)) : responseReplayEvent :=
  typed_event eventType [("output_index", index_json i); ("item", of_any (GMap item))].

(** Fact (safety): the events of a replayed item belong to it.  They are the
    event that adds the item, events between, and the event that completes it.
    The completed item has every field of the stored one but possibly its
    identifier; the added one agrees with it but for the content and the fields
    that only its end decides.  Each event between says at which place in the
    output it is and names the identifier the completed item has, those of
    shell commands apart, or it is one the service stored as belonging there. *)
Theorem replay_item_bracketed responseID i item artifacts obfuscate profile :
  Map item <> None ->
  exists itemID addedItem middle doneItem,
    replay_item_events responseID i item artifacts obfuscate profile =
      Ok (item_event "response.output_item.added" i addedItem :: middle ++ [item_event "response.output_item.done" i doneItem]) /\
    TrimSpace (asString (am_lookup "id" doneItem)) = TrimSpace itemID /\
    (forall k, k <> "id" -> am_lookup k doneItem = entry k (Map item)) /\
    (forall k, k ∉ "id" :: "content" :: progress_fields -> am_lookup k addedItem = am_lookup k doneItem) /\
    (isLocalCodingToolStreamItemType (TrimSpace (Type_ item)) = false -> am_lookup "id" addedItem = am_lookup "id" doneItem) /\
    Forall (fun event => of_item itemID i event \/
              exists artifact, artifact ∈ artifacts /\ artifact_event i itemID artifact = Some event) middle.
Proof.
  intros Hm. destruct (replayItemPayload_ok item Hm) as [p Hp]. destruct (added_item_ok responseID i item Hm) as [a Ha].
  pose proof (added_item_fields _ _ _ _ _ Hp Ha) as Hk. destruct (payload_id item (Some p) Hp) as [Hpid Hpk].
  destruct (done_item_id responseID i item p a Hp Ha) as (d & Hd & Hid & Hsame & Hfields).
  exists (replay_item_id responseID i item (Some a)), a. unfold replay_item_events. rewrite Ha, Hp. cbn [mbind res_bind]. cbv zeta.
  fold (replay_item_id responseID i item (Some a)) (replay_done_item responseID i item (Some p)). rewrite Hd.
  eexists. exists d. split; [cbn [app]; rewrite !(assoc_L (++)); reflexivity|]. rewrite <-!(assoc_L (++)).
  split; [done|]. split; [done|]. split; [|split; [done|]].
  { intros k [Hne Hin]%not_elem_of_cons. rewrite Hk, Hfields, <-Hpk by done. destruct (isToolStreamItemType _); [|done].
    by apply ensure_id_shown. }
  apply Forall_app_2; [|apply Forall_app_2; [|apply Forall_app_2; [|apply Forall_app_2]]].
  - eapply Forall_impl; [|by left].
    case_decide as Et; [|case_decide as Et2; [|case_decide; [apply tool_call_of_item|constructor]]].
    + rewrite (plain_item_id _ _ _ _ _ Hp Ha) by auto. apply Forall_concat_imap. intros j part. apply message_part_of_item.
    + rewrite (plain_item_id _ _ _ _ _ Hp Ha) by auto. apply Forall_concat_imap. intros j part. apply reasoning_part_of_item.
  - eapply Forall_impl; [apply coding_of_item|by left].
  - eapply Forall_impl; [apply interpreter_of_item|by left].
  - apply Forall_map, Forall_forall. intros ty _. left. names_item.
  - unfold forEachResponseReplayArtifactEventForItem. case_decide; [constructor|].
    apply Forall_forall. intros event (artifact & Hin & He)%list_elem_of_omap. right. by exists artifact.
Qed.
End bracket.

Definition demo_call : Item :=
  item_or_zero (NewItem (sq "{'type':'function_call','call_id':'call_1','name':'f','arguments':'{}'}")).

Lemma replay_item_bracketed_witness :
  exists itemID addedItem middle doneItem,
    @replay_item_events amd64_conversion "resp_1" 0 demo_call [] true retrieveResponseReplayProfile =
      Ok (item_event "response.output_item.added" 0 addedItem :: middle ++ [item_event "response.output_item.done" 0 doneItem]) /\
    TrimSpace (asString (am_lookup "id" doneItem)) = TrimSpace itemID /\ am_lookup "id" addedItem = am_lookup "id" doneItem.
Proof.
  assert (Hm : Map demo_call <> None) by by_computation.
  destruct (@replay_item_bracketed amd64_conversion "resp_1" 0 demo_call [] true retrieveResponseReplayProfile Hm)
    as (itemID & a & middle & d & He & Hid & _ & _ & Hsame & _).
  exists itemID, a, middle, d. split; [exact He|]. split; [exact Hid|]. apply Hsame. vm_compute. reflexivity.
Defined.

Definition demo_patch : Item :=
  item_or_zero (NewItem (sq "{'type':'apply_patch_call','call_id':'call_1','operation':{'diff':'+x'}}")).

(** Fact (error): a shell or patch call without an identifier of its own is
    added without one, while its later events and the completed item name it
    by the identifier of its call. *)
Fact local_call_added_without_id :
  map (fun event => (re_eventType event, shown "item_id" event, shown "item" event ≫= member "id")) <$>
    @replay_item_events amd64_conversion "resp_1" 0 demo_patch [] false retrieveResponseReplayProfile =
  Ok [("response.output_item.added", None, None);
      ("response.apply_patch_call_operation_diff.delta", Some (json_str "call_1"), None);
      ("response.apply_patch_call_operation_diff.done", Some (json_str "call_1"), None);
      ("response.output_item.done", None, Some (json_str "call_1"))].
Proof. vm_compute. reflexivity. Qed.
