(* ===== verification/Providers.v ===== *)
(** * Model providers: internal/httpapi/upstream_provider_routing.go and
      parseLlamaProviders of internal/config/config.go

    A public model name is provider/model.  The configuration is read by a
    library and then checked; the resolver built from it says which names are
    advertised, and where a request for one of them goes. *)

From S2P Require Import Prelude GoStr GoFloat GoJson JsonFacts StrFacts World Items Normalize.

(** ** The configuration *)

Record LlamaProviderModel := { lm_Model : string; lm_UpstreamModel : string }.

Record LlamaProvider := {
  lp_ID : string;
  lp_BaseURL : string;
  lp_BearerTokenEnv : string;
  lp_BearerToken : string;
  lp_Models : list LlamaProviderModel
}.

(** strings.TrimRight(s, "/") *)
Fixpoint drop_slashes (s : string) : string :=
  match s with String a s' => if (code a =? 47)%N then drop_slashes s' else s | "" => "" end.
Definition TrimRightSlashes (s : string) : string := srev (drop_slashes (srev s)).

(** strings.ContainsAny(s, " \t\r\n") *)
Definition plain (a : ascii) : bool := negb (bool_decide (code a ∈ [32; 9; 13; 10]%N)).
Definition has_whitespace (s : string) : bool := negb (all_chars plain s).

Definition provider_error {A} (text : string) : res A := Err (EMsg ("parse llama.providers: " +:+ text)).

Section parse.
Context `{UnicodeTable} (Getenv : string -> string).

Fixpoint parse_models (providerID : string) (seenModels : gset string) (models : list LlamaProviderModel)
    : res (list LlamaProviderModel) :=
  match models with
  | [] => Ok []
  | model :: models =>
      let name := TrimSpace (lm_Model model) in
      let upstream := TrimSpace (lm_UpstreamModel model) in
      if decide (name = "") then provider_error ("model is required for provider " +:+ Quote providerID)
      else if HasPrefix name "/" || HasSuffix name "/" || has_whitespace name then
        provider_error ("model " +:+ Quote name +:+ " for provider " +:+ Quote providerID +:+
                        " must not have empty slash parts or whitespace")
      else if decide (name ∈ seenModels) then
        provider_error ("duplicate model " +:+ Quote name +:+ " for provider " +:+ Quote providerID)
      else
        rest ← parse_models providerID ({[name]} ∪ seenModels) models;
        Ok ({| lm_Model := name; lm_UpstreamModel := if decide (upstream = "") then name else upstream |} :: rest)
  end.

Fixpoint parse_providers (seenProviders : gset string) (providers : list LlamaProvider) : res (list LlamaProvider) :=
  match providers with
  | [] => Ok []
  | provider :: providers =>
      let id := TrimSpace (lp_ID provider) in
      let baseURL := TrimRightSlashes (TrimSpace (lp_BaseURL provider)) in
      let tokenEnv := TrimSpace (lp_BearerTokenEnv provider) in
      if decide (id = "") then provider_error "id is required"
      else if Contains id "/" || has_whitespace id then
        provider_error ("id " +:+ Quote id +:+ " must not contain slashes or whitespace")
      else if decide (id ∈ seenProviders) then provider_error ("duplicate provider id " +:+ Quote id)
      else if decide (baseURL = "") then provider_error ("base_url is required for provider " +:+ Quote id)
      else if decide (lp_Models provider = []) then
        provider_error ("provider " +:+ Quote id +:+ " must configure at least one model")
      else
        models ← parse_models id ∅ (lp_Models provider);
        rest ← parse_providers ({[id]} ∪ seenProviders) providers;
        Ok ({| lp_ID := id; lp_BaseURL := baseURL; lp_BearerTokenEnv := tokenEnv;
               lp_BearerToken := if decide (tokenEnv = "") then lp_BearerToken provider else TrimSpace (Getenv tokenEnv);
               lp_Models := models |} :: rest)
  end.

(** What the library decoded, checked. *)
Definition parseLlamaProviders (providers : list LlamaProvider) : res (list LlamaProvider) := parse_providers ∅ providers.
End parse.

(** ** The resolver *)

Record upstreamProviderModelConfig := { um_PublicModel : string; um_UpstreamModel : string }.

Record upstreamProviderConfig := {
  up_ID : string;
  up_PluginID : string;
  up_PluginVersion : string;
  up_BaseURL : string;
  up_BearerToken : string;
  up_modelsByID : gmap string upstreamProviderModelConfig
}.

Record upstreamProviderPublicModel := { pm_ID : string; pm_Provider : string; pm_UpstreamModel : string }.

Record upstreamProviderResolver := {
  re_providersByID : gmap string upstreamProviderConfig;
  re_models : list upstreamProviderPublicModel
}.

Definition upstreamProviderPluginID (providerID : string) : string :=
  let providerID := TrimSpace providerID in
  if decide (providerID = "") then "" else "provider." +:+ providerID.

Definition modelProviderPluginVersion : string := "v1".

(** The name and the upstream name of a configured model, unless it is blank. *)
Definition model_names (model : LlamaProviderModel) : option (string * string) :=
  let publicSuffix := TrimSpace (lm_Model model) in
  let upstreamModel := TrimSpace (lm_UpstreamModel model) in
  if decide (publicSuffix = "") then None
  else Some (publicSuffix, if decide (upstreamModel = "") then publicSuffix else upstreamModel).

Definition insert_all {V} (kvs : list (string * V)) : gmap string V :=
  foldl (fun m kv => <[kv.1 := kv.2]> m) ∅ kvs.

(** The entry of a provider, unless its identifier is blank. *)
Definition provider_entry (provider : LlamaProvider) : option (string * upstreamProviderConfig) :=
  let providerID := TrimSpace (lp_ID provider) in
  if decide (providerID = "") then None
  else Some (providerID,
    {| up_ID := providerID; up_PluginID := upstreamProviderPluginID providerID; up_PluginVersion := modelProviderPluginVersion;
       up_BaseURL := TrimRightSlashes (TrimSpace (lp_BaseURL provider)); up_BearerToken := TrimSpace (lp_BearerToken provider);
       up_modelsByID := insert_all (map (fun '(name, upstream) =>
                                           (name, {| um_PublicModel := name; um_UpstreamModel := upstream |}))
                                      (omap model_names (lp_Models provider))) |}).

Definition public_models (provider : LlamaProvider) : list upstreamProviderPublicModel :=
  let providerID := TrimSpace (lp_ID provider) in
  if decide (providerID = "") then []
  else map (fun '(name, upstream) =>
              {| pm_ID := providerID +:+ "/" +:+ name; pm_Provider := providerID; pm_UpstreamModel := upstream |})
         (omap model_names (lp_Models provider)).

(** [a.ID <= b.ID] *)
Definition public_le (a b : upstreamProviderPublicModel) : Prop := String.compare (pm_ID a) (pm_ID b) <> Gt.
#[global] Instance public_le_dec a b : Decision (public_le a b).
Proof. unfold public_le. apply _. Defined.

Definition newUpstreamProviderResolver (providers : list LlamaProvider) : option upstreamProviderResolver :=
  let providersByID := insert_all (omap provider_entry providers) in
  if decide (providersByID = ∅) then None
  else Some {| re_providersByID := providersByID; re_models := merge_sort public_le (flat_map public_models providers) |}.

Definition Enabled (r : option upstreamProviderResolver) : bool :=
  match r with None => false | Some r => negb (bool_decide (re_providersByID r = ∅)) end.

Record UpstreamRoute := {
  ur_ProviderID : string;
  ur_PublicModel : string;
  ur_UpstreamModel : string;
  ur_PluginID : string;
  ur_PluginVersion : string;
  ur_BaseURL : string;
  ur_BearerToken : string
}.

Definition no_route : UpstreamRoute :=
  {| ur_ProviderID := ""; ur_PublicModel := ""; ur_UpstreamModel := ""; ur_PluginID := ""; ur_PluginVersion := "";
     ur_BaseURL := ""; ur_BearerToken := "" |}.

(** strings.Cut(s, "/") *)
Definition CutSlash (s : string) : option (string * string) :=
  (fun i => (stake i s, sdrop (S i) s)) <$> Index s "/".

Section resolve.
Context `{UnicodeTable}.

Definition Resolve (r : upstreamProviderResolver) (publicModel : string) : res UpstreamRoute :=
  let bad_form := Err (NewValidationError "model" "model must use configured provider/model form") in
  if negb (Enabled (Some r)) then Ok no_route
  else match CutSlash (TrimSpace publicModel) with
  | None => bad_form
  | Some (providerID, modelSuffix) =>
      let providerID := TrimSpace providerID in
      let modelSuffix := TrimSpace modelSuffix in
      if decide (providerID = "" \/ modelSuffix = "") then bad_form
      else match re_providersByID r !! providerID with
      | None => Err (NewValidationError "model" ("unknown model provider " +:+ Quote providerID))
      | Some provider =>
          match up_modelsByID provider !! modelSuffix with
          | None => Err (NewValidationError "model" ("unknown model " +:+ Quote modelSuffix +:+ " for provider " +:+
                                                     Quote (up_ID provider)))
          | Some model =>
              Ok {| ur_ProviderID := up_ID provider; ur_PublicModel := up_ID provider +:+ "/" +:+ um_PublicModel model;
                    ur_UpstreamModel := um_UpstreamModel model; ur_PluginID := up_PluginID provider;
                    ur_PluginVersion := up_PluginVersion provider; ur_BaseURL := up_BaseURL provider;
                    ur_BearerToken := up_BearerToken provider |}
          end
      end
  end.

(** The route the context gets, if any. *)
Definition ContextForModel (r : option upstreamProviderResolver) (publicModel : string) : res (option UpstreamRoute) :=
  match r with
  | Some resolver => if Enabled r then Some <$> Resolve resolver publicModel else Ok None
  | None => Ok None
  end.
End resolve.
