(* ===== verification/ProviderProps.v ===== *)
(** * Every advertised model can be used, and no other

    Of a configuration that was accepted, the resolver routes exactly the names
    it advertises, each to its own provider and upstream model. *)

From S2P Require Import Prelude GoStr GoFloat GoJson JsonFacts StrFacts World Items Normalize NormProps Providers.

(** ** Names *)

Lemma lead_extend s a t : s <> "" -> no_lead space2 space3 s = true -> solid a = true ->
  no_lead space2 space3 (s +:+ String a t) = true.
Proof.
  intros Hne Hl Ha. destruct s as [|b [|c [|d s]]]; [done|..];
    rewrite ?sapp_cons, ?sapp_nil_l; simpl in *; apply andb_true_iff in Hl as [H1 H2]; rewrite H1; simpl.
  - destruct (solid_space2 a b Ha) as [_ ->]. simpl. destruct t as [|x t]; [done|].
    assert (space3 b a x = false) as ->; [|done].
    unfold solid in Ha. rng. unfold space3. rewrite !(proj2 (N.eqb_neq (code a) _)) by lia. by rewrite ?andb_false_r.
  - apply andb_true_iff in H2 as [-> _]. simpl. by destruct (solid_space3 a c b Ha) as [_ ->].
  - done.
Qed.

(** Two trimmed texts joined by a printable character are trimmed. *)
Lemma TrimSpace_join s a t : solid a = true -> s <> "" -> t <> "" -> TrimSpace s = s -> TrimSpace t = t ->
  TrimSpace (s +:+ String a t) = s +:+ String a t.
Proof.
  intros Ha Hs Ht Es Et. apply TrimSpace_id.
  - apply lead_extend; [done| |done]. rewrite <-Es. apply TrimSpace_no_lead.
  - rewrite srev_app, srev_cons, !sapp_assoc. unfold char_string. rewrite sapp_cons, sapp_nil_l.
    apply lead_r_extend; [|rewrite <-Et; apply TrimSpace_lead_r|done].
    intros He. apply Ht. rewrite <-(srev_involutive t), He. done.
Qed.

Lemma CutSlash_join s t : Contains s "/" = false -> CutSlash (s +:+ "/" +:+ t) = Some (s, t).
Proof.
  intros Hs. unfold CutSlash. rewrite (Index_first _ "/" s t).
  - cbn [fmap option_fmap option_map]. rewrite stake_app by done. f_equal. f_equal. rewrite <-sapp_assoc.
    apply (sdrop_app (S (String.length s)) (s +:+ "/") t). rewrite slength_app. simpl. lia.
  - split; [done|]. intros pre rest He. destruct (decide (String.length s <= String.length pre)); [done|].
    destruct (sapp_split pre ("/" +:+ rest) s ("/" +:+ t)) as (m & Hm & Hr); [by symmetry|lia|].
    destruct m as [|b m]; [subst; rewrite sapp_nil_r in *; lia|]. rewrite sapp_cons in Hr. simpl in Hr. injection Hr as <- _.
    assert (Contains s "/" = true); [|congruence]. apply Contains_spec. by exists pre, m.
Qed.

(** ** Maps built by assignments *)

Lemma insert_all_snoc {V} (l : list (string * V)) k v : insert_all (l ++ [(k, v)]) = <[k := v]> (insert_all l).
Proof. unfold insert_all. by rewrite foldl_app. Qed.

Lemma insert_all_lookup {V} (l : list (string * V)) k v : NoDup (map fst l) ->
  insert_all l !! k = Some v <-> (k, v) ∈ l.
Proof.
  induction l as [|[k' v'] l IH] using rev_ind.
  { intros _. unfold insert_all. simpl. rewrite lookup_empty. split; [done|]. by intros ?%not_elem_of_nil. }
  rewrite map_app. intros (Hl & Hn & _)%NoDup_app. rewrite insert_all_snoc, elem_of_app, list_elem_of_singleton.
  destruct (decide (k = k')) as [->|Hk].
  - rewrite lookup_insert_eq. split; [intros [= ->]; by right|]. intros [Hin|[= ->]]; [|done].
    exfalso. apply (Hn k'); [|by left]. apply list_elem_of_fmap. by exists (k', v).
  - rewrite lookup_insert_ne by done. rewrite IH by done. naive_solver.
Qed.

(** ** An accepted configuration *)

Record model_ok (m : LlamaProviderModel) : Prop := {
  mo_name : lm_Model m <> "" /\ TrimSpace (lm_Model m) = lm_Model m;
  mo_upstream : lm_UpstreamModel m <> "" /\ TrimSpace (lm_UpstreamModel m) = lm_UpstreamModel m
}.

Record provider_ok (p : LlamaProvider) : Prop := {
  po_id : lp_ID p <> "" /\ TrimSpace (lp_ID p) = lp_ID p;
  po_slash : Contains (lp_ID p) "/" = false;
  po_models : Forall model_ok (lp_Models p);
  po_distinct : NoDup (map lm_Model (lp_Models p));
  po_some : lp_Models p <> []
}.

Section accepted.
Context `{UnicodeTable} (Getenv : string -> string).

Lemma parse_models_ok id seen models out : parse_models id seen models = Ok out ->
  Forall model_ok out /\ NoDup (map lm_Model out) /\ Forall (fun m => lm_Model m ∉ seen) out /\ length out = length models.
Proof.
  revert seen out. induction models as [|m models IH]; intros seen out; cbn [parse_models].
  { intros [= <-]. repeat constructor. }
  cbv zeta. case_decide as Hn; [done|]. destruct (_ || _); [done|]. case_decide as Hs; [done|].
  destruct (parse_models id _ models) as [rest|e|] eqn:E; [|done|done]. cbn [mbind res_bind]. intros [= <-].
  destruct (IH _ _ E) as (Hok & Hd & Hf & Hl). split; [|split; [|split; [|simpl; by rewrite Hl]]].
  - constructor; [|done]. split; simpl; rewrite ?TrimSpace_idemp; [done|]. case_decide; rewrite ?TrimSpace_idemp; done.
  - simpl. constructor; [|done]. intros (m' & Heq & Hin)%list_elem_of_fmap. rewrite Forall_forall in Hf.
    specialize (Hf m' Hin). rewrite <-Heq in Hf. set_solver.
  - constructor; [done|]. eapply Forall_impl; [exact Hf|]. intros x Hx. set_solver.
Qed.

Lemma parse_providers_ok seen providers out : parse_providers Getenv seen providers = Ok out ->
  Forall provider_ok out /\ NoDup (map lp_ID out) /\ Forall (fun p => lp_ID p ∉ seen) out.
Proof.
  revert seen out. induction providers as [|p providers IH]; intros seen out; cbn [parse_providers].
  { intros [= <-]. repeat constructor. }
  cbv zeta. case_decide as Hn; [done|]. destruct (_ || _) eqn:Hc; [done|]. case_decide as Hs; [done|].
  case_decide; [done|]. case_decide; [done|].
  destruct (parse_models _ ∅ (lp_Models p)) as [models|e|] eqn:Em; [|done|done]. cbn [mbind res_bind].
  destruct (parse_providers _ _ providers) as [rest|e|] eqn:E; [|done|done]. cbn [mbind res_bind]. intros [= <-].
  destruct (IH _ _ E) as (Hok & Hd & Hf). destruct (parse_models_ok _ _ _ _ Em) as (Hmo & Hmd & _ & Hlen).
  apply orb_false_iff in Hc as [Hc _]. split; [|split].
  - constructor; [|done]. split; simpl; rewrite ?TrimSpace_idemp; try done. intros ->. by destruct (lp_Models p).
  - simpl. constructor; [|done]. intros (p' & Heq & Hin)%list_elem_of_fmap. rewrite Forall_forall in Hf.
    specialize (Hf p' Hin). rewrite <-Heq in Hf. set_solver.
  - constructor; [done|]. eapply Forall_impl; [exact Hf|]. intros x Hx. set_solver.
Qed.
End accepted.

Lemma model_names_ok m : model_ok m -> model_names m = Some (lm_Model m, lm_UpstreamModel m).
Proof.
  intros [[Hn En] [Hu Eu]]. unfold model_names. cbv zeta. rewrite En, Eu, decide_False by done. by rewrite decide_False.
Qed.

Lemma names_ok models : Forall model_ok models ->
  omap model_names models = map (fun m => (lm_Model m, lm_UpstreamModel m)) models.
Proof. induction 1 as [|m models Hm Hms IH]; [done|]. simpl. rewrite (model_names_ok m Hm). f_equal. exact IH. Qed.

(** The public name of a model. *)
Definition public_name (p : LlamaProvider) (m : LlamaProviderModel) : string := lp_ID p +:+ "/" +:+ lm_Model m.

Lemma public_models_ok p : provider_ok p ->
  public_models p = map (fun m => {| pm_ID := public_name p m; pm_Provider := lp_ID p; pm_UpstreamModel := lm_UpstreamModel m |}) (lp_Models p).
Proof.
  intros [[Hi Ei] _ Hm _ _]. unfold public_models. cbv zeta. rewrite Ei, decide_False by done. rewrite names_ok by done.
  rewrite map_map. done.
Qed.

Lemma provider_entry_ok p : provider_ok p -> exists c, provider_entry p = Some (lp_ID p, c) /\ up_ID c = lp_ID p /\
  forall name model, up_modelsByID c !! name = Some model <->
    exists m, m ∈ lp_Models p /\ lm_Model m = name /\ model = {| um_PublicModel := name; um_UpstreamModel := lm_UpstreamModel m |}.
Proof.
  intros [[Hi Ei] _ Hm Hd _]. unfold provider_entry. cbv zeta. rewrite Ei, decide_False by done. eexists. split; [done|].
  split; [done|]. intros name model. simpl. rewrite names_ok, map_map by done.
  rewrite insert_all_lookup by (by rewrite map_map). rewrite list_elem_of_fmap. split.
  - intros (m & [= -> ->] & Hin). by exists m.
  - intros (m & Hin & <- & ->). by exists m.
Qed.

Section resolver.
Context `{UnicodeTable}.

Lemma provider_entries providers : Forall provider_ok providers ->
  map fst (omap provider_entry providers) = map lp_ID providers /\
  forall id c, (id, c) ∈ omap provider_entry providers <-> exists p, p ∈ providers /\ provider_entry p = Some (id, c).
Proof.
  intros Hok. split.
  - induction Hok as [|p ps Hp Hps IH]; [done|]. simpl. destruct (provider_entry_ok p Hp) as (c & -> & _). simpl. f_equal. exact IH.
  - intros id c. rewrite list_elem_of_omap. naive_solver.
Qed.

Lemma resolver_enabled providers r : newUpstreamProviderResolver providers = Some r -> Enabled (Some r) = true.
Proof.
  unfold newUpstreamProviderResolver. cbv zeta. case_decide as He; [done|]. intros [= <-]. cbn [Enabled re_providersByID].
  by rewrite bool_decide_eq_false_2.
Qed.

(** What the resolver of an accepted configuration knows. *)
Lemma resolver_provider providers r id c : Forall provider_ok providers -> NoDup (map lp_ID providers) ->
  newUpstreamProviderResolver providers = Some r ->
  re_providersByID r !! id = Some c <-> exists p, p ∈ providers /\ provider_entry p = Some (id, c).
Proof.
  intros Hok Hd. unfold newUpstreamProviderResolver. cbv zeta. case_decide; [done|]. intros [= <-]. simpl.
  destruct (provider_entries providers Hok) as [Hids Hin]. rewrite insert_all_lookup by (by rewrite Hids). apply Hin.
Qed.

Lemma resolver_models providers r m : Forall provider_ok providers -> newUpstreamProviderResolver providers = Some r ->
  m ∈ re_models r <-> exists p q, p ∈ providers /\ q ∈ lp_Models p /\
    m = {| pm_ID := public_name p q; pm_Provider := lp_ID p; pm_UpstreamModel := lm_UpstreamModel q |}.
Proof.
  intros Hok. unfold newUpstreamProviderResolver. cbv zeta. case_decide; [done|]. intros [= <-]. simpl.
  rewrite merge_sort_Permutation, list_elem_of_In, in_flat_map. rewrite Forall_forall in Hok. split.
  - intros (p & Hp%list_elem_of_In & Hm%list_elem_of_In). rewrite public_models_ok in Hm by auto.
    apply list_elem_of_fmap in Hm as (q & -> & Hq). by exists p, q.
  - intros (p & q & Hp & Hq & ->). exists p. split; [by apply list_elem_of_In|]. apply list_elem_of_In.
    rewrite public_models_ok by auto. apply list_elem_of_fmap. by exists q.
Qed.

(** C28 (equivalence): of a configuration that was accepted, exactly the
    advertised models can be used.  Asking for an advertised name gives the
    route to its provider and upstream model, under the same name; and every
    route that is given, for whatever text a client sends, is that of an
    advertised model. *)
Theorem advertised_models_resolve Getenv decoded providers r :
  parseLlamaProviders Getenv decoded = Ok providers -> newUpstreamProviderResolver providers = Some r ->
  (forall m, m ∈ re_models r -> exists route, Resolve r (pm_ID m) = Ok route /\
     ur_PublicModel route = pm_ID m /\ ur_ProviderID route = pm_Provider m /\ ur_UpstreamModel route = pm_UpstreamModel m) /\
  (forall name route, Resolve r name = Ok route -> exists m, m ∈ re_models r /\
     ur_PublicModel route = pm_ID m /\ ur_ProviderID route = pm_Provider m /\ ur_UpstreamModel route = pm_UpstreamModel m).
Proof.
  intros Hp Hr. destruct (parse_providers_ok _ _ _ _ Hp) as (Hok & Hd & _). pose proof Hok as Hall. rewrite Forall_forall in Hall. split.
  - intros m (p & q & Hin & Hq & ->)%(resolver_models providers r _ Hok Hr). simpl.
    destruct (Hall p Hin) as [[Hi Ei] Hs Hm Hdm _]. pose proof Hm as Hms. rewrite Forall_forall in Hms. destruct (Hms q Hq) as [[Hn En] _].
    destruct (provider_entry_ok p (Hall p Hin)) as (c & Hc & Hcid & Hcm).
    assert (Ht : TrimSpace (lp_ID p +:+ "/" +:+ lm_Model q) = lp_ID p +:+ "/" +:+ lm_Model q) by (by apply TrimSpace_join).
    unfold Resolve, public_name. rewrite (resolver_enabled _ _ Hr). cbn [negb]. rewrite Ht, CutSlash_join by done. cbv zeta.
    rewrite Ei, En, decide_False by naive_solver.
    rewrite (proj2 (resolver_provider providers r (lp_ID p) c Hok Hd Hr)) by (by exists p).
    rewrite (proj2 (Hcm (lm_Model q) {| um_PublicModel := lm_Model q; um_UpstreamModel := lm_UpstreamModel q |})) by (by exists q).
    eexists. split; [done|]. simpl. by rewrite Hcid.
  - intros name route. unfold Resolve. rewrite (resolver_enabled _ _ Hr). cbn [negb]. destruct (CutSlash (TrimSpace name)) as [[id suffix]|]; [|done]. cbv zeta.
    case_decide; [done|]. destruct (re_providersByID r !! TrimSpace id) as [c|] eqn:Ec; [|done].
    destruct (up_modelsByID c !! TrimSpace suffix) as [model|] eqn:Em; [|done]. intros [= <-].
    apply (resolver_provider providers r _ c Hok Hd Hr) in Ec as (p & Hin & Hentry).
    destruct (provider_entry_ok p (Hall p Hin)) as (c' & Hc & Hcid & Hcm). rewrite Hc in Hentry. injection Hentry as _ ->.
    apply Hcm in Em as (q & Hq & Hn & ->).
    exists {| pm_ID := public_name p q; pm_Provider := lp_ID p; pm_UpstreamModel := lm_UpstreamModel q |}. split.
    + apply (resolver_models providers r _ Hok Hr). by exists p, q.
    + simpl. unfold public_name. by rewrite Hcid, Hn.
Qed.
End resolver.

Definition demo_config : list LlamaProvider :=
  [{| lp_ID := " local "; lp_BaseURL := "http://localhost:8080/"; lp_BearerTokenEnv := ""; lp_BearerToken := "";
      lp_Models := [{| lm_Model := "org/qwen"; lm_UpstreamModel := "" |}; {| lm_Model := "small"; lm_UpstreamModel := "tiny.gguf" |}] |}].

Lemma advertised_models_resolve_witness :
  exists providers r, parseLlamaProviders (H := ascii_only) (fun _ => "") demo_config = Ok providers /\
    newUpstreamProviderResolver providers = Some r /\ map pm_ID (re_models r) = ["local/org/qwen"; "local/small"] /\
    forall m, m ∈ re_models r -> exists route, Resolve (H := ascii_only) r (pm_ID m) = Ok route /\ ur_UpstreamModel route = pm_UpstreamModel m.
Proof.
  destruct (parseLlamaProviders (H := ascii_only) (fun _ => "") demo_config) as [providers|e|] eqn:Ep;
    [|vm_compute in Ep; discriminate Ep..].
  destruct (newUpstreamProviderResolver providers) as [r|] eqn:Er;
    [|vm_compute in Ep; injection Ep as <-; vm_compute in Er; discriminate Er].
  exists providers, r. split; [reflexivity|]. split; [exact Er|].
  destruct (@advertised_models_resolve ascii_only (fun _ => "") demo_config providers r Ep Er) as [Hm _]. split.
  - vm_compute in Ep. injection Ep as <-. vm_compute in Er. injection Er as <-. reflexivity.
  - intros m Hin. destruct (Hm m Hin) as (route & Hr & _ & _ & Hu). exists route. split; [exact Hr|exact Hu].
Defined.
