(* ===== verification/Handlers.v ===== *)
(** * HTTP handlers: internal/httpapi/handlers_conversations.go, the queries and
      pages of response_retrieve.go, and get, delete and getInputItems of
      handlers_responses.go

    A handler gets the parts of the request it reads: the path values, the
    query values (r.URL.Query()), and the body or why it could not be read.  It
    answers with a status and a JSON body, with a replay, or passes the request
    on to the upstream server. *)

From S2P Require Import Prelude GoStr GoFloat GoJson JsonFacts StrFacts GoInt GoTime World Items Normalize Context Store ConvService Compaction Compactor Memory ToolMarkup TextFormat Response LocalGen RespService RespManage Chat ChatStream ApiErrors Sse Streaming Replay Providers.

(** ** Queries *)

Definition Values : Type := list (string * list string).

Definition values_get (values : Values) (name : string) : string :=
  default "" (am_lookup name values ≫= head).

(** strings.Split(s, ",") *)
Fixpoint split_commas (s : string) : list string :=
  match s with
  | "" => [""]
  | String a s =>
      match split_commas s with
      | part :: parts => if (code a =? 44)%N then "" :: part :: parts else String a part :: parts
      | [] => []
      end
  end.

(** strconv.ParseBool *)
Definition ParseBool (s : string) : option bool :=
  if decide (s ∈ ["1"; "t"; "T"; "true"; "TRUE"; "True"]) then Some true
  else if decide (s ∈ ["0"; "f"; "F"; "false"; "FALSE"; "False"]) then Some false
  else None.

Definition include_parts (values : Values) : list string :=
  filter (fun include => include <> "")
    (map TrimSpace (flat_map split_commas (default [] (am_lookup "include" values)))).

Definition parseResponseIncludeValues (values : Values) : list string := include_parts values.

Definition parseOptionalBoolQuery (values : Values) (name : string) : res (bool * bool) :=
  let raw := TrimSpace (values_get values name) in
  if decide (raw = "") then Ok (false, false)
  else match ParseBool raw with
  | None => Err (NewValidationError name (name +:+ " must be a boolean"))
  | Some value => Ok (value, true)
  end.

Definition parseOptionalIntQuery (values : Values) (name : string) : res (Z * bool) :=
  let raw := TrimSpace (values_get values name) in
  if decide (raw = "") then Ok (0%Z, false)
  else match Atoi raw with
  | None => Err (NewValidationError name (name +:+ " must be an integer"))
  | Some value => Ok (value, true)
  end.

Record responseRetrieveQuery := {
  rq_Include : list string;
  rq_IncludeObfuscation : bool;
  rq_StartingAfter : Z;
  rq_Stream : bool
}.

Definition parseResponseRetrieveQuery (values : Values) : res responseRetrieveQuery :=
  '(stream, _) ← parseOptionalBoolQuery values "stream";
  '(includeObfuscation, ok) ← parseOptionalBoolQuery values "include_obfuscation";
  let includeObfuscation := if negb ok then true else includeObfuscation in
  '(startingAfter, ok) ← parseOptionalIntQuery values "starting_after";
  if ok && (startingAfter <? 0)%Z then
    Err (NewValidationError "starting_after" "starting_after must be greater than or equal to 0")
  else Ok {| rq_Include := parseResponseIncludeValues values; rq_IncludeObfuscation := includeObfuscation;
             rq_StartingAfter := startingAfter; rq_Stream := stream |}.

Definition defaultResponseInputItemsLimit : Z := 20.
Definition maxResponseInputItemsLimit : Z := 100.
Definition defaultConversationItemsLimit : Z := 20.
Definition maxConversationItemsLimit : Z := 100.

Record responseInputItemsQuery := {
  iq_After : string;
  iq_Include : list string;
  iq_Limit : Z;
  iq_Order : string
}.

(** The limit and the order of a query, from their raw texts. *)
Definition parse_limit (fallback maximum : Z) (rawLimit : string) : res Z :=
  if decide (rawLimit = "") then Ok fallback
  else match Atoi rawLimit with
  | Some limit =>
      if (limit <? 1)%Z || (maximum <? limit)%Z then Err (NewValidationError "limit" "limit must be between 1 and 100")
      else Ok limit
  | None => Err (NewValidationError "limit" "limit must be between 1 and 100")
  end.

Definition parse_order (rawOrder : string) : res string :=
  if decide (rawOrder = "") then Ok ConversationItemOrderDesc
  else if decide (rawOrder = ConversationItemOrderAsc \/ rawOrder = ConversationItemOrderDesc) then Ok rawOrder
  else Err (NewValidationError "order" "order must be one of asc or desc").

Definition parseResponseInputItemsQuery (values : Values) : res responseInputItemsQuery :=
  limit ← parse_limit defaultResponseInputItemsLimit maxResponseInputItemsLimit (TrimSpace (values_get values "limit"));
  order ← parse_order (TrimSpace (values_get values "order"));
  Ok {| iq_After := TrimSpace (values_get values "after"); iq_Include := parseResponseIncludeValues values;
        iq_Limit := limit; iq_Order := order |}.

Definition supportedConversationItemIncludes : list string :=
  ["computer_call_output.output.image_url"; "code_interpreter_call.outputs"; "file_search_call.results";
   "web_search_call.action.sources"].

Definition parseConversationItemIncludes (values : Values) : res (list string) :=
  if decide (Forall (fun include => include ∈ supportedConversationItemIncludes) (include_parts values))
  then Ok (include_parts values)
  else Err (NewValidationError "include" "unsupported include value").

(** The field Include of the query is not read by the service or the store. *)
Definition parseListConversationItemsQuery (conversationID : string) (values : Values) : res ListConversationItemsQuery :=
  _ ← parseConversationItemIncludes values;
  limit ← parse_limit defaultConversationItemsLimit maxConversationItemsLimit (values_get values "limit");
  order ← parse_order (values_get values "order");
  Ok {| lq_ConversationID := conversationID; lq_After := values_get values "after"; lq_Limit := limit; lq_Order := order |}.

(** ** Pages *)

Record listConversationItemsResponse := {
  li_Object : string;
  li_Data : list gomap;
  li_FirstID : option string;
  li_LastID : option string;
  li_HasMore : bool
}.

Definition list_response_json (response : listConversationItemsResponse) : json :=
  JObj [("object", json_str (li_Object response)); ("data", JArr (map map_json (li_Data response)));
        ("first_id", optional_json (li_FirstID response)); ("last_id", optional_json (li_LastID response));
        ("has_more", JBool (li_HasMore response))].

Definition payloadID (payload : gomap) : string := TrimSpace (asString (entry "id" payload)).

(** A page of items, with the identifiers of its ends. *)
Definition page_of (data : list gomap) (hasMore : bool) : listConversationItemsResponse :=
  {| li_Object := "list"; li_Data := data; li_FirstID := payloadID <$> head data; li_LastID := payloadID <$> last data;
     li_HasMore := hasMore |}.

(** -1 is [None]. *)
Definition responseInputItemsOrderedIndex (items : list Item) (order id : string) : option nat :=
  let named item := bool_decide (TrimSpace (ID item) = id) in
  if decide (order = ConversationItemOrderDesc)
  then (fun idx => length items - 1 - idx) <$> last_index named items
  else first_index named items.

Definition responseInputItemsOriginalIndex (len : Z) (order : string) (orderedIndex : Z) : Z :=
  if decide (order = ConversationItemOrderDesc) then len - 1 - orderedIndex else orderedIndex.

(** [items[i]] *)
Definition item_at (items : list Item) (i : Z) : res Item :=
  if (i <? 0)%Z then Panic else match items !! Z.to_nat i with None => Panic | Some item => Ok item end.

(** The loop over the positions of the page. *)
Fixpoint page_items (items : list Item) (order : string) (pos : Z) (count : nat) : res (list gomap) :=
  match count with
  | 0 => Ok []
  | S count =>
      item ← item_at items (responseInputItemsOriginalIndex (Z.of_nat (length items)) order pos);
      rest ← page_items items order (pos + 1) count;
      Ok (Map item :: rest)
  end.

(** [make] with a negative capacity panics. *)
Definition paginateResponseInputItems (items : list Item) (query : responseInputItemsQuery)
    : res listConversationItemsResponse :=
  start ← (if decide (iq_After query = "") then Ok 0%Z
           else match responseInputItemsOrderedIndex items (iq_Order query) (iq_After query) with
                | None => Err (NewValidationError "after" "after cursor was not found")
                | Some afterIndex => Ok (Z.of_nat afterIndex + 1)%Z
                end);
  let len := Z.of_nat (length items) in
  let stop := if (len <? start + iq_Limit query)%Z then len else (start + iq_Limit query)%Z in
  if (stop - start <? 0)%Z then Panic
  else
    data ← page_items items (iq_Order query) start (Z.to_nat (stop - start));
    Ok (page_of data (stop <? len)%Z).

(** ** Bodies *)

Inductive body_read :=
| BodyRead (body : string)
| BodyTooLarge
| BodyFailed.

Inductive reply :=
| JsonReply (status : Z) (body : json)
| ReplayReply (result : res unit) (connection : option responseStreamEmitter)
| ForwardReply.

Definition error_json (e : apiError) : json := JObj [("error", apiError_json e)].

Definition WriteError (status : Z) (errType message param : string) : reply :=
  JsonReply status (error_json (newAPIError errType message param "")).

(** The body, or the answer to a request whose body cannot be read. *)
Definition readJSONBody (body : body_read) : reply + string :=
  match body with
  | BodyRead body => inr body
  | BodyTooLarge => inl (WriteError 400 "invalid_request_error" "request body is too large" "")
  | BodyFailed => inl (WriteError 400 "invalid_request_error" "failed to read request body" "")
  end.

(** A raw message is its tree; one that is absent is the empty text. *)
Record CreateConversationRequest := { ccr_Items : list json; ccr_Metadata : string }.

Definition decode_create_request (rawBody : string) : option CreateConversationRequest :=
  if decide (TrimSpace rawBody = "") then Some {| ccr_Items := []; ccr_Metadata := "" |}
  else
    members ← jparse rawBody ≫= struct_members;
    items ← field_raw_array "items" members;
    Some {| ccr_Items := items; ccr_Metadata := from_option jprint "" (field_raw "metadata" members) |}.

Definition items_error {A} (message : string) : res A := Err (NewValidationError "items" message).

Definition parseAppendConversationItemsBody (rawBody : string) : res (list json) :=
  let trimmed := TrimSpace rawBody in
  let not_empty items : res (list json) :=
    match items with [] => items_error "items must not be empty" | _ => Ok items end in
  if decide (trimmed = "" \/ trimmed = "null") then items_error "items is required"
  else if HasPrefix trimmed "[" then
    match jparse trimmed ≫= raw_array with
    | None => items_error "malformed JSON body"
    | Some items => not_empty items
    end
  else if HasPrefix trimmed "{" then
    match jparse trimmed with
    | None => items_error "malformed JSON body"
    | Some t =>
        match raw_map t with
        | None => items_error "malformed JSON body"
        | Some payload =>
            match am_lookup "items" payload with
            | Some rawItems =>
                match raw_array rawItems with
                | None => items_error "items must be an array"
                | Some items => not_empty items
                end
            | None =>
                match am_lookup "item" payload with
                | Some rawItem => Ok [rawItem]
                | None => Ok [t]
                end
            end
        end
    end
  else items_error "items must be JSON objects".

(** ** Conversations *)

Definition conversationItemPayload (item : ConversationItem) : res gomap :=
  let payload := Map (ci_Item item) in
  if decide (payloadID payload = "") then assign "id" (GStr (ci_ID item)) payload else Ok payload.

Definition conversationItemsPayload (items : list ConversationItem) (hasMore : bool) : res listConversationItemsResponse :=
  data ← res_map conversationItemPayload items;
  Ok (page_of data hasMore).

Definition conversationPayload (conversation : Conversation) : res json :=
  match parse_rfc3339 (cv_CreatedAt conversation) with
  | None => Err (EWrap "parse conversation created_at" (ELibrary "time"))
  | Some createdAt =>
      Ok (JObj [("id", json_str (cv_ID conversation)); ("object", json_str (cv_Object conversation));
                ("created_at", json_int createdAt); ("metadata", string_map_json (cv_Metadata conversation))])
  end.

Section conversations.
Context {W : Type} `{ConversationStore W} `{IdSource} `{MapOrder} `{LibraryText}.

(** The answer a call leads to: its value as JSON, or its error. *)
Definition answer (m : ST W json) : ST W reply := fun w =>
  match m w with
  | (Ok body, w') => (Ok (JsonReply 200 body), w')
  | (Err e, w') => let '(status, payload) := MapError (Some e) in (Ok (JsonReply status (error_json payload)), w')
  | (Panic, w') => (Panic, w')
  end.

Definition create (now : string) (body : body_read) : ST W reply :=
  match readJSONBody body with
  | inl reply => mret reply
  | inr rawBody =>
      match decode_create_request rawBody with
      | None => mret (WriteError 400 "invalid_request_error" "malformed JSON body" "")
      | Some request =>
          answer (conversation ← ConvService.Create now (ccr_Items request) (ccr_Metadata request);
                  st_lift (conversationPayload conversation))
      end
  end.

Definition get (id : string) : ST W reply :=
  answer (conversation ← Get id; st_lift (conversationPayload conversation)).

Definition appendItem (now id : string) (values : Values) (body : body_read) : ST W reply :=
  match parseConversationItemIncludes values with
  | Err e => answer (st_err e)
  | Panic => st_lift Panic
  | Ok _ =>
      match readJSONBody body with
      | inl reply => mret reply
      | inr rawBody =>
          answer (rawItems ← st_lift (parseAppendConversationItemsBody rawBody);
                  items ← AppendItems now id rawItems;
                  response ← st_lift (conversationItemsPayload items false);
                  mret (list_response_json response))
      end
  end.

Definition getItem (id itemID : string) (values : Values) : ST W reply :=
  answer (_ ← st_lift (parseConversationItemIncludes values);
          item ← GetItem id itemID;
          payload ← st_lift (conversationItemPayload item);
          mret (map_json payload)).

Definition deleteItem (updatedAt id itemID : string) : ST W reply :=
  answer (conversation ← DeleteItem updatedAt id itemID; st_lift (conversationPayload conversation)).

Definition listItems (id : string) (values : Values) : ST W reply :=
  answer (query ← st_lift (parseListConversationItemsQuery id values);
          page ← ListItems query;
          response ← st_lift (conversationItemsPayload (pg_Items page) (pg_HasMore page));
          mret (list_response_json response)).
End conversations.

(** ** Stored responses *)

Record responseHandler := {
  h_service : ResponseService;
  h_responsesMode : string;
  h_responsesUpstreamTransport : string;
  h_upstreamProviderResolver : option upstreamProviderResolver
}.

Definition canProxyNativeResponses (h : responseHandler) : bool :=
  bool_decide (h_responsesUpstreamTransport h = "responses").

Section responses.
Context `{Sqlite} `{IdSource} `{MapOrder} `{UnicodeTable} `{RequestContext} `{TextModel} `{Generator} `{Clock}.
Context `{LibraryText} `{FloatConversion} `{Writer}.
Context (h : responseHandler).

Definition writeError (e : goerr) : reply :=
  let '(status, payload) := MapError (Some e) in JsonReply status (error_json payload).

(** A response that is not here is asked for upstream, when there is one. *)
Definition or_forward {A} (m : ST sworld A) (k : A -> ST sworld reply) : ST sworld reply := fun w =>
  match m w with
  | (Ok a, w') => k a w'
  | (Err e, w') =>
      let mapped := MapStorageError e in
      (Ok (if errors_is ESvcNotFound mapped then
             if canProxyNativeResponses h then ForwardReply else writeError mapped
           else writeError e), w')
  | (Panic, w') => (Panic, w')
  end.

(** Errors of a step are the answer. *)
Definition or_error {A} (m : ST sworld A) (k : A -> ST sworld reply) : ST sworld reply := fun w =>
  match m w with
  | (Ok a, w') => k a w'
  | (Err e, w') => (Ok (writeError e), w')
  | (Panic, w') => (Panic, w')
  end.

Definition handle_get (id : string) (values : Values) : ST sworld reply :=
  or_error (st_lift (parseResponseRetrieveQuery values)) (fun query =>
  or_forward (GetStored id) (fun response =>
  if rq_Stream query then
    or_error (GetReplayArtifacts id) (fun artifacts =>
      match writeResponseReplayAsSSE response artifacts (rq_StartingAfter query) (rq_IncludeObfuscation query) with
      | (Panic, _) => st_lift Panic
      | (result, connection) => mret (ReplayReply result connection)
      end)
  else mret (JsonReply 200 (response_value response)))).

Definition deletion_json (id : string) : json :=
  JObj [("id", json_str id); ("object", json_str "response"); ("deleted", JBool true)].

Definition handle_delete (id : string) : ST sworld reply :=
  or_forward (Delete id) (fun _ => mret (JsonReply 200 (deletion_json id))).

Definition getInputItems (id : string) (values : Values) : ST sworld reply :=
  or_error (st_lift (parseResponseInputItemsQuery values)) (fun query =>
  or_forward (GetInputItems (h_service h) id) (fun items =>
  or_error (st_lift (paginateResponseInputItems items query)) (fun response =>
  mret (JsonReply 200 (list_response_json response))))).
End responses.
