(* ===== verification/Catalog.v ===== *)
(** * Live model catalogs: the rest of internal/httpapi/upstream_provider_routing.go,
      ListModels of internal/llama/client.go and internal/llama/context.go

    The providers are asked for their models, all at once; the shim advertises
    those of its configured models that are there, and is ready when one is.
    The name of a model is rewritten on the way to the provider and back.

    A parameter stands for the HTTP exchange with a provider: the status and
    the body it answered, or the error.  Another one is the order in which the
    answers arrive. *)

From S2P Require Import Prelude GoStr GoFloat GoJson JsonFacts StrFacts GoInt GoTime World Items Normalize Context Store ConvService Compaction Compactor Memory ToolMarkup TextFormat Response LocalGen RespService RespManage Chat ChatStream ApiErrors Sse Streaming Replay Providers Handlers.

(** ** Slices in a struct

    json.Unmarshal fills a slice from its start and leaves what is in its
    elements where the document says nothing: a key that is repeated decodes
    into the elements of its first value.  A slice is its array and its length;
    [None] is the nil slice. *)

Definition slice (A : Type) : Type := option (list A * nat).
Definition elements {A} (s : slice A) : list A := match s with Some (array, n) => take n array | None => [] end.

Fixpoint fill_slice {A} (decode : A -> json -> option A) (zero : A) (array : list A) (l : list json) : option (list A) :=
  match l with
  | [] => Some array
  | t :: l =>
      x ← decode (default zero (head array)) t;
      rest ← fill_slice decode zero (tail array) l;
      Some (x :: rest)
  end.

Definition decode_slice {A} (decode : A -> json -> option A) (zero : A) (s : slice A) (t : json) : option (slice A) :=
  match t with
  | JNull => Some None
  | JArr [] => Some (Some ([], 0))
  | JArr l => array ← fill_slice decode zero (from_option fst [] s) l; Some (Some (array, length l))
  | _ => None
  end.

(** A field of a struct with what was in it before. *)
Definition field_into {A} (decode : A -> json -> option A) (name : string) (members : list (string * json)) (before : A) : option A :=
  foldl (fun o t => x ← o; decode x t) (Some before) (field_values name members).

Definition string_into (s : string) (t : json) : option string :=
  match t with JNull => Some s | JStr lit => Some (unquote lit) | _ => None end.

(** ** The list of models *)

Record upstreamModelRef := { mr_ID : string; mr_Model : string; mr_Name : string; mr_Aliases : slice string }.

Definition ref_into (before : upstreamModelRef) (t : json) : option upstreamModelRef :=
  members ← struct_members t;
  id ← field_into string_into "id" members (mr_ID before);
  model ← field_into string_into "model" members (mr_Model before);
  name ← field_into string_into "name" members (mr_Name before);
  aliases ← field_into (decode_slice string_into "") "aliases" members (mr_Aliases before);
  Some {| mr_ID := id; mr_Model := model; mr_Name := name; mr_Aliases := aliases |}.

Definition no_ref : upstreamModelRef := {| mr_ID := ""; mr_Model := ""; mr_Name := ""; mr_Aliases := None |}.

(** One call of add, on the list and the set of the names seen. *)
Definition add_model (modelIDs : list string) (modelID : string) : list string :=
  let modelID := TrimSpace modelID in
  if decide (modelID = "" \/ modelID ∈ modelIDs) then modelIDs else modelIDs ++ [modelID].

Definition ref_names (model : upstreamModelRef) : list string :=
  mr_ID model :: mr_Model model :: mr_Name model :: elements (mr_Aliases model).

Definition collectUpstreamModelIDs (groups : list (list upstreamModelRef)) : list string :=
  foldl add_model [] (flat_map (flat_map ref_names) groups).

(** What the exchange with the server gave. *)
Inductive exchange :=
| Answered (status : Z) (body : string)
| Failed (e : goerr).

(** io.ReadAll(io.LimitReader(body, 1<<20)) *)
Definition models_body_limit : nat := 1024 * 1024.

Definition models_payload (t : json) : option (string * slice upstreamModelRef * slice upstreamModelRef) :=
  members ← struct_members t;
  object ← field_string "object" members;
  data ← field_into (decode_slice ref_into no_ref) "data" members None;
  models ← field_into (decode_slice ref_into no_ref) "models" members None;
  Some (object, data, models).

Definition list_models (answer : exchange) : res (list string) :=
  match answer with
  | Failed e => Err e
  | Answered status body =>
      let body := stake models_body_limit body in
      if (status <? 200)%Z || (300 <=? status)%Z then Err (EUpstream status (TrimSpace body))
      else match jparse body ≫= models_payload with
      | None => Err (EWrap "decode llama response" (EDecode "models"))
      | Some (object, data, models) =>
          if decide (object <> "" /\ object <> "list") then
            Err (EInvalidResponse "llama models response did not contain a list object")
          else match data, models with
          | None, None => Err (EInvalidResponse "llama models response did not contain data")
          | _, _ => Ok (collectUpstreamModelIDs [elements data; elements models])
          end
      end
  end.

(** ** Routes in the context of a request *)

(** The value of upstreamRouteKey. *)
Definition context_route : Type := option UpstreamRoute.

Definition ContextWithUpstreamRoute (ctx : context_route) (route : UpstreamRoute) : context_route :=
  if decide (ur_ProviderID route = "" /\ ur_BaseURL route = "" /\ ur_PublicModel route = "" /\ ur_UpstreamModel route = "" /\
             ur_PluginID route = "")
  then ctx else Some route.

Definition UpstreamRouteFromContext (ctx : context_route) : context_route := ctx.

Definition rewriteRawFieldsModel (fields : list (string * json)) (model : string) : list (string * json) :=
  if decide (TrimSpace model = "") then fields else am_insert "model" (JStr (encode_body model)) fields.

Definition upstreamRawFieldsForContext (ctx : context_route) (fields : list (string * json)) : list (string * json) :=
  match UpstreamRouteFromContext ctx with
  | None => fields
  | Some route => if decide (TrimSpace (ur_UpstreamModel route) = "") then fields
                  else rewriteRawFieldsModel fields (ur_UpstreamModel route)
  end.

(** The body null decodes to the nil map, and the assignment panics. *)
Definition restoreRoutedModelInResponseBody (ctx : context_route) (body : string) : res string :=
  match UpstreamRouteFromContext ctx with
  | None => Ok body
  | Some route =>
      if decide (TrimSpace (ur_PublicModel route) = "" \/ TrimSpace body = "") then Ok body
      else match jparse body with
      | None => Ok body
      | Some JNull => Panic
      | Some t =>
          match raw_map t with
          | None => Ok body
          | Some payload =>
              Ok (jprint (raw_map_json (am_insert "model" (JStr (encode_body (ur_PublicModel route))) payload)))
          end
      end
  end.

(** The model of the response. *)
Definition restoreRoutedModelInResponse (ctx : context_route) (model : string) : string :=
  match UpstreamRouteFromContext ctx with
  | None => model
  | Some route => if decide (TrimSpace (ur_PublicModel route) = "") then model else ur_PublicModel route
  end.

(** ** Catalogs *)

(** sort.Strings *)
Definition string_le (a b : string) : Prop := String.compare a b <> Gt.
#[global] Instance string_le_dec a b : Decision (string_le a b).
Proof. unfold string_le. apply _. Defined.
Definition sort_strings : list string -> list string := merge_sort string_le.

(** The answers of providers asked at the same time, as they arrive. *)
Class Arrivals := {
  arrivals {V} : list (string * V) -> list (string * V);
  arrivals_perm {V} (l : list (string * V)) : arrivals l ≡ₚ l
}.

Section catalogs.
Context `{UnicodeTable} `{Arrivals}.
Context (fetch : context_route -> exchange).

(** client.ListModels: GET /v1/models of the provider in the context *)
Definition ListModels (ctx : context_route) : res (list string) := list_models (fetch ctx).

(** The route of a provider, without a model. *)
Definition provider_route (provider : upstreamProviderConfig) : UpstreamRoute :=
  {| ur_ProviderID := up_ID provider; ur_PublicModel := ""; ur_UpstreamModel := ""; ur_PluginID := up_PluginID provider;
     ur_PluginVersion := up_PluginVersion provider; ur_BaseURL := up_BaseURL provider; ur_BearerToken := up_BearerToken provider |}.

Definition ask (ctx : context_route) (provider : upstreamProviderConfig) : res (list string) :=
  ListModels (ContextWithUpstreamRoute ctx (provider_route provider)).

Definition providerIDs (r : option upstreamProviderResolver) : list string :=
  match r with
  | Some resolver => if Enabled r then sort_strings (map fst (map_to_list (re_providersByID resolver))) else []
  | None => []
  end.

(** The providers in the order they are asked: r.providersByID[providerID]. *)
Definition asked_providers (r : upstreamProviderResolver) : list upstreamProviderConfig :=
  omap (fun id => re_providersByID r !! id) (providerIDs (Some r)).

Definition providerModelCatalogReadyError (provider : upstreamProviderConfig) (models : list string) : option goerr :=
  let catalog : gset string := list_to_set (filter (fun m => m <> "") (map TrimSpace models)) in
  let configured := filter (fun m => m <> "") (map (fun kv => TrimSpace (um_UpstreamModel kv.2)) (map_to_list (up_modelsByID provider))) in
  if decide (up_modelsByID provider = ∅) then None
  else if decide (Exists (fun m => m ∈ catalog) configured) then None
  else Some (EMsg ("model catalog does not contain any configured upstream models: " +:+ sjoin ", " (sort_strings configured))).

(** What one of the goroutines finds of its provider. *)
Definition provider_readiness (ctx : context_route) (provider : upstreamProviderConfig) : option goerr :=
  let failed := fun e => Some (EWrap ("provider " +:+ Quote (up_ID provider) +:+ " is not ready") e) in
  match ask ctx provider with
  | Ok models => providerModelCatalogReadyError provider models ≫= failed
  | Err e => failed e
  | Panic => None
  end.

Definition ProviderReadiness (ctx : context_route) (r : option upstreamProviderResolver) : gmap string (option goerr) :=
  match r with
  | Some resolver =>
      insert_all (arrivals (map (fun p => (up_ID p, provider_readiness ctx p)) (asked_providers resolver)))
  | None => ∅
  end.

(** The first error by provider, unless some provider is ready. *)
Fixpoint aggregate (firstErr : option goerr) (errs : list (option goerr)) : option goerr :=
  match errs with
  | [] => firstErr
  | None :: _ => None
  | Some e :: errs => aggregate (match firstErr with None => Some e | Some _ => firstErr end) errs
  end.

Definition providerReadinessAggregateError (readiness : gmap string (option goerr)) : option goerr :=
  aggregate None (omap (fun id => readiness !! id) (sort_strings (map fst (map_to_list readiness)))).

Definition CheckReady (ctx : context_route) (r : option upstreamProviderResolver) : option goerr :=
  providerReadinessAggregateError (ProviderReadiness ctx r).

(** The loop over the results. *)
Definition catalogs_of (results : list (string * res (list string))) : gmap string (gset string) :=
  insert_all (omap (fun '(id, result) => match result with Ok models => Some (id, list_to_set models) | _ => None end) results).

Definition first_failure (results : list (string * res (list string))) : option goerr :=
  head (omap (fun '(id, result) => match result with Err e => Some e | _ => None end) results).

Definition LiveProviderModelCatalogs (ctx : context_route) (r : option upstreamProviderResolver) : res (gmap string (gset string)) :=
  match r with
  | Some resolver =>
      if negb (Enabled r) then Err (EMsg "upstream provider routing is not enabled")
      else
        let results := arrivals (map (fun p => (up_ID p,
          match ask ctx p with
          | Err e => Err (EWrap ("provider " +:+ Quote (up_ID p) +:+ " model catalog is not ready") e)
          | models => models
          end)) (asked_providers resolver)) in
        match first_failure results with
        | Some firstErr => if decide (catalogs_of results = ∅) then Err firstErr else Ok (catalogs_of results)
        | None => Ok (catalogs_of results)
        end
  | None => Err (EMsg "upstream provider routing is not enabled")
  end.

Definition model_json (model : upstreamProviderPublicModel) : json :=
  json_map [("id", JStr (encode_body (pm_ID model))); ("object", JStr "model"); ("created", json_int 0);
            ("owned_by", JStr (encode_body ("provider:" +:+ pm_Provider model)))].

Definition live_models (catalogs : gmap string (gset string)) (models : list upstreamProviderPublicModel) : list upstreamProviderPublicModel :=
  filter (fun model => pm_UpstreamModel model ∈ default ∅ (catalogs !! pm_Provider model)) models.

Definition WriteModels (ctx : context_route) (r : upstreamProviderResolver) : reply :=
  let not_ready := WriteError 503 "service_unavailable" "upstream provider model catalog is not ready" "" in
  match LiveProviderModelCatalogs ctx (Some r) with
  | Ok catalogs =>
      match live_models catalogs (re_models r) with
      | [] => not_ready
      | models => JsonReply 200 (json_map [("object", JStr "list"); ("data", JArr (map model_json models))])
      end
  | _ => not_ready
  end.
End catalogs.
