(* ===== verification/CatalogProps.v ===== *)
(** * What is listed can be used

    The shim lists exactly the configured models that their providers have, and
    is ready exactly when it lists one; the name of a model survives the way to
    the provider and back. *)

From S2P Require Import Prelude GoStr GoFloat GoJson JsonFacts StrFacts GoInt GoTime World Items Normalize NormProps Context Store ConvService Compaction Compactor Memory ToolMarkup TextFormat Response LocalGen RespService RespManage Chat ChatStream ApiErrors Sse Streaming Replay Providers ProviderProps Handlers Catalog.

(** ** The names of a catalog *)

Definition clean (name : string) : Prop := name <> "" /\ TrimSpace name = name.

Lemma add_model_clean modelIDs name : Forall clean modelIDs -> Forall clean (add_model modelIDs name).
Proof.
  intros Hall. unfold add_model. cbv zeta. case_decide as Hd; [done|]. apply Forall_app. split; [done|]. constructor; [|done].
  split; [tauto|]. apply TrimSpace_idemp.
Qed.

Lemma collected_clean groups : Forall clean (collectUpstreamModelIDs groups).
Proof.
  unfold collectUpstreamModelIDs. generalize (flat_map (flat_map ref_names) groups). intros names.
  assert (Hgen : forall acc, Forall clean acc -> Forall clean (foldl add_model acc names)); [|by apply Hgen].
  induction names as [|name names IH]; intros acc Hacc; [done|]. simpl. by apply IH, add_model_clean.
Qed.

Lemma list_models_clean answer models : list_models answer = Ok models -> Forall clean models.
Proof.
  unfold list_models. destruct answer as [status body|e]; [|done]. cbv zeta. destruct (_ || _); [done|].
  destruct (jparse _ ≫= models_payload) as [[[object data] refs]|]; [|done]. case_decide; [done|].
  destruct data, refs; try done; intros [= <-]; apply collected_clean.
Qed.

(** ** Readiness *)

Lemma aggregate_spec first errs : aggregate first errs = None <-> None ∈ errs \/ errs = [] /\ first = None.
Proof.
  revert first. induction errs as [|[e|] errs IH]; intros first; simpl.
  - split; [by right|]. by intros [?%not_elem_of_nil|[_ ->]].
  - rewrite IH, elem_of_cons. split; [|naive_solver]. intros [Hin|[-> Hf]]; [by left; right|]. by destruct first.
  - split; [intros _; left; apply elem_of_cons; by left|done].
Qed.

Section catalog.
Context `{UnicodeTable} `{Arrivals}.
Context (fetch : context_route -> exchange) (ctx : context_route).

(** Every provider is kept under its own identifier. *)
Definition named (r : upstreamProviderResolver) : Prop := forall id p, re_providersByID r !! id = Some p -> up_ID p = id.

Lemma asked_spec r : Enabled (Some r) = true -> forall p, p ∈ asked_providers r <-> exists id, re_providersByID r !! id = Some p.
Proof.
  intros He p. unfold asked_providers, providerIDs. rewrite He, list_elem_of_omap. split; [naive_solver|]. intros (id & Hid).
  exists id. split; [|done]. unfold sort_strings. rewrite merge_sort_Permutation. apply list_elem_of_fmap. exists (id, p).
  split; [done|]. by apply elem_of_map_to_list.
Qed.

Lemma asked_distinct r : Enabled (Some r) = true -> named r -> NoDup (map up_ID (asked_providers r)).
Proof.
  intros He Hn. unfold asked_providers, providerIDs. rewrite He.
  assert (Hd : NoDup (sort_strings (map fst (map_to_list (re_providersByID r))))).
  { unfold sort_strings. rewrite merge_sort_Permutation. apply NoDup_fst_map_to_list. }
  induction Hd as [|id ids Hid Hd IH]; [constructor|]. simpl. destruct (re_providersByID r !! id) as [p|] eqn:E; [|exact IH].
  simpl. constructor; [|exact IH]. rewrite (Hn _ _ E). intros (p' & Heq & (id' & Hin & Hp')%list_elem_of_omap)%list_elem_of_fmap.
  apply Hn in Hp'. congruence.
Qed.

(** What the answers of the providers are kept as. *)
Lemma results_lookup {V} r (f : upstreamProviderConfig -> V) id v : Enabled (Some r) = true -> named r ->
  insert_all (arrivals (map (fun p => (up_ID p, f p)) (asked_providers r))) !! id = Some v <->
  exists p, re_providersByID r !! id = Some p /\ v = f p.
Proof.
  intros He Hn. rewrite insert_all_lookup.
  - rewrite arrivals_perm, list_elem_of_fmap. split.
    + intros (p & [= -> ->] & Hin). apply (asked_spec r He) in Hin as (id' & Hid). exists p. by rewrite (Hn _ _ Hid).
    + intros (p & Hp & ->). exists p. rewrite (Hn _ _ Hp). split; [done|]. apply (asked_spec r He). by exists id.
  - rewrite arrivals_perm, map_map. by apply asked_distinct.
Qed.

Lemma CheckReady_spec r : Enabled (Some r) = true -> named r ->
  CheckReady fetch ctx (Some r) = None <-> exists id p, re_providersByID r !! id = Some p /\ provider_readiness fetch ctx p = None.
Proof.
  intros He Hn. unfold CheckReady, providerReadinessAggregateError, ProviderReadiness.
  pose proof (fun id v => results_lookup r (provider_readiness fetch ctx) id v He Hn) as Hl.
  set (m := insert_all _) in *. rewrite aggregate_spec, list_elem_of_omap. split.
  - intros [(id & _ & (p & Hp & Hr)%Hl)|[Hnil _]]; [by exists id, p|].
    assert (exists id p, re_providersByID r !! id = Some p) as (id & p & Hp).
    { unfold Enabled in He. apply negb_true_iff, bool_decide_eq_false in He. by apply map_choose in He. }
    assert (Hm : m !! id = Some (provider_readiness fetch ctx p)) by (apply Hl; by exists p).
    assert (Hin : provider_readiness fetch ctx p ∈ omap (fun id => m !! id) (sort_strings (map fst (map_to_list m)))).
    { apply list_elem_of_omap. exists id. split; [|done]. unfold sort_strings. rewrite merge_sort_Permutation.
      apply list_elem_of_fmap. exists (id, provider_readiness fetch ctx p). split; [done|]. by apply elem_of_map_to_list. }
    rewrite Hnil in Hin. by apply not_elem_of_nil in Hin.
  - intros (id & p & Hp & Hr). left. exists id. assert (Hm : m !! id = Some None) by (apply Hl; exists p; by rewrite Hr).
    split; [|done]. unfold sort_strings. rewrite merge_sort_Permutation. apply list_elem_of_fmap. exists (id, None). split; [done|].
    by apply elem_of_map_to_list.
Qed.

(** The models of the provider that its catalog has. *)
Lemma catalog_ready p models : up_modelsByID p <> ∅ -> Forall clean models ->
  (forall name m, up_modelsByID p !! name = Some m -> clean (um_UpstreamModel m)) ->
  providerModelCatalogReadyError p models = None <->
  exists name m, up_modelsByID p !! name = Some m /\ um_UpstreamModel m ∈ models.
Proof.
  intros Hne Hm Hc. unfold providerModelCatalogReadyError. cbv zeta. rewrite decide_False by done.
  assert (Hcat : forall x, x ∈ (list_to_set (filter (fun m => m <> "") (map TrimSpace models)) : gset string) <-> x ∈ models).
  { intros x. rewrite elem_of_list_to_set, list_elem_of_filter, list_elem_of_fmap. rewrite Forall_forall in Hm. split.
    - intros (_ & y & -> & Hy). by destruct (Hm y Hy) as [_ ->].
    - intros Hx. destruct (Hm x Hx) as [Hx1 Hx2]. split; [done|]. by exists x. }
  case_decide as He.
  - split; [intros _|done]. apply Exists_exists in He as (x & Hin & Hx). apply Hcat in Hx.
    apply list_elem_of_filter in Hin as [_ ([name m] & -> & Hl%elem_of_map_to_list)%list_elem_of_fmap].
    exists name, m. split; [done|]. simpl in Hx. by destruct (Hc _ _ Hl) as [_ <-].
  - split; [done|]. intros (name & m & Hl & Hx). exfalso. apply He, Exists_exists. destruct (Hc _ _ Hl) as [Hc1 Hc2].
    exists (um_UpstreamModel m). split; [|by apply Hcat]. apply list_elem_of_filter. split; [done|].
    apply list_elem_of_fmap. exists (name, m). split; [simpl; by rewrite Hc2|by apply elem_of_map_to_list].
Qed.

(** ** The list of models *)

(** The provider of a model is configured and has it. *)
Definition offered (r : upstreamProviderResolver) (m : upstreamProviderPublicModel) : Prop :=
  exists p models, re_providersByID r !! pm_Provider m = Some p /\ ask fetch ctx p = Ok models /\ pm_UpstreamModel m ∈ models.

(** The results of the providers. *)
Definition results (r : upstreamProviderResolver) : list (string * res (list string)) :=
  arrivals (map (fun p => (up_ID p,
    match ask fetch ctx p with
    | Err e => Err (EWrap ("provider " +:+ Quote (up_ID p) +:+ " model catalog is not ready") e)
    | models => models
    end)) (asked_providers r)).

Lemma results_elem r id result : Enabled (Some r) = true -> named r -> (id, result) ∈ results r <->
  exists p, re_providersByID r !! id = Some p /\ result =
    match ask fetch ctx p with
    | Err e => Err (EWrap ("provider " +:+ Quote (up_ID p) +:+ " model catalog is not ready") e)
    | models => models
    end.
Proof.
  intros He Hn. rewrite <-(results_lookup r _ id result He Hn). rewrite insert_all_lookup; [done|].
  rewrite arrivals_perm, map_map. by apply asked_distinct.
Qed.

Lemma catalogs_lookup r id names : Enabled (Some r) = true -> named r ->
  catalogs_of (results r) !! id = Some names <->
  exists p models, re_providersByID r !! id = Some p /\ ask fetch ctx p = Ok models /\ names = list_to_set models.
Proof.
  intros He Hn. unfold catalogs_of. rewrite insert_all_lookup.
  - rewrite list_elem_of_omap. split.
    + intros ([id' result] & Hin%(results_elem r _ _ He Hn) & Hr). destruct Hin as (p & Hp & ->).
      destruct (ask fetch ctx p) as [models|e|] eqn:E; simplify_eq. by exists p, models.
    + intros (p & models & Hp & Ha & ->). exists (id, Ok models). split; [|done]. apply (results_elem r _ _ He Hn).
      exists p. by rewrite Ha.
  - assert (Hd : NoDup (map fst (results r))).
    { unfold results. rewrite arrivals_perm, map_map. by apply asked_distinct. }
    induction (results r) as [|[id' result] l IH]; [constructor|]. simpl in Hd. apply NoDup_cons in Hd as [Hi Hd].
    simpl. destruct result as [models|e|]; [|by apply IH..]. simpl. constructor; [|by apply IH].
    intros ([i s] & Heq & ([i' x] & Hin & Hx)%list_elem_of_omap)%list_elem_of_fmap. simpl in Heq. subst. apply Hi.
    apply list_elem_of_fmap. exists (i', x). split; [|done]. by destruct x; simplify_eq.
Qed.

Lemma offered_spec r m : Enabled (Some r) = true -> named r ->
  pm_UpstreamModel m ∈ default ∅ (catalogs_of (results r) !! pm_Provider m) <-> offered r m.
Proof.
  intros He Hn. pose proof (fun names => catalogs_lookup r (pm_Provider m) names He Hn) as Hl.
  destruct (catalogs_of (results r) !! pm_Provider m) as [names|] eqn:E; simpl; split.
  - intros Hin. destruct (proj1 (Hl names) eq_refl) as (p & models & Hp & Ha & ->). exists p, models.
    split; [done|]. split; [done|]. by apply elem_of_list_to_set in Hin.
  - intros (p & models & Hp & Ha & Hin). assert (Hs : Some names = Some (list_to_set models)) by (apply Hl; by exists p, models).
    injection Hs as ->. by apply elem_of_list_to_set.
  - by intros ?%not_elem_of_empty.
  - intros (p & models & Hp & Ha & Hin). assert (Hs : None = Some (list_to_set (C := gset string) models)) by (apply Hl; by exists p, models).
    done.
Qed.

Lemma WriteModels_eq r : Enabled (Some r) = true -> WriteModels fetch ctx r =
  match live_models (catalogs_of (results r)) (re_models r) with
  | [] => WriteError 503 "service_unavailable" "upstream provider model catalog is not ready" ""
  | models => JsonReply 200 (json_map [("object", JStr "list"); ("data", JArr (map model_json models))])
  end.
Proof.
  intros He. unfold WriteModels, LiveProviderModelCatalogs. rewrite He. cbn [negb]. cbv zeta. fold (results r).
  destruct (first_failure (results r)); [|done]. case_decide as Hc; [|done]. rewrite Hc.
  assert (live_models ∅ (re_models r) = []) as ->; [|done]. unfold live_models.
  induction (re_models r) as [|m l IH]; [done|]. rewrite filter_cons, lookup_empty. simpl. rewrite decide_False; [exact IH|].
  by intros ?%not_elem_of_empty.
Qed.
End catalog.

(** ** An accepted configuration *)

Section accepted.
Context `{UnicodeTable} `{Arrivals}.
Context (fetch : context_route -> exchange) (ctx : context_route).

Lemma accepted_named providers r : Forall provider_ok providers -> NoDup (map lp_ID providers) ->
  newUpstreamProviderResolver providers = Some r -> named r.
Proof.
  intros Hok Hd Hr id c (p & Hin & Hc)%(resolver_provider providers r id c Hok Hd Hr). rewrite Forall_forall in Hok.
  destruct (provider_entry_ok p (Hok p Hin)) as (c' & Hc' & Hid & _). rewrite Hc' in Hc. by injection Hc as <- <-.
Qed.

(** The models of a provider of the resolver are the advertised ones. *)
Lemma accepted_models providers r id p : Forall provider_ok providers -> NoDup (map lp_ID providers) ->
  newUpstreamProviderResolver providers = Some r -> re_providersByID r !! id = Some p ->
  up_modelsByID p <> ∅ /\
  (forall name m, up_modelsByID p !! name = Some m -> clean (um_UpstreamModel m)) /\
  (forall x, (exists name m, up_modelsByID p !! name = Some m /\ um_UpstreamModel m = x) <->
             exists m, m ∈ re_models r /\ pm_Provider m = id /\ pm_UpstreamModel m = x).
Proof.
  intros Hok Hd Hr Hp. pose proof Hp as (q & Hq & Hc)%(resolver_provider providers r id p Hok Hd Hr).
  pose proof Hok as Hall. rewrite Forall_forall in Hall. pose proof (Hall q Hq) as [_ _ Hms _ Hsome]. rewrite Forall_forall in Hms.
  destruct (provider_entry_ok q (Hall q Hq)) as (c & Hc' & Hid & Hl). rewrite Hc in Hc'. injection Hc' as -> ->. split; [|split].
  - intros He. destruct (lp_Models q) as [|m ms] eqn:E; [done|].
    assert (Hm : up_modelsByID c !! lm_Model m = Some {| um_PublicModel := lm_Model m; um_UpstreamModel := lm_UpstreamModel m |}).
    { apply Hl. exists m. split; [by left|done]. }
    by rewrite He, lookup_empty in Hm.
  - intros name m (q' & Hin & _ & ->)%Hl. simpl. apply (mo_upstream _ (Hms q' Hin)).
  - intros x. split.
    + intros (name & m & (q' & Hin & <- & ->)%Hl & <-). eexists. split; [apply (resolver_models providers r _ Hok Hr); by exists q, q'|done].
    + intros (m & (q' & q'' & Hin & Hin' & ->)%(resolver_models providers r _ Hok Hr) & Hpr & <-). simpl in Hpr.
      assert (q' = q) as ->.
      { pose proof (Hall q' Hin) as Hq'. destruct (provider_entry_ok q' Hq') as (c' & Hc' & _).
        apply (list_elem_of_lookup_1 _ _) in Hin as [i Hi]. apply (list_elem_of_lookup_1 _ _) in Hq as [j Hj].
        assert (i = j) as ->; [|congruence]. apply (NoDup_lookup (map lp_ID providers) i j (lp_ID q)); [done|..];
          rewrite list_lookup_fmap; [by rewrite Hi; simpl; rewrite Hpr|by rewrite Hj]. }
      simpl. exists (lm_Model q''), {| um_PublicModel := lm_Model q''; um_UpstreamModel := lm_UpstreamModel q'' |}.
      split; [|done]. apply Hl. by exists q''.
Qed.

(** A provider is ready when it has one of the models advertised for it. *)
Lemma accepted_ready providers r id p : Forall provider_ok providers -> NoDup (map lp_ID providers) ->
  newUpstreamProviderResolver providers = Some r -> re_providersByID r !! id = Some p ->
  provider_readiness fetch ctx p = None <->
  exists models, ask fetch ctx p = Ok models /\ exists m, m ∈ re_models r /\ pm_Provider m = id /\ pm_UpstreamModel m ∈ models.
Proof.
  intros Hok Hd Hr Hid. destruct (accepted_models providers r id p Hok Hd Hr Hid) as (Hne & Hcl & Hadv).
  unfold provider_readiness. cbv zeta. destruct (ask fetch ctx p) as [models|e|] eqn:Ea.
  - pose proof (catalog_ready p models Hne (list_models_clean _ _ Ea) Hcl) as Hcat.
    transitivity (providerModelCatalogReadyError p models = None).
    { by destruct (providerModelCatalogReadyError p models). }
    rewrite Hcat. split.
    + intros (name & m & Hl & Hx). exists models. split; [done|]. destruct (proj1 (Hadv (um_UpstreamModel m))) as (m' & Hm' & Hi & Hu);
        [by exists name, m|]. exists m'. by rewrite Hu.
    + intros (models' & [= <-] & m & Hm & Hi & Hx). destruct (proj2 (Hadv (pm_UpstreamModel m))) as (name & m' & Hl & Hu);
        [by exists m|]. exists name, m'. by rewrite Hu.
  - split; [done|]. by intros (models & ? & _).
  - unfold ask, ListModels, list_models in Ea. repeat case_match; done.
Qed.

(** C29 (equivalence): with an accepted configuration, whatever the providers
    answer and in whichever order, the list of models holds exactly the
    configured models that their provider has, in the order of their names; it
    is refused as not ready when there is none, and the readiness check agrees
    with it. *)
Theorem models_listed_iff_ready Getenv decoded providers r :
  parseLlamaProviders Getenv decoded = Ok providers -> newUpstreamProviderResolver providers = Some r ->
  exists models, sublist models (re_models r) /\ (forall m, m ∈ models <-> m ∈ re_models r /\ offered fetch ctx r m) /\
    (WriteModels fetch ctx r =
       if decide (models = []) then WriteError 503 "service_unavailable" "upstream provider model catalog is not ready" ""
       else JsonReply 200 (json_map [("object", JStr "list"); ("data", JArr (map model_json models))])) /\
    (CheckReady fetch ctx (Some r) = None <-> models <> []).
Proof.
  intros Hp Hr. destruct (parse_providers_ok _ _ _ _ Hp) as (Hok & Hd & _).
  pose proof (resolver_enabled _ _ Hr) as He. pose proof (accepted_named _ _ Hok Hd Hr) as Hn.
  assert (Hoff : forall m, m ∈ live_models (catalogs_of (results fetch ctx r)) (re_models r) <-> m ∈ re_models r /\ offered fetch ctx r m).
  { intros m. unfold live_models. rewrite list_elem_of_filter, offered_spec by done. tauto. }
  exists (live_models (catalogs_of (results fetch ctx r)) (re_models r)). split; [apply sublist_filter|]. split; [exact Hoff|]. split.
  { rewrite WriteModels_eq by done. by destruct (live_models _ _). }
  rewrite CheckReady_spec by done. set (live := live_models _ _) in *. transitivity (exists m, m ∈ live).
  2:{ split; [intros (m & Hm) ->; by apply not_elem_of_nil in Hm|]. destruct live as [|m l]; [done|]. intros _. exists m. by left. }
  pose proof (fun id p => accepted_ready providers r id p Hok Hd Hr) as Hready.
  split.
  - intros (id & p & Hid & (models & Ha & m & Hm & Hi & Hx)%(Hready id p Hid)). exists m. apply Hoff. split; [done|].
    exists p, models. by rewrite Hi.
  - intros (m & (Hm & p & models & Hid & Ha & Hx)%Hoff). exists (pm_Provider m), p. split; [done|]. apply (Hready _ p Hid).
    exists models. split; [done|]. by exists m.
Qed.
End accepted.

Definition in_order : Arrivals := {| arrivals V l := l; arrivals_perm V l := Permutation_refl l |}.

(** A provider that has one of the two configured models. *)
Definition demo_fetch (ctx : context_route) : exchange :=
  Answered 200 (sq "{'object':'list','data':[{'id':'tiny.gguf','aliases':['tiny']},{'id':'other'}]}").

Lemma models_listed_iff_ready_witness :
  exists providers r models, parseLlamaProviders (H := ascii_only) (fun _ => "") demo_config = Ok providers /\
    newUpstreamProviderResolver providers = Some r /\ map pm_ID (re_models r) = ["local/org/qwen"; "local/small"] /\
    sublist models (re_models r) /\ (forall m, m ∈ models <-> m ∈ re_models r /\ offered demo_fetch None r m) /\
    (CheckReady (H := ascii_only) (H0 := in_order) demo_fetch None (Some r) = None <-> models <> []) /\
    CheckReady (H := ascii_only) (H0 := in_order) demo_fetch None (Some r) = None.
Proof.
  destruct (parseLlamaProviders (H := ascii_only) (fun _ => "") demo_config) as [providers|e|] eqn:Ep;
    [|vm_compute in Ep; discriminate Ep..].
  destruct (newUpstreamProviderResolver providers) as [r|] eqn:Er;
    [|vm_compute in Ep; injection Ep as <-; vm_compute in Er; discriminate Er].
  destruct (@models_listed_iff_ready ascii_only in_order demo_fetch None (fun _ => "") demo_config providers r Ep Er)
    as (models & Hs & Ho & _ & Hc).
  exists providers, r, models. split; [reflexivity|]. split; [exact Er|].
  vm_compute in Ep; injection Ep as <-; vm_compute in Er; injection Er as <-.
  split; [reflexivity|]. split; [exact Hs|]. split; [exact Ho|]. split; [exact Hc|]. vm_compute. reflexivity.
Defined.
