(* ===== verification/FloatOps.v ===== *)
(** * Arithmetic of float64

    Sums, differences, products and quotients are the exact rational rounded to
    the nearest float64, as IEEE 754 has it; every result is within a factor
    [1 + 2^-53] of the exact one, unless it is subnormal.  Values stay far below
    the largest float64 where the source computes with them, so that infinities
    do not occur; a result beyond it would be that largest number here. *)

From S2P Require Import Prelude GoStr GoFloat.
From Stdlib Require Import QArith Qpower Qround Lqa.
#[local] Open Scope Z_scope.

(** A finite float64 as a ratio. *)
Definition fnum (f : float64) : Z := (if f_neg f then -1 else 1) * (f_mant f * 2 ^ Z.max (f_exp f) 0).
Definition fden (f : float64) : Z := 2 ^ Z.max (- f_exp f) 0.

Definition max_float : float64 := Float64 false (2 ^ 53 - 1) 971.

Definition fround (num den : Z) : float64 := from_option id max_float (round_ratio (num <? 0) (Z.abs num) den).

(** float64(z) *)
Definition f_of_int (z : Z) : float64 := fround z 1.

Definition fadd (a b : float64) : float64 := fround (fnum a * fden b + fnum b * fden a) (fden a * fden b).
Definition fsub (a b : float64) : float64 := fround (fnum a * fden b - fnum b * fden a) (fden a * fden b).
Definition fmul (a b : float64) : float64 := fround (fnum a * fnum b) (fden a * fden b).
Definition fdiv (a b : float64) : float64 := fround (Z.sgn (fnum b) * (fnum a * fden b)) (fden a * Z.abs (fnum b)).

Definition fltb (a b : float64) : bool := fnum a * fden b <? fnum b * fden a.
Definition fleb (a b : float64) : bool := fnum a * fden b <=? fnum b * fden a.

(** math.Floor and math.Ceil, as the integer they are. *)
Definition ffloor (f : float64) : Z := fnum f / fden f.
Definition fceil (f : float64) : Z := - ((- fnum f) / fden f).

(** ** Values *)

#[local] Open Scope Q_scope.

Definition fq (f : float64) : Q := inject_Z (fnum f) / inject_Z (fden f).

Lemma fden_pos f : (0 < fden f)%Z.
Proof. unfold fden. apply Z.pow_pos_nonneg; lia. Qed.

Lemma inject_pos z : (0 < z)%Z -> 0 < inject_Z z.
Proof. intros Hz. change 0 with (inject_Z 0). by rewrite <-Zlt_Qlt. Qed.

Lemma inject_nonneg z : (0 <= z)%Z -> 0 <= inject_Z z.
Proof. intros Hz. change 0 with (inject_Z 0). by rewrite <-Zle_Qle. Qed.

Lemma pow2_pos e : 0 < 2 ^ e.
Proof. apply Qpower_0_lt. reflexivity. Qed.

Lemma pow2_add a b : 2 ^ (a + b) == 2 ^ a * 2 ^ b.
Proof. apply Qpower_plus. discriminate. Qed.

Lemma pow2_Z e : (0 <= e)%Z -> inject_Z (2 ^ e) == 2 ^ e.
Proof. intros He. change 2 with (inject_Z 2). by apply Zpower_Qpower. Qed.

(** The value is the mantissa times a power of two. *)
Lemma fq_mant f : f_neg f = false -> fq f == inject_Z (f_mant f) * 2 ^ f_exp f.
Proof.
  intros Hn. unfold fq, fnum, fden. rewrite Hn, Z.mul_1_l.
  destruct (Z.le_gt_cases 0 (f_exp f)) as [He|He].
  - rewrite (Z.max_l (f_exp f) 0), (Z.max_r (- f_exp f) 0) by lia. rewrite inject_Z_mult, pow2_Z by done.
    change (inject_Z (2 ^ 0)) with 1. field.
  - rewrite (Z.max_r (f_exp f) 0), (Z.max_l (- f_exp f) 0) by lia. change (2 ^ 0)%Z with 1%Z. rewrite Z.mul_1_r.
    rewrite pow2_Z, Qpower_opp by lia. pose proof (pow2_pos (f_exp f)). field. lra.
Qed.

(** ** Rounding *)

Definition ratio (num den : Z) : Q := inject_Z num / inject_Z den.

Lemma ratio_nonneg num den : (0 <= num)%Z -> (0 < den)%Z -> 0 <= ratio num den.
Proof. intros Hn Hd. unfold ratio. apply Qle_shift_div_l; [by apply inject_pos|]. rewrite Qmult_0_l. by apply inject_nonneg. Qed.

(** A ratio over a power of two. *)
Definition scaled (num den e : Z) : Z * Z := if (0 <=? e)%Z then (num, den * 2 ^ e)%Z else (num * 2 ^ (- e), den)%Z.

Lemma scaled_spec num den e : (0 <= num)%Z -> (0 < den)%Z ->
  (0 <= (scaled num den e).1)%Z /\ (0 < (scaled num den e).2)%Z /\
  ratio (scaled num den e).1 (scaled num den e).2 == ratio num den * 2 ^ (- e).
Proof.
  intros Hn Hd. unfold scaled, ratio. pose proof (inject_pos den Hd) as Hq. pose proof (pow2_pos e) as Hp.
  destruct (0 <=? e)%Z eqn:E; simpl.
  - apply Z.leb_le in E. pose proof (Z.pow_pos_nonneg 2 e ltac:(lia) E). split; [done|]. split; [lia|].
    rewrite inject_Z_mult, pow2_Z, Qpower_opp by done. field. split; lra.
  - apply Z.leb_gt in E. pose proof (Z.pow_pos_nonneg 2 (- e) ltac:(lia) ltac:(lia)). split; [lia|]. split; [done|].
    rewrite inject_Z_mult, pow2_Z by lia. field. lra.
Qed.

(** The whole part of a ratio. *)
Lemma ratio_div n d : (0 <= n)%Z -> (0 < d)%Z ->
  ratio n d == inject_Z (n / d) + ratio (n mod d) d /\ 0 <= ratio (n mod d) d < 1.
Proof.
  intros Hn Hd. pose proof (inject_pos d Hd) as Hq. pose proof (Z.mod_pos_bound n d Hd) as Hm. split; [|split].
  - unfold ratio. rewrite (Z.div_mod n d) at 1 by lia. rewrite inject_Z_plus, inject_Z_mult. field. lra.
  - apply ratio_nonneg; lia.
  - unfold ratio. apply Qlt_shift_div_r; [done|]. rewrite Qmult_1_l, <-Zlt_Qlt. lia.
Qed.

(** Half to even. *)
Definition nearest (n d : Z) : Z :=
  if ((d <? 2 * (n mod d)) || ((d =? 2 * (n mod d)) && Z.odd (n / d)))%Z then (n / d + 1)%Z else (n / d)%Z.

Lemma nearest_spec n d : (0 <= n)%Z -> (0 < d)%Z ->
  ratio n d - (1#2) <= inject_Z (nearest n d) <= ratio n d + (1#2) /\ (n / d <= nearest n d <= n / d + 1)%Z.
Proof.
  intros Hn Hd. destruct (ratio_div n d Hn Hd) as (Hr & H0 & H1). pose proof (inject_pos d Hd) as Hq.
  assert (Hhalf : forall c, (c * d <= 2 * (n mod d))%Z -> inject_Z c * (1#2) <= ratio (n mod d) d).
  { intros c Hc. apply Qle_shift_div_l; [done|]. rewrite Zle_Qle, !inject_Z_mult in Hc. change (inject_Z 2) with 2 in Hc. lra. }
  assert (Hhalf' : (2 * (n mod d) <= d)%Z -> ratio (n mod d) d <= (1#2)).
  { intros Hc. apply Qle_shift_div_r; [done|]. rewrite Zle_Qle, inject_Z_mult in Hc. change (inject_Z 2) with 2 in Hc. lra. }
  specialize (Hhalf 1%Z). change (inject_Z 1) with 1 in Hhalf. unfold nearest.
  destruct (_ || _)%bool eqn:E.
  - apply orb_true_iff in E. assert (1 * d <= 2 * (n mod d))%Z as Hc by (destruct E as [E|[E _]%andb_true_iff]; lia).
    specialize (Hhalf Hc). rewrite inject_Z_plus. change (inject_Z 1) with 1. split; [split; lra|lia].
  - apply orb_false_iff in E as [E _]. assert (2 * (n mod d) <= d)%Z as Hc by lia. specialize (Hhalf' Hc). split; [split; lra|lia].
Qed.

(** The exponent the mantissa is rounded at. *)
Definition first_exponent (num den : Z) : Z := Z.max (Z.log2 num - Z.log2 den - 52) (-1074).
Definition exponent (num den : Z) : Z :=
  let e0 := first_exponent num den in
  if (((scaled num den e0).1 / (scaled num den e0).2 <? 2 ^ 52) && (-1074 <? e0))%Z then (e0 - 1)%Z else e0.

Lemma round_ratio_eq neg num den : round_ratio neg num den =
  let e1 := exponent num den in
  let m := nearest (scaled num den e1).1 (scaled num den e1).2 in
  let '(m, e) := if (m =? 2 ^ 53)%Z then (2 ^ 52, e1 + 1)%Z else (m, e1) in
  if (971 <? e)%Z then None else Some (Float64 neg m e).
Proof.
  unfold round_ratio, exponent, first_exponent, nearest, scaled. cbv zeta beta.
  set (e0 := Z.max _ _). destruct (0 <=? e0)%Z; cbn [fst snd]; destruct (_ && _)%bool; destruct (0 <=? _)%Z; reflexivity.
Qed.

(** 2^(log2 num - log2 den - 1) < num/den < 2^(log2 num - log2 den + 1) *)
Lemma log_bounds num den : (0 < num)%Z -> (0 < den)%Z -> let l := (Z.log2 num - Z.log2 den)%Z in
  2 ^ (l - 1) < ratio num den < 2 ^ (l + 1).
Proof.
  intros Hn Hd. cbv zeta. destruct (Z.log2_spec num Hn) as [N1 N2]. destruct (Z.log2_spec den Hd) as [D1 D2].
  pose proof (Z.log2_nonneg num). pose proof (Z.log2_nonneg den). pose proof (inject_pos den Hd) as Hq.
  rewrite Zle_Qle, pow2_Z in N1, D1 by lia. rewrite Zlt_Qlt, pow2_Z in N2, D2 by lia.
  replace (Z.log2 num - Z.log2 den - 1)%Z with (Z.log2 num + - Z.succ (Z.log2 den))%Z by lia.
  replace (Z.log2 num - Z.log2 den + 1)%Z with (Z.succ (Z.log2 num) + - Z.log2 den)%Z by lia.
  rewrite !pow2_add, !Qpower_opp. pose proof (pow2_pos (Z.log2 den)). pose proof (pow2_pos (Z.succ (Z.log2 den))).
  pose proof (pow2_pos (Z.log2 num)) as P1. pose proof (pow2_pos (Z.succ (Z.log2 num))) as P2. unfold ratio. split.
  - apply Qlt_shift_div_l; [done|].
    assert (E : 2 ^ Z.log2 num * / 2 ^ Z.succ (Z.log2 den) * 2 ^ Z.succ (Z.log2 den) == 2 ^ Z.log2 num) by (field; lra).
    assert (K : 0 < 2 ^ Z.log2 num * / 2 ^ Z.succ (Z.log2 den)) by (by apply Qmult_lt_0_compat, Qinv_lt_0_compat).
    pose proof (proj2 (Qmult_lt_l _ _ _ K) D2). lra.
  - apply Qlt_shift_div_r; [done|].
    assert (E : 2 ^ Z.succ (Z.log2 num) * / 2 ^ Z.log2 den * 2 ^ Z.log2 den == 2 ^ Z.succ (Z.log2 num)) by (field; lra).
    assert (K : 0 < 2 ^ Z.succ (Z.log2 num) * / 2 ^ Z.log2 den) by (by apply Qmult_lt_0_compat, Qinv_lt_0_compat).
    pose proof (proj2 (Qmult_le_l _ _ _ K) D1). lra.
Qed.

Lemma pow2_le a b : (a <= b)%Z -> 2 ^ a <= 2 ^ b.
Proof. intros Hab. apply Qpower_le_compat_l; [done|discriminate]. Qed.

Lemma scale_lt x a b : x < 2 ^ a -> x * 2 ^ b < 2 ^ (a + b).
Proof. intros Hx. rewrite pow2_add. apply Qmult_lt_r; [apply pow2_pos|done]. Qed.

Lemma scale_gt x a b : 2 ^ a < x -> 2 ^ (a + b) < x * 2 ^ b.
Proof. intros Hx. rewrite pow2_add. apply Qmult_lt_r; [apply pow2_pos|done]. Qed.

Lemma floor_lt n d k : (0 <= n)%Z -> (0 < d)%Z -> (n / d <? k)%Z = true -> ratio n d < inject_Z k.
Proof.
  intros Hn Hd Hk. destruct (ratio_div n d Hn Hd) as (Hr & _ & H1). apply Z.ltb_lt in Hk.
  assert (Hk' : (n / d + 1 <= k)%Z) by lia. rewrite Zle_Qle, inject_Z_plus in Hk'. change (inject_Z 1) with 1 in Hk'. lra.
Qed.

Lemma floor_ge n d k : (0 <= n)%Z -> (0 < d)%Z -> (n / d <? k)%Z = false -> inject_Z k <= ratio n d.
Proof.
  intros Hn Hd Hk. destruct (ratio_div n d Hn Hd) as (Hr & H0 & _). apply Z.ltb_ge in Hk. rewrite Zle_Qle in Hk. lra.
Qed.

Lemma exponent_spec num den : (0 < num)%Z -> (0 < den)%Z -> let e := exponent num den in
  (-1074 <= e)%Z /\ ratio num den * 2 ^ (- e) < 2 ^ 53 /\ (e = (-1074)%Z \/ 2 ^ 52 <= ratio num den * 2 ^ (- e)).
Proof.
  intros Hn Hd. cbv zeta. destruct (log_bounds num den Hn Hd) as [L1 L2]. unfold exponent. cbv zeta.
  set (l := (Z.log2 num - Z.log2 den)%Z) in *. set (e0 := first_exponent num den).
  assert (He0 : e0 = Z.max (l - 52) (-1074)) by done. clearbody e0.
  destruct (scaled_spec num den e0 ltac:(lia) Hd) as (S1 & S2 & S3).
  assert (Hy0 : ratio num den * 2 ^ (- e0) < 2 ^ 53).
  { eapply Qlt_le_trans; [apply scale_lt; exact L2|]. apply pow2_le. lia. }
  destruct (_ <? 2 ^ 52)%Z eqn:E1; cbn [andb].
  - destruct (-1074 <? e0)%Z eqn:E2.
    + apply Z.ltb_lt in E2. apply floor_lt in E1; [|done..]. rewrite S3, pow2_Z in E1 by lia.
      replace (- (e0 - 1))%Z with (- e0 + 1)%Z by lia. rewrite pow2_add. change (2 ^ 1) with 2.
      change (2 ^ 53) with (2 * 2 ^ 52). split; [lia|]. split; [lra|right].
      assert (Hlow : 2 ^ 51 < ratio num den * 2 ^ (- e0)).
      { eapply Qle_lt_trans; [|apply scale_gt; exact L1]. apply pow2_le. lia. }
      change (2 ^ 52) with (2 * 2 ^ 51). lra.
    + apply Z.ltb_ge in E2. split; [lia|]. split; [done|left]. lia.
  - apply floor_ge in E1; [|done..]. rewrite S3, pow2_Z in E1 by lia. split; [lia|]. split; [done|by right].
Qed.

Lemma pow2_inv e : 2 ^ e * 2 ^ (- e) == 1.
Proof. rewrite <-pow2_add, Z.add_opp_diag_r. reflexivity. Qed.

(** The unit roundoff, and half the smallest subnormal number. *)
Definition u : Q := 2 ^ (-53).
Definition tiny : Q := 2 ^ (-1075).

Definition close (x y : Q) : Prop := x - y <= u * y + tiny /\ y - x <= u * y + tiny.

#[global] Instance close_proper : Proper (Qeq ==> Qeq ==> iff) close.
Proof. intros x x' Hx y y' Hy. unfold close. by rewrite Hx, Hy. Qed.

Lemma tiny_pos : 0 < tiny.
Proof. apply pow2_pos. Qed.

(** Rounding at an exponent that is fine enough. *)
Lemma rounding_error x e m : 0 <= x -> x * 2 ^ (- e) - (1#2) <= inject_Z m <= x * 2 ^ (- e) + (1#2) ->
  e = (-1074)%Z \/ 2 ^ 52 <= x * 2 ^ (- e) -> close (inject_Z m * 2 ^ e) x.
Proof.
  intros Hx [M1 M2] He. pose proof (pow2_pos e) as Hp. pose proof (pow2_inv e) as Hi.
  assert (Hxe : x * 2 ^ (- e) * 2 ^ e == x) by (rewrite <-Qmult_assoc, (Qmult_comm (2 ^ (- e))), Hi; ring).
  pose proof (Qmult_le_compat_r _ _ (2 ^ e) M1 ltac:(lra)). pose proof (Qmult_le_compat_r _ _ (2 ^ e) M2 ltac:(lra)).
  assert (Hhalf : (1#2) * 2 ^ e <= u * x + tiny); [|split; lra]. destruct He as [->|He].
  - assert (Ht : (1#2) * 2 ^ (-1074) == tiny).
    { unfold tiny. change (-1075)%Z with (-1 + -1074)%Z. rewrite pow2_add. reflexivity. }
    assert (0 <= u * x) by (apply Qmult_le_0_compat; [discriminate|done]). lra.
  - pose proof (Qmult_le_compat_r _ _ (2 ^ e) He ltac:(lra)) as Hlow. rewrite Hxe in Hlow.
    assert (Hu : u * 2 ^ 52 == (1#2)) by reflexivity. assert (Hu0 : 0 <= u) by discriminate.
    pose proof (Qmult_le_compat_r _ _ u Hlow Hu0). pose proof tiny_pos.
    assert (2 ^ 52 * 2 ^ e * u == (1#2) * 2 ^ e) by (rewrite <-Hu; ring). lra.
Qed.

Lemma exponent_bound x e : x < 2 ^ 1000 -> 2 ^ 52 <= x * 2 ^ (- e) -> (e < 970)%Z.
Proof.
  intros Hx He. destruct (Z.lt_ge_cases e 970) as [|Hge]; [done|]. exfalso.
  pose proof (scale_lt _ _ (- e) Hx) as Hy. pose proof (pow2_le (1000 + - e) 30 ltac:(lia)).
  assert (2 ^ 30 < 2 ^ 52) by reflexivity. lra.
Qed.

Lemma nearest_0 d : (0 < d)%Z -> nearest 0 d = 0%Z.
Proof.
  intros Hd. unfold nearest. rewrite Z.div_0_l, Z.mod_0_l by lia. destruct (_ <? _)%Z eqn:E; [lia|].
  by destruct (_ =? _)%Z eqn:E'; [lia|].
Qed.

Lemma scaled_0 den e : (scaled 0 den e).1 = 0%Z.
Proof. unfold scaled. by destruct (0 <=? e)%Z. Qed.

Lemma exponent_0 den : (exponent 0 den <= 0)%Z.
Proof.
  unfold exponent, first_exponent. cbv zeta. pose proof (Z.log2_nonneg den). change (Z.log2 0) with 0%Z.
  destruct (_ && _)%bool; lia.
Qed.

Lemma round_ratio_close neg num den : (0 <= num)%Z -> (0 < den)%Z -> ratio num den < 2 ^ 1000 ->
  exists m e, round_ratio neg num den = Some (Float64 neg m e) /\ (0 <= m)%Z /\ close (inject_Z m * 2 ^ e) (ratio num den).
Proof.
  intros Hn Hd Hx. rewrite round_ratio_eq. cbv zeta.
  destruct (scaled_spec num den (exponent num den) Hn Hd) as (S1 & S2 & S3).
  destruct (nearest_spec _ _ S1 S2) as (M & M3). rewrite S3 in M.
  assert (Hm0 : (0 <= nearest (scaled num den (exponent num den)).1 (scaled num den (exponent num den)).2)%Z)
    by (pose proof (Z.div_pos _ _ S1 S2); lia).
  assert (Hx0 : 0 <= ratio num den) by (by apply ratio_nonneg).
  destruct (decide (num = 0%Z)) as [->|Hne].
  - rewrite scaled_0, nearest_0 by done. pose proof (exponent_0 den). assert ((0 =? 2 ^ 53)%Z = false) as -> by done.
    rewrite (proj2 (Z.ltb_ge 971 _)) by lia.
    exists 0%Z, (exponent 0 den). split; [done|]. split; [done|]. pose proof tiny_pos.
    assert (Hz : ratio 0 den == 0) by (unfold ratio, Qdiv; apply Qmult_0_l). assert (Hz' : inject_Z 0 * 2 ^ exponent 0 den == 0) by apply Qmult_0_l.
    unfold close. rewrite Hz, Hz'. split; lra.
  - destruct (exponent_spec num den ltac:(lia) Hd) as (_ & _ & He). pose proof (rounding_error _ _ _ Hx0 M He) as Hc.
    assert (Hlt : (exponent num den < 970)%Z) by (destruct He as [->|He]; [done|by eapply exponent_bound]).
    set (m := nearest _ _) in *. set (e := exponent num den) in *.
    destruct (m =? 2 ^ 53)%Z eqn:Em; rewrite (proj2 (Z.ltb_ge 971 _)) by lia; eexists _, _; (split; [done|]); (split; [lia|]); [|done].
    apply Z.eqb_eq in Em. rewrite Em in Hc. unfold close in *. rewrite pow2_add.
    assert (Hd2 : inject_Z (2 ^ 52) * (2 ^ e * 2 ^ 1) == inject_Z (2 ^ 53) * 2 ^ e); [|rewrite Hd2; exact Hc].
    change (inject_Z (2 ^ 53)) with (inject_Z (2 ^ 52) * 2 ^ 1). ring.
Qed.

(** ** The operations *)

Lemma fden_nonzero f : ~ inject_Z (fden f) == 0.
Proof. pose proof (inject_pos _ (fden_pos f)). lra. Qed.
#[local] Hint Resolve fden_nonzero fden_pos : core.

Lemma fq_num f : fq f * inject_Z (fden f) == inject_Z (fnum f).
Proof. unfold fq. field. auto. Qed.

Lemma fnum_nonneg f : 0 <= fq f -> (0 <= fnum f)%Z.
Proof.
  intros Hf. rewrite Zle_Qle. change (inject_Z 0) with 0. rewrite <-fq_num. apply Qmult_le_0_compat; [done|].
  apply inject_nonneg. pose proof (fden_pos f). lia.
Qed.

Lemma fround_close num den : (0 <= num)%Z -> (0 < den)%Z -> ratio num den < 2 ^ 1000 ->
  close (fq (fround num den)) (ratio num den) /\ 0 <= fq (fround num den).
Proof.
  intros Hn Hd Hx. unfold fround. rewrite (proj2 (Z.ltb_ge num 0)), Z.abs_eq by lia.
  destruct (round_ratio_close false num den Hn Hd Hx) as (m & e & -> & Hm & Hc). simpl. unfold close in *.
  rewrite fq_mant by done. simpl. split; [done|]. apply Qmult_le_0_compat; [by apply inject_nonneg|].
  pose proof (pow2_pos e). lra.
Qed.

(** What rounding needs of the exact result. *)
Definition in_range (x : Q) : Prop := 0 <= x < 2 ^ 1000.

#[global] Instance in_range_proper : Proper (Qeq ==> iff) in_range.
Proof. intros x x' Hx. unfold in_range. by rewrite Hx. Qed.

Lemma fround_of num den x : (0 < den)%Z -> inject_Z num == x * inject_Z den -> in_range x ->
  close (fq (fround num den)) x /\ 0 <= fq (fround num den).
Proof.
  intros Hd He [Hx0 Hx1]. pose proof (inject_pos den Hd) as Hq.
  assert (Hr : ratio num den == x) by (unfold ratio; rewrite He; field; lra).
  assert (Hn : (0 <= num)%Z).
  { rewrite Zle_Qle. change (inject_Z 0) with 0. rewrite He. apply Qmult_le_0_compat; lra. }
  rewrite <-Hr in Hx1. destruct (fround_close num den Hn Hd Hx1) as [Hc H0]. split; [|done]. unfold close in *. by rewrite <-Hr.
Qed.

Ltac exact_value := unfold fadd, fsub, fmul, fdiv; apply fround_of; [apply Z.mul_pos_pos; auto| |done];
  rewrite ?inject_Z_plus, ?inject_Z_mult; rewrite <-!fq_num; ring.

Lemma fadd_close a b : in_range (fq a + fq b) -> close (fq (fadd a b)) (fq a + fq b) /\ 0 <= fq (fadd a b).
Proof. intros Hr. exact_value. Qed.

Lemma fsub_close a b : in_range (fq a - fq b) -> close (fq (fsub a b)) (fq a - fq b) /\ 0 <= fq (fsub a b).
Proof.
  intros Hr. unfold fsub. apply fround_of; [apply Z.mul_pos_pos; auto| |done].
  unfold Z.sub. rewrite inject_Z_plus, inject_Z_opp, !inject_Z_mult, <-!fq_num. ring.
Qed.

Lemma fmul_close a b : in_range (fq a * fq b) -> close (fq (fmul a b)) (fq a * fq b) /\ 0 <= fq (fmul a b).
Proof. intros Hr. exact_value. Qed.

Lemma fdiv_close a b : 0 < fq b -> in_range (fq a / fq b) -> close (fq (fdiv a b)) (fq a / fq b) /\ 0 <= fq (fdiv a b).
Proof.
  intros Hb Hr. assert (Hn : (0 < fnum b)%Z).
  { rewrite Zlt_Qlt. change (inject_Z 0) with 0. rewrite <-fq_num. apply Qmult_lt_0_compat; [done|]. by apply inject_pos. }
  unfold fdiv. rewrite Z.sgn_pos, Z.abs_eq, Z.mul_1_l by lia. apply fround_of; [apply Z.mul_pos_pos; auto| |done].
  rewrite !inject_Z_mult, <-!fq_num. field. lra.
Qed.

Lemma f_of_int_close z : in_range (inject_Z z) -> close (fq (f_of_int z)) (inject_Z z) /\ 0 <= fq (f_of_int z).
Proof. intros Hr. apply fround_of; [lia| |done]. change (inject_Z 1) with 1. ring. Qed.

Lemma fcompare a b : (fnum a * fden b <= fnum b * fden a)%Z <-> fq a <= fq b.
Proof.
  pose proof (inject_pos _ (fden_pos a)) as Ha. pose proof (inject_pos _ (fden_pos b)) as Hb.
  rewrite Zle_Qle, !inject_Z_mult, <-!fq_num.
  assert (Hab : 0 < inject_Z (fden a) * inject_Z (fden b)) by (by apply Qmult_lt_0_compat).
  transitivity (fq a * (inject_Z (fden a) * inject_Z (fden b)) <= fq b * (inject_Z (fden a) * inject_Z (fden b))).
  - split; intros H; lra.
  - split; [apply Qmult_le_r|apply Qmult_le_r]; done.
Qed.

Lemma fleb_spec a b : fleb a b = true <-> fq a <= fq b.
Proof. unfold fleb. by rewrite Z.leb_le, fcompare. Qed.

Lemma fltb_spec a b : fltb a b = true <-> fq a < fq b.
Proof. unfold fltb. rewrite Z.ltb_lt, Z.lt_nge, fcompare. split; intros H; lra. Qed.
