(* ===== verification/Sha256.v ===== *)
(** * SHA-256

    crypto/sha256 of the standard library, on 32-bit words, and the hexadecimal
    text of its first bytes; the shim names the owner of a bearer token by it. *)

From S2P Require Import Prelude GoStr.
#[local] Open Scope Z_scope.

Definition word (z : Z) : Z := z mod 2 ^ 32.
Definition rotr (n x : Z) : Z := Z.lor (Z.shiftr x n) (word (Z.shiftl x (32 - n))).
Definition w_not (x : Z) : Z := Z.lxor x (2 ^ 32 - 1).

(** The constants are the first 32 bits of the fractional parts of roots of the
    first primes: cube roots for the rounds, square roots for the initial value. *)
Definition is_prime (n : Z) : bool :=
  forallb (fun d => negb (n mod (Z.of_nat d + 2) =? 0)) (seq 0 (Z.to_nat (n - 2))).

Definition first_primes (n : nat) : list Z :=
  take n (filter (fun p => is_prime p = true) (map (fun i => Z.of_nat i + 2) (seq 0 310))).

(** The whole part of the cube root of a number below 2^108, bit by bit. *)
Definition cube_root (n : Z) : Z :=
  foldl (fun x b => let y := x + 2 ^ Z.of_nat b in if y ^ 3 <=? n then y else x) 0 (reverse (seq 0 36)).

Definition round_constants : list Z := Eval vm_compute in map (fun p => word (cube_root (p * 2 ^ 96))) (first_primes 64).

Definition initial_hash : list Z := Eval vm_compute in map (fun p => word (Z.sqrt (p * 2 ^ 64))) (first_primes 8).

(** The message with its padding, as bytes. *)
Definition sha_pad (bytes : list Z) : list Z :=
  let n := Z.of_nat (length bytes) in
  let gap := Z.to_nat ((55 - n) mod 64) in
  bytes ++ [128] ++ repeat 0 gap ++ map (fun i => Z.shiftr (8 * n) (56 - 8 * Z.of_nat i) mod 256) (seq 0 8).

(** Big-endian words. *)
Fixpoint words_of (bytes : list Z) : list Z :=
  match bytes with
  | a :: b :: c :: d :: bytes => (a * 2 ^ 24 + b * 2 ^ 16 + c * 2 ^ 8 + d) :: words_of bytes
  | _ => []
  end.

(** The schedule of a block, last word first. *)
Fixpoint extend (n : nat) (w : list Z) : list Z :=
  match n with
  | O => w
  | S n =>
      let at_ i := nth i w 0 in
      let w15 := at_ 14%nat in
      let w2 := at_ 1%nat in
      let s0 := Z.lxor (Z.lxor (rotr 7 w15) (rotr 18 w15)) (Z.shiftr w15 3) in
      let s1 := Z.lxor (Z.lxor (rotr 17 w2) (rotr 19 w2)) (Z.shiftr w2 10) in
      extend n (word (at_ 15%nat + s0 + at_ 6%nat + s1) :: w)
  end.

Definition sha_round (h : list Z) (kw : Z * Z) : list Z :=
  match h with
  | [a; b; c; d; e; f; g; hh] =>
      let s1 := Z.lxor (Z.lxor (rotr 6 e) (rotr 11 e)) (rotr 25 e) in
      let ch := Z.lxor (Z.land e f) (Z.land (w_not e) g) in
      let t1 := word (hh + s1 + ch + kw.1 + kw.2) in
      let s0 := Z.lxor (Z.lxor (rotr 2 a) (rotr 13 a)) (rotr 22 a) in
      let maj := Z.lxor (Z.lxor (Z.land a b) (Z.land a c)) (Z.land b c) in
      let t2 := word (s0 + maj) in
      [word (t1 + t2); a; b; c; word (d + t1); e; f; g]
  | _ => h
  end.

Definition sha_block (h : list Z) (block : list Z) : list Z :=
  let w := reverse (extend 48 (reverse block)) in
  zip_with (fun x y => word (x + y)) h (foldl sha_round h (zip round_constants w)).

Fixpoint sha_blocks (fuel : nat) (h words : list Z) : list Z :=
  match fuel, words with
  | S fuel, _ :: _ => sha_blocks fuel (sha_block h (take 16 words)) (drop 16 words)
  | _, _ => h
  end.

Fixpoint string_bytes (s : string) : list Z :=
  match s with "" => [] | String a s => Z.of_N (code a) :: string_bytes s end.

(** The eight words of the sum; a block takes 16 words, so that the number of
    words is enough fuel. *)
Definition Sum256 (s : string) : list Z :=
  let words := words_of (sha_pad (string_bytes s)) in
  sha_blocks (length words) initial_hash words.

(** hex.EncodeToString of the bytes of a word. *)
Definition hex_word (w : Z) : string := hex8 (Z.to_N w).

(** ** Test vectors of FIPS 180-2 *)

Example sum256_abc : map hex_word (Sum256 "abc") =
  ["ba7816bf"; "8f01cfea"; "414140de"; "5dae2223"; "b00361a3"; "96177a9c"; "b410ff61"; "f20015ad"].
Proof. vm_compute. reflexivity. Qed.

Example sum256_two_blocks : map hex_word (Sum256 "abcdbcdecdefdefgefghfghighijhijkijkljklmklmnlmnomnopnopq") =
  ["248d6a61"; "d20638b8"; "e5c02693"; "0c3e6039"; "a33ce459"; "64ff2167"; "f6ecedd4"; "19db06c1"].
Proof. vm_compute. reflexivity. Qed.
