(* ===== verification/Guard.v ===== *)
(** * Who gets in: internal/httpapi/ops.go, middleware.go and the headers of
      internal/llama/context.go

    Every request passes the middlewares in the order of Chain: its identifiers
    are checked, its body is limited, the bearer token is compared with the
    configured ones and taken out of the headers, the bucket of its owner pays
    for it, and the headers that go on to the upstream server are set aside.
    Logging, metrics and traces are left out. *)

From S2P Require Import Prelude GoStr GoFloat GoJson JsonFacts StrFacts GoInt GoTime World Items Normalize Context Store ConvService Compaction Compactor Memory ToolMarkup TextFormat Response LocalGen RespService RespManage Chat ChatStream ApiErrors Sse Streaming Replay Providers Handlers Catalog FloatOps Sha256.

(** ** Headers of net/http *)

Definition token_char (a : ascii) : bool :=
  in_rng 48 57 (code a) || in_rng 65 90 (code a) || in_rng 97 122 (code a) ||
  bool_decide (code a ∈ [33; 35; 36; 37; 38; 39; 42; 43; 45; 46; 94; 95; 96; 124; 126]%N).

Fixpoint capitalize (upper : bool) (s : string) : string :=
  match s with
  | "" => ""
  | String a s => String (if upper then upper_ascii a else lower_ascii a) (capitalize (code a =? 45)%N s)
  end.

(** textproto.CanonicalMIMEHeaderKey *)
Definition CanonicalHeaderKey (key : string) : string :=
  if all_chars token_char key then capitalize true key else key.

(** http.Header; the keys of a request are canonical. *)
Definition Header : Type := list (string * list string).

Definition h_Values (h : Header) (key : string) : list string := default [] (am_lookup (CanonicalHeaderKey key) h).
Definition h_Get (h : Header) (key : string) : string := default "" (head (h_Values h key)).
Definition h_Set (key value : string) (h : Header) : Header := am_insert (CanonicalHeaderKey key) [value] h.
Definition h_Del (key : string) (h : Header) : Header := am_delete (CanonicalHeaderKey key) h.
Definition h_Add (key value : string) (h : Header) : Header :=
  am_insert (CanonicalHeaderKey key) (h_Values h key ++ [value]) h.

(** ** Headers that are passed on: internal/llama/context.go *)

Definition forwardedRequestHeaders : list string :=
  ["Authorization"; "Api-Key"; "X-Api-Key"; "X-Client-Request-Id"; "OpenAI-Organization"; "OpenAI-Project"].

Definition cloneForwardHeaders (incoming : Header) : Header :=
  foldl (fun out key => match h_Values incoming key with [] => out | values => am_insert key values out end) []
    forwardedRequestHeaders.

(** The headers in the context of a request, if any. *)
Definition ContextWithForwardHeaders (ctx : option Header) (incoming : Header) : option Header :=
  match cloneForwardHeaders incoming with [] => ctx | headers => Some headers end.

Definition applyContextHeaders `{MapOrder} (ctx : option Header) (outgoing : Header) : Header :=
  foldl (fun outgoing '(key, values) =>
           if decide (h_Get outgoing key <> "") then outgoing
           else foldl (fun h value => h_Add key value h) outgoing values)
    outgoing (map_order (default [] ctx)).

Definition applyBearerAuth (bearerToken : string) (outgoing : Header) : Header :=
  if decide (TrimSpace bearerToken = "") then outgoing
  else if decide (TrimSpace (h_Get outgoing "Authorization") <> "") then outgoing
  else h_Set "Authorization" ("Bearer " +:+ TrimSpace bearerToken) outgoing.

Definition applyUpstreamAuth (route : context_route) (bearerToken : string) (outgoing : Header) : Header :=
  match UpstreamRouteFromContext route with
  | Some route => applyBearerAuth (ur_BearerToken route) (h_Del "X-Api-Key" (h_Del "Api-Key" (h_Del "Authorization" outgoing)))
  | None => applyBearerAuth bearerToken outgoing
  end.

(** ** Bearer tokens *)

Definition StaticBearerAuthModeDisabled : string := "disabled".
Definition StaticBearerAuthModeStaticBearer : string := "static_bearer".

Record StaticBearerAuthConfig := {
  ac_Mode : string;
  ac_BearerTokens : list string;
  ac_tokenSubjects : gmap string string
}.

Definition authTokenFingerprint (token : string) : string := hex_word (hd 0%Z (Sum256 token)).

(** The loop over the candidates: the tokens kept and their subjects. *)
Definition add_token (acc : list string * gmap string string) (candidate : string) : list string * gmap string string :=
  let token := TrimSpace candidate in
  if decide (token = "") then acc
  else match acc.2 !! token with
  | Some _ => acc
  | None => (acc.1 ++ [token], <[token := "token_" +:+ authTokenFingerprint token]> acc.2)
  end.

Definition normalizeStaticBearerAuthConfig `{UnicodeTable} (cfg : StaticBearerAuthConfig) : res StaticBearerAuthConfig :=
  let mode := ToLower (TrimSpace (ac_Mode cfg)) in
  let mode := if decide (mode = "") then StaticBearerAuthModeDisabled else mode in
  if decide (mode = StaticBearerAuthModeDisabled) then
    Ok {| ac_Mode := mode; ac_BearerTokens := []; ac_tokenSubjects := ∅ |}
  else if decide (mode = StaticBearerAuthModeStaticBearer) then
    let '(normalized, tokenSubjects) := foldl add_token ([], ∅) (ac_BearerTokens cfg) in
    if decide (tokenSubjects = ∅) then
      Err (EMsg "shim.auth.bearer_tokens must not be empty when shim.auth.mode=static_bearer")
    else Ok {| ac_Mode := mode; ac_BearerTokens := normalized; ac_tokenSubjects := tokenSubjects |}
  else Err (EMsg ("unsupported shim.auth.mode " +:+ Quote mode)).

Definition auth_Enabled (c : StaticBearerAuthConfig) : bool :=
  bool_decide (ac_Mode c = StaticBearerAuthModeStaticBearer) && negb (bool_decide (ac_tokenSubjects c = ∅)).

Definition subjectForToken (c : StaticBearerAuthConfig) (token : string) : option string :=
  ac_tokenSubjects c !! TrimSpace token.

Definition extractBearerToken (header : string) : option string :=
  match Fields (TrimSpace header) with
  | [scheme; token] =>
      if EqualFold scheme "Bearer" then
        if decide (TrimSpace token = "") then None else Some (TrimSpace token)
      else None
  | _ => None
  end.

(** ** Rate limits *)

Record RateLimitConfig := { rl_Enabled : bool; rl_RequestsPerMinute : Z; rl_Burst : Z }.

Definition normalizeRateLimitConfig (cfg : RateLimitConfig) : res RateLimitConfig :=
  if negb (rl_Enabled cfg) then Ok {| rl_Enabled := false; rl_RequestsPerMinute := 0; rl_Burst := 0 |}
  else if (rl_RequestsPerMinute cfg <=? 0)%Z then
    Err (EMsg "shim.rate_limit.requests_per_minute must be greater than zero when rate limiting is enabled")
  else if (rl_Burst cfg <=? 0)%Z then
    let burst := Z.min 60 (rl_RequestsPerMinute cfg) in
    Ok {| rl_Enabled := true; rl_RequestsPerMinute := rl_RequestsPerMinute cfg;
          rl_Burst := if (burst <=? 0)%Z then 1%Z else burst |}
  else Ok cfg.

Record rateLimitDecision := { rd_Allowed : bool; rd_Limit : Z; rd_Remaining : Z; rd_Reset : Z }.

(** Times and durations are nanoseconds. *)
Record tokenBucketState := { tb_Tokens : float64; tb_LastRefill : Z }.

Record tokenBucketLimiter := { lim_rate : float64; lim_burst : float64; lim_buckets : gmap string tokenBucketState }.

Definition newTokenBucketLimiter (cfg : RateLimitConfig) : option tokenBucketLimiter :=
  if negb (rl_Enabled cfg) then None
  else Some {| lim_rate := fdiv (f_of_int (rl_RequestsPerMinute cfg)) (f_of_int 60); lim_burst := f_of_int (rl_Burst cfg);
               lim_buckets := ∅ |}.

(** Time.Sub: the difference, saturated. *)
Definition time_Sub (t s : Z) : Z := Z.max min_int (Z.min max_int (t - s)).

(** Duration.Seconds *)
Definition Seconds (d : Z) : float64 :=
  fadd (f_of_int (Z.quot d 1000000000)) (fdiv (f_of_int (Z.rem d 1000000000)) (f_of_int 1000000000)).

(** int(f) of a float [f] whose whole part is [z]; beyond the range of int the
    language leaves it open. *)
Definition int_of_float `{FloatConversion} (f : float64) (z : Z) : Z := if is_int z then z else float_overflow f.

Definition minFloat (a b : float64) : float64 := if fltb a b then a else b.

Definition resetAfter `{FloatConversion} (tokens rate : float64) : Z :=
  if fleb rate (f_of_int 0) then 0%Z
  else
    let missing := fsub (f_of_int 1) tokens in
    if fleb missing (f_of_int 0) then 0%Z
    else
      let milliseconds := fmul (fdiv missing rate) (f_of_int 1000) in
      wrap_int (int_of_float milliseconds (fceil milliseconds) * 1000000).

(** The bucket with what has come in since the last request. *)
Definition refill (l : tokenBucketLimiter) (state : tokenBucketState) (now : Z) : tokenBucketState :=
  let elapsed := Seconds (time_Sub now (tb_LastRefill state)) in
  if fltb (f_of_int 0) elapsed then
    {| tb_Tokens := minFloat (lim_burst l) (fadd (tb_Tokens state) (fmul elapsed (lim_rate l))); tb_LastRefill := now |}
  else state.

Definition bucket (l : tokenBucketLimiter) (key : string) (now : Z) : tokenBucketState :=
  default {| tb_Tokens := lim_burst l; tb_LastRefill := now |} (lim_buckets l !! key).

Definition with_bucket (l : tokenBucketLimiter) (key : string) (state : tokenBucketState) : tokenBucketLimiter :=
  {| lim_rate := lim_rate l; lim_burst := lim_burst l; lim_buckets := <[key := state]> (lim_buckets l) |}.

Definition allow `{FloatConversion} (l : tokenBucketLimiter) (key : string) (now : Z) : rateLimitDecision * tokenBucketLimiter :=
  let state := refill l (bucket l key now) now in
  if fleb (f_of_int 1) (tb_Tokens state) then
    let state := {| tb_Tokens := fsub (tb_Tokens state) (f_of_int 1); tb_LastRefill := tb_LastRefill state |} in
    let remaining := int_of_float (tb_Tokens state) (ffloor (tb_Tokens state)) in
    ({| rd_Allowed := true; rd_Limit := int_of_float (lim_burst l) (ffloor (lim_burst l)); rd_Remaining := Z.max remaining 0;
        rd_Reset := resetAfter (tb_Tokens state) (lim_rate l) |}, with_bucket l key state)
  else
    ({| rd_Allowed := false; rd_Limit := int_of_float (lim_burst l) (ffloor (lim_burst l)); rd_Remaining := 0;
        rd_Reset := resetAfter (tb_Tokens state) (lim_rate l) |}, with_bucket l key state).

Definition formatRateLimitReset `{FloatConversion} (d : Z) : string :=
  if (d <=? 0)%Z then "0s"
  else
    let seconds := int_of_float (Seconds d) (fceil (Seconds d)) in
    int_text (if (seconds <? 1)%Z then 1%Z else seconds) +:+ "s".

(** ** Limits *)

Record MetricsConfig := { mc_Enabled : bool; mc_Path : string }.

Definition normalizeMetricsConfig (cfg : MetricsConfig) : MetricsConfig :=
  if negb (mc_Enabled cfg) then {| mc_Enabled := mc_Enabled cfg; mc_Path := "" |}
  else
    let path := if decide (TrimSpace (mc_Path cfg) = "") then "/metrics" else mc_Path cfg in
    {| mc_Enabled := mc_Enabled cfg; mc_Path := if HasPrefix path "/" then path else "/" +:+ path |}.

Definition or_default (value fallback : Z) : Z := if (value <=? 0)%Z then fallback else value.

Record ServiceLimits := {
  sl_JSONBodyBytes : Z;
  sl_RetrievalFileUploadBytes : Z;
  sl_ChatCompletionsShadowStoreBytes : Z;
  sl_ChatCompletionsShadowStoreTimeout : Z;
  sl_ResponsesProxyBufferBytes : Z;
  sl_CustomToolGrammarDefinitionBytes : Z;
  sl_CustomToolCompiledPatternBytes : Z;
  sl_RetrievalMaxConcurrentSearches : Z;
  sl_RetrievalMaxSearchQueries : Z;
  sl_RetrievalMaxGroundingChunks : Z;
  sl_CodeInterpreterMaxConcurrentRuns : Z
}.

Definition normalizeServiceLimits (limits : ServiceLimits) : ServiceLimits :=
  {| sl_JSONBodyBytes := or_default (sl_JSONBodyBytes limits) (2 ^ 20);
     sl_RetrievalFileUploadBytes := or_default (sl_RetrievalFileUploadBytes limits) (64 * 2 ^ 20);
     sl_ChatCompletionsShadowStoreBytes := or_default (sl_ChatCompletionsShadowStoreBytes limits) (64 * 2 ^ 20);
     sl_ChatCompletionsShadowStoreTimeout := or_default (sl_ChatCompletionsShadowStoreTimeout limits) (5 * 1000000000);
     sl_ResponsesProxyBufferBytes := or_default (sl_ResponsesProxyBufferBytes limits) (64 * 2 ^ 20);
     sl_CustomToolGrammarDefinitionBytes := or_default (sl_CustomToolGrammarDefinitionBytes limits) (16 * 2 ^ 10);
     sl_CustomToolCompiledPatternBytes := or_default (sl_CustomToolCompiledPatternBytes limits) (32 * 2 ^ 10);
     sl_RetrievalMaxConcurrentSearches := or_default (sl_RetrievalMaxConcurrentSearches limits) 8;
     sl_RetrievalMaxSearchQueries := or_default (sl_RetrievalMaxSearchQueries limits) 4;
     sl_RetrievalMaxGroundingChunks := or_default (sl_RetrievalMaxGroundingChunks limits) 20;
     sl_CodeInterpreterMaxConcurrentRuns := or_default (sl_CodeInterpreterMaxConcurrentRuns limits) 2 |}.

Record LocalCodeInterpreterLimits := {
  ci_GeneratedFiles : Z;
  ci_GeneratedFileBytes : Z;
  ci_GeneratedTotalBytes : Z;
  ci_RemoteInputFileBytes : Z
}.

Definition normalizeLocalCodeInterpreterLimits (limits : LocalCodeInterpreterLimits) : LocalCodeInterpreterLimits :=
  {| ci_GeneratedFiles := or_default (ci_GeneratedFiles limits) 8;
     ci_GeneratedFileBytes := or_default (ci_GeneratedFileBytes limits) (2 * 2 ^ 20);
     ci_GeneratedTotalBytes := or_default (ci_GeneratedTotalBytes limits) (8 * 2 ^ 20);
     ci_RemoteInputFileBytes := or_default (ci_RemoteInputFileBytes limits) (50 * 2 ^ 20) |}.

(** ** Requests *)

(** The parts of a request the middlewares look at, with the values they put
    into its context. *)
Record request := {
  rq_Path : string;
  rq_RemoteAddr : string;
  rq_Header : Header;
  rq_ContentLength : Z;  (** 0 also without a body *)
  rq_BodyLimit : option Z;
  rq_RequestID : string;
  rq_ClientRequestID : string;
  rq_AuthSubject : string;
  rq_RateLimit : option rateLimitDecision;
  rq_ForwardHeaders : option Header
}.

Definition with_ids (requestID clientRequestID : string) (r : request) : request :=
  {| rq_Path := rq_Path r; rq_RemoteAddr := rq_RemoteAddr r; rq_Header := rq_Header r; rq_ContentLength := rq_ContentLength r;
     rq_BodyLimit := rq_BodyLimit r; rq_RequestID := requestID;
     rq_ClientRequestID := if decide (clientRequestID = "") then rq_ClientRequestID r else TrimSpace clientRequestID;
     rq_AuthSubject := rq_AuthSubject r; rq_RateLimit := rq_RateLimit r; rq_ForwardHeaders := rq_ForwardHeaders r |}.

Definition with_limit (limit : Z) (r : request) : request :=
  {| rq_Path := rq_Path r; rq_RemoteAddr := rq_RemoteAddr r; rq_Header := rq_Header r; rq_ContentLength := rq_ContentLength r;
     rq_BodyLimit := Some limit; rq_RequestID := rq_RequestID r; rq_ClientRequestID := rq_ClientRequestID r;
     rq_AuthSubject := rq_AuthSubject r; rq_RateLimit := rq_RateLimit r; rq_ForwardHeaders := rq_ForwardHeaders r |}.

(** r.Clone with the subject, and the headers without Authorization. *)
Definition with_subject (subject : string) (r : request) : request :=
  {| rq_Path := rq_Path r; rq_RemoteAddr := rq_RemoteAddr r; rq_Header := h_Del "Authorization" (rq_Header r);
     rq_ContentLength := rq_ContentLength r; rq_BodyLimit := rq_BodyLimit r; rq_RequestID := rq_RequestID r;
     rq_ClientRequestID := rq_ClientRequestID r; rq_AuthSubject := TrimSpace subject; rq_RateLimit := rq_RateLimit r;
     rq_ForwardHeaders := rq_ForwardHeaders r |}.

Definition with_decision (decision : rateLimitDecision) (r : request) : request :=
  {| rq_Path := rq_Path r; rq_RemoteAddr := rq_RemoteAddr r; rq_Header := rq_Header r; rq_ContentLength := rq_ContentLength r;
     rq_BodyLimit := rq_BodyLimit r; rq_RequestID := rq_RequestID r; rq_ClientRequestID := rq_ClientRequestID r;
     rq_AuthSubject := rq_AuthSubject r; rq_RateLimit := Some decision; rq_ForwardHeaders := rq_ForwardHeaders r |}.

Definition with_forward_headers (headers : option Header) (r : request) : request :=
  {| rq_Path := rq_Path r; rq_RemoteAddr := rq_RemoteAddr r; rq_Header := rq_Header r; rq_ContentLength := rq_ContentLength r;
     rq_BodyLimit := rq_BodyLimit r; rq_RequestID := rq_RequestID r; rq_ClientRequestID := rq_ClientRequestID r;
     rq_AuthSubject := rq_AuthSubject r; rq_RateLimit := rq_RateLimit r; rq_ForwardHeaders := headers |}.

Definition isASCII (value : string) : bool := all_chars (fun a => (code a <=? 127)%N) value.

Definition isHealthPath (path : string) : bool := bool_decide (TrimSpace path ∈ ["/healthz"; "/readyz"]).

(** strings.LastIndexByte *)
Fixpoint last_index (c : ascii) (s : string) : option nat :=
  match s with
  | "" => None
  | String a s =>
      match last_index c s with
      | Some i => Some (S i)
      | None => if bool_decide (a = c) then Some 0 else None
      end
  end.

(** The host of net.SplitHostPort; [None] is an error. *)
Definition split_host (hostport : string) : option string :=
  match last_index (chr 58) hostport with
  | None => None
  | Some i =>
      if HasPrefix hostport "[" then
        match Index hostport "]" with
        | None => None
        | Some e =>
            if decide (S e = i) then
              if Contains (sdrop 1 hostport) "[" || Contains (sdrop (S e) hostport) "]" then None
              else Some (stake (e - 1) (sdrop 1 hostport))
            else None
        end
      else
        let host := stake i hostport in
        if Contains host ":" || Contains hostport "[" || Contains hostport "]" then None else Some host
  end.

Definition requestRateLimitKey (r : request) : string :=
  if decide (rq_AuthSubject r <> "") then rq_AuthSubject r
  else
    let remote := TrimSpace (rq_RemoteAddr r) in
    let by_remote := if decide (remote <> "") then "ip_" +:+ remote else "anonymous" in
    match split_host remote with
    | Some host => if decide (host <> "") then "ip_" +:+ host else by_remote
    | None => by_remote
    end.

(** ** Middlewares *)

(** The buckets, and the headers of the answer written so far. *)
Record gateway := { gw_limiter : option tokenBucketLimiter; gw_header : Header }.

Definition with_header (key value : string) (g : gateway) : gateway :=
  {| gw_limiter := gw_limiter g; gw_header := h_Set key value (gw_header g) |}.

(** What a handler does with a request: an answer, or whatever the server does
    when the request has reached it. *)
Inductive outcome :=
| Answer (status : Z) (body : json)
| Reached (r : request).

Definition handler : Type := request -> ST gateway outcome.
Definition middleware : Type := handler -> handler.

Definition error_answer (status : Z) (errType message code : string) : outcome :=
  Answer status (error_json (newAPIError errType message "" code)).

(** The last of the middlewares is next to the handler. *)
Definition Chain (h : handler) (middlewares : list middleware) : handler := foldr (fun m wrapped => m wrapped) h middlewares.

(** [newID] is what domain.MustNewRequestID returns. *)
Definition RequestIDMiddleware (newID : string) : middleware := fun next r g =>
  let clientRequestID := TrimSpace (h_Get (rq_Header r) "X-Client-Request-Id") in
  if bool_decide (clientRequestID <> "") && ((512 <? String.length clientRequestID)%nat || negb (isASCII clientRequestID)) then
    (Ok (error_answer 400 "invalid_request_error"
       "X-Client-Request-Id must contain only ASCII characters and be at most 512 characters long" ""), g)
  else
    let requestID := h_Get (rq_Header r) "X-Request-Id" in
    let requestID := if decide (requestID = "") then newID else requestID in
    next (with_ids requestID clientRequestID r) (with_header "X-Request-Id" requestID g).

Definition RecoverMiddleware : middleware := fun next r g =>
  match next r g with
  | (Panic, g) => (Ok (error_answer 500 "internal_error" "internal server error" ""), g)
  | answer => answer
  end.

Definition JSONBodyLimitMiddleware (limit : Z) : middleware := fun next r =>
  if (rq_ContentLength r =? 0)%Z then next r
  else if HasPrefix (ToLower (TrimSpace (h_Get (rq_Header r) "Content-Type"))) "multipart/form-data" then next r
  else next (with_limit (Z.max limit 1) r).

Definition StaticBearerAuthMiddleware (cfg : StaticBearerAuthConfig) (publicPath : string -> bool) : middleware := fun next r g =>
  if negb (auth_Enabled cfg) || isHealthPath (rq_Path r) || publicPath (rq_Path r) then next r g
  else
    let unauthorized message := (Ok (error_answer 401 "authentication_error" message ""), with_header "WWW-Authenticate" "Bearer" g) in
    match extractBearerToken (h_Get (rq_Header r) "Authorization") with
    | None => unauthorized "missing or invalid bearer token"
    | Some token =>
        match subjectForToken cfg token with
        | None => unauthorized "invalid bearer token"
        | Some subject => next (with_subject subject r) g
        end
    end.

Definition RateLimitMiddleware `{FloatConversion} (metricsPath : string) (now : Z) : middleware := fun next r g =>
  let metricsPath := TrimSpace metricsPath in
  match gw_limiter g with
  | None => next r g
  | Some limiter =>
      if isHealthPath (rq_Path r) || (bool_decide (metricsPath <> "") && bool_decide (rq_Path r = metricsPath)) then next r g
      else
        let '(decision, limiter) := allow limiter (requestRateLimitKey r) now in
        let g := with_header "X-RateLimit-Reset-Requests" (formatRateLimitReset (rd_Reset decision))
                 (with_header "X-RateLimit-Remaining-Requests" (int_text (rd_Remaining decision))
                 (with_header "X-RateLimit-Limit-Requests" (int_text (rd_Limit decision))
                   {| gw_limiter := Some limiter; gw_header := gw_header g |})) in
        if negb (rd_Allowed decision) then
          (Ok (error_answer 429 "rate_limit_error" "request rate limit exceeded" "rate_limit_exceeded"), g)
        else next (with_decision decision r) g
  end.

Definition ForwardHeadersMiddleware : middleware := fun next r =>
  next (with_forward_headers (ContextWithForwardHeaders (rq_ForwardHeaders r) (rq_Header r)) r).

(** The chain of NewRouter around the handlers [mux]. *)
Record gateway_config := {
  gc_Auth : StaticBearerAuthConfig;
  gc_publicPath : string -> bool;
  gc_metricsPath : string;
  gc_JSONBodyBytes : Z
}.

Definition routed `{FloatConversion} (cfg : gateway_config) (newID : string) (now : Z) (mux : handler) : handler :=
  Chain mux
    [RequestIDMiddleware newID; RecoverMiddleware; JSONBodyLimitMiddleware (gc_JSONBodyBytes cfg);
     StaticBearerAuthMiddleware (gc_Auth cfg) (gc_publicPath cfg); RateLimitMiddleware (gc_metricsPath cfg) now;
     ForwardHeadersMiddleware].

(** ** Concurrency gates *)

(** The capacity of the channel, and the number of elements in it. *)
Record concurrencyGate := { cg_scope : string; cg_capacity : Z; cg_held : Z }.

Definition newConcurrencyGate (scope : string) (maxConcurrent : Z) : option concurrencyGate :=
  if (maxConcurrent <=? 0)%Z then None else Some {| cg_scope := scope; cg_capacity := maxConcurrent; cg_held := 0 |}.

Definition with_held (g : concurrencyGate) (held : Z) : concurrencyGate :=
  {| cg_scope := cg_scope g; cg_capacity := cg_capacity g; cg_held := held |}.

(** The returned function is [release]. *)
Definition tryAcquire (g : option concurrencyGate) : res unit * option concurrencyGate :=
  match g with
  | None => (Ok tt, None)
  | Some g =>
      if (cg_held g <? cg_capacity g)%Z then (Ok tt, Some (with_held g (cg_held g + 1)))
      else (Err (ERateLimit (cg_scope g +:+ " concurrency limit exceeded") "rate_limit_exceeded"), Some g)
  end.

(** [None] when the channel is empty: the receive waits. *)
Definition release (g : option concurrencyGate) : option (option concurrencyGate) :=
  match g with
  | None => Some None
  | Some g => if (cg_held g =? 0)%Z then None else Some (Some (with_held g (cg_held g - 1)))
  end.
