(* ===== verification/RateProps.v ===== *)
(** * The rate limiter lets in what its rate pays for

    The bucket of a key is float64 arithmetic; every request adds at most a few
    roundings to it.  Over any window the requests let in are at most the burst
    and what the rate gives for the window, up to that rounding, and a client
    that waits for its turn is let in. *)

From S2P Require Import Prelude GoStr GoFloat GoJson JsonFacts StrFacts GoInt World Normalize Chat ChatStream ApiErrors Handlers FloatOps Guard.
From Stdlib Require Import QArith Qpower Lqa.
#[local] Open Scope Q_scope.

(** A rounding adds at most a unit in the last place, and next to nothing near 0. *)
Definition eps : Q := 1 # 1606938044258990275541962092341162602522202993782792835301376.
Definition uu : Q := 1 # 9007199254740992.

Lemma tiny_eps : tiny <= eps.
Proof.
  unfold tiny, eps. apply Qle_trans with (2 ^ (-200)); [by apply pow2_le|]. vm_compute. discriminate.
Qed.

Lemma close_bounds x y : close x y -> x <= y + uu * y + eps /\ y - uu * y - eps <= x.
Proof. unfold close. change u with uu. pose proof tiny_eps. intros [H1 H2]. split; lra. Qed.

Lemma in_range_of x : 0 <= x -> x <= 10000000000000000000000000000000000000000 -> in_range x.
Proof.
  intros H0 H1. split; [done|]. apply Qle_lt_trans with (2 ^ 200); [|apply Qpower_lt_compat_l; [done|reflexivity]].
  eapply Qle_trans; [exact H1|]. vm_compute. discriminate.
Qed.

Lemma int_range z : (0 <= z <= max_int)%Z -> 0 <= inject_Z z <= inject_Z max_int.
Proof. intros [H1 H2]. split; [by apply inject_nonneg|by rewrite <-Zle_Qle]. Qed.

(** float64(z) of an int that is not negative. *)
Lemma of_int_bounds z : (0 <= z <= max_int)%Z ->
  inject_Z z - uu * inject_Z z - eps <= fq (f_of_int z) <= inject_Z z + uu * inject_Z z + eps /\ 0 <= fq (f_of_int z).
Proof.
  intros Hz. destruct (int_range z Hz) as [H0 H1].
  assert (Hm : inject_Z max_int == 9223372036854775807) by reflexivity.
  destruct (f_of_int_close z) as [Hc Hp]; [apply in_range_of; lra|]. apply close_bounds in Hc. split; [split|]; lra.
Qed.

Lemma f_0 : fq (f_of_int 0) == 0.
Proof. vm_compute. reflexivity. Qed.
Lemma f_1 : fq (f_of_int 1) == 1.
Proof. vm_compute. reflexivity. Qed.
Lemma f_60 : fq (f_of_int 60) == 60.
Proof. vm_compute. reflexivity. Qed.
Lemma f_giga : fq (f_of_int 1000000000) == inject_Z 1000000000.
Proof. vm_compute. reflexivity. Qed.

(** ** Seconds *)

(** A duration in seconds. *)
Definition seconds (d : Z) : Q := inject_Z d / inject_Z 1000000000.

Lemma seconds_split d : (0 <= d)%Z ->
  seconds d == inject_Z (Z.quot d 1000000000) + inject_Z (Z.rem d 1000000000) / inject_Z 1000000000 /\
  (0 <= Z.quot d 1000000000 <= d)%Z /\ (0 <= Z.rem d 1000000000 < 1000000000)%Z.
Proof.
  intros Hd. rewrite Z.quot_div_nonneg, Z.rem_mod_nonneg by lia. split; [|split].
  - unfold seconds. rewrite (Z.div_mod d 1000000000) at 1 by lia. rewrite inject_Z_plus, inject_Z_mult. field.
  - split; [by apply Z.div_pos|]. apply Z.div_le_upper_bound; lia.
  - by apply Z.mod_pos_bound.
Qed.

Lemma Seconds_bounds d : (0 <= d <= max_int)%Z ->
  seconds d - 4 * uu * seconds d - 8 * eps <= fq (Seconds d) <= seconds d + 4 * uu * seconds d + 8 * eps /\ 0 <= fq (Seconds d).
Proof.
  intros [Hd Hmax]. destruct (seconds_split d Hd) as (Hs & Hq & Hr).
  destruct (of_int_bounds (Z.quot d 1000000000)) as ([Q1 Q2] & Q0); [lia|].
  destruct (of_int_bounds (Z.rem d 1000000000)) as ([R1 R2] & R0); [unfold max_int; lia|].
  set (sec := inject_Z (Z.quot d 1000000000)) in *. set (nsec := inject_Z (Z.rem d 1000000000)) in *.
  assert (Hsec : 0 <= sec <= inject_Z max_int) by (apply int_range; lia).
  assert (Hnsec : 0 <= nsec <= inject_Z 1000000000).
  { split; [apply inject_nonneg; lia|]. unfold nsec. rewrite <-Zle_Qle. lia. }
  assert (Hm : inject_Z max_int == 9223372036854775807) by reflexivity.
  assert (Hg : inject_Z 1000000000 == 1000000000) by reflexivity.
  assert (Hdiv : forall x, x / fq (f_of_int 1000000000) == x * (1 # 1000000000)) by (intros x; rewrite f_giga; reflexivity).
  destruct (fdiv_close (f_of_int (Z.rem d 1000000000)) (f_of_int 1000000000)) as [Hdc Hd0].
  { rewrite f_giga. reflexivity. }
  { rewrite Hdiv. apply in_range_of; unfold uu, eps in *; [lra|]. lra. }
  apply close_bounds in Hdc. rewrite Hdiv in Hdc.
  assert (Hs' : seconds d == sec + nsec * (1 # 1000000000)) by exact Hs.
  destruct (fadd_close (f_of_int (Z.quot d 1000000000)) (fdiv (f_of_int (Z.rem d 1000000000)) (f_of_int 1000000000))) as [Hac Ha0].
  { apply in_range_of; unfold uu, eps in *; [lra|]. lra. }
  apply close_bounds in Hac. unfold Seconds. unfold uu, eps in *. split; [split|]; lra.
Qed.

(** ** The rate and what it gives *)

Definition per_second (rpm : Z) : Q := inject_Z rpm / 60.

Lemma per_second_range rpm : (0 < rpm <= max_int)%Z -> (1#60) <= per_second rpm <= 153722867280912931.
Proof.
  intros Hr. assert (H1 : inject_Z 1 <= inject_Z rpm) by (rewrite <-Zle_Qle; lia).
  assert (H2 : inject_Z rpm <= inject_Z max_int) by (rewrite <-Zle_Qle; lia).
  assert (Hm : inject_Z max_int == 9223372036854775807) by reflexivity. assert (Ho : inject_Z 1 == 1) by reflexivity.
  assert (Hp : per_second rpm == inject_Z rpm * (1#60)) by reflexivity. split; lra.
Qed.

Lemma rate_bounds rpm : (0 < rpm <= max_int)%Z -> let R := fq (fdiv (f_of_int rpm) (f_of_int 60)) in
  per_second rpm - 3 * uu * per_second rpm - 4 * eps <= R <= per_second rpm + 3 * uu * per_second rpm + 4 * eps.
Proof.
  intros Hr. cbv zeta. destruct (of_int_bounds rpm) as ([B1 B2] & B0); [lia|].
  assert (Hp : per_second rpm == inject_Z rpm * (1#60)) by reflexivity. pose proof (per_second_range rpm Hr) as [P1 P2].
  assert (Hdiv : forall x, x / fq (f_of_int 60) == x * (1#60)) by (intros x; rewrite f_60; reflexivity).
  destruct (fdiv_close (f_of_int rpm) (f_of_int 60)) as [Hc _].
  { rewrite f_60. reflexivity. }
  { rewrite Hdiv. apply in_range_of; unfold uu, eps in *; lra. }
  apply close_bounds in Hc. rewrite Hdiv in Hc. unfold uu, eps in *. split; lra.
Qed.

Definition gamma : Q := 1 # 1267650600228229401496703205376.

Lemma product_upper S R s r : 0 <= S <= s + 4 * uu * s + 8 * eps -> 0 <= R <= r + 3 * uu * r + 4 * eps ->
  0 <= s <= 9223372037 -> 0 <= r <= 153722867280912931 -> S * R <= s * r + 8 * uu * (s * r) + gamma.
Proof.
  intros [S0 S1] [R0 R1] [s0 s1] [r0 r1].
  assert (Hm : S * R <= (s + 4 * uu * s + 8 * eps) * (r + 3 * uu * r + 4 * eps)) by (apply Qmult_le_compat_nonneg; split; done).
  assert (Hsr : 0 <= s * r) by (by apply Qmult_le_0_compat). unfold uu, eps, gamma in *. lra.
Qed.

Lemma product_lower S R s r : s - 4 * uu * s - 8 * eps <= S -> r - 3 * uu * r - 4 * eps <= R ->
  (1 # 1000000000) <= s <= 9223372037 -> (1#60) <= r <= 153722867280912931 -> s * r - 8 * uu * (s * r) - gamma <= S * R.
Proof.
  intros S1 R1 [s0 s1] [r0 r1].
  assert (Hm : (s - 4 * uu * s - 8 * eps) * (r - 3 * uu * r - 4 * eps) <= S * R).
  { apply Qmult_le_compat_nonneg; (split; [|done]); unfold uu, eps; lra. }
  assert (Hsr : 0 <= s * r) by (apply Qmult_le_0_compat; lra). unfold uu, eps, gamma in *. lra.
Qed.

Lemma seconds_range d : (0 <= d <= max_int)%Z -> 0 <= seconds d <= 9223372037.
Proof.
  intros Hd. destruct (int_range d Hd) as [H0 H1]. assert (Hm : inject_Z max_int == 9223372036854775807) by reflexivity.
  assert (Hs : seconds d == inject_Z d * (1 # 1000000000)) by reflexivity. split; lra.
Qed.

(** What comes into a bucket in a time of [d] nanoseconds. *)
Lemma income_bounds rpm d : (0 < rpm <= max_int)%Z -> (0 <= d <= max_int)%Z ->
  let income := fq (fmul (Seconds d) (fdiv (f_of_int rpm) (f_of_int 60))) in
  let exact := seconds d * per_second rpm in
  0 <= income <= exact + 10 * uu * exact + 3 * gamma /\
  ((1 <= d)%Z -> exact - 10 * uu * exact - 3 * gamma <= income).
Proof.
  intros Hr Hd. cbv zeta. destruct (Seconds_bounds d Hd) as ([S1 S2] & S0). pose proof (rate_bounds rpm Hr) as [R1 R2].
  pose proof (per_second_range rpm Hr) as [P1 P2]. pose proof (seconds_range d Hd) as [D1 D2].
  set (R := fdiv (f_of_int rpm) (f_of_int 60)) in *.
  assert (R0 : 0 <= fq R) by (unfold uu, eps in *; lra).
  pose proof (product_upper (fq (Seconds d)) (fq R) (seconds d) (per_second rpm) ltac:(split; done) ltac:(split; done) ltac:(split; done) ltac:(split; lra)) as Hup.
  assert (Hsr : 0 <= seconds d * per_second rpm) by (apply Qmult_le_0_compat; lra).
  assert (Hbig : seconds d * per_second rpm <= 9223372037 * 153722867280912931) by (apply Qmult_le_compat_nonneg; split; lra).
  assert (Hpos : 0 <= fq (Seconds d) * fq R) by (by apply Qmult_le_0_compat).
  destruct (fmul_close (Seconds d) R) as [Hc H0]; [apply in_range_of; unfold uu, eps, gamma in *; lra|]. apply close_bounds in Hc.
  split; [split; [done|unfold uu, eps, gamma in *; lra]|]. intros H1d.
  assert (Hs1 : (1 # 1000000000) <= seconds d).
  { assert (inject_Z 1 <= inject_Z d) by (rewrite <-Zle_Qle; lia). assert (inject_Z 1 == 1) by reflexivity.
    assert (seconds d == inject_Z d * (1 # 1000000000)) by reflexivity. lra. }
  pose proof (product_lower (fq (Seconds d)) (fq R) (seconds d) (per_second rpm) S1 R1 ltac:(split; lra) ltac:(split; lra)) as Hlow.
  unfold uu, eps, gamma in *. lra.
Qed.

(** ** Buckets *)

#[local] Opaque f_of_int fdiv fadd fmul fsub Seconds.

(** The configurations considered: any rate, and bursts of at most 2^50. *)
Definition config_ok (cfg : RateLimitConfig) : Prop :=
  rl_Enabled cfg = true /\ (0 < rl_RequestsPerMinute cfg <= max_int)%Z /\ (0 < rl_Burst cfg <= 2 ^ 50)%Z.

Section limiter.
Context `{FC : FloatConversion} (cfg : RateLimitConfig) (Hcfg : config_ok cfg).

Notation r := (per_second (rl_RequestsPerMinute cfg)).
Notation b := (inject_Z (rl_Burst cfg)).
Notation B := (fq (f_of_int (rl_Burst cfg))).

Lemma burst_bounds : 1 <= B /\ B <= b + uu * b + eps /\ 1 <= b <= 1125899906842624.
Proof.
  destruct Hcfg as (_ & _ & Hb1 & Hb2).
  assert (Hb : 1 <= b <= 1125899906842624).
  { split; [change 1 with (inject_Z 1)|change 1125899906842624 with (inject_Z (2 ^ 50))]; rewrite <-Zle_Qle; lia. }
  destruct (of_int_bounds (rl_Burst cfg)) as ([B1 B2] & _); [unfold max_int; lia|].
  split; [|by split]. destruct (decide (rl_Burst cfg = 1%Z)) as [E|Hne].
  - rewrite E, f_1. discriminate.
  - assert (2 <= b) by (change 2 with (inject_Z 2); rewrite <-Zle_Qle; lia). unfold uu, eps in *. lra.
Qed.

(** The state of a limiter after requests up to time [t]. *)
Definition bucket_ok (t : Z) (st : tokenBucketState) : Prop := 0 <= fq (tb_Tokens st) <= B /\ (tb_LastRefill st <= t)%Z.

Definition limiter_ok (l : tokenBucketLimiter) (t : Z) : Prop :=
  lim_rate l = fdiv (f_of_int (rl_RequestsPerMinute cfg)) (f_of_int 60) /\ lim_burst l = f_of_int (rl_Burst cfg) /\
  forall k st, lim_buckets l !! k = Some st -> bucket_ok t st.

Lemma elapsed_range now last : (last <= now)%Z ->
  (0 <= time_Sub now last <= max_int)%Z /\ (time_Sub now last <= now - last)%Z /\ (last < now -> 1 <= time_Sub now last)%Z /\
  (now - last <= max_int -> time_Sub now last = now - last)%Z.
Proof. unfold time_Sub, min_int, max_int. lia. Qed.

Lemma seconds_le d d' : (d <= d')%Z -> seconds d <= seconds d'.
Proof. intros Hd. unfold seconds. apply Qmult_le_compat_r; [by rewrite <-Zle_Qle|discriminate]. Qed.

Lemma seconds_add d d' : seconds (d + d') == seconds d + seconds d'.
Proof. unfold seconds. rewrite inject_Z_plus. field. Qed.

(** The tokens a bucket would have without rounding. *)
Definition earned (st : tokenBucketState) (now : Z) : Q := seconds (time_Sub now (tb_LastRefill st)) * r.

Lemma refill_spec l st t now : limiter_ok l t -> bucket_ok t st -> (t <= now)%Z ->
  let st' := refill l st now in
  tb_LastRefill st' = now /\ 0 <= fq (tb_Tokens st') <= B /\
  fq (tb_Tokens st') <= fq (tb_Tokens st) + earned st now + 10 * uu * earned st now + 2 * uu * B + eps + 3 * gamma /\
  ((tb_LastRefill st < now)%Z -> B <= fq (tb_Tokens st') \/
     (earned st now - 10 * uu * earned st now - 3 * gamma) * (1 - uu) - eps <= fq (tb_Tokens st')).
Proof.
  intros (Hrate & Hburst & _) ([T0 T1] & Hlast) Hnow. cbv zeta. destruct Hcfg as (_ & Hr & _).
  destruct burst_bounds as (B1 & B2 & b1 & b2). destruct (elapsed_range now (tb_LastRefill st) ltac:(lia)) as (E1 & E2 & E3 & _).
  unfold earned. set (d := time_Sub now (tb_LastRefill st)) in *.
  destruct (income_bounds _ d Hr E1) as ([I0 I1] & I2). cbv zeta in I0, I1, I2.
  destruct (Seconds_bounds d E1) as ([S1 _] & _). pose proof (per_second_range _ Hr) as [P1 P2]. pose proof (seconds_range d E1) as [D1 D2].
  assert (Hsr : 0 <= seconds d * r) by (apply Qmult_le_0_compat; lra).
  assert (Hbig : seconds d * r <= 9223372037 * 153722867280912931) by (apply Qmult_le_compat_nonneg; split; lra).
  unfold refill. cbv zeta. fold d. destruct (fltb (f_of_int 0) (Seconds d)) eqn:Ep.
  - cbn [tb_Tokens tb_LastRefill]. split; [done|]. rewrite Hrate, Hburst. set (income := fmul _ _) in *.
    destruct (fadd_close (tb_Tokens st) income) as [Hc H0]; [apply in_range_of; unfold uu, eps, gamma in *; lra|].
    apply close_bounds in Hc as [C1 C2]. unfold minFloat. destruct (fltb (f_of_int (rl_Burst cfg)) _) eqn:El.
    + apply fltb_spec in El. split; [split; lra|]. split; [|intros _; left; lra]. unfold uu, eps, gamma in *. lra.
    + assert (Hle : fq (fadd (tb_Tokens st) income) <= B).
      { apply Qnot_lt_le. intros Hlt. apply fltb_spec in Hlt. congruence. }
      split; [split; lra|]. split.
      * destruct (Qlt_le_dec (fq (tb_Tokens st) + fq income) (2 * B)); unfold uu, eps, gamma in *; lra.
      * intros Hlt. right. specialize (I2 (E3 Hlt)). unfold uu, eps, gamma in *. lra.
  - assert (Hd0 : (d < 1)%Z).
    { destruct (Z.lt_ge_cases d 1) as [|Hge]; [done|]. exfalso. assert (Hpos : fltb (f_of_int 0) (Seconds d) = true); [|congruence].
      apply fltb_spec. rewrite f_0. pose proof (seconds_le 1 d Hge) as Hs. assert (seconds 1 == (1 # 1000000000)) by reflexivity.
      unfold uu, eps in *. lra. }
    split; [lia|]. split; [by split|]. split; [unfold uu, eps, gamma in *; lra|]. intros Hlt. specialize (E3 Hlt). lia.
Qed.

(** The tokens before a request, and what it pays. *)
Definition before (l : tokenBucketLimiter) (key : string) (now : Z) : tokenBucketState := bucket l key now.
Definition paid (allowed : bool) : Q := if allowed then 1 else 0.

(** What a request may add to its bucket beyond what it earned. *)
Definition slack : Q := 3 * uu * B + 2 * eps + 3 * gamma.

Lemma bucket_before l t key now : limiter_ok l t -> (t <= now)%Z -> bucket_ok now (bucket l key now).
Proof.
  intros (_ & Hb & Hl) Hnow. unfold bucket. destruct (lim_buckets l !! key) as [st|] eqn:E; simpl.
  - destruct (Hl _ _ E) as [H1 H2]. split; [done|]. lia.
  - destruct burst_bounds as (B1 & _). rewrite Hb. split; simpl; [split; lra|lia].
Qed.

Lemma limiter_ok_later l t now : limiter_ok l t -> (t <= now)%Z -> limiter_ok l now.
Proof. intros (H1 & H2 & H3) Hn. split; [done|]. split; [done|]. intros k st Hk. destruct (H3 _ _ Hk). split; [done|lia]. Qed.

Lemma allow_spec l t key now : limiter_ok l t -> (t <= now)%Z ->
  let '(decision, l') := allow l key now in
  limiter_ok l' now /\
  exists st, lim_buckets l' = <[key := st]> (lim_buckets l) /\ tb_LastRefill st = now /\ 0 <= fq (tb_Tokens st) /\
    fq (tb_Tokens st) <= B + slack - paid (rd_Allowed decision) /\
    fq (tb_Tokens st) <= fq (tb_Tokens (bucket l key now)) + earned (bucket l key now) now + 10 * uu * earned (bucket l key now) now
                         + slack - paid (rd_Allowed decision).
Proof.
  intros Hl Hnow. pose proof (bucket_before l t key now Hl Hnow) as Hb. pose proof (limiter_ok_later l t now Hl Hnow) as Hl'.
  destruct (refill_spec l _ now now Hl' Hb ltac:(lia)) as (R1 & [R2 R3] & R4 & _).
  destruct burst_bounds as (B1 & B2 & b1 & b2). unfold allow. cbv zeta. set (st := refill l (bucket l key now) now) in *.
  assert (Hwith : forall st', bucket_ok now st' -> limiter_ok (with_bucket l key st') now).
  { intros st' Hst. destruct Hl' as (H1 & H2 & H3). split; [done|]. split; [done|]. intros k s Hk. simpl in Hk.
    apply lookup_insert_Some in Hk as [[_ <-]|[_ Hk]]; [done|by apply (H3 k)]. }
  unfold slack. destruct (fleb (f_of_int 1) (tb_Tokens st)) eqn:E.
  - apply fleb_spec in E. rewrite f_1 in E.
    destruct (fsub_close (tb_Tokens st) (f_of_int 1)) as [Hc H0].
    { rewrite f_1. apply in_range_of; unfold uu, eps in *; lra. }
    rewrite f_1 in Hc. apply close_bounds in Hc as [C1 _]. cbn [rd_Allowed paid]. split.
    + apply Hwith. split; simpl; [split; [done|unfold uu, eps in *; lra]|lia].
    + eexists. split; [done|]. cbn [tb_LastRefill tb_Tokens]. split; [done|]. split; [done|]. unfold uu, eps, gamma in *. split; lra.
  - cbn [rd_Allowed paid]. split; [apply Hwith; split; [by split|lia]|].
    eexists. split; [done|]. split; [done|]. split; [done|]. unfold uu, eps, gamma in *. split; lra.
Qed.

(** ** Sequences of requests *)

Fixpoint serve (l : tokenBucketLimiter) (requests : list (string * Z)) : list (string * bool) :=
  match requests with
  | [] => []
  | (key, now) :: requests => let '(decision, l') := allow l key now in (key, rd_Allowed decision) :: serve l' requests
  end.

(** Requests in the order of their times, between two times. *)
Fixpoint within (t0 t1 : Z) (requests : list (string * Z)) : Prop :=
  match requests with
  | [] => True
  | (_, now) :: requests => (t0 <= now <= t1)%Z /\ within now t1 requests
  end.

Definition let_in (k : string) (answers : list (string * bool)) : nat := length (filter (fun x => x = (k, true)) answers).
Definition asked (k : string) (requests : list (string * Z)) : nat := length (filter (fun x => x.1 = k) requests).

(** What the bucket of [k] can still pay for between [t0] and [t1]. *)
Definition credit (k : string) (t0 t1 : Z) (l : tokenBucketLimiter) : Q :=
  match lim_buckets l !! k with
  | Some st => if (t0 <=? tb_LastRefill st)%Z then fq (tb_Tokens st) + (r + 10 * uu * r) * seconds (t1 - tb_LastRefill st)
               else B + (r + 10 * uu * r) * seconds (t1 - t0)
  | None => B + (r + 10 * uu * r) * seconds (t1 - t0)
  end.

Lemma seconds_nonneg d : (0 <= d)%Z -> 0 <= seconds d.
Proof. intros Hd. pose proof (seconds_le 0 d Hd) as Hle. assert (seconds 0 == 0) by reflexivity. lra. Qed.

Lemma growth_pos d : (0 <= d)%Z -> 0 <= (r + 10 * uu * r) * seconds d.
Proof.
  intros Hd. destruct Hcfg as (_ & Hr & _). pose proof (per_second_range _ Hr) as [P1 _]. pose proof (seconds_nonneg d Hd).
  apply Qmult_le_0_compat; [unfold uu; lra|done].
Qed.

Lemma growth_le d d' : (d <= d')%Z -> (r + 10 * uu * r) * seconds d <= (r + 10 * uu * r) * seconds d'.
Proof.
  intros Hd. destruct Hcfg as (_ & Hr & _). pose proof (per_second_range _ Hr) as [P1 _].
  apply Qmult_le_l; [unfold uu; lra|]. by apply seconds_le.
Qed.

Lemma credit_bound k t0 t1 t l : limiter_ok l t -> (t0 <= t <= t1)%Z ->
  0 <= credit k t0 t1 l <= B + (r + 10 * uu * r) * seconds (t1 - t0).
Proof.
  intros (_ & _ & Hl) Ht. destruct burst_bounds as (B1 & _). unfold credit. pose proof (growth_pos (t1 - t0) ltac:(lia)).
  destruct (lim_buckets l !! k) as [st|] eqn:E; [|split; lra]. destruct (Hl _ _ E) as ([T1 T2] & Hlast).
  destruct (t0 <=? tb_LastRefill st)%Z eqn:El; [|split; lra]. apply Z.leb_le in El.
  pose proof (growth_pos (t1 - tb_LastRefill st) ltac:(lia)). pose proof (growth_le (t1 - tb_LastRefill st) (t1 - t0) ltac:(lia)). split; lra.
Qed.

(** A request takes its price out of the credit. *)
Lemma credit_step k t0 t1 t l now decision l' : limiter_ok l t -> (t <= now)%Z -> (t0 <= now <= t1)%Z ->
  allow l k now = (decision, l') -> credit k t0 t1 l' <= credit k t0 t1 l + slack - paid (rd_Allowed decision).
Proof.
  intros Hl Hnow Hw Ha. pose proof (allow_spec l t k now Hl Hnow) as Hs. rewrite Ha in Hs.
  destruct Hs as (_ & st & Hb & Hlast & T0 & T1 & T2). unfold credit. rewrite Hb, lookup_insert_eq, Hlast.
  rewrite (proj2 (Z.leb_le t0 now)) by lia. pose proof (growth_le (t1 - now) (t1 - t0) ltac:(lia)) as Hg.
  destruct (lim_buckets l !! k) as [old|] eqn:E; [|lra]. destruct (t0 <=? tb_LastRefill old)%Z eqn:El; [|lra].
  destruct Hl as (_ & _ & Hall). destruct (Hall _ _ E) as (_ & Hold).
  assert (Hbk : bucket l k now = old) by (unfold bucket; by rewrite E). rewrite Hbk in T2. unfold earned in T2.
  destruct (elapsed_range now (tb_LastRefill old) ltac:(lia)) as (E1 & E2 & _).
  pose proof (growth_le _ _ E2) as Hd.
  assert (Hadd : seconds (t1 - tb_LastRefill old) == seconds (now - tb_LastRefill old) + seconds (t1 - now)).
  { rewrite <-seconds_add. by replace (now - tb_LastRefill old + (t1 - now))%Z with (t1 - tb_LastRefill old)%Z by lia. }
  rewrite Hadd. unfold uu in *. lra.
Qed.

Lemma let_in_cons k key allowed answers :
  inject_Z (Z.of_nat (let_in k ((key, allowed) :: answers))) ==
  inject_Z (Z.of_nat (let_in k answers)) + (if decide (key = k) then paid allowed else 0).
Proof.
  unfold let_in. rewrite filter_cons. destruct (decide (key = k)) as [->|Hk]; [destruct allowed|].
  - rewrite decide_True by done. cbn [length]. rewrite Nat2Z.inj_succ. unfold Z.succ. rewrite inject_Z_plus. reflexivity.
  - rewrite decide_False by done. cbn [paid]. ring.
  - rewrite decide_False by congruence. ring.
Qed.

Lemma asked_cons k key now requests :
  inject_Z (Z.of_nat (asked k ((key, now) :: requests))) ==
  inject_Z (Z.of_nat (asked k requests)) + (if decide (key = k) then 1 else 0).
Proof.
  unfold asked. rewrite filter_cons. cbn [fst]. destruct (decide (key = k)) as [->|Hk]; [|ring].
  cbn [length]. rewrite Nat2Z.inj_succ. unfold Z.succ. rewrite inject_Z_plus. reflexivity.
Qed.

Lemma slack_pos : 0 <= slack.
Proof. destruct burst_bounds as (B1 & _). unfold slack, uu, eps, gamma. lra. Qed.

Lemma serve_bound k t0 t1 requests : forall l t, limiter_ok l t -> (t0 <= t <= t1)%Z -> within t t1 requests ->
  inject_Z (Z.of_nat (let_in k (serve l requests))) <= credit k t0 t1 l + inject_Z (Z.of_nat (asked k requests)) * slack.
Proof.
  induction requests as [|[key now] requests IH]; intros l t Hl Ht Hw.
  { destruct (credit_bound k t0 t1 t l Hl Ht) as [H0 _]. change (inject_Z (Z.of_nat (asked k []))) with 0.
    change (inject_Z (Z.of_nat (let_in k (serve l [])))) with 0. lra. }
  cbn [within] in Hw. destruct Hw as [Hnow Hw]. cbn [serve]. destruct (allow l key now) as [decision l'] eqn:Ea.
  pose proof (allow_spec l t key now Hl ltac:(lia)) as Hs. rewrite Ea in Hs. destruct Hs as (Hl' & st & Hb & _).
  pose proof (IH l' now Hl' ltac:(lia) Hw) as Hrest. rewrite let_in_cons, asked_cons. pose proof slack_pos as Hsl.
  destruct (decide (key = k)) as [->|Hk].
  - pose proof (credit_step k t0 t1 t l now decision l' Hl ltac:(lia) ltac:(lia) Ea). lra.
  - assert (Hc : credit k t0 t1 l' = credit k t0 t1 l) by (unfold credit; by rewrite Hb, lookup_insert_ne). rewrite Hc in Hrest. lra.
Qed.

(** The limiters the program can have, at the time of the last request. *)
Inductive reachable : tokenBucketLimiter -> Z -> Prop :=
| fresh_limiter l t : newTokenBucketLimiter cfg = Some l -> reachable l t
| after_request l t key now : reachable l t -> (t <= now)%Z -> reachable (allow l key now).2 now.

Lemma reachable_ok l t : reachable l t -> limiter_ok l t.
Proof.
  induction 1 as [l t Hnew|l t key now _ IH Hnow].
  - unfold newTokenBucketLimiter in Hnew. destruct (negb (rl_Enabled cfg)); [done|]. injection Hnew as <-.
    split; [reflexivity|]. split; [reflexivity|]. intros k st Hk. simpl in Hk. by rewrite lookup_empty in Hk.
  - pose proof (allow_spec l t key now IH Hnow) as Hs. destruct (allow l key now) as [decision l']. apply Hs.
Qed.

(** A request a little more than the price of one token after the last one. *)
Definition paced (last now : Z) : Prop :=
  (last < now)%Z /\ (now - last <= max_int)%Z /\
  (60000000000 * (2 ^ 40 + 1) <= (now - last) * rl_RequestsPerMinute cfg * 2 ^ 40)%Z.

Lemma paced_earned st now : paced (tb_LastRefill st) now -> 1 + (1 # 1099511627776) <= earned st now.
Proof.
  intros (H1 & H2 & H3). destruct (elapsed_range now (tb_LastRefill st) ltac:(lia)) as (_ & _ & _ & E). unfold earned. rewrite (E H2).
  unfold seconds, per_second. set (x := (now - tb_LastRefill st)%Z) in *.
  rewrite Zle_Qle, !inject_Z_mult in H3.
  assert (He : inject_Z x / inject_Z 1000000000 * (inject_Z (rl_RequestsPerMinute cfg) / 60) ==
    inject_Z x * inject_Z (rl_RequestsPerMinute cfg) * (1 # 60000000000)) by (unfold Qdiv; change (/ inject_Z 1000000000) with (1 # 1000000000); change (/ 60) with (1#60); ring).
  rewrite He. assert (H40 : inject_Z (2 ^ 40) == 1099511627776) by reflexivity.
  assert (H41 : inject_Z (2 ^ 40 + 1) == 1099511627777) by reflexivity. assert (H60 : inject_Z 60000000000 == 60000000000) by reflexivity.
  rewrite H40, H41, H60 in H3. lra.
Qed.

Lemma allowed_iff l key now : rd_Allowed (allow l key now).1 = true <-> 1 <= fq (tb_Tokens (refill l (bucket l key now) now)).
Proof.
  rewrite <-f_1, <-fleb_spec. unfold allow. cbv zeta. by destruct (fleb (f_of_int 1) _).
Qed.

Lemma fresh_allowed l t key now : limiter_ok l t -> lim_buckets l !! key = None -> rd_Allowed (allow l key now).1 = true.
Proof.
  intros (_ & Hb & _) Hk. apply allowed_iff. unfold bucket. rewrite Hk. cbn [default from_option id]. unfold refill. cbv zeta. cbn [tb_LastRefill].
  assert (time_Sub now now = 0%Z) as -> by (unfold time_Sub, min_int, max_int; lia).
  assert (fltb (f_of_int 0) (Seconds 0) = false) as -> by (vm_compute; reflexivity). cbn [tb_Tokens]. rewrite Hb.
  apply burst_bounds.
Qed.

Lemma paced_allowed l t key st now : limiter_ok l t -> (t <= now)%Z -> lim_buckets l !! key = Some st ->
  paced (tb_LastRefill st) now -> rd_Allowed (allow l key now).1 = true.
Proof.
  intros Hl Hnow Hk Hp. apply allowed_iff. unfold bucket. rewrite Hk. cbn [default from_option id].
  destruct Hl as (H1 & H2 & H3). destruct (refill_spec l st t now (conj H1 (conj H2 H3)) (H3 _ _ Hk) Hnow) as (_ & _ & _ & Hlow).
  pose proof (paced_earned st now Hp) as He. destruct burst_bounds as (B1 & _).
  destruct (Hlow (proj1 Hp)) as [|Hlow']; [lra|]. unfold uu, eps, gamma in *. lra.
Qed.
End limiter.

Lemma accepted_config given cfg : normalizeRateLimitConfig given = Ok cfg -> rl_Enabled cfg = true ->
  (rl_RequestsPerMinute cfg <= max_int)%Z -> (rl_Burst cfg <= 2 ^ 50)%Z -> config_ok cfg.
Proof.
  unfold normalizeRateLimitConfig. cbv zeta. destruct (rl_Enabled given); [|by intros [= <-]]. cbn [negb].
  destruct (_ <=? 0)%Z eqn:E1; [done|]. apply Z.leb_gt in E1. destruct (rl_Burst given <=? 0)%Z eqn:E2.
  - intros [= <-] _. cbn [rl_RequestsPerMinute rl_Burst]. intros Hm Hb. split; [done|]. split; [by split|]. split; [|done].
    cbn [rl_Burst]. destruct (Z.min 60 (rl_RequestsPerMinute given) <=? 0)%Z eqn:E3; lia.
  - intros [= <-] He Hm Hb. split; [done|]. split; [by split|]. split; [|done]. lia.
Qed.

(** C27 (bounds): over any window of time, whatever else is asked, the requests
    of a key that are let in are at most the burst and the rate times the
    window, up to the rounding of the arithmetic: a part in 2^49 of what the
    rate gives and a part in 2^51 of the burst for each request.  A key that was
    never seen is let in, and so is one that has waited for one request of its
    rate and a part in 2^40 more since its last request. *)
Theorem rate_limit_holds `{FloatConversion} given cfg l t k requests t1 :
  normalizeRateLimitConfig given = Ok cfg -> rl_Enabled cfg = true ->
  (rl_RequestsPerMinute cfg <= max_int)%Z -> (rl_Burst cfg <= 2 ^ 50)%Z ->
  reachable cfg l t -> (t <= t1)%Z -> within t t1 requests ->
  inject_Z (Z.of_nat (let_in k (serve l requests))) <=
    inject_Z (rl_Burst cfg) + per_second (rl_RequestsPerMinute cfg) * (1 + 2 ^ (-49)) * seconds (t1 - t)
    + (1 + inject_Z (Z.of_nat (asked k requests))) * inject_Z (rl_Burst cfg) * 2 ^ (-51) /\
  (forall now, (t <= now)%Z ->
     match lim_buckets l !! k with Some st => paced cfg (tb_LastRefill st) now | None => True end ->
     rd_Allowed (allow l k now).1 = true).
Proof.
  intros Hn He Hm Hb Hr Ht Hw. pose proof (accepted_config given cfg Hn He Hm Hb) as Hcfg. clear Hn. pose proof (reachable_ok cfg Hcfg l t Hr) as Hl. split.
  - pose proof (serve_bound cfg Hcfg k t t1 requests l t Hl ltac:(lia) Hw) as Hs.
    destruct (credit_bound cfg Hcfg k t t1 t l Hl ltac:(lia)) as [_ Hc]. destruct (burst_bounds cfg Hcfg) as (B1 & B2 & b1 & b2).
    pose proof (seconds_nonneg (t1 - t) ltac:(lia)) as Hsec. destruct Hcfg as (_ & Hrpm & _). pose proof (per_second_range _ Hrpm) as [P1 _].
    assert (Hrs : 0 <= per_second (rl_RequestsPerMinute cfg) * seconds (t1 - t)) by (apply Qmult_le_0_compat; lra).
    assert (Hn : 0 <= inject_Z (Z.of_nat (asked k requests))) by (apply inject_nonneg; lia).
    assert (Hsl : slack cfg <= inject_Z (rl_Burst cfg) * (1 # 2251799813685248)) by (unfold slack, uu, eps, gamma in *; lra).
    pose proof (Qmult_le_compat_r _ _ _ Hsl Hn) as Hns. change (2 ^ (-49)) with (1 # 562949953421312). change (2 ^ (-51)) with (1 # 2251799813685248).
    unfold uu, eps in *. lra.
  - intros now Hnow Hp. destruct (lim_buckets l !! k) as [st|] eqn:E; [by eapply paced_allowed|by eapply fresh_allowed].
Qed.

Definition demo_rounding : FloatConversion := {| float_overflow _ := min_int |}.

Definition demo_rate : RateLimitConfig := {| rl_Enabled := true; rl_RequestsPerMinute := 7; rl_Burst := 2 |}.
Definition demo_times : list (string * Z) := [("a", 0); ("b", 5); ("a", 10); ("a", 20); ("a", 9000000000)]%Z.

Lemma rate_limit_holds_witness :
  exists l, newTokenBucketLimiter demo_rate = Some l /\ normalizeRateLimitConfig demo_rate = Ok demo_rate /\
    map snd (serve (FC := demo_rounding) l demo_times) = [true; true; true; false; true] /\
    inject_Z (Z.of_nat (let_in "a" (serve (FC := demo_rounding) l demo_times))) <=
      inject_Z 2 + per_second 7 * (1 + 2 ^ (-49)) * seconds (9000000000 - 0)
      + (1 + inject_Z (Z.of_nat (asked "a" demo_times))) * inject_Z 2 * 2 ^ (-51).
Proof.
  destruct (newTokenBucketLimiter demo_rate) as [l|] eqn:E; [|discriminate E].
  exists l. split; [reflexivity|]. split; [reflexivity|]. split.
  - injection E as <-. vm_compute. reflexivity.
  - refine (proj1 (@rate_limit_holds demo_rounding demo_rate demo_rate l 0 "a" demo_times 9000000000 eq_refl eq_refl _ _ (@fresh_limiter demo_rounding _ l 0 E) _ _));
      [vm_compute; discriminate|vm_compute; discriminate|lia|cbn; lia].
Defined.
