(* ===== verification/ServiceFacts.v ===== *)
(** * Lemmas on the response service

    What the steps of a request may do to the database: [keeps R m] says that
    [m] changes it only along [R], whatever its outcome, and [clean m] that it
    changes nothing unless it succeeds. *)

From S2P Require Import Prelude GoStr GoFloat GoJson JsonFacts StrFacts GoInt GoTime World Items Normalize Context Store StoreFacts StoreProps ConvService Compaction Compactor Memory MemoryProps ToolMarkup TextFormat Response LocalGen RespService RespManage.

Definition db_of (w : sworld) : DB := w_db (s_world w).

(** ** The service without the state of its client *)

Definition with_client {C A} (c : C) (m : ST (sworld * C) A) : ST sworld A := fun w =>
  let '(r, (w', _)) := m (w, c) in (r, w').

Lemma with_client_bind {C A B} (c : C) (m : ST (sworld * C) A) (f : A -> ST (sworld * C) B) w :
  with_client c (m ≫= f) w =
  match m (w, c) with
  | (Ok a, (w1, c1)) => with_client c1 (f a) w1
  | (Err e, (w1, _)) => (Err e, w1)
  | (Panic, (w1, _)) => (Panic, w1)
  end.
Proof. unfold with_client, mbind, st_bind. by destruct (m (w, c)) as [[a|e|] [w1 c1]]. Qed.

Lemma with_client_service {C A} (c : C) (m : ST sworld A) w : with_client c (in_service m) w = m w.
Proof. unfold with_client, in_service. by destruct (m w). Qed.

(** ** Steps along a relation *)

Section keeps.
Context (R : DB -> DB -> Prop) `{!PreOrder R}.

Definition wkeeps {A} (m : ST world A) : Prop := forall w r w', m w = (r, w') -> R (w_db w) (w_db w').
Definition keeps {A} (m : ST sworld A) : Prop := forall w r w', m w = (r, w') -> R (db_of w) (db_of w').

Lemma read_only_wkeeps {A} (m : ST world A) : read_only m -> wkeeps m.
Proof. intros Hm w r w' ->%Hm. reflexivity. Qed.

Lemma wkeeps_bind {A B} (m : ST world A) (f : A -> ST world B) : wkeeps m -> (forall a, wkeeps (f a)) -> wkeeps (m ≫= f).
Proof.
  intros Hm Hf w r w'. unfold mbind, st_bind. destruct (m w) as [[a|e|] w1] eqn:E.
  - intros H1%Hf. etrans; [by eapply Hm|done].
  - intros [= <- <-]. by eapply Hm.
  - intros [= <- <-]. by eapply Hm.
Qed.

Lemma wkeeps_wrap {A} ctx (m : ST world A) : wkeeps m -> wkeeps (st_wrap ctx m).
Proof. intros Hm w r w'. unfold st_wrap. destruct (m w) as [r1 w1] eqn:E. intros [= <- <-]. by eapply Hm. Qed.

Lemma wkeeps_exec `{Sqlite} {A} ctx (f : bool -> DB -> res (A * DB)) :
  (forall fk db a db', f fk db = Ok (a, db') -> R db db') -> wkeeps (exec ctx f).
Proof.
  intros Hf w r w'. unfold exec. destruct (stmt_fails _); [intros [= <- <-]; reflexivity|].
  destruct (f _ _) as [[a db]| |] eqn:E; intros [= <- <-]; simpl; [by eapply Hf|reflexivity..].
Qed.

Lemma wkeeps_transaction `{Sqlite} {A} b c (body : ST world A) : wkeeps body -> wkeeps (transaction b c body).
Proof.
  intros Hb w r w' Ht. destruct r as [a|e|]; [|apply transaction_atomic in Ht as ->; done || reflexivity..].
  apply transaction_ok in Ht as (w1 & w2 & Hd & _ & H2 & ->). rewrite <-Hd. by eapply Hb.
Qed.

Lemma keeps_ret {A} (a : A) : keeps (mret a).
Proof. intros w r w' [= <- <-]. reflexivity. Qed.
Lemma keeps_lift {A} (m : res A) : keeps (st_lift m).
Proof. intros w r w' [= <- <-]. reflexivity. Qed.
Lemma keeps_err {A} e : keeps (st_err (A := A) e).
Proof. intros w r w' [= <- <-]. reflexivity. Qed.
Lemma keeps_clock `{Clock} : keeps read_clock.
Proof. intros w r w' [= <- <-]. reflexivity. Qed.

Lemma keeps_bind {A B} (m : ST sworld A) (f : A -> ST sworld B) : keeps m -> (forall a, keeps (f a)) -> keeps (m ≫= f).
Proof.
  intros Hm Hf w r w'. unfold mbind, st_bind. destruct (m w) as [[a|e|] w1] eqn:E.
  - intros H1%Hf. etrans; [by eapply Hm|done].
  - intros [= <- <-]. by eapply Hm.
  - intros [= <- <-]. by eapply Hm.
Qed.

Lemma keeps_wrap {A} ctx (m : ST sworld A) : keeps m -> keeps (st_wrap ctx m).
Proof. intros Hm w r w'. unfold st_wrap. destruct (m w) as [r1 w1] eqn:E. intros [= <- <-]. by eapply Hm. Qed.

Lemma keeps_store {A} (m : ST world A) : wkeeps m -> keeps (on_store m).
Proof. intros Hm w r w'. unfold on_store. destruct (m _) as [r1 w1] eqn:E. intros [= <- <-]. by eapply Hm. Qed.

Lemma keeps_ids {A} (m : ST nat A) : keeps (on_ids m).
Proof. apply keeps_store, read_only_wkeeps, read_only_draw. Qed.

Lemma keeps_compactor {A} (m : ST cworld A) : keeps (on_compactor m).
Proof. intros w r w'. unfold on_compactor. destruct (m _) as [r1 c]. intros [= <- <-]. reflexivity. Qed.

Lemma keeps_generator {A} (m : ST nat A) : keeps (on_generator m).
Proof. intros w r w'. unfold on_generator. destruct (m _) as [r1 n]. intros [= <- <-]. reflexivity. Qed.

Lemma keeps_attempt {A} (m : ST sworld A) : keeps m -> keeps (attempt m).
Proof.
  intros Hm w r w'. unfold attempt. destruct (m w) as [[a|e|] w1] eqn:E; intros [= <- <-]; by eapply Hm.
Qed.

(** ** With a client *)

Section client.
Context {C : Type}.

Lemma keeps_client_bind {A B} (m : ST (sworld * C) A) (f : A -> ST (sworld * C) B) :
  (forall c, keeps (with_client c m)) -> (forall a c, keeps (with_client c (f a))) ->
  forall c, keeps (with_client c (m ≫= f)).
Proof.
  intros Hm Hf c w r w'. rewrite with_client_bind. destruct (m (w, c)) as [r1 [w1 c1]] eqn:E.
  assert (Hw : R (db_of w) (db_of w1)) by (apply (Hm c w r1); unfold with_client; by rewrite E).
  destruct r1 as [a|e|]; [|by intros [= <- <-]..]. intros H1%Hf. by etrans.
Qed.

Lemma keeps_client_service {A} (m : ST sworld A) c : keeps m -> keeps (with_client (C := C) c (in_service m)).
Proof. intros Hm w r w'. rewrite with_client_service. apply Hm. Qed.

Lemma keeps_client_hook e hook (c : C) : keeps (with_client c (call_hook e hook)).
Proof.
  intros w r w'. unfold with_client, call_hook. destruct (hook _) as [r1 [ids c1]]. intros [= <- <-]. reflexivity.
Qed.

Lemma keeps_client_pure {A} (m : res A) (c : C) : keeps (with_client c (st_lift m)).
Proof. intros w r w' [= <- <-]. reflexivity. Qed.
End client.
End keeps.

(** Splits a computation at its binds, decisions and matches. *)
Ltac keep :=
  repeat lazymatch goal with
    | |- keeps _ (mbind _ _) => apply keeps_bind; [exact _| |intros]
    | |- keeps _ (mret _) => apply keeps_ret; exact _
    | |- keeps _ (st_lift _) => apply keeps_lift; exact _
    | |- keeps _ (st_err _) => apply keeps_err; exact _
    | |- keeps _ read_clock => apply keeps_clock; exact _
    | |- keeps _ (on_ids _) => apply keeps_ids; exact _
    | |- keeps _ (on_compactor _) => apply keeps_compactor; exact _
    | |- keeps _ (on_generator _) => apply keeps_generator; exact _
    | |- keeps _ (st_wrap _ _) => apply keeps_wrap
    | |- forall _, _ => intros ?
    | |- keeps _ (with_client _ (mbind _ _)) => apply keeps_client_bind; [exact _| |intros]
    | |- keeps _ (with_client _ (in_service _)) => apply keeps_client_service
    | |- keeps _ (with_client _ (call_hook _ _)) => apply keeps_client_hook; exact _
    | |- keeps _ (with_client _ (st_lift _)) => apply keeps_client_pure; exact _
    | |- keeps _ (with_client _ (mret ?a)) => apply (keeps_client_pure _ (Ok a)); exact _
    | |- keeps _ (with_client _ (st_err ?e)) => apply (keeps_client_pure _ (Err e)); exact _
    | |- keeps _ (with_client _ (match ?x with _ => _ end)) => destruct x
    | |- keeps _ (match ?x with _ => _ end) => destruct x
    end.

(** Everything but the memory notes stays. *)
Definition same_but_memory (db db' : DB) : Prop := exists notes, db' = set_memory db notes.

#[global] Instance same_but_memory_preorder : PreOrder same_but_memory.
Proof.
  split.
  - intros db. exists (memory_notes db). by destruct db.
  - intros db1 db2 db3 [n1 ->] [n2 ->]. by exists n2.
Qed.

Lemma eq_keeps {A} (R : DB -> DB -> Prop) `{!PreOrder R} (m : ST sworld A) : keeps eq m -> keeps R m.
Proof. intros Hm w r w' <-%Hm. reflexivity. Qed.

(** ** Failing without a trace *)

Definition clean {A} (m : ST sworld A) : Prop :=
  forall w r w', m w = (r, w') -> is_ok r = false -> db_of w' = db_of w.

Lemma clean_bind {A B} (m : ST sworld A) (f : A -> ST sworld B) : keeps eq m -> (forall a, clean (f a)) -> clean (m ≫= f).
Proof.
  intros Hm Hf w r w'. unfold mbind, st_bind. destruct (m w) as [[a|e|] w1] eqn:E; apply Hm in E; rewrite E.
  - apply Hf.
  - by intros [= <- <-].
  - by intros [= <- <-].
Qed.

Lemma keeps_clean {A} (m : ST sworld A) : keeps eq m -> clean m.
Proof. intros Hm w r w' Hr%Hm _. done. Qed.

Lemma clean_client_bind {C A B} (m : ST (sworld * C) A) (f : A -> ST (sworld * C) B) :
  (forall c, keeps eq (with_client c m)) -> (forall a c, clean (with_client c (f a))) ->
  forall c, clean (with_client c (m ≫= f)).
Proof.
  intros Hm Hf c w r w'. rewrite with_client_bind. destruct (m (w, c)) as [r1 [w1 c1]] eqn:E.
  assert (Hw : db_of w = db_of w1) by (apply (Hm c w r1); unfold with_client; by rewrite E). rewrite Hw.
  destruct r1 as [a|e|]; [apply Hf|by intros [= <- <-]..].
Qed.

(** The last step that can fail. *)
Lemma clean_then {A B} (m : ST sworld A) (f : A -> ST sworld B) :
  clean m -> (forall a w, exists b w', f a w = (Ok b, w')) -> clean (m ≫= f).
Proof.
  intros Hm Hf w r w'. unfold mbind, st_bind. destruct (m w) as [[a|e|] w1] eqn:E.
  - destruct (Hf a w1) as (b & w2 & ->). intros [= <- <-]. done.
  - intros [= <- <-] _. by eapply Hm.
  - intros [= <- <-] _. by eapply Hm.
Qed.

Lemma clean_store {A} (m : ST world A) :
  (forall w r w', m w = (r, w') -> is_ok r = false -> w_db w' = w_db w) -> clean (on_store m).
Proof. intros Hm w r w'. unfold on_store. destruct (m _) as [r1 w1] eqn:E. intros [= <- <-]. by eapply Hm. Qed.

Ltac clean :=
  repeat lazymatch goal with
    | |- clean (mbind _ _) => apply clean_bind; [solve [keep]|intros]
    | |- clean (match ?x with _ => _ end) => destruct x
    end.

(** ** The operations of the stores *)

Section stores.
Context `{Sqlite}.

Lemma GetResponse_read_only id : read_only (GetResponse id).
Proof. unfold GetResponse. apply read_only_bind; [apply select_response_read_only|]. intros. read_only. Qed.

Lemma GetResponseLineage_read_only id n : read_only (GetResponseLineage id n).
Proof.
  unfold GetResponseLineage. apply read_only_bind; [apply read_only_get|]. intros w.
  apply read_only_bind; [apply lineage_loop_read_only|]. intros. read_only.
Qed.

Lemma ListMemoryNotes_read_only q : read_only (ListMemoryNotes q).
Proof. unfold ListMemoryNotes. read_only. Qed.

Lemma touch_loop_keeps ids now : wkeeps same_but_memory (touch_loop ids now).
Proof.
  induction ids as [|id ids IH]; simpl; [apply read_only_wkeeps; [exact _|read_only]|]. case_decide; [done|].
  apply wkeeps_bind; [exact _| |done]. apply wkeeps_exec; [exact _|]. intros fk db a db' [= _ <-]. by eexists.
Qed.

Lemma TouchMemoryNotes_keeps ids now : wkeeps same_but_memory (TouchMemoryNotes ids now).
Proof.
  unfold TouchMemoryNotes. destruct ids; [apply read_only_wkeeps; [exact _|read_only]|].
  apply wkeeps_transaction; [exact _|]. apply wkeeps_bind; [exact _|apply read_only_wkeeps; [exact _|read_only]|].
  intros _. apply touch_loop_keeps.
Qed.

Lemma SaveResponse_clean r : clean (on_store (SaveResponse r)).
Proof. apply clean_store. intros w x w' Hx Hr. by eapply exec_not_ok. Qed.

Lemma SaveResponse_ok r w u w' : SaveResponse r w = (Ok u, w') ->
  w_db w' = set_responses (w_db w) (<[sr_ID r := response_row_of r]> (responses (w_db w))).
Proof. intros (_ & Hx & _)%exec_ok. by injection Hx as _ Hx. Qed.

Context `{IdSource} `{MapOrder} `{UnicodeTable}.

Lemma memoryContextItems_keeps cfg b i now : wkeeps same_but_memory (memoryContextItems cfg b i now).
Proof.
  unfold memoryContextItems. destruct (negb _); [apply read_only_wkeeps; [exact _|read_only]|].
  apply wkeeps_bind; [exact _|apply read_only_wkeeps; [exact _|read_only]|]. intros metadata.
  destruct (memoryBoolMetadata _) as [inject ok]. destruct (ok && _); [apply read_only_wkeeps; [exact _|read_only]|].
  destruct (negb ok && _); [apply read_only_wkeeps; [exact _|read_only]|].
  apply wkeeps_bind; [exact _|apply read_only_wkeeps, read_only_wrap, ListMemoryNotes_read_only; exact _|].
  intros [|note notes]; [apply read_only_wkeeps; [exact _|read_only]|].
  case_decide; [apply read_only_wkeeps; [exact _|read_only]|].
  apply wkeeps_bind; [exact _| |intros; apply read_only_wkeeps; [exact _|read_only]].
  case_decide; [apply read_only_wkeeps; [exact _|read_only]|]. apply wkeeps_wrap, TouchMemoryNotes_keeps.
Qed.

Lemma captureMemoryNote_keeps cfg b i rid now : wkeeps same_but_memory (captureMemoryNote cfg b i rid now).
Proof.
  intros w r w' Hc%captureMemoryNote_cases.
  assert (Hsame : w_db w' = w_db w -> same_but_memory (w_db w) (w_db w')) by (intros ->; reflexivity).
  destruct r as [u|e|]; [|auto..]. destruct (memoryRequestEnabled cfg b i); [|auto].
  destruct Hc as (m & _ & Hc). destruct (note_to_keep cfg m i) as [[[scope session] text]|]; [|auto].
  destruct Hc as (n & u' & row & _ & -> & _). by eexists.
Qed.

Lemma memory_off cfg i : memoryRequestEnabled cfg false i = false.
Proof. unfold memoryRequestEnabled. apply andb_false_r. Qed.

Lemma memoryContextItems_off cfg i now : memoryContextItems cfg false i now = mret [].
Proof. unfold memoryContextItems. by rewrite memory_off. Qed.

Lemma captureMemoryNote_off cfg i rid now : captureMemoryNote cfg false i rid now = mret tt.
Proof. unfold captureMemoryNote. by rewrite memory_off. Qed.
End stores.

(** ** The steps of a request *)

Section steps.
Context `{Sqlite} `{IdSource} `{MapOrder} `{UnicodeTable} `{RequestContext} `{TextModel} `{Generator} `{Clock}.
Context (s : ResponseService).

Section along.
Context (R : DB -> DB -> Prop) `{!PreOrder R}.

Lemma base_items_keeps input : keeps R (base_items s input).
Proof.
  unfold base_items. case_decide; [|case_decide; [|keep]].
  - keep. apply keeps_store, read_only_wkeeps, GetResponseLineage_read_only. exact _.
  - apply keeps_bind; [exact _| |intros [conversation items]; keep].
    apply keeps_store, read_only_wkeeps, GetConversation_read_only. exact _.
Qed.

Lemma prepareResponseContext_keeps input a b c :
  (c = true -> keeps R (service_memoryContextItems s input)) -> keeps R (prepareResponseContext s input a b c).
Proof.
  intros Hm. unfold prepareResponseContext. destruct (a && _); [keep|]. destruct (_ && _); [keep|].
  apply keeps_bind; [exact _|keep|]. intros _.
  apply keeps_bind; [exact _|keep|]. intros normalizedInput.
  apply keeps_bind; [exact _|apply base_items_keeps|]. intros [baseItems conversation].
  apply keeps_bind; [exact _|keep|]. intros baseItems'.
  apply keeps_bind; [exact _|keep|]. intros _.
  apply keeps_bind; [exact _|keep|]. intros normalizedInput'.
  apply keeps_bind; [exact _|destruct c; [auto|keep]|]. intros memoryItems. keep.
Qed.

Lemma applyAutomaticCompaction_keeps input prepared : keeps R (applyAutomaticCompaction s input prepared).
Proof. unfold applyAutomaticCompaction. keep. Qed.

Lemma prepareCreate_keeps input : keeps R (service_memoryContextItems s input) -> keeps R (prepareCreate s input).
Proof. intros Hm. unfold prepareCreate, PrepareCreateContext. keep. by apply prepareResponseContext_keeps. Qed.
End along.

Lemma memory_read_keeps input : keeps same_but_memory (service_memoryContextItems s input).
Proof.
  unfold service_memoryContextItems, now_text. apply keeps_bind; [exact _|keep|]. intros now.
  apply keeps_store, memoryContextItems_keeps.
Qed.

Lemma memory_write_keeps input rid : keeps same_but_memory (service_captureMemoryNote s input rid).
Proof.
  unfold service_captureMemoryNote, now_text. apply keeps_bind; [exact _|keep|]. intros now.
  apply keeps_store, captureMemoryNote_keeps.
Qed.

Lemma no_memory_read input : s_hasMemoryStore s = false -> keeps eq (service_memoryContextItems s input).
Proof.
  intros Hs. unfold service_memoryContextItems, now_text. apply keeps_bind; [exact _|keep|]. intros now.
  rewrite Hs, memoryContextItems_off. apply keeps_store, read_only_wkeeps, read_only_ret. exact _.
Qed.

Lemma no_memory_write input rid w : s_hasMemoryStore s = false ->
  exists w', service_captureMemoryNote s input rid w = (Ok tt, w') /\ db_of w' = db_of w.
Proof.
  intros Hs. unfold service_captureMemoryNote. rewrite Hs. eexists.
  unfold now_text, read_clock, mbind, st_bind, mret, st_ret. rewrite captureMemoryNote_off. done.
Qed.

Lemma persist_clean input conversation stored normalizedInput output :
  clean (persist input conversation stored normalizedInput output).
Proof.
  unfold persist. case_decide; [|destruct (_ || _); [apply SaveResponse_clean|apply keeps_clean; keep]].
  apply clean_store. intros w r w'. apply transaction_atomic.
Qed.

(** Whether a request is to leave no response behind. *)
Definition unstored (input : CreateResponseInput) : Prop :=
  i_ConversationID input = "" /\ i_PreviousResponseID input = "" /\ i_ForceShadowStore input = false /\
  public_store input = false.

Lemma persist_unstored input conversation stored normalizedInput output : unstored input ->
  persist input conversation stored normalizedInput output = mret tt.
Proof.
  intros (Hc & Hp & Hf & Hs). unfold persist. rewrite decide_False by (by intros ?).
  by rewrite Hf, Hs, bool_decide_false by (by intros ?).
Qed.

Lemma completeCreate_keeps prepared ctx input text : unstored input ->
  keeps same_but_memory (completeCreate s prepared ctx input text).
Proof.
  intros Hu. unfold completeCreate. keep; [rewrite persist_unstored by done; keep|apply memory_write_keeps].
Qed.

Lemma completeCreate_clean prepared ctx input text : s_hasMemoryStore s = false ->
  clean (completeCreate s prepared ctx input text).
Proof.
  intros Hs. unfold completeCreate. do 5 (apply clean_bind; [solve [keep]|intros]).
  apply clean_then; [apply persist_clean|]. intros [] w.
  match goal with |- context [service_captureMemoryNote s input ?id] =>
    destruct (no_memory_write input id w Hs) as (w' & E & _) end.
  unfold mbind, st_bind. rewrite E. by eexists _, _.
Qed.
End steps.
