(* ===== verification/ServiceProps.v ===== *)
(** * What the response service guarantees of its state

    Which requests change the database, and that a request that fails does
    not. *)

From S2P Require Import Prelude GoStr GoFloat GoJson JsonFacts StrFacts GoInt GoTime World Items Normalize NormProps Context Store StoreFacts StoreProps ResponseProps ConvService Compaction Compactor CompactorProps Memory MemoryProps ToolMarkup TextFormat Response LocalGen LocalProps RespService RespManage ServiceFacts.

Section frames.
Context `{Sqlite} `{IdSource} `{MapOrder} `{UnicodeTable} `{RequestContext} `{TextModel} `{Generator} `{Clock}.
Context (s : ResponseService).

Section along.
Context (R : DB -> DB -> Prop) `{!PreOrder R}.

Lemma Create_along input : keeps R (service_memoryContextItems s input) ->
  (forall p c t, keeps R (completeCreate s p c input t)) -> keeps R (Create s input).
Proof.
  intros Hm Hc. unfold Create. keep; [by apply prepareCreate_keeps|apply applyAutomaticCompaction_keeps; exact _|].
  apply Hc.
Qed.

Lemma CreateStream_along {C} input (hooks : StreamHooks C) c : keeps R (service_memoryContextItems s input) ->
  (forall p c t, keeps R (completeCreate s p c input t)) -> keeps R (with_client c (CreateStream s input hooks)).
Proof.
  intros Hm Hc. unfold CreateStream.
  keep; try apply Hc; [by apply prepareCreate_keeps|apply applyAutomaticCompaction_keeps; exact _].
Qed.

Lemma CreateWarmup_along input : keeps R (service_memoryContextItems s input) ->
  (forall c r n o, keeps R (persist input c r n o)) -> keeps R (CreateWarmup s input).
Proof.
  intros Hm Hp. unfold CreateWarmup.
  keep; [by apply prepareCreate_keeps|apply applyAutomaticCompaction_keeps; exact _|apply Hp].
Qed.

Lemma GetInputItems_keeps id : keeps R (GetInputItems s id).
Proof.
  unfold GetInputItems. keep; [apply keeps_store, read_only_wkeeps, GetResponse_read_only; exact _|].
  unfold reconstructStoredInputItems. keep; apply keeps_attempt, keeps_store, read_only_wkeeps; try exact _.
  - apply GetResponseLineage_read_only.
  - apply GetConversation_read_only.
Qed.
End along.

Lemma Create_clean input : s_hasMemoryStore s = false -> clean (Create s input).
Proof.
  intros Hs. unfold Create.
  apply clean_bind; [apply prepareCreate_keeps; [exact _|by apply no_memory_read]|]. intros prepared.
  apply clean_bind; [apply applyAutomaticCompaction_keeps; exact _|]. intros prepared'.
  apply clean_bind; [keep|]. intros [ctx b]. do 2 (apply clean_bind; [keep|intros]). by apply completeCreate_clean.
Qed.

Lemma CreateStream_clean {C} input (hooks : StreamHooks C) c : s_hasMemoryStore s = false ->
  clean (with_client c (CreateStream s input hooks)).
Proof.
  intros Hs. unfold CreateStream. revert c.
  apply clean_client_bind; [intros; apply keeps_client_service, prepareCreate_keeps; [exact _|by apply no_memory_read]|].
  intros prepared. apply clean_client_bind.
  { intros. apply keeps_client_service, applyAutomaticCompaction_keeps; exact _. }
  intros prepared'. apply clean_client_bind; [keep|]. intros [ctx b]. do 4 (apply clean_client_bind; [keep|intros ?]).
  destruct (decide _); [intros; apply keeps_clean; keep|]. apply clean_client_bind; [keep|].
  intros _ c w r w'. rewrite with_client_service. by apply completeCreate_clean.
Qed.

Lemma CreateWarmup_clean input : s_hasMemoryStore s = false -> clean (CreateWarmup s input).
Proof.
  intros Hs. unfold CreateWarmup.
  apply clean_bind; [apply prepareCreate_keeps; [exact _|by apply no_memory_read]|]. intros prepared.
  apply clean_bind; [apply applyAutomaticCompaction_keeps; exact _|]. intros prepared'.
  do 4 (apply clean_bind; [keep|intros]). apply clean_then; [apply persist_clean|]. intros [] w. by eexists _, _.
Qed.

Lemma SaveExternalResponse_clean prepared input response : s_hasMemoryStore s = false ->
  clean (SaveExternalResponse s prepared input response).
Proof.
  intros Hs. unfold SaveExternalResponse. do 2 (apply clean_bind; [keep|intros]).
  destruct (_ && _); [apply keeps_clean; keep|]. do 3 (apply clean_bind; [keep|intros]).
  apply clean_then; [apply persist_clean|]. intros [] w.
  match goal with |- context [service_captureMemoryNote s input ?id] =>
    destruct (no_memory_write s input id w Hs) as (w' & E & _) end.
  unfold mbind, st_bind. rewrite E. by eexists _, _.
Qed.

Lemma Refresh_clean response : clean (Refresh response).
Proof.
  unfold Refresh. destruct (decide _); [apply keeps_clean; keep|].
  apply clean_bind; [apply keeps_store, read_only_wkeeps, GetResponse_read_only; exact _|]. intros stored.
  set (next := if bool_decide _ && _ then _ else _). clearbody next.
  destruct (_ && _); [apply keeps_clean; keep|]. apply clean_bind; [keep|]. intros final.
  apply clean_then; [apply SaveResponse_clean|]. intros [] w. by eexists _, _.
Qed.
End frames.

(** Fact (safety): counting tokens, compacting a context, and reading a response,
    its input items or whether it exists change nothing in the database;
    preparing the context of a request changes only when its memory notes were
    last used. *)
Theorem reads_change_nothing `{Sqlite} `{IdSource} `{MapOrder} `{UnicodeTable} `{RequestContext} `{TextModel}
    `{Generator} `{Clock} s input id :
  keeps eq (CountInputTokens s input) /\ keeps eq (Compact s input) /\ keeps eq (GetStored id) /\
  keeps eq (HasPreviousResponse id) /\ keeps eq (GetInputItems s id) /\
  keeps same_but_memory (PrepareCreateContext s input).
Proof.
  assert (Hget : forall id, keeps eq (on_store (GetResponse id)))
    by (intros; apply keeps_store, read_only_wkeeps, GetResponse_read_only; exact _).
  split_and!.
  - unfold CountInputTokens. keep. by apply prepareResponseContext_keeps; [exact _|].
  - unfold Compact. keep. by apply prepareResponseContext_keeps; [exact _|].
  - unfold GetStored. keep. apply Hget.
  - unfold HasPreviousResponse. keep. apply Hget.
  - apply GetInputItems_keeps. exact _.
  - apply prepareResponseContext_keeps; [exact _|]. intros _. apply memory_read_keeps.
Qed.

(** Fact (safety): a request that is not to be stored (store is false, it
    continues nothing, and no shadow copy is asked for) leaves no response and
    no conversation item behind, whatever happens; only memory notes can
    change. *)
Theorem unstored_request_leaves_nothing `{Sqlite} `{IdSource} `{MapOrder} `{UnicodeTable} `{RequestContext} `{TextModel}
    `{Generator} `{Clock} {C} s input (hooks : StreamHooks C) c : unstored input ->
  keeps same_but_memory (Create s input) /\ keeps same_but_memory (with_client c (CreateStream s input hooks)) /\
  keeps same_but_memory (CreateWarmup s input).
Proof.
  intros Hu. split_and!.
  - apply Create_along; [exact _|apply memory_read_keeps|]. intros. by apply completeCreate_keeps.
  - apply CreateStream_along; [exact _|apply memory_read_keeps|]. intros. by apply completeCreate_keeps.
  - apply CreateWarmup_along; [exact _|apply memory_read_keeps|]. intros. rewrite persist_unstored by done. keep.
Qed.

(** C17 (safety): without a memory store, a request that fails or panics at any
    point (the generator, a callback of the stream, a statement of the
    database, ...) leaves the database exactly as it was. *)
Theorem failed_request_leaves_nothing `{Sqlite} `{IdSource} `{MapOrder} `{UnicodeTable} `{RequestContext} `{TextModel}
    `{Generator} `{Clock} {C} s input (hooks : StreamHooks C) c prepared response : s_hasMemoryStore s = false ->
  clean (Create s input) /\ clean (with_client c (CreateStream s input hooks)) /\ clean (CreateWarmup s input) /\
  clean (SaveExternalResponse s prepared input response) /\ clean (Refresh response).
Proof.
  intros Hs. split_and!; [by apply Create_clean|by apply CreateStream_clean|by apply CreateWarmup_clean| |].
  - by apply SaveExternalResponse_clean.
  - apply Refresh_clean.
Qed.

(** ** A concrete service *)

Definition demo_clock : Clock := {| NowUTC n := unix_utc (1700000000 + Z.of_nat n) |}.
(** A generator that answers with the number of the call. *)
Definition demo_generator : Generator := {| gen_Generate n _ _ _ := Ok ("answer " +:+ digits (Z.of_nat n)) |}.

Definition demo_start : sworld := {| s_world := start; s_checks := 0; s_calls := 0; s_clock := 0; s_events := [] |}.

Definition demo_request (input previous conversation : string) (store : option bool) : CreateResponseInput :=
  {| i_Model := "m"; i_Input := input; i_TextConfig := ""; i_Metadata := ""; i_ContextManagement := "";
     i_Store := store; i_Stream := None; i_Background := None; i_ForceShadowStore := false;
     i_PreviousResponseID := previous; i_ConversationID := conversation; i_Instructions := "";
     i_RequestJSON := "{}"; i_GenerationOptions := [] |}.

Definition demo_limits : ResponseServiceLimits :=
  {| StoredLineageMaxItems := 0; LocalToolOutputSummaryMaxBytes := 0 |}.

Section demo.
#[local] Existing Instances reliable zeros_ids sorted_order ascii_only never_cancelled chatty demo_clock demo_generator.

Definition demo_service : ResponseService := NewResponseServiceWithLimits demo_limits.
Definition no_hooks : StreamHooks unit := {| OnCreated := None; OnDelta := None |}.

Lemma unstored_request_leaves_nothing_witness :
  let input := demo_request (sq "'hi'") "" "" (Some false) in
  unstored input /\
  (keeps same_but_memory (Create demo_service input) /\ keeps same_but_memory (with_client tt (CreateStream demo_service input no_hooks)) /\
   keeps same_but_memory (CreateWarmup demo_service input)).
Proof. split; [done|]. by apply unstored_request_leaves_nothing. Defined.

Lemma failed_request_leaves_nothing_witness :
  let input := demo_request (sq "'hi'") "resp_missing" "" None in
  (exists e w, Create demo_service input demo_start = (Err e, w)) /\ clean (Create demo_service input).
Proof.
  split; [eexists _, _; vm_compute; reflexivity|].
  exact (proj1 (failed_request_leaves_nothing demo_service _ no_hooks tt
           {| pc_NormalizedInput := []; pc_EffectiveInput := []; pc_ContextItems := [];
              pc_Conversation := zeroConversation; pc_ToolCallRefs := ∅ |} zeroResponse eq_refl)).
Defined.
End demo.
