(* ===== verification/HistoryProps.v ===== *)
(** * What a request is answered from

    The history that precedes a request, from the lineage of a response or
    from a conversation; the tool outputs a continuation may bring; and what
    automatic compaction makes of both. *)

From S2P Require Import Prelude GoStr GoFloat GoJson JsonFacts StrFacts GoInt GoTime World Items ItemFacts Normalize NormProps Context Store StoreFacts StoreProps ResponseProps ConvService Compaction CompactionProps Compactor CompactorProps Memory MemoryProps ToolMarkup TextFormat Response LocalGen LocalProps RespService RespManage ServiceFacts ServiceProps.

(** ** The recent part of a history *)

(** An entry of a history is an item, and whether a response produced it. *)

Definition is_compaction (item : Item) : bool := bool_decide (Type_ item = "compaction").
Definition trusted (e : bool * Item) : bool := e.1 && is_compaction e.2.

(** Everything from the last compaction a response produced. *)
Definition recent (h : list (bool * Item)) : list Item :=
  map snd (match last_index trusted h with Some i => drop i h | None => h end).

Definition turn (r : StoredResponse) : list (bool * Item) :=
  map (pair false) (sr_NormalizedInputItems r) ++ map (pair true) (sr_Output r).

Definition recorded (item : ConversationItem) : bool * Item := (bool_decide (ci_Source item = "response_output"), ci_Item item).

Lemma last_index_app {A} (p : A -> bool) l1 l2 :
  last_index p (l1 ++ l2) =
    match last_index p l2 with Some i => Some (length l1 + i) | None => last_index p l1 end.
Proof.
  induction l1 as [|x l1 IH]; simpl; [by destruct (last_index p l2)|]. rewrite IH. by destruct (last_index p l2).
Qed.

Lemma last_index_map {A B} (p : B -> bool) (f : A -> B) l : last_index p (map f l) = last_index (fun x => p (f x)) l.
Proof. induction l as [|x l IH]; simpl; [done|]. by rewrite IH. Qed.

Lemma last_index_ext {A} (p q : A -> bool) l : (forall x, p x = q x) -> last_index p l = last_index q l.
Proof. intros Hpq. induction l as [|x l IH]; simpl; [done|]. by rewrite IH, Hpq. Qed.

Lemma last_index_none {A} (p : A -> bool) l : (forall x, p x = false) -> last_index p l = None.
Proof. intros Hp. induction l as [|x l IH]; simpl; [done|]. by rewrite IH, Hp. Qed.

Lemma last_index_some {A} (p : A -> bool) l i : last_index p l = Some i ->
  exists x, l !! i = Some x /\ p x = true.
Proof.
  revert i. induction l as [|x l IH]; intros i; simpl; [done|]. destruct (last_index p l) as [j|] eqn:E.
  - intros [= <-]. by apply IH.
  - destruct (p x) eqn:Hp; [intros [= <-]; by exists x|done].
Qed.

Lemma map_snd_pair {A B} (b : B) (l : list A) : map snd (map (pair b) l) = l.
Proof. rewrite map_map. apply map_id. Qed.

Lemma skip_app_plus {A} (l1 l2 : list A) i : drop (length l1 + i) (l1 ++ l2) = drop i l2.
Proof. by rewrite <-drop_drop, drop_app_length. Qed.

(** A turn forgets what is before its last compaction. *)
Lemma recent_turn h r :
  recent (h ++ turn r) =
    match last_index is_compaction (sr_Output r) with
    | Some i => drop i (sr_Output r)
    | None => recent h ++ sr_NormalizedInputItems r ++ sr_Output r
    end.
Proof.
  unfold recent, turn. rewrite app_assoc, last_index_app, last_index_map. cbn [trusted fst snd andb].
  replace (last_index (fun x : Item => trusted (true, x)) (sr_Output r))
    with (last_index is_compaction (sr_Output r)) by done.
  destruct (last_index is_compaction (sr_Output r)) as [i|].
  - rewrite skip_app_plus, skipn_map. apply map_snd_pair.
  - rewrite last_index_app, last_index_map, last_index_none by done.
    destruct (last_index trusted h) as [j|] eqn:Ej.
    + rewrite drop_app_le, drop_app_le, !map_app, !map_snd_pair.
      * by rewrite <-app_assoc.
      * apply last_index_some in Ej as (x & Hx & _). apply lookup_lt_Some in Hx. lia.
      * apply last_index_some in Ej as (x & Hx & _). apply lookup_lt_Some in Hx. rewrite length_app. lia.
    + rewrite !map_app, !map_snd_pair. by rewrite <-app_assoc.
Qed.

Lemma lineage_context_recent h lineage : lineage_context (recent h) lineage = recent (h ++ flat_map turn lineage).
Proof.
  revert h. induction lineage as [|r lineage IH]; intros h; cbn [lineage_context flat_map]; [by rewrite app_nil_r|].
  rewrite app_assoc, <-IH. f_equal. rewrite recent_turn.
  change (last_index _ (sr_Output r)) with (last_index is_compaction (sr_Output r)).
  destruct (last_index is_compaction (sr_Output r)) as [i|]; [by rewrite skip_app_plus|by rewrite <-app_assoc].
Qed.

Lemma buildLineageContextItems_recent lineage : buildLineageContextItems lineage = recent (flat_map turn lineage).
Proof. apply (lineage_context_recent []). Qed.

Lemma domainItemsFromConversation_recent items : domainItemsFromConversation items = recent (map recorded items).
Proof.
  unfold domainItemsFromConversation, recent. rewrite last_index_map.
  replace (last_index (fun x => trusted (recorded x)) items) with (last_index isTrustedConversationCompaction items).
  2: { apply last_index_ext. intros x. unfold isTrustedConversationCompaction, trusted, recorded. apply andb_comm. }
  destruct (last_index _ items) as [i|]; [|by rewrite map_map]. by rewrite !skipn_map, map_map.
Qed.

(** C31 (equivalence): it makes no difference to the context of a request
    whether the turns before it are reached through the lineage of a response
    or through the conversation that recorded them: both give everything from
    the last compaction that a response produced (never one a client sent). *)
Theorem lineage_and_conversation_agree lineage items :
  map recorded items = flat_map turn lineage ->
  buildLineageContextItems lineage = domainItemsFromConversation items /\
  domainItemsFromConversation items = recent (map recorded items).
Proof.
  intros Hh. by rewrite buildLineageContextItems_recent, domainItemsFromConversation_recent, Hh.
Qed.

(** The history after a turn whose output starts with a compaction. *)
Lemma compacted_turn_context item rest : is_compaction item = true ->
  exists k, forall before r, sr_Output r = item :: rest -> buildLineageContextItems (before ++ [r]) = drop k (item :: rest).
Proof.
  intros Hi. assert (exists k, last_index is_compaction (item :: rest) = Some k) as [k Hk].
  { simpl. destruct (last_index is_compaction rest); [eauto|]. rewrite Hi. eauto. }
  exists k. intros before r Hr. rewrite buildLineageContextItems_recent, flat_map_app. cbn [flat_map].
  by rewrite app_nil_r, recent_turn, Hr, Hk.
Qed.

Lemma priorEffectiveItems_app history input : history <> [] -> priorEffectiveItems (history ++ input) input = history.
Proof.
  intros Hh. unfold priorEffectiveItems. rewrite decide_False by (by destruct history).
  case_decide as Hi; [by rewrite Hi, app_nil_r|]. rewrite length_app, decide_False by (destruct history; simpl in *; [done|lia]).
  rewrite Nat.add_sub. apply take_app_length.
Qed.

Section compacted.
Context `{Sqlite} `{IdSource} `{MapOrder} `{UnicodeTable} `{RequestContext} `{TextModel} `{Generator} `{Clock}.
Context (s : ResponseService).

(** What the compactor of the service promises for items. *)
Definition compacts : Prop := forall items w result w', s_compactor s items w = (Ok result, w') ->
  is_int (Z.of_nat (length items)) = true -> Forall printable_item items -> Forall item_inv items -> compaction_of items result.

Lemma compaction_named items result : compaction_of items result ->
  is_compaction (rs_Item result) = true /\ TrimSpace (ID (rs_Item result)) <> "".
Proof.
  unfold is_compaction. intros [(_ & [-> ?] & _)|(cfg & state & retained & _ & ([-> ?] & _) & _)]; done.
Qed.

Lemma compaction_applied input p w p' w' threshold history : applyAutomaticCompaction s input p w = (Ok p', w') ->
  parseCompactionThreshold (i_ContextManagement input) = Ok (Some threshold) ->
  (threshold < EstimateSyntheticTokenCount (pr_ContextItems p))%Z ->
  pr_EffectiveInput p = history ++ pr_NormalizedInput p -> history <> [] ->
  exists result, on_compactor (s_compactor s history) w = (Ok result, w') /\ pr_OutputPrefix p' = pr_OutputPrefix p ++ [rs_Item result] /\
    pr_ContextItems p' = AppendCurrentRequestContext (rs_Expanded result) (i_Instructions input) (pr_NormalizedInput p).
Proof.
  unfold applyAutomaticCompaction. intros Ha Ht Hlt He Hh. rewrite st_bind_eq in Ha. unfold st_lift in Ha. rewrite Ht in Ha.
  rewrite (proj2 (Z.leb_gt _ _) Hlt), He, priorEffectiveItems_app in Ha by done. cbv zeta in Ha. rewrite decide_False in Ha by done.
  apply st_bind_ok in Ha as (result & w1 & Hc & [= <- <-]). by exists result.
Qed.

Lemma prepareCreate_prefix input w p w' : prepareCreate s input w = (Ok p, w') -> pr_OutputPrefix p = [].
Proof.
  unfold prepareCreate. intros (pc & ? & _ & Hp)%st_bind_ok. apply st_bind_ok in Hp as (id & ? & _ & Hp).
  by apply st_bind_ok in Hp as (now & ? & _ & [= <- _]).
Qed.

Lemma completeCreate_output p ctx input text w response w' : completeCreate s p ctx input text w = (Ok response, w') ->
  exists r0 n n', EnsureItemIDs (pr_OutputPrefix p ++ outputs r0) n = (Ok (outputs response), n').
Proof.
  unfold completeCreate. intros Hb. apply st_bind_ok in Hb as (r0 & wa & _ & Hb). apply st_bind_ok in Hb as (metadata & wb & _ & Hb).
  apply st_bind_ok in Hb as (normalizedInput & wc & _ & Hb). apply st_bind_ok in Hb as (effectiveInput & wd & _ & Hb).
  apply st_bind_ok in Hb as (output & we & Ho & Hb). apply st_bind_ok in Hb as ([] & wf & _ & Hb).
  apply st_bind_ok in Hb as ([] & wg & _ & [= <- _]). unfold on_ids, on_store, draw in Ho.
  destruct (EnsureItemIDs _ _) as [ro n'] eqn:E in Ho. injection Ho as -> _. eauto.
Qed.

Lemma ensured_first item items n out n' : TrimSpace (ID item) <> "" -> EnsureItemIDs (item :: items) n = (Ok out, n') ->
  exists rest, out = item :: rest.
Proof.
  intros Hid. unfold EnsureItemIDs. cbn [st_map]. intros (o & n1 & Ho & Hb)%st_bind_ok. apply st_bind_ok in Hb as (rest & n2 & _ & [= <- _]).
  unfold ensure_item_id in Ho. rewrite decide_True in Ho by done. injection Ho as <- _. eauto.
Qed.
End compacted.

(** Either compactor a configuration selects keeps the promise. *)
Lemma configured_compacts `{IdLaws} `{UnicodeTable} `{RequestContext} `{TextModel} s cfg :
  (forall k, is_Some (uuid_v7 k)) -> (forall n, ctx_Err n <> None -> ctx_Err (S n) <> None) ->
  New cfg = Ok (s_compactor s) -> compacts s.
Proof.
  intros Hid Hcancel (normalized & _ & Hc)%res_bind_ok items w result w' Hr Hn Hp Hi. case_decide.
  - injection Hc as Hc. rewrite <-Hc in Hr. left. by eapply Heuristic_Compact_returns.
  - case_decide; [|done]. injection Hc as Hc. rewrite <-Hc in Hr. by eapply ModelAssistedText_Compact_returns.
Qed.


(** ** Three turns with automatic compaction in the second *)

Section demo.
#[local] Existing Instances reliable zeros_ids sorted_order ascii_only never_cancelled chatty demo_clock demo_generator.

Definition response_id (r : res Response) : string := match r with Ok r => r_ID r | _ => "" end.

Definition turn_one : res Response * sworld :=
  Create demo_service (demo_request (sq "'My name is Ada'") "" "" None) demo_start.

Definition compacting (input : CreateResponseInput) : CreateResponseInput :=
  {| i_Model := i_Model input; i_Input := i_Input input; i_TextConfig := i_TextConfig input;
     i_Metadata := i_Metadata input; i_ContextManagement := sq "[{'type':'compaction','compact_threshold':1}]";
     i_Store := i_Store input; i_Stream := i_Stream input; i_Background := i_Background input;
     i_ForceShadowStore := i_ForceShadowStore input; i_PreviousResponseID := i_PreviousResponseID input;
     i_ConversationID := i_ConversationID input; i_Instructions := i_Instructions input;
     i_RequestJSON := i_RequestJSON input; i_GenerationOptions := i_GenerationOptions input |}.

Definition turn_two : res Response * sworld :=
  Create demo_service (compacting (demo_request (sq "'The code is 1234'") (response_id turn_one.1) "" None)) turn_one.2.

Definition turn_three : res PreparedResponseContext * sworld :=
  PrepareCreateContext demo_service (demo_request (sq "'What is the code'") (response_id turn_two.1) "" None) turn_two.2.

(** Fact (error): in such a session the third request no longer sees what the user
    said in the second, while it still sees the first. *)
Theorem third_turn_forgets_second :
  match turn_three.1 with
  | Ok prepared =>
      existsb (fun item => Contains (MessageText item) "Ada") (pc_ContextItems prepared) = true /\
      existsb (fun item => Contains (MessageText item) "1234") (pc_ContextItems prepared) = false
  | _ => False
  end.
Proof. vm_compute. split; reflexivity. Qed.

Definition demo_turn : StoredResponse :=
  {| sr_ID := "resp_2"; sr_Model := "m"; sr_RequestJSON := "{}"; sr_ResponseJSON := "";
     sr_NormalizedInputItems := [NewInputTextMessage "user" "The code is 1234"]; sr_EffectiveInputItems := [];
     sr_Output := [{| Raw := None; Meta := None; Type_ := "compaction"; Role := ""; Content := [] |};
                   NewOutputTextMessage "Noted"]; sr_OutputText := "Noted"; sr_PreviousResponseID := "resp_1";
     sr_ConversationID := ""; sr_Store := true; sr_CreatedAt := "t"; sr_CompletedAt := "t" |}.

Definition demo_second : CreateResponseInput :=
  compacting (demo_request (sq "'The code is 1234'") (response_id turn_one.1) "" None).

Definition second_prepared : res preparedResponse * sworld := prepareCreate demo_service demo_second turn_one.2.

Definition second_history : list Item :=
  match second_prepared.1 with Ok p => priorEffectiveItems (pr_EffectiveInput p) (pr_NormalizedInput p) | _ => [] end.

Lemma second_history_ok : Forall printable_item second_history /\ Forall item_inv second_history.
Proof.
  let v := eval vm_compute in second_history in replace second_history with v by (vm_compute; reflexivity).
  split; repeat first [apply Forall_nil_2|apply Forall_cons_2].
  - vm_compute. reflexivity.
  - vm_compute. reflexivity.
  - eexists. split; [reflexivity|]. split; vm_compute; reflexivity.
  - eexists. split; [reflexivity|]. split; vm_compute; reflexivity.
Qed.

Lemma turn_two_run : exists p w1 response w', second_prepared = (Ok p, w1) /\
  (1 < EstimateSyntheticTokenCount (pr_ContextItems p))%Z /\ pr_EffectiveInput p = second_history ++ pr_NormalizedInput p /\
  second_history <> [] /\ is_int (Z.of_nat (length second_history)) = true /\
  Create demo_service demo_second turn_one.2 = (Ok response, w').
Proof.
  destruct second_prepared as [[p| |] w1] eqn:Ep; [|vm_compute in Ep; discriminate..].
  destruct (Create demo_service demo_second turn_one.2) as [[response| |] w'] eqn:Ec; [|vm_compute in Ec; discriminate..].
  exists p, w1, response, w'. split; [done|]. clear Ec.
  assert (p = match second_prepared.1 with Ok p => p | _ => p end) as -> by by rewrite Ep. clear Ep.
  split_and!; [| | | |done]; vm_compute; done.
Qed.

Lemma demo_service_compacts : compacts demo_service.
Proof.
  apply (@configured_compacts zeros_ids zeros_ids_laws ascii_only never_cancelled chatty demo_service
    heuristic_config);
    [by eexists|done|reflexivity].
Qed.


Definition demo_recorded (source : string) (item : Item) : ConversationItem :=
  {| ci_ID := ""; ci_ConversationID := "conv_1"; ci_Seq := 0; ci_Source := source; ci_Role := Role item;
     ci_ItemType := Type_ item; ci_Item := item; ci_CreatedAt := "t" |}.

Lemma lineage_and_conversation_agree_witness :
  buildLineageContextItems [demo_turn] =
    domainItemsFromConversation (map (demo_recorded "response_input") (sr_NormalizedInputItems demo_turn) ++
                                 map (demo_recorded "response_output") (sr_Output demo_turn)).
Proof. apply lineage_and_conversation_agree. reflexivity. Defined.
End demo.

(** ** Tool outputs of a continuation *)

Definition names_call (id : string) (item : Item) : Prop :=
  isToolCallItemType (Type_ item) = true /\ TrimSpace (CallID item) = id /\ id <> "".

Lemma collected_calls items id :
  id ∈ collectContinuationToolCallIDs items <-> exists item, item ∈ items /\ names_call id item.
Proof.
  unfold collectContinuationToolCallIDs. induction items as [|item items IH] using rev_ind.
  { split; [by intros ?%not_elem_of_empty|by intros (item & ?%not_elem_of_nil & _)]. }
  rewrite foldl_app. cbn [foldl]. set (ids := foldl _ _ items) in *.
  assert (Hsplit : (exists x, x ∈ items ++ [item] /\ names_call id x) <->
    (exists x, x ∈ items /\ names_call id x) \/ names_call id item).
  { setoid_rewrite elem_of_app. setoid_rewrite list_elem_of_singleton. naive_solver. }
  rewrite Hsplit, <-IH. unfold names_call. destruct (isToolCallItemType (Type_ item)).
  - case_decide as Hd; [rewrite elem_of_union, elem_of_singleton|]; naive_solver.
  - naive_solver.
Qed.

Lemma check_tool_outputs_ok ids items : check_tool_outputs ids items = Ok tt <->
  Forall (fun item => isToolOutputItemType (Type_ item) = true ->
    TrimSpace (CallID item) <> "" /\ TrimSpace (CallID item) ∈ ids) items.
Proof.
  induction items as [|item items IH]; cbn [check_tool_outputs]; [by split|]. rewrite Forall_cons.
  destruct (isToolOutputItemType (Type_ item)); cbn [negb]; [|rewrite IH; naive_solver].
  case_decide as He; [naive_solver|]. case_decide as Hi; [rewrite IH|]; naive_solver.
Qed.

(** Fact (functional): a continuation is accepted exactly when every tool output
    it brings names a call, of the history or of the request itself. *)
Theorem validateContinuationToolOutputs_spec items baseItems :
  validateContinuationToolOutputs items baseItems = Ok tt <->
  Forall (fun item => isToolOutputItemType (Type_ item) = true ->
    exists call, call ∈ baseItems ++ items /\ names_call (TrimSpace (CallID item)) call) items.
Proof.
  unfold validateContinuationToolOutputs. destruct items as [|item items]; [by split|].
  rewrite check_tool_outputs_ok. apply Forall_iff. intros x.
  rewrite elem_of_union, !collected_calls. setoid_rewrite elem_of_app. unfold names_call. naive_solver.
Qed.
