(* ===== verification/RequestProps.v ===== *)
(** * What answering a request does

    A request in a conversation extends it by its turn; a stream announces the
    response it then stores; what is stored for internal use stays hidden. *)

From S2P Require Import Prelude GoStr GoFloat GoJson JsonFacts StrFacts GoInt GoTime World Items Normalize NormProps Context Store StoreFacts StoreProps ResponseProps ConvService Compaction Compactor CompactorProps Memory MemoryProps ToolMarkup TextFormat Response LocalGen LocalProps RespService RespManage ServiceFacts ServiceProps.

(** ** Steps that send nothing *)

Definition silent {A} (m : ST sworld A) : Prop := forall w r w', m w = (r, w') -> s_events w' = s_events w.

Lemma silent_ret {A} (a : A) : silent (mret a).
Proof. by intros w r w' [= <- <-]. Qed.
Lemma silent_lift {A} (m : res A) : silent (st_lift m).
Proof. by intros w r w' [= <- <-]. Qed.
Lemma silent_err {A} e : silent (st_err (A := A) e).
Proof. by intros w r w' [= <- <-]. Qed.
Lemma silent_clock `{Clock} : silent read_clock.
Proof. by intros w r w' [= <- <-]. Qed.
Lemma silent_bind {A B} (m : ST sworld A) (f : A -> ST sworld B) : silent m -> (forall a, silent (f a)) -> silent (m ≫= f).
Proof.
  intros Hm Hf w r w'. unfold mbind, st_bind. destruct (m w) as [[a|e|] w1] eqn:E; apply Hm in E.
  - intros H1%Hf. congruence.
  - by intros [= <- <-].
  - by intros [= <- <-].
Qed.
Lemma silent_wrap {A} ctx (m : ST sworld A) : silent m -> silent (st_wrap ctx m).
Proof. intros Hm w r w'. unfold st_wrap. destruct (m w) as [r1 w1] eqn:E. intros [= <- <-]. by eapply Hm. Qed.
Lemma silent_store {A} (m : ST world A) : silent (on_store m).
Proof. intros w r w'. unfold on_store. destruct (m _) as [r1 w1]. by intros [= <- <-]. Qed.
Lemma silent_compactor {A} (m : ST cworld A) : silent (on_compactor m).
Proof. intros w r w'. unfold on_compactor. destruct (m _) as [r1 c]. by intros [= <- <-]. Qed.
Lemma silent_generator {A} (m : ST nat A) : silent (on_generator m).
Proof. intros w r w'. unfold on_generator. destruct (m _) as [r1 n]. by intros [= <- <-]. Qed.

Ltac silent :=
  repeat lazymatch goal with
    | |- silent (mbind _ _) => apply silent_bind; [|intros]
    | |- silent (mret _) => apply silent_ret
    | |- silent (st_lift _) => apply silent_lift
    | |- silent (st_err _) => apply silent_err
    | |- silent read_clock => apply silent_clock
    | |- silent (on_ids _) => apply silent_store
    | |- silent (on_store _) => apply silent_store
    | |- silent (on_compactor _) => apply silent_compactor
    | |- silent (on_generator _) => apply silent_generator
    | |- silent (st_wrap _ _) => apply silent_wrap
    | |- silent (match ?x with _ => _ end) => destruct x
    end.

(** ** The identity of a response *)

Lemma NewResponse_id `{UnicodeTable} id m t p c k : r_ID (NewResponse id m t p c k) = id.
Proof. unfold NewResponse. destruct (decide _); reflexivity. Qed.

Lemma normalizeLocal_id `{UnicodeTable} r : r_ID (normalizeLocalStructuredOutput r) = r_ID r.
Proof. unfold normalizeLocalStructuredOutput. destruct (decide _); reflexivity. Qed.

Lemma FinalizeLocalResponse_id `{MapOrder} `{UnicodeTable} tc ctx r r' :
  FinalizeLocalResponse tc ctx r = Ok r' -> r_ID r' = r_ID r.
Proof.
  unfold FinalizeLocalResponse. intros (config & _ & Hf)%res_bind_ok. apply res_bind_ok in Hf as ([] & _ & Hf).
  set (r0 := ensureLocalResponseUsage ctx _) in Hf.
  assert (Hid : r_ID r0 = r_ID r) by (unfold r0, ensureLocalResponseUsage; by destruct (r_Usage _) as [[]|]).
  clearbody r0. destruct (negb _); [injection Hf as <-; done|].
  case_decide.
  { apply res_bind_ok in Hf as ([] & _ & Hf). apply res_bind_ok in Hf as ([] & _ & [= <-]).
    by rewrite normalizeLocal_id. }
  case_decide; [|injection Hf as <-; done].
  apply res_bind_ok in Hf as ([] & _ & [= <-]). by rewrite normalizeLocal_id.
Qed.

Section request.
Context `{Sqlite} `{IdSource} `{MapOrder} `{UnicodeTable} `{RequestContext} `{TextModel} `{Generator} `{Clock}.
Context (s : ResponseService).

(** What a finished request did: it stored the response it returns. *)
Lemma completeCreate_ok prepared ctx input text w response w' :
  completeCreate s prepared ctx input text w = (Ok response, w') ->
  exists normalizedInput effectiveInput w1 w2 n n',
    EnsureItemIDs (pr_NormalizedInput prepared) n = (Ok normalizedInput, n') /\ db_of w1 = db_of w /\
    persist input (pr_Conversation prepared) (stored_response input response normalizedInput effectiveInput)
      normalizedInput (outputs response) w1 = (Ok tt, w2) /\
    same_but_memory (db_of w2) (db_of w') /\ r_ID response = pr_ResponseID prepared.
Proof.
  unfold completeCreate. intros Hb. apply st_bind_ok in Hb as (r0 & wa & [= Hf <-] & Hb).
  apply FinalizeLocalResponse_id in Hf. rewrite NewResponse_id in Hf. apply st_bind_ok in Hb as (metadata & wb & [= _ <-] & Hb).
  apply st_bind_ok in Hb as (normalizedInput & wc & Hn & Hb). pose proof (keeps_ids eq _ _ _ _ Hn) as Ec.
  apply st_bind_ok in Hb as (effectiveInput & wd & He & Hb). pose proof (keeps_ids eq _ _ _ _ He) as Ed.
  apply st_bind_ok in Hb as (output & we & Ho & Hb). pose proof (keeps_ids eq _ _ _ _ Ho) as Ee.
  apply st_bind_ok in Hb as ([] & wf & Hp & Hb). apply st_bind_ok in Hb as ([] & wg & Hc & [= <- <-]).
  apply memory_write_keeps in Hc. unfold on_ids, on_store, draw in Hn.
  destruct (EnsureItemIDs (pr_NormalizedInput prepared) (w_ids (s_world w))) as [rn n'] eqn:En.
  injection Hn as -> _.
  exists normalizedInput, effectiveInput, we, wf, (w_ids (s_world w)), n'.
  split; [done|]. split; [congruence|]. split; [exact Hp|]. split; [exact Hc|]. exact Hf.
Qed.

Lemma completeCreate_silent prepared ctx input text : silent (completeCreate s prepared ctx input text).
Proof.
  unfold completeCreate. silent. 1: unfold persist; silent.
  unfold service_captureMemoryNote, now_text. silent.
Qed.

Lemma base_items_silent input : silent (base_items s input).
Proof. unfold base_items. silent. Qed.

Lemma prepareCreate_silent input : silent (prepareCreate s input).
Proof.
  unfold prepareCreate, PrepareCreateContext, prepareResponseContext. silent.
  - apply base_items_silent.
  - unfold service_memoryContextItems, now_text. silent.
Qed.

Lemma applyAutomaticCompaction_silent input prepared : silent (applyAutomaticCompaction s input prepared).
Proof. unfold applyAutomaticCompaction. silent. Qed.

Lemma applyAutomaticCompaction_ok input p w p' w' : applyAutomaticCompaction s input p w = (Ok p', w') ->
  pr_ResponseID p' = pr_ResponseID p /\ pr_Conversation p' = pr_Conversation p /\
  pr_NormalizedInput p' = pr_NormalizedInput p.
Proof.
  unfold applyAutomaticCompaction. intros Hb. apply st_bind_ok in Hb as (threshold & wa & [= _ <-] & Hb).
  destruct threshold as [threshold|]; [|by injection Hb as <- _]. destruct (_ <=? _)%Z; [by injection Hb as <- _|].
  destruct (decide _); [by injection Hb as <- _|]. apply st_bind_ok in Hb as (result & wb & _ & Hb).
  by injection Hb as <- _.
Qed.

(** The conversation a request continues is the one it names. *)
Lemma GetConversation_id c w conv items w' : GetConversation c w = (Ok (conv, items), w') -> cv_ID conv = c.
Proof.
  unfold GetConversation. intros Hget. apply st_bind_ok in Hget as (found & wa & Hq & Hget).
  destruct found as [row|]; [|done]. apply st_bind_ok in Hget as (meta & wb & _ & Hget).
  apply st_bind_ok in Hget as (rs & wc & _ & Hget). apply st_bind_ok in Hget as (its & wd & _ & Hget).
  by injection Hget as <- <- _.
Qed.

(** The items of a request in a conversation: what its input normalizes to, with
    compactions expanded, tool outputs read with the calls of the conversation,
    and identifiers. *)
Definition canonical_items (input : CreateResponseInput) (history : list ConversationItem) (canonical : list Item) : Prop :=
  exists parsed expanded base, NormalizeInput (i_Input input) = Ok parsed /\
    ExpandSyntheticCompactionItems parsed = Ok expanded /\
    ExpandSyntheticCompactionItems (domainItemsFromConversation history) = Ok base /\
    CanonicalizeToolOutputs expanded (CollectToolCallReferences base) = Ok canonical.

Definition request_items (input : CreateResponseInput) (history : list ConversationItem) (items : list Item) : Prop :=
  exists canonical n n', canonical_items input history canonical /\ EnsureItemIDs canonical n = (Ok items, n').

Lemma prepareCreate_ok input w p w' : prepareCreate s input w = (Ok p, w') -> i_ConversationID input <> "" ->
  cv_ID (pr_Conversation p) = i_ConversationID input /\
  exists history w1, GetConversation (i_ConversationID input) (s_world w) = (Ok (pr_Conversation p, history), w1) /\
    canonical_items input history (pr_NormalizedInput p).
Proof.
  unfold prepareCreate, PrepareCreateContext. intros Hb Hc. apply st_bind_ok in Hb as (pc & wa & Hp & Hb).
  apply st_bind_ok in Hb as (id & wb & _ & Hb). apply st_bind_ok in Hb as (now & wc & _ & [= <- _]). simpl.
  unfold prepareResponseContext in Hp. destruct (_ && _); [done|]. destruct (_ && _) eqn:Hex; [done|].
  apply andb_false_iff in Hex. rewrite (bool_decide_true (i_ConversationID input <> "")) in Hex by done.
  destruct Hex as [Hprev|]; [|done]. apply bool_decide_eq_false in Hprev.
  apply st_bind_ok in Hp as (m & w1 & [= _ <-] & Hp). apply st_bind_ok in Hp as (n0 & w2 & Hn & Hp).
  cbn [orb] in Hn. apply st_bind_ok in Hn as (parsed & w2' & [= Hparsed <-] & [= Hexp <-]).
  apply st_bind_ok in Hp as ([base conv] & w3 & Hbase & Hp). apply st_bind_ok in Hp as (base' & w4 & [= Hbase' <-] & Hp).
  apply st_bind_ok in Hp as (u & w5 & _ & Hp). apply st_bind_ok in Hp as (n1 & w6 & [= Hcan <-] & Hp).
  apply st_bind_ok in Hp as (mem & w7 & _ & [= <- _]). simpl. unfold base_items in Hbase.
  rewrite decide_False, decide_True in Hbase by done.
  apply st_bind_ok in Hbase as ([conv' items] & w8 & Hget & [= <- <- _]). unfold on_store in Hget.
  destruct (GetConversation _ _) as [r1 w9] eqn:E. injection Hget as -> _.
  split; [by eapply GetConversation_id|]. exists items, w9. split; [done|]. by exists parsed, n0, base'.
Qed.
End request.


(** ** Streams *)

Lemma in_service_run {C A} (m : ST sworld A) w (c : C) r w' c' :
  in_service m (w, c) = (r, (w', c')) -> m w = (r, w') /\ c' = c.
Proof. unfold in_service. destruct (m w). by intros [= <- <- <-]. Qed.

(** A step that sends nothing fails quietly, or is followed by the next. *)
Lemma silent_service {C A B} (m : ST sworld A) (f : A -> ST (sworld * C) B) w c r w' c' : silent m ->
  (in_service m ≫= f) (w, c) = (r, (w', c')) ->
  (is_ok r = false /\ s_events w' = s_events w) \/
  exists a w1, m w = (Ok a, w1) /\ s_events w1 = s_events w /\ f a (w1, c) = (r, (w', c')).
Proof.
  intros Hm. unfold in_service, mbind, st_bind. destruct (m w) as [[a|e|] w1] eqn:E; apply Hm in E.
  - intros Hf. right. by exists a, w1.
  - intros [= <- <- <-]. by left.
  - intros [= <- <- <-]. by left.
Qed.

Lemma silent_pure {C A B} (m : res A) (f : A -> ST (sworld * C) B) w c r w' c' :
  (st_lift m ≫= f) (w, c) = (r, (w', c')) ->
  (is_ok r = false /\ s_events w' = s_events w) \/ exists a, m = Ok a /\ f a (w, c) = (r, (w', c')).
Proof.
  unfold mbind, st_bind, st_lift. destruct m as [a|e|].
  - intros Hf. right. by exists a.
  - intros [= <- <- <-]. by left.
  - intros [= <- <- <-]. by left.
Qed.

(** What a stream with both callbacks has sent when it returns [r]. *)
Definition stream_log `{UnicodeTable} (r : res Response) (sent : list event) : Prop :=
  exists created prefix text, r_Status created = "in_progress" /\
    match r with
    | Ok response => sent = [Created created prefix; Delta text] /\ r_ID created = r_ID response /\
        containsRawToolCallMarkupText text = false
    | _ => sent `prefix_of` [Created created prefix; Delta text]
    end.

Lemma stream_log_prefix `{UnicodeTable} r created prefix text sent : is_ok r = false ->
  r_Status created = "in_progress" -> sent `prefix_of` [Created created prefix; Delta text] -> stream_log r sent.
Proof. intros Hr Hs Hp. exists created, prefix, text. by destruct r. Qed.

Lemma stream_log_quiet `{UnicodeTable} r : is_ok r = false -> stream_log r [].
Proof.
  intros Hr. apply (stream_log_prefix r (set_Status "in_progress" zeroResponse) [] ""); [done..|apply prefix_nil].
Qed.

Lemma stream_log_created `{UnicodeTable} r created prefix : is_ok r = false ->
  r_Status created = "in_progress" -> stream_log r [Created created prefix].
Proof. intros Hr Hs. apply (stream_log_prefix r created prefix ""); [done..|]. by exists [Delta ""]. Qed.

Lemma hook_step {C B} e (hook : ST (nat * C) unit) (f : unit -> ST (sworld * C) B) w c r w' c' :
  (call_hook e hook ≫= f) (w, c) = (r, (w', c')) ->
  (is_ok r = false /\ s_events w' = s_events w ++ [e]) \/
  exists w1 c1, s_events w1 = s_events w ++ [e] /\ f tt (w1, c1) = (r, (w', c')).
Proof.
  unfold mbind, st_bind, call_hook. destruct (hook _) as [[[]|err|] [ids c1]];
    [|intros [= <- <- <-]; by left..]. intros Hf. right. eexists _, _. split; [|exact Hf]. done.
Qed.

Lemma generated_text `{UnicodeTable} `{Generator} model options ctx w text w' :
  on_generator (generateLocalResponseText model options ctx) w = (Ok text, w') ->
  containsRawToolCallMarkupText text = false.
Proof.
  unfold on_generator. destruct (generate_loop_spec 2 model options ctx ctx (s_calls w)) as (k & _ & _ & _ & Hrun).
  unfold generateLocalResponseText, maxLocalTextRawToolMarkupRepairRetries. rewrite Hrun. intros [= Hv _].
  unfold verdict in Hv. destruct (answer _ _ _ _ _ _) as [t| |]; try done.
  destruct (containsRawToolCallMarkupText t) eqn:Ht; [done|]. by injection Hv as <-.
Qed.

(** Fact (safety): a stream announces the response before anything is generated
    and sends its text, which shows no tool markup, before the response is
    stored; the response it then returns is the one it announced.  A stream
    that fails has sent at most these two events, in this order. *)
Theorem CreateStream_events `{Sqlite} `{IdSource} `{MapOrder} `{UnicodeTable} `{RequestContext} `{TextModel}
    `{Generator} `{Clock} {C} s input onCreated onDelta w (c : C) r w' c' :
  CreateStream s input {| OnCreated := Some onCreated; OnDelta := Some onDelta |} (w, c) = (r, (w', c')) ->
  exists sent, s_events w' = s_events w ++ sent /\ stream_log r sent.
Proof.
  pose proof (stream_log_quiet r) as Hquiet.
  unfold CreateStream. cbn [OnCreated OnDelta]. intros Hb.
  apply silent_service in Hb as [[Hr He]|(p & wa & _ & Ea & Hb)]; [exists []; rewrite app_nil_r; auto| |apply prepareCreate_silent].
  apply silent_service in Hb as [[Hr He]|(p' & wb & Hp & Eb & Hb)];
    [exists []; rewrite app_nil_r, He; auto| |apply applyAutomaticCompaction_silent].
  apply silent_pure in Hb as [[Hr He]|([ctx b] & _ & Hb)];
    [exists []; rewrite app_nil_r; split; [congruence|auto]|].
  apply silent_pure in Hb as [[Hr He]|(config & _ & Hb)];
    [exists []; rewrite app_nil_r; split; [congruence|auto]|].
  apply silent_pure in Hb as [[Hr He]|(metadata & _ & Hb)];
    [exists []; rewrite app_nil_r; split; [congruence|auto]|].
  set (created := created_response p' input config metadata) in Hb.
  assert (Hst : r_Status created = "in_progress") by reflexivity.
  assert (Hcid : r_ID created = pr_ResponseID p') by reflexivity. clearbody created.
  set (announced := Created created (pr_OutputPrefix p')) in Hb.
  apply hook_step in Hb as [[Hr He]|(wf & cf & Ef & Hb)].
  { exists [announced]. split; [congruence|by apply stream_log_created]. }
  apply silent_service in Hb as [[Hr He]|(text & wg & Hg & Eg & Hb)]; [| |apply silent_generator].
  { exists [announced]. split; [congruence|by apply stream_log_created]. }
  apply generated_text in Hg. destruct (decide _).
  { injection Hb as <- <- <-. exists [announced]. split; [congruence|by apply stream_log_created]. }
  apply hook_step in Hb as [[Hr He]|(wh & cd & Eh & Hb)].
  { exists [announced; Delta text]. split; [rewrite He, Eg, Ef, <-app_assoc; simpl; congruence|].
    eapply (stream_log_prefix r created (pr_OutputPrefix p') text); [done..|]. done. }
  apply in_service_run in Hb as [Hb ->]. exists [announced; Delta text].
  pose proof (completeCreate_silent _ _ _ _ _ _ _ _ Hb) as Ei.
  split; [rewrite Ei, Eh, Eg, Ef, <-app_assoc; simpl; congruence|].
  exists created, (pr_OutputPrefix p'), text. split; [done|]. destruct r as [response|e|]; [|done..].
  split; [done|]. split; [|done]. apply completeCreate_ok in Hb as (? & ? & ? & ? & ? & ? & _ & _ & _ & _ & Hid).
  congruence.
Qed.

(** ** Shadow responses *)

(** C39 (safety): a response stored only for continuation (its store flag is
    off) can be continued, but it can be neither read, nor its input listed,
    nor deleted by a client; a public response is not removed by the deletion
    of shadows. *)
Theorem shadow_responses_hidden `{Sqlite} `{IdSource} `{MapOrder} `{UnicodeTable} `{RequestContext} `{TextModel}
    `{Generator} `{Clock} s id row stored w : (forall n, stmt_fails n = false) -> id <> "" -> TrimSpace id = id ->
  responses (db_of w) !! id = Some row -> scanStoredResponse id row = Ok stored ->
  if sr_Store stored then
    exists w', DeleteShadowResponse id w = (Ok tt, w') /\ db_of w' = db_of w
  else
    (GetStored id w).1 = Err ESvcNotFound /\ (GetInputItems s id w).1 = Err ESvcNotFound /\
    (Delete id w).1 = Err ESvcNotFound /\ db_of (Delete id w).2 = db_of w /\ (HasPreviousResponse id w).1 = Ok true.
Proof.
  intros Hnf Hid Htrim Hrow Hscan.
  assert (Hget : exists w1, on_store (GetResponse id) w = (Ok stored, w1) /\ db_of w1 = db_of w).
  { unfold on_store, GetResponse, mbind, st_bind, st_lift. rewrite select_response_run by done.
    change (w_db (s_world w)) with (db_of w). rewrite Hrow, Hscan. eexists. split; reflexivity. }
  destruct Hget as (w1 & Hget & Hdb). destruct (sr_Store stored) eqn:Hst.
  - exists w1. unfold DeleteShadowResponse. rewrite Htrim, decide_False by done.
    split; [|done]. unfold ignore_not_found, mbind, st_bind, mret, st_ret. rewrite Hget. by rewrite Hst.
  - unfold GetStored, GetInputItems, Delete, HasPreviousResponse. rewrite !decide_False by done.
    unfold mbind, st_bind, mret, st_ret. rewrite Hget, Hst. done.
Qed.

Section demo.
#[local] Existing Instances reliable zeros_ids sorted_order ascii_only never_cancelled chatty demo_clock demo_generator.

Definition conversation_start : sworld :=
  {| s_world := demo_world; s_checks := 0; s_calls := 0; s_clock := 0; s_events := [] |}.

Definition conversation_run : res Response * sworld :=
  Create demo_service (demo_request (sq "'three'") "" "conv_1" None) conversation_start.


Definition both_hooks : StreamHooks unit :=
  {| OnCreated := Some (fun _ _ => mret tt); OnDelta := Some (fun _ => mret tt) |}.

Lemma CreateStream_events_witness :
  let '(r, (w', _)) := CreateStream demo_service (demo_request (sq "'hi'") "" "" None) both_hooks (demo_start, tt) in
  exists sent, s_events w' = s_events demo_start ++ sent /\ stream_log r sent.
Proof.
  destruct (CreateStream demo_service (demo_request (sq "'hi'") "" "" None) both_hooks (demo_start, tt)) as [r [w' c']] eqn:E.
  by apply CreateStream_events in E.
Defined.

(** A response that continues another and is not to be stored is kept as a shadow. *)
Definition shadow_run : res Response * sworld :=
  Create demo_service (demo_request (sq "'more'") "resp_" "" (Some false))
    (Create demo_service (demo_request (sq "'hi'") "" "" None) demo_start).2.

Lemma shadow_responses_hidden_witness :
  (GetStored "resp_000" shadow_run.2).1 = Err ESvcNotFound /\ (HasPreviousResponse "resp_000" shadow_run.2).1 = Ok true.
Proof.
  destruct (responses (db_of shadow_run.2) !! "resp_000") as [row|] eqn:Hrow; [|vm_compute in Hrow; discriminate Hrow].
  destruct (scanStoredResponse "resp_000" row) as [stored|e|] eqn:Hscan.
  2, 3: vm_compute in Hrow; injection Hrow as <-; vm_compute in Hscan; discriminate Hscan.
  pose proof (shadow_responses_hidden demo_service "resp_000" row stored shadow_run.2 (fun _ => eq_refl)
                ltac:(done) eq_refl Hrow Hscan) as Hs.
  assert (Hst : sr_Store stored = false).
  { vm_compute in Hrow. injection Hrow as <-. vm_compute in Hscan. by injection Hscan as <-. }
  rewrite Hst in Hs. destruct Hs as (H1 & _ & _ & _ & H2). exact (conj H1 H2).
Defined.
End demo.
