(* ===== verification/StreamingProps.v ===== *)
(** * What a streamed response sends

    The events of a stream follow one another in the order of the API, name the
    same response and the same item, and end in one of a few ways; what was
    written is their text, or the beginning of it when the connection breaks or
    the handler panics. *)

From S2P Require Import Prelude GoStr GoFloat GoJson JsonFacts StrFacts GoInt GoTime World Items Normalize NormProps Context Store StoreProps ConvService Compaction Compactor CompactorProps Memory ToolMarkup TextFormat Response LocalGen RespService RespManage ApiErrors ApiErrorProps Sse SseProps Streaming ServiceFacts ServiceProps RequestProps.

(** ** What an emitter has sent *)

Definition frames (obfuscate : bool) (xs : list emission) : string :=
  sconcat (map (fun f => event_text f.1 f.2) (numbered obfuscate 1 xs)).

Definition sent (obfuscate : bool) (xs : list emission) (e : responseStreamEmitter) : Prop :=
  em_includeObfuscation e = obfuscate /\ em_seq e = Z.of_nat (length xs) /\ em_written e = frames obfuscate xs.

Lemma numbered_app obfuscate seq xs ys :
  numbered obfuscate seq (xs ++ ys) = numbered obfuscate seq xs ++ numbered obfuscate (seq + Z.of_nat (length xs)) ys.
Proof.
  revert seq. induction xs as [|x xs IH]; intros seq; simpl; [by rewrite Z.add_0_r|].
  f_equal. rewrite IH. do 2 f_equal. lia.
Qed.

Lemma sent_emitted obfuscate xs x e : sent obfuscate xs e -> sent obfuscate (xs ++ [x]) (emitted x e).
Proof.
  intros (Ho & Hs & Hw). unfold sent, emitted. cbn [em_includeObfuscation em_seq em_written].
  split; [done|]. split; [rewrite Hs, length_app; simpl; lia|].
  rewrite Hw, Ho, Hs. unfold frames. rewrite numbered_app, map_app, sconcat_app. simpl.
  rewrite sapp_nil_r. do 3 f_equal. lia.
Qed.

Lemma sent_new `{Writer} obfuscate e : newResponseStreamEmitter obfuscate = Ok e -> sent obfuscate [] e.
Proof. unfold newResponseStreamEmitter. destruct is_flusher; [|done]. by intros [= <-]. Qed.

Lemma modify_bind {C B} (f : C -> C) (k : unit -> ST (nat * C) B) ids c : (modify f ≫= k) (ids, c) = k tt (ids, f c).
Proof. done. Qed.

Lemma with_ids_bind {C A B} (m : ST nat A) (k : A -> ST (nat * C) B) ids c :
  (with_ids m ≫= k) (ids, c) =
  match m ids with
  | (Ok a, n) => k a (n, c)
  | (Err e, n) => (Err e, (n, c))
  | (Panic, n) => (Panic, (n, c))
  end.
Proof. unfold mbind, st_bind, with_ids. by destruct (m ids) as [[] ?]. Qed.

(** A writer that failed once accepts nothing more. *)
Definition lasting `{Writer} : Prop := forall n k m, write_fails n = Some k -> n < m -> write_fails m = Some 0.

Definition broken `{Writer} (e : responseStreamEmitter) : Prop := exists n k, n < em_writes e /\ write_fails n = Some k.

Definition begins (text whole : string) : Prop := exists rest, whole = text +:+ rest.

Lemma begins_more text whole more : begins text whole -> begins text (whole +:+ more).
Proof. intros [rest ->]. exists (rest +:+ more). by rewrite sapp_assoc. Qed.

Lemma frames_more obfuscate xs ys : exists more, frames obfuscate (xs ++ ys) = frames obfuscate xs +:+ more.
Proof. unfold frames. rewrite numbered_app, map_app, sconcat_app. eauto. Qed.

Lemma begins_frames text obfuscate xs ys : begins text (frames obfuscate xs) -> begins text (frames obfuscate (xs ++ ys)).
Proof. destruct (frames_more obfuscate xs ys) as [more ->]. apply begins_more. Qed.

Lemma sent_begins obfuscate xs e : sent obfuscate xs e -> begins (em_written e) (frames obfuscate xs).
Proof. intros (_ & _ & ->). exists "". by rewrite sapp_nil_r. Qed.

(** [m] sends [xs]; or it is stopped on the way, by a panic or because the
    connection broke. *)
Section sends.
Context `{Writer}.
Hypothesis writer_lasting : lasting.

Definition stopped {A} (r : res A) (obfuscate : bool) (xs : list emission) (e : responseStreamEmitter) : Prop :=
  is_ok r = false /\ begins (em_written e) (frames obfuscate xs) /\ (r = Panic \/ broken e).

Definition sends (m : ST responseStreamEmitter unit) (xs : list emission) : Prop :=
  forall obfuscate before e r e', sent obfuscate before e -> m e = (r, e') ->
    (r = Ok tt /\ sent obfuscate (before ++ xs) e') \/ stopped r obfuscate (before ++ xs) e'.

Lemma stopped_more {A} (r : res A) obfuscate xs ys e : stopped r obfuscate xs e -> stopped r obfuscate (xs ++ ys) e.
Proof. intros (Hr & Hb & Hp). split; [done|]. split; [by apply begins_frames|done]. Qed.

Lemma stopped_as {A B} (r1 : res A) (r : res B) obfuscate xs e : is_ok r = false -> (r1 = Panic -> r = Panic) ->
  stopped r1 obfuscate xs e -> stopped r obfuscate xs e.
Proof. intros Hr Hp (_ & Hb & Hs). split; [done|]. split; [done|]. destruct Hs as [Hs|Hs]; [left; auto|by right]. Qed.

Lemma panic_stopped {A} obfuscate xs ys e : sent obfuscate xs e -> stopped (Panic : res A) obfuscate (xs ++ ys) e.
Proof. intros Hs%sent_begins. split; [done|]. split; [by apply begins_frames|by left]. Qed.

Lemma fprint_lost text e r e' : broken e -> fprint text e = (r, e') -> em_written e' = em_written e /\ broken e' /\ r <> Ok tt.
Proof.
  intros (n & k & Hn & Hk). unfold fprint. rewrite (writer_lasting n k _ Hk Hn). intros [= <- <-]. cbn [em_written em_writes].
  replace (stake 0 text) with "" by (by destruct text). rewrite sapp_nil_r. split; [done|]. split; [|done]. exists n, k. split; [simpl; lia|done].
Qed.

Lemma fprint_outcome text e r e' : fprint text e = (r, e') ->
  (r = Ok tt /\ e' = {| em_seq := em_seq e; em_includeObfuscation := em_includeObfuscation e; em_written := em_written e +:+ text;
                        em_writes := S (em_writes e) |}) \/
  ((exists err, r = Err err) /\ begins (em_written e') (em_written e +:+ text) /\ broken e').
Proof.
  unfold fprint. destruct (write_fails (em_writes e)) as [n|] eqn:E; intros [= <- <-]; [right|by left]. split; [eauto|]. split.
  - exists (sdrop n text). cbn [em_written]. by rewrite sapp_assoc, stake_sdrop.
  - exists (em_writes e), n. split; [simpl; lia|done].
Qed.

Lemma write_outcome type payload e r e' : write type payload e = (r, e') ->
  (r = Ok tt /\ e' = {| em_seq := em_seq e; em_includeObfuscation := em_includeObfuscation e;
                        em_written := em_written e +:+ event_text type payload; em_writes := S (S (em_writes e)) |}) \/
  ((exists err, r = Err err) /\ begins (em_written e') (em_written e +:+ event_text type payload) /\ broken e').
Proof.
  unfold write. cbv zeta. rewrite st_bind_eq. destruct (fprint _ e) as [r1 e1] eqn:E1.
  apply fprint_outcome in E1 as [[-> ->]|(Hr & Hb & Hbr)].
  - intros [[-> ->]|(Hr & Hb & Hbr)]%fprint_outcome; [left|right]; cbn [em_seq em_includeObfuscation em_written em_writes] in *.
    + split; [done|]. f_equal. unfold event_text. by rewrite !sapp_assoc.
    + split; [done|]. split; [|done]. unfold event_text. rewrite !sapp_assoc in Hb. rewrite ?sapp_assoc. exact Hb.
  - intros Hm. right. assert ((exists err, r = Err err) /\ e' = e1) as [Hr' ->] by (destruct Hr as [err ->]; injection Hm as <- <-; eauto).
    split; [done|]. split; [|done]. unfold event_text. apply (begins_more _ _ ("data: " +:+ jprint payload +:+ line_feed +:+ line_feed)) in Hb.
    rewrite !sapp_assoc in Hb. rewrite ?sapp_assoc. exact Hb.
Qed.

(** A call of the emitter is a write. *)
Definition counted (e : responseStreamEmitter) : responseStreamEmitter :=
  {| em_seq := em_seq e + 1; em_includeObfuscation := em_includeObfuscation e; em_written := em_written e; em_writes := em_writes e |}.

Lemma emission_write x e : emission_runs x ->
  emission_call x e = write (emission_type x) (emission_payload (em_includeObfuscation e) x (em_seq e + 1)) (counted e).
Proof.
  intros Hx. destruct x; simpl in Hx; unfold emission_call, responseCreated, responseInProgress, outputItemAddedMessage,
    outputItemAddedAt, contentPartAddedAt, outputTextDeltaAt, outputTextDoneAt, contentPartDoneAt, outputItemDoneAt,
    responseCompleted, emit_error; try (destruct (Map item) as [payload|] eqn:Em; [|done]);
    unfold nextSequence, st_get; rewrite ?st_bind_eq; cbv beta iota; rewrite ?st_bind_eq; try reflexivity.
  unfold emission_payload, emission_fields. rewrite Em. reflexivity.
Qed.

Lemma sends_nil : sends (mret tt) [].
Proof. intros o before e r e' Hs [= <- <-]. left. by rewrite app_nil_r. Qed.

Lemma sends_call x : sends (emission_call x) [x].
Proof.
  intros o before e r e' Hs Hm. destruct (decide (emission_runs x)) as [Hr|Hr].
  - rewrite emission_write in Hm by done. pose proof (sent_emitted _ _ x _ Hs) as Hs'. apply write_outcome in Hm as [[-> ->]|(Hr' & Hb & Hbr)].
    + left. split; [done|]. exact Hs'.
    + right. split; [by destruct Hr' as [err ->]|]. split; [|by right]. destruct Hs' as (_ & _ & <-). exact Hb.
  - destruct x; simpl in Hr; try done. unfold emission_call, outputItemDoneAt in Hm.
    destruct (Map item); [by destruct Hr|]. injection Hm as <- <-. right. by apply panic_stopped.
Qed.

Lemma sends_bind m f xs ys : sends m xs -> (sends (f tt) ys) -> sends (m ≫= f) (xs ++ ys).
Proof.
  intros Hm Hf o before e r e' Hs. unfold mbind, st_bind. destruct (m e) as [r1 e1] eqn:E.
  destruct (Hm o before e r1 e1 Hs E) as [[-> H1]|H1].
  - intros H2. rewrite app_assoc. by eapply Hf.
  - intros H2. right. rewrite app_assoc. apply stopped_more. destruct r1; [by destruct H1|..]; injection H2 as <- <-; exact H1.
Qed.

(** An error that is sent over a broken connection does not arrive. *)
Lemma error_lost payload e r e' : broken e -> emission_call (EmError payload) e = (r, e') -> em_written e' = em_written e /\ broken e'.
Proof.
  intros Hb. rewrite emission_write by done. unfold write. cbv zeta. rewrite st_bind_eq. destruct (fprint _ _) as [r1 e1] eqn:E1.
  apply fprint_lost in E1 as (Hw & Hb1 & Hr1); [|exact Hb]. destruct r1 as [[]|err|]; [done|..]; intros [= <- <-]; done.
Qed.

(** ** The items before the message *)

Definition prefix_events (index : nat) (item : Item) : list emission :=
  let id := TrimSpace (ID item) in
  [EmItemAdded (Z.of_nat index) (if decide (id = "") then Map item else am_insert "id" (GStr id) <$> Map item);
   EmItemDone id item (Z.of_nat index)].

Fixpoint prefix_trace (index : nat) (items : list Item) : list emission :=
  match items with [] => [] | item :: items => prefix_events index item ++ prefix_trace (S index) items end.

Lemma sends_prefix_item index item :
  sends (emitResponseStreamPrefixItem (Z.of_nat index) item) (prefix_events index item).
Proof.
  assert (Hgo : forall payload m, payload = map_json m ->
    sends (mret payload ≫= fun payload => outputItemAddedAt (Z.of_nat index) payload ≫=
             fun _ => outputItemDoneAt (TrimSpace (ID item)) item (Z.of_nat index))
      [EmItemAdded (Z.of_nat index) m; EmItemDone (TrimSpace (ID item)) item (Z.of_nat index)]).
  { intros payload m ->. apply (sends_bind _ _ [_] [_]); [exact (sends_call (EmItemAdded _ m))|].
    exact (sends_call (EmItemDone _ item _)). }
  unfold emitResponseStreamPrefixItem, prefix_events. cbv zeta. destruct (decide _) as [Hi|Hi]; [by apply Hgo|].
  destruct (Map item) as [m|]; [by apply Hgo|]. intros o before e r e' Hs [= <- <-]. right. by apply panic_stopped.
Qed.

Lemma sends_prefix index items : sends (emit_prefix index items) (prefix_trace index items).
Proof.
  revert index. induction items as [|item items IH]; intros index; [apply sends_nil|].
  apply sends_bind; [apply sends_prefix_item|apply IH].
Qed.

(** ** The client *)

Definition opening (created : Response) (outputPrefix : list Item) (itemID : string) : list emission :=
  [EmCreated created] ++ [EmInProgress created] ++ prefix_trace 0 outputPrefix ++
  [EmMessageAdded itemID (Z.of_nat (length outputPrefix))] ++ [EmPartAdded itemID (Z.of_nat (length outputPrefix))].

Lemma on_emitter_sends m xs obfuscate before c e ids r ids' c' : sends m xs ->
  cl_emitter c = Some e -> sent obfuscate before e -> on_emitter m (ids, c) = (r, (ids', c')) ->
  ids' = ids /\ exists e', c' = set_emitter e' c /\
    ((r = Ok tt /\ sent obfuscate (before ++ xs) e') \/ stopped r obfuscate (before ++ xs) e').
Proof.
  intros Hm He Hs. unfold on_emitter. rewrite He. destruct (m e) as [r1 e1] eqn:E. intros [= <- <- <-]. eauto.
Qed.

Definition halted {A} (r : res A) (obfuscate : bool) (xs : list emission) (c : stream_client) : Prop :=
  exists e, cl_emitter c = Some e /\ stopped r obfuscate xs e.

Lemma emitter_step {B} m xs obfuscate before c e ids (f : unit -> ST (nat * stream_client) B) r ids' c' : sends m xs ->
  cl_emitter c = Some e -> sent obfuscate before e -> (on_emitter m ≫= f) (ids, c) = (r, (ids', c')) ->
  (exists e', sent obfuscate (before ++ xs) e' /\ f tt (ids, set_emitter e' c) = (r, (ids', c'))) \/
  halted r obfuscate (before ++ xs) c'.
Proof.
  intros Hm He Hs. unfold mbind, st_bind. destruct (on_emitter m (ids, c)) as [r1 [ids1 c1]] eqn:E.
  eapply on_emitter_sends in E as (-> & e1 & -> & H1); [|done..]. destruct H1 as [[-> H1]|H1]; [left; eauto|].
  intros Hr. right. destruct r1; [by destruct H1|..]; injection Hr as <- <- <-; exists e1; (split; [done|]);
    by eapply stopped_as; [..|exact H1].
Qed.

(** The client before the stream was announced, and after. *)
Definition unannounced (obfuscate : bool) (c : stream_client) : Prop :=
  forall e, cl_emitter c = Some e -> sent obfuscate [] e.

Definition client_of (created : Response) (outputPrefix : list Item) (itemID : string) (e : responseStreamEmitter)
    : stream_client :=
  {| cl_emitter := Some e; cl_responseID := r_ID created; cl_itemID := itemID;
     cl_messageOutputIndex := length outputPrefix |}.

Lemma halted_more {A} (r : res A) obfuscate xs whole c ys : halted r obfuscate xs c -> whole = xs ++ ys -> halted r obfuscate whole c.
Proof. intros (e & He & Hs) ->. exists e. split; [done|]. by apply stopped_more. Qed.

Lemma on_created_spec `{IdSource} obfuscate created outputPrefix ids r ids' c' :
  on_created obfuscate created outputPrefix (ids, new_client) = (r, (ids', c')) ->
  (is_ok r = false /\ unannounced obfuscate c') \/
  exists prefix' itemID, halted r obfuscate (opening created prefix' itemID) c' \/
  (r = Ok tt /\ exists e, c' = client_of created prefix' itemID e /\ sent obfuscate (opening created prefix' itemID) e).
Proof.
  unfold on_created. rewrite st_bind_eq. unfold st_lift. destruct (newResponseStreamEmitter obfuscate) as [e0|err|] eqn:E0;
    [|intros [= <- <- <-]; by left..].
  apply sent_new in E0. rewrite !modify_bind, with_ids_bind.
  destruct (EnsureItemIDs outputPrefix ids) as [[prefix'|err|] n'] eqn:Ep;
    [|intros [= <- <- <-]; left; (split; [done|]); by intros e [= <-]..].
  rewrite with_ids_bind. destruct (NewPrefixedID "msg" n') as [[itemID|err|] n2] eqn:Ei;
    [|intros [= <- <- <-]; left; (split; [done|]); by intros e [= <-]..].
  rewrite modify_bind. intros Hb. right. exists prefix', itemID.
  assert (Hstop : forall xs ys, opening created prefix' itemID = xs ++ ys -> halted r obfuscate xs c' ->
    halted r obfuscate (opening created prefix' itemID) c') by (intros; by eapply halted_more).
  eapply (emitter_step _ [EmCreated created] obfuscate []) in Hb as [(e1 & H1 & Hb)|Hb];
    [|left; by eapply Hstop; [|exact Hb]|exact (sends_call (EmCreated created))|done..].
  eapply (emitter_step _ [EmInProgress created]) in Hb as [(e2 & H2 & Hb)|Hb];
    [| |exact (sends_call (EmInProgress created))|done|exact H1]; [|left; by eapply Hstop; [|exact Hb]].
  eapply (emitter_step _ (prefix_trace 0 prefix')) in Hb as [(e3 & H3 & Hb)|Hb];
    [| |exact (sends_prefix 0 prefix')|done|exact H2]; [|left; by eapply Hstop; [|exact Hb]].
  rewrite modify_bind in Hb.
  eapply emitter_step in Hb as [(e4 & H4 & Hb)|Hb]; [| |exact (sends_call (EmMessageAdded _ _))|done|exact H3];
    [|left; eapply Hstop; [|exact Hb]; unfold opening; rewrite <-!app_assoc; reflexivity].
  eapply on_emitter_sends in Hb as (-> & e5 & -> & Hb); [|exact (sends_call (EmPartAdded _ _))|done|exact H4].
  replace (_ ++ [EmPartAdded _ _]) with (opening created prefix' itemID) in Hb by (unfold opening; by rewrite <-!app_assoc).
  destruct Hb as [[-> Hb]|Hb]; [right; eauto|left]. by eexists.
Qed.

Lemma on_delta_spec created outputPrefix itemID e obfuscate xs text ids r ids' c' : sent obfuscate xs e ->
  on_delta text (ids, client_of created outputPrefix itemID e) = (r, (ids', c')) ->
  exists e', c' = client_of created outputPrefix itemID e' /\
    let ys := xs ++ [EmDelta (r_ID created) itemID (Z.of_nat (length outputPrefix)) text] in
    ((r = Ok tt /\ sent obfuscate ys e') \/ stopped r obfuscate ys e').
Proof.
  intros Hs Hd. eapply on_emitter_sends in Hd as (-> & e' & -> & Hd); [|exact (sends_call (EmDelta _ _ _ _))|done..]. by exists e'.
Qed.

(** ** The end of a stream *)

Definition closing (responseID itemID : string) (index : nat) (response : Response) (item : Item) (text : string)
    : list emission :=
  [EmTextDone responseID itemID (Z.of_nat index) text] ++ [EmPartDone itemID (Z.of_nat index) text] ++
  [EmItemDone itemID item (Z.of_nat index)] ++ [EmCompleted response].

Lemma finish_stream_spec responseID itemID index response item text obfuscate xs e r e' : sent obfuscate xs e ->
  finish_stream responseID itemID index response item text e = (r, e') ->
  let whole := frames obfuscate (xs ++ closing responseID itemID index response item text) +:+ done_text in
  (r = Ok tt /\ em_written e' = whole) \/ (begins (em_written e') whole /\ (r = Panic \/ broken e')).
Proof.
  intros Hs. unfold finish_stream. cbv zeta.
  assert (Hc : sends (outputTextDoneAt responseID itemID (Z.of_nat index) text ≫= fun _ =>
      contentPartDoneAt itemID (Z.of_nat index) text ≫= fun _ =>
      outputItemDoneAt itemID item (Z.of_nat index) ≫= fun _ => responseCompleted response)
      (closing responseID itemID index response item text)).
  { apply sends_bind; [exact (sends_call (EmTextDone _ _ _ _))|]. apply sends_bind; [exact (sends_call (EmPartDone _ _ _))|].
    apply sends_bind; [exact (sends_call (EmItemDone _ _ _))|exact (sends_call (EmCompleted _))]. }
  specialize (Hc obfuscate xs e). destruct (outputTextDoneAt responseID itemID (Z.of_nat index) text ≫= _) as [r1 e1].
  destruct (Hc r1 e1 Hs eq_refl) as [[-> H1]|(Hr & Hb & Hp)].
  - unfold emit_done. intros Hd. destruct H1 as (_ & _ & Hw). apply fprint_outcome in Hd as [[-> ->]|(Hr & Hb & Hbr)].
    + left. split; [done|]. cbn [em_written]. by rewrite Hw.
    + right. rewrite Hw in Hb. by split; [|right].
  - apply (begins_more _ _ done_text) in Hb. destruct r1 as [u|err|]; [done|..]; intros [= <- <-]; right; (split; [done|]).
    + by destruct Hp; [|right].
    + by left.
Qed.

Lemma normalizeForStreaming_id `{UnicodeTable} `{IdSource} response preferred n response' n' :
  normalizeResponseForStreaming response preferred n = (Ok response', n') -> r_ID response' = r_ID response.
Proof.
  unfold normalizeResponseForStreaming. destruct (responseReplayOutputItems response) as [|i items]; [by intros [= <- _]|].
  intros (out & n1 & _ & Hb)%st_bind_ok. apply st_bind_ok in Hb as (out' & n2 & _ & [= <- _]).
  destruct out'; [done|]. by case_decide.
Qed.

(** The text a stream ends with. *)
Definition final_text (response : Response) (item : Item) : string :=
  if decide (TrimSpace (r_OutputText response) = "") then MessageText item else r_OutputText response.

Lemma stream_completed_spec `{IdSource} `{UnicodeTable} created outputPrefix itemID e obfuscate xs response ids r ids' c' :
  sent obfuscate xs e -> stream_completed response (ids, client_of created outputPrefix itemID e) = (r, (ids', c')) ->
  (is_ok r = false /\ c' = client_of created outputPrefix itemID e) \/
  exists response' item e', c' = client_of created outputPrefix itemID e' /\
     r_ID response' = r_ID response /\ outputs response' !! length outputPrefix = Some item /\
     let whole := frames obfuscate (xs ++ closing (r_ID created) itemID (length outputPrefix) response' item
                                               (final_text response' item)) +:+ done_text in
     ((r = Ok tt /\ em_written e' = whole) \/ (begins (em_written e') whole /\ (r = Panic \/ broken e'))).
Proof.
  intros Hs. unfold stream_completed. cbn [snd client_of cl_messageOutputIndex cl_itemID cl_responseID]. rewrite with_ids_bind.
  destruct (normalizeResponseForStreaming response _ ids) as [[response'|err|] n] eqn:En;
    [|intros [= <- <- <-]; auto..].
  apply normalizeForStreaming_id in En. destruct (outputs response' !! length outputPrefix) as [item|] eqn:Ei;
    [|intros [= <- <- <-]; auto].
  unfold on_emitter, client_of at 1. cbn [cl_emitter].
  fold (final_text response' item).
  destruct (finish_stream (r_ID created) itemID (length outputPrefix) response' item (final_text response' item) e)
    as [r1 e1] eqn:Ef. intros [= <- <- <-]. right. exists response', item, e1. split_and!; [done..|].
  by eapply finish_stream_spec in Ef.
Qed.

(** After a failure the client gets an error; over a broken connection, nothing. *)
Lemma stream_failed_spec `{LibraryText} err obfuscate xs ids c r ids' c' :
  (forall e, cl_emitter c = Some e -> sent obfuscate xs e) -> stream_failed err (ids, c) = (r, (ids', c')) ->
  forall e, cl_emitter c' = Some e -> exists error, let whole := frames obfuscate (xs ++ option_list (EmError <$> error)) in
    em_written e = whole \/ (begins (em_written e) whole /\ broken e).
Proof.
  intros Hs. assert (Hsame : forall e, cl_emitter c = Some e -> exists error, let whole := frames obfuscate (xs ++ option_list (EmError <$> error)) in
    em_written e = whole \/ (begins (em_written e) whole /\ broken e)).
  { intros e He. exists None. left. simpl. rewrite app_nil_r. by destruct (Hs e He) as (_ & _ & ?). }
  unfold stream_failed. destruct (errors_is ECanceled err); [intros [= <- <- <-]; auto|].
  cbn [snd]. destruct (cl_emitter c) as [e0|] eqn:Ee; [|intros [= <- <- <-]; rewrite Ee; auto].
  destruct (on_emitter _ (ids, c)) as [r1 [ids1 c1]] eqn:Eo. unfold on_emitter in Eo. rewrite Ee in Eo.
  destruct (emit_error _ e0) as [r2 e2] eqn:E2. injection Eo as <- <- <-.
  intros Hr e He. exists (Some (MapError (Some err)).2). assert (e = e2) as ->.
  { destruct r2; injection Hr as _ _ <-; by injection He. }
  destruct (sends_call (EmError _) _ _ _ _ _ (Hs e0 eq_refl) E2) as [[_ (_ & _ & Hw)]|(Hr2 & Hb & Hp)]; [by left|right].
  split; [done|]. destruct Hp as [->|?]; [|done]. exfalso. change (emit_error (MapError (Some err)).2 e0) with (emission_call (EmError (MapError (Some err)).2) e0) in E2.
  rewrite emission_write in E2 by done. by apply write_outcome in E2 as [[? _]|([err' ?] & _ & _)].
Qed.

Lemma stream_failed_lost `{LibraryText} err ids c e r ids' c' : cl_emitter c = Some e -> broken e ->
  stream_failed err (ids, c) = (r, (ids', c')) -> exists e', cl_emitter c' = Some e' /\ em_written e' = em_written e /\ broken e'.
Proof.
  intros He Hb. unfold stream_failed. destruct (errors_is ECanceled err); [intros [= <- <- <-]; eauto|]. cbn [snd]. rewrite He.
  unfold on_emitter. rewrite He. destruct (emit_error _ e) as [r2 e2] eqn:E2. apply (error_lost _ e) in E2 as Hw; [|done].
  intros Hr. exists e2. split; [|done]. destruct r2; by injection Hr as _ _ <-.
Qed.
End sends.

(** ** The phases of a stream *)

Section phases.
Context `{Sqlite} `{IdSource} `{MapOrder} `{UnicodeTable} `{RequestContext} `{TextModel} `{Generator} `{Clock}.
Context {C : Type} (onCreated : Response -> list Item -> ST (nat * C) unit) (onDelta : string -> ST (nat * C) unit).

Definition failed_like {A B} (r1 : res A) (r : res B) : Prop :=
  is_ok r1 = false /\ is_ok r = false /\ (r1 = Panic -> r = Panic).

(** Not announced; announced, and no text; a text, and then the answer. *)
Definition stream_phases (c : C) (r : res Response) (c' : C) : Prop :=
  (is_ok r = false /\ c' = c) \/
  exists created outputPrefix ids r1 ids1 c1, r_Status created = "in_progress" /\
    onCreated created outputPrefix (ids, c) = (r1, (ids1, c1)) /\
    ((failed_like r1 r /\ c' = c1) \/
     (r1 = Ok tt /\
      ((is_ok r = false /\ c' = c1) \/
       exists text ids2 r2 ids3, onDelta text (ids2, c1) = (r2, (ids3, c')) /\
         (failed_like r2 r \/ (r2 = Ok tt /\ forall response, r = Ok response -> r_ID response = r_ID created))))).

Lemma service_bind {A B} (m : ST sworld A) (f : A -> ST (sworld * C) B) w c r w' c' :
  (in_service m ≫= f) (w, c) = (r, (w', c')) ->
  (is_ok r = false /\ c' = c) \/ exists a w1, m w = (Ok a, w1) /\ f a (w1, c) = (r, (w', c')).
Proof.
  unfold in_service, mbind, st_bind. destruct (m w) as [[a|e|] w1]; [eauto| |]; intros [= <- <- <-]; auto.
Qed.

Lemma lift_bind {A B} (m : res A) (f : A -> ST (sworld * C) B) w c r w' c' :
  (st_lift m ≫= f) (w, c) = (r, (w', c')) ->
  (is_ok r = false /\ c' = c) \/ exists a, m = Ok a /\ f a (w, c) = (r, (w', c')).
Proof. unfold mbind, st_bind, st_lift. destruct m as [a|e|]; [eauto| |]; intros [= <- <- <-]; auto. Qed.

Lemma hook_bind {B} ev hook (f : unit -> ST (sworld * C) B) w c r w' c' :
  (call_hook ev hook ≫= f) (w, c) = (r, (w', c')) ->
  exists r1 ids1 c1, hook (w_ids (s_world w), c) = (r1, (ids1, c1)) /\
    ((failed_like r1 r /\ c' = c1) \/ (r1 = Ok tt /\ exists w1, f tt (w1, c1) = (r, (w', c')))).
Proof.
  unfold call_hook, mbind, st_bind. destruct (hook _) as [r1 [ids1 c1]]. intros Hb. exists r1, ids1, c1. split; [done|].
  destruct r1 as [[]|e|]; [right; eauto|left..]; by injection Hb as <- <- <-.
Qed.

Lemma CreateStream_phases s input w c r w' c' :
  CreateStream s input {| OnCreated := Some onCreated; OnDelta := Some onDelta |} (w, c) = (r, (w', c')) ->
  stream_phases c r c'.
Proof.
  unfold CreateStream, stream_phases. cbn [OnCreated OnDelta]. intros Hb.
  apply service_bind in Hb as [?|(p & w1 & _ & Hb)]; [auto|]. apply service_bind in Hb as [?|(p' & w2 & _ & Hb)]; [auto|].
  apply lift_bind in Hb as [?|([ctx b] & _ & Hb)]; [auto|]. apply lift_bind in Hb as [?|(config & _ & Hb)]; [auto|].
  apply lift_bind in Hb as [?|(metadata & _ & Hb)]; [auto|].
  set (created := created_response p' input config metadata) in Hb.
  assert (Hst : r_Status created = "in_progress") by reflexivity.
  assert (Hcid : r_ID created = pr_ResponseID p') by reflexivity. clearbody created.
  apply hook_bind in Hb as (r1 & ids1 & c1 & Hc1 & Hb). right.
  exists created, (pr_OutputPrefix p'), (w_ids (s_world w2)), r1, ids1, c1. split; [done|]. split; [done|].
  destruct Hb as [?|[-> [w3 Hb]]]; [auto|]. right. split; [done|].
  apply service_bind in Hb as [?|(text & w4 & _ & Hb)]; [auto|].
  destruct (decide _); [injection Hb as <- <- <-; auto|].
  apply hook_bind in Hb as (r2 & ids3 & c2 & Hc2 & Hb). right.
  destruct Hb as [[Hf ->]|[-> [w5 Hb]]].
  - exists text, (w_ids (s_world w4)), r2, ids3. auto.
  - apply in_service_run in Hb as [Hb ->]. exists text, (w_ids (s_world w4)), (Ok tt), ids3. split; [done|]. right.
    split; [done|]. intros response ->.
    apply completeCreate_ok in Hb as (? & ? & ? & ? & ? & ? & _ & _ & _ & _ & Hid). congruence.
Qed.
End phases.

(** ** Every stream *)

Definition announced (created : Response) (outputPrefix : list Item) (itemID text : string) : list emission :=
  opening created outputPrefix itemID ++ [EmDelta (r_ID created) itemID (Z.of_nat (length outputPrefix)) text].

(** The events of a stream, and whether it was ended: cut short before it was
    announced, before its text or after, with at most one error; or whole. *)
Inductive stream_trace : list emission -> bool -> Prop :=
| trace_cut created outputPrefix itemID text xs error : r_Status created = "in_progress" ->
    xs ∈ [[]; opening created outputPrefix itemID; announced created outputPrefix itemID text] ->
    stream_trace (xs ++ option_list (EmError <$> error)) false
| trace_whole created outputPrefix itemID text response item : r_Status created = "in_progress" ->
    r_ID response = r_ID created -> outputs response !! length outputPrefix = Some item ->
    stream_trace (announced created outputPrefix itemID text ++
                  closing (r_ID created) itemID (length outputPrefix) response item (final_text response item)) true.

(** The text of such a sequence. *)
Definition trace_text (obfuscate : bool) (xs : list emission) (ended : bool) : string :=
  frames obfuscate xs +:+ if ended then done_text else "".

(** The client has the whole text of a trace; or the beginning of one. *)
Definition traced (obfuscate : bool) (c : stream_client) : Prop := forall e, cl_emitter c = Some e ->
  exists xs ended, stream_trace xs ended /\ em_written e = trace_text obfuscate xs ended.

Definition partly_traced (obfuscate : bool) (c : stream_client) : Prop := forall e, cl_emitter c = Some e ->
  exists xs ended, stream_trace xs ended /\ begins (em_written e) (trace_text obfuscate xs ended).

Lemma traced_partly obfuscate c : traced obfuscate c -> partly_traced obfuscate c.
Proof.
  intros Ht e He. destruct (Ht e He) as (xs & ended & Hx & ->). exists xs, ended. split; [done|]. exists "". by rewrite sapp_nil_r.
Qed.

Section every_stream.
Context `{Sqlite} `{IdSource} `{MapOrder} `{UnicodeTable} `{RequestContext} `{TextModel} `{Generator} `{Clock}.
Context `{LibraryText} `{Writer}.
Hypothesis writer_lasting : lasting.

(** What a client has at the end: all of a trace; or, after a panic or over a
    broken connection, the beginning of one. *)
Definition outcome {A} (r : res A) (obfuscate : bool) (c : stream_client) : Prop :=
  traced obfuscate c \/ (partly_traced obfuscate c /\ (r = Panic \/ exists e, cl_emitter c = Some e /\ broken e)).

(** The client of a stream that was cut short, and of one whose connection broke. *)
Definition cut (obfuscate : bool) (c : stream_client) : Prop := exists xs created outputPrefix itemID text,
  r_Status created = "in_progress" /\
  xs ∈ [[]; opening created outputPrefix itemID; announced created outputPrefix itemID text] /\
  forall e, cl_emitter c = Some e -> sent obfuscate xs e.

Definition broken_off {A} (r : res A) (obfuscate : bool) (c : stream_client) : Prop := exists created outputPrefix itemID text e,
  r_Status created = "in_progress" /\ cl_emitter c = Some e /\ stopped r obfuscate (announced created outputPrefix itemID text) e.

Lemma cut_traced obfuscate c : cut obfuscate c -> traced obfuscate c.
Proof.
  intros (xs & created & p & id & text & Hst & Hxs & Hs) e He. exists (xs ++ option_list (EmError <$> None)), false.
  split; [by eapply trace_cut|]. unfold trace_text. simpl. rewrite app_nil_r, sapp_nil_r. apply (Hs e He).
Qed.

Lemma broken_partly {A} (r : res A) obfuscate c e : broken_off r obfuscate c -> cl_emitter c = Some e ->
  (exists xs, stream_trace xs false /\ begins (em_written e) (trace_text obfuscate xs false)) /\ (r = Panic \/ broken e).
Proof.
  intros (created & p & id & text & e' & Hst & He' & _ & Hb & Hp) He. rewrite He in He'. injection He' as <-. split; [|done].
  exists (announced created p id text ++ option_list (EmError <$> None)). split; [by eapply trace_cut; [|do 2 right; left]|].
  unfold trace_text. simpl. by rewrite app_nil_r, sapp_nil_r.
Qed.

Lemma cut_new obfuscate : cut obfuscate new_client.
Proof. exists [], (set_Status "in_progress" zeroResponse), [], "", "". split; [done|]. split; [by left|]. done. Qed.

Lemma failed_outcome obfuscate err ids c r ids' c' : cut obfuscate c ->
  stream_failed err (ids, c) = (r, (ids', c')) -> outcome r obfuscate c'.
Proof.
  intros (xs & created & p & id & text & Hst & Hxs & Hs) Hf0. pose proof (stream_failed_spec _ _ _ _ _ _ _ _ Hs Hf0) as Hf.
  destruct (cl_emitter c') as [e|] eqn:Ee; [|left; intros e He; congruence]. destruct (Hf e eq_refl) as (error & Hw).
  assert (Ht : stream_trace (xs ++ option_list (EmError <$> error)) false) by by eapply trace_cut.
  destruct Hw as [Hw|[Hw Hb]]; [left|right; split; [|by right; exists e]]; intros ? [= <-]%(eq_trans (eq_sym Ee));
    (eexists _, false; split; [exact Ht|]); unfold trace_text; by rewrite sapp_nil_r.
Qed.

Lemma failed_broken obfuscate err ids c r ids' c' : broken_off (Err err : res Response) obfuscate c ->
  stream_failed err (ids, c) = (r, (ids', c')) -> partly_traced obfuscate c' /\ exists e, cl_emitter c' = Some e /\ broken e.
Proof.
  intros Hb Hf. pose proof Hb as (created & p & id & text & e & _ & He & _). destruct (broken_partly _ _ _ _ Hb He) as ((xs & Hx & Hbeg) & [?|Hbr]); [done|].
  eapply (stream_failed_lost writer_lasting) in Hf as (e' & He' & Hw & Hbr'); [|done..]. split; [|by exists e'].
  intros ? [= <-]%(eq_trans (eq_sym He')). exists xs, false. by rewrite Hw.
Qed.

(** What the service leaves the client with. *)
Lemma CreateStream_client s input options w r w' c' :
  CreateStream s input (stream_hooks options) (w, new_client) = (r, (w', c')) ->
  match r with
  | Ok response => exists created outputPrefix itemID text e, r_Status created = "in_progress" /\
      r_ID response = r_ID created /\ c' = client_of created outputPrefix itemID e /\
      sent (so_IncludeObfuscation options) (announced created outputPrefix itemID text) e
  | _ => cut (so_IncludeObfuscation options) c' \/ broken_off r (so_IncludeObfuscation options) c'
  end.
Proof.
  set (o := so_IncludeObfuscation options). intros Hc. apply CreateStream_phases in Hc as [[Hr ->]|Hc].
  { destruct r; [done|..]; left; apply cut_new. }
  destruct Hc as (created & p & ids & r1 & ids1 & c1 & Hst & Hon & Hc).
  apply on_created_spec in Hon as [[Hr1 Hu]|(p' & id & [Hh|(-> & e & -> & Hs)])].
  - destruct Hc as [[(_ & Hr & _) ->]|[-> _]]; [|done].
    assert (Hcut : cut o c1) by (exists [], created, [], "", ""; split; [done|]; split; [by left|exact Hu]). destruct r; [done|by left..].
  - destruct Hc as [[(_ & Hr & Hp) ->]|[-> _]]; [|by destruct Hh as (e & _ & ? & _)].
    assert (Hb : broken_off r o c1).
    { destruct Hh as (e & He & Hs). exists created, p', id, "", e. split; [done|]. split; [done|]. apply stopped_more. by eapply stopped_as. }
    destruct r; [done|by right..].
  - destruct Hc as [[(? & _) _]|[_ Hc]]; [done|]. destruct Hc as [[Hr ->]|(text & ids2 & r2 & ids3 & Hdelta & Hc)].
    { assert (Hcut : cut o (client_of created p' id e)).
      { exists (opening created p' id), created, p', id, "". split; [done|]. split; [by right; left|]. by intros ? [= <-]. }
      destruct r; [done|by left..]. }
    eapply on_delta_spec in Hdelta as (e' & -> & Hdelta); [|exact Hs]. cbv zeta in Hdelta. fold (announced created p' id text) in Hdelta.
    destruct Hdelta as [[-> He]|He].
    + destruct Hc as [(? & _)|[_ Hid]]; [done|].
      assert (Hcut : cut o (client_of created p' id e')).
      { exists (announced created p' id text), created, p', id, text. split; [done|]. split; [by do 2 right; left|]. by intros ? [= <-]. }
      destruct r as [response| |]; [|by left..]. exists created, p', id, text, e'. auto.
    + destruct Hc as [(_ & Hr & Hp)|[-> _]]; [|by destruct He].
      assert (Hb : broken_off r o (client_of created p' id e')).
      { exists created, p', id, text, e'. split; [done|]. split; [done|]. by eapply stopped_as. }
      destruct r; [done|by right..].
Qed.

Lemma createStream_outcome s request requestJSON generationOptions options w r w' c' :
  createStream s request requestJSON generationOptions options (w, new_client) = (r, (w', c')) ->
  outcome r (so_IncludeObfuscation options) c'.
Proof.
  unfold createStream. destruct (CreateStream _ _ _ _) as [r0 [w0 c0]] eqn:Ec. apply CreateStream_client in Ec.
  destruct r0 as [response|err|].
  - destruct Ec as (created & p & id & text & e & Hst & Hid & -> & Hs). unfold in_handler.
    destruct (stream_completed response _) as [r1 [ids1 c1]] eqn:E1. intros [= <- <- <-].
    eapply stream_completed_spec in E1 as [[_ ->]|(response' & item & e' & -> & Hid' & Hi & Hout)]; [| |exact Hs].
    + left. apply cut_traced. exists (announced created p id text), created, p, id, text.
      split; [done|]. split; [by do 2 right; left|]. by intros ? [= <-].
    + assert (Ht : stream_trace (announced created p id text ++ closing (r_ID created) id (length p) response' item (final_text response' item)) true)
        by (apply trace_whole; congruence).
      destruct Hout as [[_ Hw]|[Hb Hp]]; [left|right].
      * intros ? [= <-]. by eexists _, true.
      * split; [intros ? [= <-]; by eexists _, true|]. destruct Hp as [?|?]; [by left|right]. by eexists.
  - unfold in_handler. destruct (stream_failed err _) as [r1 [ids1 c1]] eqn:E1. intros [= <- <- <-].
    destruct Ec as [Ec|Ec]; [by eapply failed_outcome|]. destruct (failed_broken _ _ _ _ _ _ _ Ec E1) as [Hp Hb]. right. by split; [|right].
  - intros [= <- <- <-]. destruct Ec as [Ec|Ec]; [left; by apply cut_traced|right]. split; [|by left].
    intros e He. destruct (broken_partly _ _ _ _ Ec He) as [(xs & Hx & Hb) _]. by exists xs, false.
Qed.
End every_stream.

(** C18 (safety): whatever happens to a streamed request, what the client has
    received is the beginning of the text of a sequence of events, numbered from 1:
    nothing but an error before the response is announced; then the announcement,
    the items before the message and the message's start; its text; and, when all
    went well, the ends of the text, the part and the item, the finished response
    and the end mark.  All name the same response and the same item; a stream that
    fails ends with at most one error and no end mark.  This holds when the
    connection breaks in the middle of an event (a writer that failed once accepts
    nothing more) and when the handler panics; if neither happens, the client has
    the whole text. *)
Theorem createStream_trace `{Sqlite} `{IdSource} `{MapOrder} `{UnicodeTable} `{RequestContext} `{TextModel} `{Generator}
    `{Clock} `{LibraryText} `{Writer} s request requestJSON generationOptions options w r w' c' :
  lasting -> createStream s request requestJSON generationOptions options (w, new_client) = (r, (w', c')) ->
  partly_traced (so_IncludeObfuscation options) c' /\
  (r <> Panic -> (forall e, cl_emitter c' = Some e -> ~ broken e) -> traced (so_IncludeObfuscation options) c').
Proof.
  intros Hl Hc. apply createStream_outcome in Hc; [|done]. destruct Hc as [Ht|[Hp Hb]].
  - split; [by apply traced_partly|done].
  - split; [done|]. intros Hr Hn. destruct Hb as [?|(e & He & Hb)]; [done|]. by destruct (Hn e He).
Qed.

Section demo.
#[local] Existing Instances reliable zeros_ids sorted_order ascii_only never_cancelled chatty demo_clock demo_generator steady.

Definition demo_texts : LibraryText := {| library_text _ := "library error" |}.
#[local] Existing Instance demo_texts.

Definition demo_stream (input text : string) : CreateResponseRequest :=
  {| q_Model := "m"; q_Input := input; q_Text := text; q_Metadata := ""; q_ContextManagement := "";
     q_Store := None; q_Stream := Some true; q_StreamOptions := ""; q_Background := None; q_PreviousResponseID := "";
     q_Conversation := ""; q_Instructions := "" |}.

Definition stream_run : res unit * (sworld * stream_client) :=
  createStream demo_service (demo_stream (sq "'hi'") "") "{}" [] {| so_IncludeObfuscation := false |} (demo_start, new_client).

Lemma steady_lasting : lasting.
Proof. intros n k m. done. Qed.

(** A connection that takes four writes and five bytes. *)
Definition flaky : Writer :=
  {| write_fails n := if n <? 4 then None else if n =? 4 then Some 5 else Some 0; is_flusher := true |}.

Lemma flaky_lasting : lasting (H := flaky).
Proof.
  intros n k m. simpl. destruct (Nat.ltb_spec n 4); [done|]. intros _ Hm. destruct (Nat.ltb_spec m 4); [lia|]. destruct (Nat.eqb_spec m 4); [lia|done].
Qed.

Definition flaky_run : res unit * (sworld * stream_client) :=
  createStream (H := flaky) demo_service (demo_stream (sq "'hi'") "") "{}" [] {| so_IncludeObfuscation := false |} (demo_start, new_client).

Lemma createStream_trace_witness : (stream_run.1 = Ok tt /\ traced false stream_run.2.2) /\ partly_traced false flaky_run.2.2.
Proof.
  split; [split; [vm_compute; reflexivity|]|].
  - apply (createStream_trace demo_service (demo_stream (sq "'hi'") "") "{}" [] {| so_IncludeObfuscation := false |} demo_start
      stream_run.1 stream_run.2.1 stream_run.2.2 steady_lasting).
    + unfold stream_run. by destruct (createStream _ _ _ _ _ _) as [? [? ?]].
    + intros Hp. vm_compute in Hp. discriminate Hp.
    + by intros e _ (n & k & _ & Hk).
  - apply (createStream_trace (H8 := flaky) demo_service (demo_stream (sq "'hi'") "") "{}" [] {| so_IncludeObfuscation := false |} demo_start
      flaky_run.1 flaky_run.2.1 flaky_run.2.2 flaky_lasting).
    unfold flaky_run. by destruct (createStream _ _ _ _ _ _) as [? [? ?]].
Defined.

(** The message of a streamed response is stored under another identifier than
    the one all its events carry: createStream draws one, completeCreate
    another. *)
Fact streamed_message_id_not_stored :
  cl_itemID stream_run.2.2 = "msg_0" /\
  match (GetStored "resp_" stream_run.2.1).1 with
  | Ok stored => map ID (outputs stored) = ["item_000"]
  | _ => False
  end.
Proof. vm_compute. split; reflexivity. Qed.

(** A generator that wraps its JSON in a fence. *)
Definition fenced : string := "```json" +:+ line_feed +:+ "{}" +:+ line_feed +:+ "```".
Definition fenced_generator : Generator := {| gen_Generate _ _ _ _ := Ok fenced |}.

(** The text of an event of a stream. *)
Definition event_field (type field : string) (stream : res Stream) : list gval :=
  match stream with
  | Ok stream => omap (fun ev => if decide (ev_Event ev = type) then
                                   match ev_JSON ev with GMap m => am_lookup field m | _ => None end
                                 else None) (st_Events stream)
  | _ => []
  end.

(** With a JSON format the deltas carry the text as it was generated, the
    final events the text without its fence: put together, the deltas are not
    the text the stream ends with. *)
Fact deltas_are_not_the_text :
  let run := @createStream steady reliable zeros_ids sorted_order ascii_only never_cancelled chatty fenced_generator
               demo_clock demo_texts demo_service
               (demo_stream (sq "'answer in JSON'") (sq "{'format':{'type':'json_object'}}")) "{}" []
               {| so_IncludeObfuscation := false |} (demo_start, new_client) in
  let stream := Parse (match cl_emitter run.2.2 with Some e => em_written e | None => "" end) in
  event_field "response.output_text.delta" "delta" stream = [GStr fenced] /\
  event_field "response.output_text.done" "text" stream = [GStr "{}"].
Proof. vm_compute. split; reflexivity. Qed.

(** The name of an unknown field of stream_options is part of the message of
    the error; a name that contains a phrase of the failure policy turns the
    client's mistake into a timeout of the backend. *)
Fact invalid_request_reported_as_timeout :
  match parseCreateResponseStreamOptions (Some true) (sq "{'stream idle timeout':1}") with
  | Err e => (MapError (Some e)).1 = 504%Z /\ leaf e = NewValidationError "stream_options"
               "unsupported stream_options field: stream idle timeout"
  | _ => False
  end.
Proof. vm_compute. split; reflexivity. Qed.
End demo.
