(* ===== verification/ReadBack.v ===== *)
(** * A stored response is read back

    [Response.MarshalJSON] writes 36 fields, [ParseUpstreamResponse] reads them;
    [ResponseFromStored] then fills in what the row knows.  For the responses
    that Create makes and stores nothing needs to be filled in. *)

From S2P Require Import Prelude GoStr GoFloat GoJson JsonFacts StrFacts GoInt GoTime World Items ItemFacts ItemProps Normalize NormProps Context Store StoreFacts StoreProps ResponseProps ConvService Compaction CompactionProps Compactor CompactorProps Memory MemoryProps ToolMarkup TextFormat TextProps Response SurfaceProps LocalGen LocalProps RespService RespManage ServiceFacts ServiceProps RequestProps.

(** ** Fields with distinct names *)

(** No key is taken for another, up to letter case. *)
Fixpoint fold_distinct (ks : list string) : bool :=
  match ks with
  | [] => true
  | k :: ks => EqualFold (unquote k) k &&
               forallb (fun k' => negb (EqualFold (unquote k) k') && negb (EqualFold (unquote k') k)) ks &&
               fold_distinct ks
  end.

Lemma field_values_absent name l : forallb (fun kv => negb (EqualFold (unquote kv.1) name)) l = true ->
  field_values name l = [].
Proof.
  rewrite forallb_forall. intros Ha. unfold field_values. rewrite filter_none; [done|].
  apply Forall_forall. intros kv Hin%list_elem_of_In Hf. apply Ha in Hin. by rewrite Hf in Hin.
Qed.

Lemma field_values_distinct l i k v : fold_distinct (map fst l) = true -> l !! i = Some (k, v) ->
  field_values k l = [v].
Proof.
  revert i. induction l as [|[k0 v0] l IH]; intros i; [done|]. cbn [map fst fold_distinct].
  intros [[Hs Hf]%andb_true_iff Hd]%andb_true_iff Hi.
  change ((k0, v0) :: l) with ([(k0, v0)] ++ l). rewrite field_values_app, field_values_single.
  destruct i as [|i]; simpl in Hi.
  - injection Hi as -> ->. rewrite Hs, field_values_absent; [done|]. apply forallb_forall. intros [k1 v1] Hin.
    rewrite forallb_forall in Hf. assert (Hk : In k1 (map fst l)) by (apply in_map_iff; by exists (k1, v1)).
    by apply Hf, andb_true_iff in Hk as [_ Hk].
  - rewrite (IH i Hd Hi). apply list_elem_of_lookup_2 in Hi as Hin.
    rewrite forallb_forall in Hf. assert (Hk : In k (map fst l)) by (apply in_map_iff; exists (k, v); by rewrite <-list_elem_of_In).
    apply Hf, andb_true_iff in Hk as [Hk _]. apply negb_true_iff in Hk. by rewrite Hk.
Qed.

(** ** The responses that are read back *)

(** The fields that are raw messages. *)
Definition raw_fields (r : Response) : list (option json) :=
  [r_Error r; r_FrequencyPenalty r; r_IncompleteDetails r; r_Instructions r; r_MaxOutputTokens r; r_MaxToolCalls r;
   r_ParallelToolCalls r; r_PresencePenalty r; r_Prompt r; r_PromptCacheKey r; r_PromptCacheRetention r; r_Reasoning r;
   r_SafetyIdentifier r; r_ServiceTier r; r_Temperature r; r_Text r; r_ToolChoice r; r_Tools r; r_TopLogprobs r;
   r_TopP r; r_Truncation r; r_Usage r; r_User r].

Definition text_fields (r : Response) : list string :=
  [r_ID r; r_Object r; r_Status r; r_Model r; r_PreviousResponseID r; r_OutputText r].

Definition text_values (m : list (string * string)) : list (string * gval) := map (fun kv => (kv.1, GStr kv.2)) m.

(** A raw message may be absent, or can be escaped. *)
Definition raw_ok (raw : option json) : Prop := match raw with None => True | Some t => escapable t end.

(** What the responses the service stores have in common. *)
Record readable (r : Response) : Prop := {
  rd_text : Forall (fun s => valid_utf8 s = true) (text_fields r);
  rd_id : r_ID r <> "";
  rd_object : r_Object r <> "";
  rd_status : TrimSpace (r_Status r) = r_Status r /\ r_Status r <> "";
  rd_completed : r_CompletedAt r = None \/ EqualFold (r_Status r) "completed" = true;
  rd_times : is_int (r_CreatedAt r) = true /\ match r_CompletedAt r with Some t => is_int t = true | None => True end;
  rd_raw : Forall raw_ok (raw_fields r);
  rd_defaults : r_ServiceTier r <> None /\ r_TopLogprobs r <> None /\ r_FrequencyPenalty r <> None /\
    r_PresencePenalty r <> None;
  rd_format : exists l, r_Text r = Some (JObj l);
  rd_conversation : match r_Conversation r with
                    | Some c => valid_utf8 (cref_ID c) = true /\ TrimSpace (cref_ID c) = cref_ID c /\ cref_ID c <> ""
                    | None => True end;
  rd_metadata : exists m, r_Metadata r = Some m /\ metadata_ok m = true /\ metadata_fits (text_values m) = true;
  rd_output : exists items, r_Output r = Some items /\ items <> [] /\
    Forall (fun i => item_inv i /\ (forall t, Raw i = Some t -> jok t = true)) items;
  rd_output_text : r_OutputText r <> ""
}.

(** An item as it is read from the response: without metadata, and escaped. *)
Definition bare (i : Item) : Item := set_meta (escaped i) None.

Definition seen (raw : option json) : option json := Some (raw_field raw).

(** What is read: raw messages are escaped, an absent one is null. *)
Definition read_back (r : Response) : Response :=
  {| r_ID := r_ID r; r_Object := r_Object r; r_CreatedAt := r_CreatedAt r; r_Status := r_Status r;
     r_CompletedAt := r_CompletedAt r; r_Error := seen (r_Error r); r_FrequencyPenalty := seen (r_FrequencyPenalty r);
     r_IncompleteDetails := seen (r_IncompleteDetails r); r_Instructions := seen (r_Instructions r);
     r_MaxOutputTokens := seen (r_MaxOutputTokens r); r_MaxToolCalls := seen (r_MaxToolCalls r); r_Model := r_Model r;
     r_Output := Some (map bare (outputs r)); r_ParallelToolCalls := seen (r_ParallelToolCalls r);
     r_PresencePenalty := seen (r_PresencePenalty r); r_PreviousResponseID := r_PreviousResponseID r;
     r_Prompt := seen (r_Prompt r); r_PromptCacheKey := seen (r_PromptCacheKey r);
     r_PromptCacheRetention := seen (r_PromptCacheRetention r); r_Reasoning := seen (r_Reasoning r);
     r_SafetyIdentifier := seen (r_SafetyIdentifier r); r_ServiceTier := seen (r_ServiceTier r);
     r_Conversation := r_Conversation r; r_Background := r_Background r; r_Store := r_Store r;
     r_Temperature := seen (r_Temperature r); r_Text := seen (r_Text r); r_ToolChoice := seen (r_ToolChoice r);
     r_Tools := seen (r_Tools r); r_TopLogprobs := seen (r_TopLogprobs r); r_TopP := seen (r_TopP r);
     r_Truncation := seen (r_Truncation r); r_Usage := seen (r_Usage r); r_User := seen (r_User r);
     r_Metadata := r_Metadata r; r_OutputText := r_OutputText r |}.

(** ** Reading single values *)

Lemma field_ptr_single {A} (f : json -> option A) name l t a : field_values name l = [t] ->
  (t = JNull /\ a = None \/ t <> JNull /\ exists x, f t = Some x /\ a = Some x) -> field_ptr f name l = Some a.
Proof.
  intros Hv Ht. unfold field_ptr. rewrite Hv. simpl. destruct Ht as [[-> ->]|(Hn & x & Hf & ->)]; [done|].
  destruct t; [done|..]; by rewrite Hf.
Qed.

Lemma field_raw_single name l t : field_values name l = [t] -> field_raw name l = Some t.
Proof. intros Hv. unfold field_raw. by rewrite Hv. Qed.

Lemma field_string_null name l : field_values name l = [JNull] -> field_string name l = Some "".
Proof. intros Hv. unfold field_string. by rewrite Hv. Qed.

Lemma raw_field_jwf raw : raw_ok raw -> jwf (raw_field raw) = true.
Proof. destruct raw as [t|]; [apply escapable_jwf|done]. Qed.

Lemma coalesce_given a d : a <> None -> coalesceRawMessage a None d = a.
Proof. by destruct a. Qed.

(** ** The members of the written response *)

Definition response_members (r : Response) : list (string * json) :=
  match Response_MarshalJSON r with JObj l => l | _ => [] end.

Lemma members_distinct r : fold_distinct (map fst (response_members r)) = true.
Proof.
  assert (Hk : map fst (response_members r) =
    map fst (response_members (set_Conversation (match r_Conversation r with
                                                 | None => None | Some _ => Some {| cref_ID := "" |} end) zeroResponse))).
  { unfold response_members, Response_MarshalJSON. by destruct (r_Conversation r). }
  rewrite Hk. destruct (r_Conversation r); vm_compute; reflexivity.
Qed.

(** The value written for a field, by its position. *)
Lemma member_values r i k v : response_members r !! i = Some (k, v) -> field_values k (response_members r) = [v].
Proof. apply field_values_distinct, members_distinct. Qed.

Lemma no_conversation_value r : r_Conversation r = None -> field_values "conversation" (response_members r) = [].
Proof.
  intros Hc. apply field_values_absent. unfold response_members, Response_MarshalJSON. rewrite Hc.
  cbn [app forallb fst]. reflexivity.
Qed.

(** Proves [field_values name (response_members r) = [v]] by the position of the field. *)
Ltac at_position r Ec n :=
  first [ apply (member_values r n); unfold response_members, Response_MarshalJSON; rewrite Ec; reflexivity
        | at_position r Ec (S n) ].
Ltac written r := let Ec := fresh "Ec" in destruct (r_Conversation r) eqn:Ec; at_position r Ec 0.

Lemma raw_written r :
  let raw name := field_raw name (response_members r) in
  [raw "error"; raw "incomplete_details"; raw "instructions"; raw "max_output_tokens"; raw "max_tool_calls";
   raw "parallel_tool_calls"; raw "prompt"; raw "prompt_cache_key"; raw "prompt_cache_retention"; raw "reasoning";
   raw "safety_identifier"; raw "temperature"; raw "text"; raw "tool_choice"; raw "tools"; raw "top_p"; raw "truncation";
   raw "usage"; raw "user"] =
  map seen [r_Error r; r_IncompleteDetails r; r_Instructions r; r_MaxOutputTokens r; r_MaxToolCalls r;
            r_ParallelToolCalls r; r_Prompt r; r_PromptCacheKey r; r_PromptCacheRetention r; r_Reasoning r;
            r_SafetyIdentifier r; r_Temperature r; r_Text r; r_ToolChoice r; r_Tools r; r_TopP r; r_Truncation r;
            r_Usage r; r_User r].
Proof.
  intros raw. unfold raw. cbn [map].
  repeat (apply (f_equal2 cons); [apply field_raw_single; written r|]). reflexivity.
Qed.

Lemma raw_written_defaults r : readable r ->
  let raw name := field_raw name (response_members r) in
  [raw "frequency_penalty"; raw "presence_penalty"; raw "service_tier"; raw "top_logprobs"] =
  map seen [r_FrequencyPenalty r; r_PresencePenalty r; r_ServiceTier r; r_TopLogprobs r].
Proof.
  intros Hr raw. unfold raw, seen. cbn [map]. destruct (rd_defaults r Hr) as (H1 & H2 & H3 & H4).
  rewrite <-(coalesce_given (r_FrequencyPenalty r) (Some rawJSONZeroPointZero)) by done.
  rewrite <-(coalesce_given (r_PresencePenalty r) (Some rawJSONZeroPointZero)) by done.
  rewrite <-(coalesce_given (r_ServiceTier r) (Some rawJSONDefault)) by done.
  rewrite <-(coalesce_given (r_TopLogprobs r) (Some rawJSONZero)) by done.
  repeat (apply (f_equal2 cons); [apply field_raw_single; written r|]). reflexivity.
Qed.

Lemma bool_ptr_written r name b : field_values name (response_members r) = [bool_field b] ->
  field_ptr bool_of name (response_members r) = Some b.
Proof. intros Hv. eapply field_ptr_single; [exact Hv|]. destruct b; simpl; [right; split; [done|eauto]|auto]. Qed.

Lemma payload_written r : readable r ->
  payload_of_members (response_members r) =
  Some {| p_ID := r_ID r; p_Object := r_Object r; p_CreatedAt := r_CreatedAt r; p_Status := r_Status r;
          p_CompletedAt := r_CompletedAt r; p_Model := r_Model r; p_PreviousResponseID := r_PreviousResponseID r;
          p_Background := r_Background r; p_Store := r_Store r; p_OutputText := r_OutputText r;
          p_Output := map (fun i => jesc (MarshalJSON i)) (outputs r) |}.
Proof.
  intros Hr. pose proof (rd_text r Hr) as Ht. unfold text_fields in Ht. rewrite !Forall_cons in Ht.
  destruct Ht as (T1 & T2 & T3 & T4 & T5 & T6 & _). destruct (rd_times r Hr) as [Hc Hd]. unfold payload_of_members.
  rewrite (field_string_given "id" _ (r_ID r)) by (done || written r). simpl.
  rewrite (field_string_given "object" _ (r_Object r)) by (done || written r). simpl.
  rewrite (field_int_single "created_at" _ (r_CreatedAt r)) by (done || written r). simpl.
  rewrite (field_string_given "status" _ (r_Status r)) by (done || written r). simpl.
  rewrite (field_ptr_single int_of "completed_at" _ (int_field (r_CompletedAt r)) (r_CompletedAt r)); [|written r|].
  2: { destruct (r_CompletedAt r) as [t|]; [right; split; [done|]|by left]. exists t. split; [|done].
       by apply int_of_int_text. }
  simpl. rewrite (field_string_given "model" _ (r_Model r)) by (done || written r). simpl.
  assert (Hp : field_string "previous_response_id" (response_members r) = Some (r_PreviousResponseID r)).
  { assert (Hv : field_values "previous_response_id" (response_members r) =
      [if decide (r_PreviousResponseID r = "") then JNull else json_str (r_PreviousResponseID r)]) by written r.
    destruct (decide (r_PreviousResponseID r = "")) as [He|He]; [rewrite field_string_null; congruence|].
    by apply field_string_given. }
  rewrite Hp. simpl. rewrite (bool_ptr_written r "background" (r_Background r)) by written r. simpl.
  rewrite (bool_ptr_written r "store" (r_Store r)) by written r. simpl.
  rewrite (field_string_given "output_text" _ (r_OutputText r)) by (done || written r). simpl.
  unfold field_raw_array. assert (Ho : field_values "output" (response_members r) = [output_json (r_Output r)]) by written r.
  rewrite Ho. unfold outputs. destruct (rd_output r Hr) as (items & Ei & _). by rewrite Ei.
Qed.

(** ** The parts that are decoded further *)

Lemma parse_output_bare n items :
  Forall (fun i => item_inv i /\ (forall t, Raw i = Some t -> jok t = true)) items ->
  parse_output n (map (fun i => jesc (MarshalJSON i)) items) = Ok (map bare items).
Proof.
  intros Hi. revert n. induction Hi as [|i items [(l & HR & Hw & HU) Hok] Hi IH]; intros n; [done|].
  cbn [map parse_output]. assert (Hm : MarshalJSON i = JObj l) by (unfold MarshalJSON; by rewrite HR).
  rewrite Hm. specialize (Hok _ HR).
  rewrite UnmarshalJSON_jesc, HU by done. cbn [fmap res_fmap wrap_err]. simpl. by rewrite IH.
Qed.

Lemma text_values_any m : metadata_ok m = true ->
  any_map (JObj (map (fun kv => (encode_body kv.1, json_str kv.2)) m)) = Some (Some (text_values m)).
Proof.
  intros [Hs Hv]%andb_true_iff. unfold any_map. cbn [any_of].
  assert (Ho : opt_map (fun kv => v ← any_of kv.2; Some (unquote kv.1, v))
     (map (fun kv => (encode_body kv.1, json_str kv.2)) m) = Some (text_values m)).
  { apply opt_map_Some. unfold text_values. rewrite Forall2_fmap_l, Forall2_fmap_r. apply Forall_Forall2_diag, Forall_forall.
    intros [k v] Hin%list_elem_of_In. rewrite forallb_forall in Hv. apply Hv, andb_true_iff in Hin as [Hk Hx].
    simpl in *. by rewrite !unquote_encode_valid. }
  rewrite Ho. simpl. do 2 f_equal. apply am_of_list_sorted_id. unfold text_values, am_sorted, am_keys in *. by rewrite map_map.
Qed.

Lemma metadata_of_written `{MapOrder} m : metadata_ok m = true -> metadata_fits (text_values m) = true ->
  metadata_of (Some (metadata_json (Some m))) = m.
Proof.
  intros Hm Hf. unfold metadata_of, metadata_json, NormalizeResponseMetadata.
  set (raw := jprint (JObj _)).
  destruct (normalizeMetadata_cases raw "metadata") as [_ Hc].
  assert (Ht : TrimSpace raw = raw) by apply TrimSpace_obj. rewrite Ht in Hc.
  assert (Hj : jparse raw = Some (JObj (map (fun kv => (encode_body kv.1, json_str kv.2)) m)))
    by (apply jparse_jprint, string_members_jwf).
  rewrite Hj in Hc. cbn [mbind option_bind] in Hc. rewrite text_values_any, Hf in Hc by done.
  rewrite Hc.
  - unfold text_values. rewrite map_map. rewrite <-(map_id m) at 2. apply map_ext. by intros [k v].
  - apply jprint_obj_not_empty.
  - intros E. rewrite E in Hj. discriminate Hj.
Qed.

Lemma conversation_written r : readable r ->
  extractConversationReference (field_raw "conversation" (response_members r)) = r_Conversation r.
Proof.
  intros Hr. pose proof (rd_conversation r Hr) as Hc. destruct (r_Conversation r) as [[id]|] eqn:Ec.
  - simpl in Hc. destruct Hc as (Hv & Ht & Hn).
    rewrite (field_raw_single "conversation" _ (conversation_json {| cref_ID := id |})) by (at_position r Ec 0).
    cbn [extractConversationReference conversation_json cref_ID].
    rewrite (field_string_given "id" _ id); [|done|].
    + unfold NewConversationReference. rewrite Ht. by rewrite decide_False.
    + by apply (field_values_distinct [("id", json_str id)] 0).
  - unfold field_raw. by rewrite no_conversation_value.
Qed.

Lemma metadata_written `{MapOrder} r : readable r ->
  Some (metadata_of (field_raw "metadata" (response_members r))) = r_Metadata r.
Proof.
  intros Hr. destruct (rd_metadata r Hr) as (m & Em & Hm & Hf).
  rewrite (field_raw_single "metadata" _ (metadata_json (r_Metadata r))) by written r.
  rewrite Em. f_equal. by apply metadata_of_written.
Qed.

Lemma response_jwf r : readable r -> jwf (Response_MarshalJSON r) = true.
Proof.
  intros Hr. pose proof (rd_raw r Hr) as Hraw. unfold raw_fields in Hraw. rewrite !Forall_cons in Hraw.
  decompose [and] Hraw. clear Hraw. destruct (rd_defaults r Hr) as (D1 & D2 & D3 & D4).
  unfold Response_MarshalJSON. rewrite !coalesce_given by done.
  repeat match goal with H : raw_ok _ |- _ => apply raw_field_jwf in H end.
  assert (Hm : jwf (metadata_json (r_Metadata r)) = true).
  { destruct (rd_metadata r Hr) as (m & -> & _). apply string_members_jwf. }
  assert (Ho : jwf (output_json (r_Output r)) = true).
  { destruct (rd_output r Hr) as (items & -> & _ & Hi). simpl. apply forallb_forall. intros t (i & <- & Hin)%in_map_iff.
    rewrite Forall_forall in Hi. apply list_elem_of_In, Hi in Hin as [(l & HR & _) Hok].
    unfold MarshalJSON. rewrite HR. apply jesc_jwf. auto. }
  assert (Hs : forall x, jwf (json_str x) = true) by (intros; apply encode_body_valid).
  assert (Hc : jwf (int_field (r_CompletedAt r)) = true).
  { destruct (r_CompletedAt r) as [t|]; [|done]. apply int_text_valid. }
  assert (Hb : forall b, jwf (bool_field b) = true) by (by intros [[]|]).
  assert (Hcr : jwf (JNum (int_text (r_CreatedAt r))) = true) by apply int_text_valid.
  assert (Hp : jwf (if decide (r_PreviousResponseID r = "") then JNull else json_str (r_PreviousResponseID r)) = true)
    by (case_decide; auto).
  assert (Hcv : forall c, jwf (conversation_json c) = true).
  { intros c. unfold conversation_json. cbn [jwf forallb fst snd]. by rewrite Hs. }
  cbn [jwf]. rewrite !forallb_app. apply andb_true_iff. split; [|apply andb_true_iff; split].
  - cbn [forallb fst snd]. rewrite !andb_true_iff. split_and!; auto.
  - destruct (r_Conversation r); [|done]. cbn [forallb fst snd]. by rewrite Hcv.
  - cbn [forallb fst snd]. rewrite !andb_true_iff. split_and!; auto.
Qed.

(** ** Reading the whole response *)

Lemma seen_text r : readable r -> text_or_default (seen (r_Text r)) = seen (r_Text r).
Proof. intros Hr. destruct (rd_format r Hr) as (l & ->). done. Qed.

Lemma fields_read `{MapOrder} r p : readable r -> payload_of_members (response_members r) = Some p ->
  response_of_payload p (response_members r) = set_Output None (read_back r).
Proof.
  intros Hr Hp. rewrite payload_written in Hp by done. injection Hp as <-.
  pose proof (raw_written r) as E. pose proof (raw_written_defaults r Hr) as E'. cbv zeta in E, E'. cbn [map] in E, E'.
  injection E as E1 E2 E3 E4 E5 E6 E7 E8 E9 E10 E11 E12 E13 E14 E15 E16 E17 E18 E19.
  injection E' as F1 F2 F3 F4. destruct (rd_status r Hr) as [Hs Hs'].
  unfold response_of_payload, set_Output, read_back.
  cbn [p_ID p_Object p_CreatedAt p_Status p_CompletedAt p_Model p_PreviousResponseID p_Background p_Store p_OutputText
       r_ID r_Object r_CreatedAt r_Status r_CompletedAt r_Error r_FrequencyPenalty r_IncompleteDetails r_Instructions
       r_MaxOutputTokens r_MaxToolCalls r_Model r_ParallelToolCalls r_PresencePenalty r_PreviousResponseID r_Prompt
       r_PromptCacheKey r_PromptCacheRetention r_Reasoning r_SafetyIdentifier r_ServiceTier r_Conversation r_Background
       r_Store r_Temperature r_Text r_ToolChoice r_Tools r_TopLogprobs r_TopP r_Truncation r_Usage r_User r_Metadata
       r_OutputText].
  rewrite E1, E2, E3, E4, E5, E6, E7, E8, E9, E10, E11, E12, E13, E14, E15, E16, E17, E18, E19, F1, F2, F3, F4.
  rewrite conversation_written, metadata_written, seen_text, Hs by done.
  rewrite !(decide_False (P := r_Status r = "")), (decide_False (P := r_Object r = "")) by (done || apply (rd_object r Hr)).
  by destruct (r_CompletedAt r).
Qed.

(** The output is read, and nothing has to be inferred from it. *)
Lemma finish_read `{UnicodeTable} r items : readable r -> r_Output r = Some items ->
  finish_parsed (set_Output None (read_back r)) (map bare items) = read_back r.
Proof.
  intros Hr Hi. destruct (rd_status r Hr) as [_ Hs]. unfold finish_parsed.
  change (r_OutputText (set_Output None (read_back r))) with (r_OutputText r).
  rewrite (decide_False (P := r_OutputText r = "")) by apply (rd_output_text r Hr).
  destruct (rd_output r Hr) as (items' & Ei & Hne & _). assert (items' = items) as -> by congruence.
  destruct items as [|i items]; [done|]. set (l := map bare (i :: items)).
  replace (match l with [] => if decide (r_OutputText r <> "") then Some [NewOutputTextMessage (r_OutputText r)] else None
           | _ => Some l end) with (Some l) by done.
  assert (Hsame : set_Output (Some l) (set_OutputText (r_OutputText r) (set_Output None (read_back r))) = read_back r).
  { unfold read_back, outputs. rewrite Hi. reflexivity. }
  rewrite Hsame. change (r_Status (read_back r)) with (r_Status r).
  rewrite (bool_decide_false (r_Status r = "")) by done. cbn [andb].
  change (r_Status (read_back r)) with (r_Status r). destruct (EqualFold (r_Status r) "completed") eqn:Ef; [done|].
  destruct (rd_completed r Hr) as [Hc|Hc]; [|congruence]. unfold set_CompletedAt, read_back. by rewrite Hc.
Qed.

Lemma ParseUpstreamResponse_read `{MapOrder} `{UnicodeTable} r : readable r ->
  ParseUpstreamResponse (marshalResponseJSON r) = Ok (read_back r).
Proof.
  intros Hr. unfold ParseUpstreamResponse, marshalResponseJSON. rewrite jparse_jprint by by apply response_jwf.
  change (Some (Response_MarshalJSON r) ≫= struct_members) with (Some (response_members r)). cbv iota.
  pose proof (payload_written r Hr) as Hp. pose proof (fields_read r _ Hr Hp) as Hf. rewrite Hp. cbv iota.
  cbn [p_ID p_Output]. rewrite decide_False by apply (rd_id r Hr).
  destruct (rd_output r Hr) as (items & Ei & _ & Hi). unfold outputs in *. rewrite Ei in *.
  change (default [] (Some items)) with items in *. rewrite parse_output_bare by done. simpl. f_equal.
  rewrite Hf. by apply finish_read.
Qed.

(** ** What the row adds *)

(** A response that is finished: its times and flags are set. *)
Record settled (r : Response) : Prop := {
  st_created : r_CreatedAt r <> 0%Z;
  st_done : EqualFold (r_Status r) "completed" = true -> r_CompletedAt r <> None;
  st_store : r_Store r <> None;
  st_background : r_Background r <> None
}.

Lemma hydrated_read_back r requestJSON : HydrateResponseRequestSurface r requestJSON = r ->
  HydrateResponseRequestSurface (read_back r) requestJSON = read_back r.
Proof.
  unfold HydrateResponseRequestSurface. set (fields := default [] _). clearbody fields. intros Hh.
  assert (Hp : r_PreviousResponseID (hydrate_surface fields r) = r_PreviousResponseID r) by (by rewrite Hh).
  assert (Hc : r_Conversation (hydrate_surface fields r) = r_Conversation r) by (by rewrite Hh).
  cbn [r_PreviousResponseID r_Conversation hydrate_surface] in Hp, Hc.
  unfold hydrate_surface.
  change (r_PreviousResponseID (read_back r)) with (r_PreviousResponseID r).
  change (r_Conversation (read_back r)) with (r_Conversation r). rewrite Hp, Hc. reflexivity.
Qed.

(** A row that was written for [r]. *)
Definition row_of (r : Response) (stored : StoredResponse) : Prop :=
  sr_ID stored = r_ID r /\ sr_Model stored = r_Model r /\ sr_PreviousResponseID stored = r_PreviousResponseID r /\
  sr_ConversationID stored = ConversationReferenceID (r_Conversation r) /\ sr_ResponseJSON stored = marshalResponseJSON r.

Lemma read_back_output r : readable r -> outputs (read_back r) <> [].
Proof.
  intros Hr. destruct (rd_output r Hr) as (items & Ei & Hne & _). unfold read_back, outputs. cbn [r_Output default].
  rewrite Ei. by destruct items.
Qed.

(** None of the statements changes anything. *)
Lemma steps_keep `{MapOrder} `{UnicodeTable} r stored : readable r -> settled r -> row_of r stored ->
  Forall (fun step => step (read_back r) = read_back r) (hydrate_steps stored).
Proof.
  intros Hr Hset (R1 & R2 & R3 & R4 & _). unfold hydrate_steps. repeat apply Forall_cons_2; [..|apply Forall_nil_2].
  - by rewrite decide_False by apply (rd_id r Hr).
  - by rewrite decide_False by apply (rd_object r Hr).
  - destruct (decide _); [|done]. by rewrite R2.
  - destruct (decide _); [|done]. by rewrite R3.
  - change (r_Conversation (read_back r)) with (r_Conversation r). rewrite R4.
    destruct (r_Conversation r) as [c|] eqn:Ec; [done|]. unfold set_Conversation, read_back. by rewrite Ec.
  - change (r_Text (read_back r)) with (seen (r_Text r)). by destruct (rd_format r Hr) as (l & ->).
  - change (r_Metadata (read_back r)) with (r_Metadata r). by destruct (rd_metadata r Hr) as (m & -> & _).
  - change (r_Store (read_back r)) with (r_Store r). pose proof (st_store r Hset). by destruct (r_Store r).
  - change (r_Background (read_back r)) with (r_Background r). pose proof (st_background r Hset). by destruct (r_Background r).
  - by rewrite (proj2 (Z.eqb_neq (r_CreatedAt (read_back r)) 0) (st_created r Hset)).
  - by rewrite decide_False by apply (rd_status r Hr).
  - change (r_Status (read_back r)) with (r_Status r). change (r_CompletedAt (read_back r)) with (r_CompletedAt r).
    destruct (EqualFold (r_Status r) "completed") eqn:Ef.
    + pose proof (st_done r Hset Ef). by destruct (r_CompletedAt r).
    + destruct (rd_completed r Hr) as [Hn|]; [|congruence]. unfold set_CompletedAt, read_back. by rewrite Hn.
  - by rewrite decide_False by apply (rd_output_text r Hr).
  - by rewrite (bool_decide_false (outputs (read_back r) = [])) by by apply read_back_output.
  - by rewrite (bool_decide_false (outputs (read_back r) = [])), andb_false_r by by apply read_back_output.
Qed.

Lemma ResponseFromStored_read `{MapOrder} `{UnicodeTable} r stored : readable r -> settled r -> row_of r stored ->
  HydrateResponseRequestSurface r (sr_RequestJSON stored) = r -> ResponseFromStored stored = read_back r.
Proof.
  intros Hr Hset Hrow Hh. unfold ResponseFromStored. destruct (Hrow) as (_ & _ & _ & _ & Hj). rewrite Hj.
  assert (Ht : TrimSpace (marshalResponseJSON r) = marshalResponseJSON r) by apply TrimSpace_obj.
  rewrite Ht, (decide_True (P := marshalResponseJSON r <> "")) by apply jprint_obj_not_empty.
  rewrite ParseUpstreamResponse_read by done. unfold hydrateStoredResponse.
  assert (Hf : forall steps, Forall (fun step => step (read_back r) = read_back r) steps ->
    foldl (fun r step => step r) (read_back r) steps = read_back r).
  { induction 1 as [|step steps Hs _ IH]; [done|]. simpl. by rewrite Hs. }
  rewrite Hf by by apply steps_keep. by apply hydrated_read_back.
Qed.

(** ** The responses the service makes *)

Lemma settled_json t : jesc t = t -> jwf t = true -> escapable t.
Proof. by right. Qed.

(** What a response repeats of its request can be escaped. *)
Lemma request_fields_ok requestJSON : (forall t, jparse (TrimSpace requestJSON) = Some t -> jok t = true) ->
  Forall (fun kv => valid_utf8 kv.1 = true /\ escapable kv.2)
    (default [] (parseResponseRequestFields (SanitizeResponseRequestSurfaceJSON requestJSON))).
Proof.
  intros Hj. destruct (jparse (TrimSpace requestJSON)) as [t|] eqn:Hp.
  - specialize (Hj t eq_refl). destruct (raw_map t) as [f|] eqn:Ef.
    2:{ unfold SanitizeResponseRequestSurfaceJSON. case_decide as He; [apply Forall_nil_2|]. rewrite Hp.
        assert (forall s, match t with JNull => "null" | _ => s end = s) as -> by (by destruct t). rewrite Ef.
        unfold parseResponseRequestFields. rewrite decide_False, Hp by done. simpl. rewrite Ef. apply Forall_nil_2. }
    destruct t as [| | | | |l]; try done.
    { unfold SanitizeResponseRequestSurfaceJSON. case_decide; [apply Forall_nil_2|]. rewrite Hp. apply Forall_nil_2. }
    rewrite (sanitized_fields requestJSON l _ Hp Hj eq_refl). destruct (clean_fields_ok (JObj l) _ Hj eq_refl) as [_ Hc].
    simpl. apply Forall_map. eapply Forall_impl; [exact Hc|]. intros [k v] [Hk Hv]. split; [done|]. cbn [snd] in *.
    apply settled_json; [|by apply escapable_jwf]. destruct Hv as [Hv|[Hv _]]; [by apply jesc_idemp|by rewrite !Hv].
  - unfold SanitizeResponseRequestSurfaceJSON. case_decide as He; [apply Forall_nil_2|]. rewrite Hp. unfold parseResponseRequestFields.
    rewrite decide_False by done. rewrite Hp. apply Forall_nil_2.
Qed.

Lemma raw_map_json_settled fields : am_sorted fields = true -> Forall (fun kv => valid_utf8 kv.1 = true /\ escapable kv.2) fields ->
  escapable (raw_map_json fields).
Proof.
  intros Hs Hf. destruct (raw_map_json_read fields Hs Hf) as [Hw _]. apply settled_json; [|done].
  unfold raw_map_json. cbn [jesc]. f_equal. rewrite map_map. apply map_ext_in. intros [k v] Hin%list_elem_of_In.
  rewrite Forall_forall in Hf. apply Hf in Hin as [_ Hv]. cbn [fst snd] in *. rewrite esc_lit_encode. f_equal.
  destruct Hv as [Hv|[Hv _]]; [by apply jesc_idemp|by rewrite !Hv].
Qed.

Lemma reasoning_ok raw : raw_ok raw -> raw_ok (normalizeReasoningRaw raw).
Proof.
  destruct raw as [t|]; [|done]. simpl. intros He. destruct (raw_map t) as [payload|] eqn:Ep; [|done].
  destruct (escapable_members t payload He Ep) as [Hs Hf]. destruct payload as [|kv payload]; [by left|]. set (m := kv :: payload) in *. clearbody m.
  assert (Hins : forall k m, valid_utf8 k = true -> am_sorted m = true -> Forall (fun kv => valid_utf8 kv.1 = true /\ escapable kv.2) m ->
    let m' := match am_lookup k m with Some _ => m | None => am_insert k rawJSONNull m end in
    am_sorted m' = true /\ Forall (fun kv => valid_utf8 kv.1 = true /\ escapable kv.2) m').
  { intros k m1 Hk H1 H2. cbv zeta. destruct (am_lookup k m1); [done|]. split; [by apply am_insert_sorted|].
    apply am_insert_Forall; [|done]. split; [done|by left]. }
  destruct (Hins "effort" m eq_refl Hs Hf) as [Hs1 Hf1]. destruct (Hins "summary" _ eq_refl Hs1 Hf1) as [Hs2 Hf2].
  by apply raw_map_json_settled.
Qed.

(** A text configuration that was accepted. *)
Lemma text_config_escapable `{MapOrder} `{UnicodeTable} textConfig config :
  (forall t, jparse (TrimSpace textConfig) = Some t -> jok t = true) ->
  ParseResponseTextConfig textConfig = Ok config -> escapable (MarshalResponseTextConfig config).
Proof.
  intros Hj Hp. assert (Hf : format_ok (tc_Format config)).
  { unfold ParseResponseTextConfig in Hp. case_decide; [injection Hp as <-; by left; left|].
    destruct (jparse (TrimSpace textConfig)) as [t|]; [|done]. by apply (parse_config_ok t); [apply Hj|]. }
  destruct config as [f]. cbn [tc_Format] in Hf. destruct Hf as [[->| ->]|(name & strict & l & -> & Hjok & _)]; [by left..|].
  unfold MarshalResponseTextConfig, text_config_json, omit_string. cbn [tc_Format tf_Type tf_Name tf_Strict tf_Schema].
  pose proof (jesc_jwf _ Hjok) as Hw. pose proof (jesc_idemp _ Hjok) as He. generalize dependent (jesc (JObj l)). intros t Hw He.
  assert (Hstr : forall s, jesc (json_str s) = json_str s) by (intros s; unfold json_str; cbn [jesc]; by rewrite esc_lit_encode).
  apply settled_json; case_decide; destruct strict; cbn [jesc jwf app map forallb fst snd]; rewrite ?Hstr, ?He, ?Hw; try reflexivity;
    cbn [jwf json_str]; rewrite ?encode_body_valid; reflexivity.
Qed.

Lemma usage_escapable a b : escapable (BuildSyntheticUsage a b).
Proof. left. unfold BuildSyntheticUsage, jok. cbn [jwf jutf8 forallb fst snd]. by rewrite !int_text_valid. Qed.

(** The fields a finished response has of its draft. *)
Lemma finalized `{MapOrder} `{UnicodeTable} textConfig ctx r r' : FinalizeLocalResponse textConfig ctx r = Ok r' -> r_Usage r = None ->
  exists config a b text out, ParseResponseTextConfig textConfig = Ok config /\
    r' = set_Output out (set_OutputText text (set_Usage (Some (BuildSyntheticUsage a b)) (set_Text (Some (MarshalResponseTextConfig config)) r))) /\
    (out = r_Output r \/ exists item, out = Some [item]).
Proof.
  intros Hf Hu. unfold FinalizeLocalResponse in Hf. apply res_bind_ok in Hf as (config & Hc & Hf). apply res_bind_ok in Hf as ([] & _ & Hf).
  unfold ensureLocalResponseUsage in Hf. change (r_Usage (set_Text ?t r)) with (r_Usage r) in Hf. rewrite Hu in Hf. cbv zeta in Hf.
  set (r1 := set_Usage _ _) in Hf. assert (Hn : r' = r1 \/ r' = normalizeLocalStructuredOutput r1).
  { destruct (negb _); [injection Hf as <-; by left|]. case_decide.
    { apply res_bind_ok in Hf as ([] & _ & Hf). apply res_bind_ok in Hf as ([] & _ & [= <-]). by right. }
    case_decide; [|injection Hf as <-; by left]. apply res_bind_ok in Hf as ([] & _ & [= <-]). by right. }
  assert (Hsame : forall x : Response, x = set_Output (r_Output x) (set_OutputText (r_OutputText x) x)) by (by intros []).
  assert (exists text out, r' = set_Output out (set_OutputText text r1) /\ (out = r_Output r \/ exists item, out = Some [item]))
    as (text & out & -> & Hout); [|by eauto 9].
  destruct Hn as [->|Hn]; [eexists _, _; split; [exact (Hsame r1)|by left]|]. clear Hf. unfold normalizeLocalStructuredOutput in Hn. cbv zeta in Hn.
  destruct (decide _) in Hn; subst r'; eexists _, _; (split; [first [exact (Hsame r1)|reflexivity]|]); [by left|right; eauto].
Qed.

Lemma metadata_normalized `{MapOrder} raw m : NormalizeResponseMetadata raw = Ok m ->
  metadata_ok m = true /\ metadata_fits (text_values m) = true.
Proof.
  unfold NormalizeResponseMetadata. intros Hn. destruct (normalizeMetadata_cases raw "metadata") as [Hempty Hcases].
  destruct (decide (TrimSpace raw = "" \/ TrimSpace raw = "null")) as [Hb|Hb]; [rewrite Hempty in Hn by done; by injection Hn as <-|].
  specialize (Hcases ltac:(tauto) ltac:(tauto)). destruct (jparse (TrimSpace raw) ≫= any_map) as [[payload|]|] eqn:E.
  2:{ rewrite Hcases in Hn. by injection Hn as <-. }
  2:{ destruct Hcases as [msg Hm]. congruence. }
  destruct (metadata_fits payload) eqn:Ef; [|destruct Hcases as [msg Hm]; congruence]. rewrite Hcases in Hn. injection Hn as <-.
  apply bind_Some in E as (t & _ & Ht%any_map_gwf). unfold gwf_map in Ht. apply andb_true_iff in Ht as [Hs Hv].
  assert (Htv : text_values (map NormProps.entry_text payload) = payload).
  { unfold metadata_fits in Ef. apply andb_true_iff in Ef as [_ Hok]. clear -Hok. induction payload as [|[k v] payload IH]; [done|].
    simpl in Hok |- *. apply andb_true_iff in Hok as [Ho Hok]. rewrite IH by done. f_equal. unfold NormProps.entry_ok in Ho. simpl in Ho. destruct v; try by rewrite andb_false_r in Ho. done. }
  rewrite Htv. split; [|done]. unfold metadata_ok. apply andb_true_iff. split; [unfold am_sorted; by rewrite map_entry_text_keys|].
  rewrite forallb_forall in Hv. apply forallb_forall. intros kv (kv' & <- & Hin)%in_map_iff. apply Hv in Hin as [Hk Hx]%andb_true_iff.
  destruct kv' as [k v]. cbn [NormProps.entry_text fst snd] in *. rewrite Hk. destruct v; done.
Qed.

(** Filling in the fields of the request twice is filling them in once. *)
Lemma coalesce_some a b d : coalesceRawMessage (coalesceRawMessage a b (Some d)) b (Some d) = coalesceRawMessage a b (Some d).
Proof. by destruct a, b. Qed.

Lemma hydrate_twice fields r items :
  hydrate_surface fields (set_Output items (hydrate_surface fields r)) = set_Output items (hydrate_surface fields r).
Proof.
  unfold set_Output, hydrate_surface. cbn [r_ID r_Object r_CreatedAt r_Status r_CompletedAt r_Error r_FrequencyPenalty r_IncompleteDetails r_Instructions
       r_MaxOutputTokens r_MaxToolCalls r_Model r_Output r_ParallelToolCalls r_PresencePenalty r_PreviousResponseID r_Prompt
       r_PromptCacheKey r_PromptCacheRetention r_Reasoning r_SafetyIdentifier r_ServiceTier r_Conversation r_Background
       r_Store r_Temperature r_Text r_ToolChoice r_Tools r_TopLogprobs r_TopP r_Truncation r_Usage r_User r_Metadata
       r_OutputText]. cbv zeta. rewrite !coalesce_some. f_equal.
  - destruct (decide (r_PreviousResponseID r = "")); [by case_decide|by rewrite decide_False].
  - destruct (r_Conversation r); [done|]. by destruct (requestConversationReference fields).
Qed.

(** The response that a request makes. *)
Definition made_response `{UnicodeTable} (input : CreateResponseInput) (response : Response) : Prop :=
  exists id text createdAt config a b text' out metadata items,
    response = set_Output (Some items) (HydrateResponseRequestSurface
      (set_Background (BoolPtr (in_background input)) (set_Store (BoolPtr (public_store input)) (set_Metadata (Some metadata)
        (set_Output out (set_OutputText text' (set_Usage (Some (BuildSyntheticUsage a b)) (set_Text (Some (MarshalResponseTextConfig config))
          (NewResponse id (i_Model input) text (i_PreviousResponseID input) (i_ConversationID input) createdAt))))))))
      (i_RequestJSON input)) /\
    id <> "" /\ escapable (MarshalResponseTextConfig config) /\ metadata_ok metadata = true /\ metadata_fits (text_values metadata) = true.

Definition valid_documents (input : CreateResponseInput) : Prop :=
  (forall t, jparse (TrimSpace (i_RequestJSON input)) = Some t -> jok t = true) /\
  (forall t, jparse (TrimSpace (i_TextConfig input)) = Some t -> jok t = true).

(** Its texts are valid, and its clock has started. *)
Definition valid_texts (response : Response) : Prop :=
  Forall (fun s => valid_utf8 s = true) (ConversationReferenceID (r_Conversation response) :: text_fields response) /\
  r_OutputText response <> "" /\ is_int (r_CreatedAt response) = true /\ r_CreatedAt response <> 0%Z.

Lemma conversation_named c : (exists id, NewConversationReference id = Some c) \/ (exists raw, extractConversationReference raw = Some c) ->
  TrimSpace (cref_ID c) = cref_ID c /\ cref_ID c <> "".
Proof.
  assert (Hn : forall id, NewConversationReference id = Some c -> TrimSpace (cref_ID c) = cref_ID c /\ cref_ID c <> "").
  { intros id. unfold NewConversationReference. case_decide; [done|]. intros [= <-]. simpl. split; [apply TrimSpace_idemp|done]. }
  intros [[id Hc]|[raw Hc]]; [by eapply Hn|]. destruct raw as [[| | | | |l]|]; try done; simpl in Hc; [by eapply Hn|]. destruct (field_string "id" l); [by eapply Hn|done].
Qed.

Section created.
Context `{UnicodeTable}.

Lemma coalesce_ok a b d : a = None -> raw_ok b -> escapable d -> raw_ok (coalesceRawMessage a b (Some d)).
Proof. intros -> Hb Hd. by destruct b. Qed.

Lemma made_raw input response : valid_documents input -> made_response input response -> Forall raw_ok (raw_fields response).
Proof.
  intros [Hreq _] (id & text & createdAt & config & a & b & text' & out & metadata & items & -> & _ & Hconfig & _).
  unfold HydrateResponseRequestSurface. pose proof (request_fields_ok _ Hreq) as Hf. set (fields := default [] _) in *. clearbody fields.
  assert (Hl : forall k, raw_ok (am_lookup k fields)).
  { intros k. destruct (am_lookup k fields) as [t|] eqn:E; [|done]. apply am_lookup_elem in E. rewrite Forall_forall in Hf. by apply (Hf (k, t)). }
  unfold NewResponse. cbv zeta. unfold raw_fields. repeat apply Forall_cons_2; try apply Forall_nil_2; destruct (decide (i_PreviousResponseID input <> ""));
    cbn [set_Output hydrate_surface r_Error r_FrequencyPenalty r_IncompleteDetails r_Instructions r_MaxOutputTokens r_MaxToolCalls
         r_ParallelToolCalls r_PresencePenalty r_Prompt r_PromptCacheKey r_PromptCacheRetention r_Reasoning r_SafetyIdentifier r_ServiceTier
         r_Temperature r_Text r_ToolChoice r_Tools r_TopLogprobs r_TopP r_Truncation r_Usage r_User];
    first [exact I|exact Hconfig|apply usage_escapable|apply coalesce_ok; [reflexivity|first [apply Hl|apply reasoning_ok, Hl]|by left]].
Qed.

Lemma made_fields input response : made_response input response ->
  (r_ID response <> "" /\ r_Object response = "response" /\ r_Status response = "completed" /\
   r_CompletedAt response = Some (r_CreatedAt response)) /\
  (r_ServiceTier response <> None /\ r_TopLogprobs response <> None /\ r_FrequencyPenalty response <> None /\
   r_PresencePenalty response <> None) /\
  (exists l, r_Text response = Some (JObj l)) /\ (exists items, r_Output response = Some items) /\
  (exists m, r_Metadata response = Some m /\ metadata_ok m = true /\ metadata_fits (text_values m) = true) /\
  (forall c, r_Conversation response = Some c -> TrimSpace (cref_ID c) = cref_ID c /\ cref_ID c <> "") /\
  r_Store response <> None /\ r_Background response <> None.
Proof.
  intros (id & text & createdAt & config & a & b & text' & out & metadata & items & -> & Hid & _ & Hm & Hfits).
  unfold HydrateResponseRequestSurface, NewResponse. cbv zeta. set (fields := default [] _). clearbody fields.
  assert (Hco : forall o d, coalesceRawMessage None o (Some d) <> None) by (by intros []).
  destruct (decide (i_PreviousResponseID input <> "")).
  all: split; [by split_and!|]. all: split; [split_and!; apply Hco|]. all: split; [eexists; reflexivity|]. all: split; [eexists; reflexivity|].
  all: split; [exists metadata; by split_and!|]. all: split; [|by split].
  all: intros c Hc; apply conversation_named; cbn [set_Output hydrate_surface r_Conversation set_Background set_Store set_Metadata set_OutputText
    set_Usage set_Text set_Conversation] in Hc.
  all: destruct (NewConversationReference (i_ConversationID input)) eqn:Ec; [left; injection Hc as <-; eauto|right; eauto].
Qed.

Lemma made_readable input response : valid_documents input -> made_response input response -> valid_texts response ->
  Forall storable (outputs response) -> outputs response <> [] ->
  readable response /\ settled response /\ HydrateResponseRequestSurface response (i_RequestJSON input) = response.
Proof.
  intros Hdoc Hmade (Hvalid & Htext & Hint & Hzero) Hout Hne. pose proof (made_raw _ _ Hdoc Hmade) as Hraw.
  destruct (made_fields _ _ Hmade) as ((F1 & F2 & F3 & F4) & Hd & Ht & (items & Ho) & Hm & Hc & Hs & Hb).
  apply Forall_cons in Hvalid as [Hcv Hvalid]. split_and!.
  - split; [exact Hvalid|exact F1|by rewrite F2|by rewrite F3|by rewrite F3; right|by rewrite F4|exact Hraw|exact Hd|exact Ht| |exact Hm| |exact Htext].
    + destruct (r_Conversation response) as [c|]; [|done]. destruct (Hc c eq_refl) as [Hc1 Hc2]. split; [|done]. simpl in Hcv. by rewrite Hc1 in Hcv.
    + exists items. unfold outputs in *. rewrite Ho in *. split; [done|]. split; [done|]. eapply Forall_impl; [exact Hout|]. intros i (Hi & Hj & _). by split.
  - split; [done| |done|done]. intros _. by rewrite F4.
  - destruct Hmade as (id & text & createdAt & config & a & b & text' & out & metadata & items' & -> & _).
    unfold HydrateResponseRequestSurface. apply hydrate_twice.
Qed.
End created.

Lemma EnsureItemIDs_length `{IdSource} items n out n' : EnsureItemIDs items n = (Ok out, n') -> length out = length items.
Proof.
  intros Hm%st_map_ok. by apply Forall2_length in Hm.
Qed.

(** A response that is kept for the client is stored under its identifier. *)
Lemma persist_row `{Sqlite} `{IdSource} `{MapOrder} `{UnicodeTable} input conversation stored normalizedInput output w w' :
  public_store input = true -> persist input conversation stored normalizedInput output w = (Ok tt, w') ->
  responses (db_of w') !! sr_ID stored = Some (response_row_of stored).
Proof.
  intros Hpub. unfold persist. rewrite Hpub, !orb_true_r. case_decide; unfold on_store.
  - destruct (SaveResponseAndAppendConversation _ _ _ _ _) as [r w1] eqn:E. intros [= -> <-].
    apply SaveResponseAndAppendConversation_ok in E as (row & rs & _ & _ & _ & [Happ _ _] & _).
    unfold db_of. cbn [s_world]. rewrite Happ. apply lookup_insert_eq.
  - destruct (SaveResponse _ _) as [r w1] eqn:E. intros [= -> <-]. apply SaveResponse_ok in E.
    unfold db_of. cbn [s_world]. rewrite E. apply lookup_insert_eq.
Qed.

(** What a request that is stored leaves behind. *)
Lemma Create_stores `{Sqlite} `{IdSource} `{MapOrder} `{UnicodeTable} `{RequestContext} `{TextModel} `{Generator} `{Clock}
    s input w response w' : valid_documents input -> public_store input = true -> Create s input w = (Ok response, w') ->
  made_response input response /\ outputs response <> [] /\ exists normalizedInput effectiveInput,
    responses (db_of w') !! r_ID response = Some (response_row_of (stored_response input response normalizedInput effectiveInput)).
Proof.
  intros [_ Hdoc] Hpub Hb. unfold Create in Hb. apply st_bind_ok in Hb as (p & wa & Hp & Hb).
  assert (Hid : pr_ResponseID p <> "").
  { unfold prepareCreate in Hp. apply st_bind_ok in Hp as (pc & w1 & _ & Hp). apply st_bind_ok in Hp as (id & w2 & Hid & Hp).
    apply st_bind_ok in Hp as (now & w3 & _ & [= <- _]). simpl.
    unfold st_wrap, on_ids, on_store, draw, NewPrefixedID in Hid. destruct (uuid_v7 _) as [u|]; [|done]. injection Hid as <- _. done. }
  apply st_bind_ok in Hb as (p' & wb & Ha & Hb). apply applyAutomaticCompaction_ok in Ha as (Hpid & _).
  apply st_bind_ok in Hb as ([ctx b] & wc & _ & Hb). apply st_bind_ok in Hb as (config & wd & _ & Hb).
  apply st_bind_ok in Hb as (text & we & _ & Hb). pose proof (completeCreate_ok s _ _ _ _ _ _ _ Hb) as (ni & ei & w1 & w2 & _ & _ & _ & _ & Hper & Hmem & Hrid).
  unfold completeCreate in Hb. apply st_bind_ok in Hb as (r0 & w3 & Hf & Hb). injection Hf as Hf _.
  apply st_bind_ok in Hb as (metadata & w4 & Hm & Hb). injection Hm as Hm _. apply st_bind_ok in Hb as (ni' & w5 & _ & Hb).
  apply st_bind_ok in Hb as (ei' & w6 & _ & Hb). apply st_bind_ok in Hb as (output & w7 & Ho & Hb).
  apply st_bind_ok in Hb as ([] & w8 & _ & Hb). apply st_bind_ok in Hb as ([] & w9 & _ & [= Hresp _]).
  apply finalized in Hf as (config' & a & b' & text' & out & Hconfig & -> & Hout).
  2: { unfold NewResponse. cbv zeta. by destruct (decide _). }
  pose proof (text_config_escapable _ _ Hdoc Hconfig) as Hesc. apply metadata_normalized in Hm as [Hm1 Hm2]. split; [|split].
  - subst response. unfold made_response. do 10 eexists. split; [reflexivity|]. split; [by rewrite Hpid|done].
  - unfold on_ids, on_store, draw in Ho. destruct (EnsureItemIDs _ _) as [ro n'] eqn:En in Ho. injection Ho as -> _. apply EnsureItemIDs_length in En.
    rewrite length_app in En. subst response. unfold outputs in *. cbn [set_Output r_Output default] in *. intros Hnil. change (output = []) in Hnil. rewrite Hnil in En. cbn [length] in En.
    destruct Hout as [-> | [item ->]]; [|simpl in En; lia]. revert En. unfold NewResponse. cbv zeta. destruct (decide _); simpl; lia.
  - exists ni, ei. apply persist_row in Hper; [|done]. destruct Hmem as [notes Hmem]. unfold db_of in *. by rewrite Hmem.
Qed.

(** C16 (roundtrip): a response that Create returned for a request that is stored
    is found again under its identifier: as long as its row is there, Get returns
    it as it was returned to the client, up to the escaping of its raw messages,
    absent ones being null, and without the metadata of its items.  The request's
    documents and the response's texts are valid UTF-8, the response has a text,
    and the items of its row are storable. *)
Theorem Get_returns_stored_response `{Sqlite} `{IdSource} `{MapOrder} `{UnicodeTable} `{RequestContext} `{TextModel} `{Generator}
    `{Clock} s input w response w1 :
  (forall n, stmt_fails n = false) -> valid_documents input -> public_store input = true ->
  Create s input w = (Ok response, w1) -> valid_texts response ->
  exists normalizedInput effectiveInput, let stored := stored_response input response normalizedInput effectiveInput in
    responses (db_of w1) !! r_ID response = Some (response_row_of stored) /\
    (response_storable stored -> forall w2, responses (db_of w2) !! r_ID response = responses (db_of w1) !! r_ID response ->
     exists w3, GetStored (r_ID response) w2 = (Ok (read_back response), w3) /\ db_of w3 = db_of w2).
Proof.
  intros Hnf Hdoc Hpub Hc Hv. destruct (Create_stores s _ _ _ _ Hdoc Hpub Hc) as (Hmade & Hne & ni & ei & Hrow).
  exists ni, ei. intros stored. split; [exact Hrow|]. intros Hst w2 Hw2. rewrite Hrow in Hw2.
  assert (Hout : Forall storable (outputs response)) by (by destruct Hst as (_ & _ & ?)).
  destruct (made_readable _ _ Hdoc Hmade Hv Hout Hne) as (Hr & Hset & Hh).
  unfold GetStored. rewrite decide_False by apply (rd_id _ Hr).
  unfold on_store, GetResponse, mbind, st_bind, st_lift. rewrite select_response_run by done.
  change (w_db (s_world w2)) with (db_of w2). rewrite Hw2.
  change (r_ID response) with (sr_ID stored) at 1. rewrite scan_response_row by done.
  change (sr_Store (response_view (stored_response input response ni ei))) with (public_store input). rewrite Hpub. cbn [negb].
  rewrite (ResponseFromStored_read response) by done. eexists. split; reflexivity.
Qed.

Section demo.
#[local] Existing Instances reliable zeros_ids sorted_order ascii_only never_cancelled chatty demo_clock demo_generator.

Definition demo_input : CreateResponseInput := demo_request (sq "'hi'") "" "" None.
Definition demo_created : res Response * sworld := Create demo_service demo_input demo_start.
Definition demo_response : Response := match demo_created.1 with Ok r => r | _ => zeroResponse end.

Lemma demo_run : demo_created = (Ok demo_response, demo_created.2).
Proof.
  unfold demo_response. destruct demo_created as [[r|e|] w] eqn:E; [done|..]; apply (f_equal fst) in E; vm_compute in E; discriminate E.
Qed.

Lemma demo_documents : valid_documents demo_input.
Proof. split; intros t Ht; vm_compute in Ht; [injection Ht as <-; vm_compute; reflexivity|discriminate Ht]. Qed.

Lemma demo_texts_valid : valid_texts demo_response.
Proof. split; [|split; [|split]]; [repeat apply Forall_cons_2; try apply Forall_nil_2; vm_compute; reflexivity|vm_compute; discriminate|vm_compute; reflexivity|vm_compute; discriminate]. Qed.

Lemma demo_read : fst (GetStored (r_ID demo_response) demo_created.2) = Ok (read_back demo_response).
Proof. vm_compute. reflexivity. Qed.

Lemma Get_returns_stored_response_witness :
  fst (GetStored (r_ID demo_response) demo_created.2) = Ok (read_back demo_response) /\
  exists normalizedInput effectiveInput, let stored := stored_response demo_input demo_response normalizedInput effectiveInput in
    responses (db_of demo_created.2) !! r_ID demo_response = Some (response_row_of stored) /\
    (response_storable stored -> forall w2,
     responses (db_of w2) !! r_ID demo_response = responses (db_of demo_created.2) !! r_ID demo_response ->
     exists w3, GetStored (r_ID demo_response) w2 = (Ok (read_back demo_response), w3) /\ db_of w3 = db_of w2).
Proof.
  split; [exact demo_read|].
  exact (Get_returns_stored_response demo_service demo_input demo_start demo_response demo_created.2
    (fun _ => eq_refl) demo_documents eq_refl demo_run demo_texts_valid).
Defined.
End demo.
