(* ===== verification/Routing.v ===== *)
(** * Which way a request takes: internal/httpapi/handlers_responses_modes.go,
      mcp_tool_validation.go, and the decoding, the derived endpoints and the
      fallback policy of handlers_responses.go

    A request is decoded and checked, and then answered from the state of the
    shim, passed on, or refused, depending on the mode the shim runs in and on
    what the request needs. *)

From S2P Require Import Prelude GoStr GoFloat GoJson JsonFacts StrFacts GoInt GoTime World Items Normalize Context Store ConvService Compaction Compactor Memory ToolMarkup TextFormat Response LocalGen RespService RespManage Chat ChatStream ApiErrors Sse Streaming Replay Providers Handlers.

Definition ResponsesModePreferLocal : string := "prefer_local".
Definition ResponsesModePreferUpstream : string := "prefer_upstream".
Definition ResponsesModeLocalOnly : string := "local_only".
Definition ResponsesUpstreamTransportResponses : string := "responses".
Definition ResponsesUpstreamTransportChatCompletions : string := "chat_completions".

Definition normalizeResponsesMode (value : string) : string :=
  let value := ToLower (TrimSpace value) in
  if decide (value = ResponsesModePreferUpstream \/ value = ResponsesModeLocalOnly) then value else ResponsesModePreferLocal.

Definition normalizeResponsesUpstreamTransport (value : string) : string :=
  if decide (ToLower (TrimSpace value) = ResponsesUpstreamTransportChatCompletions)
  then ResponsesUpstreamTransportChatCompletions else ResponsesUpstreamTransportResponses.

(** ** Tools of a request *)

(** A map[string]json.RawMessage. *)
Definition raw_fields : Type := list (string * json).

Definition decodeToolList (rawFields : raw_fields) : list (list (string * gval)) :=
  default [] (am_lookup "tools" rawFields ≫= any_map_array).

Definition tool_text (key : string) (tool : list (string * gval)) : string := TrimSpace (asString (am_lookup key tool)).

Definition hasMCPToolDefinitions (rawFields : raw_fields) : bool :=
  existsb (fun tool => bool_decide (tool_text "type" tool = "mcp")) (decodeToolList rawFields).

Definition supportedConnectorIDs : list string :=
  ["connector_dropbox"; "connector_gmail"; "connector_googlecalendar"; "connector_googledrive";
   "connector_microsoftteams"; "connector_outlookcalendar"; "connector_outlookemail"; "connector_sharepoint"].

Definition tools_error {A} (message : string) : res A := Err (NewValidationError "tools" message).

(** The loop over the headers, in the order of the map. *)
Fixpoint check_headers (connector hasAuthorization : bool) (headers : list (string * gval)) : res unit :=
  match headers with
  | [] => Ok tt
  | (key, entry) :: headers =>
      match entry with
      | GStr _ =>
          if negb (EqualFold (TrimSpace key) "Authorization") then check_headers connector hasAuthorization headers
          else if connector then tools_error "connectors must not send headers.Authorization"
          else if hasAuthorization then tools_error "mcp tools must not send both authorization and headers.Authorization"
          else check_headers connector hasAuthorization headers
      | _ => tools_error "mcp.headers must be an object of string values"
      end
  end.

Definition validateMCPToolHeaders `{MapOrder} (value : option gval) (connector hasAuthorization : bool) : res unit :=
  match value with
  | None | Some GNull => Ok tt
  | Some (GMap headers) => check_headers connector hasAuthorization (map_order headers)
  | Some _ => tools_error "mcp.headers must be an object of string values"
  end.

Fixpoint validate_mcp_tools `{MapOrder} (seenLabels : gset string) (tools : list (list (string * gval))) : res unit :=
  match tools with
  | [] => Ok tt
  | tool :: tools =>
      if decide (tool_text "type" tool <> "mcp") then validate_mcp_tools seenLabels tools
      else
        let serverLabel := tool_text "server_label" tool in
        let serverURL := tool_text "server_url" tool in
        let connectorID := tool_text "connector_id" tool in
        let authorization := tool_text "authorization" tool in
        if decide (serverLabel = "") then tools_error "mcp.server_label is required"
        else if decide (serverLabel ∈ seenLabels) then tools_error "duplicate mcp.server_label values are not supported"
        else if Bool.eqb (bool_decide (serverURL = "")) (bool_decide (connectorID = "")) then
          tools_error "mcp tools must set exactly one of server_url or connector_id"
        else if decide (connectorID <> "" /\ connectorID ∉ supportedConnectorIDs) then tools_error "invalid mcp.connector_id"
        else
          _ ← validateMCPToolHeaders (am_lookup "headers" tool) (bool_decide (connectorID <> "")) (bool_decide (authorization <> ""));
          validate_mcp_tools ({[serverLabel]} ∪ seenLabels) tools
  end.

Definition validateMCPToolDefinitions `{MapOrder} (rawFields : raw_fields) : res unit :=
  validate_mcp_tools ∅ (decodeToolList rawFields).

(** ** Context management *)

Definition context_error {A} (message : string) : res A := Err (NewValidationError "context_management" message).

Definition double_quoted (s : string) : string := sq "'" +:+ s +:+ sq "'".

Definition validateCreateResponseContextManagementEntry `{MapOrder} (raw : json) : res unit :=
  match raw_map raw with
  | None => context_error "context_management entries must be objects"
  | Some fields =>
      match am_lookup "type" fields ≫= string_of with
      | None => context_error "context_management entries require type"
      | Some policyType =>
          if decide (TrimSpace policyType = "") then context_error "context_management entries require type"
          else if decide (policyType = "compaction") then
            match head (filter (fun kv => kv.1 ∉ ["type"; "compact_threshold"]) (map_order fields)) with
            | Some kv => context_error ("unsupported context_management field " +:+ double_quoted kv.1 +:+ " in compaction policy")
            | None =>
                match struct_members raw ≫= field_ptr int_of "compact_threshold" with
                | None => context_error "context_management entries must be objects"
                | Some threshold =>
                    if (default 0 threshold <=? 0)%Z
                    then context_error "context_management compaction policy requires compact_threshold > 0"
                    else Ok tt
                end
            end
          else context_error ("unsupported context_management type " +:+ double_quoted policyType)
      end
  end.

(** The field of the request, if it is there. *)
Definition validateCreateResponseContextManagement `{MapOrder} (raw : option json) : res unit :=
  match raw with
  | None | Some JNull => Ok tt
  | Some t =>
      match raw_array t with
      | None => context_error "context_management must be an array"
      | Some entries => _ ← res_map validateCreateResponseContextManagementEntry entries; Ok tt
      end
  end.

(** ** Decoding a request *)

Definition decodeCreateResponseConversationID (raw : option json) : res string :=
  match raw with
  | None | Some JNull => Ok ""
  | Some t =>
      match string_of t with
      | Some conversationID => Ok (TrimSpace conversationID)
      | None =>
          match struct_members t ≫= field_string "id" with
          | Some id => if decide (TrimSpace id = "")
                       then Err (NewValidationError "conversation" "conversation.id is required") else Ok (TrimSpace id)
          | None => Err (NewValidationError "conversation" "conversation must be a string or object with id")
          end
      end
  end.

(** The text of a raw message, empty when the field is absent. *)
Definition raw_text (raw : option json) : string := from_option jprint "" raw.

(** json.Unmarshal into the struct of the payload, less the conversation. *)
Definition request_payload (members : list (string * json)) : option CreateResponseRequest :=
  model ← field_string "model" members;
  store ← field_ptr bool_of "store" members;
  stream ← field_ptr bool_of "stream" members;
  background ← field_ptr bool_of "background" members;
  previous ← field_string "previous_response_id" members;
  instructions ← field_string "instructions" members;
  Some {| q_Model := model; q_Input := raw_text (field_raw "input" members); q_Text := raw_text (field_raw "text" members);
          q_Metadata := raw_text (field_raw "metadata" members);
          q_ContextManagement := raw_text (field_raw "context_management" members); q_Store := store; q_Stream := stream;
          q_StreamOptions := raw_text (field_raw "stream_options" members); q_Background := background;
          q_PreviousResponseID := previous; q_Conversation := ""; q_Instructions := instructions |}.

Definition empty_request : CreateResponseRequest :=
  {| q_Model := ""; q_Input := ""; q_Text := ""; q_Metadata := ""; q_ContextManagement := ""; q_Store := None; q_Stream := None;
     q_StreamOptions := ""; q_Background := None; q_PreviousResponseID := ""; q_Conversation := ""; q_Instructions := "" |}.

Definition with_conversation (request : CreateResponseRequest) (conversation : string) : CreateResponseRequest :=
  {| q_Model := q_Model request; q_Input := q_Input request; q_Text := q_Text request; q_Metadata := q_Metadata request;
     q_ContextManagement := q_ContextManagement request; q_Store := q_Store request; q_Stream := q_Stream request;
     q_StreamOptions := q_StreamOptions request; q_Background := q_Background request;
     q_PreviousResponseID := q_PreviousResponseID request; q_Conversation := conversation;
     q_Instructions := q_Instructions request |}.

Definition decodeCreateResponseRequestBody `{MapOrder} (rawBody : string) (allowEmpty : bool)
    : res (CreateResponseRequest * raw_fields * string) :=
  let trimmed := TrimSpace rawBody in
  if decide (trimmed = "") then if allowEmpty then Ok (empty_request, [], "{}") else Err (ELibrary "EOF")
  else match (t ← jparse trimmed; members ← struct_members t; request ← request_payload members;
              rawFields ← raw_map t; Some (t, members, request, rawFields)) with
  | None => Err (EDecode "request")
  | Some (t, members, request, rawFields) =>
      _ ← validateMCPToolDefinitions rawFields;
      _ ← validateCreateResponseContextManagement (field_raw "context_management" members);
      let requestJSON := SanitizeResponseRequestSurfaceJSON (jprint t) in
      conversationID ← decodeCreateResponseConversationID (field_raw "conversation" members);
      Ok (with_conversation request conversationID, rawFields, requestJSON)
  end.

(** ** Fields the shim handles itself *)

Definition shimLocalGenerationFields : list string :=
  ["temperature"; "top_p"; "frequency_penalty"; "presence_penalty"; "stop"; "reasoning"; "thinking"; "max_output_tokens"].

Definition shimLocalStateBaseFields : list string :=
  ["model"; "input"; "text"; "metadata"; "context_management"; "store"; "stream"; "stream_options"; "previous_response_id";
   "conversation"; "instructions"].

Definition shimLocalDerivedResponsesBaseFields : list string :=
  ["model"; "input"; "text"; "metadata"; "previous_response_id"; "conversation"; "instructions"; "prompt_cache_key";
   "prompt_cache_retention"].

Definition isEmptyJSONArray (raw : json) : bool := match raw_array raw with Some [] => true | _ => false end.

Definition isEmptyNoopLocalField (key : string) (raw : json) : bool :=
  if decide (key ∈ ["include"; "tools"]) then isEmptyJSONArray raw else false.

Definition local_field (base : list string) (kv : string * json) : bool :=
  bool_decide (kv.1 ∈ base) || bool_decide (kv.1 ∈ shimLocalGenerationFields) || isEmptyNoopLocalField kv.1 kv.2.

Definition supportsLocalShimState (rawFields : raw_fields) : bool := forallb (local_field shimLocalStateBaseFields) rawFields.
Definition supportsLocalDerivedResponsesState (rawFields : raw_fields) : bool :=
  forallb (local_field shimLocalDerivedResponsesBaseFields) rawFields.

(** The map is kept in the order of its keys, which the code sorts. *)
Definition unsupportedLocalShimFields (rawFields : raw_fields) : list string :=
  map fst (filter (fun kv => local_field shimLocalStateBaseFields kv = false) rawFields).
Definition unsupportedLocalDerivedFields (rawFields : raw_fields) : list string :=
  map fst (filter (fun kv => local_field shimLocalDerivedResponsesBaseFields kv = false) rawFields).

Definition hasLocalContextManagementRequest (rawFields : raw_fields) : bool :=
  match am_lookup "context_management" rawFields with None | Some JNull => false | Some _ => true end.

Definition joinCSV (values : list string) : string := sjoin ", " values.

Definition newLocalShimUnsupportedFieldsError (responsesMode : string) (rawFields : raw_fields) : goerr :=
  let fields := unsupportedLocalShimFields rawFields in
  NewValidationError "responses.mode"
    (if decide (responsesMode <> ResponsesModeLocalOnly) then
       match fields with
       | [] => "request is not supported by shim-local Responses handling and native /v1/responses proxy is unavailable"
       | _ => "request uses fields that are not supported by shim-local Responses handling and native /v1/responses proxy is unavailable: "
              +:+ joinCSV fields
       end
     else
       match fields with
       | [] => "request is not supported when responses.mode=local_only"
       | _ => "request uses fields that require upstream /v1/responses and are not supported when responses.mode=local_only: "
              +:+ joinCSV fields
       end).

Definition newLocalOnlyUnsupportedDerivedFieldsError (endpoint : string) (rawFields : raw_fields) : goerr :=
  NewValidationError "responses.mode"
    match unsupportedLocalDerivedFields rawFields with
    | [] => "request is not supported when responses.mode=local_only"
    | fields => "request uses fields that require upstream " +:+ endpoint +:+
                " and are not supported when responses.mode=local_only: " +:+ joinCSV fields
    end.

Definition newLocalStateUnsupportedDerivedFieldsError (endpoint : string) (rawFields : raw_fields) : goerr :=
  NewValidationError "input"
    match unsupportedLocalDerivedFields rawFields with
    | [] => "request depends on shim-local state and is not supported by " +:+ endpoint
    | fields => "request depends on shim-local state but uses fields that require upstream " +:+ endpoint +:+ ": " +:+ joinCSV fields
    end.

Definition normalizeLocalOnlyCreateError (responsesMode : string) (e : goerr) : goerr :=
  if bool_decide (responsesMode = ResponsesModeLocalOnly) && errors_is EUnsupportedShape e
  then NewValidationError "input" "input shape is not supported when responses.mode=local_only" else e.

(** ** The route of a request to create a response *)

Inductive responsesCreateRoute :=
| responsesCreateRouteProxy
| responsesCreateRouteLocalWebSearch
| responsesCreateRouteLocalImageGeneration
| responsesCreateRouteLocalFileSearch
| responsesCreateRouteLocalComputer
| responsesCreateRouteLocalMCP
| responsesCreateRouteLocalToolSearch
| responsesCreateRouteLocalCodeInterpreter
| responsesCreateRouteLocalToolLoop
| responsesCreateRouteLocalState
| responsesCreateRouteLocalStateViaUpstream
| responsesCreateRouteLocalOnlyUnsupported
| responsesCreateRouteLocalWebSearchDisabled
| responsesCreateRouteLocalImageGenerationDisabled
| responsesCreateRouteLocalComputerDisabled
| responsesCreateRouteLocalCodeInterpreterDisabled.

#[global] Instance responsesCreateRoute_eq_dec : EqDecision responsesCreateRoute.
Proof. solve_decision. Defined.

Record responsesCreateRouteInputs := {
  NativeResponsesProxy : bool;
  HasLocalState : bool;
  LocalToolLoop : bool;
  LocalToolSearchRequested : bool;
  LocalToolSearch : bool;
  LocalFileSearchRequested : bool;
  LocalFileSearch : bool;
  LocalWebSearchRequested : bool;
  LocalWebSearchRuntimeEnabled : bool;
  LocalWebSearch : bool;
  LocalImageGenerationRequested : bool;
  LocalImageGenerationRuntimeEnabled : bool;
  LocalImageGeneration : bool;
  LocalComputerRequested : bool;
  LocalComputerRuntimeEnabled : bool;
  LocalComputer : bool;
  LocalMCPRequested : bool;
  LocalMCP : bool;
  LocalCodeInterpreterRequested : bool;
  LocalCodeInterpreterRuntimeEnabled : bool;
  LocalCodeInterpreter : bool;
  LocalSupported : bool
}.

Definition selectResponsesCreateRoute (responsesMode : string) (profile : responsesCreateRouteInputs) : responsesCreateRoute :=
  let localOnly := bool_decide (responsesMode = ResponsesModeLocalOnly) in
  if bool_decide (responsesMode = ResponsesModePreferUpstream) && negb (HasLocalState profile) && NativeResponsesProxy profile
  then responsesCreateRouteProxy
  else if LocalWebSearch profile then responsesCreateRouteLocalWebSearch
  else if LocalWebSearchRequested profile && localOnly then
    if negb (LocalWebSearchRuntimeEnabled profile) then responsesCreateRouteLocalWebSearchDisabled
    else responsesCreateRouteLocalWebSearch
  else if LocalImageGeneration profile then responsesCreateRouteLocalImageGeneration
  else if LocalImageGenerationRequested profile && localOnly then
    if negb (LocalImageGenerationRuntimeEnabled profile) then responsesCreateRouteLocalImageGenerationDisabled
    else responsesCreateRouteLocalImageGeneration
  else if LocalFileSearch profile then responsesCreateRouteLocalFileSearch
  else if LocalFileSearchRequested profile && localOnly then responsesCreateRouteLocalFileSearch
  else if LocalComputer profile then responsesCreateRouteLocalComputer
  else if LocalComputerRequested profile && localOnly then
    if negb (LocalComputerRuntimeEnabled profile) then responsesCreateRouteLocalComputerDisabled
    else responsesCreateRouteLocalComputer
  else if LocalMCP profile then responsesCreateRouteLocalMCP
  else if LocalMCPRequested profile && localOnly then responsesCreateRouteLocalMCP
  else if LocalToolSearch profile then responsesCreateRouteLocalToolSearch
  else if LocalToolSearchRequested profile && localOnly then responsesCreateRouteLocalToolSearch
  else if LocalCodeInterpreter profile then responsesCreateRouteLocalCodeInterpreter
  else if LocalCodeInterpreterRequested profile && localOnly then
    if negb (LocalCodeInterpreterRuntimeEnabled profile) then responsesCreateRouteLocalCodeInterpreterDisabled
    else responsesCreateRouteLocalCodeInterpreter
  else if LocalToolLoop profile then responsesCreateRouteLocalToolLoop
  else if LocalSupported profile then responsesCreateRouteLocalState
  else if HasLocalState profile && localOnly then responsesCreateRouteLocalOnlyUnsupported
  else if HasLocalState profile then responsesCreateRouteLocalStateViaUpstream
  else if localOnly then responsesCreateRouteLocalOnlyUnsupported
  else if negb (NativeResponsesProxy profile) then responsesCreateRouteLocalOnlyUnsupported
  else responsesCreateRouteProxy.

(** ** Falling back to the upstream server *)

Section routing.
Context `{Sqlite} `{IdSource} `{MapOrder} `{UnicodeTable} `{RequestContext} `{TextModel} `{Generator} `{Clock} `{LibraryText}.

Definition shouldFallbackLocalState (responsesMode : string) (e : goerr) : bool :=
  if errors_is EUnsupportedShape e then bool_decide (responsesMode <> ResponsesModeLocalOnly)
  else if decide (responsesMode <> ResponsesModePreferUpstream) then false
  else match classifyBackendFailure (Some e) with
       | Some decision => bf_FallbackAllowed decision
       | None =>
           let mapped := MapGeneratorError e in
           errors_is ESvcUpstreamFailure mapped || errors_is ESvcUpstreamTimeout mapped
       end.

Section handler.
Context (h : responseHandler).

Definition handler_shouldFallback (e : goerr) : bool :=
  canProxyNativeResponses h && shouldFallbackLocalState (h_responsesMode h) e.

Definition upstreamProviderRoutingEnabled : bool := Enabled (h_upstreamProviderResolver h).

(** Whether the context of the request got a route. *)
Definition routeContextForResponseModel (model : string) (requireModel : bool) : res bool :=
  if negb upstreamProviderRoutingEnabled then Ok false
  else if decide (TrimSpace model = "") then
    if requireModel then Err (NewValidationError "model" "model must use configured provider/model form") else Ok false
  else
    route ← ContextForModel (h_upstreamProviderResolver h) model;
    Ok (bool_decide (is_Some route)).

Definition canProxyNativeResponsesWithRoute (model : string) (routed : bool) : bool :=
  if negb (canProxyNativeResponses h) then false
  else if negb upstreamProviderRoutingEnabled then true
  else bool_decide (TrimSpace model <> "") && routed.

Definition hasLocalCreateState (request : CreateResponseRequest) : ST sworld bool := fun w =>
  if decide (q_Conversation request <> "") then (Ok true, w)
  else if decide (q_PreviousResponseID request = "") then (Ok false, w)
  else match HasPreviousResponse (q_PreviousResponseID request) w with
  | (Ok ok, w') => (Ok ok, w')
  | (Err e, w') =>
      let mapped := MapStorageError e in
      if errors_is ESvcNotFound mapped then
        if decide (h_responsesMode h = ResponsesModeLocalOnly) then (Err mapped, w') else (Ok false, w')
      else (Err e, w')
  | (Panic, w') => (Panic, w')
  end.

(** ** The derived endpoints *)

Definition derived_input (request : CreateResponseRequest) (requestJSON : string) : CreateResponseInput :=
  {| i_Model := q_Model request; i_Input := q_Input request; i_TextConfig := q_Text request;
     i_Metadata := q_Metadata request; i_ContextManagement := ""; i_Store := None; i_Stream := None; i_Background := None;
     i_ForceShadowStore := false; i_PreviousResponseID := q_PreviousResponseID request;
     i_ConversationID := q_Conversation request; i_Instructions := q_Instructions request;
     i_RequestJSON := requestJSON; i_GenerationOptions := [] |}.

(** inputTokens and compact differ in the call of the service and the name of
    the endpoint; an empty body is a request only for the first. *)
Definition derived (endpoint : string) (allowEmpty : bool) (call : CreateResponseInput -> ST sworld json) (body : body_read)
    : ST sworld reply :=
  match readJSONBody body with
  | inl reply => mret reply
  | inr rawBody =>
      match decodeCreateResponseRequestBody rawBody allowEmpty with
      | Panic => st_lift Panic
      | Err e =>
          mret (if errors_as validation_error e is Some _ then writeError e
                else WriteError 400 "invalid_request_error" "malformed JSON body" "")
      | Ok (request, rawFields, requestJSON) =>
          or_error (st_lift (routeContextForResponseModel (q_Model request) false)) (fun routed =>
          or_error (hasLocalCreateState request) (fun hasLocalState =>
          let localSupported := supportsLocalDerivedResponsesState rawFields in
          let nativeResponsesProxy := canProxyNativeResponsesWithRoute (q_Model request) routed in
          if bool_decide (h_responsesMode h = ResponsesModePreferUpstream) && negb hasLocalState && nativeResponsesProxy
          then mret ForwardReply
          else if localSupported then fun w =>
            match call (derived_input request requestJSON) w with
            | (Ok response, w') => (Ok (JsonReply 200 response), w')
            | (Err e, w') =>
                (Ok (if negb hasLocalState && handler_shouldFallback e && nativeResponsesProxy then ForwardReply
                     else writeError (normalizeLocalOnlyCreateError (h_responsesMode h) e)), w')
            | (Panic, w') => (Panic, w')
            end
          else mret (if hasLocalState then writeError (newLocalStateUnsupportedDerivedFieldsError endpoint rawFields)
                     else if decide (h_responsesMode h = ResponsesModeLocalOnly)
                     then writeError (newLocalOnlyUnsupportedDerivedFieldsError endpoint rawFields)
                     else if nativeResponsesProxy then ForwardReply
                     else writeError (newLocalOnlyUnsupportedDerivedFieldsError endpoint rawFields))))
      end
  end.

Definition input_tokens_json (inputTokens : Z) : json :=
  JObj [("object", json_str "response.input_tokens"); ("input_tokens", json_int inputTokens)].

Definition compaction_json (c : ResponseCompaction) : json :=
  JObj [("id", json_str (co_ID c)); ("object", json_str "response.compaction"); ("created_at", json_int (co_CreatedAt c));
        ("output", JArr (map (fun item => jesc (MarshalJSON item)) (co_Output c))); ("usage", jesc (co_Usage c))].

Definition inputTokens : body_read -> ST sworld reply :=
  derived "/v1/responses/input_tokens" true
    (fun input => count ← CountInputTokens (h_service h) input; mret (input_tokens_json count)).

Definition handle_compact : body_read -> ST sworld reply :=
  derived "/v1/responses/compact" false
    (fun input => compaction ← Compact (h_service h) input; mret (compaction_json compaction)).
End handler.
End routing.
