(* ===== verification/HandlerProps.v ===== *)
(** * What the HTTP handlers answer

    A page of input items is what it is meant to be; the answer to a request
    that appends items to a conversation says what was appended. *)

From S2P Require Import Prelude GoStr GoFloat GoJson JsonFacts StrFacts GoInt GoTime World Items ItemFacts ItemProps Normalize NormProps Context Store StoreFacts StoreProps PageProps ConvService ConvProps StoreInstance Compaction Compactor Memory ToolMarkup TextFormat Response LocalGen RespService RespManage Chat ChatStream ApiErrors ApiErrorProps Sse Streaming Replay ReplayProps Handlers HistoryProps.

(** ** Pages of input items *)

Definition in_order (order : string) (items : list Item) : list Item :=
  if decide (order = ConversationItemOrderDesc) then reverse items else items.

(** The items after the cursor, in the order asked for. *)
Definition rest_after (order after : string) (items : list Item) : option (list Item) :=
  if decide (after = "") then Some (in_order order items)
  else (fun i => drop (S i) (in_order order items)) <$>
       first_index (fun item => bool_decide (TrimSpace (ID item) = after)) (in_order order items).

Lemma first_index_lt {A} (p : A -> bool) l i : first_index p l = Some i -> i < length l.
Proof.
  revert i. induction l as [|x l IH]; intros i; simpl; [done|]. destruct (p x); [intros [= <-]; lia|].
  destruct (first_index p l) as [j|]; [|done]. intros [= <-]. specialize (IH j eq_refl). lia.
Qed.

Lemma last_index_reverse {A} (p : A -> bool) l :
  (fun i => length l - 1 - i) <$> last_index p l = first_index p (reverse l).
Proof.
  induction l as [|x l IH] using rev_ind; [done|]. rewrite reverse_snoc, last_index_app, length_app. simpl.
  destruct (p x); simpl; [f_equal; lia|]. rewrite <-IH. destruct (last_index p l) as [i|] eqn:E; simpl; [|done].
  destruct (last_index_some p l i E) as (y & Hy%lookup_lt_Some & _). f_equal. lia.
Qed.

Lemma ordered_index items order id :
  responseInputItemsOrderedIndex items order id =
  first_index (fun item => bool_decide (TrimSpace (ID item) = id)) (in_order order items).
Proof.
  unfold responseInputItemsOrderedIndex, in_order. cbv zeta. case_decide; [apply last_index_reverse|done].
Qed.

Lemma in_order_length order items : length (in_order order items) = length items.
Proof. unfold in_order. case_decide; [apply length_reverse|done]. Qed.

Lemma item_at_ordered items order i item : in_order order items !! i = Some item ->
  item_at items (responseInputItemsOriginalIndex (Z.of_nat (length items)) order (Z.of_nat i)) = Ok item.
Proof.
  intros Hi. pose proof (lookup_lt_Some _ _ _ Hi) as Hl. rewrite in_order_length in Hl.
  unfold item_at, responseInputItemsOriginalIndex. unfold in_order in Hi. case_decide.
  - rewrite reverse_lookup in Hi by done. replace (_ <? 0)%Z with false by lia.
    replace (Z.to_nat (Z.of_nat (length items) - 1 - Z.of_nat i)) with (length items - S i) by lia. by rewrite Hi.
  - replace (_ <? 0)%Z with false by lia. by rewrite Nat2Z.id, Hi.
Qed.

Lemma page_items_spec items order pos count : pos + count <= length items ->
  page_items items order (Z.of_nat pos) count = Ok (map Map (take count (drop pos (in_order order items)))).
Proof.
  revert pos. induction count as [|count IH]; intros pos Hl; [done|]. cbn [page_items].
  destruct (lookup_lt_is_Some_2 (in_order order items) pos) as [item Hi]; [rewrite in_order_length; lia|].
  rewrite (item_at_ordered _ _ _ _ Hi). cbn [mbind res_bind].
  replace (Z.of_nat pos + 1)%Z with (Z.of_nat (S pos)) by lia. rewrite IH by lia. cbn [mbind res_bind].
  by rewrite (drop_S _ _ _ Hi).
Qed.

(** Fact (equivalence): a page of input items, whichever end it is read from,
    is found by indices into the stored list; it is the first [limit] items
    that follow the cursor in the order asked for, and says that there are more
    exactly when the rest is longer; a cursor that names no item is an error,
    and no index is ever out of range. *)
Theorem paginate_spec items query : (1 <= iq_Limit query)%Z ->
  paginateResponseInputItems items query =
  match rest_after (iq_Order query) (iq_After query) items with
  | None => Err (NewValidationError "after" "after cursor was not found")
  | Some rest => Ok (page_of (map Map (take (Z.to_nat (iq_Limit query)) rest)) (iq_Limit query <? Z.of_nat (length rest))%Z)
  end.
Proof.
  intros Hlimit.
  assert (Hpage : forall start, start <= length items ->
    let len := Z.of_nat (length items) in
    let stop := if (len <? Z.of_nat start + iq_Limit query)%Z then len else (Z.of_nat start + iq_Limit query)%Z in
    (if (stop - Z.of_nat start <? 0)%Z then Panic
     else data ← page_items items (iq_Order query) (Z.of_nat start) (Z.to_nat (stop - Z.of_nat start)); Ok (page_of data (stop <? len)%Z)) =
    Ok (page_of (map Map (take (Z.to_nat (iq_Limit query)) (drop start (in_order (iq_Order query) items))))
          (iq_Limit query <? Z.of_nat (length (drop start (in_order (iq_Order query) items))))%Z)).
  { intros start Hs len stop. unfold stop, len. rewrite length_drop, in_order_length.
    destruct (Z.ltb_spec (Z.of_nat (length items)) (Z.of_nat start + iq_Limit query)) as [Hl|Hl];
      (replace (_ - _ <? 0)%Z with false by lia); rewrite page_items_spec by lia; cbn [mbind res_bind];
      apply (f_equal2 (fun data more => Ok (page_of data more))).
    - rewrite !take_ge; [done|..]; rewrite length_drop, in_order_length; lia.
    - apply eq_true_iff_eq. rewrite !Z.ltb_lt. lia.
    - do 2 f_equal. lia.
    - apply eq_true_iff_eq. rewrite !Z.ltb_lt. lia. }
  unfold paginateResponseInputItems, rest_after. rewrite ordered_index. case_decide.
  - cbn [mbind res_bind]. exact (Hpage 0 (Nat.le_0_l _)).
  - destruct (first_index _ _) as [i|] eqn:E; [|done]. cbn [mbind res_bind fmap option_fmap option_map].
    apply first_index_lt in E. rewrite in_order_length in E.
    replace (Z.of_nat i + 1)%Z with (Z.of_nat (S i)) by lia. by apply Hpage.
Qed.

Definition demo_pages : list Item :=
  map (fun id => item_or_zero (NewItem (sq "{'type':'message','id':'" +:+ id +:+ sq "'}"))) ["a"; "b"; "c"; "d"].

Lemma paginate_spec_witness :
  paginateResponseInputItems demo_pages {| iq_After := "d"; iq_Include := []; iq_Limit := 2; iq_Order := "desc" |} =
  Ok (page_of (map Map (take 2 (drop 1 (reverse demo_pages)))) true).
Proof.
  exact (paginate_spec demo_pages {| iq_After := "d"; iq_Include := []; iq_Limit := 2; iq_Order := "desc" |}
           ltac:(cbn; lia)).
Defined.

(** ** Appending items *)

(** The identifier a client reads is that of the item. *)
Lemma payload_named row : ci_ID row = ID (ci_Item row) -> item_inv (ci_Item row) ->
  exists payload, conversationItemPayload row = Ok payload /\ payloadID payload = ci_ID row.
Proof.
  intros Hid (m & Hm & _)%item_inv_map. unfold conversationItemPayload. cbv zeta. case_decide as Hd.
  - rewrite Hm. eexists. split; [done|]. unfold payloadID. simpl. rewrite am_lookup_insert. simpl. by rewrite Hid, ID_trimmed.
  - eexists. split; [done|]. unfold payloadID in *. rewrite (map_text _ _ Hd). by rewrite Hid.
Qed.

Lemma payloads_named rows : Forall (fun row => ci_ID row = ID (ci_Item row) /\ item_inv (ci_Item row)) rows ->
  exists data, res_map conversationItemPayload rows = Ok data /\ map payloadID data = map ci_ID rows.
Proof.
  induction 1 as [|row rows [Hid Hinv] Hrows (data & Hd & Hn)]; [by exists []|].
  destruct (payload_named row Hid Hinv) as (payload & Hp & Hpn). exists (payload :: data). simpl. rewrite Hp. simpl. rewrite Hd.
  split; [done|]. simpl. by rewrite Hpn, Hn.
Qed.

Section append.
Context {W : Type} `{Cs : ConversationStore W} `{Spec : !ConversationStoreSpec W} `{Hids : IdLaws} `{Ho : MapOrder} `{Ht : LibraryText}.

Lemma error_reply e : exists status body, writeError e = JsonReply status body /\ status <> 200%Z.
Proof.
  unfold writeError. pose proof (MapError_status e) as Hs. destruct (MapError (Some e)) as [status payload]. simpl in Hs.
  eexists _, _. split; [done|]. intros ->. revert Hs. unfold error_statuses. rewrite !elem_of_cons, elem_of_nil. lia.
Qed.

Lemma answer_eq (m : ST W json) w : answer m w =
  match m w with
  | (Ok body, w') => (Ok (JsonReply 200 body), w')
  | (Err e, w') => (Ok (writeError e), w')
  | (Panic, w') => (Panic, w')
  end.
Proof. unfold answer, writeError. destruct (m w) as [[b|e|] w']; try done. by destruct (MapError (Some e)). Qed.

(** What the request did, from its answer. *)
Definition appended (id : string) (w w' : W) (status : Z) (body : json) : Prop :=
  if decide (status = 200%Z) then
    exists version old data,
      contents w id = Some (version, old) /\ 1 <= length data <= 20 /\
      contents w' id = Some (version + 1, old ++ map payloadID data)%Z /\
      body = list_response_json (page_of data false)
  else contents w' id = contents w id.

Lemma not_appended id w w' e : contents w' id = contents w id ->
  match writeError e with JsonReply status body => appended id w w' status body | _ => False end.
Proof.
  intros Hw. destruct (error_reply e) as (status & body & -> & Hs). unfold appended. by rewrite decide_False.
Qed.

Lemma rows_named rows canon : Forall2 ensured canon (map ci_Item rows) -> map ci_ID rows = map ID (map ci_Item rows) ->
  Forall (fun row => ci_ID row = ID (ci_Item row) /\ item_inv (ci_Item row)) rows.
Proof.
  revert canon. induction rows as [|row rows IH]; intros canon Hall Hids'; [constructor|]. simpl in *.
  inversion Hall as [|c o canon' items Hens Hrest]; subst. injection Hids' as Hid Hrest'.
  constructor; [split; [done|apply Hens]|by apply (IH canon')].
Qed.

(** C20 (safety): the answer to a request that appends items tells the client
    what happened to the conversation.  Over any store that keeps its promises
    the handler changes no other conversation and answers every request the
    store does not panic on; status 200 means that between 1 and 20 items were
    appended after the old ones and the version grew by one, and the body lists
    exactly the identifiers that were appended, in order; any other status
    means that the conversation is as it was. *)
Theorem appendItem_answer now id values body w r w' :
  store_ok w -> appendItem now id values body w = (r, w') ->
  store_ok w' /\ (forall c, c <> id -> contents w' c = contents w c) /\
  match r with
  | Ok (JsonReply status body) => appended id w w' status body
  | Ok _ => False
  | Err _ => False
  | Panic => contents w' id = contents w id
  end.
Proof.
  intros Hw. unfold appendItem. destruct (parseConversationItemIncludes values) as [inc|e|] eqn:Ep.
  3:{ revert Ep. unfold parseConversationItemIncludes. by case_decide. }
  2:{ rewrite answer_eq. intros [= <- <-]. split; [done|]. split; [done|]. by apply not_appended. }
  destruct (readJSONBody body) as [reply|rawBody] eqn:Er.
  { intros [= <- <-]. split; [done|]. split; [done|]. destruct body; simpl in Er; try done; by injection Er as <-. }
  rewrite answer_eq, st_bind_eq. unfold st_lift at 1.
  destruct (parseAppendConversationItemsBody rawBody) as [rawItems|e|]; [| |by intros [= <- <-]].
  2:{ intros [= <- <-]. split; [done|]. split; [done|]. by apply not_appended. }
  rewrite st_bind_eq. destruct (AppendItems now id rawItems w) as [ra w1] eqn:Ea.
  destruct (AppendItems_run now id rawItems w ra w1 Hw Ea) as (Hw1 & Hoth & Hcase).
  destruct ra as [rows|e|]; [| |by intros [= <- <-]].
  2:{ intros [= <- <-]. split; [done|]. split; [done|]. by apply not_appended. }
  destruct Hcase as (Hlen & conv & old & w2 & norm & canon & Hget & Hnorm & Hcan & Hens & Hnames & Hold & Hnew).
  destruct (payloads_named rows (rows_named rows canon Hens Hnames)) as (data & Hd & Hn).
  rewrite st_bind_eq. unfold st_lift, conversationItemsPayload. rewrite Hd. cbn [mbind res_bind].
  intros [= <- <-]. split; [done|]. split; [done|]. unfold appended. rewrite decide_True by done.
  exists (cv_Version conv), (map ci_ID old), data. rewrite Hn. split; [done|]. split; [|by split].
  destruct (NormalizeConversationItems_inv _ _ Hnorm) as [_ Hnl]. apply (f_equal length) in Hn. rewrite !length_map in Hn.
  apply Forall2_length in Hens. rewrite length_map in Hens. destruct Hcan as [Hcl _]. rewrite Hn, <-Hens, Hcl, Hnl. done.
Qed.
End append.

Definition some_library : LibraryText := {| library_text _ := "library error" |}.

#[local] Existing Instances reliable zeros_ids zeros_ids_laws sorted_order some_library.

Definition demo_body : body_read :=
  BodyRead (sq "{'items':[{'type':'message','role':'user','content':'one'},{'type':'message','role':'user','content':'two'}]}").

Definition demo_append : ST world reply := appendItem "t2" "conv_1" [] demo_body.

Definition status_of (r : res reply) : Z := match r with Ok (JsonReply status _) => status | _ => 0 end.
Definition body_of (r : res reply) : json := match r with Ok (JsonReply _ body) => body | _ => JNull end.

Lemma appendItem_answer_witness :
  store_ok (after demo_append demo_world) /\ status_of (demo_append demo_world).1 = 200%Z /\
  appended "conv_1" demo_world (after demo_append demo_world) 200 (body_of (demo_append demo_world).1).
Proof.
  assert (Hr : (demo_append demo_world).1 = Ok (JsonReply 200 (body_of (demo_append demo_world).1))) by (vm_compute; reflexivity).
  destruct (appendItem_answer "t2" "conv_1" [] demo_body demo_world (Ok (JsonReply 200 (body_of (demo_append demo_world).1)))
              (after demo_append demo_world)) as (Hok & _ & Ha).
  - apply demo_inv.
  - change (appendItem "t2" "conv_1" [] demo_body) with demo_append. rewrite <-Hr. unfold after. by destruct (demo_append demo_world).
  - split; [exact Hok|]. split; [rewrite Hr; reflexivity|exact Ha].
Defined.
