(* ===== verification/RoutingProps.v ===== *)
(** * Which requests leave the shim

    The route of a request respects the mode; counting tokens and compacting
    change nothing and are passed on only when they may be; what the handler
    accepts as context management, the service understands. *)

From S2P Require Import Prelude GoStr GoFloat GoJson JsonFacts StrFacts GoInt GoTime World Items Normalize NormProps Context Store StoreFacts StoreProps ConvService Compaction Compactor CompactorProps Memory ToolMarkup TextFormat Response LocalGen LocalProps RespService RespManage Chat ChatStream ApiErrors ApiErrorProps Sse SseProps Streaming Replay Providers Handlers Routing ServiceFacts ServiceProps HandlerProps.

(** ** Routes *)

(** The routes on which a request is sent to the upstream /v1/responses. *)
Definition leaves_shim (route : responsesCreateRoute) : Prop :=
  route = responsesCreateRouteProxy \/ route = responsesCreateRouteLocalStateViaUpstream.

(** The runtime a disabled route lacks. *)
Definition missing_runtime (route : responsesCreateRoute) (p : responsesCreateRouteInputs) : Prop :=
  match route with
  | responsesCreateRouteLocalWebSearchDisabled => LocalWebSearchRuntimeEnabled p = false
  | responsesCreateRouteLocalImageGenerationDisabled => LocalImageGenerationRuntimeEnabled p = false
  | responsesCreateRouteLocalComputerDisabled => LocalComputerRuntimeEnabled p = false
  | responsesCreateRouteLocalCodeInterpreterDisabled => LocalCodeInterpreterRuntimeEnabled p = false
  | _ => True
  end.

(** What a route inside the shim is taken for: a tool that is available or asked
    for, or a request without tools that the shim supports. *)
Definition taken_for (route : responsesCreateRoute) (p : responsesCreateRouteInputs) : Prop :=
  match route with
  | responsesCreateRouteLocalWebSearch => LocalWebSearch p = true \/ LocalWebSearchRequested p = true
  | responsesCreateRouteLocalImageGeneration => LocalImageGeneration p = true \/ LocalImageGenerationRequested p = true
  | responsesCreateRouteLocalFileSearch => LocalFileSearch p = true \/ LocalFileSearchRequested p = true
  | responsesCreateRouteLocalComputer => LocalComputer p = true \/ LocalComputerRequested p = true
  | responsesCreateRouteLocalMCP => LocalMCP p = true \/ LocalMCPRequested p = true
  | responsesCreateRouteLocalToolSearch => LocalToolSearch p = true \/ LocalToolSearchRequested p = true
  | responsesCreateRouteLocalCodeInterpreter => LocalCodeInterpreter p = true \/ LocalCodeInterpreterRequested p = true
  | responsesCreateRouteLocalToolLoop => LocalToolLoop p = true
  | responsesCreateRouteLocalState => LocalSupported p = true
  | responsesCreateRouteLocalWebSearchDisabled => LocalWebSearchRequested p = true
  | responsesCreateRouteLocalImageGenerationDisabled => LocalImageGenerationRequested p = true
  | responsesCreateRouteLocalComputerDisabled => LocalComputerRequested p = true
  | responsesCreateRouteLocalCodeInterpreterDisabled => LocalCodeInterpreterRequested p = true
  | _ => False
  end.


(** The theorem at a concrete request: one with a field the shim does not handle. *)
Definition demo_profile (native hasState : bool) : responsesCreateRouteInputs :=
  {| NativeResponsesProxy := native; HasLocalState := hasState; LocalToolLoop := false; LocalToolSearchRequested := false;
     LocalToolSearch := false; LocalFileSearchRequested := false; LocalFileSearch := false; LocalWebSearchRequested := false;
     LocalWebSearchRuntimeEnabled := false; LocalWebSearch := false; LocalImageGenerationRequested := false;
     LocalImageGenerationRuntimeEnabled := false; LocalImageGeneration := false; LocalComputerRequested := false;
     LocalComputerRuntimeEnabled := false; LocalComputer := false; LocalMCPRequested := false; LocalMCP := false;
     LocalCodeInterpreterRequested := false; LocalCodeInterpreterRuntimeEnabled := false; LocalCodeInterpreter := false;
     LocalSupported := supportsLocalShimState [("input", JStr "hi"); ("truncation", JStr "auto")] |}.

(** Fact (error): with an upstream that has only chat completions, a request the
    shim cannot answer is refused, but the same request in a conversation is
    sent to the upstream's /v1/responses. *)
Fact chat_only_upstream_asked_for_responses :
  selectResponsesCreateRoute ResponsesModePreferLocal (demo_profile false false) = responsesCreateRouteLocalOnlyUnsupported /\
  selectResponsesCreateRoute ResponsesModePreferLocal (demo_profile false true) = responsesCreateRouteLocalStateViaUpstream.
Proof. split; vm_compute; reflexivity. Qed.

(** ** The derived endpoints *)

Section derived.
Context `{Sqlite} `{IdSource} `{MapOrder} `{UnicodeTable} `{RequestContext} `{TextModel} `{Generator} `{Clock} `{LibraryText}.
Context (h : responseHandler).

Lemma hasLocalCreateState_keeps request : keeps eq (hasLocalCreateState h request).
Proof.
  intros w r w'. unfold hasLocalCreateState. case_decide; [by intros [= <- <-]|]. case_decide; [by intros [= <- <-]|].
  destruct (reads_change_nothing (h_service h) (derived_input empty_request "") (q_PreviousResponseID request)) as (_ & _ & _ & Hp & _).
  destruct (HasPreviousResponse _ w) as [[ok|e|] w1] eqn:E; apply Hp in E; intros Hr; repeat case_match; simplify_eq; done.
Qed.

(** The request needs nothing of the shim's state: it names no conversation, and
    no response that is stored. *)
Definition stateless (w : sworld) (request : CreateResponseRequest) : Prop :=
  q_Conversation request = "" /\
  (q_PreviousResponseID request = "" \/ responses (db_of w) !! q_PreviousResponseID request = None).

(** What a derived endpoint may do with the request [body], which [call] answers. *)
Definition derived_ok {A} (body : body_read) (allowEmpty : bool) (call : CreateResponseInput -> ST sworld A) (w w' : sworld)
    (r : res reply) : Prop :=
  let is_request request text := exists raw fields,
    body = BodyRead raw /\ decodeCreateResponseRequestBody raw allowEmpty = Ok (request, fields, text) in
  db_of w' = db_of w /\
  match r with
  | Ok ForwardReply => canProxyNativeResponses h = true /\ h_responsesMode h <> ResponsesModeLocalOnly /\
      exists request text, is_request request text /\ stateless w request
  | Ok (JsonReply _ _) => True
  | Panic => exists request text w1, is_request request text /\ (call (derived_input request text) w1).1 = Panic
  | Ok (ReplayReply _ _) | Err _ => False
  end.

Lemma writeError_ok {A} body allowEmpty (call : CreateResponseInput -> ST sworld A) w w' e : db_of w' = db_of w ->
  derived_ok body allowEmpty call w w' (Ok (writeError e)).
Proof. intros Hw. split; [done|]. unfold writeError. by destruct (MapError (Some e)). Qed.

Lemma native_route model routed : canProxyNativeResponsesWithRoute h model routed = true -> canProxyNativeResponses h = true.
Proof. unfold canProxyNativeResponsesWithRoute. by destruct (canProxyNativeResponses h). Qed.

(** *** Steps that do not panic, and reads that say exactly what is missing *)

Definition decodes {A} (m : res A) : Prop :=
  match m with Ok _ => True | Err e => errors_is ENotFound e = false /\ errors_is ESvcNotFound e = false | Panic => False end.

Lemma decodes_bind {A B} (m : res A) (f : A -> res B) : decodes m -> (forall a, decodes (f a)) -> decodes (m ≫= f).
Proof. destruct m; [|done..]. intros _ Hf. apply Hf. Qed.

Lemma decodes_wrap {A} ctx (m : res A) : decodes m -> decodes (wrap_err ctx m).
Proof. by destruct m as [|e|]. Qed.

Lemma decodes_map {A B} (f : A -> res B) l : (forall a, decodes (f a)) -> decodes (res_map f l).
Proof. intros Hf. induction l as [|a l IH]; [done|]. apply decodes_bind; [apply Hf|]. intros b. by apply decodes_bind. Qed.

Lemma UnmarshalJSON_decodes t : decodes (UnmarshalJSON t).
Proof. unfold UnmarshalJSON. repeat case_match; done. Qed.

Lemma stored_items_decode data : decodes (UnmarshalStoredItems data).
Proof.
  unfold UnmarshalStoredItems. destruct (_ ≫= _); [|done]. apply decodes_map. intros t.
  assert (He : forall raw, decodes (unmarshal_envelope raw)).
  { intros raw. unfold unmarshal_envelope. repeat case_match; try done. apply decodes_bind; [apply UnmarshalJSON_decodes|done]. }
  unfold unmarshal_stored. destruct t; [done|..]; case_match; first [apply He|apply UnmarshalJSON_decodes].
Qed.

Lemma scan_decodes id row : decodes (scanStoredResponse id row).
Proof.
  unfold scanStoredResponse, scan_items_columns.
  repeat first [done | apply decodes_bind; [|intros] | apply decodes_wrap, stored_items_decode | case_match].
Qed.

Lemma HasPreviousResponse_spec id w r w' : id <> "" -> HasPreviousResponse id w = (r, w') ->
  match r with
  | Ok b => b = true
  | Err e => errors_is ESvcNotFound (MapStorageError e) = true -> responses (db_of w) !! id = None
  | Panic => False
  end.
Proof.
  intros Hid. unfold HasPreviousResponse. rewrite decide_False by done. unfold mbind, st_bind, on_store, GetResponse.
  unfold mbind, st_bind, select_response, query, exec. change (w_db (s_world w)) with (db_of w). destruct (stmt_fails _).
  { by intros [= <- <-]. }
  destruct (responses (db_of w) !! id) as [row|]; [|by intros [= <- <-]]. pose proof (scan_decodes id row) as Hd.
  unfold st_lift. destruct (scanStoredResponse id row) as [stored|e|]; [by intros [= <- <-]| |done]. intros [= <- <-].
  destruct Hd as [Hd1 Hd2]. unfold MapStorageError. rewrite Hd1. destruct (errors_is EConflict e); [done|congruence].
Qed.

Lemma no_state request w w' : hasLocalCreateState h request w = (Ok false, w') -> stateless w request.
Proof.
  unfold hasLocalCreateState, stateless. case_decide as Hc; [done|].
  assert (q_Conversation request = "") as -> by (by destruct (decide (q_Conversation request = ""))).
  case_decide as Hp; [auto|]. destruct (HasPreviousResponse _ w) as [r w1] eqn:E. apply HasPreviousResponse_spec in E; [|done].
  destruct r as [ok|e|]; [by intros [= -> _]| |done]. cbv zeta. destruct (errors_is _ _) eqn:En; [|done]. auto.
Qed.

Lemma hasLocalCreateState_answers request w : (hasLocalCreateState h request w).1 <> Panic.
Proof.
  unfold hasLocalCreateState. case_decide; [done|]. case_decide; [done|].
  destruct (HasPreviousResponse _ w) as [r w1] eqn:E. apply HasPreviousResponse_spec in E; [|done].
  destruct r; [done| |done]. cbv zeta. by repeat case_match.
Qed.

Lemma routed_answers model require : routeContextForResponseModel h model require <> Panic.
Proof.
  unfold routeContextForResponseModel, ContextForModel, Resolve. repeat case_match; done.
Qed.

Lemma answers_bind {A B} (m : res A) (f : A -> res B) : m <> Panic -> (forall a, f a <> Panic) -> m ≫= f <> Panic.
Proof. destruct m; simpl; auto; congruence. Qed.

Lemma answers_map {A B} (f : A -> res B) l : (forall a, f a <> Panic) -> res_map f l <> Panic.
Proof. intros Hf. induction l as [|a l IH]; [done|]. apply answers_bind; [apply Hf|]. intros b. by apply answers_bind. Qed.

Lemma mcp_answers tools seen : validate_mcp_tools seen tools <> Panic.
Proof.
  assert (Hheaders : forall a b l, check_headers a b l <> Panic).
  { intros a b l. induction l as [|[k v] l IH]; [done|]. simpl. by repeat case_match. }
  revert seen. induction tools as [|tool tools IH]; intros seen; [done|]. cbn [validate_mcp_tools]. cbv zeta.
  destruct (decide (tool_text "type" tool <> "mcp")); [apply IH|]. destruct (decide (tool_text "server_label" tool = "")); [done|].
  destruct (decide (_ ∈ seen)); [done|]. destruct (Bool.eqb _ _); [done|]. destruct (decide (_ /\ _)); [done|]. apply answers_bind; [|intros; apply IH].
  unfold validateMCPToolHeaders. by repeat case_match.
Qed.

Lemma decode_answers raw allowEmpty : decodeCreateResponseRequestBody raw allowEmpty <> Panic.
Proof.
  unfold decodeCreateResponseRequestBody. cbv zeta. case_decide; [by destruct allowEmpty|].
  destruct (t ← jparse (TrimSpace raw); _) as [[[[t members] request] rawFields]|]; [|done].
  apply answers_bind; [apply mcp_answers|intros _]. apply answers_bind; [|intros _].
  - unfold validateCreateResponseContextManagement. repeat case_match; try done; (apply answers_bind; [|done]); apply answers_map; intros raw0;
      unfold validateCreateResponseContextManagementEntry; by repeat case_match.
  - apply answers_bind; [|done]. unfold decodeCreateResponseConversationID. by repeat case_match.
Qed.

Lemma derived_safe {A} endpoint allowEmpty (call : CreateResponseInput -> ST sworld json) (answer : CreateResponseInput -> ST sworld A) body w r w' :
  (forall input, keeps eq (call input)) -> (forall input w1, (call input w1).1 = Panic -> (answer input w1).1 = Panic) ->
  derived h endpoint allowEmpty call body w = (r, w') -> derived_ok body allowEmpty answer w w' r.
Proof.
  intros Hcall Hpanic. unfold derived. destruct (readJSONBody body) as [reply|raw] eqn:Eb.
  { intros [= <- <-]. destruct body; simpl in Eb; simplify_eq; done. }
  assert (body = BodyRead raw) as -> by (destruct body; simpl in Eb; by simplify_eq).
  destruct (decodeCreateResponseRequestBody raw allowEmpty) as [[[request fields] text]|e|] eqn:Ed; [| |by apply decode_answers in Ed].
  2:{ intros [= <- <-]. destruct (errors_as validation_error e); [by apply writeError_ok|done]. }
  unfold or_error, st_lift. destruct (routeContextForResponseModel h (q_Model request) false) as [routed|e|] eqn:Er;
    [|intros [= <- <-]; by apply writeError_ok|by apply routed_answers in Er].
  pose proof (hasLocalCreateState_answers request w) as Hans.
  destruct (hasLocalCreateState h request w) as [[hasState|e|] w1] eqn:Es;
    pose proof (hasLocalCreateState_keeps request _ _ _ Es) as Hw1; [|intros [= <- <-]; by apply writeError_ok|done].
  cbv zeta. assert (Hforward : hasState = false -> canProxyNativeResponsesWithRoute h (q_Model request) routed = true ->
    h_responsesMode h <> ResponsesModeLocalOnly -> forall w2, db_of w2 = db_of w -> derived_ok (BodyRead raw) allowEmpty answer w w2 (Ok ForwardReply)).
  { intros -> Hn Hm w2 Hw2. split; [done|]. split; [by eapply native_route|]. split; [done|].
    exists request, text. split; [by exists raw, fields|]. by eapply no_state. }
  destruct (bool_decide _ && _ && _) eqn:E1.
  { intros [= <- <-]. apply andb_true_iff in E1 as [[Hm%bool_decide_eq_true Hst%negb_true_iff]%andb_true_iff Hn].
    apply Hforward; [done|done|by rewrite Hm|done]. }
  destruct (supportsLocalDerivedResponsesState fields).
  - destruct (call _ w1) as [[response|e|] w2] eqn:Ec; pose proof (Hcall _ _ _ _ Ec) as Hk; intros [= <- <-].
    + by split; [congruence|].
    + destruct (negb hasState && _ && _) eqn:E2; [|apply writeError_ok; congruence].
      apply andb_true_iff in E2 as [[Hst%negb_true_iff Hf]%andb_true_iff Hn]. apply Hforward; [done|done| |congruence].
      intros Hl. unfold handler_shouldFallback, shouldFallbackLocalState in Hf. rewrite Hl in Hf.
      apply andb_true_iff in Hf as [_ Hf]. by destruct (errors_is EUnsupportedShape e).
    + split; [congruence|]. exists request, text, w1. split; [by exists raw, fields|]. apply Hpanic. by rewrite Ec.
  - intros [= <- <-]. destruct hasState; [by apply writeError_ok|].
    destruct (decide (h_responsesMode h = ResponsesModeLocalOnly)); [by apply writeError_ok|].
    destruct (canProxyNativeResponsesWithRoute h (q_Model request) routed) eqn:En; [|by apply writeError_ok].
    by apply Hforward.
Qed.

(** C22 (safety): counting the tokens of a request and compacting it never
    change the database, and answer whatever the body is, unless the service
    panics on the request; they are passed on only when the upstream has the
    API, the mode is not local_only, and the request neither names a
    conversation nor a response that is stored. *)
Theorem derived_requests_safe body w r w' :
  (inputTokens h body w = (r, w') -> derived_ok body true (CountInputTokens (h_service h)) w w' r) /\
  (handle_compact h body w = (r, w') -> derived_ok body false (Compact (h_service h)) w w' r).
Proof.
  split; apply derived_safe; intros input w0; [intros r0 w0'| |intros r0 w0'|];
    try destruct (reads_change_nothing (h_service h) input "") as (Hcount & Hcompact & _).
  - rewrite st_bind_eq. destruct (CountInputTokens (h_service h) input w0) as [[n|e|] w1] eqn:E; apply Hcount in E; by intros [= <- <-].
  - rewrite st_bind_eq. by destruct (CountInputTokens (h_service h) input w0) as [[n|e|] w1].
  - rewrite st_bind_eq. destruct (Compact (h_service h) input w0) as [[n|e|] w1] eqn:E; apply Hcompact in E; by intros [= <- <-].
  - rewrite st_bind_eq. by destruct (Compact (h_service h) input w0) as [[n|e|] w1].
Qed.
End derived.
