(* ===== verification/Terms.v ===== *)
(** * Search terms

    The text side of retrieval: the terms of a text, the chunks a file is cut
    into (storage/sqlite/retrieval.go), the scores of a chunk against queries
    (retrieval.go, retrieval_backend.go) and the queries planned for a question
    (internal/retrieval/query_planner.go).

    Which runes beyond ASCII are letters, numbers and digits, and their lower
    case, is the Unicode data of the standard library ([LetterTable]).

    Numbers of terms and token limits stay far below 2^63, so that [int] is [Z];
    products and sums of float64 are rounded one by one, as on amd64. *)

From S2P Require Import Prelude GoStr GoFloat StrFacts GoInt FloatOps.

Class LetterTable := {
  uni_letter : N -> bool;
  uni_number : N -> bool;
  uni_digit : N -> bool;
  uni_lower : N -> N
}.

(** ** strings.Split with a separator *)

Fixpoint split_go (fuel : nat) (s sep : string) : list string :=
  match fuel with
  | O => [s]
  | S fuel =>
      match Index s sep with
      | Some i => stake i s :: split_go fuel (sdrop (i + String.length sep) s) sep
      | None => [s]
      end
  end.
(** The separator is not empty, so that each step shortens the text. *)
Definition Split (s sep : string) : list string := split_go (String.length s) s sep.

Section terms.
Context `{LetterTable}.

(** ** Package unicode *)

Definition IsLetter (r : N) : bool :=
  if (r <? 128)%N then in_rng 65 90 r || in_rng 97 122 r else uni_letter r.
Definition IsNumber (r : N) : bool := if (r <? 128)%N then in_rng 48 57 r else uni_number r.
Definition IsDigit (r : N) : bool := if (r <? 128)%N then in_rng 48 57 r else uni_digit r.

Definition rune_lower (r : N) : N :=
  if (r <? 128)%N then (if in_rng 65 90 r then r + 32 else r)%N else uni_lower r.

(** strings.ToLower on any text; an invalid byte is written as U+FFFD. *)
Definition lowered (s : string) : string :=
  sconcat (map (fun c => encode_rune (rune_lower (ck_rune c))) (chunks s)).

(** strings.FieldsFunc *)
Fixpoint fields_by (sep : N -> bool) (cur : string) (cs : list chunk) : list string :=
  match cs with
  | [] => if decide (cur = "") then [] else [cur]
  | c :: cs =>
      if sep (ck_rune c)
      then (if decide (cur = "") then [] else [cur]) ++ fields_by sep "" cs
      else fields_by sep (cur +:+ ck_bytes c) cs
  end.
Definition FieldsFunc (s : string) (sep : N -> bool) : list string := fields_by sep "" (chunks s).

(** ** Terms *)

Definition not_term (r : N) : bool := negb (IsLetter r) && negb (IsNumber r).

Definition tokenizeTerms (text : string) : list string :=
  filter (fun field => field <> "") (FieldsFunc (lowered text) not_term).

Definition countTerms (text : string) : Z := Z.of_nat (length (tokenizeTerms text)).

Definition normalizeSearchText (text : string) : string := sjoin " " (tokenizeTerms text).

(** ** Chunks *)

Definition DefaultChunkSizeTokens : Z := 800.
Definition DefaultChunkOverlap : Z := 400.

Record StaticChunkingStrategy := { MaxChunkSizeTokens : Z; ChunkOverlapTokens : Z }.
Record FileChunkingStrategy := { cs_Type : string; cs_Static : option StaticChunkingStrategy }.

Definition default_static : StaticChunkingStrategy :=
  {| MaxChunkSizeTokens := DefaultChunkSizeTokens; ChunkOverlapTokens := DefaultChunkOverlap |}.
Definition DefaultFileChunkingStrategy : FileChunkingStrategy :=
  {| cs_Type := "static"; cs_Static := Some default_static |}.

(** [terms[start:end]] *)
Definition slice (start stop : Z) (terms : list string) : list string :=
  take (Z.to_nat (stop - start)) (drop (Z.to_nat start) terms).

(** The loop over the start of a chunk; it moves on by at least one term, so
    that one step per term is enough. *)
Fixpoint chunk_loop (fuel : nat) (terms : list string) (size step start : Z) : list string :=
  match fuel with
  | O => []
  | S fuel =>
      let n := Z.of_nat (length terms) in
      if (start <? n)%Z then
        let stop := Z.min (start + size) n in
        let chunk := TrimSpace (sjoin " " (slice start stop terms)) in
        (if decide (chunk = "") then [] else [chunk]) ++
        (if (stop =? n)%Z then [] else chunk_loop fuel terms size step (start + step))
      else []
  end.

Definition static_of (strategy : FileChunkingStrategy) : StaticChunkingStrategy :=
  match cs_Static strategy with
  | Some static => if (MaxChunkSizeTokens static <=? 0)%Z then default_static else static
  | None => default_static
  end.

Definition chunk_step (static : StaticChunkingStrategy) : Z :=
  let step := (MaxChunkSizeTokens static - ChunkOverlapTokens static)%Z in
  if (step <=? 0)%Z then MaxChunkSizeTokens static else step.

Definition chunkText (text : string) (strategy : FileChunkingStrategy) : list string :=
  let static := static_of strategy in
  let terms := tokenizeTerms text in
  chunk_loop (length terms) terms (MaxChunkSizeTokens static) (chunk_step static) 0.

Record VectorStoreFileError := { fe_Code : string; fe_Message : string }.

Definition buildVectorStoreFileContent (raw : string) (strategy : FileChunkingStrategy)
    : list string * string * option VectorStoreFileError :=
  if negb (valid_utf8 raw) then
    ([], "failed", Some {| fe_Code := "unsupported_file"; fe_Message := "file content is not valid utf-8 text" |})
  else
    let text := TrimSpace raw in
    if decide (text = "") then
      ([], "failed", Some {| fe_Code := "invalid_file"; fe_Message := "file content is empty" |})
    else match chunkText text strategy with
         | [] => ([], "failed", Some {| fe_Code := "invalid_file";
                                        fe_Message := "file content produced no searchable chunks" |})
         | chunks => (chunks, "completed", None)
         end.

(** ** Scores *)

Definition f0 : float64 := f_of_int 0.
Definition f1 : float64 := f_of_int 1.
Definition f_share : float64 := Eval vm_compute in fround 8 10.
Definition f_rest : float64 := Eval vm_compute in fround 2 10.

Definition minFloat (a b : float64) : float64 := if fltb a b then a else b.
Definition clamp01 (value : float64) : float64 :=
  if fltb value f0 then f0 else if fltb f1 value then f1 else value.
Definition maxInt (a b : Z) : Z := if (b <? a)%Z then a else b.

(** contentSet[term] *)
Definition occurrences (content : list string) (term : string) : Z :=
  Z.of_nat (length (filter (fun t => t = term) content)).

(** The terms of a query without repetitions, in order of first occurrence. *)
Fixpoint unique_terms (seen terms : list string) : list string :=
  match terms with
  | [] => []
  | term :: terms =>
      if decide (term ∈ seen) then unique_terms seen terms else term :: unique_terms (term :: seen) terms
  end.

(** How many of the terms occur, and how often. *)
Definition count_matches (content terms : list string) : Z * Z :=
  foldl (fun '(matches, total) term =>
    let count := occurrences content term in
    if (0 <? count)%Z then (matches + 1, total + count)%Z else (matches, total)) (0, 0)%Z terms.

Definition query_score (content : list string) (query : string) : option float64 :=
  match unique_terms [] (tokenizeTerms query) with
  | [] => None
  | unique =>
      let '(matches, total) := count_matches content unique in
      let score := fmul (fdiv (f_of_int matches) (f_of_int (Z.of_nat (length unique)))) f_share in
      Some (if (0 <? matches)%Z
            then fadd score (fmul f_rest (minFloat f1 (fdiv (f_of_int total) (f_of_int matches))))
            else score)
  end.

(** [if score > best { best = score }] over the queries that have a score. *)
Definition best_of (scores : list float64) (best : float64) : float64 :=
  foldl (fun best score => if fltb best score then score else best) best scores.

Definition chunkScore (content : string) (queries : list string) : float64 :=
  match tokenizeTerms content with
  | [] => f0
  | contentTerms =>
      let best := best_of (omap (query_score contentTerms) queries) f0 in
      if fltb f1 best then f1 else best
  end.

(** How many neighbouring pairs of terms the content has. *)
Fixpoint adjacent_matches (content : string) (terms : list string) : Z :=
  match terms with
  | t1 :: (t2 :: _) as rest =>
      (if Contains content (t1 +:+ " " +:+ t2) then 1 else 0) + adjacent_matches content rest
  | _ => 0
  end%Z.

Definition phrase_step (content : string) (best : float64) (query : string) : float64 :=
  let normalizedQuery := normalizeSearchText query in
  if decide (normalizedQuery = "") then best
  else if Contains content normalizedQuery then f1
  else match tokenizeTerms normalizedQuery with
       | [] => best
       | queryTerms =>
           let score := fdiv (f_of_int (adjacent_matches content queryTerms))
                             (f_of_int (maxInt 1 (Z.of_nat (length queryTerms) - 1))) in
           if fltb best score then score else best
       end.

Definition queryPhraseMatchScore (content : string) (queries : list string) : float64 :=
  let normalizedContent := normalizeSearchText content in
  if decide (normalizedContent = "") then f0
  else clamp01 (foldl (phrase_step normalizedContent) f0 queries).

Definition filename_score (filename query : string) : option float64 :=
  match unique_terms [] (tokenizeTerms query) with
  | [] => None
  | unique =>
      Some (fdiv (f_of_int (Z.of_nat (length (filter (fun term => Contains filename term = true) unique))))
                 (f_of_int (Z.of_nat (length unique))))
  end.

Definition queryFilenameMatchScore (filename : string) (queries : list string) : float64 :=
  let normalizedFilename := normalizeSearchText filename in
  if decide (normalizedFilename = "") then f0
  else clamp01 (best_of (omap (filename_score normalizedFilename) queries) f0).

(** ** Queries *)

Definition maxPlannedFileSearchQueries : nat := 4.

Definition queryRewriteStopwords : list string :=
  ["a"; "about"; "an"; "and"; "are"; "as"; "at"; "be"; "been"; "being";
   "between"; "but"; "by"; "can"; "compare"; "compared"; "comparison";
   "could"; "describe"; "did"; "difference"; "different"; "do"; "does";
   "explain"; "for"; "from"; "give"; "help"; "how"; "i"; "in";
   "into"; "is"; "it"; "know"; "like"; "may"; "me"; "might";
   "must"; "my"; "need"; "of"; "on"; "or"; "our"; "please";
   "show"; "should"; "tell"; "that"; "the"; "their"; "them"; "these";
   "they"; "this"; "those"; "to"; "understand"; "us"; "versus";
   "vs"; "want"; "was"; "we"; "were"; "what"; "when"; "where";
   "which"; "who"; "why"; "will"; "with"; "would"; "you"; "your"].

Definition normalizeSearchWhitespace (text : string) : string :=
  sjoin " " (Fields (TrimSpace (lowered text))).

Definition tokenizeSearchTerms (text : string) : list string :=
  filter (fun field => field <> "") (map TrimSpace (FieldsFunc text not_term)).

Definition countSearchTerms (text : string) : nat := length (tokenizeSearchTerms text).

Definition containsDigit (text : string) : bool := existsb (fun c => IsDigit (ck_rune c)) (chunks text).

(** A token that says something about what is searched. *)
Definition keeps_token (token : string) : bool :=
  negb (bool_decide (token ∈ queryRewriteStopwords)) &&
  negb (bool_decide (String.length token = 1) && negb (containsDigit token)).

Fixpoint filter_tokens (seen tokens : list string) : list string :=
  match tokens with
  | [] => []
  | token :: tokens =>
      if keeps_token token && negb (bool_decide (token ∈ seen))
      then token :: filter_tokens (token :: seen) tokens
      else filter_tokens seen tokens
  end.

Definition rewriteSearchQuery (query : string) : string :=
  let normalized := normalizeSearchWhitespace query in
  if decide (normalized = "") then ""
  else match tokenizeSearchTerms normalized with
       | [] => normalized
       | tokens =>
           match filter_tokens [] tokens with
           | [] => normalized
           | filtered => sjoin " " (take 12 filtered)
           end
       end.

(** One more query, unless it is empty or known; [seen] has the queries of
    [out]. *)
Definition add_query (out : list string) (candidate : string) : list string :=
  let rewritten := rewriteSearchQuery candidate in
  if decide (rewritten = "") then out
  else if decide (rewritten ∈ out) then out
  else out ++ [rewritten].

Definition RewriteSearchQueries (queries : list string) : list string := foldl add_query [] queries.

(** The closure [add] of PlanFileSearchQueries. *)
Definition plan_add (planned : list string) (candidate : string) : list string :=
  if decide (maxPlannedFileSearchQueries <= length planned) then planned else add_query planned candidate.

Fixpoint plan_clauses (planned clauses : list string) : list string :=
  match clauses with
  | [] => planned
  | clause :: clauses =>
      let planned := plan_add planned clause in
      if decide (maxPlannedFileSearchQueries <= length planned) then planned
      else plan_clauses planned clauses
  end.

Definition is_sentence_end (r : N) : bool :=
  (r =? 10)%N || (r =? 13)%N || (r =? 63)%N || (r =? 33)%N || (r =? 59)%N.

Definition splitSearchSentences (query : string) : list string :=
  filter (fun part => part <> "") (map normalizeSearchWhitespace (FieldsFunc query is_sentence_end)).

(** The empty list is the nil slice, which a part of fewer than two terms gives. *)
Definition splitSearchClauseBySeparator (query separator : string) : list string :=
  let lower := lowered query in
  if negb (Contains lower separator) then []
  else let rawParts := Split lower separator in
       if decide (length rawParts < 2) then []
       else let parts := map normalizeSearchWhitespace rawParts in
            if forallb (fun part => bool_decide (2 <= countSearchTerms part)) parts then parts else [].

(** The first separator that cuts the query into several parts. *)
Fixpoint first_split (query : string) (separators : list string) : list string :=
  match separators with
  | [] => []
  | separator :: separators =>
      let parts := splitSearchClauseBySeparator query separator in
      if decide (1 < length parts) then parts else first_split query separators
  end.

Definition splitComplexSearchClause (query : string) : list string :=
  let trimmed := normalizeSearchWhitespace query in
  if decide (trimmed = "") then []
  else
    let compareStyle := HasPrefix trimmed "compare " || HasPrefix trimmed "difference between " in
    match first_split trimmed [" versus "; " vs "; " compared to "] with
    | [] => if compareStyle || bool_decide (8 <= countSearchTerms trimmed)
            then first_split trimmed [" and "; " or "] else []
    | parts => parts
    end.

Definition decomposeSearchClauses (query : string) : list string :=
  match splitSearchSentences query with
  | [] => []
  | [sentence] => splitComplexSearchClause sentence
  | sentences => sentences
  end.

Definition PlanFileSearchQueries (query : string) : list string :=
  let base := TrimSpace query in
  if decide (base = "") then []
  else match plan_clauses (plan_add [] base) (decomposeSearchClauses base) with
       | [] => [normalizeSearchWhitespace base]
       | planned => planned
       end.
End terms.

(** A table under which only ASCII has letters and numbers. *)
Definition ascii_letters : LetterTable :=
  {| uni_letter _ := false; uni_number _ := false; uni_digit _ := false; uni_lower r := r |}.
