(* ===== verification/TermProps.v ===== *)
(** * What cutting a text into chunks keeps

    The terms of a text are read back from its chunks, which overlap as the
    strategy says; planned queries are few and distinct; a score says how many
    terms of a query occur. *)

From S2P Require Import Prelude GoStr GoFloat StrFacts GoJson JsonFacts GoInt FloatOps Terms.
From Stdlib Require Import QArith Lqa.
#[local] Open Scope nat_scope.

(** What package unicode documents: lower case is stable, a rune maps to a
    rune, and white space is neither a letter nor a number. *)
Definition scalar (r : N) : Prop := (r <= 1114111)%N /\ ~ (55296 <= r <= 57343)%N.

Class LetterLaws `{LetterTable} := {
  uni_lower_scalar r : scalar r -> scalar (uni_lower r);
  uni_lower_again r : (128 <= r)%N -> rune_lower (uni_lower r) = uni_lower r;
  uni_space_apart r : (128 <= r)%N -> is_space_rune r = true -> uni_letter r = false /\ uni_number r = false
}.

Lemma ascii_letters_laws : @LetterLaws ascii_letters.
Proof.
  split; simpl; [done| |done]. intros r Hr. unfold rune_lower. by rewrite (proj2 (N.ltb_ge _ _)) by lia.
Qed.

(** ** Runes *)

Lemma encode_scalar r : scalar r -> good_bytes (encode_rune r) r.
Proof.
  intros [Hmax Hsur]. unfold encode_rune, char_string. destruct (r <? 128)%N eqn:E1; rng.
  { replace r with (code (chr r)) at 2 by (apply code_chr; lia). constructor. rewrite code_chr; lia. }
  destruct (r <? 2048)%N eqn:E2; rng.
  { set (a := chr (192 + r / 64)). set (b := chr (128 + r mod 64)).
    assert (Ha : code a = (192 + r / 64)%N) by (apply code_chr; div_lia).
    assert (Hb : code b = (128 + r mod 64)%N) by (apply code_chr; div_lia).
    replace r with (rune2 a b) by (unfold rune2; rewrite Ha, Hb; div_lia). constructor.
    - rewrite in_rng_spec, Ha. div_lia.
    - unfold second_ok, accept2. rewrite Ha, Hb, !(proj2 (N.eqb_neq (192 + r / 64) _)) by div_lia.
      apply in_rng_spec. simpl. div_lia. }
  rewrite in_rng_false, (proj2 (N.ltb_ge 1114111 _)) by lia. simpl. destruct (r <? 65536)%N eqn:E5; rng.
  - set (a := chr (224 + r / 4096)). set (b := chr (128 + (r / 64) mod 64)). set (c := chr (128 + r mod 64)).
    assert (Ha : code a = (224 + r / 4096)%N) by (apply code_chr; div_lia).
    assert (Hb : code b = (128 + (r / 64) mod 64)%N) by (apply code_chr; div_lia).
    assert (Hc : code c = (128 + r mod 64)%N) by (apply code_chr; div_lia).
    replace r with (rune3 a b c) by (unfold rune3; rewrite Ha, Hb, Hc; div_lia). constructor.
    + apply in_rng_spec. rewrite Ha. div_lia.
    + unfold second_ok, accept2. apply in_rng_spec. rewrite Ha, Hb. repeat case_match; simpl; rng; div_lia.
    + apply in_rng_spec. rewrite Hc. div_lia.
  - set (a := chr (240 + r / 262144)). set (b := chr (128 + (r / 4096) mod 64)).
    set (c := chr (128 + (r / 64) mod 64)). set (d := chr (128 + r mod 64)).
    assert (Ha : code a = (240 + r / 262144)%N) by (apply code_chr; div_lia).
    assert (Hb : code b = (128 + (r / 4096) mod 64)%N) by (apply code_chr; div_lia).
    assert (Hc : code c = (128 + (r / 64) mod 64)%N) by (apply code_chr; div_lia).
    assert (Hd : code d = (128 + r mod 64)%N) by (apply code_chr; div_lia).
    replace r with (rune4 a b c d) by (unfold rune4; rewrite Ha, Hb, Hc, Hd; div_lia). constructor.
    + apply in_rng_spec. rewrite Ha. div_lia.
    + unfold second_ok, accept2. apply in_rng_spec. rewrite Ha, Hb. repeat case_match; simpl; rng; div_lia.
    + apply in_rng_spec. rewrite Hc. div_lia.
    + apply in_rng_spec. rewrite Hd. div_lia.
Qed.

Lemma good_scalar bs r : good_bytes bs r -> scalar r.
Proof.
  unfold scalar. destruct 1 as [a Ha|a b Ha Hb|a b c Ha Hb Hc|a b c d Ha Hb Hc Hd]; [lia|..];
    unfold second_ok, accept2 in Hb; unfold is_cont in *; rng.
  - unfold rune2. repeat case_match; simpl in *; rng; lia.
  - unfold rune3. repeat case_match; simpl in *; rng; lia.
  - unfold rune4. repeat case_match; simpl in *; rng; lia.
Qed.

Lemma chunk_scalar c : good_or_bad c -> scalar (ck_rune c).
Proof. intros [Hg|(a & -> & _)]; [by eapply good_scalar|]. unfold scalar; simpl. unfold rune_error. lia. Qed.

(** White space at either end of a text is decided by its first or last rune. *)
Lemma good_no_lead bs r s : good_bytes bs r -> is_space_rune r = false -> no_lead space2 space3 (bs +:+ s) = true.
Proof.
  unfold is_space_rune. rewrite !orb_false_iff. intros Hg Hr. destruct_and! Hr. rng.
  assert (Hn : forall lo hi x, in_rng lo hi x = false -> ~ (lo <= x <= hi)%N) by (intros ??? He; rewrite <-in_rng_spec; congruence).
  destruct Hg as [a Ha|a b Ha Hb|a b c Ha Hb Hc|a b c d Ha Hb Hc Hd]; unfold is_cont in *; rng;
    unfold char_string; rewrite ?sapp_cons, ?sapp_nil_l; simpl; rewrite !andb_true_iff, !negb_true_iff.
  all: repeat match goal with H : in_rng _ _ _ = false |- _ => apply Hn in H end.
  - split.
    + unfold space1. rewrite in_rng_false, (proj2 (N.eqb_neq _ 32)) by lia. done.
    + destruct s as [|b s]; [done|]. rewrite space2_lead by lia. simpl. destruct s as [|c s]; [done|]. by rewrite space3_lead by lia.
  - split; [unfold space1; rewrite in_rng_false, (proj2 (N.eqb_neq _ 32)) by lia; done|].
    split; [|destruct s as [|c s]; [done|]; by rewrite space3_lead by lia].
    unfold space2, rune2 in *. destruct (N.eqb_spec (code a) 194); [|done]. simpl.
    rewrite !(proj2 (N.eqb_neq (code b) _)) by lia. done.
  - split; [unfold space1; rewrite in_rng_false, (proj2 (N.eqb_neq _ 32)) by lia; done|].
    split; [by rewrite space2_lead by lia|]. apply not_true_iff_false. intros Hs.
    unfold space3, rune3 in *. rewrite !orb_true_iff, !andb_true_iff, !orb_true_iff, !N.eqb_eq, ?in_rng_spec in Hs. lia.
  - split; [unfold space1; rewrite in_rng_false, (proj2 (N.eqb_neq _ 32)) by lia; done|].
    split; [by rewrite space2_lead by lia|]. by rewrite space3_lead by lia.
Qed.

Lemma good_lead_r bs r s : good_bytes bs r -> is_space_rune r = false -> lead_r (srev (s +:+ bs)) = true.
Proof.
  unfold is_space_rune. rewrite !orb_false_iff, srev_app. intros Hg Hr. destruct_and! Hr. rng.
  assert (Hn : forall lo hi x, in_rng lo hi x = false -> ~ (lo <= x <= hi)%N) by (intros ??? He; rewrite <-in_rng_spec; congruence).
  generalize (srev s). clear s. intros s. unfold lead_r.
  destruct Hg as [a Ha|a b Ha Hb|a b c Ha Hb Hc|a b c d Ha Hb Hc Hd]; try apply second_cont in Hb; unfold is_cont in *; rng;
    unfold char_string; rewrite ?srev_cons, ?sapp_cons, ?sapp_nil_l; simpl; rewrite !andb_true_iff, !negb_true_iff.
  all: repeat match goal with H : in_rng _ _ _ = false |- _ => apply Hn in H end.
  - split; [unfold space1; rewrite in_rng_false, (proj2 (N.eqb_neq _ 32)) by lia; done|].
    destruct s as [|b s]; [done|]. simpl. rewrite andb_true_iff, negb_true_iff.
    split; [unfold space2; rewrite !(proj2 (N.eqb_neq (code a) _)), andb_false_r by lia; done|].
    destruct s as [|c s]; [done|]. simpl. unfold space3. rewrite in_rng_false, !(proj2 (N.eqb_neq (code a) _)), ?andb_false_r by lia. done.
  - split; [unfold space1; rewrite in_rng_false, (proj2 (N.eqb_neq _ 32)) by lia; done|]. split.
    + unfold space2, rune2 in *. destruct (N.eqb_spec (code a) 194); [|done]. simpl.
      rewrite !(proj2 (N.eqb_neq (code b) _)) by lia. done.
    + destruct s as [|c s]; [done|]. simpl. unfold space3. rewrite !(proj2 (N.eqb_neq (code a) _)), ?andb_false_r by lia. done.
  - split; [unfold space1; rewrite in_rng_false, (proj2 (N.eqb_neq _ 32)) by lia; done|].
    split; [by rewrite space2_lead by lia|]. apply not_true_iff_false. intros Hs.
    unfold space3, rune3 in *. rewrite !orb_true_iff, !andb_true_iff, !orb_true_iff, !N.eqb_eq, ?in_rng_spec in Hs. lia.
  - split; [unfold space1; rewrite in_rng_false, (proj2 (N.eqb_neq _ 32)) by lia; done|].
    split; [by rewrite space2_lead by lia|]. by rewrite space3_lead by lia.
Qed.

(** ** Terms *)

Section laws.
Context `{LT : LetterTable} {LL : LetterLaws}.

Definition term_chunk (c : chunk) : Prop :=
  good_chunk c /\ not_term (ck_rune c) = false /\ rune_lower (ck_rune c) = ck_rune c.

Definition is_term (w : string) : Prop := w <> "" /\ Forall term_chunk (chunks w).

Lemma rune_lower_scalar r : scalar r -> scalar (rune_lower r).
Proof.
  intros Hr. unfold rune_lower. destruct (r <? 128)%N eqn:E; rng; [|by apply uni_lower_scalar].
  unfold scalar. destruct (in_rng _ _ _) eqn:E'; rng; lia.
Qed.

Lemma rune_lower_again r : rune_lower (rune_lower r) = rune_lower r.
Proof.
  unfold rune_lower at 2 3. destruct (r <? 128)%N eqn:E; rng; [|by apply uni_lower_again].
  unfold rune_lower. destruct (in_rng 65 90 r) eqn:E'; rng.
  - rewrite (proj2 (N.ltb_lt _ _)) by lia. by rewrite in_rng_false by lia.
  - by rewrite (proj2 (N.ltb_lt _ _)), E' by lia.
Qed.

Definition lower_chunk_of (c : chunk) : chunk :=
  let r := rune_lower (ck_rune c) in Chunk r (encode_rune r).

Lemma lower_chunk_good c : good_or_bad c -> good_chunk (lower_chunk_of c).
Proof. intros Hc. by apply encode_scalar, rune_lower_scalar, chunk_scalar. Qed.

Lemma lowered_chunks s : chunks (lowered s) = map lower_chunk_of (chunks s).
Proof.
  assert (He : lowered s = unchunks (map lower_chunk_of (chunks s)) +:+ "").
  { unfold lowered, unchunks. rewrite sapp_nil_r, map_map. done. }
  rewrite He, chunks_unchunks_app; [by rewrite app_nil_r|].
  apply Forall_map. eapply Forall_impl; [apply chunks_good_or_bad|]. apply lower_chunk_good.
Qed.

Lemma chunks_of_good cs : Forall good_chunk cs -> chunks (unchunks cs) = cs.
Proof. intros Hc. rewrite <-(sapp_nil_r (unchunks cs)), chunks_unchunks_app by done. apply app_nil_r. Qed.

Lemma unchunks_app cs ds : unchunks (cs ++ ds) = unchunks cs +:+ unchunks ds.
Proof. unfold unchunks. by rewrite map_app, sconcat_app. Qed.

Lemma good_chunk_nonempty c : good_chunk c -> ck_bytes c <> "".
Proof. unfold good_chunk. by destruct 1. Qed.

Lemma unchunks_nonempty c cs : good_chunk c -> unchunks (c :: cs) <> "".
Proof. intros Hc%good_chunk_nonempty. unfold unchunks. simpl. by destruct (ck_bytes c). Qed.

(** The fields of a text are made of the chunks that do not separate. *)
Lemma fields_terms (P : chunk -> Prop) (sep : N -> bool) pre cs :
  (forall c, P c -> good_chunk c) -> Forall P pre -> Forall (fun c => sep (ck_rune c) = false -> P c) cs ->
  Forall (fun f => f <> "" /\ Forall P (chunks f)) (fields_by sep (unchunks pre) cs).
Proof.
  intros HP. revert pre. induction cs as [|c cs IH]; intros pre Hpre; simpl.
  { intros _. case_decide as Hc; [constructor|]. constructor; [|constructor].
    rewrite chunks_of_good by (eapply Forall_impl; eauto). done. }
  intros [Hc Hcs]%Forall_cons. destruct (sep (ck_rune c)) eqn:E.
  - apply Forall_app. split; [|by apply (IH [])]. case_decide; constructor; [|constructor].
    rewrite chunks_of_good by (eapply Forall_impl; eauto). done.
  - specialize (IH (pre ++ [c])). rewrite unchunks_app in IH. replace (unchunks [c]) with (ck_bytes c) in IH
      by (unfold unchunks; simpl; by rewrite sapp_nil_r).
    apply IH; [|done]. apply Forall_app. split; [done|]. constructor; [auto|constructor].
Qed.

Lemma tokenizeTerms_terms text : Forall is_term (tokenizeTerms text).
Proof.
  unfold tokenizeTerms, FieldsFunc. apply Forall_filtered. apply (fields_terms term_chunk not_term []); [by intros c [? _]|done|].
  rewrite lowered_chunks. apply Forall_map. eapply Forall_impl; [apply chunks_good_or_bad|].
  intros c Hc Hn. split; [by apply lower_chunk_good|]. split; [done|]. apply rune_lower_again.
Qed.

Lemma is_term_valid w : is_term w -> valid_utf8 w = true.
Proof.
  intros [_ Hw]. unfold valid_utf8. apply forallb_forall. intros c Hc%list_elem_of_In.
  rewrite Forall_forall in Hw. apply negb_true_iff, good_not_bad. by apply Hw.
Qed.

Lemma lowered_term w : Forall term_chunk (chunks w) -> map lower_chunk_of (chunks w) = chunks w.
Proof.
  induction 1 as [|[r bs] cs (Hg & _ & Hl) Hcs IH]; [done|]. simpl. rewrite IH. f_equal.
  unfold lower_chunk_of. simpl in *. rewrite Hl. f_equal. by apply encode_good.
Qed.

(** ** Joined terms *)

Definition space_chunk : chunk := Chunk 32 " ".

Fixpoint join_chunks (ws : list string) : list chunk :=
  match ws with
  | [] => []
  | [w] => chunks w
  | w :: ws => chunks w ++ space_chunk :: join_chunks ws
  end.

Lemma joined_chunks ws : Forall is_term ws -> chunks (sjoin " " ws) = join_chunks ws.
Proof.
  induction 1 as [|w ws Hw Hws IH]; [done|]. destruct ws as [|w' ws]; [done|].
  change (sjoin " " (w :: w' :: ws)) with (w +:+ " " +:+ sjoin " " (w' :: ws)).
  rewrite chunks_app_valid by (by apply is_term_valid). rewrite sapp_cons, sapp_nil_l, chunks_ascii by done. by rewrite IH.
Qed.

Lemma fields_term_app w cur cs : Forall term_chunk (chunks w) ->
  fields_by not_term cur (chunks w ++ cs) = fields_by not_term (cur +:+ w) cs.
Proof.
  rewrite <-(unchunks_chunks w) at 3. generalize (chunks w). intros ds Hd. revert cur.
  induction Hd as [|d ds (Hg & Hn & Hl) Hds IH]; intros cur; [by rewrite sapp_nil_r|].
  simpl. rewrite Hn, IH. unfold unchunks. simpl. by rewrite sapp_assoc.
Qed.

Lemma join_chunks_fields ws : Forall is_term ws -> fields_by not_term "" (join_chunks ws) = ws.
Proof.
  induction 1 as [|w ws [Hne Hw] Hws IH]; [done|]. destruct ws as [|w' ws].
  - simpl. rewrite <-(app_nil_r (chunks w)), fields_term_app by done. simpl. rewrite sapp_nil_l. by rewrite decide_False by done.
  - change (join_chunks (w :: w' :: ws)) with (chunks w ++ space_chunk :: join_chunks (w' :: ws)).
    rewrite fields_term_app by done. cbn [fields_by]. change (not_term (ck_rune space_chunk)) with true. cbn iota.
    by rewrite sapp_nil_l, decide_False, IH by done.
Qed.

Lemma join_chunks_lowered ws : Forall is_term ws -> map lower_chunk_of (join_chunks ws) = join_chunks ws.
Proof.
  induction 1 as [|w ws [_ Hw] Hws IH]; [done|]. destruct ws as [|w' ws]; [by apply lowered_term|].
  change (join_chunks (w :: w' :: ws)) with (chunks w ++ space_chunk :: join_chunks (w' :: ws)).
  rewrite map_app, lowered_term by done. by rewrite map_cons, IH.
Qed.

(** Terms joined by spaces are the terms of that text. *)
Lemma retokenize ws : Forall is_term ws -> tokenizeTerms (sjoin " " ws) = ws.
Proof.
  intros Hws. unfold tokenizeTerms, FieldsFunc. rewrite lowered_chunks, joined_chunks, join_chunks_lowered, join_chunks_fields by done.
  apply filter_all. eapply Forall_impl; [exact Hws|]. by intros w [? _].
Qed.

Lemma term_not_space r : not_term r = false -> is_space_rune r = false.
Proof.
  unfold not_term, IsLetter, IsNumber. intros Hn. apply not_true_iff_false. intros Hs.
  destruct (r <? 128)%N eqn:E; rng.
  - unfold is_space_rune in Hs. rewrite !orb_true_iff, !in_rng_spec, !N.eqb_eq in Hs.
    rewrite !in_rng_false in Hn by lia. done.
  - by destruct (uni_space_apart r E Hs) as [E1 E2]; rewrite E1, E2 in Hn.
Qed.

Lemma joined_last w ws : Forall is_term (w :: ws) -> exists s c, term_chunk c /\ sjoin " " (w :: ws) = s +:+ ck_bytes c.
Proof.
  revert w. induction ws as [|w' ws IH]; intros w [[Hne Hw] Hws]%Forall_cons.
  - simpl. rewrite <-(unchunks_chunks w). destruct (List.exists_last (l := chunks w)) as (cs & c & E).
    { intros E. apply Hne. by rewrite <-(unchunks_chunks w), E. }
    rewrite E in Hw |- *. apply Forall_app in Hw as [_ [Hc _]%Forall_cons]. exists (unchunks cs), c. split; [done|].
    rewrite unchunks_app. unfold unchunks at 2. simpl. by rewrite sapp_nil_r.
  - destruct (IH w' Hws) as (s & c & Hc & He). exists (w +:+ " " +:+ s), c. split; [done|].
    change (sjoin " " (w :: w' :: ws)) with (w +:+ " " +:+ sjoin " " (w' :: ws)). by rewrite He, !sapp_assoc.
Qed.

Lemma joined_trimmed ws : Forall is_term ws -> TrimSpace (sjoin " " ws) = sjoin " " ws.
Proof.
  destruct ws as [|w ws]; [done|]. intros Hws. apply TrimSpace_id.
  - apply Forall_cons in Hws as [[Hne Hw] _]. rewrite <-(unchunks_chunks w) in Hne. destruct (chunks w) as [|c cs] eqn:E; [done|].
    apply Forall_cons in Hw as [(Hg & Hn & _) _].
    assert (exists t, sjoin " " (w :: ws) = ck_bytes c +:+ t) as [t ->]; [|by eapply good_no_lead, term_not_space].
    rewrite <-(unchunks_chunks w), E. unfold unchunks. destruct ws; simpl; rewrite ?sapp_assoc; eauto.
  - destruct (joined_last w ws Hws) as (s & c & (Hg & Hn & _) & ->). by eapply good_lead_r, term_not_space.
Qed.

Lemma joined_nonempty ws : Forall is_term ws -> ws <> [] -> sjoin " " ws <> "".
Proof.
  intros Hws Hne He. apply (f_equal tokenizeTerms) in He. rewrite retokenize in He by done. by subst.
Qed.

(** ** Chunks *)

(** The windows of the text: [size] terms each, [step] terms apart, up to the
    one that reaches the end. *)
Fixpoint windows (fuel size step : nat) (terms : list string) : list (list string) :=
  match fuel with
  | O => []
  | S fuel =>
      match terms with
      | [] => []
      | _ => take size terms ::
             (if decide (length terms <= size) then [] else windows fuel size step (drop step terms))
      end
  end.

Lemma slice_drop (start stop : Z) terms :
  slice start stop terms = take (Z.to_nat (stop - start)) (drop (Z.to_nat start) terms).
Proof. done. Qed.

Lemma chunk_loop_windows fuel terms (size step start : nat) : Forall is_term terms -> 0 < size -> 0 < step ->
  chunk_loop fuel terms (Z.of_nat size) (Z.of_nat step) (Z.of_nat start) = map (sjoin " ") (windows fuel size step (drop start terms)).
Proof.
  intros Ht Hsize Hstep. revert start. induction fuel as [|fuel IH]; intros start; [done|].
  cbn [chunk_loop windows]. destruct (Z.ltb_spec (Z.of_nat start) (Z.of_nat (length terms))) as [Hs|Hs].
  2: { rewrite drop_ge by lia. done. }
  destruct (drop start terms) as [|t ts] eqn:E; [apply (f_equal length) in E; rewrite length_drop in E; simpl in E; lia|].
  rewrite <-E. assert (Hd : Forall is_term (drop start terms)) by (by apply Forall_drop).
  assert (Hslice : slice (Z.of_nat start) (Z.min (Z.of_nat start + Z.of_nat size) (Z.of_nat (length terms))) terms = take size (drop start terms)).
  { rewrite slice_drop, Nat2Z.id. destruct (Z.min_spec (Z.of_nat start + Z.of_nat size) (Z.of_nat (length terms))) as [[? ->]|[? ->]].
    - f_equal. lia.
    - rewrite !take_ge by (rewrite ?length_drop; lia). done. }
  rewrite Hslice, joined_trimmed by (by apply Forall_take).
  rewrite decide_False by (apply joined_nonempty; [by apply Forall_take|rewrite E; by destruct size; [lia|]]).
  simpl. f_equal. rewrite drop_drop. rewrite length_drop. case_decide as Hl.
  - rewrite (proj2 (Z.eqb_eq _ _)) by lia. done.
  - rewrite (proj2 (Z.eqb_neq _ _)) by lia. rewrite <-Nat2Z.inj_add. apply IH.
Qed.

(** The text again: what a window adds to the one before it. *)
Definition rebuild (overlap : nat) (parts : list (list string)) : list string :=
  match parts with
  | [] => []
  | part :: parts => part ++ concat (map (drop overlap) parts)
  end.

Lemma windows_rebuild fuel size step terms : 0 < step <= size -> length terms <= fuel ->
  rebuild (size - step) (windows fuel size step terms) = terms.
Proof.
  intros Hs. revert terms. induction fuel as [|fuel IH]; intros [|t ts] Hf; [done|simpl in Hf; lia|done|].
  cbn [windows]. case_decide as Hl.
  - simpl. rewrite app_nil_r. by rewrite take_ge by done.
  - assert (Hf' : length (drop step (t :: ts)) <= fuel) by (rewrite length_drop; simpl in *; lia).
    specialize (IH _ Hf'). set (all := t :: ts) in *. clearbody all. simpl. destruct (windows fuel size step (drop step all)) as [|p ps] eqn:E.
    { exfalso. simpl in IH. apply (f_equal length) in IH. rewrite length_drop in IH. simpl in IH. lia. }
    simpl in *. assert (Hp : p = take size (drop step all)).
    { destruct fuel as [|fuel]; [done|]. simpl in E. destruct (drop step all) eqn:Ed; [done|]. by injection E as <- _. }
    assert (Hlen : size - step < length p) by (rewrite Hp, length_take, length_drop; lia).
    rewrite <-(take_drop size all) at 2. f_equal.
    replace (drop size all) with (drop (size - step) (drop step all)) by (rewrite drop_drop; f_equal; lia).
    rewrite <-IH. by rewrite drop_app_le by lia.
Qed.

Lemma windows_lookup fuel size step terms i p : windows fuel size step terms !! i = Some p ->
  p = take size (drop (i * step) terms) /\ drop (i * step) terms <> [].
Proof.
  revert terms i. induction fuel as [|fuel IH]; intros terms i; [done|]. cbn [windows].
  destruct terms as [|t ts] eqn:E; [done|]. rewrite <-E. destruct i as [|i]; simpl.
  - intros [= <-]. split; [done|]. by subst.
  - case_decide; [done|]. intros [-> Hne]%IH. rewrite drop_drop in Hne |- *. by replace (step + i * step) with (step + i * step) by lia.
Qed.

(** How the chunks of a text relate to its terms, for a strategy that moves on. *)
Definition moves_on (static : StaticChunkingStrategy) : Prop :=
  (0 < MaxChunkSizeTokens static)%Z /\ (0 <= ChunkOverlapTokens static < MaxChunkSizeTokens static)%Z.

Lemma chunkText_windows text strategy static : cs_Static strategy = Some static -> moves_on static ->
  let size := Z.to_nat (MaxChunkSizeTokens static) in
  let step := Z.to_nat (MaxChunkSizeTokens static - ChunkOverlapTokens static) in
  let terms := tokenizeTerms text in
  chunkText text strategy = map (sjoin " ") (windows (length terms) size step terms).
Proof.
  intros Hs [Hm Ho]. cbv zeta. unfold chunkText, static_of. rewrite Hs, (proj2 (Z.leb_gt _ _)) by lia.
  unfold chunk_step. rewrite (proj2 (Z.leb_gt _ _)) by lia.
  pose proof (chunk_loop_windows (length (tokenizeTerms text)) (tokenizeTerms text) (Z.to_nat (MaxChunkSizeTokens static))
    (Z.to_nat (MaxChunkSizeTokens static - ChunkOverlapTokens static)) 0 (tokenizeTerms_terms text) ltac:(lia) ltac:(lia)) as Hl.
  rewrite !Z2Nat.id in Hl by lia. exact Hl.
Qed.

Lemma windows_terms fuel size step terms : Forall is_term terms -> Forall (Forall is_term) (windows fuel size step terms).
Proof.
  intros Ht. apply Forall_lookup. intros i p [-> _]%windows_lookup. by apply Forall_take, Forall_drop.
Qed.

Lemma chunkText_terms text strategy static : cs_Static strategy = Some static -> moves_on static ->
  let size := Z.to_nat (MaxChunkSizeTokens static) in
  let step := Z.to_nat (MaxChunkSizeTokens static - ChunkOverlapTokens static) in
  map tokenizeTerms (chunkText text strategy) = windows (length (tokenizeTerms text)) size step (tokenizeTerms text).
Proof.
  intros Hs Hm. cbv zeta. rewrite (chunkText_windows _ _ static) by done. rewrite map_map, <-List.map_id. apply map_ext_Forall.
  eapply Forall_impl; [apply windows_terms, tokenizeTerms_terms|]. apply retokenize.
Qed.

End laws.

(** ** Scores *)

Section scores.
#[local] Open Scope Q_scope.

Lemma fround_ge_one num den : (0 < den <= num)%Z -> ratio num den < 2 ^ 1000 ->
  exists m e, fround num den = Float64 false m e /\ (2 ^ 52 <= m)%Z /\ (-52 <= e)%Z.
Proof.
  intros Hd Hx. assert (Hone : 1 <= ratio num den).
  { unfold ratio. apply Qle_shift_div_l; [apply inject_pos; lia|]. rewrite Qmult_1_l, <-Zle_Qle. lia. }
  destruct (exponent_spec num den ltac:(lia) ltac:(lia)) as (E1 & E2 & E3). set (e := exponent num den) in *.
  assert (He : (-52 <= e)%Z).
  { destruct (Z.le_gt_cases (-52) e) as [|Hlt]; [done|]. exfalso.
    pose proof (pow2_le 53 (- e) ltac:(lia)) as Hp. pose proof (pow2_pos (- e)).
    pose proof (Qmult_le_compat_r _ _ (2 ^ (- e)) Hone ltac:(lra)). lra. }
  assert (E4 : 2 ^ 52 <= ratio num den * 2 ^ (- e)) by (destruct E3 as [E3|E3]; [lia|done]).
  destruct (scaled_spec num den e ltac:(lia) ltac:(lia)) as (S1 & S2 & S3).
  destruct (nearest_spec _ _ S1 S2) as (_ & M). set (m := nearest (scaled num den e).1 (scaled num den e).2) in *.
  assert (Hm : (2 ^ 52 <= m)%Z).
  { destruct (Z.ltb ((scaled num den e).1 / (scaled num den e).2) (2 ^ 52)) eqn:El; [|lia].
    apply floor_lt in El; [|done..]. rewrite S3, pow2_Z in El by lia. lra. }
  pose proof (exponent_bound _ _ Hx E4) as Hb. unfold fround.
  rewrite (proj2 (Z.ltb_ge num 0)), Z.abs_eq, round_ratio_eq by lia. cbv zeta. fold e m.
  destruct (m =? 2 ^ 53)%Z; rewrite (proj2 (Z.ltb_ge 971 _)) by lia; simpl; eexists _, _; (split; [done|]); lia.
Qed.

(** The quotient of two numbers of terms. *)
Lemma f_of_int_exact z : (0 <= z < 2 ^ 53)%Z -> fq (f_of_int z) == inject_Z z.
Proof.
  intros Hz. destruct (decide (z = 0%Z)) as [->|Hne]; [reflexivity|].
  assert (Hz1 : (0 < z)%Z) by lia. unfold f_of_int, fround. rewrite (proj2 (Z.ltb_ge z 0)), Z.abs_eq, round_ratio_eq by lia. cbv zeta.
  destruct (exponent_spec z 1 Hz1 ltac:(lia)) as (E1 & E2 & E3). set (e := exponent z 1) in *.
  assert (Hr : ratio z 1 == inject_Z z) by (unfold ratio; change (inject_Z 1) with 1; field).
  assert (He : (e <= 0)%Z).
  { destruct E3 as [->|E3]; [lia|]. destruct (Z.le_gt_cases e 0) as [|Hgt]; [done|]. exfalso. rewrite Hr in E3.
    assert (Hlt : inject_Z z < 2 ^ 53) by (rewrite <-pow2_Z, <-Zlt_Qlt by lia; lia).
    pose proof (scale_lt _ _ (- e) Hlt). pose proof (pow2_le (53 + - e) 52 ltac:(lia)). lra. }
  assert (Hs : scaled z 1 e = (z * 2 ^ (- e), 1)%Z).
  { unfold scaled. destruct (Z.leb_spec 0 e); [|done]. replace e with 0%Z by lia. f_equal. lia. }
  assert (Hm : nearest (scaled z 1 e).1 (scaled z 1 e).2 = (z * 2 ^ (- e))%Z).
  { rewrite Hs. unfold nearest. simpl. by rewrite Z.mod_1_r, Z.div_1_r. }
  rewrite Hm. assert (Hlt : (z * 2 ^ (- e) < 2 ^ 53)%Z).
  { rewrite Zlt_Qlt, inject_Z_mult, !pow2_Z by lia. by rewrite <-Hr. }
  rewrite (proj2 (Z.eqb_neq _ _)), (proj2 (Z.ltb_ge 971 _)) by lia. simpl. rewrite fq_mant by done. simpl.
  rewrite inject_Z_mult, pow2_Z, <-Qmult_assoc by lia. rewrite (Qmult_comm (2 ^ (- e))), pow2_inv. apply Qmult_1_r.
Qed.

Lemma fround_zero den : (0 < den)%Z -> fq (fround 0 den) == 0.
Proof.
  intros Hd. unfold fround. change (0 <? 0)%Z with false. change (Z.abs 0) with 0%Z. rewrite round_ratio_eq. cbv zeta.
  rewrite scaled_0, nearest_0 by (by apply scaled_spec). pose proof (exponent_0 den).
  change (0 =? 2 ^ 53)%Z with false. cbn iota. rewrite (proj2 (Z.ltb_ge 971 _)) by lia. simpl. by rewrite fq_mant by done.
Qed.

(** A term that is found occurs at least once: the share of a query's score that
    is meant for repetitions is always whole. *)
Lemma repetition_share matches total : (0 < matches <= total)%Z -> (total < 2 ^ 53)%Z ->
  fmul f_rest (minFloat f1 (fdiv (f_of_int total) (f_of_int matches))) = f_rest.
Proof.
  intros Hm Ht. pose proof (f_of_int_exact matches ltac:(lia)) as Em. pose proof (f_of_int_exact total ltac:(lia)) as Et.
  set (a := f_of_int total) in *. set (b := f_of_int matches) in *. clearbody a b.
  pose proof (inject_pos _ (fden_pos a)) as Pa. pose proof (inject_pos _ (fden_pos b)) as Pb.
  assert (Hb : (0 < fnum b)%Z).
  { rewrite Zlt_Qlt. change (inject_Z 0) with 0. rewrite <-fq_num, Em. apply Qmult_lt_0_compat; [|done]. apply inject_pos. lia. }
  assert (Hge : (fnum b * fden a <= fnum a * fden b)%Z).
  { apply fcompare. rewrite Em, Et, <-Zle_Qle. lia. }
  pose proof (fden_pos a). assert (Hs : fdiv a b = fround (fnum a * fden b) (fden a * fnum b)).
  { unfold fdiv. by rewrite Z.sgn_pos, Z.abs_eq, Z.mul_1_l by lia. }
  destruct (fround_ge_one (fnum a * fden b) (fden a * fnum b)) as (m & e & He & Hm1 & He1); [lia| |].
  { assert (Hr : ratio (fnum a * fden b) (fden a * fnum b) == inject_Z total / inject_Z matches).
    { unfold ratio. rewrite !inject_Z_mult, <-!fq_num, Em, Et. field. pose proof (inject_pos matches ltac:(lia)). repeat split; lra. }
    rewrite Hr. apply Qlt_shift_div_r; [apply inject_pos; lia|].
    assert (K1 : 1 <= inject_Z matches) by (change 1 with (inject_Z 1); rewrite <-Zle_Qle; lia).
    assert (K2 : inject_Z total < 2 ^ 53) by (rewrite <-pow2_Z, <-Zlt_Qlt by lia; lia).
    pose proof (pow2_le 53 1000 ltac:(lia)). pose proof (pow2_pos 1000) as K3.
    pose proof (Qmult_le_compat_r _ _ (2 ^ 1000) K1 ltac:(lra)). lra. }
  rewrite Hs, He. unfold minFloat. destruct (fltb f1 (Float64 false m e)) eqn:E; [reflexivity|].
  assert (Hle : fq (Float64 false m e) <= 1).
  { apply Qnot_lt_le. intros Hlt. assert (fltb f1 (Float64 false m e) = true); [|congruence].
    apply fltb_spec. assert (H1 : fq f1 == 1) by reflexivity. by rewrite H1. }
  rewrite fq_mant in Hle by done. simpl in Hle. assert (Hm2 : inject_Z m * 2 ^ e <= 1) by exact Hle.
  assert (e = (-52)%Z /\ m = (2 ^ 52)%Z) as [-> ->]; [|reflexivity].
  rewrite Zle_Qle, pow2_Z in Hm1 by lia. pose proof (pow2_pos e).
  destruct (Z.le_gt_cases (-51) e) as [Hhi|].
  - exfalso. pose proof (pow2_le _ _ Hhi) as Hp. assert (2 ^ 52 * 2 ^ (-51) == 2) by reflexivity.
    assert (2 ^ 52 * 2 ^ (-51) <= inject_Z m * 2 ^ e); [|lra].
    apply Qmult_le_compat_nonneg; split; try done; by apply Qlt_le_weak, pow2_pos.
  - assert (e = (-52)%Z) as -> by lia. split; [done|]. assert (inject_Z m <= inject_Z (2 ^ 52)) as Hmm.
    { rewrite pow2_Z by lia. assert (Hu : 2 ^ (-52) * 2 ^ 52 == 1) by reflexivity.
      pose proof (Qmult_le_compat_r _ _ (2 ^ 52) Hm2 ltac:(by apply Qlt_le_weak, pow2_pos)) as Hq.
      rewrite <-Qmult_assoc, Hu in Hq. lra. }
    rewrite <-Zle_Qle in Hmm. rewrite <-pow2_Z, <-Zle_Qle in Hm1 by lia. lia.
Qed.
End scores.

(** ** Counting *)

Lemma unique_terms_spec seen terms : NoDup (unique_terms seen terms) /\
  forall t, t ∈ unique_terms seen terms <-> t ∈ terms /\ t ∉ seen.
Proof.
  revert seen. induction terms as [|x terms IH]; intros seen; simpl.
  { split; [constructor|]. intros t. set_solver. }
  case_decide as Hx.
  - destruct (IH seen) as [Hn He]. split; [done|]. intros t. rewrite He. set_solver.
  - destruct (IH (x :: seen)) as [Hn He]. split.
    + constructor; [|done]. rewrite He. set_solver.
    + intros t. rewrite elem_of_cons, He. destruct (decide (t = x)); set_solver.
Qed.

Lemma occurrences_pos content t : (0 < occurrences content t)%Z <-> t ∈ content.
Proof.
  unfold occurrences. split.
  - intros Hp. destruct (filter (fun t' => t' = t) content) as [|y l] eqn:E; [simpl in Hp; lia|].
    assert (Hy : y ∈ filter (fun t' => t' = t) content) by (rewrite E; set_solver).
    apply list_elem_of_filter in Hy as [-> Hy]. done.
  - intros Ht. assert (Hy : t ∈ filter (fun t' => t' = t) content) by (by apply list_elem_of_filter).
    destruct (filter _ content); [by apply not_elem_of_nil in Hy|]. simpl. lia.
Qed.

Definition found (content terms : list string) : list string := filter (fun t => t ∈ content) terms.

Fixpoint total_occurrences (content terms : list string) : Z :=
  match terms with [] => 0 | t :: terms => occurrences content t + total_occurrences content terms end%Z.

Lemma count_matches_eq content terms :
  count_matches content terms = (Z.of_nat (length (found content terms)), total_occurrences content terms).
Proof.
  unfold count_matches. assert (Hg : forall m n, foldl (fun '(matches, total) term =>
    let count := occurrences content term in
    if (0 <? count)%Z then (matches + 1, total + count)%Z else (matches, total)) (m, n) terms =
    (m + Z.of_nat (length (found content terms)), n + total_occurrences content terms)%Z); [|by rewrite Hg].
  induction terms as [|t terms IH]; intros m n; [simpl; f_equal; lia|]. simpl. unfold found. rewrite filter_cons.
  pose proof (occurrences_pos content t) as Ho. destruct (Z.ltb_spec 0 (occurrences content t)) as [Hp|Hp]; rewrite IH; unfold found.
  - rewrite decide_True by (by apply Ho). simpl. f_equal; lia.
  - rewrite decide_False by (rewrite <-Ho; lia). simpl.
    assert (0 <= occurrences content t)%Z by (unfold occurrences; lia). f_equal; lia.
Qed.

Lemma occurrences_without content t t' : t <> t' -> occurrences (filter (fun x => x <> t') content) t = occurrences content t.
Proof.
  intros Hne. unfold occurrences. do 2 f_equal. rewrite list_filter_filter. apply list_filter_iff. intros x. naive_solver.
Qed.

Lemma total_bounds content terms : NoDup terms ->
  (Z.of_nat (length (found content terms)) <= total_occurrences content terms <= Z.of_nat (length content))%Z.
Proof.
  intros Hn. split.
  - clear Hn. induction terms as [|t terms IH]; [done|]. simpl. unfold found. rewrite filter_cons. fold (found content terms).
    pose proof (occurrences_pos content t). case_decide; simpl; [|unfold occurrences]; [|lia].
    assert (0 < occurrences content t)%Z by tauto. lia.
  - revert content. induction Hn as [|t terms Ht Hn IH]; intros content; [simpl; lia|]. simpl.
    specialize (IH (filter (fun x => x <> t) content)).
    assert (Hs : total_occurrences (filter (fun x => x <> t) content) terms = total_occurrences content terms).
    { clear -Ht. induction terms as [|t' terms IH]; [done|]. simpl. rewrite occurrences_without by set_solver. f_equal. apply IH. set_solver. }
    rewrite Hs in IH. unfold occurrences. pose proof (Permutation_length (filter_app_complement (fun x => x = t) content)) as Hp.
    rewrite length_app in Hp. lia.
Qed.

(** ** What a score says *)

Section score_spec.
Context `{LT : LetterTable}.
#[local] Open Scope Q_scope.

(** A text with fewer terms than a float64 counts exactly. *)
Definition countable_text (s : string) : Prop := (Z.of_nat (length (tokenizeTerms s)) < 2 ^ 53)%Z.

(** The score of a query: four fifths for the share of its terms that occur and
    one fifth for any of them. *)
Definition share_score (matches size : Z) : float64 :=
  let share := fmul (fdiv (f_of_int matches) (f_of_int size)) f_share in
  if (0 <? matches)%Z then fadd share f_rest else share.

Lemma unique_terms_small text : countable_text text -> (Z.of_nat (length (unique_terms [] (tokenizeTerms text))) < 2 ^ 53)%Z.
Proof.
  intros Ht. unfold countable_text in Ht. enough (length (unique_terms [] (tokenizeTerms text)) <= length (tokenizeTerms text))%nat by lia.
  destruct (unique_terms_spec [] (tokenizeTerms text)) as [Hn He]. apply submseteq_length, NoDup_submseteq; [done|]. intros t. rewrite He. tauto.
Qed.

Lemma query_score_eq content query : (Z.of_nat (length content) < 2 ^ 53)%Z ->
  query_score content query =
  match unique_terms [] (tokenizeTerms query) with
  | [] => None
  | unique => Some (share_score (Z.of_nat (length (found content unique))) (Z.of_nat (length unique)))
  end.
Proof.
  intros Hc. unfold query_score. destruct (unique_terms_spec [] (tokenizeTerms query)) as [Hn _].
  destruct (unique_terms [] (tokenizeTerms query)) as [|t ts]; [done|]. rewrite count_matches_eq.
  destruct (total_bounds content (t :: ts) Hn) as [T1 T2]. unfold share_score.
  destruct (Z.ltb_spec 0 (Z.of_nat (length (found content (t :: ts))))) as [Hp|]; [|done]. by rewrite repetition_share by lia.
Qed.

#[local] Opaque fmul fdiv fadd f_of_int.

Lemma share_in_range (matches size : Z) : (0 <= matches <= size)%Z -> (0 < size < 2 ^ 53)%Z ->
  0 <= fq (fmul (fdiv (f_of_int matches) (f_of_int size)) f_share) <= 2.
Proof.
  intros Hm Hs. pose proof (f_of_int_exact matches ltac:(lia)) as Em. pose proof (f_of_int_exact size ltac:(lia)) as Es.
  assert (P : 0 < inject_Z size) by (apply inject_pos; lia). assert (M : 0 <= inject_Z matches) by (apply inject_nonneg; lia).
  assert (L : inject_Z matches <= inject_Z size) by (rewrite <-Zle_Qle; lia).
  assert (Hq : 0 <= fq (f_of_int matches) / fq (f_of_int size) <= 1).
  { rewrite Em, Es. split; [apply Qle_shift_div_l; lra|apply Qle_shift_div_r; lra]. }
  assert (B : 2 <= 2 ^ 1000) by (apply (pow2_le 1 1000); lia).
  destruct (fdiv_close (f_of_int matches) (f_of_int size)) as [[C1 C2] C0]; [rewrite Es; lra|split; lra|].
  assert (Hu : u == 1 # 9007199254740992) by reflexivity. assert (Ht : 0 < tiny <= 1 # 1000) by (split; reflexivity || discriminate).
  set (x := fq (f_of_int matches) / fq (f_of_int size)) in *. set (d := fdiv (f_of_int matches) (f_of_int size)) in *.
  assert (Hd : fq d <= 3 # 2).
  { assert (u * x <= 1 # 1000) by (rewrite Hu; lra). lra. }
  assert (Hf : 0 <= fq f_share <= 1) by (split; discriminate).
  assert (Hp : 0 <= fq d * fq f_share <= 3 # 2).
  { split; [apply Qmult_le_0_compat; lra|]. change (3 # 2) with ((3 # 2) * 1). apply Qmult_le_compat_nonneg; split; lra. }
  destruct (fmul_close d f_share) as [[D1 D2] D0]; [split; lra|]. split; [done|].
  assert (u * (fq d * fq f_share) <= 1 # 1000) by (rewrite Hu; lra). lra.
Qed.

Lemma share_score_nonneg (matches size : Z) : (0 <= matches <= size)%Z -> (0 < size < 2 ^ 53)%Z ->
  0 <= fq (share_score matches size) /\ (0 < fq (share_score matches size) <-> (0 < matches)%Z).
Proof.
  intros Hm Hs. destruct (share_in_range matches size Hm Hs) as [R0 R1]. unfold share_score.
  set (share := fmul (fdiv (f_of_int matches) (f_of_int size)) f_share) in *. destruct (Z.ltb_spec 0 matches) as [Hp|Hz].
  - assert (Hf : (1 # 10) <= fq f_rest <= 1) by (split; discriminate).
    assert (B : 4 <= 2 ^ 1000) by (apply (pow2_le 2 1000); lia).
    destruct (fadd_close share f_rest) as [[C1 C2] C0]; [split; lra|]. split; [done|]. split; [done|]. intros _.
    assert (Hu : u == 1 # 9007199254740992) by reflexivity. assert (Ht : 0 < tiny <= 1 # 1000) by (split; reflexivity || discriminate).
    assert (u * (fq share + fq f_rest) <= 1 # 1000) by (rewrite Hu; lra). lra.
  - assert (matches = 0%Z) as -> by lia. split; [done|]. split; [|lia]. intros Hpos. exfalso.
    assert (Hd : fnum (fdiv (f_of_int 0) (f_of_int size)) = 0%Z).
    { pose proof (f_of_int_exact size ltac:(lia)) as Es. pose proof (f_of_int_exact 0 ltac:(lia)) as E0.
      assert (P : 0 < inject_Z size) by (apply inject_pos; lia).
      assert (N : (0 < fnum (f_of_int size))%Z).
      { rewrite Zlt_Qlt. change (inject_Z 0) with 0. rewrite <-fq_num, Es. apply Qmult_lt_0_compat; [done|]. apply inject_pos, fden_pos. }
      assert (Z0 : fnum (f_of_int 0) = 0%Z) by (vm_compute; reflexivity).
      assert (F : fq (fdiv (f_of_int 0) (f_of_int size)) == 0).
      { Transparent fdiv. unfold fdiv. Opaque fdiv. rewrite Z0, Z.mul_0_l, Z.mul_0_r. apply fround_zero.
        pose proof (fden_pos (f_of_int 0)). lia. }
      apply Z.le_antisymm; [|apply fnum_nonneg; by rewrite F]. rewrite Zle_Qle, <-fq_num, F. apply Qle_refl. }
    assert (F : fq share == 0); [|lra]. subst share. Transparent fmul. unfold fmul. Opaque fmul. rewrite Hd, Z.mul_0_l. apply fround_zero.
    pose proof (fden_pos (fdiv (f_of_int 0) (f_of_int size))). pose proof (fden_pos f_share). lia.
Qed.

Lemma query_score_nonneg content query s : (Z.of_nat (length content) < 2 ^ 53)%Z -> countable_text query ->
  query_score content query = Some s ->
  0 <= fq s /\ (0 < fq s <-> exists t, t ∈ tokenizeTerms query /\ t ∈ content).
Proof.
  intros Hc Hq. rewrite query_score_eq by done. pose proof (unique_terms_small query Hq) as Hsm.
  destruct (unique_terms_spec [] (tokenizeTerms query)) as [_ He].
  destruct (unique_terms [] (tokenizeTerms query)) as [|t ts] eqn:E; [done|]. intros <-%(inj Some).
  assert (Hl : (length (found content (t :: ts)) <= length (t :: ts))%nat) by apply length_filter.
  set (size := Z.of_nat (length (t :: ts))) in *. assert (0 < size)%Z by (subst size; simpl; lia).
  destruct (share_score_nonneg (Z.of_nat (length (found content (t :: ts)))) size) as [N0 Np]; [lia|lia|].
  split; [done|]. rewrite Np. split.
  - intros Hp. destruct (found content (t :: ts)) as [|x l] eqn:Ef; [simpl in Hp; lia|].
    assert (Hx : x ∈ found content (t :: ts)) by (rewrite Ef; apply elem_of_cons; by left).
    apply list_elem_of_filter in Hx as [Hx1 Hx2%He]. exists x. tauto.
  - intros (x & Hx1 & Hx2). assert (Hx : x ∈ found content (t :: ts)).
    { apply list_elem_of_filter. split; [done|]. apply He. split; [done|]. apply not_elem_of_nil. }
    destruct (found content (t :: ts)); [by apply not_elem_of_nil in Hx|]. simpl. lia.
Qed.

Lemma best_of_spec scores best : 0 <= fq best -> Forall (fun s => 0 <= fq s) scores ->
  0 <= fq (best_of scores best) /\
  (0 < fq (best_of scores best) <-> 0 < fq best \/ exists s, s ∈ scores /\ 0 < fq s).
Proof.
  intros Hb Hs. revert best Hb. induction Hs as [|s scores Hs Hss IH]; intros best Hb; simpl.
  { split; [done|]. split; [by left|]. intros [?|(s & Hs & _)]; [done|]. by apply not_elem_of_nil in Hs. }
  destruct (fltb best s) eqn:E.
  - apply fltb_spec in E. destruct (IH s Hs) as [I0 Ip]. split; [done|]. rewrite Ip. split.
    + intros [?|(x & ? & ?)]; right; [exists s|exists x]; (split; [|done]); apply elem_of_cons; auto.
    + intros [?|(x & [->|?]%elem_of_cons & ?)]; [left; lra|by left|]. right. eauto.
  - assert (Hle : fq s <= fq best) by (apply Qnot_lt_le; rewrite <-fltb_spec; congruence).
    destruct (IH best Hb) as [I0 Ip]. split; [done|]. rewrite Ip. split.
    + intros [?|(x & ? & ?)]; [by left|]. right. exists x. split; [|done]. apply elem_of_cons; auto.
    + intros [?|(x & [->|?]%elem_of_cons & ?)]; [by left|left; lra|]. right. eauto.
Qed.

(** A chunk has a positive score when a term of a query occurs in it. *)
Lemma chunkScore_pos content queries : countable_text content -> Forall countable_text queries ->
  0 <= fq (chunkScore content queries) <= 1 /\
  (0 < fq (chunkScore content queries) <->
   exists q t, q ∈ queries /\ t ∈ tokenizeTerms q /\ t ∈ tokenizeTerms content).
Proof.
  intros Hc Hq. unfold chunkScore. destruct (tokenizeTerms content) as [|w ws] eqn:E.
  { assert (fq f0 == 0) as -> by reflexivity. split; [split; discriminate|]. split; [intros Hf; discriminate Hf|].
    intros (q & t & _ & _ & Ht). by apply not_elem_of_nil in Ht. }
  assert (Hlen : (Z.of_nat (length (w :: ws)) < 2 ^ 53)%Z) by (unfold countable_text in Hc; by rewrite E in Hc).
  assert (Hall : Forall (fun s => 0 <= fq s) (omap (query_score (w :: ws)) queries)).
  { apply Forall_forall. intros s (q & Hq1 & Hs)%list_elem_of_omap. rewrite Forall_forall in Hq.
    by apply (query_score_nonneg _ q s Hlen (Hq q Hq1)). }
  destruct (best_of_spec _ f0 (Qle_refl 0) Hall) as [B0 Bp]. set (best := best_of _ f0) in *.
  assert (Hpos : 0 < fq best <-> exists q t, q ∈ queries /\ t ∈ tokenizeTerms q /\ t ∈ w :: ws).
  { rewrite Bp. rewrite Forall_forall in Hq. split.
    - intros [Hf|(s & (q & Hq1 & Hs)%list_elem_of_omap & Hp)]; [discriminate Hf|].
      apply (query_score_nonneg _ q s Hlen (Hq q Hq1) Hs) in Hp as (t & ? & ?). by exists q, t.
    - intros (q & t & Hq1 & Ht1 & Ht2). right. destruct (query_score (w :: ws) q) as [s|] eqn:Es.
      + exists s. split; [apply list_elem_of_omap; eauto|]. apply (query_score_nonneg _ q s Hlen (Hq q Hq1) Es). eauto.
      + exfalso. rewrite query_score_eq in Es by done. destruct (unique_terms_spec [] (tokenizeTerms q)) as [_ He].
        destruct (unique_terms [] (tokenizeTerms q)); [|done]. assert (Hn : t ∈ @nil string); [|by apply not_elem_of_nil in Hn].
        apply He. split; [done|]. apply not_elem_of_nil. }
  rewrite <-Hpos. assert (E1 : fq f1 == 1) by reflexivity. destruct (fltb f1 best) eqn:Ef.
  - apply fltb_spec in Ef. rewrite E1 in Ef |- *. split; [split; discriminate|]. split; intros _; [lra|done].
  - split; [|done]. split; [done|]. rewrite <-E1. apply Qnot_lt_le. rewrite <-fltb_spec. congruence.
Qed.
End score_spec.
