(* ===== verification/Retrieval.v ===== *)
(** * domain/retrieval.go and internal/retrieval

    Attributes of files, chunking strategies and search filters as requests
    give them, how a filter matches attributes, the configuration of the
    retrieval index and what an index can do. *)

From S2P Require Import Prelude GoStr GoFloat GoJson JsonFacts StrFacts GoInt FloatOps World Items Normalize Terms.

Definition ListOrderAsc : string := "asc".
Definition ListOrderDesc : string := "desc".

(** A value of type map[string]any. *)
Notation attributes := (list (string * gval)) (only parsing).

Definition blank_or_null (trimmed : string) : bool := bool_decide (trimmed = "" \/ trimmed = "null").

(** ** NormalizeRetrievalAttributes *)

Fixpoint attributes_loop (param : string) (kvs out : attributes) : res attributes :=
  match kvs with
  | [] => Ok out
  | (key, value) :: kvs =>
      if decide (64 < String.length key) then
        Err (NewValidationError param (param +:+ " keys must be at most 64 characters"))
      else match value with
      | GStr text =>
          if decide (512 < String.length text) then
            Err (NewValidationError param (param +:+ " string values must be at most 512 characters"))
          else attributes_loop param kvs (am_insert key value out)
      | GBool _ | GNum _ => attributes_loop param kvs (am_insert key value out)
      | _ => Err (NewValidationError param (param +:+ " values must be strings, numbers, or booleans"))
      end
  end.

(** The number of a decoded JSON text is finite, so that the tests for NaN and
    infinity never hold. *)
Definition NormalizeRetrievalAttributes `{MapOrder} (raw param : string) : res attributes :=
  let trimmed := TrimSpace raw in
  if blank_or_null trimmed then Ok []
  else match jparse trimmed ≫= any_map with
  | None => Err (NewValidationError param (param +:+ " must be an object"))
  | Some payload =>
      let payload := default [] payload in
      if decide (16 < length payload) then
        Err (NewValidationError param (param +:+ " may include at most 16 entries"))
      else attributes_loop param (map_order payload) []
  end.

(** ** NormalizeFileChunkingStrategy *)

(** json.Unmarshal into a StaticChunkingStrategy. *)
Definition decode_static (t : json) : option StaticChunkingStrategy :=
  members ← struct_members t;
  size ← field_int "max_chunk_size_tokens" members;
  overlap ← field_int "chunk_overlap_tokens" members;
  Some {| MaxChunkSizeTokens := size; ChunkOverlapTokens := overlap |}.

Definition check_static (param : string) (static : StaticChunkingStrategy) : res FileChunkingStrategy :=
  let size := MaxChunkSizeTokens static in
  let overlap := ChunkOverlapTokens static in
  if ((size <? 100) || (4096 <? size))%Z then
    Err (NewValidationError (param +:+ ".static.max_chunk_size_tokens")
      "chunking_strategy.static.max_chunk_size_tokens must be between 100 and 4096")
  else if (overlap <? 0)%Z then
    Err (NewValidationError (param +:+ ".static.chunk_overlap_tokens")
      "chunking_strategy.static.chunk_overlap_tokens must be non-negative")
  else if (Z.quot size 2 <? overlap)%Z then
    Err (NewValidationError (param +:+ ".static.chunk_overlap_tokens")
      "chunking_strategy.static.chunk_overlap_tokens must not exceed half of max_chunk_size_tokens")
  else Ok {| cs_Type := "static"; cs_Static := Some static |}.

Definition NormalizeFileChunkingStrategy (raw param : string) : res FileChunkingStrategy :=
  let trimmed := TrimSpace raw in
  if blank_or_null trimmed then Ok DefaultFileChunkingStrategy
  else match jparse trimmed ≫= raw_map with
  | None => Err (NewValidationError param (param +:+ " must be an object"))
  | Some payload =>
      match am_lookup "type" payload with
      | None => Err (NewValidationError (param +:+ ".type") (param +:+ ".type is required"))
      | Some rawType =>
          let strategyType := default "" (string_of rawType) in
          if decide (TrimSpace strategyType = "") then
            Err (NewValidationError (param +:+ ".type") (param +:+ ".type must be a string"))
          else if decide (strategyType = "auto") then Ok DefaultFileChunkingStrategy
          else if decide (strategyType = "static") then
            match am_lookup "static" payload with
            | None => Err (NewValidationError (param +:+ ".static") (param +:+ ".static is required when type=static"))
            | Some rawStatic =>
                match decode_static rawStatic with
                | None => Err (NewValidationError (param +:+ ".static") (param +:+ ".static must be an object"))
                | Some static => check_static param static
                end
            end
          else Err (NewValidationError (param +:+ ".type") "unsupported chunking_strategy.type")
      end
  end.

(** ** Search filters *)

(** VectorStoreSearchFilter; [Value] is nil, a comparable value or a list of
    them. *)
Inductive sfilter : Type :=
| SFilter (ty key : string) (value : gval) (filters : list sfilter).

Definition sf_Type (f : sfilter) : string := let 'SFilter ty _ _ _ := f in ty.

Definition is_comparable (v : gval) : bool :=
  match v with GStr _ | GBool _ | GNum _ => true | _ => false end.

(** The types int and int64 do not occur in a decoded value. *)
Definition normalizeComparableAttributeValue (v : gval) : option gval :=
  if is_comparable v then Some v else None.

Definition normalizeVectorStoreSearchValue (raw : json) (filterType param : string) : res gval :=
  match raw with
  | JNull => Err (NewValidationError param (param +:+ " is required"))
  | _ =>
      if decide (filterType = "in" \/ filterType = "nin") then
        match raw with
        | JArr l =>
            match opt_map any_of l with
            | None | Some [] => Err (NewValidationError param (param +:+ " must be a non-empty array"))
            | Some values =>
                if forallb is_comparable values then Ok (GArr values)
                else Err (NewValidationError param (param +:+ " values must be strings, numbers, or booleans"))
            end
        | _ => Err (NewValidationError param (param +:+ " must be a non-empty array"))
        end
      else match any_of raw ≫= normalizeComparableAttributeValue with
           | None => Err (NewValidationError param (param +:+ " must be a string, number, or boolean"))
           | Some value => Ok value
           end
  end.

Definition comparison_types : list string := ["eq"; "ne"; "gt"; "gte"; "lt"; "lte"; "in"; "nin"].

(** A leaf of the filter. *)
Definition normalize_comparison (payload : list (string * json)) (filterType param : string) : res sfilter :=
  let key := default "" (am_lookup "key" payload ≫= string_of) in
  if decide (TrimSpace key = "") then
    Err (NewValidationError (param +:+ ".key") (param +:+ ".key must be a string"))
  else match am_lookup "value" payload with
       | None => Err (NewValidationError (param +:+ ".value") (param +:+ ".value is required"))
       | Some rawValue =>
           value ← normalizeVectorStoreSearchValue rawValue filterType (param +:+ ".value");
           Ok (SFilter filterType key value [])
       end.

(** The entries of a conjunction or a disjunction, numbered from [i]. *)
Definition entry_param (param : string) (i : Z) : string := param +:+ ".filters[" +:+ int_text i +:+ "]".

Fixpoint normalize_entries (norm : json -> string -> res (option sfilter)) (param : string) (i : Z)
    (entries : list json) : res (list sfilter) :=
  match entries with
  | [] => Ok []
  | entry :: entries =>
      parsed ← norm entry (entry_param param i);
      out ← normalize_entries norm param (i + 1) entries;
      Ok (match parsed with Some f => f :: out | None => out end)
  end.

(** The decoded text; a filter nests as deep as the text does, which is the fuel
    ([Panic] is never reached). *)
Fixpoint normalize_filter (fuel : nat) (t : json) (param : string) : res (option sfilter) :=
  match fuel with
  | O => Panic
  | S fuel =>
      match t with
      | JNull => Ok None
      | _ =>
          match raw_map t with
          | None => Err (NewValidationError param (param +:+ " must be an object"))
          | Some payload =>
              let filterType := default "" (am_lookup "type" payload ≫= string_of) in
              let empty := Err (NewValidationError (param +:+ ".filters") (param +:+ ".filters must be a non-empty array")) in
              if decide (TrimSpace filterType = "") then
                Err (NewValidationError (param +:+ ".type") (param +:+ ".type must be a string"))
              else if decide (filterType = "and" \/ filterType = "or") then
                match am_lookup "filters" payload with
                | None => Err (NewValidationError (param +:+ ".filters") (param +:+ ".filters is required"))
                | Some rawFilters =>
                    match raw_array rawFilters with
                    | None | Some [] => empty
                    | Some entries =>
                        out ← normalize_entries (normalize_filter fuel) param 0 entries;
                        match out with
                        | [] => empty
                        | _ => Ok (Some (SFilter filterType "" GNull out))
                        end
                    end
                end
              else if decide (filterType ∈ comparison_types) then
                f ← normalize_comparison payload filterType param; Ok (Some f)
              else Err (NewValidationError (param +:+ ".type") "unsupported filters.type")
          end
      end
  end.

Fixpoint jdepth (t : json) : nat :=
  match t with
  | JArr l => S (foldr (fun x d => jdepth x `max` d) 0 l)
  | JObj l => S (foldr (fun kv d => jdepth kv.2 `max` d) 0 l)
  | _ => 1
  end.

Definition NormalizeVectorStoreSearchFilter (raw param : string) : res (option sfilter) :=
  let trimmed := TrimSpace raw in
  if blank_or_null trimmed then Ok None
  else match jparse trimmed with
  | None => Err (NewValidationError param (param +:+ " must be an object"))
  | Some t => normalize_filter (jdepth t) t param
  end.

(** ** Matching *)

(** Equality of float64 is equality of the values. *)
Definition feqb (a b : float64) : bool := (fnum a * fden b =? fnum b * fden a)%Z.

Definition comparableValuesEqual (left right : gval) : bool :=
  match left, right with
  | GStr a, GStr b => bool_decide (a = b)
  | GBool a, GBool b => eqb a b
  | GNum a, GNum b => feqb a b
  | _, _ => false
  end.

Definition compare_numbers (filterType : string) (a b : float64) : bool :=
  if decide (filterType = "gt") then fltb b a
  else if decide (filterType = "gte") then fleb b a
  else if decide (filterType = "lt") then fltb a b
  else fleb a b.

Definition matchComparableValue (actual : gval) (filterType : string) (expected : gval) : bool :=
  match normalizeComparableAttributeValue actual with
  | None => false
  | Some actualValue =>
      if decide (filterType = "eq") then comparableValuesEqual actualValue expected
      else if decide (filterType = "ne") then negb (comparableValuesEqual actualValue expected)
      else if decide (filterType ∈ ["gt"; "gte"; "lt"; "lte"]) then
        match actualValue, expected with
        | GNum a, GNum b => compare_numbers filterType a b
        | _, _ => false
        end
      else if decide (filterType ∈ ["in"; "nin"]) then
        match expected with
        | GArr values =>
            let matched := existsb (comparableValuesEqual actualValue) values in
            if decide (filterType = "in") then matched else negb matched
        | _ => false
        end
      else false
  end.

Fixpoint match_filter (attrs : attributes) (f : sfilter) : bool :=
  let 'SFilter ty key value filters := f in
  if decide (ty = "and") then forallb (match_filter attrs) filters
  else if decide (ty = "or") then existsb (match_filter attrs) filters
  else match am_lookup key attrs with
       | None => false
       | Some actual => matchComparableValue actual ty value
       end.

Definition MatchVectorStoreSearchFilter (attrs : attributes) (f : option sfilter) : bool :=
  match f with None => true | Some f => match_filter attrs f end.

(** ** Payloads of a search *)

Definition texts (queries : list string) : gval := GArr (map GStr queries).

Definition SearchQueryPayload (queries : list string) : gval :=
  match queries with [] => GStr "" | [query] => GStr query | _ => texts queries end.

(** [raw] is a list of texts when the request had a list. *)
Definition SearchQueryPayloadLike (raw : gval) (queries : list string) : gval :=
  match raw with GArr _ => texts queries | _ => SearchQueryPayload queries end.

(** ** config.go and index.go *)

Module Config.
Record EmbedderConfig := { Backend : string; BaseURL : string; Model : string }.
Record ANNConfig := {
  Enabled : bool; Method : string; Metric : string; Dimensions : Z;
  HNSWM : Z; HNSWEFConstruction : Z; IVFFlatLists : Z
}.
Record t := { IndexBackend : string; Embedder : EmbedderConfig; ANN : ANNConfig }.

Section normalize.
Context `{UnicodeTable} `{LetterTable}.

(** A name in lower case, or the default when it is blank. *)
Definition name_or (default name : string) : string :=
  let name := lowered (TrimSpace name) in if decide (name = "") then default else name.

Definition number_or (default n : Z) : Z := if (n =? 0)%Z then default else n.

Definition NormalizeConfig (cfg : t) : res t :=
  let backend := name_or "lexical" (IndexBackend cfg) in
  if decide (backend ∉ ["lexical"; "sqlite_fts5"; "sqlite_vec"; "pgvector"]) then
    Err (EMsg ("unsupported retrieval index backend " +:+ Quote backend))
  else
  let embedder := name_or "disabled" (Backend (Embedder cfg)) in
  if decide (embedder ∉ ["disabled"; "openai_compatible"; "embedanything"]) then
    Err (EMsg ("unsupported retrieval embedder backend " +:+ Quote embedder))
  else
  let method := name_or "hnsw" (Method (ANN cfg)) in
  if decide (method ∉ ["hnsw"; "ivfflat"]) then
    Err (EMsg ("unsupported pgvector ANN method " +:+ Quote method))
  else
  let metric := name_or "cosine" (Metric (ANN cfg)) in
  if decide (metric <> "cosine") then
    Err (EMsg ("unsupported pgvector ANN metric " +:+ Quote metric))
  else
  let m := number_or 16 (HNSWM (ANN cfg)) in
  let ef := number_or 64 (HNSWEFConstruction (ANN cfg)) in
  let lists := number_or 100 (IVFFlatLists (ANN cfg)) in
  if ((m <? 0) || (ef <? 0) || (lists <? 0))%Z then
    Err (EMsg "pgvector ANN index parameters must be non-negative")
  else if Enabled (ANN cfg) && negb (bool_decide (backend = "pgvector")) then
    Err (EMsg ("pgvector ANN requires retrieval index backend " +:+ Quote "pgvector"))
  else if Enabled (ANN cfg) && (Dimensions (ANN cfg) <=? 0)%Z then
    Err (EMsg "pgvector ANN requires retrieval.index.pgvector.ann.dimensions > 0")
  else
    Ok {| IndexBackend := backend;
          Embedder := {| Backend := embedder; BaseURL := TrimSpace (BaseURL (Embedder cfg));
                         Model := TrimSpace (Model (Embedder cfg)) |};
          ANN := {| Enabled := Enabled (ANN cfg); Method := method; Metric := metric;
                    Dimensions := Dimensions (ANN cfg); HNSWM := m; HNSWEFConstruction := ef;
                    IVFFlatLists := lists |} |}.

Record ANNIndexCapabilities := { ca_Method : string; ca_Metric : string; ca_Dimensions : Z }.
Record IndexCapabilities := {
  ca_Backend : string; SemanticSearch : bool; HybridSearch : bool; LocalRerank : bool; LazyRepair : bool;
  ANNIndex : option ANNIndexCapabilities
}.

Definition IndexCapabilitiesForConfig (cfg : t) (embedderConfigured : bool) : IndexCapabilities :=
  let backend := name_or "lexical" (IndexBackend cfg) in
  let vec := bool_decide (backend = "sqlite_vec") in
  let pg := bool_decide (backend = "pgvector") in
  {| ca_Backend := backend;
     SemanticSearch := (vec || pg) && embedderConfigured;
     HybridSearch := (vec || pg) && embedderConfigured;
     LocalRerank := vec && embedderConfigured;
     LazyRepair := vec && embedderConfigured;
     ANNIndex := if pg && embedderConfigured && Enabled (ANN cfg) then
                   Some {| ca_Method := lowered (TrimSpace (Method (ANN cfg)));
                           ca_Metric := lowered (TrimSpace (Metric (ANN cfg)));
                           ca_Dimensions := Dimensions (ANN cfg) |}
                 else None |}.
End normalize.
End Config.
