(* ===== verification/Ranking.v ===== *)
(** * Ranked search results

    storage/sqlite/retrieval_backend.go and retrieval.go: how the rows of a
    search are gathered by file, how results are ordered, how two rankings are
    fused and how results are ranked again by their text.

    sort.Slice is not stable; the orders used here are total on the results of
    one search, whose files differ, so that any sort gives [sort_by]'s list. *)

From S2P Require Import Prelude GoStr GoFloat GoJson JsonFacts StrFacts GoInt FloatOps World Items Normalize Terms Retrieval.

Record VectorStoreSearchResultContent := { rc_Type : string; rc_Text : string }.

Record VectorStoreSearchResult := {
  sr_FileID : string;
  sr_Filename : string;
  sr_Score : float64;
  sr_Attributes : list (string * gval);
  sr_Content : list VectorStoreSearchResultContent
}.

Definition set_score (r : VectorStoreSearchResult) (score : float64) : VectorStoreSearchResult :=
  {| sr_FileID := sr_FileID r; sr_Filename := sr_Filename r; sr_Score := score;
     sr_Attributes := sr_Attributes r; sr_Content := sr_Content r |}.
Definition set_content (r : VectorStoreSearchResult) (content : list VectorStoreSearchResultContent) : VectorStoreSearchResult :=
  {| sr_FileID := sr_FileID r; sr_Filename := sr_Filename r; sr_Score := sr_Score r;
     sr_Attributes := sr_Attributes r; sr_Content := content |}.

(** ** The order of results *)

Definition string_ltb (a b : string) : bool :=
  match String.compare a b with Lt => true | _ => false end.

(** The [less] of the sorts: higher score first, then by name and identifier. *)
Definition result_less (a b : VectorStoreSearchResult) : bool :=
  if feqb (sr_Score a) (sr_Score b) then
    if decide (sr_Filename a = sr_Filename b) then string_ltb (sr_FileID a) (sr_FileID b)
    else string_ltb (sr_Filename a) (sr_Filename b)
  else fltb (sr_Score b) (sr_Score a).

Definition result_le (a b : VectorStoreSearchResult) : bool := negb (result_less b a).

Definition sort_results (results : list VectorStoreSearchResult) : list VectorStoreSearchResult :=
  sort_by result_le results.

(** ** Gathering rows by file *)

Definition retrievalMaxContentItemsPerResult : nat := 3.

Record rankedSearchContent := { rk_text : string; rk_score : float64; rk_order : Z }.

(** The identifiers of the seen texts are a set of strings. *)
Record aggregatedSearchResult := {
  ag_result : VectorStoreSearchResult;
  ag_bestDistance : float64;
  ag_contentRanks : list rankedSearchContent;
  ag_seenContentText : gset string;
  ag_nextContentOrder : Z
}.

Definition newAggregatedSearchResult (fileID filename : string) (attrs : list (string * gval)) : aggregatedSearchResult :=
  {| ag_result := {| sr_FileID := fileID; sr_Filename := filename; sr_Score := f0; sr_Attributes := attrs; sr_Content := [] |};
     ag_bestDistance := max_float; ag_contentRanks := []; ag_seenContentText := ∅; ag_nextContentOrder := 0 |}.

Definition rank_less (a b : rankedSearchContent) : bool :=
  if feqb (rk_score a) (rk_score b) then (rk_order a <? rk_order b)%Z else fltb (rk_score b) (rk_score a).
Definition rank_le (a b : rankedSearchContent) : bool := negb (rank_less b a).

Definition addContent (r : aggregatedSearchResult) (text : string) (score : float64) : aggregatedSearchResult :=
  let trimmed := TrimSpace text in
  if decide (trimmed = "") then r
  else if decide (trimmed ∈ ag_seenContentText r) then r
  else
    let ranks := ag_contentRanks r ++ [{| rk_text := trimmed; rk_score := score; rk_order := ag_nextContentOrder r |}] in
    {| ag_result := ag_result r; ag_bestDistance := ag_bestDistance r;
       ag_contentRanks := take retrievalMaxContentItemsPerResult (sort_by rank_le ranks);
       ag_seenContentText := {[trimmed]} ∪ ag_seenContentText r;
       ag_nextContentOrder := ag_nextContentOrder r + 1 |}.

Definition finalizeContent (r : aggregatedSearchResult) : VectorStoreSearchResult :=
  set_content (ag_result r) (map (fun c => {| rc_Type := "text"; rc_Text := rk_text c |}) (ag_contentRanks r)).

Definition set_result (r : aggregatedSearchResult) (result : VectorStoreSearchResult) : aggregatedSearchResult :=
  {| ag_result := result; ag_bestDistance := ag_bestDistance r; ag_contentRanks := ag_contentRanks r;
     ag_seenContentText := ag_seenContentText r; ag_nextContentOrder := ag_nextContentOrder r |}.

(** One row of the joined tables. *)
Record search_row := { sw_file_id : string; sw_filename : string; sw_attributes_json : string; sw_content : string }.

Record VectorStoreHybridSearchOptions := { EmbeddingWeight : float64; TextWeight : float64 }.

Record VectorStoreSearchQuery := {
  sq_VectorStoreID : string;
  sq_Queries : list string;
  sq_Filters : option sfilter;
  sq_MaxNumResults : Z;
  sq_Ranker : string;
  sq_ScoreThreshold : option float64;
  sq_HybridSearch : option VectorStoreHybridSearchOptions;
  sq_RawSearchQuery : gval
}.

(** [attributes_json] decoded; the JSON value null gives the nil map. *)
Definition decode_attributes (attributesJSON : string) : res (list (string * gval)) :=
  if decide (TrimSpace attributesJSON = "") then Ok []
  else match jparse attributesJSON ≫= any_map with
       | Some attrs => Ok (default [] attrs)
       | None => Err (EWrap "decode vector store file attributes" (EDecode "attributes"))
       end.

Definition below (score : float64) (threshold : option float64) : bool :=
  match threshold with Some t => fltb score t | None => false end.

Section search.
Context `{LetterTable}.

(** The body of the loop over the rows of a lexical search. *)
Definition gather_row (query : VectorStoreSearchQuery) (scoreThreshold : option float64)
    (best : gmap string aggregatedSearchResult) (row : search_row) : res (gmap string aggregatedSearchResult) :=
  attrs ← decode_attributes (sw_attributes_json row);
  if negb (MatchVectorStoreSearchFilter attrs (sq_Filters query)) then Ok best
  else
    let score := chunkScore (sw_content row) (sq_Queries query) in
    if below score scoreThreshold then Ok best
    else if fleb score f0 then Ok best
    else
      let found := best !! sw_file_id row in
      let current := default (newAggregatedSearchResult (sw_file_id row) (sw_filename row) attrs) found in
      let current :=
        if bool_decide (found = None) || fltb (sr_Score (ag_result current)) score
        then set_result current (set_score (ag_result current) score) else current in
      Ok (<[sw_file_id row := addContent current (sw_content row) score]> best).

Fixpoint gather (query : VectorStoreSearchQuery) (scoreThreshold : option float64)
    (best : gmap string aggregatedSearchResult) (rows : list search_row) : res (gmap string aggregatedSearchResult) :=
  match rows with
  | [] => Ok best
  | row :: rows => best ← gather_row query scoreThreshold best row; gather query scoreThreshold best rows
  end.

(** The results of the files gathered, best first. *)
Definition ranked_results `{MapOrder} (best : gmap string aggregatedSearchResult) : list VectorStoreSearchResult :=
  sort_results (map (fun kv => finalizeContent kv.2) (map_order (map_to_list best))).

(** ** Fusing two rankings *)

Definition hybridRRFK : float64 := f_of_int 60.

Definition ranks_of (results : list VectorStoreSearchResult) : gmap string Z :=
  foldl (fun m '(i, r) => <[sr_FileID r := (Z.of_nat i + 1)%Z]> m) ∅ (zip (seq 0 (length results)) results).
Definition by_file (results : list VectorStoreSearchResult) : gmap string VectorStoreSearchResult :=
  foldl (fun m r => <[sr_FileID r := r]> m) ∅ results.

Definition positive (f : float64) : bool := fltb f0 f.

Definition contribution (weight : float64) (rank : option Z) : float64 :=
  match rank with
  | Some rank => if positive weight then fdiv weight (fadd hybridRRFK (f_of_int rank)) else f0
  | None => f0
  end.

Definition max_possible (semanticResults lexicalResults : list VectorStoreSearchResult)
    (hybrid : VectorStoreHybridSearchOptions) : float64 :=
  let first weight := fdiv weight (fadd hybridRRFK f1) in
  let total := if negb (bool_decide (semanticResults = [])) && positive (EmbeddingWeight hybrid)
               then fadd f0 (first (EmbeddingWeight hybrid)) else f0 in
  if negb (bool_decide (lexicalResults = [])) && positive (TextWeight hybrid)
  then fadd total (first (TextWeight hybrid)) else total.

(** The closure mergeResult; [None] when nothing is written. *)
Definition mergeResult (semanticResults lexicalResults : list VectorStoreSearchResult)
    (hybrid : VectorStoreHybridSearchOptions) (scoreThreshold : option float64) (maxPossible : float64)
    (fileID : string) : option VectorStoreSearchResult :=
  let semanticRank := ranks_of semanticResults !! fileID in
  let lexicalRank := ranks_of lexicalResults !! fileID in
  match semanticRank, lexicalRank with
  | None, None => None
  | _, _ =>
      let semanticContribution := contribution (EmbeddingWeight hybrid) semanticRank in
      let lexicalContribution := contribution (TextWeight hybrid) lexicalRank in
      let add raw rank weight c :=
        if negb (bool_decide (rank = None)) && positive weight then fadd raw c else raw in
      let rawScore := add (add f0 semanticRank (EmbeddingWeight hybrid) semanticContribution)
                          lexicalRank (TextWeight hybrid) lexicalContribution in
      let score := fdiv rawScore maxPossible in
      let score := if fltb f1 score then f1 else score in
      if below score scoreThreshold then None
      else
        let base :=
          if bool_decide (semanticRank = None) ||
             (negb (bool_decide (lexicalRank = None)) && fltb semanticContribution lexicalContribution)
          then by_file lexicalResults !! fileID else by_file semanticResults !! fileID in
        (fun base => set_score base score) <$> base
  end.

Definition fuseHybridSearchResults `{MapOrder} (semanticResults lexicalResults : list VectorStoreSearchResult)
    (hybrid : option VectorStoreHybridSearchOptions) (scoreThreshold : option float64) : list VectorStoreSearchResult :=
  match hybrid with
  | None => []
  | Some hybrid =>
      let maxPossible := max_possible semanticResults lexicalResults hybrid in
      if fleb maxPossible f0 then []
      else
        let merge (m : gmap string VectorStoreSearchResult) (kv : string * VectorStoreSearchResult) :=
          match mergeResult semanticResults lexicalResults hybrid scoreThreshold maxPossible kv.1 with
          | Some result => <[kv.1 := result]> m
          | None => m
          end in
        let best := foldl merge ∅ (map_order (map_to_list (by_file semanticResults))) in
        let best := foldl merge best (map_order (map_to_list (by_file lexicalResults))) in
        sort_results (map snd (map_order (map_to_list best)))
  end.

(** ** Ranking by text *)

Record localRerankProfile := { baseWeight : float64; keywordWeight : float64; phraseWeight : float64; filenameWeight : float64 }.

Definition latestLocalRerankProfile : localRerankProfile :=
  {| baseWeight := fround 75 100; keywordWeight := fround 15 100; phraseWeight := fround 7 100; filenameWeight := fround 3 100 |}.
Definition legacyLocalRerankProfile : localRerankProfile :=
  {| baseWeight := fround 82 100; keywordWeight := fround 12 100; phraseWeight := fround 4 100; filenameWeight := fround 2 100 |}.

Definition localRerankProfileForRanker (ranker : string) : option localRerankProfile :=
  let ranker := TrimSpace ranker in
  if decide (ranker = "" \/ ranker = "auto") then Some latestLocalRerankProfile
  else if decide (ranker = "default_2024_08_21" \/ ranker = "default-2024-08-21") then Some legacyLocalRerankProfile
  else None.

Definition joinedSearchResultText (content : list VectorStoreSearchResultContent) : string :=
  sjoin (char_string (chr 10))
    (filter (fun text => text <> "") (map (fun item => TrimSpace (rc_Text item)) (filter (fun item => rc_Type item = "text") content))).

Definition rerank_score (queries : list string) (profile : localRerankProfile) (result : VectorStoreSearchResult) : float64 :=
  let contentText := joinedSearchResultText (sr_Content result) in
  clamp01 (fadd (fadd (fadd (fmul (baseWeight profile) (clamp01 (sr_Score result)))
                            (fmul (keywordWeight profile) (chunkScore contentText queries)))
                      (fmul (phraseWeight profile) (queryPhraseMatchScore contentText queries)))
                (fmul (filenameWeight profile) (queryFilenameMatchScore (sr_Filename result) queries))).

Definition rerankVectorStoreResults (results : list VectorStoreSearchResult) (queries : list string)
    (profile : localRerankProfile) (scoreThreshold : option float64) : list VectorStoreSearchResult :=
  sort_results (omap (fun result =>
    let score := rerank_score queries profile result in
    if below score scoreThreshold then None else Some (set_score result score)) results).
End search.
