(* ===== verification/RankingProps.v ===== *)
(** * What ranked results mean

    A search reports each file that has a hit once, with the score of its best
    hit, in an order that does not depend on how Go ranges over a map. *)

From S2P Require Import Prelude GoStr GoFloat GoJson JsonFacts StrFacts GoInt FloatOps World Items Normalize Terms TermProps Retrieval Ranking.
From Stdlib Require Import QArith Lqa.
#[local] Open Scope nat_scope.

(** ** The order of results *)

Lemma feqb_spec a b : feqb a b = true <-> (fq a == fq b)%Q.
Proof.
  unfold feqb. rewrite Z.eqb_eq. split.
  - intros He. apply Qle_antisym; apply fcompare; lia.
  - intros He. apply Z.le_antisymm; apply fcompare; rewrite He; apply Qle_refl.
Qed.

Lemma fltb_false a b : fltb a b = false <-> (fq b <= fq a)%Q.
Proof.
  destruct (fltb a b) eqn:E.
  - apply fltb_spec in E. split; [done|]. intros Hle. lra.
  - split; [|done]. intros _. apply Qnot_lt_le. rewrite <-fltb_spec. congruence.
Qed.

Lemma feqb_false a b : feqb a b = false <-> ~ (fq a == fq b)%Q.
Proof. rewrite <-feqb_spec. by destruct (feqb a b). Qed.

Lemma string_ltb_irrefl a : string_ltb a a = false.
Proof. unfold string_ltb. by rewrite scompare_refl. Qed.

Lemma string_ltb_trans a b c : string_ltb a b = true -> string_ltb b c = true -> string_ltb a c = true.
Proof.
  unfold string_ltb. destruct (String.compare a b) eqn:E1; [done| |done].
  destruct (String.compare b c) eqn:E2; [done| |done]. by rewrite (scompare_lt_trans a b c).
Qed.

Lemma string_ltb_total a b : a = b \/ string_ltb a b = true \/ string_ltb b a = true.
Proof.
  unfold string_ltb. destruct (String.compare a b) eqn:E.
  - left. by apply String.compare_eq_iff.
  - by right; left.
  - right; right. apply scompare_lt_gt in E. by rewrite E.
Qed.

(** The keys of a result as the order sees them. *)
Definition outranks (a b : VectorStoreSearchResult) : Prop :=
  (fq (sr_Score b) < fq (sr_Score a))%Q \/
  ((fq (sr_Score a) == fq (sr_Score b))%Q /\
   (string_ltb (sr_Filename a) (sr_Filename b) = true \/
    (sr_Filename a = sr_Filename b /\ string_ltb (sr_FileID a) (sr_FileID b) = true))).

Lemma result_less_spec a b : result_less a b = true <-> outranks a b.
Proof.
  unfold result_less, outranks. destruct (feqb _ _) eqn:E.
  - apply feqb_spec in E. case_decide as Hf.
    + rewrite Hf, string_ltb_irrefl. split; [auto|]. intros [Hl|(_ & [Hx|[_ Hx]])]; [lra|done|done].
    + split; [auto|]. intros [Hl|(_ & [?|[? _]])]; [lra|done|done].
  - apply feqb_false in E. rewrite fltb_spec. split; [auto|]. by intros [?|[? _]].
Qed.

Lemma outranks_irrefl a : ~ outranks a a.
Proof. unfold outranks. rewrite !string_ltb_irrefl. intros [H|(_ & [|[_ ?]])]; [lra|done|done]. Qed.

Lemma outranks_trans a b c : outranks a b -> outranks b c -> outranks a c.
Proof.
  unfold outranks. intros [H1|(E1 & H1)] [H2|(E2 & H2)]; [left; lra..|]. right. split; [lra|].
  destruct H1 as [H1|[F1 H1]], H2 as [H2|[F2 H2]].
  - left. by eapply string_ltb_trans.
  - left. by rewrite <-F2.
  - left. by rewrite F1.
  - right. split; [congruence|]. by eapply string_ltb_trans.
Qed.

Lemma outranks_total a b : sr_FileID a <> sr_FileID b -> outranks a b \/ outranks b a.
Proof.
  intros Hne. unfold outranks. destruct (Q_dec (fq (sr_Score a)) (fq (sr_Score b))) as [[Hl|Hl]|He]; [auto..|].
  destruct (string_ltb_total (sr_Filename a) (sr_Filename b)) as [Hf|[Hf|Hf]].
  - rewrite Hf. destruct (string_ltb_total (sr_FileID a) (sr_FileID b)) as [?|[?|?]]; [done|left|right]; right; (split; [lra|]); auto.
  - left. right. split; [lra|auto].
  - right. right. split; [lra|auto].
Qed.

Lemma outranks_asym a b : outranks a b -> ~ outranks b a.
Proof. intros H1 H2. by eapply outranks_irrefl, outranks_trans. Qed.

Lemma result_le_spec a b : result_le a b = true <-> ~ outranks b a.
Proof. unfold result_le. rewrite negb_true_iff, <-result_less_spec. by destruct (result_less b a). Qed.

(** Distinct files, in order. *)
Definition ranked (results : list VectorStoreSearchResult) : Prop :=
  NoDup (map sr_FileID results) /\ StronglySorted outranks results.

Lemma insert_ranked r l : ranked l -> sr_FileID r ∉ map sr_FileID l -> ranked (insert_by result_le r l).
Proof.
  intros [Hn Hs] Hr. split; [rewrite insert_by_perm; by constructor|]. clear Hn.
  induction Hs as [|x l Hs IH Hx]; simpl; [by repeat constructor|]. simpl in Hr. apply not_elem_of_cons in Hr as [Hrx Hr].
  destruct (result_le r x) eqn:E.
  - apply result_le_spec in E. assert (Hrx' : outranks r x) by (destruct (outranks_total r x Hrx); done).
    constructor; [by constructor|]. constructor; [done|]. eapply Forall_impl; [exact Hx|]. intros y. by apply outranks_trans.
  - constructor; [by apply IH|]. rewrite insert_by_perm. constructor; [|done].
    destruct (outranks_total r x Hrx) as [Ho|]; [|done]. exfalso. assert (result_le r x = true); [|congruence].
    apply result_le_spec. by apply outranks_asym.
Qed.

Lemma sort_results_ranked l : NoDup (map sr_FileID l) -> ranked (sort_results l).
Proof.
  unfold sort_results. induction l as [|r l IH]; simpl; [split; constructor|]. intros [Hr Hn]%NoDup_cons.
  apply insert_ranked; [by apply IH|]. by rewrite sort_by_perm.
Qed.

(** Rankings of the same files agree, when names and scores do. *)
Definition same_rank (a b : VectorStoreSearchResult) : Prop :=
  sr_FileID a = sr_FileID b /\ sr_Filename a = sr_Filename b /\ (fq (sr_Score a) == fq (sr_Score b))%Q.

Lemma outranks_same a b a' b' : same_rank a a' -> same_rank b b' -> outranks a b -> outranks a' b'.
Proof.
  unfold outranks. intros (I1 & F1 & S1) (I2 & F2 & S2). rewrite I1, F1, I2, F2, S1, S2. done.
Qed.

Lemma ranked_agree l1 l2 : ranked l1 -> ranked l2 ->
  (forall a, a ∈ l1 -> exists b, b ∈ l2 /\ same_rank a b) -> (forall b, b ∈ l2 -> exists a, a ∈ l1 /\ same_rank a b) ->
  Forall2 same_rank l1 l2.
Proof.
  revert l2. induction l1 as [|a l1 IH]; intros [|b l2] [N1 S1] [N2 S2] H12 H21.
  - constructor.
  - destruct (H21 b) as (a & Ha & _); [apply elem_of_cons; auto|]. by apply not_elem_of_nil in Ha.
  - destruct (H12 a) as (b & Hb & _); [apply elem_of_cons; auto|]. by apply not_elem_of_nil in Hb.
  - simpl in N1, N2. apply NoDup_cons in N1 as [A1 N1]. apply NoDup_cons in N2 as [A2 N2].
    apply StronglySorted_inv in S1 as [S1 F1]. apply StronglySorted_inv in S2 as [S2 F2]. rewrite Forall_forall in F1, F2.
    assert (Hab : same_rank a b).
    { destruct (H12 a) as (b' & [->|Hb']%elem_of_cons & Hs); [apply elem_of_cons; auto|done|]. exfalso.
      destruct (H21 b) as (a' & [->|Ha']%elem_of_cons & Hs'); [apply elem_of_cons; auto|..].
      - apply A2. destruct Hs as [Hi _], Hs' as [Hi' _]. rewrite <-Hi', Hi. by apply list_elem_of_fmap_2.
      - specialize (F1 _ Ha'). specialize (F2 _ Hb'). apply (outranks_asym b b' F2). by eapply outranks_same. }
    constructor; [done|]. apply IH; [by split|by split|..].
    + intros x Hx. destruct (H12 x) as (y & [->|Hy]%elem_of_cons & Hs); [apply elem_of_cons; auto| |eauto].
      exfalso. apply A1. destruct Hab as [-> _], Hs as [<- _]. by apply list_elem_of_fmap_2.
    + intros y Hy. destruct (H21 y) as (x & [->|Hx]%elem_of_cons & Hs); [apply elem_of_cons; auto| |eauto].
      exfalso. apply A2. destruct Hab as [<- _], Hs as [-> _]. by apply list_elem_of_fmap_2.
Qed.

(** ** Hits *)

Section hits.
Context `{LT : LetterTable}.

(** A row that a search reports: its file's attributes match, and its text has a
    positive score that reaches the threshold. *)
Definition hits (q : VectorStoreSearchQuery) (threshold : option float64) (row : search_row) : bool :=
  match decode_attributes (sw_attributes_json row) with
  | Ok attrs =>
      let score := chunkScore (sw_content row) (sq_Queries q) in
      MatchVectorStoreSearchFilter attrs (sq_Filters q) && negb (below score threshold) && negb (fleb score f0)
  | _ => false
  end.

Definition row_score (q : VectorStoreSearchQuery) (row : search_row) : float64 := chunkScore (sw_content row) (sq_Queries q).

(** The rows of a file that a search reports. *)
Definition file_hits (q : VectorStoreSearchQuery) (threshold : option float64) (rows : list search_row) (id : string) : list search_row :=
  filter (fun row => hits q threshold row = true /\ sw_file_id row = id) rows.

Definition best_hit (q : VectorStoreSearchQuery) (found : list search_row) (score : float64) : Prop :=
  (exists row, row ∈ found /\ row_score q row = score) /\ (forall row, row ∈ found -> (fq (row_score q row) <= fq score)%Q).

Definition hit_texts (found : list search_row) (texts : list string) : Prop :=
  length texts <= retrievalMaxContentItemsPerResult /\ NoDup texts /\
  Forall (fun text => text <> "" /\ exists row, row ∈ found /\ TrimSpace (sw_content row) = text) texts.

(** What a result says of the hits of its file. *)
Definition summarises (q : VectorStoreSearchQuery) (found : list search_row) (r : VectorStoreSearchResult) : Prop :=
  (exists row, row ∈ found /\ sw_filename row = sr_Filename r /\ decode_attributes (sw_attributes_json row) = Ok (sr_Attributes r)) /\
  best_hit q found (sr_Score r).

(** The state of the loop for one file. *)
Definition ag_ok (q : VectorStoreSearchQuery) (found : list search_row) (id : string) (ag : aggregatedSearchResult) : Prop :=
  sr_FileID (ag_result ag) = id /\ summarises q found (ag_result ag) /\
  hit_texts found (map rk_text (ag_contentRanks ag)) /\ (forall t, t ∈ map rk_text (ag_contentRanks ag) -> t ∈ ag_seenContentText ag).

Definition gathered (q : VectorStoreSearchQuery) (threshold : option float64) (rows : list search_row)
    (best : gmap string aggregatedSearchResult) : Prop :=
  forall id, match best !! id with
             | Some ag => ag_ok q (file_hits q threshold rows id) id ag
             | None => file_hits q threshold rows id = []
             end.

Lemma hit_texts_mono found found' texts : (forall row, row ∈ found -> row ∈ found') -> hit_texts found texts -> hit_texts found' texts.
Proof.
  intros Hsub (Hl & Hn & Hf). split; [done|]. split; [done|]. eapply Forall_impl; [exact Hf|].
  intros t (Hne & row & Hr & He). split; [done|]. eauto.
Qed.

Lemma addContent_ok q found id ag row : ag_ok q found id ag -> row ∈ found ->
  ag_ok q found id (addContent ag (sw_content row) (row_score q row)).
Proof.
  intros (Hi & Hs & (Hl & Hn & Hf) & Hseen) Hrow. unfold addContent. case_decide as He; [done|].
  case_decide as Hin; [done|]. set (ranks := sort_by rank_le _).
  assert (Hp : map rk_text ranks ≡ₚ TrimSpace (sw_content row) :: map rk_text (ag_contentRanks ag)).
  { unfold ranks. rewrite sort_by_perm, map_app. simpl. by rewrite Permutation_app_comm. }
  assert (Hsub : map rk_text (take retrievalMaxContentItemsPerResult ranks) ⊆ map rk_text ranks).
  { intros t (x & -> & Hx)%list_elem_of_fmap. apply list_elem_of_fmap_2. by eapply elem_of_take in Hx as (? & ? & ?); eapply list_elem_of_lookup_2. }
  split; [done|]. split; [done|]. cbn [ag_contentRanks ag_seenContentText]. split; [split; [|split]|].
  - rewrite length_map, length_take. lia.
  - rewrite <-firstn_map. assert (Hnd : NoDup (map rk_text ranks)).
    { rewrite Hp. constructor; [|done]. intros Hx. by apply Hin, Hseen. }
    rewrite <-(take_drop retrievalMaxContentItemsPerResult (map rk_text ranks)) in Hnd. by apply NoDup_app in Hnd as [? _].
  - apply Forall_forall. intros t Ht%Hsub. rewrite Hp in Ht. apply elem_of_cons in Ht as [->|Ht]; [eauto|].
    rewrite Forall_forall in Hf. by apply Hf.
  - intros t Ht%Hsub. rewrite Hp in Ht. apply elem_of_cons in Ht as [->|Ht]; [set_solver|]. apply Hseen in Ht. set_solver.
Qed.

Lemma file_hits_snoc q threshold rows row id : file_hits q threshold (rows ++ [row]) id =
  file_hits q threshold rows id ++ (if decide (hits q threshold row = true /\ sw_file_id row = id) then [row] else []).
Proof. unfold file_hits. by rewrite filter_app. Qed.

(** A hit of a file that was reported, and of a new one. *)
Lemma update_ok q found id ag row : ag_ok q found id ag ->
  ag_ok q (found ++ [row]) id
    (if fltb (sr_Score (ag_result ag)) (row_score q row)
     then set_result ag (set_score (ag_result ag) (row_score q row)) else ag).
Proof.
  intros (Hi & ((row0 & H0 & Hf0) & (row1 & H1 & E1) & Hmax) & Ht & Hseen).
  assert (Hsub : forall x, x ∈ found -> x ∈ found ++ [row]) by (intros x Hx; apply elem_of_app; auto).
  destruct (fltb _ _) eqn:E.
  - apply fltb_spec in E. split; [done|]. split; [|split; [by eapply hit_texts_mono|done]]. split; [by exists row0; auto|]. simpl. split.
    + exists row. split; [apply elem_of_app; right; by apply list_elem_of_singleton|done].
    + intros x [Hx|Hx%list_elem_of_singleton]%elem_of_app; [|subst x; apply Qle_refl]. specialize (Hmax x Hx). lra.
  - apply fltb_false in E. split; [done|]. split; [|split; [by eapply hit_texts_mono|done]]. split; [by exists row0; auto|]. split.
    + exists row1. auto.
    + intros x [Hx|Hx%list_elem_of_singleton]%elem_of_app; [auto|]. by subst x.
Qed.

Lemma new_ok q id row attrs : sw_file_id row = id -> decode_attributes (sw_attributes_json row) = Ok attrs ->
  let ag := newAggregatedSearchResult (sw_file_id row) (sw_filename row) attrs in
  ag_ok q [row] id (set_result ag (set_score (ag_result ag) (row_score q row))).
Proof.
  intros Hid Ha. simpl. split; [done|]. split; [|split; [split; [simpl; lia|split; constructor]|simpl; set_solver]]. split; simpl.
  - exists row. split; [by apply list_elem_of_singleton|done].
  - split; [exists row; split; [by apply list_elem_of_singleton|done]|]. intros x Hx%list_elem_of_singleton. subst x. apply Qle_refl.
Qed.

Lemma gather_row_ok q threshold rows best row best' : gathered q threshold rows best ->
  gather_row q threshold best row = Ok best' -> gathered q threshold (rows ++ [row]) best'.
Proof.
  intros Hg. unfold gather_row. intros (attrs & Ha & Hr)%res_bind_ok.
  assert (Hmiss : hits q threshold row = false -> best' = best -> gathered q threshold (rows ++ [row]) best').
  { intros Hf -> id. specialize (Hg id). rewrite file_hits_snoc, decide_False by (intros [? _]; congruence). by rewrite app_nil_r. }
  assert (Hh : hits q threshold row = MatchVectorStoreSearchFilter attrs (sq_Filters q) &&
    negb (below (row_score q row) threshold) && negb (fleb (row_score q row) f0)) by (unfold hits; by rewrite Ha).
  fold (row_score q row) in Hr. destruct (MatchVectorStoreSearchFilter _ _); [|by apply Hmiss; [|injection Hr]].
  destruct (below _ _); [by apply Hmiss; [|injection Hr]|]. destruct (fleb _ _); [by apply Hmiss; [|injection Hr]|].
  cbn in Hh. clear Hmiss. injection Hr as <-. intros id. destruct (decide (sw_file_id row = id)) as [Hid|Hid].
  - rewrite Hid, lookup_insert_eq, file_hits_snoc, decide_True by done. specialize (Hg id).
    assert (Hlast : row ∈ file_hits q threshold rows id ++ [row]) by (apply elem_of_app; right; by apply list_elem_of_singleton).
    apply addContent_ok; [|done]. destruct (best !! id) as [ag|]; simpl.
    + by apply update_ok.
    + rewrite Hg. simpl. subst id. by apply new_ok.
  - rewrite lookup_insert_ne, file_hits_snoc, decide_False by (congruence || intros [_ ?]; done). rewrite app_nil_r. apply Hg.
Qed.

Lemma gather_ok q threshold rows best done_rows best' : gathered q threshold done_rows best ->
  gather q threshold best rows = Ok best' -> gathered q threshold (done_rows ++ rows) best'.
Proof.
  revert best done_rows. induction rows as [|row rows IH]; intros best dr Hg; simpl.
  - intros [= <-]. by rewrite app_nil_r.
  - intros (b1 & H1 & H2)%res_bind_ok. apply gather_row_ok with (rows := dr) in H1; [|done].
    replace (dr ++ row :: rows) with ((dr ++ [row]) ++ rows) by (by rewrite <-app_assoc). by eapply IH.
Qed.

Lemma gather_all q threshold rows best : gather q threshold ∅ rows = Ok best -> gathered q threshold rows best.
Proof. apply (gather_ok q threshold rows ∅ []). intros id. by rewrite lookup_empty. Qed.

(** ** The results *)

Context `{MO : MapOrder}.

(** A result reports the hits of its file. *)
Definition reports (q : VectorStoreSearchQuery) (threshold : option float64) (rows : list search_row) (r : VectorStoreSearchResult) : Prop :=
  summarises q (file_hits q threshold rows (sr_FileID r)) r /\
  hit_texts (file_hits q threshold rows (sr_FileID r)) (map rc_Text (sr_Content r)).

Lemma ranked_results_elem best r : r ∈ ranked_results best <-> exists id ag, best !! id = Some ag /\ r = finalizeContent ag.
Proof.
  unfold ranked_results, sort_results. rewrite sort_by_perm, map_order_perm, list_elem_of_fmap. split.
  - intros ([id ag] & -> & He%elem_of_map_to_list). eauto.
  - intros (id & ag & He & ->). exists (id, ag). split; [done|]. by apply elem_of_map_to_list.
Qed.

Lemma ranked_results_spec q threshold rows best : gather q threshold ∅ rows = Ok best ->
  ranked (ranked_results best) /\ Forall (reports q threshold rows) (ranked_results best) /\
  (forall row, row ∈ rows -> hits q threshold row = true -> sw_file_id row ∈ map sr_FileID (ranked_results best)).
Proof.
  intros Hg%gather_all. split; [|split].
  - apply sort_results_ranked. rewrite map_map, map_order_perm.
    assert (He : map (fun kv : string * aggregatedSearchResult => sr_FileID (finalizeContent kv.2)) (map_to_list best) = map fst (map_to_list best)).
    { apply map_ext_Forall, Forall_forall. intros [id ag] He%elem_of_map_to_list. specialize (Hg id). rewrite He in Hg.
      destruct Hg as (Hi & _). exact Hi. }
    rewrite He. apply NoDup_fst_map_to_list.
  - apply Forall_forall. intros r (id & ag & He & ->)%ranked_results_elem. specialize (Hg id). rewrite He in Hg.
    destruct Hg as (Hi & Hs & Ht & _). unfold reports, finalizeContent. simpl. rewrite Hi. split; [exact Hs|]. by rewrite map_map.
  - intros row Hrow Hh. specialize (Hg (sw_file_id row)).
    assert (Hin : row ∈ file_hits q threshold rows (sw_file_id row)) by (by apply list_elem_of_filter).
    destruct (best !! sw_file_id row) as [ag|] eqn:E; [|rewrite Hg in Hin; by apply not_elem_of_nil in Hin].
    destruct Hg as (Hi & _). apply list_elem_of_fmap. exists (finalizeContent ag). split; [done|]. apply ranked_results_elem. eauto.
Qed.
End hits.
