(* ===== verification/VectorStore.v ===== *)
(** * internal/storage/sqlite: retrieval.go and the lexical and FTS5 backends

    Files, vector stores, the files attached to them and their chunks, with the
    full-text index the FTS5 backend keeps beside them.  Tables are the state,
    and statements run as in [Store]: any of them may fail, and foreign keys are
    enforced on a connection or not.

    [retrievalBackend] is the interface retrieval.Index; the two backends here
    are instances of it.  SQLite's full-text search (which rows match a query,
    and their bm25 rank, of which only the order matters) is a parameter, and
    so is the clock, read when a statement is about to run.

    Sums of sizes and expiry times stay below 2^63. *)

From S2P Require Import Prelude GoStr GoFloat GoJson JsonFacts StrFacts GoInt FloatOps World Items Normalize Context Store Terms Retrieval Ranking.

(** ** Tables *)

Record file_row := {
  fl_purpose : string; fl_filename : string; fl_bytes : Z; fl_created_at : Z; fl_expires_at : option Z;
  fl_status : option string; fl_status_details : option string; fl_content : string
}.

Record vs_row := {
  vs_name : string; vs_metadata_json : string; vs_created_at : Z; vs_last_active_at : Z;
  vs_expires_after_anchor : option string; vs_expires_after_days : option Z; vs_expires_at : option Z
}.

Record vsf_row := {
  vf_created_at : Z; vf_status : string; vf_usage_bytes : Z; vf_last_error_json : option string;
  vf_attributes_json : string; vf_chunking_strategy_json : string
}.

Record chunk_row := { cw_store : string; cw_file : string; cw_index : Z; cw_content : string; cw_token_count : Z }.
Record fts_row := { ft_store : string; ft_file : string; ft_content : string }.

#[global] Instance chunk_row_eq : EqDecision chunk_row.
Proof. solve_decision. Defined.

(** Identifiers of chunks are drawn in increasing order and never again
    (AUTOINCREMENT); [chunk_seq] is the last one. *)
Record RDB := {
  files : gmap string file_row;
  vector_stores : gmap string vs_row;
  vector_store_files : gmap (string * string) vsf_row;
  vector_store_chunks : gmap Z chunk_row;
  chunk_seq : Z;
  vector_store_chunks_fts : gmap Z fts_row
}.

Definition empty_rdb : RDB :=
  {| files := ∅; vector_stores := ∅; vector_store_files := ∅; vector_store_chunks := ∅; chunk_seq := 0;
     vector_store_chunks_fts := ∅ |}.

Definition set_files (db : RDB) x := {| files := x; vector_stores := vector_stores db;
  vector_store_files := vector_store_files db; vector_store_chunks := vector_store_chunks db;
  chunk_seq := chunk_seq db; vector_store_chunks_fts := vector_store_chunks_fts db |}.
Definition set_stores (db : RDB) x := {| files := files db; vector_stores := x;
  vector_store_files := vector_store_files db; vector_store_chunks := vector_store_chunks db;
  chunk_seq := chunk_seq db; vector_store_chunks_fts := vector_store_chunks_fts db |}.
Definition set_attached (db : RDB) x := {| files := files db; vector_stores := vector_stores db;
  vector_store_files := x; vector_store_chunks := vector_store_chunks db;
  chunk_seq := chunk_seq db; vector_store_chunks_fts := vector_store_chunks_fts db |}.
Definition set_chunks (db : RDB) x := {| files := files db; vector_stores := vector_stores db;
  vector_store_files := vector_store_files db; vector_store_chunks := x;
  chunk_seq := chunk_seq db; vector_store_chunks_fts := vector_store_chunks_fts db |}.
Definition set_fts (db : RDB) x := {| files := files db; vector_stores := vector_stores db;
  vector_store_files := vector_store_files db; vector_store_chunks := vector_store_chunks db;
  chunk_seq := chunk_seq db; vector_store_chunks_fts := x |}.

(** ** Running statements *)

Record rworld := { rw_db : RDB; rw_stmts : nat }.

Definition set_rdb (w : rworld) (db : RDB) : rworld := {| rw_db := db; rw_stmts := rw_stmts w |}.

(** The Unix time at which the [n]-th statement is about to run. *)
Class UnixClock := { unix_at : nat -> Z }.

Definition now_unix `{UnixClock} : ST rworld Z := fun w => (Ok (unix_at (rw_stmts w)), w).

Section statements.
Context `{Sqlite}.

Definition rexec_raw {A} (f : bool -> RDB -> res (A * RDB)) : ST rworld A := fun w =>
  let w' := {| rw_db := rw_db w; rw_stmts := S (rw_stmts w) |} in
  if stmt_fails (rw_stmts w) then (Err db_error, w')
  else match f (conn_fk (rw_stmts w)) (rw_db w) with
       | Ok (a, db) => (Ok a, set_rdb w' db)
       | Err e => (Err e, w')
       | Panic => (Panic, w')
       end.

Definition rexec {A} (ctx : string) (f : bool -> RDB -> res (A * RDB)) : ST rworld A := st_wrap ctx (rexec_raw f).

(** A SELECT. *)
Definition rquery_raw {A} (f : RDB -> A) : ST rworld A := rexec_raw (fun _ db => Ok (f db, db)).
Definition rquery {A} (ctx : string) (f : RDB -> A) : ST rworld A := rexec ctx (fun _ db => Ok (f db, db)).

Definition rtransaction {A} (beginCtx commitCtx : string) (body : ST rworld A) : ST rworld A := fun w =>
  match rquery beginCtx (fun _ => tt) w with
  | (Ok _, w1) =>
      match body w1 with
      | (Ok a, w2) =>
          match rquery commitCtx (fun _ => tt) w2 with
          | (Ok _, w3) => (Ok a, w3)
          | (Err e, w3) => (Err e, set_rdb w3 (rw_db w))
          | (Panic, w3) => (Panic, set_rdb w3 (rw_db w))
          end
      | (Err e, w2) => (Err e, set_rdb w2 (rw_db w))
      | (Panic, w2) => (Panic, set_rdb w2 (rw_db w))
      end
  | (Err e, w1) => (Err e, w1)
  | (Panic, w1) => (Panic, w1)
  end.
End statements.

Fixpoint st_each {S A} (f : A -> ST S unit) (xs : list A) : ST S unit :=
  match xs with [] => mret tt | x :: xs => _ ← f x; st_each f xs end.

(** ** Records *)

Record StoredFile := {
  sf_ID : string; sf_Filename : string; sf_Purpose : string; sf_Bytes : Z; sf_CreatedAt : Z;
  sf_ExpiresAt : option Z; sf_Status : string; sf_StatusDetails : option string; sf_Content : string
}.

Record VectorStoreExpirationPolicy := { ep_Anchor : string; ep_Days : Z }.
Record VectorStoreFileCounts := { fc_InProgress : Z; fc_Completed : Z; fc_Failed : Z; fc_Cancelled : Z; fc_Total : Z }.

Record StoredVectorStore := {
  sv_ID : string; sv_Name : string; sv_Metadata : list (string * string); sv_CreatedAt : Z; sv_LastActiveAt : Z;
  sv_Status : string; sv_UsageBytes : Z; sv_FileCounts : VectorStoreFileCounts;
  sv_ExpiresAfter : option VectorStoreExpirationPolicy; sv_ExpiresAt : option Z
}.

Record StoredVectorStoreFile := {
  vt_ID : string; vt_CreatedAt : Z; vt_VectorStoreID : string; vt_Status : string; vt_UsageBytes : Z;
  vt_LastError : option VectorStoreFileError; vt_Attributes : list (string * gval);
  vt_ChunkingStrategy : FileChunkingStrategy
}.

Record ListFilesQuery := { lf_Purpose : string; lf_After : string; lf_Limit : Z; lf_Order : string }.
Record ListVectorStoresQuery := { lv_After : string; lv_Before : string; lv_Limit : Z; lv_Order : string }.
Record ListVectorStoreFilesQuery := {
  lvf_VectorStoreID : string; lvf_After : string; lvf_Before : string; lvf_Filter : string; lvf_Limit : Z; lvf_Order : string
}.

Record VectorStoreSearchPage := { sp_SearchQuery : gval; sp_Results : list VectorStoreSearchResult; sp_HasMore : bool }.

(** ** Rows *)

Definition scanStoredFile (id : string) (r : file_row) : StoredFile :=
  {| sf_ID := id; sf_Filename := fl_filename r; sf_Purpose := fl_purpose r; sf_Bytes := fl_bytes r;
     sf_CreatedAt := fl_created_at r; sf_ExpiresAt := fl_expires_at r; sf_Status := default "" (fl_status r);
     sf_StatusDetails := fl_status_details r; sf_Content := fl_content r |}.

Definition scanStoredFileMetadata (id : string) (r : file_row) : StoredFile :=
  {| sf_ID := id; sf_Filename := fl_filename r; sf_Purpose := fl_purpose r; sf_Bytes := fl_bytes r;
     sf_CreatedAt := fl_created_at r; sf_ExpiresAt := fl_expires_at r; sf_Status := default "" (fl_status r);
     sf_StatusDetails := fl_status_details r; sf_Content := "" |}.

Definition no_counts : VectorStoreFileCounts :=
  {| fc_InProgress := 0; fc_Completed := 0; fc_Failed := 0; fc_Cancelled := 0; fc_Total := 0 |}.

Definition scanVectorStoreBase (id : string) (r : vs_row) : res StoredVectorStore :=
  metadata ←
    (if decide (TrimSpace (vs_metadata_json r) = "") then Ok []
     else of_option (EWrap "decode vector store metadata" (EDecode "metadata"))
            (jparse (vs_metadata_json r) ≫= string_map));
  Ok {| sv_ID := id; sv_Name := vs_name r; sv_Metadata := metadata; sv_CreatedAt := vs_created_at r;
        sv_LastActiveAt := vs_last_active_at r; sv_Status := ""; sv_UsageBytes := 0; sv_FileCounts := no_counts;
        sv_ExpiresAfter := match vs_expires_after_anchor r, vs_expires_after_days r with
                           | Some anchor, Some days => Some {| ep_Anchor := anchor; ep_Days := days |}
                           | _, _ => None
                           end;
        sv_ExpiresAt := vs_expires_at r |}.

Definition decode_file_error (raw : string) : option VectorStoreFileError :=
  members ← jparse raw ≫= struct_members;
  code ← field_string "code" members;
  message ← field_string "message" members;
  Some {| fe_Code := code; fe_Message := message |}.

(** A struct field of type *StaticChunkingStrategy: null resets it, an object
    is decoded into the struct it points to. *)
Definition static_into (before : option StaticChunkingStrategy) (t : json) : option (option StaticChunkingStrategy) :=
  match t with
  | JNull => Some None
  | _ =>
      members ← struct_members t;
      let start := default {| MaxChunkSizeTokens := 0; ChunkOverlapTokens := 0 |} before in
      let int_into z t := match t with JNull => Some z | JNum lit => int_of_lit lit | _ => None end in
      let field name z := foldl (fun o t => z ← o; int_into z t) (Some z) (field_values name members) in
      size ← field "max_chunk_size_tokens" (MaxChunkSizeTokens start);
      overlap ← field "chunk_overlap_tokens" (ChunkOverlapTokens start);
      Some (Some {| MaxChunkSizeTokens := size; ChunkOverlapTokens := overlap |})
  end.

Definition decode_strategy (raw : string) : option FileChunkingStrategy :=
  members ← jparse raw ≫= struct_members;
  ty ← field_string "type" members;
  static ← foldl (fun o t => s ← o; static_into s t) (Some None) (field_values "static" members);
  Some {| cs_Type := ty; cs_Static := static |}.

Definition scanVectorStoreFile (key : string * string) (r : vsf_row) : res StoredVectorStoreFile :=
  lastError ←
    match vf_last_error_json r with
    | None => Ok None
    | Some raw => Some <$> of_option (EWrap "decode vector store file last error" (EDecode "last error")) (decode_file_error raw)
    end;
  attrs ← decode_attributes (vf_attributes_json r);
  strategy ← of_option (EWrap "decode vector store chunking strategy" (EDecode "chunking strategy"))
               (decode_strategy (vf_chunking_strategy_json r));
  Ok {| vt_ID := key.2; vt_CreatedAt := vf_created_at r; vt_VectorStoreID := key.1; vt_Status := vf_status r;
        vt_UsageBytes := vf_usage_bytes r; vt_LastError := lastError; vt_Attributes := attrs;
        vt_ChunkingStrategy := strategy |}.

(** json.Marshal of the records. *)
Definition file_error_json (e : VectorStoreFileError) : json :=
  JObj [("code", json_str (fe_Code e)); ("message", json_str (fe_Message e))].
Definition strategy_json (s : FileChunkingStrategy) : json :=
  JObj (("type", json_str (cs_Type s)) ::
        match cs_Static s with
        | None => []
        | Some static => [("static", JObj [("max_chunk_size_tokens", JNum (int_text (MaxChunkSizeTokens static)));
                                           ("chunk_overlap_tokens", JNum (int_text (ChunkOverlapTokens static)))])]
        end).
Definition metadata_json (m : list (string * string)) : json :=
  JObj (map (fun kv => (encode_body kv.1, json_str kv.2)) m).

(** ** The statements *)

Definition upsert_file (file : StoredFile) (db : RDB) : res (unit * RDB) :=
  Ok (tt, set_files db (<[sf_ID file :=
    {| fl_purpose := sf_Purpose file; fl_filename := sf_Filename file; fl_bytes := sf_Bytes file;
       fl_created_at := sf_CreatedAt file; fl_expires_at := sf_ExpiresAt file;
       fl_status := nullableString (sf_Status file); fl_status_details := sf_StatusDetails file;
       fl_content := sf_Content file |}]> (files db))).

Definition upsert_store (store : StoredVectorStore) (metadataJSON : string) (db : RDB) : res (unit * RDB) :=
  Ok (tt, set_stores db (<[sv_ID store :=
    {| vs_name := sv_Name store; vs_metadata_json := metadataJSON; vs_created_at := sv_CreatedAt store;
       vs_last_active_at := sv_LastActiveAt store; vs_expires_after_anchor := ep_Anchor <$> sv_ExpiresAfter store;
       vs_expires_after_days := ep_Days <$> sv_ExpiresAfter store; vs_expires_at := sv_ExpiresAt store |}]> (vector_stores db))).

(** ON DELETE CASCADE from [files] and from [vector_stores]. *)
Definition delete_file_row (fk : bool) (id : string) (db : RDB) : res (bool * RDB) :=
  match files db !! id with
  | None => Ok (false, db)
  | Some _ =>
      let db := set_files db (delete id (files db)) in
      Ok (true, if fk
                then set_chunks (set_attached db (filter (fun kv => kv.1.2 <> id) (vector_store_files db)))
                       (filter (fun kv => cw_file kv.2 <> id) (vector_store_chunks db))
                else db)
  end.

Definition delete_store_row (fk : bool) (id : string) (db : RDB) : res (bool * RDB) :=
  match vector_stores db !! id with
  | None => Ok (false, db)
  | Some _ =>
      let db := set_stores db (delete id (vector_stores db)) in
      Ok (true, if fk
                then set_chunks (set_attached db (filter (fun kv => kv.1.1 <> id) (vector_store_files db)))
                       (filter (fun kv => cw_store kv.2 <> id) (vector_store_chunks db))
                else db)
  end.

(** Whether a row may refer to a store and a file. *)
Definition parents_exist (fk : bool) (storeID fileID : string) (db : RDB) : bool :=
  negb fk || (negb (bool_decide (vector_stores db !! storeID = None)) && negb (bool_decide (files db !! fileID = None))).

Definition upsert_attached (fk : bool) (key : string * string) (row : vsf_row) (db : RDB) : res (unit * RDB) :=
  if bool_decide (vector_store_files db !! key = None) && negb (parents_exist fk key.1 key.2 db)
  then Err (EConstraint "fk_vector_store_files")
  else Ok (tt, set_attached db (<[key := row]> (vector_store_files db))).

Definition delete_attached (key : string * string) (db : RDB) : res (bool * RDB) :=
  match vector_store_files db !! key with
  | None => Ok (false, db)
  | Some _ => Ok (true, set_attached db (delete key (vector_store_files db)))
  end.

Definition chunk_of (storeID fileID : string) (c : chunk_row) : bool :=
  bool_decide (cw_store c = storeID) && bool_decide (cw_file c = fileID).

Definition id_le {V} (a b : Z * V) : bool := (a.1 <=? b.1)%Z.
(** The rows of a table keyed by identifier, in that order. *)
Definition rows_by_id {V} (m : gmap Z V) : list (Z * V) := sort_by id_le (map_to_list m).

Definition delete_chunks (storeID fileID : string) (db : RDB) : res (unit * RDB) :=
  Ok (tt, set_chunks db (filter (fun kv => chunk_of storeID fileID kv.2 = false) (vector_store_chunks db))).

Definition insert_chunk (fk : bool) (row : chunk_row) (db : RDB) : res (unit * RDB) :=
  if existsb (fun kv => chunk_of (cw_store row) (cw_file row) kv.2 && (cw_index kv.2 =? cw_index row)%Z)
             (map_to_list (vector_store_chunks db))
  then Err (EConstraint "vector_store_chunks")
  else if negb (parents_exist fk (cw_store row) (cw_file row) db) then Err (EConstraint "fk_vector_store_chunks")
  else let id := (chunk_seq db + 1)%Z in
       Ok (tt, {| files := files db; vector_stores := vector_stores db; vector_store_files := vector_store_files db;
                  vector_store_chunks := <[id := row]> (vector_store_chunks db); chunk_seq := id;
                  vector_store_chunks_fts := vector_store_chunks_fts db |}).

(** UPDATE vector_stores SET last_active_at, expires_at.  A sum beyond 64 bits, which
    sqlite keeps as a real number, is not represented. *)
Definition touch_row (at_ : Z) (r : vs_row) : vs_row :=
  {| vs_name := vs_name r; vs_metadata_json := vs_metadata_json r; vs_created_at := vs_created_at r;
     vs_last_active_at := at_; vs_expires_after_anchor := vs_expires_after_anchor r;
     vs_expires_after_days := vs_expires_after_days r;
     vs_expires_at := match vs_expires_after_days r, vs_expires_after_anchor r with
                      | Some days, Some anchor =>
                          if decide (anchor = "last_active_at") then Some (at_ + days * 86400)%Z else vs_expires_at r
                      | _, _ => vs_expires_at r
                      end |}.
Definition touch_store (at_ : Z) (id : string) (db : RDB) : res (unit * RDB) :=
  Ok (tt, set_stores db (alter (touch_row at_) id (vector_stores db))).

Definition insert_fts (id : Z) (row : fts_row) (db : RDB) : res (unit * RDB) :=
  match vector_store_chunks_fts db !! id with
  | Some _ => Err (EConstraint "vector_store_chunks_fts.rowid")
  | None => Ok (tt, set_fts db (<[id := row]> (vector_store_chunks_fts db)))
  end.

(** *** Queries *)

Definition chunk_ids (storeID fileID : string) (db : RDB) : list Z :=
  map fst (filter (fun kv => chunk_of storeID fileID kv.2 = true) (rows_by_id (vector_store_chunks db))).

(** The identifiers of the chunks of a file by store, as the rows come ordered
    by store and identifier. *)
Definition chunk_ids_by_file (fileID : string) (db : RDB) : list (string * list Z) :=
  foldl (fun m kv => am_insert (cw_store kv.2) (default [] (am_lookup (cw_store kv.2) m) ++ [kv.1]) m) []
    (filter (fun kv => cw_file kv.2 = fileID) (rows_by_id (vector_store_chunks db))).

Definition attached_completed (storeID fileID : string) (db : RDB) : bool :=
  match vector_store_files db !! (storeID, fileID) with
  | Some r => bool_decide (vf_status r = "completed")
  | None => false
  end.

(** The chunks of completed files. *)
Definition searchable (db : RDB) (c : chunk_row) : bool := attached_completed (cw_store c) (cw_file c) db.

Definition joined_row (db : RDB) (c : chunk_row) : option search_row :=
  f ← files db !! cw_file c;
  v ← vector_store_files db !! (cw_store c, cw_file c);
  if decide (vf_status v = "completed")
  then Some {| sw_file_id := cw_file c; sw_filename := fl_filename f; sw_attributes_json := vf_attributes_json v;
               sw_content := cw_content c |}
  else None.

Definition lexical_rows (storeID : string) (db : RDB) : list search_row :=
  omap (fun kv => joined_row db kv.2) (filter (fun kv => cw_store kv.2 = storeID) (rows_by_id (vector_store_chunks db))).

Definition store_files (storeID : string) (db : RDB) : list ((string * string) * vsf_row) :=
  filter (fun kv => kv.1.1 = storeID) (map_to_list (vector_store_files db)).

Definition count_status (status : string) (rows : list ((string * string) * vsf_row)) : Z :=
  Z.of_nat (length (filter (fun kv => vf_status kv.2 = status) rows)).

Definition usage_total (rows : list ((string * string) * vsf_row)) : Z :=
  foldr (fun kv n => vf_usage_bytes kv.2 + n)%Z 0%Z rows.

(** ORDER BY created_at, id in one direction. *)
Definition created_le {A} (asc : bool) (created : A -> Z) (id : A -> string) (a b : A) : bool :=
  let before a b := (created a <? created b)%Z ||
    ((created a =? created b)%Z && match String.compare (id a) (id b) with Gt => false | _ => true end) in
  if asc then before a b else before b a.

(** ** The index interface *)

Record IndexFileParams := { ix_VectorStoreID : string; ix_FileID : string; ix_CreatedAt : Z; ix_ReplacedChunkIDs : list Z }.
Record DeleteFileParams := { dx_VectorStoreID : string; dx_FileID : string; dx_CreatedAt : Z; dx_RemovedChunkIDs : list Z }.

Class retrievalBackend := {
  rb_IndexVectorStoreFile : IndexFileParams -> ST rworld unit;
  rb_DeleteVectorStoreFile : DeleteFileParams -> ST rworld unit;
  rb_RefreshVectorStore : string -> Z -> ST rworld unit;
  rb_DeleteVectorStore : string -> ST rworld unit;
  rb_SearchVectorStore : VectorStoreSearchQuery -> ST rworld VectorStoreSearchPage
}.

(** ** Files and vector stores *)

(** The position of a cursor among the identifiers of a list. *)
Fixpoint index_of (cursor : string) (ids : list string) : option nat :=
  match ids with
  | [] => None
  | id :: ids => if decide (id = cursor) then Some 0 else S <$> index_of cursor ids
  end.

(** paginateVectorStores and paginateVectorStoreFiles; slicing with a negative
    limit panics. *)
Definition paginate_rows {A} (id : A -> string) (rows : list A) (after before : string) (limit : Z) : res (list A * bool) :=
  let position cursor default delta :=
    let cursor := TrimSpace cursor in
    if decide (cursor = "") then Ok default
    else of_option ENotFound ((fun i => i + delta) <$> index_of cursor (map id rows)) in
  start ← position after 0 1;
  stop ← position before (length rows) 0;
  let start := Nat.min start stop in
  let page := take (stop - start) (drop start rows) in
  let hasMore := (limit <? Z.of_nat (length page))%Z in
  if hasMore then if (limit <? 0)%Z then Panic else Ok (take (Z.to_nat limit) page, true)
  else Ok (page, false).

Definition paginateVectorStores (stores : list StoredVectorStore) (after before : string) (limit : Z) :=
  paginate_rows sv_ID stores after before limit.
Definition paginateVectorStoreFiles (files : list StoredVectorStoreFile) (after before : string) (limit : Z) :=
  paginate_rows vt_ID files after before limit.

Section store.
Context `{Sqlite} `{UnixClock}.

Definition SaveFile (file : StoredFile) : ST rworld unit := rexec "insert file" (fun _ => upsert_file file).

Definition GetFile (id : string) : ST rworld StoredFile :=
  found ← rquery_raw (fun db => files db !! id);
  match found with
  | None => st_err ENotFound
  | Some row => mret (scanStoredFile id row)
  end.

Definition lookupListFilesCursorCreatedAt (id purpose : string) : ST rworld Z :=
  found ← rquery "lookup file cursor" (fun db => files db !! id);
  match found with
  | Some row => if decide (purpose = "" \/ fl_purpose row = purpose) then mret (fl_created_at row) else st_err ENotFound
  | None => st_err ENotFound
  end.

Definition file_after (asc : bool) (createdAt : Z) (cursor : string) (r : string * file_row) : bool :=
  let beyond a b := if asc then (b <? a)%Z else (a <? b)%Z in
  let id_beyond := match String.compare r.1 cursor with Eq => false | Lt => negb asc | Gt => asc end in
  beyond (fl_created_at r.2) createdAt || ((fl_created_at r.2 =? createdAt)%Z && id_beyond).

Definition ListFiles (q : ListFilesQuery) : ST rworld (list StoredFile * bool) :=
  let asc := bool_decide (lf_Order q = ListOrderAsc) in
  let purpose := TrimSpace (lf_Purpose q) in
  let cursor := TrimSpace (lf_After q) in
  after ← (if decide (cursor = "") then mret None
           else createdAt ← lookupListFilesCursorCreatedAt cursor purpose; mret (Some createdAt));
  rows ← rquery "list files" (fun db =>
    sql_limit (lf_Limit q + 1)
      (sort_by (created_le asc (fun r => fl_created_at r.2) fst)
        (filter (fun r => (bool_decide (purpose = "") || bool_decide (fl_purpose r.2 = purpose)) &&
                          match after with None => true | Some t => file_after asc t cursor r end = true)
           (map_to_list (files db)))));
  let files := map (fun r => scanStoredFileMetadata r.1 r.2) rows in
  if (lf_Limit q <? 0)%Z then st_lift Panic
  else if (lf_Limit q <? Z.of_nat (length files))%Z then mret (take (Z.to_nat (lf_Limit q)) files, true)
  else mret (files, false).

Definition SaveVectorStore (store : StoredVectorStore) : ST rworld unit :=
  rexec "insert vector store" (fun _ => upsert_store store (jprint (metadata_json (sv_Metadata store)))).

Definition getVectorStoreBase (id : string) : ST rworld StoredVectorStore :=
  found ← rquery_raw (fun db => vector_stores db !! id);
  match found with
  | None => st_err ENotFound
  | Some row => st_lift (scanVectorStoreBase id row)
  end.

Definition hydrateVectorStore (store : StoredVectorStore) : ST rworld StoredVectorStore :=
  rows ← rquery "scan vector store counts" (store_files (sv_ID store));
  now ← now_unix;
  let counts := {| fc_InProgress := count_status "in_progress" rows; fc_Completed := count_status "completed" rows;
                   fc_Failed := count_status "failed" rows; fc_Cancelled := count_status "cancelled" rows;
                   fc_Total := Z.of_nat (length rows) |} in
  let expired := match sv_ExpiresAt store with Some t => (t <=? now)%Z | None => false end in
  mret {| sv_ID := sv_ID store; sv_Name := sv_Name store; sv_Metadata := sv_Metadata store;
          sv_CreatedAt := sv_CreatedAt store; sv_LastActiveAt := sv_LastActiveAt store;
          sv_Status := if expired then "expired" else if (0 <? fc_InProgress counts)%Z then "in_progress" else "completed";
          sv_UsageBytes := usage_total rows; sv_FileCounts := counts;
          sv_ExpiresAfter := sv_ExpiresAfter store; sv_ExpiresAt := sv_ExpiresAt store |}.

Definition GetVectorStore (id : string) : ST rworld StoredVectorStore :=
  base ← getVectorStoreBase id;
  hydrateVectorStore base.

(** The rows are read one by one, and the counts of each as it comes. *)
Definition ListVectorStores (q : ListVectorStoresQuery) : ST rworld (list StoredVectorStore * bool) :=
  let asc := bool_decide (lv_Order q = ListOrderAsc) in
  rows ← rquery "list vector stores" (fun db =>
    sort_by (created_le asc (fun r => vs_created_at r.2) fst) (map_to_list (vector_stores db)));
  if (lv_Limit q + 1 <? 0)%Z then st_lift Panic
  else
    stores ← st_map (fun r => store ← st_lift (scanVectorStoreBase r.1 r.2); hydrateVectorStore store) rows;
    st_lift (paginateVectorStores stores (lv_After q) (lv_Before q) (lv_Limit q)).

Definition queryVectorStoreFileChunkIDs (storeID fileID : string) : ST rworld (list Z) :=
  rquery "query vector store chunk ids" (chunk_ids storeID fileID).

Definition queryVectorStoreChunkIDsByFile (fileID : string) : ST rworld (list (string * list Z)) :=
  rquery "query vector store chunk ids by file" (chunk_ids_by_file fileID).

Definition touchVectorStoreSearchActivity (storeID : string) : ST rworld unit :=
  now ← now_unix;
  rexec "touch vector store search activity" (fun _ => touch_store now storeID).

Definition GetVectorStoreFile (storeID fileID : string) : ST rworld StoredVectorStoreFile :=
  found ← rquery_raw (fun db => vector_store_files db !! (storeID, fileID));
  match found with
  | None => st_err ENotFound
  | Some row => st_lift (scanVectorStoreFile (storeID, fileID) row)
  end.

Definition ListVectorStoreFiles (q : ListVectorStoreFilesQuery) : ST rworld (list StoredVectorStoreFile * bool) :=
  _ ← getVectorStoreBase (lvf_VectorStoreID q);
  let asc := bool_decide (lvf_Order q = ListOrderAsc) in
  let status := TrimSpace (lvf_Filter q) in
  rows ← rquery "list vector store files" (fun db =>
    sort_by (created_le asc (fun r => vf_created_at r.2) (fun r => r.1.2))
      (filter (fun r => status = "" \/ vf_status r.2 = status) (store_files (lvf_VectorStoreID q) db)));
  if (lvf_Limit q + 1 <? 0)%Z then st_lift Panic
  else
    files ← st_lift (res_map (fun r => scanVectorStoreFile r.1 r.2) rows);
    st_lift (paginateVectorStoreFiles files (lvf_After q) (lvf_Before q) (lvf_Limit q)).

(** *** Writing through the index *)

Section indexed.
Context `{retrievalBackend} `{LetterTable} `{MapOrder}.

(** The chunks of a file, numbered from [i]. *)
Fixpoint insert_chunks (storeID fileID : string) (i : Z) (content : list string) : ST rworld unit :=
  match content with
  | [] => mret tt
  | chunk :: content =>
      _ ← rexec "insert vector store chunk" (fun fk => insert_chunk fk
        {| cw_store := storeID; cw_file := fileID; cw_index := i; cw_content := chunk; cw_token_count := countTerms chunk |});
      insert_chunks storeID fileID (i + 1) content
  end.

Definition vsf_row_of (file : StoredVectorStoreFile) : vsf_row :=
  {| vf_created_at := vt_CreatedAt file; vf_status := vt_Status file; vf_usage_bytes := vt_UsageBytes file;
     vf_last_error_json := (fun e => jprint (file_error_json e)) <$> vt_LastError file;
     vf_attributes_json := jprint (of_any (GMap (vt_Attributes file)));
     vf_chunking_strategy_json := jprint (strategy_json (vt_ChunkingStrategy file)) |}.

Definition SaveVectorStoreFile (file : StoredVectorStoreFile) (content : list string) : ST rworld unit :=
  let storeID := vt_VectorStoreID file in
  let fileID := vt_ID file in
  rtransaction "begin vector store file tx" "commit vector store file tx"
    (_ ← rexec "upsert vector store file" (fun fk => upsert_attached fk (storeID, fileID) (vsf_row_of file));
     existing ← queryVectorStoreFileChunkIDs storeID fileID;
     _ ← rexec "delete existing vector store chunks" (fun _ => delete_chunks storeID fileID);
     _ ← insert_chunks storeID fileID 0 content;
     _ ← rexec "touch vector store activity" (fun _ => touch_store (vt_CreatedAt file) storeID);
     st_wrap "index vector store file" (rb_IndexVectorStoreFile
       {| ix_VectorStoreID := storeID; ix_FileID := fileID; ix_CreatedAt := vt_CreatedAt file;
          ix_ReplacedChunkIDs := existing |})).

Definition AttachFileToVectorStore (storeID fileID : string) (attrs : list (string * gval))
    (strategy : FileChunkingStrategy) (createdAt : Z) : ST rworld StoredVectorStoreFile :=
  _ ← getVectorStoreBase storeID;
  file ← GetFile fileID;
  let '(content, status, lastError) := buildVectorStoreFileContent (sf_Content file) strategy in
  let attachment :=
    {| vt_ID := sf_ID file; vt_CreatedAt := createdAt; vt_VectorStoreID := storeID; vt_Status := status;
       vt_UsageBytes := if decide (status = "completed") then sf_Bytes file else 0; vt_LastError := lastError;
       vt_Attributes := attrs; vt_ChunkingStrategy := strategy |} in
  _ ← SaveVectorStoreFile attachment content;
  mret attachment.

Definition DeleteFile (id : string) : ST rworld unit :=
  rtransaction "begin delete file tx" "commit delete file tx"
    (affected ← queryVectorStoreChunkIDsByFile id;
     deleted ← rexec "delete file" (fun fk => delete_file_row fk id);
     if negb deleted then st_err ENotFound
     else st_each (fun kv =>
            now ← now_unix;
            st_wrap "refresh vector store after file delete" (rb_DeleteVectorStoreFile
              {| dx_VectorStoreID := kv.1; dx_FileID := id; dx_CreatedAt := now; dx_RemovedChunkIDs := kv.2 |}))
          (map_order affected)).

Definition DeleteVectorStore (id : string) : ST rworld unit :=
  rtransaction "begin delete vector store tx" "commit delete vector store tx"
    (_ ← st_wrap "delete vector store retrieval index" (rb_DeleteVectorStore id);
     deleted ← rexec "delete vector store" (fun fk => delete_store_row fk id);
     if negb deleted then st_err ENotFound else mret tt).

Definition DeleteVectorStoreFile (storeID fileID : string) : ST rworld unit :=
  rtransaction "begin delete vector store file tx" "commit delete vector store file tx"
    (chunkIDs ← queryVectorStoreFileChunkIDs storeID fileID;
     deleted ← rexec "delete vector store file" (fun _ => delete_attached (storeID, fileID));
     if negb deleted then st_err ENotFound
     else now ← now_unix;
          st_wrap "refresh vector store after file delete" (rb_DeleteVectorStoreFile
            {| dx_VectorStoreID := storeID; dx_FileID := fileID; dx_CreatedAt := now; dx_RemovedChunkIDs := chunkIDs |})).

Definition SearchVectorStore (q : VectorStoreSearchQuery) : ST rworld VectorStoreSearchPage := rb_SearchVectorStore q.
End indexed.

(** ** The lexical backend *)

Section lexical.
Context `{LetterTable} `{MapOrder}.

Definition searchVectorStoreLexicalResults (q : VectorStoreSearchQuery) (scoreThreshold : option float64)
    : ST rworld (list VectorStoreSearchResult) :=
  _ ← GetVectorStore (sq_VectorStoreID q);
  rows ← rquery "query vector store chunks" (lexical_rows (sq_VectorStoreID q));
  best ← st_lift (gather q scoreThreshold ∅ rows);
  mret (ranked_results best).

(** [results[:MaxNumResults]] when there are more. *)
Definition limit_results (q : VectorStoreSearchQuery) (results : list VectorStoreSearchResult) : res (list VectorStoreSearchResult) :=
  if (sq_MaxNumResults q <? Z.of_nat (length results))%Z
  then if (sq_MaxNumResults q <? 0)%Z then Panic else Ok (take (Z.to_nat (sq_MaxNumResults q)) results)
  else Ok results.

Definition search_page (q : VectorStoreSearchQuery) (search : ST rworld (list VectorStoreSearchResult)) : ST rworld VectorStoreSearchPage :=
  results ← search;
  results ← st_lift (limit_results q results);
  _ ← touchVectorStoreSearchActivity (sq_VectorStoreID q);
  mret {| sp_SearchQuery := sq_RawSearchQuery q; sp_Results := results; sp_HasMore := false |}.

Definition searchVectorStoreLexical (q : VectorStoreSearchQuery) : ST rworld VectorStoreSearchPage :=
  search_page q (searchVectorStoreLexicalResults q (sq_ScoreThreshold q)).

Definition lexicalRetrievalBackend : retrievalBackend :=
  {| rb_IndexVectorStoreFile _ := mret tt;
     rb_DeleteVectorStoreFile _ := mret tt;
     rb_RefreshVectorStore _ _ := mret tt;
     rb_DeleteVectorStore _ := mret tt;
     rb_SearchVectorStore := searchVectorStoreLexical |}.
End lexical.
End store.

(** ** The FTS5 backend *)

(** SQLite's full-text search: whether the text of a row matches a query, and
    the rank of a row in the whole table, lower first. *)
Class Fts5 := {
  fts_match : string -> string -> bool;
  fts_bm25 : gmap Z fts_row -> string -> Z -> Z
}.

Section fts5.
Context `{Sqlite} `{UnixClock} `{LetterTable} `{MapOrder} `{Fts5}.

Definition deleteFTS5Rows (chunkIDs : list Z) : ST rworld unit :=
  st_each (fun id => rexec "delete fts5 vector store chunk row"
    (fun _ db => Ok (tt, set_fts db (delete id (vector_store_chunks_fts db))))) chunkIDs.

Definition fts_row_of (c : chunk_row) : fts_row := {| ft_store := cw_store c; ft_file := cw_file c; ft_content := cw_content c |}.

(** ORDER BY c.chunk_index ASC, c.id ASC *)
Definition index_le (a b : Z * chunk_row) : bool :=
  (cw_index a.2 <? cw_index b.2)%Z || ((cw_index a.2 =? cw_index b.2)%Z && (a.1 <=? b.1)%Z).

(** [selected] is the WHERE clause on the chunk. *)
Definition indexFTS5Chunks (selected : chunk_row -> bool) : ST rworld unit :=
  rows ← rquery "query vector store chunks for fts5 index" (fun db =>
    sort_by index_le (filter (fun kv => selected kv.2 && searchable db kv.2 = true) (map_to_list (vector_store_chunks db))));
  st_each (fun kv => rexec "insert fts5 vector store chunk" (fun _ => insert_fts kv.1 (fts_row_of kv.2))) rows.

Definition delete_fts_where (p : fts_row -> bool) (db : RDB) : res (unit * RDB) :=
  Ok (tt, set_fts db (filter (fun kv => p kv.2 = false) (vector_store_chunks_fts db))).

Definition fts5_IndexVectorStoreFile (p : IndexFileParams) : ST rworld unit :=
  _ ← deleteFTS5Rows (ix_ReplacedChunkIDs p);
  indexFTS5Chunks (chunk_of (ix_VectorStoreID p) (ix_FileID p)).

Definition fts5_DeleteVectorStoreFile (p : DeleteFileParams) : ST rworld unit :=
  _ ← deleteFTS5Rows (dx_RemovedChunkIDs p);
  match dx_RemovedChunkIDs p with
  | _ :: _ => mret tt
  | [] => rexec "delete fts5 vector store file rows" (fun _ => delete_fts_where (fun r =>
            bool_decide (ft_store r = dx_VectorStoreID p) && bool_decide (ft_file r = dx_FileID p)))
  end.

Definition fts5_RefreshVectorStore (storeID : string) (_ : Z) : ST rworld unit :=
  _ ← rexec "delete fts5 vector store rows before refresh" (fun _ => delete_fts_where (fun r => bool_decide (ft_store r = storeID)));
  indexFTS5Chunks (fun c => bool_decide (cw_store c = storeID)).

Definition fts5_DeleteVectorStore (storeID : string) : ST rworld unit :=
  rexec "delete fts5 vector store rows" (fun _ => delete_fts_where (fun r => bool_decide (ft_store r = storeID))).

(** How many rows there are, and the largest identifier. *)
Definition id_state {V} (p : V -> bool) (m : gmap Z V) : Z * Z :=
  let ids := map fst (filter (fun kv => p kv.2 = true) (map_to_list m)) in
  (Z.of_nat (length ids), match ids with [] => 0 | id :: ids => foldr Z.max id ids end)%Z.

Definition ensureFTS5VectorStoreIndex (storeID : string) : ST rworld unit :=
  source ← rquery "query fts5 source chunk state" (fun db =>
    id_state (fun c => bool_decide (cw_store c = storeID) && searchable db c) (vector_store_chunks db));
  index ← rquery "query fts5 index state" (fun db =>
    id_state (fun r => bool_decide (ft_store r = storeID)) (vector_store_chunks_fts db));
  if bool_decide (source = index) then mret tt
  else rtransaction "begin fts5 index repair tx" "commit fts5 index repair tx"
         (now ← now_unix; fts5_RefreshVectorStore storeID now).

(** A term has no quote, so that quoting it changes nothing inside. *)
Definition fts_term (term : string) : string :=
  String dquote (ReplaceAll term (char_string dquote) (String dquote (char_string dquote)) +:+ char_string dquote).

Definition buildFTS5Query (queries : list string) : string :=
  sjoin " OR " (map fts_term (unique_terms [] (flat_map tokenizeTerms queries))).

Definition bm25_le (db : RDB) (ftsQuery : string) (a b : Z) : bool :=
  let rank := fts_bm25 (vector_store_chunks_fts db) ftsQuery in
  (rank a <? rank b)%Z || ((rank a =? rank b)%Z && (a <=? b)%Z).

Definition fts5_rows (ftsQuery storeID : string) (db : RDB) : list search_row :=
  omap (fun kv : Z * fts_row => vector_store_chunks db !! kv.1 ≫= joined_row db)
    (sort_by (fun a b : Z * fts_row => bm25_le db ftsQuery a.1 b.1)
      (filter (fun kv => fts_match ftsQuery (ft_content kv.2) && bool_decide (ft_store kv.2 = storeID) = true)
        (map_to_list (vector_store_chunks_fts db)))).

Definition searchVectorStoreFTS5Results (q : VectorStoreSearchQuery) (scoreThreshold : option float64)
    : ST rworld (list VectorStoreSearchResult) :=
  _ ← GetVectorStore (sq_VectorStoreID q);
  _ ← ensureFTS5VectorStoreIndex (sq_VectorStoreID q);
  let ftsQuery := buildFTS5Query (sq_Queries q) in
  if decide (ftsQuery = "") then mret []
  else
    rows ← rquery "query fts5 vector store chunks" (fts5_rows ftsQuery (sq_VectorStoreID q));
    best ← st_lift (gather q scoreThreshold ∅ rows);
    mret (ranked_results best).

Definition fts5_SearchVectorStore (q : VectorStoreSearchQuery) : ST rworld VectorStoreSearchPage :=
  search_page q (searchVectorStoreFTS5Results q (sq_ScoreThreshold q)).

Definition sqliteFTS5RetrievalBackend : retrievalBackend :=
  {| rb_IndexVectorStoreFile := fts5_IndexVectorStoreFile;
     rb_DeleteVectorStoreFile := fts5_DeleteVectorStoreFile;
     rb_RefreshVectorStore := fts5_RefreshVectorStore;
     rb_DeleteVectorStore := fts5_DeleteVectorStore;
     rb_SearchVectorStore := fts5_SearchVectorStore |}.
End fts5.
