(* ===== verification/IndexProps.v ===== *)
(** * The full-text index is in step with the chunks

    With the FTS5 backend, whatever sequence of operations runs and whichever
    statements fail, the index has exactly the chunks of completed files. *)

From S2P Require Import Prelude GoStr GoFloat GoJson JsonFacts StrFacts GoInt FloatOps World Items Normalize Context Store Terms Retrieval Ranking VectorStore.

(** ** Statements and transactions *)

Section running.
Context `{SQ : Sqlite}.

Lemma rexec_ok {A} ctx (f : bool -> RDB -> res (A * RDB)) w a w' : rexec ctx f w = (Ok a, w') ->
  f (conn_fk (rw_stmts w)) (rw_db w) = Ok (a, rw_db w').
Proof.
  unfold rexec, st_wrap, rexec_raw. destruct (stmt_fails _); [done|]. destruct (f _ _) as [[a' db]|e|]; simpl; [|done..].
  by intros [= -> <-].
Qed.

Lemma rquery_ok {A} ctx (f : RDB -> A) w a w' : rquery ctx f w = (Ok a, w') -> a = f (rw_db w) /\ rw_db w' = rw_db w.
Proof. intros Hq%rexec_ok. by injection Hq. Qed.

Lemma rquery_raw_ok {A} (f : RDB -> A) w a w' : rquery_raw f w = (Ok a, w') -> a = f (rw_db w) /\ rw_db w' = rw_db w.
Proof. unfold rquery_raw, rexec_raw. destruct (stmt_fails _); [done|]. by intros [= <- <-]. Qed.

Lemma wrapped_ok {S A} ctx (m : ST S A) s a s' : st_wrap ctx m s = (Ok a, s') -> m s = (Ok a, s').
Proof. unfold st_wrap. destruct (m s) as [[]]; simpl; congruence. Qed.

Lemma rquery_db {A} ctx (f : RDB -> A) w : rw_db (rquery ctx f w).2 = rw_db w.
Proof. unfold rquery, rexec, st_wrap, rexec_raw. by destruct (stmt_fails _). Qed.

(** What a computation preserves, whether it succeeds or not. *)
Definition keeps (I : RDB -> Prop) {A} (m : ST rworld A) : Prop := forall w, I (rw_db w) -> I (rw_db (m w).2).

Lemma stays_bind (I : RDB -> Prop) {A B} (m : ST rworld A) (f : A -> ST rworld B) :
  keeps I m -> (forall a, keeps I (f a)) -> keeps I (m ≫= f).
Proof.
  intros Hm Hf w Hw. specialize (Hm w Hw). rewrite st_bind_eq. destruct (m w) as [[a|e|] w1]; [|done..]. by apply Hf.
Qed.

Lemma keeps_pure (I : RDB -> Prop) {A} (m : ST rworld A) : (forall w, rw_db (m w).2 = rw_db w) -> keeps I m.
Proof. intros Hm w Hw. by rewrite Hm. Qed.

Lemma keeps_exec (I : RDB -> Prop) {A} ctx (f : bool -> RDB -> res (A * RDB)) :
  (forall n db a db', f (conn_fk n) db = Ok (a, db') -> I db -> I db') -> keeps I (rexec ctx f).
Proof.
  intros Hf w Hw. unfold rexec, st_wrap, rexec_raw. destruct (stmt_fails _); [done|].
  destruct (f _ _) as [[a db]|e|] eqn:E; [|done..]. simpl. by eapply Hf.
Qed.

Lemma stays_wrap (I : RDB -> Prop) {A} ctx (m : ST rworld A) : keeps I m -> keeps I (st_wrap ctx m).
Proof. intros Hm w Hw. specialize (Hm w Hw). unfold st_wrap. by destruct (m w). Qed.

(** A transaction keeps what its committed body establishes. *)
Lemma keeps_tx (I : RDB -> Prop) {A} b c (body : ST rworld A) :
  (forall w a w', body w = (Ok a, w') -> I (rw_db w) -> I (rw_db w')) -> keeps I (rtransaction b c body).
Proof.
  intros Hb w Hw. unfold rtransaction. pose proof (rquery_db b (fun _ => tt) w) as H1.
  destruct (rquery b _ w) as [[[]|e|] w1]; simpl in H1; [|(simpl; congruence)..].
  destruct (body w1) as [[a|e|] w2] eqn:E; [|done..]. pose proof (rquery_db c (fun _ => tt) w2) as H2.
  destruct (rquery c _ w2) as [[[]|e|] w3]; simpl in H2 |- *; [|done..]. rewrite H2. eapply Hb; [exact E|]. by rewrite H1.
Qed.

Lemma rtransaction_ok {A} b c (body : ST rworld A) w a w' : rtransaction b c body w = (Ok a, w') ->
  exists w1 w2, body w1 = (Ok a, w2) /\ rw_db w1 = rw_db w /\ rw_db w' = rw_db w2.
Proof.
  unfold rtransaction. destruct (rquery b _ w) as [[[]|e|] w1] eqn:E1; [|done..]. destruct (body w1) as [[a'|e|] w2] eqn:E2; [|done..].
  destruct (rquery c _ w2) as [[[]|e|] w3] eqn:E3; [|done..]. intros [= <- <-]. apply rquery_ok in E1 as [_ E1]. apply rquery_ok in E3 as [_ E3].
  by exists w1, w2.
Qed.

Lemma keeps_each (I : RDB -> Prop) {A} (f : A -> ST rworld unit) xs : (forall x, keeps I (f x)) -> keeps I (st_each f xs).
Proof. intros Hf. induction xs as [|x xs IH]; [by apply keeps_pure|]. simpl. apply stays_bind; auto. Qed.

Lemma keeps_map (I : RDB -> Prop) {A B} (f : A -> ST rworld B) xs : (forall x, keeps I (f x)) -> keeps I (st_map f xs).
Proof.
  intros Hf. induction xs as [|x xs IH]; [by apply keeps_pure|]. simpl. apply stays_bind; [done|]. intros y.
  apply stays_bind; [done|]. intros ys. by apply keeps_pure.
Qed.

(** Reading keeps everything. *)
Lemma keeps_query (I : RDB -> Prop) {A} ctx (f : RDB -> A) : keeps I (rquery ctx f).
Proof. apply keeps_pure. apply rquery_db. Qed.

Lemma keeps_query_raw (I : RDB -> Prop) {A} (f : RDB -> A) : keeps I (rquery_raw f).
Proof. apply keeps_pure. intros w. unfold rquery_raw, rexec_raw. by destruct (stmt_fails _). Qed.

Lemma stays_lift (I : RDB -> Prop) {A} (m : res A) : keeps I (st_lift m).
Proof. by apply keeps_pure. Qed.
Lemma stays_err (I : RDB -> Prop) {A} e : keeps I (A := A) (st_err e).
Proof. by apply keeps_pure. Qed.
Lemma stays_ret (I : RDB -> Prop) {A} (a : A) : keeps I (mret a).
Proof. by apply keeps_pure. Qed.
Lemma keeps_now `{UnixClock} (I : RDB -> Prop) : keeps I now_unix.
Proof. by apply keeps_pure. Qed.
End running.

#[export] Hint Resolve keeps_query keeps_query_raw stays_lift stays_err stays_ret keeps_now stays_wrap : shim.

Ltac keep :=
  repeat first [ progress eauto with shim
               | apply stays_bind; [|intros ?]
               | apply keeps_map; intros ?
               | match goal with |- keeps _ (if ?b then _ else _) => destruct b
                              | |- keeps _ (match ?x with _ => _ end) => destruct x end ].

(** ** The invariant *)

(** The index the chunks call for. *)
Definition due (db : RDB) (c : chunk_row) : option fts_row := if searchable db c then Some (fts_row_of c) else None.

Definition in_step (db : RDB) : Prop :=
  (forall id, vector_store_chunks_fts db !! id = vector_store_chunks db !! id ≫= due db) /\
  (forall id c, vector_store_chunks db !! id = Some c -> (id <= chunk_seq db)%Z).

Lemma in_step_same db db' : vector_store_chunks_fts db' = vector_store_chunks_fts db ->
  vector_store_chunks db' = vector_store_chunks db -> chunk_seq db' = chunk_seq db ->
  vector_store_files db' = vector_store_files db -> in_step db -> in_step db'.
Proof.
  intros E1 E2 E3 E4 [Hf Hs]. unfold in_step. rewrite E1, E2, E3. split; [|done]. intros id. rewrite Hf.
  destruct (vector_store_chunks db !! id) as [c|]; [|done]. simpl. unfold due, searchable, attached_completed. by rewrite E4.
Qed.

(** A statement that writes files or vector stores only. *)
Lemma keeps_other `{Sqlite} {A} ctx (f : bool -> RDB -> res (A * RDB)) :
  (forall fk db a db', f fk db = Ok (a, db') -> vector_store_chunks_fts db' = vector_store_chunks_fts db /\
     vector_store_chunks db' = vector_store_chunks db /\ chunk_seq db' = chunk_seq db /\ vector_store_files db' = vector_store_files db) ->
  keeps in_step (rexec ctx f).
Proof. intros Hf. apply keeps_exec. intros n db a db' (E1 & E2 & E3 & E4)%Hf. by apply in_step_same. Qed.

Lemma keeps_touch `{Sqlite} ctx t id : keeps in_step (rexec ctx (fun _ => touch_store t id)).
Proof. apply keeps_other. by intros fk db a db' [= _ <-]. Qed.
#[export] Hint Resolve keeps_touch : shim.

(** ** The writes of the index *)

Section writes.
Context `{SQ : Sqlite} `{UnixClock} `{LetterTable} `{MO : MapOrder} `{Fts5}.

(** All tables but the index. *)
Definition same_tables (db db' : RDB) : Prop :=
  files db' = files db /\ vector_stores db' = vector_stores db /\ vector_store_files db' = vector_store_files db /\
  vector_store_chunks db' = vector_store_chunks db /\ chunk_seq db' = chunk_seq db.

Lemma same_tables_trans db1 db2 db3 : same_tables db1 db2 -> same_tables db2 db3 -> same_tables db1 db3.
Proof. unfold same_tables. intros (? & ? & ? & ? & ?) (? & ? & ? & ? & ?). repeat split; congruence. Qed.

Lemma deleteFTS5Rows_ok ids w u w' : deleteFTS5Rows ids w = (Ok u, w') -> same_tables (rw_db w) (rw_db w') /\
  forall id, vector_store_chunks_fts (rw_db w') !! id = if decide (id ∈ ids) then None else vector_store_chunks_fts (rw_db w) !! id.
Proof.
  revert w. unfold deleteFTS5Rows. induction ids as [|i ids IH]; intros w; cbn [st_each].
  { intros [= _ <-]. split; [done|]. intros id. by rewrite decide_False by set_solver. }
  intros (u1 & w1 & He%rexec_ok & Hr)%st_bind_ok. injection He as _ He. destruct (IH _ Hr) as [Hs Hf].
  rewrite <-He in Hs, Hf. split; [exact Hs|]. intros id. rewrite Hf. simpl.
  destruct (decide (id = i)) as [->|Hne]; [rewrite lookup_delete_eq; by repeat case_decide; set_solver|].
  rewrite lookup_delete_ne by done. repeat case_decide; set_solver.
Qed.

Lemma insert_fts_ok rows w u w' : NoDup (map fst rows) ->
  st_each (fun kv => rexec "insert fts5 vector store chunk" (fun _ => insert_fts kv.1 (fts_row_of kv.2))) rows w = (Ok u, w') ->
  same_tables (rw_db w) (rw_db w') /\
  (forall id c, (id, c) ∈ rows -> vector_store_chunks_fts (rw_db w') !! id = Some (fts_row_of c)) /\
  (forall id, id ∉ map fst rows -> vector_store_chunks_fts (rw_db w') !! id = vector_store_chunks_fts (rw_db w) !! id).
Proof.
  revert w. induction rows as [|[i c] rows IH]; intros w; simpl.
  { intros _ [= _ <-]. split; [done|]. split; [|done]. intros id c Hn. by apply not_elem_of_nil in Hn. }
  intros [Hi Hn]%NoDup_cons (u1 & w1 & He%rexec_ok & Hr)%st_bind_ok. simpl in He. unfold insert_fts in He.
  destruct (vector_store_chunks_fts (rw_db w) !! i) eqn:E; [done|]. injection He as _ He.
  destruct (IH _ Hn Hr) as (Hs & Hin & Hout). rewrite <-He in Hs, Hout. split; [exact Hs|]. split.
  - intros id c' [[= -> ->]|Hc]%elem_of_cons; [|by apply Hin]. rewrite Hout by done. simpl. apply lookup_insert_eq.
  - intros id Hid. apply not_elem_of_cons in Hid as [Hne Hid]. rewrite Hout by done. simpl. by apply lookup_insert_ne.
Qed.

Lemma indexFTS5Chunks_ok sel w u w' : indexFTS5Chunks sel w = (Ok u, w') -> same_tables (rw_db w) (rw_db w') /\
  forall id, vector_store_chunks_fts (rw_db w') !! id =
    match vector_store_chunks (rw_db w) !! id with
    | Some c => if sel c && searchable (rw_db w) c then Some (fts_row_of c) else vector_store_chunks_fts (rw_db w) !! id
    | None => vector_store_chunks_fts (rw_db w) !! id
    end.
Proof.
  intros (rows & w1 & [-> Hw1]%rquery_ok & Hr)%st_bind_ok. set (rows := sort_by index_le _) in Hr.
  assert (Hrows : forall id c, (id, c) ∈ rows <-> vector_store_chunks (rw_db w) !! id = Some c /\ sel c && searchable (rw_db w) c = true).
  { intros id c. unfold rows. rewrite sort_by_perm, list_elem_of_filter, elem_of_map_to_list. tauto. }
  apply insert_fts_ok in Hr as (Hs & Hin & Hout).
  2: { unfold rows. rewrite sort_by_perm. apply NoDup_map_filter, NoDup_fst_map_to_list. }
  rewrite Hw1 in Hs, Hout. split; [done|]. intros id.
  destruct (decide (id ∈ map fst rows)) as [([id' c] & -> & Hc)%list_elem_of_fmap|Hn].
  - pose proof (proj1 (Hrows id' c) Hc) as [E1 E2]. simpl. rewrite E1, E2. by apply Hin.
  - rewrite Hout by done. destruct (vector_store_chunks (rw_db w) !! id) as [c|] eqn:E; [|done].
    destruct (sel c && _) eqn:E'; [|done]. exfalso. apply Hn. apply list_elem_of_fmap. exists (id, c). split; [done|]. by apply Hrows.
Qed.

Lemma rows_by_id_elem {V} (m : gmap Z V) id v : (id, v) ∈ rows_by_id m <-> m !! id = Some v.
Proof. unfold rows_by_id. by rewrite sort_by_perm, elem_of_map_to_list. Qed.

Lemma chunk_ids_elem s f db id : id ∈ chunk_ids s f db <-> exists c, vector_store_chunks db !! id = Some c /\ chunk_of s f c = true.
Proof.
  unfold chunk_ids. rewrite list_elem_of_fmap. split.
  - intros ([i c] & -> & [Hc Hi%rows_by_id_elem]%list_elem_of_filter). eauto.
  - intros (c & Hi & Hc). exists (id, c). split; [done|]. apply list_elem_of_filter. split; [done|]. by apply rows_by_id_elem.
Qed.

Lemma chunk_of_spec s f c : chunk_of s f c = true <-> cw_store c = s /\ cw_file c = f.
Proof. unfold chunk_of. by rewrite andb_true_iff, !bool_decide_eq_true. Qed.

Definition bounded (db : RDB) : Prop := forall id c, vector_store_chunks db !! id = Some c -> (id <= chunk_seq db)%Z.

(** Chunks are added, to one file. *)
Definition chunks_added (s f : string) (db db' : RDB) : Prop :=
  vector_store_files db' = vector_store_files db /\ vector_store_chunks_fts db' = vector_store_chunks_fts db /\ bounded db' /\
  forall id, match vector_store_chunks db' !! id with
             | Some c => vector_store_chunks db !! id = Some c \/ (vector_store_chunks db !! id = None /\ chunk_of s f c = true)
             | None => vector_store_chunks db !! id = None
             end.

Lemma insert_chunk_ok fk row db u db' : insert_chunk fk row db = Ok (u, db') -> bounded db ->
  chunks_added (cw_store row) (cw_file row) db db'.
Proof.
  unfold insert_chunk. destruct (existsb _ _); [done|]. destruct (negb _); [done|]. intros [= _ <-] Hb.
  split; [done|]. split; [done|]. assert (Hnew : vector_store_chunks db !! (chunk_seq db + 1)%Z = None).
  { destruct (vector_store_chunks db !! (chunk_seq db + 1)%Z) as [c|] eqn:E; [|done]. apply Hb in E. lia. }
  split.
  - intros id c. simpl. intros [[<- <-]|[Hne Hc%Hb]]%lookup_insert_Some; lia.
  - intros id. simpl. destruct (decide (id = (chunk_seq db + 1)%Z)) as [->|Hne].
    + rewrite lookup_insert_eq. right. split; [done|]. by apply chunk_of_spec.
    + rewrite lookup_insert_ne by done. destruct (_ !! id); auto.
Qed.

Lemma chunks_added_trans s f db1 db2 db3 : chunks_added s f db1 db2 -> chunks_added s f db2 db3 -> chunks_added s f db1 db3.
Proof.
  intros (A1 & A2 & A3 & A4) (B1 & B2 & B3 & B4). split; [congruence|]. split; [congruence|]. split; [done|].
  intros id. specialize (A4 id). specialize (B4 id). destruct (vector_store_chunks db3 !! id) as [c|].
  - destruct B4 as [B4|[B4 ?]]; rewrite B4 in A4; auto.
  - by rewrite B4 in A4.
Qed.

Lemma insert_chunks_ok s f i content w u w' : insert_chunks s f i content w = (Ok u, w') -> bounded (rw_db w) ->
  chunks_added s f (rw_db w) (rw_db w').
Proof.
  revert i w. induction content as [|x content IH]; intros i w; simpl.
  - intros [= _ <-] Hb. split; [done|]. split; [done|]. split; [done|]. intros id. destruct (_ !! id); auto.
  - intros (u1 & w1 & He%rexec_ok & Hr)%st_bind_ok Hb. apply insert_chunk_ok in He as Ha; [|done]. simpl in Ha.
    eapply chunks_added_trans; [exact Ha|]. eapply IH; [exact Hr|]. apply Ha.
Qed.

(** The index of a file is rebuilt when its rows are. *)
Lemma reindexed s f db0 db1 (ids : list Z) : in_step db0 ->
  (forall id, id ∈ ids <-> exists c, vector_store_chunks db0 !! id = Some c /\ chunk_of s f c = true) ->
  (forall id c, chunk_of s f c = false -> vector_store_chunks db0 !! id = Some c <-> vector_store_chunks db1 !! id = Some c) ->
  (forall c, chunk_of s f c = false -> searchable db1 c = searchable db0 c) ->
  bounded db1 ->
  (forall id, vector_store_chunks_fts db1 !! id =
     match vector_store_chunks db1 !! id with
     | Some c => if chunk_of s f c && searchable db1 c then Some (fts_row_of c)
                 else if decide (id ∈ ids) then None else vector_store_chunks_fts db0 !! id
     | None => if decide (id ∈ ids) then None else vector_store_chunks_fts db0 !! id
     end) -> in_step db1.
Proof.
  intros [Hf _] Hids Hkeep Hsearch Hb Hnew. split; [|done]. intros id. rewrite Hnew, Hf. clear Hnew Hf Hb.
  specialize (Hids id). destruct (vector_store_chunks db1 !! id) as [c|] eqn:E; simpl.
  - unfold due. destruct (chunk_of s f c) eqn:Ec; simpl.
    + destruct (searchable db1 c); [done|]. case_decide as Hin; [done|].
      destruct (vector_store_chunks db0 !! id) as [c0|] eqn:E0; [|done]. simpl. destruct (chunk_of s f c0) eqn:Ec0.
      * exfalso. apply Hin, Hids. eauto.
      * apply (Hkeep id c0 Ec0) in E0. congruence.
    + apply (Hkeep id c Ec) in E. rewrite decide_False by (rewrite Hids, E; intros (? & [= <-] & ?); congruence).
      rewrite E. simpl. by rewrite Hsearch.
  - case_decide as Hin; [done|]. destruct (vector_store_chunks db0 !! id) as [c0|] eqn:E0; [|done].
    destruct (chunk_of s f c0) eqn:Ec0; [exfalso; apply Hin, Hids; eauto|]. apply (Hkeep id c0 Ec0) in E0. congruence.
Qed.

Lemma searchable_attached db db' c : vector_store_files db' !! (cw_store c, cw_file c) = vector_store_files db !! (cw_store c, cw_file c) ->
  searchable db' c = searchable db c.
Proof. intros He. unfold searchable, attached_completed. by rewrite He. Qed.

Lemma not_chunk_of s f c : chunk_of s f c = false -> (s, f) <> (cw_store c, cw_file c).
Proof. intros Hc [= -> ->]. assert (chunk_of (cw_store c) (cw_file c) c = true) by (by apply chunk_of_spec). congruence. Qed.

#[local] Existing Instance sqliteFTS5RetrievalBackend.

Lemma keeps_SaveVectorStoreFile file content : keeps in_step (SaveVectorStoreFile file content).
Proof.
  unfold SaveVectorStoreFile. apply keeps_tx. intros w u w6 Hr Hin. set (s := vt_VectorStoreID file) in *. set (f := vt_ID file) in *.
  apply st_bind_ok in Hr as (u1 & w1 & He1%rexec_ok & Hr). apply st_bind_ok in Hr as (ids & w2 & [Hids Hw2]%rquery_ok & Hr).
  apply st_bind_ok in Hr as (u3 & w3 & He3%rexec_ok & Hr). apply st_bind_ok in Hr as (u4 & w4 & Hc & Hr).
  apply st_bind_ok in Hr as (u5 & w5 & He5%rexec_ok & Hr). apply wrapped_ok in Hr. cbn in Hr.
  apply st_bind_ok in Hr as (u6 & w5' & Hd & Hx). cbn [ix_ReplacedChunkIDs ix_VectorStoreID ix_FileID] in Hd, Hx.
  apply deleteFTS5Rows_ok in Hd as [Sd Fd]. apply indexFTS5Chunks_ok in Hx as [Sx Fx].
  unfold upsert_attached in He1. destruct (_ && _); [done|]. injection He1 as _ He1. injection He3 as _ He3. injection He5 as _ He5.
  rewrite Hw2 in He3. pose proof Hin as [Hf0 Hb0].
  assert (Hb3 : bounded (rw_db w3)).
  { rewrite <-He3, <-He1. intros id c. simpl. intros [Hc' _]%map_lookup_filter_Some. by apply Hb0 in Hc'. }
  destruct (insert_chunks_ok _ _ _ _ _ _ _ Hc Hb3) as (A1 & A2 & A3 & A4).
  destruct Sd as (_ & _ & Sd1 & Sd2 & Sd3). destruct Sx as (_ & _ & Sx1 & Sx2 & Sx3).
  assert (C5 : vector_store_chunks (rw_db w5) = vector_store_chunks (rw_db w4)) by (by rewrite <-He5).
  assert (V5 : vector_store_files (rw_db w6) = <[(s, f) := vsf_row_of file]> (vector_store_files (rw_db w))).
  { rewrite Sx1, Sd1, <-He5. simpl. rewrite A1, <-He3, <-He1. done. }
  assert (C3 : forall id c, vector_store_chunks (rw_db w3) !! id = Some c <->
    vector_store_chunks (rw_db w) !! id = Some c /\ chunk_of s f c = false).
  { intros id c. rewrite <-He3, <-He1. simpl. by rewrite map_lookup_filter_Some. }
  apply (reindexed s f (rw_db w) (rw_db w6) ids Hin).
  - intros id. rewrite Hids, chunk_ids_elem, <-He1. done.
  - intros id c Hno. rewrite Sx2, Sd2, C5. specialize (A4 id). specialize (C3 id). split.
    + intros E. destruct (vector_store_chunks (rw_db w4) !! id) as [c'|].
      * destruct A4 as [A4|[A4 _]]; [apply C3 in A4 as [A4 _]; congruence|].
        assert (vector_store_chunks (rw_db w3) !! id = Some c) by (by apply C3). congruence.
      * assert (vector_store_chunks (rw_db w3) !! id = Some c) by (by apply C3). congruence.
    + intros E. rewrite E in A4. destruct A4 as [A4|[_ A4]]; [|congruence]. by apply C3 in A4 as [A4 _].
  - intros c Hno%not_chunk_of. apply searchable_attached. rewrite V5. by apply lookup_insert_ne.
  - intros id c. rewrite Sx2, Sx3, Sd2, Sd3, C5, <-He5. simpl. apply A3.
  - intros id. rewrite Fx, Sx2. assert (Hse : forall c, searchable (rw_db w5') c = searchable (rw_db w6) c).
    { intros c. apply searchable_attached. by rewrite Sx1. }
    assert (Hfts : vector_store_chunks_fts (rw_db w5) = vector_store_chunks_fts (rw_db w)) by (by rewrite <-He5; simpl; rewrite A2, <-He3, <-He1).
    rewrite Fd, Hfts. destruct (vector_store_chunks (rw_db w5') !! id); [|done]. by rewrite Hse.
Qed.

Lemma delete_fts_where_ok p db u db' : delete_fts_where p db = Ok (u, db') -> same_tables db db' /\
  forall id, vector_store_chunks_fts db' !! id = match vector_store_chunks_fts db !! id with
                                                 | Some r => if p r then None else Some r
                                                 | None => None
                                                 end.
Proof.
  intros [= _ <-]. split; [done|]. intros id. simpl. destruct (vector_store_chunks_fts db !! id) as [r|] eqn:E.
  - destruct (p r) eqn:Ep.
    + apply map_lookup_filter_None. right. intros r' Hr'. simpl. congruence.
    + by apply map_lookup_filter_Some.
  - apply map_lookup_filter_None. by left.
Qed.

Lemma fts5_delete_ok p w u w' : fts5_DeleteVectorStoreFile p w = (Ok u, w') -> same_tables (rw_db w) (rw_db w') /\
  forall id, vector_store_chunks_fts (rw_db w') !! id =
    if decide (id ∈ dx_RemovedChunkIDs p) then None
    else match vector_store_chunks_fts (rw_db w) !! id with
         | Some r => if bool_decide (dx_RemovedChunkIDs p = []) && bool_decide (ft_store r = dx_VectorStoreID p) &&
                        bool_decide (ft_file r = dx_FileID p) then None else Some r
         | None => None
         end.
Proof.
  intros (u1 & w1 & [Sd Fd]%deleteFTS5Rows_ok & Hr)%st_bind_ok. destruct (dx_RemovedChunkIDs p) as [|i ids].
  - apply rexec_ok, delete_fts_where_ok in Hr as [Sw Fw]. split; [by eapply same_tables_trans|]. intros id. by rewrite Fw, Fd.
  - injection Hr as _ <-. split; [done|]. intros id. rewrite Fd. case_decide; [done|]. by destruct (_ !! id).
Qed.

Lemma keeps_DeleteVectorStoreFile s f : keeps in_step (DeleteVectorStoreFile s f).
Proof.
  apply keeps_tx. intros w u w4 Hr Hin. apply st_bind_ok in Hr as (ids & w1 & [Hids Hw1]%rquery_ok & Hr).
  apply st_bind_ok in Hr as (b & w2 & He%rexec_ok & Hr). destruct b; [|done]. apply st_bind_ok in Hr as (now & w3 & [= _ <-] & Hr).
  apply wrapped_ok, fts5_delete_ok in Hr as [(_ & _ & S1 & S2 & S3) Fd]. cbn [dx_RemovedChunkIDs dx_VectorStoreID dx_FileID] in Fd.
  unfold delete_attached in He. destruct (vector_store_files (rw_db w1) !! (s, f)); [|done]. injection He as He. rewrite Hw1 in He.
  pose proof Hin as [Hf0 Hb0]. assert (C2 : vector_store_chunks (rw_db w2) = vector_store_chunks (rw_db w)) by (by rewrite <-He).
  assert (Hno : forall c, chunk_of s f c = true -> searchable (rw_db w4) c = false).
  { intros c [<- <-]%chunk_of_spec. unfold searchable, attached_completed. rewrite S1, <-He. simpl. by rewrite lookup_delete_eq. }
  assert (Hids' : forall id, id ∈ ids <-> exists c, vector_store_chunks (rw_db w) !! id = Some c /\ chunk_of s f c = true).
  { intros id. by rewrite Hids, chunk_ids_elem. }
  apply (reindexed s f (rw_db w) (rw_db w4) ids Hin Hids').
  - intros id c _. by rewrite S2, C2.
  - intros c Hc%not_chunk_of. apply searchable_attached. rewrite S1, <-He. simpl. by apply lookup_delete_ne.
  - intros id c. rewrite S2, S3, C2, <-He. apply Hb0.
  - intros id. rewrite Fd, S2, C2. replace (vector_store_chunks_fts (rw_db w2)) with (vector_store_chunks_fts (rw_db w)) by (by rewrite <-He).
    assert (Hskip : forall r, vector_store_chunks_fts (rw_db w) !! id = Some r ->
      bool_decide (ids = []) && bool_decide (ft_store r = s) && bool_decide (ft_file r = f) = false).
    { intros r Hfr. rewrite Hf0 in Hfr. apply not_true_iff_false. rewrite !andb_true_iff, !bool_decide_eq_true. intros [[Hnil Hs] Hf].
      apply bind_Some in Hfr as (c & Hc & Hd). unfold due in Hd. destruct (searchable _ c); [|done]. injection Hd as <-. simpl in Hs, Hf.
      assert (Hi : id ∈ ids) by (apply Hids'; exists c; split; [done|by apply chunk_of_spec]). rewrite Hnil in Hi. by apply not_elem_of_nil in Hi. }
    assert (Hsame : (if decide (id ∈ ids) then None else match vector_store_chunks_fts (rw_db w) !! id with
      | Some r => if bool_decide (ids = []) && bool_decide (ft_store r = s) && bool_decide (ft_file r = f) then None else Some r
      | None => None end) = (if decide (id ∈ ids) then None else vector_store_chunks_fts (rw_db w) !! id)).
    { case_decide; [done|]. destruct (vector_store_chunks_fts (rw_db w) !! id) as [r|] eqn:E; [|done]. by rewrite (Hskip r eq_refl). }
    rewrite Hsame. destruct (vector_store_chunks (rw_db w) !! id) as [c|]; [|done].
    destruct (chunk_of s f c) eqn:Ec; [|done]. by rewrite Hno.
Qed.

(** *** Rows deleted with a parent *)

Context (FK : forall n, conn_fk n = true).

(** The index follows when rows of the chunks that [gone] names leave both. *)
Lemma in_step_filtered (gone : string -> string -> Prop) (gone_dec : forall s f, Decision (gone s f)) db db' : in_step db ->
  vector_store_chunks db' = filter (fun kv => ~ gone (cw_store kv.2) (cw_file kv.2)) (vector_store_chunks db) ->
  vector_store_files db' = filter (fun kv => ~ gone kv.1.1 kv.1.2) (vector_store_files db) ->
  chunk_seq db' = chunk_seq db ->
  (forall id, vector_store_chunks_fts db' !! id = match vector_store_chunks db !! id with
     | Some c => if gone_dec (cw_store c) (cw_file c) then None else vector_store_chunks_fts db !! id
     | None => vector_store_chunks_fts db !! id
     end) -> in_step db'.
Proof.
  intros [Hf Hb] Ec Ea Es Hn. split.
  - intros id. rewrite Hn, Hf, Ec. destruct (vector_store_chunks db !! id) as [c|] eqn:E; simpl.
    + destruct (gone_dec _ _) as [Hg|Hg].
      * assert (filter (fun kv => ~ gone (cw_store kv.2) (cw_file kv.2)) (vector_store_chunks db) !! id = None) as ->; [|done].
        apply map_lookup_filter_None. right. intros c' Hc'. simpl. assert (c' = c) as -> by congruence. tauto.
      * assert (filter (fun kv => ~ gone (cw_store kv.2) (cw_file kv.2)) (vector_store_chunks db) !! id = Some c) as ->.
        { by apply map_lookup_filter_Some. }
        simpl. unfold due. assert (searchable db' c = searchable db c) as ->; [|done]. apply searchable_attached. rewrite Ea.
        destruct (vector_store_files db !! _) as [v|] eqn:Ev.
        -- by apply map_lookup_filter_Some.
        -- apply map_lookup_filter_None. by left.
    + assert (filter (fun kv => ~ gone (cw_store kv.2) (cw_file kv.2)) (vector_store_chunks db) !! id = None) as ->; [|done].
      apply map_lookup_filter_None. by left.
  - intros id c. rewrite Ec, Es. intros [Hc _]%map_lookup_filter_Some. by eapply Hb.
Qed.

Lemma keeps_DeleteVectorStore s : keeps in_step (DeleteVectorStore s).
Proof.
  apply keeps_tx. intros w u w3 Hr Hin. apply st_bind_ok in Hr as (u1 & w1 & Hd%wrapped_ok & Hr).
  apply rexec_ok, delete_fts_where_ok in Hd as [(_ & S0 & S1 & S2 & S3) Fd].
  apply st_bind_ok in Hr as (b & w2 & He%rexec_ok & Hr). destruct b; [|done]. injection Hr as _ <-.
  rewrite FK in He. unfold delete_store_row in He. destruct (vector_stores (rw_db w1) !! s); [|done]. injection He as He.
  apply (in_step_filtered (fun s' _ => s' = s) (fun s' _ => decide (s' = s)) (rw_db w)); [done|by rewrite <-He; simpl; rewrite S2|by rewrite <-He; simpl; rewrite S1|by rewrite <-He; simpl|].
  intros id. rewrite <-He. simpl. rewrite Fd. destruct Hin as [Hf _]. rewrite Hf.
  destruct (vector_store_chunks (rw_db w) !! id) as [c|]; [|done]. simpl. unfold due. destruct (searchable _ c); simpl.
  - case_decide as Hs; [by rewrite bool_decide_true by done|by rewrite bool_decide_false by done].
  - by case_decide.
Qed.

(** The groups hold every identifier, and none is empty. *)
Lemma grouped_spec (rows : list (Z * chunk_row)) :
  let m := foldl (fun m kv => am_insert (cw_store kv.2) (default [] (am_lookup (cw_store kv.2) m) ++ [kv.1]) m) [] rows in
  am_sorted m = true /\ (forall s ids, am_lookup s m = Some ids -> ids <> []) /\
  (forall id, (exists s ids, am_lookup s m = Some ids /\ id ∈ ids) <-> id ∈ map fst rows).
Proof.
  induction rows as [|[i c] rows IH] using rev_ind; cbv zeta.
  { split; [done|]. split; [done|]. intros id. split; [by intros (? & ? & [=] & _)|]. intros Hn. by apply not_elem_of_nil in Hn. }
  cbv zeta in IH. rewrite foldl_app. cbn [foldl]. set (m := foldl _ [] rows) in *. destruct IH as (Hs & Hne & Hin). cbn [fst snd].
  split; [by apply am_insert_sorted|]. split.
  - intros s ids. destruct (decide (s = cw_store c)) as [->|Hd].
    + rewrite am_lookup_insert. intros [= <-]. by destruct (default [] _).
    + rewrite am_lookup_insert_ne by done. apply Hne.
  - intros id. rewrite map_app, elem_of_app, <-Hin. simpl. rewrite list_elem_of_singleton. split.
    + intros (s & ids & Hl & Hi). destruct (decide (s = cw_store c)) as [->|Hd].
      * rewrite am_lookup_insert in Hl. injection Hl as <-. apply elem_of_app in Hi as [Hi|Hi%list_elem_of_singleton]; [|by right].
        left. destruct (am_lookup (cw_store c) m) as [ids|] eqn:E; [|by apply not_elem_of_nil in Hi]. eauto.
      * rewrite am_lookup_insert_ne in Hl by done. left. eauto.
    + intros [(s & ids & Hl & Hi)| ->].
      * destruct (decide (s = cw_store c)) as [->|Hd].
        -- exists (cw_store c), (ids ++ [i]). rewrite am_lookup_insert, Hl. split; [done|]. apply elem_of_app. by left.
        -- exists s, ids. by rewrite am_lookup_insert_ne by done.
      * eexists (cw_store c), _. rewrite am_lookup_insert. split; [done|]. apply elem_of_app. right. by apply list_elem_of_singleton.
Qed.

Lemma chunk_ids_by_file_spec f db :
  (forall s ids, (s, ids) ∈ chunk_ids_by_file f db -> ids <> []) /\
  (forall id, (exists s ids, (s, ids) ∈ chunk_ids_by_file f db /\ id ∈ ids) <->
              exists c, vector_store_chunks db !! id = Some c /\ cw_file c = f).
Proof.
  unfold chunk_ids_by_file. set (rows := filter _ _). destruct (grouped_spec rows) as (Hs & Hne & Hin). cbv zeta in *.
  set (m := foldl _ [] rows) in *. split.
  - intros s ids Hm. eapply Hne. by apply am_elem_lookup.
  - intros id. transitivity (id ∈ map fst rows).
    + rewrite <-Hin. split; intros (s & ids & Hm & Hi); exists s, ids; (split; [|done]); [by apply am_elem_lookup|by apply am_lookup_elem].
    + rewrite list_elem_of_fmap. unfold rows. split.
      * intros ([i c] & -> & [Hc Hi%rows_by_id_elem]%list_elem_of_filter). eauto.
      * intros (c & Hi & Hc). exists (id, c). split; [done|]. apply list_elem_of_filter. split; [done|]. by apply rows_by_id_elem.
Qed.

Lemma delete_groups_ok f groups w u w' : (forall s ids, (s, ids) ∈ groups -> ids <> []) ->
  st_each (fun kv => now ← now_unix; st_wrap "refresh vector store after file delete" (fts5_DeleteVectorStoreFile
    {| dx_VectorStoreID := kv.1; dx_FileID := f; dx_CreatedAt := now; dx_RemovedChunkIDs := kv.2 |})) groups w = (Ok u, w') ->
  same_tables (rw_db w) (rw_db w') /\
  (forall id, (exists s ids, (s, ids) ∈ groups /\ id ∈ ids) -> vector_store_chunks_fts (rw_db w') !! id = None) /\
  (forall id, ~ (exists s ids, (s, ids) ∈ groups /\ id ∈ ids) ->
     vector_store_chunks_fts (rw_db w') !! id = vector_store_chunks_fts (rw_db w) !! id).
Proof.
  revert w. induction groups as [|[s ids] groups IH]; intros w Hne; cbn [st_each].
  { intros [= _ <-]. split; [done|]. split; [|done]. intros id (s & ids & Hn & _). by apply not_elem_of_nil in Hn. }
  intros (u1 & w1 & Hd & Hr)%st_bind_ok. apply st_bind_ok in Hd as (now & w0 & [= _ <-] & Hd%wrapped_ok).
  apply fts5_delete_ok in Hd as [Sd Fd]. cbn [dx_RemovedChunkIDs dx_VectorStoreID dx_FileID fst snd] in Fd.
  assert (Hids : ids <> []) by (eapply Hne; by apply elem_of_cons; left).
  destruct (IH w1) as (Sg & Gin & Gout); [intros s' ids' Hm; eapply Hne; by apply elem_of_cons; right|done|].
  split; [by eapply same_tables_trans|]. assert (Fd' : forall id, vector_store_chunks_fts (rw_db w1) !! id =
    if decide (id ∈ ids) then None else vector_store_chunks_fts (rw_db w) !! id).
  { intros id. rewrite Fd. case_decide; [done|]. rewrite bool_decide_false by done. by destruct (_ !! id). }
  split.
  - intros id (s' & ids' & Hm & Hi). destruct (decide (Exists (fun g => id ∈ g.2) groups)) as [([s2 ids2] & Hm2 & Hi2)%Exists_exists|Hno].
    + apply Gin. eauto.
    + rewrite Gout.
      * rewrite Fd'. apply elem_of_cons in Hm as [[= <- <-]|Hm]; [by rewrite decide_True|].
        exfalso. apply Hno, Exists_exists. by exists (s', ids').
      * intros (s2 & ids2 & Hm2 & Hi2). apply Hno, Exists_exists. by exists (s2, ids2).
  - intros id Hno. rewrite Gout, Fd'.
    + rewrite decide_False; [done|]. intros Hi. apply Hno. exists s, ids. split; [by apply elem_of_cons; left|done].
    + intros (s2 & ids2 & Hm2 & Hi2). apply Hno. exists s2, ids2. split; [by apply elem_of_cons; right|done].
Qed.

Lemma keeps_DeleteFile f : keeps in_step (DeleteFile f).
Proof.
  apply keeps_tx. intros w u w3 Hr Hin. apply st_bind_ok in Hr as (groups & w1 & [-> Hw1]%rquery_ok & Hr).
  apply st_bind_ok in Hr as (b & w2 & He%rexec_ok & Hr). destruct b; [|done]. cbn [negb] in Hr.
  destruct (chunk_ids_by_file_spec f (rw_db w)) as [Hne Hids].
  assert (Hmem : forall s ids, (s, ids) ∈ map_order (chunk_ids_by_file f (rw_db w)) <-> (s, ids) ∈ chunk_ids_by_file f (rw_db w))
    by (intros s ids; by rewrite map_order_perm).
  apply delete_groups_ok in Hr as ((_ & _ & S1 & S2 & S3) & Gin & Gout); [|intros s ids Hm%Hmem; by eapply Hne].
  rewrite FK, Hw1 in He. unfold delete_file_row in He. destruct (files (rw_db w) !! f); [|done]. injection He as He.
  apply (in_step_filtered (fun _ f' => f' = f) (fun _ f' => decide (f' = f)) (rw_db w)); [done|..].
  - by rewrite S2, <-He.
  - by rewrite S1, <-He.
  - by rewrite S3, <-He.
  - intros id. specialize (Hids id). destruct (vector_store_chunks (rw_db w) !! id) as [c|] eqn:E.
    + case_decide as Hf.
      * apply Gin. destruct Hids as [_ Hids]. destruct Hids as (s & ids & Hm & Hi); [eauto|]. exists s, ids. by rewrite Hmem.
      * rewrite Gout; [by rewrite <-He|]. intros (s & ids & Hm%Hmem & Hi). destruct Hids as [Hids _].
        destruct Hids as (c' & [= <-] & Hc'); [eauto|done].
    + rewrite Gout; [by rewrite <-He|]. intros (s & ids & Hm%Hmem & Hi). destruct Hids as [Hids _]. destruct Hids as (c' & Hc' & _); [eauto|done].
Qed.

(** *** Searching repairs the index at most *)

Lemma refresh_ok s t w u w' : fts5_RefreshVectorStore s t w = (Ok u, w') -> same_tables (rw_db w) (rw_db w') /\
  (in_step (rw_db w) -> in_step (rw_db w')).
Proof.
  intros (u1 & w1 & Hd%rexec_ok & Hr)%st_bind_ok. apply delete_fts_where_ok in Hd as [Sd Fd].
  apply indexFTS5Chunks_ok in Hr as [Sx Fx]. pose proof (same_tables_trans _ _ _ Sd Sx) as Sall. split; [done|].
  intros [Hf Hb]. destruct Sd as (_ & _ & D1 & D2 & D3). destruct Sall as (_ & _ & A1 & A2 & A3). split.
  - intros id. rewrite Fx, D2, A2, Fd, Hf. destruct (vector_store_chunks (rw_db w) !! id) as [c|]; [|done]. simpl.
    unfold due. assert (Hs : forall db, vector_store_files db = vector_store_files (rw_db w) -> searchable db c = searchable (rw_db w) c)
      by (intros db Hdb; apply searchable_attached; by rewrite Hdb).
    rewrite (Hs (rw_db w1) D1), (Hs (rw_db w') A1). destruct (searchable (rw_db w) c); simpl.
    + destruct (decide (cw_store c = s)); [by rewrite !bool_decide_true by done|by rewrite !bool_decide_false by done].
    + by rewrite andb_false_r.
  - intros id c. rewrite A2, A3. apply Hb.
Qed.

Lemma keeps_ensure s : keeps in_step (ensureFTS5VectorStoreIndex s).
Proof.
  unfold ensureFTS5VectorStoreIndex. apply stays_bind; [auto with shim|]. intros a. apply stays_bind; [auto with shim|]. intros b.
  case_bool_decide; [auto with shim|]. apply keeps_tx. intros w u w' (now & w1 & [= _ <-] & Hr)%st_bind_ok Hin.
  by apply refresh_ok in Hr as [_ Hr]; auto.
Qed.

Lemma keeps_GetVectorStore I id : keeps I (GetVectorStore id).
Proof. unfold GetVectorStore, getVectorStoreBase, hydrateVectorStore. keep. Qed.

Lemma keeps_search q : keeps in_step (SearchVectorStore q).
Proof.
  unfold SearchVectorStore. simpl. unfold fts5_SearchVectorStore, search_page. apply stays_bind.
  - unfold searchVectorStoreFTS5Results. apply stays_bind; [apply keeps_GetVectorStore|]. intros _.
    apply stays_bind; [apply keeps_ensure|]. intros _. case_decide; keep.
  - intros results. unfold touchVectorStoreSearchActivity. keep.
Qed.
End writes.

(** ** Sequences of operations *)

Inductive rop :=
| OpSaveFile (file : StoredFile)
| OpGetFile (id : string)
| OpListFiles (q : ListFilesQuery)
| OpDeleteFile (id : string)
| OpSaveVectorStore (store : StoredVectorStore)
| OpGetVectorStore (id : string)
| OpListVectorStores (q : ListVectorStoresQuery)
| OpDeleteVectorStore (id : string)
| OpAttach (storeID fileID : string) (attrs : list (string * gval)) (strategy : FileChunkingStrategy) (createdAt : Z)
| OpSaveVectorStoreFile (file : StoredVectorStoreFile) (content : list string)
| OpGetVectorStoreFile (storeID fileID : string)
| OpListVectorStoreFiles (q : ListVectorStoreFilesQuery)
| OpDeleteVectorStoreFile (storeID fileID : string)
| OpSearch (q : VectorStoreSearchQuery).

Section operations.
Context `{SQ : Sqlite} `{UC : UnixClock} `{LT : LetterTable} `{MO : MapOrder} `{RB : retrievalBackend}.

(** The state an operation leaves, whatever it returns. *)
Definition run_op (op : rop) (w : rworld) : rworld :=
  match op with
  | OpSaveFile file => (SaveFile file w).2
  | OpGetFile id => (GetFile id w).2
  | OpListFiles q => (ListFiles q w).2
  | OpDeleteFile id => (DeleteFile id w).2
  | OpSaveVectorStore store => (SaveVectorStore store w).2
  | OpGetVectorStore id => (GetVectorStore id w).2
  | OpListVectorStores q => (ListVectorStores q w).2
  | OpDeleteVectorStore id => (DeleteVectorStore id w).2
  | OpAttach s f attrs strategy createdAt => (AttachFileToVectorStore s f attrs strategy createdAt w).2
  | OpSaveVectorStoreFile file content => (SaveVectorStoreFile file content w).2
  | OpGetVectorStoreFile s f => (GetVectorStoreFile s f w).2
  | OpListVectorStoreFiles q => (ListVectorStoreFiles q w).2
  | OpDeleteVectorStoreFile s f => (DeleteVectorStoreFile s f w).2
  | OpSearch q => (SearchVectorStore q w).2
  end.

Definition run_ops (ops : list rop) (w : rworld) : rworld := foldl (fun w op => run_op op w) w ops.
End operations.

Lemma in_step_empty : in_step empty_rdb.
Proof. by split. Qed.

Section invariant.
Context `{SQ : Sqlite} `{UC : UnixClock} `{LT : LetterTable} `{MO : MapOrder} `{FT : Fts5}.
#[local] Existing Instance sqliteFTS5RetrievalBackend.
Context (FK : forall n, conn_fk n = true).

Lemma run_op_in_step op w : in_step (rw_db w) -> in_step (rw_db (run_op op w)).
Proof.
  destruct op; simpl.
  - apply keeps_other. by intros fk db a db' [= _ <-].
  - by apply (stays_bind in_step); [auto with shim|intros []; auto with shim].
  - unfold ListFiles, lookupListFilesCursorCreatedAt. apply (stays_bind in_step); [case_decide; keep|intros after]. keep.
  - by apply keeps_DeleteFile.
  - apply keeps_other. by intros fk db a db' [= _ <-].
  - apply keeps_GetVectorStore.
  - unfold ListVectorStores, hydrateVectorStore. revert w. keep.
  - by apply keeps_DeleteVectorStore.
  - revert w. unfold AttachFileToVectorStore, getVectorStoreBase, GetFile. apply stays_bind; [keep|intros _].
    apply stays_bind; [keep|intros file]. destruct (buildVectorStoreFileContent _ _) as [[content status] lastError].
    apply stays_bind; [apply keeps_SaveVectorStoreFile|intros _; auto with shim].
  - by apply keeps_SaveVectorStoreFile.
  - revert w. unfold GetVectorStoreFile. keep.
  - revert w. unfold ListVectorStoreFiles, getVectorStoreBase. keep.
  - by apply keeps_DeleteVectorStoreFile.
  - by apply keeps_search.
Qed.

Lemma run_ops_in_step ops w : in_step (rw_db w) -> in_step (rw_db (run_ops ops w)).
Proof. revert w. induction ops as [|op ops IH]; intros w Hw; [done|]. simpl. by apply IH, run_op_in_step. Qed.
End invariant.

(** C4 (invariant): with the FTS5 backend and foreign keys enforced, after any
    sequence of operations on files and vector stores, some of whose statements
    may have failed, the full-text index has a row for a chunk exactly when the
    chunk belongs to a file attached as completed, and the row has the chunk's
    store, file and text. *)
Theorem index_in_step `{SQ : Sqlite} `{UC : UnixClock} `{LT : LetterTable} `{MO : MapOrder} `{FT : Fts5} ops n :
  (forall k, conn_fk k = true) ->
  let db := rw_db (run_ops (RB := sqliteFTS5RetrievalBackend) ops {| rw_db := empty_rdb; rw_stmts := n |}) in
  forall id r, vector_store_chunks_fts db !! id = Some r <->
    exists c v, vector_store_chunks db !! id = Some c /\ vector_store_files db !! (cw_store c, cw_file c) = Some v /\
      vf_status v = "completed" /\ r = {| ft_store := cw_store c; ft_file := cw_file c; ft_content := cw_content c |}.
Proof.
  intros FK db id r. destruct (run_ops_in_step FK ops {| rw_db := empty_rdb; rw_stmts := n |} in_step_empty) as [Hf _]. fold db in Hf. rewrite Hf, bind_Some.
  unfold due, searchable, attached_completed. split.
  - intros (c & Hc & Hd). destruct (vector_store_files db !! _) as [v|] eqn:E; [|done]. case_bool_decide; [|done]. injection Hd as <-. by exists c, v.
  - intros (c & v & Hc & Hv & Hs & ->). exists c. split; [done|]. rewrite Hv. by rewrite bool_decide_true.
Qed.

(** A statement of the second attachment fails: that file is not attached. *)
Definition failing_20 : Sqlite := {| stmt_fails n := Nat.eqb n 20; conn_fk _ := true |}.
Definition clock_0 : UnixClock := {| unix_at n := Z.of_nat n |}.
Definition any_match : Fts5 := {| fts_match _ _ := true; fts_bm25 _ _ id := id |}.

Definition demo_file (id name content : string) : StoredFile :=
  {| sf_ID := id; sf_Filename := name; sf_Purpose := "assistants"; sf_Bytes := 3; sf_CreatedAt := 1; sf_ExpiresAt := None;
     sf_Status := "processed"; sf_StatusDetails := None; sf_Content := content |}.
Definition demo_store : StoredVectorStore :=
  {| sv_ID := "vs_1"; sv_Name := "notes"; sv_Metadata := []; sv_CreatedAt := 1; sv_LastActiveAt := 1; sv_Status := "";
     sv_UsageBytes := 0; sv_FileCounts := no_counts; sv_ExpiresAfter := None; sv_ExpiresAt := None |}.

Definition demo_ops : list rop :=
  [OpSaveFile (demo_file "file_1" "a.txt" "the quick brown fox"); OpSaveFile (demo_file "file_2" "b.txt" "lazy dogs sleep");
   OpSaveVectorStore demo_store; OpAttach "vs_1" "file_1" [("lang", GStr "en")] DefaultFileChunkingStrategy 5;
   OpAttach "vs_1" "file_2" [] DefaultFileChunkingStrategy 6].

Lemma index_in_step_witness :
  let db := rw_db (run_ops (SQ := failing_20) (UC := clock_0) (LT := ascii_letters) (MO := sorted_order)
    (RB := sqliteFTS5RetrievalBackend (H := failing_20) (H0 := clock_0) (H1 := ascii_letters) (H2 := sorted_order) (H3 := any_match))
    demo_ops {| rw_db := empty_rdb; rw_stmts := 0 |}) in
  (vector_store_chunks_fts db !! 1%Z = Some {| ft_store := "vs_1"; ft_file := "file_1"; ft_content := "the quick brown fox" |} <->
   exists c v, vector_store_chunks db !! 1%Z = Some c /\ vector_store_files db !! (cw_store c, cw_file c) = Some v /\
      vf_status v = "completed" /\ {| ft_store := "vs_1"; ft_file := "file_1"; ft_content := "the quick brown fox" |} =
        {| ft_store := cw_store c; ft_file := cw_file c; ft_content := cw_content c |}) /\
  vector_store_chunks_fts db !! 1%Z = Some {| ft_store := "vs_1"; ft_file := "file_1"; ft_content := "the quick brown fox" |}.
Proof.
  intros db. split.
  - exact (index_in_step (SQ := failing_20) (UC := clock_0) (LT := ascii_letters) (MO := sorted_order) (FT := any_match)
      demo_ops 0 (fun _ => eq_refl) 1%Z _).
  - vm_compute. reflexivity.
Defined.

(** ** What deleting leaves *)

(** Fact (safety): detaching a file removes its row and its index rows, but not its
    chunks, which stay in the table until the file or the store is deleted. *)
Theorem detached_chunks_stay `{SQ : Sqlite} `{UC : UnixClock} `{LT : LetterTable} `{MO : MapOrder} `{FT : Fts5} s f w w' :
  DeleteVectorStoreFile (H1 := sqliteFTS5RetrievalBackend) s f w = (Ok tt, w') ->
  vector_store_files (rw_db w') = delete (s, f) (vector_store_files (rw_db w)) /\
  vector_store_chunks (rw_db w') = vector_store_chunks (rw_db w).
Proof.
  intros (w1 & w2 & E2 & E1 & ->)%rtransaction_ok.
  apply st_bind_ok in E2 as (ids & w4 & [_ E4]%rquery_ok & Hr). apply st_bind_ok in Hr as (b & w5 & He%rexec_ok & Hr). destruct b; [|done].
  apply st_bind_ok in Hr as (now & w6 & [= _ <-] & Hr). apply wrapped_ok, fts5_delete_ok in Hr as [(_ & _ & -> & -> & _) _].
  unfold delete_attached in He. destruct (vector_store_files (rw_db w4) !! _); [|done]. injection He as <-. rewrite E4, E1. done.
Qed.
