(* ===== verification/SearchProps.v ===== *)
(** * What a search of a vector store returns

    The best matching files, each once; the same files with either backend; and
    the chunks that are searched hold the whole text of a file. *)

From S2P Require Import Prelude GoStr GoFloat GoJson JsonFacts StrFacts GoInt FloatOps World Items Normalize Context Store Terms TermProps Retrieval Ranking RankingProps VectorStore IndexProps.
From Stdlib Require Import QArith.
#[local] Open Scope nat_scope.

(** ** Chunks of a file *)

Lemma NormalizeFileChunkingStrategy_static raw param strategy : NormalizeFileChunkingStrategy raw param = Ok strategy ->
  exists static, cs_Static strategy = Some static /\ moves_on static /\ (MaxChunkSizeTokens static <= 4096)%Z.
Proof.
  assert (Hd : exists static, cs_Static DefaultFileChunkingStrategy = Some static /\ moves_on static /\ (MaxChunkSizeTokens static <= 4096)%Z).
  { eexists. split; [reflexivity|]. split; [split; reflexivity || (split; [discriminate|reflexivity])|discriminate]. }
  unfold NormalizeFileChunkingStrategy. destruct (blank_or_null _); [by intros [= <-]|].
  destruct (jparse _ ≫= raw_map) as [payload|]; [|done]. destruct (am_lookup "type" payload) as [t|]; [|done].
  case_decide; [done|]. case_decide; [by intros [= <-]|]. case_decide; [|done].
  destruct (am_lookup "static" payload) as [ts|]; [|done]. destruct (decode_static ts) as [static|]; [|done].
  unfold check_static. destruct (_ || _)%bool eqn:E1; [done|]. destruct (_ <? 0)%Z eqn:E2; [done|].
  destruct (Z.quot _ _ <? _)%Z eqn:E3; [done|]. intros [= <-]. exists static. split; [done|].
  apply orb_false_iff in E1 as [E1 E1']. apply Z.ltb_ge in E1, E1', E2, E3. split; [|done].
  pose proof (Z.quot_lt (MaxChunkSizeTokens static) 2). split; [lia|]. split; [done|]. lia.
Qed.

(** C10 (functional): under any chunking strategy a request is accepted with, a
    file is attached as completed exactly when it is valid UTF-8 with at least one
    term; its chunks are then windows of at most the configured number of terms,
    each beginning the configured overlap before the end of the one before, and
    the terms of the text are read back from the terms of the chunks. *)
Theorem chunks_cover_text `{LT : LetterTable} {LL : LetterLaws} raw param strategy content :
  NormalizeFileChunkingStrategy raw param = Ok strategy ->
  exists static, cs_Static strategy = Some static /\
    let size := Z.to_nat (MaxChunkSizeTokens static) in
    let overlap := Z.to_nat (ChunkOverlapTokens static) in
    let terms := tokenizeTerms (TrimSpace content) in
    let '(parts, status, lastError) := buildVectorStoreFileContent content strategy in
    (status = "completed" <-> valid_utf8 content = true /\ terms <> []) /\
    (status = "completed" -> lastError = None /\ rebuild overlap (map tokenizeTerms parts) = terms /\
       forall i p, map tokenizeTerms parts !! i = Some p ->
         p = take size (drop (i * (size - overlap)) terms) /\ 0 < length p <= size).
Proof.
  intros (static & Hs & Hm & Hmax)%NormalizeFileChunkingStrategy_static. exists static. split; [done|]. cbv zeta.
  pose proof Hm as [Hm1 Hm2]. remember (Z.to_nat (MaxChunkSizeTokens static)) as size eqn:Esz.
  remember (Z.to_nat (ChunkOverlapTokens static)) as overlap eqn:Eov.
  assert (Hstep : Z.to_nat (MaxChunkSizeTokens static - ChunkOverlapTokens static) = size - overlap) by lia.
  assert (Hso : overlap < size) by lia.
  unfold buildVectorStoreFileContent. destruct (valid_utf8 content) eqn:Ev; simpl; [|split; [split; [done|by intros [? _]]|done]].
  set (text := TrimSpace content). destruct (decide (text = "")) as [->|Hne].
  { split; [split; [done|intros [_ Hn]; by destruct Hn]|done]. }
  pose proof (chunkText_terms text strategy static Hs Hm) as Ht. cbv zeta in Ht. rewrite Hstep, <-Esz in Ht.
  set (terms := tokenizeTerms text) in *. destruct (chunkText text strategy) as [|p ps] eqn:E.
  - split; [split; [done|]|done]. intros [_ Hn]. exfalso. destruct terms as [|t ts]; [done|]. simpl in Ht. done.
  - assert (Hterms : terms <> []) by (intros E0; by rewrite E0 in Ht). split; [done|]. intros _. split; [done|]. rewrite Ht. split.
    + replace overlap with (size - (size - overlap)) at 1 by lia. apply windows_rebuild; lia.
    + intros i q [-> Hq]%windows_lookup. split; [done|]. rewrite length_take. destruct (drop _ terms) eqn:Ed; [done|]. simpl. lia.
Qed.

Lemma chunks_cover_text_witness :
  NormalizeFileChunkingStrategy (sq "{'type':'static','static':{'max_chunk_size_tokens':100,'chunk_overlap_tokens':20}}") "chunking_strategy" =
    Ok {| cs_Type := "static"; cs_Static := Some {| MaxChunkSizeTokens := 100; ChunkOverlapTokens := 20 |} |} /\
  exists static, Some {| MaxChunkSizeTokens := 100; ChunkOverlapTokens := 20 |} = Some static /\
    let strategy := {| cs_Type := "static"; cs_Static := Some {| MaxChunkSizeTokens := 100; ChunkOverlapTokens := 20 |} |} in
    let terms := tokenizeTerms (H := ascii_letters) (TrimSpace "Hello, world") in
    let '(parts, status, lastError) := buildVectorStoreFileContent (H := ascii_letters) "Hello, world" strategy in
    (status = "completed" <-> valid_utf8 "Hello, world" = true /\ terms <> []) /\
    (status = "completed" -> lastError = None /\
       rebuild (Z.to_nat (ChunkOverlapTokens static)) (map (tokenizeTerms (H := ascii_letters)) parts) = terms /\
       forall i p, map (tokenizeTerms (H := ascii_letters)) parts !! i = Some p ->
         p = take (Z.to_nat (MaxChunkSizeTokens static)) (drop (i * (Z.to_nat (MaxChunkSizeTokens static) - Z.to_nat (ChunkOverlapTokens static))) terms) /\
         0 < length p <= Z.to_nat (MaxChunkSizeTokens static)).
Proof.
  assert (E : NormalizeFileChunkingStrategy (sq "{'type':'static','static':{'max_chunk_size_tokens':100,'chunk_overlap_tokens':20}}") "chunking_strategy" =
    Ok {| cs_Type := "static"; cs_Static := Some {| MaxChunkSizeTokens := 100; ChunkOverlapTokens := 20 |} |}) by (vm_compute; reflexivity).
  split; [exact E|]. exact (chunks_cover_text (LT := ascii_letters) (LL := ascii_letters_laws) _ _ _ "Hello, world" E).
Defined.

(** ** Searching *)

Section search.
Context `{SQ : Sqlite} `{UC : UnixClock} `{LT : LetterTable} `{MO : MapOrder}.

Lemma GetVectorStore_ok id w v w' : GetVectorStore id w = (Ok v, w') -> rw_db w' = rw_db w.
Proof.
  intros Hr. pose proof (keeps_GetVectorStore (fun db => db = rw_db w) id w eq_refl) as Hk. by rewrite Hr in Hk.
Qed.

Lemma limit_results_ok q results out : limit_results q results = Ok out ->
  (0 <= sq_MaxNumResults q)%Z /\ out = take (Z.to_nat (sq_MaxNumResults q)) results.
Proof.
  unfold limit_results. destruct (Z.ltb_spec (sq_MaxNumResults q) (Z.of_nat (length results))).
  - destruct (Z.ltb_spec (sq_MaxNumResults q) 0); [done|]. intros [= <-]. done.
  - intros [= <-]. split; [lia|]. by rewrite take_ge by lia.
Qed.

(** The page of a search: the first results, and the store touched. *)
Lemma search_page_ok q search w page w' : search_page q search w = (Ok page, w') ->
  exists results w1, search w = (Ok results, w1) /\ (0 <= sq_MaxNumResults q)%Z /\
    sp_Results page = take (Z.to_nat (sq_MaxNumResults q)) results /\
    exists t, rw_db w' = set_stores (rw_db w1) (alter (touch_row t) (sq_VectorStoreID q) (vector_stores (rw_db w1))).
Proof.
  intros (results & w1 & Hs & Hr)%st_bind_ok. apply st_bind_ok in Hr as (out & w2 & Hl & Hr).
  unfold st_lift in Hl. injection Hl as Hl <-. apply limit_results_ok in Hl as [Hm ->].
  apply st_bind_ok in Hr as (u & w3 & Ht & Hr). injection Hr as <- <-. exists results, w1. split; [done|]. split; [done|]. split; [done|].
  apply st_bind_ok in Ht as (now & w4 & [= <- <-] & He%rexec_ok). injection He as _ He. eauto.
Qed.

Lemma lexical_results_ok q threshold w results w' : searchVectorStoreLexicalResults q threshold w = (Ok results, w') ->
  rw_db w' = rw_db w /\ exists best, gather q threshold ∅ (lexical_rows (sq_VectorStoreID q) (rw_db w)) = Ok best /\ results = ranked_results best.
Proof.
  intros (v & w1 & Hv%GetVectorStore_ok & Hr)%st_bind_ok. apply st_bind_ok in Hr as (rows & w2 & [-> Hw2]%rquery_ok & Hr).
  apply st_bind_ok in Hr as (best & w3 & Hg & Hr). unfold st_lift in Hg. injection Hg as Hg <-. injection Hr as <- <-.
  split; [congruence|]. exists best. by rewrite <-Hv.
Qed.

(** The first results of a ranking are the best ones. *)
Lemma ranked_take n results : ranked results -> ranked (take n results).
Proof.
  intros [Hn Hs]. split.
  - rewrite <-firstn_map. rewrite <-(take_drop n (map sr_FileID results)) in Hn. by apply NoDup_app in Hn as [? _].
  - rewrite <-(take_drop n results) in Hs. revert Hs. generalize (take n results), (drop n results). clear. intros l1 l2.
    induction l1 as [|x l1 IH]; simpl; [constructor|]. intros [Hs [Hx _]%Forall_app]%StronglySorted_inv. constructor; auto.
Qed.

Lemma ranked_drop n results a b : ranked results -> a ∈ take n results -> b ∈ drop n results -> outranks a b.
Proof.
  intros [_ Hs] Ha Hb. rewrite <-(take_drop n results) in Hs. revert Hs Ha Hb. generalize (take n results), (drop n results).
  clear. intros l1 l2. induction l1 as [|x l1 IH]; simpl; [by intros _ Ha%not_elem_of_nil|].
  intros [Hs [_ Hx]%Forall_app]%StronglySorted_inv [->|Ha]%elem_of_cons Hb; [|auto]. rewrite Forall_forall in Hx. auto.
Qed.

Lemma outranks_score a b : outranks a b -> (fq (sr_Score b) <= fq (sr_Score a))%Q.
Proof. intros [H|[H _]]; [by apply Qlt_le_weak|rewrite H; apply Qle_refl]. Qed.

(** What a page of at most [n] results must be. *)
Definition best_matches (q : VectorStoreSearchQuery) (rows : list search_row) (n : nat) (results : list VectorStoreSearchResult) : Prop :=
  ranked results /\ length results <= n /\ Forall (reports q (sq_ScoreThreshold q) rows) results /\
  forall row, row ∈ rows -> hits q (sq_ScoreThreshold q) row = true ->
    sw_file_id row ∈ map sr_FileID results \/
    (length results = n /\ Forall (fun r => (fq (row_score q row) <= fq (sr_Score r))%Q) results).

Lemma best_matches_take q rows best n : gather q (sq_ScoreThreshold q) ∅ rows = Ok best ->
  best_matches q rows n (take n (ranked_results best)).
Proof.
  intros (Hr & Hf & Hc)%ranked_results_spec. set (results := ranked_results best) in *.
  split; [by apply ranked_take|]. split; [rewrite length_take; lia|]. split; [by apply Forall_take|].
  intros row Hrow Hh. pose proof (Hc row Hrow Hh) as (r & Hid & Hin)%list_elem_of_fmap.
  rewrite <-(take_drop n results) in Hin. apply elem_of_app in Hin as [Hin|Hin].
  - left. apply list_elem_of_fmap. eauto.
  - right. split.
    { rewrite length_take. enough (n < length results) by lia. destruct (decide (n < length results)); [done|].
      rewrite drop_ge in Hin by lia. by apply not_elem_of_nil in Hin. }
    rewrite Forall_forall in Hf. assert (Hrep : reports q (sq_ScoreThreshold q) rows r).
    { apply Hf. rewrite <-(take_drop n results). apply elem_of_app. by right. }
    destruct Hrep as ((_ & _ & Hmax) & _). apply Forall_forall. intros a Ha.
    eapply Qle_trans; [|apply outranks_score; by eapply ranked_drop]. apply Hmax.
    apply list_elem_of_filter. rewrite <-Hid. auto.
Qed.
End search.

(** C8 (functional): a lexical search that succeeds returns at most the number of
    results asked for, each for another file, ordered by score, file name and
    identifier.  A result reports a file attached as completed whose attributes
    match the filter; its score is the highest of the file's chunks that reach the
    threshold, and its texts are up to three distinct chunks of that file.  A file
    that has such a chunk is left out only for results that score at least as
    high.  The search changes nothing but the activity of the store. *)
Theorem search_returns_best_matches `{SQ : Sqlite} `{UC : UnixClock} `{LT : LetterTable} `{MO : MapOrder} q w page w' :
  searchVectorStoreLexical q w = (Ok page, w') ->
  best_matches q (lexical_rows (sq_VectorStoreID q) (rw_db w)) (Z.to_nat (sq_MaxNumResults q)) (sp_Results page) /\
  exists t, rw_db w' = set_stores (rw_db w) (alter (touch_row t) (sq_VectorStoreID q) (vector_stores (rw_db w))).
Proof.
  intros (results & w1 & Hs & Hm & Hp & t & Ht)%search_page_ok. apply lexical_results_ok in Hs as (Hw1 & best & Hg & ->).
  rewrite Hw1 in Ht. split; [|eauto]. rewrite Hp. by apply best_matches_take.
Qed.

Definition demo_query : VectorStoreSearchQuery :=
  {| sq_VectorStoreID := "vs_1"; sq_Queries := ["quick dogs"]; sq_Filters := None; sq_MaxNumResults := 1; sq_Ranker := "";
     sq_ScoreThreshold := None; sq_HybridSearch := None; sq_RawSearchQuery := GStr "quick dogs" |}.

Definition all_well : Sqlite := {| stmt_fails _ := false; conn_fk _ := true |}.

(** Full-text search over ASCII: a row matches when one of its terms is quoted in the query. *)
Definition term_match : Fts5 :=
  {| fts_match query content := existsb (fun t => Contains query (quoted t)) (tokenizeTerms (H := ascii_letters) content);
     fts_bm25 _ _ id := id |}.

Definition demo_world : rworld := Eval vm_compute in
  run_ops (SQ := all_well) (UC := clock_0) (LT := ascii_letters) (MO := sorted_order)
    (RB := sqliteFTS5RetrievalBackend (H := all_well) (H0 := clock_0) (H1 := ascii_letters) (H2 := sorted_order) (H3 := term_match))
    demo_ops {| rw_db := empty_rdb; rw_stmts := 0 |}.

Definition demo_lexical : res VectorStoreSearchPage * rworld := Eval vm_compute in
  searchVectorStoreLexical (H := all_well) (H0 := clock_0) (H1 := ascii_letters) (H2 := sorted_order) demo_query demo_world.

Lemma search_returns_best_matches_witness :
  exists page, demo_lexical.1 = Ok page /\ map sr_FileID (sp_Results page) = ["file_1"] /\
  best_matches (LT := ascii_letters) demo_query (lexical_rows "vs_1" (rw_db demo_world)) 1 (sp_Results page) /\
  exists t, rw_db demo_lexical.2 = set_stores (rw_db demo_world) (alter (touch_row t) "vs_1" (vector_stores (rw_db demo_world))).
Proof.
  eexists. split; [reflexivity|]. split; [vm_compute; reflexivity|].
  exact (search_returns_best_matches (SQ := all_well) (UC := clock_0) (LT := ascii_letters) (MO := sorted_order) demo_query demo_world _
    demo_lexical.2 ltac:(vm_compute; reflexivity)).
Defined.

(** ** Both backends find the same files *)

Section agreement.
Context `{SQ : Sqlite} `{UC : UnixClock} `{LT : LetterTable} {LL : LetterLaws} `{MO : MapOrder} `{FT : Fts5}.

Lemma lexical_rows_elem s db row : row ∈ lexical_rows s db <->
  exists id c, vector_store_chunks db !! id = Some c /\ cw_store c = s /\ joined_row db c = Some row.
Proof.
  unfold lexical_rows. rewrite list_elem_of_omap. split.
  - intros ([id c] & [Hc Hi%rows_by_id_elem]%list_elem_of_filter & Hj). eauto.
  - intros (id & c & Hi & Hc & Hj). exists (id, c). split; [|done]. apply list_elem_of_filter. split; [done|]. by apply rows_by_id_elem.
Qed.

Lemma fts5_rows_elem fq s db row : row ∈ fts5_rows fq s db <->
  exists id r c, vector_store_chunks_fts db !! id = Some r /\ fts_match fq (ft_content r) = true /\ ft_store r = s /\
    vector_store_chunks db !! id = Some c /\ joined_row db c = Some row.
Proof.
  unfold fts5_rows. rewrite list_elem_of_omap. split.
  - intros ([id r] & Hin & (c & Hc & Hj)%bind_Some). rewrite sort_by_perm in Hin.
    apply list_elem_of_filter in Hin as [[Hm Hs]%andb_true_iff Hi%elem_of_map_to_list]. apply bool_decide_eq_true in Hs. by exists id, r, c.
  - intros (id & r & c & Hi & Hm & Hs & Hc & Hj). exists (id, r). split; [|apply bind_Some; eauto].
    rewrite sort_by_perm. apply list_elem_of_filter. split; [|by apply elem_of_map_to_list]. simpl. rewrite Hm. by apply bool_decide_eq_true.
Qed.

Lemma joined_row_some db c row : joined_row db c = Some row ->
  sw_file_id row = cw_file c /\ sw_content row = cw_content c /\ searchable db c = true /\
  exists f, files db !! cw_file c = Some f /\ sw_filename row = fl_filename f.
Proof.
  unfold joined_row. intros (f & Hf & (v & Hv & Hj)%bind_Some)%bind_Some. case_decide as Hs; [|done]. injection Hj as <-. simpl.
  split; [done|]. split; [done|]. split; [|eauto]. unfold searchable, attached_completed. rewrite Hv. by apply bool_decide_eq_true.
Qed.

(** A row that is hit has a term of a query. *)
Lemma hits_term q threshold row : countable_text (sw_content row) -> Forall countable_text (sq_Queries q) ->
  hits q threshold row = true -> exists query t, query ∈ sq_Queries q /\ t ∈ tokenizeTerms query /\ t ∈ tokenizeTerms (sw_content row).
Proof.
  intros Hc Hq. unfold hits. destruct (decode_attributes _); [|done..]. rewrite !andb_true_iff, !negb_true_iff. intros [_ Hf].
  apply (chunkScore_pos (sw_content row) (sq_Queries q) Hc Hq). apply Qnot_le_lt. intros Hle.
  assert (fleb (chunkScore (sw_content row) (sq_Queries q)) f0 = true); [|congruence].
  apply fleb_spec. assert (E : (fq f0 == 0)%Q) by reflexivity. by rewrite E.
Qed.

(** ** The text of a full-text query *)

Definition no_quote (a : ascii) : bool := negb (Ascii.eqb a dquote).

Lemma term_no_quote w : is_term w -> all_chars no_quote w = true.
Proof.
  intros [_ Hw]. rewrite <-(unchunks_chunks w). induction Hw as [|[r bs] cs (Hg & Hn & _) _ IH]; [done|].
  unfold unchunks. simpl. rewrite all_chars_app. unfold unchunks in IH. rewrite IH, andb_true_r.
  assert (Hq : forall a, code a <> 34%N -> no_quote a = true).
  { intros a Ha. unfold no_quote. apply negb_true_iff, Ascii.eqb_neq. by intros ->. }
  unfold good_chunk in Hg. simpl in Hg, Hn. destruct Hg as [a Ha|a b Ha Hb|a b c Ha Hb Hc|a b c d Ha Hb Hc Hd];
    try apply second_cont in Hb; unfold is_cont in *; rng; simpl; rewrite ?Hq by lia; try done.
  rewrite Hq; [done|]. intros E. rewrite E in Hn. by vm_compute in Hn.
Qed.

Lemma replace_absent fuel s c new : all_chars (fun a => negb (Ascii.eqb a c)) s = true -> replace_go fuel s (char_string c) new = s.
Proof.
  revert s. induction fuel as [|fuel IH]; intros s Hs; [done|]. destruct s as [|a s]; [done|]. simpl in Hs.
  apply andb_true_iff in Hs as [Ha Hs]. simpl. destruct (HasPrefix (String a s) (char_string c)) eqn:E; [|by rewrite IH].
  exfalso. apply HasPrefix_spec in E as [u E]. unfold char_string in E. simpl in E. injection E as -> _. by rewrite Ascii.eqb_refl in Ha.
Qed.

Lemma fts_term_quoted w : is_term w -> fts_term w = quoted w.
Proof. intros Hw. unfold fts_term, quoted, ReplaceAll. by rewrite replace_absent by (by apply term_no_quote). Qed.

(** The query lists the terms of all queries. *)
Lemma buildFTS5Query_quoted queries : exists terms, Forall is_term terms /\
  (forall t, t ∈ terms <-> exists query, query ∈ queries /\ t ∈ tokenizeTerms query) /\
  buildFTS5Query queries = sjoin " OR " (map quoted terms).
Proof.
  set (terms := unique_terms [] (flat_map tokenizeTerms queries)). exists terms.
  assert (He : forall t, t ∈ terms <-> exists query, query ∈ queries /\ t ∈ tokenizeTerms query).
  { intros t. unfold terms. rewrite (proj2 (unique_terms_spec [] (flat_map tokenizeTerms queries))). split.
    - intros [(query & Hq & Ht)%list_elem_of_In%in_flat_map _]. exists query. by rewrite !list_elem_of_In.
    - intros (query & Hq & Ht). split; [|apply not_elem_of_nil]. apply list_elem_of_In, in_flat_map. exists query. by rewrite <-!list_elem_of_In. }
  assert (Hf : Forall is_term terms).
  { apply Forall_forall. intros t (query & _ & Ht)%He. pose proof (tokenizeTerms_terms query) as Hq. rewrite Forall_forall in Hq. auto. }
  split; [done|]. split; [done|]. unfold buildFTS5Query. fold terms. f_equal.
  clearbody terms. clear He. induction Hf as [|t ts Ht _ IH]; [done|]. simpl. by rewrite IH, fts_term_quoted.
Qed.

(** What the full-text search must find: when quoted strings are combined with
    OR, the rows that have one of them as a term. *)
Definition finds_terms (db : RDB) : Prop :=
  forall id r terms t, vector_store_chunks_fts db !! id = Some r -> Forall is_term terms -> t ∈ terms ->
    t ∈ tokenizeTerms (ft_content r) -> fts_match (sjoin " OR " (map quoted terms)) (ft_content r) = true.

Definition countable_chunks (db : RDB) : Prop :=
  forall id c, vector_store_chunks db !! id = Some c -> countable_text (cw_content c).

Lemma same_hits q threshold db : in_step db -> Forall countable_text (sq_Queries q) -> countable_chunks db -> finds_terms db ->
  forall row, hits q threshold row = true ->
  row ∈ lexical_rows (sq_VectorStoreID q) db <-> row ∈ fts5_rows (buildFTS5Query (sq_Queries q)) (sq_VectorStoreID q) db.
Proof.
  intros [Hf _] Hq Hc Hm row Hh. rewrite lexical_rows_elem, fts5_rows_elem. split.
  - intros (id & c & Hi & Hs & Hj). destruct (joined_row_some _ _ _ Hj) as (_ & Ec & Hse & _).
    assert (Hr : vector_store_chunks_fts db !! id = Some (fts_row_of c)) by (rewrite Hf, Hi; simpl; unfold due; by rewrite Hse).
    exists id, (fts_row_of c), c. split; [done|]. split; [|done]. assert (Hct : countable_text (sw_content row)) by (rewrite Ec; by eapply Hc).
    destruct (hits_term q threshold row Hct Hq Hh) as (query & t & H1 & H2 & H3). destruct (buildFTS5Query_quoted (sq_Queries q)) as (terms & Ht & He & ->).
    eapply Hm; [exact Hr|done|apply He; eauto|]. simpl. by rewrite <-Ec.
  - intros (id & r & c & Hr & _ & Hs & Hi & Hj). exists id, c. split; [done|]. split; [|done].
    rewrite Hf, Hi in Hr. simpl in Hr. unfold due in Hr. destruct (searchable db c); [|done]. by injection Hr as <-.
Qed.

Lemma file_hits_elem q threshold rows id row : row ∈ file_hits q threshold rows id <->
  row ∈ rows /\ hits q threshold row = true /\ sw_file_id row = id.
Proof. unfold file_hits. rewrite list_elem_of_filter. tauto. Qed.

(** Results that report the same hits rank the same. *)
Lemma reports_agree q threshold rows1 rows2 l1 l2 : ranked l1 -> ranked l2 ->
  Forall (reports q threshold rows1) l1 -> Forall (reports q threshold rows2) l2 ->
  (forall row, row ∈ rows1 -> hits q threshold row = true -> sw_file_id row ∈ map sr_FileID l1) ->
  (forall row, row ∈ rows2 -> hits q threshold row = true -> sw_file_id row ∈ map sr_FileID l2) ->
  (forall row, hits q threshold row = true -> row ∈ rows1 <-> row ∈ rows2) ->
  (forall r1 r2, r1 ∈ rows1 -> r2 ∈ rows1 -> sw_file_id r1 = sw_file_id r2 -> sw_filename r1 = sw_filename r2) ->
  Forall2 same_rank l1 l2.
Proof.
  intros R1 R2 F1 F2 C1 C2 Hsame Hname. rewrite Forall_forall in F1, F2.
  assert (Hpair : forall a b, a ∈ l1 -> b ∈ l2 -> sr_FileID a = sr_FileID b -> same_rank a b).
  { intros a b Ha Hb Hid. destruct (F1 a Ha) as [((ra & Hra & Na & _) & (xa & Hxa & Sa) & Ma) _].
    destruct (F2 b Hb) as [((rb & Hrb & Nb & _) & (xb & Hxb & Sb) & Mb) _].
    rewrite file_hits_elem in Hra, Hrb, Hxa, Hxb. destruct Hra as (A1 & A2 & A3), Hrb as (B1 & B2 & B3), Hxa as (X1 & X2 & X3), Hxb as (Y1 & Y2 & Y3).
    split; [done|]. split.
    - rewrite <-Na, <-Nb. apply Hname; [done|by apply Hsame|congruence].
    - apply Qle_antisym.
      + rewrite <-Sa. apply Mb. apply file_hits_elem. split; [by apply Hsame|]. split; [done|congruence].
      + rewrite <-Sb. apply Ma. apply file_hits_elem. split; [by apply Hsame|]. split; [done|congruence]. }
  apply ranked_agree; [done..| |].
  - intros a Ha. destruct (F1 a Ha) as [((ra & Hra & _) & _) _]. apply file_hits_elem in Hra as (A1 & A2 & A3).
    apply Hsame in A1; [|done]. apply C2 in A1 as (b & Hb & Hin)%list_elem_of_fmap; [|done]. exists b. split; [done|]. apply Hpair; congruence.
  - intros b Hb. destruct (F2 b Hb) as [((rb & Hrb & _) & _) _]. apply file_hits_elem in Hrb as (B1 & B2 & B3).
    apply Hsame in B1; [|done]. apply C1 in B1 as (a & Ha & Hin)%list_elem_of_fmap; [|done]. exists a. split; [done|]. apply Hpair; congruence.
Qed.

Lemma ensure_ok s w u w' : ensureFTS5VectorStoreIndex s w = (Ok u, w') -> in_step (rw_db w) ->
  same_tables (rw_db w) (rw_db w') /\ in_step (rw_db w').
Proof.
  intros (a & w1 & [_ H1]%rquery_ok & Hr)%st_bind_ok Hin. apply st_bind_ok in Hr as (b & w2 & [_ H2]%rquery_ok & Hr).
  rewrite <-H1 in Hin |- *. rewrite <-H2 in Hin |- *. case_bool_decide; [by injection Hr as _ <-|].
  apply rtransaction_ok in Hr as (w3 & w4 & Hb & E3 & ->). apply st_bind_ok in Hb as (now & w5 & [= _ <-] & Hb).
  apply refresh_ok in Hb as [Hs Hi]. rewrite E3 in Hs, Hi. auto.
Qed.

Lemma same_tables_rows db db' c : same_tables db db' -> joined_row db' c = joined_row db c.
Proof. intros (E1 & _ & E3 & _). unfold joined_row. by rewrite E1, E3. Qed.

Lemma buildFTS5Query_empty queries : buildFTS5Query queries = "" -> forall query, query ∈ queries -> tokenizeTerms query = [].
Proof.
  unfold buildFTS5Query. intros He query Hq. destruct (tokenizeTerms query) as [|t ts] eqn:E; [done|]. exfalso.
  assert (Ht : t ∈ unique_terms [] (flat_map tokenizeTerms queries)).
  { apply unique_terms_spec. split; [|apply not_elem_of_nil]. apply list_elem_of_In, in_flat_map. exists query. rewrite E. split; [by apply list_elem_of_In|by left]. }
  destruct (unique_terms _ _) as [|t' [|t'' ts']]; [by apply not_elem_of_nil in Ht|done|done].
Qed.
End agreement.

(** C9 (equivalence): when the full-text index is in step with the chunks and
    full-text search finds the rows that have one of the quoted terms of a
    disjunction, a search with
    the FTS5 backend returns the same files in the same order, with the same names
    and the same scores, as the lexical scan of every chunk. *)
Theorem fts5_search_agrees `{SQ : Sqlite} `{UC : UnixClock} `{LT : LetterTable} {LL : LetterLaws} `{MO : MapOrder} `{FT : Fts5} q w p1 w1 p2 w2 :
  in_step (rw_db w) -> Forall countable_text (sq_Queries q) -> countable_chunks (rw_db w) ->
  (forall db, same_tables (rw_db w) db -> in_step db -> finds_terms db) ->
  searchVectorStoreLexical q w = (Ok p1, w1) -> fts5_SearchVectorStore q w = (Ok p2, w2) ->
  Forall2 same_rank (sp_Results p1) (sp_Results p2).
Proof.
  intros Hin Hq Hc Hm (r1 & v1 & H1 & _ & -> & _)%search_page_ok (r2 & v2 & H2 & _ & -> & _)%search_page_ok. apply Forall2_take.
  apply lexical_results_ok in H1 as (_ & best & Hg & ->). destruct (ranked_results_spec _ _ _ _ Hg) as (R1 & F1 & C1).
  apply st_bind_ok in H2 as (v & w3 & Hv%GetVectorStore_ok & H2). apply st_bind_ok in H2 as (u & w4 & He & H2).
  rewrite <-Hv in Hin, Hc, Hm, F1, C1. apply ensure_ok in He as [St Hin4]; [|done].
  assert (Hrows : forall row, row ∈ lexical_rows (sq_VectorStoreID q) (rw_db w4) <-> row ∈ lexical_rows (sq_VectorStoreID q) (rw_db w3)).
  { intros row. rewrite !lexical_rows_elem. pose proof St as (_ & _ & _ & -> & _). by setoid_rewrite (same_tables_rows _ _ _ St). }
  assert (Hc4 : countable_chunks (rw_db w4)) by (pose proof St as (_ & _ & _ & Ec & _); unfold countable_chunks; by rewrite Ec).
  specialize (Hm _ St Hin4). cbv zeta in H2. destruct (decide (buildFTS5Query (sq_Queries q) = "")) as [Hempty|Hne].
  - injection H2 as <- _. destruct (ranked_results best) as [|a l]; [constructor|]. exfalso.
    apply Forall_cons in F1 as [[((ra & Hra & _) & _) _] _]. apply file_hits_elem in Hra as (A1 & A2 & _).
    apply lexical_rows_elem in A1 as (id & c & Hi & _ & Hj). destruct (joined_row_some _ _ _ Hj) as (_ & Ec & _).
    destruct (hits_term q (sq_ScoreThreshold q) ra) as (query & t & Q1 & Q2 & _); [rewrite Ec; by eapply Hc|done..|].
    rewrite (buildFTS5Query_empty _ Hempty query Q1) in Q2. by apply not_elem_of_nil in Q2.
  - apply st_bind_ok in H2 as (rows & w5 & [-> Hw5]%rquery_ok & H2). apply st_bind_ok in H2 as (best2 & w6 & Hg2 & H2).
    unfold st_lift in Hg2. injection Hg2 as Hg2 <-. injection H2 as <- _. destruct (ranked_results_spec _ _ _ _ Hg2) as (R2 & F2 & C2).
    eapply reports_agree; [done|done|exact F1|exact F2|exact C1|exact C2|..].
    + intros row Hh. rewrite <-Hrows. by apply (same_hits q (sq_ScoreThreshold q)).
    + intros x y (i1 & c1 & _ & _ & J1)%lexical_rows_elem (i2 & c2 & _ & _ & J2)%lexical_rows_elem Hid.
      destruct (joined_row_some _ _ _ J1) as (D1 & _ & _ & f1 & E1 & N1). destruct (joined_row_some _ _ _ J2) as (D2 & _ & _ & f2 & E2 & N2).
      rewrite N1, N2. rewrite D1, D2 in Hid. congruence.
Qed.

Lemma sjoin_elem sep x xs : x ∈ xs -> exists pre rest, sjoin sep xs = pre +:+ x +:+ rest.
Proof.
  induction xs as [|y xs IH]; [by intros ?%not_elem_of_nil|]. intros [->|Hx]%elem_of_cons.
  - exists "". destruct xs as [|z xs]; [exists ""; simpl; by rewrite sapp_nil_r|]. rewrite sjoin_cons. eauto.
  - destruct (IH Hx) as (pre & rest & E). destruct xs as [|z xs]; [by apply not_elem_of_nil in Hx|].
    rewrite sjoin_cons, E. exists (y +:+ sep +:+ pre), rest. by rewrite !sapp_assoc.
Qed.

Lemma term_match_finds db : finds_terms (LT := ascii_letters) (FT := term_match) db.
Proof.
  intros id r terms t _ _ Ht Hc. simpl. apply existsb_exists. exists t. split; [by apply list_elem_of_In|]. apply Contains_spec.
  apply sjoin_elem, list_elem_of_In, in_map. by apply list_elem_of_In.
Qed.

Definition demo_fts5 : res VectorStoreSearchPage * rworld := Eval vm_compute in
  fts5_SearchVectorStore (H := all_well) (H0 := clock_0) (H1 := ascii_letters) (H2 := sorted_order) (H3 := term_match) demo_query demo_world.

(** The rows of a small table, one by one. *)
Lemma all_chunks (m : gmap Z chunk_row) (p : chunk_row -> bool) :
  forallb (fun kv => p kv.2) (map_to_list m) = true -> forall id c, m !! id = Some c -> p c = true.
Proof.
  intros Hp id c Hc. rewrite forallb_forall in Hp. apply (Hp (id, c)). by apply list_elem_of_In, elem_of_map_to_list.
Qed.

Lemma demo_world_in_step : in_step (rw_db demo_world).
Proof.
  change demo_world with (run_ops (SQ := all_well) (UC := clock_0) (LT := ascii_letters) (MO := sorted_order)
    (RB := sqliteFTS5RetrievalBackend (H := all_well) (H0 := clock_0) (H1 := ascii_letters) (H2 := sorted_order) (H3 := term_match))
    demo_ops {| rw_db := empty_rdb; rw_stmts := 0 |}).
  apply (run_ops_in_step (SQ := all_well)); [done|]. apply in_step_empty.
Qed.

Lemma fts5_search_agrees_witness :
  exists p1 p2, demo_lexical.1 = Ok p1 /\ demo_fts5.1 = Ok p2 /\ map sr_FileID (sp_Results p2) = ["file_1"] /\
  Forall2 same_rank (sp_Results p1) (sp_Results p2).
Proof.
  eexists _, _. split; [reflexivity|]. split; [reflexivity|]. split; [vm_compute; reflexivity|].
  apply (fts5_search_agrees (SQ := all_well) (UC := clock_0) (LT := ascii_letters) (LL := ascii_letters_laws) (MO := sorted_order) (FT := term_match)
    demo_query demo_world _ demo_lexical.2 _ demo_fts5.2).
  - apply demo_world_in_step.
  - repeat constructor.
  - intros id c Hc. apply Z.ltb_lt. revert id c Hc. apply all_chunks. vm_compute. reflexivity.
  - intros db _ _. apply term_match_finds.
  - vm_compute. reflexivity.
  - vm_compute. reflexivity.
Defined.

(** ** What a score does not see *)

(** Fact (equivalence): the score of a chunk depends on which terms it has and not
    on how often: the share meant for repetitions is whole whenever a term is found. *)
Theorem repetition_does_not_count `{LT : LetterTable} c1 c2 queries : countable_text c1 -> countable_text c2 ->
  (forall t, t ∈ tokenizeTerms c1 <-> t ∈ tokenizeTerms c2) -> chunkScore c1 queries = chunkScore c2 queries.
Proof.
  intros H1 H2 Ht. unfold chunkScore, countable_text in *.
  assert (Hq : forall query, query_score (tokenizeTerms c1) query = query_score (tokenizeTerms c2) query).
  { intros query. rewrite !query_score_eq by done. destruct (unique_terms [] (tokenizeTerms query)) as [|t ts]; [done|].
    assert (He : found (tokenizeTerms c1) (t :: ts) = found (tokenizeTerms c2) (t :: ts)) by (by apply list_filter_iff).
    cbv zeta. by rewrite He. }
  destruct (tokenizeTerms c1) as [|x l1]; destruct (tokenizeTerms c2) as [|y l2]; [done|..].
  - exfalso. eapply not_elem_of_nil, Ht, elem_of_cons. by left.
  - exfalso. eapply not_elem_of_nil, Ht, elem_of_cons. by left.
  - assert (He : omap (query_score (x :: l1)) queries = omap (query_score (y :: l2)) queries); [|by rewrite He].
    clear -Hq. induction queries as [|q qs IH]; [done|]. simpl. rewrite Hq. destruct (query_score (y :: l2) q); [f_equal|]; exact IH.
Qed.

(** ** Planned queries *)

Lemma add_query_spec `{LT : LetterTable} out candidate : NoDup out -> Forall (fun s => s <> "") out ->
  NoDup (add_query out candidate) /\ Forall (fun s => s <> "") (add_query out candidate) /\ length (add_query out candidate) <= S (length out).
Proof.
  intros Hn Hf. unfold add_query. case_decide as He; [auto with lia|]. case_decide as Hin; [auto with lia|].
  split; [|split]; [|apply Forall_app; split; [done|by repeat constructor]|rewrite length_app; simpl; lia].
  apply NoDup_app. split; [done|]. split; [|apply NoDup_singleton]. intros x Hx Hs%list_elem_of_singleton. by subst.
Qed.

(** Fact (bounds): at most four distinct queries are planned for a question. *)
Theorem planned_queries_bounded `{LT : LetterTable} query :
  NoDup (PlanFileSearchQueries query) /\ length (PlanFileSearchQueries query) <= maxPlannedFileSearchQueries.
Proof.
  assert (Hadd : forall planned c, NoDup planned -> Forall (fun s => s <> "") planned -> length planned <= maxPlannedFileSearchQueries ->
    NoDup (plan_add planned c) /\ Forall (fun s => s <> "") (plan_add planned c) /\ length (plan_add planned c) <= maxPlannedFileSearchQueries).
  { intros planned c Hn Hf Hl. unfold plan_add. case_decide; [done|]. destruct (add_query_spec planned c Hn Hf) as (? & ? & ?). split_and!; [done|done|lia]. }
  unfold PlanFileSearchQueries. case_decide; [split; [constructor|simpl; lia]|].
  assert (Hc : forall clauses planned, NoDup planned -> Forall (fun s => s <> "") planned -> length planned <= maxPlannedFileSearchQueries ->
    NoDup (plan_clauses planned clauses) /\ length (plan_clauses planned clauses) <= maxPlannedFileSearchQueries).
  { induction clauses as [|c clauses IH]; intros planned Hn Hf Hl; [done|]. cbn [plan_clauses]. destruct (Hadd planned c Hn Hf Hl) as (? & ? & ?).
    case_decide; [done|]. by apply IH. }
  destruct (Hadd [] (TrimSpace query)) as (N1 & F1 & L1); [constructor|constructor|simpl; lia|].
  destruct (Hc (decomposeSearchClauses (TrimSpace query)) _ N1 F1 L1) as [Hn Hl].
  destruct (plan_clauses _ _); [split; [apply NoDup_singleton|simpl; unfold maxPlannedFileSearchQueries; lia]|done].
Qed.
