(* ===== verification/Compat.v ===== *)
(** * Requests rewritten for the upstream server

    internal/upstreamcompat/chat_completions.go: rules of the configuration say,
    per model, what of a chat completion request is changed before it is sent on.
    A nil map of the source (a null among messages or tools) is [None]. *)

From S2P Require Import Prelude GoStr GoFloat GoJson GoInt FloatOps Normalize Response ToolMarkup ChatStream Catalog Terms Retrieval.

Record ChatCompletionCompatibility := {
  cc_DeveloperRolesRemapped : Z;
  cc_DefaultThinkingDisabled : bool;
  cc_DefaultMaxTokensApplied : bool;
  cc_JSONSchemaDowngraded : bool;
  cc_ToolParameterPropertyTypesEnsured : bool;
  cc_MoonshotToolSchemaSanitized : bool;
  cc_EmptyAssistantToolContentOmitted : Z
}.

Definition no_compatibility : ChatCompletionCompatibility :=
  {| cc_DeveloperRolesRemapped := 0; cc_DefaultThinkingDisabled := false; cc_DefaultMaxTokensApplied := false;
     cc_JSONSchemaDowngraded := false; cc_ToolParameterPropertyTypesEnsured := false;
     cc_MoonshotToolSchemaSanitized := false; cc_EmptyAssistantToolContentOmitted := 0 |}.

Record RequestCleanupHook := { ch_Name : string; ch_Fields : list string }.

Record ChatCompletionRule := {
  rl_Model : string;
  rl_RemapDeveloperRole : bool;
  rl_DefaultThinking : string;
  rl_DefaultMaxTokens : Z;
  rl_JSONSchemaMode : string;
  rl_EnsureToolParameterPropertyTypes : bool;
  rl_SanitizeMoonshotToolSchema : bool;
  rl_OmitEmptyAssistantToolContent : bool;
  rl_RetryInvalidToolArguments : bool;
  rl_InvalidToolArgumentsFallback : string
}.

Definition DefaultThinkingDisabled : string := "disabled".
Definition JSONSchemaModeObjectInstruction : string := "json_object_instruction".
Definition InvalidToolArgumentsFallbackNone : string := "none".
Definition InvalidToolArgumentsFallbackFinalText : string := "final_text".

Definition RequestCleanupHookChatRemapDeveloperRole : string := "chat_completions.remap_developer_role".
Definition RequestCleanupHookChatDefaultThinkingDisabled : string := "chat_completions.default_thinking_disabled".
Definition RequestCleanupHookChatDefaultMaxTokens : string := "chat_completions.default_max_tokens".
Definition RequestCleanupHookChatJSONSchemaToJSONObjectInstruction : string :=
  "chat_completions.json_schema_to_json_object_instruction".
Definition RequestCleanupHookChatEnsureToolParameterPropertyTypes : string :=
  "chat_completions.ensure_tool_parameter_property_types".
Definition RequestCleanupHookChatSanitizeMoonshotToolSchema : string := "chat_completions.sanitize_moonshot_tool_schema".
Definition RequestCleanupHookChatOmitEmptyAssistantToolContent : string :=
  "chat_completions.omit_empty_assistant_tool_content".

Definition Applied (c : ChatCompletionCompatibility) : bool :=
  (0 <? cc_DeveloperRolesRemapped c)%Z || cc_DefaultThinkingDisabled c || cc_DefaultMaxTokensApplied c ||
  cc_JSONSchemaDowngraded c || cc_ToolParameterPropertyTypesEnsured c || cc_MoonshotToolSchemaSanitized c ||
  (0 <? cc_EmptyAssistantToolContentOmitted c)%Z.

(** ** Names of hooks *)

Fixpoint distinct_names (seen values : list string) : list string :=
  match values with
  | [] => []
  | value :: values =>
      let value := TrimSpace value in
      if decide (value = "" \/ value ∈ seen) then distinct_names seen values
      else value :: distinct_names (value :: seen) values
  end.

Definition normalizeHookNames (values : list string) : list string := sort_strings (distinct_names [] values).

Definition RequestCleanupHookNames (hooks : list RequestCleanupHook) : list string := normalizeHookNames (map ch_Name hooks).
Definition RequestCleanupHookFieldNames (fields : list string) : list string := normalizeHookNames fields.

Definition hook (enabled : bool) (name field : string) : list RequestCleanupHook :=
  if enabled then [{| ch_Name := name; ch_Fields := RequestCleanupHookFieldNames [field] |}] else [].

Definition AppliedRequestCleanupHooks (c : ChatCompletionCompatibility) : list RequestCleanupHook :=
  hook (0 <? cc_DeveloperRolesRemapped c)%Z RequestCleanupHookChatRemapDeveloperRole "developer_role" ++
  hook (cc_DefaultThinkingDisabled c) RequestCleanupHookChatDefaultThinkingDisabled "thinking" ++
  hook (cc_DefaultMaxTokensApplied c) RequestCleanupHookChatDefaultMaxTokens "max_tokens" ++
  hook (cc_JSONSchemaDowngraded c) RequestCleanupHookChatJSONSchemaToJSONObjectInstruction "response_format" ++
  hook (cc_ToolParameterPropertyTypesEnsured c) RequestCleanupHookChatEnsureToolParameterPropertyTypes "tools.parameters.properties" ++
  hook (cc_MoonshotToolSchemaSanitized c) RequestCleanupHookChatSanitizeMoonshotToolSchema "tools.function.parameters" ++
  hook (0 <? cc_EmptyAssistantToolContentOmitted c)%Z RequestCleanupHookChatOmitEmptyAssistantToolContent "messages.assistant.content".

Definition chatCompletionRuleRequestCleanupHookNames (rule : ChatCompletionRule) : list string :=
  let name (enabled : bool) (n : string) := if enabled then [n] else [] in
  normalizeHookNames (
    name (rl_RemapDeveloperRole rule) RequestCleanupHookChatRemapDeveloperRole ++
    name (bool_decide (rl_DefaultThinking rule = DefaultThinkingDisabled)) RequestCleanupHookChatDefaultThinkingDisabled ++
    name (0 <? rl_DefaultMaxTokens rule)%Z RequestCleanupHookChatDefaultMaxTokens ++
    name (bool_decide (rl_JSONSchemaMode rule = JSONSchemaModeObjectInstruction))
      RequestCleanupHookChatJSONSchemaToJSONObjectInstruction ++
    name (rl_EnsureToolParameterPropertyTypes rule) RequestCleanupHookChatEnsureToolParameterPropertyTypes ++
    name (rl_SanitizeMoonshotToolSchema rule) RequestCleanupHookChatSanitizeMoonshotToolSchema ++
    name (rl_OmitEmptyAssistantToolContent rule) RequestCleanupHookChatOmitEmptyAssistantToolContent).

Definition RequestCleanupHookNamesForChatRules (rules : list ChatCompletionRule) : list string :=
  normalizeHookNames (flat_map chatCompletionRuleRequestCleanupHookNames rules).

(** ** Patterns of models *)

(** The loop over the parts after the first; [rest] is [model[pos:]]. *)
Fixpoint match_parts (rest : string) (parts : list string) : bool :=
  match parts with
  | [] => true
  | part :: parts =>
      if decide (part = "") then match_parts rest parts
      else match Index rest part with
           | None => false
           | Some idx => match_parts (sdrop (idx + String.length part) rest) parts
           end
  end.

Section rules.
Context `{LetterTable}.

Definition modelPatternMatches (pattern model : string) : bool :=
  let pattern := lowered (TrimSpace pattern) in
  let model := lowered (TrimSpace model) in
  if decide (pattern = "" \/ model = "") then false
  else if decide (pattern = "*" \/ pattern = model) then true
  else if negb (Contains pattern "*") then false
  else
    match Split pattern "*" with
    | [] => false
    | first :: parts =>
        if negb (HasPrefix model first) then false
        else if negb (match_parts (sdrop (String.length first) model) parts) then false
        else let last_part := default first (last parts) in bool_decide (last_part = "") || HasSuffix model last_part
    end.

Fixpoint chatCompletionRuleForModel (model : string) (rules : list ChatCompletionRule) : option ChatCompletionRule :=
  match rules with
  | [] => None
  | rule :: rules =>
      if modelPatternMatches (rl_Model rule) (TrimSpace model) then Some rule else chatCompletionRuleForModel model rules
  end.

Definition RequestCleanupHookNamesForChatModels (rules : list ChatCompletionRule) (models : list string) : list string :=
  match models with
  | [] => RequestCleanupHookNamesForChatRules rules
  | _ => normalizeHookNames (flat_map (fun model =>
           from_option chatCompletionRuleRequestCleanupHookNames [] (chatCompletionRuleForModel model rules)) models)
  end.

Definition RetryInvalidToolArguments (rules : list ChatCompletionRule) (model : string) : bool :=
  from_option rl_RetryInvalidToolArguments false (chatCompletionRuleForModel model rules).

Definition InvalidToolArgumentsFallback (rules : list ChatCompletionRule) (model : string) : string :=
  match chatCompletionRuleForModel model rules with
  | None => InvalidToolArgumentsFallbackNone
  | Some rule =>
      if decide (TrimSpace (rl_InvalidToolArgumentsFallback rule) = InvalidToolArgumentsFallbackFinalText)
      then InvalidToolArgumentsFallbackFinalText else InvalidToolArgumentsFallbackNone
  end.
End rules.

(** ** Messages *)

Notation raw_object := (list (string * json)).
Notation any_object := (list (string * gval)).

Definition is_blank_raw (raw : option json) : bool := match raw with None | Some JNull => true | _ => false end.

(** Unmarshal into []map[string]json.RawMessage, and back. *)
Definition raw_object_of (t : json) : option (option raw_object) := match t with JNull => Some None | _ => Some <$> raw_map t end.

Definition raw_objects (t : json) : option (list (option raw_object)) :=
  match t with
  | JArr l => opt_map raw_object_of l
  | JNull => Some []
  | _ => None
  end.

Definition raw_objects_json (l : list (option raw_object)) : json := JArr (map (from_option raw_map_json JNull) l).

(** Unmarshal into []map[string]any, and back. *)
Definition any_objects (t : json) : option (list (option any_object)) :=
  match t with
  | JArr l => opt_map any_map l
  | JNull => Some []
  | _ => None
  end.

Definition any_objects_json (l : list (option any_object)) : json := JArr (map (from_option (fun m => of_any (GMap m)) JNull) l).

(** [message["role"]] when it is a text. *)
Definition raw_role (message : option raw_object) : option string := (message ≫= am_lookup "role") ≫= string_of.

Definition remap_message (message : option raw_object) : option raw_object :=
  if decide (raw_role message = Some "developer") then am_insert "role" (JStr "system") <$> message else message.

(** The result is [None] when nothing changes. *)
Definition remapDeveloperMessages (rawMessages : option json) : res (option json) :=
  match rawMessages with
  | None => Ok None
  | Some t =>
      match raw_objects t with
      | None => Err (NewValidationError "messages" "messages must be an array")
      | Some messages =>
          if decide (Exists (fun message => raw_role message = Some "developer") messages)
          then Ok (Some (raw_objects_json (map remap_message messages))) else Ok None
      end
  end.

(** struct { Messages []struct { Role string } } *)
Definition role_into (before : string) (t : json) : option string :=
  members ← struct_members t; field_into string_into "role" members before.

Definition request_roles (rawBody : string) : option (list string) :=
  t ← jparse rawBody;
  members ← struct_members t;
  elements <$> field_into (decode_slice role_into "") "messages" members None.

Definition countDeveloperMessages (rawBody : string) : Z :=
  match request_roles rawBody with
  | None => 0
  | Some roles => Z.of_nat (length (filter (fun role => role = "developer") roles))
  end.

(** ** Response formats *)

Definition schema_instruction (schemaRaw : option json) : string :=
  "Return JSON only. The JSON object must match this JSON Schema: " +:+ from_option jprint "" schemaRaw +:+
  ". Do not include markdown or prose.".

Definition json_object_format : json := JObj [("type", JStr "json_object")].

Definition schema_of (responseFormat : raw_object) : option json :=
  let schemaRaw := if is_blank_raw (am_lookup "json_schema" responseFormat) then am_lookup "schema" responseFormat
                   else am_lookup "json_schema" responseFormat in
  let nested := (schemaRaw ≫= raw_map) ≫= am_lookup "schema" in
  if is_blank_raw nested then schemaRaw else nested.

(** The instruction, or [None] when nothing changes. *)
Definition downgradeJSONSchemaToJSONObjectInstruction (raw : option json) : res (option (json * string)) :=
  match raw with
  | None | Some JNull => Ok None
  | Some t =>
      match raw_map t with
      | None => Err (NewValidationError "response_format" "response_format must be an object")
      | Some responseFormat =>
          if decide (am_lookup "type" responseFormat ≫= string_of = Some "json_schema")
          then Ok (Some (json_object_format, schema_instruction (schema_of responseFormat))) else Ok None
      end
  end.

Definition instruction_message (instruction : string) : raw_object :=
  am_of_list [("role", JStr "system"); ("content", json_str instruction)].

(** The instruction joins the text of a first system message, or a message of its own is put first. *)
Definition prependSystemInstruction (rawMessages : option json) (instruction : string) : res json :=
  match rawMessages ≫= raw_objects with
  | None => Err (NewValidationError "messages" "messages must be an array")
  | Some messages =>
      let own := raw_objects_json (Some (instruction_message instruction) :: messages) in
      match messages with
      | Some first :: rest =>
          if decide (raw_role (Some first) = Some "system") then
            if is_blank_raw (am_lookup "content" first) then
              Ok (raw_objects_json (Some (am_insert "content" (json_str instruction) first) :: rest))
            else match am_lookup "content" first ≫= string_of with
                 | Some content =>
                     Ok (raw_objects_json (Some (am_insert "content"
                           (json_str (instruction +:+ line_feed +:+ line_feed +:+ content)) first) :: rest))
                 | None => Ok own
                 end
          else Ok own
      | _ => Ok own
      end
  end.

(** ** Schemas of tool parameters *)

(** stringValue *)
Definition trimmed_string (value : option gval) : string :=
  match value with Some (GStr text) => TrimSpace text | _ => "" end.

Definition has_any_key (keys : list string) (object : any_object) : bool :=
  existsb (fun key => bool_decide (is_Some (am_lookup key object))) keys.

Definition combinators : list string := ["anyOf"; "oneOf"; "allOf"; "not"; "if"; "then"; "else"; "$ref"].
Definition hasSchemaCombinator (object : any_object) : bool := has_any_key combinators object.

Section schemas.
Context `{FloatConversion}.

Definition isJSONInteger (value : float64) : bool := feqb value (f_of_int (float_int value)).

Definition value_type (value : gval) : string :=
  match value with
  | GBool _ => "boolean"
  | GStr _ => "string"
  | GNull => "null"
  | GMap _ => "object"
  | GArr _ => "array"
  | GNum f => if isJSONInteger f then "integer" else "number"
  end.

Definition inferSchemaTypeFromValues (values : list gval) : string :=
  let seen : gset string := list_to_set (map value_type values) in
  if decide (size seen = 1) then default "string" (head (base.elements seen))
  else if decide (size seen = 2 /\ "integer" ∈ seen /\ "number" ∈ seen) then "number"
  else "string".

Definition inferSchemaType (object : any_object) : string :=
  match am_lookup "enum" object, am_lookup "const" object with
  | Some (GArr (value :: values)), _ => inferSchemaTypeFromValues (value :: values)
  | _, Some value => inferSchemaTypeFromValues [value]
  | _, None =>
      if has_any_key ["properties"; "additionalProperties"; "patternProperties"; "propertyNames"; "required"; "minProperties"; "maxProperties"] object
      then "object"
      else if has_any_key ["items"; "prefixItems"; "minItems"; "maxItems"; "uniqueItems"; "contains"] object then "array"
      else if has_any_key ["minLength"; "maxLength"; "pattern"; "format"] object then "string"
      else if has_any_key ["minimum"; "maximum"; "multipleOf"; "exclusiveMinimum"; "exclusiveMaximum"] object then "number"
      else "string"
  end.

(** [f] on every element of a list, and whether one of them changed. *)
Definition each_changed {A} (f : A -> A * bool) (l : list A) : list A * bool :=
  (map (fun x => (f x).1) l, existsb (fun x => (f x).2) l).

Definition with_map (p : any_object * bool) : gval * bool := (GMap p.1, p.2).
Definition with_arr (p : list gval * bool) : gval * bool := (GArr p.1, p.2).
Definition at_key (k : string) (p : gval * bool) : (string * gval) * bool := ((k, p.1), p.2).

(** What a container does to the value of one of its keys. *)
Definition container_entry (property : gval -> gval * bool) (kv : string * gval) : (string * gval) * bool :=
  let '(k, v) := kv in
  at_key k
    (if decide (k = "properties") then
       match v with GMap ps => with_map (each_changed (fun p => at_key p.1 (property p.2)) ps) | _ => (v, false) end
     else if decide (k = "items") then
       match v with GMap _ => property v | GArr l => with_arr (each_changed property l) | _ => (v, false) end
     else if decide (k = "additionalProperties") then match v with GMap _ => property v | _ => (v, false) end
     else if decide (k ∈ ["anyOf"; "oneOf"; "allOf"]) then
       match v with GArr l => with_arr (each_changed property l) | _ => (v, false) end
     else (v, false)).

Definition lacks_type (object : any_object) : bool :=
  negb (bool_decide (is_Some (am_lookup "type" object))) && negb (hasSchemaCombinator object).

(** The type is inferred from the object as it was; the values of the container
    keys are rewritten in place, and none of them is the type. *)
Fixpoint normalizeSchemaProperty (node : gval) : gval * bool :=
  match node with
  | GMap object =>
      let '(rewritten, changed) := each_changed (container_entry normalizeSchemaProperty) object in
      if lacks_type object then (GMap (am_insert "type" (GStr (inferSchemaType object)) rewritten), true)
      else (GMap rewritten, changed)
  | _ => (node, false)
  end.

Definition normalizeSchemaContainer (object : any_object) : any_object * bool :=
  each_changed (container_entry normalizeSchemaProperty) object.
End schemas.

(** A reference of the schema, when it has one. *)
Definition schema_ref (object : any_object) : option string :=
  match am_lookup "$ref" object with
  | Some (GStr ref) => if decide (TrimSpace ref = "") then None else Some ref
  | _ => None
  end.

(** What becomes of the value of a key: [items] that list schemas by position are cut to the first. *)
Definition moonshot_entry (node : gval -> gval * bool) (kv : string * gval) : (string * gval) * bool :=
  let '(k, v) := kv in
  match v with
  | GArr l => if decide (k = "items")
              then ((k, match l with [] => GMap [] | first :: _ => (node first).1 end), true)
              else at_key k (node v)
  | _ => at_key k (node v)
  end.

(** Schemas as one upstream server accepts them: a reference stands alone, and
    [items] is one schema. *)
Fixpoint sanitizeMoonshotSchemaNode (node : gval) : gval * bool :=
  match node with
  | GArr l => with_arr (each_changed sanitizeMoonshotSchemaNode l)
  | GMap object =>
      match schema_ref object with
      | Some ref => (GMap [("$ref", GStr ref)], negb (bool_decide (length object = 1)))
      | None => with_map (each_changed (moonshot_entry sanitizeMoonshotSchemaNode) object)
      end
  | _ => (node, false)
  end.

(** The parameters of a function tool rewritten by [f]; other tools stay. *)
Definition rewrite_tool (f : any_object -> gval * bool) (tool : option any_object) : option any_object * bool :=
  match tool with
  | None => (None, false)
  | Some tool =>
      if decide (trimmed_string (am_lookup "type" tool) = "function") then
        match am_lookup "function" tool with
        | Some (GMap function) =>
            match am_lookup "parameters" function with
            | Some (GMap parameters) =>
                let '(rewritten, changed) := f parameters in
                (Some (am_insert "function" (GMap (am_insert "parameters" rewritten function)) tool), changed)
            | _ => (Some tool, false)
            end
        | _ => (Some tool, false)
        end
      else (Some tool, false)
  end.

Definition rewrite_tools (f : any_object -> gval * bool) (rawTools : option json) : res (option json) :=
  match rawTools with
  | None | Some JNull => Ok None
  | Some t =>
      match any_objects t with
      | None => Err (NewValidationError "tools" "tools must be an array")
      | Some tools =>
          let '(tools, changed) := each_changed (rewrite_tool f) tools in
          Ok (if changed then Some (any_objects_json tools) else None)
      end
  end.

Definition ensureToolParameterPropertyTypes `{FloatConversion} : option json -> res (option json) :=
  rewrite_tools (fun parameters => with_map (normalizeSchemaContainer parameters)).

Definition sanitizeMoonshotToolSchemas : option json -> res (option json) :=
  rewrite_tools (fun parameters => sanitizeMoonshotSchemaNode (GMap parameters)).

(** ** Empty contents of assistant messages *)

Definition hasToolCalls (value : option gval) : bool := match value with Some (GArr (_ :: _)) => true | _ => false end.

Definition isEmptyTextContentPart (value : gval) : bool :=
  match value with
  | GMap part =>
      bool_decide (trimmed_string (am_lookup "type" part) ∈ ["text"; "input_text"; "output_text"]) &&
      bool_decide (TrimSpace (trimmed_string (am_lookup "text" part)) = "")
  | _ => false
  end.

Definition isEmptyAssistantToolCallContent (value : gval) : bool :=
  match value with
  | GNull => true
  | GStr text => bool_decide (TrimSpace text = "")
  | GArr parts => forallb isEmptyTextContentPart parts
  | _ => false
  end.

(** Whether the content of the message is left out. *)
Definition omits_content (message : any_object) : bool :=
  bool_decide (trimmed_string (am_lookup "role" message) = "assistant") && hasToolCalls (am_lookup "tool_calls" message) &&
  from_option isEmptyAssistantToolCallContent false (am_lookup "content" message).

Definition omit_content (message : option any_object) : option any_object :=
  message ← message; Some (if omits_content message then am_delete "content" message else message).

Definition omitEmptyAssistantToolCallContent (rawMessages : option json) : res (option (json * Z)) :=
  match rawMessages with
  | None | Some JNull => Ok None
  | Some t =>
      match any_objects t with
      | None => Err (NewValidationError "messages" "messages must be an array")
      | Some messages =>
          let omitted := Z.of_nat (length (filter (fun message => from_option omits_content false message = true) messages)) in
          Ok (if (omitted =? 0)%Z then None else Some (any_objects_json (map omit_content messages), omitted))
      end
  end.

(** ** The request *)

Definition decodeRawFields (rawBody : string) : res raw_object :=
  match jparse rawBody with
  | None => Err (EDecode "request body")
  | Some JNull => Err (NewValidationError "" "request body must be a JSON object")
  | Some t => match raw_map t with None => Err (EDecode "request body") | Some fields => Ok fields end
  end.

Definition rawStringField (fields : raw_object) (key : string) : string := default "" (am_lookup key fields ≫= string_of).

(** The fields rewritten so far and what was applied. *)
Notation rewriting := (raw_object * ChatCompletionCompatibility)%type.

Definition apply_remap (rule : ChatCompletionRule) (rawBody : string) (p : rewriting) : res rewriting :=
  let '(fields, c) := p in
  if negb (rl_RemapDeveloperRole rule) then Ok p
  else
    remapped ← remapDeveloperMessages (am_lookup "messages" fields);
    Ok match remapped with
       | None => p
       | Some messages =>
           (am_insert "messages" messages fields,
            {| cc_DeveloperRolesRemapped := countDeveloperMessages rawBody; cc_DefaultThinkingDisabled := cc_DefaultThinkingDisabled c;
               cc_DefaultMaxTokensApplied := cc_DefaultMaxTokensApplied c; cc_JSONSchemaDowngraded := cc_JSONSchemaDowngraded c;
               cc_ToolParameterPropertyTypesEnsured := cc_ToolParameterPropertyTypesEnsured c;
               cc_MoonshotToolSchemaSanitized := cc_MoonshotToolSchemaSanitized c;
               cc_EmptyAssistantToolContentOmitted := cc_EmptyAssistantToolContentOmitted c |})
       end.

Definition apply_thinking (rule : ChatCompletionRule) (p : rewriting) : rewriting :=
  let '(fields, c) := p in
  if decide (rl_DefaultThinking rule = DefaultThinkingDisabled /\ am_lookup "thinking" fields = None) then
    (am_insert "thinking" (JObj [("type", JStr "disabled")]) fields,
     {| cc_DeveloperRolesRemapped := cc_DeveloperRolesRemapped c; cc_DefaultThinkingDisabled := true;
        cc_DefaultMaxTokensApplied := cc_DefaultMaxTokensApplied c; cc_JSONSchemaDowngraded := cc_JSONSchemaDowngraded c;
        cc_ToolParameterPropertyTypesEnsured := cc_ToolParameterPropertyTypesEnsured c;
        cc_MoonshotToolSchemaSanitized := cc_MoonshotToolSchemaSanitized c;
        cc_EmptyAssistantToolContentOmitted := cc_EmptyAssistantToolContentOmitted c |})
  else p.

Definition apply_max_tokens (rule : ChatCompletionRule) (p : rewriting) : rewriting :=
  let '(fields, c) := p in
  if decide ((0 < rl_DefaultMaxTokens rule)%Z /\ am_lookup "max_tokens" fields = None /\ am_lookup "max_completion_tokens" fields = None) then
    (am_insert "max_tokens" (json_int (rl_DefaultMaxTokens rule)) fields,
     {| cc_DeveloperRolesRemapped := cc_DeveloperRolesRemapped c; cc_DefaultThinkingDisabled := cc_DefaultThinkingDisabled c;
        cc_DefaultMaxTokensApplied := true; cc_JSONSchemaDowngraded := cc_JSONSchemaDowngraded c;
        cc_ToolParameterPropertyTypesEnsured := cc_ToolParameterPropertyTypesEnsured c;
        cc_MoonshotToolSchemaSanitized := cc_MoonshotToolSchemaSanitized c;
        cc_EmptyAssistantToolContentOmitted := cc_EmptyAssistantToolContentOmitted c |})
  else p.

Definition apply_json_schema (rule : ChatCompletionRule) (p : rewriting) : res rewriting :=
  let '(fields, c) := p in
  if negb (bool_decide (rl_JSONSchemaMode rule = JSONSchemaModeObjectInstruction)) then Ok p
  else
    downgraded ← downgradeJSONSchemaToJSONObjectInstruction (am_lookup "response_format" fields);
    match downgraded with
    | None => Ok p
    | Some (format, schemaInstruction) =>
        let fields := am_delete "structured_outputs" (am_delete "json_schema" (am_insert "response_format" format fields)) in
        messages ← prependSystemInstruction (am_lookup "messages" fields) schemaInstruction;
        Ok (am_insert "messages" messages fields,
            {| cc_DeveloperRolesRemapped := cc_DeveloperRolesRemapped c; cc_DefaultThinkingDisabled := cc_DefaultThinkingDisabled c;
               cc_DefaultMaxTokensApplied := cc_DefaultMaxTokensApplied c; cc_JSONSchemaDowngraded := true;
               cc_ToolParameterPropertyTypesEnsured := cc_ToolParameterPropertyTypesEnsured c;
               cc_MoonshotToolSchemaSanitized := cc_MoonshotToolSchemaSanitized c;
               cc_EmptyAssistantToolContentOmitted := cc_EmptyAssistantToolContentOmitted c |})
    end.

Definition apply_types `{FloatConversion} (rule : ChatCompletionRule) (p : rewriting) : res rewriting :=
  let '(fields, c) := p in
  if negb (rl_EnsureToolParameterPropertyTypes rule) then Ok p
  else
    normalized ← ensureToolParameterPropertyTypes (am_lookup "tools" fields);
    Ok match normalized with
       | None => p
       | Some tools =>
           (am_insert "tools" tools fields,
            {| cc_DeveloperRolesRemapped := cc_DeveloperRolesRemapped c; cc_DefaultThinkingDisabled := cc_DefaultThinkingDisabled c;
               cc_DefaultMaxTokensApplied := cc_DefaultMaxTokensApplied c; cc_JSONSchemaDowngraded := cc_JSONSchemaDowngraded c;
               cc_ToolParameterPropertyTypesEnsured := true;
               cc_MoonshotToolSchemaSanitized := cc_MoonshotToolSchemaSanitized c;
               cc_EmptyAssistantToolContentOmitted := cc_EmptyAssistantToolContentOmitted c |})
       end.

Definition apply_moonshot (rule : ChatCompletionRule) (p : rewriting) : res rewriting :=
  let '(fields, c) := p in
  if negb (rl_SanitizeMoonshotToolSchema rule) then Ok p
  else
    normalized ← sanitizeMoonshotToolSchemas (am_lookup "tools" fields);
    Ok match normalized with
       | None => p
       | Some tools =>
           (am_insert "tools" tools fields,
            {| cc_DeveloperRolesRemapped := cc_DeveloperRolesRemapped c; cc_DefaultThinkingDisabled := cc_DefaultThinkingDisabled c;
               cc_DefaultMaxTokensApplied := cc_DefaultMaxTokensApplied c; cc_JSONSchemaDowngraded := cc_JSONSchemaDowngraded c;
               cc_ToolParameterPropertyTypesEnsured := cc_ToolParameterPropertyTypesEnsured c;
               cc_MoonshotToolSchemaSanitized := true;
               cc_EmptyAssistantToolContentOmitted := cc_EmptyAssistantToolContentOmitted c |})
       end.

Definition apply_omit (rule : ChatCompletionRule) (p : rewriting) : res rewriting :=
  let '(fields, c) := p in
  if negb (rl_OmitEmptyAssistantToolContent rule) then Ok p
  else
    normalized ← omitEmptyAssistantToolCallContent (am_lookup "messages" fields);
    Ok match normalized with
       | None => p
       | Some (messages, omitted) =>
           (am_insert "messages" messages fields,
            {| cc_DeveloperRolesRemapped := cc_DeveloperRolesRemapped c; cc_DefaultThinkingDisabled := cc_DefaultThinkingDisabled c;
               cc_DefaultMaxTokensApplied := cc_DefaultMaxTokensApplied c; cc_JSONSchemaDowngraded := cc_JSONSchemaDowngraded c;
               cc_ToolParameterPropertyTypesEnsured := cc_ToolParameterPropertyTypesEnsured c;
               cc_MoonshotToolSchemaSanitized := cc_MoonshotToolSchemaSanitized c;
               cc_EmptyAssistantToolContentOmitted := omitted |})
       end.

(** The rule applied to the fields, step by step. *)
Definition apply_rule `{FloatConversion} (rule : ChatCompletionRule) (rawBody : string) (fields : raw_object) : res rewriting :=
  p ← apply_remap rule rawBody (fields, no_compatibility);
  p ← apply_json_schema rule (apply_max_tokens rule (apply_thinking rule p));
  p ← apply_types rule p;
  p ← apply_moonshot rule p;
  apply_omit rule p.

Definition NormalizeChatCompletionRequest `{FloatConversion} `{LetterTable} (rawBody : string) (rules : list ChatCompletionRule)
    : res (string * ChatCompletionCompatibility) :=
  rawFields ← decodeRawFields rawBody;
  let model := rawStringField rawFields "model" in
  p ← match chatCompletionRuleForModel model rules with
      | Some rule => apply_rule rule rawBody rawFields
      | None => Ok (rawFields, no_compatibility)
      end;
  if negb (Applied p.2) then Ok (rawBody, p.2) else Ok (jprint (raw_map_json p.1), p.2).
