(* ===== verification/CompatProps.v ===== *)
(** * What a rewritten request looks like

    Patterns of models are the usual ones with a star; a schema whose properties
    had no types has them; a rewritten request keeps what its rule is not
    about. *)

From S2P Require Import Prelude GoStr GoFloat GoJson JsonFacts StrFacts GoInt FloatOps Normalize ItemFacts Response SurfaceProps ToolMarkup ChatStream Catalog Terms Retrieval Compat.

(** ** Patterns of models *)

Definition star : ascii := chr 42.

(** A star stands for any text, any other byte for itself. *)
Inductive glob : string -> string -> Prop :=
| glob_nil : glob "" ""
| glob_char a p s : a <> star -> glob p s -> glob (String a p) (String a s)
| glob_star p s t : glob p t -> glob (String star p) (s +:+ t).

Lemma glob_refl p : glob p p.
Proof.
  induction p as [|a p IH]; [constructor|]. destruct (decide (a = star)) as [->|Ha]; [|by constructor].
  apply (glob_star p (char_string star)). done.
Qed.

(** The texts between the stars. *)
Fixpoint star_split (s : string) : list string :=
  match s with
  | "" => [""]
  | String a s =>
      if decide (a = star) then "" :: star_split s
      else match star_split s with part :: parts => String a part :: parts | [] => [char_string a] end
  end.

Lemma star_split_index s : star_split s =
  match Index s "*" with Some i => stake i s :: star_split (sdrop (i + 1) s) | None => [s] end.
Proof.
  induction s as [|a s IH]; [done|]. cbn [star_split Index]. destruct (decide (a = star)) as [->|Ha]; [done|].
  destruct (HasPrefix (String a s) "*") eqn:E.
  { apply HasPrefix_spec in E as [u E]. by injection E as ->. }
  rewrite IH. destruct (Index s "*") as [i|]; done.
Qed.

Lemma Split_star s : Split s "*" = star_split s.
Proof.
  unfold Split. assert (Hf : forall fuel s, String.length s <= fuel -> split_go fuel s "*" = star_split s); [|by apply Hf].
  clear s. induction fuel as [|fuel IH]; intros s Hs; [by destruct s; [|simpl in Hs; lia]|].
  rewrite star_split_index. cbn [split_go]. destruct (Index s "*") as [i|] eqn:E; [|done].
  f_equal. apply IH. rewrite sdrop_length. simpl. lia.
Qed.

(** The parts after the first, found in the text one after the other, the last at its end. *)
Fixpoint placed (rest : string) (parts : list string) : Prop :=
  match parts with
  | [] => rest = ""
  | part :: parts => exists s t, rest = s +:+ part +:+ t /\ placed t parts
  end.

Lemma glob_parts p m : glob p m <->
  match star_split p with first :: parts => exists rest, m = first +:+ rest /\ placed rest parts | [] => False end.
Proof.
  revert m. induction p as [|a p IH]; intros m; cbn [star_split].
  - split; [inversion 1; by exists ""|]. intros (rest & -> & Hr). simpl in Hr. subst. constructor.
  - destruct (decide (a = star)) as [->|Ha].
    + split.
      * inversion 1 as [|? ? ? Hn|? s t Hg E1 E2]; [done|]. subst. exists (s +:+ t). split; [done|]. apply IH in Hg.
        destruct (star_split p) as [|first parts]; [done|]. destruct Hg as (rest & -> & Hr). by exists s, rest.
      * intros (rest & -> & Hr). rewrite sapp_nil_l. specialize (IH). destruct (star_split p) as [|first parts] eqn:E.
        -- destruct p; cbn [star_split] in E; [done|]. repeat case_match; done.
        -- destruct Hr as (s & t & -> & Hr). constructor. apply IH. eauto.
    + destruct (star_split p) as [|first parts] eqn:E.
      { destruct p; cbn [star_split] in E; [done|]. repeat case_match; done. }
      split.
      * inversion 1 as [|? ? s Hn Hg|]; subst; [|done]. apply IH in Hg as (rest & -> & Hr). by exists rest.
      * intros (rest & -> & Hr). simpl. constructor; [done|]. apply IH. eauto.
Qed.

Lemma HasSuffix_spec s suffix : HasSuffix s suffix = true <-> exists pre, s = pre +:+ suffix.
Proof.
  unfold HasSuffix. rewrite HasPrefix_spec. split; intros [t Ht].
  - exists (srev t). rewrite <-(srev_involutive s), Ht, srev_app, srev_involutive. done.
  - exists (srev t). by rewrite Ht, srev_app.
Qed.

Lemma placed_later s t part parts : placed t (part :: parts) -> placed (s +:+ t) (part :: parts).
Proof. intros (u & v & -> & Hv). exists (s +:+ u), v. by rewrite !sapp_assoc. Qed.

Lemma last_default (x y : string) l : default x (last (y :: l)) = default y (last l).
Proof. rewrite last_cons. by destruct (last l). Qed.

(** Taking each part where it is first found finds them all. *)
Lemma placed_found rest part parts :
  placed rest (part :: parts) -> match_parts rest (part :: parts) = true /\
  HasSuffix rest (default part (last parts)) = true.
Proof.
  revert rest part. induction parts as [|next parts IH]; intros rest part Hp.
  - destruct Hp as (s & t & -> & Ht). simpl in Ht. subst t. rewrite sapp_nil_r. split; [|apply HasSuffix_spec; eauto].
    cbn [match_parts]. case_decide; [done|]. destruct (Index _ _) eqn:E; [done|].
    by destruct (proj1 (Index_none _ _) E s ""); rewrite sapp_nil_r.
  - destruct Hp as (s & t & -> & Ht). rewrite last_default. change (match_parts ?r (part :: ?l)) with
      (if decide (part = "") then match_parts r l else
       match Index r part with None => false | Some idx => match_parts (sdrop (idx + String.length part) r) l end).
    assert (Hsuf : forall u, HasSuffix t (default next (last parts)) = true -> HasSuffix (u +:+ t) (default next (last parts)) = true).
    { intros u [v ->]%HasSuffix_spec. apply HasSuffix_spec. exists (u +:+ v). by rewrite sapp_assoc. }
    case_decide as He.
    + subst part. rewrite sapp_nil_l. split; [by apply IH, placed_later|]. by apply Hsuf, IH.
    + destruct (Index _ _) as [i|] eqn:E.
      2: { exfalso. by eapply (proj1 (Index_none _ _) E). }
      apply Index_some in E as (pre & post & [Hs Hmin] & ->).
      assert (Hle : String.length pre <= String.length s) by (by eapply Hmin).
      rewrite Hs, <-sapp_assoc, sdrop_app by (rewrite slength_app; done).
      assert (Hpost : exists u, post = u +:+ t).
      { rewrite <-!sapp_assoc in Hs. symmetry in Hs. destruct (sapp_split (pre +:+ part) post (s +:+ part) t Hs) as (u & _ & ->).
        - rewrite !slength_app. lia.
        - by exists u. }
      destruct Hpost as [u ->]. split; [by apply IH, placed_later|]. rewrite <-!sapp_assoc. by apply Hsuf, IH.
Qed.

Lemma suffix_part w rest q : HasSuffix (w +:+ rest) q = true -> String.length q <= String.length rest -> exists s, rest = s +:+ q.
Proof.
  intros [pre Hp]%HasSuffix_spec Hl. destruct (sapp_split w rest pre q Hp) as (m & _ & ->); [|eauto].
  assert (Hlen := f_equal String.length Hp). rewrite !slength_app in Hlen. lia.
Qed.

Lemma found_placed w rest part parts : match_parts rest (part :: parts) = true ->
  (default part (last parts) = "" \/ HasSuffix (w +:+ rest) (default part (last parts)) = true) -> placed rest (part :: parts).
Proof.
  revert w rest part. induction parts as [|next parts IH]; intros w rest part Hm Hs.
  - simpl in Hs. cbn [match_parts] in Hm. destruct Hs as [->|Hs]; [by exists rest, ""; rewrite !sapp_nil_r|].
    assert (Hl : String.length part <= String.length rest).
    { case_decide as He; [subst; simpl; lia|]. destruct (Index _ _) as [i|] eqn:E; [|done].
      apply Index_some in E as (pre & post & [-> _] & _). rewrite !slength_app. lia. }
    destruct (suffix_part w rest part Hs Hl) as [s ->]. exists s, "". by rewrite sapp_nil_r.
  - rewrite last_default in Hs. change (match_parts ?r (part :: ?l)) with
      (if decide (part = "") then match_parts r l else
       match Index r part with None => false | Some idx => match_parts (sdrop (idx + String.length part) r) l end) in Hm.
    case_decide as He.
    + subst part. exists "", rest. split; [done|]. by eapply IH.
    + destruct (Index _ _) as [i|] eqn:E; [|done]. apply Index_some in E as (pre & post & [-> _] & ->).
      rewrite <-sapp_assoc, sdrop_app in Hm by (rewrite slength_app; done). exists pre, post. split; [done|].
      apply (IH (w +:+ pre +:+ part)); [done|]. by rewrite !sapp_assoc.
Qed.

Lemma star_split_plain p : Contains p "*" = false -> star_split p = [p].
Proof. rewrite star_split_index. unfold Contains. by destruct (Index p "*"). Qed.

Lemma star_split_starred p : Contains p "*" = true -> exists first part parts, star_split p = first :: part :: parts.
Proof.
  rewrite star_split_index. unfold Contains. destruct (Index p "*") as [i|]; [|done]. intros _.
  rewrite star_split_index. destruct (Index _ _); eauto.
Qed.

(** C24 (equivalence): the rule of a model pattern is the usual one: the pattern
    matches when the model, both trimmed and in lower case and neither empty, can
    be divided so that every star stands for some text and every other byte for
    itself. *)
Theorem pattern_is_glob `{LT : LetterTable} pattern model :
  modelPatternMatches pattern model = true <->
  lowered (TrimSpace pattern) <> "" /\ lowered (TrimSpace model) <> "" /\
  glob (lowered (TrimSpace pattern)) (lowered (TrimSpace model)).
Proof.
  unfold modelPatternMatches. cbv zeta. generalize (lowered (TrimSpace pattern)) as p, (lowered (TrimSpace model)) as m. intros p m.
  destruct (decide (p = "" \/ m = "")) as [He|He]; [split; [done|tauto]|]. apply Decidable.not_or in He as [Hp Hm].
  rewrite Split_star. destruct (decide (p = "*" \/ p = m)) as [[->| ->]|Hn].
  - split; [|done]. intros _. split; [done|]. split; [done|]. rewrite <-(sapp_nil_r m). apply (glob_star "" m ""). constructor.
  - split; [|done]. intros _. split; [done|]. split; [done|]. apply glob_refl.
  - rewrite glob_parts. destruct (Contains p "*") eqn:Hc; cbn [negb]; cbv iota.
    + destruct (star_split_starred p Hc) as (first & part & parts & ->). cbv zeta. rewrite last_default. split.
      * destruct (HasPrefix m first) eqn:E; [|done]. apply HasPrefix_spec in E as [rest ->]. cbn [negb]. cbv iota.
        rewrite sdrop_app by done. destruct (match_parts rest (part :: parts)) eqn:Em; [|done]. cbn [negb]. cbv iota.
        intros Hs. split; [done|]. split; [done|]. exists rest. split; [done|]. eapply (found_placed first); [done|].
        apply orb_true_iff in Hs as [?%bool_decide_eq_true|?]; auto.
      * intros (_ & _ & rest & -> & Hr). apply placed_found in Hr as [H1 [pre H2]%HasSuffix_spec].
        assert (E : HasPrefix (first +:+ rest) first = true) by (apply HasPrefix_spec; eauto). rewrite E. cbn [negb]. cbv iota.
        rewrite sdrop_app, H1 by done. cbn [negb]. cbv iota. apply orb_true_iff. right. apply HasSuffix_spec.
        exists (first +:+ pre). by rewrite H2 at 1; rewrite sapp_assoc.
    + rewrite star_split_plain by done. split; [done|]. intros (_ & _ & rest & -> & ->). rewrite sapp_nil_r in Hn. tauto.
Qed.

(** ** Types of schema properties *)

(** The schemas directly inside an object schema. *)
Inductive inside : any_object -> gval -> Prop :=
| inside_property m ps n p : ("properties", GMap ps) ∈ m -> (n, p) ∈ ps -> inside m p
| inside_items m v : ("items", GMap v) ∈ m -> inside m (GMap v)
| inside_item m l v : ("items", GArr l) ∈ m -> v ∈ l -> inside m v
| inside_additional m v : ("additionalProperties", GMap v) ∈ m -> inside m (GMap v)
| inside_branch m k l v : k ∈ ["anyOf"; "oneOf"; "allOf"] -> (k, GArr l) ∈ m -> v ∈ l -> inside m v.

(** The schemas at any depth inside the parameters of a tool. *)
Inductive within (m : any_object) : gval -> Prop :=
| within_here v : inside m v -> within m v
| within_deeper m' v : within m (GMap m') -> inside m' v -> within m v.

Definition typed (v : gval) : Prop := match v with GMap m => lacks_type m = false | _ => True end.

Section types.
Context `{FC : FloatConversion}.

Definition entry_value (property : gval -> gval * bool) (k : string) (v : gval) : gval := (container_entry property (k, v)).1.2.

Lemma am_lookup_keyed {V W} (g : string -> V -> W) k m :
  am_lookup k (map (fun kv => (kv.1, g kv.1 kv.2)) m) = g k <$> am_lookup k m.
Proof. induction m as [|[k' v] m IH]; simpl; [done|]. case_decide as Hk; [by subst|apply IH]. Qed.

Lemma container_lookup m k : am_lookup k (normalizeSchemaContainer m).1 = entry_value normalizeSchemaProperty k <$> am_lookup k m.
Proof. rewrite <-am_lookup_keyed. unfold normalizeSchemaContainer, each_changed. cbn [fst]. f_equal. by apply map_ext; intros []. Qed.

Lemma container_elem m k v : (k, v) ∈ (normalizeSchemaContainer m).1 ->
  exists w, (k, w) ∈ m /\ v = entry_value normalizeSchemaProperty k w.
Proof. intros ([k' w] & [= -> ->] & Hw)%list_elem_of_fmap. eauto. Qed.

Lemma container_has_any m keys : has_any_key keys (normalizeSchemaContainer m).1 = has_any_key keys m.
Proof.
  unfold has_any_key. induction keys as [|k keys IH]; [done|]. cbn [existsb]. rewrite IH. f_equal. apply bool_decide_ext.
  rewrite container_lookup. apply fmap_is_Some.
Qed.

Lemma container_lacks m : lacks_type (normalizeSchemaContainer m).1 = lacks_type m.
Proof.
  unfold lacks_type, hasSchemaCombinator. rewrite container_has_any. f_equal. f_equal. apply bool_decide_ext.
  rewrite container_lookup. apply fmap_is_Some.
Qed.

Lemma entry_properties f v : entry_value f "properties" v =
  match v with GMap ps => GMap (map (fun p => (p.1, (f p.2).1)) ps) | _ => v end.
Proof. by destruct v. Qed.
Lemma entry_items f v : entry_value f "items" v =
  match v with GMap _ => (f v).1 | GArr l => GArr (map (fun x => (f x).1) l) | _ => v end.
Proof. by destruct v. Qed.
Lemma entry_additional f v : entry_value f "additionalProperties" v = match v with GMap _ => (f v).1 | _ => v end.
Proof. by destruct v. Qed.
Lemma entry_branches f k v : k ∈ ["anyOf"; "oneOf"; "allOf"] -> entry_value f k v =
  match v with GArr l => GArr (map (fun x => (f x).1) l) | _ => v end.
Proof. rewrite !elem_of_cons, elem_of_nil. intros [->|[->|[->|[]]]]; by destruct v. Qed.

Lemma property_eq m : normalizeSchemaProperty (GMap m) =
  if lacks_type m then (GMap (am_insert "type" (GStr (inferSchemaType m)) (normalizeSchemaContainer m).1), true)
  else with_map (normalizeSchemaContainer m).
Proof. unfold normalizeSchemaContainer. cbn [normalizeSchemaProperty]. by destruct (each_changed _ m). Qed.

Lemma property_map m : exists m' b, normalizeSchemaProperty (GMap m) = (GMap m', b).
Proof. rewrite property_eq. unfold with_map. destruct (lacks_type m); eauto. Qed.

Lemma inside_container m v : inside (normalizeSchemaContainer m).1 v -> exists u, inside m u /\ v = (normalizeSchemaProperty u).1.
Proof.
  assert (Hin : forall l : list gval, v ∈ map (fun x => (normalizeSchemaProperty x).1) l -> exists u, u ∈ l /\ v = (normalizeSchemaProperty u).1).
  { intros l (u & -> & Hu)%list_elem_of_fmap. eauto. }
  inversion 1 as [m' ps n p Hl Hp|m' u Hl|m' l u Hl Hu|m' u Hl|m' k l u Hk Hl Hu]; subst;
    apply container_elem in Hl as (w & Hw & Hl).
  - rewrite entry_properties in Hl. destruct w as [| | | | |ps']; try done. injection Hl as ->.
    apply list_elem_of_fmap in Hp as ([n' p'] & [= -> ->] & Hp). exists p'. split; [by eapply inside_property|done].
  - rewrite entry_items in Hl. destruct w as [| | | | |w]; try done. exists (GMap w). split; [by constructor|done].
  - rewrite entry_items in Hl. destruct w as [| | | |l'|w]; try done.
    + injection Hl as ->. destruct (Hin l' Hu) as (u' & Hu' & ->). exists u'. split; [by eapply inside_item|done].
    + destruct (property_map w) as (m' & b & E). by rewrite E in Hl.
  - rewrite entry_additional in Hl. destruct w as [| | | | |w]; try done. exists (GMap w). split; [by constructor|done].
  - rewrite entry_branches in Hl by done. destruct w as [| | | |l'|]; try done. injection Hl as ->.
    destruct (Hin l' Hu) as (u' & Hu' & ->). exists u'. split; [by eapply inside_branch|done].
Qed.

(** Inserting a type changes nothing inside. *)
Lemma inside_insert m x v : inside (am_insert "type" x m) v -> inside m v.
Proof.
  assert (Hne : forall k y, k <> "type" -> (k, y) ∈ am_insert "type" x m -> (k, y) ∈ m).
  { intros k y Hk [[= -> _]|?]%am_insert_elem; done. }
  inversion 1 as [m' ps n p Hl Hp|m' u Hl|m' l u Hl Hu|m' u Hl|m' k l u Hk Hl Hu]; subst; apply Hne in Hl; try done.
  - by eapply inside_property.
  - by constructor.
  - by eapply inside_item.
  - by constructor.
  - by eapply inside_branch.
  - set_solver.
Qed.

Lemma inside_property_of m m' v : (normalizeSchemaProperty (GMap m)).1 = GMap m' -> inside m' v ->
  exists u, inside m u /\ v = (normalizeSchemaProperty u).1.
Proof.
  rewrite property_eq. unfold with_map. destruct (lacks_type m); simpl; intros [= <-] Hi; [|by apply inside_container].
  by apply inside_container, (inside_insert _ (GStr (inferSchemaType m))).
Qed.

Lemma property_typed v : typed (normalizeSchemaProperty v).1.
Proof.
  destruct v as [| | | | |m]; try done. rewrite property_eq. destruct (lacks_type m) eqn:E; unfold with_map; cbn [fst typed].
  - unfold lacks_type. by rewrite am_lookup_insert.
  - by rewrite container_lacks.
Qed.

Lemma within_property m v : within (normalizeSchemaContainer m).1 v -> exists u, v = (normalizeSchemaProperty u).1.
Proof.
  induction 1 as [v Hi|m' v _ [u Hu] Hi].
  - apply inside_container in Hi as (u & _ & ->). eauto.
  - destruct u as [| | | | |m0]; try done. symmetry in Hu. eapply inside_property_of in Hu as (u & _ & ->); [|done]. eauto.
Qed.

(** ** Typed schemas stay *)

Definition all_typed (v : gval) : Prop := match v with GMap m => typed v /\ forall u, within m u -> typed u | _ => True end.
Definition stays_typed (v : gval) : Prop := all_typed v -> normalizeSchemaProperty v = (v, false).

Lemma each_same {A} (f : A -> A * bool) l : Forall (fun x => f x = (x, false)) l -> each_changed f l = (l, false).
Proof.
  intros Hl. unfold each_changed. f_equal.
  - induction Hl as [|x l Hx _ IH]; [done|]. simpl. by rewrite Hx, IH.
  - induction Hl as [|x l Hx _ IH]; [done|]. simpl. by rewrite Hx, IH.
Qed.

Lemma inside_all_typed m v : (forall u, within m u -> typed u) -> inside m v -> all_typed v.
Proof.
  intros Hm Hi. destruct v as [| | | | |m']; try done. split; [by apply Hm; constructor|].
  intros u Hu. apply Hm. induction Hu as [u Hu|m2 u _ IH Hu]; [eapply within_deeper; [by constructor|done]|by eapply within_deeper].
Qed.

Lemma container_stays m : (forall v, inside m v -> normalizeSchemaProperty v = (v, false)) -> normalizeSchemaContainer m = (m, false).
Proof.
  intros Hm. apply each_same, Forall_forall. intros [k v] Hin. unfold container_entry, at_key.
  case_decide as K1; [|case_decide as K2; [|case_decide as K3; [|case_decide as K4; [|done]]]]; subst.
  - destruct v as [| | | | |ps]; try done. rewrite each_same; [done|]. apply Forall_forall. intros [n p] Hp. simpl.
    by rewrite (Hm p) by (by eapply inside_property).
  - destruct v as [| | | |l|v]; try done.
    + rewrite each_same; [done|]. apply Forall_forall. intros x Hx. apply Hm. by eapply inside_item.
    + by rewrite Hm by (by constructor).
  - destruct v as [| | | | |v]; try done. by rewrite Hm by (by constructor).
  - destruct v as [| | | |l|]; try done. rewrite each_same; [done|]. apply Forall_forall. intros x Hx. apply Hm. by eapply inside_branch.
Qed.

(** Induction on the schemas inside a schema. *)
Lemma schema_ind (P : gval -> Prop) : (forall v, (forall m, v <> GMap m) -> P v) ->
  (forall m, (forall u, inside m u -> P u) -> P (GMap m)) -> forall v, P v.
Proof.
  intros Hv Hm v.
  assert (H : P v /\ match v with GArr l => Forall P l | GMap m => Forall (fun kv => P kv.2) m | _ => True end); [|tauto].
  induction v as [| | | |l IH|m IH] using gval_nested_ind; try (split; [by apply Hv|done]).
  - split; [by apply Hv|]. eapply Forall_impl; [exact IH|]. by intros ? [? _].
  - split; [|eapply Forall_impl; [exact IH|]; by intros ? [? _]]. apply Hm. intros u Hu. rewrite Forall_forall in IH.
    inversion Hu as [m' ps n p Hl Hp|m' w Hl|m' l w Hl Hx|m' w Hl|m' k l w Hk Hl Hx]; subst; destruct (IH _ Hl) as [I1 I2]; simpl in I1, I2;
      try done; rewrite Forall_forall in I2; [by apply (I2 (n, u))|by apply I2..].
Qed.

Lemma typed_stays v : stays_typed v.
Proof.
  induction v as [v Hv|m IH] using schema_ind.
  - intros _. destruct v as [| | | | |m]; try done. by destruct (Hv m).
  - intros [Ht Hw]. rewrite property_eq. simpl in Ht. rewrite Ht. rewrite container_stays; [done|].
    intros u Hu. by apply IH, (inside_all_typed m).
Qed.

Lemma each_unchanged {A} (f : A -> A * bool) l : (forall x, x ∈ l -> (f x).2 = false -> (f x).1 = x) ->
  (each_changed f l).2 = false -> (each_changed f l).1 = l.
Proof.
  unfold each_changed. simpl. induction l as [|x l IH]; intros Hf; [done|]. simpl. intros [Hx Hl]%orb_false_iff.
  rewrite Hf, IH; [done| |done|by left|done]. intros y Hy. apply Hf. by right.
Qed.

Definition kept_same (v : gval) : Prop := (normalizeSchemaProperty v).2 = false -> (normalizeSchemaProperty v).1 = v.

Lemma container_unchanged m : (forall v, inside m v -> kept_same v) ->
  (normalizeSchemaContainer m).2 = false -> (normalizeSchemaContainer m).1 = m.
Proof.
  intros Hm. apply each_unchanged. intros [k v] Hin. unfold container_entry, at_key. cbn [fst snd]. intros Hc. f_equal. revert Hc.
  case_decide as K1; [|case_decide as K2; [|case_decide as K3; [|case_decide as K4; [|done]]]]; subst.
  - destruct v as [| | | | |ps]; try done. intros Hc. unfold with_map. cbn [fst]. f_equal. apply each_unchanged; [|done].
    intros [n p] Hp. cbn [fst snd]. intros Hp2. f_equal. by apply (Hm p); [eapply inside_property|].
  - destruct v as [| | | |l|v]; try done.
    + intros Hc. unfold with_arr. cbn [fst]. f_equal. apply each_unchanged; [|done]. intros x Hx. apply Hm. by eapply inside_item.
    + apply Hm. by constructor.
  - destruct v as [| | | | |v]; try done. apply Hm. by constructor.
  - destruct v as [| | | |l|]; try done. intros Hc. unfold with_arr. cbn [fst]. f_equal. apply each_unchanged; [|done].
    intros x Hx. apply Hm. by eapply inside_branch.
Qed.

Lemma property_unchanged v : kept_same v.
Proof.
  induction v as [v Hv|m IH] using schema_ind; unfold kept_same.
  - destruct v as [| | | | |m]; try done. by destruct (Hv m).
  - rewrite property_eq. destruct (lacks_type m); [done|]. unfold with_map. cbn [fst snd]. intros Hc. f_equal. by apply container_unchanged.
Qed.
End types.

(** C25 (functional): after the types of tool parameters were completed, every
    schema at any depth that the walk reaches (properties, items, additional
    properties and branches) has a type or is a combination or a reference; the
    keys of an object are those it had, and completing them again changes
    nothing. *)
Theorem parameters_typed `{FC : FloatConversion} parameters :
  let completed := (normalizeSchemaContainer parameters).1 in
  (forall v, within completed v -> typed v) /\
  map fst completed = map fst parameters /\
  normalizeSchemaContainer completed = (completed, false) /\
  ((normalizeSchemaContainer parameters).2 = false -> completed = parameters).
Proof.
  cbv zeta. split_and!.
  - intros v [u ->]%within_property. apply property_typed.
  - unfold normalizeSchemaContainer, each_changed. cbn [fst]. rewrite map_map. by apply map_ext; intros [].
  - apply container_stays. intros v Hv. apply typed_stays. eapply inside_all_typed; [|exact Hv].
    intros u [w ->]%within_property. apply property_typed.
  - apply container_unchanged. intros v _. apply property_unchanged.
Qed.

(** ** Fields that json.Marshal can write *)

Definition good_fields (fields : raw_object) : Prop :=
  am_sorted fields = true /\ Forall (fun kv => valid_utf8 kv.1 = true /\ escapable kv.2) fields.

Lemma good_insert k v fields : valid_utf8 k = true -> escapable v -> good_fields fields -> good_fields (am_insert k v fields).
Proof.
  intros Hk Hv [Hs Hf]. split; [by apply am_insert_sorted|]. apply Forall_forall.
  intros [k' v'] [[= -> ->]|Hin]%am_insert_elem; [done|]. rewrite Forall_forall in Hf. by apply (Hf (k', v')).
Qed.

Lemma good_delete k fields : good_fields fields -> good_fields (am_delete k fields).
Proof.
  intros [Hs Hf]. split; [by apply am_delete_sorted|]. clear Hs.
  induction Hf as [|[k' v] fields Hv Hf IH]; simpl; [constructor|]. case_decide; [done|]. by constructor.
Qed.

Lemma good_lookup k v fields : good_fields fields -> am_lookup k fields = Some v -> escapable v.
Proof. intros [_ Hf] Hk%am_lookup_elem. rewrite Forall_forall in Hf. by apply (Hf (k, v)). Qed.

(** Written once, a value is written the same again. *)
Definition settled (t : json) : Prop := jesc t = t /\ jwf t = true.

Lemma settled_escapable t : settled t -> escapable t.
Proof. by right. Qed.

Lemma escapable_jesc t : escapable t -> settled (jesc t).
Proof. intros He. split; [|by apply escapable_jwf]. destruct He as [H|[H _]]; [by apply jesc_idemp|by rewrite H]. Qed.

Lemma escapable_string t : escapable t -> string_of (jesc t) = string_of t.
Proof. intros [H|[-> _]]; [by apply string_of_jesc|done]. Qed.

Lemma settled_of_any v : settled (of_any v).
Proof. split; [apply jesc_of_any|apply of_any_wf]. Qed.

Lemma escapable_fields t fields : escapable t -> raw_map t = Some fields -> good_fields fields.
Proof. apply escapable_members. Qed.

Definition good_objects (l : list (option raw_object)) : Prop := Forall (from_option good_fields True) l.

Lemma escapable_objects t l : escapable t -> raw_objects t = Some l -> good_objects l.
Proof.
  intros He Hl. destruct t as [| | | |items|]; try done; simpl in Hl; [injection Hl as <-; constructor|].
  assert (Hi : Forall escapable items).
  { destruct He as [Hok%jok_arr|[[= He] Hw]]; [eapply Forall_impl; [exact Hok|]; by left|]. simpl in Hw. clear Hl.
    revert He Hw. induction items as [|x items IH]; [constructor|]. simpl. intros [= Hx Hl] [Hw1 Hw2]%andb_true_iff.
    constructor; [by right|by apply IH]. }
  apply opt_map_Some in Hl. clear He. induction Hl as [|x y items l Hx Hl IH]; [constructor|]. inversion Hi as [|? ? Hex Hes]; subst.
  constructor; [|by apply IH]. destruct x as [| | | | |m]; try done; [by injection Hx as <-|].
  apply fmap_Some in Hx as (fields & Hf & ->). by apply (escapable_fields (JObj m)).
Qed.

Lemma settled_objects l : good_objects l -> settled (raw_objects_json l).
Proof.
  intros Hl. split.
  - unfold raw_objects_json. cbn [jesc]. f_equal. rewrite map_map. apply map_ext_in. intros [m|] Hin%list_elem_of_In; [|done].
    unfold good_objects in Hl. rewrite Forall_forall in Hl. destruct (Hl _ Hin) as [_ Hm]. unfold raw_map_json. cbn [from_option jesc].
    f_equal. rewrite map_map. apply map_ext_in. intros [k v] Hkv%list_elem_of_In. rewrite Forall_forall in Hm. apply Hm in Hkv as [_ Hv].
    cbn [fst snd]. rewrite esc_lit_encode. f_equal. by apply escapable_jesc.
  - unfold raw_objects_json. cbn [jwf]. apply forallb_forall. intros t (m & <- & Hin%list_elem_of_In)%in_map_iff.
    unfold good_objects in Hl. rewrite Forall_forall in Hl. specialize (Hl _ Hin). destruct m as [m|]; [|done].
    destruct Hl as [Hs Hm]. by apply raw_map_json_read.
Qed.

Lemma settled_any_objects l : settled (any_objects_json l).
Proof.
  unfold any_objects_json. split.
  - cbn [jesc]. f_equal. rewrite map_map. apply map_ext. intros [m|]; [apply (jesc_of_any (GMap m))|done].
  - cbn [jwf]. apply forallb_forall. intros t (m & <- & _)%in_map_iff. destruct m as [m|]; [apply (of_any_wf (GMap m))|done].
Qed.

(** ** One step of a rule *)

(** The fields afterwards can be written, and only those of [keys] differ. *)
Definition changes (keys : list string) (before after : raw_object) : Prop :=
  (good_fields before -> good_fields after) /\ forall k, k ∉ keys -> am_lookup k after = am_lookup k before.

Lemma changes_none keys fields : changes keys fields fields.
Proof. done. Qed.

Lemma changes_trans keys a b c : changes keys a b -> changes keys b c -> changes keys a c.
Proof. intros [G1 L1] [G2 L2]. split; [auto|]. intros k Hk. by rewrite L2, L1. Qed.

Lemma changes_insert keys k v fields : k ∈ keys -> valid_utf8 k = true -> (good_fields fields -> escapable v) -> changes keys fields (am_insert k v fields).
Proof.
  intros Hk Hu Hv. split; [intros Hg; apply good_insert; auto|]. intros k' Hk'. apply am_lookup_insert_ne. by intros ->.
Qed.

Lemma changes_delete keys k fields : k ∈ keys -> changes keys fields (am_delete k fields).
Proof. intros Hk. split; [apply good_delete|]. intros k' Hk'. apply am_lookup_delete_ne. by intros ->. Qed.

Definition messages_keys := ["messages"].
Definition tools_keys := ["tools"].
Definition schema_keys := ["messages"; "response_format"; "json_schema"; "structured_outputs"].

Lemma good_remapped l : good_objects l -> good_objects (map remap_message l).
Proof.
  unfold good_objects. intros Hl. apply Forall_map. eapply Forall_impl; [exact Hl|]. intros [m|] Hm; unfold remap_message; case_decide; try done.
  apply good_insert; [done| |done]. by left.
Qed.

Lemma remap_changes rule body p p' : apply_remap rule body p = Ok p' -> changes messages_keys p.1 p'.1.
Proof.
  destruct p as [fields c]. unfold apply_remap. destruct (rl_RemapDeveloperRole rule); [|by intros [= <-]]. simpl negb. cbv iota.
  intros (remapped & Hr & [= <-])%res_bind_ok. unfold remapDeveloperMessages in Hr.
  destruct (am_lookup "messages" fields) as [t|] eqn:Et; [|by injection Hr as <-].
  destruct (raw_objects t) as [l|] eqn:El; [|done]. case_decide; injection Hr as <-; [|done].
  apply changes_insert; [by left|done|]. intros Hg. apply settled_escapable, settled_objects, good_remapped.
  eapply escapable_objects; [|done]. by eapply good_lookup.
Qed.

Lemma thinking_changes rule p : changes ["thinking"] p.1 (apply_thinking rule p).1.
Proof.
  destruct p as [fields c]. unfold apply_thinking. case_decide; [|done]. apply changes_insert; [by left|done|]. by left.
Qed.

Lemma max_tokens_changes rule p : changes ["max_tokens"] p.1 (apply_max_tokens rule p).1.
Proof.
  destruct p as [fields c]. unfold apply_max_tokens. case_decide; [|done]. apply changes_insert; [by left|done|]. intros _.
  left. unfold json_int, jok. simpl. rewrite int_text_valid. done.
Qed.

Lemma prepend_settled raw instruction t : (forall m, raw = Some m -> escapable m) -> prependSystemInstruction raw instruction = Ok t -> settled t.
Proof.
  intros He. unfold prependSystemInstruction. destruct raw as [m|]; [|done]. simpl. destruct (raw_objects m) as [l|] eqn:El; [|done].
  pose proof (escapable_objects m l (He m eq_refl) El) as Hl.
  assert (Hjs : forall s, escapable (json_str s)) by (intros s; apply settled_escapable, (settled_of_any (GStr s))).
  assert (Hown : settled (raw_objects_json (Some (instruction_message instruction) :: l))).
  { apply settled_objects. constructor; [|done].
    change (good_fields (am_insert "content" (json_str instruction) (am_insert "role" (JStr "system") []))).
    apply good_insert; [done|apply Hjs|]. apply good_insert; [done|by left|done]. }
  destruct l as [|[first|] rest]; [by intros [= <-]| |by intros [= <-]]. inversion Hl as [|? ? Hf Hr]; subst. simpl in Hf.
  case_decide; [|by intros [= <-]].
  assert (Hins : forall s, settled (raw_objects_json (Some (am_insert "content" (json_str s) first) :: rest))).
  { intros s. apply settled_objects. constructor; [by apply good_insert|done]. }
  destruct (is_blank_raw _); [by intros [= <-]|]. destruct (am_lookup "content" first ≫= string_of); by intros [= <-].
Qed.

Lemma json_schema_changes rule p p' : apply_json_schema rule p = Ok p' -> changes schema_keys p.1 p'.1.
Proof.
  destruct p as [fields c]. unfold apply_json_schema. destruct (bool_decide _); [|by intros [= <-]]. simpl negb. cbv iota.
  intros (downgraded & Hd & Hr)%res_bind_ok. destruct downgraded as [[format instruction]|]; [|by injection Hr as <-].
  assert (Hform : format = json_object_format).
  { unfold downgradeJSONSchemaToJSONObjectInstruction in Hd. repeat case_match; try done; by injection Hd. }
  subst format. cbv zeta in Hr. apply res_bind_ok in Hr as (messages & Hm & [= <-]). cbn [fst].
  set (fields' := am_delete _ _) in *.
  assert (Hc : changes schema_keys fields fields').
  { unfold fields'. eapply changes_trans; [|apply changes_delete; set_solver]. eapply changes_trans; [|apply changes_delete; set_solver].
    apply changes_insert; [set_solver|done|]. by left. }
  eapply changes_trans; [exact Hc|]. apply changes_insert; [by left|done|]. intros Hg. apply settled_escapable.
  eapply prepend_settled; [|exact Hm]. intros m Hl. by eapply good_lookup.
Qed.

Lemma rewrite_tools_settled f raw t : rewrite_tools f raw = Ok (Some t) -> settled t.
Proof.
  unfold rewrite_tools. intros H. repeat case_match; simplify_eq; apply settled_any_objects.
Qed.

Lemma types_changes `{FC : FloatConversion} rule p p' : apply_types rule p = Ok p' -> changes tools_keys p.1 p'.1.
Proof.
  destruct p as [fields c]. unfold apply_types. destruct (rl_EnsureToolParameterPropertyTypes rule); [|by intros [= <-]]. simpl negb. cbv iota.
  intros (normalized & Hn & [= <-])%res_bind_ok. destruct normalized as [tools|]; [|done].
  apply changes_insert; [by left|done|]. intros _. by eapply settled_escapable, rewrite_tools_settled.
Qed.

Lemma moonshot_changes rule p p' : apply_moonshot rule p = Ok p' -> changes tools_keys p.1 p'.1.
Proof.
  destruct p as [fields c]. unfold apply_moonshot. destruct (rl_SanitizeMoonshotToolSchema rule); [|by intros [= <-]]. simpl negb. cbv iota.
  intros (normalized & Hn & [= <-])%res_bind_ok. destruct normalized as [tools|]; [|done].
  apply changes_insert; [by left|done|]. intros _. by eapply settled_escapable, rewrite_tools_settled.
Qed.

Lemma omit_changes rule p p' : apply_omit rule p = Ok p' -> changes messages_keys p.1 p'.1.
Proof.
  destruct p as [fields c]. unfold apply_omit. destruct (rl_OmitEmptyAssistantToolContent rule); [|by intros [= <-]]. simpl negb. cbv iota.
  intros (normalized & Hn & [= <-])%res_bind_ok. destruct normalized as [[messages omitted]|]; [|done].
  apply changes_insert; [by left|done|]. intros _. apply settled_escapable. unfold omitEmptyAssistantToolCallContent in Hn.
  repeat case_match; simplify_eq; apply settled_any_objects.
Qed.

(** ** Roles of messages *)

Definition no_developer (raw : option json) : Prop :=
  forall t messages, raw = Some t -> raw_objects t = Some messages -> Forall (fun m => raw_role m <> Some "developer") messages.

(** Reading the messages back gives the same roles. *)
Definition same_role (m m' : option raw_object) : Prop := raw_role m' = raw_role m.

Lemma role_written m : good_fields m -> same_role (Some m) (Some (map (fun kv => (kv.1, jesc kv.2)) m)).
Proof.
  intros Hm. unfold same_role, raw_role. simpl. rewrite am_lookup_map. destruct (am_lookup "role" m) as [r|] eqn:E; [|done]. simpl.
  eapply escapable_string, good_lookup; done.
Qed.

Lemma objects_read l : good_objects l -> exists l', raw_objects (raw_objects_json l) = Some l' /\ Forall2 same_role l l'.
Proof.
  intros Hl. unfold raw_objects_json. cbn [raw_objects]. induction Hl as [|m l Hm _ (l' & IH & Hr)]; [by exists []|]. cbn [map opt_map].
  rewrite IH. destruct m as [m|]; [|by exists (None :: l'); split; [|constructor]]. simpl in Hm. destruct Hm as [Hs Hf].
  destruct (raw_map_json_read m Hs Hf) as [_ Hread]. cbn [from_option].
  change (raw_object_of (raw_map_json m)) with (Some <$> raw_map (raw_map_json m)). rewrite Hread. simpl.
  eexists. split; [done|]. constructor; [|done]. by apply role_written.
Qed.

Lemma objects_jesc t l' : escapable t -> raw_objects (jesc t) = Some l' -> exists l, raw_objects t = Some l /\ Forall2 same_role l l'.
Proof.
  intros [Hok|[-> _]] Hl; [|exists l'; split; [done|]; clear; induction l' as [|m l' IH]; by constructor].
  destruct t as [| | | |items|]; try done; simpl in Hl; [by injection Hl as <-; exists []|]. apply jok_arr in Hok.
  revert l' Hl. induction Hok as [|x items Hx _ IH]; intros l' Hl; [injection Hl as <-; by exists []|]. simpl in Hl.
  apply bind_Some in Hl as (m' & Hm & Hl). apply bind_Some in Hl as (l2 & Hl2 & [= <-]).
  destruct (IH l2 Hl2) as (l & El & Hr). simpl in El |- *. rewrite El.
  destruct x as [| | | | |ms]; try done; [injection Hm as <-; exists (None :: l); split; [done|by constructor]|].
  change (jesc (JObj ms)) with (JObj (map (fun kv => (esc_lit kv.1, jesc kv.2)) ms)) in Hm.
  assert (Hmm : Some <$> raw_map (jesc (JObj ms)) = Some m') by exact Hm. rewrite raw_map_jesc in Hmm by done.
  simpl raw_map in Hmm. injection Hmm as <-. simpl. eexists. split; [done|]. constructor; [|done]. apply role_written.
  by apply (escapable_fields (JObj ms)); [left|].
Qed.

Lemma no_developer_roles l l' : Forall2 same_role l l' -> Forall (fun m => raw_role m <> Some "developer") l ->
  Forall (fun m => raw_role m <> Some "developer") l'.
Proof. intros Hr Hl. induction Hr as [|m m' l l' Hm _ IH]; [done|]. inversion Hl; subst. constructor; [by rewrite Hm|auto]. Qed.

Lemma no_developer_objects l : good_objects l -> Forall (fun m => raw_role m <> Some "developer") l -> no_developer (Some (raw_objects_json l)).
Proof.
  intros Hg Hl t ms [= <-] Hms. destruct (objects_read l Hg) as (l' & Hl' & Hr). rewrite Hl' in Hms. injection Hms as <-.
  by eapply no_developer_roles.
Qed.

Lemma no_developer_jesc t : escapable t -> no_developer (Some t) -> no_developer (Some (jesc t)).
Proof.
  intros He Hn t' ms [= <-] Hms. destruct (objects_jesc t ms He Hms) as (l & Hl & Hr). eapply no_developer_roles; [exact Hr|]. by eapply Hn.
Qed.

Lemma remap_no_developer rule body p p' : good_fields p.1 -> apply_remap rule body p = Ok p' -> rl_RemapDeveloperRole rule = true ->
  no_developer (am_lookup "messages" p'.1).
Proof.
  destruct p as [fields c]. cbn [fst]. intros Hg Ha Hr. unfold apply_remap in Ha. rewrite Hr in Ha. simpl negb in Ha. cbv iota in Ha.
  apply res_bind_ok in Ha as (remapped & Hm & [= <-]). unfold remapDeveloperMessages in Hm.
  destruct (am_lookup "messages" fields) as [t|] eqn:Et; [|injection Hm as <-; simpl; by rewrite Et].
  destruct (raw_objects t) as [l|] eqn:El; [|done]. pose proof (escapable_objects t l (good_lookup _ _ _ Hg Et) El) as Hl.
  case_decide as Hd; injection Hm as <-; cbn [fst].
  - rewrite am_lookup_insert. apply no_developer_objects; [by apply good_remapped|]. apply Forall_map, Forall_forall. intros m _.
    unfold remap_message. case_decide as Hdev; [|done]. destruct m as [m|]; [|done]. unfold raw_role. simpl. by rewrite am_lookup_insert.
  - rewrite Et. intros t' ms [= <-]. rewrite El. intros [= <-]. by apply Forall_Exists_neg.
Qed.

Lemma prepend_no_developer raw instruction t : (forall m, raw = Some m -> escapable m) -> no_developer raw ->
  prependSystemInstruction raw instruction = Ok t -> no_developer (Some t).
Proof.
  intros He Hn. unfold prependSystemInstruction. destruct raw as [m|]; [|done]. simpl. destruct (raw_objects m) as [l|] eqn:El; [|done].
  pose proof (escapable_objects m l (He m eq_refl) El) as Hl. pose proof (Hn m l eq_refl El) as Hd.
  assert (Hjs : forall s, escapable (json_str s)) by (intros s; apply settled_escapable, (settled_of_any (GStr s))).
  assert (Hown : no_developer (Some (raw_objects_json (Some (instruction_message instruction) :: l)))).
  { apply no_developer_objects; [|by constructor]. constructor; [|done].
    change (good_fields (am_insert "content" (json_str instruction) (am_insert "role" (JStr "system") []))).
    apply good_insert; [done|apply Hjs|]. apply good_insert; [done|by left|done]. }
  destruct l as [|[first|] rest]; [by intros [= <-]| |by intros [= <-]]. inversion Hl as [|? ? Hf Hr]; subst. inversion Hd as [|? ? Hd1 Hd2]; subst.
  simpl in Hf. case_decide; [|by intros [= <-]].
  assert (Hins : forall s, no_developer (Some (raw_objects_json (Some (am_insert "content" (json_str s) first) :: rest)))).
  { intros s. apply no_developer_objects; [constructor; [by apply good_insert|done]|]. constructor; [|done].
    unfold raw_role in *. simpl in *. by rewrite am_lookup_insert_ne. }
  destruct (is_blank_raw _); [by intros [= <-]|]. destruct (am_lookup "content" first ≫= string_of); by intros [= <-].
Qed.

Lemma json_schema_no_developer rule p p' : good_fields p.1 -> apply_json_schema rule p = Ok p' ->
  no_developer (am_lookup "messages" p.1) -> no_developer (am_lookup "messages" p'.1).
Proof.
  destruct p as [fields c]. cbn [fst]. intros Hg. unfold apply_json_schema. destruct (bool_decide _); [|by intros [= <-]]. simpl negb. cbv iota.
  intros (downgraded & Hd & Hr)%res_bind_ok Hn. destruct downgraded as [[format instruction]|]; [|by injection Hr as <-].
  cbv zeta in Hr. apply res_bind_ok in Hr as (messages & Hm & [= <-]). cbn [fst]. rewrite am_lookup_insert.
  rewrite !am_lookup_delete_ne, am_lookup_insert_ne in Hm by done.
  eapply prepend_no_developer; [|exact Hn|exact Hm]. intros m Hl. by eapply good_lookup.
Qed.

(** A value decoded twice: as text and as any. *)
Lemma string_of_any v : gwf v = true -> string_of (of_any v) = Some "developer" -> v = GStr "developer".
Proof.
  destruct v as [| | |s| |]; try done. simpl. intros Hs [= H]. by rewrite unquote_encode_valid in H; [f_equal|].
Qed.

Lemma omit_content_role x o fields : any_map x = Some o -> raw_map x = Some fields -> raw_role (Some fields) <> Some "developer" ->
  exists m', raw_object_of (from_option (fun m => of_any (GMap m)) JNull (omit_content o)) = Some m' /\
    raw_role m' <> Some "developer".
Proof.
  intros Ho Hf Hr. destruct o as [m|]; [|by exists None]. set (m2 := if omits_content m then am_delete "content" m else m).
  assert (Hw : gwf_map m2 = true) by (unfold m2; destruct (omits_content m); [apply gwf_map_delete|]; by apply (any_map_gwf x)).
  assert (Hl : am_lookup "role" m2 = am_lookup "role" m) by (unfold m2; destruct (omits_content m); [by apply am_lookup_delete_ne|done]).
  change (omit_content (Some m)) with (Some m2). cbn [from_option].
  change (raw_object_of (of_any (GMap m2))) with (Some <$> raw_map (of_any (GMap m2))). rewrite raw_map_of_any by done.
  eexists. split; [done|]. intros Hd. apply Hr. unfold raw_role in *. simpl in *. rewrite am_lookup_map, Hl in Hd.
  rewrite (any_lookup _ _ _ _ Ho Hf) in Hd. destruct (am_lookup "role" fields) as [r|]; [|done]. simpl in *.
  destruct (any_of r) as [v|] eqn:Ev; [|done]. simpl in Hd. apply string_of_any in Hd; [|by apply (any_of_gwf r)]. subst v.
  destruct r; simpl in Ev; try done; [by destruct (literal_float _)|injection Ev as Ev; simpl; by rewrite Ev|by destruct (opt_map _ _)..].
Qed.

Lemma omit_no_developer rule p p' : apply_omit rule p = Ok p' -> no_developer (am_lookup "messages" p.1) -> no_developer (am_lookup "messages" p'.1).
Proof.
  destruct p as [fields c]. cbn [fst]. unfold apply_omit. destruct (rl_OmitEmptyAssistantToolContent rule); [|by intros [= <-]]. simpl negb. cbv iota.
  intros (normalized & Hn & [= <-])%res_bind_ok Hd. destruct normalized as [[messages omitted]|]; [|done]. cbn [fst]. rewrite am_lookup_insert.
  unfold omitEmptyAssistantToolCallContent in Hn. destruct (am_lookup "messages" fields) as [t|]; [|done].
  assert (Ht : exists items l, t = JArr items /\ opt_map any_map items = Some l /\ messages = any_objects_json (map omit_content l)).
  { destruct t as [| | | |items|]; try done. cbn [any_objects] in Hn.
    destruct (opt_map any_map items) as [l|] eqn:El; [|done]. cbv zeta in Hn. destruct (_ =? 0)%Z; [done|]. injection Hn as <- _.
    by exists items, l. }
  destruct Ht as (items & l & -> & Hl & ->). clear Hn. specialize (Hd (JArr items)).
  assert (Hi : exists ms, raw_objects (JArr items) = Some ms).
  { clear -Hl. simpl. revert l Hl. induction items as [|x items IH]; intros l Hl; [by exists []|]. simpl in Hl |- *.
    apply bind_Some in Hl as (o & Ho & (l2 & Hl2 & _)%bind_Some). destruct (IH l2 Hl2) as [ms ->].
    destruct x; try done; by eexists. }
  destruct Hi as [ms Hms]. specialize (Hd ms eq_refl Hms). intros t ms' [= <-]. unfold any_objects_json. cbn [raw_objects] in Hms |- *. clear fields c rule omitted.
  revert l ms ms' Hl Hms Hd. induction items as [|x items IH]; intros l ms ms' Hl Hms Hd.
  - injection Hl as <-. intros [= <-]. constructor.
  - simpl in Hl, Hms. apply bind_Some in Hl as (o & Ho & (l2 & Hl2 & [= <-])%bind_Some).
    apply bind_Some in Hms as (m & Hm & (ms2 & Hms2 & [= <-])%bind_Some). inversion Hd as [|? ? Hd1 Hd2]; subst.
    assert (Hx : exists fields, raw_map x = Some fields /\ raw_role (Some fields) <> Some "developer").
    { destruct x as [| | | | |mem]; try done; [by exists []|]. injection Hm as <-. eauto. }
    destruct Hx as (fields & Hf & Hr). destruct (omit_content_role x o fields Ho Hf Hr) as (m' & Hm' & Hr').
    cbn [map opt_map]. rewrite Hm'. simpl. intros (l3 & Hl3 & [= <-])%bind_Some. constructor; [done|]. by eapply IH.
Qed.

(** ** What becomes of messages and tools *)

(** A value decoded and encoded again, any number of times, as a raw message or as a
    value of type any. *)
Inductive reencoded (t : json) : json -> Prop :=
| re_same : reencoded t t
| re_raw t' : reencoded t t' -> reencoded t (jesc t')
| re_any t' v : reencoded t t' -> any_of t' = Some v -> reencoded t (of_any v).

Lemma reencoded_trans t t' t'' : reencoded t t' -> reencoded t' t'' -> reencoded t t''.
Proof. intros H. induction 1; [done|by constructor|by econstructor]. Qed.

(** A field is kept: absent on both sides, or the same value. *)
Definition same_field (k : string) (m m' : raw_object) : Prop := option_Forall2 reencoded (am_lookup k m) (am_lookup k m').

Definition both (R : raw_object -> raw_object -> Prop) (m m' : option raw_object) : Prop :=
  match m, m' with None, None => True | Some m, Some m' => R m m' | _, _ => False end.

(** An assistant message with tool calls and without content of its own. *)
Definition empty_content (m : raw_object) : Prop :=
  let value k := am_lookup k m ≫= any_of in
  trimmed_string (value "role") = "assistant" /\ hasToolCalls (value "tool_calls") = true /\
  exists content, value "content" = Some content /\ isEmptyAssistantToolCallContent content = true.

(** A message is kept, except that the role developer becomes system and an empty
    content is left out, each when the rule says so. *)
Definition kept_message (rule : ChatCompletionRule) (m m' : raw_object) : Prop :=
  (forall k, k ∉ ["role"; "content"] -> same_field k m m') /\
  (same_field "role" m m' \/
   rl_RemapDeveloperRole rule = true /\ raw_role (Some m) = Some "developer" /\ raw_role (Some m') = Some "system") /\
  (same_field "content" m m' \/
   rl_OmitEmptyAssistantToolContent rule = true /\ empty_content m /\ am_lookup "content" m' = None).

(** The messages with the instruction: in a message of its own before them, or before
    the text of the system message they start with. *)
Inductive instructed (rule : ChatCompletionRule) (instruction : string) (ms : list (option raw_object)) : list (option raw_object) -> Prop :=
| in_front : instructed rule instruction ms (Some (instruction_message instruction) :: ms)
| in_first first rest text : ms = Some first :: rest ->
    (raw_role (Some first) = Some "system" \/ rl_RemapDeveloperRole rule = true /\ raw_role (Some first) = Some "developer") ->
    (is_blank_raw (am_lookup "content" first) = true /\ text = instruction \/
     exists content, am_lookup "content" first ≫= string_of = Some content /\ text = instruction +:+ line_feed +:+ line_feed +:+ content) ->
    instructed rule instruction ms (Some (am_insert "content" (json_str text) first) :: rest).

(** The instruction that takes the place of a JSON schema, when the rule says so. *)
Definition schema_replaced (rule : ChatCompletionRule) (fields : raw_object) : option string :=
  if decide (rl_JSONSchemaMode rule = JSONSchemaModeObjectInstruction) then
    format ← am_lookup "response_format" fields ≫= raw_map;
    if decide (am_lookup "type" format ≫= string_of = Some "json_schema") then Some (schema_instruction (schema_of format)) else None
  else None.

Definition messages_kept (rule : ChatCompletionRule) (instruction : option string) (ms ms' : list (option raw_object)) : Prop :=
  exists ms1, match instruction with None => ms1 = ms | Some text => instructed rule text ms ms1 end /\
    Forall2 (both (kept_message rule)) ms1 ms'.

(** One pass over the tools: only the parameters of functions may change, to what [g] makes of them. *)
Definition tool_pass (enabled : bool) (g : any_object -> gval) (m m' : raw_object) : Prop :=
  (forall k, k <> "function" -> same_field k m m') /\
  (same_field "function" m m' \/
   enabled = true /\ exists f p t', am_lookup "function" m ≫= any_of = Some (GMap f) /\ am_lookup "parameters" f = Some (GMap p) /\
     am_lookup "function" m' = Some t' /\ reencoded (of_any (GMap (am_insert "parameters" (g p) f))) t').

Definition tools_kept `{FC : FloatConversion} (rule : ChatCompletionRule) (ts ts' : list (option raw_object)) : Prop :=
  exists ts1, Forall2 (both (tool_pass (rl_EnsureToolParameterPropertyTypes rule) (fun p => GMap (normalizeSchemaContainer p).1))) ts ts1 /\
    Forall2 (both (tool_pass (rl_SanitizeMoonshotToolSchema rule) (fun p => (sanitizeMoonshotSchemaNode (GMap p)).1))) ts1 ts'.

(** A list of objects and what is made of it; a value that is no such list stays. *)
Definition objects_related (R : list (option raw_object) -> list (option raw_object) -> Prop) (raw raw' : option json) : Prop :=
  match raw ≫= raw_objects with
  | Some l => exists l', raw' ≫= raw_objects = Some l' /\ R l l'
  | None => option_Forall2 reencoded raw raw'
  end.

(** *** Reading what was written *)

Definition write_read (m : option raw_object) : option raw_object := map (fun kv => (kv.1, jesc kv.2)) <$> m.

Lemma raw_objects_read l : good_objects l -> raw_objects (raw_objects_json l) = Some (map write_read l).
Proof.
  intros Hl. unfold raw_objects_json. cbn [raw_objects]. induction Hl as [|m l Hm _ IH]; [done|]. cbn [map opt_map].
  rewrite IH. destruct m as [m|]; [|done]. simpl in Hm. destruct Hm as [Hs Hf].
  destruct (raw_map_json_read m Hs Hf) as [_ Hread]. cbn [from_option].
  change (raw_object_of (raw_map_json m)) with (Some <$> raw_map (raw_map_json m)). by rewrite Hread.
Qed.

Lemma good_written m : good_fields m -> good_fields (map (fun kv => (kv.1, jesc kv.2)) m).
Proof.
  intros [Hs Hf]. split; [unfold am_sorted, am_keys in *; by rewrite map_map|]. apply Forall_map. eapply Forall_impl; [exact Hf|].
  intros [k v] [Hk Hv]. split; [done|]. by apply settled_escapable, escapable_jesc.
Qed.

Lemma good_objects_written l : good_objects l -> good_objects (map write_read l).
Proof. unfold good_objects. intros Hl. apply Forall_map. eapply Forall_impl; [exact Hl|]. intros [m|] Hm; [by apply good_written|done]. Qed.

Lemma raw_objects_jesc t l : escapable t -> raw_objects t = Some l ->
  raw_objects (jesc t) = Some (map write_read l) \/ raw_objects (jesc t) = Some l.
Proof.
  intros [Hok|[-> _]] Hl; [left|by right]. destruct t as [| | | |items|]; try done; [by injection Hl as <-|]. apply jok_arr in Hok. simpl in Hl |- *.
  revert l Hl. induction Hok as [|x items Hx _ IH]; intros l Hl; [by injection Hl as <-|]. simpl in Hl.
  apply bind_Some in Hl as (m & Hm & Hl). apply bind_Some in Hl as (l2 & Hl2 & [= <-]). cbn [map opt_map]. rewrite (IH l2 Hl2).
  destruct x as [| | | | |ms]; try done; [by injection Hm as <-|].
  change (raw_object_of (jesc (JObj ms))) with (Some <$> raw_map (jesc (JObj ms))). rewrite raw_map_jesc by done.
  change (raw_object_of (JObj ms)) with (Some <$> raw_map (JObj ms)) in Hm. destruct (raw_map (JObj ms)) as [f|]; [|done].
  injection Hm as <-. done.
Qed.

(** *** Messages, step by step *)

(** The same value, to every decoder. *)
Definition rewrote (t t' : json) : Prop :=
  reencoded t t' /\ any_of t' = any_of t /\ string_of t' = string_of t /\ is_blank_raw (Some t') = is_blank_raw (Some t).

Lemma rewrote_refl t : rewrote t t.
Proof. by split; [constructor|]. Qed.

Lemma rewrote_jesc t t' : escapable t' -> rewrote t t' -> rewrote t (jesc t').
Proof.
  intros He (Hr & Ha & Hs & Hb). split_and!.
  - by constructor.
  - rewrite <-Ha. destruct He as [Hok|[-> _]]; [by apply any_of_jesc|done].
  - rewrite <-Hs. by apply escapable_string.
  - rewrite <-Hb. by destruct t'.
Qed.

(** A message before empty contents are left out. *)
Definition moved (rule : ChatCompletionRule) (m m' : raw_object) : Prop :=
  (forall k, k <> "role" -> option_Forall2 rewrote (am_lookup k m) (am_lookup k m')) /\
  (option_Forall2 rewrote (am_lookup "role" m) (am_lookup "role" m') /\
     ~ (rl_RemapDeveloperRole rule = true /\ raw_role (Some m) = Some "developer") \/
   rl_RemapDeveloperRole rule = true /\ raw_role (Some m) = Some "developer" /\ am_lookup "role" m' = Some (JStr "system")).

Lemma rewrote_fields_refl o : option_Forall2 rewrote o o.
Proof. destruct o; constructor. apply rewrote_refl. Qed.

Lemma moved_remapped rule m : rl_RemapDeveloperRole rule = true -> both (moved rule) m (remap_message m).
Proof.
  intros Hr. destruct m as [m|]; [|unfold remap_message; by case_decide]. unfold remap_message. case_decide as Hd; simpl.
  - split; [|right; by rewrite am_lookup_insert]. intros k Hk. rewrite am_lookup_insert_ne by done. apply rewrote_fields_refl.
  - split; [intros; apply rewrote_fields_refl|]. left. split; [apply rewrote_fields_refl|tauto].
Qed.

Lemma moved_same rule m : ~ (rl_RemapDeveloperRole rule = true /\ raw_role m = Some "developer") -> both (moved rule) m m.
Proof. intros Hn. destruct m as [m|]; [|done]. split; [intros; apply rewrote_fields_refl|]. left. split; [apply rewrote_fields_refl|done]. Qed.

Lemma moved_written rule m m' : from_option good_fields True m' -> both (moved rule) m m' -> both (moved rule) m (write_read m').
Proof.
  destruct m as [m|], m' as [m'|]; try done. simpl. intros Hg [Hk Hr].
  assert (Hw : forall k, option_Forall2 rewrote (am_lookup k m) (am_lookup k m') ->
    option_Forall2 rewrote (am_lookup k m) (am_lookup k (map (fun kv => (kv.1, jesc kv.2)) m'))).
  { intros k Hf. rewrite am_lookup_map. destruct (am_lookup k m') as [t'|] eqn:E; inversion Hf; subst; [|constructor].
    constructor. apply rewrote_jesc; [by eapply good_lookup|done]. }
  split; [intros; by apply Hw, Hk|]. destruct Hr as [[Hr Hn]|(H1 & H2 & H3)]; [left; split; [by apply Hw|done]|].
  right. by rewrite am_lookup_map, H3.
Qed.

Lemma moved_all_written rule l l' : good_objects l' -> Forall2 (both (moved rule)) l l' -> Forall2 (both (moved rule)) l (map write_read l').
Proof.
  intros Hg Hl. induction Hl as [|m m' l l' Hm _ IH]; [constructor|]. inversion Hg; subst. constructor; [by apply moved_written|by apply IH].
Qed.

Definition moved_objects (rule : ChatCompletionRule) (l : list (option raw_object)) (raw : option json) : Prop :=
  exists l', raw ≫= raw_objects = Some l' /\ Forall2 (both (moved rule)) l l'.

Lemma remap_moves rule body p p' l : good_fields p.1 -> apply_remap rule body p = Ok p' -> am_lookup "messages" p.1 ≫= raw_objects = Some l ->
  moved_objects rule l (am_lookup "messages" p'.1).
Proof.
  destruct p as [fields c]. cbn [fst]. intros Hg Ha Hl. unfold apply_remap in Ha. destruct (rl_RemapDeveloperRole rule) eqn:Hr; simpl negb in Ha; cbv iota in Ha.
  2:{ injection Ha as <-. exists l. split; [done|]. apply Forall2_same_length_lookup_2; [done|]. intros i x y Hx Hy. simplify_eq.
      apply moved_same. by rewrite Hr; intros []. }
  apply res_bind_ok in Ha as (remapped & Hm & [= <-]). unfold remapDeveloperMessages in Hm.
  destruct (am_lookup "messages" fields) as [t|] eqn:Et; [|done]. cbn [mbind option_bind] in Hl. rewrite Hl in Hm.
  pose proof (escapable_objects t l (good_lookup _ _ _ Hg Et) Hl) as Hgl. case_decide as Hd; injection Hm as <-; cbn [fst].
  - rewrite am_lookup_insert. eexists. split; [apply raw_objects_read; by apply good_remapped|].
    apply moved_all_written; [by apply good_remapped|]. clear -Hr. induction l as [|m l IH]; constructor; [by apply moved_remapped|done].
  - rewrite Et. exists l. split; [done|]. apply Forall_Exists_neg in Hd. clear -Hd. induction Hd as [|m l Hm _ IH]; constructor; [|done].
    apply moved_same. tauto.
Qed.

Lemma schema_replaced_None rule fields c p' : apply_json_schema rule (fields, c) = Ok p' -> schema_replaced rule fields = None -> p' = (fields, c).
Proof.
  unfold apply_json_schema, schema_replaced. intros Ha. case_decide as Hm; [rewrite bool_decide_true in Ha by done|rewrite bool_decide_false in Ha by done];
    simpl negb in Ha; cbv iota in Ha; [|by injection Ha as <-].
  apply res_bind_ok in Ha as (d & Hd & Ha). unfold downgradeJSONSchemaToJSONObjectInstruction in Hd.
  destruct (am_lookup "response_format" fields) as [t|]; simpl; [|injection Hd as <-; by injection Ha as <-].
  destruct t as [| | | | |mem]; try done; [injection Hd as <-; by injection Ha as <-|]. simpl in Hd |- *.
  case_decide; [done|]. injection Hd as <-. by injection Ha as <-.
Qed.

Lemma schema_replaced_Some rule fields c p' text : apply_json_schema rule (fields, c) = Ok p' -> schema_replaced rule fields = Some text ->
  exists messages, prependSystemInstruction (am_lookup "messages" fields) text = Ok messages /\
    p'.1 = am_insert "messages" messages (am_delete "structured_outputs" (am_delete "json_schema" (am_insert "response_format" json_object_format fields))).
Proof.
  unfold apply_json_schema, schema_replaced. intros Ha. case_decide as Hm; [|done]. rewrite bool_decide_true in Ha by done. simpl negb in Ha; cbv iota in Ha.
  apply res_bind_ok in Ha as (d & Hd & Ha). unfold downgradeJSONSchemaToJSONObjectInstruction in Hd.
  destruct (am_lookup "response_format" fields) as [t|]; simpl; [|done]. destruct t as [| | | | |mem]; try done. simpl in Hd |- *.
  case_decide; [|done]. injection Hd as <-. intros [= <-]. cbv zeta in Ha. apply res_bind_ok in Ha as (messages & Hp & [= <-]).
  rewrite !am_lookup_delete_ne, am_lookup_insert_ne in Hp by done. by exists messages.
Qed.

Lemma moved_role rule m m' : moved rule m m' -> raw_role (Some m') = Some "system" ->
  raw_role (Some m) = Some "system" \/ rl_RemapDeveloperRole rule = true /\ raw_role (Some m) = Some "developer".
Proof.
  intros [_ [[Hr _]|(H1 & H2 & _)]] Hs; [left|by right]. unfold raw_role in *. simpl in *.
  destruct (am_lookup "role" m'); inversion Hr as [? ? (_ & _ & Hst & _)|]; subst; [|done]. simpl in *. by rewrite <-Hst.
Qed.

Lemma moved_content rule m m' text : moved rule m m' -> moved rule (am_insert "content" text m) (am_insert "content" text m').
Proof.
  intros [Hk Hr]. split.
  - intros k Hn. destruct (decide (k = "content")) as [->|Hc]; [rewrite !am_lookup_insert; apply rewrote_fields_refl|].
    rewrite !am_lookup_insert_ne by done. by apply Hk.
  - unfold raw_role in *. simpl in *. by rewrite !am_lookup_insert_ne by done.
Qed.

Lemma instruction_good instruction : good_fields (instruction_message instruction).
Proof.
  change (good_fields (am_insert "content" (json_str instruction) (am_insert "role" (JStr "system") []))).
  apply good_insert; [done|apply settled_escapable, (settled_of_any (GStr instruction))|]. apply good_insert; [done|by left|done].
Qed.

Lemma prepend_instructs rule raw text t l : (forall m, raw = Some m -> escapable m) -> prependSystemInstruction raw text = Ok t ->
  moved_objects rule l raw -> exists l1, instructed rule text l l1 /\ moved_objects rule l1 (Some t).
Proof.
  intros He Hp (l' & Hraw & Hl). destruct raw as [m|]; [|done]. simpl in Hraw. unfold prependSystemInstruction in Hp. simpl in Hp. rewrite Hraw in Hp.
  pose proof (escapable_objects m l' (He m eq_refl) Hraw) as Hg.
  assert (Hfront : exists l1, instructed rule text l l1 /\ moved_objects rule l1 (Some (raw_objects_json (Some (instruction_message text) :: l')))).
  { eexists. split; [constructor|]. assert (good_objects (Some (instruction_message text) :: l')) by (constructor; [apply instruction_good|done]).
    eexists. split; [by apply raw_objects_read|]. apply moved_all_written; [done|]. constructor; [|done]. apply moved_same. by intros [_ ?]. }
  destruct l' as [|[first'|] rest']; [by injection Hp as <-| |by injection Hp as <-]. case_decide as Hs; [|by injection Hp as <-].
  inversion Hl as [|first ? rest ? Hf Hrest]; subst. destruct first as [first|]; [|done]. simpl in Hf. inversion Hg as [|? ? Hgf Hgr]; subst. simpl in Hgf.
  pose proof (proj1 Hf "content" ltac:(done)) as Hc.
  assert (Hfirst : forall s, (is_blank_raw (am_lookup "content" first) = true /\ s = text \/
     exists content, am_lookup "content" first ≫= string_of = Some content /\ s = text +:+ line_feed +:+ line_feed +:+ content) ->
     exists l1, instructed rule text (Some first :: rest) l1 /\
       moved_objects rule l1 (Some (raw_objects_json (Some (am_insert "content" (json_str s) first') :: rest')))).
  { intros s Hs'. eexists. split; [eapply in_first; [done|by eapply moved_role|exact Hs']|].
    assert (good_objects (Some (am_insert "content" (json_str s) first') :: rest')).
    { constructor; [|done]. apply good_insert; [done|apply settled_escapable, (settled_of_any (GStr s))|done]. }
    eexists. split; [by apply raw_objects_read|]. apply moved_all_written; [done|]. constructor; [by apply moved_content|done]. }
  destruct (is_blank_raw (am_lookup "content" first')) eqn:Eb.
  - injection Hp as <-. apply Hfirst. left. split; [|done]. etrans; [|exact Eb]. by inversion Hc as [? ? (_ & _ & _ & Hb) E1 E2|E1 E2].
  - destruct (am_lookup "content" first' ≫= string_of) as [content|] eqn:Ec; [|by injection Hp as <-]. injection Hp as <-. apply Hfirst. right.
    exists content. split; [|done]. rewrite <-Ec. inversion Hc as [? ? (_ & _ & Hst & _) E1 E2|E1 E2]; [|done]. simpl. by rewrite Hst.
Qed.

(** A raw object and the map it decodes to. *)
Definition decoded (m : option raw_object) (o : option any_object) : Prop :=
  match m, o with
  | None, None => True
  | Some m, Some o => gwf_map o = true /\ forall k, (any_of <$> am_lookup k m) = Some <$> am_lookup k o
  | _, _ => False
  end.

Lemma decoded_object x o : any_map x = Some o -> exists m, raw_object_of x = Some m /\ decoded m o.
Proof.
  destruct x as [| | | | |l]; try done; [intros [= <-]; by exists None|]. intros Ho.
  destruct o as [o|]; [|simpl in Ho; by repeat case_match]. exists (Some (am_of_list (map (fun kv => (unquote kv.1, kv.2)) l))). split; [done|].
  split; [by eapply any_map_gwf|]. intros k. rewrite (any_lookup _ _ _ k Ho eq_refl).
  destruct (am_lookup k _) as [t|] eqn:Et; [|done]. simpl. enough (is_Some (any_of t)) as [v ->] by done.
  rewrite am_lookup_of_list in Et. apply last_binding_elem, list_elem_of_fmap in Et as ([k' t'] & [= -> ->] & Hin).
  simpl in Ho. destruct (opt_map _ l) as [kvs|] eqn:E; [|done]. apply opt_map_Some in E. clear -E Hin.
  induction E as [|? ? l kvs Hx _ IH]; [by apply not_elem_of_nil in Hin|]. apply elem_of_cons in Hin as [<-|Hin]; [|auto]. simpl in Hx. by destruct (any_of t').
Qed.

Lemma decoded_objects t l : any_objects t = Some l -> exists ms, raw_objects t = Some ms /\ Forall2 decoded ms l.
Proof.
  destruct t as [| | | |items|]; try done; [intros [= <-]; by exists []|]. simpl. revert l. induction items as [|x items IH]; intros l Hl; [injection Hl as <-; by exists []|].
  simpl in Hl |- *. apply bind_Some in Hl as (o & Ho & Hl). apply bind_Some in Hl as (l2 & Hl2 & [= <-]).
  destruct (decoded_object x o Ho) as (m & Hm & Hd). destruct (IH l2 Hl2) as (ms & Hms & Hds). rewrite Hm, Hms. simpl. eexists. split; [done|]. by constructor.
Qed.

(** Reading an object whose keys were written from a map. *)
Definition keyed (m : any_object) : Prop := am_sorted m = true /\ Forall (fun kv => valid_utf8 kv.1 = true) m.

Lemma gwf_keyed m : gwf_map m = true -> keyed m.
Proof.
  unfold gwf_map. intros [Hs Hv]%andb_true_iff. split; [done|]. apply Forall_forall. intros kv Hin%list_elem_of_In.
  rewrite forallb_forall in Hv. by apply Hv, andb_true_iff in Hin as [? _].
Qed.

Lemma keyed_insert k v m : valid_utf8 k = true -> keyed m -> keyed (am_insert k v m).
Proof. intros Hk [Hs Hm]. split; [by apply am_insert_sorted|]. by apply am_insert_Forall. Qed.

Lemma keyed_read m : keyed m -> raw_object_of (of_any (GMap m)) = Some (Some (map (fun kv => (kv.1, of_any kv.2)) m)).
Proof.
  intros [Hs Hv]. change (raw_object_of (of_any (GMap m))) with (Some <$> raw_map (of_any (GMap m))). simpl. do 2 f_equal. rewrite map_map. simpl.
  rewrite (map_ext_in _ (fun kv => (kv.1, of_any kv.2))).
  2:{ intros [k v] Hin%list_elem_of_In. simpl. rewrite Forall_forall in Hv. apply Hv in Hin. by rewrite unquote_encode_valid. }
  apply am_of_list_sorted_id. unfold am_sorted, am_keys in *. by rewrite map_map.
Qed.

Lemma any_objects_read l : Forall (from_option keyed True) l ->
  raw_objects (any_objects_json l) = Some (map (fun o => map (fun kv => (kv.1, of_any kv.2)) <$> o) l).
Proof.
  intros Hl. unfold any_objects_json. cbn [raw_objects]. induction Hl as [|m l Hm _ IH]; [done|]. cbn [map opt_map].
  rewrite IH. destruct m as [m|]; [|done]. cbn [from_option] in *. by rewrite keyed_read.
Qed.

Lemma decoded_field m o k : decoded (Some m) (Some o) -> option_Forall2 reencoded (am_lookup k m) (am_lookup k (map (fun kv => (kv.1, of_any kv.2)) o)).
Proof.
  intros [_ Hd]. specialize (Hd k). rewrite am_lookup_map. destruct (am_lookup k m) as [t|], (am_lookup k o) as [v|]; try done; constructor.
  injection Hd as Hd. by apply (re_any t t v); [constructor|].
Qed.

Lemma decoded_value m o k : decoded (Some m) (Some o) -> am_lookup k m ≫= any_of = am_lookup k o.
Proof. intros [_ Hd]. specialize (Hd k). destruct (am_lookup k m) as [t|], (am_lookup k o) as [v|]; try done. simpl in *. congruence. Qed.

Lemma rewrote_reencoded o o' : option_Forall2 rewrote o o' -> option_Forall2 reencoded o o'.
Proof. destruct 1 as [? ? [? _]|]; by constructor. Qed.

Lemma moved_kept rule m m' : moved rule m m' -> kept_message rule m m'.
Proof.
  intros [Hk Hr]. split_and!.
  - intros k Hn. apply rewrote_reencoded, Hk. set_solver.
  - destruct Hr as [[Hr _]|(H1 & H2 & H3)]; [left; by apply rewrote_reencoded|right]. split_and!; [done..|]. unfold raw_role. simpl. by rewrite H3.
  - left. by apply rewrote_reencoded, Hk.
Qed.

Lemma same_field_trans k m1 m2 m3 : same_field k m1 m2 -> same_field k m2 m3 -> same_field k m1 m3.
Proof.
  unfold same_field. intros H1 H2. destruct (am_lookup k m2); inversion H1; subst; inversion H2; subst; constructor. by eapply reencoded_trans.
Qed.

(** A value that the role of a message may have, decoded from its text. *)
Lemma moved_value rule m m' k : moved rule m m' -> k <> "role" -> am_lookup k m' ≫= any_of = am_lookup k m ≫= any_of.
Proof. intros [Hk _] Hn. specialize (Hk k Hn). by destruct Hk as [? ? (_ & Ha & _)|]. Qed.

Lemma moved_assistant rule m m' : moved rule m m' -> trimmed_string (am_lookup "role" m' ≫= any_of) = "assistant" ->
  trimmed_string (am_lookup "role" m ≫= any_of) = "assistant".
Proof.
  intros [_ [[Hr _]|(_ & _ & ->)]]; [|intros Hx; vm_compute in Hx; done]. intros <-. f_equal. destruct Hr as [? ? (_ & Ha & _)|]; [|done]. simpl. by rewrite Ha.
Qed.

Lemma omitted_kept rule m m2 o : rl_OmitEmptyAssistantToolContent rule = true -> both (moved rule) m m2 -> decoded m2 o ->
  both (kept_message rule) m (map (fun kv => (kv.1, of_any kv.2)) <$> omit_content o).
Proof.
  intros Ho Hm Hd. destruct m2 as [m2|], o as [o|], m as [m|]; try done. cbn [both] in Hm. pose proof (moved_kept _ _ _ Hm) as (K1 & K2 & K3).
  unfold omit_content. cbn [mbind option_bind fmap option_fmap option_map both]. destruct (omits_content o) eqn:Eo.
  - unfold omits_content in Eo. rewrite !andb_true_iff, bool_decide_eq_true in Eo. destruct Eo as [[Er Et] Ec].
    rewrite <-(decoded_value _ _ _ Hd) in Er. rewrite <-(decoded_value _ _ _ Hd) in Et. rewrite <-(decoded_value _ _ _ Hd) in Ec.
    assert (Hkeep : forall k, k <> "content" -> same_field k m2 (map (fun kv => (kv.1, of_any kv.2)) (am_delete "content" o))).
    { intros k Hk. unfold same_field. pose proof (decoded_field m2 o k Hd) as Hf. rewrite am_lookup_map in Hf |- *. by rewrite am_lookup_delete_ne. }
    split; [|split].
    + intros k Hk. eapply same_field_trans; [by apply K1|]. apply Hkeep. set_solver.
    + destruct K2 as [K2|(_ & _ & K2)]; [left; by eapply same_field_trans; [|apply Hkeep]|]. exfalso. clear -K2 Er. unfold raw_role in K2. simpl in K2.
      destruct (am_lookup "role" m2) as [[]|]; try done. simpl in *. injection K2 as K2. rewrite K2 in Er. done.
    + right. split; [done|]. split.
      * unfold empty_content. cbv zeta. split; [by eapply moved_assistant|]. rewrite <-!(moved_value _ _ _ _ Hm) by done. split; [done|].
        destruct (am_lookup "content" m2 ≫= any_of) as [content|]; [|done]. by exists content.
      * by rewrite am_lookup_map, am_lookup_delete.
  - assert (Hkeep : forall k, same_field k m2 (map (fun kv => (kv.1, of_any kv.2)) o)) by (intros k; by apply decoded_field).
    split; [|split].
    + intros k Hk. eapply same_field_trans; [by apply K1|]. apply Hkeep.
    + destruct K2 as [K2|(H1 & H2 & K2)]; [left; eapply same_field_trans; [done|apply Hkeep]|right]. split_and!; [done..|].
      unfold raw_role in K2 |- *. simpl in *. pose proof (decoded_field m2 o "role" Hd) as Hf. pose proof (decoded_value m2 o "role" Hd) as Hv.
      rewrite am_lookup_map. destruct (am_lookup "role" m2) as [t|]; [|done]. simpl in *. destruct t; try done. simpl in *. injection K2 as K2.
      rewrite K2 in Hv. rewrite <-Hv. done.
    + destruct K3 as [K3|(H1 & H2 & K3)]; [left; eapply same_field_trans; [done|apply Hkeep]|]. right. split_and!; [done..|].
      pose proof (decoded_field m2 o "content" Hd) as Hf. rewrite K3 in Hf. by inversion Hf.
Qed.

Lemma omit_kept rule p p' l : apply_omit rule p = Ok p' -> moved_objects rule l (am_lookup "messages" p.1) ->
  exists l', am_lookup "messages" p'.1 ≫= raw_objects = Some l' /\ Forall2 (both (kept_message rule)) l l'.
Proof.
  destruct p as [fields c]. cbn [fst]. unfold apply_omit. intros Ha (l2 & Hl2 & Hm).
  assert (Hsame : p' = (fields, c) -> exists l', am_lookup "messages" p'.1 ≫= raw_objects = Some l' /\ Forall2 (both (kept_message rule)) l l').
  { intros ->. exists l2. split; [done|]. eapply Forall2_impl; [exact Hm|]. intros [m|] [m'|]; try done. apply moved_kept. }
  destruct (rl_OmitEmptyAssistantToolContent rule) eqn:Er; simpl negb in Ha; cbv iota in Ha; [|apply Hsame; by injection Ha].
  apply res_bind_ok in Ha as (normalized & Hn & Ha). unfold omitEmptyAssistantToolCallContent in Hn.
  destruct normalized as [[messages omitted]|]; [|apply Hsame; by injection Ha]. injection Ha as <-. cbn [fst]. rewrite am_lookup_insert.
  destruct (am_lookup "messages" fields) as [t|]; [|done]. simpl in Hl2.
  assert (Ht : exists os, any_objects t = Some os /\ messages = any_objects_json (map omit_content os)).
  { destruct t as [| | | |items|]; try done. destruct (any_objects (JArr items)) as [os|]; [|done]. cbv zeta in Hn. destruct (_ =? 0)%Z; [done|].
    injection Hn as <- _. by exists os. }
  destruct Ht as (os & Hos & ->). destruct (decoded_objects t os Hos) as (ms & Hms & Hd). rewrite Hl2 in Hms. injection Hms as <-.
  eexists. split.
  - apply any_objects_read. apply Forall_map. clear -Hd. induction Hd as [|m o ms os Ho _ IH]; constructor; [|done]. destruct m as [m|], o as [o|]; try done.
    simpl in Ho |- *. destruct Ho as [Hw _]. destruct (omits_content o); [|by apply gwf_keyed]. by apply gwf_keyed, gwf_map_delete.
  - rewrite map_map. clear -Hd Hm Er. revert l Hm. induction Hd as [|m2 o ms os Ho _ IH]; intros l Hm; inversion Hm; subst; constructor; [|by apply IH].
    by eapply omitted_kept.
Qed.

(** *** Tools, step by step *)

Lemma passed_refl enabled g l : Forall2 (both (tool_pass enabled g)) l l.
Proof.
  assert (forall k m, same_field k m m) as Hk. { intros k m. unfold same_field. destruct (am_lookup k m); constructor. constructor. }
  induction l as [|[m|] l IH]; constructor; try done. split; [done|by left].
Qed.

Lemma rewritten_passed f g m o : (forall p, (f p).1 = g p) -> decoded m o ->
  from_option keyed True (rewrite_tool f o).1 /\
  both (tool_pass true g) m (map (fun kv => (kv.1, of_any kv.2)) <$> (rewrite_tool f o).1).
Proof.
  intros Hfg Hd. destruct m as [m|], o as [o|]; try done.
  assert (Hsame : keyed o /\ tool_pass true g m (map (fun kv => (kv.1, of_any kv.2)) o)).
  { split; [by apply gwf_keyed; destruct Hd|]. split; [intros k _|left]; by apply decoded_field. }
  unfold rewrite_tool. case_decide; [|done]. destruct (am_lookup "function" o) as [[| | | | |function]|] eqn:Ef; try done.
  destruct (am_lookup "parameters" function) as [[| | | | |parameters]|] eqn:Ep; try done. destruct (f parameters) as [rewritten changed] eqn:Erw.
  simpl. split; [apply keyed_insert; [done|]; by apply gwf_keyed; destruct Hd|]. split.
  - intros k Hk. unfold same_field. pose proof (decoded_field m o k Hd) as Hf. rewrite am_lookup_map in Hf |- *. by rewrite am_lookup_insert_ne.
  - right. split; [done|]. exists function, parameters. eexists. rewrite (decoded_value m o "function" Hd). split; [done|]. split; [done|].
    rewrite am_lookup_map, am_lookup_insert. split; [done|]. rewrite <-Hfg, Erw. constructor.
Qed.

Lemma rewrite_tools_passed f g enabled raw result l : (forall p, (f p).1 = g p) -> enabled = true -> rewrite_tools f raw = Ok result ->
  raw ≫= raw_objects = Some l ->
  exists l', (match result with Some t => Some t | None => raw end) ≫= raw_objects = Some l' /\ Forall2 (both (tool_pass enabled g)) l l'.
Proof.
  intros Hfg -> Hr Hl. destruct result as [t'|]; [|exists l; split; [done|apply passed_refl]]. destruct raw as [t|]; [|done]. simpl in Hl.
  assert (Ht : exists os, any_objects t = Some os /\ t' = any_objects_json (map (fun o => (rewrite_tool f o).1) os)).
  { unfold rewrite_tools in Hr. destruct t as [| | | |items|]; try done. destruct (any_objects (JArr items)) as [os|]; [|done].
    unfold each_changed in Hr. destruct (existsb _ _); [|done]. injection Hr as <-. by exists os. }
  destruct Ht as (os & Hos & ->). destruct (decoded_objects t os Hos) as (ms & Hms & Hd). rewrite Hl in Hms. injection Hms as <-.
  eexists. split.
  - simpl. apply any_objects_read. apply Forall_map. clear -Hd Hfg. induction Hd as [|m o ms os Ho _ IH]; constructor; [|done]. by apply (rewritten_passed f g m o).
  - rewrite map_map. clear -Hd Hfg. induction Hd as [|m o ms os Ho _ IH]; constructor; [|done]. by apply (rewritten_passed f g m o).
Qed.

(** *** One more writing, of the whole request *)

Lemma same_field_written k m m' : same_field k m m' -> same_field k m (map (fun kv => (kv.1, jesc kv.2)) m').
Proof. unfold same_field. rewrite am_lookup_map. destruct 1; constructor. by constructor. Qed.

Lemma kept_written rule m m' : from_option good_fields True m' -> both (kept_message rule) m m' -> both (kept_message rule) m (write_read m').
Proof.
  destruct m as [m|], m' as [m'|]; try done. intros Hg (K1 & K2 & K3). split_and!.
  - intros k Hk. by apply same_field_written, K1.
  - destruct K2 as [K2|(H1 & H2 & K2)]; [left; by apply same_field_written|right]. split_and!; [done..|].
    unfold raw_role in *. simpl in *. rewrite am_lookup_map. destruct (am_lookup "role" m') as [t|] eqn:E; [|done]. simpl in *.
    rewrite escapable_string; [done|]. by eapply good_lookup.
  - destruct K3 as [K3|(H1 & H2 & K3)]; [left; by apply same_field_written|right]. by rewrite am_lookup_map, K3.
Qed.

Lemma passed_written enabled g m m' : both (tool_pass enabled g) m m' -> both (tool_pass enabled g) m (write_read m').
Proof.
  destruct m as [m|], m' as [m'|]; try done. intros (K1 & K2). split; [intros k Hk; by apply same_field_written, K1|].
  destruct K2 as [K2|(H1 & f & p & t' & Hf & Hp & Ht & Hr)]; [left; by apply same_field_written|right]. split; [done|].
  exists f, p, (jesc t'). rewrite am_lookup_map, Ht. split_and!; [done..|]. by constructor.
Qed.

Lemma objects_related_jesc (R : list (option raw_object) -> list (option raw_object) -> Prop) raw raw' :
  (forall l l', good_objects l' -> R l l' -> R l (map write_read l')) -> (forall t, raw' = Some t -> escapable t) ->
  objects_related R raw raw' -> objects_related R raw (jesc <$> raw').
Proof.
  intros HR He. unfold objects_related. destruct (raw ≫= raw_objects) as [l|].
  - intros (l' & Hl' & Hr). destruct raw' as [t|]; [|done]. simpl in Hl' |- *. specialize (He t eq_refl).
    destruct (raw_objects_jesc t l' He Hl') as [->| ->]; [|by exists l']. eexists. split; [done|]. apply HR; [|done]. by eapply escapable_objects.
  - destruct 1; constructor. by constructor.
Qed.

Lemma messages_related_jesc rule instruction raw raw' : (forall t, raw' = Some t -> escapable t) ->
  objects_related (messages_kept rule instruction) raw raw' -> objects_related (messages_kept rule instruction) raw (jesc <$> raw').
Proof.
  intros He. apply objects_related_jesc; [|done]. intros l l' Hg (l1 & Hi & Hk). exists l1. split; [done|]. clear -Hk Hg.
  induction Hk as [|m m' l1 l' Hm _ IH]; [constructor|]. inversion Hg; subst. constructor; [by apply kept_written|by apply IH].
Qed.

Lemma tools_related_jesc `{FC : FloatConversion} rule raw raw' : (forall t, raw' = Some t -> escapable t) ->
  objects_related (tools_kept rule) raw raw' -> objects_related (tools_kept rule) raw (jesc <$> raw').
Proof.
  intros He. apply objects_related_jesc; [|done]. intros l l' Hg (l1 & Hi & Hk). exists l1. split; [done|]. clear -Hk.
  induction Hk as [|m m' l1 l' Hm _ IH]; [constructor|]. constructor; [by apply passed_written|by apply IH].
Qed.

(** *** The steps together *)

Lemma remap_no_list rule body p p' : apply_remap rule body p = Ok p' -> am_lookup "messages" p.1 ≫= raw_objects = None ->
  am_lookup "messages" p'.1 = am_lookup "messages" p.1.
Proof.
  destruct p as [fields c]. cbn [fst]. unfold apply_remap. destruct (rl_RemapDeveloperRole rule); simpl negb; cbv iota; [|by intros [= <-]].
  intros (r & Hr & [= <-])%res_bind_ok Hn. unfold remapDeveloperMessages in Hr. destruct (am_lookup "messages" fields) as [t|] eqn:E.
  - simpl in Hn. by rewrite Hn in Hr.
  - injection Hr as <-. exact E.
Qed.

Lemma omit_no_list rule p p' : apply_omit rule p = Ok p' -> am_lookup "messages" p.1 ≫= raw_objects = None ->
  am_lookup "messages" p'.1 = am_lookup "messages" p.1.
Proof.
  destruct p as [fields c]. cbn [fst]. unfold apply_omit. destruct (rl_OmitEmptyAssistantToolContent rule); simpl negb; cbv iota; [|by intros [= <-]].
  intros (r & Hr & [= <-])%res_bind_ok Hn. unfold omitEmptyAssistantToolCallContent in Hr. destruct (am_lookup "messages" fields) as [t|] eqn:E.
  - simpl in Hn. destruct (any_objects t) as [os|] eqn:Eo; [apply decoded_objects in Eo as (ms & Hms & _); congruence|]. by destruct t.
  - injection Hr as <-. exact E.
Qed.

Lemma json_schema_list rule p p' l : good_fields p.1 -> apply_json_schema rule p = Ok p' -> moved_objects rule l (am_lookup "messages" p.1) ->
  exists l1, match schema_replaced rule p.1 with None => l1 = l | Some text => instructed rule text l l1 end /\
    moved_objects rule l1 (am_lookup "messages" p'.1).
Proof.
  destruct p as [fields c]. cbn [fst]. intros Hg Ha Hm. destruct (schema_replaced rule fields) as [text|] eqn:Es.
  - destruct (schema_replaced_Some _ _ _ _ _ Ha Es) as (messages & Hp & ->). rewrite am_lookup_insert.
    eapply prepend_instructs; [|exact Hp|done]. intros m Hl. by eapply good_lookup.
  - rewrite (schema_replaced_None _ _ _ _ Ha Es). by exists l.
Qed.

Lemma json_schema_no_list rule p p' : apply_json_schema rule p = Ok p' -> am_lookup "messages" p.1 ≫= raw_objects = None ->
  am_lookup "messages" p'.1 = am_lookup "messages" p.1.
Proof.
  destruct p as [fields c]. cbn [fst]. intros Ha Hm. destruct (schema_replaced rule fields) as [text|] eqn:Es.
  - destruct (schema_replaced_Some _ _ _ _ _ Ha Es) as (messages & Hp & _). unfold prependSystemInstruction in Hp. by rewrite Hm in Hp.
  - by rewrite (schema_replaced_None _ _ _ _ Ha Es).
Qed.

(** The fields of a JSON schema afterwards. *)
Definition format_kept (rule : ChatCompletionRule) (before after : raw_object) : Prop :=
  match schema_replaced rule before with
  | Some _ => am_lookup "response_format" after = Some json_object_format /\
              am_lookup "json_schema" after = None /\ am_lookup "structured_outputs" after = None
  | None => forall k, k ∈ ["response_format"; "json_schema"; "structured_outputs"] -> am_lookup k after = am_lookup k before
  end.

Lemma json_schema_fields rule p p' : apply_json_schema rule p = Ok p' -> format_kept rule p.1 p'.1.
Proof.
  destruct p as [fields c]. cbn [fst]. intros Ha. unfold format_kept. destruct (schema_replaced rule fields) as [text|] eqn:Es.
  - destruct (schema_replaced_Some _ _ _ _ _ Ha Es) as (messages & _ & ->). rewrite !am_lookup_insert_ne by done. split_and!.
    + by rewrite !am_lookup_delete_ne, am_lookup_insert by done.
    + by rewrite am_lookup_delete_ne, am_lookup_delete by done.
    + by rewrite am_lookup_delete.
  - by rewrite (schema_replaced_None _ _ _ _ Ha Es).
Qed.

Lemma tools_step `{FC : FloatConversion} f g (enabled : bool) raw result : (forall p, (f p).1 = g p) ->
  (if enabled then rewrite_tools f raw else Ok None) = Ok result ->
  let raw' := match result with Some t => Some t | None => raw end in
  match raw ≫= raw_objects with
  | Some l => exists l', raw' ≫= raw_objects = Some l' /\ Forall2 (both (tool_pass enabled g)) l l'
  | None => raw' = raw
  end.
Proof.
  intros Hfg Hr. cbv zeta. destruct (raw ≫= raw_objects) as [l|] eqn:El.
  - destruct enabled; [by eapply rewrite_tools_passed|]. injection Hr as <-. exists l. split; [done|apply passed_refl].
  - destruct enabled; [|by injection Hr as <-]. destruct result as [t'|]; [|done]. unfold rewrite_tools in Hr. destruct raw as [t|]; [|done].
    simpl in El. destruct (any_objects t) as [os|] eqn:Eo; [apply decoded_objects in Eo as (ms & Hms & _); congruence|]. by destruct t.
Qed.

Lemma tools_steps `{FC : FloatConversion} rule p p1 p2 : apply_types rule p = Ok p1 -> apply_moonshot rule p1 = Ok p2 ->
  objects_related (tools_kept rule) (am_lookup "tools" p.1) (am_lookup "tools" p2.1).
Proof.
  destruct p as [fields c]. intros H1 H2.
  assert (exists r1, (if rl_EnsureToolParameterPropertyTypes rule then ensureToolParameterPropertyTypes (am_lookup "tools" fields) else Ok None) = Ok r1 /\
    am_lookup "tools" p1.1 = match r1 with Some t => Some t | None => am_lookup "tools" fields end) as (r1 & Hr1 & E1).
  { unfold apply_types in H1. destruct (rl_EnsureToolParameterPropertyTypes rule); simpl negb in H1; cbv iota in H1; [|injection H1 as <-; by exists None].
    apply res_bind_ok in H1 as (r & Hr & [= <-]). exists r. split; [done|]. destruct r; [apply am_lookup_insert|done]. }
  destruct p1 as [fields1 c1]. cbn [fst] in *.
  assert (exists r2, (if rl_SanitizeMoonshotToolSchema rule then sanitizeMoonshotToolSchemas (am_lookup "tools" fields1) else Ok None) = Ok r2 /\
    am_lookup "tools" p2.1 = match r2 with Some t => Some t | None => am_lookup "tools" fields1 end) as (r2 & Hr2 & E2).
  { unfold apply_moonshot in H2. destruct (rl_SanitizeMoonshotToolSchema rule); simpl negb in H2; cbv iota in H2; [|injection H2 as <-; by exists None].
    apply res_bind_ok in H2 as (r & Hr & [= <-]). exists r. split; [done|]. destruct r; [apply am_lookup_insert|done]. }
  apply (tools_step _ (fun p => GMap (normalizeSchemaContainer p).1)) in Hr1; [|done].
  apply (tools_step _ (fun p => (sanitizeMoonshotSchemaNode (GMap p)).1)) in Hr2; [|done]. cbv zeta in Hr1, Hr2. rewrite <-E1 in Hr1. rewrite <-E2 in Hr2.
  unfold objects_related, tools_kept. destruct (am_lookup "tools" fields ≫= raw_objects) as [l|] eqn:El.
  - destruct Hr1 as (l1 & Hl1 & Hp1). rewrite Hl1 in Hr2. destruct Hr2 as (l2 & Hl2 & Hp2). eauto.
  - rewrite Hr1, El in Hr2. rewrite Hr2. destruct (am_lookup "tools" fields); constructor. constructor.
Qed.

(** ** The whole rule *)

Definition rule_keys : list string :=
  ["messages"; "tools"; "response_format"; "json_schema"; "structured_outputs"; "thinking"; "max_tokens"].

Definition format_type (format : option json) : option string := (format ≫= raw_map) ≫= fun m => am_lookup "type" m ≫= string_of.

Lemma json_schema_format rule p p' : apply_json_schema rule p = Ok p' -> rl_JSONSchemaMode rule = JSONSchemaModeObjectInstruction ->
  format_type (am_lookup "response_format" p'.1) <> Some "json_schema".
Proof.
  destruct p as [fields c]. unfold apply_json_schema. intros Ha Hm. rewrite Hm in Ha. rewrite bool_decide_true in Ha by done. simpl negb in Ha. cbv iota in Ha.
  apply res_bind_ok in Ha as (downgraded & Hd & Hr). destruct downgraded as [[format instruction]|].
  - assert (Hform : format = json_object_format).
    { unfold downgradeJSONSchemaToJSONObjectInstruction in Hd. repeat case_match; try done; by injection Hd. }
    subst format. cbv zeta in Hr. apply res_bind_ok in Hr as (messages & _ & [= <-]). cbn [fst].
    by rewrite am_lookup_insert_ne, !am_lookup_delete_ne, am_lookup_insert by done.
  - injection Hr as <-. cbn [fst]. unfold downgradeJSONSchemaToJSONObjectInstruction in Hd. unfold format_type.
    destruct (am_lookup "response_format" fields) as [t|]; [|done]. destruct t as [| | | | |m]; try done. simpl in Hd |- *.
    by case_decide.
Qed.

Lemma changes_keep keys k a b : changes keys a b -> k ∉ keys -> am_lookup k b = am_lookup k a.
Proof. intros [_ H]. apply H. Qed.

Lemma changes_weaken keys keys' a b : keys ⊆ keys' -> changes keys a b -> changes keys' a b.
Proof. intros Hk [G L]. split; [done|]. intros k Hn. apply L. set_solver. Qed.

Definition rule_applied (rule : ChatCompletionRule) (before after : raw_object) : Prop :=
  changes rule_keys before after /\
  (rl_RemapDeveloperRole rule = true -> no_developer (am_lookup "messages" after)) /\
  (rl_DefaultThinking rule = DefaultThinkingDisabled -> is_Some (am_lookup "thinking" after)) /\
  ((0 < rl_DefaultMaxTokens rule)%Z -> is_Some (am_lookup "max_tokens" after) \/ is_Some (am_lookup "max_completion_tokens" after)) /\
  (rl_JSONSchemaMode rule = JSONSchemaModeObjectInstruction -> format_type (am_lookup "response_format" after) <> Some "json_schema").

(** The fields the rule is about, when they were there. *)
Definition rule_kept `{FC : FloatConversion} (rule : ChatCompletionRule) (before after : raw_object) : Prop :=
  objects_related (messages_kept rule (schema_replaced rule before)) (am_lookup "messages" before) (am_lookup "messages" after) /\
  objects_related (tools_kept rule) (am_lookup "tools" before) (am_lookup "tools" after) /\
  format_kept rule before after /\
  am_lookup "thinking" after = match am_lookup "thinking" before with
    | None => if decide (rl_DefaultThinking rule = DefaultThinkingDisabled) then Some (JObj [("type", JStr "disabled")]) else None
    | value => value
    end /\
  am_lookup "max_tokens" after = match am_lookup "max_tokens" before, am_lookup "max_completion_tokens" before with
    | None, None => if decide (0 < rl_DefaultMaxTokens rule)%Z then Some (json_int (rl_DefaultMaxTokens rule)) else None
    | value, _ => value
    end.

Lemma schema_replaced_ext rule a b : am_lookup "response_format" a = am_lookup "response_format" b -> schema_replaced rule a = schema_replaced rule b.
Proof. unfold schema_replaced. by intros ->. Qed.

Lemma apply_rule_keeps `{FC : FloatConversion} rule body fields p : good_fields fields -> apply_rule rule body fields = Ok p ->
  rule_kept rule fields p.1.
Proof.
  intros Hg Ha. unfold apply_rule in Ha. apply res_bind_ok in Ha as (p1 & H1 & Ha). apply res_bind_ok in Ha as (p4 & H4 & Ha).
  apply res_bind_ok in Ha as (p5 & H5 & Ha). apply res_bind_ok in Ha as (p6 & H6 & H7).
  set (p2 := apply_thinking rule p1) in *. set (p3 := apply_max_tokens rule p2) in *.
  pose proof (remap_changes _ _ _ _ H1) as C1. pose proof (thinking_changes rule p1) as C2. fold p2 in C2.
  pose proof (max_tokens_changes rule p2) as C3. fold p3 in C3. pose proof (json_schema_changes _ _ _ H4) as C4.
  pose proof (types_changes _ _ _ H5) as C5. pose proof (moonshot_changes _ _ _ H6) as C6. pose proof (omit_changes _ _ _ H7) as C7.
  cbn [fst] in C1. pose proof (proj1 C1 Hg) as G1. pose proof (proj1 C2 G1) as G2. pose proof (proj1 C3 G2) as G3.
  assert (E3 : forall k, k ∉ ["messages"; "thinking"; "max_tokens"] -> am_lookup k p3.1 = am_lookup k fields).
  { intros k Hk. rewrite (changes_keep _ _ _ _ C3), (changes_keep _ _ _ _ C2), (changes_keep _ _ _ _ C1) by set_solver. done. }
  assert (E31 : am_lookup "messages" p3.1 = am_lookup "messages" p1.1).
  { by rewrite (changes_keep _ _ _ _ C3), (changes_keep _ _ _ _ C2) by set_solver. }
  assert (E64 : am_lookup "messages" p6.1 = am_lookup "messages" p4.1).
  { by rewrite (changes_keep _ _ _ _ C6), (changes_keep _ _ _ _ C5) by set_solver. }
  assert (Hs : schema_replaced rule p3.1 = schema_replaced rule fields) by (apply schema_replaced_ext, E3; set_solver).
  split_and!.
  - unfold objects_related, messages_kept. destruct (am_lookup "messages" fields ≫= raw_objects) as [l|] eqn:El.
    + pose proof (remap_moves rule body (fields, no_compatibility) p1 l Hg H1 El) as Hm. rewrite <-E31 in Hm.
      destruct (json_schema_list rule p3 p4 l G3 H4 Hm) as (l1 & Hi & Hm1). rewrite <-E64 in Hm1. rewrite Hs in Hi.
      destruct (omit_kept rule p6 p l1 H7 Hm1) as (l' & Hl' & Hk). eauto.
    + pose proof (remap_no_list _ _ (fields, no_compatibility) _ H1 El) as R1. cbn [fst] in R1. rewrite <-E31 in R1.
      pose proof (json_schema_no_list _ _ _ H4 ltac:(by rewrite R1)) as R2. rewrite <-E64 in R2.
      pose proof (omit_no_list _ _ _ H7 ltac:(by rewrite R2, R1)) as R3. rewrite R3, R2, R1. destruct (am_lookup "messages" fields); constructor. constructor.
  - rewrite (changes_keep _ _ _ _ C7) by set_solver. replace (am_lookup "tools" fields) with (am_lookup "tools" p4.1); [by eapply tools_steps|].
    rewrite (changes_keep _ _ _ _ C4) by set_solver. apply E3. set_solver.
  - pose proof (json_schema_fields _ _ _ H4) as Hf. unfold format_kept in Hf |- *. rewrite Hs in Hf.
    assert (forall k, k ∈ ["response_format"; "json_schema"; "structured_outputs"] -> am_lookup k p.1 = am_lookup k p4.1) as E74.
    { intros k Hk. rewrite (changes_keep _ _ _ _ C7), (changes_keep _ _ _ _ C6), (changes_keep _ _ _ _ C5) by set_solver. done. }
    destruct (schema_replaced rule fields); [by rewrite !E74 by set_solver|]. intros k Hk. rewrite E74, Hf by done. apply E3. set_solver.
  - rewrite (changes_keep _ _ _ _ C7), (changes_keep _ _ _ _ C6), (changes_keep _ _ _ _ C5), (changes_keep _ _ _ _ C4), (changes_keep _ _ _ _ C3) by set_solver.
    subst p2. rewrite <-(changes_keep _ "thinking" _ _ C1) by set_solver. destruct p1 as [f1 c1]. unfold apply_thinking. cbn [fst].
    destruct (am_lookup "thinking" f1) eqn:E; [by rewrite decide_False by naive_solver|].
    destruct (decide (rl_DefaultThinking rule = DefaultThinkingDisabled)); [rewrite decide_True by done; apply am_lookup_insert|by rewrite decide_False by naive_solver].
  - rewrite (changes_keep _ _ _ _ C7), (changes_keep _ _ _ _ C6), (changes_keep _ _ _ _ C5), (changes_keep _ _ _ _ C4) by set_solver.
    subst p3. rewrite <-(changes_keep _ "max_tokens" _ _ C1), <-(changes_keep _ "max_completion_tokens" _ _ C1) by set_solver.
    rewrite <-(changes_keep _ "max_tokens" _ _ C2), <-(changes_keep _ "max_completion_tokens" _ _ C2) by set_solver.
    destruct p2 as [f2 c2]. unfold apply_max_tokens. cbn [fst].
    destruct (am_lookup "max_tokens" f2) eqn:E1; [by rewrite decide_False by naive_solver|].
    destruct (am_lookup "max_completion_tokens" f2) eqn:E2; [by rewrite decide_False by naive_solver|].
    destruct (decide (0 < rl_DefaultMaxTokens rule)%Z); [rewrite decide_True by done; apply am_lookup_insert|by rewrite decide_False by naive_solver].
Qed.

Lemma apply_rule_spec `{FC : FloatConversion} rule body fields p : good_fields fields -> apply_rule rule body fields = Ok p ->
  rule_applied rule fields p.1.
Proof.
  intros Hg Ha. unfold apply_rule in Ha. apply res_bind_ok in Ha as (p1 & H1 & Ha). apply res_bind_ok in Ha as (p4 & H4 & Ha).
  apply res_bind_ok in Ha as (p5 & H5 & Ha). apply res_bind_ok in Ha as (p6 & H6 & H7).
  set (p2 := apply_thinking rule p1) in *. set (p3 := apply_max_tokens rule p2) in *.
  pose proof (remap_changes _ _ _ _ H1) as C1. pose proof (thinking_changes rule p1) as C2. fold p2 in C2.
  pose proof (max_tokens_changes rule p2) as C3. fold p3 in C3. pose proof (json_schema_changes _ _ _ H4) as C4.
  pose proof (types_changes _ _ _ H5) as C5. pose proof (moonshot_changes _ _ _ H6) as C6. pose proof (omit_changes _ _ _ H7) as C7.
  cbn [fst] in C1.
  assert (Call : changes rule_keys fields p.1).
  { repeat (eapply changes_trans; [eapply changes_weaken; [|eassumption]; set_solver|]). apply changes_none. }
  unfold rule_applied. split; [done|]. pose proof (proj1 C1 Hg) as G1. pose proof (proj1 C2 G1) as G2. pose proof (proj1 C3 G2) as G3. split_and!.
  - intros Hr. pose proof (remap_no_developer _ _ (fields, no_compatibility) _ Hg H1 Hr) as N1.
    rewrite <-(changes_keep _ "messages" _ _ C2), <-(changes_keep _ "messages" _ _ C3) in N1 by set_solver.
    pose proof (json_schema_no_developer _ _ _ G3 H4 N1) as N4.
    rewrite <-(changes_keep _ "messages" _ _ C5), <-(changes_keep _ "messages" _ _ C6) in N4 by set_solver.
    by eapply omit_no_developer.
  - intros Ht. rewrite (changes_keep _ _ _ _ C7), (changes_keep _ _ _ _ C6), (changes_keep _ _ _ _ C5), (changes_keep _ _ _ _ C4), (changes_keep _ _ _ _ C3) by set_solver.
    subst p2. destruct p1 as [f1 c1]. unfold apply_thinking. case_decide as Hd; cbn [fst]; [by rewrite am_lookup_insert|].
    destruct (am_lookup "thinking" f1) eqn:E; [done|]. tauto.
  - intros Ht. rewrite !(changes_keep _ _ _ _ C7), !(changes_keep _ _ _ _ C6), !(changes_keep _ _ _ _ C5), !(changes_keep _ _ _ _ C4) by set_solver.
    subst p3. destruct p2 as [f2 c2]. unfold apply_max_tokens. case_decide as Hd; cbn [fst]; [left; by rewrite am_lookup_insert|].
    destruct (am_lookup "max_tokens" f2) eqn:E1; [by left|]. destruct (am_lookup "max_completion_tokens" f2) eqn:E2; [by right|]. tauto.
  - intros Hm. rewrite (changes_keep _ _ _ _ C7), (changes_keep _ _ _ _ C6), (changes_keep _ _ _ _ C5) by set_solver. by eapply json_schema_format.
Qed.

(** What the document that is sent has of the request. *)
Definition request_kept `{FC : FloatConversion} (rule : ChatCompletionRule) (before : raw_object) (t : json) : Prop :=
  (forall k, k ∉ rule_keys -> member k t = jesc <$> am_lookup k before) /\
  objects_related (messages_kept rule (schema_replaced rule before)) (am_lookup "messages" before) (member "messages" t) /\
  objects_related (tools_kept rule) (am_lookup "tools" before) (member "tools" t) /\
  match schema_replaced rule before with
  | Some _ => member "response_format" t = Some json_object_format /\ member "json_schema" t = None /\ member "structured_outputs" t = None
  | None => forall k, k ∈ ["response_format"; "json_schema"; "structured_outputs"] -> member k t = jesc <$> am_lookup k before
  end /\
  member "thinking" t = match am_lookup "thinking" before with
    | None => if decide (rl_DefaultThinking rule = DefaultThinkingDisabled) then Some (JObj [("type", JStr "disabled")]) else None
    | Some value => Some (jesc value)
    end /\
  member "max_tokens" t = match am_lookup "max_tokens" before, am_lookup "max_completion_tokens" before with
    | None, None => if decide (0 < rl_DefaultMaxTokens rule)%Z then Some (json_int (rl_DefaultMaxTokens rule)) else None
    | value, _ => jesc <$> value
    end.

Lemma written_kept `{FC : FloatConversion} rule before after t : good_fields after -> changes rule_keys before after -> rule_kept rule before after ->
  (forall k, member k t = jesc <$> am_lookup k after) -> request_kept rule before t.
Proof.
  intros Hg [_ Hk] (Hm & Ht & Hf & Hth & Hmax) Hmem. unfold request_kept. rewrite !Hmem. split_and!.
  - intros k Hn. by rewrite Hmem, Hk.
  - apply messages_related_jesc; [|done]. intros x Hx. by eapply good_lookup.
  - apply tools_related_jesc; [|done]. intros x Hx. by eapply good_lookup.
  - unfold format_kept in Hf. destruct (schema_replaced rule before); [by destruct Hf as (-> & -> & ->)|]. intros k Hin. by rewrite Hmem, Hf.
  - rewrite Hth. destruct (am_lookup "thinking" before); [done|]. by destruct (decide _).
  - rewrite Hmax. destruct (am_lookup "max_tokens" before), (am_lookup "max_completion_tokens" before); try done.
    destruct (decide (0 < rl_DefaultMaxTokens rule)%Z); reflexivity.
Qed.

(** C23 (functional): a request that a rule rewrites is sent as a document that meets
    the rule: no message has the developer role, thinking and a token limit are set,
    and no JSON schema is asked for, each when the rule says so.  Everything else is
    kept, up to decoding and encoding again: the fields the rule is not about; the
    messages one by one, except that developer becomes system, empty contents of
    assistant messages with tool calls are left out and the instruction for a
    replaced JSON schema comes first; the tools one by one, except for the
    parameters of functions that are completed or sanitized; a thinking field or
    token limit that was there; and the response format unless it was the JSON
    schema.  A request no rule applies to is sent as it came. *)
Theorem rewritten_request `{FC : FloatConversion} `{LT : LetterTable} body rules t out c :
  jparse body = Some t -> jok t = true -> NormalizeChatCompletionRequest body rules = Ok (out, c) ->
  if Applied c then
    exists fields rule t', raw_map t = Some fields /\
      chatCompletionRuleForModel (rawStringField fields "model") rules = Some rule /\ jparse out = Some t' /\
      request_kept rule fields t' /\
      (rl_RemapDeveloperRole rule = true -> no_developer (member "messages" t')) /\
      (rl_DefaultThinking rule = DefaultThinkingDisabled -> is_Some (member "thinking" t')) /\
      ((0 < rl_DefaultMaxTokens rule)%Z -> is_Some (member "max_tokens" t') \/ is_Some (member "max_completion_tokens" t')) /\
      (rl_JSONSchemaMode rule = JSONSchemaModeObjectInstruction -> format_type (member "response_format" t') <> Some "json_schema")
  else out = body.
Proof.
  intros Hp Hok Hn. unfold NormalizeChatCompletionRequest in Hn. apply res_bind_ok in Hn as (fields & Hf & Hn).
  assert (Hfields : raw_map t = Some fields).
  { unfold decodeRawFields in Hf. rewrite Hp in Hf. destruct t; try done. by injection Hf as <-. }
  cbv zeta in Hn. apply res_bind_ok in Hn as (p & Hr & Hn). destruct (Applied p.2) eqn:Ea; simpl negb in Hn; cbv iota in Hn; injection Hn as <- <-.
  2: { by rewrite Ea. }
  rewrite Ea. destruct (chatCompletionRuleForModel _ rules) as [rule|] eqn:Erule; [|by injection Hr as <-].
  pose proof (raw_map_fields_ok t fields Hok Hfields) as Hg. destruct (apply_rule_spec rule body fields p Hg Hr) as (Hch & Hd & Ht & Hm & Hs).
  pose proof (proj1 Hch Hg) as Hgood. destruct (raw_map_json_read p.1 (proj1 Hgood) (proj2 Hgood)) as [Hw Hread].
  assert (Hmem : forall k, member k (raw_map_json p.1) = jesc <$> am_lookup k p.1) by (intros k; unfold member; rewrite Hread; apply am_lookup_map).
  exists fields, rule, (raw_map_json p.1). split_and!; [done|done|exact (jparse_jprint _ Hw)|..].
  - by eapply written_kept; [..|by eapply apply_rule_keeps|].
  - intros Hrule. rewrite Hmem. specialize (Hd Hrule). destruct (am_lookup "messages" p.1) as [m|] eqn:E; [|done].
    apply no_developer_jesc; [by eapply good_lookup|done].
  - intros Hrule. rewrite Hmem. by apply fmap_is_Some, Ht.
  - intros Hrule. rewrite !Hmem, !fmap_is_Some. by apply Hm.
  - intros Hrule. rewrite Hmem. specialize (Hs Hrule). destruct (am_lookup "response_format" p.1) as [m|] eqn:E; [|done].
    unfold format_type in *. simpl in *. pose proof (good_lookup _ _ _ Hgood E) as He.
    destruct (escapable_raw_map m He) as [Hq|Hq]; rewrite Hq; [|done]. destruct (raw_map m) as [fm|] eqn:Efm; [|done]. simpl in *.
    rewrite am_lookup_map. destruct (am_lookup "type" fm) as [ft|] eqn:Eft; [|done]. simpl in *.
    rewrite escapable_string; [done|]. eapply good_lookup; [|exact Eft]. by eapply escapable_fields.
Qed.

Definition any_float : FloatConversion := {| float_overflow _ := 0%Z |}.

Definition demo_rule : ChatCompletionRule :=
  {| rl_Model := "kimi*"; rl_RemapDeveloperRole := true; rl_DefaultThinking := "disabled"; rl_DefaultMaxTokens := 512;
     rl_JSONSchemaMode := "json_object_instruction"; rl_EnsureToolParameterPropertyTypes := true;
     rl_SanitizeMoonshotToolSchema := true; rl_OmitEmptyAssistantToolContent := true;
     rl_RetryInvalidToolArguments := false; rl_InvalidToolArgumentsFallback := "none" |}.

Definition demo_request : string :=
  sq "{'model':'Kimi-K2','temperature':0,'messages':[{'role':'developer','content':'be brief'},{'role':'user','content':'hi'}],'response_format':{'type':'json_schema','json_schema':{'schema':{'type':'object'}}}}".

Definition demo_tree : json := Eval vm_compute in default JNull (jparse demo_request).

Definition demo_rewritten : string * ChatCompletionCompatibility := Eval vm_compute in
  match NormalizeChatCompletionRequest (H := any_float) (H0 := ascii_letters) demo_request [demo_rule] with Ok p => p | _ => ("", no_compatibility) end.

Lemma demo_parsed : jparse demo_request = Some demo_tree.
Proof. vm_compute. reflexivity. Qed.

Lemma demo_rule_applied :
  NormalizeChatCompletionRequest (H := any_float) (H0 := ascii_letters) demo_request [demo_rule] = Ok (demo_rewritten.1, demo_rewritten.2).
Proof. vm_compute. reflexivity. Qed.

Lemma temperature_kept : "temperature" ∉ rule_keys.
Proof. unfold rule_keys. set_solver. Qed.

Lemma rewritten_request_witness :
  Applied demo_rewritten.2 = true /\
  exists fields rule t', raw_map demo_tree = Some fields /\
    chatCompletionRuleForModel (H := ascii_letters) (rawStringField fields "model") [demo_rule] = Some rule /\
    jparse demo_rewritten.1 = Some t' /\ member "temperature" t' = jesc <$> am_lookup "temperature" fields /\
    objects_related (messages_kept rule (schema_replaced rule fields)) (am_lookup "messages" fields) (member "messages" t') /\
    (rl_RemapDeveloperRole rule = true -> no_developer (member "messages" t')).
Proof.
  split; [reflexivity|].
  pose proof (rewritten_request (FC := any_float) (LT := ascii_letters) demo_request [demo_rule] demo_tree demo_rewritten.1 demo_rewritten.2
    demo_parsed eq_refl demo_rule_applied) as H.
  destruct (Applied demo_rewritten.2) eqn:E; [|discriminate E].
  destruct H as (fields & rule & t' & Hf & Hr & Hp & Hk & Hd & _). exists fields, rule, t'.
  exact (conj Hf (conj Hr (conj Hp (conj (proj1 Hk _ temperature_kept) (conj (proj1 (proj2 Hk)) Hd))))).
Defined.

(** ** What rewriting misses *)

(** Fact (error): developer roles are remapped, but counted by a second decoding that
    fails when another message has a role that is no text; the count is then zero,
    nothing counts as applied, and the request is sent with its developer roles. *)
Theorem developer_role_sent :
  let rule := {| rl_Model := "*"; rl_RemapDeveloperRole := true; rl_DefaultThinking := "passthrough"; rl_DefaultMaxTokens := 0;
                 rl_JSONSchemaMode := "passthrough"; rl_EnsureToolParameterPropertyTypes := false;
                 rl_SanitizeMoonshotToolSchema := false; rl_OmitEmptyAssistantToolContent := false;
                 rl_RetryInvalidToolArguments := false; rl_InvalidToolArgumentsFallback := "none" |} in
  let body := sq "{'model':'m','messages':[{'role':'developer'},{'role':5}]}" in
  NormalizeChatCompletionRequest (H := any_float) (H0 := ascii_letters) body [rule] = Ok (body, no_compatibility) /\
  exists t, remapDeveloperMessages (jparse body ≫= member "messages") = Ok (Some t).
Proof. split; [vm_compute; reflexivity|]. eexists. vm_compute. reflexivity. Qed.

(** Fact (safety): the type inferred for a property need not be the type of the values
    its enumeration allows. *)
Theorem inferred_type_excludes_value `{FC : FloatConversion} :
  inferSchemaType [("enum", GArr [GStr "auto"; GNull])] = "string".
Proof. reflexivity. Qed.

(** Fact (safety): a tuple inside a tuple is left in place by one pass. *)
Theorem nested_tuple_stays :
  let once := (sanitizeMoonshotSchemaNode (GMap [("items", GArr [GArr [GMap []]])])).1 in
  once = GMap [("items", GArr [GMap []])] /\ (sanitizeMoonshotSchemaNode once).2 = true.
Proof. split; reflexivity. Qed.
