(* ===== verification/RetrievalHandlers.v ===== *)
(** * HTTP handlers of files and vector stores: internal/httpapi/handlers_retrieval.go

    A handler gets the parts of the request it reads, as in [Handlers]; a form is
    read by net/http, so that an upload comes as its values and its file, or as
    the failure to parse it.  Metrics and log lines are left out.  The theorems
    at the end: a search that is answered was asked within the limits and lists
    the best matches, a file is downloaded as it was uploaded, and what failing
    requests leave behind. *)

From S2P Require Import Prelude GoStr GoFloat GoJson JsonFacts StrFacts GoInt FloatOps GoTime World Items Normalize Context Store ToolMarkup Response Chat ChatStream ApiErrors ApiErrorProps Handlers Catalog Guard Terms TermProps Retrieval Ranking RankingProps VectorStore IndexProps SearchProps.
From Stdlib Require Import QArith.
#[local] Open Scope nat_scope.

Definition defaultFilesLimit : Z := 10000.
Definition maxFilesLimit : Z := 10000.
Definition defaultVectorStoresLimit : Z := 20.
Definition maxVectorStoresLimit : Z := 100.
Definition defaultVectorStoreFilesLimit : Z := 20.
Definition maxVectorStoreFilesLimit : Z := 100.
Definition defaultSearchResultsLimit : Z := 10.
Definition maxSearchResultsLimit : Z := 50.

(** ** Answers *)

Definition optional_int (z : option Z) : json := match z with None => JNull | Some z => json_int z end.

Definition fileObjectPayload (file : StoredFile) : json :=
  JObj ([("id", json_str (sf_ID file)); ("object", json_str "file"); ("bytes", json_int (sf_Bytes file));
         ("created_at", json_int (sf_CreatedAt file)); ("expires_at", optional_int (sf_ExpiresAt file));
         ("filename", json_str (sf_Filename file)); ("purpose", json_str (sf_Purpose file))] ++
        (if decide (TrimSpace (sf_Status file) = "") then [] else [("status", json_str (sf_Status file))]) ++
        [("status_details", optional_json (sf_StatusDetails file))]).

Definition file_counts_json (counts : VectorStoreFileCounts) : json :=
  JObj [("in_progress", json_int (fc_InProgress counts)); ("completed", json_int (fc_Completed counts));
        ("failed", json_int (fc_Failed counts)); ("cancelled", json_int (fc_Cancelled counts)); ("total", json_int (fc_Total counts))].

Definition policy_json (policy : option VectorStoreExpirationPolicy) : json :=
  match policy with
  | None => JNull
  | Some policy => JObj [("anchor", json_str (ep_Anchor policy)); ("days", json_int (ep_Days policy))]
  end.

Definition vectorStorePayload (store : StoredVectorStore) : json :=
  JObj [("id", json_str (sv_ID store)); ("object", json_str "vector_store"); ("created_at", json_int (sv_CreatedAt store));
        ("name", json_str (sv_Name store)); ("metadata", metadata_json (sv_Metadata store)); ("status", json_str (sv_Status store));
        ("usage_bytes", json_int (sv_UsageBytes store)); ("file_counts", file_counts_json (sv_FileCounts store));
        ("last_active_at", json_int (sv_LastActiveAt store)); ("expires_after", policy_json (sv_ExpiresAfter store));
        ("expires_at", optional_int (sv_ExpiresAt store))].

(** omitempty *)
Definition attributes_member (attrs : list (string * gval)) : list (string * json) :=
  match attrs with [] => [] | _ => [("attributes", of_any (GMap attrs))] end.

Definition vectorStoreFilePayload (file : StoredVectorStoreFile) : json :=
  JObj ([("id", json_str (vt_ID file)); ("object", json_str "vector_store.file"); ("created_at", json_int (vt_CreatedAt file));
         ("usage_bytes", json_int (vt_UsageBytes file)); ("vector_store_id", json_str (vt_VectorStoreID file));
         ("status", json_str (vt_Status file)); ("last_error", from_option file_error_json JNull (vt_LastError file))] ++
        attributes_member (vt_Attributes file) ++ [("chunking_strategy", strategy_json (vt_ChunkingStrategy file))]).

Definition list_json (ids : list string) (data : list json) (hasMore : bool) : json :=
  JObj [("object", json_str "list"); ("data", JArr data); ("first_id", optional_json (head ids)); ("last_id", optional_json (last ids));
        ("has_more", JBool hasMore)].

Definition deleted_json (id object : string) : json :=
  JObj [("id", json_str id); ("object", json_str object); ("deleted", JBool true)].

Definition result_json (result : VectorStoreSearchResult) : json :=
  JObj ([("file_id", json_str (sr_FileID result)); ("filename", json_str (sr_Filename result)); ("score", JNum (float_text (sr_Score result)))] ++
        attributes_member (sr_Attributes result) ++
        [("content", JArr (map (fun c => JObj [("type", json_str (rc_Type c)); ("text", json_str (rc_Text c))]) (sr_Content result)))]).

Definition search_json (page : VectorStoreSearchPage) : json :=
  JObj [("object", json_str "vector_store.search_results.page"); ("search_query", of_any (sp_SearchQuery page));
        ("data", JArr (map result_json (sp_Results page))); ("has_more", JBool (sp_HasMore page)); ("next_page", JNull)].

Fixpoint sanitizeContentDispositionFilename (name : string) : string :=
  match name with
  | "" => ""
  | String a name =>
      String (if decide (a ∈ [backslash; dquote; chr 10; chr 13]) then chr 95 else a) (sanitizeContentDispositionFilename name)
  end.

(** ** Queries *)

Definition limit_in (fallback maximum : Z) (rawLimit : string) : res Z :=
  if decide (rawLimit = "") then Ok fallback
  else
    let bad := Err (NewValidationError "limit" ("limit must be between 1 and " +:+ int_text maximum)) in
    match Atoi rawLimit with
    | None => bad
    | Some limit => if ((limit <? 1) || (maximum <? limit))%Z then bad else Ok limit
    end.

Definition order_in (rawOrder : string) : res string :=
  if decide (rawOrder = "") then Ok Retrieval.ListOrderDesc
  else if decide (rawOrder <> Retrieval.ListOrderAsc /\ rawOrder <> Retrieval.ListOrderDesc)
  then Err (NewValidationError "order" "order must be one of asc or desc") else Ok rawOrder.

Definition parseListFilesQuery (values : Values) : res ListFilesQuery :=
  limit ← limit_in defaultFilesLimit maxFilesLimit (values_get values "limit");
  order ← order_in (values_get values "order");
  Ok {| lf_Purpose := values_get values "purpose"; lf_After := values_get values "after"; lf_Limit := limit; lf_Order := order |}.

Definition parseListVectorStoresQuery (values : Values) : res ListVectorStoresQuery :=
  limit ← limit_in defaultVectorStoresLimit maxVectorStoresLimit (values_get values "limit");
  order ← order_in (values_get values "order");
  Ok {| lv_After := values_get values "after"; lv_Before := values_get values "before"; lv_Limit := limit; lv_Order := order |}.

Definition parseListVectorStoreFilesQuery (storeID : string) (values : Values) : res ListVectorStoreFilesQuery :=
  limit ← limit_in defaultVectorStoreFilesLimit maxVectorStoreFilesLimit (values_get values "limit");
  order ← order_in (values_get values "order");
  let filter := TrimSpace (values_get values "filter") in
  if decide (filter <> "" /\ filter ∉ ["in_progress"; "completed"; "failed"; "cancelled"])
  then Err (NewValidationError "filter" "filter must be one of in_progress, completed, failed, or cancelled")
  else Ok {| lvf_VectorStoreID := storeID; lvf_After := values_get values "after"; lvf_Before := values_get values "before";
             lvf_Filter := values_get values "filter"; lvf_Limit := limit; lvf_Order := order |}.

(** ** Search requests *)

Definition query_error {A} (message : string) : res A := Err (NewValidationError "query" message).

(** The queries and the value shown for them. *)
Definition parseVectorStoreSearchQuery (raw : option json) : res (list string * gval) :=
  match raw with
  | None | Some JNull => query_error "query is required"
  | Some (JStr lit) =>
      if decide (TrimSpace (unquote lit) = "") then query_error "query must be a non-empty string"
      else Ok ([unquote lit], GStr (unquote lit))
  | Some (JArr items) =>
      match opt_map string_of items with
      | None | Some [] => query_error "query must be a string or non-empty array of strings"
      | Some values =>
          if existsb (fun value => bool_decide (TrimSpace value = "")) values then query_error "query array must not contain empty strings"
          else Ok (values, texts values)
      end
  | Some _ => query_error "query must be a string or non-empty array of strings"
  end.

(** A weight that is absent or null is one. *)
Definition weight_of (param name : string) (payload : list (string * gval)) : res float64 :=
  match am_lookup name payload with
  | None | Some GNull => Ok (f_of_int 1)
  | Some (GNum weight) =>
      if fltb weight f0 then Err (NewValidationError (param +:+ "." +:+ name) (param +:+ "." +:+ name +:+ " must be non-negative"))
      else Ok weight
  | Some _ => Err (NewValidationError (param +:+ "." +:+ name) (param +:+ "." +:+ name +:+ " must be a number"))
  end.

Definition parseHybridSearchOptions `{MapOrder} (raw : option json) (param : string) : res (option VectorStoreHybridSearchOptions) :=
  match raw with
  | None | Some JNull => Ok None
  | Some t =>
      match any_map t with
      | None => Err (NewValidationError param (param +:+ " must be an object"))
      | Some payload =>
          let payload := default [] payload in
          match filter (fun kv => kv.1 ∉ ["embedding_weight"; "text_weight"]) (map_order payload) with
          | kv :: _ => Err (NewValidationError param ("unsupported " +:+ param +:+ " field " +:+ String dquote (kv.1 +:+ char_string dquote)))
          | [] =>
              embedding ← weight_of param "embedding_weight" payload;
              text ← weight_of param "text_weight" payload;
              if fleb embedding f0 && fleb text f0
              then Err (NewValidationError param (param +:+ ".embedding_weight or " +:+ param +:+ ".text_weight must be greater than zero"))
              else Ok (Some {| EmbeddingWeight := embedding; TextWeight := text |})
          end
      end
  end.

(** ** Expiry *)

Definition policy_into (before : string * Z) (t : json) : option (string * Z) :=
  members ← struct_members t;
  anchor ← field_into string_into "anchor" members before.1;
  days ← field_into (fun z t => match t with JNull => Some z | _ => int_of t end) "days" members before.2;
  Some (anchor, days).

(** The product is an int, and wraps around. *)
Definition parseVectorStoreExpiresAfter (now : Z) (raw : option json) : res (option VectorStoreExpirationPolicy * option Z) :=
  match raw with
  | None | Some JNull => Ok (None, None)
  | Some t =>
      match policy_into ("", 0%Z) t with
      | None => Err (NewValidationError "expires_after" "expires_after must be an object")
      | Some (anchor, days) =>
          if decide (anchor <> "last_active_at") then
            Err (NewValidationError "expires_after.anchor" "expires_after.anchor must be last_active_at")
          else if (days <? 1)%Z then Err (NewValidationError "expires_after.days" "expires_after.days must be positive")
          else Ok (Some {| ep_Anchor := anchor; ep_Days := days |}, Some (wrap_int (now + wrap_int (days * 86400))))
      end
  end.

Definition parseFileExpiresAt (now : Z) (form : Values) : res (option Z) :=
  let anchors := default [] (am_lookup "expires_after[anchor]" form) in
  let secondsValues := default [] (am_lookup "expires_after[seconds]" form) in
  match anchors, secondsValues with
  | [], [] => Ok None
  | anchor :: _, seconds :: _ =>
      if decide (anchor <> "created_at") then Err (NewValidationError "expires_after.anchor" "expires_after.anchor must be created_at")
      else
        let bad := Err (NewValidationError "expires_after.seconds" "expires_after.seconds must be a positive integer") in
        match Atoi seconds with
        | None => bad
        | Some seconds => if (seconds <? 1)%Z then bad else Ok (Some (wrap_int (now + seconds)))
        end
  | _, _ => Err (NewValidationError "expires_after" "expires_after requires both anchor and seconds")
  end.

(** ** The handlers *)

Record rhworld := { rh_store : rworld; rh_ids : nat; rh_gate : option concurrencyGate }.

Inductive rreply :=
| Answer (status : Z) (body : json)
| Download (filename content : string).

(** A form of the request: its values with those of the query, its own values, and
    the file, whose reading may fail. *)
Inductive form_read :=
| FormFailed
| FormRead (all values : Values) (file : option (string * option string)).

Definition bad_request (message : string) : rreply := Answer 400 (error_json (newAPIError "invalid_request_error" message "" "")).

Section handlers.
Context `{Sqlite} `{UnixClock} `{LetterTable} `{MapOrder} `{IdSource} `{LibraryText} `{RB : retrievalBackend}.
Context (limits : ServiceLimits).

Definition error_answer_of (e : goerr) : rreply := let '(status, payload) := MapError (Some e) in Answer status (error_json payload).

Definition on_rstore {A} (m : ST rworld A) : ST rhworld A := fun w =>
  let '(r, s) := m (rh_store w) in (r, {| rh_store := s; rh_ids := rh_ids w; rh_gate := rh_gate w |}).

Definition on_rids {A} (m : ST nat A) : ST rhworld A := fun w =>
  let '(r, n) := m (rh_ids w) in (r, {| rh_store := rh_store w; rh_ids := n; rh_gate := rh_gate w |}).

(** Errors of a step are the answer. *)
Definition otherwise {A} (m : ST rhworld A) (k : A -> ST rhworld rreply) : ST rhworld rreply := fun w =>
  match m w with
  | (Ok a, w') => k a w'
  | (Err e, w') => (Ok (error_answer_of e), w')
  | (Panic, w') => (Panic, w')
  end.

Definition ok_json (body : json) : ST rhworld rreply := mret (Answer 200 body).

Definition createFile (form : form_read) : ST rhworld rreply :=
  match form with
  | FormFailed => mret (bad_request "malformed multipart form body")
  | FormRead all values file =>
      let purpose := TrimSpace (values_get all "purpose") in
      if decide (purpose = "") then mret (error_answer_of (NewValidationError "purpose" "purpose is required"))
      else
        otherwise (now ← on_rstore now_unix; st_lift (parseFileExpiresAt now values)) (fun expiresAt =>
        match file with
        | None => mret (error_answer_of (NewValidationError "file" "file is required"))
        | Some (filename, None) => mret (bad_request "failed to read uploaded file")
        | Some (filename, Some whole) =>
            let content := stake (Z.to_nat (wrap_int (sl_RetrievalFileUploadBytes limits + 1))) whole in
            if (sl_RetrievalFileUploadBytes limits <? Z.of_nat (String.length content))%Z
            then mret (error_answer_of (NewValidationError "file" "file exceeds the configured shim-local upload limit"))
            else
              otherwise (on_rids (NewPrefixedID "file")) (fun fileID =>
              otherwise (on_rstore now_unix) (fun now =>
              let file := {| sf_ID := fileID; sf_Filename := filename; sf_Purpose := purpose;
                             sf_Bytes := Z.of_nat (String.length content); sf_CreatedAt := now; sf_ExpiresAt := expiresAt;
                             sf_Status := "processed"; sf_StatusDetails := None; sf_Content := content |} in
              otherwise (on_rstore (SaveFile file)) (fun _ => ok_json (fileObjectPayload file))))
        end)
  end.

Definition listFiles (values : Values) : ST rhworld rreply :=
  otherwise (query ← st_lift (parseListFilesQuery values); on_rstore (ListFiles query)) (fun '(page, hasMore) =>
  ok_json (list_json (map sf_ID page) (map fileObjectPayload page) hasMore)).

Definition getFile (fileID : string) : ST rhworld rreply :=
  otherwise (on_rstore (GetFile fileID)) (fun file => ok_json (fileObjectPayload file)).

Definition deleteFile (fileID : string) : ST rhworld rreply :=
  otherwise (on_rstore (DeleteFile fileID)) (fun _ => ok_json (deleted_json fileID "file")).

Definition getFileContent (fileID : string) : ST rhworld rreply :=
  otherwise (on_rstore (GetFile fileID)) (fun file =>
  mret (Download (sanitizeContentDispositionFilename (sf_Filename file)) (sf_Content file))).

(** name, file_ids, metadata, expires_after *)
Definition store_request (rawBody : string) : option (string * list string * string * option json) :=
  if decide (TrimSpace rawBody = "" \/ TrimSpace rawBody = "null") then Some ("", [], "", None)
  else
    members ← jparse rawBody ≫= struct_members;
    name ← field_string "name" members;
    fileIDs ← field_into (decode_slice string_into "") "file_ids" members None;
    Some (name, elements fileIDs, from_option jprint "" (field_raw "metadata" members), field_raw "expires_after" members).

Fixpoint attach_all (storeID : string) (now : Z) (fileIDs : list string) : ST rhworld unit :=
  match fileIDs with
  | [] => mret tt
  | fileID :: fileIDs =>
      if decide (TrimSpace fileID = "") then st_err (NewValidationError "file_ids" "file_ids must not contain empty values")
      else _ ← on_rstore (AttachFileToVectorStore storeID (TrimSpace fileID) [] DefaultFileChunkingStrategy now);
           attach_all storeID now fileIDs
  end.

Definition with_body (body : body_read) (k : string -> ST rhworld rreply) : ST rhworld rreply :=
  match body with
  | BodyRead rawBody => k rawBody
  | BodyTooLarge => mret (bad_request "request body is too large")
  | BodyFailed => mret (bad_request "failed to read request body")
  end.

Definition createVectorStore (body : body_read) : ST rhworld rreply :=
  with_body body (fun rawBody =>
  match store_request rawBody with
  | None => mret (bad_request "malformed JSON body")
  | Some (name, fileIDs, rawMetadata, rawExpires) =>
      otherwise (st_lift (NormalizeResponseMetadata rawMetadata)) (fun metadata =>
      otherwise (now ← on_rstore now_unix; st_lift (parseVectorStoreExpiresAfter now rawExpires)) (fun '(expiresAfter, expiresAt) =>
      otherwise (on_rids (NewPrefixedID "vs")) (fun storeID =>
      otherwise (on_rstore now_unix) (fun now =>
      otherwise (on_rstore (SaveVectorStore
        {| sv_ID := storeID; sv_Name := name; sv_Metadata := metadata; sv_CreatedAt := now; sv_LastActiveAt := now; sv_Status := "";
           sv_UsageBytes := 0; sv_FileCounts := no_counts; sv_ExpiresAfter := expiresAfter; sv_ExpiresAt := expiresAt |})) (fun _ =>
      otherwise (attach_all storeID now fileIDs) (fun _ =>
      otherwise (on_rstore (GetVectorStore storeID)) (fun stored => ok_json (vectorStorePayload stored))))))))
  end).

Definition listVectorStores (values : Values) : ST rhworld rreply :=
  otherwise (query ← st_lift (parseListVectorStoresQuery values); on_rstore (ListVectorStores query)) (fun '(page, hasMore) =>
  ok_json (list_json (map sv_ID page) (map vectorStorePayload page) hasMore)).

Definition getVectorStore (storeID : string) : ST rhworld rreply :=
  otherwise (on_rstore (GetVectorStore storeID)) (fun store => ok_json (vectorStorePayload store)).

Definition deleteVectorStore (storeID : string) : ST rhworld rreply :=
  otherwise (on_rstore (DeleteVectorStore storeID)) (fun _ => ok_json (deleted_json storeID "vector_store.deleted")).

(** file_id, attributes, chunking_strategy *)
Definition attach_request (rawBody : string) : option (string * string * string) :=
  members ← jparse rawBody ≫= struct_members;
  fileID ← field_string "file_id" members;
  Some (fileID, from_option jprint "" (field_raw "attributes" members), from_option jprint "" (field_raw "chunking_strategy" members)).

Definition createVectorStoreFile (storeID : string) (body : body_read) : ST rhworld rreply :=
  with_body body (fun rawBody =>
  match attach_request rawBody with
  | None => mret (bad_request "malformed JSON body")
  | Some (fileID, rawAttributes, rawStrategy) =>
      if decide (TrimSpace fileID = "") then mret (error_answer_of (NewValidationError "file_id" "file_id is required"))
      else
        otherwise (st_lift (NormalizeRetrievalAttributes rawAttributes "attributes")) (fun attrs =>
        otherwise (st_lift (NormalizeFileChunkingStrategy rawStrategy "chunking_strategy")) (fun strategy =>
        otherwise (now ← on_rstore now_unix; on_rstore (AttachFileToVectorStore storeID (TrimSpace fileID) attrs strategy now)) (fun file =>
        ok_json (vectorStoreFilePayload file))))
  end).

Definition listVectorStoreFiles (storeID : string) (values : Values) : ST rhworld rreply :=
  otherwise (query ← st_lift (parseListVectorStoreFilesQuery storeID values); on_rstore (ListVectorStoreFiles query)) (fun '(page, hasMore) =>
  ok_json (list_json (map vt_ID page) (map vectorStoreFilePayload page) hasMore)).

Definition getVectorStoreFile (storeID fileID : string) : ST rhworld rreply :=
  otherwise (on_rstore (GetVectorStoreFile storeID fileID)) (fun file => ok_json (vectorStoreFilePayload file)).

Definition deleteVectorStoreFile (storeID fileID : string) : ST rhworld rreply :=
  otherwise (on_rstore (DeleteVectorStoreFile storeID fileID)) (fun _ => ok_json (deleted_json fileID "vector_store.file.deleted")).

(** *** Searching *)

Record ranking_options := { ro_Ranker : string; ro_ScoreThreshold : option float64; ro_HybridSearch : option json }.

Definition float_ptr_into (before : option float64) (t : json) : option (option float64) :=
  match t with JNull => Some None | JNum lit => Some <$> literal_float lit | _ => None end.

Definition ranking_into (before : ranking_options) (t : json) : option ranking_options :=
  members ← struct_members t;
  ranker ← field_into string_into "ranker" members (ro_Ranker before);
  threshold ← field_into float_ptr_into "score_threshold" members (ro_ScoreThreshold before);
  Some {| ro_Ranker := ranker; ro_ScoreThreshold := threshold;
          ro_HybridSearch := match field_raw "hybrid_search" members with None => ro_HybridSearch before | raw => raw end |}.

Record search_request := {
  sx_Query : option json; sx_Filters : string; sx_MaxNumResults : option Z; sx_RewriteQuery : option bool; sx_RankingOptions : ranking_options
}.

Definition decode_search_request (rawBody : string) : option search_request :=
  members ← jparse rawBody ≫= struct_members;
  maxNumResults ← field_ptr int_of "max_num_results" members;
  rewriteQuery ← field_ptr bool_of "rewrite_query" members;
  options ← field_into ranking_into "ranking_options" members {| ro_Ranker := ""; ro_ScoreThreshold := None; ro_HybridSearch := None |};
  Some {| sx_Query := field_raw "query" members; sx_Filters := from_option jprint "" (field_raw "filters" members);
          sx_MaxNumResults := maxNumResults; sx_RewriteQuery := rewriteQuery; sx_RankingOptions := options |}.

(** The queries within the limit, rewritten when that is asked for. *)
Definition search_queries (request : search_request) : res (list string * gval) :=
  parsed ← parseVectorStoreSearchQuery (sx_Query request);
  let '(queries, rawSearchQuery) := parsed in
  let most := sl_RetrievalMaxSearchQueries limits in
  if (most <? Z.of_nat (length queries))%Z then
    query_error ("query must contain at most " +:+ int_text most +:+ " search strings in shim-local retrieval")
  else if decide (sx_RewriteQuery request = Some true) then
    let queries := RewriteSearchQueries queries in
    let rawSearchQuery := SearchQueryPayloadLike rawSearchQuery queries in
    if (most <? Z.of_nat (length queries))%Z then
      if (most <? 0)%Z then Panic
      else let queries := take (Z.to_nat most) queries in Ok (queries, SearchQueryPayloadLike rawSearchQuery queries)
    else Ok (queries, rawSearchQuery)
  else Ok (queries, rawSearchQuery).

Definition results_limit (request : search_request) : res Z :=
  match sx_MaxNumResults request with
  | None => Ok defaultSearchResultsLimit
  | Some n => if ((n <? 1) || (maxSearchResultsLimit <? n))%Z
              then Err (NewValidationError "max_num_results" "max_num_results must be between 1 and 50") else Ok n
  end.

Definition check_ranking (options : ranking_options) : res unit :=
  let ranker := TrimSpace (ro_Ranker options) in
  if decide (ranker <> "" /\ ranker ∉ ["auto"; "none"; "default_2024_08_21"; "default-2024-08-21"])
  then Err (NewValidationError "ranking_options.ranker" "unsupported ranking_options.ranker")
  else match ro_ScoreThreshold options with
  | Some threshold =>
      if fltb threshold f0 || fltb f1 threshold
      then Err (NewValidationError "ranking_options.score_threshold" "ranking_options.score_threshold must be between 0 and 1") else Ok tt
  | None => Ok tt
  end.

(** The query of the store for a request, or why there is none. *)
Definition search_query_of (storeID : string) (request : search_request) : res VectorStoreSearchQuery :=
  queried ← search_queries request;
  filters ← NormalizeVectorStoreSearchFilter (sx_Filters request) "filters";
  maxNumResults ← results_limit request;
  _ ← check_ranking (sx_RankingOptions request);
  hybridSearch ← parseHybridSearchOptions (ro_HybridSearch (sx_RankingOptions request)) "ranking_options.hybrid_search";
  Ok {| sq_VectorStoreID := storeID; sq_Queries := queried.1; sq_Filters := filters; sq_MaxNumResults := maxNumResults;
        sq_Ranker := TrimSpace (ro_Ranker (sx_RankingOptions request));
        sq_ScoreThreshold := ro_ScoreThreshold (sx_RankingOptions request); sq_HybridSearch := hybridSearch;
        sq_RawSearchQuery := queried.2 |}.

Definition run_search (storeID : string) (body : body_read) : ST rhworld rreply :=
  with_body body (fun rawBody =>
  match decode_search_request rawBody with
  | None => mret (bad_request "malformed JSON body")
  | Some request =>
      otherwise (st_lift (search_query_of storeID request)) (fun query =>
      otherwise (on_rstore (SearchVectorStore query)) (fun page => ok_json (search_json page)))
  end).

Definition set_gate (w : rhworld) (gate : option concurrencyGate) : rhworld :=
  {| rh_store := rh_store w; rh_ids := rh_ids w; rh_gate := gate |}.

(** The gate is held while the request runs, and released also when it panics. *)
Definition searchVectorStore (storeID : string) (body : body_read) : ST rhworld rreply := fun w =>
  match tryAcquire (rh_gate w) with
  | (Ok _, gate) =>
      let '(answer, w') := run_search storeID body (set_gate w gate) in
      (answer, match release (rh_gate w') with Some gate => set_gate w' gate | None => w' end)
  | (Err e, gate) => (Ok (error_answer_of e), set_gate w gate)
  | (Panic, gate) => (Panic, set_gate w gate)
  end.
End handlers.

(** ** What they answer *)


Section answers.
Context `{SQ : Sqlite} `{UC : UnixClock} `{LT : LetterTable} `{MO : MapOrder} `{ID : IdSource} `{TX : LibraryText} `{RB : retrievalBackend}.

Lemma error_not_ok e body : error_answer_of e <> Answer 200 body.
Proof.
  unfold error_answer_of. pose proof (MapError_status e) as Hs. destruct (MapError (Some e)) as [status payload]. simpl in Hs.
  intros [= -> _]. revert Hs. unfold error_statuses. rewrite !elem_of_cons, elem_of_nil. lia.
Qed.

(** A handler that answers 200 went through its step. *)
Lemma otherwise_ok {A} (m : ST rhworld A) k w body w' : otherwise m k w = (Ok (Answer 200 body), w') ->
  exists a w1, m w = (Ok a, w1) /\ k a w1 = (Ok (Answer 200 body), w').
Proof.
  unfold otherwise. destruct (m w) as [[a|e|] w1]; [eauto| |done]. intros [= H _]. by apply error_not_ok in H.
Qed.

Lemma lifted_ok {A} (m : res A) w a w' : st_lift (S := rhworld) m w = (Ok a, w') -> m = Ok a /\ w' = w.
Proof. unfold st_lift. by intros [= -> ->]. Qed.

Lemma with_body_ok body k w j w' : with_body body k w = (Ok (Answer 200 j), w') -> exists rawBody, body = BodyRead rawBody /\ k rawBody w = (Ok (Answer 200 j), w').
Proof. destruct body; simpl; [eauto|done..]. Qed.

Lemma on_rstore_ok {A} (m : ST rworld A) w a w' : on_rstore m w = (Ok a, w') ->
  m (rh_store w) = (Ok a, rh_store w') /\ rh_ids w' = rh_ids w /\ rh_gate w' = rh_gate w.
Proof. unfold on_rstore. destruct (m (rh_store w)) as [r s]. by intros [= -> <-]. Qed.

(** ** Searching *)

(** The queries, results and weights of an accepted request are within bounds. *)
Definition within_limits (limits : ServiceLimits) (q : VectorStoreSearchQuery) : Prop :=
  (1 <= sq_MaxNumResults q <= 50)%Z /\ (Z.of_nat (length (sq_Queries q)) <= sl_RetrievalMaxSearchQueries limits)%Z /\
  (forall t, sq_ScoreThreshold q = Some t -> fltb t f0 = false /\ fltb f1 t = false) /\
  (forall o, sq_HybridSearch q = Some o -> fleb (EmbeddingWeight o) f0 && fleb (TextWeight o) f0 = false).

Lemma results_limit_ok request n : results_limit request = Ok n -> (1 <= n <= 50)%Z.
Proof.
  unfold results_limit, defaultSearchResultsLimit, maxSearchResultsLimit. destruct (sx_MaxNumResults request) as [m|]; [|intros [= <-]; lia].
  destruct (_ || _)%bool eqn:E; [done|]. intros [= <-]. apply orb_false_iff in E as [?%Z.ltb_ge ?%Z.ltb_ge]. lia.
Qed.

Lemma search_query_ok limits storeID request q : search_query_of limits storeID request = Ok q ->
  sq_VectorStoreID q = storeID /\ within_limits limits q.
Proof.
  unfold search_query_of. intros ([queries raw] & Hq & H)%res_bind_ok. apply res_bind_ok in H as (filters & Hf & H).
  apply res_bind_ok in H as (n & Hn & H). apply res_bind_ok in H as (u & Hc & H). apply res_bind_ok in H as (hybrid & Hh & [= <-]).
  split; [done|]. unfold within_limits. cbn [sq_MaxNumResults sq_Queries sq_ScoreThreshold sq_HybridSearch fst]. split_and!.
  - by apply results_limit_ok in Hn as [].
  - by apply results_limit_ok in Hn as [].
  - unfold search_queries in Hq. apply res_bind_ok in Hq as ([qs r] & _ & Hq). cbv zeta in Hq.
    destruct (_ <? Z.of_nat (length qs))%Z eqn:E1; [done|]. apply Z.ltb_ge in E1.
    case_decide; [|by injection Hq as <- _]. destruct (_ <? Z.of_nat (length (RewriteSearchQueries qs)))%Z eqn:E2.
    + destruct (_ <? 0)%Z eqn:E3; [done|]. apply Z.ltb_ge in E3. injection Hq as <- _. rewrite length_take. lia.
    + apply Z.ltb_ge in E2. by injection Hq as <- _.
  - intros t Ht. unfold check_ranking in Hc. rewrite Ht in Hc. case_decide; [done|]. destruct (_ || _)%bool eqn:E; [done|]. by apply orb_false_iff in E.
  - intros o ->. unfold parseHybridSearchOptions in Hh. repeat case_match; try done.
    apply res_bind_ok in Hh as (a & _ & Hh). apply res_bind_ok in Hh as (b & _ & Hh). destruct (_ && _)%bool eqn:E; [done|]. by injection Hh as <-.
Qed.

(** The texts that the query of a request stands for. *)
Definition query_texts (t : json) (asked : list string) : Prop :=
  (exists lit, t = JStr lit /\ asked = [unquote lit]) \/ (exists items, t = JArr items /\ opt_map string_of items = Some asked).

(** The query of the store is the one the members of the request ask for: the
    texts of "query", rewritten and cut to the limit of the service when
    "rewrite_query" is true, with the filter, number of results and ranking options
    of the request. *)
Definition asked_for (limits : ServiceLimits) (members : list (string * json)) (q : VectorStoreSearchQuery) : Prop :=
  (exists t asked, field_raw "query" members = Some t /\ query_texts t asked /\ asked <> [] /\ Forall (fun s => TrimSpace s <> "") asked /\
    exists rewrite, field_ptr bool_of "rewrite_query" members = Some rewrite /\
      if decide (rewrite = Some true) then
        sq_Queries q = take (Z.to_nat (sl_RetrievalMaxSearchQueries limits)) (RewriteSearchQueries asked) /\
        sq_RawSearchQuery q ∈ [texts (sq_Queries q); SearchQueryPayload (sq_Queries q)]
      else sq_Queries q = asked /\
        sq_RawSearchQuery q = match t with JArr _ => texts asked | _ => SearchQueryPayload asked end) /\
  NormalizeVectorStoreSearchFilter (from_option jprint "" (field_raw "filters" members)) "filters" = Ok (sq_Filters q) /\
  (exists n, field_ptr int_of "max_num_results" members = Some n /\ sq_MaxNumResults q = default 10%Z n) /\
  exists options, field_into ranking_into "ranking_options" members {| ro_Ranker := ""; ro_ScoreThreshold := None; ro_HybridSearch := None |} = Some options /\
    sq_Ranker q = TrimSpace (ro_Ranker options) /\ sq_ScoreThreshold q = ro_ScoreThreshold options /\
    parseHybridSearchOptions (ro_HybridSearch options) "ranking_options.hybrid_search" = Ok (sq_HybridSearch q).

Lemma parsed_query t queries shown : parseVectorStoreSearchQuery t = Ok (queries, shown) ->
  exists v, t = Some v /\ query_texts v queries /\ queries <> [] /\ Forall (fun s => TrimSpace s <> "") queries /\
    shown = match v with JArr _ => texts queries | _ => SearchQueryPayload queries end.
Proof.
  unfold parseVectorStoreSearchQuery. destruct t as [[| |lit|lit|items|]|]; try done.
  - case_decide; [done|]. intros [= <- <-]. eexists. split; [done|]. split; [left; eauto|]. split; [done|]. by split; [repeat constructor|].
  - destruct (opt_map string_of items) as [[|value values]|] eqn:E; [done| |done]. destruct (existsb _ _) eqn:Ex; [done|]. intros [= <- <-].
    eexists. split; [done|]. split; [right; eauto|]. split; [done|]. split; [|done]. apply Forall_forall. intros x Hx Ht.
    apply not_true_iff_false in Ex. apply Ex, existsb_exists. exists x. split; [by apply list_elem_of_In|by apply bool_decide_eq_true].
Qed.

Lemma searched_queries limits request queries shown : search_queries limits request = Ok (queries, shown) ->
  exists t asked, sx_Query request = Some t /\ query_texts t asked /\ asked <> [] /\ Forall (fun s => TrimSpace s <> "") asked /\
    if decide (sx_RewriteQuery request = Some true) then
      queries = take (Z.to_nat (sl_RetrievalMaxSearchQueries limits)) (RewriteSearchQueries asked) /\
      shown ∈ [texts queries; SearchQueryPayload queries]
    else queries = asked /\ shown = match t with JArr _ => texts asked | _ => SearchQueryPayload asked end.
Proof.
  assert (Hlike : forall raw l, SearchQueryPayloadLike raw l ∈ [texts l; SearchQueryPayload l]).
  { intros raw l. rewrite !elem_of_cons. destruct raw; simpl; auto. }
  intros ([qs raw] & Hq & H)%res_bind_ok. apply parsed_query in Hq as (t & Ht & Htexts & Hne & Hall & Hraw). cbv zeta in H.
  exists t, qs. do 4 (split; [done|]). destruct (_ <? Z.of_nat (length qs))%Z eqn:E1; [done|]. apply Z.ltb_ge in E1.
  case_decide; [|by injection H as <- <-]. destruct (_ <? Z.of_nat (length (RewriteSearchQueries qs)))%Z eqn:E2.
  - destruct (_ <? 0)%Z; [done|]. injection H as <- <-. by split.
  - apply Z.ltb_ge in E2. injection H as <- <-. rewrite take_ge by lia. by split.
Qed.

Lemma decoded_search limits storeID rawBody request q : decode_search_request rawBody = Some request ->
  search_query_of limits storeID request = Ok q ->
  exists doc members, jparse rawBody = Some doc /\ struct_members doc = Some members /\ asked_for limits members q.
Proof.
  unfold decode_search_request. intros (members & (doc & Hdoc & Hm)%bind_Some & H)%bind_Some.
  apply bind_Some in H as (n & Hn & H). apply bind_Some in H as (rewrite & Hrw & H). apply bind_Some in H as (options & Ho & [= <-]).
  unfold search_query_of. cbn [sx_Filters sx_RankingOptions]. intros ([queries shown] & Hq & H)%res_bind_ok. apply res_bind_ok in H as (filters & Hf & H).
  apply res_bind_ok in H as (most & Hmost & H). apply res_bind_ok in H as (u & _ & H). apply res_bind_ok in H as (hybrid & Hh & [= <-]).
  apply searched_queries in Hq as (t & asked & Ht & Htexts & Hne & Hall & Hq). exists doc, members. do 2 (split; [done|]). split.
  { exists t, asked. do 4 (split; [done|]). by exists rewrite. }
  split; [done|]. split; [|by exists options]. exists n. split; [done|]. unfold results_limit in Hmost. cbn [sx_MaxNumResults sq_MaxNumResults] in *.
  destruct n; simpl; [|by injection Hmost as <-]. destruct (_ || _)%bool; [done|]. by injection Hmost as <-.
Qed.

Lemma page_query q search w page w' : search_page q search w = (Ok page, w') -> sp_SearchQuery page = sq_RawSearchQuery q.
Proof.
  intros (r & w1 & _ & H)%st_bind_ok. apply st_bind_ok in H as (l & w2 & _ & H). apply st_bind_ok in H as (u & w3 & _ & [= <- _]). done.
Qed.

Lemma gate_back gate gate' : (match gate with Some g => 0 <= cg_held g | None => True end)%Z -> tryAcquire gate = (Ok tt, gate') -> release gate' = Some gate.
Proof.
  destruct gate as [[scope cap held]|]; simpl; intros Hh; [|by intros [= <-]]. destruct (held <? cap)%Z; intros H; [|done]. injection H as <-. simpl.
  rewrite (proj2 (Z.eqb_neq _ _)) by lia. unfold with_held. simpl. do 3 f_equal. lia.
Qed.
End answers.

(** C11 (functional): a search request that is answered with status 200 was a JSON
    document within the limits of the service (results, queries, threshold,
    weights).  The query of the search is the one the document asks for: its texts,
    rewritten when it says so, its filter, number of results and ranking options.
    The answer shows that query and lists, in order, the best matches for it among
    the chunks of the store, at most the number asked for, and the gate is held
    afterwards as it was before. *)
Theorem search_answered `{SQ : Sqlite} `{UC : UnixClock} `{LT : LetterTable} `{MO : MapOrder} `{TX : LibraryText}
    limits storeID body w answer w' :
  (match rh_gate w with Some g => 0 <= cg_held g | None => True end)%Z ->
  searchVectorStore (RB := lexicalRetrievalBackend) limits storeID body w = (Ok (Answer 200 answer), w') ->
  exists rawBody doc members q page, body = BodyRead rawBody /\ jparse rawBody = Some doc /\ struct_members doc = Some members /\
    asked_for limits members q /\ within_limits limits q /\ sq_VectorStoreID q = storeID /\ answer = search_json page /\
    sp_SearchQuery page = sq_RawSearchQuery q /\
    best_matches q (lexical_rows storeID (rw_db (rh_store w))) (Z.to_nat (sq_MaxNumResults q)) (sp_Results page) /\
    rh_gate w' = rh_gate w.
Proof.
  intros Hg. unfold searchVectorStore. destruct (tryAcquire (rh_gate w)) as [[[]|e|] gate] eqn:Eg.
  2: { intros [= H _]. by apply error_not_ok in H. }
  2: { done. }
  pose proof (gate_back _ _ Hg Eg) as Hback. destruct (run_search _ _ _ _) as [r w1] eqn:Er. intros [= -> <-].
  apply with_body_ok in Er as (rawBody & -> & Er). destruct (decode_search_request rawBody) as [request|] eqn:Ed; [|done].
  apply otherwise_ok in Er as (q & w2 & [Hq ->]%lifted_ok & Er). apply otherwise_ok in Er as (page & w3 & Hp & [= <- <-]).
  apply on_rstore_ok in Hp as (Hp & _ & Hgate). destruct (decoded_search _ _ _ _ _ Ed Hq) as (doc & members & Hdoc & Hm & Hask). apply search_query_ok in Hq as [Hid Hlim].
  pose proof (page_query _ _ _ _ _ Hp) as Hraw. apply search_page_ok in Hp as (results & w4 & Hs & _ & Hres & _).
  apply lexical_results_ok in Hs as (_ & best & Hbest & ->). rewrite Hid in Hbest.
  exists rawBody, doc, members, q, page. do 8 (split; [done|]). split; [rewrite Hres; by apply best_matches_take|].
  rewrite Hgate. simpl. by rewrite Hback.
Qed.

Definition no_texts : LibraryText := {| library_text _ := "" |}.
Definition search_limits : ServiceLimits :=
  {| sl_JSONBodyBytes := 1024; sl_RetrievalFileUploadBytes := 1024; sl_ChatCompletionsShadowStoreBytes := 0; sl_ChatCompletionsShadowStoreTimeout := 0;
     sl_ResponsesProxyBufferBytes := 0; sl_CustomToolGrammarDefinitionBytes := 0; sl_CustomToolCompiledPatternBytes := 0;
     sl_RetrievalMaxConcurrentSearches := 1; sl_RetrievalMaxSearchQueries := 4; sl_RetrievalMaxGroundingChunks := 0;
     sl_CodeInterpreterMaxConcurrentRuns := 0 |}.
Definition demo_search : body_read := BodyRead (sq "{'query':'quick dogs','max_num_results':1}").
Definition demo_rh : rhworld :=
  {| rh_store := demo_world; rh_ids := 0; rh_gate := Some {| cg_scope := "search"; cg_capacity := 1; cg_held := 0 |} |}.
Definition demo_answered : res rreply * rhworld := Eval vm_compute in
  searchVectorStore (H1 := ascii_letters) (H2 := sorted_order) (H4 := no_texts)
    (RB := lexicalRetrievalBackend (H := all_well) (H0 := clock_0) (H1 := ascii_letters) (H2 := sorted_order)) search_limits "vs_1" demo_search demo_rh.
Definition demo_results : json := match demo_answered.1 with Ok (Answer _ body) => body | _ => JNull end.

Lemma search_answered_witness :
  demo_answered.1 = Ok (Answer 200 demo_results) /\
  exists rawBody doc members q page, demo_search = BodyRead rawBody /\ jparse rawBody = Some doc /\ struct_members doc = Some members /\
    asked_for (LT := ascii_letters) (MO := sorted_order) search_limits members q /\ within_limits search_limits q /\ sq_VectorStoreID q = "vs_1" /\ demo_results = search_json page /\
    sp_SearchQuery page = sq_RawSearchQuery q /\
    best_matches (LT := ascii_letters) q (lexical_rows "vs_1" (rw_db demo_world)) (Z.to_nat (sq_MaxNumResults q)) (sp_Results page) /\
    rh_gate demo_answered.2 = rh_gate demo_rh.
Proof.
  split; [reflexivity|].
  apply (search_answered (SQ := all_well) (UC := clock_0) (LT := ascii_letters) (MO := sorted_order) (TX := no_texts)
    search_limits "vs_1" demo_search demo_rh demo_results demo_answered.2); [simpl; lia|vm_compute; reflexivity].
Defined.

(** ** Files *)

Section files.
Context `{SQ : Sqlite} `{UC : UnixClock} `{ID : IdSource} `{TX : LibraryText}.

Lemma stake_within n s : String.length (stake n s) < n -> stake n s = s.
Proof.
  rewrite stake_length. intros Hn. rewrite <- (stake_sdrop n s) at 2. 
  assert (sdrop n s = "") as ->; [|by rewrite sapp_nil_r].
  pose proof (stake_sdrop n s) as E%(f_equal String.length). rewrite slength_app, stake_length in E. destruct (sdrop n s); simpl in *; [done|lia].
Qed.

Lemma GetFile_row id row w : stmt_fails (rw_stmts (rh_store w)) = false -> files (rw_db (rh_store w)) !! id = Some row ->
  exists w', on_rstore (GetFile id) w = (Ok (scanStoredFile id row), w').
Proof.
  intros Hs Hr. unfold on_rstore, GetFile, mbind, st_bind, rquery_raw, rexec_raw. rewrite Hs, Hr. simpl. eauto.
Qed.

Lemma SaveFile_ok file w w' : on_rstore (SaveFile file) w = (Ok tt, w') -> sf_Status file = "processed" ->
  exists row, files (rw_db (rh_store w')) !! sf_ID file = Some row /\ scanStoredFile (sf_ID file) row = file.
Proof.
  intros (Hs & _ & _)%on_rstore_ok Hst. apply rexec_ok in Hs. injection Hs as <-. simpl. rewrite lookup_insert_eq.
  eexists. split; [done|]. unfold scanStoredFile. simpl. rewrite Hst. simpl. rewrite <- Hst. by destruct file.
Qed.

Lemma createFile_ok limits all values filename whole w body w' : is_int (sl_RetrievalFileUploadBytes limits + 1) = true ->
  createFile limits (FormRead all values (Some (filename, Some whole))) w = (Ok (Answer 200 body), w') ->
  exists file w1, body = fileObjectPayload file /\ on_rstore (SaveFile file) w1 = (Ok tt, w') /\ sf_Status file = "processed" /\
    sf_Filename file = filename /\ sf_Content file = whole /\ sf_Bytes file = Z.of_nat (String.length whole) /\
    (sf_Bytes file <= sl_RetrievalFileUploadBytes limits)%Z.
Proof.
  intros Hint. unfold createFile. rewrite wrap_int_id by done. cbv zeta. case_decide; [intros [= E _]; by apply error_not_ok in E|].
  intros (expiresAt & w1 & _ & H1)%otherwise_ok. destruct (_ <? _)%Z eqn:E; [discriminate H1|]. apply Z.ltb_ge in E.
  apply otherwise_ok in H1 as (fileID & w2 & _ & H1). apply otherwise_ok in H1 as (now & w3 & _ & H1).
  apply otherwise_ok in H1 as ([] & w4 & Hsave & [= <- <-]). rewrite stake_within in * by lia. do 2 eexists. by split_and!.
Qed.
End files.

(** Fact (roundtrip): a file whose upload was answered with status 200 is within the
    upload limit, and as long as no request changes its row, it is shown as it was
    answered and downloaded with the uploaded bytes, under its name without the
    characters that would end a header. *)
Theorem upload_downloads `{SQ : Sqlite} `{UC : UnixClock} `{ID : IdSource} `{TX : LibraryText} limits all values filename whole w body w1 :
  is_int (sl_RetrievalFileUploadBytes limits + 1) = true ->
  createFile limits (FormRead all values (Some (filename, Some whole))) w = (Ok (Answer 200 body), w1) ->
  (Z.of_nat (String.length whole) <= sl_RetrievalFileUploadBytes limits)%Z /\
  exists file, body = fileObjectPayload file /\ sf_Filename file = filename /\ sf_Bytes file = Z.of_nat (String.length whole) /\
  forall w2, files (rw_db (rh_store w2)) !! sf_ID file = files (rw_db (rh_store w1)) !! sf_ID file ->
    stmt_fails (rw_stmts (rh_store w2)) = false ->
    (getFileContent (sf_ID file) w2).1 = Ok (Download (sanitizeContentDispositionFilename filename) whole) /\
    (getFile (sf_ID file) w2).1 = Ok (Answer 200 body).
Proof.
  intros Hint (file & w0 & -> & Hsave & Hst & <- & <- & Hb & Hl)%createFile_ok; [|done]. split; [lia|]. exists file. split; [done|]. split; [done|].
  split; [done|]. intros w2 Hrow Hs. apply SaveFile_ok in Hsave as (row & Hr & Hfile); [|done]. rewrite Hr in Hrow.
  destruct (GetFile_row _ _ w2 Hs Hrow) as [w3 Hget]. rewrite Hfile in Hget. unfold getFileContent, getFile, otherwise. by rewrite Hget.
Qed.

Definition demo_form : form_read := FormRead [("purpose", ["assistants"])] [("purpose", ["assistants"])] (Some ("notes.txt", Some "the quick brown fox")).
Definition demo_uploaded : res rreply * rhworld := Eval vm_compute in
  createFile (H := all_well) (H0 := clock_0) (H3 := zeros_ids) (H4 := no_texts) search_limits demo_form demo_rh.
Definition demo_file_object : json := match demo_uploaded.1 with Ok (Answer _ body) => body | _ => JNull end.

Lemma upload_downloads_witness : demo_uploaded.1 = Ok (Answer 200 demo_file_object) /\
  exists file, demo_file_object = fileObjectPayload file /\ sf_Filename file = "notes.txt" /\ sf_Bytes file = 19%Z /\
    (getFileContent (H := all_well) (H4 := no_texts) (sf_ID file) demo_uploaded.2).1 = Ok (Download "notes.txt" "the quick brown fox").
Proof.
  split; [reflexivity|].
  destruct (upload_downloads (SQ := all_well) (UC := clock_0) (ID := zeros_ids) (TX := no_texts) search_limits [("purpose", ["assistants"])] [("purpose", ["assistants"])]
    "notes.txt" "the quick brown fox" demo_rh demo_file_object demo_uploaded.2 eq_refl ltac:(vm_compute; reflexivity)) as (_ & file & Hb & Hn & Hl & Hget).
  exists file. split; [exact Hb|]. split; [exact Hn|]. split; [exact Hl|].
  exact (proj1 (Hget demo_uploaded.2 eq_refl eq_refl)).
Defined.

(** ** What failing and extreme requests do *)

(** Fact (error): a store whose creation is refused, because of a file it names,
    has been created all the same. *)
Fact refused_store_stays :
  let run := createVectorStore (H := all_well) (H0 := clock_0) (H1 := ascii_letters) (H2 := sorted_order) (H3 := zeros_ids) (H4 := no_texts)
    (RB := lexicalRetrievalBackend (H := all_well) (H0 := clock_0) (H1 := ascii_letters) (H2 := sorted_order)) in
  forall body, body ∈ ["{'file_ids':['']}"; "{'file_ids':['file_unknown']}"] ->
  let '(answer, w) := run (BodyRead (sq body)) demo_rh in
  (exists status payload, answer = Ok (Answer status payload) /\ (400 <= status)%Z) /\
  (size (vector_stores (rw_db (rh_store w))) = S (size (vector_stores (rw_db (rh_store demo_rh)))))%nat.
Proof.
  cbv zeta. intros body Hb. apply elem_of_cons in Hb as [->|Hb]; [|apply list_elem_of_singleton in Hb as ->];
    vm_compute; (split; [do 2 eexists; split; [reflexivity|discriminate]|reflexivity]).
Qed.

(** Fact (bounds): a policy of very many days gives a store that expired long ago:
    the product of days and seconds wraps around. *)
Fact expires_after_wraps :
  parseVectorStoreExpiresAfter 0 (jparse (sq "{'anchor':'last_active_at','days':106751991167301}")) =
  Ok (Some {| ep_Anchor := "last_active_at"; ep_Days := 106751991167301 |}, Some (-9223372036854745216)%Z).
Proof. vm_compute. reflexivity. Qed.

(** Fact (bounds): up to 100 billion days it does not wrap. *)
Fact expires_after_exact now t policy expiresAt : (0 <= now < 2 ^ 40)%Z ->
  parseVectorStoreExpiresAfter now (Some t) = Ok (Some policy, expiresAt) -> (ep_Days policy <= 10 ^ 11)%Z ->
  (0 < ep_Days policy)%Z /\ expiresAt = Some (now + ep_Days policy * 86400)%Z.
Proof.
  intros Hn. unfold parseVectorStoreExpiresAfter. destruct t; [done|..];
    (destruct (policy_into _ _) as [[anchor days]|]; [|done]; case_decide; [done|];
     destruct (days <? 1)%Z eqn:E; [done|]; apply Z.ltb_ge in E; intros [= <- <-]; simpl; intros Hd;
     split; [lia|]; f_equal; rewrite (wrap_int_id (days * 86400)), wrap_int_id by (unfold is_int, min_int, max_int; lia); done).
Qed.
